(* ===== verification/_CoqProject ===== *)
-Q . S2P
Prelude.v
Bits.v
Network.v
Topology.v
Routing.v
TopologyFiles.v
AddrMap.v
Packet.v
Link.v
Vault.v
Dram.v
Hmc.v
Scheduler.v
Tick.v
Host.v
FlexiList.v
Buddy.v
Mesi.v
PageTable.v
Tlb.v
Reversed.v
Walker.v
PrioQueue.v
Hash.v
Repl.v
CacheArray.v
ZArray.v
Locks.v
InList.v
Barrier.v
MtRand.v
ThreadSched.v
SchedParts.v
SchedInv.v
SchedOps.v
SchedHist.v
SchedProps.v
FutexMatch.v
