(* ===== verification/Prelude.v ===== *)
(** * MultiPIM: a verification library

    MultiPIM simulates systems with processing in memory.  A simulator of cores
    and caches derived from zsim (src/src/) drives a model of stacked memories
    derived from ramulator (src/src/ramulator/).  A memory access of a core
    passes these parts:

    - virtual memory: two translation buffers of the core and its page-table
      walker (src/src/tlb/) find the physical page; the page tables of a
      process (src/src/page-table/) take their physical pages from a buddy
      allocator over zones (src/src/mmu/), whose free lists are intrusive lists
      (src/src/common/);
    - the caches: arrays of lines with hashing and replacement policies
      (src/src/cache_arrays.cpp, hash.cpp, repl_policies.h), kept coherent by
      MESI controllers (src/src/coherence_ctrls.cpp) and backed by a memory;
    - the stacks: [Memory<HMC>] (HMC_Memory.h, HMC_Memory.cpp) maps the address
      to a stack, a vault and a row, forms a packet and sends it over a link;
      links between stacks follow a wiring and routes that are written in the
      program or read from a topology file (MemTopoParser.cpp); the links use
      tokens for flow control (LogicLayer.cpp); a vault controller
      (HMC_Controller.h) queues the request, lets a scheduler (Scheduler.h)
      choose among the queued ones, issues the commands the device needs
      (DRAM.h, HMC.cpp) when their timing allows it, refreshes the device
      (Refresh.h) and answers the request.

    Events that delay an access are simulated in the order of their cycles,
    which a priority queue keeps (src/src/prio_queue.h).  A scheduler
    (src/src/scheduler.h, scheduler.cpp) gives the threads of the simulated
    programs to the cores, which run in phases under a barrier
    (src/src/barrier.h); system calls of the programs leave and join it, and
    those on futexes are matched (src/src/virt/timeout.cpp).  Shared objects are
    protected by locks of the simulator (src/src/locks.h, mutex.h).

    ** Files

    - Prelude: integers of machine width, the type [outcome] of operations that
      can stop (failed assert, panic, null dereference, out of range,
      undefined behaviour, fuel), its monad and tactics, lists and finite maps.
    - Bits: common_functions.h, bithacks.h, the hash of
      [MESIBottomCC::getParentId].
    - Network: wired networks, routing functions and the walk along a route
      ([Memory::estimateMemHops]); [Delivers] and [Shortest] are the classes
      that say what a routing function promises.
    - Topology: [MemTopoParser], [MemoryTopology], [connect_memnodes].
    - Routing: [connect_hmcs_Mesh], [connect_hmcs_Dragonfly],
      [get_route_link_Mesh], [get_route_link_Dragonfly] for 4, 8, 16 stacks.
    - TopologyFiles: the six files of configs/ramulator as parser events.
    - AddrMap: the field widths of the constructor of [Memory<HMC>],
      [address_mapping] and the functions that use it.
    - Packet: Request.h, Packet.h, [assign_tag], [form_request_packet],
      [receive_packets].
    - Link: [LinkMaster], [LinkSlave], and what the switch and the host do to
      the buffers of a link.
    - Vault: the queues of [Controller<HMC>] from [receive] to the response.
    - Dram: [DRAM<T>], the tree of a device with its rows, states, timing and
      request counters, for any standard.
    - Hmc: the standard [HMC]: prerequisites, row hits, transitions and the
      timing table.
    - Scheduler: [Scheduler], [RowTable], [RowPolicy] against an interface of
      the controller.
    - Tick: [Controller::tick] as a whole, composing Vault, Dram, Hmc and
      Scheduler with [Refresh::tick_ref].
    - Host: [Memory::send] for host and PIM requests.
    - FlexiList: the intrusive list, over a store of next pointers.
    - Buddy: [MemoryNode], [Zone], [BuddyAllocator].
    - Mesi: [MESIBottomCC], [MESITopCC], [MESICC], [MESITerminalCC] for one line
      of a tree of inclusive caches.
    - PageTable: [BasePDTEntry], [PageTable], [LongModePaging]; [PageSource] is
      the class of allocators it relies on and the buddy allocator an instance.
    - Tlb: [TlbEntry], [CommonTlb]; the walker below is an argument.
    - Reversed: [ReversedPaging], page tables with an index by physical page.
    - Walker: [PageTableWalker], [FilterCache::TlbTranslate] and the part of
      [setCid] that moves a core to a process, composing Tlb, Reversed,
      PageTable and Buddy.
    - PrioQueue: [PrioQueue], a ring of blocks with an occupancy word each and
      a map of far events, over the store of next pointers.
    - Hash: [H3HashFamily], [IdHashFamily] behind the class [HashFamily].
    - Repl: [LRUReplPolicy], [TreeLRUReplPolicy], [NRUReplPolicy],
      [RandReplPolicy], [LFUReplPolicy]; the class [ReplPolicy] is what an
      array relies on.
    - CacheArray: [SetAssocArray], [CDSetAssocArray] and the part of
      [Cache::access] that uses an array; the class [CacheArray] is the contract
      of arrays, for any policy and hash family.
    - ZArray: [ZArray], the other instance of that contract.
    - Locks: the futex lock and its variants, the spin lock, the ticket lock and
      [rwmutex], as interleavings of atomic instructions of many threads.
    - InList: [InListNode], [InList], doubly linked lists over a store of nodes.
    - Barrier: [Barrier], the phase barrier.
    - MtRand: [MTRand], the random number generator.
    - ThreadSched: [Scheduler] of the threads, over the barrier.  SchedParts,
      SchedInv and SchedOps hold the invariants of its parts, of its state and
      of its operations, SchedHist those of histories and of the watchdog,
      SchedProps the theorems.
    - FutexMatch: [PrePatchFutex], [PostPatchFutex] and the matching of wake-ups
      in the scheduler.

    Definitions keep the names of the source.  Objects that are shared are held
    in stores: next pointers of blocks and descriptors of pages by page
    number, page tables by identifier, caches of the tree by position.

    ** What the theorems show

    - Routing and TopologyFiles: following the routes delivers every packet on
      a shortest path for all shipped sizes; the topology files configure the
      same network as the built-in tables; which of these networks have acyclic
      channel dependencies.  Topology: what the parser accepts is consistent.
    - AddrMap: decoding is a bijection between the addresses of the device and
      its coordinates, for all four interleavings.
    - Link, Vault, Host: tokens are conserved over all sequences of steps and
      come back; every request that a vault accepts is queued or answered once;
      every tag is in its pool, with a request that was sent, or lost with one
      that [send] refused; defects of [send].
    - FlexiList, Buddy: the list refines sequences; the allocator never hands
      out a page twice over any history; what initialisation and allocation do
      on every branch; three defects.
    - Mesi: a single writer, exact directories, no failing
      assertion and no lost modified data in every reachable state of a
      hierarchy of any shape.
    - PageTable: the tables of a process refine a finite map over any history
      of mappings and walks, with the buddy allocator below; what unmapping
      does; two defects.
    - Dram, Hmc: a command is accepted exactly when the history of issued
      commands meets every timing constraint; an access needs at most two
      commands before it.
    - Scheduler, Tick: which request is chosen; the tick of a controller returns
      in every reachable state and keeps row table, device, counters and
      refresh in agreement; defects of the policies that are not the default.
    - Tlb: the buffer refines a list of slots in order of use with eviction of
      the least recently used one, under all its operations.  Reversed: what moving a page does.
    - Walker: over any history of translations, page faults and moves of cores
      between processes, translation is one injective function of process and
      virtual page, as long as the cores that cannot flush their buffers stay
      with one process; a defect of these cores.
    - PrioQueue: over any history the queue is a multiset of events in order of
      cycles.  Hash: the unrolled hash is a linear closed form.  Repl: which line
      the policies choose; a truncated score.
    - CacheArray, ZArray: over any history of accesses both arrays are partial
      injective maps from lines to numbers; the walk of a Z array ends, its path
      has no loop and fits its buffer.
    - Locks: in every interleaving the locks exclude, no sleeping thread is
      forgotten, tickets are served in order, readers and writers exclude each
      other and one of them can always go on.
    - InList: the lists refine disjoint sequences.  Barrier: the barrier refines
      an automaton of phases and never leaves all threads waiting, whenever
      threads leave; a defect of joining again after leaving early.
    - MtRand: the outputs follow the recurrence of the Mersenne twister, 624 of
      them determine the rest, and what a draw from a range returns.
    - SchedProps: over any history threads, contexts, queues, cores and barrier
      agree, no operation fails, no core idles while a waiting thread may use
      it, waiting threads are served at the end of a quantum, and the watchdog
      ends; a defect of the watchdog.  FutexMatch: the allowance of wake-ups is
      exact up to what failed wakes leave in it; a defect with negative counts.

    ** Bounds and fuel

    The route tables are finite, so facts about them are decided by
    computation for the sizes the code supports (4, 8 and 16 stacks).  Walks
    along routes have fuel; the theorems show how many hops are enough.  The
    search of [fetch_block] has fuel that the length of the list bounds.  The
    search of the priority queue for a populated block has the distance to
    the earliest event as fuel, the walk of a Z array its number of candidates;
    the theorems show that both are enough.  All
    other loops are structural (orders, children, levels).  The
    clock of a controller is an unbounded integer; the theorems on its tick are
    for every scheduler but the capped one, under the default row policy.  They
    rest on every command being ready at most 200 cycles after the last one, so
    that a refresh waits less than 400 of the 9750 cycles between two of them.
    The sequence numbers of a translation buffer are 32-bit
    signed integers that no constructor sets, and an operation uses at most
    three of them; the theorems are for histories in which they start
    non-negative and stay below 2^31.  Addresses have 48 bits, as
    the page tables read them.  Cycles in the
    priority queue are below 2^63.  Cache arrays have fewer than 2^31 lines and
    the stamps of the replacement policies are 64-bit words.  The phases of the
    thread scheduler are unbounded integers, it has at most 2048 cores, as the
    barrier does; the watchdog drives time with one round per phase up to the
    first wake-up and one more as fuel, and ends fake leaves with their number
    as fuel.  Matching of futexes is for 2^24 wake-ups
    per thread and those that failed wakes leave behind below 2^32 in sum, so that its
    32-bit counter does not wrap: at most 255 threads if no wake fails.  The
    identifiers of packets that arrive at a vault are not among those queued there.

    ** Not modelled

    The events that link memory accesses for the contention simulation,
    statistics, floating-point code (watermarks, MD1), the crossbar (an
    external network simulator), partitioned caches, instrumentation, core
    models, the process tree, virtual time and construction from configuration
    files.  The time that threads of the host wait is not modelled: a wait on a
    futex word is a step that is taken when the word allows it.  The locks are verified on their
    own; elsewhere an operation that runs under a lock is one step. *)

From Stdlib Require Export ZArith Lia Bool.
From stdpp Require Export base list list_numbers gmap numbers relations option strings.

#[global] Open Scope Z_scope.

(** ** Machine-width integers

    An unsigned [w]-bit value of the source is a [Z] in [0, 2^w); an operation
    that can leave the range is followed by the wrap of its width. *)

Definition wrap (w x : Z) : Z := x mod 2 ^ w.

Definition u8 (x : Z) : Z := wrap 8 x.
Definition u16 (x : Z) : Z := wrap 16 x.
Definition u32 (x : Z) : Z := wrap 32 x.
Definition u64 (x : Z) : Z := wrap 64 x.

(** Conversion to a two's complement [int]. *)
Definition i32 (x : Z) : Z :=
  let y := u32 x in if bool_decide (y < 2 ^ 31) then y else y - 2 ^ 32.

Definition in_u (w x : Z) : Prop := 0 <= x < 2 ^ w.

#[global] Instance in_u_dec w x : Decision (in_u w x).
Proof. unfold in_u. apply _. Defined.

(** ** Outcomes

    The simulator stops on a failed [assert], on [panic]/[fatal], on a null
    dereference and on an access outside a container.  An operation that can
    do so returns an [outcome].  [Undefined] marks a step whose behaviour the
    language leaves open; [OutOfFuel] a loop of the model that was cut short. *)

Inductive stop : Type :=
  | AssertFailed
  | Panicked
  | NullDeref
  | OutOfRange
  | Undefined
  | OutOfFuel.

#[global] Instance stop_eq_dec : EqDecision stop.
Proof. solve_decision. Defined.

Inductive outcome (A : Type) : Type :=
  | Ret (a : A)
  | Stop (e : stop).
Arguments Ret {A} a.
Arguments Stop {A} e.

#[global] Instance outcome_eq_dec {A} `{EqDecision A} : EqDecision (outcome A).
Proof. solve_decision. Defined.

#[global] Instance outcome_ret : MRet outcome := @Ret.
#[global] Instance outcome_bind : MBind outcome := fun A B k m =>
  match m with Ret a => k a | Stop e => Stop e end.
#[global] Instance outcome_fmap : FMap outcome := fun A B f m =>
  match m with Ret a => Ret (f a) | Stop e => Stop e end.

(** [assert(b)] of the source. *)
Definition assert_ (b : bool) : outcome unit := if b then Ret tt else Stop AssertFailed.

(** A container access that stops outside the container. *)
Definition at_ {A} (l : list A) (i : Z) : outcome A :=
  if bool_decide (0 <= i) then
    match l !! Z.to_nat i with Some a => Ret a | None => Stop OutOfRange end
  else Stop OutOfRange.

Definition set_at {A} (l : list A) (i : Z) (a : A) : outcome (list A) :=
  if bool_decide (0 <= i < Z.of_nat (length l)) then Ret (<[Z.to_nat i := a]> l)
  else Stop OutOfRange.

(** [std::vector::resize]: new elements are value-initialised. *)
Definition resize_ {A} (l : list A) (n : Z) (d : A) : list A :=
  take (Z.to_nat n) l ++ replicate (Z.to_nat n - length l) d.

(** A loop body run over a list of indices, stopping at the first failure. *)
Fixpoint fold_ {A S} (f : S -> A -> outcome S) (l : list A) (s : S) : outcome S :=
  match l with
  | [] => Ret s
  | a :: l => s' ← f s a; fold_ f l s'
  end.

Definition is_ret {A} (m : outcome A) : bool :=
  match m with Ret _ => true | Stop _ => false end.

(** The value of a computation that returns. *)
Definition ret_or {A} (d : A) (m : outcome A) : A := match m with Ret a => a | Stop _ => d end.

Lemma ret_or_spec {A} (d : A) (m : outcome A) : is_ret m = true -> m = Ret (ret_or d m).
Proof. by destruct m. Qed.

Lemma bind_ret_inv {A B} (m : outcome A) (k : A -> outcome B) b :
  (m ≫= k) = Ret b -> exists a, m = Ret a /\ k a = Ret b.
Proof. destruct m; simpl; [eauto | discriminate]. Qed.

Lemma assert_ret_inv b u : assert_ b = Ret u -> b = true.
Proof. by destruct b. Qed.

Lemma at_ret_iff {A} (l : list A) i a :
  at_ l i = Ret a <-> 0 <= i /\ l !! Z.to_nat i = Some a.
Proof.
  unfold at_. case_bool_decide; [destruct (l !! Z.to_nat i)|]; naive_solver.
Qed.

Lemma at_stop {A} (l : list A) i :
  ~ (0 <= i < Z.of_nat (length l)) -> at_ l i = Stop OutOfRange.
Proof.
  intros Hi. unfold at_. case_bool_decide; [|done].
  rewrite lookup_ge_None_2; [done|lia].
Qed.

Lemma at_in_range {A} (l : list A) i :
  0 <= i < Z.of_nat (length l) -> exists a, at_ l i = Ret a.
Proof.
  intros Hi. destruct (lookup_lt_is_Some_2 l (Z.to_nat i)) as [a Ha]; [lia|].
  exists a. apply at_ret_iff. split; [lia|done].
Qed.

Lemma set_at_ret_iff {A} (l l' : list A) i a :
  set_at l i a = Ret l' <-> 0 <= i < Z.of_nat (length l) /\ l' = <[Z.to_nat i := a]> l.
Proof. unfold set_at. case_bool_decide; naive_solver. Qed.

Lemma set_at_ret {A} (l : list A) i a : 0 <= i < Z.of_nat (length l) -> set_at l i a = Ret (<[Z.to_nat i := a]> l).
Proof. intros. by apply set_at_ret_iff. Qed.

Lemma at_ret {A} (l : list A) i a : 0 <= i -> l !! Z.to_nat i = Some a -> at_ l i = Ret a.
Proof. intros. by apply at_ret_iff. Qed.

Lemma length_resize {A} (l : list A) n d : length (resize_ l n d) = Z.to_nat n.
Proof. unfold resize_. rewrite length_app, length_take, length_replicate. lia. Qed.

Lemma fold_invariant {A S} (f : S -> A -> outcome S) (I : S -> Prop) l s s' :
  (forall a s s', a ∈ l -> I s -> f s a = Ret s' -> I s') ->
  I s -> fold_ f l s = Ret s' -> I s'.
Proof.
  revert s. induction l as [|a l IH]; intros s Hf Hs Hr; simpl in Hr; [by injection Hr as <-|].
  destruct (f s a) as [s1|] eqn:E; [|done]. simpl in Hr.
  apply (IH s1); [|by eapply Hf; [constructor| |]|done].
  intros b t t' Hb. apply Hf. by constructor.
Qed.

Lemma fold_total {A S} (f : S -> A -> outcome S) (I : S -> Prop) l s :
  (forall a s, a ∈ l -> I s -> exists s', f s a = Ret s' /\ I s') ->
  I s -> exists s', fold_ f l s = Ret s' /\ I s'.
Proof.
  revert s. induction l as [|a l IH]; intros s Hf Hs; simpl; [eauto|].
  destruct (Hf a s) as (s1 & -> & H1); [constructor|done|]. simpl.
  apply IH; [|done]. intros b t Hb. apply Hf. by constructor.
Qed.

(** A loop whose body never stops is a pure fold. *)
Lemma fold_pure {A S} (f : S -> A -> outcome S) (g : S -> A -> S) l s :
  (forall a s, a ∈ l -> f s a = Ret (g s a)) -> fold_ f l s = Ret (foldl g s l).
Proof.
  revert s. induction l as [|a l IH]; intros s Hf; simpl; [done|].
  rewrite Hf by constructor. simpl. apply IH. intros b t Hb. apply Hf. by constructor.
Qed.

(** ** Tactics *)

(** Splits a [Ret]-valued computation into its steps. *)
Ltac outcome_steps :=
  repeat match goal with
  | H : (_ ≫= _) = Ret _ |- _ => apply bind_ret_inv in H as (? & ? & ?)
  | H : assert_ _ = Ret _ |- _ => apply assert_ret_inv in H
  | H : Ret _ = Ret _ |- _ => injection H as H; subst
  | H : Stop _ = Ret _ |- _ => discriminate H
  | H : mret _ = Ret _ |- _ => injection H as H; subst
  end.

(** Moves boolean tests on integers to propositions, so that [lia] applies. *)
Ltac zb :=
  repeat match goal with
  | H : (_ && _)%bool = true |- _ => apply andb_prop in H as [? ?]
  | H : (_ || _)%bool = false |- _ => apply orb_false_elim in H as [? ?]
  | H : negb _ = true |- _ => apply negb_true_iff in H
  | H : negb _ = false |- _ => apply negb_false_iff in H
  | H : (_ =? _) = true |- _ => apply Z.eqb_eq in H
  | H : (_ =? _) = false |- _ => apply Z.eqb_neq in H
  | H : (_ <? _) = true |- _ => apply Z.ltb_lt in H
  | H : (_ <? _) = false |- _ => apply Z.ltb_ge in H
  | H : (_ <=? _) = true |- _ => apply Z.leb_le in H
  | H : (_ <=? _) = false |- _ => apply Z.leb_gt in H
  | H : bool_decide _ = true |- _ => apply bool_decide_eq_true in H
  | H : bool_decide _ = false |- _ => apply bool_decide_eq_false in H
  end.

(** Case analysis on every [if] of the goal. *)
Ltac case_ifs :=
  repeat match goal with
  | |- context [if ?b then _ else _] => destruct b eqn:?
  end.

(** ** Hint databases *)

Create HintDb wraps.
Create Rewrite HintDb wraps.
Create Rewrite HintDb testbits.

(** ** Integers *)

Lemma wrap_range w x : 0 <= w -> 0 <= wrap w x < 2 ^ w.
Proof. intros. apply Z.mod_pos_bound. lia. Qed.

Lemma wrap_small w x : in_u w x -> wrap w x = x.
Proof. apply Z.mod_small. Qed.

Lemma u32_range x : 0 <= u32 x < 2 ^ 32.
Proof. by apply wrap_range. Qed.
Lemma u64_range x : 0 <= u64 x < 2 ^ 64.
Proof. by apply wrap_range. Qed.
Lemma u32_small x : 0 <= x < 2 ^ 32 -> u32 x = x.
Proof. apply wrap_small. Qed.
Lemma u64_small x : 0 <= x < 2 ^ 64 -> u64 x = x.
Proof. apply wrap_small. Qed.
Lemma i32_small x : 0 <= x < 2 ^ 31 -> i32 x = x.
Proof.
  intros. unfold i32. rewrite u32_small by lia. case_bool_decide; lia.
Qed.

#[export] Hint Rewrite u32_small u64_small i32_small using lia : wraps.
#[export] Hint Resolve u32_range u64_range : wraps.

Lemma testbit_div_pow2 x n i :
  0 <= n -> 0 <= i -> Z.testbit (x / 2 ^ n) i = Z.testbit x (i + n).
Proof. intros. apply Z.div_pow2_bits; lia. Qed.

Lemma testbit_mod_pow2 x n i :
  0 <= n -> Z.testbit (x mod 2 ^ n) i = (bool_decide (i < n) && Z.testbit x i)%bool.
Proof.
  intros. case_bool_decide; simpl.
  - apply Z.mod_pow2_bits_low. lia.
  - apply Z.mod_pow2_bits_high. lia.
Qed.

Lemma testbit_high x n i : 0 <= x < 2 ^ n -> n <= i -> Z.testbit x i = false.
Proof.
  intros Hx Hi. destruct (decide (0 <= n)).
  - rewrite <- (Z.mod_small x (2 ^ n)) by lia. apply Z.mod_pow2_bits_high. lia.
  - rewrite Z.pow_neg_r in Hx by lia. lia.
Qed.

(** A word whose high bits are clear. *)
Lemma testbit_bound x n : 0 <= n -> 0 <= x -> (forall i, n <= i -> Z.testbit x i = false) -> x < 2 ^ n.
Proof.
  intros Hn Hx Hb. assert (x = x mod 2 ^ n) as ->; [|apply Z.mod_pos_bound; lia].
  apply Z.bits_inj'. intros i Hi. rewrite testbit_mod_pow2 by done. case_bool_decide; simpl; [done|]. apply Hb. lia.
Qed.

#[export] Hint Rewrite testbit_div_pow2 testbit_mod_pow2 using lia : testbits.
#[export] Hint Rewrite Z.shiftr_spec Z.shiftl_spec Z.land_spec Z.lor_spec Z.lxor_spec using lia : testbits.

(** An integer is its high part and its low part. *)
Lemma split_low x n : 0 <= n -> x = x / 2 ^ n * 2 ^ n + x mod 2 ^ n.
Proof. intros. pose proof (Z.div_mod x (2 ^ n)). lia. Qed.

Lemma div_pow2_bound x n m :
  0 <= n -> 0 <= m -> 0 <= x < 2 ^ (n + m) -> 0 <= x / 2 ^ n < 2 ^ m.
Proof.
  intros Hn Hm Hx. rewrite Z.pow_add_r in Hx by lia. split.
  - apply Z.div_pos; lia.
  - apply Z.div_lt_upper_bound; lia.
Qed.

(** Disjoint bit ranges: [|] is [+]. *)
Lemma lor_shiftl_add a b n :
  0 <= n -> 0 <= a < 2 ^ n -> Z.lor a (Z.shiftl b n) = a + b * 2 ^ n.
Proof.
  intros Hn Ha. rewrite <- Z.shiftl_mul_pow2 by lia. symmetry. apply Z.add_nocarry_lor.
  apply Z.bits_inj'. intros i Hi. rewrite Z.bits_0, Z.land_spec.
  destruct (Z.lt_ge_cases i n).
  - rewrite Z.shiftl_spec_low by lia. apply andb_false_r.
  - by rewrite (testbit_high a n i) by lia.
Qed.

Lemma low_part a b n : 0 <= n -> 0 <= a < 2 ^ n -> (a + b * 2 ^ n) mod 2 ^ n = a.
Proof. intros. rewrite Z_mod_plus_full. by apply Z.mod_small. Qed.

Lemma high_part a b n : 0 <= n -> 0 <= a < 2 ^ n -> (a + b * 2 ^ n) / 2 ^ n = b.
Proof. intros. rewrite Z_div_plus_full, Z.div_small by lia. lia. Qed.

Lemma mod_pow2_range x n : 0 <= n -> 0 <= x mod 2 ^ n < 2 ^ n.
Proof. intros. apply Z.mod_pos_bound. lia. Qed.

Lemma land_shiftl_1_ones a n : 0 <= n -> Z.land a (Z.shiftl 1 n - 1) = a mod 2 ^ n.
Proof.
  intros. rewrite Z.shiftl_1_l. replace (2 ^ n - 1) with (Z.ones n) by (rewrite Z.ones_equiv; lia).
  by apply Z.land_ones.
Qed.

(** ** Bit fields

    [slices ws a] cuts [a] into consecutive fields of the given widths, lowest
    first; [unslices] puts them back. *)

Fixpoint slices (ws : list Z) (a : Z) : list Z :=
  match ws with
  | [] => []
  | w :: ws => a mod 2 ^ w :: slices ws (a / 2 ^ w)
  end.

Fixpoint unslices (ws vs : list Z) : Z :=
  match ws, vs with
  | w :: ws, v :: vs => v + 2 ^ w * unslices ws vs
  | _, _ => 0
  end.

Definition width (ws : list Z) : Z := foldr Z.add 0 ws.

Lemma width_nonneg ws : Forall (Z.le 0) ws -> 0 <= width ws.
Proof. induction 1; simpl; lia. Qed.

Lemma unslices_slices ws a : Forall (Z.le 0) ws -> unslices ws (slices ws a) = a mod 2 ^ width ws.
Proof.
  intros H. revert a. induction H as [|w ws Hw Hws IH]; intros a; simpl.
  - by rewrite Z.mod_1_r.
  - rewrite IH. pose proof (width_nonneg ws Hws).
    rewrite Z.pow_add_r, Z.rem_mul_r by lia. lia.
Qed.

Lemma slices_unslices ws vs :
  Forall (Z.le 0) ws -> Forall2 (fun w v => 0 <= v < 2 ^ w) ws vs ->
  slices ws (unslices ws vs) = vs /\ 0 <= unslices ws vs < 2 ^ width ws.
Proof.
  intros Hws Hvs. induction Hvs as [|w v ws vs Hv _ IH]; simpl; [done|].
  inv Hws. destruct IH as [IH Hb]; [done|]. rewrite Z.pow_add_r by (try done; by apply width_nonneg).
  split; [|nia].
  rewrite (Z.mul_comm (2 ^ w)), Z_mod_plus_full, Z.mod_small by done.
  rewrite Z_div_plus_full, Z.div_small, Z.add_0_l by lia. by rewrite IH.
Qed.

Lemma slices_mod ws a n :
  Forall (Z.le 0) ws -> width ws <= n -> slices ws (a mod 2 ^ n) = slices ws a.
Proof.
  intros H. revert a n. induction H as [|w ws Hw Hws IH]; intros a n Hn; simpl in *; [done|].
  pose proof (width_nonneg ws Hws).
  replace n with (w + (n - w)) by lia. rewrite Z.pow_add_r by lia.
  rewrite Z.mod_mod_divide by (exists (2 ^ (n - w)); lia).
  f_equal. rewrite Z.rem_mul_r, (Z.mul_comm (2 ^ w)), Z_div_plus_full by lia.
  rewrite (Z.div_small (a mod 2 ^ w)) by (apply Z.mod_pos_bound; lia).
  rewrite Z.add_0_l. apply IH. lia.
Qed.

(** ** Step relations *)

Section Invariants.
Context {S : Type} (step : S -> S -> Prop) (I : S -> Prop).
Hypothesis step_preserves : forall s s', I s -> step s s' -> I s'.

Lemma rtc_invariant s s' : rtc step s s' -> I s -> I s'.
Proof. induction 1; eauto. Qed.
End Invariants.

(** ** Lists *)

(** Number of elements that satisfy a boolean test: the counting loops of the source. *)
Fixpoint count_b {A} (p : A -> bool) (l : list A) : Z :=
  match l with
  | [] => 0
  | a :: l => (if p a then 1 else 0) + count_b p l
  end.

Lemma count_b_nonneg {A} (p : A -> bool) l : 0 <= count_b p l.
Proof. induction l; simpl; [lia|]. destruct (p a); lia. Qed.

Lemma count_b_app {A} (p : A -> bool) l k : count_b p (l ++ k) = count_b p l + count_b p k.
Proof. induction l; simpl; lia. Qed.

Lemma count_b_complement {A} (p : A -> bool) l :
  count_b p l + count_b (fun a => negb (p a)) l = Z.of_nat (length l).
Proof. induction l; simpl; [lia|]. destruct (p a); simpl; lia. Qed.

Lemma count_b_insert {A} (p : A -> bool) l i a b :
  l !! i = Some a ->
  count_b p (<[i:=b]> l) = count_b p l - (if p a then 1 else 0) + (if p b then 1 else 0).
Proof.
  revert i. induction l as [|x l IH]; intros i Hi; [done|].
  destruct i; simpl in *; [naive_solver lia | rewrite (IH i) by done; lia].
Qed.

Lemma count_b_delete {A} (p : A -> bool) l i a :
  l !! i = Some a -> count_b p (delete i l) = count_b p l - (if p a then 1 else 0).
Proof.
  revert i. induction l as [|x l IH]; intros i Hi; [done|].
  destruct i; simpl in *; [naive_solver lia | rewrite (IH i) by done; lia].
Qed.

Lemma count_b_pos {A} (p : A -> bool) l i a : l !! i = Some a -> p a = true -> 0 < count_b p l.
Proof.
  intros Hi Hp. pose proof (count_b_delete p l i a Hi) as H. rewrite Hp in H. pose proof (count_b_nonneg p (delete i l)). lia.
Qed.

Lemma count_b_replicate {A} (p : A -> bool) n a : p a = false -> count_b p (replicate n a) = 0.
Proof. intros Ha. induction n as [|n IH]; [done|]. simpl. by rewrite Ha, IH. Qed.

Lemma count_b_zero {A} (p : A -> bool) l i a : count_b p l = 0 -> l !! i = Some a -> p a = false.
Proof. intros Hc Hi. destruct (p a) eqn:Hp; [|done]. pose proof (count_b_pos p l i a Hi Hp). lia. Qed.

Lemma count_b_one {A} (p : A -> bool) l i j a b : count_b p l <= 1 -> l !! i = Some a -> p a = true -> l !! j = Some b -> p b = true -> i = j.
Proof.
  intros Hc Hi Ha Hj Hb. destruct (decide (i = j)) as [|Hij]; [done|]. exfalso.
  assert (Hd : count_b p l = count_b p (take i l) + 1 + count_b p (drop (S i) l)).
  { rewrite <- (take_drop_middle l i a Hi) at 1. rewrite count_b_app. simpl. rewrite Ha. lia. }
  assert (0 < count_b p (take i l) + count_b p (drop (S i) l)); [|lia]. pose proof (count_b_nonneg p (take i l)). pose proof (count_b_nonneg p (drop (S i) l)).
  destruct (decide (j < i)%nat).
  - pose proof (count_b_pos p (take i l) j b) as Hp. rewrite lookup_take_lt in Hp by lia. specialize (Hp Hj Hb). lia.
  - pose proof (count_b_pos p (drop (S i) l) (j - S i) b) as Hp. rewrite lookup_drop in Hp. replace (S i + (j - S i))%nat with j in Hp by lia. specialize (Hp Hj Hb). lia.
Qed.

Lemma count_b_exists {A} (p : A -> bool) l : 0 < count_b p l -> exists i a, l !! i = Some a /\ p a = true.
Proof.
  induction l as [|a l IH]; simpl; [lia|]. destruct (p a) eqn:Ha; [by exists 0%nat, a|]. intros Hc. destruct IH as (i & b & Hi & Hb); [lia|]. by exists (S i), b.
Qed.

Lemma count_b_le {A} (p q : A -> bool) l : (forall a, p a = true -> q a = true) -> count_b p l <= count_b q l.
Proof. intros Hpq. induction l as [|a l IH]; simpl; [done|]. destruct (p a) eqn:Ha; [rewrite (Hpq a Ha); lia|]. case_match; lia. Qed.

Lemma count_b_fmap {A B} (p : B -> bool) (f : A -> B) l : count_b p (f <$> l) = count_b (fun a => p (f a)) l.
Proof. induction l as [|a l IH]; [done|]. rewrite fmap_cons. cbn [count_b]. by rewrite IH. Qed.

Lemma count_b_length {A} (p : A -> bool) l : count_b p l <= Z.of_nat (length l).
Proof. induction l as [|a l IH]; simpl; [lia|]. case_match; lia. Qed.

(** Rewrites the counts of an updated list. *)
Ltac count_inserts :=
  repeat match goal with
  | H : ?l !! ?t = Some ?a |- context [count_b ?p (<[?t := ?b]> ?l)] => rewrite (count_b_insert p l t a b H)
  end.

(** Finite ranges checked by evaluation. *)
Definition zrange (n : nat) : list Z := seqZ 0 (Z.of_nat n).

Lemma elem_of_zrange n i : i ∈ zrange n <-> 0 <= i < Z.of_nat n.
Proof. unfold zrange. rewrite elem_of_seqZ. lia. Qed.

Lemma length_zrange n : length (zrange n) = n.
Proof. unfold zrange. rewrite length_seqZ. lia. Qed.

Lemma lookup_zrange n i : (i < n)%nat -> zrange n !! i = Some (Z.of_nat i).
Proof. intros. unfold zrange. rewrite lookup_seqZ_lt by lia. f_equal. Qed.

Lemma forallb_zrange (p : Z -> bool) n :
  forallb p (zrange n) = true -> forall i, 0 <= i < Z.of_nat n -> p i = true.
Proof.
  intros H i Hi. rewrite forallb_forall in H. apply H.
  apply list_elem_of_In, elem_of_zrange. done.
Qed.

Definition all_pairs (n : nat) (p : Z -> Z -> bool) : bool :=
  forallb (fun a => forallb (p a) (zrange n)) (zrange n).

Lemma all_pairs_true n p :
  all_pairs n p = true ->
  forall a b, 0 <= a < Z.of_nat n -> 0 <= b < Z.of_nat n -> p a b = true.
Proof.
  intros H a b Ha Hb. by apply (forallb_zrange _ n (forallb_zrange _ n H a Ha)).
Qed.

(** [for (i = 0; i < n; i++) ... row[i] ...] reads the elements in order. *)
Lemma fold_at_elements {A S} (f : S -> A -> outcome S) (row : list A) s :
  fold_ (fun s i => a ← at_ row i; f s a) (zrange (length row)) s = fold_ f row s.
Proof.
  unfold zrange. change 0 with (Z.of_nat (length (@nil A))).
  change row with ([] ++ row) at 1. generalize (@nil A) as pre. revert s.
  induction row as [|a row IH]; intros s pre; [done|].
  rewrite seqZ_cons by (simpl; lia). cbn [fold_].
  replace (at_ (pre ++ a :: row) (Z.of_nat (length pre))) with (Ret a).
  2:{ symmetry. apply at_ret_iff. split; [lia|]. rewrite Nat2Z.id.
      by rewrite list_lookup_middle. }
  simpl. destruct (f s a) as [s'|]; [|done]. simpl.
  specialize (IH s' (pre ++ [a])). rewrite <- app_assoc in IH. simpl in IH.
  rewrite <- IH. f_equal. rewrite length_app. simpl. f_equal; lia.
Qed.

(** ** Maps *)

Lemma insert_overwrite `{Countable K} {A} (m : gmap K A) i j x y z :
  i <> j -> <[i := x]> (<[j := y]> (<[i := z]> m)) = <[i := x]> (<[j := y]> m).
Proof. intros. by rewrite (insert_insert_ne m j i), insert_insert_eq. Qed.
