(* ===== verification/Bits.v ===== *)
(** * Bit-level helpers

    The arithmetic helpers that the other components call:
    [src/src/common/common_functions.h] ([mask], [get_bit_value], [power],
    [get_page_size_by_mode], the [log2] overloads, the string to enumeration
    tables), [src/src/bithacks.h] ([ilog2], [isPow2], [MAX]/[MIN]), the bank hash
    [MESIBottomCC::getParentId] and [Memory::calc_log2]. *)

From S2P Require Import Prelude.

(** ** Enumerations of [common/global_const.h] *)

Inductive PagingStyle : Type :=
  | Legacy_Normal | Legacy_Huge
  | PAE_Normal | PAE_Huge
  | LongMode_Normal | LongMode_Middle | LongMode_Huge.

Inductive ZoneType : Type :=
  | Zone_DMA | Zone_DMA32 | Zone_Normal | Zone_HighMem | MAX_NR_ZONES.

Inductive EVICTSTYLE : Type := LRU | HOTNESSAware | HotMonitorTLBLRU.

#[global] Instance PagingStyle_eq_dec : EqDecision PagingStyle.
Proof. solve_decision. Defined.
#[global] Instance ZoneType_eq_dec : EqDecision ZoneType.
Proof. solve_decision. Defined.
#[global] Instance EVICTSTYLE_eq_dec : EqDecision EVICTSTYLE.
Proof. solve_decision. Defined.

(** ** Masks and bit fields *)

(** [mask(bit_len)]: [1 << bit_len] is an [int] shift, so that only lengths up to
    30 (and the special case 64) are defined by the language. *)
Definition mask (bit_len : Z) : outcome Z :=
  if bit_len =? 64 then Ret (2 ^ 64 - 1)
  else if (0 <=? bit_len) && (bit_len <=? 30) then Ret (Z.shiftl 1 bit_len - 1)
  else Stop Undefined.

(** [get_bit_value<S>(value, start_bit, end_bit)], [S] of [sw] bits. *)
Definition get_bit_value (sw value start_bit end_bit : Z) : outcome Z :=
  m ← mask (end_bit - start_bit + 1);
  Ret (wrap sw (Z.land (Z.shiftr value start_bit) m)).

(** ** Powers *)

(** [power(base, exp)]: the recursion of the source, one unit of fuel per level. *)
Fixpoint power (fuel : nat) (base exp : Z) : option Z :=
  match fuel with
  | O => None
  | S fuel =>
      if exp =? 1 then Some (u64 base)
      else
        r ← power fuel base (exp / 2);
        if negb (exp mod 2 =? 0) then Some (u64 (u64 (base * r) * r))
        else Some (u64 (r * r))
  end.

(** [get_page_size_by_mode] *)
Definition get_page_size_by_mode (mode : PagingStyle) : option Z :=
  kb ← power 64 2 10;
  mb ← power 64 2 20;
  gb ← power 64 2 30;
  Some match mode with
       | Legacy_Normal | PAE_Normal | LongMode_Normal => u64 (4 * kb)
       | Legacy_Huge => u64 (4 * mb)
       | PAE_Huge | LongMode_Middle => u64 (2 * mb)
       | LongMode_Huge => gb
       end.

(** ** Integer logarithms *)

(** One line [if (x & m) { result += k; x >>= k; }]. *)
Definition log2_step (m k : Z) (st : Z * Z) : Z * Z :=
  let '(result, x) := st in
  if negb (Z.land x m =? 0) then (result + k, Z.shiftr x k) else (result, x).

Definition log2_u8 (x : Z) : Z :=
  fst (log2_step 0x02 1 (log2_step 0x0c 2 (log2_step 0xf0 4 (0, x)))).

Definition log2_u16 (x : Z) : Z :=
  fst (log2_step 0x0002 1 (log2_step 0x000c 2
      (log2_step 0x00f0 4 (log2_step 0xff00 8 (0, x))))).

Definition log2_u32 (x : Z) : Z :=
  fst (log2_step 0x00000002 1 (log2_step 0x0000000c 2 (log2_step 0x000000f0 4
      (log2_step 0x0000ff00 8 (log2_step 0xffff0000 16 (0, x)))))).

Definition log2_u64 (x : Z) : Z :=
  fst (log2_step 0x0000000000000002 1 (log2_step 0x000000000000000c 2
      (log2_step 0x00000000000000f0 4 (log2_step 0x000000000000ff00 8
      (log2_step 0x00000000ffff0000 16 (log2_step 0xffffffff00000000 32 (0, x))))))).

(** [__builtin_clz] of a non-zero [w]-bit value. *)
Definition clz (w val : Z) : Z := w - 1 - Z.log2 val.

Definition ilog2_u32 (val : Z) : Z := if negb (val =? 0) then 31 - clz 32 val else 0.
Definition ilog2_u64 (val : Z) : Z := if negb (val =? 0) then 63 - clz 64 val else 0.

(** [isPow2] at an unsigned type of [w] bits. *)
Definition isPow2 (w val : Z) : bool :=
  negb (val =? 0) && (Z.land val (wrap w (val - 1)) =? 0).

(** [Memory::calc_log2]: [while ((val >>= 1)) n++]. *)
Fixpoint calc_log2_loop (fuel : nat) (val n : Z) : option Z :=
  match fuel with
  | O => None
  | S fuel =>
      let val := Z.shiftr val 1 in
      if negb (val =? 0) then calc_log2_loop fuel val (n + 1) else Some n
  end.

(** 32 iterations exhaust a non-negative [int]. *)
Definition calc_log2 (val : Z) : option Z := calc_log2_loop 32 val 0.

(** ** The bank hash [MESIBottomCC::getParentId] *)

Fixpoint xor_fold16 (n : nat) (res tmp : Z) : Z :=
  match n with
  | O => res
  | S n => xor_fold16 n (Z.lxor res (u32 (Z.land 0xffff tmp))) (Z.shiftr tmp 16)
  end.

(** The modulus by [parents.size()] is undefined for an empty vector. *)
Definition getParentId (nparents lineAddr : Z) : outcome Z :=
  let res := xor_fold16 4 0 lineAddr in
  if nparents =? 0 then Stop Undefined else Ret (u32 (res mod nparents)).

(** ** String tables *)

Definition string_to_pagingmode (mode_str : string) : PagingStyle :=
  if bool_decide (mode_str = "Legacy_Normal"%string) then Legacy_Normal
  else if bool_decide (mode_str = "Legacy_Huge"%string) then Legacy_Huge
  else if bool_decide (mode_str = "PAE_Normal"%string) then PAE_Normal
  else if bool_decide (mode_str = "PAE_Huge"%string) then PAE_Huge
  else if bool_decide (mode_str = "LongMode_Normal"%string) then LongMode_Normal
  else if bool_decide (mode_str = "LongMode_Middle"%string) then LongMode_Middle
  else if bool_decide (mode_str = "LongMode_Huge"%string) then LongMode_Huge
  else Legacy_Normal.

Definition pagingmode_to_string (mode : PagingStyle) : string :=
  match mode with
  | Legacy_Normal | Legacy_Huge => "Legacy"
  | PAE_Normal | PAE_Huge => "PAE"
  | LongMode_Normal | LongMode_Middle | LongMode_Huge => "LongMode"
  end.

Definition stringToPolicy (policy_str : string) : EVICTSTYLE :=
  if bool_decide (policy_str = "LRU"%string) then LRU
  else if bool_decide (policy_str = "HOTNESSAware"%string) then HOTNESSAware
  else if bool_decide (policy_str = "HotMonitorTLBLRU"%string) then HotMonitorTLBLRU
  else LRU.

(** [Max]/[Min] of [common_functions.h], and the [MAX]/[MIN] macros of [bithacks.h]. *)
Definition Max (first second : Z) : Z := if second <=? first then first else second.
Definition Min (first second : Z) : Z := if first <=? second then first else second.

(** ** Lemmas *)

Lemma mask_small n : 0 <= n <= 30 -> mask n = Ret (Z.ones n).
Proof.
  intros. unfold mask. rewrite (proj2 (Z.eqb_neq n 64)) by lia.
  rewrite (proj2 (Z.leb_le 0 n)), (proj2 (Z.leb_le n 30)) by lia.
  simpl. rewrite Z.ones_equiv, Z.shiftl_1_l. f_equal; lia.
Qed.

Lemma get_bit_value_spec sw value lo hi :
  0 <= lo -> 0 <= hi - lo + 1 <= 30 -> hi - lo + 1 <= sw ->
  get_bit_value sw value lo hi = Ret (value / 2 ^ lo mod 2 ^ (hi - lo + 1)).
Proof.
  intros. unfold get_bit_value. rewrite mask_small by lia. simpl.
  rewrite Z.land_ones, Z.shiftr_div_pow2 by lia. f_equal. apply wrap_small.
  pose proof (Z.mod_pos_bound (value / 2 ^ lo) (2 ^ (hi - lo + 1)) ltac:(lia)).
  pose proof (Z.pow_le_mono_r 2 (hi - lo + 1) sw ltac:(lia) ltac:(lia)).
  unfold in_u. lia.
Qed.

Lemma u64_mul_l a b : u64 (u64 a * b) = u64 (a * b).
Proof. apply Zmult_mod_idemp_l. Qed.
Lemma u64_mul_r a b : u64 (a * u64 b) = u64 (a * b).
Proof. apply Zmult_mod_idemp_r. Qed.

(** The recursion computes the power modulo 2^64. *)
Lemma power_correct fuel base exp :
  1 <= exp < 2 ^ Z.of_nat fuel -> power fuel base exp = Some (u64 (base ^ exp)).
Proof.
  revert exp. induction fuel as [|fuel IH]; intros exp He; [simpl in He; lia|].
  rewrite Nat2Z.inj_succ, Z.pow_succ_r in He by lia. cbn [power].
  destruct (exp =? 1) eqn:E1; zb; [by subst; rewrite Z.pow_1_r|].
  pose proof (Z.div_mod exp 2 ltac:(lia)). pose proof (Z.mod_pos_bound exp 2 ltac:(lia)).
  rewrite IH by lia. simpl. destruct (exp mod 2 =? 0) eqn:E2; simpl; zb; f_equal.
  - rewrite u64_mul_l, u64_mul_r, <- Z.pow_add_r by lia. f_equal. f_equal. lia.
  - rewrite u64_mul_l, u64_mul_r, <- Z.mul_assoc, (Z.mul_comm (u64 _)).
    rewrite Z.mul_assoc, u64_mul_r, <- Z.mul_assoc, <- Z.pow_add_r, <- Z.pow_succ_r by lia.
    f_equal. f_equal. lia.
Qed.

(** An exponent of 0 never meets the base case. *)
Lemma power_zero_diverges fuel base : power fuel base 0 = None.
Proof.
  induction fuel as [|fuel IH]; [done|]. cbn [power]. change (0 / 2) with 0.
  by rewrite IH.
Qed.

Lemma land_high_half x k :
  0 < k -> 0 <= x < 2 ^ (k + k) ->
  (Z.land x (Z.shiftl (Z.ones k) k) =? 0) = (x <? 2 ^ k).
Proof.
  intros Hk Hx. apply eq_true_iff_eq. rewrite Z.eqb_eq, Z.ltb_lt. split.
  - intros H0. destruct (Z.lt_ge_cases x (2 ^ k)) as [|Hge]; [done|exfalso].
    pose proof (Z.log2_le_pow2 x k ltac:(lia)) as Hl.
    assert (Z.log2 x < k + k) by (apply Z.log2_lt_pow2; lia).
    assert (Hb : Z.testbit (Z.land x (Z.shiftl (Z.ones k) k)) (Z.log2 x) = true).
    { rewrite Z.land_spec, Z.bit_log2, Z.shiftl_spec, Z.ones_spec_low by lia. done. }
    by rewrite H0, Z.bits_0 in Hb.
  - intros Hlt. apply Z.bits_inj'. intros i Hi. rewrite Z.bits_0, Z.land_spec.
    rewrite Z.shiftl_spec by lia. destruct (Z.lt_ge_cases i k).
    + rewrite (Z.testbit_neg_r _ (i - k)) by lia. apply andb_false_r.
    + rewrite (testbit_high x k i) by lia. done.
Qed.

(** One line of [log2] halves the width and keeps [result + log2 x]. *)
Lemma log2_step_spec k m result x :
  0 < k -> m = Z.shiftl (Z.ones k) k -> 0 <= x < 2 ^ (k + k) ->
  let '(result', x') := log2_step m k (result, x) in
  result' + Z.log2 x' = result + Z.log2 x /\ 0 <= x' < 2 ^ k.
Proof.
  intros Hk -> Hx. cbn [log2_step]. rewrite land_high_half by done.
  destruct (x <? 2 ^ k) eqn:E; simpl; zb; [lia|].
  rewrite Z.log2_shiftr by lia.
  pose proof (proj1 (Z.log2_le_pow2 x k ltac:(lia)) ltac:(lia)).
  rewrite Z.shiftr_div_pow2 by lia. split; [lia|].
  apply (div_pow2_bound x k k); lia.
Qed.

Ltac log2_line :=
  match goal with
  | |- context [log2_step ?m ?k (?r, ?x)] =>
      let H := fresh "H" in
      pose proof (log2_step_spec k m r x ltac:(lia) eq_refl ltac:(lia)) as H;
      destruct (log2_step m k (r, x)); destruct H
  end.

Ltac log2_lines :=
  repeat log2_line; simpl fst;
  match goal with
  | H : 0 <= ?x < 2 ^ 1 |- _ =>
      assert (x = 0 \/ x = 1) as [-> | ->] by lia; simpl Z.log2 in *; lia
  end.

Lemma log2_u8_spec x : in_u 8 x -> log2_u8 x = Z.log2 x.
Proof. unfold in_u, log2_u8. intros. log2_lines. Qed.
Lemma log2_u16_spec x : in_u 16 x -> log2_u16 x = Z.log2 x.
Proof. unfold in_u, log2_u16. intros. log2_lines. Qed.
Lemma log2_u32_spec x : in_u 32 x -> log2_u32 x = Z.log2 x.
Proof. unfold in_u, log2_u32. intros. log2_lines. Qed.
Lemma log2_u64_spec x : in_u 64 x -> log2_u64 x = Z.log2 x.
Proof. unfold in_u, log2_u64. intros. log2_lines. Qed.

Lemma ilog2_u64_spec x : 0 <= x -> ilog2_u64 x = Z.log2 x.
Proof.
  intros. unfold ilog2_u64, clz. destruct (x =? 0) eqn:E; simpl; zb; subst; simpl; lia.
Qed.

(** [isPow2] recognises exactly the powers of two of its width. *)
Lemma isPow2_spec w x : 0 < w -> in_u w x ->
  isPow2 w x = true <-> exists n, 0 <= n /\ x = 2 ^ n.
Proof.
  unfold isPow2, in_u. intros Hw Hx. destruct (x =? 0) eqn:E; zb; subst; simpl.
  { split; [done|]. intros (n & Hn & H0). pose proof (Z.pow_pos_nonneg 2 n). lia. }
  rewrite wrap_small by (unfold in_u; lia). rewrite Z.eqb_eq. split.
  - intros H0. exists (Z.log2 x). split; [apply Z.log2_nonneg|].
    destruct (Z.log2_spec x ltac:(lia)) as [Hlo Hhi].
    destruct (Z.eq_dec x (2 ^ Z.log2 x)) as [|Hne]; [done|exfalso].
    assert (Hb : Z.testbit (Z.land x (x - 1)) (Z.log2 x) = true).
    { rewrite Z.land_spec, Z.bit_log2 by lia.
      rewrite <- (Z.log2_unique (x - 1) (Z.log2 x)); [|apply Z.log2_nonneg|lia].
      rewrite Z.bit_log2; [done|]. pose proof (Z.pow_pos_nonneg 2 (Z.log2 x)).
      pose proof (Z.log2_nonneg x). lia. }
    by rewrite H0, Z.bits_0 in Hb.
  - intros (n & Hn & ->).
    replace (2 ^ n - 1) with (Z.ones n) by (rewrite Z.ones_equiv; lia).
    rewrite Z.land_ones by lia. apply Z.mod_same. lia.
Qed.

Lemma calc_log2_loop_spec fuel val n :
  0 <= val < 2 ^ Z.of_nat fuel -> (0 < fuel)%nat ->
  calc_log2_loop fuel val n = Some (n + Z.log2 val).
Proof.
  revert val n. induction fuel as [|fuel IH]; intros val n Hv Hf; [lia|].
  rewrite Nat2Z.inj_succ, Z.pow_succ_r in Hv by lia. cbn [calc_log2_loop].
  rewrite Z.shiftr_div_pow2, Z.pow_1_r by lia.
  pose proof (Z.div_mod val 2 ltac:(lia)). pose proof (Z.mod_pos_bound val 2 ltac:(lia)).
  destruct (val / 2 =? 0) eqn:E; simpl; zb.
  - assert (val = 0 \/ val = 1) as [-> | ->] by lia; f_equal; simpl; lia.
  - destruct fuel; [simpl in Hv; lia|]. rewrite IH by lia. f_equal.
    replace (Z.log2 val) with (Z.log2 (val / 2) + 1); [lia|].
    replace (val / 2) with (Z.shiftr val 1) by (by rewrite Z.shiftr_div_pow2, Z.pow_1_r by lia).
    rewrite Z.log2_shiftr by lia.
    pose proof (Z.log2_le_mono 2 val ltac:(lia)). simpl in *. lia.
Qed.

Lemma calc_log2_spec val : 0 <= val < 2 ^ 31 -> calc_log2 val = Some (Z.log2 val).
Proof. intros. unfold calc_log2. rewrite calc_log2_loop_spec by (simpl; lia). f_equal. Qed.

Lemma lxor_bound w a b : 0 <= w -> in_u w a -> in_u w b -> in_u w (Z.lxor a b).
Proof.
  unfold in_u. intros Hw Ha Hb. split; [apply Z.lxor_nonneg; lia|].
  rewrite <- (Z.mod_small a (2 ^ w)), <- (Z.mod_small b (2 ^ w)) by lia.
  assert (Hm : Z.lxor (a mod 2 ^ w) (b mod 2 ^ w) = Z.lxor a b mod 2 ^ w).
  { apply Z.bits_inj'. intros i Hi. autorewrite with testbits.
    case_bool_decide; simpl; by autorewrite with testbits. }
  rewrite Hm. apply Z.mod_pos_bound. lia.
Qed.

(** The fold stays within the 16 bits of its pieces. *)
Lemma xor_fold16_bound n res tmp : in_u 16 res -> in_u 16 (xor_fold16 n res tmp).
Proof.
  revert res tmp. induction n as [|n IH]; intros res tmp Hr; [done|].
  cbn [xor_fold16]. apply IH, lxor_bound; [lia|done|].
  change 0xffff with (Z.ones 16). rewrite Z.land_comm, Z.land_ones by lia.
  pose proof (Z.mod_pos_bound tmp (2 ^ 16) ltac:(lia)).
  rewrite u32_small by lia. done.
Qed.
