(* ===== verification/Network.v ===== *)
(** * Networks of memory stacks

    The view that a client of the memory network has of it: which link a stack
    picks for a target ([Memory::get_route_link]) and which link is plugged at
    the other end ([Link::other_side_link]).  A packet is forwarded by repeating
    that step, as in [LogicLayer.cpp] ([link_inject], [vault_inject]) and in the
    loops of [Memory::estimateMemHops].

    [Delivers] and [Shortest] are the laws the clients rely on; [Routing.v] and
    [TopologyFiles.v] discharge them for the topologies of the repository. *)

From S2P Require Import Prelude.

Record network : Type := Network {
  net_stacks : nat;
  net_links : Z;
  net_route : Z -> Z -> outcome Z;
  net_other : Z -> option Z
}.

(** The stack a link belongs to: ids are [cub * stack_links + i]. *)
Definition link_cub (N : network) (l : Z) : Z := l / net_links N.

Definition in_net (N : network) (c : Z) : Prop := 0 <= c < Z.of_nat (net_stacks N).

#[global] Instance in_net_dec N c : Decision (in_net N c).
Proof. unfold in_net. apply _. Defined.

(** [route_link->other_side_link] for the link of [cur] towards [target]. *)
Definition far_end (N : network) (cur target : Z) : outcome (Z * Z) :=
  l ← net_route N cur target;
  match net_other N l with
  | Some l' => Ret (l, l')
  | None => Stop Undefined
  end.

(** [while (cur_cub != target_cub) { ... cur_cub = route_link->other_side_link->cub; }]:
    the links taken. *)
Fixpoint walk (N : network) (fuel : nat) (cur target : Z) : outcome (list Z) :=
  if cur =? target then Ret []
  else match fuel with
       | O => Stop OutOfFuel
       | S fuel =>
           ll ← far_end N cur target;
           p ← walk N fuel (link_cub N ll.2) target;
           Ret (ll.1 :: p)
       end.

(** ** Laws *)

(** Every route makes progress: a forwarded packet is one hop closer, by the
    measure [dist], to its target. *)
Class Delivers (N : network) (dist : Z -> Z -> nat) : Prop := {
  delivers_zero : forall c, in_net N c -> dist c c = 0%nat;
  delivers_next : forall cur target,
    in_net N cur -> in_net N target -> cur <> target ->
    exists l l', far_end N cur target = Ret (l, l') /\
      link_cub N l = cur /\ in_net N (link_cub N l') /\
      dist cur target = S (dist (link_cub N l') target)
}.

(** A wire between two stacks. *)
Definition wired (N : network) (a b : Z) : Prop :=
  exists l l', net_other N l = Some l' /\ link_cub N l = a /\ link_cub N l' = b /\
    in_net N a /\ in_net N b.

(** No wire shortens the distance by more than one hop. *)
Class Shortest (N : network) (dist : Z -> Z -> nat) : Prop :=
  shortest_edge : forall a b t, in_net N t -> wired N a b -> (dist a t <= S (dist b t))%nat.

(** ** What follows from the laws *)

Section Laws.
Context (N : network) (dist : Z -> Z -> nat) `{!Delivers N dist}.

(** A packet arrives, after exactly [dist] links. *)
Lemma walk_arrives fuel cur target :
  in_net N cur -> in_net N target -> (dist cur target <= fuel)%nat ->
  exists p, walk N fuel cur target = Ret p /\ length p = dist cur target.
Proof.
  revert cur. induction fuel as [|fuel IH]; intros cur Hc Ht Hd; cbn [walk].
  all: destruct (cur =? target) eqn:E; zb; subst.
  1,3: rewrite delivers_zero by done; eauto.
  all: destruct (delivers_next cur target Hc Ht E) as (l & l' & Hf & _ & Hl' & Hn).
  { lia. }
  rewrite Hf. simpl. destruct (IH (link_cub N l')) as (p & -> & Hp); [done|done|lia|].
  exists (l :: p). simpl. split; [done|lia].
Qed.

(** The path is a chain of wires from [cur] to [target]. *)
Fixpoint is_path (cur : Z) (p : list Z) (target : Z) : Prop :=
  match p with
  | [] => cur = target
  | l :: p => link_cub N l = cur /\
      exists l', net_other N l = Some l' /\ is_path (link_cub N l') p target
  end.

Lemma walk_is_path fuel cur target p :
  in_net N cur -> in_net N target ->
  walk N fuel cur target = Ret p -> is_path cur p target.
Proof.
  revert cur p. induction fuel as [|fuel IH]; intros cur p Hc Ht Hw; cbn [walk] in Hw.
  all: destruct (cur =? target) eqn:E; zb; [by outcome_steps|].
  { done. }
  destruct (delivers_next cur target Hc Ht E) as (l & l' & Hf & Hl & Hl' & _).
  rewrite Hf in Hw. outcome_steps. simpl. split; [done|]. exists l'.
  split; [|by apply IH]. unfold far_end in Hf. outcome_steps.
  destruct (net_other N _) eqn:Ho in H1; congruence.
Qed.
End Laws.

(** Sequences of wires, as any packet could take them. *)
Inductive hops (N : network) : nat -> Z -> Z -> Prop :=
  | hops_nil a : in_net N a -> hops N 0 a a
  | hops_cons n a b c : wired N a b -> hops N n b c -> hops N (S n) a c.

Lemma hops_in_net_r N n a b : hops N n a b -> in_net N b.
Proof. induction 1; done. Qed.

(** No sequence of wires is shorter than the measure. *)
Lemma hops_at_least N dist `{!Delivers N dist, !Shortest N dist} n a b :
  hops N n a b -> (dist a b <= n)%nat.
Proof.
  induction 1 as [a Ha|n a b c Hw Hh IH].
  - by rewrite delivers_zero.
  - pose proof (shortest_edge a b c (hops_in_net_r _ _ _ _ Hh) Hw). lia.
Qed.

(** Two networks that pick the same links, plugged alike, forward alike. *)
Lemma walk_agree N N' dist `{!Delivers N dist} fuel a b :
  net_links N' = net_links N ->
  (forall cur t, in_net N cur -> in_net N t -> cur <> t -> far_end N' cur t = far_end N cur t) ->
  in_net N a -> in_net N b -> walk N' fuel a b = walk N fuel a b.
Proof.
  intros Hl Hf. revert a. induction fuel as [|fuel IH]; intros a Ha Hb; cbn [walk]; [done|].
  destruct (a =? b) eqn:E; zb; [done|]. rewrite Hf by done.
  destruct (delivers_next a b Ha Hb E) as (l & l' & -> & _ & Hn & _). simpl.
  unfold link_cub in *. rewrite Hl. by rewrite IH.
Qed.

(** ** Checking the laws by evaluation *)

(** The number of links of the walk; [net_stacks] links are enough when no stack repeats. *)
Definition dist_of (N : network) (cur target : Z) : nat :=
  match walk N (net_stacks N) cur target with Ret p => length p | Stop _ => 0 end.

Definition delivers_b (N : network) : bool :=
  all_pairs (net_stacks N) (fun cur target =>
    (negb (cur =? target) || bool_decide (dist_of N cur target = 0%nat)) &&
    ((cur =? target) ||
     match far_end N cur target with
     | Ret (l, l') =>
         (link_cub N l =? cur) && bool_decide (in_net N (link_cub N l')) &&
         bool_decide (dist_of N cur target = S (dist_of N (link_cub N l') target))
     | Stop _ => false
     end)).

Lemma delivers_b_sound N : delivers_b N = true -> Delivers N (dist_of N).
Proof.
  intros H. split.
  - intros c Hc. pose proof (all_pairs_true _ _ H c c Hc Hc) as E. cbv beta in E.
    rewrite Z.eqb_refl in E. cbn [negb orb] in E. by zb.
  - intros cur target Hc Ht Hne. pose proof (all_pairs_true _ _ H cur target Hc Ht) as E.
    cbv beta in E. apply andb_prop in E as [_ E].
    rewrite (proj2 (Z.eqb_neq cur target) Hne) in E. cbn [orb] in E.
    destruct (far_end N cur target) as [[l l']|]; [|done]. zb. eauto 10.
Qed.

(** Links other than [0 .. stacks * links - 1] are not connected. *)
Definition wires_bounded (N : network) : Prop :=
  forall l l', net_other N l = Some l' -> 0 <= l < Z.of_nat (net_stacks N) * net_links N.

Definition shortest_b (N : network) : bool :=
  forallb (fun l =>
    match net_other N l with
    | Some l' => forallb (fun t =>
        bool_decide (dist_of N (link_cub N l) t <= S (dist_of N (link_cub N l') t))%nat)
          (zrange (net_stacks N))
    | None => true
    end) (zrange (net_stacks N * Z.to_nat (net_links N))).

Lemma shortest_b_sound N :
  0 <= net_links N -> wires_bounded N -> shortest_b N = true -> Shortest N (dist_of N).
Proof.
  intros Hl Hw H a b t Ht (l & l' & Ho & <- & <- & _ & _).
  pose proof (forallb_zrange _ _ H l) as E. cbv beta in E. rewrite Ho in E.
  specialize (E ltac:(pose proof (Hw l l' Ho); lia)).
  pose proof (forallb_zrange _ _ E t Ht) as E'. cbv beta in E'. by zb.
Qed.

(** ** Channel dependencies

    A packet that holds the buffer of link [l] while it waits for link [l']
    makes [l'] a dependency of [l]; an acyclic relation cannot deadlock. *)

Fixpoint consecutive (p : list Z) : list (Z * Z) :=
  match p with
  | l :: (l' :: _) as q => (l, l') :: consecutive q
  | _ => []
  end.

Definition deps (N : network) : list (Z * Z) :=
  flat_map (fun cur => flat_map (fun target =>
    match walk N (net_stacks N) cur target with Ret p => consecutive p | Stop _ => [] end)
      (zrange (net_stacks N))) (zrange (net_stacks N)).

Definition dep (N : network) (l l' : Z) : Prop := (l, l') ∈ deps N.

Definition deadlock_free (N : network) : Prop := forall l, ~ tc (dep N) l l.

(** A ranking of the links that every dependency increases. *)
Definition ranked_b (N : network) (rank : list nat) : bool :=
  forallb (fun '(l, l') =>
    bool_decide (default 0%nat (rank !! Z.to_nat l) < default 0%nat (rank !! Z.to_nat l'))%nat)
    (deps N).

Lemma ranked_b_sound N rank : ranked_b N rank = true -> deadlock_free N.
Proof.
  intros H l Hl. set (r := fun l => default 0%nat (rank !! Z.to_nat l)).
  enough (Hr : forall a b, tc (dep N) a b -> (r a < r b)%nat) by (pose proof (Hr l l Hl); lia).
  assert (Hs : forall a b, dep N a b -> (r a < r b)%nat).
  { intros a b Hab. unfold ranked_b in H. rewrite forallb_forall in H.
    apply list_elem_of_In in Hab. specialize (H _ Hab). cbv beta iota in H. by zb. }
  intros a b Hab. induction Hab as [a b Hab|a b c Hab _ IH]; [auto|].
  pose proof (Hs a b Hab). lia.
Qed.
