(* ===== verification/Topology.v ===== *)
(** * The configured memory topology

    [src/src/ramulator/MemoryTopology.h] (the tables and their getters),
    [src/src/ramulator/MemTopoParser.cpp] (the handler that fills them from the
    elements of a topology file), the link part of the [LogicLayer] constructor
    ([src/src/ramulator/LogicLayer.h]) and [Memory::connect_memnodes],
    [Memory::get_route_link] ([src/src/ramulator/HMC_Memory.h]).

    The XML reader itself is a library; a document is the sequence of start
    elements it reports, each with its attributes. *)

From Stdlib Require Import Ascii String.
From S2P Require Import Prelude Network.
Local Open Scope Z_scope.

(** ** Strings of the C library *)

Definition code (c : ascii) : Z := Z.of_N (N_of_ascii c).
Definition is_digit (c : ascii) : bool := (48 <=? code c) && (code c <=? 57).
Definition is_space (c : ascii) : bool :=
  (code c =? 32) || ((9 <=? code c) && (code c <=? 13)).

Fixpoint digits (s : string) (acc : Z) : Z :=
  match s with
  | String c s => if is_digit c then digits s (10 * acc + (code c - 48)) else acc
  | EmptyString => acc
  end.

(** [atoi], for values that an [int] can hold. *)
Fixpoint atoi (s : string) : Z :=
  match s with
  | EmptyString => 0
  | String c s' =>
      if is_space c then atoi s'
      else if code c =? 45 then - digits s' 0
      else if code c =? 43 then digits s' 0
      else digits s 0
  end.

(** [strtok(s, ",")] repeated to the end: the non-empty pieces, in order. *)
Fixpoint strtok (s cur : string) : list string :=
  match s with
  | EmptyString => match cur with EmptyString => [] | _ => [cur] end
  | String c s =>
      if code c =? 44 then
        match cur with EmptyString => strtok s EmptyString | _ => cur :: strtok s EmptyString end
      else strtok s (cur ++ String c EmptyString)
  end.

(** ** [MemoryTopology] *)

Inductive ROUTE_TYPE : Type := STATIC_ROUTE | ROUTE_TYPE_NUM.

#[global] Instance ROUTE_TYPE_eq_dec : EqDecision ROUTE_TYPE.
Proof. solve_decision. Defined.

Record MemoryTopology : Type := mkTopology {
  nodenum : Z;
  linkspernode : Z;
  route_type : ROUTE_TYPE;
  nodes : list (list bool);           (* true: link to the CPU *)
  interconnections : list Z;          (* link to link *)
  routes : list (list (list Z));      (* node, node: links *)
  cpuroutes : list (list Z)           (* node: links *)
}.

Definition getCPURouteLink (t : MemoryTopology) (dst_node : Z) : outcome Z :=
  match route_type t with
  | STATIC_ROUTE =>
      _ ← assert_ ((0 <=? dst_node) && (dst_node <? nodenum t));
      ls ← at_ (cpuroutes t) dst_node;
      at_ ls 0
  | _ => Ret (-1)
  end.

Definition getRouteLink (t : MemoryTopology) (src_node dst_node : Z) : outcome Z :=
  match route_type t with
  | STATIC_ROUTE =>
      _ ← assert_ (((0 <=? src_node) && (src_node <? nodenum t)) &&
                   ((0 <=? dst_node) && (dst_node <? nodenum t)));
      row ← at_ (routes t) src_node;
      ls ← at_ row dst_node;
      Ret (match ls with l :: _ => l | [] => -1 end)
  | _ => Ret (-1)
  end.

(** [for (i = 0; i < linkspernode; i++) if (nodes[nodeId][i] == mode) num++] *)
Definition count_links (t : MemoryTopology) (mode : bool) (nodeId num : Z) : outcome Z :=
  fold_ (fun num i =>
    row ← at_ (nodes t) nodeId;
    b ← at_ row i;
    Ret (if Bool.eqb b mode then num + 1 else num))
    (zrange (Z.to_nat (linkspernode t))) num.

Definition getSourceModeLinkNum (t : MemoryTopology) (nodeId : Z) : outcome Z :=
  count_links t true nodeId 0.
Definition getHostModeLinkNum (t : MemoryTopology) (nodeId : Z) : outcome Z :=
  count_links t false nodeId 0.
Definition getTotalSourceModeLinkNum (t : MemoryTopology) : outcome Z :=
  fold_ (fun num i => count_links t true i num) (zrange (Z.to_nat (nodenum t))) 0.

(** ** [MemTopoParser] *)

Definition Attributes : Type := list (string * string).
Definition element : Type := string * Attributes.

Fixpoint attr_lookup (id : string) (attrs : Attributes) : option string :=
  match attrs with
  | [] => None
  | (k, v) :: attrs => if String.eqb k id then Some v else attr_lookup id attrs
  end.

Definition hasValue (id : string) (attrs : Attributes) : bool :=
  match attr_lookup id attrs with Some _ => true | None => false end.

(** [assert(value != NULL)] *)
Definition getValue (id : string) (attrs : Attributes) : outcome string :=
  match attr_lookup id attrs with Some v => Ret v | None => Stop AssertFailed end.

Definition getInt (id : string) (attrs : Attributes) : outcome Z :=
  v ← getValue id attrs; Ret (atoi v).

Record MemTopoParser : Type := mkParser {
  memoryTopology : MemoryTopology;
  curNode : Z
}.

(** The constructor sets [curNode] only: the vectors are empty, the integers and
    the route type hold whatever the memory held. *)
Definition newParser (g_nodenum g_links : Z) (g_type : ROUTE_TYPE) : MemTopoParser :=
  mkParser (mkTopology g_nodenum g_links g_type [] [] [] []) (-1).

Definition set_topology (f : MemoryTopology -> MemoryTopology) (p : MemTopoParser) : MemTopoParser :=
  mkParser (f (memoryTopology p)) (curNode p).
Definition set_nodes (x : list (list bool)) (t : MemoryTopology) : MemoryTopology :=
  mkTopology (nodenum t) (linkspernode t) (route_type t) x (interconnections t) (routes t) (cpuroutes t).
Definition set_interconnections (x : list Z) (t : MemoryTopology) : MemoryTopology :=
  mkTopology (nodenum t) (linkspernode t) (route_type t) (nodes t) x (routes t) (cpuroutes t).
Definition set_routes (x : list (list (list Z))) (t : MemoryTopology) : MemoryTopology :=
  mkTopology (nodenum t) (linkspernode t) (route_type t) (nodes t) (interconnections t) x (cpuroutes t).
Definition set_cpuroutes (x : list (list Z)) (t : MemoryTopology) : MemoryTopology :=
  mkTopology (nodenum t) (linkspernode t) (route_type t) (nodes t) (interconnections t) (routes t) x.

Definition total_links (t : MemoryTopology) : Z := nodenum t * linkspernode t.

Definition start_memnodes (p : MemTopoParser) (attrs : Attributes) : outcome MemTopoParser :=
  let t := memoryTopology p in
  n ← getInt "num" attrs;
  k ← getInt "linkspernode" attrs;
  _ ← assert_ (0 <? n);
  _ ← assert_ (0 <? k);
  let rows := map (fun row => resize_ row k false) (resize_ (nodes t) n []) in
  Ret (mkParser (mkTopology n k (route_type t) rows (replicate (Z.to_nat (n * k)) (-1))
                   (routes t) (cpuroutes t)) (curNode p)).

Definition start_node (p : MemTopoParser) (attrs : Attributes) : outcome MemTopoParser :=
  n ← getInt "id" attrs; Ret (mkParser (memoryTopology p) n).

Definition start_link (p : MemTopoParser) (attrs : Attributes) : outcome MemTopoParser :=
  let t := memoryTopology p in
  tocpu ← getValue "tocpu" attrs;
  if String.eqb tocpu "true" then
    link_id ← getInt "id" attrs;
    _ ← assert_ (link_id <? total_links t);
    let inner_link_id := Z.rem link_id (linkspernode t) in
    row ← at_ (nodes t) (curNode p);
    row' ← set_at row inner_link_id true;
    nodes' ← set_at (nodes t) (curNode p) row';
    Ret (set_topology (set_nodes nodes') p)
  else Ret p.

Definition start_interconnection (p : MemTopoParser) (attrs : Attributes) : outcome MemTopoParser :=
  let t := memoryTopology p in
  from ← getInt "from" attrs;
  to ← getInt "to" attrs;
  _ ← assert_ (from <? total_links t);
  _ ← assert_ (to <? total_links t);
  ic ← set_at (interconnections t) from to;
  undirected ← (if negb (hasValue "type" attrs) then Ret true
                else ty ← getValue "type" attrs; Ret (String.eqb ty "undirected"));
  ic' ← (if undirected : bool then set_at ic to from else Ret ic);
  Ret (set_topology (set_interconnections ic') p).

Definition start_memroutes (p : MemTopoParser) (attrs : Attributes) : outcome MemTopoParser :=
  let t := memoryTopology p in
  routetype ← getValue "type" attrs;
  if String.eqb routetype "static" then
    let rs := map (fun row => resize_ row (nodenum t) []) (resize_ (routes t) (nodenum t) []) in
    Ret (mkParser (mkTopology (nodenum t) (linkspernode t) STATIC_ROUTE (nodes t) (interconnections t)
                     rs (resize_ (cpuroutes t) (nodenum t) [])) (curNode p))
  else Stop AssertFailed.

(** One round of the [while (p != 0)] loop of a [route] element. *)
Definition push_route (src dst : Z) (p : MemTopoParser) (tok : string) : outcome MemTopoParser :=
  let t := memoryTopology p in
  let next := atoi tok in
  _ ← assert_ ((src * linkspernode t <=? next) && (next <? (src + 1) * linkspernode t));
  row ← at_ (routes t) src;
  ls ← at_ row dst;
  row' ← set_at row dst (ls ++ [next]);
  rs ← set_at (routes t) src row';
  Ret (set_topology (set_routes rs) p).

Definition start_route (p : MemTopoParser) (attrs : Attributes) : outcome MemTopoParser :=
  let t := memoryTopology p in
  _ ← assert_ (bool_decide (route_type t = STATIC_ROUTE));
  src ← getInt "src" attrs;
  dst ← getInt "dst" attrs;
  _ ← assert_ ((0 <=? src) && (src <? nodenum t));
  _ ← assert_ ((0 <=? dst) && (dst <? nodenum t));
  next_str ← getValue "next" attrs;
  fold_ (push_route src dst) (strtok next_str EmptyString) p.

Definition push_cpuroute (dst : Z) (p : MemTopoParser) (tok : string) : outcome MemTopoParser :=
  let t := memoryTopology p in
  let next := atoi tok in
  _ ← assert_ ((0 <=? next) && (next <? total_links t));
  row ← at_ (nodes t) (next / linkspernode t);
  b ← at_ row (next mod linkspernode t);
  _ ← assert_ b;
  ls ← at_ (cpuroutes t) dst;
  cs ← set_at (cpuroutes t) dst (ls ++ [next]);
  Ret (set_topology (set_cpuroutes cs) p).

Definition start_cpuroute (p : MemTopoParser) (attrs : Attributes) : outcome MemTopoParser :=
  let t := memoryTopology p in
  _ ← assert_ (bool_decide (route_type t = STATIC_ROUTE));
  dst ← getInt "dst" attrs;
  _ ← assert_ ((0 <=? dst) && (dst <? nodenum t));
  next_str ← getValue "next" attrs;
  fold_ (push_cpuroute dst) (strtok next_str EmptyString) p.

Definition startElement (p : MemTopoParser) (e : element) : outcome MemTopoParser :=
  let '(name, attrs) := e in
  if String.eqb name "memnodes" then start_memnodes p attrs
  else if String.eqb name "node" then start_node p attrs
  else if String.eqb name "link" then start_link p attrs
  else if String.eqb name "interconnection" then start_interconnection p attrs
  else if String.eqb name "memroutes" then start_memroutes p attrs
  else if String.eqb name "route" then start_route p attrs
  else if String.eqb name "cpuroute" then start_cpuroute p attrs
  else Ret p.

(** [getMemTopoFromXML]: the events of the document, in order. *)
Definition getMemTopoFromXML (g_nodenum g_links : Z) (g_type : ROUTE_TYPE) (doc : list element)
    : outcome MemoryTopology :=
  p ← fold_ startElement doc (newParser g_nodenum g_links g_type);
  Ret (memoryTopology p).

(** ** Links of a logic layer *)

Inductive LinkType : Type := HOST_SOURCE_MODE | HOST | PASSTHRU.

#[global] Instance LinkType_eq_dec : EqDecision LinkType.
Proof. solve_decision. Defined.

(** The constructor of [LogicLayer]: first the source-mode links, then the
    host links, numbered from [cub * stack_links]. *)
Definition LogicLayer_links (t : MemoryTopology) (stack_links cub : Z) : outcome (list (Z * LinkType)) :=
  source ← getSourceModeLinkNum t cub;
  host ← getHostModeLinkNum t cub;
  let link_id := cub * stack_links in
  Ret (map (fun i => (link_id + i, HOST_SOURCE_MODE)) (zrange (Z.to_nat source)) ++
       map (fun i => (link_id + source + i, HOST)) (zrange (Z.to_nat host))).

(** [LogicLayer::get_link_by_num]: the id is asserted to be in [links_map]. *)
Definition get_link_by_num (layer : list (Z * LinkType)) (num : Z) : outcome Z :=
  _ ← assert_ (bool_decide (num ∈ layer.*1)); Ret num.

(** [logic_layers], one per stack. *)
Definition make_layers (t : MemoryTopology) (stacks stack_links : Z) : outcome (list (list (Z * LinkType))) :=
  fold_ (fun ls i => l ← LogicLayer_links t stack_links i; Ret (ls ++ [l]))
    (zrange (Z.to_nat stacks)) [].

Definition layer_link (layers : list (list (Z * LinkType))) (cub num : Z) : outcome Z :=
  layer ← at_ layers cub; get_link_by_num layer num.

(** ** [Memory::connect_memnodes] *)

Definition connect_link (t : MemoryTopology) (layers : list (list (Z * LinkType))) (nodeId : Z)
    (w : gmap Z Z) (innerlinkId : Z) : outcome (gmap Z Z) :=
  row ← at_ (nodes t) nodeId;
  tocpu ← at_ row innerlinkId;
  if negb tocpu then
    let outerlinkId := nodeId * linkspernode t + innerlinkId in
    neighlinkId ← at_ (interconnections t) outerlinkId;
    if negb (neighlinkId =? -1) then
      let neighnodeId := Z.quot neighlinkId (linkspernode t) in
      a ← layer_link layers nodeId outerlinkId;
      b ← layer_link layers neighnodeId neighlinkId;
      Ret (<[a := b]> w)
    else Ret w
  else Ret w.

Definition connect_memnodes (t : MemoryTopology) (layers : list (list (Z * LinkType))) : outcome (gmap Z Z) :=
  fold_ (fun w nodeId =>
    fold_ (connect_link t layers nodeId) (zrange (Z.to_nat (linkspernode t))) w)
    (zrange (Z.to_nat (nodenum t))) ∅.

(** [Memory::get_route_link] *)
Definition get_route_link (t : MemoryTopology) (stacks cur_cub target_cub : Z) : outcome Z :=
  _ ← assert_ (((0 <=? cur_cub) && (cur_cub <? stacks)) &&
               ((0 <=? target_cub) && (target_cub <? stacks)));
  getRouteLink t cur_cub target_cub.

(** The asserts of the [Memory] constructor on the topology, and the layers and
    wires it builds. *)
Record memory_net : Type := mkMemoryNet {
  mn_topology : MemoryTopology;
  mn_layers : list (list (Z * LinkType));
  mn_wires : gmap Z Z
}.

Definition Memory_topology (t : MemoryTopology) (source_links stacks stack_links : Z) : outcome memory_net :=
  total ← getTotalSourceModeLinkNum t;
  _ ← assert_ (total =? source_links);
  _ ← assert_ (linkspernode t =? stack_links);
  _ ← assert_ (nodenum t =? stacks);
  layers ← make_layers t stacks stack_links;
  w ← connect_memnodes t layers;
  Ret (mkMemoryNet t layers w).

(** The network that the switches see. *)
Definition topology_network (m : memory_net) : network :=
  let t := mn_topology m in
  Network (Z.to_nat (nodenum t)) (linkspernode t)
    (fun cur target =>
       l ← get_route_link t (nodenum t) cur target;
       layer_link (mn_layers m) cur l)
    (fun l => mn_wires m !! l).

(** ** Well-formed topologies *)

(** A link of node [n]. *)
Definition owned (t : MemoryTopology) (n l : Z) : Prop :=
  n * linkspernode t <= l < (n + 1) * linkspernode t.

(** Link [l] is marked as a CPU link. *)
Definition is_tocpu (t : MemoryTopology) (l : Z) : Prop :=
  0 <= l < total_links t /\
  exists row, nodes t !! Z.to_nat (l / linkspernode t) = Some row /\
    row !! Z.to_nat (l mod linkspernode t) = Some true.

Record wf_topology (t : MemoryTopology) : Prop := {
  wf_nodenum : 0 < nodenum t;
  wf_linkspernode : 0 < linkspernode t;
  wf_nodes : length (nodes t) = Z.to_nat (nodenum t);
  wf_node_rows : Forall (fun row => length row = Z.to_nat (linkspernode t)) (nodes t);
  wf_interconnections : length (interconnections t) = Z.to_nat (total_links t);
  wf_neighbours : Forall (fun l => l < total_links t) (interconnections t);
  wf_routes_length : routes t = [] \/ length (routes t) = Z.to_nat (nodenum t);
  wf_route_rows : Forall (fun row => length row = Z.to_nat (nodenum t)) (routes t);
  wf_routes : forall src row, routes t !! src = Some row ->
    Forall (Forall (owned t (Z.of_nat src))) row;
  wf_cpuroutes : Forall (Forall (is_tocpu t)) (cpuroutes t)
}.

Lemma Forall_resize {A} (P : A -> Prop) l n d : Forall P l -> P d -> Forall P (resize_ l n d).
Proof. intros. apply Forall_app_2; [by apply Forall_take|by apply Forall_replicate]. Qed.

Lemma Forall_set_at {A} (P : A -> Prop) l i a l' :
  Forall P l -> P a -> set_at l i a = Ret l' -> Forall P l'.
Proof. intros Hl Ha [_ ->]%set_at_ret_iff. by apply Forall_insert. Qed.

Lemma length_set_at {A} (l : list A) i a l' : set_at l i a = Ret l' -> length l' = length l.
Proof. intros [_ ->]%set_at_ret_iff. by rewrite length_insert. Qed.

(** Marking one more CPU link keeps the others. *)
Lemma is_tocpu_set t n row i nodes' l :
  0 <= n -> nodes t !! Z.to_nat n = Some row ->
  nodes' = <[Z.to_nat n := <[Z.to_nat i := true]> row]> (nodes t) ->
  is_tocpu t l -> is_tocpu (set_nodes nodes' t) l.
Proof.
  intros Hn Hrow -> (Hl & r & Hr & Hb). split; [done|]. simpl.
  destruct (decide (Z.to_nat (l / linkspernode t) = Z.to_nat n)) as [E|E].
  - rewrite E in *. simplify_eq. eexists. split.
    { apply list_lookup_insert_eq. by eapply lookup_lt_Some. }
    destruct (decide (Z.to_nat (l mod linkspernode t) = Z.to_nat i)) as [Ei|].
    + rewrite <- Ei. apply list_lookup_insert_eq. by eapply lookup_lt_Some.
    + by rewrite list_lookup_insert_ne.
  - exists r. by rewrite list_lookup_insert_ne.
Qed.

Lemma start_memnodes_wf g1 g2 g3 attrs p :
  start_memnodes (newParser g1 g2 g3) attrs = Ret p -> wf_topology (memoryTopology p).
Proof.
  unfold start_memnodes. intros H. outcome_steps. zb.
  split; unfold total_links; simpl; try done; try lia.
  - by rewrite length_map, length_resize.
  - apply Forall_map, Forall_forall. intros row _. simpl. apply length_resize.
  - by rewrite length_replicate.
  - apply Forall_replicate. nia.
  - by left.
Qed.

Lemma start_link_wf p attrs p' :
  wf_topology (memoryTopology p) -> start_link p attrs = Ret p' -> wf_topology (memoryTopology p').
Proof.
  unfold start_link. intros W H. outcome_steps.
  match goal with H : (if ?b then _ else _) = _ |- _ => destruct b end; outcome_steps; [|done].
  repeat match goal with
  | H : at_ _ _ = Ret _ |- _ => apply at_ret_iff in H as [? ?]
  | H : set_at _ _ _ = Ret _ |- _ => apply set_at_ret_iff in H as [? ->]
  end.
  destruct W. split; simpl; try done.
  - by rewrite length_insert.
  - apply Forall_insert; [done|]. rewrite length_insert.
    eapply (proj1 (Forall_lookup _ _) wf_node_rows0). done.
  - eapply Forall_impl; [done|]. intros ls Hls. eapply Forall_impl; [done|].
    intros l. by eapply is_tocpu_set.
Qed.

Lemma start_interconnection_wf p attrs p' :
  wf_topology (memoryTopology p) -> start_interconnection p attrs = Ret p' ->
  wf_topology (memoryTopology p').
Proof.
  unfold start_interconnection. intros W H. outcome_steps. zb.
  destruct W. split; simpl; try done; unfold total_links in *; simpl.
  - match goal with H : (if _ then _ else _) = Ret _ |- _ => case_match end; outcome_steps;
      repeat (erewrite length_set_at by eassumption); done.
  - match goal with H : (if _ then _ else _) = Ret _ |- _ => case_match end; outcome_steps;
      repeat (eapply Forall_set_at; [| |eassumption]); first [done|simpl; lia].
Qed.

Lemma start_memroutes_wf p attrs p' :
  wf_topology (memoryTopology p) -> start_memroutes p attrs = Ret p' ->
  wf_topology (memoryTopology p').
Proof.
  unfold start_memroutes. intros W H. outcome_steps.
  match goal with H : (if ?b then _ else _) = _ |- _ => destruct b end; outcome_steps.
  destruct W. split; unfold total_links; simpl; try done.
  - right. by rewrite length_map, length_resize.
  - apply Forall_map, Forall_forall. intros row _. simpl. apply length_resize.
  - intros src row. rewrite list_lookup_fmap.
    destruct (resize_ (routes (memoryTopology p)) _ [] !! src) as [r|] eqn:E; [|done].
    intros [= <-]. apply Forall_resize; [|constructor]. unfold resize_ in E.
    rewrite lookup_app in E. destruct (take _ _ !! src) eqn:Et.
    + injection E as ->. apply lookup_take_Some in Et as [Et _]. by eapply wf_routes0.
    + apply lookup_replicate in E as [-> _]. constructor.
  - by apply Forall_resize.
Qed.

Lemma push_route_wf src dst p tok p' :
  wf_topology (memoryTopology p) -> push_route src dst p tok = Ret p' ->
  wf_topology (memoryTopology p').
Proof.
  unfold push_route. intros W H. outcome_steps. zb.
  repeat match goal with
  | H : at_ _ _ = Ret _ |- _ => apply at_ret_iff in H as [? ?]
  | H : set_at _ _ _ = Ret _ |- _ => apply set_at_ret_iff in H as [? ->]
  end.
  destruct W. split; simpl; try done.
  - destruct wf_routes_length0 as [E|E]; [left; by rewrite E|right; by rewrite length_insert].
  - apply Forall_insert; [done|]. rewrite length_insert.
    eapply (proj1 (Forall_lookup _ _) wf_route_rows0). done.
  - intros s row [(E & <- & _)|[_ Hs]]%list_lookup_insert_Some; [|exact (wf_routes0 _ _ Hs)].
    subst s. pose proof (wf_routes0 _ _ ltac:(eassumption)) as Hrow.
    apply Forall_insert; [exact Hrow|]. apply Forall_app_2.
    + eapply (proj1 (Forall_lookup _ _) Hrow). done.
    + constructor; [|done]. unfold owned. simpl. lia.
Qed.

Lemma push_cpuroute_wf dst p tok p' :
  wf_topology (memoryTopology p) -> push_cpuroute dst p tok = Ret p' ->
  wf_topology (memoryTopology p').
Proof.
  unfold push_cpuroute. intros W H. outcome_steps. zb.
  repeat match goal with
  | H : at_ _ _ = Ret _ |- _ => apply at_ret_iff in H as [? ?]
  | H : set_at _ _ _ = Ret _ |- _ => apply set_at_ret_iff in H as [? ->]
  end; subst.
  destruct W. split; simpl; try done.
  apply Forall_insert; [done|]. apply Forall_app_2.
  - by eapply (proj1 (Forall_lookup _ _) wf_cpuroutes0).
  - constructor; [|done]. unfold is_tocpu, total_links in *. simpl. eauto.
Qed.

Create HintDb topology.
#[export] Hint Resolve start_link_wf start_interconnection_wf start_memroutes_wf : topology.

(** Every element but a second [memnodes] keeps the tables well-formed. *)
Lemma startElement_wf p e p' :
  e.1 <> "memnodes"%string -> wf_topology (memoryTopology p) ->
  startElement p e = Ret p' -> wf_topology (memoryTopology p').
Proof.
  destruct e as [name attrs]. simpl. intros Hn W.
  destruct (String.eqb_spec name "memnodes"); [done|].
  repeat match goal with |- context [String.eqb ?a ?b] => destruct (String.eqb a b) end;
    intros H; eauto with topology.
  - unfold start_node in H. by outcome_steps.
  - unfold start_route in H. outcome_steps.
    eapply (fold_invariant _ (fun p => wf_topology (memoryTopology p))); [|exact W|eassumption].
    intros; by eapply push_route_wf.
  - unfold start_cpuroute in H. outcome_steps.
    eapply (fold_invariant _ (fun p => wf_topology (memoryTopology p))); [|exact W|eassumption].
    intros; by eapply push_cpuroute_wf.
  - by outcome_steps.
Qed.

(** A document whose only [memnodes] element comes before the others fills
    well-formed tables. *)
Lemma getMemTopoFromXML_wf g1 g2 g3 pre attrs rest t :
  Forall (fun e => e.1 ∉ ["memnodes"; "node"; "link"; "interconnection"; "memroutes"; "route"; "cpuroute"]%string) pre ->
  Forall (fun e => e.1 <> "memnodes"%string) rest ->
  getMemTopoFromXML g1 g2 g3 (pre ++ ("memnodes"%string, attrs) :: rest) = Ret t ->
  wf_topology t.
Proof.
  unfold getMemTopoFromXML. intros Hpre Hrest H. outcome_steps.
  induction Hpre as [|[name a] pre Hn _ IH]; cbn [app fold_] in H.
  - apply bind_ret_inv in H as (p1 & H1 & H). simpl in H1. apply start_memnodes_wf in H1.
    eapply (fold_invariant _ (fun p => wf_topology (memoryTopology p))); [|exact H1|exact H].
    rewrite Forall_forall in Hrest. intros e q q' He. apply startElement_wf, Hrest, He.
  - apply IH. apply bind_ret_inv in H as (p1 & H1 & H). simpl in Hn, H1.
    rewrite !not_elem_of_cons in Hn. destruct_and! Hn.
    repeat match type of H1 with
    | context [String.eqb name ?b] => destruct (String.eqb_spec name b); [done|]
    end. by injection H1 as <-.
Qed.

(** ** Getters on well-formed topologies *)

Section Wellformed.
Context (t : MemoryTopology) (W : wf_topology t).

Definition valid_node (n : Z) : Prop := 0 <= n < nodenum t.

Lemma node_row n : valid_node n ->
  exists row, at_ (nodes t) n = Ret row /\ length row = Z.to_nat (linkspernode t).
Proof.
  intros Hn. destruct (at_in_range (nodes t) n) as [row Hr].
  { rewrite wf_nodes by done. unfold valid_node in Hn. lia. }
  exists row. split; [done|]. apply at_ret_iff in Hr as [_ Hr].
  by apply (proj1 (Forall_lookup _ _) (wf_node_rows _ W) _ _ Hr).
Qed.

(** With the routing tables allocated, [getRouteLink] returns, and returns a
    link of the source node or -1. *)
Lemma getRouteLink_owned src dst :
  route_type t = STATIC_ROUTE -> routes t <> [] -> valid_node src -> valid_node dst ->
  exists l, getRouteLink t src dst = Ret l /\ (l = -1 \/ owned t src l).
Proof.
  unfold valid_node. intros Hrt Hne Hs Hd. unfold getRouteLink. rewrite Hrt.
  replace ((0 <=? src) && _ && _)%bool with true by (symmetry; lia). simpl.
  destruct (wf_routes_length _ W) as [|Hlen]; [done|].
  destruct (at_in_range (routes t) src) as [row Hrow]; [lia|]. rewrite Hrow. simpl.
  apply at_ret_iff in Hrow as [_ Hrow].
  pose proof (proj1 (Forall_lookup _ _) (wf_route_rows _ W) _ _ Hrow) as Hrl.
  destruct (at_in_range row dst) as [ls Hls]; [simpl in Hrl; lia|]. rewrite Hls. simpl.
  apply at_ret_iff in Hls as [_ Hls]. eexists. split; [done|].
  destruct ls as [|l ls]; [by left|right].
  pose proof (proj1 (Forall_lookup _ _) (wf_routes _ W _ _ Hrow) _ _ Hls) as Ho.
  apply Forall_inv in Ho. by rewrite Z2Nat.id in Ho by lia.
Qed.

Lemma fold_count (mode : bool) row num :
  fold_ (fun num b => Ret (if Bool.eqb b mode then num + 1 else num)) row num =
  Ret (num + count_b (fun b => Bool.eqb b mode) row).
Proof.
  revert num. induction row as [|b row IH]; intros num; cbn [fold_ count_b]; [f_equal; lia|].
  simpl. rewrite IH. f_equal. destruct (Bool.eqb b mode); lia.
Qed.

Lemma count_links_spec mode n row num :
  at_ (nodes t) n = Ret row -> length row = Z.to_nat (linkspernode t) ->
  count_links t mode n num = Ret (num + count_b (fun b => Bool.eqb b mode) row).
Proof.
  intros Hr Hl. unfold count_links. rewrite Hr, <- Hl. simpl.
  rewrite (fold_at_elements (fun num b => Ret (if Bool.eqb b mode then num + 1 else num))).
  apply fold_count.
Qed.

(** Source-mode and host-mode links are all the links of a node. *)
Lemma link_modes_total n : valid_node n ->
  exists s h, getSourceModeLinkNum t n = Ret s /\ getHostModeLinkNum t n = Ret h /\
    0 <= s /\ 0 <= h /\ s + h = linkspernode t.
Proof.
  intros Hn. destruct (node_row n Hn) as (row & Hr & Hl).
  unfold getSourceModeLinkNum, getHostModeLinkNum.
  rewrite !(count_links_spec _ n row) by done. do 2 eexists.
  do 2 (split; [done|]). rewrite !Z.add_0_l.
  do 2 (split; [apply count_b_nonneg|]).
  pose proof (count_b_complement (fun b => Bool.eqb b true) row) as Hc.
  replace (count_b (fun b => Bool.eqb b false) row)
    with (count_b (fun b => negb (Bool.eqb b true)) row).
  - pose proof (wf_linkspernode _ W). lia.
  - clear. induction row as [|b row IH]; simpl; [done|]. rewrite IH. by destruct b.
Qed.

(** The layer of stack [cub] holds exactly the links the topology gives it. *)
Lemma LogicLayer_links_ids cub : valid_node cub ->
  exists layer, LogicLayer_links t (linkspernode t) cub = Ret layer /\
    forall num, num ∈ layer.*1 <-> owned t cub num.
Proof.
  intros Hn. destruct (link_modes_total cub Hn) as (s & h & Hs & Hh & Hs0 & Hh0 & Hsum).
  unfold LogicLayer_links. rewrite Hs. simpl. rewrite Hh. simpl. eexists. split; [done|].
  intros num. rewrite fmap_app, elem_of_app, <- !list_fmap_compose, !list_elem_of_fmap.
  unfold owned. simpl. split.
  - intros [(i & -> & Hi%elem_of_zrange)|(i & -> & Hi%elem_of_zrange)]; simpl; lia.
  - intros Hnum. destruct (decide (num < cub * linkspernode t + s)).
    + left. exists (num - cub * linkspernode t). split; [simpl; lia|]. apply elem_of_zrange. lia.
    + right. exists (num - cub * linkspernode t - s). split; [simpl; lia|].
      apply elem_of_zrange. lia.
Qed.
End Wellformed.

(** ** Layers and wires *)

Lemma fold_push {A B} (g : A -> outcome B) (h : A -> B) l acc :
  (forall a, a ∈ l -> g a = Ret (h a)) ->
  fold_ (fun bs a => b ← g a; Ret (bs ++ [b])) l acc = Ret (acc ++ map h l).
Proof.
  revert acc. induction l as [|a l IH]; intros acc Hg; simpl; [by rewrite app_nil_r|].
  rewrite Hg by constructor. simpl. rewrite IH by (intros b Hb; apply Hg; by constructor).
  by rewrite <- app_assoc.
Qed.

Section Wires.
Context (t : MemoryTopology) (W : wf_topology t).

Definition layer_of (cub : Z) : list (Z * LinkType) :=
  match LogicLayer_links t (linkspernode t) cub with Ret l => l | Stop _ => [] end.

Lemma make_layers_spec :
  make_layers t (nodenum t) (linkspernode t) =
  Ret (map layer_of (zrange (Z.to_nat (nodenum t)))).
Proof.
  unfold make_layers. rewrite (fold_push _ layer_of); [done|].
  intros a Ha%elem_of_zrange. unfold layer_of.
  destruct (LogicLayer_links_ids t W a) as (layer & -> & _); [unfold valid_node; lia|done].
Qed.

Lemma layer_link_spec layers cub l :
  make_layers t (nodenum t) (linkspernode t) = Ret layers ->
  layer_link layers cub l =
    if bool_decide (valid_node t cub) then
      if bool_decide (owned t cub l) then Ret l else Stop AssertFailed
    else Stop OutOfRange.
Proof.
  rewrite make_layers_spec. intros [= <-]. unfold layer_link. case_bool_decide as Hc.
  2:{ rewrite at_stop; [done|]. rewrite length_map, length_zrange. unfold valid_node in Hc. lia. }
  replace (at_ _ cub) with (Ret (layer_of cub)).
  2:{ symmetry. apply at_ret_iff. split; [unfold valid_node in Hc; lia|].
      rewrite list_lookup_fmap, lookup_zrange by (unfold valid_node in Hc; lia).
      simpl. do 2 f_equal. unfold valid_node in Hc. lia. }
  simpl. destruct (LogicLayer_links_ids t W cub Hc) as (layer & Hlayer & Hids).
  unfold layer_of, get_link_by_num. rewrite Hlayer.
  rewrite (bool_decide_ext _ _ (Hids l)). by case_bool_decide.
Qed.

(** What is plugged into link [l]. *)
Definition wire_of (l : Z) : option Z :=
  row ← nodes t !! Z.to_nat (l / linkspernode t);
  tocpu ← row !! Z.to_nat (l mod linkspernode t);
  neigh ← interconnections t !! Z.to_nat l;
  if (tocpu : bool) || (neigh =? -1) then None else Some neigh.

Lemma wire_of_Some l l' :
  wire_of l = Some l' <-> l' <> -1 /\ interconnections t !! Z.to_nat l = Some l' /\
    exists row, nodes t !! Z.to_nat (l / linkspernode t) = Some row /\
      row !! Z.to_nat (l mod linkspernode t) = Some false.
Proof.
  unfold wire_of. split.
  - intros (row & Hrow & ([] & Hb & (x & Hx & H)%bind_Some)%bind_Some)%bind_Some; [done|].
    simpl in H. destruct (x =? -1) eqn:E; zb; naive_solver.
  - intros (Hne & Hx & row & -> & Hb). simpl. rewrite Hb. simpl. rewrite Hx. simpl.
    by rewrite (proj2 (Z.eqb_neq _ _) Hne).
Qed.

Definition add_wire (w : gmap Z Z) (l : Z) : gmap Z Z :=
  match wire_of l with Some l' => <[l := l']> w | None => w end.

Lemma foldl_add_wire ls w l :
  foldl add_wire w ls !! l =
  if decide (l ∈ ls) then match wire_of l with Some l' => Some l' | None => w !! l end else w !! l.
Proof.
  revert w. induction ls as [|a ls IH]; intros w; simpl; [done|].
  rewrite IH. unfold add_wire.
  destruct (decide (l = a)) as [->|Hne].
  - rewrite (decide_True (P := a ∈ a :: ls)) by constructor.
    destruct (wire_of a); case_decide; by simplify_map_eq.
  - rewrite (decide_ext (l ∈ a :: ls) (l ∈ ls)) by (rewrite elem_of_cons; naive_solver).
    case_decide; destruct (wire_of a), (wire_of l); by simplify_map_eq.
Qed.

Lemma owned_div n l : owned t n l -> l / linkspernode t = n.
Proof.
  unfold owned. intros H. pose proof (wf_linkspernode _ W). symmetry.
  apply (Z.div_unique_pos l (linkspernode t) n (l - linkspernode t * n)); lia.
Qed.

Lemma owned_of_link l : 0 <= l < total_links t ->
  valid_node t (l / linkspernode t) /\ owned t (l / linkspernode t) l.
Proof.
  unfold total_links, valid_node, owned. intros Hl. pose proof (wf_linkspernode _ W).
  pose proof (Z.div_mod l (linkspernode t)). pose proof (Z.mod_pos_bound l (linkspernode t)).
  repeat split; try lia; [apply Z.div_pos; lia|apply Z.div_lt_upper_bound; lia].
Qed.

Hypothesis neighbours_nonneg : Forall (fun l => -1 <= l) (interconnections t).

Lemma connect_link_spec layers n w i :
  make_layers t (nodenum t) (linkspernode t) = Ret layers ->
  valid_node t n -> 0 <= i < linkspernode t ->
  connect_link t layers n w i = Ret (add_wire w (n * linkspernode t + i)).
Proof.
  intros Hl Hn Hi. set (l := n * linkspernode t + i).
  assert (Ho : owned t n l) by (unfold owned, l; lia).
  pose proof (owned_div n l Ho) as Hdiv.
  assert (Hmod : l mod linkspernode t = i).
  { unfold l. rewrite Z.add_comm, Z_mod_plus_full. apply Z.mod_small. lia. }
  destruct (node_row t W n Hn) as (row & Hr & Hrl).
  destruct (at_in_range row i) as [b Hb]; [lia|].
  destruct (at_in_range (interconnections t) l) as [neigh Hneigh].
  { rewrite wf_interconnections by done. unfold total_links, valid_node, l in *. nia. }
  unfold connect_link, add_wire, wire_of. rewrite Hr. simpl. rewrite Hb. simpl.
  fold l. rewrite Hneigh, Hdiv, Hmod. apply at_ret_iff in Hr as [_ ->], Hb as [_ Hb], Hneigh as [_ Hneigh].
  simpl. rewrite Hb. simpl. rewrite Hneigh. simpl.
  destruct b; [done|]. simpl. destruct (neigh =? -1) eqn:E; [done|]. simpl.
  pose proof (proj1 (Forall_lookup _ _) neighbours_nonneg _ _ Hneigh).
  pose proof (proj1 (Forall_lookup _ _) (wf_neighbours _ W) _ _ Hneigh). zb. simpl in *.
  rewrite (layer_link_spec layers n l Hl), !bool_decide_true by done. simpl.
  rewrite Z.quot_div_nonneg by (pose proof (wf_linkspernode _ W); lia).
  destruct (owned_of_link neigh) as [Hv Hown]; [lia|].
  by rewrite (layer_link_spec layers _ neigh Hl), !bool_decide_true by done.
Qed.

(** [connect_memnodes] never fails on a well-formed topology, and plugs every
    memory link into the link the topology names. *)
Lemma connect_memnodes_spec layers :
  make_layers t (nodenum t) (linkspernode t) = Ret layers ->
  exists w, connect_memnodes t layers = Ret w /\
    forall l, w !! l = if decide (0 <= l < total_links t) then wire_of l else None.
Proof.
  intros Hl. unfold connect_memnodes.
  set (row_links := fun n => map (fun i => n * linkspernode t + i) (zrange (Z.to_nat (linkspernode t)))).
  rewrite (fold_pure _ (fun w n => foldl add_wire w (row_links n))).
  2:{ intros n w Hn%elem_of_zrange. rewrite (fold_pure _ (fun w i => add_wire w (n * linkspernode t + i))).
      - f_equal. unfold row_links. generalize (zrange (Z.to_nat (linkspernode t))). intros k.
        revert w. induction k as [|i k IH]; intros w; simpl; [done|apply IH].
      - intros i w' Hi%elem_of_zrange. apply connect_link_spec; [done|unfold valid_node; lia|lia]. }
  eexists. split; [done|]. intros l.
  replace (foldl (fun w n => foldl add_wire w (row_links n)) ∅ (zrange (Z.to_nat (nodenum t))))
    with (foldl add_wire ∅ (flat_map row_links (zrange (Z.to_nat (nodenum t))))).
  2:{ generalize (∅ : gmap Z Z) as w, (zrange (Z.to_nat (nodenum t))) as ns. intros w ns. revert w.
      induction ns as [|n ns IH]; intros w; simpl; [done|]. by rewrite foldl_app, IH. }
  rewrite foldl_add_wire, lookup_empty.
  rewrite (decide_ext _ (0 <= l < total_links t)); [case_decide; [by destruct (wire_of l)|done]|].
  rewrite list_elem_of_In, in_flat_map. pose proof (wf_linkspernode _ W). split.
  - intros (n & Hn & (i & <- & Hi)%in_map_iff).
    apply list_elem_of_In, elem_of_zrange in Hn. apply list_elem_of_In, elem_of_zrange in Hi.
    unfold total_links. nia.
  - intros Hr. destruct (owned_of_link l Hr) as [Hv Ho]. exists (l / linkspernode t).
    split; [apply list_elem_of_In, elem_of_zrange; unfold valid_node in Hv; lia|].
    apply in_map_iff. exists (l - l / linkspernode t * linkspernode t). split; [lia|].
    apply list_elem_of_In, elem_of_zrange. unfold owned in Ho. lia.
Qed.
End Wires.

(** ** Properties *)

(** Elements that the handler ignores. *)
Definition ignored (e : element) : Prop :=
  e.1 ∉ ["memnodes"; "node"; "link"; "interconnection"; "memroutes"; "route"; "cpuroute"]%string.

(** When the parser accepts a document with one leading [memnodes] element
    that allocates its routing tables, the layers can be built, [getRouteLink]
    returns for every pair of nodes, and the link it returns is -1 or one that
    [get_link_by_num] of the source's logic layer finds. *)
Theorem parsed_routes_valid g1 g2 g3 pre attrs rest t src dst :
  Forall ignored pre -> Forall (fun e => e.1 <> "memnodes"%string) rest ->
  getMemTopoFromXML g1 g2 g3 (pre ++ ("memnodes"%string, attrs) :: rest) = Ret t ->
  route_type t = STATIC_ROUTE -> routes t <> [] ->
  0 <= src < nodenum t -> 0 <= dst < nodenum t ->
  exists layers l, make_layers t (nodenum t) (linkspernode t) = Ret layers /\
    getRouteLink t src dst = Ret l /\
    (l = -1 \/ layer_link layers src l = Ret l).
Proof.
  intros Hpre Hrest Ht Hrt Hne Hs Hd.
  pose proof (getMemTopoFromXML_wf _ _ _ _ _ _ _ Hpre Hrest Ht) as W.
  destruct (getRouteLink_owned t W src dst Hrt Hne Hs Hd) as (l & Hl & Ho).
  do 2 eexists. split; [by apply make_layers_spec|]. split; [done|].
  destruct Ho as [->|Ho]; [by left|right].
  rewrite (layer_link_spec t W) by (by apply make_layers_spec).
  by rewrite !bool_decide_true.
Qed.

(** Two nodes with two links each, joined by one wire. *)
Definition two_nodes : list element :=
  [("memnodes", [("num", "2"); ("linkspernode", "2")]);
   ("node", [("id", "0")]); ("link", [("id", "0"); ("tocpu", "true")]);
   ("interconnection", [("from", "1"); ("to", "3")]);
   ("memroutes", [("type", "static")]);
   ("route", [("src", "0"); ("dst", "1"); ("next", "1")]);
   ("route", [("src", "1"); ("dst", "0"); ("next", " 3,2")]);
   ("cpuroute", [("dst", "0"); ("next", "0")])]%string.

Definition two_nodes_topology : MemoryTopology :=
  mkTopology 2 2 STATIC_ROUTE [[true; false]; [false; false]] [-1; 3; -1; 1]
    [[[]; [1]]; [[3; 2]; []]] [[0]; []].

Lemma parsed_routes_valid_witness :
  exists layers l, make_layers two_nodes_topology 2 2 = Ret layers /\
    getRouteLink two_nodes_topology 1 0 = Ret l /\
    (l = -1 \/ layer_link layers 1 l = Ret l).
Proof.
  apply (parsed_routes_valid 7 7 ROUTE_TYPE_NUM [] [("num", "2"); ("linkspernode", "2")]%string
           (tl two_nodes) two_nodes_topology 1 0);
    [constructor|repeat constructor; simpl; discriminate|vm_compute; reflexivity|reflexivity
    |discriminate|simpl; lia|simpl; lia].
Defined.

(** On a well-formed topology whose neighbours are links or -1, building the
    layers and plugging them with [connect_memnodes] never fails; afterwards a
    link is plugged exactly when it is a memory link with a neighbour, into
    that neighbour. *)
Theorem connect_memnodes_plugs t :
  wf_topology t -> Forall (fun l => -1 <= l) (interconnections t) ->
  exists layers w, make_layers t (nodenum t) (linkspernode t) = Ret layers /\
    connect_memnodes t layers = Ret w /\
    forall l l', w !! l = Some l' <-> 0 <= l < total_links t /\ l' <> -1 /\
      interconnections t !! Z.to_nat l = Some l' /\
      exists row, nodes t !! Z.to_nat (l / linkspernode t) = Some row /\
        row !! Z.to_nat (l mod linkspernode t) = Some false.
Proof.
  intros W Hn. destruct (connect_memnodes_spec t W Hn _ (make_layers_spec t W)) as (w & Hw & Hl).
  do 2 eexists. split; [by apply make_layers_spec|]. split; [exact Hw|].
  intros l l'. rewrite Hl. case_decide; [rewrite wire_of_Some|]; tauto || naive_solver.
Qed.

Lemma connect_memnodes_plugs_witness :
  exists layers w, make_layers two_nodes_topology 2 2 = Ret layers /\
    connect_memnodes two_nodes_topology layers = Ret w /\
    forall l l', w !! l = Some l' <-> 0 <= l < 4 /\ l' <> -1 /\
      interconnections two_nodes_topology !! Z.to_nat l = Some l' /\
      exists row, nodes two_nodes_topology !! Z.to_nat (l / 2) = Some row /\
        row !! Z.to_nat (l mod 2) = Some false.
Proof.
  apply (connect_memnodes_plugs two_nodes_topology).
  - apply (getMemTopoFromXML_wf 0 0 STATIC_ROUTE [] [("num", "2"); ("linkspernode", "2")]%string
             (tl two_nodes));
      [constructor|repeat constructor; simpl; discriminate|vm_compute; reflexivity].
  - repeat constructor; discriminate.
Defined.
