(* ===== verification/Routing.v ===== *)
(** * Hard-wired topologies

    [src/src/ramulator/HMC_Memory.cpp]: the wires of the mesh and dragonfly
    arrangements of 4, 8 and 16 stacks ([connect_hmcs_Mesh],
    [connect_hmcs_Dragonfly]) and their routing functions
    ([get_route_link_Mesh], [get_route_link_Dragonfly]).  The tables of 16 stacks
    are split by mesh row and dragonfly group.

    The theorems evaluate the tables over all pairs of stacks: wires are
    symmetric, every packet arrives, on a shortest path (the Manhattan distance
    on the mesh, at most three links on the dragonfly), and the channel
    dependencies are acyclic where they are. *)

From S2P Require Import Prelude Network.

(** [logic_layers[c]->get_link_by_num(l)->set_other_side_link(
     logic_layers[c']->get_link_by_num(l'))] *)
Definition wire : Type := Z * Z * Z * Z.

(** Every stack has the four links [4 * c .. 4 * c + 3]. *)
Definition stack_links : Z := 4.

Definition has_link (stacks c l : Z) : bool :=
  (0 <=? c) && (c <? stacks) && (c * stack_links <=? l) && (l <? (c + 1) * stack_links).

Definition set_other_side_link (stacks : Z) (w : gmap Z Z) (x : wire) : outcome (gmap Z Z) :=
  let '(c, l, c', l') := x in
  _ ← assert_ (has_link stacks c l);
  _ ← assert_ (has_link stacks c' l');
  Ret (<[l := l']> w).

Definition connect_hmcs_Mesh16 : list wire :=
  [ (0, 1, 1, 4); (0, 2, 4, 16);
    (1, 4, 0, 1); (1, 6, 2, 8); (1, 7, 5, 21);
    (2, 8, 1, 6); (2, 10, 3, 15); (2, 11, 6, 25);
    (3, 14, 7, 29); (3, 15, 2, 10);
    (4, 16, 0, 2); (4, 17, 5, 20); (4, 18, 8, 32);
    (5, 20, 4, 17); (5, 21, 1, 7); (5, 22, 6, 24); (5, 23, 9, 37);
    (6, 24, 5, 22); (6, 25, 2, 11); (6, 26, 7, 28); (6, 27, 10, 41);
    (7, 28, 6, 26); (7, 29, 3, 14); (7, 31, 11, 45);
    (8, 32, 4, 18); (8, 33, 9, 36); (8, 34, 12, 49);
    (9, 36, 8, 33); (9, 37, 5, 23); (9, 38, 10, 40); (9, 39, 13, 53);
    (10, 40, 9, 38); (10, 41, 6, 27); (10, 42, 11, 44); (10, 43, 14, 57);
    (11, 44, 10, 42); (11, 45, 7, 31); (11, 47, 15, 63);
    (12, 49, 8, 34); (12, 50, 13, 52);
    (13, 52, 12, 50); (13, 53, 9, 39); (13, 54, 14, 56);
    (14, 56, 13, 54); (14, 57, 10, 43); (14, 58, 15, 62);
    (15, 62, 14, 58); (15, 63, 11, 47) ].

Definition connect_hmcs_Mesh8 : list wire :=
  [ (0, 1, 1, 4); (0, 2, 4, 17);
    (1, 4, 0, 1); (1, 6, 2, 8); (1, 7, 5, 21);
    (2, 8, 1, 6); (2, 10, 3, 15); (2, 11, 6, 25);
    (3, 14, 7, 31); (3, 15, 2, 10);
    (4, 17, 0, 2); (4, 18, 5, 20);
    (5, 20, 4, 18); (5, 21, 1, 7); (5, 22, 6, 24);
    (6, 24, 5, 22); (6, 25, 2, 11); (6, 26, 7, 30);
    (7, 30, 6, 26); (7, 31, 3, 14) ].

Definition connect_hmcs_Mesh4 : list wire :=
  [ (0, 1, 1, 7); (0, 2, 2, 9);
    (1, 6, 3, 15); (1, 7, 0, 1);
    (2, 9, 0, 2); (2, 10, 3, 14);
    (3, 14, 2, 10); (3, 15, 1, 6) ].

Definition connect_hmcs_Dragonfly4 : list wire :=
  [ (0, 1, 1, 7); (0, 2, 3, 14); (0, 3, 2, 9);
    (1, 5, 3, 15); (1, 6, 2, 10); (1, 7, 0, 1);
    (2, 9, 0, 3); (2, 10, 1, 6); (2, 11, 3, 13);
    (3, 13, 2, 11); (3, 14, 0, 2); (3, 15, 1, 5) ].

Definition connect_hmcs_Dragonfly8 : list wire :=
  [ (0, 1, 1, 4); (0, 2, 2, 11); (0, 3, 3, 13);
    (1, 4, 0, 1); (1, 5, 5, 21); (1, 6, 2, 8); (1, 7, 3, 14);
    (2, 8, 1, 6); (2, 9, 6, 25); (2, 10, 3, 15); (2, 11, 0, 2);
    (3, 13, 0, 3); (3, 14, 1, 7); (3, 15, 2, 10);
    (4, 17, 5, 20); (4, 18, 6, 27); (4, 19, 7, 29);
    (5, 20, 4, 17); (5, 21, 1, 5); (5, 22, 6, 24); (5, 23, 7, 30);
    (6, 24, 5, 22); (6, 25, 2, 9); (6, 26, 7, 31); (6, 27, 4, 18);
    (7, 29, 4, 19); (7, 30, 5, 23); (7, 31, 6, 26) ].

Definition connect_hmcs_Dragonfly16 : list wire :=
  [ (0, 1, 1, 4); (0, 2, 2, 11); (0, 3, 3, 13);
    (1, 4, 0, 1); (1, 5, 5, 21); (1, 6, 2, 8); (1, 7, 3, 14);
    (2, 8, 1, 6); (2, 9, 14, 57); (2, 10, 3, 15); (2, 11, 0, 2);
    (3, 12, 9, 37); (3, 13, 0, 3); (3, 14, 1, 7); (3, 15, 2, 10);
    (4, 17, 5, 20); (4, 18, 6, 27); (4, 19, 7, 29);
    (5, 20, 4, 17); (5, 21, 1, 5); (5, 22, 6, 24); (5, 23, 7, 30);
    (6, 24, 5, 22); (6, 25, 10, 41); (6, 26, 7, 31); (6, 27, 4, 18);
    (7, 28, 13, 53); (7, 29, 4, 19); (7, 30, 5, 23); (7, 31, 6, 26);
    (8, 33, 9, 36); (8, 34, 10, 43); (8, 35, 11, 46);
    (9, 36, 8, 33); (9, 37, 3, 12); (9, 38, 10, 40); (9, 39, 11, 47);
    (10, 40, 9, 38); (10, 41, 6, 25); (10, 42, 11, 44); (10, 43, 8, 34);
    (11, 44, 10, 42); (11, 45, 15, 61); (11, 46, 8, 35); (11, 47, 9, 39);
    (12, 49, 13, 52); (12, 50, 14, 59); (12, 51, 15, 62);
    (13, 52, 12, 49); (13, 53, 7, 28); (13, 54, 14, 56); (13, 55, 15, 63);
    (14, 56, 13, 54); (14, 57, 2, 9); (14, 58, 15, 60); (14, 59, 12, 50);
    (15, 60, 14, 58); (15, 61, 11, 45); (15, 62, 12, 51); (15, 63, 13, 55) ].

Definition connect_hmcs_Mesh (stacks : Z) : outcome (gmap Z Z) :=
  if stacks =? 16 then fold_ (set_other_side_link stacks) connect_hmcs_Mesh16 ∅
  else if stacks =? 8 then fold_ (set_other_side_link stacks) connect_hmcs_Mesh8 ∅
  else if stacks =? 4 then fold_ (set_other_side_link stacks) connect_hmcs_Mesh4 ∅
  else Stop AssertFailed.

Definition connect_hmcs_Dragonfly (stacks : Z) : outcome (gmap Z Z) :=
  if stacks =? 4 then fold_ (set_other_side_link stacks) connect_hmcs_Dragonfly4 ∅
  else if stacks =? 8 then fold_ (set_other_side_link stacks) connect_hmcs_Dragonfly8 ∅
  else if stacks =? 16 then fold_ (set_other_side_link stacks) connect_hmcs_Dragonfly16 ∅
  else Ret ∅.

(** ** Routes: [None] when no branch on [cur_cub] applies *)

Definition get_route_link_Mesh16_row0 (cur t : Z) : option Z :=
  if cur =? 0 then
    if (t =? 4) || (t =? 8) || (t =? 12) then Some 2
    else Some 1
  else if cur =? 1 then
    if (t =? 0) || (t =? 4) || (t =? 8) || (t =? 12) then Some 4
    else if (t =? 5) || (t =? 9) || (t =? 13) then Some 7
    else Some 6
  else if cur =? 2 then
    if (t =? 3) || (t =? 7) || (t =? 11) || (t =? 15) then Some 10
    else if (t =? 6) || (t =? 10) || (t =? 14) then Some 11
    else Some 8
  else if cur =? 3 then
    if (t =? 7) || (t =? 11) || (t =? 15) then Some 14
    else Some 15
  else None.

Definition get_route_link_Mesh16_row1 (cur t : Z) : option Z :=
  if cur =? 4 then
    if t =? 0 then Some 16
    else if (t =? 8) || (t =? 12) then Some 18
    else Some 17
  else if cur =? 5 then
    if (t =? 0) || (t =? 4) || (t =? 8) || (t =? 12) then Some 20
    else if t =? 1 then Some 21
    else if (t =? 9) || (t =? 13) then Some 23
    else Some 22
  else if cur =? 6 then
    if (t =? 3) || (t =? 7) || (t =? 11) || (t =? 15) then Some 26
    else if t =? 2 then Some 25
    else if (t =? 10) || (t =? 14) then Some 27
    else Some 24
  else if cur =? 7 then
    if t =? 3 then Some 29
    else if (t =? 11) || (t =? 15) then Some 31
    else Some 28
  else None.

Definition get_route_link_Mesh16_row2 (cur t : Z) : option Z :=
  if cur =? 8 then
    if t =? 12 then Some 34
    else if (t =? 0) || (t =? 4) then Some 32
    else Some 33
  else if cur =? 9 then
    if t =? 13 then Some 39
    else if (t =? 1) || (t =? 5) then Some 37
    else if (t =? 0) || (t =? 4) || (t =? 8) || (t =? 12) then Some 36
    else Some 38
  else if cur =? 10 then
    if t =? 14 then Some 43
    else if (t =? 2) || (t =? 6) then Some 41
    else if (t =? 3) || (t =? 7) || (t =? 11) || (t =? 15) then Some 42
    else Some 40
  else if cur =? 11 then
    if t =? 15 then Some 47
    else if (t =? 3) || (t =? 7) then Some 45
    else Some 44
  else None.

Definition get_route_link_Mesh16_row3 (cur t : Z) : option Z :=
  if cur =? 12 then
    if (t =? 0) || (t =? 4) || (t =? 8) then Some 49
    else Some 50
  else if cur =? 13 then
    if (t =? 0) || (t =? 4) || (t =? 8) || (t =? 12) then Some 52
    else if (t =? 1) || (t =? 5) || (t =? 9) then Some 53
    else Some 54
  else if cur =? 14 then
    if (t =? 2) || (t =? 6) || (t =? 10) then Some 57
    else if (t =? 3) || (t =? 7) || (t =? 11) || (t =? 15) then Some 58
    else Some 56
  else if cur =? 15 then
    if (t =? 3) || (t =? 7) || (t =? 11) then Some 63
    else Some 62
  else None.

Definition get_route_link_Mesh8 (cur t : Z) : option Z :=
  if cur =? 0 then
    if t =? 4 then Some 2
    else Some 1
  else if cur =? 1 then
    if (t =? 0) || (t =? 4) then Some 4
    else if t =? 5 then Some 7
    else Some 6
  else if cur =? 2 then
    if (t =? 3) || (t =? 7) then Some 10
    else if t =? 6 then Some 11
    else Some 8
  else if cur =? 3 then
    if t =? 7 then Some 14
    else Some 15
  else if cur =? 4 then
    if t =? 0 then Some 17
    else Some 18
  else if cur =? 5 then
    if (t =? 0) || (t =? 4) then Some 20
    else if t =? 1 then Some 21
    else Some 22
  else if cur =? 6 then
    if (t =? 3) || (t =? 7) then Some 26
    else if t =? 2 then Some 25
    else Some 24
  else if cur =? 7 then
    if t =? 3 then Some 31
    else Some 30
  else None.

Definition get_route_link_Mesh4 (cur t : Z) : option Z :=
  if cur =? 0 then
    if t =? 2 then Some 2
    else Some 1
  else if cur =? 1 then
    if t =? 3 then Some 6
    else Some 7
  else if cur =? 2 then
    if t =? 0 then Some 9
    else Some 10
  else if cur =? 3 then
    if t =? 1 then Some 15
    else Some 14
  else None.

(** A value that leaves the function without [return] is undefined. *)
Definition returned (o : option Z) : outcome Z :=
  match o with Some l => Ret l | None => Stop Undefined end.

Definition get_route_link_Mesh (stacks cur_cub target_cub : Z) : outcome Z :=
  if cur_cub =? target_cub then Ret (-1)
  else if stacks =? 16 then
    returned (get_route_link_Mesh16_row0 cur_cub target_cub ∪
              get_route_link_Mesh16_row1 cur_cub target_cub ∪
              get_route_link_Mesh16_row2 cur_cub target_cub ∪
              get_route_link_Mesh16_row3 cur_cub target_cub)
  else if stacks =? 8 then returned (get_route_link_Mesh8 cur_cub target_cub)
  else if stacks =? 4 then returned (get_route_link_Mesh4 cur_cub target_cub)
  else Stop AssertFailed.

Definition get_route_link_Dragonfly4 (cur t : Z) : option Z :=
  if cur =? 0 then
    if t =? 1 then Some 1
    else if t =? 2 then Some 3
    else Some 2
  else if cur =? 1 then
    if t =? 0 then Some 7
    else if t =? 2 then Some 6
    else Some 5
  else if cur =? 2 then
    if t =? 0 then Some 9
    else if t =? 1 then Some 10
    else Some 11
  else if cur =? 3 then
    if t =? 0 then Some 14
    else if t =? 1 then Some 15
    else Some 13
  else None.

Definition get_route_link_Dragonfly8 (cur t : Z) : option Z :=
  if cur =? 0 then
    if t =? 1 then Some 1
    else if t =? 2 then Some 2
    else if t =? 3 then Some 3
    else if (t =? 4) || (t =? 5) then Some 1
    else if (t =? 6) || (t =? 7) then Some 2
    else Some (-1)
  else if cur =? 1 then
    if t =? 0 then Some 4
    else if t =? 2 then Some 6
    else if t =? 3 then Some 7
    else if (4 <=? t) && (t <=? 7) then Some 5
    else Some (-1)
  else if cur =? 2 then
    if t =? 0 then Some 11
    else if t =? 1 then Some 8
    else if t =? 3 then Some 10
    else if (4 <=? t) && (t <=? 7) then Some 9
    else Some (-1)
  else if cur =? 3 then
    if t =? 0 then Some 13
    else if t =? 1 then Some 14
    else if t =? 2 then Some 15
    else if (t =? 4) || (t =? 5) then Some 14
    else if (t =? 6) || (t =? 7) then Some 15
    else Some (-1)
  else if cur =? 4 then
    if t =? 5 then Some 17
    else if t =? 6 then Some 18
    else if t =? 7 then Some 19
    else if (t =? 0) || (t =? 1) then Some 17
    else if (t =? 2) || (t =? 3) then Some 18
    else Some (-1)
  else if cur =? 5 then
    if t =? 4 then Some 20
    else if t =? 6 then Some 22
    else if t =? 7 then Some 23
    else if (0 <=? t) && (t <=? 3) then Some 21
    else Some (-1)
  else if cur =? 6 then
    if t =? 4 then Some 27
    else if t =? 5 then Some 24
    else if t =? 7 then Some 26
    else if (0 <=? t) && (t <=? 3) then Some 25
    else Some (-1)
  else if cur =? 7 then
    if t =? 4 then Some 29
    else if t =? 5 then Some 30
    else if t =? 6 then Some 31
    else if (t =? 0) || (t =? 1) then Some 30
    else if (t =? 2) || (t =? 3) then Some 31
    else Some (-1)
  else None.

Definition get_route_link_Dragonfly16_group0 (cur t : Z) : option Z :=
  if cur =? 0 then
    if t =? 1 then Some 1
    else if t =? 2 then Some 2
    else if t =? 3 then Some 3
    else if (4 <=? t) && (t <=? 7) then Some 1
    else if (8 <=? t) && (t <=? 11) then Some 3
    else if (12 <=? t) && (t <=? 15) then Some 2
    else Some (-1)
  else if cur =? 1 then
    if t =? 0 then Some 4
    else if t =? 2 then Some 6
    else if t =? 3 then Some 7
    else if (4 <=? t) && (t <=? 7) then Some 5
    else if (8 <=? t) && (t <=? 11) then Some 7
    else if (12 <=? t) && (t <=? 15) then Some 6
    else Some (-1)
  else if cur =? 2 then
    if t =? 0 then Some 11
    else if t =? 1 then Some 8
    else if t =? 3 then Some 10
    else if (4 <=? t) && (t <=? 7) then Some 8
    else if (8 <=? t) && (t <=? 11) then Some 10
    else if (12 <=? t) && (t <=? 15) then Some 9
    else Some (-1)
  else if cur =? 3 then
    if t =? 0 then Some 13
    else if t =? 1 then Some 14
    else if t =? 2 then Some 15
    else if (4 <=? t) && (t <=? 7) then Some 14
    else if (8 <=? t) && (t <=? 11) then Some 12
    else if (12 <=? t) && (t <=? 15) then Some 15
    else Some (-1)
  else None.

Definition get_route_link_Dragonfly16_group1 (cur t : Z) : option Z :=
  if cur =? 4 then
    if t =? 5 then Some 17
    else if t =? 6 then Some 18
    else if t =? 7 then Some 19
    else if (0 <=? t) && (t <=? 3) then Some 17
    else if (8 <=? t) && (t <=? 11) then Some 18
    else if (12 <=? t) && (t <=? 15) then Some 19
    else Some (-1)
  else if cur =? 5 then
    if t =? 4 then Some 20
    else if t =? 6 then Some 22
    else if t =? 7 then Some 23
    else if (0 <=? t) && (t <=? 3) then Some 21
    else if (8 <=? t) && (t <=? 11) then Some 22
    else if (12 <=? t) && (t <=? 15) then Some 23
    else Some (-1)
  else if cur =? 6 then
    if t =? 4 then Some 27
    else if t =? 5 then Some 24
    else if t =? 7 then Some 26
    else if (0 <=? t) && (t <=? 3) then Some 24
    else if (8 <=? t) && (t <=? 11) then Some 25
    else if (12 <=? t) && (t <=? 15) then Some 26
    else Some (-1)
  else if cur =? 7 then
    if t =? 4 then Some 29
    else if t =? 5 then Some 30
    else if t =? 6 then Some 31
    else if (0 <=? t) && (t <=? 3) then Some 30
    else if (8 <=? t) && (t <=? 11) then Some 31
    else if (12 <=? t) && (t <=? 15) then Some 28
    else Some (-1)
  else None.

Definition get_route_link_Dragonfly16_group2 (cur t : Z) : option Z :=
  if cur =? 8 then
    if t =? 9 then Some 33
    else if t =? 10 then Some 34
    else if t =? 11 then Some 35
    else if (0 <=? t) && (t <=? 3) then Some 33
    else if (4 <=? t) && (t <=? 7) then Some 34
    else if (12 <=? t) && (t <=? 15) then Some 35
    else Some (-1)
  else if cur =? 9 then
    if t =? 8 then Some 36
    else if t =? 10 then Some 38
    else if t =? 11 then Some 39
    else if (0 <=? t) && (t <=? 3) then Some 37
    else if (4 <=? t) && (t <=? 7) then Some 38
    else if (12 <=? t) && (t <=? 15) then Some 39
    else Some (-1)
  else if cur =? 10 then
    if t =? 8 then Some 43
    else if t =? 9 then Some 40
    else if t =? 11 then Some 42
    else if (0 <=? t) && (t <=? 3) then Some 40
    else if (4 <=? t) && (t <=? 7) then Some 41
    else if (12 <=? t) && (t <=? 15) then Some 42
    else Some (-1)
  else if cur =? 11 then
    if t =? 8 then Some 46
    else if t =? 9 then Some 47
    else if t =? 10 then Some 44
    else if (0 <=? t) && (t <=? 3) then Some 47
    else if (4 <=? t) && (t <=? 7) then Some 44
    else if (12 <=? t) && (t <=? 15) then Some 45
    else Some (-1)
  else None.

Definition get_route_link_Dragonfly16_group3 (cur t : Z) : option Z :=
  if cur =? 12 then
    if t =? 13 then Some 49
    else if t =? 14 then Some 50
    else if t =? 15 then Some 51
    else if (0 <=? t) && (t <=? 3) then Some 50
    else if (4 <=? t) && (t <=? 7) then Some 49
    else if (8 <=? t) && (t <=? 11) then Some 51
    else Some (-1)
  else if cur =? 13 then
    if t =? 12 then Some 52
    else if t =? 14 then Some 54
    else if t =? 15 then Some 55
    else if (0 <=? t) && (t <=? 3) then Some 54
    else if (4 <=? t) && (t <=? 7) then Some 53
    else if (8 <=? t) && (t <=? 11) then Some 55
    else Some (-1)
  else if cur =? 14 then
    if t =? 12 then Some 59
    else if t =? 13 then Some 56
    else if t =? 15 then Some 58
    else if (0 <=? t) && (t <=? 3) then Some 57
    else if (4 <=? t) && (t <=? 7) then Some 56
    else if (8 <=? t) && (t <=? 11) then Some 58
    else Some (-1)
  else if cur =? 15 then
    if t =? 12 then Some 62
    else if t =? 13 then Some 63
    else if t =? 14 then Some 60
    else if (0 <=? t) && (t <=? 3) then Some 60
    else if (4 <=? t) && (t <=? 7) then Some 63
    else if (8 <=? t) && (t <=? 11) then Some 61
    else Some (-1)
  else None.

Definition get_route_link_Dragonfly (stacks cur_cub target_cub : Z) : outcome Z :=
  Ret (default (-1)
    (if stacks =? 4 then get_route_link_Dragonfly4 cur_cub target_cub
     else if stacks =? 8 then get_route_link_Dragonfly8 cur_cub target_cub
     else if stacks =? 16 then
       get_route_link_Dragonfly16_group0 cur_cub target_cub ∪
       get_route_link_Dragonfly16_group1 cur_cub target_cub ∪
       get_route_link_Dragonfly16_group2 cur_cub target_cub ∪
       get_route_link_Dragonfly16_group3 cur_cub target_cub
     else None)).

(** ** The networks *)

Definition wires_of (w : outcome (gmap Z Z)) : gmap Z Z :=
  match w with Ret w => w | Stop _ => ∅ end.

Definition mesh_network (stacks : Z) : network :=
  let w := wires_of (connect_hmcs_Mesh stacks) in
  Network (Z.to_nat stacks) stack_links (get_route_link_Mesh stacks) (fun l => w !! l).

Definition dragonfly_network (stacks : Z) : network :=
  let w := wires_of (connect_hmcs_Dragonfly stacks) in
  Network (Z.to_nat stacks) stack_links (get_route_link_Dragonfly stacks) (fun l => w !! l).

Definition supported (stacks : Z) : bool := (stacks =? 4) || (stacks =? 8) || (stacks =? 16).

(** Columns of the mesh: 2 x 2, 2 x 4 and 4 x 4. *)
Definition mesh_columns (stacks : Z) : Z := if stacks =? 4 then 2 else 4.

(** The reference distance on the grid. *)
Definition manhattan (stacks a b : Z) : Z :=
  let c := mesh_columns stacks in
  Z.abs (a mod c - b mod c) + Z.abs (a / c - b / c).

(** Links ranked so that every dependency of a route goes upwards. *)
Definition mesh_rank (stacks : Z) : list nat :=
  if stacks =? 16 then
  [0; 0; 3; 0; 2; 0; 1; 2; 1; 0; 2; 2; 0; 0; 3; 0;
   5; 0; 4; 0; 2; 4; 1; 3; 1; 4; 2; 3; 0; 5; 0; 4;
   4; 0; 5; 0; 2; 3; 1; 4; 1; 3; 2; 4; 0; 4; 0; 5;
   0; 3; 0; 0; 2; 2; 1; 0; 1; 2; 2; 0; 0; 0; 0; 3]%nat
  else if stacks =? 8 then
  [0; 0; 3; 0; 2; 0; 1; 2; 1; 0; 2; 2; 0; 0; 3; 0;
   0; 3; 0; 0; 2; 2; 1; 0; 1; 2; 2; 0; 0; 0; 0; 3]%nat
  else
  [0; 0; 1; 0; 0; 0; 1; 0; 0; 1; 0; 0; 0; 0; 0; 1]%nat.

Definition dragonfly8_rank : list nat :=
  [0; 0; 0; 0; 2; 1; 2; 2; 2; 1; 2; 2; 0; 0; 0; 0;
   0; 0; 0; 0; 2; 1; 2; 2; 2; 1; 2; 2; 0; 0; 0; 0]%nat.

(** ** Lemmas *)

Lemma supported_cases s (P : Z -> Prop) :
  supported s = true -> P 4 -> P 8 -> P 16 -> P s.
Proof.
  unfold supported. rewrite !orb_true_iff, !Z.eqb_eq. intros [[-> | ->] | ->]; done.
Qed.

(** Wires are plugged at both ends, never into their own stack. *)
Definition wires_ok (w : outcome (gmap Z Z)) : bool :=
  match w with
  | Ret w => bool_decide (map_Forall (fun l l' => w !! l' = Some l /\ l / stack_links <> l' / stack_links) w)
  | Stop _ => false
  end.

Definition bounded_b (stacks : Z) (w : gmap Z Z) : bool :=
  bool_decide (map_Forall (fun l _ => 0 <= l < stacks * stack_links) w).

Lemma bounded_sound stacks route w :
  0 <= stacks -> bounded_b stacks w = true ->
  wires_bounded (Network (Z.to_nat stacks) stack_links route (fun l => w !! l)).
Proof.
  intros Hs H l l' Hl. unfold bounded_b in H. zb. pose proof (H l l' Hl) as Hb.
  cbn [net_stacks net_links]. by rewrite Z2Nat.id.
Qed.

Lemma mesh_delivers s : supported s = true -> Delivers (mesh_network s) (dist_of (mesh_network s)).
Proof. intros H. apply delivers_b_sound. apply (supported_cases s); [done|vm_compute; reflexivity..]. Qed.

Lemma dragonfly_delivers s :
  supported s = true -> Delivers (dragonfly_network s) (dist_of (dragonfly_network s)).
Proof. intros H. apply delivers_b_sound. apply (supported_cases s); [done|vm_compute; reflexivity..]. Qed.

Lemma mesh_shortest s : supported s = true -> Shortest (mesh_network s) (dist_of (mesh_network s)).
Proof.
  intros H. apply shortest_b_sound; [done| |].
  - apply bounded_sound; [by apply (supported_cases s)|].
    apply (supported_cases s); [done|vm_compute; reflexivity..].
  - apply (supported_cases s); [done|vm_compute; reflexivity..].
Qed.

Lemma dragonfly_shortest s :
  supported s = true -> Shortest (dragonfly_network s) (dist_of (dragonfly_network s)).
Proof.
  intros H. apply shortest_b_sound; [done| |].
  - apply bounded_sound; [by apply (supported_cases s)|].
    apply (supported_cases s); [done|vm_compute; reflexivity..].
  - apply (supported_cases s); [done|vm_compute; reflexivity..].
Qed.

Lemma mesh_dist_manhattan s a b :
  supported s = true -> 0 <= a < s -> 0 <= b < s ->
  Z.of_nat (dist_of (mesh_network s) a b) = manhattan s a b.
Proof.
  intros Hs Ha Hb.
  assert (H : all_pairs (Z.to_nat s) (fun a b =>
    Z.of_nat (dist_of (mesh_network s) a b) =? manhattan s a b) = true)
    by (apply (supported_cases s); [done|vm_compute; reflexivity..]).
  pose proof (all_pairs_true _ _ H a b ltac:(lia) ltac:(lia)) as E. cbv beta in E. by zb.
Qed.

Lemma dragonfly_dist_bound s a b :
  supported s = true -> 0 <= a < s -> 0 <= b < s ->
  (dist_of (dragonfly_network s) a b <= 3)%nat.
Proof.
  intros Hs Ha Hb.
  assert (H : all_pairs (Z.to_nat s) (fun a b =>
    bool_decide (dist_of (dragonfly_network s) a b <= 3)%nat) = true)
    by (apply (supported_cases s); [done|vm_compute; reflexivity..]).
  pose proof (all_pairs_true _ _ H a b ltac:(lia) ltac:(lia)) as E. cbv beta in E. by zb.
Qed.

Lemma mesh_dist_bound s a b :
  supported s = true -> 0 <= a < s -> 0 <= b < s -> (dist_of (mesh_network s) a b <= 6)%nat.
Proof.
  intros Hs Ha Hb.
  assert (H : all_pairs (Z.to_nat s) (fun a b =>
    bool_decide (dist_of (mesh_network s) a b <= 6)%nat) = true)
    by (apply (supported_cases s); [done|vm_compute; reflexivity..]).
  pose proof (all_pairs_true _ _ H a b ltac:(lia) ltac:(lia)) as E. cbv beta in E. by zb.
Qed.

(** A network with the two laws sends a packet along a path of wires that no
    other path of wires beats. *)
Lemma shortest_route N fuel a b :
  Delivers N (dist_of N) -> Shortest N (dist_of N) ->
  in_net N a -> in_net N b -> (dist_of N a b <= fuel)%nat ->
  exists p, walk N fuel a b = Ret p /\ is_path N a p b /\ length p = dist_of N a b /\
    forall n, hops N n a b -> (length p <= n)%nat.
Proof.
  intros HD HS Ha Hb Hd. destruct (walk_arrives N (dist_of N) fuel a b Ha Hb Hd) as (p & Hw & Hl).
  exists p. split; [done|]. split; [by apply (walk_is_path N (dist_of N) fuel)|]. split; [done|].
  intros n Hn. rewrite Hl. by apply (hops_at_least N (dist_of N)).
Qed.

(** ** Properties *)

(** C5: On the mesh of 4, 8 or 16 stacks, forwarding a packet with
    [get_route_link_Mesh] over the wires of [connect_hmcs_Mesh] reaches any
    target from any stack in at most six links; the links form a path of
    wires, their number is the Manhattan distance on the grid, and no sequence
    of wires between the two stacks is shorter. *)
Theorem mesh_routes_shortest s a b :
  supported s = true -> 0 <= a < s -> 0 <= b < s ->
  exists p, walk (mesh_network s) 6 a b = Ret p /\
    is_path (mesh_network s) a p b /\
    Z.of_nat (length p) = manhattan s a b /\
    forall n, hops (mesh_network s) n a b -> (length p <= n)%nat.
Proof.
  intros Hs Ha Hb.
  destruct (shortest_route (mesh_network s) 6 a b) as (p & Hw & Hp & Hl & Hn);
    [by apply mesh_delivers|by apply mesh_shortest|unfold in_net; simpl; lia..|by apply mesh_dist_bound|].
  exists p. rewrite <- mesh_dist_manhattan, <- Hl by done. done.
Qed.

Lemma mesh_routes_shortest_witness :
  exists p, walk (mesh_network 16) 6 0 15 = Ret p /\
    is_path (mesh_network 16) 0 p 15 /\ Z.of_nat (length p) = manhattan 16 0 15 /\
    forall n, hops (mesh_network 16) n 0 15 -> (length p <= n)%nat.
Proof. apply (mesh_routes_shortest 16 0 15); [reflexivity|lia|lia]. Defined.

(** C33: On the dragonfly of 4, 8 or 16 stacks, [get_route_link_Dragonfly] over
    the wires of [connect_hmcs_Dragonfly] reaches any target from any stack in
    at most three links, along a path of wires that no sequence of wires
    between the two stacks beats. *)
Theorem dragonfly_routes_shortest s a b :
  supported s = true -> 0 <= a < s -> 0 <= b < s ->
  exists p, walk (dragonfly_network s) 3 a b = Ret p /\
    is_path (dragonfly_network s) a p b /\
    (length p <= 3)%nat /\
    forall n, hops (dragonfly_network s) n a b -> (length p <= n)%nat.
Proof.
  intros Hs Ha Hb.
  destruct (shortest_route (dragonfly_network s) 3 a b) as (p & Hw & Hp & Hl & Hn);
    [by apply dragonfly_delivers|by apply dragonfly_shortest|unfold in_net; simpl; lia..
    |by apply dragonfly_dist_bound|].
  exists p. rewrite Hl. pose proof (dragonfly_dist_bound s a b Hs Ha Hb). rewrite Hl in Hn. done.
Qed.

Lemma dragonfly_routes_shortest_witness :
  exists p, walk (dragonfly_network 8) 3 3 4 = Ret p /\
    is_path (dragonfly_network 8) 3 p 4 /\ (length p <= 3)%nat /\
    forall n, hops (dragonfly_network 8) n 3 4 -> (length p <= n)%nat.
Proof. apply (dragonfly_routes_shortest 8 3 4); [reflexivity|lia|lia]. Defined.

(** For 4, 8 and 16 stacks both wiring functions run without a failed
    assert, and every wire they plug is plugged at both ends, between two
    different stacks. *)
Theorem wiring_symmetric s :
  supported s = true ->
  forall connect, connect = connect_hmcs_Mesh s \/ connect = connect_hmcs_Dragonfly s ->
  exists w, connect = Ret w /\
    forall l l', w !! l = Some l' ->
      w !! l' = Some l /\ l / stack_links <> l' / stack_links.
Proof.
  intros Hs c Hc. assert (Hok : wires_ok c = true).
  { destruct Hc as [-> | ->]; apply (supported_cases s); try done; vm_compute; reflexivity. }
  destruct c as [w|]; [|done]. exists w. split; [done|]. simpl in Hok. zb. exact Hok.
Qed.

Lemma wiring_symmetric_witness :
  exists w, connect_hmcs_Dragonfly 16 = Ret w /\
    forall l l', w !! l = Some l' -> w !! l' = Some l /\ l / stack_links <> l' / stack_links.
Proof. apply (wiring_symmetric 16); [reflexivity|right; reflexivity]. Defined.

(** Routing on the mesh of 4, 8 and 16 stacks and on the dragonfly of 4 and
    8 stacks has acyclic channel dependencies: no chain of packets, each holding
    a link and waiting for the next one of its route, closes on itself. *)
Theorem routing_deadlock_free s :
  supported s = true ->
  deadlock_free (mesh_network s) /\ (s <> 16 -> deadlock_free (dragonfly_network s)).
Proof.
  intros Hs. split.
  - apply (ranked_b_sound _ (mesh_rank s)). apply (supported_cases s); [done|vm_compute; reflexivity..].
  - apply (supported_cases s); [done| | |done]; intros _.
    + apply (ranked_b_sound _ []). vm_compute. reflexivity.
    + apply (ranked_b_sound _ dragonfly8_rank). vm_compute. reflexivity.
Qed.

Lemma routing_deadlock_free_witness :
  deadlock_free (mesh_network 8) /\ (8 <> 16 -> deadlock_free (dragonfly_network 8)).
Proof. apply (routing_deadlock_free 8). reflexivity. Defined.

(** On the dragonfly of 16 stacks the shortest routes do have a cyclic
    channel dependency, through three groups: links 5, 22, 25, 40, 37, 14 and
    back to 5. *)
Theorem dragonfly16_cyclic_dependency : ~ deadlock_free (dragonfly_network 16).
Proof.
  intros H. apply (H 5).
  assert (Hd : forall a b, bool_decide ((a, b) ∈ deps (dragonfly_network 16)) = true ->
            dep (dragonfly_network 16) a b) by (intros a b E; by zb).
  apply (tc_l _ 5 22), (tc_l _ 22 25), (tc_l _ 25 40), (tc_l _ 40 37), (tc_l _ 37 14), tc_once;
    apply Hd; vm_compute; reflexivity.
Qed.
