(* ===== verification/TopologyFiles.v ===== *)
(** * The topology files of the repository

    [src/configs/ramulator/{mesh,dragonfly}_{4,8,16}mem_4link.xml] as the start
    elements the XML reader reports, in document order.  The theorems run the
    parser and the [Memory] constructor of [Topology.v] on them and compare the
    result with the hard-wired tables of [Routing.v]. *)

From Stdlib Require Import Ascii String.
From S2P Require Import Prelude Network Topology Routing.
Local Open Scope Z_scope.

(** ** Elements *)

Definition e_node (id : string) : element := ("node"%string, [("id", id)]%string).
Definition e_link (id tocpu : string) : element :=
  ("link"%string, [("id", id); ("tocpu", tocpu)]%string).
Definition e_wire (from to : string) : element :=
  ("interconnection"%string, [("from", from); ("to", to); ("type", "undirected")]%string).
Definition e_route (src dst next : string) : element :=
  ("route"%string, [("src", src); ("dst", dst); ("next", next)]%string).
Definition e_cpuroute (dst next : string) : element :=
  ("cpuroute"%string, [("dst", dst); ("next", next)]%string).

Definition mesh_4mem_4link : list element := (
  [("memtopology", []);
   ("memnodes", [("num", "4"); ("linkspernode", "4")]);
   e_node "0"; e_link "0" "true"; e_link "1" "false"; e_link "2" "false"; e_link "3" "false";
   e_node "1"; e_link "4" "true"; e_link "5" "false"; e_link "6" "false"; e_link "7" "false";
   e_node "2"; e_link "8" "true"; e_link "9" "false"; e_link "10" "false"; e_link "11" "false";
   e_node "3"; e_link "12" "true"; e_link "13" "false"; e_link "14" "false"; e_link "15" "false";
   ("meminterconnections", []);
   e_wire "1" "7"; e_wire "2" "9"; e_wire "6" "15"; e_wire "10" "14";
   ("memroutes", [("type", "static")]);
   e_route "0" "1" "1"; e_route "0" "2" "2"; e_route "0" "3" "1";
   e_route "1" "0" "7"; e_route "1" "2" "7"; e_route "1" "3" "6";
   e_route "2" "0" "9"; e_route "2" "1" "10"; e_route "2" "3" "10";
   e_route "3" "0" "14"; e_route "3" "1" "15"; e_route "3" "2" "14";
   e_cpuroute "0" "0"; e_cpuroute "1" "4"; e_cpuroute "2" "8"; e_cpuroute "3" "12"])%string.

Definition mesh_8mem_4link : list element := (
  [("memtopology", []);
   ("memnodes", [("num", "8"); ("linkspernode", "4")]);
   e_node "0"; e_link "0" "true"; e_link "1" "false"; e_link "2" "false"; e_link "3" "false";
   e_node "1"; e_link "4" "false"; e_link "5" "false"; e_link "6" "false"; e_link "7" "false";
   e_node "2"; e_link "8" "false"; e_link "9" "false"; e_link "10" "false"; e_link "11" "false";
   e_node "3"; e_link "12" "true"; e_link "13" "false"; e_link "14" "false"; e_link "15" "false";
   e_node "4"; e_link "16" "true"; e_link "17" "false"; e_link "18" "false"; e_link "19" "false";
   e_node "5"; e_link "20" "false"; e_link "21" "false"; e_link "22" "false"; e_link "23" "false";
   e_node "6"; e_link "24" "false"; e_link "25" "false"; e_link "26" "false"; e_link "27" "false";
   e_node "7"; e_link "28" "true"; e_link "29" "false"; e_link "30" "false"; e_link "31" "false";
   ("meminterconnections", []);
   e_wire "1" "4"; e_wire "2" "17"; e_wire "7" "21"; e_wire "18" "20"; e_wire "10" "15";
   e_wire "11" "25"; e_wire "14" "31"; e_wire "26" "30"; e_wire "6" "8"; e_wire "22" "24";
   ("memroutes", [("type", "static")]);
   e_route "0" "1" "1"; e_route "0" "2" "1"; e_route "0" "3" "1"; e_route "0" "4" "2";
   e_route "0" "5" "1"; e_route "0" "6" "1"; e_route "0" "7" "1";
   e_route "1" "0" "4"; e_route "1" "2" "6"; e_route "1" "3" "6"; e_route "1" "4" "4";
   e_route "1" "5" "7"; e_route "1" "6" "6"; e_route "1" "7" "6";
   e_route "2" "0" "8"; e_route "2" "1" "8"; e_route "2" "3" "10"; e_route "2" "4" "8";
   e_route "2" "5" "8"; e_route "2" "6" "11"; e_route "2" "7" "10";
   e_route "3" "0" "15"; e_route "3" "1" "15"; e_route "3" "2" "15"; e_route "3" "4" "15";
   e_route "3" "5" "15"; e_route "3" "6" "15"; e_route "3" "7" "14";
   e_route "4" "0" "17"; e_route "4" "1" "18"; e_route "4" "2" "18"; e_route "4" "3" "18";
   e_route "4" "5" "18"; e_route "4" "6" "18"; e_route "4" "7" "18";
   e_route "5" "0" "20"; e_route "5" "1" "21"; e_route "5" "2" "22"; e_route "5" "3" "22";
   e_route "5" "4" "20"; e_route "5" "6" "22"; e_route "5" "7" "22";
   e_route "6" "0" "24"; e_route "6" "1" "24"; e_route "6" "2" "25"; e_route "6" "3" "26";
   e_route "6" "4" "24"; e_route "6" "5" "24"; e_route "6" "7" "26";
   e_route "7" "0" "30"; e_route "7" "1" "30"; e_route "7" "2" "30"; e_route "7" "3" "31";
   e_route "7" "4" "30"; e_route "7" "5" "30"; e_route "7" "6" "30";
   e_cpuroute "0" "0"; e_cpuroute "1" "0"; e_cpuroute "2" "12"; e_cpuroute "3" "12";
   e_cpuroute "4" "16"; e_cpuroute "5" "16"; e_cpuroute "6" "28"; e_cpuroute "7" "28"])%string.

Definition mesh_16mem_4link : list element := (
  [("memtopology", []);
   ("memnodes", [("num", "16"); ("linkspernode", "4")]);
   e_node "0"; e_link "0" "true"; e_link "1" "false"; e_link "2" "false"; e_link "3" "false";
   e_node "1"; e_link "4" "false"; e_link "5" "false"; e_link "6" "false"; e_link "7" "false";
   e_node "2"; e_link "8" "false"; e_link "9" "false"; e_link "10" "false"; e_link "11" "false";
   e_node "3"; e_link "12" "true"; e_link "13" "false"; e_link "14" "false"; e_link "15" "false";
   e_node "4"; e_link "16" "false"; e_link "17" "false"; e_link "18" "false"; e_link "19" "false";
   e_node "5"; e_link "20" "false"; e_link "21" "false"; e_link "22" "false"; e_link "23" "false";
   e_node "6"; e_link "24" "false"; e_link "25" "false"; e_link "26" "false"; e_link "27" "false";
   e_node "7"; e_link "28" "false"; e_link "29" "false"; e_link "30" "false"; e_link "31" "false";
   e_node "8"; e_link "32" "false"; e_link "33" "false"; e_link "34" "false"; e_link "35" "false";
   e_node "9"; e_link "36" "false"; e_link "37" "false"; e_link "38" "false"; e_link "39" "false";
   e_node "10"; e_link "40" "false"; e_link "41" "false"; e_link "42" "false"; e_link "43" "false";
   e_node "11"; e_link "44" "false"; e_link "45" "false"; e_link "46" "false"; e_link "47" "false";
   e_node "12"; e_link "48" "true"; e_link "49" "false"; e_link "50" "false"; e_link "51" "false";
   e_node "13"; e_link "52" "false"; e_link "53" "false"; e_link "54" "false"; e_link "55" "false";
   e_node "14"; e_link "56" "false"; e_link "57" "false"; e_link "58" "false"; e_link "59" "false";
   e_node "15"; e_link "60" "true"; e_link "61" "false"; e_link "62" "false"; e_link "63" "false";
   ("meminterconnections", []);
   e_wire "1" "4"; e_wire "2" "16"; e_wire "6" "8"; e_wire "7" "21"; e_wire "10" "15";
   e_wire "11" "25"; e_wire "14" "29"; e_wire "17" "20"; e_wire "18" "32"; e_wire "22" "24";
   e_wire "23" "37"; e_wire "26" "28"; e_wire "27" "41"; e_wire "31" "45"; e_wire "33" "36";
   e_wire "34" "49"; e_wire "38" "40"; e_wire "39" "53"; e_wire "42" "44"; e_wire "43" "57";
   e_wire "47" "63"; e_wire "50" "52"; e_wire "54" "56"; e_wire "58" "62";
   ("memroutes", [("type", "static")]);
   e_route "0" "1" "1"; e_route "0" "2" "1"; e_route "0" "3" "1"; e_route "0" "4" "2";
   e_route "0" "5" "1"; e_route "0" "6" "1"; e_route "0" "7" "1"; e_route "0" "8" "2";
   e_route "0" "9" "1"; e_route "0" "10" "1"; e_route "0" "11" "1"; e_route "0" "12" "2";
   e_route "0" "13" "1"; e_route "0" "14" "1"; e_route "0" "15" "1";
   e_route "1" "0" "4"; e_route "1" "2" "6"; e_route "1" "3" "6"; e_route "1" "4" "4";
   e_route "1" "5" "7"; e_route "1" "6" "6"; e_route "1" "7" "6"; e_route "1" "8" "4";
   e_route "1" "9" "7"; e_route "1" "10" "6"; e_route "1" "11" "6"; e_route "1" "12" "4";
   e_route "1" "13" "7"; e_route "1" "14" "6"; e_route "1" "15" "6";
   e_route "2" "0" "8"; e_route "2" "1" "8"; e_route "2" "3" "10"; e_route "2" "4" "8";
   e_route "2" "5" "8"; e_route "2" "6" "11"; e_route "2" "7" "10"; e_route "2" "8" "8";
   e_route "2" "9" "8"; e_route "2" "10" "11"; e_route "2" "11" "10"; e_route "2" "12" "8";
   e_route "2" "13" "8"; e_route "2" "14" "11"; e_route "2" "15" "10";
   e_route "3" "0" "15"; e_route "3" "1" "15"; e_route "3" "2" "15"; e_route "3" "4" "15";
   e_route "3" "5" "15"; e_route "3" "6" "15"; e_route "3" "7" "14"; e_route "3" "8" "15";
   e_route "3" "9" "15"; e_route "3" "10" "15"; e_route "3" "11" "14"; e_route "3" "12" "15";
   e_route "3" "13" "15"; e_route "3" "14" "15"; e_route "3" "15" "14";
   e_route "4" "0" "16"; e_route "4" "1" "17"; e_route "4" "2" "17"; e_route "4" "3" "17";
   e_route "4" "5" "17"; e_route "4" "6" "17"; e_route "4" "7" "17"; e_route "4" "8" "18";
   e_route "4" "9" "17"; e_route "4" "10" "17"; e_route "4" "11" "17"; e_route "4" "12" "18";
   e_route "4" "13" "17"; e_route "4" "14" "17"; e_route "4" "15" "17";
   e_route "5" "0" "20"; e_route "5" "1" "21"; e_route "5" "2" "22"; e_route "5" "3" "22";
   e_route "5" "4" "20"; e_route "5" "6" "22"; e_route "5" "7" "22"; e_route "5" "8" "20";
   e_route "5" "9" "23"; e_route "5" "10" "22"; e_route "5" "11" "22"; e_route "5" "12" "20";
   e_route "5" "13" "23"; e_route "5" "14" "22"; e_route "5" "15" "22";
   e_route "6" "0" "24"; e_route "6" "1" "24"; e_route "6" "2" "25"; e_route "6" "3" "26";
   e_route "6" "4" "24"; e_route "6" "5" "24"; e_route "6" "7" "26"; e_route "6" "8" "24";
   e_route "6" "9" "24"; e_route "6" "10" "27"; e_route "6" "11" "26"; e_route "6" "12" "24";
   e_route "6" "13" "24"; e_route "6" "14" "27"; e_route "6" "15" "26";
   e_route "7" "0" "28"; e_route "7" "1" "28"; e_route "7" "2" "28"; e_route "7" "3" "29";
   e_route "7" "4" "28"; e_route "7" "5" "28"; e_route "7" "6" "28"; e_route "7" "8" "28";
   e_route "7" "9" "28"; e_route "7" "10" "28"; e_route "7" "11" "31"; e_route "7" "12" "28";
   e_route "7" "13" "28"; e_route "7" "14" "28"; e_route "7" "15" "31";
   e_route "8" "0" "32"; e_route "8" "1" "33"; e_route "8" "2" "33"; e_route "8" "3" "33";
   e_route "8" "4" "32"; e_route "8" "5" "33"; e_route "8" "6" "33"; e_route "8" "7" "33";
   e_route "8" "9" "33"; e_route "8" "10" "33"; e_route "8" "11" "33"; e_route "8" "12" "34";
   e_route "8" "13" "33"; e_route "8" "14" "33"; e_route "8" "15" "33";
   e_route "9" "0" "36"; e_route "9" "1" "37"; e_route "9" "2" "38"; e_route "9" "3" "38";
   e_route "9" "4" "36"; e_route "9" "5" "37"; e_route "9" "6" "38"; e_route "9" "7" "38";
   e_route "9" "8" "36"; e_route "9" "10" "38"; e_route "9" "11" "38"; e_route "9" "12" "36";
   e_route "9" "13" "39"; e_route "9" "14" "38"; e_route "9" "15" "38";
   e_route "10" "0" "40"; e_route "10" "1" "40"; e_route "10" "2" "41"; e_route "10" "3" "42";
   e_route "10" "4" "40"; e_route "10" "5" "40"; e_route "10" "6" "41"; e_route "10" "7" "42";
   e_route "10" "8" "40"; e_route "10" "9" "40"; e_route "10" "11" "42"; e_route "10" "12" "40";
   e_route "10" "13" "40"; e_route "10" "14" "43"; e_route "10" "15" "42";
   e_route "11" "0" "44"; e_route "11" "1" "44"; e_route "11" "2" "44"; e_route "11" "3" "45";
   e_route "11" "4" "44"; e_route "11" "5" "44"; e_route "11" "6" "44"; e_route "11" "7" "45";
   e_route "11" "8" "44"; e_route "11" "9" "44"; e_route "11" "10" "44"; e_route "11" "12" "44";
   e_route "11" "13" "44"; e_route "11" "14" "44"; e_route "11" "15" "47";
   e_route "12" "0" "49"; e_route "12" "1" "50"; e_route "12" "2" "50"; e_route "12" "3" "50";
   e_route "12" "4" "49"; e_route "12" "5" "50"; e_route "12" "6" "50"; e_route "12" "7" "50";
   e_route "12" "8" "49"; e_route "12" "9" "50"; e_route "12" "10" "50"; e_route "12" "11" "50";
   e_route "12" "13" "50"; e_route "12" "14" "50"; e_route "12" "15" "50";
   e_route "13" "0" "52"; e_route "13" "1" "53"; e_route "13" "2" "54"; e_route "13" "3" "54";
   e_route "13" "4" "52"; e_route "13" "5" "53"; e_route "13" "6" "54"; e_route "13" "7" "54";
   e_route "13" "8" "52"; e_route "13" "9" "53"; e_route "13" "10" "54"; e_route "13" "11" "54";
   e_route "13" "12" "52"; e_route "13" "14" "54"; e_route "13" "15" "54";
   e_route "14" "0" "56"; e_route "14" "1" "56"; e_route "14" "2" "57"; e_route "14" "3" "58";
   e_route "14" "4" "56"; e_route "14" "5" "56"; e_route "14" "6" "57"; e_route "14" "7" "58";
   e_route "14" "8" "56"; e_route "14" "9" "56"; e_route "14" "10" "57"; e_route "14" "11" "58";
   e_route "14" "12" "56"; e_route "14" "13" "56"; e_route "14" "15" "58";
   e_route "15" "0" "62"; e_route "15" "1" "62"; e_route "15" "2" "62"; e_route "15" "3" "63";
   e_route "15" "4" "62"; e_route "15" "5" "62"; e_route "15" "6" "62"; e_route "15" "7" "63";
   e_route "15" "8" "62"; e_route "15" "9" "62"; e_route "15" "10" "62"; e_route "15" "11" "63";
   e_route "15" "12" "62"; e_route "15" "13" "62"; e_route "15" "14" "62";
   e_cpuroute "0" "0"; e_cpuroute "1" "0"; e_cpuroute "4" "0"; e_cpuroute "5" "0";
   e_cpuroute "2" "12"; e_cpuroute "3" "12"; e_cpuroute "6" "12"; e_cpuroute "7" "12";
   e_cpuroute "8" "48"; e_cpuroute "9" "48"; e_cpuroute "12" "48"; e_cpuroute "13" "48";
   e_cpuroute "10" "60"; e_cpuroute "11" "60"; e_cpuroute "14" "60"; e_cpuroute "15" "60"])%string.

Definition dragonfly_4mem_4link : list element := (
  [("memtopology", []);
   ("memnodes", [("num", "4"); ("linkspernode", "4")]);
   e_node "0"; e_link "0" "true"; e_link "1" "false"; e_link "2" "false"; e_link "3" "false";
   e_node "1"; e_link "4" "true"; e_link "5" "false"; e_link "6" "false"; e_link "7" "false";
   e_node "2"; e_link "8" "true"; e_link "9" "false"; e_link "10" "false"; e_link "11" "false";
   e_node "3"; e_link "12" "true"; e_link "13" "false"; e_link "14" "false"; e_link "15" "false";
   ("meminterconnections", []);
   e_wire "1" "7"; e_wire "3" "9"; e_wire "5" "15"; e_wire "11" "13"; e_wire "2" "14";
   e_wire "6" "10";
   ("memroutes", [("type", "static")]);
   e_route "0" "1" "1"; e_route "0" "2" "3"; e_route "0" "3" "2";
   e_route "1" "0" "7"; e_route "1" "2" "6"; e_route "1" "3" "5";
   e_route "2" "0" "9"; e_route "2" "1" "10"; e_route "2" "3" "11";
   e_route "3" "0" "14"; e_route "3" "1" "15"; e_route "3" "2" "13";
   e_cpuroute "0" "0"; e_cpuroute "1" "4"; e_cpuroute "2" "8"; e_cpuroute "3" "12"])%string.

Definition dragonfly_8mem_4link : list element := (
  [("memtopology", []);
   ("memnodes", [("num", "8"); ("linkspernode", "4")]);
   e_node "0"; e_link "0" "true"; e_link "1" "false"; e_link "2" "false"; e_link "3" "false";
   e_node "1"; e_link "4" "false"; e_link "5" "false"; e_link "6" "false"; e_link "7" "false";
   e_node "2"; e_link "8" "false"; e_link "9" "false"; e_link "10" "false"; e_link "11" "false";
   e_node "3"; e_link "12" "true"; e_link "13" "false"; e_link "14" "false"; e_link "15" "false";
   e_node "4"; e_link "16" "true"; e_link "17" "false"; e_link "18" "false"; e_link "19" "false";
   e_node "5"; e_link "20" "false"; e_link "21" "false"; e_link "22" "false"; e_link "23" "false";
   e_node "6"; e_link "24" "false"; e_link "25" "false"; e_link "26" "false"; e_link "27" "false";
   e_node "7"; e_link "28" "true"; e_link "29" "false"; e_link "30" "false"; e_link "31" "false";
   ("meminterconnections", []);
   e_wire "1" "4"; e_wire "3" "13"; e_wire "10" "15"; e_wire "6" "8"; e_wire "2" "11";
   e_wire "7" "14"; e_wire "17" "20"; e_wire "19" "29"; e_wire "22" "24"; e_wire "26" "31";
   e_wire "18" "27"; e_wire "23" "30"; e_wire "5" "21"; e_wire "9" "25";
   ("memroutes", [("type", "static")]);
   e_route "0" "1" "1"; e_route "0" "2" "2"; e_route "0" "3" "3"; e_route "0" "4" "1";
   e_route "0" "5" "1"; e_route "0" "6" "2"; e_route "0" "7" "2";
   e_route "1" "0" "4"; e_route "1" "2" "6"; e_route "1" "3" "7"; e_route "1" "4" "5";
   e_route "1" "5" "5"; e_route "1" "6" "5"; e_route "1" "7" "5";
   e_route "2" "0" "11"; e_route "2" "1" "8"; e_route "2" "3" "10"; e_route "2" "4" "9";
   e_route "2" "5" "9"; e_route "2" "6" "9"; e_route "2" "7" "9";
   e_route "3" "0" "13"; e_route "3" "1" "14"; e_route "3" "2" "15"; e_route "3" "4" "14";
   e_route "3" "5" "14"; e_route "3" "6" "15"; e_route "3" "7" "15";
   e_route "4" "0" "17"; e_route "4" "1" "17"; e_route "4" "2" "18"; e_route "4" "3" "18";
   e_route "4" "5" "17"; e_route "4" "6" "18"; e_route "4" "7" "19";
   e_route "5" "0" "21"; e_route "5" "1" "21"; e_route "5" "2" "21"; e_route "5" "3" "21";
   e_route "5" "4" "20"; e_route "5" "6" "22"; e_route "5" "7" "23";
   e_route "6" "0" "25"; e_route "6" "1" "25"; e_route "6" "2" "25"; e_route "6" "3" "25";
   e_route "6" "4" "27"; e_route "6" "5" "24"; e_route "6" "7" "26";
   e_route "7" "0" "30"; e_route "7" "1" "30"; e_route "7" "2" "31"; e_route "7" "3" "31";
   e_route "7" "4" "29"; e_route "7" "5" "30"; e_route "7" "6" "31";
   e_cpuroute "0" "0"; e_cpuroute "1" "0"; e_cpuroute "2" "12"; e_cpuroute "3" "12";
   e_cpuroute "4" "16"; e_cpuroute "5" "16"; e_cpuroute "6" "28"; e_cpuroute "7" "28"])%string.

Definition dragonfly_16mem_4link : list element := (
  [("memtopology", []);
   ("memnodes", [("num", "16"); ("linkspernode", "4")]);
   e_node "0"; e_link "0" "true"; e_link "1" "false"; e_link "2" "false"; e_link "3" "false";
   e_node "1"; e_link "4" "false"; e_link "5" "false"; e_link "6" "false"; e_link "7" "false";
   e_node "2"; e_link "8" "false"; e_link "9" "false"; e_link "10" "false"; e_link "11" "false";
   e_node "3"; e_link "12" "false"; e_link "13" "false"; e_link "14" "false"; e_link "15" "false";
   e_node "4"; e_link "16" "true"; e_link "17" "false"; e_link "18" "false"; e_link "19" "false";
   e_node "5"; e_link "20" "false"; e_link "21" "false"; e_link "22" "false"; e_link "23" "false";
   e_node "6"; e_link "24" "false"; e_link "25" "false"; e_link "26" "false"; e_link "27" "false";
   e_node "7"; e_link "28" "false"; e_link "29" "false"; e_link "30" "false"; e_link "31" "false";
   e_node "8"; e_link "32" "true"; e_link "33" "false"; e_link "34" "false"; e_link "35" "false";
   e_node "9"; e_link "36" "false"; e_link "37" "false"; e_link "38" "false"; e_link "39" "false";
   e_node "10"; e_link "40" "false"; e_link "41" "false"; e_link "42" "false"; e_link "43" "false";
   e_node "11"; e_link "44" "false"; e_link "45" "false"; e_link "46" "false"; e_link "47" "false";
   e_node "12"; e_link "48" "true"; e_link "49" "false"; e_link "50" "false"; e_link "51" "false";
   e_node "13"; e_link "52" "false"; e_link "53" "false"; e_link "54" "false"; e_link "55" "false";
   e_node "14"; e_link "56" "false"; e_link "57" "false"; e_link "58" "false"; e_link "59" "false";
   e_node "15"; e_link "60" "false"; e_link "61" "false"; e_link "62" "false"; e_link "63" "false";
   ("meminterconnections", []);
   e_wire "1" "4"; e_wire "3" "13"; e_wire "10" "15"; e_wire "6" "8"; e_wire "2" "11";
   e_wire "7" "14"; e_wire "17" "20"; e_wire "19" "29"; e_wire "22" "24"; e_wire "26" "31";
   e_wire "18" "27"; e_wire "23" "30"; e_wire "33" "36"; e_wire "35" "46"; e_wire "38" "40";
   e_wire "42" "44"; e_wire "34" "43"; e_wire "39" "47"; e_wire "51" "62"; e_wire "52" "49";
   e_wire "54" "56"; e_wire "58" "60"; e_wire "50" "59"; e_wire "55" "63"; e_wire "5" "21";
   e_wire "9" "57"; e_wire "12" "37"; e_wire "25" "41"; e_wire "28" "53"; e_wire "45" "61";
   ("memroutes", [("type", "static")]);
   e_route "0" "1" "1"; e_route "0" "2" "2"; e_route "0" "3" "3"; e_route "0" "4" "1";
   e_route "0" "5" "1"; e_route "0" "6" "1"; e_route "0" "7" "1"; e_route "0" "8" "3";
   e_route "0" "9" "3"; e_route "0" "10" "3"; e_route "0" "11" "3"; e_route "0" "12" "2";
   e_route "0" "13" "2"; e_route "0" "14" "2"; e_route "0" "15" "2";
   e_route "1" "0" "4"; e_route "1" "2" "6"; e_route "1" "3" "7"; e_route "1" "4" "5";
   e_route "1" "5" "5"; e_route "1" "6" "5"; e_route "1" "7" "5"; e_route "1" "8" "7";
   e_route "1" "9" "7"; e_route "1" "10" "7"; e_route "1" "11" "7"; e_route "1" "12" "6";
   e_route "1" "13" "6"; e_route "1" "14" "6"; e_route "1" "15" "6";
   e_route "2" "0" "11"; e_route "2" "1" "8"; e_route "2" "3" "10"; e_route "2" "4" "8";
   e_route "2" "5" "8"; e_route "2" "6" "8"; e_route "2" "7" "8"; e_route "2" "8" "10";
   e_route "2" "9" "10"; e_route "2" "10" "10"; e_route "2" "11" "10"; e_route "2" "12" "9";
   e_route "2" "13" "9"; e_route "2" "14" "9"; e_route "2" "15" "9";
   e_route "3" "0" "13"; e_route "3" "1" "14"; e_route "3" "2" "15"; e_route "3" "4" "14";
   e_route "3" "5" "14"; e_route "3" "6" "14"; e_route "3" "7" "14"; e_route "3" "8" "12";
   e_route "3" "9" "12"; e_route "3" "10" "12"; e_route "3" "11" "12"; e_route "3" "12" "15";
   e_route "3" "13" "15"; e_route "3" "14" "15"; e_route "3" "15" "15";
   e_route "4" "0" "17"; e_route "4" "1" "17"; e_route "4" "2" "17"; e_route "4" "3" "17";
   e_route "4" "5" "17"; e_route "4" "6" "18"; e_route "4" "7" "19"; e_route "4" "8" "18";
   e_route "4" "9" "18"; e_route "4" "10" "18"; e_route "4" "11" "18"; e_route "4" "12" "19";
   e_route "4" "13" "19"; e_route "4" "14" "19"; e_route "4" "15" "19";
   e_route "5" "0" "21"; e_route "5" "1" "21"; e_route "5" "2" "21"; e_route "5" "3" "21";
   e_route "5" "4" "20"; e_route "5" "6" "22"; e_route "5" "7" "23"; e_route "5" "8" "22";
   e_route "5" "9" "22"; e_route "5" "10" "22"; e_route "5" "11" "22"; e_route "5" "12" "23";
   e_route "5" "13" "23"; e_route "5" "14" "23"; e_route "5" "15" "23";
   e_route "6" "0" "24"; e_route "6" "1" "24"; e_route "6" "2" "24"; e_route "6" "3" "24";
   e_route "6" "4" "27"; e_route "6" "5" "24"; e_route "6" "7" "26"; e_route "6" "8" "25";
   e_route "6" "9" "25"; e_route "6" "10" "25"; e_route "6" "11" "25"; e_route "6" "12" "26";
   e_route "6" "13" "26"; e_route "6" "14" "26"; e_route "6" "15" "26";
   e_route "7" "0" "30"; e_route "7" "1" "30"; e_route "7" "2" "30"; e_route "7" "3" "30";
   e_route "7" "4" "29"; e_route "7" "5" "30"; e_route "7" "6" "31"; e_route "7" "8" "31";
   e_route "7" "9" "31"; e_route "7" "10" "31"; e_route "7" "11" "31"; e_route "7" "12" "28";
   e_route "7" "13" "28"; e_route "7" "14" "28"; e_route "7" "15" "28";
   e_route "8" "0" "33"; e_route "8" "1" "33"; e_route "8" "2" "33"; e_route "8" "3" "33";
   e_route "8" "4" "34"; e_route "8" "5" "34"; e_route "8" "6" "34"; e_route "8" "7" "34";
   e_route "8" "9" "33"; e_route "8" "10" "34"; e_route "8" "11" "35"; e_route "8" "12" "35";
   e_route "8" "13" "35"; e_route "8" "14" "35"; e_route "8" "15" "35";
   e_route "9" "0" "37"; e_route "9" "1" "37"; e_route "9" "2" "37"; e_route "9" "3" "37";
   e_route "9" "4" "38"; e_route "9" "5" "38"; e_route "9" "6" "38"; e_route "9" "7" "38";
   e_route "9" "8" "36"; e_route "9" "10" "38"; e_route "9" "11" "39"; e_route "9" "12" "39";
   e_route "9" "13" "39"; e_route "9" "14" "39"; e_route "9" "15" "39";
   e_route "10" "0" "40"; e_route "10" "1" "40"; e_route "10" "2" "40"; e_route "10" "3" "40";
   e_route "10" "4" "41"; e_route "10" "5" "41"; e_route "10" "6" "41"; e_route "10" "7" "41";
   e_route "10" "8" "43"; e_route "10" "9" "40"; e_route "10" "11" "42"; e_route "10" "12" "42";
   e_route "10" "13" "42"; e_route "10" "14" "42"; e_route "10" "15" "42";
   e_route "11" "0" "47"; e_route "11" "1" "47"; e_route "11" "2" "47"; e_route "11" "3" "47";
   e_route "11" "4" "44"; e_route "11" "5" "44"; e_route "11" "6" "44"; e_route "11" "7" "44";
   e_route "11" "8" "46"; e_route "11" "9" "47"; e_route "11" "10" "44"; e_route "11" "12" "45";
   e_route "11" "13" "45"; e_route "11" "14" "45"; e_route "11" "15" "45";
   e_route "12" "0" "50"; e_route "12" "1" "50"; e_route "12" "2" "50"; e_route "12" "3" "50";
   e_route "12" "4" "49"; e_route "12" "5" "49"; e_route "12" "6" "49"; e_route "12" "7" "49";
   e_route "12" "8" "51"; e_route "12" "9" "51"; e_route "12" "10" "51"; e_route "12" "11" "51";
   e_route "12" "13" "49"; e_route "12" "14" "50"; e_route "12" "15" "51";
   e_route "13" "0" "54"; e_route "13" "1" "54"; e_route "13" "2" "54"; e_route "13" "3" "54";
   e_route "13" "4" "53"; e_route "13" "5" "53"; e_route "13" "6" "53"; e_route "13" "7" "53";
   e_route "13" "8" "55"; e_route "13" "9" "55"; e_route "13" "10" "55"; e_route "13" "11" "55";
   e_route "13" "12" "52"; e_route "13" "14" "54"; e_route "13" "15" "55";
   e_route "14" "0" "57"; e_route "14" "1" "57"; e_route "14" "2" "57"; e_route "14" "3" "57";
   e_route "14" "4" "56"; e_route "14" "5" "56"; e_route "14" "6" "56"; e_route "14" "7" "56";
   e_route "14" "8" "58"; e_route "14" "9" "58"; e_route "14" "10" "58"; e_route "14" "11" "58";
   e_route "14" "12" "59"; e_route "14" "13" "56"; e_route "14" "15" "58";
   e_route "15" "0" "60"; e_route "15" "1" "60"; e_route "15" "2" "60"; e_route "15" "3" "60";
   e_route "15" "4" "63"; e_route "15" "5" "63"; e_route "15" "6" "63"; e_route "15" "7" "63";
   e_route "15" "8" "61"; e_route "15" "9" "61"; e_route "15" "10" "61"; e_route "15" "11" "61";
   e_route "15" "12" "62"; e_route "15" "13" "63"; e_route "15" "14" "60";
   e_cpuroute "0" "0"; e_cpuroute "1" "0"; e_cpuroute "2" "0"; e_cpuroute "3" "0";
   e_cpuroute "4" "16"; e_cpuroute "5" "16"; e_cpuroute "6" "16"; e_cpuroute "7" "16";
   e_cpuroute "8" "32"; e_cpuroute "9" "32"; e_cpuroute "10" "32"; e_cpuroute "11" "32";
   e_cpuroute "12" "48"; e_cpuroute "13" "48"; e_cpuroute "14" "48"; e_cpuroute "15" "48"])%string.

Definition mesh_file (stacks : Z) : list element :=
  if stacks =? 4 then mesh_4mem_4link else if stacks =? 8 then mesh_8mem_4link else mesh_16mem_4link.
Definition dragonfly_file (stacks : Z) : list element :=
  if stacks =? 4 then dragonfly_4mem_4link
  else if stacks =? 8 then dragonfly_8mem_4link else dragonfly_16mem_4link.

(** ** Agreement, as a test *)

Definition routes_agree (stacks : Z) (m : memory_net) (route : Z -> Z -> outcome Z) : bool :=
  all_pairs (Z.to_nat stacks) (fun a b =>
    (a =? b) || bool_decide (get_route_link (mn_topology m) stacks a b = route a b) &&
                bool_decide (net_route (topology_network m) a b = route a b)).

(** The CPU route of every stack starts at a CPU link, and the links that the
    layers treat as source-mode links are exactly the CPU links. *)
Definition cpu_links_agree (stacks : Z) (m : memory_net) : bool :=
  let t := mn_topology m in
  forallb (fun c =>
    match getCPURouteLink t c with
    | Ret l => match nodes t !! Z.to_nat (l / 4) with
               | Some row => default false (row !! Z.to_nat (l mod 4))
               | None => false
               end
    | Stop _ => false
    end) (zrange (Z.to_nat stacks)) &&
  forallb (fun c =>
    match mn_layers m !! Z.to_nat c, nodes t !! Z.to_nat c with
    | Some layer, Some row =>
        bool_decide (layer.*2 = map (fun b : bool => if b then HOST_SOURCE_MODE else HOST) row)
    | _, _ => false
    end) (zrange (Z.to_nat stacks)).

Definition file_agrees (stacks : Z) (doc : list element) (wires : outcome (gmap Z Z))
    (route : Z -> Z -> outcome Z) (g1 g2 : Z) (g3 : ROUTE_TYPE) : bool :=
  match t ← getMemTopoFromXML g1 g2 g3 doc; Memory_topology t 4 stacks 4 with
  | Ret m => bool_decide (Ret (mn_wires m) = wires) && routes_agree stacks m route &&
             cpu_links_agree stacks m && (nodenum (mn_topology m) =? stacks) &&
             (linkspernode (mn_topology m) =? stack_links)
  | Stop _ => false
  end.

Lemma mesh_file_agrees s g1 g2 g3 : supported s = true ->
  file_agrees s (mesh_file s) (connect_hmcs_Mesh s) (get_route_link_Mesh s) g1 g2 g3 = true.
Proof. intros H. apply (supported_cases s); [done|vm_compute; reflexivity..]. Qed.

Lemma dragonfly_file_agrees s g1 g2 g3 : supported s = true ->
  file_agrees s (dragonfly_file s) (connect_hmcs_Dragonfly s) (get_route_link_Dragonfly s) g1 g2 g3 = true.
Proof. intros H. apply (supported_cases s); [done|vm_compute; reflexivity..]. Qed.

(** What it means that a topology file configures the hard-wired network. *)
Definition configures (s : Z) (doc : list element) (wires : outcome (gmap Z Z))
    (route : Z -> Z -> outcome Z) (m : memory_net) : Prop :=
  (forall g1 g2 g3, (t ← getMemTopoFromXML g1 g2 g3 doc; Memory_topology t 4 s 4) = Ret m) /\
  Ret (mn_wires m) = wires /\
  (forall a b, 0 <= a < s -> 0 <= b < s -> a <> b ->
     get_route_link (mn_topology m) s a b = route a b /\
     net_route (topology_network m) a b = route a b) /\
  nodenum (mn_topology m) = s /\ linkspernode (mn_topology m) = stack_links /\
  cpu_links_agree s m = true.

Lemma file_agrees_configures s doc wires route m :
  (forall g1 g2 g3, (t ← getMemTopoFromXML g1 g2 g3 doc; Memory_topology t 4 s 4) = Ret m) ->
  0 <= s -> file_agrees s doc wires route 0 0 STATIC_ROUTE = true -> configures s doc wires route m.
Proof.
  intros Hm Hs H. unfold file_agrees in H. rewrite Hm in H. zb. split; [done|].
  split; [done|]. split; [|done]. intros a b Ha Hb Hab.
  match goal with H : routes_agree _ _ _ = true |- _ =>
    pose proof (all_pairs_true _ _ H a b ltac:(lia) ltac:(lia)) as E end.
  cbv beta in E. rewrite (proj2 (Z.eqb_neq a b) Hab) in E. cbn [orb] in E. by zb.
Qed.

Lemma mesh_built s : supported s = true ->
  exists m, forall g1 g2 g3,
    (t ← getMemTopoFromXML g1 g2 g3 (mesh_file s); Memory_topology t 4 s 4) = Ret m.
Proof. intros H. apply (supported_cases s); [done|eexists; intros; vm_compute; reflexivity..]. Qed.

Lemma dragonfly_built s : supported s = true ->
  exists m, forall g1 g2 g3,
    (t ← getMemTopoFromXML g1 g2 g3 (dragonfly_file s); Memory_topology t 4 s 4) = Ret m.
Proof. intros H. apply (supported_cases s); [done|eexists; intros; vm_compute; reflexivity..]. Qed.

(** On a configured network packets follow the links they follow on the
    hard-wired one. *)
Lemma configured_walk s doc wires route m fuel a b :
  let N := Network (Z.to_nat s) stack_links route (fun l => wires_of wires !! l) in
  Delivers N (dist_of N) -> configures s doc wires route m -> 0 <= a < s -> 0 <= b < s ->
  walk (topology_network m) fuel a b = walk N fuel a b.
Proof.
  cbv zeta. intros HD (_ & <- & Hr & Hn & Hl & _) Ha Hb.
  eapply walk_agree; [exact HD|done| |unfold in_net; simpl; lia..].
  intros cur t Hc Ht Hne. unfold far_end, in_net in *. simpl in Hc, Ht.
  destruct (Hr cur t) as [_ ->]; [lia..|done|]. done.
Qed.

Lemma mesh_configured s : supported s = true ->
  exists m, configures s (mesh_file s) (connect_hmcs_Mesh s) (get_route_link_Mesh s) m.
Proof.
  intros Hs. assert (Hs0 : 0 <= s) by (by apply (supported_cases s)).
  destruct (mesh_built s Hs) as [m Hm]. exists m.
  apply file_agrees_configures; [done|done|]. by apply mesh_file_agrees.
Qed.

Lemma dragonfly_configured s : supported s = true ->
  exists m, configures s (dragonfly_file s) (connect_hmcs_Dragonfly s) (get_route_link_Dragonfly s) m.
Proof.
  intros Hs. assert (Hs0 : 0 <= s) by (by apply (supported_cases s)).
  destruct (dragonfly_built s Hs) as [m Hm]. exists m.
  apply file_agrees_configures; [done|done|]. by apply dragonfly_file_agrees.
Qed.

(** ** Properties *)

(** C35: Each of the six topology files is accepted by the parser and by the
    asserts of the [Memory] constructor, whatever the uninitialised fields of
    the parser held; the wires it plugs are those of the hard-wired function,
    every route between two stacks is that of the hard-wired routing function
    (so the assert of [get_route_link1] holds), and the links treated as
    source-mode links are the CPU links of the file. *)
Theorem topology_files_agree s :
  supported s = true ->
  (exists m, configures s (mesh_file s) (connect_hmcs_Mesh s) (get_route_link_Mesh s) m) /\
  (exists m, configures s (dragonfly_file s) (connect_hmcs_Dragonfly s) (get_route_link_Dragonfly s) m).
Proof. intros Hs. split; [by apply mesh_configured|by apply dragonfly_configured]. Qed.

Lemma topology_files_agree_witness :
  (exists m, configures 4 (mesh_file 4) (connect_hmcs_Mesh 4) (get_route_link_Mesh 4) m) /\
  (exists m, configures 4 (dragonfly_file 4) (connect_hmcs_Dragonfly 4) (get_route_link_Dragonfly 4) m).
Proof. apply (topology_files_agree 4). reflexivity. Defined.

(** From the text of a topology file to a delivered packet: the [Memory]
    built from the mesh (dragonfly) file of 4, 8 or 16 stacks forwards a packet
    between any two stacks over its own links and wires, without a failed
    assert, in the Manhattan distance (in at most three links). *)
Theorem configured_networks_deliver s a b :
  supported s = true -> 0 <= a < s -> 0 <= b < s ->
  (exists m p, (forall g1 g2 g3,
       (t ← getMemTopoFromXML g1 g2 g3 (mesh_file s); Memory_topology t 4 s 4) = Ret m) /\
     walk (topology_network m) 6 a b = Ret p /\ Z.of_nat (length p) = manhattan s a b) /\
  (exists m p, (forall g1 g2 g3,
       (t ← getMemTopoFromXML g1 g2 g3 (dragonfly_file s); Memory_topology t 4 s 4) = Ret m) /\
     walk (topology_network m) 3 a b = Ret p /\ (length p <= 3)%nat).
Proof.
  intros Hs Ha Hb. split.
  - destruct (mesh_configured s Hs) as [m Hm].
    destruct (shortest_route (mesh_network s) 6 a b) as (p & Hw & _ & Hl & _);
      [by apply mesh_delivers|by apply mesh_shortest|unfold in_net; simpl; lia..|by apply mesh_dist_bound|].
    exists m, p. split; [apply Hm|]. rewrite (configured_walk _ _ _ _ m 6 a b (mesh_delivers s Hs) Hm) by done.
    rewrite Hl, mesh_dist_manhattan by done. done.
  - destruct (dragonfly_configured s Hs) as [m Hm].
    pose proof (dragonfly_dist_bound s a b Hs Ha Hb) as Hd.
    destruct (shortest_route (dragonfly_network s) 3 a b) as (p & Hw & _ & Hl & _);
      [by apply dragonfly_delivers|by apply dragonfly_shortest|unfold in_net; simpl; lia..|done|].
    exists m, p. split; [apply Hm|].
    rewrite (configured_walk _ _ _ _ m 3 a b (dragonfly_delivers s Hs) Hm) by done.
    by rewrite Hl.
Qed.

Lemma configured_networks_deliver_witness :
  (exists m p, (forall g1 g2 g3,
       (t ← getMemTopoFromXML g1 g2 g3 (mesh_file 16); Memory_topology t 4 16 4) = Ret m) /\
     walk (topology_network m) 6 3 12 = Ret p /\ Z.of_nat (length p) = manhattan 16 3 12) /\
  (exists m p, (forall g1 g2 g3,
       (t ← getMemTopoFromXML g1 g2 g3 (dragonfly_file 16); Memory_topology t 4 16 4) = Ret m) /\
     walk (topology_network m) 3 3 12 = Ret p /\ (length p <= 3)%nat).
Proof. apply (configured_networks_deliver 16 3 12); [reflexivity|lia|lia]. Defined.
