(* ===== verification/AddrMap.v ===== *)
(** * Address mapping of the HMC memory

    The addressing part of the [Memory<HMC>] constructor, [slice_lower_bits],
    [clear_lower_bits], [address_mapping] with its four interleavings,
    [get_target_vault], [get_target_stack] and [memAccsssPosition]
    ([src/src/ramulator/HMC_Memory.h]), over the organisations of
    [src/src/ramulator/HMC.h].

    The theorems relate the mapping to its inverse [address_of]: below the
    capacity, transaction blocks and device coordinates correspond one to one. *)

From S2P Require Import Prelude Bits.

(** ** The device *)

Inductive Level : Type := Vault | BankGroup | Bank | Row | Column.

#[global] Instance Level_eq_dec : EqDecision Level.
Proof. solve_decision. Defined.

Inductive Org : Type :=
  | HMC_4GB | HMC_8GB | HMC_4GB_column1024
  | HMC_4GB_bank16 | HMC_4GB_bank32 | HMC_4GB_bank64 | HMC_4GB_bank128 | HMC_4GB_bank256
  | HMC_4GB_va64 | HMC_4GB_va128 | HMC_4GB_va256 | HMC_4GB_va512 | HMC_4GB_va1024.

(** [org_table]: vaults, bank groups, banks, rows, columns. *)
Definition org_count (org : Org) : list Z :=
  match org with
  | HMC_4GB => [32; 4; 2; Z.shiftl 1 16; Z.shiftl 1 6]
  | HMC_8GB => [32; 8; 2; Z.shiftl 1 16; Z.shiftl 1 6]
  | HMC_4GB_column1024 => [32; 4; 2; Z.shiftl 1 12; Z.shiftl 1 10]
  | HMC_4GB_bank16 => [32; 4; 4; Z.shiftl 1 15; Z.shiftl 1 6]
  | HMC_4GB_bank32 => [32; 4; 8; Z.shiftl 1 14; Z.shiftl 1 6]
  | HMC_4GB_bank64 => [32; 4; 16; Z.shiftl 1 13; Z.shiftl 1 6]
  | HMC_4GB_bank128 => [32; 4; 32; Z.shiftl 1 12; Z.shiftl 1 6]
  | HMC_4GB_bank256 => [32; 4; 64; Z.shiftl 1 11; Z.shiftl 1 6]
  | HMC_4GB_va64 => [64; 4; 2; Z.shiftl 1 15; Z.shiftl 1 6]
  | HMC_4GB_va128 => [128; 4; 2; Z.shiftl 1 14; Z.shiftl 1 6]
  | HMC_4GB_va256 => [256; 4; 2; Z.shiftl 1 13; Z.shiftl 1 6]
  | HMC_4GB_va512 => [512; 4; 2; Z.shiftl 1 12; Z.shiftl 1 6]
  | HMC_4GB_va1024 => [1024; 4; 2; Z.shiftl 1 11; Z.shiftl 1 6]
  end.

Inductive MaxBlock : Type := HMC_32B | HMC_64B | HMC_128B | HMC_256B.

Definition flit_num_bits (m : MaxBlock) : Z :=
  match m with HMC_32B => 5 | HMC_64B => 6 | HMC_128B => 7 | HMC_256B => 8 end.

Definition prefetch_size : Z := 8.
Definition channel_width : Z := 32.

(** ** Parameters computed by the constructor *)

Inductive AddrType : Type :=
  RoChBgBaCuVaCl | RoBgBaCuVaChCl | RoBgBaChCuVaCl | RoChBaBgCuVaCl.

Record addressing : Type := mkAddressing {
  tx_bits : Z;
  addr_bits : Level -> Z;
  cub_bits : Z;
  max_block_bits : Z;          (* spec->maxblock_entry.flit_num_bits *)
  vaults_per_cub : Z;
  vaults_per_cub_bits : Z;
  max_address : Z;
  addr_type : AddrType
}.

Definition level_index (l : Level) : nat :=
  match l with Vault => 0 | BankGroup => 1 | Bank => 2 | Row => 3 | Column => 4 end.

(** [calc_log2], whose loop ends within the width of [int]. *)
Definition log2_of (v : Z) : outcome Z :=
  match calc_log2 v with Some n => Ret n | None => Stop OutOfFuel end.

Definition Memory_addressing (sz : list Z) (m : MaxBlock) (stacks : Z) (type : AddrType) : outcome addressing :=
  sz0 ← at_ sz 0;
  sz1 ← at_ sz 1;
  _ ← assert_ (Z.land sz0 (sz0 - 1) =? 0);
  _ ← assert_ (Z.land sz1 (sz1 - 1) =? 0);
  let tx := Z.quot (prefetch_size * channel_width) 8 in
  txb ← log2_of tx;
  _ ← assert_ (Z.shiftl 1 txb =? tx);
  '(bits, capacity) ← fold_ (fun '(bits, c) lev =>
      v ← at_ sz lev; b ← log2_of v; Ret (bits ++ [b], c * v))
    (zrange 5) ([], Z.quot channel_width 8);
  cb ← log2_of stacks;
  vb ← log2_of sz0;
  pb ← log2_of prefetch_size;
  let bit_of l := default 0 (bits !! level_index l) - (if bool_decide (l = Column) then pb else 0) in
  Ret (mkAddressing txb bit_of cb (flit_num_bits m) sz0 vb (capacity * stacks) type).

(** ** Slicing *)

(** [slice_lower_bits(addr, bits)]: the slice and the new [addr]; [1 << bits] is
    an [int] shift. *)
Definition slice_lower_bits (addr bits : Z) : outcome (Z * Z) :=
  if (0 <=? bits) && (bits <=? 30) then
    Ret (Z.land addr (Z.shiftl 1 bits - 1), Z.shiftr addr bits)
  else Stop Undefined.

Definition clear_lower_bits (addr bits : Z) : Z := Z.shiftr addr bits.

Record addr_vec : Type := mkAddrVec {
  av_Vault : Z; av_BankGroup : Z; av_Bank : Z; av_Row : Z; av_Column : Z
}.

#[global] Instance addr_vec_eq_dec : EqDecision addr_vec.
Proof. solve_decision. Defined.

Definition column_of (low msb mb : Z) : Z := Z.lor low (Z.shiftl msb mb).

(** [address_mapping(addr, addr_vec)] *)
Definition address_mapping (p : addressing) (addr : Z) : outcome addr_vec :=
  let bits := addr_bits p in
  let addr := clear_lower_bits addr (tx_bits p) in
  let mb := max_block_bits p - tx_bits p in
  match addr_type p with
  | RoChBgBaCuVaCl =>
      '(col, addr) ← slice_lower_bits addr mb;
      '(vault, addr) ← slice_lower_bits addr (bits Vault + cub_bits p);
      '(bank, addr) ← slice_lower_bits addr (bits Bank);
      '(bg, addr) ← slice_lower_bits addr (bits BankGroup);
      '(msb, addr) ← slice_lower_bits addr (bits Column - mb);
      '(row, addr) ← slice_lower_bits addr (bits Row);
      Ret (mkAddrVec vault bg bank row (column_of col msb mb))
  | RoBgBaCuVaChCl =>
      '(col, addr) ← slice_lower_bits addr mb;
      '(msb, addr) ← slice_lower_bits addr (bits Column - mb);
      '(vault, addr) ← slice_lower_bits addr (bits Vault + cub_bits p);
      '(bank, addr) ← slice_lower_bits addr (bits Bank);
      '(bg, addr) ← slice_lower_bits addr (bits BankGroup);
      '(row, addr) ← slice_lower_bits addr (bits Row);
      Ret (mkAddrVec vault bg bank row (column_of col msb mb))
  | RoBgBaChCuVaCl =>
      '(col, addr) ← slice_lower_bits addr mb;
      '(vault, addr) ← slice_lower_bits addr (bits Vault + cub_bits p);
      '(msb, addr) ← slice_lower_bits addr (bits Column - mb);
      '(bank, addr) ← slice_lower_bits addr (bits Bank);
      '(bg, addr) ← slice_lower_bits addr (bits BankGroup);
      '(row, addr) ← slice_lower_bits addr (bits Row);
      Ret (mkAddrVec vault bg bank row (column_of col msb mb))
  | RoChBaBgCuVaCl =>
      '(col, addr) ← slice_lower_bits addr mb;
      '(vault, addr) ← slice_lower_bits addr (bits Vault + cub_bits p);
      '(bg, addr) ← slice_lower_bits addr (bits BankGroup);
      '(bank, addr) ← slice_lower_bits addr (bits Bank);
      '(msb, addr) ← slice_lower_bits addr (bits Column - mb);
      '(row, addr) ← slice_lower_bits addr (bits Row);
      Ret (mkAddrVec vault bg bank row (column_of col msb mb))
  end.

Definition get_target_vault (p : addressing) (addr : Z) : outcome Z :=
  v ← address_mapping p addr; Ret (av_Vault v).

Definition get_target_stack (p : addressing) (addr : Z) : outcome Z :=
  v ← address_mapping p addr; Ret (Z.quot (av_Vault v) (vaults_per_cub p)).

Inductive IdealMemNetWorkType : Type := IDEAL_MEM_NETWORK_LOCALVAULT | IDEAL_MEM_NETWORK_LOCALSTACK.

#[global] Instance IdealMemNetWorkType_eq_dec : EqDecision IdealMemNetWorkType.
Proof. solve_decision. Defined.

(** [memAccsssPosition]: 0 the local vault, 1 the local stack, 2 a remote stack. *)
Definition memAccsssPosition (p : addressing) (nolat : IdealMemNetWorkType)
    (coreid req_addr : Z) (ideal_memnet : bool) : outcome Z :=
  v ← address_mapping p req_addr;
  let target_vault_id := av_Vault v in
  Ret (if target_vault_id =? coreid then 0
       else if ideal_memnet then
         if bool_decide (nolat = IDEAL_MEM_NETWORK_LOCALSTACK) then 1 else 0
       else
         let cur_cub := Z.quot coreid (vaults_per_cub p) in
         let target_cub := Z.quot target_vault_id (vaults_per_cub p) in
         if target_cub =? cur_cub then 1 else 2).

(** ** The mapping as bit fields *)

Definition mbits (p : addressing) : Z := max_block_bits p - tx_bits p.

(** Widths of the fields above the transaction offset, lowest first. *)
Definition layout (p : addressing) : list Z :=
  let bits := addr_bits p in
  let V := bits Vault + cub_bits p in
  let M := bits Column - mbits p in
  match addr_type p with
  | RoChBgBaCuVaCl => [mbits p; V; bits Bank; bits BankGroup; M; bits Row]
  | RoBgBaCuVaChCl => [mbits p; M; V; bits Bank; bits BankGroup; bits Row]
  | RoBgBaChCuVaCl => [mbits p; V; M; bits Bank; bits BankGroup; bits Row]
  | RoChBaBgCuVaCl => [mbits p; V; bits BankGroup; bits Bank; M; bits Row]
  end.

(** The coordinates as field values, in the order of [layout]. *)
Definition to_slices (p : addressing) (v : addr_vec) : list Z :=
  let low := av_Column v mod 2 ^ mbits p in
  let msb := av_Column v / 2 ^ mbits p in
  match addr_type p with
  | RoChBgBaCuVaCl => [low; av_Vault v; av_Bank v; av_BankGroup v; msb; av_Row v]
  | RoBgBaCuVaChCl => [low; msb; av_Vault v; av_Bank v; av_BankGroup v; av_Row v]
  | RoBgBaChCuVaCl => [low; av_Vault v; msb; av_Bank v; av_BankGroup v; av_Row v]
  | RoChBaBgCuVaCl => [low; av_Vault v; av_BankGroup v; av_Bank v; msb; av_Row v]
  end.

(** The first address of the transaction block with coordinates [v]. *)
Definition address_of (p : addressing) (v : addr_vec) : Z :=
  2 ^ tx_bits p * unslices (layout p) (to_slices p v).

Definition capacity (p : addressing) : Z := 2 ^ (tx_bits p + width (layout p)).

Record wf_addressing (p : addressing) : Prop := {
  wf_tx : 0 <= tx_bits p;
  wf_layout : Forall (fun w => 0 <= w <= 30) (layout p)
}.

(** Coordinates of an existing block. *)
Record in_device (p : addressing) (v : addr_vec) : Prop := {
  dev_vault : 0 <= av_Vault v < 2 ^ (addr_bits p Vault + cub_bits p);
  dev_bankgroup : 0 <= av_BankGroup v < 2 ^ addr_bits p BankGroup;
  dev_bank : 0 <= av_Bank v < 2 ^ addr_bits p Bank;
  dev_row : 0 <= av_Row v < 2 ^ addr_bits p Row;
  dev_column : 0 <= av_Column v < 2 ^ addr_bits p Column
}.

Lemma slice_spec a w : 0 <= w <= 30 -> slice_lower_bits a w = Ret (a mod 2 ^ w, a / 2 ^ w).
Proof.
  intros Hw. unfold slice_lower_bits.
  rewrite (proj2 (Z.leb_le 0 w)), (proj2 (Z.leb_le w 30)) by lia. simpl.
  by rewrite land_shiftl_1_ones, Z.shiftr_div_pow2 by lia.
Qed.

(** Every interleaving only reads the fields of its layout. *)
Lemma address_mapping_fields p addr :
  wf_addressing p ->
  exists v, address_mapping p addr = Ret v /\
    to_slices p v = slices (layout p) (addr / 2 ^ tx_bits p) /\ in_device p v.
Proof.
  intros [Htx HL]. unfold address_mapping, clear_lower_bits. rewrite Z.shiftr_div_pow2 by done.
  unfold layout, to_slices in *. fold (mbits p).
  destruct (addr_type p); rewrite !Forall_cons, Forall_nil in HL; destruct_and! HL;
    repeat (rewrite slice_spec by lia; cbn [mbind outcome_bind]);
    (eexists; split; [reflexivity|]); cbn [slices]; unfold column_of; simpl av_Vault;
    simpl av_Bank; simpl av_BankGroup; simpl av_Row; simpl av_Column;
    (rewrite lor_shiftl_add, low_part, high_part by (try lia; apply mod_pow2_range; lia));
    (split; [reflexivity|]); split; simpl; try (apply Z.mod_pos_bound; lia).
  all: match goal with |- 0 <= ?a mod 2 ^ ?m + ?b mod 2 ^ (?c - ?m) * _ < _ =>
    replace (2 ^ c) with (2 ^ m * 2 ^ (c - m)) by (rewrite <- Z.pow_add_r by lia; f_equal; lia);
    pose proof (Z.mod_pos_bound a (2 ^ m) ltac:(lia));
    pose proof (Z.mod_pos_bound b (2 ^ (c - m)) ltac:(lia)); nia end.
Qed.

Lemma to_slices_range p v :
  wf_addressing p -> in_device p v -> Forall2 (fun w x => 0 <= x < 2 ^ w) (layout p) (to_slices p v).
Proof.
  intros [Htx HL] []. assert (Hm : 0 <= mbits p /\ 0 <= addr_bits p Column - mbits p).
  { unfold layout in HL. destruct (addr_type p); rewrite !Forall_cons in HL; lia. }
  assert (0 <= av_Column v mod 2 ^ mbits p < 2 ^ mbits p) by (apply mod_pow2_range; lia).
  assert (0 <= av_Column v / 2 ^ mbits p < 2 ^ (addr_bits p Column - mbits p)).
  { apply div_pow2_bound; [lia..|]. by rewrite Zplus_minus. }
  unfold layout, to_slices. destruct (addr_type p); by repeat (constructor; [done|]).
Qed.

Lemma to_slices_inj p v v' : 0 <= mbits p -> to_slices p v = to_slices p v' -> v = v'.
Proof.
  unfold to_slices. destruct v, v'; simpl. intros Hm H.
  assert (Hc : av_Column0 = av_Column1).
  { rewrite (split_low av_Column0 (mbits p)), (split_low av_Column1 (mbits p)) by done.
    destruct (addr_type p); simplify_eq; congruence. }
  destruct (addr_type p); simplify_eq; done.
Qed.

Lemma wf_widths p : wf_addressing p -> Forall (Z.le 0) (layout p).
Proof. intros [_ HL]. eapply Forall_impl; [exact HL|]. simpl. lia. Qed.

Lemma wf_mbits p : wf_addressing p -> 0 <= mbits p.
Proof.
  intros [_ HL]. unfold layout in HL. destruct (addr_type p); rewrite !Forall_cons in HL; lia.
Qed.

(** Mapping after unmapping. *)
Lemma address_mapping_of p v :
  wf_addressing p -> in_device p v ->
  address_mapping p (address_of p v) = Ret v /\ 0 <= address_of p v < capacity p.
Proof.
  intros W Hv. pose proof (wf_widths p W) as Hw. pose proof (wf_tx p W).
  destruct (slices_unslices _ _ Hw (to_slices_range p v W Hv)) as [Hs Hb].
  pose proof (width_nonneg _ Hw). split.
  - destruct (address_mapping_fields p (address_of p v) W) as (v' & -> & Hf & _).
    f_equal. apply (to_slices_inj p); [by apply wf_mbits|].
    rewrite Hf. unfold address_of. rewrite Z.mul_comm, Z.div_mul by lia. done.
  - unfold address_of, capacity. rewrite Z.pow_add_r by lia. nia.
Qed.

Lemma address_of_mapping p addr v :
  wf_addressing p -> 0 <= addr < capacity p -> address_mapping p addr = Ret v ->
  address_of p v = addr / 2 ^ tx_bits p * 2 ^ tx_bits p.
Proof.
  intros W Ha Hv. destruct (address_mapping_fields p addr W) as (v' & Hv' & Hf & _).
  rewrite Hv in Hv'. injection Hv' as <-. unfold address_of. rewrite Hf.
  pose proof (wf_widths p W) as Hw. pose proof (wf_tx p W). pose proof (width_nonneg _ Hw).
  rewrite unslices_slices by done.
  rewrite (Z.mod_small (addr / 2 ^ tx_bits p)); [lia|].
  apply div_pow2_bound; [lia..|done].
Qed.

(** The vault index is the stack number followed by the vault within the stack. *)
Lemma vault_split p v :
  0 <= addr_bits p Vault -> 0 <= cub_bits p -> vaults_per_cub p = 2 ^ addr_bits p Vault ->
  in_device p v ->
  0 <= Z.quot (av_Vault v) (vaults_per_cub p) < 2 ^ cub_bits p.
Proof.
  intros HV HC Hvpc []. rewrite Hvpc, Z.quot_div_nonneg by lia.
  by apply div_pow2_bound.
Qed.

Lemma log2_of_pow2 k : 0 <= k <= 30 -> log2_of (2 ^ k) = Ret k.
Proof.
  intros Hk. unfold log2_of. rewrite calc_log2_spec.
  - by rewrite Z.log2_pow2 by lia.
  - pose proof (Z.pow_lt_mono_r 2 k 31). lia.
Qed.

(** What the constructor computes, for one organisation and any number of stacks. *)
Definition addressing_for (org : Org) (m : MaxBlock) (k : Z) (type : AddrType) (stacks : Z) : addressing :=
  let sz := org_count org in
  let log l := Z.log2 (default 0 (sz !! level_index l)) in
  mkAddressing 5 (fun l => log l - (if bool_decide (l = Column) then 3 else 0)) k (flit_num_bits m)
    (default 0 (sz !! 0%nat)) (log Vault) (4 * foldr Z.mul 1 sz * stacks) type.

Lemma Memory_addressing_org org m type k :
  0 <= k <= 20 ->
  exists p, Memory_addressing (org_count org) m (2 ^ k) type = Ret p /\
    tx_bits p = 5 /\ cub_bits p = k /\ max_block_bits p = flit_num_bits m /\
    (forall l, addr_bits p l = addr_bits (addressing_for org m k type (2 ^ k)) l) /\
    vaults_per_cub p = 2 ^ addr_bits p Vault /\
    max_address p = max_address (addressing_for org m k type (2 ^ k)) /\ addr_type p = type.
Proof.
  intros Hk. unfold Memory_addressing. rewrite (log2_of_pow2 k) by lia. generalize (2 ^ k) as s. intros s.
  destruct org; (eexists; split; [reflexivity|]); cbn [tx_bits cub_bits max_block_bits addr_bits vaults_per_cub max_address addr_type];
    (do 3 (split; [reflexivity|])); (split; [intros []; reflexivity|]);
    (split; [reflexivity|]); (split; [reflexivity|reflexivity]).
Qed.

Lemma width_layout p :
  width (layout p) =
  addr_bits p Vault + cub_bits p + addr_bits p Bank + addr_bits p BankGroup + addr_bits p Column + addr_bits p Row.
Proof. unfold layout, width. destruct (addr_type p); simpl; lia. Qed.

Lemma Memory_addressing_wf org m type k p :
  0 <= k <= 20 -> Memory_addressing (org_count org) m (2 ^ k) type = Ret p ->
  wf_addressing p /\ max_address p = capacity p /\
  vaults_per_cub p = 2 ^ addr_bits p Vault /\ 0 <= addr_bits p Vault /\ cub_bits p = k.
Proof.
  intros Hk Hp. destruct (Memory_addressing_org org m type k Hk) as (p' & Hp' & Htx & Hc & Hmb & Hb & Hv & Hmax & _).
  rewrite Hp in Hp'. injection Hp' as <-.
  assert (Hbits : forall l, 0 <= addr_bits p l <= 16 /\ addr_bits p Vault <= 10 /\ 3 <= addr_bits p Column).
  { intros l. rewrite !Hb. destruct org, l; vm_compute; repeat split; discriminate. }
  assert (Hm : 0 <= mbits p <= 3) by (unfold mbits; rewrite Htx, Hmb; destruct m; simpl; lia).
  pose proof (Hbits Vault). pose proof (Hbits Bank). pose proof (Hbits BankGroup).
  pose proof (Hbits Row). pose proof (Hbits Column).
  split; [|split; [|repeat split; try done; lia]].
  - split; [lia|]. unfold layout. destruct (addr_type p); rewrite !Forall_cons, Forall_nil; lia.
  - unfold capacity. rewrite width_layout, Hmax, Htx, Hc.
    replace (5 + (addr_bits p Vault + k + addr_bits p Bank + addr_bits p BankGroup + addr_bits p Column + addr_bits p Row))
      with (5 + addr_bits p Vault + addr_bits p Bank + addr_bits p BankGroup + addr_bits p Column + addr_bits p Row + k) by lia.
    rewrite Z.pow_add_r by lia. simpl max_address. f_equal. rewrite !Hb. destruct org; reflexivity.
Qed.

(** ** Properties *)

(** C6: For each of the four interleavings, below the capacity, the mapping is a
    bijection between transaction blocks and device coordinates: every address
    maps to coordinates of the device whose block starts at the address rounded
    down to a transaction, and every coordinate vector of the device is the
    image of the start of its block. *)
Theorem address_mapping_bijective p :
  wf_addressing p ->
  (forall addr, 0 <= addr < capacity p ->
     exists v, address_mapping p addr = Ret v /\ in_device p v /\
       address_of p v = addr / 2 ^ tx_bits p * 2 ^ tx_bits p) /\
  (forall v, in_device p v ->
     0 <= address_of p v < capacity p /\ address_mapping p (address_of p v) = Ret v).
Proof.
  intros W. split.
  - intros addr Ha. destruct (address_mapping_fields p addr W) as (v & Hv & _ & Hd).
    exists v. split; [done|]. split; [done|]. by apply address_of_mapping.
  - intros v Hv. destruct (address_mapping_of p v W Hv). done.
Qed.

(** The 16-stack HMC_4GB memory with 64-byte blocks. *)
Definition example_addressing : addressing :=
  addressing_for HMC_4GB HMC_64B 4 RoChBgBaCuVaCl 16.

Lemma example_wf : wf_addressing example_addressing.
Proof. split; [done|]. repeat constructor; vm_compute; discriminate. Qed.

Lemma address_mapping_bijective_witness :
  (forall addr, 0 <= addr < capacity example_addressing ->
     exists v, address_mapping example_addressing addr = Ret v /\ in_device example_addressing v /\
       address_of example_addressing v = addr / 2 ^ 5 * 2 ^ 5) /\
  (forall v, in_device example_addressing v ->
     0 <= address_of example_addressing v < capacity example_addressing /\
     address_mapping example_addressing (address_of example_addressing v) = Ret v).
Proof. apply (address_mapping_bijective example_addressing). exact example_wf. Defined.

(** For every organisation, block size, interleaving and 2^k stacks
    (k <= 20), the constructor succeeds and computes parameters for which no
    slice is wider than an [int] shift allows and the address space
    [max_address] is exactly the range on which the mapping is one to one. *)
Theorem Memory_addressing_capacity org m type k :
  0 <= k <= 20 ->
  exists p, Memory_addressing (org_count org) m (2 ^ k) type = Ret p /\
    wf_addressing p /\ max_address p = capacity p.
Proof.
  intros Hk. destruct (Memory_addressing_org org m type k Hk) as (p & Hp & _).
  exists p. destruct (Memory_addressing_wf org m type k p Hk Hp) as (W & Hc & _). done.
Qed.

Lemma Memory_addressing_capacity_witness :
  exists p, Memory_addressing (org_count HMC_8GB) HMC_256B (2 ^ 3) RoBgBaChCuVaCl = Ret p /\
    wf_addressing p /\ max_address p = capacity p.
Proof. apply (Memory_addressing_capacity HMC_8GB HMC_256B RoBgBaChCuVaCl 3). lia. Defined.

(** With parameters from the constructor, every address has a target vault
    among the vaults of all stacks and a target stack among the 2^k stacks, and
    a PIM core [coreid] finds its own vault at position 0 and, on a network with
    latency, a vault of its own stack at position 1 and any other at 2. *)
Theorem target_stack_in_range org m type k p addr :
  0 <= k <= 20 -> Memory_addressing (org_count org) m (2 ^ k) type = Ret p ->
  exists vault stack,
    get_target_vault p addr = Ret vault /\ 0 <= vault < 2 ^ k * vaults_per_cub p /\
    get_target_stack p addr = Ret stack /\ 0 <= stack < 2 ^ k /\
    forall nolat coreid, memAccsssPosition p nolat coreid addr false =
      Ret (if vault =? coreid then 0
           else if stack =? Z.quot coreid (vaults_per_cub p) then 1 else 2).
Proof.
  intros Hk Hp. destruct (Memory_addressing_wf org m type k p Hk Hp) as (W & _ & Hv & Hv0 & Hc).
  destruct (address_mapping_fields p addr W) as (v & Hm & _ & Hd).
  exists (av_Vault v), (Z.quot (av_Vault v) (vaults_per_cub p)).
  unfold get_target_vault, get_target_stack, memAccsssPosition. rewrite Hm. simpl.
  pose proof (dev_vault p v Hd). rewrite Hc in *.
  rewrite Z.pow_add_r in * by lia.
  split; [done|]. split; [rewrite Hv; lia|]. split; [done|].
  split; [rewrite <- Hc; by apply vault_split; try done; lia|]. intros nolat coreid. done.
Qed.

Definition built_addressing : addressing :=
  match Memory_addressing (org_count HMC_4GB) HMC_64B (2 ^ 4) RoChBgBaCuVaCl with
  | Ret p => p
  | Stop _ => example_addressing
  end.

Lemma target_stack_in_range_witness :
  exists vault stack,
    get_target_vault built_addressing 0x123456789 = Ret vault /\
    0 <= vault < 2 ^ 4 * vaults_per_cub built_addressing /\
    get_target_stack built_addressing 0x123456789 = Ret stack /\ 0 <= stack < 2 ^ 4 /\
    forall nolat coreid, memAccsssPosition built_addressing nolat coreid 0x123456789 false =
      Ret (if vault =? coreid then 0
           else if stack =? Z.quot coreid (vaults_per_cub built_addressing) then 1 else 2).
Proof.
  apply (target_stack_in_range HMC_4GB HMC_64B RoChBgBaCuVaCl 4 built_addressing); [lia|reflexivity].
Defined.
