(* ===== verification/Packet.v ===== *)
(** * Packets, requests and tags

    [src/src/ramulator/Request.h], [src/src/ramulator/Packet.h],
    [src/src/ramulator/Packet.cpp], and the host controller of
    [src/src/ramulator/HMC_Memory.h] that forms request packets
    ([assign_tag], the two [form_request_packet]) and takes back the tags of
    responses ([receive_packets]). *)

From S2P Require Import Prelude Bits Network Topology AddrMap.

(** ** Requests *)

Inductive ReqType : Type :=
  | READ | WRITE | REFRESH | POWERDOWN | SELFREFRESH | EXTENSION | INSTRUCTION.

#[global] Instance ReqType_eq_dec : EqDecision ReqType.
Proof. solve_decision. Defined.

Inductive NetworkStage : Type :=
  | REQ_WAIT_NETWORK | REQ_ARRIVE_NETWORK | REQ_DEPART_FIRST_SWITCH | REQ_ARRIVE_LAST_SWITCH
  | REQ_DEPART_NETWORK | RESP_WAIT_NETWORK | RESP_ARRIVE_NETWORK | RESP_DEPART_FIRST_SWITCH
  | RESP_ARRIVE_LAST_SWITCH | RESP_DEPART_NETWORK.

#[global] Instance NetworkStage_eq_dec : EqDecision NetworkStage.
Proof. solve_decision. Defined.

Definition stage_index (s : NetworkStage) : nat :=
  match s with
  | REQ_WAIT_NETWORK => 0 | REQ_ARRIVE_NETWORK => 1 | REQ_DEPART_FIRST_SWITCH => 2
  | REQ_ARRIVE_LAST_SWITCH => 3 | REQ_DEPART_NETWORK => 4 | RESP_WAIT_NETWORK => 5
  | RESP_ARRIVE_NETWORK => 6 | RESP_DEPART_FIRST_SWITCH => 7 | RESP_ARRIVE_LAST_SWITCH => 8
  | RESP_DEPART_NETWORK => 9
  end.

Record Request : Type := mkRequest {
  req_addr : Z;
  req_vec : addr_vec;
  reqid : Z;
  coreid : Z;
  pu_id : Z;                   (* -1: sent by the CPU *)
  req_type : ReqType;
  is_pim_inst : bool;
  is_ptw : bool;
  ideal_memnet : bool;
  arrive : Z;
  depart : Z;
  burst_count : Z;
  arrive_hmc : Z;
  depart_hmc : Z;
  arrive_switch : Z;
  network_stamps : list Z;     (* the array [network], by [stage_index] *)
  hops_total : Z;
  req_hops : Z;
  resp_hops : Z;
  is_first_command : bool      (* no command was issued for it yet *)
}.

(** The constructors of [Request]: a CPU request ([coreid]) and a PIM request
    ([pu_id]); the other fields have their member initialisers. *)
Definition cpu_request (addr : Z) (type : ReqType) (core : Z) : Request :=
  mkRequest addr (mkAddrVec 0 0 0 0 0) (-1) core (-1) type false false false (-1) (-1) 0 (-1) (-1) (-1)
    (replicate 10 0) 0 0 0 true.
Definition pim_request (addr : Z) (type : ReqType) (pu : Z) : Request :=
  mkRequest addr (mkAddrVec 0 0 0 0 0) (-1) (-1) pu type true false false (-1) (-1) 0 (-1) (-1) (-1)
    (replicate 10 0) 0 0 0 true.

Definition set_vec (x : addr_vec) (r : Request) : Request :=
  mkRequest (req_addr r) x (reqid r) (coreid r) (pu_id r) (req_type r) (is_pim_inst r) (is_ptw r)
    (ideal_memnet r) (arrive r) (depart r) (burst_count r) (arrive_hmc r) (depart_hmc r)
    (arrive_switch r) (network_stamps r) (hops_total r) (req_hops r) (resp_hops r) (is_first_command r).
Definition set_reqid (x : Z) (r : Request) : Request :=
  mkRequest (req_addr r) (req_vec r) x (coreid r) (pu_id r) (req_type r) (is_pim_inst r) (is_ptw r)
    (ideal_memnet r) (arrive r) (depart r) (burst_count r) (arrive_hmc r) (depart_hmc r)
    (arrive_switch r) (network_stamps r) (hops_total r) (req_hops r) (resp_hops r) (is_first_command r).
Definition set_pu_id (x : Z) (r : Request) : Request :=
  mkRequest (req_addr r) (req_vec r) (reqid r) (coreid r) x (req_type r) (is_pim_inst r) (is_ptw r)
    (ideal_memnet r) (arrive r) (depart r) (burst_count r) (arrive_hmc r) (depart_hmc r)
    (arrive_switch r) (network_stamps r) (hops_total r) (req_hops r) (resp_hops r) (is_first_command r).
Definition set_arrive (x : Z) (r : Request) : Request :=
  mkRequest (req_addr r) (req_vec r) (reqid r) (coreid r) (pu_id r) (req_type r) (is_pim_inst r)
    (is_ptw r) (ideal_memnet r) x (depart r) (burst_count r) (arrive_hmc r) (depart_hmc r)
    (arrive_switch r) (network_stamps r) (hops_total r) (req_hops r) (resp_hops r) (is_first_command r).
Definition set_depart (x : Z) (r : Request) : Request :=
  mkRequest (req_addr r) (req_vec r) (reqid r) (coreid r) (pu_id r) (req_type r) (is_pim_inst r)
    (is_ptw r) (ideal_memnet r) (arrive r) x (burst_count r) (arrive_hmc r) (depart_hmc r)
    (arrive_switch r) (network_stamps r) (hops_total r) (req_hops r) (resp_hops r) (is_first_command r).
Definition set_burst_count (x : Z) (r : Request) : Request :=
  mkRequest (req_addr r) (req_vec r) (reqid r) (coreid r) (pu_id r) (req_type r) (is_pim_inst r)
    (is_ptw r) (ideal_memnet r) (arrive r) (depart r) x (arrive_hmc r) (depart_hmc r)
    (arrive_switch r) (network_stamps r) (hops_total r) (req_hops r) (resp_hops r) (is_first_command r).
Definition set_arrive_hmc (x : Z) (r : Request) : Request :=
  mkRequest (req_addr r) (req_vec r) (reqid r) (coreid r) (pu_id r) (req_type r) (is_pim_inst r)
    (is_ptw r) (ideal_memnet r) (arrive r) (depart r) (burst_count r) x (depart_hmc r)
    (arrive_switch r) (network_stamps r) (hops_total r) (req_hops r) (resp_hops r) (is_first_command r).
Definition set_depart_hmc (x : Z) (r : Request) : Request :=
  mkRequest (req_addr r) (req_vec r) (reqid r) (coreid r) (pu_id r) (req_type r) (is_pim_inst r)
    (is_ptw r) (ideal_memnet r) (arrive r) (depart r) (burst_count r) (arrive_hmc r) x
    (arrive_switch r) (network_stamps r) (hops_total r) (req_hops r) (resp_hops r) (is_first_command r).
Definition set_arrive_switch (x : Z) (r : Request) : Request :=
  mkRequest (req_addr r) (req_vec r) (reqid r) (coreid r) (pu_id r) (req_type r) (is_pim_inst r)
    (is_ptw r) (ideal_memnet r) (arrive r) (depart r) (burst_count r) (arrive_hmc r)
    (depart_hmc r) x (network_stamps r) (hops_total r) (req_hops r) (resp_hops r) (is_first_command r).
Definition stamp_stage (st : NetworkStage) (clk : Z) (r : Request) : Request :=
  mkRequest (req_addr r) (req_vec r) (reqid r) (coreid r) (pu_id r) (req_type r) (is_pim_inst r)
    (is_ptw r) (ideal_memnet r) (arrive r) (depart r) (burst_count r) (arrive_hmc r)
    (depart_hmc r) (arrive_switch r) (<[stage_index st := clk]> (network_stamps r))
    (hops_total r) (req_hops r) (resp_hops r) (is_first_command r).
(** [hops++; req_hops++] *)
Definition add_req_hop (r : Request) : Request :=
  mkRequest (req_addr r) (req_vec r) (reqid r) (coreid r) (pu_id r) (req_type r) (is_pim_inst r)
    (is_ptw r) (ideal_memnet r) (arrive r) (depart r) (burst_count r) (arrive_hmc r)
    (depart_hmc r) (arrive_switch r) (network_stamps r) (hops_total r + 1) (req_hops r + 1)
    (resp_hops r) (is_first_command r).
(** [hops++; resp_hops++] *)
Definition add_resp_hop (r : Request) : Request :=
  mkRequest (req_addr r) (req_vec r) (reqid r) (coreid r) (pu_id r) (req_type r) (is_pim_inst r)
    (is_ptw r) (ideal_memnet r) (arrive r) (depart r) (burst_count r) (arrive_hmc r)
    (depart_hmc r) (arrive_switch r) (network_stamps r) (hops_total r + 1) (req_hops r)
    (resp_hops r + 1) (is_first_command r).

Definition set_first_command (x : bool) (r : Request) : Request :=
  mkRequest (req_addr r) (req_vec r) (reqid r) (coreid r) (pu_id r) (req_type r) (is_pim_inst r)
    (is_ptw r) (ideal_memnet r) (arrive r) (depart r) (burst_count r) (arrive_hmc r)
    (depart_hmc r) (arrive_switch r) (network_stamps r) (hops_total r) (req_hops r) (resp_hops r) x.

(** ** Packets *)

Definition pkt_cub_bits : Z := 4.
Definition pkt_slid_bits : Z := 6.
Definition pkt_adrs_bits : Z := 38.
Definition pkt_tag_bits : Z := 11.
Definition pkt_lng_bits : Z := 5.
Definition pkt_cmd_bits : Z := 7.
Definition pkt_rtc_bits : Z := 3.

Inductive PacketType : Type := REQUEST | RESPONSE | NULLPACKET | TRET | RETRY.

#[global] Instance PacketType_eq_dec : EqDecision PacketType.
Proof. solve_decision. Defined.

Inductive Command : Type :=
  | WR16 | WR32 | WR48 | WR64 | WR80 | WR96 | WR112 | WR128 | WR256
  | RD16 | RD32 | RD48 | RD64 | RD80 | RD96 | RD112 | RD128 | RD256.

#[global] Instance Command_eq_dec : EqDecision Command.
Proof. solve_decision. Defined.

(** A [Datafield]: its value and its width; [valid] compares with [1ll << bit]. *)
Record Datafield : Type := mkField { value : Z; bit : Z }.

Definition valid (f : Datafield) : bool := value f <? Z.shiftl 1 (bit f).

(** The fields that a constructor leaves unset are [None]. *)
Record Packet : Type := mkPacket {
  pk_type : PacketType;
  pk_CUB : option Datafield;
  pk_ADRS : option Datafield;
  pk_SLID : option Datafield;      (* header.SLID, responses *)
  pk_TAG : option Datafield;
  pk_LNG : option Datafield;
  pk_CMD : option Command;
  tail_RTC : Datafield;
  tail_SLID : option Datafield;    (* tail.SLID, requests *)
  payload_flits : Z;
  total_flits : Z;
  flow_control : bool;
  pk_req : option Request
}.

Definition field (f : option Datafield) : outcome Z :=
  match f with Some d => Ret (value d) | None => Stop Undefined end.

(** The three constructors of [Packet], whose [type] argument is asserted. *)
Definition request_packet (CUB ADRS TAG LNG SLID : Z) (CMD : Command) (req : Request) : Packet :=
  mkPacket REQUEST (Some (mkField CUB pkt_cub_bits)) (Some (mkField ADRS pkt_adrs_bits)) None
    (Some (mkField TAG pkt_tag_bits)) (Some (mkField LNG pkt_lng_bits)) (Some CMD)
    (mkField 0 pkt_rtc_bits) (Some (mkField SLID pkt_slid_bits)) (LNG - 1) LNG false (Some req).

Definition response_packet (CUB TAG LNG SLID : Z) (CMD : Command) (req : option Request) : Packet :=
  mkPacket RESPONSE (Some (mkField CUB pkt_cub_bits)) None (Some (mkField SLID pkt_slid_bits))
    (Some (mkField TAG pkt_tag_bits)) (Some (mkField LNG pkt_lng_bits)) (Some CMD)
    (mkField 0 pkt_rtc_bits) None (LNG - 1) LNG false req.

Definition tret_packet (RTC : Z) : Packet :=
  mkPacket TRET None None None None None None (mkField RTC pkt_rtc_bits) None 0 (0 + 1) true None.

Definition set_RTC (p : Packet) (rtc : Z) : Packet :=
  mkPacket (pk_type p) (pk_CUB p) (pk_ADRS p) (pk_SLID p) (pk_TAG p) (pk_LNG p) (pk_CMD p)
    (mkField rtc (bit (tail_RTC p))) (tail_SLID p) (payload_flits p) (total_flits p)
    (flow_control p) (pk_req p).

Definition set_req (p : Packet) (r : Request) : Packet :=
  mkPacket (pk_type p) (pk_CUB p) (pk_ADRS p) (pk_SLID p) (pk_TAG p) (pk_LNG p) (pk_CMD p)
    (tail_RTC p) (tail_SLID p) (payload_flits p) (total_flits p) (flow_control p) (Some r).

(** ** Command tables

    [std::map::operator[]] yields the first enumerator, [WR16], for a missing key. *)

Definition write_cmd_map (lng : Z) : Command :=
  if lng =? 1 then WR16 else if lng =? 2 then WR32 else if lng =? 3 then WR48
  else if lng =? 4 then WR64 else if lng =? 5 then WR80 else if lng =? 6 then WR96
  else if lng =? 7 then WR112 else if lng =? 8 then WR128 else if lng =? 16 then WR256
  else WR16.

Definition read_cmd_map (lng : Z) : Command :=
  if lng =? 1 then RD16 else if lng =? 2 then RD32 else if lng =? 3 then RD48
  else if lng =? 4 then RD64 else if lng =? 5 then RD80 else if lng =? 6 then RD96
  else if lng =? 7 then RD112 else if lng =? 8 then RD128 else if lng =? 16 then RD256
  else WR16.

(** Bytes that a command transfers, by its name. *)
Definition cmd_bytes (c : Command) : Z :=
  match c with
  | WR16 | RD16 => 16 | WR32 | RD32 => 32 | WR48 | RD48 => 48 | WR64 | RD64 => 64
  | WR80 | RD80 => 80 | WR96 | RD96 => 96 | WR112 | RD112 => 112 | WR128 | RD128 => 128
  | WR256 | RD256 => 256
  end.

(** ** Tags *)

Definition tag_pools : Type := list (list Z).

Definition max_tags : Z := Z.shiftl 1 11.

(** [tags_pools.resize(stacks * stack_links)], each filled with [0 .. max_tags - 1]. *)
Definition init_tags (stacks stack_links : Z) : tag_pools :=
  replicate (Z.to_nat (stacks * stack_links)) (zrange (Z.to_nat max_tags)).

(** [assign_tag(slid)]: -1 when the pool is empty. *)
Definition assign_tag (pools : tag_pools) (slid : Z) : outcome (Z * tag_pools) :=
  pool ← at_ pools slid;
  match pool with
  | [] => Ret (-1, pools)
  | tag :: rest => pools' ← set_at pools slid rest; Ret (tag, pools')
  end.

(** ** Request packets *)

(** What the host controller reads of the memory. *)
Record host : Type := mkHost {
  h_topology : MemoryTopology;
  h_stacks : Z;
  h_stack_links : Z;
  h_addressing : addressing;
  h_payload_flits : Z;
  h_cpu_cores : Z;
  h_nolat : IdealMemNetWorkType
}.

Definition request_lng (h : host) (r : Request) : Z :=
  if bool_decide (req_type r = READ) then 1 else 1 + h_payload_flits h.

Definition request_cmd (lng : Z) (t : ReqType) : outcome Command :=
  match t with
  | READ => Ret (read_cmd_map lng)
  | WRITE => Ret (write_cmd_map lng)
  | _ => Stop AssertFailed
  end.

(** The asserts at the end of both [form_request_packet]; that on CMD compares
    one of 18 enumerators with 2^7. *)
Definition packet_asserts (p : Packet) : outcome Packet :=
  _ ← assert_ (match pk_CUB p with Some f => valid f | None => false end);
  _ ← assert_ (match pk_ADRS p with Some f => valid f | None => false end);
  _ ← assert_ (match pk_TAG p with Some f => valid f | None => false end);
  _ ← assert_ (match tail_SLID p with Some f => valid f | None => false end);
  Ret p.

(** [form_request_packet(req)], from the host. *)
Definition form_request_packet (h : host) (pools : tag_pools) (r : Request) : outcome (Packet * tag_pools) :=
  let cub := Z.shiftr (av_Vault (req_vec r)) (vaults_per_cub_bits (h_addressing h)) in
  let adrs := req_addr r in
  slid ← getCPURouteLink (h_topology h) cub;
  '(tag, pools) ← assign_tag pools slid;
  let lng := request_lng h r in
  cmd ← request_cmd lng (req_type r);
  p ← packet_asserts (request_packet cub adrs tag lng slid cmd r);
  Ret (p, pools).

(** [form_request_packet(req, src_cub)], from a PIM core. *)
Definition form_request_packet_pim (h : host) (pools : tag_pools) (r : Request) (src_cub : Z)
    : outcome (Packet * tag_pools) :=
  let cub := Z.shiftr (av_Vault (req_vec r)) (vaults_per_cub_bits (h_addressing h)) in
  let adrs := req_addr r in
  slid ← get_route_link (h_topology h) (h_stacks h) src_cub cub;
  '(tag, pools) ← (if negb (slid =? -1) then assign_tag pools slid else Ret (-1, pools));
  let lng := request_lng h r in
  cmd ← request_cmd lng (req_type r);
  p ← packet_asserts (request_packet cub adrs tag lng slid cmd r);
  Ret (p, pools).

(** [receive_packets(packet)]: flow control is dropped, the tag of a response
    goes back to the pool of its link, and the request completes. *)
Definition receive_packets (pools : tag_pools) (clk : Z) (p : Packet) : outcome (tag_pools * option Request) :=
  if flow_control p then Ret (pools, None)
  else
    _ ← assert_ (bool_decide (pk_type p = RESPONSE));
    slid ← field (pk_SLID p);
    tag ← field (pk_TAG p);
    pool ← at_ pools slid;
    pools' ← set_at pools slid (pool ++ [tag]);
    Ret (pools', set_depart_hmc clk <$> pk_req p).
