(* ===== verification/Link.v ===== *)
(** * Links and their flow control

    [LinkMaster], [LinkSlave] and [Link] of [src/src/ramulator/LogicLayer.h],
    with [LinkMaster::send] and [LinkSlave::receive] of
    [src/src/ramulator/LogicLayer.cpp].

    The state holds every link of the machine; [send] delivers into the slave of
    the link at the other side within the same call.  Three further operations
    are what the switch and the host do to a link: take the head of an input
    buffer ([link_inject]), append to an output buffer ([link_eject],
    [vault_inject]) and hand a host packet to a slave ([Memory::send]).

    The main theorem is conservation of credits: the tokens a master holds, the
    flits buffered by the slave at the other side and the flits it has extracted
    but not yet returned always add up to the buffer size. *)

From S2P Require Import Prelude Bits Network Topology AddrMap Packet.

(** ** State *)

Definition buffer_max : Z := 32.

Record LinkMaster : Type := mkMaster {
  output_buffer : list Packet;
  m_occupied : Z;                    (* buffer_occupied *)
  available_token_count : Z;
  m_clk : Z;
  next_packet_clk : Z
}.

Record LinkSlave : Type := mkSlave {
  extracted_token_count : Z;
  input_buffer : list Packet;
  s_occupied : Z                     (* buffer_occupied *)
}.

Record Link : Type := mkLink {
  link_type : LinkType;
  master : LinkMaster;
  slave : LinkSlave
}.

(** [Link::Link] *)
Definition newLink (ty : LinkType) : Link :=
  mkLink ty (mkMaster [] 0 buffer_max 0 0) (mkSlave 0 [] 0).

Definition master_space (l : Link) : Z := buffer_max - m_occupied (master l).
Definition slave_space (l : Link) : Z := buffer_max - s_occupied (slave l).

(** All links by id, the wires, and the packets handed to [send_via_link]. *)
Record links : Type := mkLinks {
  lk : gmap Z Link;
  wires : gmap Z Z;                  (* other_side_link *)
  to_host : list Packet
}.

Definition get_link (s : links) (i : Z) : outcome Link :=
  match lk s !! i with Some l => Ret l | None => Stop NullDeref end.
Definition put_link (s : links) (i : Z) (l : Link) : links :=
  mkLinks (<[i := l]> (lk s)) (wires s) (to_host s).
Definition host_receives (s : links) (p : Packet) : links :=
  mkLinks (lk s) (wires s) (to_host s ++ [p]).

(** ** Operations *)

(** [leftmostbit(val)], for the non-negative counts it is called with. *)
Definition leftmostbit (val : Z) : Z :=
  if val =? 0 then 0
  else match calc_log2 val with Some n => Z.shiftl 1 n | None => 0 end.

(** [LinkSlave::receive(packet)] on link [l]: the returned tokens go to the
    master of the same link. *)
Definition slave_receive (l : Link) (p : Packet) : Link :=
  let m := master l in
  let s := slave l in
  let rtc := value (tail_RTC p) in
  let m' := mkMaster (output_buffer m) (m_occupied m) (available_token_count m + rtc) (m_clk m) (next_packet_clk m) in
  if flow_control p then mkLink (link_type l) m' s
  else mkLink (link_type l) m'
         (mkSlave (extracted_token_count s) (input_buffer s ++ [p]) (s_occupied s + total_flits p)).

Definition is_source_mode (l : Link) : bool := bool_decide (link_type l = HOST_SOURCE_MODE).

Section Send.
(** [flit_cycles n] is [ceil(n * one_flit_cycles)], computed in floating point. *)
Context (flit_cycles : Z -> Z).

(** [other_side_link->slave.receive(packet)] *)
Definition deliver (s : links) (j : Z) (p : Packet) : outcome links :=
  o ← get_link s j; Ret (put_link s j (slave_receive o p)).

Definition set_next_clk (l : Link) (n : Z) : Link :=
  let m := master l in
  mkLink (link_type l) (mkMaster (output_buffer m) (m_occupied m) (available_token_count m) (m_clk m) (m_clk m + n)) (slave l).

Definition other_side (s : links) (i : Z) : outcome Z :=
  match wires s !! i with Some j => Ret j | None => Stop AssertFailed end.

(** The first branch of [LinkMaster::send]: a data packet. *)
Definition send_data (s : links) (i : Z) (l : Link) (packet : Packet) (rest : list Packet) : outcome links :=
  let m := master l in
  let sl := slave l in
  let rtc := leftmostbit (extracted_token_count sl) in
  let packet := set_RTC packet rtc in
  let tokens := if is_source_mode l then available_token_count m
                else available_token_count m - total_flits packet in
  let l' := mkLink (link_type l)
    (mkMaster rest (m_occupied m - total_flits packet) tokens (m_clk m) (next_packet_clk m))
    (mkSlave (extracted_token_count sl - rtc) (input_buffer sl) (s_occupied sl)) in
  let s := put_link s i l' in
  s ← (if is_source_mode l then Ret (host_receives s packet)
       else
         j ← other_side s i;
         o ← get_link s j;
         _ ← assert_ (total_flits packet <=? slave_space o);
         deliver s j packet);
  l'' ← get_link s i;
  Ret (put_link s i (set_next_clk l'' (flit_cycles (total_flits packet)))).

(** The flow-control branch: return extracted tokens, or a null packet. *)
Definition send_flow_control (s : links) (i : Z) (l : Link) : outcome links :=
  let sl := slave l in
  if 0 <? extracted_token_count sl then
    let rtc := leftmostbit (extracted_token_count sl) in
    let l' := mkLink (link_type l) (master l)
                (mkSlave (extracted_token_count sl - rtc) (input_buffer sl) (s_occupied sl)) in
    let s := put_link s i l' in
    let tret := tret_packet rtc in
    if is_source_mode l then
      let s := host_receives s tret in
      Ret (put_link s i (set_next_clk l' (flit_cycles (total_flits tret))))
    else
      j ← other_side s i;
      deliver s j tret
  else Ret (put_link s i (set_next_clk l (flit_cycles 1))).

(** [LinkMaster::send()] of link [i] *)
Definition master_send (s : links) (i : Z) : outcome links :=
  l ← get_link s i;
  match output_buffer (master l) with
  | packet :: rest =>
      if total_flits packet <=? available_token_count (master l) then send_data s i l packet rest
      else send_flow_control s i l
  | [] => send_flow_control s i l
  end.

(** [LinkMaster::tick()] *)
Definition master_tick (s : links) (i : Z) : outcome links :=
  l ← get_link s i;
  let m := master l in
  let l := mkLink (link_type l)
    (mkMaster (output_buffer m) (m_occupied m) (available_token_count m) (m_clk m + 1) (next_packet_clk m)) (slave l) in
  let s := put_link s i l in
  if next_packet_clk m <=? m_clk m + 1 then master_send s i else Ret s.
End Send.

(** [link->slave] gives up its head packet ([link_inject]). *)
Definition extract_input (s : links) (i : Z) : outcome (Packet * links) :=
  l ← get_link s i;
  let sl := slave l in
  match input_buffer sl with
  | [] => Stop Undefined
  | p :: rest =>
      Ret (p, put_link s i (mkLink (link_type l) (master l)
        (mkSlave (extracted_token_count sl + total_flits p) rest (s_occupied sl - total_flits p))))
  end.

(** [link->master.output_buffer.push_back(packet)] when it fits ([link_eject],
    [vault_inject]). *)
Definition push_output (s : links) (i : Z) (p : Packet) : outcome (bool * links) :=
  l ← get_link s i;
  let m := master l in
  if total_flits p <=? master_space l then
    Ret (true, put_link s i (mkLink (link_type l)
      (mkMaster (output_buffer m ++ [p]) (m_occupied m + total_flits p) (available_token_count m)
         (m_clk m) (next_packet_clk m)) (slave l)))
  else Ret (false, s).

(** [if (packet.total_flits <= link->slave.available_space()) link->slave.receive(packet)]
    of the host's [Memory::send]. *)
Definition host_send (s : links) (i : Z) (p : Packet) : outcome (bool * links) :=
  l ← get_link s i;
  if total_flits p <=? slave_space l then Ret (true, put_link s i (slave_receive l p))
  else Ret (false, s).

(** ** The invariant *)

Definition flits (ps : list Packet) : Z := foldr (fun p n => total_flits p + n) 0 ps.

Definition data_packet (p : Packet) : Prop := flow_control p = false /\ 1 <= total_flits p.

(** Occupancies count the flits of the buffers and stay within them. *)
Record link_ok (l : Link) : Prop := {
  ok_output : Forall data_packet (output_buffer (master l));
  ok_input : Forall data_packet (input_buffer (slave l));
  ok_m_occupied : m_occupied (master l) = flits (output_buffer (master l)) /\ m_occupied (master l) <= buffer_max;
  ok_s_occupied : s_occupied (slave l) = flits (input_buffer (slave l)) /\ s_occupied (slave l) <= buffer_max;
  ok_extracted : 0 <= extracted_token_count (slave l);
  ok_tokens : 0 <= available_token_count (master l);
  ok_source : link_type l = HOST_SOURCE_MODE -> available_token_count (master l) = buffer_max
}.

(** Flits a slave holds or has not yet given back. *)
Definition held (l : Link) : Z := s_occupied (slave l) + extracted_token_count (slave l).

Definition idle (l : Link) : Prop :=
  output_buffer (master l) = [] /\ input_buffer (slave l) = [] /\ extracted_token_count (slave l) = 0.

Record links_inv (s : links) : Prop := {
  inv_wires : forall i j, wires s !! i = Some j -> wires s !! j = Some i /\ i <> j;
  inv_wired : forall i j, wires s !! i = Some j ->
    exists l, lk s !! i = Some l /\ link_type l <> HOST_SOURCE_MODE;
  inv_ok : forall i l, lk s !! i = Some l -> link_ok l;
  inv_credit : forall i j li lj, wires s !! i = Some j -> lk s !! i = Some li -> lk s !! j = Some lj ->
    available_token_count (master li) + held lj = buffer_max;
  inv_idle : forall i l, lk s !! i = Some l -> link_type l <> HOST_SOURCE_MODE ->
    wires s !! i = None -> idle l
}.

(** Links that a packet may be put on: wired ones and those of the host. *)
Definition usable (s : links) (i : Z) : Prop :=
  exists l, lk s !! i = Some l /\ (link_type l = HOST_SOURCE_MODE \/ is_Some (wires s !! i)).

Lemma flits_app ps qs : flits (ps ++ qs) = flits ps + flits qs.
Proof. induction ps; simpl; lia. Qed.

Lemma flits_nonneg ps : Forall data_packet ps -> 0 <= flits ps.
Proof. induction 1 as [|p ps [_ Hp] _ IH]; simpl; lia. Qed.

Lemma leftmostbit_range v : 0 <= v -> 0 <= leftmostbit v <= v.
Proof.
  intros Hv. unfold leftmostbit. destruct (v =? 0) eqn:E; zb; [lia|].
  destruct (calc_log2 v) as [n|] eqn:En; [|lia].
  destruct (Z.lt_ge_cases v (2 ^ 32)) as [Hlt|Hge].
  - unfold calc_log2 in En. rewrite calc_log2_loop_spec in En by (simpl; lia).
    injection En as <-. rewrite Z.add_0_l, Z.shiftl_1_l.
    destruct (Z.log2_spec v ltac:(lia)). lia.
  - unfold calc_log2 in En. exfalso. revert En. generalize 0 as k.
    change (2 ^ 32) with (2 ^ Z.of_nat 32) in Hge. generalize dependent 32%nat. intros f Hge.
    revert v Hge Hv E. induction f as [|f IH]; intros v Hge Hv E k; [done|].
    rewrite Nat2Z.inj_succ, Z.pow_succ_r in Hge by lia. cbn [calc_log2_loop].
    rewrite Z.shiftr_div_pow2, Z.pow_1_r by lia.
    pose proof (Z.div_mod v 2 ltac:(lia)). pose proof (Z.mod_pos_bound v 2 ltac:(lia)).
    destruct (v / 2 =? 0) eqn:E2; zb; simpl.
    + pose proof (Z.pow_pos_nonneg 2 (Z.of_nat f)). lia.
    + apply IH; lia.
Qed.

Lemma leftmostbit_pow2 v : 0 < v < 2 ^ 31 -> leftmostbit v = 2 ^ Z.log2 v.
Proof.
  intros Hv. unfold leftmostbit. rewrite (proj2 (Z.eqb_neq v 0)) by lia.
  rewrite calc_log2_spec by lia. apply Z.shiftl_1_l.
Qed.

(** ** Updates that keep the invariant *)

Section Updates.
Context (s : links) (I : links_inv s).

(** One link changes; if it is wired, its tokens and what it holds do not. *)
Lemma inv_update1 i l l' h :
  lk s !! i = Some l -> link_ok l' -> link_type l' = link_type l ->
  (is_Some (wires s !! i) ->
     available_token_count (master l') = available_token_count (master l) /\ held l' = held l) ->
  (link_type l <> HOST_SOURCE_MODE -> wires s !! i = None -> idle l') ->
  links_inv (mkLinks (<[i := l']> (lk s)) (wires s) h).
Proof.
  intros Hi Hok Hty Hkeep Hidle. destruct I as [Iw Iwd Iok Icr Iid]. split; simpl.
  - done.
  - intros a b Hab. destruct (Iwd a b Hab) as (la & Ha & Hta).
    destruct (decide (a = i)) as [->|]; simplify_map_eq; eauto. exists l'. rewrite Hty. done.
  - intros a la [[<- <-]|[_ Ha]]%lookup_insert_Some; eauto.
  - intros a b la lb Hab Ha Hb. destruct (Iw a b Hab) as [Hba _].
    destruct (decide (a = i)) as [->|], (decide (b = i)) as [->|]; simplify_map_eq; eauto;
      destruct Hkeep as [Hav Hh]; eauto; rewrite ?Hav, ?Hh; eauto.
  - intros a la [[<- <-]|[_ Ha]]%lookup_insert_Some Hta Hw; [|eauto]. apply Hidle; congruence.
Qed.

(** Both ends of a wire change, each credit sum is kept. *)
Lemma inv_update2 i j li lj li' lj' h :
  wires s !! i = Some j -> lk s !! i = Some li -> lk s !! j = Some lj ->
  link_ok li' -> link_ok lj' -> link_type li' = link_type li -> link_type lj' = link_type lj ->
  available_token_count (master li') + held lj' = available_token_count (master li) + held lj ->
  available_token_count (master lj') + held li' = available_token_count (master lj) + held li ->
  links_inv (mkLinks (<[i := li']> (<[j := lj']> (lk s))) (wires s) h).
Proof.
  intros Hw Hi Hj Hoki Hokj Hti Htj Hij Hji. destruct I as [Iw Iwd Iok Icr Iid].
  destruct (Iw i j Hw) as [Hwj Hne]. split; simpl.
  - done.
  - intros a b Hab. destruct (Iwd a b Hab) as (la & Ha & Hta).
    destruct (decide (a = i)) as [->|]; [|destruct (decide (a = j)) as [->|]]; simplify_map_eq;
      eauto; eexists; (split; [done|congruence]).
  - intros a la [[<- <-]|[_ [[<- <-]|[_ Ha]]%lookup_insert_Some]]%lookup_insert_Some; eauto.
  - intros a b la lb Hab Ha Hb. destruct (Iw a b Hab) as [Hba Hab'].
    destruct (decide (a = i)) as [->|]; [|destruct (decide (a = j)) as [->|]].
    + simplify_map_eq. rewrite Hij. eauto.
    + simplify_map_eq. rewrite Hji. eauto.
    + destruct (decide (b = i)) as [->|]; [simplify_map_eq|].
      destruct (decide (b = j)) as [->|]; simplify_map_eq. eauto.
  - intros a la [[<- <-]|[_ [[<- <-]|[_ Ha]]%lookup_insert_Some]]%lookup_insert_Some Hta Hwa;
      [congruence..|eauto].
Qed.
End Updates.

(** Bookkeeping of one link. *)
Lemma link_ok_next l n : link_ok l -> link_ok (set_next_clk l n).
Proof. by destruct 1. Qed.

Lemma link_ok_receive l p :
  link_ok l -> (flow_control p = true \/ data_packet p) -> 0 <= value (tail_RTC p) ->
  (link_type l = HOST_SOURCE_MODE -> value (tail_RTC p) = 0) ->
  (flow_control p = false -> total_flits p <= slave_space l) ->
  link_ok (slave_receive l p).
Proof.
  intros [] Hp Hr Hs Hsp. unfold slave_receive. destruct (flow_control p) eqn:E.
  - split; simpl; try done; [lia|]. intros Ht. rewrite ok_source0, Hs by done. lia.
  - destruct Hp as [|Hp]; [done|]. specialize (Hsp eq_refl). unfold slave_space in Hsp.
    split; simpl; try done.
    + by apply Forall_app_2; [|constructor].
    + rewrite flits_app. simpl. lia.
    + lia.
    + intros Ht. rewrite ok_source0, Hs by done. lia.
Qed.

Lemma held_receive l p :
  held (slave_receive l p) = held l + (if flow_control p then 0 else total_flits p).
Proof. unfold held, slave_receive. destruct (flow_control p); simpl; lia. Qed.

Lemma tokens_receive l p :
  available_token_count (master (slave_receive l p)) = available_token_count (master l) + value (tail_RTC p).
Proof. unfold slave_receive. by destruct (flow_control p). Qed.

Lemma type_receive l p : link_type (slave_receive l p) = link_type l.
Proof. unfold slave_receive. by destruct (flow_control p). Qed.

(** The far end of a wired link. *)
Lemma wired_far s i j :
  links_inv s -> wires s !! i = Some j -> exists o, lk s !! j = Some o /\ link_type o <> HOST_SOURCE_MODE.
Proof. intros I Hw. destruct (inv_wires s I i j Hw) as [Hj _]. by apply (inv_wired s I j i). Qed.

Section Preservation.
Context (flit_cycles : Z -> Z).

(** The sender after a data packet of [f] flits has left with [rtc] tokens. *)
Lemma link_ok_sent l p rest rtc tokens :
  link_ok l -> output_buffer (master l) = p :: rest -> 0 <= rtc <= extracted_token_count (slave l) ->
  0 <= tokens -> (link_type l = HOST_SOURCE_MODE -> tokens = buffer_max) ->
  link_ok (mkLink (link_type l)
    (mkMaster rest (m_occupied (master l) - total_flits p) tokens (m_clk (master l)) (next_packet_clk (master l)))
    (mkSlave (extracted_token_count (slave l) - rtc) (input_buffer (slave l)) (s_occupied (slave l)))).
Proof.
  intros [] Ho Hr Ht Hs. rewrite Ho in *. inv ok_output0.
  match goal with H : data_packet _ |- _ => destruct H end.
  split; simpl in *; try done; lia.
Qed.

Lemma link_ok_returned l rtc :
  link_ok l -> 0 <= rtc <= extracted_token_count (slave l) ->
  link_ok (mkLink (link_type l) (master l)
    (mkSlave (extracted_token_count (slave l) - rtc) (input_buffer (slave l)) (s_occupied (slave l)))).
Proof. intros [] Hr. split; simpl; try done; lia. Qed.

Lemma send_data_inv s i l p rest :
  links_inv s -> lk s !! i = Some l -> output_buffer (master l) = p :: rest ->
  total_flits p <= available_token_count (master l) ->
  exists s', send_data flit_cycles s i l p rest = Ret s' /\ links_inv s' /\ wires s' = wires s.
Proof.
  intros I Hi Ho Htok. pose proof (inv_ok s I i l Hi) as Hok.
  pose proof (ok_extracted l Hok) as He. pose proof (leftmostbit_range _ He) as Hr.
  assert (Hp : data_packet p) by (pose proof (ok_output l Hok) as H; rewrite Ho in H; by inv H).
  unfold send_data, is_source_mode, get_link. simpl. case_bool_decide as Hsm.
  - simpl. rewrite lookup_insert_eq. simpl. eexists. split; [done|]. split; [|done].
    unfold put_link. simpl. rewrite insert_insert_eq. apply (inv_update1 s I i l); try done.
    + apply link_ok_next, link_ok_sent; try done; [apply (ok_tokens l Hok)|apply (ok_source l Hok)].
    + intros [j Hj]. destruct (inv_wired s I i j Hj) as (l0 & ? & ?). congruence.
  - destruct (wires s !! i) as [j|] eqn:Hw.
    2:{ destruct (inv_idle s I i l Hi Hsm Hw) as (Hout & _). congruence. }
    destruct (wired_far s i j I Hw) as (o & Hj & Hto).
    destruct (inv_wires s I i j Hw) as [_ Hne].
    pose proof (inv_ok s I j o Hj) as Hoko.
    pose proof (inv_credit s I i j l o Hw Hi Hj) as Hcr. unfold held in Hcr.
    pose proof (ok_extracted o Hoko). unfold other_side, deliver, get_link. simpl. rewrite Hw. simpl.
    rewrite lookup_insert_ne, Hj by done. simpl.
    assert (Hsp : total_flits p <= slave_space o) by (unfold slave_space; lia).
    rewrite (proj2 (Z.leb_le _ _) Hsp). simpl.
    rewrite lookup_insert_ne, lookup_insert_eq by done. simpl.
    eexists. split; [done|]. split; [|done]. unfold put_link. simpl.
    rewrite insert_overwrite by done. apply (inv_update2 s I i j l o); try done.
    + apply link_ok_next, link_ok_sent; try done. lia.
    + apply link_ok_receive; try done; [by right|simpl; lia].
    + apply type_receive.
    + rewrite held_receive. destruct Hp as [Hfc _]. simpl. rewrite Hfc. lia.
    + rewrite tokens_receive. unfold held. simpl. lia.
Qed.

Lemma send_flow_control_inv s i l :
  links_inv s -> lk s !! i = Some l ->
  exists s', send_flow_control flit_cycles s i l = Ret s' /\ links_inv s' /\ wires s' = wires s.
Proof.
  intros I Hi. pose proof (inv_ok s I i l Hi) as Hok.
  pose proof (ok_extracted l Hok) as He. pose proof (leftmostbit_range _ He) as Hr.
  unfold send_flow_control, is_source_mode. destruct (0 <? extracted_token_count (slave l)) eqn:E; zb.
  2:{ eexists. split; [done|]. split; [|done]. unfold put_link. apply (inv_update1 s I i l); try done.
      - by apply link_ok_next.
      - by apply (inv_idle s I i l). }
  case_bool_decide as Hsm.
  - eexists. split; [done|]. split; [|done]. unfold put_link. simpl. rewrite insert_insert_eq.
    apply (inv_update1 s I i l); try done.
    + by apply link_ok_next, link_ok_returned.
    + intros [j Hj]. destruct (inv_wired s I i j Hj) as (l0 & ? & ?). congruence.
  - destruct (wires s !! i) as [j|] eqn:Hw.
    2:{ destruct (inv_idle s I i l Hi Hsm Hw) as (_ & _ & ?). lia. }
    destruct (wired_far s i j I Hw) as (o & Hj & Hto). destruct (inv_wires s I i j Hw) as [_ Hne].
    unfold other_side, deliver, get_link. simpl. rewrite Hw. simpl. rewrite lookup_insert_ne, Hj by done.
    simpl. eexists. split; [done|]. split; [|done]. unfold put_link. simpl.
    rewrite insert_insert_ne by done. apply (inv_update2 s I i j l o); try done.
    + by apply link_ok_returned.
    + apply link_ok_receive; [by apply (inv_ok s I j)|by left|simpl; lia|done|done].
    + rewrite tokens_receive. unfold held. simpl. lia.
Qed.

Lemma master_send_inv s i l :
  links_inv s -> lk s !! i = Some l ->
  exists s', master_send flit_cycles s i = Ret s' /\ links_inv s' /\ wires s' = wires s.
Proof.
  intros I Hi. unfold master_send, get_link. rewrite Hi. simpl.
  destruct (output_buffer (master l)) as [|p rest] eqn:Ho; [by apply send_flow_control_inv|].
  destruct (total_flits p <=? _) eqn:E; zb; [by apply send_data_inv|by apply send_flow_control_inv].
Qed.

(** No assert of [send] can fail, and the invariant is kept. *)
Lemma master_tick_inv s i l :
  links_inv s -> lk s !! i = Some l ->
  exists s', master_tick flit_cycles s i = Ret s' /\ links_inv s' /\ wires s' = wires s.
Proof.
  intros I Hi. unfold master_tick, get_link. rewrite Hi. simpl.
  assert (I' : links_inv (put_link s i (mkLink (link_type l) (mkMaster (output_buffer (master l))
     (m_occupied (master l)) (available_token_count (master l)) (m_clk (master l) + 1)
     (next_packet_clk (master l))) (slave l)))).
  { apply (inv_update1 s I i l); try done.
    - by destruct (inv_ok s I i l Hi).
    - by apply (inv_idle s I i l). }
  destruct (next_packet_clk _ <=? _); [|by eauto].
  destruct (master_send_inv _ i _ I' (lookup_insert_eq _ _ _)) as (s' & Hs' & Is' & Hw). eauto.
Qed.

Lemma extract_input_inv s i p s' :
  links_inv s -> extract_input s i = Ret (p, s') -> links_inv s' /\ data_packet p.
Proof.
  intros I H. unfold extract_input, get_link in H. destruct (lk s !! i) as [l|] eqn:Hi; [|done].
  simpl in H. destruct (input_buffer (slave l)) as [|q rest] eqn:Hin; [done|]. simplify_eq.
  destruct (inv_ok s I i l Hi) as [? Hinp ? Hocc ? ? ?]. rewrite Hin in *. inv Hinp.
  match goal with H : data_packet p |- _ => destruct H as [Hf Ht] end. split; [|done].
  apply (inv_update1 s I i l); try done.
  - split; simpl in *; try done; lia.
  - intros _. unfold held. simpl. lia.
  - intros Hty Hw. destruct (inv_idle s I i l Hi Hty Hw) as (_ & Hnil & _). congruence.
Qed.

Lemma push_output_inv s i p b s' :
  links_inv s -> usable s i -> data_packet p -> push_output s i p = Ret (b, s') -> links_inv s'.
Proof.
  intros I (l & Hi & Huse) [Hf Ht] H. unfold push_output, get_link in H. rewrite Hi in H. simpl in H.
  destruct (total_flits p <=? master_space l) eqn:E; zb; simplify_eq; [|done].
  unfold master_space in E. apply (inv_update1 s I i l); try done.
  - destruct (inv_ok s I i l Hi). split; simpl; try done.
    + by apply Forall_app_2; [|repeat constructor].
    + rewrite flits_app. simpl. lia.
  - intros Hty Hw. rewrite Hw in Huse. destruct Huse as [?|[? ?]]; done.
Qed.

Lemma host_send_inv s i l p b s' :
  links_inv s -> lk s !! i = Some l -> link_type l = HOST_SOURCE_MODE -> data_packet p ->
  value (tail_RTC p) = 0 -> host_send s i p = Ret (b, s') -> links_inv s'.
Proof.
  intros I Hi Hty Hp Hr H. unfold host_send, get_link in H. rewrite Hi in H. simpl in H.
  destruct (total_flits p <=? slave_space l) eqn:E; zb; simplify_eq; [|done].
  apply (inv_update1 s I i l); try done.
  - apply link_ok_receive; try done; [by apply (inv_ok s I i)|by right|lia].
  - apply type_receive.
  - intros [j Hj]. destruct (inv_wired s I i j Hj) as (l0 & ? & ?). congruence.
Qed.
End Preservation.

(** ** Reachable states *)

Section Reachable.
Context (flit_cycles : Z -> Z).

Inductive link_step : links -> links -> Prop :=
  | step_tick s i l s' : lk s !! i = Some l -> master_tick flit_cycles s i = Ret s' -> link_step s s'
  | step_extract s i p s' : extract_input s i = Ret (p, s') -> link_step s s'
  | step_push s i p b s' : usable s i -> data_packet p -> push_output s i p = Ret (b, s') -> link_step s s'
  | step_host s i l p b s' : lk s !! i = Some l -> link_type l = HOST_SOURCE_MODE -> data_packet p ->
      value (tail_RTC p) = 0 -> host_send s i p = Ret (b, s') -> link_step s s'.

Lemma link_step_inv s s' : links_inv s -> link_step s s' -> links_inv s'.
Proof.
  intros I Hs. destruct Hs as [s i l s' Hi Ht|s i p s' He|s i p b s' Hu Hp Hpush|s i l p b s' Hi Hty Hp Hr Hh].
  - destruct (master_tick_inv flit_cycles s i l I Hi) as (s1 & Hs1 & I1 & _). congruence.
  - by destruct (extract_input_inv s i p s' I He).
  - by eapply push_output_inv.
  - by eapply host_send_inv.
Qed.
End Reachable.

(** The links of a machine: [types] gives each link its type, [ws] the wires. *)
Definition init_links (types : gmap Z LinkType) (ws : gmap Z Z) : links :=
  mkLinks (newLink <$> types) ws [].

(** Wires are symmetric and join memory links. *)
Definition wiring_ok (types : gmap Z LinkType) (ws : gmap Z Z) : Prop :=
  forall i j, ws !! i = Some j ->
    ws !! j = Some i /\ i <> j /\ exists ty, types !! i = Some ty /\ ty <> HOST_SOURCE_MODE.

Lemma init_links_inv types ws : wiring_ok types ws -> links_inv (init_links types ws).
Proof.
  intros W. split; simpl.
  - intros i j Hij. by destruct (W i j Hij) as (? & ? & _).
  - intros i j Hij. destruct (W i j Hij) as (_ & _ & ty & Ht & Hn).
    exists (newLink ty). by rewrite lookup_fmap, Ht.
  - intros i l. rewrite lookup_fmap. intros (ty & _ & ->)%fmap_Some. by split.
  - intros i j li lj _. rewrite !lookup_fmap. intros (? & _ & ->)%fmap_Some (? & _ & ->)%fmap_Some. done.
  - intros i l. rewrite lookup_fmap. intros (ty & _ & ->)%fmap_Some _ _. done.
Qed.

(** ** Returning tokens *)

(** [n] consecutive calls of [send] on link [i]. *)
Fixpoint send_n (flit_cycles : Z -> Z) (n : nat) (s : links) (i : Z) : outcome links :=
  match n with
  | O => Ret s
  | S n => s ← master_send flit_cycles s i; send_n flit_cycles n s i
  end.

(** A packet up to the tokens it carries. *)
Definition strip (p : Packet) : Packet := set_RTC p 0.

(** One [send] of link [i], wired to [j], returns the leading bit of what was extracted, in
    a data packet or on its own; the packets that leave arrive at the other side. *)
Definition returns (s : links) (i j : Z) (l o : Link) (s' : links) (l' o' : Link) (sent : list Packet) : Prop :=
  links_inv s' /\ wires s' = wires s /\ lk s' !! i = Some l' /\ lk s' !! j = Some o' /\
  s_occupied (slave l') = s_occupied (slave l) /\
  output_buffer (master l) = sent ++ output_buffer (master l') /\
  strip <$> input_buffer (slave o') = (strip <$> input_buffer (slave o)) ++ (strip <$> sent).

Lemma flow_control_returns fc s i j l o :
  links_inv s -> wires s !! i = Some j -> lk s !! i = Some l -> lk s !! j = Some o ->
  exists s' l' o', send_flow_control fc s i l = Ret s' /\ returns s i j l o s' l' o' [] /\
    extracted_token_count (slave l') = extracted_token_count (slave l) - leftmostbit (extracted_token_count (slave l)) /\
    available_token_count (master o') = available_token_count (master o) + leftmostbit (extracted_token_count (slave l)).
Proof.
  intros I Hw Hi Hj. destruct (inv_wires s I i j Hw) as [_ Hne].
  destruct (inv_wired s I i j Hw) as (l0 & Hl0 & Hsm). simplify_eq.
  destruct (send_flow_control_inv fc s i l I Hi) as (s' & Hs' & Is' & Hw'). exists s'. pose proof Hs' as Hrun.
  pose proof (ok_extracted l (inv_ok s I i l Hi)) as He.
  unfold send_flow_control, is_source_mode in Hs'. rewrite (bool_decide_false _ Hsm) in Hs'.
  destruct (0 <? extracted_token_count (slave l)) eqn:E; zb.
  - unfold other_side, deliver, get_link in Hs'. simpl in Hs'. rewrite Hw in Hs'. simpl in Hs'.
    rewrite lookup_insert_ne, Hj in Hs' by done. injection Hs' as <-. do 2 eexists. split; [exact Hrun|]. split.
    + split_and!; [exact Is'|done|simpl; by rewrite lookup_insert_ne, lookup_insert_eq|simpl; by rewrite lookup_insert_eq|done|done|by rewrite app_nil_r].
    + done.
  - assert (Hz : extracted_token_count (slave l) = 0) by lia. injection Hs' as <-. do 2 eexists. split; [exact Hrun|]. split.
    + split_and!; [exact Is'|done|simpl; by rewrite lookup_insert_eq|simpl; by rewrite lookup_insert_ne|done|done|by rewrite app_nil_r].
    + rewrite Hz. change (leftmostbit 0) with 0. split; simpl; lia.
Qed.

Lemma data_returns fc s i j l o p rest :
  links_inv s -> wires s !! i = Some j -> lk s !! i = Some l -> lk s !! j = Some o ->
  output_buffer (master l) = p :: rest -> total_flits p <= available_token_count (master l) ->
  exists s' l' o', send_data fc s i l p rest = Ret s' /\ returns s i j l o s' l' o' [p] /\
    extracted_token_count (slave l') = extracted_token_count (slave l) - leftmostbit (extracted_token_count (slave l)) /\
    available_token_count (master o') = available_token_count (master o) + leftmostbit (extracted_token_count (slave l)).
Proof.
  intros I Hw Hi Hj Ho Htok. destruct (inv_wires s I i j Hw) as [_ Hne].
  destruct (inv_wired s I i j Hw) as (l0 & Hl0 & Hsm). simplify_eq.
  assert (Hp : data_packet p) by (pose proof (ok_output l (inv_ok s I i l Hi)) as H; rewrite Ho in H; by inv H).
  destruct (send_data_inv fc s i l p rest I Hi Ho Htok) as (s' & Hs' & Is' & Hw'). exists s'. pose proof Hs' as Hrun.
  unfold send_data, is_source_mode in Hs'. rewrite (bool_decide_false _ Hsm) in Hs'. unfold other_side, deliver, get_link in Hs'.
  simpl in Hs'. rewrite Hw in Hs'. simpl in Hs'. rewrite lookup_insert_ne, Hj in Hs' by done. simpl in Hs'.
  apply bind_ret_inv in Hs' as (s1 & Hs1 & Hs'). apply bind_ret_inv in Hs1 as ([] & _ & [= <-]). simpl in Hs'.
  rewrite lookup_insert_ne, lookup_insert_eq in Hs' by done. injection Hs' as <-.
  do 2 eexists. split; [exact Hrun|]. split.
  - split_and!; [exact Is'|done|simpl; by rewrite lookup_insert_eq|simpl; by rewrite lookup_insert_ne, lookup_insert_eq by done|done|done|].
    unfold slave_receive. simpl. rewrite (proj1 Hp). simpl. by rewrite fmap_app.
  - split; [done|]. apply tokens_receive.
Qed.

Lemma send_returns fc s i j l o :
  links_inv s -> wires s !! i = Some j -> lk s !! i = Some l -> lk s !! j = Some o ->
  exists s' l' o' sent, master_send fc s i = Ret s' /\ returns s i j l o s' l' o' sent /\
    extracted_token_count (slave l') = extracted_token_count (slave l) - leftmostbit (extracted_token_count (slave l)) /\
    available_token_count (master o') = available_token_count (master o) + leftmostbit (extracted_token_count (slave l)).
Proof.
  intros I Hw Hi Hj. unfold master_send, get_link. rewrite Hi. cbn [mbind outcome_bind].
  pose proof (flow_control_returns fc s i j l o I Hw Hi Hj) as (s1 & l1 & o1 & H1).
  destruct (output_buffer (master l)) as [|p rest] eqn:Ho; [by exists s1, l1, o1, []|].
  destruct (total_flits p <=? available_token_count (master l)) eqn:E; [|by exists s1, l1, o1, []]. zb.
  destruct (data_returns fc s i j l o p rest I Hw Hi Hj Ho E) as (s2 & l2 & o2 & H2). by exists s2, l2, o2, [p].
Qed.

Lemma sub_leading_bit v n : 0 <= n <= 30 -> 0 <= v < 2 ^ (n + 1) -> 0 <= v - leftmostbit v < 2 ^ n.
Proof.
  intros Hn Hv. destruct (Z.eq_dec v 0) as [->|Hne].
  { change (leftmostbit 0) with 0. pose proof (Z.pow_pos_nonneg 2 n). lia. }
  assert (2 ^ (n + 1) <= 2 ^ 31) by (apply Z.pow_le_mono_r; lia).
  rewrite leftmostbit_pow2 by lia. destruct (Z.log2_spec v ltac:(lia)) as [Hlo Hhi].
  rewrite Z.pow_succ_r in Hhi by apply Z.log2_nonneg.
  assert (Z.log2 v < n + 1) by (apply Z.log2_lt_pow2; lia).
  pose proof (Z.pow_le_mono_r 2 (Z.log2 v) n). lia.
Qed.

Lemma send_n_returns fc n s i j l o :
  links_inv s -> wires s !! i = Some j -> lk s !! i = Some l -> lk s !! j = Some o ->
  (n <= 31)%nat -> extracted_token_count (slave l) < 2 ^ Z.of_nat n ->
  exists s' l' o' sent, send_n fc n s i = Ret s' /\ returns s i j l o s' l' o' sent /\
    extracted_token_count (slave l') = 0 /\
    available_token_count (master o') = available_token_count (master o) + extracted_token_count (slave l).
Proof.
  revert s l o. induction n as [|n IH]; intros s l o I Hw Hi Hj Hn He.
  { pose proof (ok_extracted l (inv_ok s I i l Hi)). simpl in He. exists s, l, o, []. unfold returns. rewrite app_nil_r.
    split_and!; try done; lia. }
  pose proof (ok_extracted l (inv_ok s I i l Hi)).
  destruct (send_returns fc s i j l o I Hw Hi Hj) as (s1 & l1 & o1 & sent1 & Hs1 & (I1 & Hw1 & Hi1 & Hj1 & Hocc1 & Ho1 & Hin1) & He1 & Ha1).
  rewrite Nat2Z.inj_succ in He.
  pose proof (sub_leading_bit (extracted_token_count (slave l)) (Z.of_nat n) ltac:(lia) ltac:(unfold Z.succ in He; lia)).
  destruct (IH s1 l1 o1) as (s' & l' & o' & sent2 & Hs' & (I2 & Hw2 & Hi2 & Hj2 & Hocc2 & Ho2 & Hin2) & He' & Ha');
    [done|by rewrite Hw1|done|done|lia|lia|].
  exists s', l', o', (sent1 ++ sent2). cbn [send_n]. rewrite Hs1. split; [done|]. split; [|split; [done|lia]].
  split_and!; [done|congruence|done|done|congruence|by rewrite Ho1, Ho2, app_assoc|by rewrite Hin2, Hin1, fmap_app, app_assoc].
Qed.

(** ** Properties *)

(** C7: In every state that the links of a machine can reach, by ticks of
    masters, extractions by the switch, packets appended to output buffers and
    packets of the host: for every wire, the tokens of the master, the flits in
    the far slave's buffer and the flits it extracted but did not return add up
    to the buffer size; no buffer exceeds it and the occupancy counters count
    the flits of the buffers; and no tick can fail an assert of [send]. *)
Theorem link_credits_conserved flit_cycles types ws s :
  wiring_ok types ws -> rtc (link_step flit_cycles) (init_links types ws) s ->
  (forall i j li lj, wires s !! i = Some j -> lk s !! i = Some li -> lk s !! j = Some lj ->
     available_token_count (master li) + s_occupied (slave lj) + extracted_token_count (slave lj)
       = buffer_max) /\
  (forall i l, lk s !! i = Some l ->
     m_occupied (master l) = flits (output_buffer (master l)) /\ 0 <= m_occupied (master l) <= buffer_max /\
     s_occupied (slave l) = flits (input_buffer (slave l)) /\ 0 <= s_occupied (slave l) <= buffer_max /\
     exists s', master_tick flit_cycles s i = Ret s').
Proof.
  intros W Hr. assert (I : links_inv s).
  { eapply rtc_invariant; [|exact Hr|by apply init_links_inv]. intros; by eapply link_step_inv. }
  split.
  - intros i j li lj Hw Hi Hj. pose proof (inv_credit s I i j li lj Hw Hi Hj). unfold held in *. lia.
  - intros i l Hi. destruct (inv_ok s I i l Hi) as [Hout Hin [Hm1 Hm2] [Hs1 Hs2] _ _ _].
    pose proof (flits_nonneg _ Hout). pose proof (flits_nonneg _ Hin).
    destruct (master_tick_inv flit_cycles s i l I Hi) as (s' & Hs' & _). split_and!; try done; [lia|lia|eauto].
Qed.

(** Two stacks joined by links 1 and 4, the host on link 0. *)
Definition demo_types : gmap Z LinkType := {[ 0 := HOST_SOURCE_MODE; 1 := HOST; 4 := HOST ]}.
Definition demo_wires : gmap Z Z := {[ 1 := 4; 4 := 1 ]}.
Definition demo_packet : Packet := request_packet 1 0x40 0 5 0 WR64 (cpu_request 0x40 WRITE 0).

(** A packet put on link 1, sent, and extracted at link 4. *)
Definition demo_run : outcome links :=
  let s := init_links demo_types demo_wires in
  '(_, s) ← push_output s 1 demo_packet;
  s ← master_tick (fun n => n) s 1;
  '(_, s) ← extract_input s 4;
  Ret s.

Definition demo_state : links :=
  match demo_run with Ret s => s | Stop _ => init_links demo_types demo_wires end.

Lemma demo_wiring_ok : wiring_ok demo_types demo_wires.
Proof.
  intros i j H. unfold demo_wires in H. apply lookup_insert_Some in H as [[<- <-]|[_ H]].
  - split; [reflexivity|]. split; [done|]. by exists HOST.
  - apply lookup_singleton_Some in H as [<- <-].
    split; [reflexivity|]. split; [done|]. by exists HOST.
Qed.

Lemma demo_reachable : rtc (link_step (fun n => n)) (init_links demo_types demo_wires) demo_state.
Proof.
  eapply rtc_l; [eapply (step_push _ _ 1 demo_packet); [|by repeat split|reflexivity]|].
  { exists (newLink HOST). split; [reflexivity|right; by exists 4]. }
  eapply rtc_l; [eapply (step_tick _ _ 1); vm_compute; reflexivity|].
  eapply rtc_l; [eapply (step_extract _ _ 4); vm_compute; reflexivity|].
  vm_compute. apply rtc_refl.
Qed.

Lemma link_credits_conserved_witness :
  (forall i j li lj, wires demo_state !! i = Some j -> lk demo_state !! i = Some li ->
     lk demo_state !! j = Some lj ->
     available_token_count (master li) + s_occupied (slave lj) + extracted_token_count (slave lj)
       = buffer_max) /\
  (forall i l, lk demo_state !! i = Some l ->
     m_occupied (master l) = flits (output_buffer (master l)) /\ 0 <= m_occupied (master l) <= buffer_max /\
     s_occupied (slave l) = flits (input_buffer (slave l)) /\ 0 <= s_occupied (slave l) <= buffer_max /\
     exists s', master_tick (fun n => n) demo_state i = Ret s').
Proof.
  exact (link_credits_conserved (fun n => n) demo_types demo_wires demo_state demo_wiring_ok demo_reachable).
Defined.

(** C36: Tokens are not lost: six calls of [send] on a wired link of a reachable state give back, in powers of
    two, every flit its slave has extracted, whether the link sends data packets that carry the tokens,
    has nothing to send, or is blocked because it has no tokens itself; the master at the other side
    then holds all the tokens but those of the flits still buffered.  The data packets that left are a
    prefix of the output buffer and arrive in order at the other side, changed only in the tokens they
    carry. *)
Theorem tokens_returned flit_cycles types ws s i j l o :
  wiring_ok types ws -> rtc (link_step flit_cycles) (init_links types ws) s ->
  wires s !! i = Some j -> lk s !! i = Some l -> lk s !! j = Some o ->
  exists s' l' o' sent, send_n flit_cycles 6 s i = Ret s' /\ lk s' !! i = Some l' /\ lk s' !! j = Some o' /\
    extracted_token_count (slave l') = 0 /\
    available_token_count (master o') = buffer_max - s_occupied (slave l') /\
    output_buffer (master l) = sent ++ output_buffer (master l') /\
    strip <$> input_buffer (slave o') = (strip <$> input_buffer (slave o)) ++ (strip <$> sent).
Proof.
  intros W Hr Hw Hi Hj. assert (I : links_inv s).
  { eapply rtc_invariant; [|exact Hr|by apply init_links_inv]. intros; by eapply link_step_inv. }
  destruct (inv_wires s I i j Hw) as [Hwj _].
  pose proof (inv_credit s I j i o l Hwj Hj Hi) as Hc. unfold held in Hc.
  destruct (inv_ok s I i l Hi) as [_ Hin _ [Hs1 _] _ _ _]. pose proof (flits_nonneg _ Hin).
  pose proof (ok_tokens o (inv_ok s I j o Hj)). unfold buffer_max in *.
  destruct (send_n_returns flit_cycles 6 s i j l o) as (s' & l' & o' & sent & Hs' & (_ & _ & Hi' & Hj' & Hocc & Ho & Hin') & He & Ha);
    try done; [lia|simpl; lia|].
  exists s', l', o', sent. rewrite Hocc, Ha. split_and!; try done. lia.
Qed.

(** The link that received the packet sends one of its own: the five tokens go back with it and
    with the next flow-control packet. *)
Definition demo_reply : links := match push_output demo_state 4 demo_packet with Ret (_, s) => s | Stop _ => demo_state end.

Lemma tokens_returned_witness :
  (exists l, lk demo_reply !! 4 = Some l /\ extracted_token_count (slave l) = 5 /\ length (output_buffer (master l)) = 1%nat) /\
  exists s' l' o' sent, send_n (fun n => n) 6 demo_reply 4 = Ret s' /\ lk s' !! 4 = Some l' /\ lk s' !! 1 = Some o' /\
    extracted_token_count (slave l') = 0 /\ available_token_count (master o') = buffer_max - s_occupied (slave l') /\
    [demo_packet] = sent ++ output_buffer (master l').
Proof.
  split; [eexists; split; [vm_compute; reflexivity|split; reflexivity]|].
  destruct (tokens_returned (fun n => n) demo_types demo_wires demo_reply 4 1 (ret_or (newLink HOST) (get_link demo_reply 4)) (ret_or (newLink HOST) (get_link demo_reply 1)))
    as (s' & l' & o' & sent & H1 & H2 & H3 & H4 & H5 & H6 & _).
  - exact demo_wiring_ok.
  - eapply rtc_r; [exact demo_reachable|]. eapply (step_push _ _ 4 demo_packet true); [|by repeat split|vm_compute; reflexivity].
    eexists. split; [vm_compute; reflexivity|right; by exists 1].
  - vm_compute. reflexivity.
  - vm_compute. reflexivity.
  - vm_compute. reflexivity.
  - exists s', l', o', sent. exact (conj H1 (conj H2 (conj H3 (conj H4 (conj H5 H6))))).
Defined.
