(* ===== verification/Vault.v ===== *)
(** * Vault controllers: queues and responses

    [Controller<HMC>] of [src/src/ramulator/HMC_Controller.h]: accepting packets
    ([receive], [can_receive], [receive_remote_request], [enqueue]), serving
    completed reads and the write-mode decision of [tick], and the retirement of
    a request whose last command was issued, with [form_response_packet].

    Which request is scheduled and when its commands may be issued is decided by
    the scheduler and the device, which Tick.v composes with this file;
    [retire] takes the position of the request whose last command was issued. *)

From S2P Require Import Prelude Bits Network Topology AddrMap Packet.

(** ** State *)

Definition queue_max : Z := 32.

Record Controller : Type := mkController {
  c_id : Z;                          (* channel->id *)
  c_clk : Z;
  readq : list Request;
  writeq : list Request;
  otherq : list Request;
  pending : list Request;
  write_mode : bool;
  incoming : gmap Z Packet;          (* incoming_packets_buffer *)
  response_buffer : list Packet;     (* response_packets_buffer *)
  pim_remote : list Packet;          (* pim_remote_packets_buffer *)
  next_response_packet : bool;
  to_pu : list Request               (* requests handed to send_to_pu *)
}.

(** Parameters fixed by the configuration. *)
Record vault_config : Type := mkVaultConfig {
  vc_burst_count : Z;
  vc_payload_flits : Z;
  vc_max_pim_remote : Z;
  vc_read_latency : Z;
  vc_nolat : IdealMemNetWorkType
}.

Definition newController (id : Z) : Controller :=
  mkController id 0 [] [] [] [] false ∅ [] [] true [].

Definition set_queues (c : Controller) (r w o p : list Request) : Controller :=
  mkController (c_id c) (c_clk c) r w o p (write_mode c) (incoming c) (response_buffer c)
    (pim_remote c) (next_response_packet c) (to_pu c).
Definition set_incoming (c : Controller) (m : gmap Z Packet) : Controller :=
  mkController (c_id c) (c_clk c) (readq c) (writeq c) (otherq c) (pending c) (write_mode c) m
    (response_buffer c) (pim_remote c) (next_response_packet c) (to_pu c).
Definition set_buffers (c : Controller) (resp pim : list Packet) (nxt : bool) : Controller :=
  mkController (c_id c) (c_clk c) (readq c) (writeq c) (otherq c) (pending c) (write_mode c) (incoming c)
    resp pim nxt (to_pu c).
Definition give_to_pu (c : Controller) (r : Request) : Controller :=
  mkController (c_id c) (c_clk c) (readq c) (writeq c) (otherq c) (pending c) (write_mode c) (incoming c)
    (response_buffer c) (pim_remote c) (next_response_packet c) (to_pu c ++ [r]).
Definition set_clk_mode (c : Controller) (clk : Z) (wm : bool) : Controller :=
  mkController (c_id c) clk (readq c) (writeq c) (otherq c) (pending c) wm (incoming c)
    (response_buffer c) (pim_remote c) (next_response_packet c) (to_pu c).

(** ** Accepting requests *)

Definition get_queue (c : Controller) (t : ReqType) : list Request :=
  match t with READ => readq c | WRITE => writeq c | _ => otherq c end.

Definition queue_full (q : list Request) : bool := Z.of_nat (length q) =? queue_max.

(** [enqueue(req)]: the request comes back with its arrival time, and with its
    departure time when a queued write of the same address answers it. *)
Definition enqueue (c : Controller) (req : Request) : option (Request * Controller) :=
  if queue_full (get_queue c (req_type req)) then None
  else
    let req := set_arrive (c_clk c) req in
    Some
      match req_type req with
      | READ =>
          if existsb (fun w => req_addr req =? req_addr w) (writeq c) then
            let req := set_depart (c_clk c + 1) req in
            (req, set_queues c (readq c) (writeq c) (otherq c) (pending c ++ [req]))
          else (req, set_queues c (readq c ++ [req]) (writeq c) (otherq c) (pending c))
      | WRITE => (req, set_queues c (readq c) (writeq c ++ [req]) (otherq c) (pending c))
      | _ => (req, set_queues c (readq c) (writeq c) (otherq c ++ [req]) (pending c))
      end.

Definition packet_req (p : Packet) : outcome Request :=
  match pk_req p with Some r => Ret r | None => Stop Undefined end.

(** [receive(packet)] *)
Definition receive (vc : vault_config) (c : Controller) (p : Packet) : outcome (bool * Controller) :=
  _ ← assert_ (bool_decide (pk_type p = REQUEST));
  r ← packet_req p;
  let r := set_burst_count (vc_burst_count vc) r in
  match enqueue c r with
  | Some (r, c) => Ret (true, set_incoming c (<[reqid r := set_req p r]> (incoming c)))
  | None => Ret (false, c)
  end.

Definition can_receive (c : Controller) (p : Packet) : outcome bool :=
  r ← packet_req p; Ret (negb (queue_full (get_queue c (req_type r)))).

Definition receive_remote_request (vc : vault_config) (c : Controller) (p : Packet) : outcome (bool * Controller) :=
  _ ← assert_ (bool_decide (pk_type p = REQUEST));
  if Z.of_nat (length (pim_remote c)) <? vc_max_pim_remote vc then
    Ret (true, set_buffers c (response_buffer c) (pim_remote c ++ [p]) (next_response_packet c))
  else Ret (false, c).

Definition receive_pim_response (c : Controller) (p : Packet) : outcome Controller :=
  _ ← assert_ (bool_decide (pk_type p = RESPONSE));
  r ← packet_req p;
  Ret (give_to_pu c r).

(** ** Responses *)

(** [form_response_packet(req)] *)
Definition form_response_packet (vc : vault_config) (c : Controller) (req : Request) : outcome (Packet * Controller) :=
  match incoming c !! reqid req with
  | None => Stop AssertFailed
  | Some q =>
      cub ← field (pk_CUB q);
      tag ← field (pk_TAG q);
      slid ← field (tail_SLID q);
      cmd ← match pk_CMD q with Some cm => Ret cm | None => Stop Undefined end;
      let lng := if bool_decide (req_type req = WRITE) then 1 else 1 + vc_payload_flits vc in
      let p := response_packet cub tag lng slid cmd (Some req) in
      _ ← assert_ (valid (mkField cub pkt_cub_bits));
      _ ← assert_ (valid (mkField tag pkt_tag_bits));
      _ ← assert_ (valid (mkField slid pkt_slid_bits));
      Ret (p, set_incoming c (delete (reqid req) (incoming c)))
  end.

(** What step 1 of [tick] does with a served read: back to the local PIM core, or
    into the response buffer. *)
Definition complete (vc : vault_config) (c : Controller) (req : Request) : outcome Controller :=
  let respond c :=
    '(p, c) ← form_response_packet vc c req;
    Ret (set_buffers c (response_buffer c ++ [p]) (pim_remote c) (next_response_packet c)) in
  if is_pim_inst req then
    _ ← assert_ (match incoming c !! reqid req with Some _ => true | None => false end);
    if (ideal_memnet req && bool_decide (vc_nolat vc = IDEAL_MEM_NETWORK_LOCALVAULT))
       || (pu_id req =? c_id c) then
      Ret (give_to_pu (set_incoming c (delete (reqid req) (incoming c))) req)
    else respond c
  else respond c.

(** What the end of [tick] does with a finished write. *)
Definition complete_write (vc : vault_config) (c : Controller) (req : Request) : outcome Controller :=
  let respond c :=
    '(p, c) ← form_response_packet vc c req;
    Ret (set_buffers c (response_buffer c ++ [p]) (pim_remote c) (next_response_packet c)) in
  if is_pim_inst req then
    _ ← assert_ (match incoming c !! reqid req with Some _ => true | None => false end);
    if (ideal_memnet req && bool_decide (vc_nolat vc = IDEAL_MEM_NETWORK_LOCALVAULT))
       || (pu_id req =? c_id c) then
      Ret (give_to_pu (set_incoming c (delete (reqid req) (incoming c))) req)
    else respond c
  else respond c.

(** Step 1 of [tick]: serve the oldest completed read.  A PIM request that is
    neither a read nor a write stays in [pending]. *)
Definition serve_pending (vc : vault_config) (c : Controller) : outcome Controller :=
  match pending c with
  | req :: rest =>
      if depart req <=? c_clk c then
        if is_pim_inst req && negb (bool_decide (req_type req = READ) || bool_decide (req_type req = WRITE))
        then Ret c
        else
          c ← complete vc c req;
          Ret (set_queues c (readq c) (writeq c) (otherq c) rest)
      else Ret c
  | [] => Ret c
  end.

(** Step 3 of [tick]: [int(0.8 * 32)] is 25 and [int(0.2 * 32)] is 6. *)
Definition next_write_mode (c : Controller) : bool :=
  let w := Z.of_nat (length (writeq c)) in
  let r := Z.of_nat (length (readq c)) in
  if negb (write_mode c) then (25 <=? w) || (r =? 0)
  else negb ((w <=? 6) && negb (r =? 0)).

(** The queue that step 4 of [tick] schedules from. *)
Definition scheduled_queue (c : Controller) : list Request :=
  match otherq c with
  | _ :: _ => otherq c
  | [] => if write_mode c then writeq c else readq c
  end.

(** The end of [tick]: the last command of the request at position [k] of its
    queue was issued. *)
Definition retire (vc : vault_config) (c : Controller) (t : ReqType) (k : nat) : outcome Controller :=
  match get_queue c t !! k with
  | None => Stop Undefined
  | Some req =>
      let q := get_queue c t in
      let put c q' := match t with
        | READ => set_queues c q' (writeq c) (otherq c) (pending c)
        | WRITE => set_queues c (readq c) q' (otherq c) (pending c)
        | _ => set_queues c (readq c) (writeq c) q' (pending c)
        end in
      match t with
      | READ =>
          let req := set_burst_count (burst_count req - 1) req in
          if burst_count req =? 0 then
            let req := set_depart (c_clk c + vc_read_latency vc) req in
            Ret (put (set_queues c (readq c) (writeq c) (otherq c) (pending c ++ [req])) (delete k q))
          else Ret (put c (<[k := req]> q))
      | WRITE =>
          let req := set_burst_count (burst_count req - 1) req in
          if burst_count req =? 0 then
            let req := set_depart (c_clk c) req in
            c ← complete_write vc c req;
            Ret (put c (delete k q))
          else Ret (put c (<[k := req]> q))
      | _ => if burst_count req =? 0 then Ret (put c (delete k q)) else Ret c
      end
  end.

(** ** The invariant: every live request has its packet *)

(** Ids of the requests that still owe a completion. *)
Definition live_ids (c : Controller) : list Z := reqid <$> readq c ++ writeq c ++ pending c.

Record packet_wf (p : Packet) : Prop := {
  pw_type : pk_type p = REQUEST;
  pw_cub : exists f, pk_CUB p = Some f /\ value f < 2 ^ pkt_cub_bits;
  pw_tag : exists f, pk_TAG p = Some f /\ value f < 2 ^ pkt_tag_bits;
  pw_slid : exists f, tail_SLID p = Some f /\ value f < 2 ^ pkt_slid_bits;
  pw_cmd : is_Some (pk_CMD p);
  pw_req : is_Some (pk_req p)
}.

Record vault_inv (c : Controller) : Prop := {
  vi_nodup : NoDup (live_ids c);
  vi_packets : forall k, k ∈ live_ids c -> exists p, incoming c !! k = Some p /\ packet_wf p;
  vi_only : forall k, is_Some (incoming c !! k) -> k ∈ live_ids c;
  vi_reads : Forall (fun r => req_type r = READ) (readq c ++ pending c);
  vi_writes : Forall (fun r => req_type r = WRITE) (writeq c);
  vi_bounds : Z.of_nat (length (readq c)) <= queue_max /\ Z.of_nat (length (writeq c)) <= queue_max
}.

Lemma newController_inv id : vault_inv (newController id).
Proof.
  split; simpl; try done; [constructor|intros k Hk; by apply elem_of_nil in Hk|].
  intros k [? H]. by rewrite lookup_empty in H.
Qed.

(** A request up to the fields that the vault writes: its arrival, its departure and its
    bursts. *)
Definition ident (r : Request) : Request := set_burst_count 0 (set_depart 0 (set_arrive 0 r)).

(** What must agree between a request packet and its answer: the request, and the
    cube, the tag, the link and the command of the header. *)
Record ticket : Type := mkTicket {
  tk_req : option Request;
  tk_cub : option Z;
  tk_tag : option Z;
  tk_slid : option Z;
  tk_cmd : option Command
}.

Definition request_ticket (p : Packet) : ticket :=
  mkTicket (ident <$> pk_req p) (value <$> pk_CUB p) (value <$> pk_TAG p) (value <$> tail_SLID p) (pk_CMD p).
Definition response_ticket (p : Packet) : ticket :=
  mkTicket (ident <$> pk_req p) (value <$> pk_CUB p) (value <$> pk_TAG p) (value <$> pk_SLID p) (pk_CMD p).

(** The request is answered to the PIM core of the vault [id] itself. *)
Definition goes_local (vc : vault_config) (id : Z) (r : Request) : bool :=
  is_pim_inst r && ((ideal_memnet r && bool_decide (vc_nolat vc = IDEAL_MEM_NETWORK_LOCALVAULT)) || (pu_id r =? id)).

(** A packet that answers a request of another place, of the length its type asks for. *)
Definition is_answer (vc : vault_config) (id : Z) (p : Packet) : Prop :=
  pk_type p = RESPONSE /\ flow_control p = false /\ exists r, pk_req p = Some r /\ goes_local vc id r = false /\
    total_flits p = if bool_decide (req_type r = WRITE) then 1 else 1 + vc_payload_flits vc.

(** A completed request leaves the controller with its packet. *)
Record completed (vc : vault_config) (c : Controller) (r : Request) (c' : Controller) : Prop := {
  cp_queues : readq c' = readq c /\ writeq c' = writeq c /\ otherq c' = otherq c /\ pending c' = pending c;
  cp_incoming : incoming c' = delete (reqid r) (incoming c);
  cp_id : c_id c' = c_id c;
  cp_result :
    if goes_local vc (c_id c) r then response_buffer c' = response_buffer c /\ to_pu c' = to_pu c ++ [r]
    else to_pu c' = to_pu c /\ exists q resp, incoming c !! reqid r = Some q /\
       response_buffer c' = response_buffer c ++ [resp] /\ is_answer vc (c_id c) resp /\
       response_ticket resp = mkTicket (Some (ident r)) (value <$> pk_CUB q) (value <$> pk_TAG q) (value <$> tail_SLID q) (pk_CMD q)
}.

Lemma respond_completed vc c r q :
  incoming c !! reqid r = Some q -> packet_wf q -> goes_local vc (c_id c) r = false ->
  exists c', ('(p, c) ← form_response_packet vc c r;
    Ret (set_buffers c (response_buffer c ++ [p]) (pim_remote c) (next_response_packet c))) = Ret c' /\
    completed vc c r c'.
Proof.
  intros Hq [Hty (fc & Hc & Hcv) (ft & Ht & Htv) (fs & Hs & Hsv) [cm Hcm] _] Hg.
  unfold form_response_packet. rewrite Hq, Hc, Ht, Hs, Hcm. simpl. unfold valid. simpl.
  rewrite !Z.shiftl_1_l. rewrite !(proj2 (Z.ltb_lt _ _)) by done. simpl.
  eexists. split; [done|]. split; simpl; [done|done|done|]. rewrite Hg. split; [done|].
  eexists _, _. split; [exact Hq|]. split; [done|]. split; [by repeat (split || eexists)|]. by rewrite Hc, Ht, Hs, Hcm.
Qed.

Lemma complete_completed vc c r q :
  incoming c !! reqid r = Some q -> packet_wf q ->
  exists c', complete vc c r = Ret c' /\ completed vc c r c'.
Proof.
  intros Hq W. unfold complete. destruct (is_pim_inst r) eqn:Hp; [|eapply respond_completed; [done|done|unfold goes_local; by rewrite Hp]].
  rewrite Hq. simpl. destruct (_ || _)%bool eqn:Hl; [|eapply respond_completed; [done|done|unfold goes_local; by rewrite Hp, Hl]].
  eexists. split; [done|]. split; simpl; try done. unfold goes_local. by rewrite Hp, Hl.
Qed.

Lemma complete_write_complete vc c r : complete_write vc c r = complete vc c r.
Proof. reflexivity. Qed.

(** ** Preservation, by what happens to the live ids *)

Lemma inv_same c c' :
  vault_inv c -> live_ids c' ≡ₚ live_ids c -> incoming c' = incoming c ->
  Forall (fun r => req_type r = READ) (readq c' ++ pending c') ->
  Forall (fun r => req_type r = WRITE) (writeq c') ->
  Z.of_nat (length (readq c')) <= queue_max /\ Z.of_nat (length (writeq c')) <= queue_max -> vault_inv c'.
Proof.
  intros [] Hp Hi Hr Hw Hb. split; try done.
  - by rewrite Hp.
  - intros k. rewrite Hp, Hi. apply vi_packets0.
  - intros k. rewrite Hp, Hi. apply vi_only0.
Qed.

Lemma inv_added c c' k p :
  vault_inv c -> live_ids c' ≡ₚ k :: live_ids c -> k ∉ live_ids c ->
  incoming c' = <[k := p]> (incoming c) -> packet_wf p ->
  Forall (fun r => req_type r = READ) (readq c' ++ pending c') ->
  Forall (fun r => req_type r = WRITE) (writeq c') ->
  Z.of_nat (length (readq c')) <= queue_max /\ Z.of_nat (length (writeq c')) <= queue_max -> vault_inv c'.
Proof.
  intros [] Hp Hk Hi Hw Hr Hwr Hb. split; try done.
  - rewrite Hp. by constructor.
  - intros j. rewrite Hp, Hi, elem_of_cons. intros [->|Hj].
    + exists p. by rewrite lookup_insert_eq.
    + rewrite lookup_insert_ne by congruence. by apply vi_packets0.
  - intros j. rewrite Hp, Hi, elem_of_cons. destruct (decide (j = k)) as [->|]; [by left|].
    rewrite lookup_insert_ne by done. right. by apply vi_only0.
Qed.

Lemma inv_removed c c' k :
  vault_inv c -> live_ids c ≡ₚ k :: live_ids c' -> incoming c' = delete k (incoming c) ->
  Forall (fun r => req_type r = READ) (readq c' ++ pending c') ->
  Forall (fun r => req_type r = WRITE) (writeq c') ->
  Z.of_nat (length (readq c')) <= queue_max /\ Z.of_nat (length (writeq c')) <= queue_max -> vault_inv c'.
Proof.
  intros [] Hp Hi Hr Hw Hb. rewrite Hp in vi_nodup0. inv vi_nodup0.
  split; try done.
  - intros j Hj. assert (j <> k) by congruence. rewrite Hi, lookup_delete_ne by done.
    apply vi_packets0. rewrite Hp. by constructor.
  - intros j [p Hj]. rewrite Hi in Hj. apply lookup_delete_Some in Hj as [Hne Hj].
    assert (Hin : j ∈ live_ids c) by eauto. rewrite Hp, elem_of_cons in Hin. by destruct Hin.
Qed.

Lemma live_ids_app c : live_ids c = (reqid <$> readq c) ++ (reqid <$> writeq c) ++ (reqid <$> pending c).
Proof. unfold live_ids. by rewrite !fmap_app. Qed.

(** Accepting a new read or write. *)
Lemma receive_inv vc c p r b c' :
  vault_inv c -> packet_wf p -> pk_req p = Some r -> reqid r ∉ live_ids c ->
  req_type r = READ \/ req_type r = WRITE ->
  receive vc c p = Ret (b, c') -> vault_inv c'.
Proof.
  intros I Hp Hr Hk Ht H. unfold receive in H. rewrite (pw_type p Hp) in H. simpl in H.
  unfold packet_req in H. rewrite Hr in H. simpl in H. unfold enqueue in H. simpl in H.
  destruct (queue_full _) eqn:Hf; [by simplify_eq|].
  unfold queue_full in Hf. zb. pose proof (vi_bounds c I) as [Hb1 Hb2].
  pose proof (vi_reads c I) as Hrd. rewrite Forall_app in Hrd. destruct Hrd as [Hrd Hpd].
  assert (Hwf : forall x, packet_wf (set_req p x)) by (intros x; by destruct Hp).
  destruct Ht as [Ht|Ht]; rewrite Ht in H, Hf; simpl in Hf.
  - destruct (existsb _ _); simplify_eq; (eapply (inv_added c _ (reqid r)); [done|..]);
      simpl; try done; try (by apply vi_writes); try lia.
    + rewrite !live_ids_app. simpl. rewrite fmap_app. simpl. solve_Permutation.
    + apply Forall_app_2; [done|]. apply Forall_app_2; [done|by repeat constructor].
    + rewrite !live_ids_app. simpl. rewrite fmap_app. simpl. solve_Permutation.
    + apply Forall_app_2; [|done]. apply Forall_app_2; [done|by repeat constructor].
    + rewrite length_app. simpl. lia.
  - simplify_eq. eapply (inv_added c _ (reqid r)); [done|..]; simpl; try done.
    + rewrite !live_ids_app. simpl. rewrite fmap_app. simpl. solve_Permutation.
    + apply I.
    + apply Forall_app_2; [by apply vi_writes|by repeat constructor].
    + rewrite length_app. simpl. lia.
Qed.

(** Serving completed reads never fails an assert. *)
Lemma serve_pending_inv vc c :
  vault_inv c -> exists c', serve_pending vc c = Ret c' /\ vault_inv c'.
Proof.
  intros I. unfold serve_pending. destruct (pending c) as [|r rest] eqn:Hp; [eauto|].
  destruct (depart r <=? c_clk c); [|eauto].
  pose proof (vi_reads c I) as Hrd. rewrite Hp, Forall_app, Forall_cons in Hrd.
  destruct Hrd as (Hrd & Hr & Hrest). rewrite Hr. simpl. rewrite andb_false_r.
  destruct (vi_packets c I (reqid r)) as (q & Hq & Hwf).
  { rewrite live_ids_app, Hp, !elem_of_app. right. right. simpl. by constructor. }
  destruct (complete_completed vc c r q Hq Hwf) as (c1 & -> & [(Er & Ew & Eo & Ep) Ei _ _]). simpl.
  eexists. split; [done|]. apply (inv_removed c _ (reqid r)); simpl; try done.
  - rewrite !live_ids_app. simpl. rewrite Er, Ew, Hp. simpl. solve_Permutation.
  - rewrite Er. by apply Forall_app_2.
  - rewrite Ew. by apply vi_writes.
  - rewrite Er, Ew. by apply vi_bounds.
Qed.

Lemma reqid_delete (l : list Request) k r :
  l !! k = Some r -> reqid <$> l ≡ₚ reqid r :: (reqid <$> delete k l).
Proof. intros Hk. by rewrite (delete_Permutation l k r Hk) at 1. Qed.

Lemma reqid_update (l : list Request) k r r' :
  l !! k = Some r -> reqid r' = reqid r -> reqid <$> <[k := r']> l = reqid <$> l.
Proof.
  intros Hk He. rewrite list_fmap_insert, He. apply list_insert_id.
  by rewrite list_lookup_fmap, Hk.
Qed.

(** Retiring a command of a queued read or write never fails an assert. *)
Lemma retire_inv vc c t k :
  vault_inv c -> t = READ \/ t = WRITE -> is_Some (get_queue c t !! k) ->
  exists c', retire vc c t k = Ret c' /\ vault_inv c'.
Proof.
  intros I Ht [r Hk]. unfold retire. rewrite Hk.
  pose proof (vi_reads c I) as Hrd. rewrite Forall_app in Hrd. destruct Hrd as [Hrd Hpd].
  pose proof (vi_writes c I) as Hwr. pose proof (vi_bounds c I) as [Hb1 Hb2].
  destruct Ht as [->| ->]; simpl in *.
  - pose proof (proj1 (Forall_lookup _ _) Hrd _ _ Hk) as Hty. simpl in Hty.
    destruct (burst_count r - 1 =? 0).
    + eexists. split; [done|]. apply (inv_same c); simpl; try done.
      * rewrite !live_ids_app. simpl. rewrite (reqid_delete (readq c) k r Hk), fmap_app.
        simpl. solve_Permutation.
      * apply Forall_app_2; [by apply Forall_delete|]. by apply Forall_app_2; [|repeat constructor].
      * rewrite length_delete by done. lia.
    + eexists. split; [done|]. apply (inv_same c); simpl; try done.
      * rewrite !live_ids_app. simpl. by rewrite (reqid_update _ _ r).
      * apply Forall_app_2; [by apply Forall_insert|done].
      * by rewrite length_insert.
  - pose proof (proj1 (Forall_lookup _ _) Hwr _ _ Hk) as Hty. simpl in Hty.
    destruct (burst_count r - 1 =? 0).
    + destruct (vi_packets c I (reqid r)) as (q & Hq & Hwf).
      { rewrite live_ids_app, !elem_of_app. right. left. apply list_elem_of_fmap.
        exists r. split; [done|]. by eapply list_elem_of_lookup_2. }
      destruct (complete_completed vc c (set_depart (c_clk c) (set_burst_count (burst_count r - 1) r)) q Hq Hwf)
        as (c1 & Hc1 & [(Er & Ew & Eo & Ep) Ei _ _]). rewrite complete_write_complete, Hc1. simpl.
      eexists. split; [done|]. apply (inv_removed c _ (reqid r)); simpl; try done.
      * rewrite !live_ids_app. simpl. rewrite Er, Ep, (reqid_delete (writeq c) k r Hk).
        simpl. solve_Permutation.
      * rewrite Er, Ep. apply I.
      * by apply Forall_delete.
      * rewrite Er, length_delete by done. lia.
    + eexists. split; [done|]. apply (inv_same c); simpl; try done.
      * rewrite !live_ids_app. simpl. by rewrite (reqid_update _ _ r).
      * apply I.
      * by apply Forall_insert.
      * by rewrite length_insert.
Qed.

(** ** Runs of a controller *)

Section Runs.
Context (vc : vault_config) (id : Z).

(** What a run has seen so far: the packets [receive] accepted, the responses of other
    vaults for the local PIM core, and the responses the switch has taken away.  New packets
    have an id that no request in the vault has. *)
Inductive ctl_run : Controller -> list Packet -> list Packet -> list Packet -> Prop :=
  | cr_start : ctl_run (newController id) [] [] []
  | cr_receive c acc got sent p r b c' : ctl_run c acc got sent ->
      packet_wf p -> pk_req p = Some r -> reqid r ∉ live_ids c -> req_type r = READ \/ req_type r = WRITE ->
      receive vc c p = Ret (b, c') -> ctl_run c' (if b : bool then p :: acc else acc) got sent
  | cr_remote c acc got sent p b c' : ctl_run c acc got sent -> receive_remote_request vc c p = Ret (b, c') -> ctl_run c' acc got sent
  | cr_response c acc got sent p c' : ctl_run c acc got sent -> receive_pim_response c p = Ret c' -> ctl_run c' acc (p :: got) sent
  | cr_inject c acc got sent p rest nxt : ctl_run c acc got sent -> response_buffer c = p :: rest ->
      ctl_run (set_buffers c rest (pim_remote c) nxt) acc got (sent ++ [p])
  | cr_inject_remote c acc got sent p rest nxt : ctl_run c acc got sent -> pim_remote c = p :: rest ->
      ctl_run (set_buffers c (response_buffer c) rest nxt) acc got sent
  | cr_clock c acc got sent wm : ctl_run c acc got sent -> wm = write_mode c \/ wm = next_write_mode c ->
      ctl_run (set_clk_mode c (c_clk c + 1) wm) acc got sent
  | cr_serve c acc got sent c' : ctl_run c acc got sent -> serve_pending vc c = Ret c' -> ctl_run c' acc got sent
  | cr_retire c acc got sent t k c' : ctl_run c acc got sent -> t = READ \/ t = WRITE -> is_Some (get_queue c t !! k) ->
      retire vc c t k = Ret c' -> ctl_run c' acc got sent.

Definition queued (c : Controller) : list Request := readq c ++ writeq c ++ pending c.

(** The accepted packets are those in the buffer, those answered to the local core and those
    answered by a response. *)
Definition accounted (c : Controller) (acc got sent : list Packet) : Prop :=
  exists local, request_ticket <$> acc ≡ₚ (request_ticket <$> (map_to_list (incoming c)).*2) ++ local ++ (response_ticket <$> sent ++ response_buffer c) /\
    (tk_req <$> local) ++ ((fun p => ident <$> pk_req p) <$> got) ≡ₚ (fun r => Some (ident r)) <$> to_pu c /\
    Forall (fun t => exists r, tk_req t = Some r /\ goes_local vc id r = true) local.

Record run_inv (c : Controller) (acc got sent : list Packet) : Prop := {
  ri_vault : vault_inv c;
  ri_id : c_id c = id;
  ri_queued : Forall (fun r => exists p q, incoming c !! reqid r = Some p /\ pk_req p = Some q /\ ident q = r) (ident <$> queued c);
  ri_accounted : accounted c acc got sent;
  ri_answers : Forall (is_answer vc id) (sent ++ response_buffer c)
}.

Lemma reqid_ident (l : list Request) : reqid <$> l = reqid <$> (ident <$> l).
Proof. by rewrite <- list_fmap_compose. Qed.

Lemma ident_reqid x y : ident x = ident y -> reqid x = reqid y.
Proof. intros E. exact (f_equal reqid E). Qed.

(** A step that moves no request in or out. *)
Record stays (c c' : Controller) : Prop := {
  st_queued : ident <$> queued c' ≡ₚ ident <$> queued c;
  st_incoming : incoming c' = incoming c;
  st_id : c_id c' = c_id c;
  st_out : response_buffer c' = response_buffer c /\ to_pu c' = to_pu c
}.

(** A step that answers the request [r]. *)
Record leaves (c : Controller) (r : Request) (c' : Controller) : Prop := {
  lv_queued : ident <$> queued c ≡ₚ ident r :: (ident <$> queued c');
  lv_done : exists c1, completed vc c r c1 /\ incoming c' = incoming c1 /\ c_id c' = c_id c1 /\ response_buffer c' = response_buffer c1 /\ to_pu c' = to_pu c1
}.

Lemma stays_inv c acc got sent c' : run_inv c acc got sent -> vault_inv c' -> stays c c' -> run_inv c' acc got sent.
Proof.
  intros [Hv Hid Hq Ha Hr] Hv' [Sq Si Sid [So1 So2]]. split; [done|congruence| | |by rewrite So1].
  - rewrite Sq, Si. done.
  - unfold accounted. by rewrite Si, So1, So2.
Qed.

Lemma leaves_inv c acc got sent r c' : run_inv c acc got sent -> vault_inv c' -> leaves c r c' -> run_inv c' acc got sent.
Proof.
  intros [Hv Hid Hq (local & Ha & Hl & Hloc) Hr] Hv' [Lq (c1 & [_ Ci Cid Cr] & Li & Lid & Lr & Lp)].
  rewrite Lq in Hq. apply Forall_cons in Hq as [(p & q & Hp & Hpq & Eq) Hq]. change (reqid (ident r)) with (reqid r) in Hp.
  assert (Hm : (map_to_list (incoming c)).*2 ≡ₚ p :: (map_to_list (incoming c')).*2) by (rewrite Li, Ci; by rewrite <- (map_to_list_delete _ _ _ Hp)).
  assert (Ht : request_ticket p = mkTicket (Some (ident r)) (value <$> pk_CUB p) (value <$> pk_TAG p) (value <$> tail_SLID p) (pk_CMD p)) by (unfold request_ticket; by rewrite Hpq; simpl; rewrite Eq).
  rewrite Hm, fmap_cons in Ha. rewrite Hid in Cr.
  assert (Hq' : Forall (fun r => exists p q, incoming c' !! reqid r = Some p /\ pk_req p = Some q /\ ident q = r) (ident <$> queued c')).
  { apply Forall_fmap, Forall_forall. intros x Hx. rewrite Forall_fmap, Forall_forall in Hq. destruct (Hq x Hx) as (p' & q' & E1 & E2 & E3).
    exists p', q'. split; [|done]. rewrite Li, Ci. change (reqid (ident x)) with (reqid x) in *. rewrite lookup_delete_ne; [done|].
    intros Heq. pose proof (vi_nodup c Hv) as Hn. change (live_ids c) with (reqid <$> queued c) in Hn.
    rewrite reqid_ident, Lq, fmap_cons, <- reqid_ident in Hn. apply NoDup_cons in Hn as [Hn _]. apply Hn. change (reqid (ident r)) with (reqid r). rewrite Heq. by apply list_elem_of_fmap_2. }
  destruct (goes_local vc id r) eqn:Hg.
  - destruct Cr as [Cr Cp]. split; [done|congruence|done| |by rewrite Lr, Cr].
    exists (request_ticket p :: local). rewrite Lr, Cr, Lp, Cp. split_and!.
    + rewrite Ha. solve_Permutation.
    + rewrite fmap_app, fmap_cons, <- Hl, Ht. simpl. solve_Permutation.
    + constructor; [|done]. rewrite Ht. by exists (ident r).
  - destruct Cr as (Cp & q2 & resp & Hq2 & Cr & Hans & Hrt). assert (q2 = p) as -> by congruence. split; [done|congruence|done| |rewrite Lr, Cr, app_assoc; by apply Forall_app_2; [|constructor]].
    exists local. rewrite Lr, Cr, Lp, Cp. split_and!; [|done|done]. rewrite Ha, Ht, <- Hrt, !fmap_app, fmap_cons. simpl. solve_Permutation.
Qed.

Lemma receive_ctl_run c acc got sent p r b c' :
  run_inv c acc got sent -> packet_wf p -> pk_req p = Some r -> reqid r ∉ live_ids c -> req_type r = READ \/ req_type r = WRITE ->
  receive vc c p = Ret (b, c') -> run_inv c' (if b then p :: acc else acc) got sent.
Proof.
  intros R Hp Hr Hk Ht H. pose proof (receive_inv vc c p r b c' (ri_vault _ _ _ _ R) Hp Hr Hk Ht H) as Hv'.
  assert (Hnew : incoming c !! reqid r = None).
  { destruct (incoming c !! reqid r) eqn:E; [|done]. exfalso. apply Hk, (vi_only c (ri_vault _ _ _ _ R)). by eexists. }
  assert (Heff : (b = false /\ c' = c) \/ (b = true /\ exists r', ident r' = ident r /\ ident <$> queued c' ≡ₚ ident r :: (ident <$> queued c) /\
    incoming c' = <[reqid r := set_req p r']> (incoming c) /\ c_id c' = c_id c /\ response_buffer c' = response_buffer c /\ to_pu c' = to_pu c)).
  { unfold receive in H. rewrite (pw_type p Hp) in H. simpl in H. unfold packet_req in H. rewrite Hr in H. simpl in H. unfold enqueue in H. simpl in H.
    destruct (queue_full _); [left; by simplify_eq|right].
    destruct Ht as [Ht|Ht]; rewrite Ht in H; [destruct (existsb _ _)|]; simplify_eq; (split; [done|]); eexists; (split; [|split; [|split; [reflexivity|done]]]); try done;
      unfold queued; simpl; rewrite !fmap_app; simpl; solve_Permutation. }
  destruct Heff as [[-> ->]|(-> & r' & Ei & Eq & Em & Eid & Er & Ep)]; [done|]. destruct R as [Hv Hid Hq (local & Ha & Hl & Hloc) Hans].
  split; [done|congruence| | |by rewrite Er].
  - rewrite Eq, Em. apply Forall_cons. split; [exists (set_req p r'), r'; change (reqid (ident r)) with (reqid r); by rewrite lookup_insert_eq|].
    eapply Forall_impl; [exact Hq|]. intros x (p' & q' & E1 & E2 & E3). exists p', q'. rewrite lookup_insert_ne by congruence. done.
  - exists local. rewrite Er, Ep, Em, map_to_list_insert by done. rewrite !fmap_cons, Ha. split_and!; [|done|done]. simpl.
    replace (request_ticket (set_req p r')) with (request_ticket p) by (unfold request_ticket; simpl; by rewrite Hr, Ei). done.
Qed.

Lemma serve_run c c' : vault_inv c -> serve_pending vc c = Ret c' -> c' = c \/ exists r, leaves c r c'.
Proof.
  intros I E. unfold serve_pending in E. destruct (pending c) as [|r rest] eqn:Hp; [left; congruence|].
  destruct (depart r <=? c_clk c); [|left; congruence]. destruct (is_pim_inst r && _); [left; congruence|]. right. exists r.
  apply bind_ret_inv in E as (c1 & Ec & [= <-]). destruct (vi_packets c I (reqid r)) as (q & Hq & Hwf).
  { rewrite live_ids_app, Hp, !elem_of_app. right. right. simpl. by constructor. }
  destruct (complete_completed vc c r q Hq Hwf) as (c2 & Ec2 & C). assert (c2 = c1) as -> by congruence.
  pose proof C as [(Er & Ew & Eo & Ep) _ _ _]. split; [|by exists c1].
  unfold queued. simpl. rewrite Er, Ew, Hp, !fmap_app. simpl. solve_Permutation.
Qed.

Lemma retire_run c t k c' : vault_inv c -> t = READ \/ t = WRITE -> retire vc c t k = Ret c' -> stays c c' \/ exists r, leaves c r c'.
Proof.
  intros I Ht E. unfold retire in E. destruct (get_queue c t !! k) as [r|] eqn:Hk; [|done]. destruct Ht as [->| ->]; simpl in *.
  - left. destruct (burst_count r - 1 =? 0); injection E as <-; split; try done; unfold queued; simpl; rewrite !fmap_app.
    + rewrite (delete_Permutation (readq c) k r Hk) at 2. simpl. solve_Permutation.
    + f_equiv. rewrite list_fmap_insert, list_insert_id; [done|]. by rewrite list_lookup_fmap, Hk.
  - destruct (burst_count r - 1 =? 0).
    + right. exists (set_depart (c_clk c) (set_burst_count (burst_count r - 1) r)). apply bind_ret_inv in E as (c1 & Ec & [= <-]). rewrite complete_write_complete in Ec.
      destruct (vi_packets c I (reqid r)) as (q & Hq & Hwf).
      { rewrite live_ids_app, !elem_of_app. right. left. apply list_elem_of_fmap. exists r. split; [done|]. by eapply list_elem_of_lookup_2. }
      destruct (complete_completed vc c (set_depart (c_clk c) (set_burst_count (burst_count r - 1) r)) q Hq Hwf) as (c2 & Ec2 & C). assert (c2 = c1) as -> by congruence.
      pose proof C as [(Er & Ew & Eo & Ep) _ _ _]. split; [|by exists c1].
      unfold queued. simpl. rewrite Er, Ep, !fmap_app. rewrite (delete_Permutation (writeq c) k r Hk) at 1. simpl. solve_Permutation.
    + left. injection E as <-. split; try done. unfold queued. simpl. rewrite !fmap_app. f_equiv. f_equiv.
      rewrite list_fmap_insert, list_insert_id; [done|]. by rewrite list_lookup_fmap, Hk.
Qed.

Lemma ctl_run_inv c acc got sent : ctl_run c acc got sent -> run_inv c acc got sent.
Proof.
  induction 1 as [|c acc got sent p r b c' _ R Hp Hr Hk Ht H|c acc got sent p b c' _ R H|c acc got sent p c' _ R H|c acc got sent p rest nxt _ R H|c acc got sent p rest nxt _ R H
    |c acc got sent wm _ R H|c acc got sent c' _ R H|c acc got sent t k c' _ R Ht Hk H].
  - split; [apply newController_inv|done|done| |done]. exists []. cbn [newController incoming]. by rewrite map_to_list_empty.
  - by eapply receive_ctl_run.
  - unfold receive_remote_request in H. apply bind_ret_inv in H as ([] & _ & H). destruct (_ <? _); injection H as <- <-; [|done].
    apply (stays_inv c); [done|by destruct R as [[]]|by split].
  - unfold receive_pim_response in H. apply bind_ret_inv in H as ([] & _ & H). apply bind_ret_inv in H as (r & Hr & [= <-]).
    unfold packet_req in Hr. destruct (pk_req p) as [r'|] eqn:Er; [|done]. injection Hr as ->.
    destruct R as [Hv Hid Hq (local & Ha & Hl & Hloc) Hans]. split; [by destruct Hv|done|done| |done]. exists local. split_and!; [done| |done].
    simpl. rewrite fmap_app, <- Hl, Er. simpl. solve_Permutation.
  - destruct R as [Hv Hid Hq (local & Ha & Hl & Hloc) Hans]. rewrite H in *. split; [by destruct Hv|done|done| |by simpl; rewrite <- app_assoc].
    exists local. simpl. by rewrite <- app_assoc.
  - apply (stays_inv c); [done|by destruct R as [[]]|by split].
  - apply (stays_inv c); [done|by destruct R as [[]]|by split].
  - destruct (serve_pending_inv vc c (ri_vault _ _ _ _ R)) as (c1 & E & I1). assert (c1 = c') as -> by congruence.
    destruct (serve_run c c' (ri_vault _ _ _ _ R) H) as [->|[r L]]; [done|]. by eapply leaves_inv.
  - destruct (retire_inv vc c t k (ri_vault _ _ _ _ R) Ht Hk) as (c1 & E & I1). assert (c1 = c') as -> by congruence.
    destruct (retire_run c t k c' (ri_vault _ _ _ _ R) Ht H) as [L|[r L]]; [by apply (stays_inv c)|by eapply leaves_inv].
Qed.

(** The buffered packets are those of the queued requests. *)
Lemma buffered_queued c acc got sent : run_inv c acc got sent ->
  tk_req <$> (request_ticket <$> (map_to_list (incoming c)).*2) ≡ₚ Some <$> (ident <$> queued c).
Proof.
  intros [Hv _ Hq _ _]. rewrite Forall_fmap, Forall_forall in Hq.
  assert (Hreq : forall k p, incoming c !! k = Some p -> exists r, r ∈ queued c /\ reqid r = k /\ ident <$> pk_req p = Some (ident r)).
  { intros k p Hp. assert (Hk : k ∈ live_ids c) by (apply (vi_only c Hv); by eexists). apply list_elem_of_fmap in Hk as (r & -> & Hr).
    destruct (Hq r Hr) as (p' & q & E1 & E2 & E3). change (reqid (ident r)) with (reqid r) in E1. assert (p' = p) as -> by congruence. exists r. by rewrite E2, <- E3. }
  rewrite <- !list_fmap_compose. apply NoDup_Permutation.
  - apply NoDup_fmap_2_strong; [|apply NoDup_map_to_list]. intros [k1 p1] [k2 p2] H1%elem_of_map_to_list H2%elem_of_map_to_list E. simpl in E.
    destruct (Hreq _ _ H1) as (r1 & _ & <- & E1), (Hreq _ _ H2) as (r2 & _ & <- & E2). rewrite E1, E2 in E.
    assert (Ek : reqid r1 = reqid r2) by (apply ident_reqid; congruence). rewrite Ek in *. congruence.
  - apply NoDup_fmap_2_strong; [|by apply (NoDup_fmap_1 reqid), (vi_nodup c Hv)]. intros x y Hx Hy E. simpl in E.
    assert (Ek : reqid x = reqid y) by (apply ident_reqid; congruence). pose proof (vi_nodup c Hv) as Hn. change (live_ids c) with (reqid <$> queued c) in Hn.
    apply list_elem_of_lookup in Hx as [i Hx], Hy as [j Hy]. assert (i = j) as ->; [|congruence].
    apply (NoDup_lookup _ i j (reqid x) Hn); rewrite list_lookup_fmap; [by rewrite Hx|by rewrite Hy, Ek].
  - intros x. rewrite !list_elem_of_fmap. split.
    + intros ([k p] & -> & Hp%elem_of_map_to_list). destruct (Hreq _ _ Hp) as (r & Hr & _ & E). by exists r.
    + intros (r & -> & Hr). destruct (Hq r Hr) as (p & q & E1 & E2 & E3). exists (reqid (ident r), p). split; [simpl; by rewrite E2; simpl; rewrite E3|by apply elem_of_map_to_list].
Qed.
End Runs.

(** ** Properties *)

(** C8: Every read or write that a vault accepts is answered once or still queued.  Over any run
    of a vault controller, in which an arriving packet has an id that no queued request has,
    the accepted packets are, as a multiset, those of the requests in the read queue, the write
    queue and the pending queue, those given to the PIM core of the vault, and those of the
    responses in the response buffer or already taken by the switch; the answer has the
    request, cube, tag, link and command of its packet, a response goes out exactly for the
    requests of other places, and its length is that of its type.  The ids of the queued requests are
    distinct, the queues hold at most 32 requests; serving a read and retiring a command never fail an
    assert, and a read at the head of the pending queue is answered when its time has come. *)
Theorem vault_answers_every_request vc id c acc got sent :
  ctl_run vc id c acc got sent ->
  (exists here local,
     request_ticket <$> acc ≡ₚ here ++ local ++ (response_ticket <$> sent ++ response_buffer c) /\
     tk_req <$> here ≡ₚ Some <$> (ident <$> readq c ++ writeq c ++ pending c) /\
     (tk_req <$> local) ++ ((fun p => ident <$> pk_req p) <$> got) ≡ₚ Some <$> (ident <$> to_pu c) /\
     Forall (fun t => exists r, tk_req t = Some r /\ goes_local vc id r = true) local) /\
  Forall (is_answer vc id) (sent ++ response_buffer c) /\
  NoDup (live_ids c) /\ (forall k, k ∈ live_ids c <-> is_Some (incoming c !! k)) /\
  Z.of_nat (length (readq c)) <= queue_max /\ Z.of_nat (length (writeq c)) <= queue_max /\
  (exists c', serve_pending vc c = Ret c' /\ forall r rest, pending c = r :: rest -> depart r <= c_clk c -> pending c' = rest) /\
  (forall t k, t = READ \/ t = WRITE -> is_Some (get_queue c t !! k) -> exists c', retire vc c t k = Ret c').
Proof.
  intros Hr. pose proof (ctl_run_inv _ _ _ _ _ _ Hr) as R. pose proof R as [I Hid Hq (local & Ha & Hl & Hloc) Hans].
  destruct (vi_bounds c I) as [Hb1 Hb2]. split_and!; try done.
  - exists (request_ticket <$> (map_to_list (incoming c)).*2), local. split_and!; [done|by eapply buffered_queued| |done].
    by rewrite <- list_fmap_compose.
  - apply I.
  - intros k. split; [|apply I]. intros Hk. destruct (vi_packets c I k Hk) as (p & -> & _). done.
  - destruct (serve_pending_inv vc c I) as (c' & H & _). exists c'. split; [done|]. intros r rest Hp Hd. unfold serve_pending in H.
    pose proof (vi_reads c I) as Hrd. rewrite Hp, Forall_app, Forall_cons in Hrd. destruct Hrd as (_ & Ht & _).
    rewrite Hp, (proj2 (Z.leb_le _ _) Hd), Ht in H. simpl in H. rewrite andb_false_r in H. by apply bind_ret_inv in H as (c1 & _ & [= <-]).
  - intros t k Ht Hk. destruct (retire_inv vc c t k I Ht Hk) as (c' & H & _). eauto.
Qed.

(** A write and a read of the same address, then the write is answered and
    its response taken. *)
Definition demo_config : vault_config := mkVaultConfig 1 4 8 21 IDEAL_MEM_NETWORK_LOCALSTACK.
Definition demo_request (id : Z) (t : ReqType) : Packet :=
  request_packet 0 0x40 id 5 0 WR64 (set_reqid id (cpu_request 0x40 t 0)).

Definition demo_accept (c : Controller) (p : Packet) : Controller := match receive demo_config c p with Ret (_, c) => c | Stop _ => c end.
Definition demo_loaded : Controller := demo_accept (demo_accept (newController 3) (demo_request 7 WRITE)) (demo_request 8 READ).
Definition demo_controller : Controller := ret_or demo_loaded (retire demo_config demo_loaded WRITE 0).
Definition demo_drained : Controller := set_buffers demo_controller [] [] true.
Definition demo_answer : list Packet := response_buffer demo_controller.

Lemma demo_request_wf id t : id < 2 ^ 11 -> packet_wf (demo_request id t).
Proof.
  intros. split; simpl; eauto; eexists; (split; [done|]);
    unfold pkt_cub_bits, pkt_tag_bits, pkt_slid_bits; simpl; lia.
Qed.

Lemma demo_controller_run : ctl_run demo_config 3 demo_drained [demo_request 8 READ; demo_request 7 WRITE] [] demo_answer.
Proof.
  assert (H1 : ctl_run demo_config 3 (demo_accept (newController 3) (demo_request 7 WRITE)) [demo_request 7 WRITE] [] []).
  { eapply (cr_receive _ _ _ _ _ _ _ _ true); [apply cr_start|by apply demo_request_wf|reflexivity|apply not_elem_of_nil|by right|reflexivity]. }
  assert (H2 : ctl_run demo_config 3 demo_loaded [demo_request 8 READ; demo_request 7 WRITE] [] []).
  { eapply (cr_receive _ _ _ _ _ _ (demo_request 8 READ) _ true); [exact H1|by apply demo_request_wf|reflexivity| |by left|reflexivity].
    vm_compute. apply not_elem_of_cons. split; [done|apply not_elem_of_nil]. }
  assert (H3 : ctl_run demo_config 3 demo_controller [demo_request 8 READ; demo_request 7 WRITE] [] []).
  { eapply (cr_retire _ _ _ _ _ _ WRITE 0); [exact H2|by right|by eexists|vm_compute; reflexivity]. }
  exact (cr_inject demo_config 3 _ _ _ _ _ [] true H3 eq_refl).
Qed.

Lemma vault_answers_every_request_witness :
  length demo_answer = 1%nat /\ (pk_TAG <$> demo_answer) = [Some (mkField 7 11)] /\ live_ids demo_drained = [8] /\
  exists here local, request_ticket <$> [demo_request 8 READ; demo_request 7 WRITE] ≡ₚ here ++ local ++ (response_ticket <$> demo_answer ++ response_buffer demo_drained).
Proof.
  split; [reflexivity|]. split; [vm_compute; reflexivity|]. split; [vm_compute; reflexivity|].
  destruct (proj1 (vault_answers_every_request demo_config 3 demo_drained _ [] demo_answer demo_controller_run)) as (here & local & H & _).
  exists here, local. exact H.
Defined.

(** [receive] of a read or write accepts exactly when [can_receive] holds;
    an accepted read whose address is in the write queue is answered at the
    next cycle without entering the read queue, any other request goes to the
    end of its queue. *)
Theorem receive_behaviour vc c p r :
  pk_type p = REQUEST -> pk_req p = Some r -> req_type r = READ \/ req_type r = WRITE ->
  exists b c', can_receive c p = Ret b /\ receive vc c p = Ret (b, c') /\
    (b = false -> c' = c) /\
    (b = true -> exists r', reqid r' = reqid r /\ arrive r' = c_clk c /\
       incoming c' = <[reqid r := set_req p r']> (incoming c) /\
       match req_type r with
       | READ =>
           if existsb (fun w => req_addr r =? req_addr w) (writeq c)
           then readq c' = readq c /\ writeq c' = writeq c /\ pending c' = pending c ++ [r'] /\
                depart r' = c_clk c + 1
           else readq c' = readq c ++ [r'] /\ writeq c' = writeq c /\ pending c' = pending c
       | _ => readq c' = readq c /\ writeq c' = writeq c ++ [r'] /\ pending c' = pending c
       end).
Proof.
  intros Hty Hr Ht. unfold can_receive, receive, packet_req. rewrite Hty, Hr. simpl.
  unfold enqueue. simpl. destruct (queue_full _); simpl; [by eexists false, _|].
  destruct Ht as [Ht|Ht]; rewrite Ht; [destruct (existsb _ _)|]; eexists true, _;
    (split; [done|split; [done|split; [done|]]]); intros _; eexists;
    refine (conj _ (conj _ (conj eq_refl _))); split_and?; done.
Qed.

Lemma receive_behaviour_witness :
  exists b c', can_receive demo_controller (demo_request 9 READ) = Ret b /\
    receive demo_config demo_controller (demo_request 9 READ) = Ret (b, c') /\ (b = false -> c' = demo_controller).
Proof.
  destruct (receive_behaviour demo_config demo_controller (demo_request 9 READ) (set_reqid 9 (cpu_request 0x40 READ 0)))
    as (b & c' & H1 & H2 & H3 & _); [reflexivity|reflexivity|left; reflexivity|].
  exists b, c'. exact (conj H1 (conj H2 H3)).
Defined.
