(* ===== verification/Dram.v ===== *)
(** * The tree of a DRAM device

    [DRAM<T>] of [src/src/ramulator/DRAM.h], for any standard [T]: a tree of
    nodes (vaults, bank groups, banks) with the earliest time of every command,
    the recent history of every command and the state of the rows.  [decode]
    finds the command that has to come first, [check] tells whether a command
    is ready, [update] records that it was issued.

    The theory relates the arrays [next] and [prev] of all nodes to the history
    of issued commands: a command is ready exactly when every timing constraint
    of the standard is met.  Registration and final output of statistics
    ([regStats], [finish]) are not modelled. *)

From S2P Require Import Prelude.

(** ** Nodes *)

(** Counters for the statistics of a node; they also carry asserts. *)
Record serving : Type := mkServing {
  cur_serving_requests : Z;
  begin_of_serving : Z;
  end_of_serving : Z;
  begin_of_cur_reqcnt : Z;
  begin_of_refreshing : Z;
  end_of_refreshing : Z;
  refresh_intervals : list (Z * Z);
  active_cycles : Z;
  refresh_cycles : Z;
  active_refresh_overlap_cycles : Z;
  serving_requests : Z
}.

Definition newServing : serving := mkServing 0 (-1) (-1) (-1) (-1) (-1) [] 0 0 0 0.

(** [T::TimingEntry]: after the command it is listed for, [te_cmd] waits [te_val]
    cycles, counted from the [te_dist]-th last of those commands. *)
Record TimingEntry (C : Type) : Type := mkTiming { te_cmd : C; te_dist : Z; te_val : Z; te_sibling : bool }.
Arguments mkTiming {C}.
Arguments te_cmd {C}.
Arguments te_dist {C}.
Arguments te_val {C}.
Arguments te_sibling {C}.

(** The members of one node; arrays indexed by commands are functions. *)
Record node (C St : Type) : Type := mkNode {
  level : nat;
  nid : Z;
  state : St;
  row_state : gmap Z St;
  cur_clk : Z;
  next : C -> Z;
  prev : C -> list Z;
  stats : serving
}.
Arguments mkNode {C St}.
Arguments level {C St}.
Arguments nid {C St}.
Arguments state {C St}.
Arguments row_state {C St}.
Arguments cur_clk {C St}.
Arguments next {C St}.
Arguments prev {C St}.
Arguments stats {C St}.

Inductive dram (C St : Type) : Type := Dram (nd : node C St) (kids : list (dram C St)).
Arguments Dram {C St}.

(** What a standard provides ([HMC], [DDR3], ...).  A missing entry of the
    tables of functions is [None]; so is the result [Command::MAX] of [prereq]. *)
Record standard (C St : Type) : Type := mkStandard {
  start : nat -> St;
  count : nat -> Z;                      (* org_entry.count *)
  bank_level : nat;
  row_level : nat;
  scope : C -> nat;
  prereq : nat -> C -> option (dram C St -> C -> Z -> outcome (option C));
  rowhit : nat -> C -> option (dram C St -> C -> Z -> outcome bool);
  rowopen : nat -> C -> option (dram C St -> C -> Z -> outcome bool);
  lambda : nat -> C -> option (dram C St -> Z -> dram C St);
  timing : nat -> C -> list (TimingEntry C);
  is_opening : C -> bool;
  is_accessing : C -> bool;
  is_closing : C -> bool;
  is_refreshing : C -> bool
}.
Arguments mkStandard {C St}.
Arguments start {C St}.
Arguments count {C St}.
Arguments bank_level {C St}.
Arguments row_level {C St}.
Arguments scope {C St}.
Arguments prereq {C St}.
Arguments rowhit {C St}.
Arguments rowopen {C St}.
Arguments lambda {C St}.
Arguments timing {C St}.
Arguments is_opening {C St}.
Arguments is_accessing {C St}.
Arguments is_closing {C St}.
Arguments is_refreshing {C St}.

Section DRAM.
Context {C St : Type} `{EqDecision C} (sp : standard C St).

Definition root (n : dram C St) : node C St := let (nd, _) := n in nd.
Definition children (n : dram C St) : list (dram C St) := let (_, kids) := n in kids.
Definition set_root (n : dram C St) (nd : node C St) : dram C St := Dram nd (children n).
Definition set_children (n : dram C St) (kids : list (dram C St)) : dram C St := Dram (root n) kids.
Definition leaf (n : dram C St) : bool := match children n with [] => true | _ :: _ => false end.

Definition set_state_rows (nd : node C St) (s : St) (rows : gmap Z St) : node C St :=
  mkNode (level nd) (nid nd) s rows (cur_clk nd) (next nd) (prev nd) (stats nd).
Definition set_cur_clk (nd : node C St) (clk : Z) : node C St :=
  mkNode (level nd) (nid nd) (state nd) (row_state nd) clk (next nd) (prev nd) (stats nd).
Definition set_nid (nd : node C St) (i : Z) : node C St :=
  mkNode (level nd) i (state nd) (row_state nd) (cur_clk nd) (next nd) (prev nd) (stats nd).
Definition set_prev (nd : node C St) (c : C) (l : list Z) : node C St :=
  mkNode (level nd) (nid nd) (state nd) (row_state nd) (cur_clk nd) (next nd)
    (fun c' => if decide (c' = c) then l else prev nd c') (stats nd).
Definition set_stats (nd : node C St) (s : serving) : node C St :=
  mkNode (level nd) (nid nd) (state nd) (row_state nd) (cur_clk nd) (next nd) (prev nd) s.

(** [next[c] = max(next[c], future)] *)
Definition raise (nd : node C St) (c : C) (future : Z) : node C St :=
  mkNode (level nd) (nid nd) (state nd) (row_state nd) (cur_clk nd)
    (fun c' => if decide (c' = c) then Z.max (next nd c) future else next nd c') (prev nd) (stats nd).

(** ** Construction *)

(** The longest distance of the entries listed for [cmd] at a level. *)
Definition max_dist (l : nat) (cmd : C) : Z := foldl (fun d t => Z.max d (te_dist t)) 0 (timing sp l cmd).

Definition newNode (l : nat) (i : Z) : node C St :=
  mkNode l i (start sp l) ∅ 0 (fun _ => -1) (fun cmd => replicate (Z.to_nat (max_dist l cmd)) (-1)) newServing.

(** [DRAM(spec, level)], with [depth] levels above the rows below it. *)
Fixpoint build (depth : nat) (l : nat) (i : Z) : dram C St :=
  Dram (newNode l i)
    match depth with
    | O => []
    | S depth => map (build depth (S l)) (zrange (Z.to_nat (count sp (S l))))
    end.

Definition newDRAM (l : nat) : dram C St := build (row_level sp - S l) l 0.

(** [insert(child)] *)
Definition insert_child (n child : dram C St) : dram C St :=
  set_children n (children n ++ [set_root child (set_nid (root child) (Z.of_nat (length (children n))))]).

(** ** Queries

    [addr] starts with the component of the node's own level. *)

Fixpoint decode (n : dram C St) (cmd : C) (addr : list Z) {struct addr} : outcome C :=
  match addr with
  | [] => Stop OutOfRange
  | _ :: rest =>
      child_id ← at_ rest 0;
      pre ← match prereq sp (level (root n)) cmd with Some f => f n cmd child_id | None => Ret None end;
      match pre with
      | Some c => Ret c
      | None =>
          if (child_id <? 0) || leaf n then Ret cmd
          else c ← at_ (children n) child_id; decode c cmd rest
      end
  end.

Fixpoint check (n : dram C St) (cmd : C) (addr : list Z) (clk : Z) {struct addr} : outcome bool :=
  match addr with
  | [] => Stop OutOfRange
  | _ :: rest =>
      if negb (next (root n) cmd =? -1) && (clk <? next (root n) cmd) then Ret false
      else
        child_id ← at_ rest 0;
        if (child_id <? 0) || bool_decide (level (root n) = scope sp cmd) || leaf n then Ret true
        else c ← at_ (children n) child_id; check c cmd rest clk
  end.

(** [check_row_hit] and [check_row_open], which differ in their table. *)
Fixpoint check_row (table : nat -> C -> option (dram C St -> C -> Z -> outcome bool)) (n : dram C St) (cmd : C)
  (addr : list Z) {struct addr} : outcome bool :=
  match addr with
  | [] => Stop OutOfRange
  | _ :: rest =>
      child_id ← at_ rest 0;
      match table (level (root n)) cmd with
      | Some f => f n cmd child_id
      | None =>
          if (child_id <? 0) || leaf n then Ret false
          else c ← at_ (children n) child_id; check_row table c cmd rest
      end
  end.

Definition check_row_hit (n : dram C St) (cmd : C) (addr : list Z) : outcome bool := check_row (rowhit sp) n cmd addr.
Definition check_row_open (n : dram C St) (cmd : C) (addr : list Z) : outcome bool := check_row (rowopen sp) n cmd addr.

(** The loop of [get_next], over the components below the node. *)
Fixpoint get_next_loop (n : dram C St) (cmd : C) (l : nat) (below : list Z) (next_clk : Z) : outcome Z :=
  if (l <? scope sp cmd)%nat && negb (leaf n) then
    match below with
    | [] => Stop OutOfRange
    | a :: below =>
        if 0 <=? a then
          c ← at_ (children n) a; get_next_loop c cmd (S l) below (Z.max next_clk (next (root c) cmd))
        else Ret next_clk
    end
  else Ret next_clk.

Definition get_next (n : dram C St) (cmd : C) (addr : list Z) : outcome Z :=
  get_next_loop n cmd (level (root n)) (tail addr) (Z.max (cur_clk (root n)) (next (root n) cmd)).

(** ** Updates *)

Fixpoint update_state (n : dram C St) (cmd : C) (addr : list Z) {struct addr} : outcome (dram C St) :=
  match addr with
  | [] => Stop OutOfRange
  | _ :: rest =>
      child_id ← at_ rest 0;
      let n := match lambda sp (level (root n)) cmd with Some f => f n child_id | None => n end in
      if bool_decide (level (root n) = scope sp cmd) || leaf n then Ret n
      else
        c ← at_ (children n) child_id;
        c ← update_state c cmd rest;
        Ret (set_children n (<[Z.to_nat child_id := c]> (children n)))
  end.

(** [update_timing] of a node that is not the target, but a sibling of it. *)
Definition time_sibling (nd : node C St) (cmd : C) (clk : Z) : outcome (node C St) :=
  fold_ (fun nd t =>
    if te_sibling t then
      _ ← assert_ (te_dist t =? 1);
      Ret (raise nd (te_cmd t) (clk + te_val t))
    else Ret nd) (timing sp (level nd) cmd) nd.

(** Statistics of a refresh that delays an activation. *)
Definition note_refresh (nd : node C St) (cmd : C) (t : TimingEntry C) (past clk : Z) : outcome (node C St) :=
  if is_refreshing sp cmd && is_opening sp (te_cmd t) then
    _ ← assert_ (past =? clk);
    let s := stats nd in
    let e := Z.max (end_of_refreshing s) (next nd (te_cmd t)) in
    Ret (set_stats nd (mkServing (cur_serving_requests s) (begin_of_serving s) (end_of_serving s) (begin_of_cur_reqcnt s)
      clk e (if 0 <? cur_serving_requests s then refresh_intervals s ++ [(clk, e)] else refresh_intervals s)
      (active_cycles s) (refresh_cycles s + (e - clk)) (active_refresh_overlap_cycles s) (serving_requests s)))
  else Ret nd.

Definition time_entry (cmd : C) (clk : Z) (nd : node C St) (t : TimingEntry C) : outcome (node C St) :=
  if te_sibling t then Ret nd
  else
    past ← at_ (prev nd cmd) (te_dist t - 1);
    if past <? 0 then Ret nd
    else note_refresh (raise nd (te_cmd t) (past + te_val t)) cmd t past clk.

(** [update_timing] of a target node. *)
Definition time_target (nd : node C St) (cmd : C) (clk : Z) : outcome (node C St) :=
  let nd := match prev nd cmd with [] => nd | _ :: _ => set_prev nd cmd (clk :: removelast (prev nd cmd)) end in
  fold_ (time_entry cmd clk) (timing sp (level nd) cmd) nd.

Fixpoint update_timing (n : dram C St) (cmd : C) (addr : list Z) (clk : Z) {struct addr} : outcome (dram C St) :=
  match addr with
  | [] => Stop OutOfRange
  | a :: rest =>
      if negb (nid (root n) =? a) then nd ← time_sibling (root n) cmd clk; Ret (set_root n nd)
      else
        nd ← time_target (root n) cmd clk;
        kids ← mapM (fun c => update_timing c cmd rest clk) (children n);
        Ret (Dram nd kids)
  end.

Definition update (n : dram C St) (cmd : C) (addr : list Z) (clk : Z) : outcome (dram C St) :=
  n ← update_state (set_root n (set_cur_clk (root n) clk)) cmd addr;
  update_timing n cmd addr clk.

(** ** Requests in service *)

Definition serve (s : serving) (delta clk : Z) : outcome serving :=
  let busy := negb (begin_of_cur_reqcnt s =? -1) && (0 <? cur_serving_requests s) in
  let since := clk - begin_of_cur_reqcnt s in
  let total := if busy then serving_requests s + since * cur_serving_requests s else serving_requests s in
  let active := if busy then active_cycles s + since else active_cycles s in
  let cur := cur_serving_requests s + delta in
  _ ← assert_ (0 <=? cur);
  if (delta =? 1) && (cur =? 1) then
    Ret (mkServing cur clk (end_of_serving s) clk (begin_of_refreshing s) (end_of_refreshing s) (refresh_intervals s)
      active (refresh_cycles s)
      (if clk <? end_of_refreshing s then active_refresh_overlap_cycles s + (end_of_refreshing s - clk)
       else active_refresh_overlap_cycles s) total)
  else if cur =? 0 then
    _ ← assert_ (negb (begin_of_serving s =? -1));
    _ ← assert_ (delta =? -1);
    Ret (mkServing cur (begin_of_serving s) clk clk (begin_of_refreshing s) (end_of_refreshing s) []
      (active + (clk - clk)) (refresh_cycles s)
      (foldl (fun o r => o + (Z.min clk (snd r) - fst r)) (active_refresh_overlap_cycles s) (refresh_intervals s)) total)
  else
    Ret (mkServing cur (begin_of_serving s) (end_of_serving s) clk (begin_of_refreshing s) (end_of_refreshing s)
      (refresh_intervals s) active (refresh_cycles s) (active_refresh_overlap_cycles s) total).

Fixpoint update_serving_requests (n : dram C St) (addr : list Z) (delta clk : Z) {struct addr} : outcome (dram C St) :=
  match addr with
  | [] => Stop OutOfRange
  | a :: rest =>
      _ ← assert_ (nid (root n) =? a);
      _ ← assert_ ((delta =? 1) || (delta =? -1));
      s ← serve (stats (root n)) delta clk;
      let n := set_root n (set_stats (root n) s) in
      child_id ← at_ rest 0;
      if (child_id <? 0) || leaf n || (bank_level sp <? level (root n))%nat then Ret n
      else
        c ← at_ (children n) child_id;
        c ← update_serving_requests c rest delta clk;
        Ret (set_children n (<[Z.to_nat child_id := c]> (children n)))
  end.
End DRAM.

(** ** Nodes by their indices *)

Section Paths.
Context {C St : Type} `{EqDecision C} (sp : standard C St).
Implicit Types (n : dram C St) (m : node C St) (p : list nat).

Fixpoint sub n p : option (dram C St) :=
  match p with [] => Some n | i :: p => c ← children n !! i; sub c p end.

Definition nd_at n p : option (node C St) := root <$> sub n p.

(** The components that lead to the node at [p] below a root of identifier [rid]. *)
Definition ids (rid : Z) p : list Z := rid :: (Z.of_nat <$> p).

(** How a command with address [addr] meets the node with components [l]: it is
    its target, a sibling of its target, or not reached. *)
Inductive meets : Type := Target | Sibling | Away.

Fixpoint meet (l addr : list Z) : meets :=
  match l, addr with
  | [i], a :: _ => if i =? a then Target else Sibling
  | i :: l, a :: addr => if i =? a then meet l addr else Away
  | _, _ => Away
  end.

#[local] Instance meets_eq_dec : EqDecision meets.
Proof. solve_decision. Defined.

Lemma meet_target l addr : l <> [] -> meet l addr = Target <-> l `prefix_of` addr.
Proof.
  revert addr. induction l as [|i l IH]; intros addr Hl; [done|]. destruct addr as [|a addr].
  { split; [by destruct l|]. intros Hp. by apply prefix_nil_not in Hp. }
  destruct l as [|j l].
  - simpl. destruct (Z.eqb_spec i a) as [->|Hne]; split; try done; [intros _; by exists addr|].
    intros [k [= ? ?]]. done.
  - change (meet (i :: j :: l) (a :: addr)) with (if i =? a then meet (j :: l) addr else Away).
    destruct (Z.eqb_spec i a) as [->|Hne].
    + rewrite IH by done. split; intros Hp; [by apply prefix_cons|by apply prefix_cons_inv_2 in Hp].
    + split; [done|]. intros Hp. by apply prefix_cons_inv_1 in Hp.
Qed.

(** Children are numbered, levels increase. *)
Definition numbered n : Prop :=
  forall p i m, nd_at n (p ++ [i]) = Some m ->
    nid m = Z.of_nat i /\ exists m', nd_at n p = Some m' /\ level m = S (level m').

Lemma leaf_child n i c : children n !! i = Some c -> leaf n = false.
Proof. unfold leaf. by destruct (children n). Qed.

Lemma nd_at_cons n i p : nd_at n (i :: p) = (c ← children n !! i; nd_at c p).
Proof. unfold nd_at. simpl. by destruct (children n !! i). Qed.

Lemma nd_at_nil n : nd_at n [] = Some (root n).
Proof. done. Qed.

Lemma nd_at_app n p q : nd_at n (p ++ q) = (c ← sub n p; nd_at c q).
Proof.
  revert n. induction p as [|i p IH]; intros n; [done|]. cbn [app]. rewrite nd_at_cons. simpl.
  destruct (children n !! i); simpl; [apply IH|done].
Qed.

Lemma numbered_child n i c : numbered n -> children n !! i = Some c -> numbered c.
Proof.
  intros N Hc p j m Hm. destruct (N (i :: p) j m) as (H1 & m' & H2 & H3).
  { cbn [app]. by rewrite nd_at_cons, Hc. }
  split; [done|]. exists m'. by rewrite nd_at_cons, Hc in H2.
Qed.

Lemma numbered_root n i c :
  numbered n -> children n !! i = Some c -> nid (root c) = Z.of_nat i /\ level (root c) = S (level (root n)).
Proof.
  intros N Hc. destruct (N [] i (root c)) as (H1 & m' & [= <-] & H3); [|done].
  cbn [app]. by rewrite nd_at_cons, Hc.
Qed.

Lemma numbered_level n p m : numbered n -> nd_at n p = Some m -> level m = (level (root n) + length p)%nat.
Proof.
  intros N. revert m. induction p as [|i p IH] using rev_ind; intros m Hm.
  - injection Hm as <-. simpl. lia.
  - destruct (N p i m Hm) as (_ & m' & Hm' & ->). rewrite (IH m' Hm'), length_app. simpl. lia.
Qed.

Lemma build_numbered depth l i : numbered (build sp depth l i).
Proof.
  revert l i. induction depth as [|depth IH]; intros l i p j m Hm.
  - destruct p; by cbn [app] in Hm; rewrite nd_at_cons in Hm.
  - destruct p as [|k p]; cbn [app] in Hm; rewrite nd_at_cons in Hm; cbn [build children] in Hm;
      apply bind_Some in Hm as (c & Hc & Hm); rewrite list_lookup_fmap in Hc; apply fmap_Some in Hc as (x & Hx & ->);
      unfold zrange in Hx; apply lookup_seqZ in Hx as [-> Hlt].
    + rewrite nd_at_nil in Hm. injection Hm as <-. destruct depth; simpl; (split; [lia|]); eexists; done.
    + destruct (IH (S l) _ p j m Hm) as (H1 & m' & H2 & H3). split; [done|]. exists m'. split; [|done].
      rewrite nd_at_cons. cbn [build children]. rewrite list_lookup_fmap. unfold zrange. rewrite lookup_seqZ_lt by done. done.
Qed.

(** *** One update, node by node *)

Lemma raise_frame m c f : level (raise m c f) = level m /\ nid (raise m c f) = nid m /\ prev (raise m c f) = prev m.
Proof. done. Qed.

(** Updates of the timing keep level and identifier. *)
Definition frame m m' : Prop := level m' = level m /\ nid m' = nid m.

Lemma note_refresh_frame m cmd t past clk m' :
  note_refresh sp m cmd t past clk = Ret m' -> frame m m' /\ next m' = next m /\ prev m' = prev m.
Proof. unfold note_refresh. intros E. case_match; outcome_steps; done. Qed.

Lemma time_sibling_frame m cmd clk m' : time_sibling sp m cmd clk = Ret m' -> frame m m' /\ prev m' = prev m.
Proof.
  unfold time_sibling. apply (fold_invariant _ (fun x => frame m x /\ prev x = prev m)); [|done].
  intros t s s' _ Hs E. case_match; outcome_steps; done.
Qed.

Lemma time_entry_frame cmd clk m t m' : time_entry sp cmd clk m t = Ret m' -> frame m m' /\ prev m' = prev m.
Proof.
  unfold time_entry. intros E. destruct (te_sibling t); [by injection E as <-|]. apply bind_ret_inv in E as (past & _ & E).
  destruct (past <? 0); [by injection E as <-|]. apply note_refresh_frame in E as (F & _ & Hp). done.
Qed.

Lemma time_target_frame m cmd clk m' : time_target sp m cmd clk = Ret m' -> frame m m'.
Proof.
  unfold time_target. set (m1 := match prev m cmd with [] => m | _ :: _ => _ end).
  assert (F1 : frame m m1) by (unfold m1; by destruct (prev m cmd)). intros E.
  assert (F2 : frame m1 m'); [|destruct F1, F2; split; congruence].
  revert E. apply (fold_invariant _ (fun x => frame m1 x)); [|done].
  intros t s s' _ [Hs1 Hs2] E. apply time_entry_frame in E as [[H1 H2] _]. split; congruence.
Qed.

(** The node at [p] after [update_timing]. *)
Definition met (k : meets) m cmd clk m' : Prop :=
  match k with
  | Target => time_target sp m cmd clk = Ret m'
  | Sibling => time_sibling sp m cmd clk = Ret m'
  | Away => m' = m
  end.

Lemma met_frame k m cmd clk m' : met k m cmd clk m' -> frame m m'.
Proof.
  destruct k; simpl; [apply time_target_frame|intros E; by apply time_sibling_frame in E as [? _]|by intros ->].
Qed.

Lemma mapM_ret_iff {X Y} (f : X -> outcome Y) l k : mapM f l = Ret k <-> Forall2 (fun x y => f x = Ret y) l k.
Proof.
  revert k. induction l as [|x l IH]; intros k; simpl.
  - split; [intros [= <-]; constructor|]. intros Hf. by inversion Hf.
  - split.
    + intros E. outcome_steps. constructor; [done|]. by apply IH.
    + intros Hf. inversion Hf as [|? y ? k' Hy Hk]; subst. rewrite Hy. simpl. apply IH in Hk. by rewrite Hk.
Qed.

Lemma update_timing_at n cmd addr clk n' p :
  numbered n -> update_timing sp n cmd addr clk = Ret n' ->
  match nd_at n p with
  | Some m => exists m', nd_at n' p = Some m' /\ met (meet (ids (nid (root n)) p) addr) m cmd clk m'
  | None => nd_at n' p = None
  end.
Proof.
  revert n addr n'. induction p as [|i p IH]; intros n addr n' N E; destruct addr as [|a addr]; cbn [update_timing] in E; try done.
  - simpl. destruct (Z.eqb_spec (nid (root n)) a) as [Ha|Ha]; cbn [negb] in E; apply bind_ret_inv in E as (nd & End & E); outcome_steps; by eexists.
  - rewrite !nd_at_cons. destruct (Z.eqb_spec (nid (root n)) a) as [Ha|Ha]; simpl in E; outcome_steps.
    + cbn [children]. match goal with H : mapM _ _ = Ret ?k |- _ => rename k into kids end. match goal with H : mapM _ _ = _ |- _ => apply mapM_ret_iff in H; rename H into Hk end.
      destruct (children n !! i) as [c|] eqn:Hc; simpl.
      * destruct (Forall2_lookup_l _ _ _ _ _ Hk Hc) as (c' & Hc' & Hu). rewrite Hc'. simpl.
        specialize (IH c addr c' (numbered_child _ _ _ N Hc) Hu). destruct (nd_at c p) as [m|]; [|done].
        destruct IH as (m' & Hm' & Hmet). exists m'. split; [done|].
        destruct (numbered_root _ _ _ N Hc) as [Hid _]. rewrite Hid in Hmet.
        cbn [ids fmap list_fmap meet]. by rewrite Z.eqb_refl.
      * assert (kids !! i = None) as ->; [|done]. apply lookup_ge_None_2. rewrite <- (Forall2_length _ _ _ Hk). by apply lookup_ge_None_1.
    + cbn [children set_root]. destruct (children n !! i) as [c|]; simpl; [|done]. destruct (nd_at c p) as [m|]; [|done].
      exists m. split; [done|]. cbn [ids fmap list_fmap meet]. rewrite (proj2 (Z.eqb_neq _ _) Ha). done.
Qed.

Lemma update_timing_numbered n cmd addr clk n' :
  numbered n -> update_timing sp n cmd addr clk = Ret n' -> numbered n' /\ nid (root n') = nid (root n) /\ level (root n') = level (root n).
Proof.
  intros N E. pose proof (fun p => update_timing_at n cmd addr clk n' p N E) as Hat.
  split.
  - intros p i m' Hm'. pose proof (Hat (p ++ [i])) as H1. destruct (nd_at n (p ++ [i])) as [m|] eqn:Hm; [|congruence].
    destruct H1 as (m1 & Hm1 & Hmet). assert (m1 = m') as -> by congruence. destruct (N p i m Hm) as (H2 & q & Hq & H3).
    pose proof (Hat p) as H4. rewrite Hq in H4. destruct H4 as (q' & Hq' & Hmet'). apply met_frame in Hmet as [F1 F2], Hmet' as [F3 F4].
    split; [congruence|]. exists q'. split; [done|congruence].
  - pose proof (Hat []) as H1. rewrite !nd_at_nil in H1. destruct H1 as (m' & [= <-] & Hmet). by apply met_frame in Hmet as [? ?].
Qed.
End Paths.

#[global] Instance meets_eq_decision : EqDecision meets.
Proof. solve_decision. Defined.

(** ** Timing constraints and the history of commands *)

Section Timing.
Context {C St : Type} `{EqDecision C} (sp : standard C St).
Implicit Types (n : dram C St) (m : node C St) (p : list nat).

(** Issued commands, latest first: command, address, time. *)
Abbreviation history := (list (C * list Z * Z)).

(** When commands [c] met the node with components [l] in the way [k]. *)
Definition times (k : meets) (l : list Z) (c : C) (h : history) : list Z :=
  omap (fun '(c', addr, clk) => if decide (c' = c /\ meet l addr = k) then Some clk else None) h.

(** The standard keeps [c] from being issued at a node of level [lv] before [f]. *)
Definition demand (lv : nat) (l : list Z) (h : history) (c : C) (f : Z) : Prop :=
  exists c1 t, t ∈ timing sp lv c1 /\ te_cmd t = c /\
    if te_sibling t then exists past, past ∈ times Sibling l c1 h /\ f = past + te_val t
    else exists i past, times Target l c1 h !! i = Some past /\ te_dist t <= Z.of_nat i + 1 /\ f = past + te_val t.

(** Laws of a standard: distances are positive, and 1 where the code asserts it;
    state transitions leave numbering and timing alone. *)
Definition same_timing n n' : Prop :=
  forall p, match nd_at n p, nd_at n' p with
  | Some m, Some m' => frame m m' /\ next m' = next m /\ prev m' = prev m
  | None, None => True
  | _, _ => False
  end.

Record standard_ok : Prop := {
  so_dist : forall lv c t, t ∈ timing sp lv c -> 1 <= te_dist t;
  so_sibling : forall lv c t, t ∈ timing sp lv c -> te_sibling t = true -> te_dist t = 1;
  so_refresh : forall lv c t, t ∈ timing sp lv c -> is_refreshing sp c = true -> is_opening sp (te_cmd t) = true -> te_dist t = 1;
  so_lambda : forall lv c f, lambda sp lv c = Some f -> forall n i, same_timing n (f n i)
}.
Context (SO : standard_ok).

Record timed (h : history) (l : list Z) m : Prop := {
  td_prev : forall c, let d := Z.to_nat (max_dist sp (level m) c) in
    prev m c = take d (times Target l c h ++ replicate d (-1));
  td_bound : forall c f, demand (level m) l h c f -> f <= next m c;
  td_tight : forall c, next m c = -1 \/ demand (level m) l h c (next m c)
}.

Lemma times_cons k l c c' addr clk h :
  times k l c ((c', addr, clk) :: h) = (if decide (c' = c /\ meet l addr = k) then [clk] else []) ++ times k l c h.
Proof. unfold times. simpl. by case_decide. Qed.

Lemma times_nonneg k l c h : Forall (fun e => 0 <= e.2) h -> Forall (Z.le 0) (times k l c h).
Proof.
  induction h as [|[[c' addr] clk] h IH]; intros Hh; [constructor|]. inv Hh. rewrite times_cons.
  apply Forall_app. split; [|auto]. case_decide; repeat constructor. done.
Qed.

(** A demand stays when the history grows. *)
Lemma demand_mono lv l e h c f : demand lv l h c f -> demand lv l (e :: h) c f.
Proof.
  destruct e as [[c' addr] clk]. intros (c1 & t & Ht & Hc & Hd). exists c1, t. split; [done|]. split; [done|].
  destruct (te_sibling t).
  - destruct Hd as (past & Hp & ->). exists past. split; [|done]. rewrite times_cons. apply elem_of_app. by right.
  - destruct Hd as (i & past & Hi & Hd & ->). rewrite times_cons. case_decide; simpl; [exists (S i), past|exists i, past]; split_and!; try done; lia.
Qed.

Lemma max_dist_le lv c t : t ∈ timing sp lv c -> te_dist t <= max_dist sp lv c.
Proof.
  unfold max_dist. generalize (timing sp lv c) as ts. assert (Hm : forall (ts : list (TimingEntry C)) d, d <= foldl (fun d t => Z.max d (te_dist t)) d ts).
  { intros ts. induction ts as [|u ts IH]; intros d; simpl; [lia|]. specialize (IH (Z.max d (te_dist u))). lia. }
  intros ts. generalize 0 as d. induction ts as [|u ts IH]; intros d Hin; [by apply elem_of_nil in Hin|].
  simpl. apply elem_of_cons in Hin as [->|Hin]; [|by apply IH]. specialize (Hm ts (Z.max d (te_dist u))). lia.
Qed.

(** *** A command that targets the node *)

(** The entries of [cmd] that find enough history make new demands. *)
Definition fresh_demand (l : list Z) (h : history) (cmd : C) (t : TimingEntry C) (f : Z) : Prop :=
  te_sibling t = false /\ exists past, times Target l cmd h !! Z.to_nat (te_dist t - 1) = Some past /\ f = past + te_val t.

Lemma demand_target lv l h c cmd addr clk f :
  meet l addr = Target ->
  demand lv l ((cmd, addr, clk) :: h) c f <->
  demand lv l h c f \/ exists t, t ∈ timing sp lv cmd /\ te_cmd t = c /\ fresh_demand l ((cmd, addr, clk) :: h) cmd t f.
Proof.
  intros Hm. split.
  - intros (c1 & t & Ht & Hc & Hd). destruct (te_sibling t) eqn:Es.
    + left. exists c1, t. rewrite Es. split_and!; try done. destruct Hd as (past & Hp & ->). exists past. split; [|done].
      rewrite times_cons in Hp. case_decide as He; [destruct He; congruence|done].
    + destruct Hd as (i & past & Hi & Hd & ->). rewrite times_cons in Hi. case_decide as He.
      * destruct He as [-> _]. destruct (decide (te_dist t = Z.of_nat i + 1)) as [Heq|Hne].
        -- right. exists t. split_and!; [done..|]. split; [done|]. exists past. split; [|done]. rewrite times_cons, decide_True by done.
           replace (Z.to_nat (te_dist t - 1)) with i by lia. done.
        -- left. exists c1, t. rewrite Es. split_and!; [done..|]. destruct i as [|i]; simpl in Hi.
           ++ pose proof (so_dist SO _ _ _ Ht). lia.
           ++ exists i, past. split_and!; [done|lia|done].
      * left. exists c1, t. rewrite Es. split_and!; [done..|]. by exists i, past.
  - intros [Hd|(t & Ht & Hc & Hs & past & Hp & ->)]; [by apply demand_mono|].
    exists cmd, t. rewrite Hs. split_and!; [done..|]. exists (Z.to_nat (te_dist t - 1)), past. split_and!; [done| |done].
    pose proof (so_dist SO _ _ _ Ht). lia.
Qed.

(** What the loop of a target does: [next] rises to the new demands of its entries. *)
Definition raised (l : list Z) (h : history) (cmd : C) (ts : list (TimingEntry C)) m m' : Prop :=
  frame m m' /\ prev m' = prev m /\
  forall c, next m c <= next m' c /\ (forall t f, t ∈ ts -> te_cmd t = c -> fresh_demand l h cmd t f -> f <= next m' c) /\
    (next m' c = next m c \/ exists t, t ∈ ts /\ te_cmd t = c /\ fresh_demand l h cmd t (next m' c)).

Lemma raised_none l h cmd ts m : (forall t f, t ∈ ts -> ~ fresh_demand l h cmd t f) -> raised l h cmd ts m m.
Proof.
  intros Hn. split; [done|]. split; [done|]. intros c. split_and!; [lia| |by left]. intros t f Ht _ Hf. by destruct (Hn t f).
Qed.

Lemma raised_trans l h cmd t ts m m1 m2 :
  raised l h cmd [t] m m1 -> raised l h cmd ts m1 m2 -> raised l h cmd (t :: ts) m m2.
Proof.
  intros ([F1 F1'] & P1 & N1) ([F2 F2'] & P2 & N2). split; [split; congruence|]. split; [congruence|].
  intros c. destruct (N1 c) as (A1 & A2 & A3), (N2 c) as (B1 & B2 & B3). split_and!; [lia| |].
  - intros u f Hu Hc Hf. apply elem_of_cons in Hu as [->|Hu]; [|by eapply B2].
    specialize (A2 t f ltac:(left) Hc Hf). lia.
  - destruct B3 as [B3|(u & Hu & Hc & Hf)]; [|right; exists u; split; [by right|done]].
    rewrite B3. destruct A3 as [A3|(u & Hu & Hc & Hf)]; [by left|]. apply list_elem_of_singleton in Hu as ->.
    right. exists t. split; [left|done].
Qed.

Section Entries.
Context (l : list Z) (h : history) (cmd : C) (clk : Z).
Hypothesis Hpos : Forall (Z.le 0) (times Target l cmd h).
Hypothesis Hnow : times Target l cmd h !! 0%nat = Some clk.

(** The history in [prev], filled up with [-1]. *)
Definition history_of m : Prop :=
  forall i, (i < Z.to_nat (max_dist sp (level m) cmd))%nat -> prev m cmd !! i = Some (default (-1) (times Target l cmd h !! i)).

Lemma note_refresh_total m t past :
  t ∈ timing sp (level m) cmd -> times Target l cmd h !! Z.to_nat (te_dist t - 1) = Some past ->
  exists m', note_refresh sp m cmd t past clk = Ret m'.
Proof.
  intros Ht Hp. unfold note_refresh. destruct (is_refreshing sp cmd && is_opening sp (te_cmd t)) eqn:Er; [|by eexists].
  apply andb_prop in Er as [Er1 Er2]. rewrite (so_refresh SO _ _ _ Ht Er1 Er2) in Hp.
  change (Z.to_nat (1 - 1)) with 0%nat in Hp. assert (past = clk) as -> by congruence.
  rewrite Z.eqb_refl. simpl. by eexists.
Qed.

Lemma time_entry_raised m t :
  t ∈ timing sp (level m) cmd -> history_of m ->
  exists m', time_entry sp cmd clk m t = Ret m' /\ raised l h cmd [t] m m'.
Proof.
  intros Ht Hprev. pose proof (so_dist SO _ _ _ Ht) as Hd. pose proof (max_dist_le _ _ _ Ht) as Hmax.
  unfold time_entry. destruct (te_sibling t) eqn:Es.
  { exists m. split; [done|]. apply raised_none. intros u f Hu [Hf _]. apply list_elem_of_singleton in Hu as ->. congruence. }
  specialize (Hprev (Z.to_nat (te_dist t - 1)) ltac:(lia)).
  rewrite (proj2 (at_ret_iff (prev m cmd) (te_dist t - 1) _)) by (split; [lia|exact Hprev]). simpl.
  destruct (times Target l cmd h !! Z.to_nat (te_dist t - 1)) as [past|] eqn:Hp; simpl.
  2:{ exists m. split; [done|]. apply raised_none. intros u f Hu (_ & past & Hf & _).
      apply list_elem_of_singleton in Hu as ->. congruence. }
  assert (Hp0 : 0 <= past) by (by eapply (proj1 (Forall_lookup _ _) Hpos)). rewrite (proj2 (Z.ltb_ge past 0) Hp0).
  destruct (note_refresh_total (raise m (te_cmd t) (past + te_val t)) t past Ht Hp) as [m1 Er].
  exists m1. split; [done|]. apply note_refresh_frame in Er as (F & Hn & Hpv). split; [done|]. split; [done|].
  intros c. rewrite Hn. simpl. destruct (decide (c = te_cmd t)) as [->|Hne].
  - split_and!; [lia| |].
    + intros u f Hu _ (_ & past' & Hf & ->). apply list_elem_of_singleton in Hu as ->. rewrite Hp in Hf. injection Hf as <-. lia.
    + destruct (Z.max_spec (next m (te_cmd t)) (past + te_val t)) as [[_ ->]|[_ ->]]; [right|by left].
      exists t. split; [left|]. split; [done|]. split; [done|]. by exists past.
  - split_and!; [lia| |by left]. intros u f Hu Hc. apply list_elem_of_singleton in Hu as ->. congruence.
Qed.

Lemma time_entries_raised ts m :
  (forall t, t ∈ ts -> t ∈ timing sp (level m) cmd) -> history_of m ->
  exists m', fold_ (time_entry sp cmd clk) ts m = Ret m' /\ raised l h cmd ts m m'.
Proof.
  revert m. induction ts as [|t ts IH]; intros m Hts Hprev.
  { exists m. split; [done|]. apply raised_none. intros t f Ht. by apply elem_of_nil in Ht. }
  destruct (time_entry_raised m t) as (m1 & E1 & R1); [apply Hts; left|done|].
  pose proof R1 as ([F1 _] & P1 & _). cbn [fold_]. rewrite E1. cbn [mbind outcome_bind].
  destruct (IH m1) as (m' & E' & R2).
  { intros u Hu. rewrite F1. apply Hts. by right. } { intros i. rewrite F1, P1. apply Hprev. }
  exists m'. split; [done|]. by eapply raised_trans.
Qed.
End Entries.

Lemma take_shift {A} (x d : A) (l : list A) (k : nat) :
  take (S k) (x :: l ++ replicate (S k) d) = x :: removelast (take (S k) (l ++ replicate (S k) d)).
Proof.
  cbn [take]. f_equal. rewrite removelast_firstn by (rewrite length_app, length_replicate; lia).
  destruct (decide (k <= length l)%nat).
  - by rewrite !take_app_le by lia.
  - rewrite !take_app_ge by lia. by rewrite !take_replicate, !Nat.min_l by lia.
Qed.

Lemma timed_target h l m cmd addr clk :
  timed h l m -> Forall (fun e => 0 <= e.2) h -> 0 <= clk -> meet l addr = Target ->
  exists m', time_target sp m cmd clk = Ret m' /\ timed ((cmd, addr, clk) :: h) l m'.
Proof.
  intros T Hh Hclk Hm. set (h' := (cmd, addr, clk) :: h).
  assert (Hcmd : times Target l cmd h' = clk :: times Target l cmd h) by (unfold h'; by rewrite times_cons, decide_True).
  assert (Hother : forall c, c <> cmd -> times Target l c h' = times Target l c h).
  { intros c Hc. unfold h'. rewrite times_cons, decide_False; [done|]. intros [? _]. congruence. }
  unfold time_target. set (m1 := match prev m cmd with [] => m | _ :: _ => _ end).
  assert (H1 : level m1 = level m /\ next m1 = next m) by (unfold m1; by destruct (prev m cmd)). destruct H1 as [L1 N1].
  assert (P1 : forall c, let d := Z.to_nat (max_dist sp (level m1) c) in
    prev m1 c = take d (times Target l c h' ++ replicate d (-1))).
  { intros c. rewrite L1. pose proof (td_prev _ _ _ T c) as Hc. cbv zeta in Hc |- *. destruct (decide (c = cmd)) as [->|Hne].
    - rewrite Hcmd. unfold m1. destruct (Z.to_nat (max_dist sp (level m) cmd)) as [|k] eqn:Ek; [by rewrite Hc|].
      cbn [app]. rewrite take_shift, <- Hc. destruct (prev m cmd) as [|x pr] eqn:Ep.
      + apply (f_equal length) in Hc. rewrite length_take, length_app, length_replicate in Hc. cbn [length] in Hc. lia.
      + simpl. by rewrite decide_True.
    - rewrite Hother by done. rewrite <- Hc. unfold m1. destruct (prev m cmd); [done|]. simpl. by rewrite decide_False. }
  edestruct (time_entries_raised l h' cmd clk) as (m' & E & R).
  { rewrite Hcmd. constructor; [done|]. by apply times_nonneg. } { by rewrite Hcmd. } { intros t Ht. exact Ht. }
  { intros i Hi. rewrite P1. cbv zeta. rewrite lookup_take_lt by done.
    destruct (times Target l cmd h' !! i) eqn:Ei; [by apply lookup_app_l_Some|].
    rewrite lookup_app_r by (by apply lookup_ge_None_1). apply lookup_replicate. split; [done|]. lia. }
  exists m'. split; [done|]. destruct R as ([F _] & P & N). split.
  - intros c. rewrite F, P. apply P1.
  - intros c f. rewrite F, L1. unfold h'. rewrite (demand_target _ _ _ _ _ _ _ _ Hm). intros [Hd|(t & Ht & Hc & Hf)].
    + apply (td_bound _ _ _ T) in Hd. destruct (N c) as (Hle & _ & _). rewrite N1 in Hle. lia.
    + destruct (N c) as (_ & Hall & _). eapply (Hall t); [by rewrite L1|done|done].
  - intros c. rewrite F, L1. destruct (N c) as (_ & _ & [Heq|(t & Ht & Hc & Hf)]).
    + rewrite Heq, N1. destruct (td_tight _ _ _ T c) as [Hn|Hd]; [by left|right]. by apply demand_mono.
    + right. unfold h'. rewrite (demand_target _ _ _ _ _ _ _ _ Hm). right. exists t. by rewrite <- L1.
Qed.

(** *** A command that targets a sibling, or another part of the tree *)

Lemma demand_sibling lv l h c cmd addr clk f :
  meet l addr = Sibling ->
  demand lv l ((cmd, addr, clk) :: h) c f <->
  demand lv l h c f \/ exists t, t ∈ timing sp lv cmd /\ te_cmd t = c /\ te_sibling t = true /\ f = clk + te_val t.
Proof.
  intros Hm. split.
  - intros (c1 & t & Ht & Hc & Hd). destruct (te_sibling t) eqn:Es.
    + destruct Hd as (past & Hp & ->). rewrite times_cons in Hp. apply elem_of_app in Hp as [Hp|Hp].
      * case_decide as He; [|by apply elem_of_nil in Hp]. apply list_elem_of_singleton in Hp as ->. destruct He as [-> _].
        right. by exists t.
      * left. exists c1, t. rewrite Es. split_and!; [done..|]. by exists past.
    + left. exists c1, t. rewrite Es. split_and!; [done..|]. destruct Hd as (i & past & Hi & Hd).
      rewrite times_cons, decide_False in Hi by (intros [_ ?]; congruence). by exists i, past.
  - intros [Hd|(t & Ht & Hc & Hs & ->)]; [by apply demand_mono|]. exists cmd, t. rewrite Hs. split_and!; [done..|].
    exists clk. split; [|done]. rewrite times_cons, decide_True by done. left.
Qed.

Lemma time_siblings m cmd clk ts :
  (forall t, t ∈ ts -> t ∈ timing sp (level m) cmd) ->
  exists m', fold_ (fun nd t => if te_sibling t then _ ← assert_ (te_dist t =? 1); Ret (raise nd (te_cmd t) (clk + te_val t)) else Ret nd) ts m = Ret m' /\
    frame m m' /\ prev m' = prev m /\
    forall c, next m c <= next m' c /\ (forall t, t ∈ ts -> te_cmd t = c -> te_sibling t = true -> clk + te_val t <= next m' c) /\
      (next m' c = next m c \/ exists t, t ∈ ts /\ te_cmd t = c /\ te_sibling t = true /\ next m' c = clk + te_val t).
Proof.
  revert m. induction ts as [|t ts IH]; intros m Hts.
  { exists m. split_and!; try done. intros c. split_and!; [lia| |by left]. intros t Ht. by apply elem_of_nil in Ht. }
  cbn [fold_]. destruct (te_sibling t) eqn:Es.
  - rewrite (so_sibling SO (level m) cmd t) by (done || apply Hts; left). simpl.
    destruct (IH (raise m (te_cmd t) (clk + te_val t))) as (m' & E & [F1 F2] & P & N). { intros u Hu. apply Hts. by right. }
    exists m'. split; [done|]. split; [done|]. split; [done|]. intros c. destruct (N c) as (A1 & A2 & A3). simpl in A1, A3.
    destruct (decide (c = te_cmd t)) as [->|Hne].
    + split_and!; [lia| |].
      * intros u Hu Hc Hs. apply elem_of_cons in Hu as [->|Hu]; [lia|by apply A2].
      * destruct A3 as [A3|(u & Hu & A3)]; [|right; exists u; split; [by right|done]]. rewrite A3.
        destruct (Z.max_spec (next m (te_cmd t)) (clk + te_val t)) as [[_ ->]|[_ ->]]; [right|by left]. exists t. split; [left|done].
    + split_and!; [lia| |].
      * intros u Hu Hc Hs. apply elem_of_cons in Hu as [->|Hu]; [congruence|by apply A2].
      * destruct A3 as [A3|(u & Hu & A3)]; [by left|right; exists u; split; [by right|done]].
  - destruct (IH m) as (m' & E & F & P & N). { intros u Hu. apply Hts. by right. }
    exists m'. split; [done|]. split; [done|]. split; [done|]. intros c. destruct (N c) as (A1 & A2 & A3). split_and!; [done| |].
    + intros u Hu Hc Hs. apply elem_of_cons in Hu as [->|Hu]; [congruence|by apply A2].
    + destruct A3 as [A3|(u & Hu & A3)]; [by left|right; exists u; split; [by right|done]].
Qed.

(** The parts of [timed] that look at [Target] events only do not change. *)
Lemma times_other l c cmd addr clk h : meet l addr <> Target -> times Target l c ((cmd, addr, clk) :: h) = times Target l c h.
Proof. intros Hm. rewrite times_cons, decide_False; [done|]. intros [_ ?]. congruence. Qed.

Lemma timed_sibling h l m cmd addr clk :
  timed h l m -> meet l addr = Sibling ->
  exists m', time_sibling sp m cmd clk = Ret m' /\ timed ((cmd, addr, clk) :: h) l m'.
Proof.
  intros T Hm. destruct (time_siblings m cmd clk (timing sp (level m) cmd)) as (m' & E & [F _] & P & N); [done|].
  exists m'. split; [done|]. split.
  - intros c. rewrite F, P, times_other by congruence. apply (td_prev _ _ _ T).
  - intros c f. rewrite F, (demand_sibling _ _ _ _ _ _ _ _ Hm). intros [Hd|(t & Ht & Hc & Hs & ->)].
    + apply (td_bound _ _ _ T) in Hd. destruct (N c) as (Hle & _ & _). lia.
    + destruct (N c) as (_ & Hall & _). by apply Hall.
  - intros c. rewrite F. destruct (N c) as (_ & _ & [Heq|(t & Ht & Hc & Hs & Hv)]).
    + rewrite Heq. destruct (td_tight _ _ _ T c) as [Hn|Hd]; [by left|right]. by apply demand_mono.
    + right. rewrite (demand_sibling _ _ _ _ _ _ _ _ Hm). right. by exists t.
Qed.

Lemma timed_away h l m cmd addr clk : timed h l m -> meet l addr = Away -> timed ((cmd, addr, clk) :: h) l m.
Proof.
  intros T Hm. assert (Hd : forall c f, demand (level m) l ((cmd, addr, clk) :: h) c f <-> demand (level m) l h c f).
  { intros c f. split; [|apply demand_mono]. intros (c1 & t & Ht & Hc & Hd). exists c1, t. split_and!; [done..|].
    rewrite times_other in Hd by congruence. rewrite times_cons, decide_False in Hd by (intros [_ ?]; congruence). done. }
  split.
  - intros c. rewrite times_other by congruence. apply (td_prev _ _ _ T).
  - intros c f. rewrite Hd. apply (td_bound _ _ _ T).
  - intros c. setoid_rewrite Hd. apply (td_tight _ _ _ T).
Qed.

Lemma timed_met h l m cmd addr clk :
  timed h l m -> Forall (fun e => 0 <= e.2) h -> 0 <= clk ->
  exists m', met sp (meet l addr) m cmd clk m' /\ timed ((cmd, addr, clk) :: h) l m'.
Proof.
  intros T Hh Hclk. destruct (meet l addr) eqn:Hm; simpl; [by apply timed_target|by apply timed_sibling|].
  exists m. split; [done|]. by apply timed_away.
Qed.
End Timing.

(** ** The whole tree *)

Section Tree.
Context {C St : Type} `{EqDecision C} (sp : standard C St).
Context (SO : standard_ok sp).
Implicit Types (n : dram C St) (m : node C St) (p : list nat).
Abbreviation history := (list (C * list Z * Z)).

(** *** Updates return *)

Lemma update_timing_total n cmd addr clk :
  numbered n ->
  (forall p m, nd_at n p = Some m -> (length p < length addr)%nat /\
     exists m', met sp (meet (ids (nid (root n)) p) addr) m cmd clk m') ->
  exists n', update_timing sp n cmd addr clk = Ret n'.
Proof.
  revert n. induction addr as [|a addr IH]; intros n N Hall.
  { destruct (Hall [] (root n) eq_refl) as [Hl _]. simpl in Hl. lia. }
  destruct (Hall [] (root n) eq_refl) as (_ & m' & Hm'). cbn [update_timing]. simpl in Hm'.
  destruct (Z.eqb_spec (nid (root n)) a) as [Ha|Ha]; simpl in Hm' |- *; rewrite Hm'; simpl; [|by eexists].
  assert (Hk : exists kids, mapM (fun c => update_timing sp c cmd addr clk) (children n) = Ret kids).
  { setoid_rewrite mapM_ret_iff.
    assert (Hc : Forall (fun c => exists c', update_timing sp c cmd addr clk = Ret c') (children n)).
    { apply Forall_lookup. intros i c Hi. destruct (numbered_root n i c N Hi) as [Hid _].
      apply IH; [by eapply numbered_child|]. intros q m Hq. destruct (Hall (i :: q) m) as (Hl & m2 & Hm2).
      { by rewrite nd_at_cons, Hi. }
      split; [simpl in Hl; lia|]. exists m2. rewrite Hid. unfold ids in Hm2. cbn [fmap list_fmap] in Hm2.
      change (meet (nid (root n) :: Z.of_nat i :: (Z.of_nat <$> q)) (a :: addr)) with
        (if nid (root n) =? a then meet (ids (Z.of_nat i) q) addr else Away) in Hm2.
      by rewrite (proj2 (Z.eqb_eq _ _) Ha) in Hm2. }
    induction Hc as [|c cs (c' & Hc') _ (ks & Hks)]; [by exists []|]. exists (c' :: ks). by constructor. }
  destruct Hk as [kids ->]. simpl. by eexists.
Qed.

(** The address leads down the tree, to the scope or to a leaf. *)
Fixpoint fits n (addr : list Z) (sc : nat) {struct addr} : Prop :=
  match addr with
  | _ :: ((i :: _) as rest) =>
      leaf n = true \/ level (root n) = sc \/ exists c, 0 <= i /\ children n !! Z.to_nat i = Some c /\ fits c rest sc
  | _ => False
  end.

Lemma same_timing_refl n : same_timing n n.
Proof. intros p. by destruct (nd_at n p). Qed.

Lemma same_timing_trans n1 n2 n3 : same_timing n1 n2 -> same_timing n2 n3 -> same_timing n1 n3.
Proof.
  intros H1 H2 p. specialize (H1 p). specialize (H2 p). destruct (nd_at n1 p), (nd_at n2 p), (nd_at n3 p); try done.
  destruct H1 as ([? ?] & ? & ?), H2 as ([? ?] & ? & ?). unfold frame. split_and!; congruence.
Qed.

Lemma same_timing_root n m : frame (root n) m -> next m = next (root n) -> prev m = prev (root n) -> same_timing n (set_root n m).
Proof.
  intros F Hn Hp [|i p]; [by rewrite !nd_at_nil|]. rewrite !nd_at_cons. simpl. destruct (children n !! i); simpl; [|done].
  by destruct (nd_at d p).
Qed.

Lemma same_timing_child n i c c' :
  children n !! i = Some c -> same_timing c c' -> same_timing n (set_children n (<[i := c']> (children n))).
Proof.
  intros Hc Hs [|j p]; [by rewrite !nd_at_nil|]. rewrite !nd_at_cons. simpl. destruct (decide (j = i)) as [->|Hne].
  - rewrite list_lookup_insert_eq by (by eapply lookup_lt_Some). rewrite Hc. simpl. apply Hs.
  - rewrite list_lookup_insert_ne by done. destruct (children n !! j) as [d|]; simpl; [|done]. by destruct (nd_at d p).
Qed.

Lemma same_timing_kids n n' i c :
  same_timing n n' -> children n !! i = Some c -> exists c', children n' !! i = Some c' /\ same_timing c c'.
Proof.
  intros Hs Hc. pose proof (Hs [i]) as Hi. rewrite !nd_at_cons, Hc in Hi. simpl in Hi.
  destruct (children n' !! i) as [c'|] eqn:Hc'; [|done]. exists c'. split; [done|].
  intros p. specialize (Hs (i :: p)). by rewrite !nd_at_cons, Hc, Hc' in Hs.
Qed.

Lemma same_timing_leaf n n' : same_timing n n' -> leaf n' = leaf n.
Proof.
  intros Hs. specialize (Hs [0%nat]). rewrite !nd_at_cons in Hs. unfold leaf.
  destruct (children n), (children n'); simpl in Hs; try done.
Qed.

Lemma same_timing_frame n n' : same_timing n n' -> frame (root n) (root n').
Proof. intros Hs. specialize (Hs []). by destruct Hs. Qed.

Lemma same_timing_numbered n n' : same_timing n n' -> numbered n -> numbered n'.
Proof.
  intros Hs N p i m' Hm'. pose proof (Hs (p ++ [i])) as H1. rewrite Hm' in H1.
  destruct (nd_at n (p ++ [i])) as [m|] eqn:Hm; [|done]. destruct H1 as ([L1 I1] & _).
  destruct (N p i m Hm) as (Hi & mp & Hmp & Hl). split; [congruence|]. specialize (Hs p). rewrite Hmp in Hs.
  destruct (nd_at n' p) as [mp'|]; [|done]. destruct Hs as ([L2 _] & _). exists mp'. split; [done|]. congruence.
Qed.

Lemma fits_same n n' addr sc : same_timing n n' -> fits n addr sc -> fits n' addr sc.
Proof.
  revert n n'. induction addr as [|a [|i addr] IH]; intros n n' Hs Hf; try done.
  destruct Hf as [Hf|[Hf|(c & Hi & Hc & Hf)]].
  - left. by rewrite (same_timing_leaf n n').
  - right. left. apply same_timing_frame in Hs as [-> _]. done.
  - right. right. destruct (same_timing_kids n n' _ c Hs Hc) as (c' & Hc' & Hs'). exists c'. split_and!; [done..|].
    by apply (IH c).
Qed.

Lemma lambda_same n cmd i : same_timing n match lambda sp (level (root n)) cmd with Some f => f n i | None => n end.
Proof. destruct (lambda sp _ cmd) eqn:E; [by eapply (so_lambda sp SO)|apply same_timing_refl]. Qed.

Lemma update_state_same n cmd addr n' : update_state sp n cmd addr = Ret n' -> same_timing n n'.
Proof.
  revert n n'. induction addr as [|a addr IH]; intros n n' E; [done|]. cbn [update_state] in E.
  apply bind_ret_inv in E as (i & Hi & E). pose proof (lambda_same n cmd i) as Hl. revert E Hl.
  generalize match lambda sp (level (root n)) cmd with Some f => f n i | None => n end as n1. intros n1 E Hl.
  destruct (_ || _); [by injection E as <-|]. apply bind_ret_inv in E as (c & Hc & E). apply bind_ret_inv in E as (c' & Hc' & E).
  injection E as <-. apply at_ret_iff in Hc as [_ Hc]. eapply same_timing_trans; [done|]. eapply same_timing_child; [done|]. by apply IH.
Qed.

Lemma update_state_cons n cmd a i addr :
  update_state sp n cmd (a :: i :: addr) =
  let n1 := match lambda sp (level (root n)) cmd with Some f => f n i | None => n end in
  if bool_decide (level (root n1) = scope sp cmd) || leaf n1 then Ret n1
  else c ← at_ (children n1) i; c ← update_state sp c cmd (i :: addr); Ret (set_children n1 (<[Z.to_nat i := c]> (children n1))).
Proof. done. Qed.

Lemma update_state_total n cmd addr : fits n addr (scope sp cmd) -> exists n', update_state sp n cmd addr = Ret n'.
Proof.
  revert n. induction addr as [|a [|i addr] IH]; intros n Hf; try done. rewrite update_state_cons.
  pose proof (lambda_same n cmd i) as Hl. revert Hl.
  generalize match lambda sp (level (root n)) cmd with Some f => f n i | None => n end as n1. intros n1 Hl. cbv zeta.
  apply (fits_same n n1) in Hf; [|done]. destruct Hf as [Hf|[Hf|(c & Hi & Hc & Hf)]].
  - rewrite Hf, orb_true_r. by eexists.
  - rewrite bool_decide_true by done. by eexists.
  - destruct (_ || _); [by eexists|]. rewrite (proj2 (at_ret_iff (children n1) i c)) by done. cbn [mbind outcome_bind].
    destruct (IH c Hf) as [c' ->]. by eexists.
Qed.

(** *** The history of the tree *)

Record recorded (rid : Z) (h : history) n : Prop := {
  rec_nid : nid (root n) = rid;
  rec_numbered : numbered n;
  rec_clocks : Forall (fun e => 0 <= e.2) h;
  rec_timed : forall p m, nd_at n p = Some m -> timed sp h (ids rid p) m
}.

Lemma recorded_same rid h n n' : same_timing n n' -> recorded rid h n -> recorded rid h n'.
Proof.
  intros Hs R. split; [|by eapply same_timing_numbered, (rec_numbered _ _ _ R)|by apply R|].
  - apply same_timing_frame in Hs as [_ ->]. apply R.
  - intros p m' Hm'. specialize (Hs p). rewrite Hm' in Hs. destruct (nd_at n p) as [m|] eqn:Hm; [|done].
    destruct Hs as ([L _] & Hn & Hp). destruct (rec_timed _ _ _ R p m Hm) as [T1 T2 T3].
    split; intros c; rewrite L, ?Hn, ?Hp; auto.
Qed.

Lemma recorded_new depth l i : recorded i [] (build sp depth l i).
Proof.
  assert (Hnode : forall l j p m, nd_at (build sp depth l j) p = Some m -> exists l' i', m = newNode sp l' i').
  { clear. induction depth as [|depth IH]; intros l j [|k p] m Hm; try (injection Hm as <-; by eexists _, _).
    - by rewrite nd_at_cons in Hm.
    - rewrite nd_at_cons in Hm. cbn [build children] in Hm. apply bind_Some in Hm as (c & Hc & Hm).
      rewrite list_lookup_fmap in Hc. apply fmap_Some in Hc as (x & _ & ->). by eapply IH. }
  split; [by destruct depth|apply build_numbered|done|].
  intros p m Hm. destruct (Hnode _ _ _ _ Hm) as (l' & i' & ->). split.
  - intros c. simpl. by rewrite take_replicate, Nat.min_id.
  - intros c f (c1 & t & _ & _ & Hd). exfalso. destruct (te_sibling t).
    + destruct Hd as (past & Hp & _). by apply elem_of_nil in Hp.
    + by destruct Hd as (i1 & past & Hp & _).
  - intros c. by left.
Qed.

Lemma update_timing_recorded rid h n cmd addr clk n' :
  recorded rid h n -> 0 <= clk -> update_timing sp n cmd addr clk = Ret n' -> recorded rid ((cmd, addr, clk) :: h) n'.
Proof.
  intros R Hclk E. assert (Hat := fun p => update_timing_at sp n cmd addr clk n' p (rec_numbered _ _ _ R) E).
  assert (Hroot : nid (root n') = rid).
  { specialize (Hat []). destruct Hat as (m' & [= <-] & Hm). apply met_frame in Hm as [_ ->]. apply R. }
  split; [done|by eapply update_timing_numbered, E; apply R|by constructor; [|apply R]|].
  intros p m' Hm'. specialize (Hat p). destruct (nd_at n p) as [m|] eqn:Hm; [|congruence].
  destruct Hat as (m2 & Hm2 & Hmet). assert (m2 = m') as -> by congruence. rewrite (rec_nid _ _ _ R) in Hmet.
  destruct (timed_met sp SO h (ids rid p) m cmd addr clk) as (m3 & Hm3 & T); [by apply R|apply R|done|].
  assert (m3 = m') as <-; [|done]. destruct (meet (ids rid p) addr); simpl in *; congruence.
Qed.

Lemma update_timing_ret rid h n cmd addr clk :
  recorded rid h n -> 0 <= clk -> (forall p m, nd_at n p = Some m -> (length p < length addr)%nat) ->
  exists n', update_timing sp n cmd addr clk = Ret n'.
Proof.
  intros R Hclk Hd. apply update_timing_total; [apply R|]. intros p m Hm. split; [by eapply Hd|].
  destruct (timed_met sp SO h (ids rid p) m cmd addr clk) as (m3 & Hm3 & _); [by apply R|apply R|done|].
  exists m3. by rewrite (rec_nid _ _ _ R).
Qed.

(** The tree [update] hands to [update_timing]. *)
Lemma update_split n cmd addr clk n' :
  update sp n cmd addr clk = Ret n' ->
  exists n1, update_state sp (set_root n (set_cur_clk (root n) clk)) cmd addr = Ret n1 /\ same_timing n n1 /\
    update_timing sp n1 cmd addr clk = Ret n'.
Proof.
  intros E. apply bind_ret_inv in E as (n1 & E1 & E). exists n1. split; [done|]. split; [|done].
  apply update_state_same in E1. eapply same_timing_trans; [|done]. by apply same_timing_root.
Qed.

Lemma update_recorded rid h n cmd addr clk n' :
  recorded rid h n -> 0 <= clk -> update sp n cmd addr clk = Ret n' -> recorded rid ((cmd, addr, clk) :: h) n'.
Proof.
  intros R Hclk E. apply update_split in E as (n1 & _ & Hs & E). eapply update_timing_recorded; [|done|done]. by eapply recorded_same.
Qed.

Lemma update_total rid h n cmd addr clk :
  recorded rid h n -> 0 <= clk -> fits n addr (scope sp cmd) ->
  (forall p m, nd_at n p = Some m -> (length p < length addr)%nat) ->
  exists n', update sp n cmd addr clk = Ret n'.
Proof.
  intros R Hclk Hf Hd. unfold update. set (n0 := set_root n _).
  assert (Hs0 : same_timing n n0) by (by apply same_timing_root).
  destruct (update_state_total n0 cmd addr) as [n1 E1]; [by eapply fits_same|]. rewrite E1. cbn [mbind outcome_bind].
  assert (Hs1 : same_timing n n1) by (eapply same_timing_trans; [done|by eapply update_state_same]).
  eapply update_timing_ret; [by eapply recorded_same|done|]. intros p m1 Hm1. specialize (Hs1 p). rewrite Hm1 in Hs1.
  destruct (nd_at n p) as [m|] eqn:Hm; [|done]. by eapply Hd.
Qed.

(** *** Readiness *)

(** The nodes a command visits: from the root to its scope, along its address. *)
Definition visited n cmd (addr : list Z) p : Prop :=
  is_Some (nd_at n p) /\ ids (nid (root n)) p `prefix_of` addr /\ (level (root n) + length p <= scope sp cmd)%nat.

Lemma visited_root n cmd a addr : nid (root n) = a -> (level (root n) <= scope sp cmd)%nat -> visited n cmd (a :: addr) [].
Proof. intros Hn Hl. split_and!; [by eexists|exists addr; by rewrite Hn|simpl; lia]. Qed.

Lemma visited_cons n cmd a addr i c p :
  numbered n -> nid (root n) = a -> children n !! i = Some c ->
  visited n cmd (a :: addr) (i :: p) <-> visited c cmd addr p.
Proof.
  intros N Ha Hc. destruct (numbered_root n i c N Hc) as [Hi Hl]. unfold visited. rewrite nd_at_cons, Hc, Hi, Hl, Ha.
  unfold ids. cbn [fmap list_fmap]. change (Some c ≫= (fun c0 => nd_at c0 p)) with (nd_at c p).
  split; intros (H1 & H2 & H3); split_and!; try done; simpl in *; try lia;
    [by apply prefix_cons_inv_2 in H2|by apply prefix_cons].
Qed.

(** Below an inner node a command visits the child its address names. *)
Lemma visited_inv n cmd a addr p :
  visited n cmd (a :: addr) p ->
  p = [] \/ exists i q c, p = i :: q /\ at_ addr 0 = Ret (Z.of_nat i) /\ children n !! i = Some c /\ level (root n) <> scope sp cmd.
Proof.
  intros (Hs & Hp & Hl). destruct p as [|i q]; [by left|right]. destruct Hs as [m Hm]. rewrite nd_at_cons in Hm.
  apply bind_Some in Hm as (c & Hc & _). exists i, q, c. split_and!; [done| |done|simpl in Hl; lia].
  unfold ids in Hp. apply prefix_cons_inv_2 in Hp as [k ->]. done.
Qed.

Lemma check_next n cmd addr clk b :
  numbered n -> 0 <= clk -> (level (root n) <= scope sp cmd)%nat -> addr !! 0%nat = Some (nid (root n)) ->
  check sp n cmd addr clk = Ret b ->
  b = true <-> forall p m, visited n cmd addr p -> nd_at n p = Some m -> next m cmd <= clk \/ next m cmd = -1.
Proof.
  intros N Hclk. revert n N. induction addr as [|a addr IH]; intros n N Hsc Ha E; [done|]. injection Ha as Ha. cbn [check] in E.
  destruct (negb (next (root n) cmd =? -1) && (clk <? next (root n) cmd)) eqn:Ew.
  { zb. injection E as <-. split; [done|]. intros Hall. destruct (Hall [] (root n)); [by apply visited_root|done|lia|lia]. }
  assert (Hroot : next (root n) cmd <= clk \/ next (root n) cmd = -1) by (apply andb_false_iff in Ew as [Ew|Ew]; zb; lia).
  apply bind_ret_inv in E as (i & Hi & E).
  destruct ((i <? 0) || bool_decide (level (root n) = scope sp cmd) || leaf n) eqn:Ed.
  { injection E as <-. split; [|done]. intros _ p m Hv Hm. apply visited_inv in Hv as [->|(j & q & c & -> & Hj & Hc & Hl)].
    - by injection Hm as <-.
    - exfalso. rewrite Hj in Hi. injection Hi as <-. rewrite bool_decide_false in Ed by done.
      unfold leaf in Ed. destruct (children n); [done|]. rewrite !orb_false_r in Ed. zb. lia. }
  apply bind_ret_inv in E as (c & Hc & E). apply at_ret_iff in Hc as [Hi0 Hc]. zb.
  destruct (numbered_root n _ c N Hc) as [Hid Hlc].
  rewrite (IH c); [|by eapply numbered_child|lia|rewrite Hid, Z2Nat.id by done; by apply at_ret_iff in Hi as [_ Hi]|done].
  split; intros Hall p m Hv Hm.
  - pose proof Hv as Hv'. apply visited_inv in Hv' as [->|(j & q & c' & -> & Hj & Hc' & _)]; [by injection Hm as <-|].
    rewrite Hj in Hi. injection Hi as <-. rewrite Nat2Z.id in Hc. assert (c' = c) as -> by congruence.
    apply (Hall q); [by eapply visited_cons|]. by rewrite nd_at_cons, Hc in Hm.
  - apply (Hall (Z.to_nat i :: p)); [by eapply visited_cons|]. by rewrite nd_at_cons, Hc.
Qed.

(** [check] is exact: it accepts a command when, and only when, every timing
    constraint of the nodes it visits is met. *)
Lemma check_iff rid h n cmd addr clk b :
  recorded rid h n -> 0 <= clk -> (level (root n) <= scope sp cmd)%nat -> addr !! 0%nat = Some rid ->
  check sp n cmd addr clk = Ret b ->
  b = true <-> forall p f, visited n cmd addr p -> demand sp (level (root n) + length p) (ids rid p) h cmd f -> f <= clk.
Proof.
  intros R Hclk Hl Ha E. rewrite (check_next n cmd addr clk b); [|apply R|done|done|by rewrite (rec_nid _ _ _ R)|done].
  split.
  - intros Hall p f Hv Hd. destruct (proj1 Hv) as [m Hm]. pose proof (rec_timed _ _ _ R p m Hm) as T.
    rewrite <- (numbered_level n p m) in Hd by (done || apply R). apply (td_bound _ _ _ _ T) in Hd.
    destruct (Hall p m Hv Hm); lia.
  - intros Hall p m Hv Hm. pose proof (rec_timed _ _ _ R p m Hm) as T.
    destruct (td_tight _ _ _ _ T cmd) as [Hn|Hd]; [by right|left]. rewrite (numbered_level n p m) in Hd by (done || apply R).
    by apply (Hall p).
Qed.

Lemma check_total n cmd addr clk : fits n addr (scope sp cmd) -> exists b, check sp n cmd addr clk = Ret b.
Proof.
  revert n. induction addr as [|a [|i addr] IH]; intros n Hf; try done.
  change (check sp n cmd (a :: i :: addr) clk) with
    (if negb (next (root n) cmd =? -1) && (clk <? next (root n) cmd) then Ret false
     else if (i <? 0) || bool_decide (level (root n) = scope sp cmd) || leaf n then Ret true
     else c ← at_ (children n) i; check sp c cmd (i :: addr) clk).
  destruct (_ && _); [by eexists|]. destruct Hf as [Hf|[Hf|(c & Hi & Hc & Hf)]].
  - rewrite Hf, !orb_true_r. by eexists.
  - rewrite (bool_decide_true _ Hf), orb_true_r. by eexists.
  - destruct (_ || _); [by eexists|]. rewrite (proj2 (at_ret_iff (children n) i c)) by done. by apply IH.
Qed.

(** Readiness depends on the timing of the nodes only. *)
Lemma check_same n n' cmd addr clk : same_timing n n' -> check sp n' cmd addr clk = check sp n cmd addr clk.
Proof.
  revert n n'. induction addr as [|a addr IH]; intros n n' Hs; [done|]. cbn [check].
  pose proof (Hs []) as H0. rewrite !nd_at_nil in H0. destruct H0 as ([Hl _] & Hn & _). rewrite Hn, Hl, (same_timing_leaf n n' Hs).
  destruct (_ && _); [done|]. destruct (at_ addr 0) as [i|]; [|done]. cbn [mbind outcome_bind]. destruct (_ || _ || _); [done|].
  destruct (at_ (children n) i) as [c|e] eqn:Ec.
  - apply at_ret_iff in Ec as [Hi Hc]. destruct (same_timing_kids n n' _ c Hs Hc) as (c' & Hc' & Hsc).
    rewrite (proj2 (at_ret_iff (children n') i c')) by done. cbn [mbind outcome_bind]. by apply IH.
  - unfold at_ in Ec |- *. case_bool_decide; [|by injection Ec as <-]. destruct (children n !! Z.to_nat i) eqn:Hc; [done|].
    injection Ec as <-. destruct (children n' !! Z.to_nat i) as [c'|] eqn:Hc'; [|done]. exfalso.
    specialize (Hs [Z.to_nat i]). by rewrite !nd_at_cons, Hc, Hc' in Hs.
Qed.

(** Once the longest delay has passed since the last command, every command is ready. *)
Lemma check_late rid h n cmd addr clk last delay :
  recorded rid h n -> 0 <= clk -> (level (root n) <= scope sp cmd)%nat -> addr !! 0%nat = Some rid -> fits n addr (scope sp cmd) ->
  (forall l c t, t ∈ timing sp l c -> te_val t <= delay) -> Forall (fun e => e.2 <= last) h -> last + delay <= clk ->
  check sp n cmd addr clk = Ret true.
Proof.
  intros R Hclk Hl Ha Hf Hval Hlast Hle. destruct (check_total n cmd addr clk Hf) as [b E]. rewrite E. f_equal.
  apply (check_iff rid h n cmd addr clk b R Hclk Hl Ha E). intros p f _ (c1 & t & Ht & _ & Hd). specialize (Hval _ _ _ Ht).
  assert (Hpast : forall k l c past, past ∈ times k l c h -> past <= last).
  { intros k l c past Hp. apply list_elem_of_omap in Hp as ([[c' ad] ck] & Hin & Hp). case_decide; [|done]. injection Hp as ->.
    exact (proj1 (Forall_forall _ _) Hlast _ Hin). }
  destruct (te_sibling t).
  - destruct Hd as (past & Hp & ->). apply Hpast in Hp. lia.
  - destruct Hd as (i & past & Hp & _ & ->). apply list_elem_of_lookup_2, Hpast in Hp. lia.
Qed.

(** *** The earliest time of a command *)

Lemma get_next_loop_spec n cmd below t0 t :
  numbered n -> get_next_loop sp n cmd (level (root n)) below t0 = Ret t ->
  t0 <= t /\ forall clk, t <= clk <-> t0 <= clk /\
    forall p m, p <> [] -> visited n cmd (nid (root n) :: below) p -> nd_at n p = Some m -> next m cmd <= clk.
Proof.
  revert n t0. induction below as [|a below IH]; intros n t0 N E.
  - cbn [get_next_loop] in E. destruct (_ && _) eqn:El; [done|]. injection E as <-. split; [lia|]. intros clk.
    split; [|tauto]. intros Ht. split; [done|]. intros p m Hp Hv Hm. exfalso.
    apply visited_inv in Hv as [->|(i & q & c & -> & Hi & _)]; done.
  - cbn [get_next_loop] in E.
    assert (Hstop : (level (root n) <? scope sp cmd)%nat && negb (leaf n) && (0 <=? a) = false -> forall p,
      p <> [] -> visited n cmd (nid (root n) :: a :: below) p -> False).
    { intros Hs p Hp Hv. pose proof (proj2 (proj2 Hv)) as Hl. apply visited_inv in Hv as [->|(i & q & c & -> & Hi & Hc & Hne)]; [done|].
      injection Hi as ->. simpl in Hl. apply not_true_iff_false in Hs. apply Hs. rewrite !andb_true_iff. split_and!; [apply Nat.ltb_lt; lia| |].
      - unfold leaf. by destruct (children n).
      - apply Z.leb_le. lia. }
    destruct ((level (root n) <? scope sp cmd)%nat && negb (leaf n)) eqn:El; simpl in Hstop.
    2:{ injection E as <-. split; [lia|]. intros clk. split; [|tauto]. intros Ht. split; [done|]. intros p m Hp Hv. by destruct (Hstop eq_refl p). }
    destruct (0 <=? a) eqn:Ea.
    2:{ injection E as <-. split; [lia|]. intros clk. split; [|tauto]. intros Ht. split; [done|]. intros p m Hp Hv. by destruct (Hstop eq_refl p). }
    apply bind_ret_inv in E as (c & Hc & E). apply at_ret_iff in Hc as [Ha Hc].
    destruct (numbered_root n _ c N Hc) as [Hid Hlc]. rewrite <- Hlc in E.
    apply IH in E as [Hle Hclk]; [|by eapply numbered_child]. split; [lia|]. intros clk. rewrite Hclk.
    rewrite Hid, Z2Nat.id in * by done.
    assert (Hvis : forall p, visited n cmd (nid (root n) :: a :: below) (Z.to_nat a :: p) <-> visited c cmd (a :: below) p)
      by (intros p; by apply visited_cons).
    zb. apply Nat.ltb_lt in H. split.
    + intros [Ht Hall]. split; [lia|]. intros p m Hp Hv Hm. pose proof Hv as Hv'.
      apply visited_inv in Hv' as [->|(j & q & c' & -> & Hj & Hc' & _)]; [done|].
      injection Hj as ->. rewrite Nat2Z.id in *. assert (c' = c) as -> by congruence.
      rewrite nd_at_cons, Hc in Hm. simpl in Hm. destruct q as [|k q]; [injection Hm as <-; lia|].
      apply (Hall (k :: q)); [done|by apply Hvis|done].
    + intros [Ht Hall]. split.
      * apply Z.max_lub; [done|]. apply (Hall [Z.to_nat a]); [done| |by rewrite nd_at_cons, Hc]. apply Hvis.
        apply visited_root; [lia|lia].
      * intros p m Hp Hv Hm. apply (Hall (Z.to_nat a :: p)); [done|by apply Hvis|by rewrite nd_at_cons, Hc].
Qed.

(** [get_next] is the first time, from the clock of the node on, at which [check] accepts. *)
Lemma get_next_check n cmd addr clk t b :
  numbered n -> 0 <= cur_clk (root n) <= clk -> (level (root n) <= scope sp cmd)%nat -> addr !! 0%nat = Some (nid (root n)) ->
  get_next sp n cmd addr = Ret t -> check sp n cmd addr clk = Ret b -> b = true <-> t <= clk.
Proof.
  intros N Hclk Hl Ha Eg Ec. destruct addr as [|a addr]; [done|]. injection Ha as Ha.
  apply get_next_loop_spec in Eg as [_ Eg]; [|done]. rewrite Eg. simpl.
  rewrite (check_next n cmd (a :: addr) clk b); [|done|lia|done|by rewrite Ha|done]. rewrite <- Ha. split.
  - intros Hall. split.
    + apply Z.max_lub; [lia|]. destruct (Hall [] (root n)); [by apply visited_root|done|done|lia].
    + intros p m _ Hv Hm. destruct (Hall p m Hv Hm); lia.
  - intros [Hm0 Hall] p m Hv Hm. left. destruct p as [|i p]; [injection Hm as <-; lia|]. by apply (Hall (i :: p)).
Qed.

Lemma update_serving_same n addr delta clk n' : update_serving_requests sp n addr delta clk = Ret n' -> same_timing n n'.
Proof.
  revert n n'. induction addr as [|a addr IH]; intros n n' E; [done|]. cbn [update_serving_requests] in E.
  apply bind_ret_inv in E as ([] & _ & E). apply bind_ret_inv in E as ([] & _ & E). apply bind_ret_inv in E as (s & _ & E).
  apply bind_ret_inv in E as (i & _ & E). assert (Hs : same_timing n (set_root n (set_stats (root n) s))) by (by apply same_timing_root).
  destruct (_ || _ || _); [by injection E as <-|]. apply bind_ret_inv in E as (c & Hc & E). apply bind_ret_inv in E as (c' & Hc' & E).
  injection E as <-. apply at_ret_iff in Hc as [_ Hc]. eapply same_timing_trans; [exact Hs|]. exact (same_timing_child _ _ _ _ Hc (IH _ _ Hc')).
Qed.

(** *** What timing updates keep *)

Definition kept m m' : Prop :=
  state m' = state m /\ row_state m' = row_state m /\
  cur_serving_requests (stats m') = cur_serving_requests (stats m) /\ begin_of_serving (stats m') = begin_of_serving (stats m) /\
  begin_of_cur_reqcnt (stats m') = begin_of_cur_reqcnt (stats m).

Lemma kept_trans m1 m2 m3 : kept m1 m2 -> kept m2 m3 -> kept m1 m3.
Proof. unfold kept. intuition congruence. Qed.

Lemma met_kept k m cmd clk m' : met sp k m cmd clk m' -> kept m m'.
Proof.
  destruct k; simpl; [| |by intros ->].
  - unfold time_target. set (m1 := match prev m cmd with [] => m | _ :: _ => _ end). intros E.
    apply (kept_trans m m1); [unfold m1; by destruct (prev m cmd)|]. revert E.
    apply (fold_invariant _ (fun x => kept m1 x)); [|done]. intros t x x' _ Hx E. eapply kept_trans; [done|].
    unfold time_entry in E. destruct (te_sibling t); [by injection E as <-|]. apply bind_ret_inv in E as (past & _ & E).
    destruct (past <? 0); [by injection E as <-|]. unfold note_refresh in E. case_match; outcome_steps; done.
  - apply (fold_invariant _ (fun x => kept m x)); [|done]. intros t x x' _ Hx E. eapply kept_trans; [done|].
    case_match; outcome_steps; done.
Qed.

(** *** Requests in service, node by node *)

Definition served n (addr : list Z) p : Prop :=
  ids (nid (root n)) p `prefix_of` addr /\ (level (root n) + length p <= S (bank_level sp))%nat.

Lemma served_cons n a addr i c p :
  numbered n -> nid (root n) = a -> children n !! i = Some c -> served n (a :: addr) (i :: p) <-> served c addr p.
Proof.
  intros N Ha Hc. destruct (numbered_root n i c N Hc) as [Hi Hl]. unfold served. rewrite Hi, Hl, Ha.
  unfold ids. cbn [fmap list_fmap length].
  split; intros (H1 & H2); split; try lia; [by apply prefix_cons_inv_2 in H1|by apply prefix_cons].
Qed.

Lemma served_below n a i addr j q :
  served n (a :: i :: addr) (j :: q) -> i = Z.of_nat j /\ (level (root n) <= bank_level sp)%nat.
Proof.
  intros [Hs Hl]. simpl in Hl. split; [|lia]. unfold ids in Hs. apply prefix_cons_inv_2 in Hs. cbn in Hs.
  by apply prefix_cons_inv_1 in Hs.
Qed.

Lemma update_serving_cons n a i addr delta clk :
  update_serving_requests sp n (a :: i :: addr) delta clk =
  (_ ← assert_ (nid (root n) =? a);
   _ ← assert_ ((delta =? 1) || (delta =? -1));
   s ← serve (stats (root n)) delta clk;
   let n1 := set_root n (set_stats (root n) s) in
   if (i <? 0) || leaf n1 || (bank_level sp <? level (root n1))%nat then Ret n1
   else c ← at_ (children n1) i; c ← update_serving_requests sp c (i :: addr) delta clk;
     Ret (set_children n1 (<[Z.to_nat i := c]> (children n1)))).
Proof. done. Qed.

(** The nodes on the path of the request are served, the others stay. *)
Definition served_node n (addr : list Z) (delta clk : Z) p m m' : Prop :=
  state m' = state m /\ row_state m' = row_state m /\
  (served n addr p -> serve (stats m) delta clk = Ret (stats m')) /\ (~ served n addr p -> stats m' = stats m).

Lemma update_serving_at n addr delta clk n' p m :
  numbered n -> (level (root n) <= S (bank_level sp))%nat ->
  update_serving_requests sp n addr delta clk = Ret n' -> nd_at n p = Some m ->
  exists m', nd_at n' p = Some m' /\ served_node n addr delta clk p m m'.
Proof.
  revert n n' p. induction addr as [|a [|i addr] IH]; intros n n' p N Hlv E Hm; [done| |].
  { cbn [update_serving_requests] in E. by outcome_steps. }
  rewrite update_serving_cons in E. apply bind_ret_inv in E as ([] & Ha & E). apply bind_ret_inv in E as ([] & _ & E).
  apply bind_ret_inv in E as (s & Es & E). apply assert_ret_inv in Ha. apply Z.eqb_eq in Ha. cbv zeta in E.
  assert (Hroot : served n (a :: i :: addr) []) by (split; [exists (i :: addr); by rewrite Ha|simpl; lia]).
  destruct ((i <? 0) || leaf _ || (bank_level sp <? level _)%nat) eqn:Ed.
  { injection E as <-. destruct p as [|j q]; [injection Hm as <-; by eexists|].
    exists m. rewrite nd_at_cons in Hm |- *. split; [done|]. split_and!; try done.
    intros Hs. exfalso. apply served_below in Hs as [-> Hl]. apply bind_Some in Hm as (c & Hc & _).
    rewrite !orb_true_iff in Ed. destruct Ed as [[Ed|Ed]|Ed]; [zb; lia|unfold leaf in Ed; simpl in Ed; by destruct (children n)|].
    apply Nat.ltb_lt in Ed. simpl in Ed. lia. }
  apply bind_ret_inv in E as (c & Hc & E). apply bind_ret_inv in E as (c' & Hc' & E). injection E as <-.
  apply at_ret_iff in Hc as [Hi Hc]. simpl in Hc. destruct (numbered_root n _ c N Hc) as [Hid Hlc].
  assert (Hl : (level (root n) <= bank_level sp)%nat) by (zb; apply Nat.ltb_ge in H0; done).
  destruct p as [|j q]; [injection Hm as <-; by eexists|]. rewrite nd_at_cons in Hm.
  setoid_rewrite nd_at_cons. simpl. destruct (decide (j = Z.to_nat i)) as [->|Hne].
  - rewrite list_lookup_insert_eq by (by eapply lookup_lt_Some). rewrite Hc in Hm. simpl in Hm |- *.
    destruct (IH c c' q) as (m' & Hm' & H1 & H2 & H3 & H4); [by eapply numbered_child|lia|done|done|].
    exists m'. split; [done|]. unfold served_node. rewrite (served_cons n a (i :: addr) (Z.to_nat i) c q) by done. done.
  - rewrite list_lookup_insert_ne by done. exists m. split; [done|]. split_and!; try done.
    intros Hs. exfalso. apply served_below in Hs as [-> _]. lia.
Qed.

Lemma update_serving_total n addr delta clk sc :
  numbered n -> fits n addr sc -> (bank_level sp < sc)%nat -> (level (root n) <= S (bank_level sp))%nat ->
  addr !! 0%nat = Some (nid (root n)) -> delta = 1 \/ delta = -1 ->
  (forall p m, nd_at n p = Some m -> served n addr p -> exists s, serve (stats m) delta clk = Ret s) ->
  exists n', update_serving_requests sp n addr delta clk = Ret n'.
Proof.
  intros N Hf Hsc Hlv Ha Hdelta Hall. revert n N Hf Hlv Ha Hall. induction addr as [|a [|i addr] IH]; intros n N Hf Hlv Ha Hall; try done.
  injection Ha as Ha. rewrite update_serving_cons, Ha, Z.eqb_refl.
  replace ((delta =? 1) || (delta =? -1)) with true by (by destruct Hdelta as [-> | ->]).
  destruct (Hall [] (root n) eq_refl) as [s Hs]; [split; [exists (i :: addr); by rewrite Ha|simpl; lia]|]. cbn [assert_ mbind outcome_bind].
  rewrite Hs. cbn [mbind outcome_bind]. cbv zeta. destruct ((i <? 0) || leaf _ || (bank_level sp <? level _)%nat) eqn:Ed; [by eexists|].
  apply orb_false_iff in Ed as [Ed El]. apply orb_false_iff in Ed as [Ei Ed]. apply Nat.ltb_ge in El. simpl in El.
  destruct Hf as [Hf|[Hf|(c & Hi & Hc & Hf)]]; [unfold leaf in *; simpl in Ed; congruence|lia|].
  rewrite (proj2 (at_ret_iff _ i c)) by done. cbn [mbind outcome_bind]. destruct (numbered_root n _ c N Hc) as [Hid Hlc].
  destruct (IH c) as [c' Hc']; [by eapply numbered_child|done|lia|rewrite Hid, Z2Nat.id by done; done| |].
  - intros p m Hm Hs'. apply (Hall (Z.to_nat i :: p)); [by rewrite nd_at_cons, Hc|]. by eapply served_cons.
  - rewrite Hc'. by eexists.
Qed.

(** *** Runs

    A device between its construction and a later time: commands are issued
    when [check] accepts them; the counters of the statistics change at any time. *)
Inductive device_step : history * dram C St -> history * dram C St -> Prop :=
  | step_issue h n cmd addr clk n' :
      check sp n cmd addr clk = Ret true -> update sp n cmd addr clk = Ret n' -> 0 <= clk ->
      addr !! 0%nat = Some (nid (root n)) -> device_step (h, n) ((cmd, addr, clk) :: h, n')
  | step_serve h n addr delta clk n' :
      update_serving_requests sp n addr delta clk = Ret n' -> device_step (h, n) (h, n').

(** Nodes stay where they are. *)
Definition same_shape n n' : Prop :=
  frame (root n) (root n') /\ forall p, is_Some (nd_at n p) <-> is_Some (nd_at n' p).

Lemma same_timing_shape n n' : same_timing n n' -> same_shape n n'.
Proof.
  intros Hs. split; [by apply same_timing_frame|]. intros p. specialize (Hs p).
  by destruct (nd_at n p), (nd_at n' p); try done; rewrite ?is_Some_alt.
Qed.

Lemma same_shape_trans n1 n2 n3 : same_shape n1 n2 -> same_shape n2 n3 -> same_shape n1 n3.
Proof. intros [[F1 F2] H1] [[G1 G2] H2]. split; [split; congruence|]. intros p. by rewrite H1. Qed.

Lemma update_timing_shape n cmd addr clk n' : numbered n -> update_timing sp n cmd addr clk = Ret n' -> same_shape n n'.
Proof.
  intros N E. assert (Hat := fun p => update_timing_at sp n cmd addr clk n' p N E). split.
  - specialize (Hat []). destruct Hat as (m' & [= <-] & Hm). by apply met_frame in Hm.
  - intros p. specialize (Hat p). destruct (nd_at n p) as [m|].
    + destruct Hat as (m' & -> & _). by rewrite !is_Some_alt.
    + by rewrite Hat.
Qed.

Lemma update_shape rid h n cmd addr clk n' : recorded rid h n -> update sp n cmd addr clk = Ret n' -> same_shape n n'.
Proof.
  intros R E. apply update_split in E as (n1 & _ & Hs & E). eapply same_shape_trans; [by apply same_timing_shape|].
  eapply update_timing_shape; [|done]. eapply same_timing_numbered; [done|apply R].
Qed.

Definition obeyed (n0 : dram C St) (h : history) : Prop :=
  forall h2 cmd addr clk h1, h = h2 ++ (cmd, addr, clk) :: h1 ->
  forall p f, visited n0 cmd addr p -> demand sp (level (root n0) + length p) (ids (nid (root n0)) p) h1 cmd f -> f <= clk.

Lemma visited_shape n n' cmd addr p : same_shape n n' -> visited n cmd addr p <-> visited n' cmd addr p.
Proof. intros [[F1 F2] Hs]. unfold visited. by rewrite Hs, F1, F2. Qed.

(** A command that [check] accepts keeps the history obeyed. *)
Lemma obeyed_cons n0 h n cmd addr clk :
  (level (root n0) <= scope sp cmd)%nat -> recorded (nid (root n0)) h n -> same_shape n0 n -> obeyed n0 h -> 0 <= clk ->
  addr !! 0%nat = Some (nid (root n)) -> check sp n cmd addr clk = Ret true -> obeyed n0 ((cmd, addr, clk) :: h).
Proof.
  intros Hl R Sh Ob Hclk Ha Ec. pose proof Sh as [[F1 F2] _].
  intros [|e h2] cmd' addr' clk' h1 Heq p f Hv Hd; [|injection Heq as _ ->; by eapply Ob].
  injection Heq as <- <- <- <-. rewrite <- F1 in Hd. rewrite (visited_shape n0 n) in Hv by done.
  eapply (check_iff _ h n cmd addr clk true); [done|done|by rewrite F1|by rewrite <- F2|done|done|done|done].
Qed.

Lemma device_run n0 s s' :
  (forall cmd, (level (root n0) <= scope sp cmd)%nat) -> rtc device_step s s' ->
  (recorded (nid (root n0)) s.1 s.2 /\ same_shape n0 s.2 /\ obeyed n0 s.1) ->
  recorded (nid (root n0)) s'.1 s'.2 /\ same_shape n0 s'.2 /\ obeyed n0 s'.1.
Proof.
  intros Hl Hr. revert s s' Hr. apply rtc_invariant with (I := fun s => recorded (nid (root n0)) s.1 s.2 /\ same_shape n0 s.2 /\ obeyed n0 s.1).
  intros s s' (R & Sh & Ob) Hstep.
  destruct Hstep as [h n cmd addr clk n' Ec Eu Hclk Ha|h n addr delta clk n' Eu]; simpl in *.
  - split_and!; [by eapply update_recorded|eapply same_shape_trans; [done|by eapply update_shape]|by eapply obeyed_cons].
  - apply update_serving_same in Eu. split_and!; [by eapply recorded_same| |done].
    eapply same_shape_trans; [done|by apply same_timing_shape].
Qed.

(** From a new device on, [check] is exact and no command was early. *)
Lemma device_exact depth l rid h n :
  (forall cmd, (l <= scope sp cmd)%nat) -> rtc device_step ([], build sp depth l rid) (h, n) ->
  recorded rid h n /\ same_shape (build sp depth l rid) n /\ obeyed (build sp depth l rid) h.
Proof.
  intros Hl Hr. assert (Hroot : level (root (build sp depth l rid)) = l /\ nid (root (build sp depth l rid)) = rid) by (by destruct depth).
  destruct Hroot as [Hr1 Hr2]. rewrite <- Hr2 at 1. eapply (device_run _ _ (h, n)); [by rewrite Hr1|done|]. simpl. rewrite Hr2.
  split_and!; [apply recorded_new|split; [done|tauto]|]. by intros [] ? ? ? ? [=].
Qed.
End Tree.
