(* ===== verification/Hmc.v ===== *)
(** * The HMC standard

    [src/src/ramulator/HMC.h] and [src/src/ramulator/HMC.cpp] as an instance of
    the device tree of [Dram]: commands and states of a vault, which command
    has to precede which ([init_prereq]), hits and open rows ([init_rowhit],
    [init_rowopen]), state transitions ([init_lambda]) and timing constraints
    ([init_timing]) for both speeds.

    The theory: the standard satisfies the laws of [Dram]; in every reachable
    vault a bank is closed or has exactly one open row; decoding a read or a
    write leads through precharge and activation to the access. *)

From S2P Require Import Prelude AddrMap Packet Dram.

(** ** Commands, states, speeds *)

(** [HMC::Command] without [MAX]. *)
Inductive DramCommand : Type := ACT | PRE | PREA | RD | WR | RDA | WRA | REF | PDE | PDX | SRE | SRX.

#[global] Instance DramCommand_eq_dec : EqDecision DramCommand.
Proof. solve_decision. Defined.

(** [HMC::State]; [NoState] is [State::MAX]. *)
Inductive DramState : Type := Opened | Closed | PowerUp | ActPowerDown | PrePowerDown | SelfRefresh | NoState.

#[global] Instance DramState_eq_dec : EqDecision DramState.
Proof. solve_decision. Defined.

Definition hmc_scope (c : DramCommand) : nat :=
  level_index match c with
  | ACT => Row | PRE => Bank | PREA => Vault
  | RD | WR | RDA | WRA => Column
  | REF | PDE | PDX | SRE | SRX => Vault
  end.

Definition hmc_is_opening (c : DramCommand) : bool := match c with ACT => true | _ => false end.
Definition hmc_is_accessing (c : DramCommand) : bool := match c with RD | WR | RDA | WRA => true | _ => false end.
Definition hmc_is_closing (c : DramCommand) : bool := match c with RDA | WRA | PRE | PREA => true | _ => false end.
Definition hmc_is_refreshing (c : DramCommand) : bool := match c with REF => true | _ => false end.

Definition hmc_start (l : nat) : DramState :=
  match l with 0%nat => PowerUp | 2%nat | 3%nat => Closed | _ => NoState end.

(** [translate]: five initialisers; the two remaining elements are the first command. *)
Definition translate (t : ReqType) : DramCommand :=
  match t with
  | READ => RD | WRITE => WR | REFRESH => REF | POWERDOWN => PDE | SELFREFRESH => SRE
  | EXTENSION | INSTRUCTION => ACT
  end.

(** [SpeedEntry], in cycles; [rate], [freq] and [tCK] are not used. *)
Record SpeedEntry : Type := mkSpeed {
  nBL : Z; nCCDS : Z; nCCDL : Z; nRTRS : Z;
  nCL : Z; nRCD : Z; nRP : Z; nCWL : Z;
  nRAS : Z; nRC : Z;
  nRTP : Z; nWTRS : Z; nWTRL : Z; nWR : Z;
  nRRDS : Z; nRRDL : Z; nFAW : Z;
  nRFC : Z; nREFI : Z;
  nPD : Z; nXP : Z; nXPDLL : Z;
  nCKESR : Z; nXS : Z; nXSDLL : Z
}.

Inductive Speed : Type := HMC_2500 | HMC_2500_unlimit_bandwidth.

Definition speed_table (s : Speed) : SpeedEntry :=
  match s with
  | HMC_2500 => mkSpeed 4 4 6 2 17 17 17 13 34 51 9 3 9 19 7 8 17 200 9750 6 8 0 7 0 0
  | HMC_2500_unlimit_bandwidth => mkSpeed 0 1 1 2 17 17 17 13 34 51 9 3 9 19 7 8 17 200 9750 6 8 0 7 0 0
  end.

Definition read_latency (s : SpeedEntry) : Z := nCL s + nBL s.

(** ** The tables of functions *)

Abbreviation vault := (dram DramCommand DramState).
Abbreviation vnode := (node DramCommand DramState).

(** Loops over the banks of a vault: [for (bg : node->children) for (bank : bg->children)]. *)
Definition banks (n : vault) : list vault := bg ← children n; children bg.
Definition map_banks (f : vnode -> vnode) (n : vault) : vault :=
  set_children n (map (fun bg => set_children bg (map (fun b => set_root b (f (root b))) (children bg))) (children n)).
Definition some_bank_open (n : vault) : bool :=
  existsb (fun b => negb (bool_decide (state (root b) = Closed))) (banks n).

Definition prereq_access (n : vault) (cmd : DramCommand) (id : Z) : outcome (option DramCommand) :=
  match state (root n) with
  | PowerUp => Ret None
  | ActPowerDown => Ret (Some PDX)
  | PrePowerDown => Ret (Some PDX)
  | SelfRefresh => Ret (Some SRX)
  | _ => Stop AssertFailed
  end.

Definition prereq_bank (n : vault) (cmd : DramCommand) (id : Z) : outcome (option DramCommand) :=
  match state (root n) with
  | Closed => Ret (Some ACT)
  | Opened => match row_state (root n) !! id with Some _ => Ret (Some cmd) | None => Ret (Some PRE) end
  | _ => Stop AssertFailed
  end.

Definition prereq_refresh (n : vault) (cmd : DramCommand) (id : Z) : outcome (option DramCommand) :=
  Ret (Some (if some_bank_open n then PREA else REF)).

Definition prereq_powerdown (n : vault) (cmd : DramCommand) (id : Z) : outcome (option DramCommand) :=
  match state (root n) with
  | PowerUp | ActPowerDown | PrePowerDown => Ret (Some PDE)
  | SelfRefresh => Ret (Some SRX)
  | _ => Stop AssertFailed
  end.

Definition prereq_selfrefresh (n : vault) (cmd : DramCommand) (id : Z) : outcome (option DramCommand) :=
  match state (root n) with
  | PowerUp => Ret (Some SRE)
  | ActPowerDown | PrePowerDown => Ret (Some PDX)
  | SelfRefresh => Ret (Some SRE)
  | _ => Stop AssertFailed
  end.

Definition hmc_prereq (l : nat) (cmd : DramCommand) : option (vault -> DramCommand -> Z -> outcome (option DramCommand)) :=
  match l, cmd with
  | 0%nat, RD | 0%nat, WR => Some prereq_access
  | 2%nat, RD | 2%nat, WR => Some prereq_bank
  | 0%nat, REF => Some prereq_refresh
  | 0%nat, PDE => Some prereq_powerdown
  | 0%nat, SRE => Some prereq_selfrefresh
  | _, _ => None
  end.

Definition hit_bank (n : vault) (cmd : DramCommand) (id : Z) : outcome bool :=
  match state (root n) with
  | Closed => Ret false
  | Opened => Ret match row_state (root n) !! id with Some _ => true | None => false end
  | _ => Stop AssertFailed
  end.

Definition hmc_rowhit (l : nat) (cmd : DramCommand) : option (vault -> DramCommand -> Z -> outcome bool) :=
  match l, cmd with 2%nat, RD | 2%nat, WR => Some hit_bank | _, _ => None end.

Definition open_bank (n : vault) (cmd : DramCommand) (id : Z) : outcome bool :=
  match state (root n) with Closed => Ret false | Opened => Ret true | _ => Stop AssertFailed end.

Definition hmc_rowopen (l : nat) (cmd : DramCommand) : option (vault -> DramCommand -> Z -> outcome bool) :=
  match l, cmd with 2%nat, RD | 2%nat, WR => Some open_bank | _, _ => None end.

(** State transitions. *)
Definition open_row (id : Z) (m : vnode) : vnode := set_state_rows m Opened (<[id := Opened]> (row_state m)).
Definition close_rows (m : vnode) : vnode := set_state_rows m Closed ∅.
Definition set_node_state (s : DramState) (m : vnode) : vnode := set_state_rows m s (row_state m).

Definition hmc_lambda (l : nat) (cmd : DramCommand) : option (vault -> Z -> vault) :=
  match l, cmd with
  | 2%nat, ACT => Some (fun n id => set_root n (open_row id (root n)))
  | 2%nat, PRE | 2%nat, RDA | 2%nat, WRA => Some (fun n _ => set_root n (close_rows (root n)))
  | 0%nat, PREA => Some (fun n _ => map_banks close_rows n)
  | 0%nat, REF | 2%nat, RD | 2%nat, WR => Some (fun n _ => n)
  | 0%nat, PDE => Some (fun n _ => set_root n (set_node_state (if some_bank_open n then ActPowerDown else PrePowerDown) (root n)))
  | 0%nat, PDX | 0%nat, SRX => Some (fun n _ => set_root n (set_node_state PowerUp (root n)))
  | 0%nat, SRE => Some (fun n _ => set_root n (set_node_state SelfRefresh (root n)))
  | _, _ => None
  end.

(** ** Timing *)

(** [timing[level][c].push_back({cmd, dist, val})]; [sibling] is left at false. *)
Definition push (l : Level) (c cmd : DramCommand) (dist val : Z) : nat * DramCommand * TimingEntry DramCommand :=
  (level_index l, c, mkTiming cmd dist val false).

(** [init_timing], in the order of the source. *)
Definition init_timing (s : SpeedEntry) : list (nat * DramCommand * TimingEntry DramCommand) :=
    [push Vault RD RD 1 (nBL s); push Vault RD RDA 1 (nBL s);
     push Vault RDA RD 1 (nBL s); push Vault RDA RDA 1 (nBL s);
     push Vault WR WR 1 (nBL s); push Vault WR WRA 1 (nBL s);
     push Vault WRA WR 1 (nBL s); push Vault WRA WRA 1 (nBL s);
     push Vault RD RD 1 (nCCDS s); push Vault RD RDA 1 (nCCDS s);
     push Vault RDA RD 1 (nCCDS s); push Vault RDA RDA 1 (nCCDS s);
     push Vault WR WR 1 (nCCDS s); push Vault WR WRA 1 (nCCDS s);
     push Vault WRA WR 1 (nCCDS s); push Vault WRA WRA 1 (nCCDS s);
     push Vault RD WR 1 (nCL s + nCCDS s + 2 - nCWL s); push Vault RD WRA 1 (nCL s + nCCDS s + 2 - nCWL s);
     push Vault RDA WR 1 (nCL s + nCCDS s + 2 - nCWL s); push Vault RDA WRA 1 (nCL s + nCCDS s + 2 - nCWL s);
     push Vault WR RD 1 (nCWL s + nBL s + nWTRS s); push Vault WR RDA 1 (nCWL s + nBL s + nWTRS s);
     push Vault WRA RD 1 (nCWL s + nBL s + nWTRS s); push Vault WRA RDA 1 (nCWL s + nBL s + nWTRS s);
     push Vault RD PREA 1 (nRTP s); push Vault WR PREA 1 (nCWL s + nBL s + nWR s);
     push Vault RD PDE 1 (nCL s + nBL s + 1); push Vault RDA PDE 1 (nCL s + nBL s + 1);
     push Vault WR PDE 1 (nCWL s + nBL s + nWR s); push Vault WRA PDE 1 (nCWL s + nBL s + nWR s + 1);
     push Vault PDX RD 1 (nXP s); push Vault PDX RDA 1 (nXP s);
     push Vault PDX WR 1 (nXP s); push Vault PDX WRA 1 (nXP s);
     push Vault ACT ACT 1 (nRRDS s); push Vault ACT ACT 4 (nFAW s);
     push Vault ACT PREA 1 (nRAS s); push Vault PREA ACT 1 (nRP s);
     push Vault PRE REF 1 (nRP s); push Vault PREA REF 1 (nRP s);
     push Vault REF ACT 1 (nRFC s); push Vault ACT PDE 1 1;
     push Vault PDX ACT 1 (nXP s); push Vault PDX PRE 1 (nXP s);
     push Vault PDX PREA 1 (nXP s); push Vault PRE SRE 1 (nRP s);
     push Vault PREA SRE 1 (nRP s); push Vault SRX ACT 1 (nXS s);
     push Vault REF REF 1 (nRFC s); push Vault REF PDE 1 1;
     push Vault PDX REF 1 (nXP s); push Vault SRX REF 1 (nXS s);
     push Vault PDE PDX 1 (nPD s); push Vault PDX PDE 1 (nXP s);
     push Vault PDX SRE 1 (nXP s); push Vault SRX PDE 1 (nXS s);
     push Vault SRE SRX 1 (nCKESR s); push Vault SRX SRE 1 (nXS s);
     push BankGroup RD RD 1 (nCCDL s); push BankGroup RD RDA 1 (nCCDL s);
     push BankGroup RDA RD 1 (nCCDL s); push BankGroup RDA RDA 1 (nCCDL s);
     push BankGroup WR WR 1 (nCCDL s); push BankGroup WR WRA 1 (nCCDL s);
     push BankGroup WRA WR 1 (nCCDL s); push BankGroup WRA WRA 1 (nCCDL s);
     push BankGroup WR RD 1 (nCWL s + nBL s + nWTRL s); push BankGroup WR RDA 1 (nCWL s + nBL s + nWTRL s);
     push BankGroup WRA RD 1 (nCWL s + nBL s + nWTRL s); push BankGroup WRA RDA 1 (nCWL s + nBL s + nWTRL s);
     push BankGroup ACT ACT 1 (nRRDL s); push Bank ACT RD 1 (nRCD s);
     push Bank ACT RDA 1 (nRCD s); push Bank ACT WR 1 (nRCD s);
     push Bank ACT WRA 1 (nRCD s); push Bank RD PRE 1 (nRTP s);
     push Bank WR PRE 1 (nCWL s + nBL s + nWR s); push Bank RDA ACT 1 (nRTP s + nRP s);
     push Bank WRA ACT 1 (nCWL s + nBL s + nWR s + nRP s); push Bank ACT ACT 1 (nRC s);
     push Bank ACT PRE 1 (nRAS s); push Bank PRE ACT 1 (nRP s)].

Definition hmc_timing (s : SpeedEntry) (l : nat) (c : DramCommand) : list (TimingEntry DramCommand) :=
  omap (fun '(l', c', t) => if decide (l' = l /\ c' = c) then Some t else None) (init_timing s).

(** ** The standard *)

Definition HMC (count : list Z) (s : SpeedEntry) : standard DramCommand DramState :=
  mkStandard hmc_start (fun l => nth l count 0) (level_index Bank) (level_index Row) hmc_scope hmc_prereq hmc_rowhit
    hmc_rowopen hmc_lambda (hmc_timing s) hmc_is_opening hmc_is_accessing hmc_is_closing hmc_is_refreshing.

(** The channel of a vault: [new DRAM<HMC>(spec, HMC::Level::Vault)], with [vault->id = id]. *)
Definition new_vault (org : Org) (s : Speed) (id : Z) : vault :=
  let n := newDRAM (HMC (org_count org) (speed_table s)) (level_index Vault) in
  set_root n (set_nid (root n) id).

(** ** The laws of the standard *)

Implicit Types (n : vault) (m : vnode) (p : list nat).

Lemma elem_of_hmc_timing s l c t : t ∈ hmc_timing s l c <-> (l, c, t) ∈ init_timing s.
Proof.
  unfold hmc_timing. rewrite list_elem_of_omap. split.
  - intros ([[l' c'] t'] & Hin & Ht). case_decide as Hd; [|done]. destruct Hd as [-> ->]. by injection Ht as ->.
  - intros Hin. exists (l, c, t). split; [done|]. by rewrite decide_True.
Qed.

(** All distances are 1 but that of the four-activation window; no entry is for siblings. *)
Lemma init_timing_entries s :
  Forall (fun '(l, c, t) => te_sibling t = false /\ (te_dist t = 1 \/ c = ACT /\ te_dist t = 4)) (init_timing s).
Proof. unfold init_timing. repeat (apply Forall_cons_2; [split; simpl; auto|]). apply Forall_nil_2. Qed.

Lemma hmc_entry s l c t : t ∈ hmc_timing s l c -> te_sibling t = false /\ (te_dist t = 1 \/ c = ACT /\ te_dist t = 4).
Proof. intros Ht. apply elem_of_hmc_timing in Ht. exact (proj1 (Forall_forall _ _) (init_timing_entries s) _ Ht). Qed.

Lemma map_banks_at f n p :
  nd_at (map_banks f n) p = (if decide (length p = 2%nat) then f <$> nd_at n p else nd_at n p).
Proof.
  destruct p as [|i [|j [|k p]]]; try done; rewrite !nd_at_cons; simpl.
  - rewrite list_lookup_fmap. by destruct (children n !! i).
  - rewrite list_lookup_fmap. destruct (children n !! i) as [bg|]; simpl; [|done]. rewrite !nd_at_cons. simpl.
    rewrite list_lookup_fmap. by destruct (children bg !! j).
  - rewrite list_lookup_fmap. destruct (children n !! i) as [bg|]; simpl; [|done]. rewrite !nd_at_cons. simpl.
    rewrite list_lookup_fmap. destruct (children bg !! j) as [b|]; simpl; [|done]. rewrite !nd_at_cons. simpl. done.
Qed.

Lemma set_root_at n m p : nd_at (set_root n m) p = match p with [] => Some m | _ :: _ => nd_at n p end.
Proof. destruct p; [done|]. by rewrite !nd_at_cons. Qed.

Lemma set_child_at n i (c c' : vault) p :
  children n !! i = Some c ->
  nd_at (set_children n (<[i := c']> (children n))) p =
  match p with j :: q => if decide (j = i) then nd_at c' q else nd_at n p | [] => nd_at n [] end.
Proof.
  intros Hc. destruct p as [|j q]; [done|]. rewrite nd_at_cons. simpl. case_decide as Hd.
  - subst. rewrite list_lookup_insert_eq by (by eapply lookup_lt_Some). done.
  - rewrite list_lookup_insert_ne by done. by rewrite nd_at_cons.
Qed.

(** A transition that keeps the timing of every node. *)
Lemma map_banks_same f n : (forall m, frame m (f m) /\ next (f m) = next m /\ prev (f m) = prev m) -> same_timing n (map_banks f n).
Proof.
  intros Hf p. rewrite map_banks_at. destruct (nd_at n p) as [m|]; case_decide; simpl; try done.
Qed.

Lemma hmc_standard_ok cnt s : standard_ok (HMC cnt s).
Proof.
  split; simpl.
  - intros l c t Ht. apply hmc_entry in Ht as [_ [->|[_ ->]]]; lia.
  - intros l c t Ht Hs. apply hmc_entry in Ht as [? _]. congruence.
  - intros l c t Ht Hr _. apply hmc_entry in Ht as [_ [->|[-> _]]]; done.
  - intros l c f Hf n i. destruct l as [|[|[|l]]], c; simplify_eq/=;
      first [by apply same_timing_refl | by apply same_timing_root | by apply map_banks_same].
Qed.

Lemma hmc_scope_root c : (0 <= hmc_scope c)%nat.
Proof. lia. Qed.

Lemma new_vault_build org s id : new_vault org s id = build (HMC (org_count org) (speed_table s)) 2 0 id.
Proof. done. Qed.

(** The longest delay is that of a refresh. *)
Lemma hmc_delay cnt sp' l c t : t ∈ timing (HMC cnt (speed_table sp')) l c -> te_val t <= 200.
Proof.
  cbn [HMC timing]. intros Ht. apply elem_of_hmc_timing in Ht. assert (Hall : Forall (fun e => te_val e.2 <= 200) (init_timing (speed_table sp'))).
  { destruct sp'; unfold init_timing; repeat (apply Forall_cons_2; [simpl; lia|]); apply Forall_nil_2. }
  exact (proj1 (Forall_forall _ _) Hall _ Ht).
Qed.

(** ** Vaults in operation *)

(** A bank is closed, or has exactly one open row. *)
Definition closed_bank m : Prop := state m = Closed /\ row_state m = ∅.
Definition opened_bank m (r : Z) : Prop := state m = Opened /\ row_state m = {[ r := Opened ]}.

Definition in_shape (bgs bks : nat) p : Prop :=
  match p with
  | [] => True
  | [i] => (i < bgs)%nat
  | [i; j] => (i < bgs)%nat /\ (j < bks)%nat
  | _ => False
  end.

Record vault_ok (bgs bks : nat) n : Prop := {
  vk_level : level (root n) = 0%nat;
  vk_power : state (root n) = PowerUp;
  vk_shape : forall p, is_Some (nd_at n p) <-> in_shape bgs bks p;
  vk_banks : forall i j m, nd_at n [i; j] = Some m -> closed_bank m \/ exists r, opened_bank m r
}.

(** The components of a request's address that name a bank of the vault. *)
Definition in_vault (bgs bks : nat) (bg bk : Z) : Prop := 0 <= bg < Z.of_nat bgs /\ 0 <= bk < Z.of_nat bks.

Section Vaults.
Context (cnt : list Z) (s : SpeedEntry) (bgs bks : nat).
Abbreviation sp := (HMC cnt s).

Lemma nd_at_sub n p m : nd_at n p = Some m -> exists b, sub n p = Some b /\ root b = m.
Proof. unfold nd_at. intros H. apply fmap_Some in H as (b & Hb & ->). eauto. Qed.

Lemma vault_path n bg bk :
  numbered n -> vault_ok bgs bks n -> in_vault bgs bks bg bk ->
  exists g b, children n !! Z.to_nat bg = Some g /\ children g !! Z.to_nat bk = Some b /\
    level (root g) = 1%nat /\ level (root b) = 2%nat /\ children b = [] /\
    nid (root g) = bg /\ nid (root b) = bk.
Proof.
  intros N V [Hg Hb]. destruct (proj2 (vk_shape _ _ _ V [Z.to_nat bg; Z.to_nat bk])) as [m Hm]; [simpl; lia|].
  rewrite nd_at_cons in Hm. apply bind_Some in Hm as (g & Eg & Hm). rewrite nd_at_cons in Hm.
  apply bind_Some in Hm as (b & Eb & Hm). destruct (numbered_root _ _ _ N Eg) as [I1 L1].
  destruct (numbered_root _ _ _ (numbered_child _ _ _ N Eg) Eb) as [I2 L2].
  exists g, b. split_and!; try done; [rewrite L1, (vk_level _ _ _ V); done|rewrite L2, L1, (vk_level _ _ _ V); done| |lia|lia].
  destruct (children b) as [|x l] eqn:Ex; [done|]. exfalso.
  apply (vk_shape _ _ _ V [Z.to_nat bg; Z.to_nat bk; 0%nat]). exists (root x). by rewrite nd_at_cons, Eg; simpl; rewrite nd_at_cons, Eb; simpl; rewrite nd_at_cons, Ex.
Qed.

Lemma vault_bank n g b bg bk :
  children n !! Z.to_nat bg = Some g -> children g !! Z.to_nat bk = Some b -> nd_at n [Z.to_nat bg; Z.to_nat bk] = Some (root b).
Proof. intros Eg Eb. rewrite nd_at_cons, Eg. simpl. by rewrite nd_at_cons, Eb. Qed.

Lemma vault_fits n v bg bk row col sc :
  numbered n -> vault_ok bgs bks n -> in_vault bgs bks bg bk -> fits n [v; bg; bk; row; col] sc.
Proof.
  intros N V HB. destruct (vault_path n bg bk N V HB) as (g & b & Eg & Eb & _ & _ & Ec & _). destruct HB.
  right. right. exists g. split_and!; [lia|done|]. right. right. exists b. split_and!; [lia|done|]. left. unfold leaf. by rewrite Ec.
Qed.

(** *** Decoding *)

Lemma decode_access n cmd v bg bk row col m :
  numbered n -> vault_ok bgs bks n -> in_vault bgs bks bg bk -> cmd = RD \/ cmd = WR ->
  nd_at n [Z.to_nat bg; Z.to_nat bk] = Some m ->
  (closed_bank m -> decode sp n cmd [v; bg; bk; row; col] = Ret ACT) /\
  (forall r, opened_bank m r -> decode sp n cmd [v; bg; bk; row; col] = Ret (if decide (r = row) then cmd else PRE)).
Proof.
  intros N V HB Hcmd Hm. destruct (vault_path n bg bk N V HB) as (g & b & Eg & Eb & Lg & Lb & Ec & _).
  rewrite (vault_bank n g b bg bk Eg Eb) in Hm. injection Hm as <-. destruct HB as [HB1 HB2].
  assert (E : decode sp n cmd [v; bg; bk; row; col] = (pre ← prereq_bank b cmd row; Ret (default cmd pre))).
  { cbn [decode]. change (at_ [bg; bk; row; col] 0) with (Ret bg). change (at_ [bk; row; col] 0) with (Ret bk).
    change (at_ [row; col] 0) with (Ret row). cbn [mbind outcome_bind]. rewrite (vk_level _ _ _ V).
    assert (H0 : prereq sp 0 cmd = Some prereq_access) by (by destruct Hcmd as [-> | ->]).
    assert (H1 : prereq sp 1 cmd = None) by (by destruct Hcmd as [-> | ->]).
    assert (H2 : prereq sp 2 cmd = Some prereq_bank) by (by destruct Hcmd as [-> | ->]).
    rewrite H0. unfold prereq_access. rewrite (vk_power _ _ _ V). cbn [mbind outcome_bind].
    rewrite (proj2 (Z.ltb_ge bg 0)), (proj2 (at_ret_iff (children n) bg g)) by (try split; lia || done).
    unfold leaf at 1. destruct (children n) eqn:En; [done|]. cbn [orb mbind outcome_bind].
    rewrite Lg, H1. cbn [mbind outcome_bind].
    rewrite (proj2 (Z.ltb_ge bk 0)), (proj2 (at_ret_iff (children g) bk b)) by (try split; lia || done).
    unfold leaf at 1. destruct (children g) eqn:Eg'; [done|]. cbn [orb mbind outcome_bind].
    rewrite Lb, H2. unfold prereq_bank. by destruct (state (root b)); simpl; try done; destruct (row_state (root b) !! row). }
  rewrite E. unfold prereq_bank. split.
  - intros [-> _]. done.
  - intros r [-> ->]. destruct (decide (r = row)) as [->|Hne]; [by rewrite lookup_singleton_eq|by rewrite lookup_singleton_ne].
Qed.

Lemma check_row_bank table f n cmd v bg bk row col m :
  numbered n -> vault_ok bgs bks n -> in_vault bgs bks bg bk -> nd_at n [Z.to_nat bg; Z.to_nat bk] = Some m ->
  table 0%nat cmd = None -> table 1%nat cmd = None -> table 2%nat cmd = Some f ->
  exists b, root b = m /\ check_row table n cmd [v; bg; bk; row; col] = f b cmd row.
Proof.
  intros N V HB Hm T0 T1 T2. destruct (vault_path n bg bk N V HB) as (g & b & Eg & Eb & Lg & Lb & Ec & _).
  rewrite (vault_bank n g b bg bk Eg Eb) in Hm. injection Hm as <-. destruct HB as [HB1 HB2]. exists b. split; [done|].
  cbn [check_row]. change (at_ [bg; bk; row; col] 0) with (Ret bg). change (at_ [bk; row; col] 0) with (Ret bk).
  change (at_ [row; col] 0) with (Ret row). cbn [mbind outcome_bind]. rewrite (vk_level _ _ _ V), T0.
  rewrite (proj2 (Z.ltb_ge bg 0)), (proj2 (at_ret_iff (children n) bg g)) by (try split; lia || done).
  unfold leaf at 1. destruct (children n) eqn:En; [done|]. cbn [orb mbind outcome_bind]. rewrite Lg, T1.
  rewrite (proj2 (Z.ltb_ge bk 0)), (proj2 (at_ret_iff (children g) bk b)) by (try split; lia || done).
  unfold leaf at 1. destruct (children g) eqn:Eg'; [done|]. cbn [orb mbind outcome_bind]. by rewrite Lb, T2.
Qed.

Lemma row_hit_access n cmd v bg bk row col m :
  numbered n -> vault_ok bgs bks n -> in_vault bgs bks bg bk -> cmd = RD \/ cmd = WR ->
  nd_at n [Z.to_nat bg; Z.to_nat bk] = Some m ->
  exists b, check_row_hit sp n cmd [v; bg; bk; row; col] = Ret b /\ (b = true <-> opened_bank m row).
Proof.
  intros N V HB Hcmd Hm. destruct (check_row_bank (rowhit sp) hit_bank n cmd v bg bk row col m) as (x & <- & E); try done;
    try (by destruct Hcmd as [-> | ->]). unfold check_row_hit. rewrite E. unfold hit_bank.
  destruct (vk_banks _ _ _ V _ _ _ Hm) as [[Hc _]|(r & Hs & Hr)].
  - rewrite Hc. exists false. split; [done|]. unfold opened_bank. split; [done|]. intros [? _]. congruence.
  - unfold opened_bank. rewrite Hs, Hr. eexists. split; [done|]. destruct (decide (r = row)) as [->|Hne].
    + by rewrite lookup_singleton_eq.
    + rewrite lookup_singleton_ne by done. split; [done|]. intros [_ Heq]. apply (f_equal (lookup row)) in Heq.
      by rewrite lookup_singleton_ne, lookup_singleton_eq in Heq.
Qed.

Lemma row_open_access n cmd v bg bk row col m :
  numbered n -> vault_ok bgs bks n -> in_vault bgs bks bg bk -> cmd = RD \/ cmd = WR ->
  nd_at n [Z.to_nat bg; Z.to_nat bk] = Some m ->
  exists b, check_row_open sp n cmd [v; bg; bk; row; col] = Ret b /\ (b = true <-> exists r, opened_bank m r).
Proof.
  intros N V HB Hcmd Hm. destruct (check_row_bank (rowopen sp) open_bank n cmd v bg bk row col m) as (x & <- & E); try done;
    try (by destruct Hcmd as [-> | ->]). unfold check_row_open. rewrite E. unfold open_bank.
  destruct (vk_banks _ _ _ V _ _ _ Hm) as [[Hc _]|(r & Hs & Hr)].
  - rewrite Hc. exists false. split; [done|]. unfold opened_bank. split; [done|]. intros (? & [? _]). congruence.
  - rewrite Hs. eexists. split; [done|]. split; [|done]. intros _. by exists r.
Qed.

(** A refresh never hits: its address ends at the vault. *)
Lemma row_hit_refresh table n v rest :
  vault_ok bgs bks n -> table 0%nat REF = None -> check_row table n REF (v :: -1 :: rest) = Ret false.
Proof. intros V HT. cbn [check_row]. change (at_ (-1 :: rest) 0) with (Ret (-1)). simpl. by rewrite (vk_level _ _ _ V), HT. Qed.

Lemma some_bank_open_iff n :
  vault_ok bgs bks n -> some_bank_open n = true <-> exists i j m r, nd_at n [i; j] = Some m /\ opened_bank m r.
Proof.
  intros V. unfold some_bank_open, banks. rewrite existsb_exists. split.
  - intros (b & Hb & Hs). apply list_elem_of_In in Hb. apply list_elem_of_bind in Hb as (g & Hb & Hg).
    apply list_elem_of_lookup in Hg as [i Hi]. apply list_elem_of_lookup in Hb as [j Hj].
    assert (Hm : nd_at n [i; j] = Some (root b)) by (by rewrite nd_at_cons, Hi; simpl; rewrite nd_at_cons, Hj).
    destruct (vk_banks _ _ _ V _ _ _ Hm) as [[Hc _]|[r Hr]]; [by rewrite bool_decide_true in Hs|]. by exists i, j, (root b), r.
  - intros (i & j & m & r & Hm & Hs & _). rewrite nd_at_cons in Hm. apply bind_Some in Hm as (g & Eg & Hm).
    rewrite nd_at_cons in Hm. apply bind_Some in Hm as (b & Eb & Hm). injection Hm as <-. exists b. split.
    + apply list_elem_of_In, list_elem_of_bind. exists g. split; by eapply list_elem_of_lookup_2.
    + rewrite Hs. done.
Qed.

Lemma decode_refresh n v rest :
  vault_ok bgs bks n -> decode sp n REF (v :: -1 :: rest) = Ret (if some_bank_open n then PREA else REF).
Proof. intros V. cbn [decode]. change (at_ (-1 :: rest) 0) with (Ret (-1)). simpl. by rewrite (vk_level _ _ _ V). Qed.

(** *** Issuing *)

(** The commands of the controller. *)
Definition ordinary (cmd : DramCommand) : Prop :=
  match cmd with ACT | PRE | PREA | RD | WR | REF => True | _ => False end.

Definition bank_effect (cmd : DramCommand) (row : Z) m : vnode :=
  match cmd with ACT => open_row row m | PRE => close_rows m | _ => m end.

Definition effect (cmd : DramCommand) (i j : nat) (row : Z) p m : vnode :=
  match cmd with
  | PREA => if decide (length p = 2%nat) then close_rows m else m
  | _ => if decide (p = [i; j]) then bank_effect cmd row m else m
  end.

Lemma update_state_vault n cmd v i rest n' p :
  vault_ok bgs bks n -> cmd = PREA \/ cmd = REF -> update_state sp n cmd (v :: i :: rest) = Ret n' ->
  nd_at n' p = effect cmd 0 0 0 p <$> nd_at n p.
Proof.
  intros V Hcmd E. rewrite update_state_cons in E. rewrite (vk_level _ _ _ V) in E. destruct Hcmd as [-> | ->]; simpl in E.
  - rewrite bool_decide_true in E by (by rewrite (vk_level _ _ _ V)). injection E as <-.
    change (set_children n _) with (map_banks close_rows n). rewrite map_banks_at. unfold effect. case_decide as Hd; [by destruct (nd_at n p)|]. by destruct (nd_at n p).
  - rewrite bool_decide_true in E by (by rewrite (vk_level _ _ _ V)). injection E as <-.
    destruct (nd_at n p); simpl; [by case_decide|done].
Qed.

(** The vault after [f] on one bank. *)
Lemma set_bank_at n g b f bg bk p :
  children n !! bg = Some g -> children g !! bk = Some b ->
  nd_at (set_children n (<[bg := set_children g (<[bk := set_root b (f (root b))]> (children g))]> (children n))) p =
  (fun m => if decide (p = [bg; bk]) then f m else m) <$> nd_at n p.
Proof.
  intros Eg Eb. rewrite (set_child_at n bg g) by done. destruct p as [|i q]; [simpl; try rewrite decide_False; done|]. destruct (decide (i = bg)) as [->|Hi].
  2:{ destruct (nd_at n (i :: q)); simpl; [|done]. rewrite decide_False; [done|]. congruence. }
  rewrite (set_child_at g bk b) by done. rewrite (nd_at_cons n), Eg. simpl. destruct q as [|j q]; [simpl; try rewrite decide_False; done|].
  destruct (decide (j = bk)) as [->|Hj].
  2:{ destruct (nd_at g (j :: q)); simpl; [|done]. rewrite decide_False; [done|]. congruence. }
  rewrite set_root_at, (nd_at_cons g), Eb. simpl. destruct q as [|k q]; [simpl; try rewrite decide_True; done|].
  destruct (nd_at b (k :: q)); simpl; [|done]. by rewrite decide_False.
Qed.

Lemma update_state_bank n cmd v bg bk row col n' p :
  numbered n -> vault_ok bgs bks n -> in_vault bgs bks bg bk -> ordinary cmd -> cmd <> PREA -> cmd <> REF ->
  update_state sp n cmd [v; bg; bk; row; col] = Ret n' ->
  nd_at n' p = effect cmd (Z.to_nat bg) (Z.to_nat bk) row p <$> nd_at n p.
Proof.
  intros N V HB Ho H1 H2 E. destruct (vault_path n bg bk N V HB) as (g & b & Eg & Eb & Lg & Lb & Ec & _). destruct HB as [HB1 HB2].
  assert (L0 : lambda sp 0 cmd = None) by (by destruct cmd). assert (L1 : lambda sp 1 cmd = None) by (by destruct cmd).
  assert (L2 : match lambda sp 2 cmd with Some f => f b row | None => b end = set_root b (bank_effect cmd row (root b))).
  { destruct b as [m0 ks]. by destruct cmd. }
  assert (S0 : 0%nat <> scope sp cmd) by (by destruct cmd). assert (S1 : 1%nat <> scope sp cmd) by (by destruct cmd).
  rewrite update_state_cons, (vk_level _ _ _ V), L0 in E. cbv zeta in E. rewrite (vk_level _ _ _ V) in E.
  rewrite (bool_decide_false _ S0), (leaf_child n _ g Eg), (proj2 (at_ret_iff (children n) bg g)) in E by (split; [lia|done]).
  cbn [orb mbind outcome_bind] in E. rewrite update_state_cons, Lg, L1 in E. cbv zeta in E. rewrite Lg in E.
  rewrite (bool_decide_false _ S1), (leaf_child g _ b Eb), (proj2 (at_ret_iff (children g) bk b)) in E by (split; [lia|done]).
  cbn [orb mbind outcome_bind] in E. rewrite update_state_cons, Lb, L2 in E. cbv zeta in E.
  replace (leaf (set_root b _)) with true in E by (unfold leaf; simpl; by rewrite Ec). rewrite orb_true_r in E.
  cbn [mbind outcome_bind] in E. injection E as <-. rewrite set_bank_at by done. destruct (nd_at n p); [|done].
  by destruct cmd.
Qed.

(** One issued command, node by node. *)
Lemma issue_at n cmd v bg bk row col clk n' p m' :
  numbered n -> vault_ok bgs bks n -> ordinary cmd ->
  in_vault bgs bks bg bk \/ cmd = PREA \/ cmd = REF ->
  update sp n cmd [v; bg; bk; row; col] clk = Ret n' -> nd_at n' p = Some m' ->
  exists m, nd_at n p = Some m /\ kept (effect cmd (Z.to_nat bg) (Z.to_nat bk) row p m) m' /\ frame m m'.
Proof.
  intros N V Ho HB E Hm'. apply bind_ret_inv in E as (n1 & E1 & E). pose proof E1 as Hs. 
  apply (update_state_same _ (hmc_standard_ok cnt s)) in Hs. set (n0 := set_root n _) in *.
  assert (S0 : same_timing n n0) by (by apply same_timing_root).
  assert (N1 : numbered n1) by (eapply same_timing_numbered; [exact Hs|]; by eapply same_timing_numbered).
  assert (V0 : vault_ok bgs bks n0).
  { split; [apply V|apply V| |].
    - intros q. rewrite <- (vk_shape _ _ _ V). unfold n0. rewrite set_root_at. destruct q; [|done]. split; intros _; by eexists.
    - intros i j m. unfold n0. rewrite set_root_at. apply (vk_banks _ _ _ V). }
  assert (N0 : numbered n0) by (by eapply same_timing_numbered).
  assert (Heff : nd_at n1 p = effect cmd (Z.to_nat bg) (Z.to_nat bk) row p <$> nd_at n0 p).
  { assert (Hcase : cmd = PREA \/ cmd = REF \/ (cmd <> PREA /\ cmd <> REF)) by (destruct cmd; auto).
    destruct Hcase as [->|[->|[Hc1 Hc2]]].
    - rewrite (update_state_vault n0 PREA v bg _ n1 p V0 ltac:(by left) E1). done.
    - rewrite (update_state_vault n0 REF v bg _ n1 p V0 ltac:(by right) E1). simpl. destruct (nd_at n0 p); simpl; [|done]. by case_decide; case_decide.
    - destruct HB as [HB|[?|?]]; [|done..]. by eapply update_state_bank. }
  pose proof (update_timing_at sp n1 cmd [v; bg; bk; row; col] clk n' p N1 E) as Hat.
  destruct (nd_at n1 p) as [m1|] eqn:Em1; [|congruence]. destruct Hat as (m2 & Hm2 & Hmet).
  assert (m2 = m') as -> by congruence. destruct (nd_at n0 p) as [m0|] eqn:Em0; [|done]. injection Heff as ->.
  pose proof (met_frame _ _ _ _ _ _ Hmet) as [F1 F2]. apply met_kept in Hmet.
  assert (Hn0 : exists m, nd_at n p = Some m /\ state m0 = state m /\ row_state m0 = row_state m /\ stats m0 = stats m /\ frame m m0).
  { unfold n0 in Em0. rewrite set_root_at in Em0. destruct p; [|by exists m0]. injection Em0 as <-. by eexists. }
  destruct Hn0 as (m & Em & S1 & S2 & S3 & [F3 F4]). exists m. split; [done|].
  assert (Hk : kept (effect cmd (Z.to_nat bg) (Z.to_nat bk) row p m) (effect cmd (Z.to_nat bg) (Z.to_nat bk) row p m0)).
  { unfold effect, kept. destruct cmd; simpl; case_decide; simpl; rewrite ?S1, ?S2, ?S3; done. }
  split; [by eapply kept_trans|]. assert (frame m0 (effect cmd (Z.to_nat bg) (Z.to_nat bk) row p m0)) as [F5 F6].
  { unfold effect. destruct cmd; case_decide; done. } split; congruence.
Qed.

(** Activations come when the bank is closed. *)
Definition disciplined n (cmd : DramCommand) (bg bk : Z) : Prop :=
  cmd = ACT -> exists m, nd_at n [Z.to_nat bg; Z.to_nat bk] = Some m /\ closed_bank m.

Lemma effect_bank_ok n cmd bg bk row i j m :
  vault_ok bgs bks n -> ordinary cmd -> disciplined n cmd bg bk -> nd_at n [i; j] = Some m ->
  let m' := effect cmd (Z.to_nat bg) (Z.to_nat bk) row [i; j] m in closed_bank m' \/ exists r, opened_bank m' r.
Proof.
  intros V Ho Hd Hm m'. pose proof (vk_banks _ _ _ V _ _ _ Hm) as HB. unfold m', effect.
  destruct cmd; try done; cbn [bank_effect]; case_decide as He; try done; [|by left..]. simplify_eq.
  destruct (Hd eq_refl) as (m0 & Hm0 & _ & Hr). assert (m0 = m) as -> by congruence. right. exists row.
  unfold opened_bank. simpl. by rewrite Hr.
Qed.

Lemma kept_bank m m' : kept m m' -> (closed_bank m <-> closed_bank m') /\ forall r, opened_bank m r <-> opened_bank m' r.
Proof. intros (H1 & H2 & _). unfold closed_bank, opened_bank. by rewrite H1, H2. Qed.

Lemma issue_vault_ok id h n cmd v bg bk row col clk n' :
  recorded sp id h n -> vault_ok bgs bks n -> ordinary cmd -> in_vault bgs bks bg bk \/ cmd = PREA \/ cmd = REF ->
  disciplined n cmd bg bk -> update sp n cmd [v; bg; bk; row; col] clk = Ret n' -> vault_ok bgs bks n'.
Proof.
  intros R V Ho HB Hd E. destruct (update_shape _ (hmc_standard_ok cnt s) _ _ _ _ _ _ _ R E) as [[F1 _] Hsh].
  assert (Hat := fun p m' => issue_at n cmd v bg bk row col clk n' p m' (rec_numbered _ _ _ _ R) V Ho HB E). split.
  - rewrite F1. apply V.
  - destruct (Hat [] (root n') eq_refl) as (m & [= <-] & (Hs & _) & _). rewrite Hs.
    replace (effect cmd _ _ row [] (root n)) with (root n) by (by destruct cmd). apply V.
  - intros p. rewrite <- Hsh. apply V.
  - intros i j m' Hm'. destruct (Hat _ _ Hm') as (m & Hm & Hk & _). apply kept_bank in Hk as [Hk1 Hk2].
    destruct (effect_bank_ok n cmd bg bk row i j m V Ho Hd Hm) as [Hc|[r Hr]]; [left; tauto|right]. exists r. by apply Hk2.
Qed.

(** *** How far an access is from its bank's row: the commands still missing. *)
Definition missing n (bg bk row : Z) : nat :=
  match nd_at n [Z.to_nat bg; Z.to_nat bk] with
  | Some m => if decide (state m = Closed) then 1 else match row_state m !! row with Some _ => 0 | None => 2 end
  | None => 0
  end.

Lemma missing_closed n bg bk row m : nd_at n [Z.to_nat bg; Z.to_nat bk] = Some m -> closed_bank m -> missing n bg bk row = 1%nat.
Proof. intros Hm [Hs _]. unfold missing. by rewrite Hm, decide_True. Qed.

Lemma missing_opened n bg bk row m r :
  nd_at n [Z.to_nat bg; Z.to_nat bk] = Some m -> opened_bank m r -> missing n bg bk row = if decide (r = row) then 0%nat else 2%nat.
Proof.
  intros Hm [Hs Hr]. unfold missing. rewrite Hm, decide_False by congruence. rewrite Hr.
  destruct (decide (r = row)) as [->|]; [by rewrite lookup_singleton_eq|by rewrite lookup_singleton_ne].
Qed.

Lemma decode_missing n cmd v bg bk row col :
  numbered n -> vault_ok bgs bks n -> in_vault bgs bks bg bk -> cmd = RD \/ cmd = WR ->
  decode sp n cmd [v; bg; bk; row; col] = Ret match missing n bg bk row with 0%nat => cmd | 1%nat => ACT | _ => PRE end.
Proof.
  intros N V HB Hcmd. destruct (proj2 (vk_shape _ _ _ V [Z.to_nat bg; Z.to_nat bk])) as [m Hm]; [destruct HB; simpl; lia|].
  destruct (decode_access n cmd v bg bk row col m N V HB Hcmd Hm) as [D1 D2].
  destruct (vk_banks _ _ _ V _ _ _ Hm) as [Hc|[r Hr]].
  - by rewrite (missing_closed n bg bk row m), D1.
  - rewrite (missing_opened n bg bk row m r), (D2 r) by done. by case_decide.
Qed.

Lemma issue_missing n cmd v bg bk row col clk n' k :
  numbered n -> vault_ok bgs bks n -> in_vault bgs bks bg bk -> missing n bg bk row = S k -> cmd = match k with 0%nat => ACT | _ => PRE end ->
  is_Some (nd_at n' [Z.to_nat bg; Z.to_nat bk]) ->
  update sp n cmd [v; bg; bk; row; col] clk = Ret n' -> missing n' bg bk row = k.
Proof.
  intros N V HB Hk Hc [m' Hm'] E.
  destruct (issue_at n cmd v bg bk row col clk n' [Z.to_nat bg; Z.to_nat bk] m') as (m & Hm & Hkept & _);
    [done|done|by destruct k; subst|by left|done|done|].
  unfold missing in Hk. rewrite Hm in Hk. destruct Hkept as (Hs & Hr & _).
  destruct (vk_banks _ _ _ V _ _ _ Hm) as [[C1 C2]|(r & O1 & O2)].
  - rewrite decide_True in Hk by done. injection Hk as <-. subst cmd. unfold effect in Hs, Hr. rewrite decide_True in Hs, Hr by done.
    simpl in Hs, Hr. rewrite (missing_opened n' bg bk row m' row Hm'); [by rewrite decide_True|]. split; [done|]. by rewrite Hr, C2.
  - rewrite decide_False in Hk by congruence. rewrite O2 in Hk. destruct (_ !! row); [done|]. injection Hk as <-. subst cmd.
    unfold effect in Hs, Hr. rewrite decide_True in Hs, Hr by done. simpl in Hs, Hr.
    apply (missing_closed n' bg bk row m' Hm'). done.
Qed.
End Vaults.

(** *** A new vault *)

Definition bank_groups (org : Org) : nat := Z.to_nat (nth 1 (org_count org) 0).
Definition banks_per_group (org : Org) : nat := Z.to_nat (nth 2 (org_count org) 0).

Lemma build_child sp' depth l i k :
  children (build sp' (S depth) l i : vault) !! k =
  if decide (k < Z.to_nat (count sp' (S l)))%nat then Some (build sp' depth (S l) (Z.of_nat k)) else None.
Proof.
  cbn [build children]. rewrite list_lookup_fmap. case_decide as Hk.
  - by rewrite lookup_zrange.
  - rewrite lookup_ge_None_2; [done|]. rewrite length_zrange. lia.
Qed.

Lemma new_vault_at org s id p :
  nd_at (new_vault org s id) p =
  let sp := HMC (org_count org) (speed_table s) in
  match p with
  | [] => Some (newNode sp 0 id)
  | [i] => if decide (i < bank_groups org)%nat then Some (newNode sp 1 (Z.of_nat i)) else None
  | [i; j] => if decide (i < bank_groups org /\ j < banks_per_group org)%nat then Some (newNode sp 2 (Z.of_nat j)) else None
  | _ => None
  end.
Proof.
  rewrite new_vault_build. destruct p as [|i p]; [done|]. rewrite nd_at_cons, build_child.
  change (Z.to_nat _) with (bank_groups org). destruct p as [|j p].
  { by case_decide. }
  destruct (decide (i < bank_groups org)%nat) as [Hi|Hi]; cbn [mbind option_bind].
  - rewrite nd_at_cons, build_child. change (Z.to_nat _) with (banks_per_group org). destruct p as [|k p].
    + destruct (decide (j < banks_per_group org)%nat); [by rewrite decide_True|]. rewrite decide_False; [done|]. tauto.
    + destruct (decide _); [|done]. cbn [mbind option_bind]. by rewrite nd_at_cons.
  - destruct p; [|done]. rewrite decide_False; [done|]. tauto.
Qed.

Lemma new_vault_ok org s id : vault_ok (bank_groups org) (banks_per_group org) (new_vault org s id).
Proof.
  split; [done|done| |].
  - intros p. rewrite new_vault_at. cbv zeta. destruct p as [|i [|j [|k p]]]; simpl;
      try (case_decide; split; intros Hx; first [done|by eexists|by destruct Hx]).
    + split; intros _; [done|by eexists].
    + split; [by intros [? ?]|done].
  - intros i j m. rewrite new_vault_at. cbv zeta. case_decide; [|done]. intros [= <-]. by left.
Qed.

Lemma new_vault_recorded org s id : recorded (HMC (org_count org) (speed_table s)) id [] (new_vault org s id).
Proof. rewrite new_vault_build. apply recorded_new. Qed.

(** ** Properties *)

(** C11: On every vault, whatever commands were issued to it so far, [check]
    accepts a command exactly when all timing constraints of [init_timing] at
    the nodes the command visits are met by the history of issued commands; a
    command that was issued was never early; and [get_next] is the first time,
    from the clock of the vault on, at which [check] accepts. *)
Theorem hmc_timing_exact org s id h n :
  let sp := HMC (org_count org) (speed_table s) in
  rtc (device_step sp) ([], new_vault org s id) (h, n) ->
  (forall cmd addr clk b, 0 <= clk -> addr !! 0%nat = Some id -> check sp n cmd addr clk = Ret b ->
     b = true <-> forall p f, visited sp n cmd addr p -> demand sp (length p) (ids id p) h cmd f -> f <= clk) /\
  (forall h2 cmd addr clk h1, h = h2 ++ (cmd, addr, clk) :: h1 ->
     forall p f, visited sp n cmd addr p -> demand sp (length p) (ids id p) h1 cmd f -> f <= clk) /\
  (forall cmd addr clk t b, 0 <= cur_clk (root n) <= clk -> addr !! 0%nat = Some id ->
     get_next sp n cmd addr = Ret t -> check sp n cmd addr clk = Ret b -> b = true <-> t <= clk).
Proof.
  intros sp Hr. pose proof (hmc_standard_ok (org_count org) (speed_table s)) as SO. rewrite new_vault_build in Hr. fold sp in Hr, SO.
  destruct (device_exact sp SO 2 0 id h n) as (R & Sh & Ob); [intros; apply hmc_scope_root|exact Hr|].
  assert (Hl : level (root n) = 0%nat) by (destruct Sh as [[F _] _]; exact F). split_and!.
  - intros cmd addr clk b Hclk Ha E. rewrite (check_iff sp id h n cmd addr clk b R Hclk) by (try done; rewrite Hl; apply hmc_scope_root).
    by rewrite Hl.
  - intros h2 cmd addr clk h1 Hh p f Hv Hd. eapply (Ob h2 cmd addr clk h1 Hh p f); [|exact Hd].
    by apply (visited_shape sp _ n).
  - intros cmd addr clk t b Hclk Ha. apply get_next_check; [apply R|done|rewrite Hl; apply hmc_scope_root|].
    by rewrite (rec_nid _ _ _ _ R).
Qed.

(** Activation of row 7 of bank (1, 0) of vault 3, and a read as soon as it is allowed. *)
Definition demo_bank_addr : list Z := [3; 1; 0; 7; 2].
Definition demo_vault : vault := new_vault HMC_4GB HMC_2500 3.
Definition demo_hmc : standard DramCommand DramState := HMC (org_count HMC_4GB) (speed_table HMC_2500).
Definition demo_activated : vault := ret_or demo_vault (update demo_hmc demo_vault ACT demo_bank_addr 10).
Definition demo_read : vault := ret_or demo_vault (update demo_hmc demo_activated RD demo_bank_addr 27).

Lemma demo_issue_run :
  rtc (device_step demo_hmc) ([], demo_vault) ([(RD, demo_bank_addr, 27); (ACT, demo_bank_addr, 10)], demo_read).
Proof.
  eapply rtc_l; [|apply rtc_once].
  - apply (step_issue _ [] demo_vault ACT demo_bank_addr 10 demo_activated); [vm_compute; reflexivity| |lia|reflexivity].
    apply ret_or_spec. vm_compute. reflexivity.
  - apply (step_issue _ _ demo_activated RD demo_bank_addr 27 demo_read); [vm_compute; reflexivity| |lia|vm_compute; reflexivity].
    apply ret_or_spec. vm_compute. reflexivity.
Qed.

Lemma hmc_timing_exact_witness :
  (forall p f, visited demo_hmc demo_read RD demo_bank_addr p ->
     demand demo_hmc (length p) (ids 3 p) [(ACT, demo_bank_addr, 10)] RD f -> f <= 27) /\
  check demo_hmc demo_activated RD demo_bank_addr 26 = Ret false.
Proof.
  split; [|vm_compute; reflexivity].
  destruct (hmc_timing_exact HMC_4GB HMC_2500 3 _ _ demo_issue_run) as (_ & H & _).
  exact (H [] RD demo_bank_addr 27 _ eq_refl).
Defined.

(** A read or a write of any bank of a vault is decoded to the access
    itself when its row is open, to an activation when the bank is closed and to
    a precharge when another row is open; every issued command of that decoding
    brings the access one command nearer, so at most two commands precede it,
    and in the vault every bank stays closed or with exactly one open row. *)
Theorem access_within_three_commands org s id h n bgs bks cmd bg bk row col :
  let sp := HMC (org_count org) (speed_table s) in
  recorded sp id h n -> vault_ok bgs bks n -> in_vault bgs bks bg bk -> cmd = RD \/ cmd = WR ->
  exists c, decode sp n cmd [id; bg; bk; row; col] = Ret c /\ (missing n bg bk row <= 2)%nat /\
    (missing n bg bk row = 0%nat <-> c = cmd) /\
    forall clk, 0 <= clk -> exists n', update sp n c [id; bg; bk; row; col] clk = Ret n' /\
      recorded sp id ((c, [id; bg; bk; row; col], clk) :: h) n' /\ vault_ok bgs bks n' /\
      forall k, missing n bg bk row = S k -> missing n' bg bk row = k.
Proof.
  intros sp R V HB Hcmd. pose proof (hmc_standard_ok (org_count org) (speed_table s)) as SO.
  pose proof (rec_numbered _ _ _ _ R) as N. eexists. split; [by eapply decode_missing|].
  assert (Hle : (missing n bg bk row <= 2)%nat) by (unfold missing; repeat case_match; lia). split; [done|].
  set (c := match missing n bg bk row with 0%nat => cmd | 1%nat => ACT | _ => PRE end).
  assert (Ho : ordinary c) by (unfold c; destruct Hcmd as [-> | ->]; by destruct (missing n bg bk row) as [|[|]]). split.
  { unfold c. destruct Hcmd as [-> | ->]; destruct (missing n bg bk row) as [|[|]]; done. }
  intros clk Hclk. destruct (update_total sp SO id h n c [id; bg; bk; row; col] clk R Hclk) as [n' E].
  { by eapply vault_fits. }
  { intros p m Hm. pose proof (proj1 (vk_shape _ _ _ V p) ltac:(eauto)) as Hp. destruct p as [|? [|? [|? ?]]]; simpl in *; lia || done. }
  exists n'. split; [done|]. split; [by eapply update_recorded|].
  assert (V' : vault_ok bgs bks n').
  { eapply (issue_vault_ok (org_count org) (speed_table s) bgs bks id h n c); [exact R|exact V|exact Ho|by left| |exact E]. intros Hc.
    destruct (proj2 (vk_shape _ _ _ V [Z.to_nat bg; Z.to_nat bk])) as [m Hm]; [destruct HB; simpl; lia|]. exists m. split; [done|].
    destruct (vk_banks _ _ _ V _ _ _ Hm) as [|[r Hr]]; [done|]. unfold c in Hc. rewrite (missing_opened n bg bk row m r Hm Hr) in Hc.
    case_decide; [|done]. by destruct Hcmd as [-> | ->]. }
  split; [done|]. intros k Hk. eapply (issue_missing (org_count org) (speed_table s) bgs bks n c); [exact N|exact V|exact HB|exact Hk| | |exact E].
  - unfold c. rewrite Hk. by destruct k.
  - apply V'. destruct HB. simpl. lia.
Qed.

Lemma access_within_three_commands_witness :
  exists c, decode demo_hmc demo_vault RD demo_bank_addr = Ret c /\ (missing demo_vault 1 0 7 = 0%nat <-> c = RD) /\ c = ACT.
Proof.
  destruct (access_within_three_commands HMC_4GB HMC_2500 3 [] demo_vault 4 2 RD 1 0 7 2) as (c & Hc & _ & Hm & _).
  - exact (new_vault_recorded HMC_4GB HMC_2500 3).
  - exact (new_vault_ok HMC_4GB HMC_2500 3).
  - unfold in_vault. lia.
  - left. reflexivity.
  - exists c. split; [exact Hc|]. split; [exact Hm|]. vm_compute in Hc. congruence.
Defined.
