(* ===== verification/Scheduler.v ===== *)
(** * Request scheduling of a vault

    [src/src/ramulator/Scheduler.h]: the scheduler that picks the request whose
    command is issued next ([Scheduler]), the table of open rows ([RowTable])
    and the policy that closes idle rows ([RowPolicy]).  They ask the controller
    whether a request is ready and whether its row is open; those questions are
    the interface [ctrl_view], implemented by the tick of the controller.

    The theory: what the scheduler returns is the best request of the queue, by
    readiness, arrival and position; the default policy never closes a row that
    a queued request hits; two latent faults of the other policies. *)

From stdpp Require Import sorting.
From S2P Require Import Prelude AddrMap Packet Dram Hmc.

(** ** The controller, as the scheduler sees it *)

Record ctrl_view : Type := mkView {
  is_ready : Request -> outcome bool;
  is_row_hit : Request -> outcome bool;
  is_row_open : Request -> outcome bool;
  is_ready_cmd : DramCommand -> list Z -> outcome bool;    (* is_ready(cmd, addr_vec) *)
  v_clk : Z
}.

(** The address of a request as the vector of the source. *)
Definition vec_list (v : addr_vec) : list Z := [av_Vault v; av_BankGroup v; av_Bank v; av_Row v; av_Column v].

(** ** Open rows *)

(** [RowTable::Entry] *)
Record RowEntry : Type := mkRow { re_row : Z; re_hits : Z; re_timestamp : Z }.

Abbreviation row_table := (gmap (list Z) RowEntry).

(** [vector<int> rowgroup(begin, begin + n)] *)
Definition prefix (addr : list Z) (n : nat) : outcome (list Z) :=
  if (n <=? length addr)%nat then Ret (take n addr) else Stop OutOfRange.

(** [std::equal] of a whole range with the start of another. *)
Fixpoint equal_range (a b : list Z) : outcome bool :=
  match a, b with
  | [], _ => Ret true
  | x :: a, y :: b => if x =? y then equal_range a b else Ret false
  | _ :: _, [] => Stop OutOfRange
  end.

(** Iteration of a [std::map] over vectors follows their lexicographic order. *)
Fixpoint lex_le (a b : list Z) : bool :=
  match a, b with
  | [], _ => true
  | _ :: _, [] => false
  | x :: a, y :: b => (x <? y) || ((x =? y) && lex_le a b)
  end.

Definition entry_le (p q : list Z * RowEntry) : Prop := lex_le p.1 q.1 = true.

#[global] Instance entry_le_dec p q : Decision (entry_le p q).
Proof. unfold entry_le. apply _. Defined.

Definition in_order (t : row_table) : list (list Z * RowEntry) := merge_sort entry_le (map_to_list t).

(** [update(cmd, addr_vec, clk)]: first the activation, *)
Definition table_open (t : row_table) (cmd : DramCommand) (group : list Z) (row clk : Z) : row_table :=
  if hmc_is_opening cmd then
    match t !! group with Some _ => t | None => <[group := mkRow row 0 clk]> t end
  else t.

(** then the access, *)
Definition table_access (t : row_table) (cmd : DramCommand) (group : list Z) (row clk : Z) : outcome row_table :=
  if hmc_is_accessing cmd then
    match t !! group with
    | None => Stop AssertFailed
    | Some e =>
        _ ← assert_ (re_row e =? row);
        Ret (<[group := mkRow (re_row e) (re_hits e + 1) clk]> t)
    end
  else Ret t.

(** then the closing. *)
Definition table_close (t : row_table) (cmd : DramCommand) (addr : list Z) : outcome row_table :=
  if hmc_is_closing cmd then
    scope ← prefix addr (S (hmc_scope cmd));
    '(t, n_rm) ← fold_ (fun '(t, n_rm) e =>
        b ← equal_range scope e.1;
        Ret (if b : bool then (delete e.1 t, n_rm + 1) else (t, n_rm))) (in_order t) (t, 0);
    _ ← assert_ (0 <? n_rm);
    Ret t
  else Ret t.

Definition table_update (t : row_table) (cmd : DramCommand) (addr : list Z) (clk : Z) : outcome row_table :=
  group ← prefix addr (level_index Row);
  row ← at_ addr (Z.of_nat (level_index Row));
  let t := table_open t cmd group row clk in
  t ← table_access t cmd group row clk;
  table_close t cmd addr.

(** [get_hits(addr_vec)]: [table[rowgroup]] inserts a value-initialised entry
    when there is none; the iterator compared afterwards was taken before. *)
Definition get_hits (t : row_table) (addr : list Z) : outcome (Z * row_table) :=
  group ← prefix addr (level_index Row);
  row ← at_ addr (Z.of_nat (level_index Row));
  match t !! group with
  | None => Ret (0, <[group := mkRow 0 0 0]> t)
  | Some e => Ret (if re_row e =? row then re_hits e else 0, t)
  end.

(** ** The scheduler *)

Inductive SchedType : Type := FCFS | FRFCFS | FRFCFS_Cap | FRFCFS_PriorHit.

#[global] Instance SchedType_eq_dec : EqDecision SchedType.
Proof. solve_decision. Defined.

Definition cap : Z := 16.

Section Scheduler.
Context (cv : ctrl_view).

(** An iterator into the queue: position and request. *)
Abbreviation iter := (nat * Request)%type.

(** The end of every comparison. *)
Definition pick (ready1 ready2 : bool) (r1 r2 : iter) : iter :=
  if xorb ready1 ready2 then (if ready1 then r1 else r2)
  else if arrive r1.2 <=? arrive r2.2 then r1 else r2.

(** [compare[type](req1, req2)]; the cap variant looks into the row table. *)
Definition compare (type : SchedType) (t : row_table) (r1 r2 : iter) : outcome (iter * row_table) :=
  match type with
  | FCFS => Ret (if arrive r1.2 <=? arrive r2.2 then r1 else r2, t)
  | FRFCFS =>
      b1 ← is_ready cv r1.2;
      b2 ← is_ready cv r2.2;
      Ret (pick b1 b2 r1 r2, t)
  | FRFCFS_Cap =>
      b1 ← is_ready cv r1.2;
      b2 ← is_ready cv r2.2;
      '(b1, t) ← if b1 : bool then '(h, t) ← get_hits t (vec_list (req_vec r1.2)); Ret (h <=? cap, t) else Ret (false, t);
      '(b2, t) ← if b2 : bool then '(h, t) ← get_hits t (vec_list (req_vec r2.2)); Ret (h <=? cap, t) else Ret (false, t);
      Ret (pick b1 b2 r1 r2, t)
  | FRFCFS_PriorHit =>
      b1 ← (b ← is_ready cv r1.2; if b : bool then is_row_hit cv r1.2 else Ret false);
      b2 ← (b ← is_ready cv r2.2; if b : bool then is_row_hit cv r2.2 else Ret false);
      Ret (pick b1 b2 r1 r2, t)
  end.

(** [for (itr = next(q.begin(), 1); ...) head = compare(head, itr)] *)
Definition scan (type : SchedType) (head : iter) (l : list iter) (t : row_table) : outcome (iter * row_table) :=
  fold_ (fun '(head, t) itr => compare type t head itr) l (head, t).

Definition iters (q : list Request) : list iter := imap pair q.

(** The row group [PRE] closes. *)
Definition pre_group (r : Request) : outcome (list Z) := prefix (vec_list (req_vec r)) (S (hmc_scope PRE)).

(** [hit_reqs]: the row groups the queue hits. *)
Definition hit_groups (l : list iter) : outcome (list (list Z)) :=
  fold_ (fun acc itr =>
    b ← is_row_hit cv itr.2;
    if b : bool then g ← pre_group itr.2; Ret (acc ++ [g]) else Ret acc) l [].

(** [violate_hit]: the next command of the request would close a row that is hit. *)
Definition violates (groups : list (list Z)) (r : Request) : outcome bool :=
  hit ← is_row_hit cv r;
  if hit : bool then Ret false
  else
    opn ← is_row_open cv r;
    if opn : bool then g ← pre_group r; Ret (bool_decide (g ∈ groups)) else Ret false.

Definition scan_nonviolating (groups : list (list Z)) (l : list iter) (t : row_table) : outcome (option iter * row_table) :=
  fold_ (fun '(head, t) itr =>
    v ← violates groups itr.2;
    if v : bool then Ret (head, t)
    else match head with
      | None => Ret (Some itr, t)
      | Some h => '(h, t) ← compare FRFCFS t h itr; Ret (Some h, t)
      end) l (None, t).

(** [get_head(q)]: [None] is [q.end()]. *)
Definition get_head (type : SchedType) (q : list Request) (t : row_table) : outcome (option iter * row_table) :=
  match iters q with
  | [] => Ret (None, t)
  | first :: rest =>
      '(head, t) ← scan type first rest t;
      match type with
      | FRFCFS_PriorHit =>
          b ← is_ready cv head.2;
          b ← if b : bool then is_row_hit cv head.2 else Ret false;
          if b : bool then Ret (Some head, t)
          else
            groups ← hit_groups (first :: rest);
            scan_nonviolating groups (first :: rest) t
      | _ => Ret (Some head, t)
      end
  end.
End Scheduler.

(** ** Row policies *)

Inductive PolicyType : Type := PolicyClosed | PolicyOpened | PolicyTimeout.

Definition timeout : Z := 50.

(** The first table entry that may be closed; [[]] is the empty vector. *)
Fixpoint find_victim (cv : ctrl_view) (cmd : DramCommand) (aged : RowEntry -> bool) (l : list (list Z * RowEntry)) : outcome (list Z) :=
  match l with
  | [] => Ret []
  | (k, e) :: l =>
      if aged e then
        b ← is_ready_cmd cv cmd k;
        if b : bool then Ret k else find_victim cv cmd aged l
      else find_victim cv cmd aged l
  end.

Definition get_victim (cv : ctrl_view) (type : PolicyType) (t : row_table) (cmd : DramCommand) : outcome (list Z) :=
  match type with
  | PolicyClosed => find_victim cv cmd (fun _ => true) (in_order t)
  | PolicyOpened => Ret []
  | PolicyTimeout => find_victim cv cmd (fun e => negb (v_clk cv - re_timestamp e <? timeout)) (in_order t)
  end.

(** ** What the scheduler chooses *)

(** By flag, then by arrival, then by position in the queue. *)
Definition beats (flag : Request -> bool) (x y : nat * Request) : Prop :=
  (flag x.2 = true /\ flag y.2 = false) \/
  (flag x.2 = flag y.2 /\ (arrive x.2 < arrive y.2 \/ (arrive x.2 = arrive y.2 /\ (x.1 <= y.1)%nat))).

Lemma beats_refl flag x : beats flag x x.
Proof. right. split; [done|]. right. split; [done|lia]. Qed.

Lemma beats_trans flag x y z : beats flag x y -> beats flag y z -> beats flag x z.
Proof. unfold beats. destruct (flag x.2), (flag y.2), (flag z.2); intuition (try congruence); right; (split; [done|]); lia. Qed.

Lemma pick_beats flag (x y : nat * Request) :
  (x.1 <= y.1)%nat -> let h := pick (flag x.2) (flag y.2) x y in beats flag h x /\ beats flag h y /\ (h = x \/ h = y).
Proof.
  intros Hp. unfold pick, beats. destruct (flag x.2) eqn:Ex, (flag y.2) eqn:Ey; simpl;
    try (destruct (Z.leb_spec (arrive x.2) (arrive y.2))); rewrite ?Ex, ?Ey; split_and!; auto; right; (split; [done|]); lia.
Qed.

Abbreviation ascending := (StronglySorted (fun x y : nat * Request => (x.1 < y.1)%nat)).

(** A scan whose comparison is by [flag] finds the best element. *)
Lemma scan_best cv type flag head l t :
  ascending (head :: l) ->
  (forall x y, x ∈ head :: l -> y ∈ head :: l -> compare cv type t x y = Ret (pick (flag x.2) (flag y.2) x y, t)) ->
  exists h, scan cv type head l t = Ret (h, t) /\ h ∈ head :: l /\ forall y, y ∈ head :: l -> beats flag h y.
Proof.
  revert head. induction l as [|a l IH]; intros head Hs Hc.
  { exists head. split; [done|]. split; [left|]. intros y Hy. apply list_elem_of_singleton in Hy as ->. apply beats_refl. }
  unfold scan. cbn [fold_]. rewrite Hc by (apply elem_of_cons; rewrite ?elem_of_cons; auto). cbn [mbind outcome_bind].
  apply StronglySorted_inv in Hs as [Hs Hhead]. pose proof Hs as [Hs' Ha]%StronglySorted_inv. inv Hhead.
  destruct (pick_beats flag head a) as (B1 & B2 & B3); [lia|]. set (h1 := pick _ _ head a) in *.
  destruct (IH h1) as (h & E & Hin & Hb).
  - constructor; [done|]. destruct B3 as [-> | ->]; [|done]. done.
  - intros x y Hx Hy. apply Hc; [apply elem_of_cons in Hx|apply elem_of_cons in Hy]; rewrite !elem_of_cons; naive_solver.
  - exists h. split; [done|]. split; [apply elem_of_cons in Hin; rewrite !elem_of_cons; naive_solver|].
    intros y Hy. apply elem_of_cons in Hy as [->|Hy]; [eapply beats_trans; [apply Hb; left|done]|].
    apply elem_of_cons in Hy as [->|Hy]; [eapply beats_trans; [apply Hb; left|done]|]. apply Hb. by right.
Qed.

Lemma iters_lookup q i x : iters q !! i = Some x <-> exists r, q !! i = Some r /\ x = (i, r).
Proof. unfold iters. rewrite list_lookup_imap. destruct (q !! i); simpl; naive_solver. Qed.

Lemma elem_of_iters q x : x ∈ iters q <-> q !! x.1 = Some x.2.
Proof.
  rewrite list_elem_of_lookup. split.
  - intros (i & Hi). apply iters_lookup in Hi as (r & Hr & ->). done.
  - intros Hx. exists x.1. apply iters_lookup. exists x.2. by destruct x.
Qed.

Lemma iters_ascending q : ascending (iters q).
Proof.
  unfold iters. replace (imap pair q) with (imap (fun i r => ((0 + i)%nat, r)) q) by done. generalize 0%nat as k.
  induction q as [|r q IH]; intros k; [constructor|]. rewrite imap_cons. constructor.
  - rewrite (imap_ext _ (fun i r => ((S k + i)%nat, r))); [apply IH|]. intros i x _. simpl. f_equal. lia.
  - apply Forall_forall. intros x Hx. apply list_elem_of_lookup in Hx as [i Hi]. rewrite list_lookup_imap in Hi.
    destruct (q !! i); simplify_eq/=. lia.
Qed.

Lemma ascending_filter (P : nat * Request -> Prop) `{!forall x, Decision (P x)} l : ascending l -> ascending (filter P l).
Proof.
  induction 1 as [|x l Hl IH Hx]; [constructor|]. rewrite filter_cons. case_decide; [|done]. constructor; [done|].
  apply Forall_forall. intros y Hy. apply list_elem_of_filter in Hy as [_ Hy]. by apply (proj1 (Forall_forall _ _) Hx).
Qed.

Definition bank_of (r : Request) : list Z := take 3 (vec_list (req_vec r)).

Lemma pre_group_ret r : pre_group r = Ret (bank_of r).
Proof. done. Qed.

Section Choice.
Context (cv : ctrl_view) (rdy hit opn : Request -> bool) (q : list Request) (t : row_table).
Hypothesis rdy_ok : forall r, r ∈ q -> is_ready cv r = Ret (rdy r).
Hypothesis hit_ok : forall r, r ∈ q -> is_row_hit cv r = Ret (hit r).
Hypothesis opn_ok : forall r, r ∈ q -> is_row_open cv r = Ret (opn r).

(** Its next command would close a row that a queued request hits. *)
Definition closes_hit (r : Request) : bool :=
  negb (hit r) && opn r && existsb (fun r' => hit r' && bool_decide (bank_of r' = bank_of r)) q.

Lemma iters_in x : x ∈ iters q -> x.2 ∈ q.
Proof. rewrite elem_of_iters. apply list_elem_of_lookup_2. Qed.

Lemma compare_flag type x y :
  type <> FRFCFS_Cap -> x ∈ iters q -> y ∈ iters q ->
  let flag := match type with FCFS => fun _ => false | FRFCFS => rdy | _ => fun r => rdy r && hit r end in
  compare cv type t x y = Ret (pick (flag x.2) (flag y.2) x y, t).
Proof.
  intros Ht Hx%iters_in Hy%iters_in. destruct type; simpl; [done| |done|]; rewrite !rdy_ok by done; simpl; [done|].
  destruct (rdy x.2), (rdy y.2); simpl; rewrite ?hit_ok by done; done.
Qed.

Lemma hit_groups_ret l :
  (forall x, x ∈ l -> x.2 ∈ q) -> hit_groups cv l = Ret (map bank_of (filter (fun r => hit r = true) (map snd l))).
Proof.
  intros Hl. unfold hit_groups. assert (Hgen : forall acc, fold_ (fun acc itr => b ← is_row_hit cv itr.2;
    if b : bool then g ← pre_group itr.2; Ret (acc ++ [g]) else Ret acc) l acc =
    Ret (acc ++ map bank_of (filter (fun r => hit r = true) (map snd l)))); [|apply Hgen].
  induction l as [|x l IH]; intros acc; [simpl; by rewrite app_nil_r|]. cbn [fold_ map].
  rewrite hit_ok by (apply Hl; left). cbn [mbind outcome_bind]. rewrite filter_cons. destruct (hit x.2); simpl.
  - rewrite IH by (intros y Hy; apply Hl; by right). by rewrite <- app_assoc.
  - apply IH. intros y Hy. apply Hl. by right.
Qed.

Lemma violates_ret x :
  x ∈ q -> violates cv (map bank_of (filter (fun r => hit r = true) (map snd (iters q)))) x = Ret (closes_hit x).
Proof.
  intros Hx. unfold violates, closes_hit. rewrite hit_ok by done. simpl. destruct (hit x); [done|]. simpl. rewrite opn_ok by done.
  simpl. destruct (opn x); [|done]. simpl. f_equal. apply eq_bool_prop_intro. rewrite bool_decide_spec, Is_true_true, existsb_exists.
  rewrite list_elem_of_fmap. split.
  - intros (r & Hr & Hin). apply list_elem_of_filter in Hin as [Hh Hin]. apply list_elem_of_fmap in Hin as (y & -> & Hy).
    exists y.2. split; [by apply list_elem_of_In, iters_in|]. rewrite Hh. simpl. by rewrite bool_decide_true.
  - intros (r & Hin & Hb). apply andb_prop in Hb as [Hh Hb]. apply bool_decide_eq_true in Hb. exists r. split; [done|].
    apply list_elem_of_filter. split; [done|]. apply list_elem_of_In, list_elem_of_lookup in Hin as [i Hi].
    apply list_elem_of_fmap. exists (i, r). split; [done|]. by apply elem_of_iters.
Qed.

(** The second scan is a scan of the requests that close no hit. *)
Lemma scan_nonviolating_filter groups l :
  (forall x, x ∈ l -> violates cv groups x.2 = Ret (closes_hit x.2)) ->
  scan_nonviolating cv groups l t =
  match filter (fun x => closes_hit x.2 = false) l with
  | [] => Ret (None, t)
  | x :: xs => '(h, t) ← scan cv FRFCFS x xs t; Ret (Some h, t)
  end.
Proof.
  intros Hv. unfold scan_nonviolating. set (f := fun '(head, t) itr => v ← violates cv groups itr.2; _).
  assert (Hf : forall o t x, f (o, t) x = v ← violates cv groups x.2; if v : bool then Ret (o, t)
    else match o with None => Ret (Some x, t) | Some h => '(h, t) ← compare cv FRFCFS t h x; Ret (Some h, t) end) by done.
  clearbody f. assert (Hsome : forall l h t, (forall x, x ∈ l -> violates cv groups x.2 = Ret (closes_hit x.2)) ->
    fold_ f l (Some h, t) = '(h, t) ← scan cv FRFCFS h (filter (fun x => closes_hit x.2 = false) l) t; Ret (Some h, t)).
  { clear Hv l t. intros l. induction l as [|x l IH]; intros h t Hv; [done|]. cbn [fold_]. rewrite Hf, Hv by left.
    cbn [mbind outcome_bind]. rewrite filter_cons. destruct (closes_hit x.2) eqn:Ec.
    - rewrite decide_False by done. cbn [mbind outcome_bind]. apply IH. intros y Hy. apply Hv. by right.
    - rewrite decide_True by done. unfold scan. cbn [fold_]. destruct (compare cv FRFCFS t h x) as [[h1 t1]|]; [|done].
      cbn [mbind outcome_bind]. apply IH. intros y Hy. apply Hv. by right. }
  induction l as [|x l IH]; [done|]. cbn [fold_]. rewrite Hf, Hv by left. cbn [mbind outcome_bind].
  rewrite filter_cons. destruct (closes_hit x.2) eqn:Ec.
  - rewrite decide_False by done. cbn [mbind outcome_bind]. apply IH. intros y Hy. apply Hv. by right.
  - rewrite decide_True by done. cbn [mbind outcome_bind]. apply Hsome. intros y Hy. apply Hv. by right.
Qed.

(** The request chosen is the best ready hit, or else the best of those that close no hit. *)
Definition chosen (type : SchedType) (x : nat * Request) : Prop :=
  q !! x.1 = Some x.2 /\
  match type with
  | FCFS => forall y, q !! y.1 = Some y.2 -> beats (fun _ => false) x y
  | FRFCFS => forall y, q !! y.1 = Some y.2 -> beats rdy x y
  | _ =>
      (rdy x.2 && hit x.2 = true /\ forall y, q !! y.1 = Some y.2 -> beats (fun r => rdy r && hit r) x y) \/
      ((forall r, r ∈ q -> rdy r && hit r = false) /\ closes_hit x.2 = false /\
       forall y, q !! y.1 = Some y.2 -> closes_hit y.2 = false -> beats rdy x y)
  end.

Lemma get_head_scan type first rest :
  type <> FRFCFS_Cap -> iters q = first :: rest ->
  let flag := match type with FCFS => fun _ => false | FRFCFS => rdy | _ => fun r => rdy r && hit r end in
  exists h, scan cv type first rest t = Ret (h, t) /\ q !! h.1 = Some h.2 /\ forall y, q !! y.1 = Some y.2 -> beats flag h y.
Proof.
  intros Ht E flag. destruct (scan_best cv type flag first rest t) as (h & Eh & Hin & Hb).
  - rewrite <- E. apply iters_ascending.
  - rewrite <- E. intros x y Hx Hy. by apply compare_flag.
  - exists h. rewrite <- E in Hin, Hb. split; [done|]. split; [by apply elem_of_iters|]. intros y Hy. by apply Hb, elem_of_iters.
Qed.

(** Some queued request closes no hit: a hit itself does not. *)
Lemma nonviolating_exists : q <> [] -> exists x, x ∈ iters q /\ closes_hit x.2 = false.
Proof.
  intros Hq. destruct q as [|r l] eqn:Eq; [done|]. rewrite <- Eq in *. assert (Hr : q !! 0%nat = Some r) by (by rewrite Eq).
  destruct (closes_hit r) eqn:Ec; [|exists (0%nat, r); split; [by apply elem_of_iters|done]].
  unfold closes_hit in Ec. apply andb_prop in Ec as [_ Ec]. apply existsb_exists in Ec as (r' & Hin & Hb).
  apply list_elem_of_In, list_elem_of_lookup in Hin as [i Hi]. exists (i, r'). split; [by apply elem_of_iters|].
  unfold closes_hit. simpl. apply andb_prop in Hb as [-> _]. done.
Qed.

Lemma get_head_chosen type :
  type <> FRFCFS_Cap -> q <> [] -> exists x, get_head cv type q t = Ret (Some x, t) /\ chosen type x.
Proof.
  intros Ht Hq. unfold get_head. destruct (iters q) as [|first rest] eqn:E; [by destruct q|].
  destruct (get_head_scan type first rest Ht E) as (h & Eh & Hh & Hb). rewrite Eh. cbn [mbind outcome_bind].
  destruct type; [by exists h| by exists h|done|]. assert (Hin : h.2 ∈ q) by (by eapply list_elem_of_lookup_2).
  rewrite rdy_ok by done. cbn [mbind outcome_bind].
  assert (Ehit : (if rdy h.2 then is_row_hit cv h.2 else Ret false) = Ret (rdy h.2 && hit h.2)).
  { destruct (rdy h.2); [|done]. by rewrite hit_ok. }
  rewrite Ehit. cbn [mbind outcome_bind]. destruct (rdy h.2 && hit h.2) eqn:Ef; [exists h; split; [done|]; split; [done|by left]|].
  rewrite <- E, hit_groups_ret by (intros x Hx; by apply iters_in). cbn [mbind outcome_bind].
  rewrite scan_nonviolating_filter by (intros x Hx; by apply violates_ret, iters_in).
  destruct (nonviolating_exists Hq) as (z & Hz & Hzc).
  destruct (filter (fun x => closes_hit x.2 = false) (iters q)) as [|x xs] eqn:El.
  { exfalso. assert (Hzf : z ∈ filter (fun x => closes_hit x.2 = false) (iters q)) by (by apply list_elem_of_filter).
    rewrite El in Hzf. by apply elem_of_nil in Hzf. }
  destruct (scan_best cv FRFCFS rdy x xs t) as (h' & Eh' & Hin' & Hb').
  - rewrite <- El. apply ascending_filter, iters_ascending.
  - intros a b Ha Hb2. rewrite <- El in Ha, Hb2. apply list_elem_of_filter in Ha as [_ Ha], Hb2 as [_ Hb2]. by apply (compare_flag FRFCFS).
  - rewrite Eh'. cbn [mbind outcome_bind]. exists h'. split; [done|]. rewrite <- El in Hin', Hb'. apply list_elem_of_filter in Hin' as [Hc Hin'].
    split; [by apply elem_of_iters|]. right. split_and!; [|done|].
    + intros r Hr. apply list_elem_of_lookup in Hr as [i Hi]. specialize (Hb (i, r) Hi). simpl in Hb.
      destruct Hb as [[Hb _]|[Hb _]]; simpl in Hb; congruence.
    + intros y Hy Hyc. apply Hb'. apply list_elem_of_filter. split; [done|]. by apply elem_of_iters.
Qed.
End Choice.

(** ** Properties *)

(** C37: When the questions to the controller are answered, the scheduler returns
    a request exactly when the queue is not empty.  FCFS returns the oldest;
    FR-FCFS the oldest ready one, if any is ready; the default policy the oldest
    ready row hit, and without one the oldest (ready first) among the requests
    whose next command does not close a row that a queued request hits, of which
    there is always one.  Ties go to the front of the queue. *)
Theorem scheduler_choice cv rdy hit opn q t type :
  type <> FRFCFS_Cap ->
  (forall r, r ∈ q -> is_ready cv r = Ret (rdy r) /\ is_row_hit cv r = Ret (hit r) /\ is_row_open cv r = Ret (opn r)) ->
  match q with
  | [] => get_head cv type q t = Ret (None, t)
  | _ :: _ => exists x, get_head cv type q t = Ret (Some x, t) /\ chosen rdy hit opn q type x
  end.
Proof.
  intros Ht Hq. destruct q as [|r l] eqn:E; [done|]. rewrite <- E in *.
  apply get_head_chosen; try done; try (intros x Hx; by apply Hq). by rewrite E.
Qed.

(** Two requests for one bank: the second, younger one hits the open row. *)
Definition demo_queue : list Request :=
  [set_arrive 1 (set_vec (mkAddrVec 3 1 0 7 0) (cpu_request 0x40 READ 0));
   set_arrive 2 (set_vec (mkAddrVec 3 1 0 9 0) (cpu_request 0x80 READ 0))].
Definition demo_hit (r : Request) : bool := av_Row (req_vec r) =? 9.
Definition demo_view : ctrl_view :=
  mkView (fun r => Ret (negb (demo_hit r))) (fun r => Ret (demo_hit r)) (fun _ => Ret true) (fun _ _ => Ret true) 5.

Lemma scheduler_choice_witness :
  (exists x, get_head demo_view FRFCFS_PriorHit demo_queue ∅ = Ret (Some x, ∅) /\
     chosen (fun r => negb (demo_hit r)) demo_hit (fun _ => true) demo_queue FRFCFS_PriorHit x) /\
  (fst <$> get_head demo_view FRFCFS_PriorHit demo_queue ∅) = Ret ((fun r => (1%nat, r)) <$> demo_queue !! 1%nat).
Proof.
  split; [|reflexivity].
  exact (scheduler_choice demo_view (fun r => negb (demo_hit r)) demo_hit (fun _ => true) demo_queue ∅ FRFCFS_PriorHit
    ltac:(discriminate) (fun r _ => conj eq_refl (conj eq_refl eq_refl))).
Defined.

(** Asking the row table for the hits of a closed bank, as the capped
    scheduler does, leaves an entry for row 0 behind; the activation of another
    row does not replace it, and the first access to the open row fails its
    assert, while without the question it is recorded. *)
Theorem get_hits_poisons_table (t : row_table) v bg bk row col clk clk' :
  t !! [v; bg; bk] = None -> row <> 0 ->
  exists t1 t2, get_hits t [v; bg; bk; row; col] = Ret (0, t1) /\
    table_update t1 ACT [v; bg; bk; row; col] clk = Ret t2 /\
    table_update t2 RD [v; bg; bk; row; col] clk' = Stop AssertFailed /\
    exists t3 t4, table_update t ACT [v; bg; bk; row; col] clk = Ret t3 /\
      table_update t3 RD [v; bg; bk; row; col] clk' = Ret t4 /\ t4 !! [v; bg; bk] = Some (mkRow row 1 clk').
Proof.
  intros Ht Hrow. unfold get_hits, table_update. change (prefix [v; bg; bk; row; col] (level_index Row)) with (Ret [v; bg; bk]).
  change (at_ [v; bg; bk; row; col] (Z.of_nat (level_index Row))) with (Ret row). cbn [mbind outcome_bind].
  rewrite Ht. eexists _, _. split; [done|]. unfold table_open, table_access, table_close.
  cbn [hmc_is_opening hmc_is_accessing hmc_is_closing]. rewrite lookup_insert_eq. cbn [mbind outcome_bind]. split; [done|].
  rewrite lookup_insert_eq. cbn [re_row]. rewrite (proj2 (Z.eqb_neq 0 row)) by congruence.
  split; [done|]. rewrite Ht. eexists _, _. split; [done|]. rewrite lookup_insert_eq. cbn [re_row]. rewrite Z.eqb_refl. simpl.
  split; [done|]. by rewrite lookup_insert_eq.
Qed.

Lemma get_hits_poisons_table_witness :
  exists t1 t2, get_hits ∅ [3; 1; 0; 7; 2] = Ret (0, t1) /\ table_update t1 ACT [3; 1; 0; 7; 2] 10 = Ret t2 /\
    table_update t2 RD [3; 1; 0; 7; 2] 27 = Stop AssertFailed.
Proof.
  destruct (get_hits_poisons_table ∅ 3 1 0 7 2 10 27) as (t1 & t2 & H1 & H2 & H3 & _); [reflexivity|discriminate|].
  exists t1, t2. exact (conj H1 (conj H2 H3)).
Defined.
