(* ===== verification/Tick.v ===== *)
(** * The cycle of a vault controller

    [Controller<HMC>::tick] of [src/src/ramulator/HMC_Controller.h] with all it
    calls: completed reads ([Vault]), the refresh of [src/src/ramulator/Refresh.h]
    and [Refresh.cpp], the scheduler and the row table ([Scheduler]), the device
    ([Dram], [Hmc]).  Traces, power estimation and the latency statistics are not
    modelled; the counters of row hits, misses and conflicts are.

    The theory: in every reachable state of a controller with the default row
    policy the tick returns, that is no assert of the controller, the device, the
    row table or the refresh can fail; the row table holds exactly the open rows;
    a refresh is done within 400 cycles; no command is issued too early. *)

From stdpp Require Import sorting.
From S2P Require Import Prelude Bits Network Topology AddrMap Packet Vault Dram Hmc Scheduler.

(** ** State *)

Record tick_config : Type := mkTickConfig {
  tc_org : Org;
  tc_speed : Speed;
  tc_sched : SchedType;
  tc_policy : PolicyType;
  tc_no_DRAM_latency : bool;
  tc_burst_count : Z;
  tc_payload_flits : Z;
  tc_max_pim_remote : Z;
  tc_nolat : IdealMemNetWorkType
}.

Definition tc_spec (tc : tick_config) : standard DramCommand DramState := HMC (org_count (tc_org tc)) (speed_table (tc_speed tc)).

Definition tc_vault (tc : tick_config) : vault_config :=
  mkVaultConfig (tc_burst_count tc) (tc_payload_flits tc) (tc_max_pim_remote tc) (read_latency (speed_table (tc_speed tc)))
    (tc_nolat tc).

Record VaultState : Type := mkVaultState {
  ctl : Controller;
  channel : vault;
  rowtable : row_table;
  ref_clk : Z;                       (* refresh->clk *)
  refreshed : Z;
  row_hits : Z;
  row_misses : Z;
  row_conflicts : Z
}.

(** The constructor of the controller of vault [id]. *)
Definition newVaultState (tc : tick_config) (id : Z) : VaultState :=
  mkVaultState (newController id) (new_vault (tc_org tc) (tc_speed tc) id) ∅ 0 0 0 0 0.

Definition set_ctl (st : VaultState) (c : Controller) : VaultState :=
  mkVaultState c (channel st) (rowtable st) (ref_clk st) (refreshed st) (row_hits st) (row_misses st) (row_conflicts st).
Definition set_channel (st : VaultState) (n : vault) : VaultState :=
  mkVaultState (ctl st) n (rowtable st) (ref_clk st) (refreshed st) (row_hits st) (row_misses st) (row_conflicts st).
Definition set_rowtable (st : VaultState) (t : row_table) : VaultState :=
  mkVaultState (ctl st) (channel st) t (ref_clk st) (refreshed st) (row_hits st) (row_misses st) (row_conflicts st).
Definition set_refresh (st : VaultState) (clk r : Z) : VaultState :=
  mkVaultState (ctl st) (channel st) (rowtable st) clk r (row_hits st) (row_misses st) (row_conflicts st).
Definition count_row (st : VaultState) (hit opn : bool) : VaultState :=
  mkVaultState (ctl st) (channel st) (rowtable st) (ref_clk st) (refreshed st)
    (row_hits st + if hit then 1 else 0) (row_misses st + if negb hit && negb opn then 1 else 0)
    (row_conflicts st + if negb hit && opn then 1 else 0).

(** ** Questions about requests *)

Definition get_first_cmd (tc : tick_config) (n : vault) (r : Request) : outcome DramCommand :=
  let cmd := translate (req_type r) in
  if tc_no_DRAM_latency tc then Ret cmd else decode (tc_spec tc) n cmd (vec_list (req_vec r)).

(** The controller as its scheduler and row policy see it. *)
Definition view (tc : tick_config) (n : vault) (clk : Z) : ctrl_view :=
  mkView
    (fun r => cmd ← get_first_cmd tc n r; check (tc_spec tc) n cmd (vec_list (req_vec r)) clk)
    (fun r => check_row_hit (tc_spec tc) n (translate (req_type r)) (vec_list (req_vec r)))
    (fun r => check_row_open (tc_spec tc) n (translate (req_type r)) (vec_list (req_vec r)))
    (fun cmd addr => check (tc_spec tc) n cmd addr clk)
    clk.

(** ** The steps of a tick *)

(** Step 1: the oldest completed read leaves the device and the controller. *)
Definition tick_serve (tc : tick_config) (st : VaultState) : outcome VaultState :=
  match pending (ctl st) with
  | req :: _ =>
      if depart req <=? c_clk (ctl st) then
        n ← (if 1 <? depart req - arrive req
             then update_serving_requests (tc_spec tc) (channel st) (vec_list (req_vec req)) (-1) (c_clk (ctl st))
             else Ret (channel st));
        c ← serve_pending (tc_vault tc) (ctl st);
        Ret (set_ctl (set_channel st n) c)
      else Ret st
  | [] => Ret st
  end.

(** The request of [refresh_target]: its address is the vault only. *)
Definition refresh_request (vault : Z) : Request :=
  set_vec (mkAddrVec vault (-1) (-1) (-1) (-1)) (cpu_request 0 REFRESH 0).

(** Step 2: [tick_ref], with [inject_refresh] and [refresh_target]. *)
Definition tick_ref (tc : tick_config) (st : VaultState) : outcome VaultState :=
  let clk := ref_clk st + 1 in
  if nREFI (speed_table (tc_speed tc)) <=? clk - refreshed st then
    match enqueue (ctl st) (refresh_request (nid (root (channel st)))) with
    | None => Stop AssertFailed
    | Some (_, c) => Ret (set_refresh (set_ctl st c) clk clk)
    end
  else Ret (set_refresh st clk (refreshed st)).

(** [issue_cmd(cmd, addr_vec)] *)
Definition issue_cmd (tc : tick_config) (st : VaultState) (cmd : DramCommand) (addr : list Z) : outcome VaultState :=
  let clk := c_clk (ctl st) in
  b ← check (tc_spec tc) (channel st) cmd addr clk;
  _ ← assert_ b;
  if tc_no_DRAM_latency tc then
    n ← update_timing (tc_spec tc) (channel st) cmd addr clk; Ret (set_channel st n)
  else
    n ← update (tc_spec tc) (channel st) cmd addr clk;
    t ← table_update (rowtable st) cmd addr clk;
    Ret (set_rowtable (set_channel st n) t).

(** The type that selects the scheduled queue. *)
Definition queue_type (c : Controller) : ReqType :=
  match otherq c with _ :: _ => REFRESH | [] => if write_mode c then WRITE else READ end.

(** The queue of type [t] with new contents. *)
Definition set_queue (c : Controller) (t : ReqType) (q : list Request) : Controller :=
  match t with
  | READ => set_queues c q (writeq c) (otherq c) (pending c)
  | WRITE => set_queues c (readq c) q (otherq c) (pending c)
  | _ => set_queues c (readq c) (writeq c) q (pending c)
  end.

Definition is_access (t : ReqType) : bool := match t with READ | WRITE => true | _ => false end.

(** The statistics of the first command of the request at position [k]. *)
Definition first_command (tc : tick_config) (st : VaultState) (k : nat) (req : Request) : outcome (VaultState * Request) :=
  if is_first_command req then
    let req := set_first_command false req in
    let c := ctl st in
    let st := set_ctl st (set_queue c (queue_type c) (<[k := req]> (get_queue c (queue_type c)))) in
    if is_access (req_type req) then
      n ← update_serving_requests (tc_spec tc) (channel st) (vec_list (req_vec req)) 1 (c_clk c);
      let st := set_channel st n in
      hit ← is_row_hit (view tc n (c_clk c)) req;
      opn ← (if hit : bool then Ret true else is_row_open (view tc n (c_clk c)) req);
      Ret (count_row st hit opn, req)
    else Ret (st, req)
  else Ret (st, req).

(** The last command of a request was issued. *)
Definition finish_request (tc : tick_config) (st : VaultState) (k : nat) (req : Request) : outcome VaultState :=
  n ← (if bool_decide (req_type req = WRITE) && (burst_count req - 1 =? 0)
       then update_serving_requests (tc_spec tc) (channel st) (vec_list (req_vec req)) (-1) (c_clk (ctl st))
       else Ret (channel st));
  c ← retire (tc_vault tc) (ctl st) (queue_type (ctl st)) k;
  Ret (set_ctl (set_channel st n) c).

(** Step 4, once a ready request was found. *)
Definition tick_issue (tc : tick_config) (st : VaultState) (k : nat) (req : Request) : outcome VaultState :=
  '(st, req) ← first_command tc st k req;
  cmd ← get_first_cmd tc (channel st) req;
  st ← issue_cmd tc st cmd (vec_list (req_vec req));
  if decide (cmd = translate (req_type req)) then finish_request tc st k req else Ret st.

(** Step 4 without a ready request: the row policy may close a row. *)
Definition tick_speculate (tc : tick_config) (st : VaultState) : outcome VaultState :=
  if tc_no_DRAM_latency tc then Ret st
  else
    victim ← get_victim (view tc (channel st) (c_clk (ctl st))) (tc_policy tc) (rowtable st) PRE;
    match victim with [] => Ret st | _ :: _ => issue_cmd tc st PRE victim end.

Definition tick_schedule (tc : tick_config) (st : VaultState) : outcome VaultState :=
  let v := view tc (channel st) (c_clk (ctl st)) in
  '(head, t) ← get_head v (tc_sched tc) (scheduled_queue (ctl st)) (rowtable st);
  let st := set_rowtable st t in
  match head with
  | None => tick_speculate tc st
  | Some (k, req) =>
      b ← is_ready v req;
      if b : bool then tick_issue tc st k req else tick_speculate tc st
  end.

(** [tick()] *)
Definition tick (tc : tick_config) (st : VaultState) : outcome VaultState :=
  let st := set_ctl st (set_clk_mode (ctl st) (c_clk (ctl st) + 1) (write_mode (ctl st))) in
  st ← tick_serve tc st;
  st ← tick_ref tc st;
  let st := set_ctl st (set_clk_mode (ctl st) (c_clk (ctl st)) (next_write_mode (ctl st))) in
  tick_schedule tc st.

(** [receive] of a request packet. *)
Definition vault_receive (tc : tick_config) (st : VaultState) (p : Packet) : outcome (bool * VaultState) :=
  '(b, c) ← receive (tc_vault tc) (ctl st) p; Ret (b, set_ctl st c).

(** ** The row table and the open rows *)

(** The open row of a bank, and of the bank a key of the row table names. *)
Definition open_of (m : vnode) : option Z :=
  if decide (state m = Opened) then fst <$> head (map_to_list (row_state m)) else None.

Definition open_key (id : Z) (n : vault) (key : list Z) : option Z :=
  match key with
  | [v; bg; bk] =>
      if (v =? id) && (0 <=? bg) && (0 <=? bk) then nd_at n [Z.to_nat bg; Z.to_nat bk] ≫= open_of else None
  | _ => None
  end.

Definition table_ok (id : Z) (n : vault) (t : row_table) : Prop := forall key, re_row <$> t !! key = open_key id n key.

Lemma open_of_closed m : closed_bank m -> open_of m = None.
Proof. intros [Hs _]. unfold open_of. by rewrite Hs. Qed.

Lemma open_of_opened m r : opened_bank m r -> open_of m = Some r.
Proof. intros [Hs Hr]. unfold open_of. by rewrite decide_True, Hr, map_to_list_singleton. Qed.

Lemma open_of_kept m m' : kept m m' -> open_of m' = open_of m.
Proof. intros (Hs & Hr & _). unfold open_of. by rewrite Hs, Hr. Qed.

Lemma open_key_bank id n bg bk m :
  0 <= bg -> 0 <= bk -> nd_at n [Z.to_nat bg; Z.to_nat bk] = Some m -> open_key id n [id; bg; bk] = open_of m.
Proof. intros Hg Hk Hm. unfold open_key. rewrite Z.eqb_refl, (proj2 (Z.leb_le 0 bg)), (proj2 (Z.leb_le 0 bk)), Hm by done. done. Qed.

(** Keys have the form of a row group. *)
Lemma open_key_some id n key r :
  open_key id n key = Some r ->
  exists bg bk m, key = [id; bg; bk] /\ 0 <= bg /\ 0 <= bk /\ nd_at n [Z.to_nat bg; Z.to_nat bk] = Some m /\ open_of m = Some r.
Proof.
  unfold open_key. destruct key as [|v [|bg [|bk [|]]]]; try done. destruct (_ && _ && _) eqn:E; [|done]. zb.
  intros Hb. apply bind_Some in Hb as (m & Hm & Hr). subst v. by exists bg, bk, m.
Qed.

Lemma equal_range_take a b : (length a <= length b)%nat -> equal_range a b = Ret (bool_decide (a = take (length a) b)).
Proof.
  revert b. induction a as [|x a IH]; intros b Hl; [done|]. destruct b as [|y b]; simpl in Hl; [lia|]. cbn [equal_range length take].
  destruct (Z.eqb_spec x y) as [->|Hne].
  - rewrite IH by lia. f_equal. apply bool_decide_ext. split; congruence.
  - f_equal. symmetry. apply bool_decide_false. congruence.
Qed.

Lemma in_order_permutation t : in_order t ≡ₚ map_to_list t.
Proof. apply merge_sort_Permutation. Qed.

(** Closing removes the entries under a prefix. *)
Lemma close_fold (pre : list Z) (l : list (list Z * RowEntry)) (t : row_table) (n : Z) :
  Forall (fun e => (length pre <= length e.1)%nat) l ->
  exists t', fold_ (fun '(t, n_rm) (e : list Z * RowEntry) =>
        b ← equal_range pre e.1;
        Ret (if b : bool then (delete e.1 t, n_rm + 1) else (t, n_rm))) l (t, n) =
      Ret (t', n + count_b (fun e => bool_decide (pre = take (length pre) e.1)) l) /\
    forall key, t' !! key = if bool_decide (pre = take (length pre) key) && bool_decide (key ∈ l.*1) then None else t !! key.
Proof.
  intros Hl. revert t n. induction Hl as [|e l He Hl IH]; intros t n.
  { exists t. split; [simpl; do 2 f_equal; lia|]. intros key. by rewrite andb_false_r. }
  cbn [fold_ count_b]. rewrite equal_range_take by done. cbn [mbind outcome_bind].
  destruct (bool_decide (pre = take (length pre) e.1)) eqn:Eb; [destruct (IH (delete e.1 t) (n + 1)) as (t' & E & Hk)|destruct (IH t n) as (t' & E & Hk)];
    exists t'; (split; [rewrite E; do 2 f_equal; lia|]); intros key; rewrite Hk; cbn [fmap list_fmap];
    destruct (bool_decide (pre = take (length pre) key)) eqn:Ek; cbn [andb].
  - destruct (decide (key = e.1)) as [->|Hne].
    + rewrite lookup_delete_eq. rewrite (bool_decide_true (e.1 ∈ e.1 :: _)) by left. by destruct (bool_decide (e.1 ∈ l.*1)).
    + rewrite lookup_delete_ne by done. rewrite (bool_decide_ext (key ∈ e.1 :: l.*1) (key ∈ l.*1)); [done|]. rewrite elem_of_cons. naive_solver.
  - rewrite lookup_delete_ne; [done|]. intros <-. congruence.
  - rewrite (bool_decide_ext (key ∈ e.1 :: l.*1) (key ∈ l.*1)); [done|]. rewrite elem_of_cons. split; [|by right].
    intros [->|?]; [congruence|done].
  - done.
Qed.

Lemma table_close_spec id n t cmd addr :
  table_ok id n t -> hmc_is_closing cmd = true -> (hmc_scope cmd <= 2)%nat -> (5 <= length addr)%nat ->
  (exists key r, open_key id n key = Some r /\ take (S (hmc_scope cmd)) addr = take (S (hmc_scope cmd)) key) ->
  exists t', table_close t cmd addr = Ret t' /\
    forall key, t' !! key = if decide (take (S (hmc_scope cmd)) addr = take (S (hmc_scope cmd)) key) then None else t !! key.
Proof.
  intros T Hc Hsc Hla (k0 & r0 & Hk0 & Hp0). unfold table_close. rewrite Hc. set (pre := take (S (hmc_scope cmd)) addr) in *.
  unfold prefix. rewrite (proj2 (Nat.leb_le _ _)) by lia. fold pre. cbn [mbind outcome_bind].
  assert (Hlen : length pre = S (hmc_scope cmd)) by (unfold pre; rewrite length_take; lia).
  assert (Hkeys : forall e, e ∈ in_order t -> length e.1 = 3%nat /\ is_Some (t !! e.1)).
  { intros [k e] He. rewrite in_order_permutation in He. apply elem_of_map_to_list in He. simpl. specialize (T k). rewrite He in T. simpl in T.
    symmetry in T. apply open_key_some in T as (bg & bk & m & -> & _). split; [done|]. by rewrite He. }
  destruct (close_fold pre (in_order t) t 0) as (t' & E & Ht').
  { apply Forall_forall. intros e He. destruct (Hkeys e He). lia. }
  rewrite E. cbn [mbind outcome_bind]. specialize (T k0) as Tk0. rewrite Hk0 in Tk0. apply fmap_Some in Tk0 as (e0 & He0 & _).
  assert (Hin : (k0, e0) ∈ in_order t) by (rewrite in_order_permutation; by apply elem_of_map_to_list).
  apply list_elem_of_lookup in Hin as [i Hi].
  assert (Hpos := count_b_pos (fun e : list Z * RowEntry => bool_decide (pre = take (length pre) e.1)) _ i (k0, e0) Hi).
  rewrite Hlen in Hpos, Ht' |- *. rewrite (proj2 (Z.ltb_lt 0 _)).
  2:{ apply Hpos. simpl. by apply bool_decide_true. }
  cbn [assert_ mbind outcome_bind]. exists t'. split; [done|]. intros key. rewrite Ht'. destruct (decide (pre = _)) as [Hp|Hp].
  - rewrite (bool_decide_true _ Hp). cbn [andb]. destruct (bool_decide (key ∈ (in_order t).*1)) eqn:Hk; [done|].
    apply bool_decide_eq_false in Hk. destruct (t !! key) as [e|] eqn:Ek; [|done]. exfalso.
    apply Hk, list_elem_of_fmap. exists (key, e). split; [done|]. rewrite in_order_permutation. by apply elem_of_map_to_list.
  - by rewrite (bool_decide_false _ Hp).
Qed.

Section RowTable.
Context (bgs bks : nat) (id : Z) (n n' : vault) (cmd : DramCommand) (bg bk row col : Z).
Hypothesis V : vault_ok bgs bks n.
Hypothesis V' : vault_ok bgs bks n'.
Hypothesis step : forall p m', nd_at n' p = Some m' ->
  exists m, nd_at n p = Some m /\ kept (effect cmd (Z.to_nat bg) (Z.to_nat bk) row p m) m'.

(** The open row of a key after the command. *)
Lemma open_key_step key :
  open_key id n' key =
  match key with
  | [v; a; b] => if (v =? id) && (0 <=? a) && (0 <=? b) then
      m ← nd_at n [Z.to_nat a; Z.to_nat b]; open_of (effect cmd (Z.to_nat bg) (Z.to_nat bk) row [Z.to_nat a; Z.to_nat b] m)
      else None
  | _ => None
  end.
Proof.
  destruct key as [|v [|a [|b [|]]]]; try done. unfold open_key. destruct (_ && _ && _); [|done].
  destruct (nd_at n' _) as [m'|] eqn:Em'.
  - destruct (step _ _ Em') as (m & -> & Hk). simpl. by apply open_of_kept.
  - destruct (nd_at n _) as [m|] eqn:Em; [|done]. exfalso.
    assert (Hs : is_Some (nd_at n' [Z.to_nat a; Z.to_nat b])) by (apply V', V; by eexists). rewrite Em' in Hs. by destruct Hs.
Qed.

Context (t : row_table).
Hypothesis T : table_ok id n t.

(** A bank whose state the command does not change. *)
Lemma open_key_unchanged key :
  (forall a b m, key = [id; a; b] -> 0 <= a -> 0 <= b -> nd_at n [Z.to_nat a; Z.to_nat b] = Some m ->
     open_of (effect cmd (Z.to_nat bg) (Z.to_nat bk) row [Z.to_nat a; Z.to_nat b] m) = open_of m) ->
  open_key id n' key = open_key id n key.
Proof.
  intros Hsame. rewrite open_key_step. unfold open_key. destruct key as [|v [|a [|b [|]]]]; try done.
  destruct (_ && _ && _) eqn:E; [|done]. zb. subst v. destruct (nd_at n _) as [m|] eqn:Em; [|done]. simpl. by apply Hsame.
Qed.

Hypothesis Hin : in_vault bgs bks bg bk \/ cmd = PREA \/ cmd = REF.

(** What the controller knows when it issues a command. *)
Definition issuable : Prop :=
  match cmd with
  | ACT => exists m, nd_at n [Z.to_nat bg; Z.to_nat bk] = Some m /\ closed_bank m
  | PRE => exists m r, nd_at n [Z.to_nat bg; Z.to_nat bk] = Some m /\ opened_bank m r
  | PREA => some_bank_open n = true
  | RD | WR => exists m, nd_at n [Z.to_nat bg; Z.to_nat bk] = Some m /\ opened_bank m row
  | REF => True
  | _ => False
  end.
Hypothesis HI : issuable.

Lemma other_bank key m a b :
  in_vault bgs bks bg bk -> key = [id; a; b] -> 0 <= a -> 0 <= b -> key <> [id; bg; bk] -> cmd <> PREA ->
  open_of (effect cmd (Z.to_nat bg) (Z.to_nat bk) row [Z.to_nat a; Z.to_nat b] m) = open_of m.
Proof.
  intros [HB1 HB2] -> Ha Hb Hne Hc. replace (effect _ _ _ _ _ m) with m; [done|]. unfold effect.
  destruct cmd; try done; rewrite decide_False; try done; intros [= E1 E2]; apply Hne; f_equal; f_equal; [lia| f_equal; lia..].
Qed.

Lemma bank_key m : in_vault bgs bks bg bk -> nd_at n [Z.to_nat bg; Z.to_nat bk] = Some m -> open_key id n [id; bg; bk] = open_of m.
Proof. intros [? ?] Hm. apply open_key_bank; [lia|lia|done]. Qed.

Lemma bank_key_step m :
  in_vault bgs bks bg bk -> nd_at n [Z.to_nat bg; Z.to_nat bk] = Some m -> cmd <> PREA ->
  open_key id n' [id; bg; bk] = open_of (bank_effect cmd row m).
Proof.
  intros [? ?] Hm Hc. rewrite open_key_step, Z.eqb_refl, (proj2 (Z.leb_le 0 bg)), (proj2 (Z.leb_le 0 bk)), Hm by lia. simpl.
  unfold effect. rewrite decide_True by done. by destruct cmd.
Qed.

(** Commands that change one bank only. *)
Lemma other_key key : in_vault bgs bks bg bk -> key <> [id; bg; bk] -> cmd <> PREA -> open_key id n' key = open_key id n key.
Proof. intros HB Hk Hc. apply open_key_unchanged. intros a b m -> Ha Hb _. by apply (other_bank [id; a; b]). Qed.

Lemma table_act clk : cmd = ACT -> in_vault bgs bks bg bk -> table_ok id n' (table_open t cmd [id; bg; bk] row clk).
Proof.
  intros Hc HB. unfold issuable in HI. rewrite Hc in HI. destruct HI as (m & Hm & Hcl). pose proof (T [id; bg; bk]) as Tb.
  rewrite (bank_key m HB Hm), (open_of_closed m Hcl) in Tb. unfold table_open. rewrite Hc. cbn [hmc_is_opening].
  destruct (t !! [id; bg; bk]) eqn:Et; [done|]. intros key. destruct (decide (key = [id; bg; bk])) as [->|Hne].
  - rewrite lookup_insert_eq, (bank_key_step m HB Hm), Hc by congruence. simpl. symmetry. apply open_of_opened.
    split; [done|]. simpl. destruct Hcl as [_ ->]. done.
  - rewrite lookup_insert_ne by done. rewrite other_key by congruence. apply T.
Qed.

Lemma table_rw clk :
  cmd = RD \/ cmd = WR -> in_vault bgs bks bg bk ->
  exists t', table_access t cmd [id; bg; bk] row clk = Ret t' /\ table_ok id n' t'.
Proof.
  intros Hc HB. assert (Hp : cmd <> PREA) by (destruct Hc; congruence).
  assert (Hm : exists m, nd_at n [Z.to_nat bg; Z.to_nat bk] = Some m /\ opened_bank m row)
    by (unfold issuable in HI; destruct Hc as [-> | ->]; done).
  destruct Hm as (m & Hm & Ho). pose proof (T [id; bg; bk]) as Tb. rewrite (bank_key m HB Hm), (open_of_opened m row Ho) in Tb.
  apply fmap_Some in Tb as (e & He & Hrow). unfold table_access. replace (hmc_is_accessing cmd) with true by (by destruct Hc as [-> | ->]).
  rewrite He, <- Hrow, Z.eqb_refl. cbn [assert_ mbind outcome_bind]. eexists. split; [done|]. intros key.
  assert (Hsame : open_key id n' key = open_key id n key).
  { destruct (decide (key = [id; bg; bk])) as [->|Hne]; [|by apply other_key].
    rewrite (bank_key_step m HB Hm), (bank_key m HB Hm) by done.
    by destruct Hc as [-> | ->]. }
  rewrite Hsame, <- T. destruct (decide (key = [id; bg; bk])) as [->|Hne]; [rewrite lookup_insert_eq, He; simpl; congruence|by rewrite lookup_insert_ne].
Qed.

Lemma table_pre :
  cmd = PRE -> in_vault bgs bks bg bk -> exists t', table_close t cmd [id; bg; bk; row; col] = Ret t' /\ table_ok id n' t'.
Proof.
  intros Hc HB. unfold issuable in HI. rewrite Hc in HI. destruct HI as (m & r & Hm & Ho).
  destruct (table_close_spec id n t cmd [id; bg; bk; row; col] T) as (t' & E & Ht');
    [by rewrite Hc|by rewrite Hc|simpl; lia| |].
  { exists [id; bg; bk], r. split; [by rewrite (bank_key m HB Hm), (open_of_opened m r)|]. by rewrite Hc. }
  exists t'. split; [done|]. intros key. rewrite Ht', Hc. destruct (decide (key = [id; bg; bk])) as [->|Hne].
  - rewrite decide_True by done. rewrite (bank_key_step m HB Hm), Hc by congruence. done.
  - rewrite other_key by congruence. rewrite <- T. case_decide as Hd; [|done].
    destruct (t !! key) as [e|] eqn:Ek; [|done]. exfalso. specialize (T key) as Tk. rewrite Ek in Tk. symmetry in Tk.
    apply open_key_some in Tk as (a & b & ? & -> & _). simpl in Hd. congruence.
Qed.

Lemma table_prea : cmd = PREA -> exists t', table_close t cmd [id; bg; bk; row; col] = Ret t' /\ table_ok id n' t'.
Proof.
  intros Hc. unfold issuable in HI. rewrite Hc in HI. apply (some_bank_open_iff bgs bks n V) in HI as (i & j & m & r & Hm & Ho).
  destruct (table_close_spec id n t cmd [id; bg; bk; row; col] T) as (t' & E & Ht');
    [by rewrite Hc|rewrite Hc; repeat constructor|simpl; lia| |].
  { exists [id; Z.of_nat i; Z.of_nat j], r. split; [|by rewrite Hc]. rewrite (open_key_bank id n _ _ m) by (lia || by rewrite !Nat2Z.id). by apply open_of_opened. }
  exists t'. split; [done|]. intros key. rewrite Ht', Hc. transitivity (@None Z).
  - case_decide as Hd; [done|]. destruct (t !! key) as [e|] eqn:Ek; [|done]. exfalso. specialize (T key) as Tk. rewrite Ek in Tk.
    symmetry in Tk. apply open_key_some in Tk as (a & b & ? & -> & _). done.
  - symmetry. rewrite open_key_step. destruct key as [|v [|a [|b [|]]]]; try done. destruct (_ && _ && _); [|done].
    destruct (nd_at n [Z.to_nat a; Z.to_nat b]) as [m'|]; [|done]. rewrite Hc. reflexivity.
Qed.

Lemma table_refresh : cmd = REF -> table_ok id n' t.
Proof.
  intros Hc key. rewrite T. symmetry. apply open_key_unchanged. intros a b m _ _ _ _. rewrite Hc. unfold effect. by case_decide.
Qed.

(** Updating the row table returns and keeps it in step with the banks. *)
Lemma table_step clk :
  exists t', table_update t cmd [id; bg; bk; row; col] clk = Ret t' /\ table_ok id n' t'.
Proof.
  unfold table_update. change (prefix [id; bg; bk; row; col] (level_index Row)) with (Ret [id; bg; bk]).
  change (at_ [id; bg; bk; row; col] (Z.of_nat (level_index Row))) with (Ret row). cbn [mbind outcome_bind].
  assert (Hcase : (cmd = ACT /\ in_vault bgs bks bg bk) \/ (cmd = PRE /\ in_vault bgs bks bg bk) \/
    ((cmd = RD \/ cmd = WR) /\ in_vault bgs bks bg bk) \/ cmd = PREA \/ cmd = REF).
  { unfold issuable in HI. destruct cmd; try done; destruct Hin as [?|[?|?]]; try done; auto 6. }
  destruct Hcase as [[Hc HB]|[[Hc HB]|[[Hc HB]|[Hc|Hc]]]].
  - pose proof (table_act clk Hc HB) as HT. rewrite Hc in HT |- *. by eexists.
  - destruct (table_pre Hc HB) as (t' & E & HT). rewrite Hc in E |- *. by exists t'.
  - destruct (table_rw clk Hc HB) as (t' & E & HT). exists t'. split; [|done].
    destruct Hc as [Hc|Hc]; rewrite Hc in E |- *; unfold table_open; cbn [hmc_is_opening]; rewrite E; done.
  - destruct (table_prea Hc) as (t' & E & HT). rewrite Hc in E |- *. by exists t'.
  - pose proof (table_refresh Hc) as HT. rewrite Hc. by eexists.
Qed.
End RowTable.

(** ** The device under its controller *)

Lemma serve_up s clk :
  0 <= clk -> 0 <= cur_serving_requests s -> (0 < cur_serving_requests s -> begin_of_serving s <> -1) ->
  exists s', serve s 1 clk = Ret s' /\ cur_serving_requests s' = cur_serving_requests s + 1 /\ begin_of_serving s' <> -1.
Proof.
  intros Hclk Hc Hb. unfold serve. rewrite (proj2 (Z.leb_le 0 _)) by lia. cbn [assert_ mbind outcome_bind Z.eqb].
  destruct (Z.eqb_spec (cur_serving_requests s + 1) 1); cbn [andb].
  - eexists. split; [done|]. simpl. split; [done|lia].
  - rewrite (proj2 (Z.eqb_neq _ 0)) by lia. eexists. split; [done|]. simpl. split; [done|]. apply Hb. lia.
Qed.

Lemma serve_down s clk :
  0 < cur_serving_requests s -> begin_of_serving s <> -1 ->
  exists s', serve s (-1) clk = Ret s' /\ cur_serving_requests s' = cur_serving_requests s + -1 /\ begin_of_serving s' <> -1.
Proof.
  intros Hc Hb. unfold serve. rewrite (proj2 (Z.leb_le 0 _)) by lia. cbn [assert_ mbind outcome_bind Z.eqb andb].
  destruct (Z.eqb_spec (cur_serving_requests s + -1) 0).
  - rewrite (proj2 (Z.eqb_neq (begin_of_serving s) (-1))) by done. cbn [negb assert_ mbind outcome_bind]. eexists. split; [done|]. done.
  - eexists. split; [done|]. done.
Qed.

Section Channel.
Context (tc : tick_config) (id : Z).
Abbreviation sp := (tc_spec tc).
Abbreviation groups := (bank_groups (tc_org tc)).
Abbreviation gbanks := (banks_per_group (tc_org tc)).
Abbreviation history := (list (DramCommand * list Z * Z)).
Abbreviation n0 := (new_vault (tc_org tc) (tc_speed tc) id).

Record channel_ok (h : history) (clk : Z) (n : vault) : Prop := {
  co_rec : recorded sp id h n;
  co_vault : vault_ok groups gbanks n;
  co_late : Forall (fun e => e.2 <= clk) h;
  co_shape : same_shape n0 n;
  co_obeyed : obeyed sp n0 h
}.

Definition at_home (r : Request) : Prop :=
  av_Vault (req_vec r) = id /\ in_vault groups gbanks (av_BankGroup (req_vec r)) (av_Bank (req_vec r)).

(** The node at [p] is on the way to the bank of [r]. *)
Definition through (p : list nat) (r : Request) : bool :=
  bool_decide (p `prefix_of` [Z.to_nat (av_BankGroup (req_vec r)); Z.to_nat (av_Bank (req_vec r))]).

Lemma served_through h clk n p r :
  channel_ok h clk n -> at_home r -> is_Some (nd_at n p) -> served sp n (vec_list (req_vec r)) p <-> through p r = true.
Proof.
  intros C [Hv [Hg Hb]] Hp. apply (vk_shape _ _ _ (co_vault _ _ _ C)) in Hp. unfold served, through, vec_list.
  rewrite (rec_nid _ _ _ _ (co_rec _ _ _ C)), (vk_level _ _ _ (co_vault _ _ _ C)), bool_decide_eq_true, Hv.
  destruct p as [|i [|j [|k p]]]; try done; unfold ids; cbn [fmap list_fmap length].
  - split; intros _; [by apply prefix_nil|]. split; [|simpl; lia]. by eexists.
  - split.
    + intros [[l Hl] _]. injection Hl as Hl _. rewrite Hl, Nat2Z.id. by eexists.
    + intros [l Hl]. injection Hl as Hl _. rewrite <- Hl, Z2Nat.id by lia. split; [by eexists|simpl; lia].
  - split.
    + intros [[l Hl] _]. injection Hl as Hl1 Hl2 _. by rewrite Hl1, Hl2, !Nat2Z.id.
    + intros [l Hl]. injection Hl as Hl1 Hl2 _. rewrite <- Hl1, <- Hl2, !Z2Nat.id by lia. split; [by eexists|simpl; lia].
Qed.

(** The counters of every node are [f]. *)
Definition serving_ok (n : vault) (f : list nat -> Z) : Prop :=
  forall p m, nd_at n p = Some m ->
    cur_serving_requests (stats m) = f p /\ (0 < f p -> begin_of_serving (stats m) <> -1).

(** The state of the banks stays. *)
Definition same_banks (n n' : vault) : Prop :=
  forall p m', nd_at n' p = Some m' -> exists m, nd_at n p = Some m /\ state m' = state m /\ row_state m' = row_state m.

Lemma vault_ok_same n n' : same_shape n n' -> same_banks n n' -> vault_ok groups gbanks n -> vault_ok groups gbanks n'.
Proof.
  intros [[F _] Sh] B V. split.
  - rewrite F. apply V.
  - destruct (B [] (root n') eq_refl) as (m & [= <-] & -> & _). apply V.
  - intros p. rewrite <- Sh. apply V.
  - intros i j m' Hm'. destruct (B _ _ Hm') as (m & Hm & Hs & Hr). unfold closed_bank, opened_bank. rewrite Hs, Hr. by apply (vk_banks _ _ _ V i j).
Qed.

Lemma table_ok_same n n' t : same_shape n n' -> same_banks n n' -> table_ok id n t -> table_ok id n' t.
Proof.
  intros [_ Sh] B T key. rewrite T. unfold open_key. destruct key as [|v [|a [|b [|]]]]; try done. destruct (_ && _ && _); [|done].
  specialize (Sh [Z.to_nat a; Z.to_nat b]). destruct (nd_at n' [Z.to_nat a; Z.to_nat b]) as [m'|] eqn:Em'.
  - destruct (B _ _ Em') as (m & -> & Hs & Hr). simpl. unfold open_of. by rewrite Hs, Hr.
  - destruct (nd_at n _); [|done]. destruct Sh as [Sh _]. destruct Sh as [? ?]; [by eexists|done].
Qed.

(** A request enters or leaves service. *)
Lemma serve_request h clk n f r delta :
  channel_ok h clk n -> 0 <= clk -> serving_ok n f -> at_home r ->
  (delta = 1 /\ forall p, 0 <= f p) \/ (delta = -1 /\ forall p, through p r = true -> 0 < f p) ->
  exists n', update_serving_requests sp n (vec_list (req_vec r)) delta clk = Ret n' /\ channel_ok h clk n' /\
    serving_ok n' (fun p => f p + if through p r then delta else 0) /\ same_timing n n' /\ same_banks n n'.
Proof.
  intros C Hclk Sv Hr Hd. pose proof (rec_numbered _ _ _ _ (co_rec _ _ _ C)) as N. pose proof (co_vault _ _ _ C) as V.
  assert (Hlv : (level (root n) <= S (bank_level sp))%nat) by (rewrite (vk_level _ _ _ V); lia).
  assert (Hserve : forall p m, nd_at n p = Some m -> served sp n (vec_list (req_vec r)) p ->
    exists s, serve (stats m) delta clk = Ret s /\ cur_serving_requests s = f p + delta /\ begin_of_serving s <> -1).
  { intros p m Hm Hs. apply (served_through h clk) in Hs; [|done|done|by eexists]. destruct (Sv p m Hm) as [<- Hb].
    destruct Hd as [[-> Hf]|[-> Hf]]; [apply serve_up; [done| |done]; rewrite (proj1 (Sv p m Hm)); apply Hf|].
    specialize (Hf p Hs). apply serve_down; [by rewrite (proj1 (Sv p m Hm))|]. apply Hb. by rewrite (proj1 (Sv p m Hm)). }
  destruct (update_serving_total sp n (vec_list (req_vec r)) delta clk 3 N) as [n' E].
  { destruct Hr as [_ Hr]. by eapply vault_fits. } { simpl. lia. } { done. }
  { simpl. by rewrite (rec_nid _ _ _ _ (co_rec _ _ _ C)), (proj1 Hr). } { tauto. }
  { intros p m Hm Hs. destruct (Hserve p m Hm Hs) as (s & ? & _). eauto. }
  exists n'. split; [done|]. pose proof (update_serving_same sp n _ _ _ _ E) as Hs. pose proof (same_timing_shape n n' Hs) as Sh.
  assert (Hat : forall p m', nd_at n' p = Some m' -> exists m, nd_at n p = Some m /\ served_node sp n (vec_list (req_vec r)) delta clk p m m').
  { intros p m' Hm'. destruct (proj2 (proj2 Sh p)) as [m Hm]; [by eexists|]. exists m. split; [done|].
    destruct (update_serving_at sp n _ _ _ n' p m N Hlv E Hm) as (m2 & Hm2 & Hsv). congruence. }
  assert (B : same_banks n n') by (intros p m' Hm'; destruct (Hat p m' Hm') as (m & ? & ? & ? & _); eauto).
  split_and!; [|  |done|done].
  - destruct C as [C1 C2 C3 C4 C5]. split; [by eapply recorded_same|by eapply vault_ok_same|done|by eapply same_shape_trans|done].
  - intros p m' Hm'. destruct (Hat p m' Hm') as (m & Hm & _ & _ & Hyes & Hno).
    rewrite (served_through h clk n p r C Hr) in Hyes, Hno by (by eexists). destruct (through p r) eqn:Et.
    + destruct (Hserve p m Hm) as (s & Es & H1 & H2); [by apply (served_through h clk); [| |eexists|]|].
      rewrite Hyes in Es by done. injection Es as <-. done.
    + rewrite Hno by done. rewrite Z.add_0_r. by apply Sv.
Qed.

(** The addresses the controller uses. *)
Definition addressable (cmd : DramCommand) (bg bk : Z) : Prop := in_vault groups gbanks bg bk \/ cmd = PREA \/ cmd = REF.

Lemma addressable_fits h clk n cmd v bg bk row col :
  channel_ok h clk n -> addressable cmd bg bk -> fits n [v; bg; bk; row; col] (scope sp cmd).
Proof.
  intros C Ha. pose proof (co_vault _ _ _ C) as V. assert (Hroot : cmd = PREA \/ cmd = REF -> fits n [v; bg; bk; row; col] (scope sp cmd)).
  { intros Hc. right. left. rewrite (vk_level _ _ _ V). by destruct Hc as [-> | ->]. }
  destruct Ha as [HB|Hc]; [|by apply Hroot]. eapply vault_fits; [apply (rec_numbered _ _ _ _ (co_rec _ _ _ C))|done|done].
Qed.

Lemma shallow h clk n p m (v bg bk row col : Z) : channel_ok h clk n -> nd_at n p = Some m -> (length p < length [v; bg; bk; row; col])%nat.
Proof.
  intros C Hm. pose proof (proj1 (vk_shape _ _ _ (co_vault _ _ _ C) p) ltac:(by eexists)) as Hp.
  destruct p as [|? [|? [|? ?]]]; simpl in *; lia || done.
Qed.

(** What [update_timing] alone does to the channel. *)
Lemma time_channel h clk n cmd bg bk row col n' :
  channel_ok h clk n -> 0 <= clk -> check sp n cmd [id; bg; bk; row; col] clk = Ret true ->
  update_timing sp n cmd [id; bg; bk; row; col] clk = Ret n' ->
  channel_ok ((cmd, [id; bg; bk; row; col], clk) :: h) clk n' /\ (forall f, serving_ok n f -> serving_ok n' f) /\ same_banks n n'.
Proof.
  intros C Hclk Ec E. pose proof (rec_numbered _ _ _ _ (co_rec _ _ _ C)) as N. pose proof (update_timing_shape sp n _ _ _ _ N E) as Sh.
  pose proof (hmc_standard_ok (org_count (tc_org tc)) (speed_table (tc_speed tc))) as SO.
  assert (Hat : forall p m', nd_at n' p = Some m' -> exists m, nd_at n p = Some m /\ kept m m').
  { intros p m' Hm'. pose proof (update_timing_at sp n cmd _ clk n' p N E) as Hat. destruct (nd_at n p) as [m|]; [|congruence].
    destruct Hat as (m2 & Hm2 & Hmet). assert (m2 = m') as -> by congruence. exists m. split; [done|]. by eapply met_kept. }
  assert (B : same_banks n n') by (intros p m' Hm'; destruct (Hat p m' Hm') as (m & ? & ? & ? & _); eauto). split_and!; [| |done].
  - destruct C as [C1 C2 C3 C4 C5]. split; [by eapply update_timing_recorded|by eapply vault_ok_same|by constructor|by eapply same_shape_trans|].
    eapply (obeyed_cons sp n0 h n); [apply hmc_scope_root|exact C1|exact C4|exact C5|exact Hclk|by rewrite (rec_nid _ _ _ _ C1)|exact Ec].
  - intros f Sv p m' Hm'. destruct (Hat p m' Hm') as (m & Hm & _ & _ & -> & -> & _). by apply Sv.
Qed.

(** Issuing one command. *)
Definition issue_device (n : vault) (cmd : DramCommand) (addr : list Z) (clk : Z) : outcome vault :=
  if tc_no_DRAM_latency tc then update_timing sp n cmd addr clk else update sp n cmd addr clk.

Lemma issue_channel h clk n cmd bg bk row col :
  channel_ok h clk n -> 0 <= clk -> ordinary cmd -> addressable cmd bg bk ->
  (tc_no_DRAM_latency tc = false -> disciplined n cmd bg bk) -> check sp n cmd [id; bg; bk; row; col] clk = Ret true ->
  exists n', issue_device n cmd [id; bg; bk; row; col] clk = Ret n' /\
    channel_ok ((cmd, [id; bg; bk; row; col], clk) :: h) clk n' /\ (forall f, serving_ok n f -> serving_ok n' f) /\
    if tc_no_DRAM_latency tc then same_banks n n'
    else forall p m', nd_at n' p = Some m' ->
      exists m, nd_at n p = Some m /\ kept (effect cmd (Z.to_nat bg) (Z.to_nat bk) row p m) m'.
Proof.
  intros C Hclk Ho Ha Hd Ec. pose proof (hmc_standard_ok (org_count (tc_org tc)) (speed_table (tc_speed tc))) as SO.
  pose proof (rec_numbered _ _ _ _ (co_rec _ _ _ C)) as N. unfold issue_device. destruct (tc_no_DRAM_latency tc).
  - destruct (update_timing_ret sp SO id h n cmd [id; bg; bk; row; col] clk) as [n' E]; [apply C|done|intros p m; by eapply shallow|].
    exists n'. split; [done|]. by eapply time_channel.
  - destruct (update_total sp SO id h n cmd [id; bg; bk; row; col] clk) as [n' E];
      [apply C|done|by eapply addressable_fits|intros p m; by eapply shallow|].
    exists n'. split; [exact E|]. assert (Hat := fun p m' => issue_at _ _ _ _ n cmd id bg bk row col clk n' p m' N (co_vault _ _ _ C) Ho Ha E).
    split_and!.
    + destruct C as [C1 C2 C3 C4 C5]. split; [by eapply update_recorded| |by constructor|eapply same_shape_trans; [exact C4|by eapply update_shape]|].
      * eapply issue_vault_ok; [exact C1|exact C2|exact Ho|exact Ha|by apply Hd|exact E].
      * eapply (obeyed_cons sp n0 h n); [apply hmc_scope_root|exact C1|exact C4|exact C5|exact Hclk|by rewrite (rec_nid _ _ _ _ C1)|exact Ec].
    + intros f Sv p m' Hm'. destruct (Hat p m' Hm') as (m & Hm & (_ & _ & -> & -> & _) & _).
      assert (Hst : stats (effect cmd (Z.to_nat bg) (Z.to_nat bk) row p m) = stats m) by (unfold effect; destruct cmd; by case_decide).
      rewrite Hst. by apply Sv.
    + intros p m' Hm'. destruct (Hat p m' Hm') as (m & Hm & Hk & _). eauto.
Qed.
End Channel.

(** ** The invariant of the controller *)

Section Invariant.
Context (tc : tick_config) (id : Z).
Abbreviation sp := (tc_spec tc).
Abbreviation groups := (bank_groups (tc_org tc)).
Abbreviation gbanks := (banks_per_group (tc_org tc)).
Abbreviation history := (list (DramCommand * list Z * Z)).

(** The requests in service at the node [p]. *)
Definition svc (c : Controller) (p : list nat) : Z :=
  count_b (fun r => negb (is_first_command r) && through p r) (readq c) +
  count_b (fun r => negb (is_first_command r) && through p r) (writeq c) +
  count_b (fun r => (1 <? depart r - arrive r) && through p r) (pending c).

Lemma svc_nonneg c p : 0 <= svc c p.
Proof.
  unfold svc. pose proof (count_b_nonneg (fun r => negb (is_first_command r) && through p r) (readq c)).
  pose proof (count_b_nonneg (fun r => negb (is_first_command r) && through p r) (writeq c)).
  pose proof (count_b_nonneg (fun r => (1 <? depart r - arrive r) && through p r) (pending c)). lia.
Qed.

Definition is_refresh (r : Request) : Prop :=
  req_type r = REFRESH /\ req_vec r = mkAddrVec id (-1) (-1) (-1) (-1) /\ burst_count r = 0.

Record core (h : history) (st : VaultState) : Prop := {
  k_vault : vault_inv (ctl st);
  k_channel : channel_ok tc id h (c_clk (ctl st)) (channel st);
  k_clk : 0 <= c_clk (ctl st);
  k_reads : Forall (at_home tc id) (readq (ctl st));
  k_writes : Forall (at_home tc id) (writeq (ctl st));
  k_pending : Forall (at_home tc id) (pending (ctl st));
  k_others : Forall is_refresh (otherq (ctl st));
  k_arrive : Forall (fun r => arrive r <= c_clk (ctl st)) (readq (ctl st));
  k_serving : serving_ok (channel st) (svc (ctl st));
  k_table : table_ok id (channel st) (rowtable st)
}.

(** *** Time *)

Lemma channel_later h clk clk' n : clk <= clk' -> channel_ok tc id h clk n -> channel_ok tc id h clk' n.
Proof. intros Hle [C1 C2 C3 C4 C5]. split; try done. eapply Forall_impl; [exact C3|]. simpl. lia. Qed.

Lemma core_clock h st wm : core h st -> core h (set_ctl st (set_clk_mode (ctl st) (c_clk (ctl st) + 1) wm)).
Proof.
  intros []. split; simpl; try done; [by destruct k_vault0|by eapply channel_later; [|done]; lia|lia|].
  eapply Forall_impl; [done|]. simpl. lia.
Qed.

Lemma core_mode h st wm : core h st -> core h (set_ctl st (set_clk_mode (ctl st) (c_clk (ctl st)) wm)).
Proof. intros []. split; simpl; try done. by destruct k_vault0. Qed.

(** *** Step 1 *)

Lemma complete_clk vc c r c' : complete vc c r = Ret c' -> c_clk c' = c_clk c /\ write_mode c' = write_mode c.
Proof.
  unfold complete. assert (Hr : forall c', ('(p, c1) ← form_response_packet vc c r;
    Ret (set_buffers c1 (response_buffer c1 ++ [p]) (pim_remote c1) (next_response_packet c1))) = Ret c' ->
    c_clk c' = c_clk c /\ write_mode c' = write_mode c).
  { intros x E. apply bind_ret_inv in E as ([p c1] & E1 & E). injection E as <-. unfold form_response_packet in E1.
    destruct (incoming c !! reqid r); [|done]. outcome_steps. by simplify_eq. }
  intros E. destruct (is_pim_inst r); [|by apply Hr]. apply bind_ret_inv in E as ([] & _ & E).
  destruct (_ || _); [by injection E as <-|by apply Hr].
Qed.

Lemma serve_pending_effect vc c r rest :
  vault_inv c -> pending c = r :: rest -> depart r <= c_clk c ->
  exists c', serve_pending vc c = Ret c' /\ vault_inv c' /\ readq c' = readq c /\ writeq c' = writeq c /\ otherq c' = otherq c /\
    pending c' = rest /\ c_clk c' = c_clk c.
Proof.
  intros I Hp Hd. destruct (serve_pending_inv vc c I) as (c' & E & I'). exists c'. split; [done|]. split; [done|].
  unfold serve_pending in E. rewrite Hp, (proj2 (Z.leb_le _ _) Hd) in E.
  pose proof (vi_reads c I) as Hrd. rewrite Hp, Forall_app, Forall_cons in Hrd. destruct Hrd as (_ & Hr & _).
  rewrite Hr in E. simpl in E. rewrite andb_false_r in E. apply bind_ret_inv in E as (c1 & Ec & E). injection E as <-.
  destruct (vi_packets c I (reqid r)) as (q & Hq & Hwf).
  { rewrite live_ids_app, Hp, !elem_of_app. right. right. simpl. by constructor. }
  destruct (complete_completed vc c r q Hq Hwf) as (c2 & Ec2 & [(Er & Ew & Eo & Ep) _ _ _]). assert (c2 = c1) as -> by congruence.
  apply complete_clk in Ec as [Eclk _]. done.
Qed.

Lemma tick_serve_core h st :
  core h st -> exists st', tick_serve tc st = Ret st' /\ core h st' /\ otherq (ctl st') = otherq (ctl st) /\
    c_clk (ctl st') = c_clk (ctl st) /\ ref_clk st' = ref_clk st /\ refreshed st' = refreshed st /\ same_banks (channel st) (channel st').
Proof.
  intros K. assert (Hrefl : same_banks (channel st) (channel st)) by (intros p m Hm; eauto).
  unfold tick_serve. destruct (pending (ctl st)) as [|r rest] eqn:Hp; [by exists st|].
  destruct (depart r <=? c_clk (ctl st)) eqn:Ed; [|by exists st]. apply Z.leb_le in Ed.
  destruct (serve_pending_effect (tc_vault tc) (ctl st) r rest (k_vault _ _ K) Hp Ed) as (c' & Ec & I' & Er & Ew & Eo & Ep & Eclk).
  pose proof (k_pending _ _ K) as Hhome. rewrite Hp in Hhome. apply Forall_cons in Hhome as [Hr Hrest].
  assert (Hsvc : forall p, svc c' p = svc (ctl st) p - if (1 <? depart r - arrive r) && through p r then 1 else 0).
  { intros p. unfold svc. rewrite Er, Ew, Ep, Hp. cbn [count_b]. lia. }
  assert (Hcore : forall n, channel_ok tc id h (c_clk (ctl st)) n -> same_shape (channel st) n -> same_banks (channel st) n -> serving_ok n (svc c') ->
    core h (set_ctl (set_channel st n) c')).
  { intros n C Sh B Sv. destruct K. split; simpl; rewrite ?Er, ?Ew, ?Eo, ?Ep, ?Eclk; try done. by eapply table_ok_same. }
  destruct (1 <? depart r - arrive r) eqn:Es.
  - destruct (serve_request tc id h (c_clk (ctl st)) (channel st) (svc (ctl st)) r (-1)) as (n' & En & C' & Sv & St & B);
      [apply K|apply K|apply K|done| |].
    { right. split; [done|]. intros p Ht. pose proof (svc_nonneg c' p). rewrite Hsvc, Ht in H. simpl in H. lia. }
    rewrite En. cbn [mbind outcome_bind]. rewrite Ec. cbn [mbind outcome_bind]. eexists. split; [done|]. split; [|done].
    apply Hcore; [done|by apply same_timing_shape|done|]. intros p m Hm. rewrite Hsvc. cbn [andb].
    replace (svc (ctl st) p - _) with (svc (ctl st) p + if through p r then -1 else 0) by (destruct (through p r); lia). by apply Sv.
  - cbn [mbind outcome_bind]. rewrite Ec. cbn [mbind outcome_bind]. eexists. split; [done|]. split; [|done].
    apply Hcore; [apply K|split; [done|tauto]|done|]. intros p m Hm. rewrite Hsvc. cbn [andb]. rewrite Z.sub_0_r. by apply K.
Qed.

(** *** Questions are answered *)

Definition request_ok (r : Request) : Prop := (at_home tc id r /\ is_access (req_type r) = true) \/ is_refresh r.

Abbreviation bg_of r := (av_BankGroup (req_vec r)).
Abbreviation bk_of r := (av_Bank (req_vec r)).
Abbreviation row_of r := (av_Row (req_vec r)).

Lemma request_addr r : request_ok r -> vec_list (req_vec r) = [id; bg_of r; bk_of r; row_of r; av_Column (req_vec r)].
Proof. intros [[[Hv _] _]|(_ & Hv & _)]; unfold vec_list; [by rewrite Hv|by rewrite Hv]. Qed.

Lemma access_cmd t : is_access t = true -> translate t = RD \/ translate t = WR.
Proof. destruct t; try done; auto. Qed.

(** The first command of a request, and what the banks are like when it is issued. *)
Lemma first_cmd_ok h clk n r :
  channel_ok tc id h clk n -> request_ok r ->
  exists cmd, get_first_cmd tc n r = Ret cmd /\ ordinary cmd /\ addressable tc cmd (bg_of r) (bk_of r) /\
    (tc_no_DRAM_latency tc = false -> issuable n cmd (bg_of r) (bk_of r) (row_of r)) /\
    (is_refresh r -> cmd = if negb (tc_no_DRAM_latency tc) && some_bank_open n then PREA else REF) /\
    (is_access (req_type r) = true -> cmd <> PREA /\ cmd <> REF).
Proof.
  intros C Hr. pose proof (co_vault _ _ _ _ _ C) as V. pose proof (rec_numbered _ _ _ _ (co_rec _ _ _ _ _ C)) as N.
  unfold get_first_cmd. rewrite (request_addr r Hr). destruct Hr as [[[Hv HB] Ht]|Href].
  - assert (Hnot : ~ is_refresh r) by (intros (Hx & _); by rewrite Hx in Ht).
    destruct (tc_no_DRAM_latency tc).
    { destruct (access_cmd _ Ht) as [-> | ->]; eexists; (split; [done|]); split_and!; try done; by left. }
    destruct (proj2 (vk_shape _ _ _ V [Z.to_nat (bg_of r); Z.to_nat (bk_of r)])) as [m Hm]; [destruct HB; simpl; lia|].
    destruct (decode_access (org_count (tc_org tc)) (speed_table (tc_speed tc)) _ _ n (translate (req_type r)) id _ _ (row_of r)
      (av_Column (req_vec r)) m N V HB (access_cmd _ Ht) Hm) as [D1 D2].
    destruct (vk_banks _ _ _ V _ _ _ Hm) as [Hc|[q Hq]].
    + exists ACT. split; [by apply D1|]. split_and!; try done; [by left|]. intros _. by exists m.
    + specialize (D2 q Hq). case_decide as Heq.
      * subst q. exists (translate (req_type r)). split; [done|]. split_and!; try done; try (by left); destruct (access_cmd _ Ht) as [-> | ->]; try done;
          intros _; by exists m.
      * exists PRE. split; [done|]. split_and!; try done; [by left|]. intros _. by exists m, q.
  - pose proof Href as (Ht & Hvec & _). rewrite Ht, Hvec. cbn [translate is_access av_BankGroup av_Bank av_Row av_Column].
    destruct (tc_no_DRAM_latency tc).
    { exists REF. split; [done|]. split_and!; try done. by right; right. }
    exists (if some_bank_open n then PREA else REF). split; [eapply decode_refresh; exact V|].
    destruct (some_bank_open n) eqn:Eo; split_and!; try done; try (by right; left); by right; right.
Qed.

Lemma request_ready h clk n cmd r : channel_ok tc id h clk n -> request_ok r -> addressable tc cmd (bg_of r) (bk_of r) ->
  exists b, check sp n cmd (vec_list (req_vec r)) clk = Ret b.
Proof. intros C Hr Ha. rewrite (request_addr r Hr). eapply check_total. by eapply addressable_fits. Qed.

Lemma request_rows h clk n r :
  channel_ok tc id h clk n -> request_ok r ->
  exists hit opn, is_row_hit (view tc n clk) r = Ret hit /\ is_row_open (view tc n clk) r = Ret opn.
Proof.
  intros C Hr. pose proof (co_vault _ _ _ _ _ C) as V. pose proof (rec_numbered _ _ _ _ (co_rec _ _ _ _ _ C)) as N.
  simpl. rewrite (request_addr r Hr). destruct Hr as [[[Hv HB] Ht]|(Ht & Hvec & _)].
  - destruct (proj2 (vk_shape _ _ _ V [Z.to_nat (bg_of r); Z.to_nat (bk_of r)])) as [m Hm]; [destruct HB; simpl; lia|].
    destruct (row_hit_access (org_count (tc_org tc)) (speed_table (tc_speed tc)) _ _ n (translate (req_type r)) id _ _ (row_of r)
      (av_Column (req_vec r)) m N V HB (access_cmd _ Ht) Hm) as (hit & Eh & _).
    destruct (row_open_access (org_count (tc_org tc)) (speed_table (tc_speed tc)) _ _ n (translate (req_type r)) id _ _ (row_of r)
      (av_Column (req_vec r)) m N V HB (access_cmd _ Ht) Hm) as (opn & Eo & _). exists hit, opn. done.
  - rewrite Ht, Hvec. exists false, false. split; by eapply row_hit_refresh.
Qed.

Lemma request_view h clk n r :
  channel_ok tc id h clk n -> request_ok r ->
  exists rdy hit opn, is_ready (view tc n clk) r = Ret rdy /\ is_row_hit (view tc n clk) r = Ret hit /\ is_row_open (view tc n clk) r = Ret opn.
Proof.
  intros C Hr. destruct (first_cmd_ok h clk n r C Hr) as (cmd & E & _ & Ha & _).
  destruct (request_ready h clk n cmd r C Hr Ha) as [b Eb]. destruct (request_rows h clk n r C Hr) as (hit & opn & Eh & Eo).
  exists b, hit, opn. split; [|done]. simpl. by rewrite E.
Qed.

(** The scheduler finds a request in a queue that has one. *)
Lemma get_head_total h clk n q t :
  tc_sched tc <> FRFCFS_Cap -> channel_ok tc id h clk n -> Forall request_ok q -> q <> [] ->
  exists x, get_head (view tc n clk) (tc_sched tc) q t = Ret (Some x, t) /\ q !! x.1 = Some x.2.
Proof.
  intros Hs C Hq Hne. assert (Hv := fun r Hr => request_view h clk n r C (proj1 (Forall_forall _ _) Hq r Hr)).
  set (val := fun (f : Request -> outcome bool) r => match f r with Ret b => b | Stop _ => false end).
  destruct (get_head_chosen (view tc n clk) (val (is_ready (view tc n clk))) (val (is_row_hit (view tc n clk))) (val (is_row_open (view tc n clk))) q t)
    with (type := tc_sched tc) as (x & E & Hx & _); try done.
  1-3: intros r Hr; destruct (Hv r Hr) as (b1 & b2 & b3 & E1 & E2 & E3); unfold val; rewrite ?E1, ?E2, ?E3; done.
  by exists x.
Qed.

Lemma some_bank_open_same h clk h' clk' n n' :
  channel_ok tc id h clk n -> channel_ok tc id h' clk' n' -> same_banks n n' -> some_bank_open n' = some_bank_open n.
Proof.
  intros C C' B. pose proof (co_vault _ _ _ _ _ C) as V. pose proof (co_vault _ _ _ _ _ C') as V'. apply eq_bool_prop_intro.
  rewrite !Is_true_true, !(some_bank_open_iff groups gbanks) by done. split.
  - intros (i & j & m' & q & Hm' & Ho). destruct (B _ _ Hm') as (m & Hm & Hs & Hrs). exists i, j, m, q. unfold opened_bank in *. by rewrite <- Hs, <- Hrs.
  - intros (i & j & m & q & Hm & Ho). destruct (proj2 (vk_shape _ _ _ V' [i; j])) as [m' Hm']; [apply V; by eexists|].
    destruct (B _ _ Hm') as (m2 & Hm2 & Hs & Hrs). assert (m2 = m) as -> by congruence. exists i, j, m', q. unfold opened_bank in *. by rewrite Hs, Hrs.
Qed.

(** Service does not change the answers. *)
Lemma first_cmd_same h clk h' clk' n n' r :
  channel_ok tc id h clk n -> channel_ok tc id h' clk' n' -> same_banks n n' -> request_ok r -> get_first_cmd tc n' r = get_first_cmd tc n r.
Proof.
  intros C C' B Hr. pose proof (co_vault _ _ _ _ _ C) as V. pose proof (rec_numbered _ _ _ _ (co_rec _ _ _ _ _ C)) as N.
  pose proof (co_vault _ _ _ _ _ C') as V'. pose proof (rec_numbered _ _ _ _ (co_rec _ _ _ _ _ C')) as N'.
  unfold get_first_cmd. destruct (tc_no_DRAM_latency tc); [done|]. rewrite (request_addr r Hr). destruct Hr as [[[Hv HB] Ht]|(Ht & Hvec & _)].
  - destruct (proj2 (vk_shape _ _ _ V' [Z.to_nat (bg_of r); Z.to_nat (bk_of r)])) as [m' Hm']; [destruct HB; simpl; lia|].
    destruct (B _ _ Hm') as (m & Hm & Hs & Hrs). unfold tc_spec. rewrite !(decode_missing _ _ groups gbanks) by (done || by apply access_cmd).
    unfold missing. by rewrite Hm, Hm', Hs, Hrs.
  - rewrite Ht, Hvec. cbn [translate av_BankGroup av_Bank av_Row av_Column]. unfold tc_spec. rewrite !(decode_refresh _ _ groups gbanks) by done. by rewrite (some_bank_open_same _ _ _ _ _ _ C C' B).
Qed.

(** *** Updating a request in its queue *)

Lemma scheduled_get_queue c : scheduled_queue c = get_queue c (queue_type c).
Proof. unfold scheduled_queue, queue_type. destruct (otherq c) eqn:E; [|by simpl]. by destruct (write_mode c). Qed.

Lemma queue_requests h st : core h st -> Forall request_ok (get_queue (ctl st) (queue_type (ctl st))).
Proof.
  intros K. pose proof (vi_reads _ (k_vault _ _ K)) as Hr. apply Forall_app in Hr as [Hr _]. pose proof (vi_writes _ (k_vault _ _ K)) as Hw.
  apply Forall_forall. intros r Hin. unfold queue_type in Hin. destruct (otherq (ctl st)) as [|o l] eqn:Eo.
  - destruct (write_mode (ctl st)); simpl in Hin; left; split.
    + by apply (proj1 (Forall_forall _ _) (k_writes _ _ K)).
    + by rewrite (proj1 (Forall_forall _ _) Hw r Hin).
    + by apply (proj1 (Forall_forall _ _) (k_reads _ _ K)).
    + by rewrite (proj1 (Forall_forall _ _) Hr r Hin).
  - simpl in Hin. right. by apply (proj1 (Forall_forall _ _) (k_others _ _ K)).
Qed.

(** The fields the invariant looks at. *)
Record same_request (r r' : Request) : Prop := {
  sr_id : reqid r' = reqid r;
  sr_type : req_type r' = req_type r;
  sr_vec : req_vec r' = req_vec r;
  sr_arrive : arrive r' = arrive r;
  sr_burst : burst_count r' = burst_count r
}.

Lemma same_request_ok r r' : same_request r r' -> request_ok r -> request_ok r'.
Proof. intros [_ Ht Hv _ Hb]. unfold request_ok, at_home, is_refresh. by rewrite Ht, Hv, Hb. Qed.

Lemma through_vec p r r' : req_vec r' = req_vec r -> through p r' = through p r.
Proof. intros Hv. unfold through. by rewrite Hv. Qed.

Lemma svc_set_queue c k r r' p :
  get_queue c (queue_type c) !! k = Some r -> req_vec r' = req_vec r ->
  svc (set_queue c (queue_type c) (<[k := r']> (get_queue c (queue_type c)))) p =
  svc c p + match queue_type c with
    | READ | WRITE => (if negb (is_first_command r') && through p r then 1 else 0) - (if negb (is_first_command r) && through p r then 1 else 0)
    | _ => 0 end.
Proof.
  intros Hk Hv. unfold svc, queue_type in *. destruct (otherq c) as [|o l]; [|simpl; lia].
  destruct (write_mode c); simpl in *; rewrite (count_b_insert _ _ k r) by done; rewrite (through_vec p r r' Hv); lia.
Qed.

Lemma vault_inv_set_queue c k r r' :
  vault_inv c -> get_queue c (queue_type c) !! k = Some r -> same_request r r' ->
  vault_inv (set_queue c (queue_type c) (<[k := r']> (get_queue c (queue_type c)))).
Proof.
  intros I Hk [Hid Hty _ _ _]. pose proof (vi_reads c I) as Hrd. rewrite Forall_app in Hrd. destruct Hrd as [Hrd Hpd].
  pose proof (vi_writes c I) as Hwr. unfold queue_type in *. destruct (otherq c) as [|o l]; [|by destruct I].
  destruct (write_mode c); simpl in *; (apply (inv_same c); simpl; try done;
    [rewrite !live_ids_app; simpl; by rewrite (reqid_update _ _ r)|..|rewrite length_insert; by apply I]).
  - apply Forall_app_2; done.
  - apply Forall_insert; [done|]. rewrite Hty. exact (proj1 (Forall_lookup _ _) Hwr _ _ Hk).
  - apply Forall_app_2; [|done]. apply Forall_insert; [done|]. rewrite Hty. exact (proj1 (Forall_lookup _ _) Hrd _ _ Hk).
Qed.

Lemma queue_type_set c k r' q : q = get_queue c (queue_type c) -> queue_type (set_queue c (queue_type c) (<[k := r']> q)) = queue_type c.
Proof.
  intros ->. unfold queue_type. destruct (otherq c) as [|o l] eqn:Eo; [destruct (write_mode c) eqn:Ew; simpl; by rewrite ?Eo, ?Ew|].
  simpl. by destruct k; rewrite ?Eo.
Qed.

(** Everything but service follows from the queue update. *)
Lemma core_set_queue h st n k r r' :
  core h st -> get_queue (ctl st) (queue_type (ctl st)) !! k = Some r -> same_request r r' ->
  channel_ok tc id h (c_clk (ctl st)) n -> same_shape (channel st) n -> same_banks (channel st) n ->
  let c' := set_queue (ctl st) (queue_type (ctl st)) (<[k := r']> (get_queue (ctl st) (queue_type (ctl st)))) in
  serving_ok n (svc c') -> core h (set_channel (set_ctl st c') n).
Proof.
  intros K Hk Hs C Sh B c' Sv. pose proof (vault_inv_set_queue _ _ _ _ (k_vault _ _ K) Hk Hs) as I'. fold c' in I'.
  assert (Hok : request_ok r') by (eapply same_request_ok; [done|]; exact (proj1 (Forall_lookup _ _) (queue_requests h st K) _ _ Hk)).
  pose proof (table_ok_same id _ _ _ Sh B (k_table _ _ K)) as T. destruct Hs as [_ Hty Hv Ha Hb].
  destruct K as [K1 K2 K3 K4 K5 K6 K7 K8 K9 K10].
  assert (Hupd : forall (P : Request -> Prop) l, P r' -> Forall P l -> Forall P (<[k := r']> l)) by (intros; by apply Forall_insert).
  unfold c' in *. unfold queue_type in *. destruct (otherq (ctl st)) as [|o l] eqn:Eo.
  - destruct (write_mode (ctl st)); simpl in Hk; split; simpl; try done; rewrite ?Eo; try done; apply Hupd; try done;
      unfold at_home; rewrite ?Hv, ?Ha.
    + exact (proj1 (Forall_lookup _ _) K5 _ _ Hk).
    + exact (proj1 (Forall_lookup _ _) K4 _ _ Hk).
    + exact (proj1 (Forall_lookup _ _) K8 _ _ Hk).
  - simpl in Hk. split; simpl; try done. apply Hupd; [|by rewrite Eo]. unfold is_refresh. rewrite Hty, Hv, Hb.
    rewrite Eo in Hk. exact (proj1 (Forall_lookup _ _) K7 _ _ Hk).
Qed.

Lemma queue_request_type h st k r :
  core h st -> get_queue (ctl st) (queue_type (ctl st)) !! k = Some r -> req_type r = queue_type (ctl st).
Proof.
  intros K Hk. pose proof (vi_reads _ (k_vault _ _ K)) as Hr. apply Forall_app in Hr as [Hr _]. pose proof (vi_writes _ (k_vault _ _ K)) as Hw.
  pose proof (k_others _ _ K) as Ho. unfold queue_type in *. destruct (otherq (ctl st)) as [|o l] eqn:Eo.
  - destruct (write_mode (ctl st)); simpl in Hk; [exact (proj1 (Forall_lookup _ _) Hw _ _ Hk)|exact (proj1 (Forall_lookup _ _) Hr _ _ Hk)].
  - simpl in Hk. rewrite Eo in Hk. by destruct (proj1 (Forall_lookup _ _) Ho _ _ Hk).
Qed.

Lemma queue_type_access c : is_access (queue_type c) = true -> otherq c = [].
Proof. unfold queue_type. by destruct (otherq c). Qed.

Lemma same_banks_refl n : same_banks n n.
Proof. intros p m Hm. eauto. Qed.

Lemma core_count h st hit opn : core h st -> core h (count_row st hit opn).
Proof. intros []. by split. Qed.

(** What the steps of a tick leave alone. *)
Record same_time (st st' : VaultState) : Prop := {
  sm_clk : c_clk (ctl st') = c_clk (ctl st);
  sm_ref : ref_clk st' = ref_clk st;
  sm_refreshed : refreshed st' = refreshed st
}.

(** *** The first command of a request *)

Lemma first_command_core h st k r :
  core h st -> get_queue (ctl st) (queue_type (ctl st)) !! k = Some r ->
  exists st1 r1, first_command tc st k r = Ret (st1, r1) /\ core h st1 /\ same_request r r1 /\ is_first_command r1 = false /\
    queue_type (ctl st1) = queue_type (ctl st) /\ get_queue (ctl st1) (queue_type (ctl st1)) !! k = Some r1 /\ same_time st st1 /\
    length (otherq (ctl st1)) = length (otherq (ctl st)) /\ same_timing (channel st) (channel st1) /\ same_banks (channel st) (channel st1).
Proof.
  intros K Hk. unfold first_command. destruct (is_first_command r) eqn:Ef.
  2:{ exists st, r. split_and!; try done. - apply same_timing_refl. - apply same_banks_refl. }
  set (r1 := set_first_command false r). assert (Hs : same_request r r1) by done.
  pose proof (queue_request_type h st k r K Hk) as Hty.
  set (c1 := set_queue (ctl st) (queue_type (ctl st)) (<[k := r1]> (get_queue (ctl st) (queue_type (ctl st))))).
  assert (Hq1 : queue_type c1 = queue_type (ctl st)) by (by apply queue_type_set).
  assert (Hk1 : get_queue c1 (queue_type c1) !! k = Some r1).
  { rewrite Hq1. unfold c1. apply lookup_lt_Some in Hk. by destruct (queue_type (ctl st)); simpl in *; rewrite list_lookup_insert_eq. }
  assert (Hlen : length (otherq c1) = length (otherq (ctl st))) by (unfold c1; by destruct (queue_type (ctl st)); simpl; rewrite ?length_insert).
  assert (Hclk : c_clk c1 = c_clk (ctl st)) by (unfold c1; by destruct (queue_type (ctl st))).
  assert (Hsvc : forall p, svc c1 p = svc (ctl st) p + if is_access (req_type r) then (if through p r then 1 else 0) else 0).
  { intros p. unfold c1. rewrite (svc_set_queue _ k r r1 p Hk) by done. rewrite Hty, Ef. simpl. destruct (queue_type (ctl st)); simpl; lia. }
  change (req_type r1) with (req_type r). destruct (is_access (req_type r)) eqn:Ea.
  - assert (Hhome : at_home tc id r).
    { destruct (proj1 (Forall_lookup _ _) (queue_requests h st K) _ _ Hk) as [[? _]|(Hx & _)]; [done|]. by rewrite Hx in Ea. }
    destruct (serve_request tc id h (c_clk (ctl st)) (channel st) (svc (ctl st)) r 1) as (n' & En & C' & Sv & St & B);
      [apply K|apply K|apply K|done|left; split; [done|intros; apply svc_nonneg]|].
    cbn [channel set_ctl]. change (req_vec r1) with (req_vec r). rewrite En. cbn [mbind outcome_bind].
    assert (Hok1 : request_ok r1) by (left; split; [exact Hhome|exact Ea]).
    destruct (request_rows h (c_clk (ctl st)) n' r1 C' Hok1) as (hit & opn & -> & Eo). cbn [mbind outcome_bind].
    assert (Eopn : exists o, (if hit then Ret true else is_row_open (view tc n' (c_clk (ctl st))) r1) = Ret o) by (destruct hit; eauto).
    destruct Eopn as [o ->]. cbn [mbind outcome_bind]. eexists _, r1. split; [done|]. split_and!; try done.
    apply core_count. eapply (core_set_queue h st n' k r r1); [done|done|done|done|by apply same_timing_shape|done|].
    fold c1. intros p m Hm. rewrite Hsvc. by apply Sv.
  - exists (set_ctl st c1), r1. split; [done|]. split_and!; try done; [|apply same_timing_refl|apply same_banks_refl].
    change (set_ctl st c1) with (set_channel (set_ctl st c1) (channel st)).
    eapply (core_set_queue h st (channel st) k r r1); [done|done|done|apply K|split; [done|tauto]|apply same_banks_refl|].
    fold c1. intros p m Hm. rewrite Hsvc, Z.add_0_r. by apply K.
Qed.

(** *** Issuing *)

Lemma issue_cmd_core h st cmd bg bk row col :
  core h st -> ordinary cmd -> addressable tc cmd bg bk ->
  (tc_no_DRAM_latency tc = false -> issuable (channel st) cmd bg bk row) ->
  check sp (channel st) cmd [id; bg; bk; row; col] (c_clk (ctl st)) = Ret true ->
  exists st', issue_cmd tc st cmd [id; bg; bk; row; col] = Ret st' /\
    core ((cmd, [id; bg; bk; row; col], c_clk (ctl st)) :: h) st' /\ ctl st' = ctl st /\ same_time st st' /\
    (cmd = PREA -> tc_no_DRAM_latency tc = false -> some_bank_open (channel st') = false).
Proof.
  intros K Ho Ha Hi Ec. destruct (issue_channel tc id h (c_clk (ctl st)) (channel st) cmd bg bk row col) as (n' & En & C' & Sv & B);
    [apply K|apply K|done|done| |done|].
  { intros Hn Hc. specialize (Hi Hn). by rewrite Hc in Hi. }
  unfold issue_cmd. rewrite Ec. cbn [assert_ mbind outcome_bind]. unfold issue_device in En. destruct (tc_no_DRAM_latency tc) eqn:End.
  - rewrite En. cbn [mbind outcome_bind]. eexists. split; [done|]. split; [|done]. pose proof (k_channel _ _ K) as C.
    assert (Sh : same_shape (channel st) n').
    { destruct (co_shape _ _ _ _ _ C) as [[F1 F2] S1], (co_shape _ _ _ _ _ C') as [[G1 G2] S2]. split; [split; congruence|]. intros p. by rewrite <- S1, S2. }
    destruct K. split; simpl; try done; [by apply Sv|by eapply table_ok_same].
  - rewrite En. cbn [mbind outcome_bind].
    destruct (table_step groups gbanks id (channel st) n' cmd bg bk row col (co_vault _ _ _ _ _ (k_channel _ _ K)) (co_vault _ _ _ _ _ C') B
      (rowtable st) (k_table _ _ K) Ha (Hi eq_refl) (c_clk (ctl st))) as (t' & Et & T'). rewrite Et. cbn [mbind outcome_bind].
    eexists. split; [done|]. split_and!; [|done|done|].
    + destruct K. split; simpl; try done. by apply Sv.
    + intros -> _. cbn [channel set_rowtable set_channel]. apply not_true_iff_false. rewrite (some_bank_open_iff groups gbanks) by apply C'.
      intros (i & j & m' & q & Hm' & Hq). destruct (B _ _ Hm') as (m & _ & (Hs & _)). destruct Hq as [Hq _]. unfold effect in Hs.
      rewrite decide_True in Hs by done. simpl in Hs. congruence.
Qed.

(** *** The last command of a request *)

Lemma read_latency_long : 1 < read_latency (speed_table (tc_speed tc)).
Proof. by destruct (tc_speed tc). Qed.

Lemma finish_read h st k r :
  core h st -> readq (ctl st) !! k = Some r -> is_first_command r = false ->
  exists c', retire (tc_vault tc) (ctl st) READ k = Ret c' /\ core h (set_ctl st c') /\ c_clk c' = c_clk (ctl st) /\ otherq c' = otherq (ctl st).
Proof.
  intros K Hk Hf. destruct (retire_inv (tc_vault tc) (ctl st) READ k (k_vault _ _ K)) as (c' & E & I'); [by left|by eexists|].
  exists c'. split; [done|]. unfold retire in E. simpl in E. rewrite Hk in E. pose proof read_latency_long as Hlat.
  destruct K as [K1 K2 K3 K4 K5 K6 K7 K8 K9 K10]. pose proof (proj1 (Forall_lookup _ _) K8 _ _ Hk) as Harr.
  pose proof (proj1 (Forall_lookup _ _) K4 _ _ Hk) as Hhome. simpl in Harr.
  assert (Hcore : forall c2, c' = c2 -> readq c2 = delete k (readq (ctl st)) \/ (exists b, readq c2 = <[k := set_burst_count b r]> (readq (ctl st))) ->
    writeq c2 = writeq (ctl st) -> otherq c2 = otherq (ctl st) -> Forall (at_home tc id) (pending c2) -> c_clk c2 = c_clk (ctl st) ->
    (forall p, svc c2 p = svc (ctl st) p) -> core h (set_ctl st c') /\ c_clk c' = c_clk (ctl st) /\ otherq c' = otherq (ctl st)).
  { intros c2 <- Hr Hw Ho Hp Hc Hs. split; [|done]. split; simpl; rewrite ?Hw, ?Ho, ?Hc; try done.
    - destruct Hr as [->|[b ->]]; [by apply Forall_delete|by apply Forall_insert].
    - destruct Hr as [->|[b ->]]; [by apply Forall_delete|by apply Forall_insert].
    - intros p m Hm. rewrite Hs. by apply K9. }
  destruct (burst_count r - 1 =? 0); injection E as E; (eapply Hcore; [symmetry; exact E|simpl; eauto|done|done| |done|]); simpl.
  - apply Forall_app_2; [done|]. by constructor.
  - intros p. unfold svc. simpl. rewrite (count_b_delete _ _ k r Hk), count_b_app. cbn [count_b]. rewrite Hf. simpl.
    change (through p (set_depart _ _)) with (through p r). rewrite (proj2 (Z.ltb_lt 1 _)) by lia. simpl. lia.
  - done.
  - intros p. unfold svc. simpl. rewrite (count_b_insert _ _ k r _ Hk). simpl. rewrite Hf.
    change (through p (set_burst_count _ r)) with (through p r). lia.
Qed.

Lemma finish_write h st k r :
  core h st -> writeq (ctl st) !! k = Some r -> is_first_command r = false -> req_type r = WRITE -> queue_type (ctl st) = WRITE ->
  exists st', finish_request tc st k r = Ret st' /\ core h st' /\ same_time st st' /\ otherq (ctl st') = otherq (ctl st) /\
    same_banks (channel st) (channel st').
Proof.
  intros K Hk Hf Hty Hq. destruct (retire_inv (tc_vault tc) (ctl st) WRITE k (k_vault _ _ K)) as (c' & E & I'); [by right|by eexists|].
  unfold finish_request. rewrite Hty, Hq, E. rewrite bool_decide_true by done. cbn [andb]. unfold retire in E. simpl in E. rewrite Hk in E.
  pose proof (proj1 (Forall_lookup _ _) (k_writes _ _ K) _ _ Hk) as Hhome.
  destruct (burst_count r - 1 =? 0) eqn:Eb.
  - apply bind_ret_inv in E as (c1 & Ec & E). injection E as <-. rewrite complete_write_complete in Ec.
    destruct (vi_packets _ (k_vault _ _ K) (reqid r)) as (q & Hq' & Hwf).
    { rewrite live_ids_app, !elem_of_app. right. left. apply list_elem_of_fmap. exists r. split; [done|]. by eapply list_elem_of_lookup_2. }
    destruct (complete_completed (tc_vault tc) (ctl st) (set_depart (c_clk (ctl st)) (set_burst_count (burst_count r - 1) r)) q Hq' Hwf)
      as (c2 & Ec2 & [(Er & Ew & Eo & Ep) _ _ _]). assert (c2 = c1) as -> by congruence. apply complete_clk in Ec as [Eclk _].
    assert (Hsvc : forall p, svc (set_queues c1 (readq c1) (delete k (writeq (ctl st))) (otherq c1) (pending c1)) p =
      svc (ctl st) p + if through p r then -1 else 0).
    { intros p. unfold svc. simpl. rewrite Er, Ep, (count_b_delete _ _ k r Hk), Hf. simpl. destruct (through p r); lia. }
    destruct (serve_request tc id h (c_clk (ctl st)) (channel st) (svc (ctl st)) r (-1)) as (n' & En & C' & Sv & St & B);
      [apply K|apply K|apply K|done| |].
    { right. split; [done|]. intros p Ht. pose proof (svc_nonneg (set_queues c1 (readq c1) (delete k (writeq (ctl st))) (otherq c1) (pending c1)) p) as Hn.
      rewrite Hsvc, Ht in Hn. lia. }
    rewrite En. cbn [mbind outcome_bind]. eexists. split; [done|].
    pose proof (table_ok_same id _ _ _ (same_timing_shape _ _ St) B (k_table _ _ K)) as T.
    split_and!; [|by split; simpl|by simpl; rewrite Eo|done]. rewrite Er, Eo, Ep in I', Hsvc. destruct K.
    split; simpl; rewrite ?Er, ?Eo, ?Ep, ?Eclk; try done; [by apply Forall_delete|]. intros p m Hm. rewrite Hsvc. by apply Sv.
  - injection E as <-. cbn [mbind outcome_bind]. eexists. split; [done|]. split_and!; [|done|done|apply same_banks_refl]. destruct K.
    split; simpl; try done; [by apply Forall_insert|]. intros p m Hm.
    assert (Hs : svc (set_queues (ctl st) (readq (ctl st)) (<[k := set_burst_count (burst_count r - 1) r]> (writeq (ctl st))) (otherq (ctl st)) (pending (ctl st))) p = svc (ctl st) p).
    { unfold svc. simpl. rewrite (count_b_insert _ _ k r _ Hk). simpl. change (through p (set_burst_count _ r)) with (through p r). lia. }
    rewrite Hs. by apply k_serving0.
Qed.

Lemma finish_core h st k r :
  core h st -> get_queue (ctl st) (queue_type (ctl st)) !! k = Some r -> is_first_command r = false ->
  exists st', finish_request tc st k r = Ret st' /\ core h st' /\ same_time st st' /\ same_banks (channel st) (channel st') /\
    otherq (ctl st') = if decide (queue_type (ctl st) = REFRESH) then delete k (otherq (ctl st)) else otherq (ctl st).
Proof.
  intros K Hk Hf. pose proof (queue_request_type h st k r K Hk) as Hty.
  assert (Hq : queue_type (ctl st) = READ \/ queue_type (ctl st) = WRITE \/ queue_type (ctl st) = REFRESH).
  { unfold queue_type. destruct (otherq (ctl st)); [|auto]. destruct (write_mode (ctl st)); auto. }
  destruct Hq as [Hq|[Hq|Hq]]; rewrite Hq in Hk, Hty; simpl in Hk.
  - destruct (finish_read h st k r K Hk Hf) as (c' & E & K' & Hclk & Ho). unfold finish_request. rewrite Hty, Hq.
    rewrite bool_decide_false by done. cbn [andb mbind outcome_bind]. rewrite E. cbn [mbind outcome_bind].
    eexists. split; [done|]. split; [exact K'|]. split; [by split|]. split; [apply same_banks_refl|].
    first [exact Ho|case_decide; [congruence|exact Ho]].
  - destruct (finish_write h st k r K Hk Hf Hty Hq) as (st' & E & K' & Hs & Ho & B). exists st'. split_and!; try done. first [exact Ho|case_decide; [congruence|exact Ho]].
  - pose proof (proj1 (Forall_lookup _ _) (k_others _ _ K) _ _ Hk) as (_ & _ & Hb). unfold finish_request. rewrite Hty, Hq.
    rewrite bool_decide_false by done. cbn [andb mbind outcome_bind]. unfold retire. simpl. rewrite Hk, Hb. cbn [Z.eqb mbind outcome_bind].
    eexists. split; [done|]. split; [|split; [done|split; [apply same_banks_refl|first [done|case_decide; [done|congruence]]]]]. destruct K. split; simpl; try done; [by destruct k_vault0|].
    by apply Forall_delete.
Qed.

(** *** One command on behalf of a request *)

Lemma same_time_trans st1 st2 st3 : same_time st1 st2 -> same_time st2 st3 -> same_time st1 st3.
Proof. intros [] []. split; congruence. Qed.

Lemma tick_issue_core h st k r cmd :
  core h st -> get_queue (ctl st) (queue_type (ctl st)) !! k = Some r -> get_first_cmd tc (channel st) r = Ret cmd ->
  check sp (channel st) cmd (vec_list (req_vec r)) (c_clk (ctl st)) = Ret true ->
  exists st', tick_issue tc st k r = Ret st' /\ core ((cmd, vec_list (req_vec r), c_clk (ctl st)) :: h) st' /\ same_time st st' /\
    (otherq (ctl st) = [] -> otherq (ctl st') = []) /\
    (forall o, otherq (ctl st) = [o] -> (cmd = REF /\ otherq (ctl st') = []) \/
       (cmd = PREA /\ tc_no_DRAM_latency tc = false /\ some_bank_open (channel st) = true /\
        length (otherq (ctl st')) = 1%nat /\ some_bank_open (channel st') = false)).
Proof.
  intros K Hk Ecmd Ec. pose proof (proj1 (Forall_lookup _ _) (queue_requests h st K) _ _ Hk) as Hok.
  destruct (first_command_core h st k r K Hk) as (st1 & r1 & E1 & K1 & Hs1 & Hf1 & Hq1 & Hk1 & Ht1 & Hl1 & St1 & B1).
  unfold tick_issue. rewrite E1. cbn [mbind outcome_bind]. pose proof (same_request_ok r r1 Hs1 Hok) as Hok1.
  assert (Hvec : req_vec r1 = req_vec r) by apply Hs1. assert (Hty : req_type r1 = req_type r) by apply Hs1.
  assert (Ecmd1 : get_first_cmd tc (channel st1) r1 = Ret cmd).
  { rewrite (first_cmd_same _ _ _ _ _ _ r1 (k_channel _ _ K) (k_channel _ _ K1) B1 Hok1). unfold get_first_cmd. by rewrite Hvec, Hty. }
  rewrite Ecmd1. cbn [mbind outcome_bind]. rewrite Hvec. pose proof (request_addr r Hok) as Haddr. rewrite Haddr in Ec |- *.
  destruct (first_cmd_ok h (c_clk (ctl st1)) (channel st1) r1 (k_channel _ _ K1) Hok1) as (cmd' & E' & Ho & Ha & Hi & Href & Hacc).
  assert (cmd' = cmd) as -> by congruence. rewrite Hvec in Ha, Hi.
  destruct (issue_cmd_core h st1 cmd (bg_of r) (bk_of r) (row_of r) (av_Column (req_vec r)) K1 Ho Ha Hi) as (st2 & E2 & K2 & Hctl & Ht2 & Hprea).
  { rewrite (check_same sp _ _ _ _ _ St1). by rewrite (sm_clk _ _ Ht1). }
  rewrite E2. cbn [mbind outcome_bind]. rewrite (sm_clk _ _ Ht1) in K2. rewrite Hty.
  assert (Hnil : otherq (ctl st) = [] -> otherq (ctl st1) = []) by (intros Hx; rewrite Hx in Hl1; by destruct (otherq (ctl st1))).
  assert (Hother : forall o, otherq (ctl st) = [o] -> queue_type (ctl st1) = REFRESH /\ is_refresh r1 /\ k = 0%nat).
  { intros o Ho'. assert (Hq : queue_type (ctl st) = REFRESH) by (unfold queue_type; by rewrite Ho'). split; [congruence|].
    rewrite Hq in Hk. simpl in Hk. rewrite Ho' in Hk. split.
    - destruct Hok1 as [[_ Hx]|]; [|done]. rewrite Hty, (queue_request_type h st k r K) in Hx; [by rewrite Hq in Hx|]. rewrite Hq. simpl. by rewrite Ho'.
    - destruct k as [|k]; [done|]. by destruct k. }
  destruct (decide (cmd = translate (req_type r))) as [Hfin|Hfin].
  - destruct (finish_core ((cmd, [id; bg_of r; bk_of r; row_of r; av_Column (req_vec r)], c_clk (ctl st)) :: h) st2 k r1) as (st3 & E3 & K3 & Ht3 & B3 & Ho3); [done|by rewrite Hctl|done|].
    unfold finish_request in E3 |- *. rewrite Hvec, ?Hty in E3. rewrite ?Hvec, ?Hty.
    exists st3. split; [exact E3|]. split; [done|]. split; [exact (same_time_trans _ _ _ Ht1 (same_time_trans _ _ _ Ht2 Ht3))|]. rewrite Hctl in Ho3. split.
    + intros Hx. rewrite Ho3, (Hnil Hx). by case_decide.
    + intros o Hx. destruct (Hother o Hx) as (Hqr & Hr1 & ->). left. split; [destruct Hr1 as [Hr1 _]; rewrite Hfin, <- Hty, Hr1; done|].
      rewrite Ho3, decide_True by done. rewrite Hx in Hl1. destruct (otherq (ctl st1)) as [|? [|]]; done.
  - exists st2. split; [done|]. split; [done|]. split; [by eapply same_time_trans|]. rewrite Hctl. split; [done|].
    intros o Hx. destruct (Hother o Hx) as (Hqr & Hr1 & ->). right. specialize (Href Hr1). destruct Hr1 as [Hr1 _]. rewrite <- Hty, Hr1 in Hfin.
    rewrite (some_bank_open_same _ _ _ _ _ _ (k_channel _ _ K) (k_channel _ _ K1) B1) in Href.
    destruct (tc_no_DRAM_latency tc); simpl in Href; [done|]. destruct (some_bank_open (channel st)); [|done].
    split_and!; try done; [by rewrite Hl1, Hx|]. by apply Hprea.
Qed.

(** *** Refresh *)

(** The pending refresh: no command since it was injected, or only the precharge
    of all banks; [slack] is 1 before the scheduling step of a tick. *)
Definition refresh_phase (slack : Z) (h : history) (st : VaultState) : Prop :=
  otherq (ctl st) = [] \/
  (length (otherq (ctl st)) = 1%nat /\
   ((Forall (fun e => e.2 <= refreshed st) h /\ c_clk (ctl st) < refreshed st + 200 + slack) \/
    (Forall (fun e => e.2 <= refreshed st + 200) h /\ c_clk (ctl st) < refreshed st + 400 + slack /\
     (tc_no_DRAM_latency tc = false -> some_bank_open (channel st) = false)))).

Record ref_inv (slack : Z) (h : history) (st : VaultState) : Prop := {
  ri_clk : ref_clk st = c_clk (ctl st);
  ri_since : c_clk (ctl st) - refreshed st < nREFI (speed_table (tc_speed tc));
  ri_phase : refresh_phase slack h st
}.

Lemma nREFI_value : nREFI (speed_table (tc_speed tc)) = 9750.
Proof. by destruct (tc_speed tc). Qed.

Lemma tick_ref_core h st :
  core h st -> ref_clk st + 1 = c_clk (ctl st) -> c_clk (ctl st) - 1 - refreshed st < nREFI (speed_table (tc_speed tc)) ->
  refresh_phase 1 h st ->
  exists st', tick_ref tc st = Ret st' /\ core h st' /\ ref_inv 1 h st' /\ c_clk (ctl st') = c_clk (ctl st).
Proof.
  intros K Hclk Hs Hp. unfold tick_ref. rewrite nREFI_value in *. rewrite Hclk. destruct (9750 <=? c_clk (ctl st) - refreshed st) eqn:E; zb.
  - assert (Ho : otherq (ctl st) = []) by (destruct Hp as [|(_ & [(_ & ?)|(_ & ? & _)])]; [done|lia|lia]).
    unfold enqueue. simpl. rewrite Ho. unfold queue_full. simpl. eexists. split; [done|].
    rewrite (rec_nid _ _ _ _ (co_rec _ _ _ _ _ (k_channel _ _ K))). pose proof (co_late _ _ _ _ _ (k_channel _ _ K)) as Hlate. split; [|split; [|done]].
    + destruct K. split; simpl; try done; [by destruct k_vault0|]. constructor; [|constructor]. split; [done|]. split; done.
    + split; simpl; [done|rewrite nREFI_value; lia|]. right. split; [done|]. left. split; [done|simpl; lia].
  - eexists. split; [done|]. split; [|split; [|done]].
    + destruct K. by split.
    + split; simpl; [done|rewrite nREFI_value; lia|exact Hp].
Qed.

(** A refresh that has waited long enough is ready. *)
Lemma refresh_ready h st r cmd last :
  core h st -> is_refresh r -> get_first_cmd tc (channel st) r = Ret cmd -> addressable tc cmd (bg_of r) (bk_of r) ->
  Forall (fun e => e.2 <= last) h -> last + 200 <= c_clk (ctl st) ->
  check sp (channel st) cmd (vec_list (req_vec r)) (c_clk (ctl st)) = Ret true.
Proof.
  intros K Hr E Ha Hl Hle. pose proof (k_channel _ _ K) as C. rewrite (request_addr r) by (by right).
  assert (Hl0 : (level (root (channel st)) <= scope sp cmd)%nat) by (rewrite (vk_level _ _ _ (co_vault _ _ _ _ _ C)); apply hmc_scope_root).
  assert (Hdelay : forall l c t, t ∈ timing sp l c -> te_val t <= 200) by (intros l c t; apply hmc_delay).
  exact (check_late sp id h (channel st) cmd [id; bg_of r; bk_of r; row_of r; av_Column (req_vec r)] _ last 200 (co_rec _ _ _ _ _ C) (k_clk _ _ K) Hl0 eq_refl
    (addressable_fits _ _ _ _ _ _ _ _ _ _ _ C Ha) Hdelay Hl Hle).
Qed.

(** *** Step 4 *)

Lemma tick_schedule_core h st :
  tc_sched tc <> FRFCFS_Cap -> tc_policy tc = PolicyOpened -> core h st -> ref_inv 1 h st ->
  exists st' h', tick_schedule tc st = Ret st' /\ core h' st' /\ ref_inv 0 h' st' /\ same_time st st' /\ (h' = h \/ exists e, h' = e :: h).
Proof.
  intros Hsch Hpol K R. pose proof (k_channel _ _ K) as C. unfold tick_schedule. rewrite scheduled_get_queue.
  assert (Hspec : tick_speculate tc (set_rowtable st (rowtable st)) = Ret st).
  { unfold tick_speculate. rewrite Hpol. destruct st. by destruct (tc_no_DRAM_latency tc). }
  assert (Hst : set_rowtable st (rowtable st) = st) by (by destruct st). rewrite Hst in *.
  destruct (get_queue (ctl st) (queue_type (ctl st))) as [|q0 ql] eqn:Eq.
  { change (get_head _ _ [] _) with (@Ret (option (nat * Request) * row_table) (None, rowtable st)). cbn [mbind outcome_bind]. rewrite Hst, Hspec.
    exists st, h. split; [done|]. split; [done|]. split; [|split; [done|by left]]. destruct R as [R1 R2 R3]. split; [done|done|]. left.
    unfold queue_type in Eq. destruct (otherq (ctl st)) eqn:Eo; [done|]. simpl in Eq. congruence. }
  rewrite <- Eq in *. destruct (get_head_total h (c_clk (ctl st)) (channel st) (get_queue (ctl st) (queue_type (ctl st))) (rowtable st)) as ([k r] & Eh & Hk);
    [done|done|by eapply queue_requests|by rewrite Eq|]. rewrite Eh. cbn [mbind outcome_bind]. rewrite Hst. simpl in Hk.
  pose proof (proj1 (Forall_lookup _ _) (queue_requests h st K) _ _ Hk) as Hok.
  destruct (first_cmd_ok h (c_clk (ctl st)) (channel st) r C Hok) as (cmd & Ecmd & Ho & Ha & Hi & Href & _).
  destruct (request_ready h (c_clk (ctl st)) (channel st) cmd r C Hok Ha) as [b Eb].
  cbn [is_ready view]. rewrite Ecmd. cbn [mbind outcome_bind]. rewrite Eb. cbn [mbind outcome_bind].
  assert (Hone : length (otherq (ctl st)) = 1%nat -> is_refresh r).
  { intros Hl. destruct Hok as [[_ Hx]|]; [|done]. rewrite (queue_request_type h st k r K Hk) in Hx. apply queue_type_access in Hx. by rewrite Hx in Hl. }
  destruct R as [R1 R2 R3]. destruct b.
  - destruct (tick_issue_core h st k r cmd K Hk Ecmd Eb) as (st' & E & K' & Ht & Hnil & Hcons). exists st', ((cmd, vec_list (req_vec r), c_clk (ctl st)) :: h).
    split; [done|]. split; [done|]. split; [|split; [done|right; by eexists]]. destruct Ht as [T1 T2 T3]. split; [congruence|congruence|].
    unfold refresh_phase. rewrite T1, T3. destruct R3 as [Hx|(Hl & Hph)]; [left; by apply Hnil|].
    destruct (otherq (ctl st)) as [|o [|]] eqn:Eo; try done. destruct (Hcons o eq_refl) as [[_ Hx]|(Hcm & Hnd & Hop & Hl' & Hcl)]; [by left|].
    right. split; [done|]. right. destruct Hph as [[Hf Hc]|(_ & _ & Hcl')]; [|by rewrite (Hcl' Hnd) in Hop].
    split; [|split; [lia|done]]. constructor; [simpl; lia|]. eapply Forall_impl; [exact Hf|]. simpl. lia.
  - rewrite Hspec. exists st, h. split; [done|]. split; [done|]. split; [|split; [done|by left]]. split; [done|done|].
    destruct R3 as [Hx|(Hl & Hph)]; [by left|]. right. split; [done|]. assert (Hlate := refresh_ready h st r cmd).
    destruct Hph as [[Hf Hc]|(Hf & Hc & Hcl)].
    + left. split; [done|]. destruct (decide (c_clk (ctl st) < refreshed st + 200 + 0)); [done|].
      rewrite (Hlate (refreshed st)) in Eb by (done || auto || lia). done.
    + right. split; [done|]. split; [|done]. destruct (decide (c_clk (ctl st) < refreshed st + 400 + 0)); [done|].
      rewrite (Hlate (refreshed st + 200)) in Eb by (done || auto || lia). done.
Qed.

Lemma tick_core h st :
  tc_sched tc <> FRFCFS_Cap -> tc_policy tc = PolicyOpened -> core h st -> ref_inv 0 h st ->
  exists st' h', tick tc st = Ret st' /\ core h' st' /\ ref_inv 0 h' st' /\ c_clk (ctl st') = c_clk (ctl st) + 1 /\ (h' = h \/ exists e, h' = e :: h).
Proof.
  intros Hsch Hpol K R. unfold tick. set (st0 := set_ctl st _).
  assert (K0 : core h st0) by (by apply core_clock).
  destruct (tick_serve_core h st0 K0) as (st1 & E1 & K1 & Ho1 & Hc1 & Hr1 & Hf1 & B1). rewrite E1. cbn [mbind outcome_bind].
  destruct R as [R1 R2 R3]. change (c_clk (ctl st0)) with (c_clk (ctl st) + 1) in Hc1.
  destruct (tick_ref_core h st1 K1) as (st2 & E2 & K2 & Rf2 & Hc2).
  { rewrite Hr1, Hc1. simpl. lia. } { rewrite Hc1, Hf1. simpl. lia. }
  { unfold refresh_phase. rewrite Ho1, Hf1, Hc1. destruct R3 as [|(Hl & Hph)]; [by left|]. right. split; [done|]. simpl.
    destruct Hph as [[Hf Hc]|(Hf & Hc & Hcl)]; [left; split; [done|lia]|right]. split; [done|]. split; [lia|]. intros Hn.
    rewrite (some_bank_open_same _ _ _ _ _ _ (k_channel _ _ K0) (k_channel _ _ K1) B1). by apply Hcl. }
  rewrite E2. cbn [mbind outcome_bind]. set (st3 := set_ctl st2 _).
  destruct (tick_schedule_core h st3 Hsch Hpol) as (st' & h' & E3 & K3 & Rf3 & Ht3 & Hh).
  { by apply core_mode. } { by destruct Rf2. }
  exists st', h'. split; [done|]. split; [done|]. split; [done|]. split; [|done]. rewrite (sm_clk _ _ Ht3). simpl. lia.
Qed.

(** *** The start, new packets, the network *)

Lemma core_new : core [] (newVaultState tc id).
Proof.
  assert (Hat : forall p m, nd_at (new_vault (tc_org tc) (tc_speed tc) id) p = Some m -> exists l i, m = newNode sp l i).
  { intros p m. rewrite new_vault_at. cbv zeta. destruct p as [|i [|j [|k p]]]; repeat case_decide; intros [= <-]; by eexists _, _. }
  split; simpl; try done; [apply newController_inv| | |].
  - split; [apply new_vault_recorded|apply new_vault_ok|done|split; [done|tauto]|by intros [] ? ? ? ? [=]].
  - intros p m Hm. destruct (Hat p m Hm) as (l & i & ->). done.
  - intros key. rewrite lookup_empty. unfold open_key. destruct key as [|v [|a [|b [|]]]]; try done. destruct (_ && _ && _); [|done].
    destruct (nd_at _ _) as [m|] eqn:Em; [|done]. simpl.
    destruct (vk_banks _ _ _ (new_vault_ok (tc_org tc) (tc_speed tc) id) _ _ _ Em) as [Hc|[r Hr]]; [by rewrite (open_of_closed m Hc)|].
    destruct (Hat _ _ Em) as (l & i & ->). by destruct Hr as [_ Hr].
Qed.

Lemma ref_inv_new : ref_inv 0 [] (newVaultState tc id).
Proof. split; simpl; [done|rewrite nREFI_value; lia|by left]. Qed.

(** A packet from outside: a read or a write of this vault, not yet started. *)
Record arrival (st : VaultState) (p : Packet) (r : Request) : Prop := {
  ar_wf : packet_wf p;
  ar_req : pk_req p = Some r;
  ar_fresh : reqid r ∉ live_ids (ctl st);
  ar_type : is_access (req_type r) = true;
  ar_home : at_home tc id r;
  ar_first : is_first_command r = true
}.

Lemma receive_core h st p r b st' : core h st -> arrival st p r -> vault_receive tc st p = Ret (b, st') ->
  core h st' /\ otherq (ctl st') = otherq (ctl st) /\ same_time st st' /\ channel st' = channel st.
Proof.
  intros K [Hwf Hr Hfr Hty Hh Hf] E. apply bind_ret_inv in E as ([b' c'] & E & E'). injection E' as <- <-.
  assert (Ht : req_type r = READ \/ req_type r = WRITE) by (destruct (req_type r); try done; auto).
  pose proof (receive_inv _ _ _ _ _ _ (k_vault _ _ K) Hwf Hr Hfr Ht E) as I'.
  unfold receive in E. rewrite (pw_type p Hwf) in E. unfold packet_req in E. rewrite Hr in E. simpl in E. unfold enqueue in E. simpl in E.
  destruct (queue_full _) in E; [injection E as <- <-; by destruct st|].
  assert (Hcore : (forall p, svc c' p = svc (ctl st) p) -> c_clk c' = c_clk (ctl st) -> otherq c' = otherq (ctl st) ->
    Forall (at_home tc id) (readq c') -> Forall (at_home tc id) (writeq c') -> Forall (at_home tc id) (pending c') ->
    Forall (fun r => arrive r <= c_clk (ctl st)) (readq c') -> core h (set_ctl st c')).
  { intros Hs Hc Ho H1 H2 H3 H4. destruct K. split; simpl; rewrite ?Hc, ?Ho; try done. intros q m Hm. rewrite Hs. by apply k_serving0. }
  destruct K as [K1 K2 K3 K4 K5 K6 K7 K8 K9 K10].
  assert (Hone : forall (P : Request -> Prop) l x, P x -> Forall P l -> Forall P (l ++ [x])) by (intros; apply Forall_app_2; [done|by constructor]).
  destruct Ht as [Ht|Ht]; rewrite Ht in E; [destruct (existsb _ _)|]; injection E as <- <-; (split; [|done]); apply Hcore; simpl; try done; try (by apply Hone).
  - intros q. unfold svc. simpl. rewrite count_b_app. cbn [count_b]. simpl. replace (c_clk (ctl st) + 1 - c_clk (ctl st)) with 1 by lia. simpl. lia.
  - intros q. unfold svc. simpl. rewrite count_b_app. cbn [count_b]. simpl. rewrite Hf. simpl. lia.
  - intros q. unfold svc. simpl. rewrite count_b_app. cbn [count_b]. simpl. rewrite Hf. simpl. lia.
Qed.

(** Runs: packets arrive, the network takes responses, the clock ticks. *)
Inductive vault_run : VaultState -> VaultState -> Prop :=
  | vr_receive st p r b st' : arrival st p r -> vault_receive tc st p = Ret (b, st') -> vault_run st st'
  | vr_network st resp pim nxt : vault_run st (set_ctl st (set_buffers (ctl st) resp pim nxt))
  | vr_tick st st' : tick tc st = Ret st' -> vault_run st st'.

Lemma vault_run_inv st st' :
  tc_sched tc <> FRFCFS_Cap -> tc_policy tc = PolicyOpened ->
  (exists h, core h st /\ ref_inv 0 h st) -> vault_run st st' -> exists h, core h st' /\ ref_inv 0 h st'.
Proof.
  intros Hs Hp (h & K & R) Hstep. destruct Hstep as [st p r b st' Ha E|st resp pim nxt|st st' E].
  - destruct (receive_core h st p r b st' K Ha E) as (K' & Ho & [T1 T2 T3] & Hch). exists h. split; [done|].
    destruct R as [R1 R2 R3]. split; [congruence|congruence|]. unfold refresh_phase. by rewrite Ho, T1, T3, Hch.
  - exists h. split; [|by destruct R]. destruct K. split; simpl; try done. by destruct k_vault0.
  - destruct (tick_core h st Hs Hp K R) as (st2 & h' & E2 & K2 & R2 & _). assert (st2 = st') as -> by congruence. eauto.
Qed.

Lemma vault_reachable st :
  tc_sched tc <> FRFCFS_Cap -> tc_policy tc = PolicyOpened -> rtc vault_run (newVaultState tc id) st -> exists h, core h st /\ ref_inv 0 h st.
Proof.
  intros Hs Hp Hr. eapply (rtc_invariant vault_run (fun st => exists h, core h st /\ ref_inv 0 h st)); [|exact Hr|].
  - intros s s' Hinv Hstep. by eapply vault_run_inv.
  - exists []. split; [apply core_new|apply ref_inv_new].
Qed.
End Invariant.

(** ** Properties *)

(** C10: Whatever reads and writes arrive at a vault controller, and whenever the
    network takes its responses, the next tick returns: no assert of the
    controller, of the device (command not ready, request counters, refresh
    intervals), of the row table or of the refresh queue can fail, for every
    organisation and speed, with and without DRAM latency, for every scheduler
    but the capped one, under the default row policy. *)
Theorem vault_tick_returns tc id st :
  tc_sched tc <> FRFCFS_Cap -> tc_policy tc = PolicyOpened -> rtc (vault_run tc id) (newVaultState tc id) st ->
  exists st', tick tc st = Ret st' /\ c_clk (ctl st') = c_clk (ctl st) + 1.
Proof.
  intros Hs Hp Hr. destruct (vault_reachable tc id st Hs Hp Hr) as (h & K & R).
  destruct (tick_core tc id h st Hs Hp K R) as (st' & h' & E & _ & _ & Hc & _). eauto.
Qed.

(** A read and a write of bank (1, 0) of vault 3, then some ticks. *)
Definition demo_tick_config : tick_config :=
  mkTickConfig HMC_4GB HMC_2500 FRFCFS_PriorHit PolicyOpened false 2 4 8 IDEAL_MEM_NETWORK_LOCALSTACK.
Definition demo_home_request (i row : Z) (t : ReqType) : Request := set_vec (mkAddrVec 3 1 0 row 2) (set_reqid i (cpu_request (64 * i) t 0)).
Definition demo_home_packet (i row : Z) (t : ReqType) : Packet := request_packet 0 (64 * i) i 5 0 WR64 (demo_home_request i row t).

Fixpoint ticks (tc : tick_config) (k : nat) (st : VaultState) : outcome VaultState :=
  match k with O => Ret st | S k => st ← tick tc st; ticks tc k st end.

Lemma ticks_run tc id k st st' : ticks tc k st = Ret st' -> rtc (vault_run tc id) st st'.
Proof.
  revert st. induction k as [|k IH]; intros st E; [injection E as <-; apply rtc_refl|].
  apply bind_ret_inv in E as (st1 & E1 & E). eapply rtc_l; [by apply vr_tick|by apply IH].
Qed.

Lemma receive_run tc id st p r b c' :
  arrival tc id st p r -> receive (tc_vault tc) (ctl st) p = Ret (b, c') -> vault_run tc id st (set_ctl st c').
Proof. intros Ha E. apply (vr_receive _ _ st p r b); [exact Ha|]. unfold vault_receive. by rewrite E. Qed.

Definition demo_ctl (k : nat) : Controller :=
  let get c i row t := ret_or c (snd <$> receive (tc_vault demo_tick_config) c (demo_home_packet i row t)) in
  let c1 := get (newController 3) 7 5 READ in
  match k with 0%nat => newController 3 | 1%nat => c1 | _ => get c1 8 6 WRITE end.
Definition demo_vault_loaded (k : nat) : VaultState := set_ctl (newVaultState demo_tick_config 3) (demo_ctl k).
Definition demo_vault_after (k : nat) : VaultState := ret_or (demo_vault_loaded 2) (ticks demo_tick_config k (demo_vault_loaded 2)).

Lemma demo_arrival st i row t :
  i < 2 ^ 11 -> i ∉ live_ids (ctl st) -> is_access t = true ->
  arrival demo_tick_config 3 st (demo_home_packet i row t) (demo_home_request i row t).
Proof.
  intros Hi Hf Ht. split; [|done|done|done|split; [done|]; split; vm_compute; split; congruence|done].
  split; simpl; eauto; eexists; (split; [done|]); unfold pkt_cub_bits, pkt_tag_bits, pkt_slid_bits; simpl; lia.
Qed.

Lemma demo_loaded_run : rtc (vault_run demo_tick_config 3) (newVaultState demo_tick_config 3) (demo_vault_loaded 2).
Proof.
  apply (rtc_l _ _ (demo_vault_loaded 1)); [|apply rtc_once].
  - apply (receive_run _ _ (demo_vault_loaded 0) (demo_home_packet 7 5 READ) (demo_home_request 7 5 READ) true).
    + apply demo_arrival; [lia|apply not_elem_of_nil|reflexivity].
    + vm_compute. reflexivity.
  - apply (receive_run _ _ (demo_vault_loaded 1) (demo_home_packet 8 6 WRITE) (demo_home_request 8 6 WRITE) true).
    + apply demo_arrival; [lia| |reflexivity]. change (live_ids (ctl (demo_vault_loaded 1))) with (live_ids (demo_ctl 1)).
      vm_compute. apply not_elem_of_cons. split; [done|apply not_elem_of_nil].
    + change (ctl (demo_vault_loaded 1)) with (demo_ctl 1). vm_compute. reflexivity.
Qed.

Lemma demo_run_after k :
  is_ret (ticks demo_tick_config k (demo_vault_loaded 2)) = true ->
  rtc (vault_run demo_tick_config 3) (newVaultState demo_tick_config 3) (demo_vault_after k).
Proof. intros Hk. transitivity (demo_vault_loaded 2); [exact demo_loaded_run|]. apply (ticks_run _ _ k). by apply ret_or_spec. Qed.

Lemma vault_tick_returns_witness : exists st', tick demo_tick_config (demo_vault_after 30) = Ret st' /\
  c_clk (ctl st') = c_clk (ctl (demo_vault_after 30)) + 1.
Proof.
  apply (vault_tick_returns demo_tick_config 3); [discriminate|reflexivity|]. apply demo_run_after. vm_compute. reflexivity.
Defined.

(** C12: In every state a vault controller reaches, the row table holds exactly
    the open rows of the device; every bank is closed or has one open row; every
    node of the device counts exactly the requests in service below it; at most
    one refresh waits, for less than 400 cycles, and one is injected every
    9750 cycles; and the timing state of the device is that of a history of
    commands in which none was issued before all its timing constraints. *)
Theorem vault_state_consistent tc id st :
  tc_sched tc <> FRFCFS_Cap -> tc_policy tc = PolicyOpened -> rtc (vault_run tc id) (newVaultState tc id) st ->
  (forall key, re_row <$> rowtable st !! key = open_key id (channel st) key) /\
  vault_ok (bank_groups (tc_org tc)) (banks_per_group (tc_org tc)) (channel st) /\
  (forall p m, nd_at (channel st) p = Some m -> cur_serving_requests (stats m) = svc (ctl st) p) /\
  (otherq (ctl st) <> [] -> length (otherq (ctl st)) = 1%nat /\ c_clk (ctl st) - refreshed st < 400) /\
  c_clk (ctl st) - refreshed st < 9750 /\
  exists h, recorded (tc_spec tc) id h (channel st) /\ obeyed (tc_spec tc) (new_vault (tc_org tc) (tc_speed tc) id) h.
Proof.
  intros Hs Hp Hr. destruct (vault_reachable tc id st Hs Hp Hr) as (h & K & [R1 R2 R3]). pose proof (k_channel _ _ _ _ K) as C.
  split_and!; [apply K|apply C| | | |exists h; split; apply C].
  - intros p m Hm. by apply (k_serving _ _ _ _ K).
  - intros Ho. destruct R3 as [|(Hl & [[_ ?]|(_ & ? & _)])]; [done|split; [done|lia]..].
  - by rewrite nREFI_value in R2.
Qed.

Lemma vault_state_consistent_witness :
  (forall key, re_row <$> rowtable (demo_vault_after 30) !! key = open_key 3 (channel (demo_vault_after 30)) key) /\
  open_key 3 (channel (demo_vault_after 30)) [3; 1; 0] = Some 5.
Proof.
  split; [|vm_compute; reflexivity].
  apply (vault_state_consistent demo_tick_config 3); [discriminate|reflexivity|]. apply demo_run_after. vm_compute. reflexivity.
Defined.

(** The policies that close idle rows never close one: a key of the row
    table names vault, bank group and bank only, and [check] reads the component
    after the bank, which is past the end of the key.  The search for a victim
    finds none or leaves the vector. *)
Theorem closing_policy_reads_past_key tc id h clk n t policy :
  channel_ok tc id h clk n -> table_ok id n t -> policy <> PolicyOpened ->
  get_victim (view tc n clk) policy t PRE = Ret [] \/ get_victim (view tc n clk) policy t PRE = Stop OutOfRange.
Proof.
  intros C T Hp. pose proof (co_vault _ _ _ _ _ C) as V. pose proof (rec_numbered _ _ _ _ (co_rec _ _ _ _ _ C)) as N.
  assert (Hcheck : forall e, e ∈ in_order t -> check (tc_spec tc) n PRE e.1 clk = Ret false \/ check (tc_spec tc) n PRE e.1 clk = Stop OutOfRange).
  { intros [key e] He. rewrite in_order_permutation in He. apply elem_of_map_to_list in He. specialize (T key). rewrite He in T. symmetry in T.
    apply open_key_some in T as (bg & bk & m & -> & Hg & Hk & Hm & _). cbn [fst].
    assert (HB : in_vault (bank_groups (tc_org tc)) (banks_per_group (tc_org tc)) bg bk).
    { pose proof (proj1 (vk_shape _ _ _ V [Z.to_nat bg; Z.to_nat bk]) ltac:(by eexists)) as [? ?]. split; lia. }
    destruct (vault_path _ _ n bg bk N V HB) as (g & b & Eg & Eb & Lg & Lb & _). cbn [check].
    change (at_ [bg; bk] 0) with (Ret bg). change (at_ [bk] 0) with (Ret bk). change (at_ [] 0) with (@Stop Z OutOfRange).
    cbn [mbind outcome_bind]. rewrite (vk_level _ _ _ V), (bool_decide_false (0%nat = _)) by done.
    destruct (negb (next (root n) PRE =? -1) && _); [by left|]. rewrite (proj2 (Z.ltb_ge bg 0)), (leaf_child n _ g Eg) by lia.
    rewrite (proj2 (at_ret_iff (children n) bg g)) by done. cbn [orb mbind outcome_bind].
    rewrite Lg, (bool_decide_false (1%nat = _)) by done. destruct (negb (next (root g) PRE =? -1) && _); [by left|].
    rewrite (proj2 (Z.ltb_ge bk 0)), (leaf_child g _ b Eb) by lia. rewrite (proj2 (at_ret_iff (children g) bk b)) by done.
    cbn [orb mbind outcome_bind]. destruct (negb (next (root b) PRE =? -1) && _); [by left|by right]. }
  assert (Hfind : forall aged l, (forall e, e ∈ l -> check (tc_spec tc) n PRE e.1 clk = Ret false \/ check (tc_spec tc) n PRE e.1 clk = Stop OutOfRange) ->
    find_victim (view tc n clk) PRE aged l = Ret [] \/ find_victim (view tc n clk) PRE aged l = Stop OutOfRange).
  { intros aged l. induction l as [|[k e] l IH]; intros Hl; [by left|]. cbn [find_victim].
    assert (IH' := IH (fun e He => Hl e (list_elem_of_further _ _ _ He))). destruct (aged e); [|done]. cbn [is_ready_cmd view].
    destruct (Hl (k, e)) as [Hc|Hc]; [left| |]; simpl in Hc; rewrite Hc; [done|by right]. }
  destruct policy; [by apply Hfind|done|by apply Hfind].
Qed.

Lemma closing_policy_reads_past_key_witness :
  let st := demo_vault_after 120 in
  (get_victim (view demo_tick_config (channel st) (c_clk (ctl st))) PolicyClosed (rowtable st) PRE = Ret [] \/
   get_victim (view demo_tick_config (channel st) (c_clk (ctl st))) PolicyClosed (rowtable st) PRE = Stop OutOfRange) /\
  get_victim (view demo_tick_config (channel st) (c_clk (ctl st))) PolicyClosed (rowtable st) PRE = Stop OutOfRange.
Proof.
  intros st. split; [|vm_compute; reflexivity].
  destruct (vault_reachable demo_tick_config 3 st) as (h & K & _); [discriminate|reflexivity|apply demo_run_after; vm_compute; reflexivity|].
  apply (closing_policy_reads_past_key demo_tick_config 3 h); [apply K|apply K|discriminate].
Defined.
