(* ===== verification/Host.v ===== *)
(** * The host controller

    [Memory::send] of [src/src/ramulator/HMC_Memory.h], for requests of the CPU
    (through a source-mode link) and of PIM cores (through their vault
    controller), together with the life of a tag: taken by
    [form_request_packet], given back by [receive_packets].

    The statistics that [send] increments are the list [m_stats] of counters
    bumped, in order. *)

From S2P Require Import Prelude Bits Network Topology AddrMap Packet Link Vault.

(** ** State *)

Inductive stat : Type :=
  | num_read_requests | num_write_requests
  | incoming_read_reqs_per_channel | incoming_requests_per_channel
  | num_pu_local_vault_read_requests | num_pu_local_memory_read_requests
  | num_pu_remote_memory_read_requests
  | num_pu_local_vault_write_requests | num_pu_local_memory_write_requests
  | num_pu_remote_memory_write_requests
  | total_pu_local_vault_ptw_requests | total_pu_local_memory_ptw_requests
  | total_pu_remote_memory_ptw_requests | num_ptws.

Record memory : Type := mkMemory {
  m_pools : tag_pools;
  m_links : links;
  m_ctrls : list Controller;
  m_clock : Z;
  m_incoming : Z;                    (* num_incoming_requests *)
  m_stats : list (stat * Z)
}.

(** ** [Memory::send] *)

(** The common prologue: address mapping, request id, arrival time. *)
Definition prepare (h : host) (m : memory) (r : Request) : outcome Request :=
  v ← address_mapping (h_addressing h) (req_addr r);
  let r := set_vec v r in
  let r := if reqid r =? -1 then set_reqid (m_incoming m) r else r in
  Ret (set_arrive_hmc (m_clock m) r).

Definition with_stats (m : memory) (ss : list (stat * Z)) : memory :=
  mkMemory (m_pools m) (m_links m) (m_ctrls m) (m_clock m) (m_incoming m + 1) (m_stats m ++ ss).
Definition with_pools (m : memory) (p : tag_pools) : memory :=
  mkMemory p (m_links m) (m_ctrls m) (m_clock m) (m_incoming m) (m_stats m).
Definition with_ctrl (m : memory) (i : Z) (c : Controller) : memory :=
  mkMemory (m_pools m) (m_links m) (<[Z.to_nat i := c]> (m_ctrls m)) (m_clock m) (m_incoming m) (m_stats m).
Definition with_links (m : memory) (l : links) : memory :=
  mkMemory (m_pools m) l (m_ctrls m) (m_clock m) (m_incoming m) (m_stats m).

Inductive place : Type := LocalVault | LocalMemory | RemoteMemory.

#[global] Instance place_eq_dec : EqDecision place.
Proof. solve_decision. Defined.

(** Counters of an accepted PIM request. *)
Definition pim_stats (r : Request) (pl : place) (core pu vault : Z) : list (stat * Z) :=
  match req_type r with
  | READ =>
      [(num_read_requests, core); (incoming_read_reqs_per_channel, vault)] ++
      match pl with
      | LocalVault =>
          [(num_pu_local_vault_read_requests, pu); (num_pu_local_memory_read_requests, pu)] ++
          (if is_ptw r then [(total_pu_local_vault_ptw_requests, 0); (num_ptws, 0)] else [])
      | LocalMemory =>
          [(num_pu_local_memory_read_requests, pu)] ++
          (if is_ptw r then [(total_pu_local_memory_ptw_requests, 0); (num_ptws, 0)] else [])
      | RemoteMemory =>
          [(num_pu_remote_memory_read_requests, pu)] ++
          (if is_ptw r then [(total_pu_remote_memory_ptw_requests, 0); (num_ptws, 0)] else [])
      end
  | WRITE =>
      [(num_write_requests, core)] ++
      match pl with
      | LocalVault => [(num_pu_local_vault_write_requests, pu); (num_pu_local_memory_write_requests, pu)]
      | LocalMemory => [(num_pu_local_memory_write_requests, pu)]
      | RemoteMemory => [(num_pu_remote_memory_write_requests, pu)]
      end
  | _ => []
  end ++ [(incoming_requests_per_channel, vault)].

Definition cpu_stats (r : Request) (vault : Z) : list (stat * Z) :=
  match req_type r with
  | READ => [(num_read_requests, coreid r); (incoming_read_reqs_per_channel, vault)] ++
            (if is_ptw r then [(num_ptws, 0)] else [])
  | WRITE => [(num_write_requests, coreid r)]
  | _ => []
  end ++ [(incoming_requests_per_channel, vault)].

(** The branch [req.is_pim_inst]. *)
Definition send_pim (h : host) (vc : vault_config) (m : memory) (r : Request) : outcome (bool * memory) :=
  let a := h_addressing h in
  let vpc := vaults_per_cub a in
  let target := av_Vault (req_vec r) in
  let r := if ideal_memnet r && bool_decide (h_nolat h = IDEAL_MEM_NETWORK_LOCALSTACK)
           then set_pu_id (Z.quot target vpc * vpc + Z.rem (pu_id r) vpc) r else r in
  let puid := pu_id r in
  let core := h_cpu_cores h + puid in
  '(p, pools) ← form_request_packet_pim h (m_pools m) r (Z.shiftr puid (vaults_per_cub_bits a));
  let m := with_pools m pools in
  let local_vault := (target =? puid) ||
    (ideal_memnet r && bool_decide (h_nolat h = IDEAL_MEM_NETWORK_LOCALVAULT)) in
  if local_vault then
    let ctrl := if target =? puid then puid else target in
    c ← at_ (m_ctrls m) ctrl;
    '(ok, c) ← receive vc c p;
    if ok : bool then Ret (true, with_stats (with_ctrl m ctrl c) (pim_stats r LocalVault core puid target))
    else Ret (false, m)
  else
    c ← at_ (m_ctrls m) puid;
    '(ok, c) ← receive_remote_request vc c p;
    if ok : bool then
      let pl := if Z.quot target vpc =? Z.quot puid vpc then LocalMemory else RemoteMemory in
      Ret (true, with_stats (with_ctrl m puid c) (pim_stats r pl core puid target))
    else Ret (false, m).

(** The branch of the CPU: the packet already took its tag when the link turns
    out to be full. *)
Definition send_cpu (h : host) (m : memory) (r : Request) : outcome (bool * memory) :=
  '(p, pools) ← form_request_packet h (m_pools m) r;
  let m := with_pools m pools in
  tag ← field (pk_TAG p);
  if tag =? -1 then Ret (false, m)
  else
    slid ← field (tail_SLID p);
    '(ok, ls) ← host_send (m_links m) slid p;
    if ok : bool then Ret (true, with_stats (with_links m ls) (cpu_stats r (av_Vault (req_vec r))))
    else Ret (false, m).

(** [Memory::send(req)] *)
Definition send (h : host) (vc : vault_config) (m : memory) (r : Request) : outcome (bool * memory) :=
  r ← prepare h m r;
  if is_pim_inst r then send_pim h vc m r else send_cpu h m r.

(** ** Tags

    A tag leaves the pool of its link with the packet that [send] forms. *)

(** The packet that [send] forms, and the pools after that. *)
Definition formed (h : host) (m : memory) (r : Request) : outcome (Packet * tag_pools) :=
  r ← prepare h m r;
  if is_pim_inst r then
    let vpc := vaults_per_cub (h_addressing h) in
    let r := if ideal_memnet r && bool_decide (h_nolat h = IDEAL_MEM_NETWORK_LOCALSTACK)
             then set_pu_id (Z.quot (av_Vault (req_vec r)) vpc * vpc + Z.rem (pu_id r) vpc) r else r in
    form_request_packet_pim h (m_pools m) r (Z.shiftr (pu_id r) (vaults_per_cub_bits (h_addressing h)))
  else form_request_packet h (m_pools m) r.

(** The packet [p] was given to its link, or to a vault controller. *)
Inductive handed_over (vc : vault_config) (m m' : memory) (p : Packet) : Prop :=
  | ho_link slid l : field (tail_SLID p) = Ret slid -> lk (m_links m) !! slid = Some l ->
      m_links m' = put_link (m_links m) slid (slave_receive l p) -> m_ctrls m' = m_ctrls m -> handed_over vc m m' p
  | ho_ctrl i c c' : m_ctrls m !! i = Some c -> m_ctrls m' = <[i := c']> (m_ctrls m) -> m_links m' = m_links m ->
      receive vc c p = Ret (true, c') \/ receive_remote_request vc c p = Ret (true, c') -> handed_over vc m m' p.

(** The link and the tag a packet holds; none when the pool was empty or no link is used. *)
Definition tag_of (p : Packet) : list (Z * Z) :=
  match tail_SLID p, pk_TAG p with
  | Some s, Some t => if value t =? -1 then [] else [(value s, value t)]
  | _, _ => []
  end.

Definition held (ps : list Packet) : list (Z * Z) := ps ≫= tag_of.

(** The response [p] is for the request packet [q]. *)
Definition responds (q p : Packet) : Prop :=
  flow_control p = false /\ value <$> pk_SLID p = value <$> tail_SLID q /\ value <$> pk_TAG p = value <$> pk_TAG q.

(** Histories of the host.  [out] holds the packets of CPU requests that were sent and not
    answered, [pim] those of PIM requests that were sent, [lost] those of requests that [send]
    refused after it had formed the packet.  Links, vaults and the clock change in any way
    between the operations of the host; responses are those of packets that are out. *)
Inductive tag_history (h : host) (vc : vault_config) (stacks sl : Z) : memory -> list Packet -> list Packet -> list Packet -> Prop :=
  | th_start m : m_pools m = init_tags stacks sl -> tag_history h vc stacks sl m [] [] []
  | th_send m out pim lost r b m' p ps : tag_history h vc stacks sl m out pim lost ->
      send h vc m r = Ret (b, m') -> formed h m r = Ret (p, ps) ->
      tag_history h vc stacks sl m'
        (if b && negb (is_pim_inst r) then p :: out else out)
        (if b && is_pim_inst r then p :: pim else pim)
        (if b then lost else p :: lost)
  | th_receive m out pim lost clk q p pools' req : tag_history h vc stacks sl m (q :: out) pim lost ->
      responds q p -> receive_packets (m_pools m) clk p = Ret (pools', req) ->
      tag_history h vc stacks sl (with_pools m pools') out pim lost
  | th_flow m out pim lost clk p pools' req : tag_history h vc stacks sl m out pim lost ->
      flow_control p = true -> receive_packets (m_pools m) clk p = Ret (pools', req) ->
      tag_history h vc stacks sl (with_pools m pools') out pim lost
  | th_other m out pim lost m' : tag_history h vc stacks sl m out pim lost -> m_pools m' = m_pools m ->
      tag_history h vc stacks sl m' out pim lost
  | th_order m out out' pim lost : tag_history h vc stacks sl m out pim lost -> out ≡ₚ out' ->
      tag_history h vc stacks sl m out' pim lost.

Definition tags_on (slid : Z) (f : list (Z * Z)) : list Z :=
  omap (fun '(s, t) => if s =? slid then Some t else None) f.

(** The free tags of a link and those taken are the tags of the link. *)
Definition tags_inv (pools : tag_pools) (taken : list (Z * Z)) : Prop :=
  forall slid pool, pools !! slid = Some pool ->
    pool ++ tags_on (Z.of_nat slid) taken ≡ₚ zrange (Z.to_nat max_tags).

Lemma tags_on_cons s t slid f :
  tags_on slid ((s, t) :: f) = (if s =? slid then [t] else []) ++ tags_on slid f.
Proof. unfold tags_on. simpl. by destruct (s =? slid). Qed.

Lemma tags_on_app slid f g : tags_on slid (f ++ g) = tags_on slid f ++ tags_on slid g.
Proof. unfold tags_on. apply omap_app. Qed.

#[export] Instance tags_on_perm slid : Proper ((≡ₚ) ==> (≡ₚ)) (tags_on slid).
Proof. intros f g Hp. unfold tags_on. by rewrite Hp. Qed.

#[export] Instance tags_inv_perm pools : Proper ((≡ₚ) ==> iff) (tags_inv pools).
Proof. intros f g Hp. unfold tags_inv. by setoid_rewrite Hp. Qed.

#[export] Instance held_perm : Proper ((≡ₚ) ==> (≡ₚ)) held.
Proof. intros f g Hp. unfold held. by rewrite Hp. Qed.

Lemma held_app ps qs : held (ps ++ qs) = held ps ++ held qs.
Proof. apply bind_app. Qed.

Lemma assign_tag_inv pools taken slid tag pools' :
  tags_inv pools taken -> assign_tag pools slid = Ret (tag, pools') ->
  tags_inv pools' ((if tag =? -1 then [] else [(slid, tag)]) ++ taken).
Proof.
  intros I H. unfold assign_tag in H. outcome_steps.
  apply at_ret_iff in H as [Hs Hp]. destruct x as [|t rest]; outcome_steps; [done|].
  apply set_at_ret_iff in H as [Hlt ->]. destruct (tag =? -1) eqn:Et; zb.
  { subst. pose proof (I _ _ Hp) as Hperm.
    assert (Hin : -1 ∈ zrange (Z.to_nat max_tags)) by (rewrite <- Hperm; by constructor).
    apply elem_of_zrange in Hin. lia. }
  intros sl pool [(<- & <- & _)|[Hne Hp']]%list_lookup_insert_Some; cbn [app]; rewrite tags_on_cons.
  - rewrite Z2Nat.id, Z.eqb_refl by lia. rewrite <- (I _ _ Hp), Z2Nat.id by lia. simpl. solve_Permutation.
  - rewrite (proj2 (Z.eqb_neq slid (Z.of_nat sl))) by lia. simpl. by apply I.
Qed.

Lemma packet_asserts_ret p q : packet_asserts p = Ret q -> q = p.
Proof. unfold packet_asserts. intros H. by outcome_steps. Qed.

Lemma formed_inv h m r p ps taken :
  tags_inv (m_pools m) taken -> formed h m r = Ret (p, ps) -> tags_inv ps (tag_of p ++ taken).
Proof.
  intros I H. unfold formed in H. apply bind_ret_inv in H as (r' & _ & H). destruct (is_pim_inst r').
  - unfold form_request_packet_pim in H. apply bind_ret_inv in H as (slid & _ & H). apply bind_ret_inv in H as ([tg ps0] & Ht & H).
    apply bind_ret_inv in H as (cm & _ & H). apply bind_ret_inv in H as (q & Hq%packet_asserts_ret & [= <- <-]). subst q. cbn [tag_of request_packet tail_SLID pk_TAG value].
    destruct (negb (slid =? -1)); [by apply (assign_tag_inv (m_pools m))|]. by injection Ht as <- <-.
  - unfold form_request_packet in H. apply bind_ret_inv in H as (slid & _ & H). apply bind_ret_inv in H as ([tg ps0] & Ht & H).
    apply bind_ret_inv in H as (cm & _ & H). apply bind_ret_inv in H as (q & Hq%packet_asserts_ret & [= <- <-]). subst q. cbn [tag_of request_packet tail_SLID pk_TAG value].
    by apply (assign_tag_inv (m_pools m)).
Qed.

(** What [send] does: it forms the packet, and hands it over or drops it. *)
Lemma send_forms h vc m r b m' :
  send h vc m r = Ret (b, m') ->
  exists p, formed h m r = Ret (p, m_pools m') /\
    if b then handed_over vc m m' p else m_links m' = m_links m /\ m_ctrls m' = m_ctrls m.
Proof.
  unfold send, formed. intros H. apply bind_ret_inv in H as (r' & -> & H). cbn [mbind outcome_bind]. destruct (is_pim_inst r').
  - unfold send_pim in H. cbv zeta in H. cbv zeta. set (r2 := if ideal_memnet r' && _ then _ else _) in *.
    apply bind_ret_inv in H as ([p ps] & Hf & H). rewrite Hf. exists p. destruct (_ || _).
    + apply bind_ret_inv in H as (c & Hc & H). apply bind_ret_inv in H as ([ok c'] & Hr & H). apply at_ret_iff in Hc as [_ Hc].
      destruct ok; injection H as <- <-; (split; [done|]); [|done]. eapply ho_ctrl; [exact Hc|done|done|by left].
    + apply bind_ret_inv in H as (c & Hc & H). apply bind_ret_inv in H as ([ok c'] & Hr & H). apply at_ret_iff in Hc as [_ Hc].
      destruct ok; injection H as <- <-; (split; [done|]); [|done]. eapply ho_ctrl; [exact Hc|done|done|by right].
  - unfold send_cpu in H. apply bind_ret_inv in H as ([p ps] & Hf & H). rewrite Hf. exists p.
    apply bind_ret_inv in H as (tag & Ht & H). destruct (tag =? -1); [by injection H as <- <-|].
    apply bind_ret_inv in H as (slid & Hs & H). apply bind_ret_inv in H as ([ok ls] & Hh & H).
    unfold host_send in Hh. apply bind_ret_inv in Hh as (l & Hl & Hh). cbn [m_links with_pools] in *.
    destruct ok; injection H as <- <-; (split; [done|]); [|done]. destruct (_ <=? _); [|done]. injection Hh as <-.
    unfold get_link in Hl. destruct (lk (m_links m) !! slid) as [l'|] eqn:El; [|done]. injection Hl as ->. by eapply ho_link.
Qed.

Lemma receive_inv_tags pools taken clk q p pools' req :
  tags_inv pools (tag_of q ++ taken) -> tag_of q <> [] -> responds q p -> receive_packets pools clk p = Ret (pools', req) -> tags_inv pools' taken.
Proof.
  intros I Hne (Hfc & Hs & Ht) H. unfold receive_packets in H. rewrite Hfc in H. outcome_steps.
  repeat match goal with H : field _ = Ret _ |- _ => unfold field in H end.
  destruct (pk_SLID p) as [fs|]; [|done]. destruct (pk_TAG p) as [ft|]; [|done]. simplify_eq. simpl in Hs, Ht.
  unfold tag_of in I, Hne. destruct (tail_SLID q) as [qs|]; [|done]. destruct (pk_TAG q) as [qt|]; [|done]. injection Hs as Hs. injection Ht as Ht.
  destruct (value qt =? -1); [done|]. rewrite <- Hs, <- Ht in I.
  match goal with H : at_ _ _ = Ret _ |- _ => apply at_ret_iff in H as [Hs0 Hp] end.
  match goal with H : set_at _ _ _ = Ret _ |- _ => apply set_at_ret_iff in H as [_ ->] end.
  intros sl pool [(<- & <- & _)|[Hn Hp']]%list_lookup_insert_Some.
  - rewrite <- (I _ _ Hp). cbn [app]. rewrite tags_on_cons, Z2Nat.id, Z.eqb_refl by lia. solve_Permutation.
  - rewrite <- (I _ _ Hp'). cbn [app]. rewrite tags_on_cons. by rewrite (proj2 (Z.eqb_neq (value fs) (Z.of_nat sl))) by lia.
Qed.

Lemma send_cpu_tagged h vc m r m' p ps :
  send h vc m r = Ret (true, m') -> formed h m r = Ret (p, ps) -> is_pim_inst r = false -> tag_of p <> [].
Proof.
  unfold send, formed. intros H Hf Hp. apply bind_ret_inv in H as (r' & E & H). rewrite E in Hf. cbn [mbind outcome_bind] in Hf.
  assert (Hp' : is_pim_inst r' = false).
  { unfold prepare in E. apply bind_ret_inv in E as (v & _ & [= <-]). by destruct (_ =? _). }
  rewrite Hp' in *. unfold send_cpu in H. rewrite Hf in H. cbn [mbind outcome_bind] in H.
  apply bind_ret_inv in H as (tag & Ht & H). destruct (tag =? -1) eqn:Et; [done|]. apply bind_ret_inv in H as (slid & Hs & _).
  unfold field in Ht, Hs. unfold tag_of. destruct (tail_SLID p); [|done]. destruct (pk_TAG p); [|done]. injection Ht as <-. by rewrite Et.
Qed.

Lemma tag_history_inv h vc stacks sl m out pim lost :
  tag_history h vc stacks sl m out pim lost -> tags_inv (m_pools m) (held (out ++ pim ++ lost)) /\ Forall (fun p => tag_of p <> []) out.
Proof.
  induction 1 as [m Hm|m out pim lost r b m' p ps _ [I Ho] Hs Hf|m out pim lost clk q p pools' req _ [I Ho] Hr H|m out pim lost clk p pools' req _ [I Ho] Hfc H
    |m out pim lost m' _ [I Ho] Hm|m out out' pim lost _ [I Ho] Hp].
  - rewrite Hm. split; [|done]. intros slid pool Hl. unfold init_tags in Hl. apply lookup_replicate in Hl as [-> _]. by rewrite app_nil_r.
  - destruct (send_forms _ _ _ _ _ _ Hs) as (p' & Hf' & _). rewrite Hf in Hf'. injection Hf' as <- ->.
    pose proof (formed_inv h m r p _ _ I Hf) as I'. change (tag_of p ++ held _) with (held (p :: out ++ pim ++ lost)) in I'. split.
    + eapply tags_inv_perm; [|exact I']. destruct b, (is_pim_inst r); cbn [andb negb]; apply held_perm; solve_Permutation.
    + destruct b, (is_pim_inst r) eqn:Hi; cbn [andb negb]; try done. constructor; [|done]. by eapply send_cpu_tagged.
  - apply Forall_cons in Ho as [Hq Ho]. split; [|done]. exact (receive_inv_tags (m_pools m) _ clk q p pools' req I Hq Hr H).
  - unfold receive_packets in H. rewrite Hfc in H. by injection H as <- <-.
  - by rewrite Hm.
  - split; [|by rewrite <- Hp]. eapply tags_inv_perm; [|exact I]. by rewrite Hp.
Qed.

(** ** Properties *)

(** C9: Every tag is accounted for.  Over any history of the host in which responses are for packets that
    are out, the tags 0 .. 2047 of a link are, each once, in the pool of the link, with the CPU
    requests that were sent and not answered, with the PIM requests that were sent, or with the
    requests that [send] refused: a response gives its tag back, while the tags of PIM
    requests and of refused requests never return.  No two packets that were sent hold the same tag of
    a link, and every CPU request that was sent holds one.  A call of [send] takes the tag of
    exactly the packet it forms, whether it then hands this packet to a link or vault, or
    returns false and leaves links and vaults as they were. *)
Theorem tags_accounted h vc stacks sl m out pim lost :
  tag_history h vc stacks sl m out pim lost ->
  (forall slid pool, m_pools m !! slid = Some pool ->
     let on ps := tags_on (Z.of_nat slid) (held ps) in
     pool ++ on out ++ on pim ++ on lost ≡ₚ zrange (Z.to_nat max_tags) /\ NoDup (on (out ++ pim))) /\
  Forall (fun p => exists slid tag, tag_of p = [(slid, tag)]) out /\
  (forall r b m', send h vc m r = Ret (b, m') ->
     exists p, formed h m r = Ret (p, m_pools m') /\
       if b then handed_over vc m m' p else m_links m' = m_links m /\ m_ctrls m' = m_ctrls m).
Proof.
  intros Hh. destruct (tag_history_inv _ _ _ _ _ _ _ _ Hh) as [I Ho]. split_and!; [|eapply Forall_impl; [exact Ho|]|intros; by eapply send_forms].
  - intros slid pool Hp on. pose proof (I slid pool Hp) as Hperm. rewrite !held_app, !tags_on_app in Hperm. split; [done|].
    assert (Hn : NoDup (pool ++ on out ++ on pim ++ on lost)) by (apply (NoDup_Permutation_proper _ _ Hperm), NoDup_seqZ).
    unfold on. rewrite held_app, tags_on_app. rewrite (app_assoc (on out)), NoDup_app in Hn. destruct Hn as (_ & _ & Hn). by apply NoDup_app in Hn as (Hn & _).
  - intros p Hp. unfold tag_of in *. destruct (tail_SLID p), (pk_TAG p); try done. destruct (_ =? _); [done|]. by eexists _, _.
Qed.

(** When the link of a CPU request is full, [send] reports failure with the
    link and the controllers unchanged, yet the tag it took from the pool of
    the link is gone: a retried request consumes one tag per attempt. *)
Theorem send_full_link_loses_tag h vc m r r' cub slid tag rest l :
  prepare h m r = Ret r' -> is_pim_inst r' = false ->
  cub = Z.shiftr (av_Vault (req_vec r')) (vaults_per_cub_bits (h_addressing h)) ->
  getCPURouteLink (h_topology h) cub = Ret slid ->
  at_ (m_pools m) slid = Ret (tag :: rest) -> tag <> -1 ->
  req_type r' = READ \/ req_type r' = WRITE ->
  cub < 2 ^ 4 -> req_addr r' < 2 ^ 38 -> tag < 2 ^ 11 -> slid < 2 ^ 6 ->
  lk (m_links m) !! slid = Some l -> slave_space l < request_lng h r' ->
  send h vc m r = Ret (false, with_pools m (<[Z.to_nat slid := rest]> (m_pools m))).
Proof.
  intros Hp Hpim -> Hslid Hpool Htag Hty Hc Ha Ht Hs Hl Hfull. unfold send. rewrite Hp. simpl. rewrite Hpim.
  unfold send_cpu, form_request_packet, assign_tag. rewrite Hslid. simpl. rewrite Hpool. simpl.
  apply at_ret_iff in Hpool as [Hs0 Hpool].
  assert (Hset : set_at (m_pools m) slid rest = Ret (<[Z.to_nat slid := rest]> (m_pools m))).
  { apply set_at_ret_iff. split; [|done]. apply lookup_lt_Some in Hpool. lia. }
  rewrite Hset. simpl.
  assert (Hcmd : exists cm, request_cmd (request_lng h r') (req_type r') = Ret cm)
    by (destruct Hty as [-> | ->]; simpl; eauto).
  destruct Hcmd as [cm ->]. simpl. unfold packet_asserts, valid. simpl. rewrite !Z.shiftl_1_l.
  rewrite !(proj2 (Z.ltb_lt _ _)) by done. simpl. rewrite (proj2 (Z.eqb_neq tag (-1)) Htag).
  unfold host_send, get_link. simpl. rewrite Hl. simpl.
  rewrite (proj2 (Z.leb_gt _ _)) by lia. done.
Qed.

(** A host over the two-node topology. *)
Definition demo_host : host :=
  mkHost two_nodes_topology 2 2 example_addressing 4 1 IDEAL_MEM_NETWORK_LOCALSTACK.

Definition demo_formed : outcome (Packet * tag_pools) :=
  form_request_packet demo_host (init_tags 1 1) (cpu_request 0x40 WRITE 0).
Definition demo_formed_packet : Packet :=
  match demo_formed with Ret (p, _) => p | Stop _ => tret_packet 0 end.
Definition demo_formed_pools : tag_pools :=
  match demo_formed with Ret (_, ps) => ps | Stop _ => [] end.

(** The source-mode link 0 with a full input buffer. *)
Definition full_link : Link :=
  mkLink HOST_SOURCE_MODE (mkMaster [] 0 32 0 0) (mkSlave 0 (replicate 32 (request_packet 0 0 0 1 0 RD16 (cpu_request 0 READ 0))) 32).
Definition full_memory : memory :=
  mkMemory [[5; 6]; []; []; []] (mkLinks {[0 := full_link]} ∅ []) [] 0 0 [].

Lemma send_full_link_loses_tag_witness :
  send demo_host demo_config full_memory (cpu_request 0x40 READ 0) =
  Ret (false, with_pools full_memory [[6]; []; []; []]).
Proof.
  eapply (send_full_link_loses_tag demo_host demo_config full_memory (cpu_request 0x40 READ 0) _
            0 0 5 [6] full_link);
    [vm_compute; reflexivity|reflexivity|reflexivity|reflexivity|reflexivity|discriminate
    |left; reflexivity|reflexivity|reflexivity|reflexivity|reflexivity|reflexivity|reflexivity].
Defined.

(** A request that the full link refuses keeps its tag; the next one takes the next tag. *)
Definition fresh_memory : memory := mkMemory (init_tags 2 2) (mkLinks {[0 := full_link]} ∅ []) [] 0 0 [].
Definition refused_memory : memory := with_pools fresh_memory (<[0%nat := tail (zrange (Z.to_nat max_tags))]> (init_tags 2 2)).
Definition refused_packet : Packet :=
  match formed demo_host fresh_memory (cpu_request 0x40 READ 0) with Ret (p, _) => p | Stop _ => tret_packet 0 end.

Lemma tags_accounted_witness :
  tag_of refused_packet = [(0, 0)] /\
  exists pool, m_pools refused_memory !! 0%nat = Some pool /\ head pool = Some 1 /\ pool ++ [0] ≡ₚ zrange (Z.to_nat max_tags).
Proof.
  split; [vm_compute; reflexivity|]. eexists. split; [reflexivity|]. split; [reflexivity|].
  refine (proj1 (proj1 (tags_accounted demo_host demo_config 2 2 refused_memory [] [] [refused_packet] _) 0%nat _ eq_refl)).
  apply (th_send demo_host demo_config 2 2 fresh_memory [] [] [] (cpu_request 0x40 READ 0) false refused_memory refused_packet (m_pools refused_memory));
    [apply th_start; reflexivity|vm_compute; reflexivity|vm_compute; reflexivity].
Defined.

(** A request for a write of n payload flits (1 <= n <= 7) is formed with
    the command of a write of n + 1 flits, and one of 8 or more payload flits
    other than 15 with [WR16]: the command table is indexed by the packet length
    instead of the payload length. *)
Theorem write_command_mismatch h ps r p ps' :
  form_request_packet h ps r = Ret (p, ps') -> req_type r = WRITE -> 1 <= h_payload_flits h ->
  h_payload_flits h <> 15 ->
  exists cm, pk_CMD p = Some cm /\ payload_flits p = h_payload_flits h /\
    cmd_bytes cm = (if h_payload_flits h <=? 7 then 16 * (h_payload_flits h + 1) else 16) /\
    cmd_bytes cm <> 16 * payload_flits p.
Proof.
  intros H Ht Hn Hn15. unfold form_request_packet in H. outcome_steps. destruct x0 as [tg ps0]. outcome_steps.
  match goal with H : packet_asserts _ = Ret _ |- _ => apply packet_asserts_ret in H as -> end.
  rewrite Ht in *. simpl in *. unfold request_lng in *. rewrite Ht in *. simpl in *. outcome_steps.
  eexists. split; [done|]. split; [lia|].
  replace (1 + h_payload_flits h - 1) with (h_payload_flits h) by lia. set (n := h_payload_flits h) in *.
  unfold write_cmd_map. destruct (n <=? 7) eqn:E; zb.
  - assert (Hc : n = 1 \/ n = 2 \/ n = 3 \/ n = 4 \/ n = 5 \/ n = 6 \/ n = 7) by lia.
    destruct Hc as [->|[->|[->|[->|[->|[->| ->]]]]]]; simpl; split; lia.
  - repeat (rewrite (proj2 (Z.eqb_neq _ _)) by lia). simpl. split; [done|lia].
Qed.

Lemma write_command_mismatch_witness :
  exists cm, pk_CMD demo_formed_packet = Some cm /\ payload_flits demo_formed_packet = 4 /\
    cmd_bytes cm = 80 /\ cmd_bytes cm <> 16 * payload_flits demo_formed_packet.
Proof.
  apply (write_command_mismatch demo_host (init_tags 1 1) (cpu_request 0x40 WRITE 0)
           demo_formed_packet demo_formed_pools);
    [vm_compute; reflexivity|reflexivity|discriminate|discriminate].
Defined.
