(* ===== verification/FlexiList.v ===== *)
(** * The intrusive singly linked list of the page allocator

    [FlexiList] of src/src/common/common_structures.h links its blocks through
    their own [next] fields.  The fields of all blocks are one store shared by
    all the lists, so an operation on one list can damage another; the theorems
    state the list each operation represents and what it leaves alone. *)

From S2P Require Import Prelude.

(** The [next] pointers: a block without an entry has [next == NULL]. *)
Abbreviation nexts := (gmap Z Z).

(** [fl_size] is an [int] in the code; as a number of [Z] it agrees with it for lists of
    fewer than 2^31 blocks, which for blocks of 4 KiB is 8 TiB of memory. *)
Record FlexiList : Type := mkFlexi {
  fl_head : option Z;
  fl_tail : option Z;
  fl_size : Z
}.

Definition emptyFlexi : FlexiList := mkFlexi None None 0.

Definition is_empty (f : FlexiList) : bool :=
  match fl_head f with Some _ => false | None => true end.

Definition get_size (f : FlexiList) : Z := fl_size f.

Definition clear (f : FlexiList) : FlexiList := emptyFlexi.

Definition get_head (f : FlexiList) : outcome Z :=
  match fl_head f with Some h => Ret h | None => Stop AssertFailed end.

Definition push_block_back (nx : nexts) (f : FlexiList) (block : Z) : outcome (nexts * FlexiList) :=
  match fl_head f with
  | None => Ret (delete block nx, mkFlexi (Some block) (Some block) (fl_size f + 1))
  | Some h =>
      let nx1 := if bool_decide (fl_head f = fl_tail f) then <[h := block]> nx else nx in
      match fl_tail f with
      | None => Stop NullDeref
      | Some t => Ret (delete block (<[t := block]> nx1), mkFlexi (Some h) (Some block) (fl_size f + 1))
      end
  end.

Definition fetch_head (nx : nexts) (f : FlexiList) : outcome (Z * nexts * FlexiList) :=
  match fl_head f with
  | None => Stop AssertFailed
  | Some h =>
      match nx !! h with
      | None => Ret (h, nx, mkFlexi None None (fl_size f - 1))
      | Some n => Ret (h, delete h nx, mkFlexi (Some n) (fl_tail f) (fl_size f - 1))
      end
  end.

(** The search of [fetch_block]: [cur] is [tmp_block], [pre] is [pre_block]. *)
Fixpoint fetch_block_loop (fuel : nat) (nx : nexts) (f : FlexiList) (wanted : Z) (pre cur : option Z)
  : outcome (Z * nexts * FlexiList) :=
  match fuel with
  | O => Stop OutOfFuel
  | S fuel =>
      match cur with
      | None => Stop AssertFailed
      | Some c =>
          if c =? wanted then
            if bool_decide (fl_head f = Some c) then
              let h := nx !! c in
              Ret (c, delete c nx,
                   mkFlexi h (match h with None => None | Some _ => fl_tail f end) (fl_size f - 1))
            else
              match pre with
              | None => Stop NullDeref
              | Some p =>
                  if bool_decide (fl_tail f = Some c) then
                    Ret (c, delete p nx, mkFlexi (fl_head f) (Some p) (fl_size f - 1))
                  else
                    let nx1 := match nx !! c with None => delete p nx | Some n => <[p := n]> nx end in
                    Ret (c, delete c nx1, mkFlexi (fl_head f) (fl_tail f) (fl_size f - 1))
              end
          else fetch_block_loop fuel nx f wanted cur (nx !! c)
      end
  end.

Definition fetch_block (fuel : nat) (nx : nexts) (f : FlexiList) (wanted : Z) : outcome (Z * nexts * FlexiList) :=
  match fl_head f with
  | None => Stop AssertFailed
  | Some h => fetch_block_loop fuel nx f wanted None (Some h)
  end.

Definition extend_back (nx : nexts) (f added : FlexiList) : outcome (nexts * FlexiList) :=
  if is_empty added then Ret (nx, f) else
  match fl_head f with
  | None => Ret (nx, mkFlexi (fl_head added) (fl_tail added) (fl_size f))
  | Some h =>
      match fl_tail f, fl_head added with
      | Some t, Some a => Ret (<[t := a]> nx, mkFlexi (Some h) (fl_tail added) (fl_size f + get_size added))
      | _, _ => Stop NullDeref
      end
  end.

(** ** The list a structure represents *)

Fixpoint chain (nx : nexts) (l : list Z) : Prop :=
  match l with
  | [] => True
  | x :: l => nx !! x = head l /\ chain nx l
  end.

Record rep (nx : nexts) (f : FlexiList) (l : list Z) : Prop := {
  rep_head : fl_head f = head l;
  rep_tail : fl_tail f = last l;
  rep_size : fl_size f = Z.of_nat (length l);
  rep_chain : chain nx l;
  rep_nodup : NoDup l
}.

(** The [next] fields of the blocks outside [l] are the same in both stores. *)
Definition same_outside (l : list Z) (nx nx' : nexts) : Prop := forall x, x ∉ l -> nx' !! x = nx !! x.

Lemma chain_ext nx nx' l : (forall x, x ∈ l -> nx' !! x = nx !! x) -> chain nx l -> chain nx' l.
Proof.
  induction l as [|x l IH]; simpl; [done|]. intros Hx [H1 H2]. split.
  - rewrite Hx; [done|constructor].
  - apply IH; [|done]. intros y Hy. apply Hx. by constructor.
Qed.

(** A list is not affected by operations on blocks it does not hold. *)
Lemma rep_frame nx nx' f l k : same_outside k nx nx' -> l ## k -> rep nx f l -> rep nx' f l.
Proof.
  intros Hs Hd [? ? ? Hc ?]. split; try done. eapply chain_ext; [|exact Hc].
  intros x Hx. apply Hs. set_solver.
Qed.

Lemma rep_empty nx : rep nx emptyFlexi [].
Proof. split; simpl; [done..|constructor]. Qed.

Lemma rep_is_empty nx f l : rep nx f l -> (get_size f =? 0) = bool_decide (l = []).
Proof.
  intros [_ _ Hs _ _]. unfold get_size. rewrite Hs. destruct l; case_bool_decide; simpl; try done; lia.
Qed.

Lemma head_last_eq (x : Z) l : NoDup (x :: l) -> last (x :: l) = Some x -> l = [].
Proof.
  intros Hn Hl. destruct l as [|y l]; [done|]. rewrite last_cons_cons in Hl.
  apply last_Some_elem_of in Hl. apply NoDup_cons in Hn as [Hn _]. done.
Qed.

Lemma chain_snoc nx l t b :
  last l = Some t -> NoDup l -> b ∉ l -> chain nx l -> chain (delete b (<[t := b]> nx)) (l ++ [b]).
Proof.
  induction l as [|x l IH]; simpl; [done|]. intros Hl Hn Hb [Hx Hc].
  apply NoDup_cons in Hn as [Hxl Hn]. destruct l as [|y l].
  - simpl in Hl. injection Hl as ->. assert (b <> t) by set_solver. simpl.
    rewrite lookup_delete_ne by done. rewrite lookup_insert_eq, lookup_delete_eq. done.
  - rewrite last_cons_cons in Hl. split.
    + rewrite lookup_delete_ne by set_solver. rewrite lookup_insert_ne; [done|].
      intros ->. apply last_Some_elem_of in Hl. done.
    + apply IH; [done..|set_solver|done].
Qed.

Lemma push_block_back_rep nx f l b :
  rep nx f l -> b ∉ l ->
  exists nx' f', push_block_back nx f b = Ret (nx', f') /\ rep nx' f' (l ++ [b]) /\
    same_outside (b :: l) nx nx'.
Proof.
  intros [Hh Ht Hs Hc Hn] Hb. unfold push_block_back. rewrite Hh, Ht.
  destruct l as [|x l].
  - simpl. eexists _, _. split; [done|]. split.
    + split; simpl; [done|done|simpl in Hs; lia| |apply NoDup_singleton].
      by rewrite lookup_delete_eq.
    + intros y Hy. rewrite lookup_delete_ne; [done|set_solver].
  - destruct (last (x :: l)) as [t|] eqn:El; [|by apply last_None in El]. cbn [head]. cbv beta iota zeta.
    set (nx1 := if bool_decide (Some x = Some t) then <[x := b]> nx else nx).
    assert (E : <[t := b]> nx1 = <[t := b]> nx).
    { subst nx1. case_bool_decide as Hd; [|done]. injection Hd as <-. by rewrite insert_insert_eq. }
    rewrite E. eexists _, _. split; [done|]. split.
    + split; cbn [fl_head fl_tail fl_size].
      * done.
      * by rewrite last_snoc.
      * rewrite length_app. simpl in *. lia.
      * by apply chain_snoc.
      * apply NoDup_app. split_and!; [done| |apply NoDup_singleton]. set_solver.
    + intros y Hy. apply last_Some_elem_of in El.
      rewrite lookup_delete_ne, lookup_insert_ne; [done|set_solver|set_solver].
Qed.

Lemma fetch_head_rep nx f x l :
  rep nx f (x :: l) ->
  exists nx' f', fetch_head nx f = Ret (x, nx', f') /\ rep nx' f' l /\ same_outside [x] nx nx'.
Proof.
  intros [Hh Ht Hs [Hx Hc] Hn]. unfold fetch_head. rewrite Hh. cbn [head]. cbv beta iota.
  apply NoDup_cons in Hn as [Hxl Hn]. rewrite Hx. destruct l as [|y l]; cbn [head]; cbv beta iota.
  - eexists _, _. split; [done|]. split; [split; simpl; [done..|simpl in Hs; lia|done|done]|done].
  - eexists _, _. split; [done|]. split.
    + split; cbn [fl_head fl_tail fl_size]; [done|by rewrite Ht|simpl in *; lia| |done].
      eapply chain_ext; [|exact Hc]. intros z Hz. rewrite lookup_delete_ne; [done|set_solver].
    + intros z Hz. rewrite lookup_delete_ne; [done|set_solver].
Qed.

Lemma fetch_head_empty nx f : rep nx f [] -> fetch_head nx f = Stop AssertFailed.
Proof. intros [Hh _ _ _ _]. unfold fetch_head. by rewrite Hh. Qed.

Lemma filter_absent (w : Z) (l : list Z) : w ∉ l -> filter (fun x => x <> w) l = l.
Proof.
  induction l as [|x l IH]; intros Hw; [done|].
  rewrite filter_cons_True by set_solver. f_equal. apply IH. set_solver.
Qed.

Lemma chain_relink nx nx' l0 p c l2 :
  chain nx (l0 ++ p :: c :: l2) -> nx' !! p = head l2 ->
  (forall x, x ∈ l0 \/ x ∈ l2 -> nx' !! x = nx !! x) -> chain nx' (l0 ++ p :: l2).
Proof.
  induction l0 as [|x l0 IH]; simpl.
  - intros (_ & _ & Hc) Hp Ha. split; [done|]. eapply chain_ext; [|exact Hc]. naive_solver.
  - intros [Hx Hc] Hp Ha. split; [|apply IH; [done..|set_solver]].
    rewrite Ha by set_solver. rewrite Hx. by destruct l0.
Qed.

Lemma fetch_first nx f c l2 :
  rep nx f (c :: l2) ->
  rep (delete c nx) (mkFlexi (nx !! c) (match nx !! c with None => None | Some _ => fl_tail f end) (fl_size f - 1)) l2.
Proof.
  intros [_ Ht Hs [Hx Hc] Hn]. apply NoDup_cons in Hn as [Hcl Hn]. split; cbn [fl_head fl_tail fl_size].
  - done.
  - rewrite Hx. destruct l2; simpl; [done|]. by rewrite Ht.
  - simpl in Hs. lia.
  - eapply chain_ext; [|exact Hc]. intros z Hz. rewrite lookup_delete_ne; [done|set_solver].
  - done.
Qed.

Lemma fetch_last nx f l0 p c :
  rep nx f (l0 ++ [p; c]) -> rep (delete p nx) (mkFlexi (fl_head f) (Some p) (fl_size f - 1)) (l0 ++ [p]).
Proof.
  intros [Hh Ht Hs Hc Hn]. split; cbn [fl_head fl_tail fl_size].
  - rewrite Hh. by destruct l0.
  - by rewrite last_snoc.
  - rewrite Hs, !length_app. simpl. lia.
  - apply (chain_relink nx _ l0 p c []); [done|by rewrite lookup_delete_eq|].
    intros x Hx. rewrite lookup_delete_ne; [done|]. apply NoDup_app in Hn as (_ & Hd & _). set_solver.
  - apply NoDup_app in Hn as (H1 & H2 & H3). apply NoDup_app. split_and!; [done|set_solver|apply NoDup_singleton].
Qed.

Lemma fetch_middle nx f l0 p c n l2 :
  rep nx f (l0 ++ p :: c :: n :: l2) ->
  rep (delete c (<[p := n]> nx)) (mkFlexi (fl_head f) (fl_tail f) (fl_size f - 1)) (l0 ++ p :: n :: l2).
Proof.
  intros [Hh Ht Hs Hc Hn]. assert (Hn' : NoDup (l0 ++ p :: n :: l2) /\ (p <> c) /\ (p ∉ (l0 ++ n :: l2)) /\ (c ∉ (l0 ++ n :: l2))).
  { apply NoDup_app in Hn as (H1 & H2 & H3). rewrite !NoDup_cons in H3. destruct H3 as (H3 & H4 & H5 & H6).
    rewrite NoDup_app, !NoDup_cons. split_and!; try done; set_solver. }
  destruct Hn' as (Hn' & Hpc & Hp & Hcn). split; cbn [fl_head fl_tail fl_size].
  - rewrite Hh. by destruct l0.
  - rewrite Ht, !last_app. done.
  - rewrite Hs, !length_app. simpl. lia.
  - apply (chain_relink nx _ l0 p c (n :: l2)); [done| |].
    + by rewrite lookup_delete_ne, lookup_insert_eq.
    + intros x Hx. rewrite lookup_delete_ne, lookup_insert_ne by set_solver. done.
  - done.
Qed.

(** The block is found where it is, after at most one step per block of the list. *)
Lemma fetch_block_loop_rep fuel nx f wanted l1 l2 :
  rep nx f (l1 ++ l2) -> (length l2 < fuel)%nat -> wanted ∉ l1 ->
  (wanted ∈ l2 -> exists nx' f', fetch_block_loop fuel nx f wanted (last l1) (head l2) = Ret (wanted, nx', f') /\
     rep nx' f' (filter (fun x => x <> wanted) (l1 ++ l2)) /\ same_outside (l1 ++ l2) nx nx') /\
  (wanted ∉ l2 -> fetch_block_loop fuel nx f wanted (last l1) (head l2) = Stop AssertFailed).
Proof.
  revert fuel l1. induction l2 as [|c l2 IH]; intros fuel l1 Hr Hf Hw.
  { split; [set_solver|]. destruct fuel; [simpl in Hf; lia|done]. }
  destruct fuel as [|fuel]; [simpl in Hf; lia|]. cbn [fetch_block_loop head].
  assert (Hx : nx !! c = head l2).
  { destruct Hr as [_ _ _ Hc _]. clear -Hc. induction l1 as [|x l1 IH]; simpl in Hc; naive_solver. }
  destruct (Z.eqb_spec c wanted) as [->|Hne].
  2:{ rewrite Hx. replace (Some c) with (last (l1 ++ [c])) by apply last_snoc.
      rewrite (cons_middle c l1 l2) in *. rewrite app_assoc in *.
      destruct (IH fuel (l1 ++ [c])) as [IH1 IH2]; [done|simpl in Hf; lia|set_solver|].
      split; intros Hm; [apply IH1|apply IH2]; set_solver. }
  split; [intros _|set_solver].
  assert (Hfl : filter (fun x => x <> wanted) (l1 ++ wanted :: l2) = l1 ++ l2).
  { destruct Hr as [_ _ _ _ Hn]. rewrite NoDup_app, NoDup_cons in Hn. rewrite filter_app, filter_cons_False by naive_solver.
    rewrite !filter_absent; [done|naive_solver|done]. }
  rewrite Hfl. clear Hfl IH Hf. destruct l1 as [|p l0 _] using rev_ind.
  - rewrite bool_decide_true by apply Hr. eexists _, _. split; [done|]. split; [by apply fetch_first|].
    intros x Hx'. rewrite lookup_delete_ne; [done|set_solver].
  - rewrite last_snoc. rewrite <- app_assoc in *. cbn [app] in *. rewrite bool_decide_false.
    2:{ rewrite (rep_head _ _ _ Hr). destruct l0; simpl; set_solver. }
    destruct l2 as [|n l2].
    + rewrite bool_decide_true by (rewrite (rep_tail _ _ _ Hr), last_app; done).
      eexists _, _. split; [done|]. split; [by apply (fetch_last _ _ _ _ wanted)|].
      intros x Hx'. rewrite lookup_delete_ne; [done|set_solver].
    + rewrite bool_decide_false.
      2:{ rewrite (rep_tail _ _ _ Hr), last_app. pose proof (rep_nodup _ _ _ Hr) as Hn.
          rewrite !last_cons_cons. intros E. destruct (last (n :: l2)) eqn:El; [|by apply last_None in El].
          apply last_Some_elem_of in El. rewrite NoDup_app, !NoDup_cons in Hn. naive_solver. }
      rewrite Hx. cbn [head]. eexists _, _. split; [done|]. split; [by apply fetch_middle|].
      intros x Hx'. rewrite lookup_delete_ne, lookup_insert_ne by set_solver. done.
Qed.

(** On a structure that represents the list [l], whatever other lists share
    the [next] fields: [push_block_back] of a block outside the list represents
    [l ++ [b]]; [fetch_head] returns and removes the first block, or fails its
    assert when there is none; [fetch_block] with fuel above the length removes
    exactly the wanted block, or fails its assert when it is absent; and none of
    them writes the [next] field of a block outside the list. *)
Theorem flexi_list_refines nx f l :
  rep nx f l ->
  (forall b, b ∉ l -> exists nx' f', push_block_back nx f b = Ret (nx', f') /\
     rep nx' f' (l ++ [b]) /\ same_outside (b :: l) nx nx') /\
  match l with
  | [] => fetch_head nx f = Stop AssertFailed
  | x :: k => exists nx' f', fetch_head nx f = Ret (x, nx', f') /\ rep nx' f' k /\ same_outside [x] nx nx'
  end /\
  (forall fuel w, (length l < fuel)%nat ->
     if bool_decide (w ∈ l)
     then exists nx' f', fetch_block fuel nx f w = Ret (w, nx', f') /\
       rep nx' f' (filter (fun x => x <> w) l) /\ same_outside l nx nx'
     else fetch_block fuel nx f w = Stop AssertFailed).
Proof.
  intros Hr. split_and!.
  - intros b Hb. by apply push_block_back_rep.
  - destruct l; [by apply fetch_head_empty|by apply fetch_head_rep].
  - intros fuel w Hf. destruct (fetch_block_loop_rep fuel nx f w [] l) as [H1 H2]; [done|done|set_solver|].
    unfold fetch_block. rewrite (rep_head _ _ _ Hr) in *. destruct l as [|x l].
    { rewrite bool_decide_false by set_solver. done. }
    cbn [head last] in *. case_bool_decide; auto.
Qed.

Definition demo_flexi : outcome (nexts * FlexiList) :=
  '(nx, f) ← push_block_back ∅ emptyFlexi 4; '(nx, f) ← push_block_back nx f 7; push_block_back nx f 2.

Lemma flexi_list_refines_witness :
  rep {[4 := 7; 7 := 2]} (mkFlexi (Some 4) (Some 2) 3) [4; 7; 2] /\
  demo_flexi = Ret ({[4 := 7; 7 := 2]}, mkFlexi (Some 4) (Some 2) 3) /\
  exists nx' f', fetch_block 4 {[4 := 7; 7 := 2]} (mkFlexi (Some 4) (Some 2) 3) 7 = Ret (7, nx', f') /\ rep nx' f' [4; 2].
Proof.
  assert (R : rep {[4 := 7; 7 := 2]} (mkFlexi (Some 4) (Some 2) 3) [4; 7; 2]).
  { split; [done..|by repeat split|]. repeat constructor; set_solver. }
  split; [exact R|]. split; [vm_compute; reflexivity|].
  destruct (flexi_list_refines _ _ _ R) as (_ & _ & H).
  destruct (H 4%nat 7 ltac:(simpl; lia)) as (nx' & f' & H1 & H2 & _). exists nx', f'. by split.
Defined.

(** [extend_back] of a non-empty list onto an empty one takes over its blocks
    but not its size: [get_size] answers 0 for a list that represents blocks. *)
Theorem extend_back_loses_size nx g l :
  rep nx g l -> l <> [] ->
  exists f', extend_back nx emptyFlexi g = Ret (nx, f') /\ get_size f' = 0 /\
    fl_head f' = head l /\ fl_tail f' = last l /\ chain nx l.
Proof.
  intros [Hh Ht Hs Hc Hn] Hl. unfold extend_back, is_empty. rewrite Hh. destruct l; [done|].
  cbn [head]. eexists. split; [done|]. simpl fl_head. rewrite Ht. done.
Qed.

Lemma extend_back_loses_size_witness :
  exists f', extend_back {[4 := 7]} emptyFlexi (mkFlexi (Some 4) (Some 7) 2) = Ret ({[4 := 7]}, f') /\ get_size f' = 0.
Proof.
  destruct (extend_back_loses_size {[4 := 7]} (mkFlexi (Some 4) (Some 7) 2) [4; 7]) as (f' & H1 & H2 & _).
  - split; [done..|by repeat split|]. repeat constructor; set_solver.
  - done.
  - by exists f'.
Defined.
