(* ===== verification/Buddy.v ===== *)
(** * The page allocator: memory node, zones and buddy lists

    [Page] (src/src/mmu/page.h), [Zone] and [MemoryNode] (src/src/mmu/zone.h,
    zone.cpp), the page helpers of src/src/mmu/common_memory_ops.h and
    [BuddyAllocator] (src/src/mmu/memory_management.h, .cpp).  The [next] fields
    of the pages are the store of [FlexiList]; a field the constructor leaves
    uninitialised is an [option], and reading it before a write is [Undefined].
    The watermarks of the zones ([setup_per_zone_wmarks], floating point) are
    written and never read; they are left out, and so are the lock calls. *)

From S2P Require Import Prelude Bits FlexiList.

Definition MAXORDER : nat := 11.
Definition PAGE_BUDDY_MAPCOUNT_VALUE : Z := -128.
Definition GFP_DMA : Z := 0x01.
Definition GFP_HighMem : Z := 0x02.
Definition GFP_DMA32 : Z := 0x04.
Definition GFP_COLD : Z := 0x08.

(** The zone and the node of a page are set together when it is allocated; the
    machine has one node, so [p_zone] stands for both pointers. *)
Record Page : Type := mkPage {
  pcount : Z;
  map_count : Z;
  p_zone : option ZoneType;
  private_ : option Z
}.

Definition newPage : Page := mkPage 0 (-1) None None.

Record FreeArea : Type := mkArea { block_list : FlexiList; nr_free : Z }.

(** [low] is never assigned. *)
Record PerCpuPages : Type := mkPcp {
  pcp_count : Z;
  pcp_low : option Z;
  pcp_high : Z;
  pcp_batch : Z;
  page_list : list Z
}.

(** [page_set]: per core the hot ([pcp[0]]) and the cold ([pcp[1]]) pages. *)
Record Zone : Type := mkZone {
  zone_type : ZoneType;
  zone_start_pfn : Z;
  free_pages : Z;
  free_area : list FreeArea;
  page_set : list (PerCpuPages * PerCpuPages)
}.

(** The descriptors of the node: created on first use by [get_page_ptr]. *)
Record node_mem : Type := mkNode {
  node_page_num : Z;
  node_mem_map : gmap Z Page;
  next : gmap Z Z
}.

Definition set_pages (n : node_mem) (m : gmap Z Page) : node_mem := mkNode (node_page_num n) m (next n).
Definition set_next (n : node_mem) (nx : gmap Z Z) : node_mem := mkNode (node_page_num n) (node_mem_map n) nx.
Definition set_free_area (z : Zone) (l : list FreeArea) : Zone :=
  mkZone (zone_type z) (zone_start_pfn z) (free_pages z) l (page_set z).
Definition set_free_pages (z : Zone) (x : Z) : Zone :=
  mkZone (zone_type z) (zone_start_pfn z) x (free_area z) (page_set z).
Definition set_page_set (z : Zone) (l : list (PerCpuPages * PerCpuPages)) : Zone :=
  mkZone (zone_type z) (zone_start_pfn z) (free_pages z) (free_area z) l.

(** ** Page descriptors *)

Definition get_page_ptr (n : node_mem) (page_id : Z) : outcome (Page * node_mem) :=
  _ ← assert_ (page_id <? node_page_num n);
  match node_mem_map n !! page_id with
  | Some p => Ret (p, n)
  | None => Ret (newPage, set_pages n (<[page_id := newPage]> (node_mem_map n)))
  end.

Definition update_page (n : node_mem) (page_id : Z) (f : Page -> Page) : outcome node_mem :=
  '(p, n) ← get_page_ptr n page_id;
  Ret (set_pages n (<[page_id := f p]> (node_mem_map n))).

Definition set_page_buddy (n : node_mem) (page_id : Z) : outcome node_mem :=
  update_page n page_id (fun p => mkPage (pcount p) PAGE_BUDDY_MAPCOUNT_VALUE (p_zone p) (private_ p)).

Definition clear_page_buddy (n : node_mem) (page_id : Z) : outcome node_mem :=
  update_page n page_id (fun p => mkPage (pcount p) (-1) (p_zone p) (private_ p)).

Definition set_page_private (n : node_mem) (page_id order : Z) : outcome node_mem :=
  update_page n page_id (fun p => mkPage (pcount p) (map_count p) (p_zone p) (Some order)).

Definition set_page_order (n : node_mem) (page_id order : Z) : outcome node_mem :=
  n ← set_page_private n page_id order; set_page_buddy n page_id.

(** ** Free lists *)

(** [free_area[order]] replaced by [f] of it. *)
Definition update_area (z : Zone) (order : nat) (f : FreeArea -> FreeArea) : outcome Zone :=
  match free_area z !! order with
  | None => Stop OutOfRange
  | Some a => Ret (set_free_area z (<[order := f a]> (free_area z)))
  end.

(** [free_area[order].block_list->push_block_back(mem_node->get_page_ptr(id))]. *)
Definition push_block (n : node_mem) (z : Zone) (order : nat) (id : Z) : outcome (node_mem * Zone) :=
  '(_, n) ← get_page_ptr n id;
  match free_area z !! order with
  | None => Stop OutOfRange
  | Some a =>
      '(nx, f) ← push_block_back (next n) (block_list a) id;
      Ret (set_next n nx, set_free_area z (<[order := mkArea f (nr_free a)]> (free_area z)))
  end.

(** The inner loop of [free_area_init_zone]: [count] blocks from [page_index]. *)
Fixpoint push_blocks (n : node_mem) (z : Zone) (order : nat) (count : nat) (page_index : Z)
  : outcome (node_mem * Zone) :=
  match count with
  | O => Ret (n, z)
  | S count =>
      '(n, z) ← push_block n z order page_index;
      push_blocks n z order count (page_index + Z.shiftl 1 (Z.of_nat order))
  end.

(** The outer loop, from order [i] down to order 1. *)
Fixpoint init_orders (i : nat) (n : node_mem) (z : Zone) (page_index page_number : Z)
  : outcome (node_mem * Zone) :=
  match i with
  | O => Ret (n, z)
  | S i' =>
      if negb (0 <? page_number) then Ret (n, z) else
      let max_block_num := page_number / Z.shiftl 1 (Z.of_nat i) in
      if 0 <? max_block_num then
        z ← update_area z i (fun a => mkArea (block_list a) max_block_num);
        '(n, z) ← push_blocks n z i (Z.to_nat max_block_num) page_index;
        init_orders i' n z (page_index + max_block_num * Z.shiftl 1 (Z.of_nat i))
          (page_number - max_block_num * Z.shiftl 1 (Z.of_nat i))
      else init_orders i' n z page_index page_number
  end.

Definition free_area_init_zone (n : node_mem) (z : Zone) : outcome (node_mem * Zone) :=
  let z := set_free_area z (replicate (MAXORDER + 1) (mkArea emptyFlexi 0)) in
  init_orders MAXORDER n z (zone_start_pfn z) (free_pages z).

(** ** Allocation *)

(** [expand]: [high] is [high_order], [size] the size of the block before the
    first halving; the loop runs while [low_order < high_order]. *)
Fixpoint expand_loop (n : node_mem) (z : Zone) (page_id : Z) (low_order high : nat) (size : Z)
  : outcome (node_mem * Zone) :=
  match high with
  | O => Ret (n, z)
  | S high =>
      if (low_order <? S high)%nat then
        let size := Z.shiftr size 1 in
        let new_page_id := page_id + size in
        '(n, z) ← push_block n z high new_page_id;
        z ← update_area z high (fun a => mkArea (block_list a) (u64 (nr_free a + 1)));
        n ← set_page_order n new_page_id (Z.of_nat high);
        expand_loop n z page_id low_order high size
      else Ret (n, z)
  end.

Definition expand (n : node_mem) (z : Zone) (page_id : Z) (low_order high_order : nat) : outcome (node_mem * Zone) :=
  expand_loop n z page_id low_order high_order (Z.shiftl 1 (Z.of_nat high_order)).

(** The loop of [rmqueue_page_smallest] from [current_order]; [todo] is the
    number of orders left up to [MAXORDER].  [fpn] is [free_page_num]. *)
Fixpoint rmqueue_loop (n : node_mem) (z : Zone) (fpn : Z) (order current_order todo : nat)
  : outcome (option Z * node_mem * Zone * Z) :=
  match todo with
  | O => Ret (None, n, z, fpn)
  | S todo =>
      match free_area z !! current_order with
      | None => Stop OutOfRange
      | Some a =>
          if get_size (block_list a) =? 0 then rmqueue_loop n z fpn order (S current_order) todo
          else
            '(page, nx, f) ← fetch_head (next n) (block_list a);
            let n := set_next n nx in
            n ← update_page n page (fun _ => mkPage 1 (-1) (Some (zone_type z)) (Some 0));
            let z := set_free_area z (<[current_order := mkArea f (u64 (nr_free a - 1))]> (free_area z)) in
            let z := set_free_pages z (u64 (free_pages z - Z.shiftr 1 (Z.of_nat order))) in
            let fpn := u64 (fpn - Z.shiftl 1 (Z.of_nat order)) in
            '(n, z) ← expand n z page order current_order;
            Ret (Some page, n, z, fpn)
      end
  end.

Definition rmqueue_page_smallest (n : node_mem) (z : Zone) (fpn : Z) (order : nat)
  : outcome (option Z * node_mem * Zone * Z) :=
  rmqueue_loop n z fpn order order (S MAXORDER - order).

(** [BuddyAllocator::allocate_pages(Zone*, unsigned)]. *)
Definition allocate_pages_zone (n : node_mem) (z : Zone) (fpn : Z) (order : nat)
  : outcome (option Z * node_mem * Zone * Z) :=
  rmqueue_page_smallest n z fpn order.

(** ** Freeing *)

Definition find_buddy_index (page_no : Z) (order : nat) : Z := Z.lxor page_no (Z.shiftl 1 (Z.of_nat order)).

(** Reads of [private_], [node] and [zone] before they are assigned stop. *)
Definition page_is_buddy (n : node_mem) (page_id buddy_id : Z) (order : nat) : outcome (bool * node_mem) :=
  '(b, n) ← get_page_ptr n buddy_id;
  match private_ b with
  | None => Stop Undefined
  | Some o =>
      if negb (o =? Z.of_nat order) then Ret (false, n) else
      '(p, n) ← get_page_ptr n page_id;
      '(b, n) ← get_page_ptr n buddy_id;
      match p_zone p, p_zone b with
      | Some zp, Some zb => Ret (bool_decide (zp = zb), n)
      | _, _ => Stop Undefined
      end
  end.

(** The [while (order < MAXORDER-1)] loop; [todo] is [MAXORDER-1-order]. *)
Fixpoint free_loop (n : node_mem) (z : Zone) (page_no page_id : Z) (order todo : nat)
  : outcome (node_mem * Zone * Z * nat) :=
  match todo with
  | O => Ret (n, z, page_id, order)
  | S todo =>
      let buddy_id := find_buddy_index page_id order in
      '(is_buddy, n) ← page_is_buddy n page_no buddy_id order;
      if negb is_buddy then Ret (n, z, page_id, order) else
      z ← update_area z order (fun a => mkArea (block_list a) (u64 (nr_free a - 1)));
      n ← clear_page_buddy n buddy_id;
      n ← set_page_private n buddy_id 0;
      free_loop n z page_no (Z.land buddy_id page_no) (S order) todo
  end.

Definition free_one_page (n : node_mem) (z : Zone) (page_no : Z) (order : nat) : outcome (node_mem * Zone) :=
  let page_id := Z.land page_no (Z.shiftl 1 (Z.of_nat MAXORDER) - 1) in
  '(n, z, page_id, order) ← free_loop n z page_no page_id order (MAXORDER - 1 - order);
  n ← set_page_order n page_id (Z.of_nat order);
  z ← update_area z order (fun a => mkArea (block_list a) (u64 (nr_free a + 1)));
  Ret (n, z).

(** ** Per-cpu page lists *)

Definition set_pcp (p : PerCpuPages) (count : Z) (l : list Z) : PerCpuPages :=
  mkPcp count (pcp_low p) (pcp_high p) (pcp_batch p) l.

(** [get_cpu_cold_pages] or [get_cpu_hot_pages], and the update through the pointer. *)
Definition get_cpu_pages (z : Zone) (cpu_id : Z) (cold : bool) : outcome PerCpuPages :=
  '(hot, cld) ← at_ (page_set z) cpu_id; Ret (if cold then cld else hot).

Definition put_cpu_pages (z : Zone) (cpu_id : Z) (cold : bool) (p : PerCpuPages) : outcome Zone :=
  '(hot, cld) ← at_ (page_set z) cpu_id;
  l ← set_at (page_set z) cpu_id (if cold then (hot, p) else (p, cld));
  Ret (set_page_set z l).

(** [free_pcppages_bulk]: at most [count] pages of the list are freed. *)
Fixpoint free_pcppages_bulk (n : node_mem) (z : Zone) (count : nat) (p : PerCpuPages)
  : outcome (node_mem * Zone * PerCpuPages) :=
  match count, page_list p with
  | S count, page :: l =>
      let p := set_pcp p (u32 (pcp_count p + 1)) l in
      '(n, z) ← free_one_page n z page 0;
      free_pcppages_bulk n z count p
  | _, _ => Ret (n, z, p)
  end.

(** [allocate_bulk]: the number of pages allocated and the extended list. *)
Fixpoint allocate_bulk (n : node_mem) (z : Zone) (fpn : Z) (order count : nat) (l : list Z)
  : outcome (Z * node_mem * Zone * Z * list Z) :=
  match count with
  | O => Ret (0, n, z, fpn, l)
  | S count =>
      '(page, n, z, fpn) ← allocate_pages_zone n z fpn order;
      match page with
      | None => Ret (0, n, z, fpn, l)
      | Some page =>
          '(i, n, z, fpn, l) ← allocate_bulk n z fpn order count (l ++ [page]);
          Ret (i + 1, n, z, fpn, l)
      end
  end.

(** The refill of [buffered_rmqueue] for an order-0 request. *)
Definition refill (n : node_mem) (z : Zone) (fpn : Z) (p : PerCpuPages)
  : outcome (node_mem * Zone * Z * PerCpuPages) :=
  match page_list p with
  | [] =>
      '(i, n, z, fpn, l) ← allocate_bulk n z fpn 0 (Z.to_nat (pcp_batch p)) [];
      Ret (n, z, fpn, set_pcp p (u32 (pcp_count p + i)) l)
  | _ =>
      match pcp_low p with
      | None => Stop Undefined
      | Some low =>
          if pcp_count p <=? low then
            '(i, n, z, fpn, l) ← allocate_bulk n z fpn 0 (Z.to_nat (u32 (pcp_batch p - pcp_count p))) (page_list p);
            Ret (n, z, fpn, set_pcp p (u32 (pcp_count p + i)) l)
          else Ret (n, z, fpn, p)
      end
  end.

Definition buffered_rmqueue (n : node_mem) (z : Zone) (fpn : Z) (gfp_mask : Z) (order : nat) (cpu_id : Z)
  : outcome (option Z * node_mem * Zone * Z) :=
  let cold := negb (Z.land gfp_mask GFP_COLD =? 0) in
  if (order =? 0)%nat then
    p ← get_cpu_pages z cpu_id cold;
    '(n, z, fpn, p) ← refill n z fpn p;
    match page_list p with
    | page :: _ =>
        z ← put_cpu_pages z cpu_id cold (set_pcp p (u32 (pcp_count p - 1)) (page_list p));
        Ret (Some page, n, z, fpn)
    | [] =>
        z ← put_cpu_pages z cpu_id cold p;
        allocate_pages_zone n z fpn order
    end
  else allocate_pages_zone n z fpn order.

(** [free_hot_cold_page]: the page goes to the end of the list of the cpu; a list
    above its bound gives a batch back. *)
Definition free_hot_cold_page (n : node_mem) (z : Zone) (page cpu_id : Z) (cold : bool) : outcome (node_mem * Zone) :=
  p ← get_cpu_pages z cpu_id cold;
  let p := set_pcp p (u32 (pcp_count p + 1)) (page_list p ++ [page]) in
  if pcp_high p <? pcp_count p then
    '(n, z, p) ← free_pcppages_bulk n z (Z.to_nat (pcp_batch p)) p;
    z ← put_cpu_pages z cpu_id cold (set_pcp p (u32 (pcp_count p - pcp_batch p)) (page_list p));
    Ret (n, z)
  else
    z ← put_cpu_pages z cpu_id cold p;
    Ret (n, z).

(** ** Zones of the node *)

(** [zinfo]: the configured upper page number of each zone and the page size. *)
Record mem_config : Type := mkMemConfig {
  max_zone_pfns : list Z;
  page_size : Z;
  page_shift : Z;
  percpu_pagelist_fraction : Z;
  numCores : nat
}.

Definition zone_batchsize (mc : mem_config) (free_pages : Z) : Z :=
  let batch := i32 (Z.shiftr free_pages 10) in
  let batch := if 512 * 1024 <? u64 (batch * page_size mc) then i32 (512 * 1024 / page_size mc)
               else Z.quot batch 4 in
  let batch := if batch <? 1 then 1 else batch in
  u32 (log2_u16 (u16 (batch + batch / 2)) - 1).

Definition zone_pageset_init (mc : mem_config) (free_pages : Z) : PerCpuPages * PerCpuPages :=
  if negb (percpu_pagelist_fraction mc =? 0) then
    let high := u32 (free_pages / u64 (percpu_pagelist_fraction mc)) in
    let batch := Max 1 (high / 4) in
    let batch := if u64 (page_shift mc * 8) <? high / 4 then u32 (page_shift mc * 8) else batch in
    (mkPcp 0 None high batch [], mkPcp 0 None (u32 (2 * batch)) batch [])
  else
    let batch := zone_batchsize mc free_pages in
    let high := u32 (6 * batch) in
    let batch := Max 1 batch in
    (mkPcp 0 None high batch [], mkPcp 0 None (u32 (2 * batch)) (Max 1 (batch / 2)) []).

Definition setup_zone_pageset (mc : mem_config) (free_pages : Z) : list (PerCpuPages * PerCpuPages) :=
  replicate (numCores mc) (zone_pageset_init mc free_pages).

Definition newZone (mc : mem_config) (type : ZoneType) (start_pfn end_pfn : Z) : outcome Zone :=
  _ ← assert_ (start_pfn <? end_pfn);
  let free := u64 (end_pfn - start_pfn) in
  Ret (mkZone type start_pfn free [] (setup_zone_pageset mc free)).

(** [zone_lowest_possible] and [zone_highest_possible], from the first zone on. *)
Fixpoint zone_bounds (lowest : Z) (pfns : list Z) : list (Z * Z) :=
  match pfns with
  | [] => []
  | p :: pfns => let highest := Max p lowest in (lowest, highest) :: zone_bounds highest pfns
  end.

(** The first zone ends at its configured bound, without the maximum. *)
Definition node_bounds (node_start_pfn : Z) (pfns : list Z) : list (Z * Z) :=
  match pfns with
  | [] => []
  | p :: pfns => (node_start_pfn, p) :: zone_bounds p pfns
  end.

Definition calculate_total_pages (bounds : list (Z * Z)) : outcome Z :=
  fold_ (fun total '(lo, hi) => _ ← assert_ (lo <=? hi); Ret (u64 (total + u64 (hi - lo)))) bounds 0.

Definition zone_of_index (i : nat) : ZoneType :=
  match i with 0%nat => Zone_DMA | 1%nat => Zone_DMA32 | 2%nat => Zone_Normal | _ => Zone_HighMem end.

(** [init_zones]: [i] counts the zones, in the order of [ZoneType]. *)
Fixpoint init_zones (mc : mem_config) (n : node_mem) (i : nat) (bounds : list (Z * Z))
  : outcome (node_mem * list (option Zone)) :=
  match bounds with
  | [] => Ret (n, [])
  | (lo, hi) :: bounds =>
      if hi =? lo then
        '(n, zs) ← init_zones mc n (S i) bounds; Ret (n, None :: zs)
      else
        z ← newZone mc (zone_of_index i) lo hi;
        '(n, z) ← free_area_init_zone n z;
        '(n, zs) ← init_zones mc n (S i) bounds;
        Ret (n, Some z :: zs)
  end.

(** [MemoryNode]: the descriptors and the zones by [ZoneType]. *)
Record MemoryNode : Type := mkMemoryNode { node_pages : node_mem; node_zones : list (option Zone) }.

Definition newMemoryNode (mc : mem_config) (start_addr : Z) : outcome MemoryNode :=
  let bounds := node_bounds (Z.shiftr start_addr (page_shift mc)) (max_zone_pfns mc) in
  total ← calculate_total_pages bounds;
  '(n, zs) ← init_zones mc (mkNode total ∅ ∅) 0 bounds;
  _ ← (match zs !! 2%nat with Some (Some _) => Ret tt | _ => Stop AssertFailed end);
  _ ← assert_ (10 <=? page_shift mc);
  Ret (mkMemoryNode n zs).

(** ** The allocator *)

Record BuddyAllocator : Type := mkBuddy { mem_node : MemoryNode; free_page_num : Z }.

Definition newBuddy (memory_size page_shift : Z) (m : MemoryNode) : outcome BuddyAllocator :=
  _ ← assert_ (0 <? memory_size); Ret (mkBuddy m (Z.shiftr memory_size page_shift)).

Definition zone_index (t : ZoneType) : nat :=
  match t with Zone_DMA => 0 | Zone_DMA32 => 1 | Zone_Normal => 2 | Zone_HighMem => 3 | MAX_NR_ZONES => 4 end.

Definition the_zone (m : MemoryNode) (t : ZoneType) : option Zone := mjoin (node_zones m !! zone_index t).

Definition gfp_zone (m : MemoryNode) (flag : Z) : outcome ZoneType :=
  let wants (t : ZoneType) (g : Z) :=
    match the_zone m t with Some _ => negb (Z.land flag g =? 0) | None => false end in
  if wants Zone_DMA GFP_DMA then Ret Zone_DMA
  else if wants Zone_DMA32 GFP_DMA32 then Ret Zone_DMA32
  else if wants Zone_HighMem GFP_HighMem then Ret Zone_HighMem
  else match the_zone m Zone_Normal with Some _ => Ret Zone_Normal | None => Stop AssertFailed end.

Definition put_zone (b : BuddyAllocator) (t : ZoneType) (n : node_mem) (z : Zone) (fpn : Z) : BuddyAllocator :=
  mkBuddy (mkMemoryNode n (<[zone_index t := Some z]> (node_zones (mem_node b)))) fpn.

(** [BuddyAllocator::allocate_pages(unsigned gfp_mask, unsigned order)]. *)
Definition allocate_pages (b : BuddyAllocator) (gfp_mask : Z) (order : nat) : outcome (option Z * BuddyAllocator) :=
  if (MAXORDER <=? order)%nat then Ret (None, b) else
  t ← gfp_zone (mem_node b) gfp_mask;
  match the_zone (mem_node b) t with
  | None => Ret (None, b)
  | Some z =>
      '(page, n, z, fpn) ← allocate_pages_zone (node_pages (mem_node b)) z (free_page_num b) order;
      Ret (page, put_zone b t n z fpn)
  end.

(** [get_free_pages]: a null page is dereferenced. *)
Definition get_free_pages (shift : Z) (b : BuddyAllocator) (gfp_mask : Z) (order : nat) : outcome (Z * BuddyAllocator) :=
  '(page, b) ← allocate_pages b gfp_mask order;
  match page with None => Stop NullDeref | Some p => Ret (u64 (Z.shiftl p shift), b) end.

Definition get_dma_pages (shift : Z) (b : BuddyAllocator) (gfp_mask : Z) (order : nat) : outcome (Z * BuddyAllocator) :=
  get_free_pages shift b (Z.lor gfp_mask GFP_DMA) order.

(** [free_one_page(uint64_t)]: the zone pointer of the page is dereferenced. *)
Definition free_page (b : BuddyAllocator) (page_no : Z) : outcome BuddyAllocator :=
  '(p, n) ← get_page_ptr (node_pages (mem_node b)) page_no;
  match p_zone p with
  | None => Stop Undefined
  | Some t =>
      match the_zone (mem_node b) t with
      | None => Stop NullDeref
      | Some z => '(n, z) ← free_one_page n z page_no 0; Ret (put_zone b t n z (free_page_num b))
      end
  end.

Definition get_free_memory_size (shift : Z) (b : BuddyAllocator) : Z := u64 (Z.shiftl (free_page_num b) shift).

(** ** Blocks and the pages they cover *)

Definition block_pages (order : nat) (b : Z) : list Z := seqZ b (2 ^ Z.of_nat order).

(** The pages of the free lists, the first list holding blocks of order [o]. *)
Fixpoint list_pages (o : nat) (ls : list (list Z)) : list Z :=
  match ls with
  | [] => []
  | l :: ls => (l ≫= block_pages o) ++ list_pages (S o) ls
  end.

Lemma block_split o b : block_pages (S o) b = block_pages o b ++ block_pages o (b + 2 ^ Z.of_nat o).
Proof.
  unfold block_pages. rewrite <- seqZ_app by lia. f_equal. rewrite Nat2Z.inj_succ, Z.pow_succ_r; lia.
Qed.

Lemma block_base o b : b ∈ block_pages o b.
Proof. apply elem_of_seqZ. pose proof (Z.pow_pos_nonneg 2 (Z.of_nat o)). lia. Qed.

Lemma list_pages_insert o ls i l l' :
  ls !! i = Some l ->
  list_pages o (<[i := l']> ls) ++ (l ≫= block_pages (o + i)) ≡ₚ list_pages o ls ++ (l' ≫= block_pages (o + i)).
Proof.
  revert o i. induction ls as [|k ls IH]; intros o i Hi; [done|].
  destruct i as [|i]; simpl in *.
  - injection Hi as ->. rewrite Nat.add_0_r. solve_Permutation.
  - rewrite <- !app_assoc. apply Permutation_app_head. rewrite Nat.add_succ_r. by apply (IH (S o)).
Qed.

Lemma elem_of_list_pages o ls i l b : ls !! i = Some l -> b ∈ l -> b ∈ list_pages o ls.
Proof.
  revert o i. induction ls as [|k ls IH]; intros o i Hi Hb; [done|]. destruct i as [|i]; simpl in *.
  - injection Hi as ->. apply elem_of_app. left. apply list_elem_of_bind. exists b. split; [apply block_base|done].
  - apply elem_of_app. right. by eapply IH.
Qed.

Lemma list_pages_disjoint o ls i j l k b :
  NoDup (list_pages o ls) -> ls !! i = Some l -> ls !! j = Some k -> b ∈ l -> b ∈ k -> i = j.
Proof.
  revert o i j. induction ls as [|m ls IH]; intros o i j Hn Hi Hj Hl Hk; [done|].
  simpl in Hn. apply NoDup_app in Hn as (_ & Hd & Hn).
  assert (Hm : forall q x, ls !! q = Some x -> b ∈ x -> b ∈ m -> False).
  { intros q x Hq Hx Hbm. apply (Hd b); [|by eapply elem_of_list_pages].
    apply list_elem_of_bind. exists b. split; [apply block_base|done]. }
  destruct i as [|i], j as [|j]; simpl in *; simplify_eq; [done|naive_solver..|]. f_equal. by eapply IH.
Qed.

Lemma list_pages_empty o n : list_pages o (replicate n []) = [].
Proof. revert o. induction n; intros o; simpl; auto. Qed.

(** ** The free lists of a zone

    [lo] is the first page of the zone, [num] the number of pages its blocks
    cover, [npn] the number of pages of the node.  The pages of the free lists
    together with the pages [R] that have left them are exactly the pages of the
    zone, each once; every block starts at a multiple of its size from [lo]. *)

Section ZoneState.
Context (lo num npn : Z) (Hin : lo + num <= npn).

Record zstate (n : node_mem) (z : Zone) (ls : list (list Z)) (R : list Z) : Prop := {
  zs_num : node_page_num n = npn;
  zs_areas : length (free_area z) = S MAXORDER;
  zs_lists : length ls = S MAXORDER;
  zs_rep : forall i a l, free_area z !! i = Some a -> ls !! i = Some l -> rep (next n) (block_list a) l;
  zs_pages : list_pages 0 ls ++ R ≡ₚ seqZ lo num;
  zs_align : forall i l b, ls !! i = Some l -> b ∈ l -> (2 ^ Z.of_nat i | b - lo)
}.

Record keeps (n : node_mem) (z : Zone) (n' : node_mem) (z' : Zone) : Prop := {
  k_type : zone_type z' = zone_type z;
  k_start : zone_start_pfn z' = zone_start_pfn z;
  k_free : free_pages z' = free_pages z;
  k_set : page_set z' = page_set z;
  k_next : same_outside (seqZ lo num) (next n) (next n')
}.

Lemma keeps_refl n z : keeps n z n z.
Proof. by split. Qed.

Lemma keeps_trans n1 z1 n2 z2 n3 z3 : keeps n1 z1 n2 z2 -> keeps n2 z2 n3 z3 -> keeps n1 z1 n3 z3.
Proof.
  intros [? ? ? ? H1] [? ? ? ? H2]. split; try congruence. intros x Hx. by rewrite (H2 x Hx), (H1 x Hx).
Qed.

Lemma zstate_nodup n z ls R : zstate n z ls R -> NoDup (list_pages 0 ls ++ R).
Proof. intros S. rewrite (zs_pages _ _ _ _ S). apply NoDup_seqZ. Qed.

Lemma zstate_bound n z ls R x : zstate n z ls R -> x ∈ list_pages 0 ls ++ R -> lo <= x < npn.
Proof. intros S Hx. rewrite (zs_pages _ _ _ _ S), elem_of_seqZ in Hx. lia. Qed.

Lemma get_page_ptr_ret n id :
  id < node_page_num n ->
  exists p n', get_page_ptr n id = Ret (p, n') /\ node_page_num n' = node_page_num n /\ next n' = next n.
Proof.
  intros Hi. unfold get_page_ptr. rewrite (proj2 (Z.ltb_lt _ _) Hi). simpl.
  destruct (node_mem_map n !! id); eauto.
Qed.

Lemma update_page_ret n id f :
  id < node_page_num n ->
  exists n', update_page n id f = Ret n' /\ node_page_num n' = node_page_num n /\ next n' = next n.
Proof.
  intros Hi. unfold update_page. destruct (get_page_ptr_ret n id Hi) as (p & n' & -> & Hn & Hx). simpl. eauto.
Qed.

Lemma set_page_order_ret n id o :
  id < node_page_num n ->
  exists n', set_page_order n id o = Ret n' /\ node_page_num n' = node_page_num n /\ next n' = next n.
Proof.
  intros Hi. unfold set_page_order, set_page_private, set_page_buddy.
  edestruct (update_page_ret n id) as (n1 & -> & H1 & H2); [done|]. simpl.
  edestruct (update_page_ret n1 id) as (n2 & -> & H3 & H4); [lia|]. eexists. split; [done|]. split; congruence.
Qed.

(** Descriptors do not matter to the lists. *)
Lemma zstate_node n n' z ls R :
  node_page_num n' = node_page_num n -> next n' = next n -> zstate n z ls R -> zstate n' z ls R.
Proof. intros Hn Hx []. split; try done; try congruence. by rewrite Hx. Qed.

Lemma keeps_node n n1 z : next n1 = next n -> keeps n z n1 z.
Proof. intros Hx. split; try done. by rewrite Hx. Qed.

(** Nor does the counter [nr_free]. *)
Lemma update_area_state n z ls R i f :
  zstate n z ls R -> (i <= MAXORDER)%nat -> (forall a, block_list (f a) = block_list a) ->
  exists z', update_area z i f = Ret z' /\ zstate n z' ls R /\ keeps n z n z'.
Proof.
  intros S Hi Hf. unfold update_area.
  destruct (lookup_lt_is_Some_2 (free_area z) i) as [a Ha]; [rewrite (zs_areas _ _ _ _ S); lia|].
  rewrite Ha. eexists. split; [done|]. split; [|by split]. destruct S as [? ? ? Hr ? ?].
  split; simpl; try done; [by rewrite length_insert|].
  intros j b l Hj Hl. destruct (decide (i = j)) as [<-|Hne].
  - rewrite list_lookup_insert_eq in Hj by (by eapply lookup_lt_Some). injection Hj as <-. rewrite Hf. eauto.
  - rewrite list_lookup_insert_ne in Hj by done. eauto.
Qed.

Lemma push_block_state n z ls R o b :
  zstate n z ls (block_pages o b ++ R) -> (o <= MAXORDER)%nat -> (2 ^ Z.of_nat o | b - lo) ->
  exists n' z' ls', push_block n z o b = Ret (n', z') /\ zstate n' z' ls' R /\ keeps n z n' z'.
Proof.
  intros S Ho Hal. pose proof (zstate_nodup _ _ _ _ S) as Hnd.
  assert (Hb : b ∈ list_pages 0 ls ++ block_pages o b ++ R).
  { rewrite !elem_of_app. right. left. apply block_base. }
  pose proof (zstate_bound _ _ _ _ _ S Hb) as Hbb. rewrite (zs_pages _ _ _ _ S) in Hb.
  assert (Hfresh : forall j k, ls !! j = Some k -> b ∉ k).
  { intros j k Hj Hk. apply NoDup_app in Hnd as (_ & Hd & _). apply (Hd b); [by eapply elem_of_list_pages|].
    apply elem_of_app. left. apply block_base. }
  destruct (lookup_lt_is_Some_2 (free_area z) o) as [a Ha]; [rewrite (zs_areas _ _ _ _ S); lia|].
  destruct (lookup_lt_is_Some_2 ls o) as [l Hl]; [rewrite (zs_lists _ _ _ _ S); lia|].
  unfold push_block. destruct (get_page_ptr_ret n b) as (p & n1 & -> & Hn1 & Hx1); [rewrite (zs_num _ _ _ _ S); lia|].
  simpl. rewrite Ha, Hx1.
  destruct (push_block_back_rep (next n) (block_list a) l b) as (nx & f & -> & Hr & Hs);
    [by eapply zs_rep|by eapply Hfresh|]. simpl.
  assert (Hlist : forall j k x, ls !! j = Some k -> x ∈ k -> x ∈ seqZ lo num).
  { intros j k x Hj Hx. rewrite <- (zs_pages _ _ _ _ S). apply elem_of_app. left. by eapply elem_of_list_pages. }
  exists (set_next n1 nx), (set_free_area z (<[o := mkArea f (nr_free a)]> (free_area z))), (<[o := l ++ [b]]> ls).
  split; [done|]. split.
  - apply NoDup_app in Hnd as (Hnd & _ & _). destruct S as [S1 S2 S3 S4 S5 S6].
    split; simpl; [congruence|by rewrite length_insert..| | |].
    + intros j c k Hj Hk. destruct (decide (o = j)) as [<-|Hne].
      * rewrite list_lookup_insert_eq in Hj by (by eapply lookup_lt_Some).
        rewrite list_lookup_insert_eq in Hk by (by eapply lookup_lt_Some). by simplify_eq.
      * rewrite list_lookup_insert_ne in Hj by done. rewrite list_lookup_insert_ne in Hk by done. eapply rep_frame; [exact Hs| |by eapply S4].
        intros x Hxk Hxl. apply elem_of_cons in Hxl as [->|Hxl]; [by eapply Hfresh|].
        apply Hne. by eapply list_pages_disjoint.
    + rewrite <- S5. pose proof (list_pages_insert 0 ls o l (l ++ [b]) Hl) as HP. simpl in HP.
      rewrite bind_app in HP. simpl in HP. rewrite app_nil_r in HP.
      apply (Permutation_app_inv_r (l ≫= block_pages o)).
      rewrite <- !app_assoc, (Permutation_app_comm R), app_assoc, HP. solve_Permutation.
    + intros j k x Hj Hx. destruct (decide (o = j)) as [<-|Hne]; [|rewrite list_lookup_insert_ne in Hj by done; eauto].
      rewrite list_lookup_insert_eq in Hj by (by eapply lookup_lt_Some). simplify_eq.
      apply elem_of_app in Hx as [Hx|Hx]; [by eapply S6|]. apply list_elem_of_singleton in Hx as ->. done.
  - split; try done. simpl. intros x Hx. apply Hs. intros Hxl. apply elem_of_cons in Hxl as [->|Hxl]; [done|].
    apply Hx. by eapply Hlist.
Qed.

Lemma expand_state n z ls R x low high :
  zstate n z ls (block_pages high x ++ R) -> (low <= high <= MAXORDER)%nat -> (2 ^ Z.of_nat high | x - lo) ->
  exists n' z' ls', expand_loop n z x low high (2 ^ Z.of_nat high) = Ret (n', z') /\
    zstate n' z' ls' (block_pages low x ++ R) /\ keeps n z n' z'.
Proof.
  revert n z ls. induction high as [|h IH]; intros n z ls S Hh Hal; cbn [expand_loop].
  { replace low with 0%nat by lia. exists n, z, ls. split; [done|]. split; [done|apply keeps_refl]. }
  destruct (Nat.ltb_spec low (Datatypes.S h)) as [Hlt|Hge].
  2:{ replace low with (Datatypes.S h) by lia. exists n, z, ls. split; [done|]. split; [done|apply keeps_refl]. }
  assert (E : Z.shiftr (2 ^ Z.of_nat (Datatypes.S h)) 1 = 2 ^ Z.of_nat h).
  { rewrite Z.shiftr_div_pow2 by lia. rewrite Nat2Z.inj_succ, Z.pow_succ_r by lia.
    rewrite Z.mul_comm, Z.pow_1_r. by apply Z.div_mul. }
  rewrite E. assert (Hal' : (2 ^ Z.of_nat h | x - lo)).
  { etrans; [|exact Hal]. exists 2. rewrite Nat2Z.inj_succ, Z.pow_succ_r; lia. }
  rewrite block_split in S.
  assert (S1 : zstate n z ls (block_pages h (x + 2 ^ Z.of_nat h) ++ block_pages h x ++ R)).
  { destruct S as [? ? ? ? Hp ?]. split; try done. rewrite <- Hp. solve_Permutation. }
  destruct (push_block_state _ _ _ _ _ _ S1) as (n1 & z1 & ls1 & -> & S2 & K1); [lia| |].
  { replace (x + 2 ^ Z.of_nat h - lo) with (x - lo + 2 ^ Z.of_nat h) by lia. apply Z.divide_add_r; [done|reflexivity]. }
  simpl. destruct (update_area_state n1 z1 ls1 _ h (fun a => mkArea (block_list a) (u64 (nr_free a + 1))) S2)
    as (z2 & -> & S3 & K2); [lia|done|]. simpl.
  destruct (set_page_order_ret n1 (x + 2 ^ Z.of_nat h) (Z.of_nat h)) as (n2 & -> & Hn2 & Hx2).
  { rewrite (zs_num _ _ _ _ S2). assert (Hx : x + 2 ^ Z.of_nat h ∈ list_pages 0 ls ++ block_pages h (x + 2 ^ Z.of_nat h) ++ block_pages h x ++ R).
    { rewrite !elem_of_app. right. left. apply block_base. } by eapply zstate_bound in Hx as [_ ?]. }
  simpl. destruct (IH n2 z2 ls1) as (n3 & z3 & ls3 & -> & S4 & K3); [|lia|done|].
  { eapply zstate_node; [done|done|exact S3]. }
  exists n3, z3, ls3. split; [done|]. split; [done|].
  eapply keeps_trans; [exact K1|]. eapply keeps_trans; [exact K2|]. eapply keeps_trans; [|exact K3].
  by apply keeps_node.
Qed.

(** The block an allocation takes: the head of the first non-empty list. *)
Fixpoint first_block (ls : list (list Z)) : option Z :=
  match ls with
  | [] => None
  | [] :: ls => first_block ls
  | (x :: _) :: _ => Some x
  end.

Lemma first_block_skip k m : first_block (replicate k [] ++ m) = first_block m.
Proof. by induction k. Qed.

Lemma drop_lookup_cons {A} (ls : list A) i l : ls !! i = Some l -> drop i ls = l :: drop (S i) ls.
Proof. apply drop_S. Qed.

(** The result of an allocation of [2^order] pages from the lists [ls]. *)
Definition allocated (n : node_mem) (z : Zone) (fpn : Z) (ls : list (list Z)) (R : list Z) (order : nat)
  (r : outcome (option Z * node_mem * Zone * Z)) : Prop :=
  match first_block (drop order ls) with
  | None => r = Ret (None, n, z, fpn)
  | Some page => exists n' z' ls', r = Ret (Some page, n', z', u64 (fpn - 2 ^ Z.of_nat order)) /\
      zstate n' z' ls' (block_pages order page ++ R) /\
      free_pages z' = u64 (free_pages z - Z.shiftr 1 (Z.of_nat order)) /\
      keeps n (set_free_pages z (free_pages z')) n' z' /\ (2 ^ Z.of_nat order | page - lo)
  end.

Lemma fetch_state n z ls R o a x l :
  zstate n z ls R -> free_area z !! o = Some a -> ls !! o = Some (x :: l) ->
  exists nx f, fetch_head (next n) (block_list a) = Ret (x, nx, f) /\
    same_outside (seqZ lo num) (next n) nx /\ (2 ^ Z.of_nat o | x - lo) /\
    forall n' k fp, node_page_num n' = node_page_num n -> next n' = nx ->
      zstate n' (set_free_pages (set_free_area z (<[o := mkArea f k]> (free_area z))) fp) (<[o := l]> ls)
        (block_pages o x ++ R).
Proof.
  intros S Ha Hl. pose proof (zstate_nodup _ _ _ _ S) as Hnd. apply NoDup_app in Hnd as (Hnd & _ & _).
  destruct (fetch_head_rep (next n) (block_list a) x l) as (nx & f & Hf & Hr & Hs); [by eapply zs_rep|].
  exists nx, f. split; [done|]. split.
  { intros y Hy. apply Hs. intros ->%list_elem_of_singleton. apply Hy. rewrite <- (zs_pages _ _ _ _ S).
    apply elem_of_app. left. eapply elem_of_list_pages; [exact Hl|constructor]. }
  split; [eapply (zs_align _ _ _ _ S); [exact Hl|constructor]|].
  intros n' k fp Hn' Hx'. destruct S as [S1 S2 S3 S4 S5 S6].
  split; simpl; [congruence|by rewrite length_insert..| | |].
  - intros j c m Hj Hm. rewrite Hx'. destruct (decide (o = j)) as [<-|Hne].
    + rewrite list_lookup_insert_eq in Hj by (by eapply lookup_lt_Some).
      rewrite list_lookup_insert_eq in Hm by (by eapply lookup_lt_Some). by simplify_eq.
    + rewrite list_lookup_insert_ne in Hj by done. rewrite list_lookup_insert_ne in Hm by done.
      eapply rep_frame; [exact Hs| |by eapply S4]. intros y Hy ->%list_elem_of_singleton.
      apply Hne. eapply (list_pages_disjoint 0 ls o j); [done..|constructor|done].
  - rewrite <- S5. pose proof (list_pages_insert 0 ls o (x :: l) l Hl) as HP. simpl in HP.
    apply (Permutation_app_inv_r (l ≫= block_pages o)).
    transitivity ((list_pages 0 (<[o:=l]> ls) ++ block_pages o x ++ (l ≫= block_pages o)) ++ R); [solve_Permutation|].
    rewrite HP. solve_Permutation.
  - intros j m y Hj Hy. destruct (decide (o = j)) as [<-|Hne]; [|rewrite list_lookup_insert_ne in Hj by done; eauto].
    rewrite list_lookup_insert_eq in Hj by (by eapply lookup_lt_Some). simplify_eq.
    eapply S6; [exact Hl|by constructor].
Qed.

Lemma rmqueue_state n z fpn ls R order cur todo :
  zstate n z ls R -> (cur + todo = S MAXORDER)%nat -> (order <= cur)%nat ->
  drop order ls = replicate (cur - order) [] ++ drop cur ls ->
  allocated n z fpn ls R order (rmqueue_loop n z fpn order cur todo).
Proof.
  revert cur. induction todo as [|todo IH]; intros cur S Hc Ho Hd; unfold allocated; rewrite Hd; cbn [rmqueue_loop].
  - rewrite (drop_ge ls cur) by (rewrite (zs_lists _ _ _ _ S); lia). rewrite app_nil_r.
    rewrite <- (app_nil_r (replicate _ _)), first_block_skip. done.
  - destruct (lookup_lt_is_Some_2 (free_area z) cur) as [a Ha]; [rewrite (zs_areas _ _ _ _ S); lia|].
    destruct (lookup_lt_is_Some_2 ls cur) as [l Hl]; [rewrite (zs_lists _ _ _ _ S); lia|].
    rewrite Ha, (rep_is_empty (next n) _ l) by (by eapply zs_rep).
    destruct l as [|x l].
    + rewrite bool_decide_true by done. specialize (IH (Datatypes.S cur) S). unfold allocated in IH. rewrite Hd in IH. apply IH; [lia..|].
      rewrite (drop_lookup_cons ls cur [] Hl). rewrite Nat.sub_succ_l, replicate_S_end, <- app_assoc by lia. done.
    + rewrite bool_decide_false by done. rewrite first_block_skip, (drop_lookup_cons ls cur (x :: l) Hl). cbn [first_block].
      destruct (fetch_state n z ls R cur a x l S Ha Hl) as (nx & f & -> & Hs & Hal & Hz). simpl.
      destruct (update_page_ret (set_next n nx) x (fun _ => mkPage 1 (-1) (Some (zone_type z)) (Some 0)))
        as (n1 & -> & Hn1 & Hx1).
      { simpl. rewrite (zs_num _ _ _ _ S). eapply (zstate_bound n z ls R x S). apply elem_of_app. left.
        eapply elem_of_list_pages; [exact Hl|constructor]. }
      simpl. unfold expand. rewrite !Z.shiftl_1_l.
      destruct (expand_state n1 _ _ R x order cur (Hz n1 (u64 (nr_free a - 1))
        (u64 (free_pages z - Z.shiftr 1 (Z.of_nat order))) Hn1 Hx1)) as (n2 & z2 & ls2 & E & S2 & K); [lia|done|].
      rewrite E. simpl. exists n2, z2, ls2. split; [done|]. split; [done|].
      destruct K as [K1 K2 K3 K4 K5]. simpl in *. rewrite Hx1 in K5. split_and!; [done| |].
      * split; simpl; [done..|]. intros y Hy. by rewrite (K5 y Hy), (Hs y Hy).
      * etrans; [|exact Hal]. exists (2 ^ (Z.of_nat cur - Z.of_nat order)). rewrite <- Z.pow_add_r by lia. f_equal. lia.
Qed.

Lemma allocate_state n z fpn ls R order :
  zstate n z ls R -> (order <= MAXORDER)%nat -> allocated n z fpn ls R order (allocate_pages_zone n z fpn order).
Proof.
  intros S Ho. apply rmqueue_state; [done|lia|done|]. by rewrite Nat.sub_diag.
Qed.

(** ** Initialisation *)

Lemma push_blocks_state n z ls R o count b :
  zstate n z ls (seqZ b (Z.of_nat count * 2 ^ Z.of_nat o) ++ R) -> (o <= MAXORDER)%nat -> (2 ^ Z.of_nat o | b - lo) ->
  exists n' z' ls', push_blocks n z o count b = Ret (n', z') /\ zstate n' z' ls' R /\ keeps n z n' z'.
Proof.
  revert n z ls b. induction count as [|count IH]; intros n z ls b S Ho Hal; cbn [push_blocks].
  - exists n, z, ls. split; [done|]. split; [done|apply keeps_refl].
  - assert (S1 : zstate n z ls (block_pages o b ++ seqZ (b + 2 ^ Z.of_nat o) (Z.of_nat count * 2 ^ Z.of_nat o) ++ R)).
    { destruct S as [? ? ? ? Hp ?]. split; try done. rewrite <- Hp. unfold block_pages. rewrite (app_assoc (seqZ b _)).
      rewrite <- seqZ_app by lia. by replace (2 ^ Z.of_nat o + Z.of_nat count * 2 ^ Z.of_nat o)
        with (Z.of_nat (Datatypes.S count) * 2 ^ Z.of_nat o) by lia. }
    destruct (push_block_state _ _ _ _ _ _ S1) as (n1 & z1 & ls1 & -> & S2 & K1); [done..|]. simpl.
    rewrite Z.shiftl_1_l. destruct (IH _ _ _ _ S2) as (n2 & z2 & ls2 & -> & S3 & K2); [done| |].
    { replace (b + 2 ^ Z.of_nat o - lo) with (b - lo + 2 ^ Z.of_nat o) by lia. by apply Z.divide_add_r. }
    exists n2, z2, ls2. split; [done|]. split; [done|]. by eapply keeps_trans.
Qed.

Lemma pow2_divide_le a b x : (a <= b)%nat -> (2 ^ Z.of_nat b | x) -> (2 ^ Z.of_nat a | x).
Proof.
  intros Hab Hx. etrans; [|exact Hx]. exists (2 ^ (Z.of_nat b - Z.of_nat a)). rewrite <- Z.pow_add_r by lia. f_equal. lia.
Qed.

Lemma init_orders_state i n z ls idx pn :
  zstate n z ls (seqZ idx pn) -> (1 <= i <= MAXORDER)%nat -> 0 <= pn -> (2 ^ Z.of_nat i | idx - lo) ->
  exists n' z' ls', init_orders i n z idx pn = Ret (n', z') /\
    zstate n' z' ls' (seqZ (idx + pn - pn mod 2) (pn mod 2)) /\ keeps n z n' z'.
Proof.
  revert n z ls idx pn. induction i as [|i IH]; intros n z ls idx pn S Hi Hp Hal; [lia|]. cbn [init_orders].
  destruct (Z.ltb_spec 0 pn) as [Hpos|Hz]; cbn [negb].
  2:{ assert (pn = 0) as -> by lia. exists n, z, ls. split; [done|]. split; [done|apply keeps_refl]. }
  rewrite Z.shiftl_1_l. set (sz := 2 ^ Z.of_nat (Datatypes.S i)) in *.
  assert (Hsz : 0 < sz) by (apply Z.pow_pos_nonneg; lia).
  assert (H2 : exists k, sz = k * 2 /\ 0 < k).
  { exists (2 ^ Z.of_nat i). subst sz. rewrite Nat2Z.inj_succ, Z.pow_succ_r by lia. split; [lia|]. apply Z.pow_pos_nonneg; lia. }
  pose proof (Z.div_mod pn sz ltac:(lia)) as Hdm. pose proof (Z.mod_pos_bound pn sz Hsz) as Hmb.
  assert (Hdiv : 0 <= pn / sz) by (apply Z.div_pos; lia).
  (* the rest of the loop, from what the blocks of this order leave *)
  assert (Hrest : forall n1 z1 ls1, zstate n1 z1 ls1 (seqZ (idx + pn / sz * sz) (pn - pn / sz * sz)) ->
    exists n' z' ls', init_orders i n1 z1 (idx + pn / sz * sz) (pn - pn / sz * sz) = Ret (n', z') /\
      zstate n' z' ls' (seqZ (idx + pn - pn mod 2) (pn mod 2)) /\ keeps n1 z1 n' z').
  { intros n1 z1 ls1 S1. assert (Hm : (pn - pn / sz * sz) mod 2 = pn mod 2).
    { destruct H2 as (k & -> & Hk). replace (pn - pn / (k * 2) * (k * 2)) with (pn + - (pn / (k * 2) * k) * 2) by lia.
      apply Z.mod_add. lia. }
    destruct i as [|i].
    - change sz with 2 in *. cbn [init_orders]. exists n1, z1, ls1. split; [done|]. split; [|apply keeps_refl].
      replace (idx + pn - pn mod 2) with (idx + pn / 2 * 2) by lia. by replace (pn mod 2) with (pn - pn / 2 * 2) by lia.
    - destruct (IH n1 z1 ls1 (idx + pn / sz * sz) (pn - pn / sz * sz) S1) as (n' & z' & ls' & E & S2 & K); [lia|lia| |].
      { apply (pow2_divide_le _ (Datatypes.S (Datatypes.S i))); [lia|]. fold sz.
        replace (idx + pn / sz * sz - lo) with (idx - lo + pn / sz * sz) by lia.
        apply Z.divide_add_r; [done|]. by exists (pn / sz). }
      exists n', z', ls'. split; [done|]. split; [|done]. rewrite Hm in S2.
      by replace (idx + pn - pn mod 2) with (idx + pn / sz * sz + (pn - pn / sz * sz) - pn mod 2) by lia. }
  destruct (Z.ltb_spec 0 (pn / sz)) as [Hb|Hb].
  - destruct (update_area_state n z ls _ (Datatypes.S i) (fun a => mkArea (block_list a) (pn / sz)) S)
      as (z1 & -> & S1 & K1); [lia|done|]. simpl.
    destruct (push_blocks_state n z1 ls (seqZ (idx + pn / sz * sz) (pn - pn / sz * sz)) (Datatypes.S i)
      (Z.to_nat (pn / sz)) idx) as (n2 & z2 & ls2 & -> & S2 & K2); [|lia|done|].
    { fold sz. rewrite Z2Nat.id by lia. rewrite <- seqZ_app by lia.
      by replace (pn / sz * sz + (pn - pn / sz * sz)) with pn by lia. }
    simpl. destruct (Hrest n2 z2 ls2 S2) as (n3 & z3 & ls3 & -> & S3 & K3).
    exists n3, z3, ls3. split; [done|]. split; [done|]. eapply keeps_trans; [exact K1|]. by eapply keeps_trans.
  - assert (E : pn / sz = 0) by lia. rewrite E in Hrest. rewrite Z.mul_0_l, Z.add_0_r, Z.sub_0_r in Hrest. by apply (Hrest n z ls).
Qed.

Lemma free_area_init_state n z :
  node_page_num n = npn -> 0 <= num -> zone_start_pfn z = lo -> free_pages z = num ->
  exists n' z' ls', free_area_init_zone n z = Ret (n', z') /\
    zstate n' z' ls' (seqZ (lo + num - num mod 2) (num mod 2)) /\ keeps n z n' z'.
Proof.
  intros Hn Hnum Hlo Hfp. unfold free_area_init_zone.
  set (z0 := set_free_area z (replicate (MAXORDER + 1) (mkArea emptyFlexi 0))).
  change (zone_start_pfn z0) with (zone_start_pfn z). change (free_pages z0) with (free_pages z). rewrite Hlo, Hfp.
  destruct (init_orders_state MAXORDER n z0 (replicate 12 []) lo num) as (n' & z' & ls' & H1 & H2 & H3);
    [|unfold MAXORDER; lia|done|rewrite Z.sub_diag; apply Z.divide_0_r|].
  - split; simpl; [done|done|done| | |].
    + intros i a l Ha Hl. apply (lookup_replicate 12 (mkArea emptyFlexi 0) a i) in Ha as [-> _]. apply (lookup_replicate 12 [] l i) in Hl as [-> _]. apply rep_empty.
    + done.
    + intros i l b Hl Hb. apply (lookup_replicate 12 [] l i) in Hl as [-> _]. by apply elem_of_nil in Hb.
  - exists n', z', ls'. split; [done|]. split; [done|]. destruct H3. by split.
Qed.

(** ** Zones do not interfere *)

Lemma zstate_frame n n' z ls R (k : list Z) :
  zstate n z ls R -> node_page_num n' = node_page_num n -> same_outside k (next n) (next n') ->
  k ## seqZ lo num -> zstate n' z ls R.
Proof.
  intros S Hn Hs Hd. pose proof S as [S1 S2 S3 S4 S5 S6]. split; try done; [congruence|].
  intros i a l Ha Hl. eapply rep_frame; [exact Hs| |by eapply S4].
  intros x Hx Hk. apply (Hd x Hk). rewrite <- S5. apply elem_of_app. left. by eapply elem_of_list_pages.
Qed.
End ZoneState.

(** ** Freeing leaves the lists alone

    What [free_one_page] does not change: the [next] fields, the block lists and
    every existing descriptor of a page above the first [2^MAXORDER]. *)

Record untouched (n : node_mem) (z : Zone) (n' : node_mem) (z' : Zone) : Prop := {
  un_next : next n' = next n;
  un_num : node_page_num n' = node_page_num n;
  un_lists : block_list <$> free_area z' = block_list <$> free_area z;
  un_type : zone_type z' = zone_type z;
  un_free : free_pages z' = free_pages z;
  un_pages : forall q d, 2 ^ 11 <= q -> node_mem_map n !! q = Some d -> node_mem_map n' !! q = Some d
}.

Lemma untouched_refl n z : untouched n z n z.
Proof. by split. Qed.

Lemma untouched_trans n1 z1 n2 z2 n3 z3 : untouched n1 z1 n2 z2 -> untouched n2 z2 n3 z3 -> untouched n1 z1 n3 z3.
Proof. intros [] []. split; try congruence. eauto. Qed.

Lemma get_page_ptr_untouched n id p n' z : get_page_ptr n id = Ret (p, n') -> untouched n z n' z.
Proof.
  unfold get_page_ptr. intros H. outcome_steps. destruct (node_mem_map n !! id) eqn:E; outcome_steps; [apply untouched_refl|].
  split; simpl; try done. intros q d _ Hq. rewrite lookup_insert_ne by congruence. done.
Qed.

Lemma update_page_untouched n id f n' z : id < 2 ^ 11 -> update_page n id f = Ret n' -> untouched n z n' z.
Proof.
  unfold update_page. intros Hid H. apply bind_ret_inv in H as ([p n1] & H1 & H). injection H as <-.
  eapply untouched_trans; [by eapply (get_page_ptr_untouched n id p n1 z)|].
  split; simpl; try done. intros q d Hq Hd. rewrite lookup_insert_ne by lia. done.
Qed.

Lemma update_area_untouched n z i f z' :
  (forall a, block_list (f a) = block_list a) -> update_area z i f = Ret z' -> untouched n z n z'.
Proof.
  unfold update_area. intros Hf H. destruct (free_area z !! i) as [a|] eqn:E; [|done]. injection H as <-.
  split; simpl; try done. rewrite list_fmap_insert, Hf. apply list_insert_id. by rewrite list_lookup_fmap, E.
Qed.

Lemma set_page_order_untouched n id o n' z : id < 2 ^ 11 -> set_page_order n id o = Ret n' -> untouched n z n' z.
Proof.
  unfold set_page_order. intros Hid H. apply bind_ret_inv in H as (n1 & H1 & H2).
  eapply untouched_trans; by eapply update_page_untouched.
Qed.

Lemma page_is_buddy_untouched n p b o r n' z : page_is_buddy n p b o = Ret (r, n') -> untouched n z n' z.
Proof.
  unfold page_is_buddy. intros H. apply bind_ret_inv in H as ([d n1] & H1 & H).
  eapply untouched_trans; [by eapply get_page_ptr_untouched|]. destruct (private_ d) as [k|]; [|done].
  destruct (negb _); [injection H as <- <-; apply untouched_refl|].
  apply bind_ret_inv in H as ([d2 n2] & H2 & H). apply bind_ret_inv in H as ([d3 n3] & H3 & H).
  destruct (p_zone d2), (p_zone d3); try done. injection H as <- <-.
  eapply untouched_trans; by eapply get_page_ptr_untouched.
Qed.

Lemma land_low_bound b p : 0 <= b < 2 ^ 11 -> 0 <= Z.land b p < 2 ^ 11.
Proof.
  intros Hb. assert (E : Z.land b p = Z.land b p mod 2 ^ 11).
  { rewrite <- Z.land_ones by lia. rewrite <- Z.land_assoc, (Z.land_comm p), Z.land_assoc, Z.land_ones by lia.
    by rewrite (Z.mod_small b). }
  rewrite E. apply Z.mod_pos_bound. lia.
Qed.

Lemma free_loop_untouched todo n z p id o n' z' id' o' :
  0 <= id < 2 ^ 11 -> (o + todo <= 10)%nat -> free_loop n z p id o todo = Ret (n', z', id', o') ->
  untouched n z n' z' /\ 0 <= id' < 2 ^ 11.
Proof.
  revert n z id o. induction todo as [|todo IH]; intros n z id o Hid Ho H; cbn [free_loop] in H.
  { injection H as <- <- <- <-. split; [apply untouched_refl|done]. }
  assert (Hb : 0 <= find_buddy_index id o < 2 ^ 11).
  { unfold find_buddy_index. rewrite Z.shiftl_1_l. apply lxor_bound; [lia|done|]. split; [apply Z.pow_nonneg; lia|].
    apply Z.pow_lt_mono_r; lia. }
  apply bind_ret_inv in H as ([r n1] & H1 & H). apply (page_is_buddy_untouched _ _ _ _ _ _ z) in H1. destruct r; cbn [negb] in H.
  2:{ by injection H as <- <- <- <-. }
  apply bind_ret_inv in H as (z1 & H2 & H). apply (update_area_untouched n1) in H2; [|done].
  apply bind_ret_inv in H as (n2 & H3 & H). apply (update_page_untouched _ _ _ _ z1) in H3; [|lia].
  apply bind_ret_inv in H as (n3 & H4 & H). apply (update_page_untouched _ _ _ _ z1) in H4; [|lia].
  apply IH in H as [H Hid']; [|by apply land_low_bound|lia]. split; [|done].
  do 3 (eapply untouched_trans; [eassumption|]). by eapply untouched_trans.
Qed.

Lemma free_one_page_untouched n z p n' z' : free_one_page n z p 0 = Ret (n', z') -> untouched n z n' z'.
Proof.
  unfold free_one_page. intros H. apply bind_ret_inv in H as ([[[n1 z1] id] o] & H1 & H).
  apply free_loop_untouched in H1 as [H1 Hid]; [|rewrite land_shiftl_1_ones by lia; apply Z.mod_pos_bound; lia|simpl; lia].
  apply bind_ret_inv in H as (n2 & H2 & H). apply (set_page_order_untouched _ _ _ _ z1) in H2; [|lia].
  apply bind_ret_inv in H as (z2 & H3 & H). apply (update_area_untouched n2) in H3; [|done]. injection H as <- <-.
  do 2 (eapply untouched_trans; [eassumption|]). done.
Qed.

Lemma untouched_state lo num npn n z n' z' ls R :
  untouched n z n' z' -> zstate lo num npn n z ls R -> zstate lo num npn n' z' ls R.
Proof.
  intros [U1 U2 U3 U4 U5 U6] [S1 S2 S3 S4 S5 S6]. split; try done; [congruence| |].
  - by rewrite <- (length_fmap block_list), U3, length_fmap.
  - intros i a l Ha Hl. rewrite U1. assert (E : (block_list <$> free_area z) !! i = Some (block_list a)).
    { rewrite <- U3, list_lookup_fmap, Ha. done. }
    rewrite list_lookup_fmap in E. destruct (free_area z !! i) as [a0|] eqn:E0; [|done]. injection E as E.
    rewrite <- E. by eapply S4.
Qed.

(** ** The whole node

    [bs] are the page ranges of the zones; zone [i] holds the pages [Rs !! i] out
    of its free lists. *)

Lemma NoDup_concat_disjoint {A} (ls : list (list A)) :
  (forall i l, ls !! i = Some l -> NoDup l) ->
  (forall i j l k x, (i < j)%nat -> ls !! i = Some l -> ls !! j = Some k -> x ∈ l -> x ∈ k -> False) ->
  NoDup (concat ls).
Proof.
  induction ls as [|l ls IH]; intros Hn Hd; simpl; [constructor|]. apply NoDup_app. split_and!.
  - by apply (Hn 0%nat).
  - intros x Hx Hc. rewrite list_elem_of_In in Hc. apply in_concat in Hc as (k & Hk & Hxk).
    apply list_elem_of_In in Hk, Hxk. apply list_elem_of_lookup in Hk as [j Hj].
    by apply (Hd 0%nat (S j) l k x); [lia|..].
  - apply IH; [intros i; apply (Hn (S i))|]. intros i j l' k x Hij. apply (Hd (S i) (S j)). lia.
Qed.

Section Node.
Context (bs : list (Z * Z)) (npn : Z).

Record bounds_ok : Prop := {
  b_top : forall i lo hi, bs !! i = Some (lo, hi) -> 0 <= lo <= hi /\ hi <= npn;
  b_sorted : forall i j lo hi lo' hi', (i < j)%nat -> bs !! i = Some (lo, hi) -> bs !! j = Some (lo', hi') -> hi <= lo'
}.

Record node_inv (n : node_mem) (zs : list (option Zone)) (Rs : list (list Z)) : Prop := {
  ni_len : length Rs = length zs;
  ni_num : node_page_num n = npn;
  ni_zone : forall i z, zs !! i = Some (Some z) -> exists lo hi R ls, bs !! i = Some (lo, hi) /\
    Rs !! i = Some R /\ zstate lo (hi - lo) npn n z ls R;
  ni_none : forall i R, zs !! i = Some None -> Rs !! i = Some R -> R = []
}.

Lemma ranges_disjoint i j lo hi lo' hi' :
  bounds_ok -> i <> j -> bs !! i = Some (lo, hi) -> bs !! j = Some (lo', hi') -> seqZ lo (hi - lo) ## seqZ lo' (hi' - lo').
Proof.
  intros B Hij Hi Hj x Hx Hy. rewrite elem_of_seqZ in Hx, Hy.
  destruct (decide (i < j)%nat); [pose proof (b_sorted B i j _ _ _ _ ltac:(lia) Hi Hj)
                                 |pose proof (b_sorted B j i _ _ _ _ ltac:(lia) Hj Hi)]; lia.
Qed.

Lemma node_pages_range n zs Rs i R x :
  bounds_ok -> node_inv n zs Rs -> Rs !! i = Some R -> x ∈ R ->
  exists lo hi, bs !! i = Some (lo, hi) /\ x ∈ seqZ lo (hi - lo).
Proof.
  intros B I Hi Hx. destruct (lookup_lt_is_Some_2 zs i) as [[z|] Hz]; [rewrite <- (ni_len _ _ _ I); by eapply lookup_lt_Some| |].
  - destruct (ni_zone _ _ _ I i z Hz) as (lo & hi & R' & ls & Hb & HR & S). exists lo, hi. split; [done|].
    simplify_eq. rewrite <- (zs_pages _ _ _ _ _ _ _ S). apply elem_of_app. by right.
  - apply (ni_none _ _ _ I i R Hz) in Hi as ->. by apply elem_of_nil in Hx.
Qed.

Lemma node_pages_distinct n zs Rs : bounds_ok -> node_inv n zs Rs ->
  NoDup (concat Rs) /\ forall x, x ∈ concat Rs -> 0 <= x < npn.
Proof.
  intros B I. split.
  - apply NoDup_concat_disjoint.
    + intros i R HR. destruct (lookup_lt_is_Some_2 zs i) as [[z|] Hz]; [rewrite <- (ni_len _ _ _ I); by eapply lookup_lt_Some| |].
      * destruct (ni_zone _ _ _ I i z Hz) as (lo & hi & R' & ls & Hb & HR' & S). simplify_eq.
        apply zstate_nodup in S. by apply NoDup_app in S as (_ & _ & ?).
      * apply (ni_none _ _ _ I i R Hz) in HR as ->. constructor.
    + intros i j R K x Hij HR HK Hx Hy.
      destruct (node_pages_range _ _ _ _ _ _ B I HR Hx) as (lo & hi & Hb & Hin).
      destruct (node_pages_range _ _ _ _ _ _ B I HK Hy) as (lo' & hi' & Hb' & Hin').
      by apply (ranges_disjoint i j _ _ _ _ B ltac:(lia) Hb Hb' x).
  - intros x Hx. rewrite list_elem_of_In in Hx. apply in_concat in Hx as (R & HR & Hx).
    apply list_elem_of_In in HR, Hx. apply list_elem_of_lookup in HR as [i HR].
    destruct (node_pages_range _ _ _ _ _ _ B I HR Hx) as (lo & hi & Hb & Hin). rewrite elem_of_seqZ in Hin.
    pose proof (b_top B _ _ _ Hb). lia.
Qed.

(** An operation on zone [i] that keeps to the range of the zone. *)
Lemma node_update n zs Rs i lo hi z ls R n' :
  bounds_ok -> node_inv n zs Rs -> bs !! i = Some (lo, hi) -> (i < length zs)%nat ->
  same_outside (seqZ lo (hi - lo)) (next n) (next n') ->
  zstate lo (hi - lo) npn n' z ls R ->
  node_inv n' (<[i := Some z]> zs) (<[i := R]> Rs).
Proof.
  intros B I Hb Hlt Hs S. pose proof I as [I1 I2 I3 I4]. split.
  - by rewrite !length_insert.
  - by destruct S.
  - intros j zj Hj. destruct (decide (i = j)) as [<-|Hne].
    + rewrite list_lookup_insert_eq in Hj by done. simplify_eq. exists lo, hi, R, ls.
      rewrite list_lookup_insert_eq by lia. done.
    + rewrite list_lookup_insert_ne in Hj by done. rewrite list_lookup_insert_ne by done.
      destruct (I3 j zj Hj) as (lo' & hi' & R' & ls' & Hb' & HR & S'). exists lo', hi', R', ls'. split_and!; try done.
      eapply zstate_frame; [exact S'| |exact Hs|by eapply ranges_disjoint].
      destruct S as [E _ _ _ _ _], S' as [E' _ _ _ _ _]. congruence.
  - intros j R' Hj HR. destruct (decide (i = j)) as [<-|Hne].
    + by rewrite list_lookup_insert_eq in Hj by done.
    + rewrite list_lookup_insert_ne in Hj by done. rewrite list_lookup_insert_ne in HR by done. eauto.
Qed.
End Node.

(** Consecutive ranges, as the constructor computes them. *)
Fixpoint consecutive (lo : Z) (bs : list (Z * Z)) : Prop :=
  match bs with
  | [] => True
  | (l, h) :: bs => l = lo /\ lo <= h /\ consecutive h bs
  end.

Fixpoint top (lo : Z) (bs : list (Z * Z)) : Z :=
  match bs with [] => lo | (_, h) :: bs => top h bs end.

Lemma consecutive_top lo bs : consecutive lo bs -> lo <= top lo bs.
Proof.
  revert lo. induction bs as [|[l h] bs IH]; intros lo H; simpl in *; [lia|]. destruct H as (-> & H1 & H2).
  specialize (IH h H2). lia.
Qed.

Lemma consecutive_lookup lo bs i l h :
  consecutive lo bs -> bs !! i = Some (l, h) -> lo <= l <= h /\ h <= top lo bs.
Proof.
  revert lo i. induction bs as [|[l0 h0] bs IH]; intros lo i H Hi; [done|]. destruct H as (-> & H1 & H2).
  pose proof (consecutive_top h0 bs H2). destruct i as [|i]; simpl in *; [simplify_eq; lia|].
  specialize (IH h0 i H2 Hi). lia.
Qed.

Lemma consecutive_bounds lo bs : 0 <= lo -> consecutive lo bs -> bounds_ok bs (top lo bs).
Proof.
  intros Hlo H. split.
  - intros i l h Hi. pose proof (consecutive_lookup lo bs i l h H Hi). lia.
  - revert lo Hlo H. induction bs as [|[l0 h0] bs IH]; intros lo Hlo H i j l h l' h' Hij Hi Hj; [done|].
    destruct H as (-> & H1 & H2). destruct i as [|i], j as [|j]; try lia; simpl in *.
    + simplify_eq. apply (consecutive_lookup h bs j l' h' H2) in Hj. lia.
    + eapply (IH h0); [lia|done| |done..]. lia.
Qed.

Lemma zone_bounds_consecutive lo pfns : consecutive lo (zone_bounds lo pfns).
Proof.
  revert lo. induction pfns as [|p pfns IH]; intros lo; simpl; [done|]. split; [done|]. split; [|apply IH].
  unfold Max. case_ifs; zb; lia.
Qed.

Lemma calculate_total_pages_spec lo bs total :
  consecutive lo bs -> 0 <= total -> total + (top lo bs - lo) < 2 ^ 64 -> 0 <= lo ->
  fold_ (fun total '(lo, hi) => _ ← assert_ (lo <=? hi); Ret (u64 (total + u64 (hi - lo)))) bs total =
    Ret (total + (top lo bs - lo)).
Proof.
  revert lo total. induction bs as [|[l h] bs IH]; intros lo total H Ht Hb Hlo; simpl in *; [by rewrite Z.sub_diag, Z.add_0_r|].
  destruct H as (-> & H1 & H2). rewrite (proj2 (Z.leb_le _ _) H1). simpl.
  pose proof (consecutive_top h bs H2). rewrite (u64_small (h - lo)), u64_small by lia.
  rewrite (IH h) by (done || lia). f_equal. lia.
Qed.

Lemma init_zones_inv mc n i lo bs npn :
  consecutive lo bs -> 0 <= lo -> top lo bs <= npn -> npn < 2 ^ 64 -> node_page_num n = npn ->
  exists n' zs Rs, init_zones mc n i bs = Ret (n', zs) /\ node_inv bs npn n' zs Rs /\ length zs = length bs /\
    (forall x, x < lo -> next n' !! x = next n !! x) /\
    (forall j l h, bs !! j = Some (l, h) -> (zs !! j = Some None <-> l = h)).
Proof.
  revert n i lo. induction bs as [|[l h] bs IH]; intros n i lo H Hlo Ht Hb Hn; cbn [init_zones].
  { exists n, [], []. split; [done|]. split; [by split|done]. }
  destruct H as (-> & H1 & H2). simpl top in Ht. pose proof (consecutive_top h bs H2) as Htop.
  destruct (Z.eqb_spec h lo) as [->|Hne].
  - destruct (IH n (S i) lo H2 Hlo Ht Hb Hn) as (n' & zs & Rs & -> & I & Hl & Hf & He). simpl.
    exists n', (None :: zs), ([] :: Rs). split; [done|]. split; [|split; [simpl; lia|split; [done|]]].
    + destruct I as [I1 I2 I3 I4]. split; [simpl; lia|done| |].
      * intros [|j] z Hz; [done|]. apply (I3 j z Hz).
      * intros [|j] R Hz HR; [by injection HR|]. by apply (I4 j).
    + intros [|j] l' h' Hj; [by simplify_eq/=|]. by apply (He j).
  - unfold newZone. rewrite (proj2 (Z.ltb_lt lo h)) by lia. simpl.
    rewrite u64_small by lia. set (z0 := mkZone _ _ _ _ _).
    destruct (free_area_init_state lo (h - lo) npn ltac:(lia) n z0 Hn ltac:(lia) eq_refl eq_refl)
      as (n1 & z1 & ls & -> & S1 & K1). simpl.
    destruct (IH n1 (S i) h H2 ltac:(lia) Ht Hb (zs_num _ _ _ _ _ _ _ S1)) as (n' & zs & Rs & -> & I & Hl & Hf & He). simpl.
    eexists n', (Some z1 :: zs), (_ :: Rs). split; [done|]. split; [|split; [simpl; lia|split]].
    + destruct I as [I1 I2 I3 I4]. split; [simpl; lia|done| |].
      * intros [|j] z Hz; [|apply (I3 j z Hz)]. simpl in Hz. simplify_eq. exists lo, h. eexists _, ls. split; [done|].
        split; [done|]. destruct S1 as [S1 S2 S3 S4 S5 S6]. split; try done.
        intros k a m Ha Hm. pose proof (S4 k a m Ha Hm) as [r1 r2 r3 r4 r5]. split; try done.
        eapply chain_ext; [|exact r4]. intros x Hx. apply Hf.
        assert (Hin : x ∈ seqZ lo (h - lo)).
        { rewrite <- S5. apply elem_of_app. left. by eapply elem_of_list_pages. }
        apply elem_of_seqZ in Hin. lia.
      * intros [|j] R Hz HR; [done|]. by apply (I4 j).
    + intros x Hx. rewrite Hf by lia. apply (k_next _ _ _ _ _ _ K1). rewrite elem_of_seqZ. lia.
    + intros [|j] l' h' Hj; [|by apply (He j)]. simplify_eq/=. split; [done|lia].
Qed.

Definition config_ok (mc : mem_config) : Prop :=
  length (max_zone_pfns mc) = 4%nat /\ Forall (in_u 64) (max_zone_pfns mc).

Lemma node_bounds_consecutive p pfns : 0 <= p -> consecutive 0 (node_bounds 0 (p :: pfns)).
Proof. intros Hp. simpl. split; [done|]. split; [done|]. apply zone_bounds_consecutive. Qed.

Lemma zone_bounds_top lo pfns b : lo < b -> Forall (fun p => p < b) pfns -> top lo (zone_bounds lo pfns) < b.
Proof.
  revert lo. induction pfns as [|p pfns IH]; intros lo Hlo Hp; simpl; [done|]. apply Forall_cons in Hp as [Hp Hps].
  apply IH; [|done]. unfold Max. case_ifs; lia.
Qed.

(** What [newMemoryNode] builds: a node that satisfies the invariant. *)
Lemma newMemoryNode_inv mc m :
  config_ok mc -> newMemoryNode mc 0 = Ret m ->
  exists bs Rs, let npn := node_page_num (node_pages m) in
    bounds_ok bs npn /\ node_inv bs npn (node_pages m) (node_zones m) Rs /\
    length (node_zones m) = 4%nat /\ is_Some (the_zone m Zone_Normal).
Proof.
  intros [Hl Hp] H. unfold newMemoryNode in H. destruct (max_zone_pfns mc) as [|p pfns] eqn:E; [done|].
  assert (Z.shiftr 0 (page_shift mc) = 0) as Es by apply Z.shiftr_0_l. rewrite Es in H.
  apply Forall_cons in Hp as [[Hp0 Hp1] Hps].
  pose proof (node_bounds_consecutive p pfns Hp0) as Hc. set (bs := node_bounds 0 (p :: pfns)) in *.
  assert (Ht : top 0 bs < 2 ^ 64).
  { subst bs. simpl. apply zone_bounds_top; [done|]. eapply Forall_impl; [exact Hps|]. intros x [? ?]. done. }
  pose proof (consecutive_top 0 bs Hc) as Ht0.
  unfold calculate_total_pages in H. rewrite (calculate_total_pages_spec 0 bs 0) in H by (done || lia).
  rewrite Z.sub_0_r, Z.add_0_l in H. cbv [mbind outcome_bind] in H.
  destruct (init_zones_inv mc (mkNode (top 0 bs) ∅ ∅) 0 0 bs (top 0 bs) Hc ltac:(lia) ltac:(lia) Ht eq_refl)
    as (n' & zs & Rs & E' & I & Hlen & _ & _). rewrite E' in H. cbv beta iota in H.
  destruct (zs !! 2%nat) as [[z|]|] eqn:Ez; try done. destruct (assert_ _); [|done]. injection H as <-.
  exists bs, Rs. simpl. rewrite (ni_num _ _ _ _ _ I). split; [by apply consecutive_bounds|]. split; [done|].
  split; [|unfold the_zone; simpl; rewrite Ez; by eexists].
  rewrite Hlen. subst bs. simpl in Hl |- *. f_equal.
  assert (Hz : forall lo q, length (zone_bounds lo q) = length q) by (intros lo q; revert lo; induction q; simpl; auto).
  rewrite Hz. lia.
Qed.

(** ** Histories of the allocator *)

Lemma concat_insert_app {A} (Rs : list (list A)) i X R :
  Rs !! i = Some R -> concat (<[i := X ++ R]> Rs) ≡ₚ X ++ concat Rs.
Proof.
  revert i. induction Rs as [|K Rs IH]; intros [|i] Hi; try done; simpl in *.
  - injection Hi as ->. by rewrite app_assoc.
  - rewrite (IH i Hi). solve_Permutation.
Qed.

Section Histories.
Context (bs : list (Z * Z)) (npn : Z) (B : bounds_ok bs npn).

Definition buddy_ok (b : BuddyAllocator) (Rs : list (list Z)) : Prop :=
  node_inv bs npn (node_pages (mem_node b)) (node_zones (mem_node b)) Rs /\ is_Some (the_zone (mem_node b) Zone_Normal).

Lemma gfp_zone_some m flag :
  is_Some (the_zone m Zone_Normal) -> exists t z, gfp_zone m flag = Ret t /\ the_zone m t = Some z.
Proof.
  intros [z Hz]. unfold gfp_zone. destruct (the_zone m Zone_DMA) eqn:E1, (the_zone m Zone_DMA32) eqn:E2, (the_zone m Zone_HighMem) eqn:E3;
    rewrite ?Hz; case_ifs; eauto.
Qed.

Lemma the_zone_lookup m t z : the_zone m t = Some z -> node_zones m !! zone_index t = Some (Some z).
Proof. unfold the_zone. by destruct (node_zones m !! zone_index t) as [[?|]|]; simpl; intros; simplify_eq. Qed.

Lemma put_zone_normal b t n z fpn z0 :
  the_zone (mem_node b) t = Some z0 -> is_Some (the_zone (mem_node b) Zone_Normal) ->
  is_Some (the_zone (mem_node (put_zone b t n z fpn)) Zone_Normal).
Proof.
  intros H0%the_zone_lookup [z1 H1%the_zone_lookup]. unfold the_zone. simpl.
  destruct (decide (zone_index t = zone_index Zone_Normal)) as [E|E].
  - rewrite E, list_lookup_insert_eq; [by eexists|]. rewrite <- E. by eapply lookup_lt_Some.
  - rewrite list_lookup_insert_ne by done. simpl in H1. rewrite H1. by eexists.
Qed.

Lemma allocate_pages_ok b Rs gfp order :
  buddy_ok b Rs ->
  (exists b', allocate_pages b gfp order = Ret (None, b') /\ buddy_ok b' Rs) \/
  (exists p b' Rs', allocate_pages b gfp order = Ret (Some p, b') /\ buddy_ok b' Rs' /\
     concat Rs' ≡ₚ block_pages order p ++ concat Rs).
Proof.
  intros [I N]. unfold allocate_pages. destruct (Nat.leb_spec MAXORDER order) as [Ho|Ho]; [left; by exists b|].
  destruct (gfp_zone_some (mem_node b) gfp N) as (t & z & -> & Hz). simpl. rewrite Hz.
  pose proof (the_zone_lookup _ _ _ Hz) as Hzi.
  destruct (ni_zone _ _ _ _ _ I _ z Hzi) as (lo & hi & R & ls & Hb & HR & S).
  assert (Hin : lo + (hi - lo) <= npn) by (pose proof (b_top _ _ B _ _ _ Hb); lia).
  pose proof (allocate_state lo (hi - lo) npn Hin _ z (free_page_num b) ls R order S ltac:(lia)) as HA. unfold allocated in HA.
  destruct (first_block (drop order ls)) as [p|].
  - right. destruct HA as (n' & z' & ls' & -> & S' & _ & K & _). simpl.
    exists p. eexists _, (<[zone_index t := block_pages order p ++ R]> Rs). split; [done|]. split; [split|].
    + eapply node_update; [done|done|exact Hb|by eapply lookup_lt_Some|apply K|exact S'].
    + by eapply put_zone_normal.
    + by apply concat_insert_app.
  - left. rewrite HA. simpl. eexists. split; [done|]. split; [|by eapply put_zone_normal].
    simpl. by rewrite list_insert_id.
Qed.

(** What a page release does: no list of any zone changes. *)
Lemma free_page_ok b Rs p b' :
  buddy_ok b Rs -> free_page b p = Ret b' ->
  buddy_ok b' Rs /\ forall t z ls lo hi R, the_zone (mem_node b) t = Some z -> bs !! zone_index t = Some (lo, hi) ->
    zstate lo (hi - lo) npn (node_pages (mem_node b)) z ls R ->
    exists z', the_zone (mem_node b') t = Some z' /\ zstate lo (hi - lo) npn (node_pages (mem_node b')) z' ls R.
Proof.
  intros [I N] H. unfold free_page in H. apply bind_ret_inv in H as ([d n1] & H1 & H).
  destruct (p_zone d) as [t|]; [|done]. destruct (the_zone (mem_node b) t) as [z|] eqn:Hz; [|done].
  apply bind_ret_inv in H as ([n2 z2] & H2 & H). injection H as <-.
  apply (get_page_ptr_untouched _ _ _ _ z) in H1. apply free_one_page_untouched in H2.
  pose proof (untouched_trans _ _ _ _ _ _ H1 H2) as U. pose proof (the_zone_lookup _ _ _ Hz) as Hzi.
  assert (Hother : forall z0 ls lo hi R, zstate lo (hi - lo) npn (node_pages (mem_node b)) z0 ls R ->
    zstate lo (hi - lo) npn n2 z0 ls R).
  { intros z0 ls lo hi R. apply zstate_node; apply U. }
  destruct (ni_zone _ _ _ _ _ I _ z Hzi) as (lo & hi & R & ls & Hb & HR & S).
  split; [split; [|by eapply put_zone_normal]|].
  - rewrite <- (list_insert_id Rs (zone_index t) R HR).
    eapply node_update; [done|done|exact Hb|by eapply lookup_lt_Some| |by eapply untouched_state].
    intros x _. simpl. by rewrite (un_next _ _ _ _ U).
  - intros t0 z0 ls0 lo0 hi0 R0 Hz0 Hb0 S0. unfold the_zone. simpl.
    destruct (decide (zone_index t = zone_index t0)) as [E|E].
    + rewrite E, list_lookup_insert_eq by (rewrite <- E; by eapply lookup_lt_Some).
      exists z2. split; [done|]. apply the_zone_lookup in Hz0. rewrite <- E, Hzi in Hz0. injection Hz0 as <-.
      exact (untouched_state _ _ _ _ _ _ _ _ _ U S0).
    + rewrite list_lookup_insert_ne by done. exists z0. split; [exact Hz0|]. by apply Hother.
Qed.
End Histories.

(** Requests and releases, with the blocks handed out so far. *)
Inductive buddy_step : BuddyAllocator * list (Z * nat) -> BuddyAllocator * list (Z * nat) -> Prop :=
  | step_allocate b L gfp order p b' :
      allocate_pages b gfp order = Ret (Some p, b') -> buddy_step (b, L) (b', (p, order) :: L)
  | step_refused b L gfp order b' :
      allocate_pages b gfp order = Ret (None, b') -> buddy_step (b, L) (b', L)
  | step_release b L p b' :
      free_page b p = Ret b' -> buddy_step (b, L) (b', L).

Definition handed_out (L : list (Z * nat)) : list Z := L ≫= fun '(p, o) => block_pages o p.

Definition history_ok (bs : list (Z * Z)) (npn : Z) (s : BuddyAllocator * list (Z * nat)) : Prop :=
  exists Rs rest, buddy_ok bs npn (fst s) Rs /\ handed_out (snd s) ++ rest ≡ₚ concat Rs.

Lemma buddy_step_ok bs npn s s' : bounds_ok bs npn -> buddy_step s s' -> history_ok bs npn s -> history_ok bs npn s'.
Proof.
  intros B Hs (Rs & rest & Hb & HP). destruct Hs as [b L gfp order p b' H|b L gfp order b' H|b L p b' H]; simpl in *.
  - destruct (allocate_pages_ok bs npn B b Rs gfp order Hb) as [(b1 & H1 & _)|(p1 & b1 & Rs1 & H1 & Hb1 & HP1)]; [congruence|].
    assert (p1 = p /\ b1 = b') as [-> ->] by (split; congruence).
    exists Rs1, rest. split; [done|]. simpl. rewrite HP1, <- HP, app_assoc. done.
  - destruct (allocate_pages_ok bs npn B b Rs gfp order Hb) as [(b1 & H1 & Hb1)|(p1 & b1 & Rs1 & H1 & _)]; [|congruence].
    assert (b1 = b') as -> by congruence. by exists Rs, rest.
  - exists Rs, rest. split; [|done]. by eapply free_page_ok.
Qed.

Lemma history_start mc m size b :
  config_ok mc -> newMemoryNode mc 0 = Ret m -> newBuddy size (page_shift mc) m = Ret b ->
  exists bs, bounds_ok bs (node_page_num (node_pages m)) /\ history_ok bs (node_page_num (node_pages m)) (b, []).
Proof.
  intros Hc Hm Hb. destruct (newMemoryNode_inv mc m Hc Hm) as (bs & Rs & B & I & _ & N).
  exists bs. split; [done|]. unfold newBuddy in Hb. outcome_steps. exists Rs, (concat Rs). split; [by split|done].
Qed.

(** C3: From the node the configuration builds, whatever pages are requested and
    released in whatever order: no page is ever handed out twice, every page
    handed out is a page of the node, and a request never fails an assert. *)
Theorem allocations_disjoint mc m size b b' L :
  config_ok mc -> newMemoryNode mc 0 = Ret m -> newBuddy size (page_shift mc) m = Ret b ->
  rtc buddy_step (b, []) (b', L) ->
  NoDup (handed_out L) /\ (forall x, x ∈ handed_out L -> 0 <= x < node_page_num (node_pages m)) /\
  (forall gfp order, is_ret (allocate_pages b' gfp order) = true).
Proof.
  intros Hc Hm Hb Hr. destruct (history_start mc m size b Hc Hm Hb) as (bs & B & H0).
  assert (Hh : history_ok bs (node_page_num (node_pages m)) (b', L)).
  { eapply rtc_invariant; [|exact Hr|exact H0]. intros s s' Hi Hs. by eapply buddy_step_ok. }
  destruct Hh as (Rs & rest & [I N] & HP). destruct (node_pages_distinct _ _ _ _ _ B I) as [Hn Hx]. simpl in HP.
  rewrite <- HP in Hn. apply NoDup_app in Hn as (Hn & _ & _). split_and!; [done| |].
  - intros x Hin. apply Hx. rewrite <- HP. apply elem_of_app. by left.
  - intros gfp order. destruct (allocate_pages_ok bs _ B b' Rs gfp order (conj I N)) as [(b1 & -> & _)|(p1 & b1 & Rs1 & -> & _)]; done.
Qed.

Definition demo_mem_config : mem_config := mkMemConfig [0; 0; 37; 0] 4096 12 0 2.
Definition demo_node : MemoryNode :=
  match newMemoryNode demo_mem_config 0 with Ret m => m | Stop _ => mkMemoryNode (mkNode 0 ∅ ∅) [] end.
Definition demo_buddy : BuddyAllocator := mkBuddy demo_node 37.
Definition demo_after (b : BuddyAllocator) (order : nat) : BuddyAllocator :=
  match allocate_pages b 0 order with Ret (_, b') => b' | Stop _ => b end.

Lemma allocations_disjoint_witness :
  newMemoryNode demo_mem_config 0 = Ret demo_node /\
  allocate_pages demo_buddy 0 1 = Ret (Some 32, demo_after demo_buddy 1) /\
  NoDup (handed_out [(34, 0%nat); (32, 1%nat)]).
Proof.
  split; [vm_compute; reflexivity|]. split; [vm_compute; reflexivity|].
  refine (proj1 (allocations_disjoint demo_mem_config demo_node (37 * 4096) demo_buddy
    (demo_after (demo_after demo_buddy 1) 0) [(34, 0%nat); (32, 1%nat)] _ _ _ _)).
  - split; [done|]. repeat constructor; vm_compute; done.
  - vm_compute; reflexivity.
  - reflexivity.
  - eapply rtc_l; [apply (step_allocate demo_buddy [] 0 1 32); vm_compute; reflexivity|].
    eapply rtc_l; [apply (step_allocate _ _ 0 0 34); vm_compute; reflexivity|]. apply rtc_refl.
Defined.

(** [free_area_init_zone] succeeds on any zone inside the node and leaves, on
    its lists, blocks of 2 to 2048 pages, each starting at a multiple of its
    size from the first page of the zone, that cover every page of the zone
    exactly once, save the last page of a zone with an odd number of pages,
    which no list holds. *)
Theorem free_area_init_covers lo num npn n z :
  0 <= num -> lo + num <= npn -> node_page_num n = npn -> zone_start_pfn z = lo -> free_pages z = num ->
  exists n' z' ls, free_area_init_zone n z = Ret (n', z') /\
    (forall i a l, free_area z' !! i = Some a -> ls !! i = Some l -> rep (next n') (block_list a) l) /\
    (forall i l b, ls !! i = Some l -> b ∈ l -> (2 ^ Z.of_nat i | b - lo)) /\
    list_pages 0 ls ≡ₚ seqZ lo (num - num mod 2).
Proof.
  intros Hnum Hin Hn Hlo Hfp. destruct (free_area_init_state lo num npn Hin n z Hn Hnum Hlo Hfp) as (n' & z' & ls & E & S & _).
  exists n', z', ls. split; [done|]. destruct S as [_ _ _ S4 S5 S6]. split_and!; [done..|].
  pose proof (Z.mod_pos_bound num 2 ltac:(lia)). pose proof (Z.mod_le num 2 Hnum ltac:(lia)).
  apply (Permutation_app_inv_r (seqZ (lo + num - num mod 2) (num mod 2))). rewrite S5.
  replace (lo + num - num mod 2) with (lo + (num - num mod 2)) by lia.
  rewrite <- seqZ_app by lia. by replace (num - num mod 2 + num mod 2) with num by lia.
Qed.

Definition demo_zone : Zone := mkZone Zone_Normal 100 37 [] [].

Lemma free_area_init_covers_witness :
  exists n' z' ls, free_area_init_zone (mkNode 200 ∅ ∅) demo_zone = Ret (n', z') /\
    list_pages 0 ls ≡ₚ seqZ 100 36.
Proof.
  destruct (free_area_init_covers 100 37 200 (mkNode 200 ∅ ∅) demo_zone ltac:(lia) ltac:(lia) eq_refl eq_refl eq_refl)
    as (n' & z' & ls & H1 & _ & _ & H2).
  exists n', z', ls. by split.
Defined.

(** An allocation of order [order] from a zone takes the head of the first
    non-empty list of at least that order and returns null exactly when there is
    none; the split halves go to the lists, so that the pages of the free lists,
    of the returned block and of the blocks already out stay the pages of the
    zone, each once; the block starts at a multiple of its size.
    [free_page_num] drops by the pages taken, but [free_pages] of the zone only
    by [1 >> order]: it does not change for orders above 0. *)
Theorem allocate_behaviour lo num npn n z fpn ls R order :
  lo + num <= npn -> zstate lo num npn n z ls R -> (order <= MAXORDER)%nat ->
  allocated lo num npn n z fpn ls R order (allocate_pages_zone n z fpn order) /\
  (forall page n' z' fpn', allocate_pages_zone n z fpn order = Ret (Some page, n', z', fpn') ->
     (0 < order)%nat -> 0 <= free_pages z < 2 ^ 64 -> free_pages z' = free_pages z).
Proof.
  intros Hin S Ho. pose proof (allocate_state lo num npn Hin n z fpn ls R order S Ho) as HA. split; [done|].
  intros page n' z' fpn' E Hpos Hfp. unfold allocated in HA. rewrite E in HA.
  destruct (first_block (drop order ls)) as [p|]; [|congruence].
  destruct HA as (n1 & z1 & ls1 & E1 & _ & Hf & _). simplify_eq. rewrite Hf.
  rewrite (Z.shiftr_eq_0 1 (Z.of_nat order)) by (simpl; lia). rewrite Z.sub_0_r. by apply u64_small.
Qed.

Lemma allocate_behaviour_witness :
  exists n' z' ls R fpn', zstate 100 37 200 n' z' ls R /\
    (forall page n1 z1, allocate_pages_zone n' z' 50 3 = Ret (Some page, n1, z1, fpn') -> free_pages z1 = 37).
Proof.
  destruct (free_area_init_state 100 37 200 ltac:(lia) (mkNode 200 ∅ ∅) demo_zone eq_refl ltac:(lia) eq_refl eq_refl)
    as (n' & z' & ls & H1 & S & K).
  exists n', z', ls, (seqZ (100 + 37 - 37 mod 2) (37 mod 2)), 42. split; [done|]. intros page n1 z1 E.
  assert (Ef : free_pages z' = 37) by (destruct K as [_ _ K _ _]; rewrite K; reflexivity).
  rewrite <- Ef.
  apply (proj2 (allocate_behaviour 100 37 200 n' z' 50 ls _ 3 ltac:(lia) S ltac:(unfold MAXORDER; lia)) page n1 z1 42 E);
    [lia|rewrite Ef; lia].
Defined.

(** The pages a request would get, by the lists of the zone it goes to. *)
Lemma allocate_pages_page bs npn b Rs gfp order t z ls lo hi R :
  bounds_ok bs npn -> buddy_ok bs npn b Rs -> (order < MAXORDER)%nat -> gfp_zone (mem_node b) gfp = Ret t ->
  the_zone (mem_node b) t = Some z -> bs !! zone_index t = Some (lo, hi) ->
  zstate lo (hi - lo) npn (node_pages (mem_node b)) z ls R ->
  exists b', allocate_pages b gfp order = Ret (first_block (drop order ls), b').
Proof.
  intros B [I N] Ho Hg Hz Hb S. unfold allocate_pages. rewrite (proj2 (Nat.leb_gt _ _) Ho), Hg. simpl. rewrite Hz.
  assert (Hin : lo + (hi - lo) <= npn) by (pose proof (b_top _ _ B _ _ _ Hb); lia).
  pose proof (allocate_state lo (hi - lo) npn Hin _ z (free_page_num b) ls R order S ltac:(lia)) as HA. unfold allocated in HA.
  destruct (first_block (drop order ls)) as [p|].
  - destruct HA as (n' & z' & ls' & -> & _). simpl. eauto.
  - rewrite HA. simpl. eauto.
Qed.

Lemma gfp_zone_ext m m' flag :
  (forall t, is_Some (the_zone m t) <-> is_Some (the_zone m' t)) -> gfp_zone m flag = gfp_zone m' flag.
Proof.
  intros H. unfold gfp_zone.
  pose proof (H Zone_DMA) as H1. pose proof (H Zone_DMA32) as H2. pose proof (H Zone_HighMem) as H3. pose proof (H Zone_Normal) as H4.
  destruct (the_zone m Zone_DMA), (the_zone m' Zone_DMA), (the_zone m Zone_DMA32), (the_zone m' Zone_DMA32),
    (the_zone m Zone_HighMem), (the_zone m' Zone_HighMem), (the_zone m Zone_Normal), (the_zone m' Zone_Normal);
    try done; exfalso; rewrite ?is_Some_alt in *; tauto.
Qed.

Lemma free_page_zones b p b' t :
  free_page b p = Ret b' -> is_Some (the_zone (mem_node b) t) <-> is_Some (the_zone (mem_node b') t).
Proof.
  unfold free_page. intros H. apply bind_ret_inv in H as ([d n1] & H1 & H). destruct (p_zone d) as [t0|]; [|done].
  destruct (the_zone (mem_node b) t0) as [z|] eqn:Hz; [|done]. apply bind_ret_inv in H as ([n2 z2] & H2 & H). injection H as <-.
  pose proof (the_zone_lookup _ _ _ Hz) as Hzi. unfold the_zone. simpl.
  destruct (decide (zone_index t0 = zone_index t)) as [E|E].
  - rewrite <- E, list_lookup_insert_eq, Hzi by (by eapply lookup_lt_Some). simpl. split; eauto.
  - by rewrite list_lookup_insert_ne.
Qed.

(** Releasing a page gives nothing back.  After any history, a successful
    [free_one_page] of a page leaves every later request with the same answer
    (the same page, or null) as without the release; and no existing descriptor
    of a page number of 2048 or more is written, the released page included:
    its number is reduced modulo 2048 before the descriptor is looked up. *)
Theorem free_page_never_recycles mc m size b b' L page b'' :
  config_ok mc -> newMemoryNode mc 0 = Ret m -> newBuddy size (page_shift mc) m = Ret b ->
  rtc buddy_step (b, []) (b', L) -> free_page b' page = Ret b'' ->
  (forall gfp order, exists r b1 b2, allocate_pages b' gfp order = Ret (r, b1) /\ allocate_pages b'' gfp order = Ret (r, b2)) /\
  (forall q d, 2048 <= q -> node_mem_map (node_pages (mem_node b')) !! q = Some d ->
     node_mem_map (node_pages (mem_node b'')) !! q = Some d).
Proof.
  intros Hc Hm Hb Hr Hf. destruct (history_start mc m size b Hc Hm Hb) as (bs & B & H0).
  assert (Hh : history_ok bs (node_page_num (node_pages m)) (b', L)).
  { eapply rtc_invariant; [|exact Hr|exact H0]. intros s s' Hi Hs. by eapply buddy_step_ok. }
  destruct Hh as (Rs & rest & [I N] & _). simpl in I, N.
  destruct (free_page_ok bs _ B b' Rs page b'' (conj I N) Hf) as [Hok Hz]. split.
  - intros gfp order. destruct (Nat.leb_spec MAXORDER order) as [Ho|Ho].
    { unfold allocate_pages. rewrite (proj2 (Nat.leb_le _ _) Ho). eauto. }
    destruct (gfp_zone_some (mem_node b') gfp N) as (t & z & Hg & Ht).
    destruct (ni_zone _ _ _ _ _ I _ z (the_zone_lookup _ _ _ Ht)) as (lo & hi & R & ls & Hbt & _ & S).
    destruct (Hz t z ls lo hi R Ht Hbt S) as (z' & Ht' & S').
    destruct (allocate_pages_page bs (node_page_num (node_pages m)) b' Rs gfp order t z ls lo hi R) as [b1 E1]; [done..|].
    destruct (allocate_pages_page bs (node_page_num (node_pages m)) b'' Rs gfp order t z' ls lo hi R) as [b2 E2]; [done|done|done| |done..|].
    { rewrite <- Hg. symmetry. apply gfp_zone_ext. intros t'. by eapply free_page_zones. }
    eauto.
  - unfold free_page in Hf. apply bind_ret_inv in Hf as ([d n1] & H1 & Hf). destruct (p_zone d) as [t|]; [|done].
    destruct (the_zone (mem_node b') t) as [z|]; [|done]. apply bind_ret_inv in Hf as ([n2 z2] & H2 & Hf). injection Hf as <-.
    intros q d0 Hq Hd. simpl. apply free_one_page_untouched in H2.
    apply (un_pages _ _ _ _ H2); [done|]. apply (un_pages _ _ _ _ (get_page_ptr_untouched _ _ _ _ z H1)); done.
Qed.

Definition demo_three : BuddyAllocator := demo_after (demo_after (demo_after demo_buddy 0) 0) 1.
Definition demo_freed : BuddyAllocator := match free_page demo_three 32 with Ret b => b | Stop _ => demo_three end.

Lemma free_page_never_recycles_witness :
  free_page demo_three 32 = Ret demo_freed /\
  exists r b1 b2, allocate_pages demo_three 0 0 = Ret (r, b1) /\ allocate_pages demo_freed 0 0 = Ret (r, b2).
Proof.
  split; [vm_compute; reflexivity|].
  refine (proj1 (free_page_never_recycles demo_mem_config demo_node (37 * 4096) demo_buddy demo_three
    [(34, 1%nat); (33, 0%nat); (32, 0%nat)] 32 demo_freed _ _ _ _ _) 0 0%nat).
  - split; [done|]. repeat constructor; vm_compute; done.
  - vm_compute; reflexivity.
  - reflexivity.
  - eapply rtc_l; [apply (step_allocate demo_buddy [] 0 0 32); vm_compute; reflexivity|].
    eapply rtc_l; [apply (step_allocate _ _ 0 0 33); vm_compute; reflexivity|].
    eapply rtc_l; [apply (step_allocate _ _ 0 1 34); vm_compute; reflexivity|]. apply rtc_refl.
  - vm_compute; reflexivity.
Defined.

(** ** Per-cpu lists *)

Lemma get_put_cpu_pages z cpu cold p q :
  get_cpu_pages z cpu cold = Ret p ->
  exists z', put_cpu_pages z cpu cold q = Ret z' /\ get_cpu_pages z' cpu cold = Ret q /\
    free_area z' = free_area z /\ free_pages z' = free_pages z.
Proof.
  unfold get_cpu_pages, put_cpu_pages. intros H. apply bind_ret_inv in H as ([hot cld] & H1 & H).
  rewrite H1. simpl. pose proof (proj1 (at_ret_iff _ _ _) H1) as [H0 Hl].
  assert (Hlen : (Z.to_nat cpu < length (page_set z))%nat) by (by eapply lookup_lt_Some).
  unfold set_at. rewrite bool_decide_true by lia. simpl. eexists. split; [done|].
  rewrite (proj2 (at_ret_iff _ cpu (if cold then (hot, q) else (q, cld)))).
  - by destruct cold.
  - split; [lia|]. simpl. by rewrite list_lookup_insert_eq.
Qed.

(** A page taken from a per-cpu list is not removed from it: with more than
    [low + 1] pages counted, two consecutive order-0 requests of a core return
    the same page, and nothing of the buddy lists changes. *)
Theorem buffered_rmqueue_repeats n z fpn gfp cpu p low page rest :
  get_cpu_pages z cpu (negb (Z.land gfp GFP_COLD =? 0)) = Ret p -> page_list p = page :: rest ->
  pcp_low p = Some low -> low + 1 < pcp_count p < 2 ^ 32 -> 0 <= low ->
  exists z1 z2, buffered_rmqueue n z fpn gfp 0 cpu = Ret (Some page, n, z1, fpn) /\
    buffered_rmqueue n z1 fpn gfp 0 cpu = Ret (Some page, n, z2, fpn) /\ free_area z2 = free_area z.
Proof.
  intros Hp Hl Hlow Hc H0. unfold buffered_rmqueue. simpl. rewrite Hp. simpl. unfold refill at 1. rewrite Hl, Hlow.
  rewrite (proj2 (Z.leb_gt _ _)) by lia. simpl. rewrite Hl.
  edestruct (get_put_cpu_pages z cpu) as (z1 & E1 & G1 & F1 & _); [exact Hp|]. rewrite E1. simpl.
  exists z1. rewrite G1. simpl. unfold refill. simpl. rewrite Hlow, u32_small by lia.
  rewrite (proj2 (Z.leb_gt _ _)) by lia. simpl.
  edestruct (get_put_cpu_pages z1 cpu) as (z2 & E2 & _ & F2 & _); [exact G1|]. rewrite E2. simpl.
  exists z2. split; [done|]. split; [done|congruence].
Qed.

Lemma buffered_rmqueue_repeats_witness :
  let z := mkZone Zone_Normal 0 8 [] [(mkPcp 3 (Some 0) 12 4 [5; 6; 7], mkPcp 0 (Some 0) 12 4 [])] in
  exists z1 z2, buffered_rmqueue (mkNode 8 ∅ ∅) z 8 0 0 0 = Ret (Some 5, mkNode 8 ∅ ∅, z1, 8) /\
    buffered_rmqueue (mkNode 8 ∅ ∅) z1 8 0 0 0 = Ret (Some 5, mkNode 8 ∅ ∅, z2, 8).
Proof.
  intros z. destruct (buffered_rmqueue_repeats (mkNode 8 ∅ ∅) z 8 0 0 (mkPcp 3 (Some 0) 12 4 [5; 6; 7]) 0 5 [6; 7])
    as (z1 & z2 & H1 & H2 & _); [reflexivity|done|done|simpl; lia|lia|].
  by exists z1, z2.
Defined.

(** A zone of fewer than 8192 pages of 4 KB gets a batch of [2^32 - 1] pages. *)
Lemma zone_batchsize_small mc free :
  page_size mc = 4096 -> 0 <= free < 8192 -> zone_batchsize mc free = 2 ^ 32 - 1.
Proof.
  intros Hp Hf. unfold zone_batchsize. rewrite Hp. rewrite Z.shiftr_div_pow2 by lia.
  assert (Hb : 0 <= free / 2 ^ 10 < 8) by (split; [apply Z.div_pos; lia|apply Z.div_lt_upper_bound; lia]).
  set (b := free / 2 ^ 10) in *. assert (E : b = 0 \/ b = 1 \/ b = 2 \/ b = 3 \/ b = 4 \/ b = 5 \/ b = 6 \/ b = 7) by lia.
  clearbody b. destruct_or! E; subst b; reflexivity.
Qed.
