(* ===== verification/Mesi.v ===== *)
(** * MESI coherence in the cache hierarchy

    The controllers [MESIBottomCC], [MESITopCC], [MESICC] and [MESITerminalCC]
    (src/src/coherence_ctrls.h, .cpp) as [Cache::access] and
    [Cache::finishInvalidate] (src/src/cache.cpp) call them, over a tree of
    inclusive caches above [SimpleMemory] (src/src/mem_ctrls.cpp).

    The controllers keep one state and one directory entry per line of the cache
    and never mix lines, so the model follows one line address through the tree:
    [Absent] is [lineId == -1], [Line s e] the states of the line the array
    assigned.  Evictions are steps that can occur at any time at any cache, as
    the replacement policy decides.  Accesses hold the locks of the caches they
    visit; what can change between the unlock of a child and the lock of its
    parent is covered by the initial state of the request. *)

From S2P Require Import Prelude.

Inductive AccessType : Type := GETS | GETX | PUTS | PUTX.
Inductive InvType : Type := INV | INVX | FWD.
Inductive MESIState : Type := I | S | E | M.

#[global] Instance AccessType_eq_dec : EqDecision AccessType.
Proof. solve_decision. Defined.
#[global] Instance InvType_eq_dec : EqDecision InvType.
Proof. solve_decision. Defined.
#[global] Instance MESIState_eq_dec : EqDecision MESIState.
Proof. solve_decision. Defined.

(** [MESITopCC::Entry]. *)
Record Entry : Type := mkEntry {
  numSharers : Z;
  sharers : list bool;
  exclusive : bool
}.

Definition isEmpty (e : Entry) : bool := numSharers e =? 0.
Definition isExclusive (e : Entry) : bool := (numSharers e =? 1) && exclusive e.

(** [accLat] and [invLat] of the cache, its round trips to the parent and back. *)
Record lats : Type := mkLats { accLat : N; invLat : N; parentRTT : N; childRTT : N }.

(** A line that is not in the array knows the stale [exclusive] bit of the entry
    it will be given: an invalidation clears the sharers only. *)
Inductive slot : Type :=
  | Absent (stale : bool)
  | Line (s : MESIState) (e : Entry).

Inductive tree : Type := Node (lt : lats) (sl : slot) (kids : list tree).

Definition slot_state (sl : slot) : MESIState := match sl with Absent _ => I | Line s _ => s end.
Definition state_of (t : tree) : MESIState := match t with Node _ sl _ => slot_state sl end.

Definition set_state (t : tree) (s : MESIState) : tree :=
  match t with
  | Node lt (Line _ e) kids => Node lt (Line s e) kids
  | Node lt (Absent b) kids => Node lt (Absent b) kids
  end.

(** [bcc->isExclusive]. *)
Definition excl (s : MESIState) : bool := match s with E | M => true | _ => false end.

(** ** MESIBottomCC *)

Definition bcc_processInval (s : MESIState) (type : InvType) (wb : bool) : outcome (MESIState * bool) :=
  _ ← assert_ (negb (bool_decide (s = I)));
  match type with
  | INVX => _ ← assert_ (excl s); Ret (S, wb || bool_decide (s = M))
  | INV => Ret (I, wb || bool_decide (s = M))
  | FWD => _ ← assert_ (bool_decide (s = S)); Ret (s, wb)
  end.

Definition processWritebackOnAccess (s : MESIState) : outcome MESIState :=
  _ ← assert_ (excl s); Ret M.

(** ** MESITopCC *)

Section SendInvalidates.
(** [children[c]->invalidate(req)]: the new child, [*reqWriteback] and the cycle. *)
Context (inv : bool -> Z -> tree -> outcome (tree * bool * Z)).

(** The loop over the children that are sharers. *)
Fixpoint send_loop (type : InvType) (cycle : Z) (kids : list tree) (sh : list bool) (wb : bool) (maxCycle sentInvs : Z)
  : outcome (list tree * list bool * bool * Z * Z) :=
  match kids, sh with
  | k :: kids, true :: sh =>
      '(k, wb, resp) ← inv wb cycle k;
      let resp := resp + Z.of_N (match k with Node lt _ _ => childRTT lt end) in
      '(kids, sh, wb, maxCycle, sentInvs) ← send_loop type cycle kids sh wb (Z.max resp maxCycle) (sentInvs + 1);
      Ret (k :: kids, (match type with INV => false | _ => true end) :: sh, wb, maxCycle, sentInvs)
  | k :: kids, b :: sh =>
      '(kids, sh, wb, maxCycle, sentInvs) ← send_loop type cycle kids sh wb maxCycle sentInvs;
      Ret (k :: kids, b :: sh, wb, maxCycle, sentInvs)
  | kids, sh => Ret (kids, sh, wb, maxCycle, sentInvs)
  end.

Definition sendInvalidates (type : InvType) (e : Entry) (kids : list tree) (wb : bool) (cycle : Z)
  : outcome (Entry * list tree * bool * Z) :=
  if bool_decide (type = INVX) && negb (isExclusive e) then Ret (e, kids, wb, cycle)
  else if isEmpty e then Ret (e, kids, wb, cycle)
  else
    '(kids, sh, wb, maxCycle, sentInvs) ← send_loop type cycle kids (sharers e) wb cycle 0;
    _ ← assert_ (sentInvs =? numSharers e);
    match type with
    | INV => Ret (mkEntry 0 sh (exclusive e), kids, wb, maxCycle)
    | _ =>
        _ ← assert_ (exclusive e);
        _ ← assert_ (numSharers e =? 1);
        Ret (mkEntry (numSharers e) sh false, kids, wb, maxCycle)
    end.

Definition tcc_processInval (type : InvType) (e : Entry) (kids : list tree) (wb : bool) (cycle : Z)
  : outcome (Entry * list tree * bool * Z) :=
  match type with
  | FWD => Ret (e, kids, wb, cycle)
  | _ => sendInvalidates type e kids wb cycle
  end.
End SendInvalidates.

(** [Cache::finishInvalidate] with [MESICC::processInv]; for a cache without
    children it is [MESITerminalCC::processInv]. *)
Fixpoint invalidate (type : InvType) (wb : bool) (cycle : Z) (t : tree) : outcome (tree * bool * Z) :=
  match t with
  | Node lt sl kids =>
      let respCycle := cycle + Z.of_N (invLat lt) in
      match sl with
      | Absent b => Ret (Node lt (Absent b) kids, wb, respCycle)
      | Line s e =>
          '(e, kids, wb, respCycle) ← tcc_processInval (invalidate type) type e kids wb respCycle;
          '(s, wb) ← bcc_processInval s type wb;
          Ret (Node lt (Line s e) kids, wb, respCycle)
      end
  end.

(** [MESITopCC::processAccess] for child [i] of [kids]; [*childState] is the state
    of that child.  [PUTX_KEEPEXCL] is never set by the sources. *)
Definition tcc_processAccess (type : AccessType) (i : nat) (haveExclusive noexcl : bool) (e : Entry) (kids : list tree)
  (cycle : Z) : outcome (Entry * list tree * MESIState * bool * Z) :=
  let sharer := default false (sharers e !! i) in
  let put :=
    _ ← assert_ sharer;
    Ret (mkEntry (numSharers e - 1) (<[i := false]> (sharers e)) (exclusive e), kids, I, false, cycle) in
  match type with
  | PUTX => _ ← assert_ (isExclusive e); put
  | PUTS => put
  | GETS =>
      if isEmpty e && haveExclusive && negb noexcl then
        Ret (mkEntry 1 (<[i := true]> (sharers e)) true, kids, E, false, cycle)
      else
        _ ← assert_ (negb sharer);
        '(e, kids, wb, resp) ←
          (if isExclusive e then sendInvalidates (invalidate INVX) INVX e kids false cycle
           else Ret (e, kids, false, cycle));
        _ ← assert_ (negb (isExclusive e));
        Ret (mkEntry (numSharers e + 1) (<[i := true]> (sharers e)) false, kids, S, wb, resp)
  | GETX =>
      _ ← assert_ haveExclusive;
      e ← (if sharer then
             _ ← assert_ (negb (isExclusive e));
             Ret (mkEntry (numSharers e - 1) (<[i := false]> (sharers e)) (exclusive e))
           else Ret e);
      '(e, kids, wb, resp) ← sendInvalidates (invalidate INV) INV e kids false cycle;
      let e := mkEntry (numSharers e + 1) (<[i := true]> (sharers e)) true in
      _ ← assert_ (numSharers e =? 1);
      Ret (e, kids, M, wb, resp)
  end.

(** [CheckForMESIRace]: whether to skip the access, and its type. *)
Definition CheckForMESIRace (type : AccessType) (state initialState : MESIState) : outcome (bool * AccessType) :=
  if bool_decide (state = initialState) then Ret (false, type) else
  match type with
  | PUTS | PUTX =>
      if bool_decide (state = I) then Ret (true, type)
      else _ ← assert_ (bool_decide (state = S)); Ret (false, PUTS)
  | GETX =>
      _ ← assert_ (bool_decide (initialState = S));
      _ ← assert_ (bool_decide (state = I));
      Ret (false, type)
  | GETS => Stop Panicked
  end.

(** ** Requests to the upper levels

    A frame is a cache on the way from a node to the root: its latencies, its
    line, its children and the index of the child on the way. *)
Definition frame : Type := lats * slot * list tree * nat.

Definition plug (f : frame) (t : tree) : tree :=
  match f with (lt, sl, kids, i) => Node lt sl (<[i := t]> kids) end.

(** [SimpleMemory::access]: the state it gives to the last-level cache. *)
Definition memory_state (type : AccessType) (noexcl : bool) : MESIState :=
  match type with PUTS | PUTX => I | GETS => if noexcl then S else E | GETX => M end.

(** The line of a cache after [lookup] and, for a get, the allocation. *)
Definition allocate (sl : slot) (nkids : nat) (type : AccessType) : outcome slot :=
  match sl with
  | Line s e => Ret (Line s e)
  | Absent stale =>
      match type with
      | GETS | GETX => Ret (Line I (mkEntry 0 (replicate nkids false) stale))
      | _ => Stop Panicked
      end
  end.

Section Bottom.
(** [parents[parentId]->access(req)] for the cache as child: the cache, the upper
    levels and the response cycle. *)
Context (up : tree -> AccessType -> MESIState -> Z -> outcome (tree * list frame * Z)) (ctx : list frame).

Definition from_parent (t : tree) (type : AccessType) (cycle : Z) : outcome (tree * list frame * Z) :=
  let rtt := Z.of_N (match t with Node lt _ _ => parentRTT lt end) in
  '(t, ctx, resp) ← up t type (state_of t) cycle;
  let nextLevelLat := u32 (resp - cycle) in
  Ret (t, ctx, cycle + u32 (nextLevelLat + rtt)).

(** [MESIBottomCC::processAccess]. *)
Definition bcc_processAccess (t : tree) (type : AccessType) (cycle : Z) : outcome (tree * list frame * Z) :=
  let s := state_of t in
  '(t, ctx, resp) ←
    match type with
    | PUTS => _ ← assert_ (negb (bool_decide (s = I))); Ret (t, ctx, cycle)
    | PUTX => _ ← assert_ (excl s); Ret (set_state t M, ctx, cycle)
    | GETS =>
        if bool_decide (s = I) then
          '(t, ctx, resp) ← from_parent t GETS cycle;
          _ ← assert_ (bool_decide (state_of t = S) || bool_decide (state_of t = E));
          Ret (t, ctx, resp)
        else Ret (t, ctx, cycle)
    | GETX =>
        '(t, ctx, resp) ←
          (if bool_decide (s = I) || bool_decide (s = S) then from_parent t GETX cycle
           else Ret (set_state t M, ctx, cycle));
        _ ← assert_ (bool_decide (state_of t = M));
        Ret (t, ctx, resp)
    end;
  _ ← assert_ (cycle <=? resp);
  Ret (t, ctx, resp).
End Bottom.

(** A request of the node [t], whose ancestors are [ctx], to its parent:
    [Cache::access] of a non-terminal cache, or memory above the root.
    [initial] is the state the request was issued in. *)
Fixpoint request (mem_lat : N) (noexcl : bool) (ctx : list frame) (t : tree) (type : AccessType) (initial : MESIState)
  (cycle : Z) : outcome (tree * list frame * Z) :=
  match ctx with
  | [] =>
      let respCycle := cycle + Z.of_N mem_lat in
      _ ← assert_ (cycle <? respCycle);
      Ret (set_state t (memory_state type noexcl), [], respCycle)
  | (lt, sl, kids, i) :: ctx =>
      '(skip, type) ← CheckForMESIRace type (state_of t) initial;
      if (skip : bool) then Ret (t, (lt, sl, kids, i) :: ctx, cycle) else
      sl ← allocate sl (length kids) type;
      let start := cycle + Z.of_N (accLat lt) in
      '(p, ctx, resp) ←
        bcc_processAccess (fun t type st c => request mem_lat noexcl ctx t type st c) ctx
          (Node lt sl (<[i := t]> kids)) type start;
      match p with
      | Node lt (Line s e) kids =>
          '(e, kids, childState, wb, resp) ← tcc_processAccess type i (excl s) noexcl e kids resp;
          s ← (if (wb : bool) then processWritebackOnAccess s else Ret s);
          match kids !! i with
          | Some t =>
              _ ← assert_ (cycle <=? resp);
              Ret (set_state t childState, (lt, Line s e, kids, i) :: ctx, resp)
          | None => Stop OutOfRange
          end
      | Node _ (Absent _) _ => Stop OutOfRange
      end
  end.

(** A core's access to its terminal cache. *)
Definition core_access (mem_lat : N) (noexcl : bool) (ctx : list frame) (t : tree) (type : AccessType) (cycle : Z)
  : outcome (tree * list frame * Z) :=
  match t with
  | Node lt sl kids =>
      _ ← assert_ (bool_decide (type = GETS) || bool_decide (type = GETX));
      sl ← allocate sl (length kids) type;
      bcc_processAccess (request mem_lat noexcl ctx) ctx (Node lt sl kids) type (cycle + Z.of_N (accLat lt))
  end.

(** An access of a page table walker to the last-level cache: the directory is
    not involved. *)
Definition ptw_access (mem_lat : N) (t : tree) (type : AccessType) (cycle : Z) : outcome (tree * list frame * Z) :=
  core_access mem_lat false [] t type cycle.

(** [MESIBottomCC::processEviction]. *)
Definition bcc_processEviction (mem_lat : N) (ctx : list frame) (t : tree) (lowerLevelWriteback : bool) (cycle : Z)
  : outcome (tree * list frame * Z) :=
  t ← (if lowerLevelWriteback then _ ← assert_ (excl (state_of t)); Ret (set_state t M) else Ret t);
  '(t, ctx, resp) ←
    match state_of t with
    | I => Ret (t, ctx, cycle)
    | S => request mem_lat false ctx t PUTS S cycle
    | E => request mem_lat false ctx t PUTS E cycle
    | M => request mem_lat false ctx t PUTX M cycle
    end;
  _ ← assert_ (bool_decide (state_of t = I));
  Ret (t, ctx, resp).

(** [processEviction] of the controllers, then [postinsert] of another address;
    [stale] is the bit of the entry the line will be given when it returns. *)
Definition evict (mem_lat : N) (stale : bool) (ctx : list frame) (t : tree) (cycle : Z) : outcome (tree * list frame * Z) :=
  match t with
  | Node lt (Absent b) kids => Ret (t, ctx, cycle)
  | Node lt (Line s e) kids =>
      '(e, kids, wb, cycle) ← sendInvalidates (invalidate INV) INV e kids false cycle;
      '(t, ctx, resp) ← bcc_processEviction mem_lat ctx (Node lt (Line s e) kids) wb cycle;
      match t with
      | Node lt _ kids => Ret (Node lt (Absent stale) kids, ctx, resp)
      end
  end.

(** ** The caches of the tree *)

(** The node at a path from the root, with its ancestors. *)
Fixpoint focus (ctx : list frame) (t : tree) (path : list nat) : option (list frame * tree) :=
  match path with
  | [] => Some (ctx, t)
  | i :: path =>
      match t with
      | Node lt sl kids => k ← kids !! i; focus ((lt, sl, kids, i) :: ctx) k path
      end
  end.

Fixpoint plug_all (ctx : list frame) (t : tree) : tree :=
  match ctx with [] => t | f :: ctx => plug_all ctx (plug f t) end.

Definition node_at (t : tree) (path : list nat) : option tree := snd <$> focus [] t path.

Definition is_terminal (t : tree) : bool := match t with Node _ _ kids => bool_decide (length kids = 0%nat) end.

(** ** The invariant

    [entry_ok s e ks]: what a cache in state [s] with directory entry [e] knows
    about its children, whose states are [ks]. *)
Record entry_ok (s : MESIState) (e : Entry) (ks : list MESIState) : Prop := {
  eo_sharers : sharers e = (fun k => negb (bool_decide (k = I))) <$> ks;
  eo_count : numSharers e = count_b (fun b => b) (sharers e);
  eo_inclusive : s = I -> Forall (fun k => k = I) ks;
  eo_shared : isExclusive e = false -> Forall (fun k => k = I \/ k = S) ks;
  eo_excl : isExclusive e = true -> excl s = true /\ Forall (fun k => k = I \/ excl k = true) ks;
  eo_single : exclusive e = true -> numSharers e <= 1
}.

Definition slot_ok (sl : slot) (ks : list MESIState) : Prop :=
  match sl with Absent _ => Forall (fun k => k = I) ks | Line s e => entry_ok s e ks end.

Fixpoint tree_ok (t : tree) : Prop :=
  match t with
  | Node _ sl kids => slot_ok sl (state_of <$> kids) /\ (fix all l := match l with [] => True | k :: l => tree_ok k /\ all l end) kids
  end.

Fixpoint ctx_ok (ctx : list frame) (s : MESIState) : Prop :=
  match ctx with
  | [] => True
  | (_, sl, kids, i) :: ctx =>
      (i < length kids)%nat /\ slot_ok sl (<[i := s]> (state_of <$> kids)) /\
      (forall j k, j <> i -> kids !! j = Some k -> tree_ok k) /\ ctx_ok ctx (slot_state sl)
  end.

(** Dirty data somewhere in the tree. *)
Fixpoint dirty (t : tree) : bool :=
  match t with Node _ sl kids => bool_decide (slot_state sl = M) || existsb dirty kids end.

Lemma tree_ok_node lt sl kids : tree_ok (Node lt sl kids) <-> slot_ok sl (state_of <$> kids) /\ Forall tree_ok kids.
Proof.
  cbn [tree_ok]. apply and_iff_compat_l. induction kids as [|k kids IH]; [split; [constructor|done]|].
  rewrite Forall_cons, IH. done.
Qed.

Lemma tree_induction (P : tree -> Prop) :
  (forall lt sl kids, Forall P kids -> P (Node lt sl kids)) -> forall t, P t.
Proof.
  intros HP. fix IH 1. intros [lt sl kids]. apply HP. induction kids as [|k kids IHk]; constructor; [apply IH|apply IHk].
Qed.

Lemma set_state_state t s e lt kids s0 : t = Node lt (Line s0 e) kids -> state_of (set_state t s) = s.
Proof. by intros ->. Qed.

(** ** Invalidations *)

(** What a sharer looks like after the invalidation. *)
Definition invalidated (type : InvType) (k k' : tree) : Prop :=
  tree_ok k' /\ state_of k' = (match type with INV => I | _ => S end) /\ dirty k' = false.

Lemma send_loop_spec inv type kids sh wb cycle maxc sent :
  sh = (fun k => negb (bool_decide (state_of k = I))) <$> kids ->
  Forall (fun k => state_of k <> I -> forall wb c, exists k' c', inv wb c k = Ret (k', wb || dirty k, c') /\ invalidated type k k') kids ->
  exists kids' maxc', send_loop inv type cycle kids sh wb maxc sent =
      Ret (kids', (fun b => match type with INV => false | _ => b end) <$> sh,
           wb || existsb (fun k => negb (bool_decide (state_of k = I)) && dirty k) kids, maxc', sent + count_b (fun b => b) sh) /\
    Forall2 (fun k k' => if bool_decide (state_of k = I) then k' = k else invalidated type k k') kids kids' /\ maxc <= maxc'.
Proof.
  intros -> Hf. revert wb maxc sent. induction Hf as [|k kids Hk Hf IH]; intros wb maxc sent.
  { exists [], maxc. simpl. rewrite orb_false_r, Z.add_0_r. split_and!; [done|constructor|lia]. }
  cbn [fmap list_fmap send_loop]. destruct (bool_decide (state_of k = I)) eqn:Ek; cbn [negb].
  - destruct (IH wb maxc sent) as (kids' & maxc' & -> & H2 & Hm). simpl. exists (k :: kids'), maxc'.
    split_and!; [|constructor; [by rewrite Ek|done]|done]. rewrite Ek. simpl. by destruct type.
  - destruct (Hk (proj1 (bool_decide_eq_false _) Ek) wb cycle) as (k' & c' & -> & Hi). simpl.
    set (resp := c' + _). destruct (IH (wb || dirty k) (Z.max resp maxc) (sent + 1)) as (kids' & maxc' & -> & H2 & Hm). simpl.
    exists (k' :: kids'), maxc'. split_and!; [|constructor; [by rewrite Ek|done]|lia].
    rewrite Ek. simpl. rewrite orb_assoc, Z.add_assoc. by destruct type.
Qed.

Lemma not_excl_clean t : tree_ok t -> excl (state_of t) = false -> dirty t = false.
Proof.
  induction t as [lt sl kids IH] using tree_induction. rewrite tree_ok_node. intros [Hs Hk] He. simpl in He |- *.
  apply orb_false_iff. split; [by destruct (slot_state sl)|].
  assert (Hkids : Forall (fun k => excl (state_of k) = false) kids).
  { destruct sl as [b|s e]; simpl in *.
    - rewrite Forall_fmap in Hs. eapply Forall_impl; [exact Hs|]. intros k Hk'. simpl in Hk'. by rewrite Hk'.
    - destruct (isExclusive e) eqn:Ex; [destruct (eo_excl _ _ _ Hs Ex); congruence|].
      pose proof (eo_shared _ _ _ Hs Ex) as Hsh. rewrite Forall_fmap in Hsh. eapply Forall_impl; [exact Hsh|].
      intros k [Hk'|Hk']; simpl in Hk'; by rewrite Hk'. }
  clear Hs He. induction kids as [|k kids IHk]; [done|].
  apply Forall_cons in IH as [IH1 IH2], Hk as [Hk1 Hk2], Hkids as [Hc1 Hc2]. simpl. rewrite IH1 by done. auto.
Qed.

Lemma existsb_clean kids : Forall (fun k => dirty k = false) kids -> existsb dirty kids = false.
Proof. induction 1 as [|k kids Hk _ IH]; [done|]. simpl. by rewrite Hk. Qed.

Lemma count_none l : Forall (fun b => b = false) l -> count_b (fun b => b) l = 0.
Proof. induction 1 as [|b l -> _ IH]; simpl; lia. Qed.

Lemma count_zero l : count_b (fun b => b) l = 0 -> Forall (fun b => b = false) l.
Proof.
  induction l as [|b l IH]; simpl; intros H; constructor; pose proof (count_b_nonneg (fun b => b) l); destruct b; try lia; auto.
Qed.

(** No sharer: every child is invalid. *)
Lemma empty_children s e ks : entry_ok s e ks -> isEmpty e = true -> Forall (fun k => k = I) ks.
Proof.
  intros [H1 H2 _ _ _ _] He. unfold isEmpty in He. zb. rewrite H2 in He. apply count_zero in He. rewrite H1 in He.
  apply Forall_fmap in He. eapply Forall_impl; [exact He|]. simpl. intros k Hk. by apply negb_false_iff, bool_decide_eq_true in Hk.
Qed.

(** An entry whose children are all invalid. *)
Lemma empty_entry_ok s x ks : Forall (fun k => k = I) ks -> entry_ok s (mkEntry 0 ((fun _ => false) <$> ks) x) ks.
Proof.
  intros Hk. split; simpl; try done; try lia.
  - induction Hk as [|k ks -> _ IH]; [done|]. cbn. f_equal. done.
  - symmetry. apply count_none. apply Forall_fmap. by apply Forall_true.
  - intros _. eapply Forall_impl; [exact Hk|]. auto.
Qed.

Lemma dirty_sharers kids :
  Forall tree_ok kids -> existsb (fun k => negb (bool_decide (state_of k = I)) && dirty k) kids = existsb dirty kids.
Proof.
  induction 1 as [|k kids Hk _ IH]; [done|]. simpl. rewrite IH. f_equal. case_bool_decide as Hs; [|done].
  rewrite not_excl_clean; [done|done|by rewrite Hs].
Qed.

Section SendSpec.
Context (inv : bool -> Z -> tree -> outcome (tree * bool * Z)) (kids : list tree) (s : MESIState) (e : Entry).
Context (He : entry_ok s e (state_of <$> kids)) (Hk : Forall tree_ok kids).

Lemma sharers_of_kids : sharers e = (fun k => negb (bool_decide (state_of k = I))) <$> kids.
Proof. rewrite (eo_sharers _ _ _ He), <- list_fmap_compose. done. Qed.

Lemma sendInvalidates_INV wb cycle :
  Forall (fun k => state_of k <> I -> forall wb c, exists k' c', inv wb c k = Ret (k', wb || dirty k, c') /\ invalidated INV k k') kids ->
  exists e' kids' c', sendInvalidates inv INV e kids wb cycle = Ret (e', kids', wb || existsb dirty kids, c') /\
    Forall tree_ok kids' /\ Forall (fun k => state_of k = I) kids' /\ existsb dirty kids' = false /\
    numSharers e' = 0 /\ sharers e' = (fun _ => false) <$> (state_of <$> kids') /\ length kids' = length kids /\ cycle <= c'.
Proof.
  intros Hinv. unfold sendInvalidates. rewrite bool_decide_false by done. cbn [andb].
  destruct (isEmpty e) eqn:Em.
  - pose proof (empty_children _ _ _ He Em) as Hi. rewrite Forall_fmap in Hi. exists e, kids, cycle.
    assert (Hd : existsb dirty kids = false).
    { apply existsb_clean. rewrite Forall_forall in *. intros k Hkk. apply not_excl_clean; [by apply Hk|].
      specialize (Hi k Hkk). simpl in Hi. by rewrite Hi. }
    rewrite Hd, orb_false_r. apply Z.eqb_eq in Em. split_and!; try done; try lia.
    rewrite (eo_sharers _ _ _ He). clear -Hi. induction Hi as [|k ks Hi' _ IH]; [done|]. simpl in Hi'. cbn. rewrite Hi'. f_equal. done.
  - destruct (send_loop_spec inv INV kids (sharers e) wb cycle cycle 0 sharers_of_kids Hinv) as (kids' & c' & -> & H2 & Hc).
    simpl. rewrite <- (eo_count _ _ _ He), Z.eqb_refl. simpl. rewrite dirty_sharers by done.
    eexists _, kids', c'. split; [done|]. simpl.
    assert (Hall : Forall (fun k => tree_ok k /\ state_of k = I /\ dirty k = false) kids' /\ length kids' = length kids).
    { clear -H2 Hk. induction H2 as [|k k' ks ks' Hkk _ IH]; [done|]. apply Forall_cons in Hk as [Hk1 Hk2].
      destruct (IH Hk2) as [IH1 IH2]. split; [|simpl; lia]. constructor; [|done].
      case_bool_decide as Hs; [subst k'|by destruct Hkk]. split_and!; [done|done|]. apply not_excl_clean; [done|by rewrite Hs]. }
    destruct Hall as [Hall Hlen]. split_and!; try done.
    + eapply Forall_impl; [exact Hall|]. naive_solver.
    + eapply Forall_impl; [exact Hall|]. naive_solver.
    + apply existsb_clean. eapply Forall_impl; [exact Hall|]. naive_solver.
    + rewrite sharers_of_kids. clear -Hlen. revert kids' Hlen. induction kids as [|k ks IH]; intros [|k' ks'] Hl; try done.
      simpl in Hl. cbn. f_equal. apply IH. lia.
Qed.

Lemma sendInvalidates_INVX wb cycle s' :
  s' <> I ->
  Forall (fun k => excl (state_of k) = true -> forall wb c, exists k' c', inv wb c k = Ret (k', wb || dirty k, c') /\ invalidated INVX k k') kids ->
  exists e' kids' c', sendInvalidates inv INVX e kids wb cycle = Ret (e', kids', wb || existsb dirty kids, c') /\
    Forall tree_ok kids' /\ entry_ok s' e' (state_of <$> kids') /\ isExclusive e' = false /\ existsb dirty kids' = false /\
    (forall i, default I ((state_of <$> kids) !! i) = I -> default I ((state_of <$> kids') !! i) = I) /\
    length kids' = length kids /\ cycle <= c'.
Proof.
  intros Hs' Hinv. unfold sendInvalidates. rewrite bool_decide_true by done. cbn [andb].
  destruct (isExclusive e) eqn:Ex; cbn [negb].
  2:{ exists e, kids, cycle. pose proof (eo_shared _ _ _ He Ex) as Hsh. rewrite Forall_fmap in Hsh.
      assert (Hd : existsb dirty kids = false).
      { apply existsb_clean. rewrite Forall_forall in *. intros k Hkk. apply not_excl_clean; [by apply Hk|].
        destruct (Hsh k Hkk) as [E0|E0]; simpl in E0; by rewrite E0. }
      rewrite Hd, orb_false_r. split_and!; try done; try lia. destruct He. split; try done. congruence. }
  destruct (eo_excl _ _ _ He Ex) as [_ Hx]. rewrite Forall_fmap in Hx. pose proof Ex as Ex'. unfold isExclusive in Ex'. zb.
  unfold isEmpty. rewrite (proj2 (Z.eqb_neq (numSharers e) 0)) by lia.
  destruct (send_loop_spec inv INVX kids (sharers e) wb cycle cycle 0 sharers_of_kids) as (kids' & c' & -> & H2 & Hc).
  { rewrite Forall_forall in *. intros k Hkk Hne. apply Hinv; [done|]. destruct (Hx k Hkk); [done|done]. }
  simpl. rewrite <- (eo_count _ _ _ He), Z.eqb_refl. simpl. rewrite (proj2 (Z.eqb_eq (numSharers e) 1)) by done.
  match goal with H : exclusive e = true |- _ => rewrite H end. simpl. rewrite dirty_sharers by done.
  rewrite list_fmap_id. eexists _, kids', c'. split; [done|].
  assert (Hall : Forall2 (fun k k' => tree_ok k' /\ state_of k' = (if bool_decide (state_of k = I) then I else S) /\ dirty k' = false) kids kids').
  { clear -H2 Hk. induction H2 as [|k k' ks ks' Hkk _ IH]; [constructor|]. apply Forall_cons in Hk as [Hk1 Hk2].
    constructor; [|auto]. case_bool_decide as Hs; [subst k'|by destruct Hkk]. split_and!; [done|done|].
    apply not_excl_clean; [done|by rewrite Hs]. }
  pose proof (Forall2_length _ _ _ Hall) as Hlen.
  assert (Hstates : state_of <$> kids' = (fun k => if bool_decide (state_of k = I) then I else S) <$> kids).
  { clear -Hall. induction Hall as [|k k' ks ks' (_ & Hs & _) _ IH]; [done|]. cbn. rewrite Hs. f_equal. done. }
  rewrite !Hstates. split_and!; try done.
  - clear -Hall. induction Hall as [|k k' ks ks' (Ho & _) _ IH]; constructor; auto.
  - split; simpl; try done; try lia.
    + rewrite sharers_of_kids, <- list_fmap_compose. apply list_fmap_ext. intros i k _. simpl. by case_bool_decide.
    + by destruct He.
    + intros _. apply Forall_fmap, Forall_true. intros k. simpl. case_bool_decide; auto.
    + unfold isExclusive. simpl. by rewrite andb_false_r.
  - unfold isExclusive. simpl. by rewrite andb_false_r.
  - apply existsb_clean. clear -Hall. induction Hall as [|k k' ks ks' (_ & _ & Hd) _ IH]; constructor; auto.
  - intros i. rewrite !list_lookup_fmap. destruct (kids !! i) as [k|]; [|done]. simpl. intros ->. done.
Qed.
End SendSpec.

Lemma invalidate_spec type t :
  tree_ok t -> (match type with INV => state_of t <> I | INVX => excl (state_of t) = true | FWD => False end) ->
  forall wb c, exists t' c', invalidate type wb c t = Ret (t', wb || dirty t, c') /\ invalidated type t t'.
Proof.
  induction t as [lt sl kids IH] using tree_induction. rewrite tree_ok_node. intros [Hs Hk] Ht wb c.
  assert (Hlow : Forall (fun k => (match type with INV => state_of k <> I | INVX => excl (state_of k) = true | FWD => False end) ->
    forall wb c, exists k' c', invalidate type wb c k = Ret (k', wb || dirty k, c') /\ invalidated type k k') kids).
  { rewrite Forall_forall in *. intros k Hkk. by apply IH, Hk. }
  destruct sl as [b|s e]; [by destruct type|]. cbn [invalidate slot_ok] in *. simpl in Ht. destruct type; [| |done]; cbn [tcc_processInval].
  - destruct (sendInvalidates_INV (invalidate INV) kids s e Hs Hk wb (c + Z.of_N (invLat lt)) Hlow)
      as (e' & kids' & c' & -> & Hk' & Hi & Hd & Hn & Hsh & _ & _). simpl. unfold bcc_processInval. rewrite (bool_decide_false (s = I)) by done. simpl.
    eexists _, c'. split; [by rewrite <- orb_assoc, (orb_comm (existsb _ _))|]. unfold invalidated. rewrite tree_ok_node. simpl. split_and!; try done.
    destruct e' as [n sh x]. simpl in *. subst. apply empty_entry_ok. by apply Forall_fmap.
  - destruct (sendInvalidates_INVX (invalidate INVX) kids s e Hs Hk wb (c + Z.of_N (invLat lt)) S ltac:(done) Hlow)
      as (e' & kids' & c' & -> & Hk' & He' & _ & Hd & _). simpl. unfold bcc_processInval. rewrite Ht.
    rewrite (bool_decide_false (s = I)) by (by destruct s). simpl.
    eexists _, c'. split; [by rewrite <- orb_assoc, (orb_comm (existsb _ _))|]. unfold invalidated. rewrite tree_ok_node. simpl. by split_and!.
Qed.

(** ** Accesses at the directory *)

(** Children that are not sharers are not visited. *)
Lemma send_loop_frame inv type cycle kids sh i t wb m n :
  sh !! i = Some false ->
  send_loop inv type cycle (<[i := t]> kids) sh wb m n =
    match send_loop inv type cycle kids sh wb m n with
    | Ret (kids', sh', wb', m', n') => Ret (<[i := t]> kids', sh', wb', m', n')
    | Stop x => Stop x
    end.
Proof.
  revert kids i wb m n. induction sh as [|b sh IH]; intros kids i wb m n Hi; [done|].
  destruct kids as [|k kids]; [by destruct i, b|]. destruct i as [|i]; simpl in Hi |- *.
  - injection Hi as ->. destruct (send_loop _ _ _ kids sh wb m n) as [[[[[? ?] ?] ?] ?]|]; done.
  - destruct b.
    + destruct (inv wb cycle k) as [[[k' wb'] r]|]; [|done]. simpl. rewrite (IH kids i _ _ _ Hi).
      destruct (send_loop _ _ _ kids sh _ _ _) as [[[[[? ?] ?] ?] ?]|]; done.
    + rewrite (IH kids i _ _ _ Hi). destruct (send_loop _ _ _ kids sh _ _ _) as [[[[[? ?] ?] ?] ?]|]; done.
Qed.

Lemma sendInvalidates_frame inv type e kids i t wb cycle :
  sharers e !! i = Some false ->
  sendInvalidates inv type e (<[i := t]> kids) wb cycle =
    match sendInvalidates inv type e kids wb cycle with
    | Ret (e', kids', wb', c') => Ret (e', <[i := t]> kids', wb', c')
    | Stop x => Stop x
    end.
Proof.
  intros Hi. unfold sendInvalidates. case_ifs; try done. rewrite send_loop_frame by done.
  destruct (send_loop _ _ _ kids _ _ _ _) as [[[[[? ?] ?] ?] ?]|]; [|done]. simpl.
  unfold assert_. destruct type; case_ifs; done.
Qed.

Lemma entry_up s s1 e ks :
  entry_ok s e ks -> s1 <> I -> (excl s = true -> excl s1 = true) -> entry_ok s1 e ks.
Proof.
  intros [H1 H2 H3 H4 H5 H6] Hn Hx. split; [done|done|by intros ->|done| |done]. intros Ex. destruct (H5 Ex). auto.
Qed.

Lemma sharer_bit s e ks i k :
  entry_ok s e ks -> ks !! i = Some k -> sharers e !! i = Some (negb (bool_decide (k = I))).
Proof. intros H Hi. by rewrite (eo_sharers _ _ _ H), list_lookup_fmap, Hi. Qed.

Lemma insert_states (kids : list tree) i t : <[i := state_of t]> (state_of <$> kids) = state_of <$> <[i := t]> kids.
Proof. by rewrite list_fmap_insert. Qed.

(** Adding a sharer in state [S], or the only sharer, keeps the entry right. *)
Lemma add_shared s e ks i :
  entry_ok s e ks -> s <> I -> isExclusive e = false -> ks !! i = Some I ->
  entry_ok s (mkEntry (numSharers e + 1) (<[i := true]> (sharers e)) false) (<[i := S]> ks).
Proof.
  intros He Hs Hx Hi. pose proof (sharer_bit _ _ _ _ _ He Hi) as Hb. rewrite bool_decide_true in Hb by done.
  destruct He as [H1 H2 H3 H4 H5 H6]. split; simpl; try done.
  - rewrite H1, list_fmap_insert. done.
  - rewrite H2. pose proof (count_b_insert (fun b => b) (sharers e) i false true Hb). simpl in *. lia.
  - intros _. apply Forall_insert; auto.
  - unfold isExclusive. simpl. by rewrite andb_false_r.
Qed.

Lemma only_sharer s s' x ks i :
  Forall (fun k => k = I) ks -> (i < length ks)%nat -> excl s = true -> excl s' = true ->
  entry_ok s (mkEntry 1 (<[i := true]> ((fun _ => false) <$> ks)) x) (<[i := s']> ks) <-> x = true.
Proof.
  intros Hk Hi Hs Hs'. assert (Hsh : (fun _ => false) <$> ks = (fun k => negb (bool_decide (k = I))) <$> ks).
  { clear -Hk. induction Hk as [|k ks -> _ IH]; [done|]. cbn. f_equal. done. }
  split.
  - intros [_ _ _ H4 _ _]. destruct x; [done|]. specialize (H4 eq_refl). rewrite Forall_lookup in H4.
    destruct (H4 i s'); [by rewrite list_lookup_insert_eq|subst..]; done.
  - intros ->. split; simpl; try done.
    + rewrite list_fmap_insert, <- Hsh. f_equal. by destruct s'.
    + destruct (lookup_lt_is_Some_2 ks i Hi) as [k Hki].
      pose proof (count_b_insert (fun b => b) ((fun _ => false) <$> ks) i false true) as Hc.
      rewrite list_lookup_fmap, Hki in Hc. specialize (Hc eq_refl). simpl in Hc.
      rewrite (count_none ((fun _ => false) <$> ks)) in Hc; [lia|]. by apply Forall_fmap, Forall_true.
    + intros ->. done.
    + intros _. split; [done|]. apply Forall_insert; [|by right]. eapply Forall_impl; [exact Hk|]. auto.
Qed.

Definition others (i : nat) (kids : list tree) : Prop := exists j k, j <> i /\ kids !! j = Some k /\ dirty k = true.

Lemma others_existsb i kids : others i kids -> existsb dirty kids = true.
Proof.
  intros (j & k & _ & Hj & Hd). apply existsb_exists. exists k. split; [|done].
  apply list_elem_of_In. by eapply list_elem_of_lookup_2.
Qed.

(** What a directory access gives: the new entry, the other children, the state
    of the requesting child and whether dirty data came back. *)
Record directory_step (type : AccessType) (i : nat) (t : tree) (s : MESIState) (kids : list tree) (cycle : Z)
  (e' : Entry) (kids' : list tree) (cs : MESIState) (wb : bool) (c' : Z) : Prop := {
  ds_child : kids' !! i = Some t;
  ds_len : length kids' = length kids;
  ds_entry : forall s1, s1 = (if wb then M else s) -> entry_ok s1 e' (<[i := cs]> (state_of <$> kids'));
  ds_kids : forall j k, j <> i -> kids' !! j = Some k -> tree_ok k;
  ds_wb : wb = true -> excl s = true;
  ds_dirty : others i kids -> wb = true \/ others i kids';
  ds_cycle : cycle <= c';
  ds_answer : match type with GETS => cs = S \/ cs = E | GETX => cs = M | _ => cs = I end
}.

Section Directory.
Context (i : nat) (t : tree) (s : MESIState) (e : Entry) (kids : list tree) (cycle : Z) (noexcl : bool).
Context (Ht : kids !! i = Some t) (He : entry_ok s e (state_of <$> kids)).
Context (Hk : forall j k, j <> i -> kids !! j = Some k -> tree_ok k).

Lemma state_lookup : (state_of <$> kids) !! i = Some (state_of t).
Proof. by rewrite list_lookup_fmap, Ht. Qed.

Lemma directory_put type :
  (type = PUTS \/ (type = PUTX /\ state_of t = M)) -> state_of t <> I ->
  exists e', tcc_processAccess type i (excl s) noexcl e kids cycle = Ret (e', kids, I, false, cycle) /\
    directory_step type i t s kids cycle e' kids I false cycle.
Proof.
  intros Hty Hs. pose proof (sharer_bit _ _ _ _ _ He state_lookup) as Hb. rewrite bool_decide_false in Hb by done.
  set (e' := mkEntry (numSharers e - 1) (<[i := false]> (sharers e)) (exclusive e)).
  assert (Hstep : directory_step type i t s kids cycle e' kids I false cycle).
  { split; try done; try (by right); try (by destruct Hty as [-> | [-> _]]). intros s1 ->.
    pose proof (count_b_insert (fun b => b) (sharers e) i true false Hb) as Hc. simpl in Hc.
    pose proof (count_b_nonneg (fun b => b) (<[i := false]> (sharers e))) as Hnn.
    destruct He as [H1 H2 H3 H4 H5 H6]. split; simpl.
    - rewrite H1, list_fmap_insert. done.
    - lia.
    - intros Hs0. apply Forall_insert; [by apply H3|done].
    - intros _. destruct (isExclusive e) eqn:Ex; [|apply Forall_insert; [by apply H4|by left]].
      unfold isExclusive in Ex. zb. assert (Hz : count_b (fun b => b) (<[i := false]> (sharers e)) = 0) by lia.
      apply count_zero in Hz. apply Forall_lookup. intros j k Hj. rewrite Forall_lookup in Hz. left.
      destruct (decide (j = i)) as [->|Hne].
      + rewrite list_lookup_insert_eq in Hj by (by eapply lookup_lt_Some, state_lookup). by injection Hj.
      + rewrite list_lookup_insert_ne in Hj by done.
        specialize (Hz j (negb (bool_decide (k = I)))). rewrite list_lookup_insert_ne in Hz by done.
        rewrite H1, list_lookup_fmap, Hj in Hz. specialize (Hz eq_refl). by apply negb_false_iff, bool_decide_eq_true in Hz.
    - unfold isExclusive. simpl. intros Ex. zb. specialize (H6 ltac:(done)). lia.
    - intros Hx. specialize (H6 Hx). lia. }
  exists e'. split; [|done]. unfold tcc_processAccess. rewrite Hb. simpl. destruct Hty as [->|[-> Hm]]; [done|].
  destruct (isExclusive e) eqn:Ex; [done|]. pose proof (eo_shared _ _ _ He Ex) as Hsh. rewrite Forall_lookup in Hsh.
  destruct (Hsh i _ state_lookup); congruence.
Qed.
(** The children with an invalid line in the place of the requesting child. *)
Definition nil_tree : tree := Node (mkLats 0 0 0 0) (Absent false) [].
Definition siblings : list tree := <[i := nil_tree]> kids.

Lemma kid_index : (i < length kids)%nat.
Proof. by eapply lookup_lt_Some. Qed.

Lemma siblings_ok : Forall tree_ok siblings.
Proof.
  apply Forall_lookup. intros j k Hj. destruct (decide (j = i)) as [->|Hne].
  - unfold siblings in Hj. rewrite list_lookup_insert_eq in Hj by apply kid_index. injection Hj as <-. by split; [constructor|].
  - unfold siblings in Hj. rewrite list_lookup_insert_ne in Hj by done. by eapply Hk.
Qed.

Lemma siblings_states : state_of <$> siblings = <[i := I]> (state_of <$> kids).
Proof. unfold siblings. by rewrite list_fmap_insert. Qed.

Lemma siblings_plug : <[i := t]> siblings = kids.
Proof. unfold siblings. by rewrite list_insert_insert_eq, list_insert_id. Qed.

Lemma send_siblings inv type e0 :
  sharers e0 !! i = Some false ->
  sendInvalidates inv type e0 kids false cycle =
    match sendInvalidates inv type e0 siblings false cycle with
    | Ret (e', kids', wb', c') => Ret (e', <[i := t]> kids', wb', c')
    | Stop x => Stop x
    end.
Proof. intros H. by rewrite <- (sendInvalidates_frame inv type e0 siblings i t false cycle H), siblings_plug. Qed.

Lemma siblings_dirty : others i kids -> existsb dirty siblings = true.
Proof.
  intros (j & k & Hne & Hj & Hd). apply (others_existsb i). exists j, k. split_and!; [done| |done].
  unfold siblings. by rewrite list_lookup_insert_ne.
Qed.

Lemma directory_gets :
  state_of t = I -> s <> I ->
  exists e' kids' cs wb c', tcc_processAccess GETS i (excl s) noexcl e kids cycle = Ret (e', kids', cs, wb, c') /\
    directory_step GETS i t s kids cycle e' kids' cs wb c'.
Proof.
  intros Hi Hs. pose proof (sharer_bit _ _ _ _ _ He state_lookup) as Hb. rewrite Hi, bool_decide_true in Hb by done.
  unfold tcc_processAccess. rewrite Hb. cbn [default negb].
  destruct (isEmpty e && excl s && negb noexcl) eqn:Ec.
  { zb. exists (mkEntry 1 (<[i := true]> (sharers e)) true), kids, E, false, cycle. split; [done|].
    split; try done; [| by right | by right]. intros s1 ->. pose proof (empty_children _ _ _ He ltac:(done)) as Hall.
    replace (sharers e) with ((fun _ => false) <$> (state_of <$> kids)).
    - apply only_sharer; [done| |done..]. rewrite length_fmap. apply kid_index.
    - rewrite (eo_sharers _ _ _ He). clear -Hall. induction Hall as [|k ks -> _ IH]; [done|]. cbn. f_equal. done. }
  simpl. destruct (isExclusive e) eqn:Ex.
  - assert (He0 : entry_ok s e (state_of <$> siblings)).
    { rewrite siblings_states, list_insert_id; [done|]. by rewrite state_lookup, Hi. }
    destruct (eo_excl _ _ _ He Ex) as [Hxs _].
    destruct (sendInvalidates_INVX (invalidate INVX) siblings s e He0 siblings_ok false cycle (if existsb dirty siblings then M else s))
      as (e' & kids' & c' & E1 & Hk' & He' & Hx' & Hd' & Hst & Hlen & Hc); [by destruct (existsb _ _)| |].
    { pose proof siblings_ok as Hok. rewrite Forall_forall in *. intros k Hkk Hx wb0 c0. by apply (invalidate_spec INVX k); [apply Hok|]. }
    rewrite send_siblings, E1 by done. simpl. rewrite Hx'. simpl.
    eexists _, _, S, _, c'. split; [done|].
    assert (Hlen' : length kids' = length kids) by (rewrite Hlen; unfold siblings; by rewrite length_insert).
    split; [by rewrite list_lookup_insert_eq by (rewrite Hlen'; apply kid_index)|by rewrite length_insert| | |done| |done|by left].
    + intros s1 ->. rewrite list_fmap_insert, list_insert_insert_eq. apply add_shared; [done|by destruct (existsb _ _)|done|].
      specialize (Hst i). rewrite siblings_states, list_lookup_insert_eq in Hst by (rewrite length_fmap; apply kid_index).
      specialize (Hst eq_refl). destruct ((state_of <$> kids') !! i) eqn:E2; [by simpl in Hst; subst|].
      apply lookup_ge_None in E2. rewrite length_fmap, Hlen' in E2. pose proof kid_index. lia.
    + intros j k Hne Hj. rewrite list_lookup_insert_ne in Hj by done. rewrite Forall_lookup in Hk'. by eapply Hk'.
    + intros Ho. left. by apply siblings_dirty.
  - simpl. rewrite Ex. simpl. eexists _, kids, S, false, cycle. split; [done|].
    split; try done; [| by right | by left]. intros s1 ->. apply add_shared; [done..|]. by rewrite state_lookup, Hi.
Qed.

Lemma directory_getx :
  state_of t = I \/ state_of t = S -> s = M ->
  exists e' kids' wb c', tcc_processAccess GETX i (excl s) noexcl e kids cycle = Ret (e', kids', M, wb, c') /\
    directory_step GETX i t s kids cycle e' kids' M wb c'.
Proof.
  intros Hi Hs. pose proof (sharer_bit _ _ _ _ _ He state_lookup) as Hb.
  assert (He0 : exists e0, (if negb (bool_decide (state_of t = I)) then
             _ ← assert_ (negb (isExclusive e));
             Ret (mkEntry (numSharers e - 1) (<[i := false]> (sharers e)) (exclusive e))
           else Ret e) = Ret e0 /\ entry_ok s e0 (state_of <$> siblings)).
  { rewrite siblings_states. case_bool_decide as Hst; simpl.
    - exists e. split; [done|]. rewrite list_insert_id; [done|]. by rewrite state_lookup, Hst.
    - destruct Hi as [Hi|Hi]; [done|]. destruct (isExclusive e) eqn:Ex.
      { destruct (eo_excl _ _ _ He Ex) as [_ Hx]. rewrite Forall_lookup in Hx. destruct (Hx i _ state_lookup) as [E0|E0]; rewrite Hi in E0; done. }
      simpl. eexists. split; [done|]. destruct (directory_put PUTS) as (e' & E1 & D); [by left|congruence|].
      unfold tcc_processAccess in E1. rewrite Hb in E1. simpl in E1. injection E1 as <-.
      exact (ds_entry _ _ _ _ _ _ _ _ _ _ _ D s eq_refl). }
  destruct He0 as (e0 & E0 & He0). unfold tcc_processAccess. rewrite Hb, Hs. cbn [from_option id excl].
  change (assert_ true) with (Ret tt). rewrite E0. clear E0. simpl.
  pose proof (sharer_bit _ _ _ i I He0) as Hb0. rewrite bool_decide_true in Hb0 by done.
  rewrite siblings_states, list_lookup_insert_eq in Hb0 by (rewrite length_fmap; apply kid_index). specialize (Hb0 eq_refl).
  destruct (sendInvalidates_INV (invalidate INV) siblings s e0 He0 siblings_ok false cycle)
    as (e1 & kids' & c' & E1 & Hk' & Hst & Hd' & Hn & Hsh & Hlen & Hc).
  { pose proof siblings_ok as Hok. rewrite Forall_forall in *. intros k Hkk Hx wb0 c0. by apply (invalidate_spec INV k); [apply Hok|]. }
  rewrite send_siblings, E1 by done. simpl. rewrite Hn. simpl.
  eexists _, _, _, c'. split; [done|].
  assert (Hlen' : length kids' = length kids) by (rewrite Hlen; unfold siblings; by rewrite length_insert).
  split; [by rewrite list_lookup_insert_eq by (rewrite Hlen'; apply kid_index)|by rewrite length_insert| | |done| |done|done].
  - intros s1 Hs1. rewrite list_fmap_insert, list_insert_insert_eq, Hsh. apply only_sharer; [by apply Forall_fmap| |by subst; destruct (existsb _ _)|done|done].
    rewrite length_fmap, Hlen'. apply kid_index.
  - intros j k Hne Hj. rewrite list_lookup_insert_ne in Hj by done. rewrite Forall_lookup in Hk'. by eapply Hk'.
  - intros Ho. left. by apply siblings_dirty.
Qed.
End Directory.

(** ** Requests up the tree *)

Definition has_line (t : tree) : Prop := match t with Node _ (Line _ _) _ => True | _ => False end.

Fixpoint ctx_dirty (ctx : list frame) : Prop :=
  match ctx with
  | [] => False
  | (_, sl, kids, i) :: ctx => slot_state sl = M \/ others i kids \/ ctx_dirty ctx
  end.

(** The states a cache can be in when its request, issued in state [initial],
    reaches the parent: the same one, or one an invalidation has left. *)
Definition legal (type : AccessType) (s initial : MESIState) : Prop :=
  match type with
  | GETS => s = I /\ initial = I
  | GETX => (s = I \/ s = S) /\ (initial = s \/ initial = S)
  | PUTS => (initial = S \/ initial = E) /\ (s = initial \/ s = S \/ s = I)
  | PUTX => initial = M /\ (s = M \/ s = S \/ s = I)
  end.

Definition answer (type : AccessType) (s : MESIState) : Prop :=
  match type with GETS => s = S \/ s = E | GETX => s = M | PUTS | PUTX => s = I end.

Record answered (ctx : list frame) (t : tree) (type : AccessType) (cycle : Z) (t' : tree) (ctx' : list frame) (c' : Z) : Prop := {
  an_tree : t' = set_state t (state_of t');
  an_ctx : ctx_ok ctx' (state_of t');
  an_answer : answer type (state_of t');
  an_cycle : cycle <= c';
  an_dirty : ctx_dirty ctx -> ctx_dirty ctx';
  an_put : state_of t = M -> state_of t' <> M -> ctx <> [] -> ctx_dirty ctx'
}.

Lemma state_set t s : has_line t -> state_of (set_state t s) = s.
Proof. destruct t as [lt [b|s0 e] kids]; done. Qed.

Lemma set_same t : set_state t (state_of t) = t.
Proof. by destruct t as [lt [b|s0 e] kids]. Qed.

Lemma entry_swap s e ks i a b :
  (i < length ks)%nat -> excl a = true -> excl b = true -> entry_ok s e (<[i := a]> ks) -> entry_ok s e (<[i := b]> ks).
Proof.
  intros Hi Ha Hb [H1 H2 H3 H4 H5 H6].
  assert (Hno : forall P : MESIState -> Prop, Forall P (<[i := a]> ks) -> P a).
  { intros P HP. rewrite Forall_lookup in HP. apply (HP i). by apply list_lookup_insert_eq. }
  split; try done.
  - rewrite H1, !list_fmap_insert. f_equal. by destruct a, b.
  - intros Hs. pose proof (Hno _ (H3 Hs)) as H0. simpl in H0. by subst a.
  - intros Hx. destruct (Hno _ (H4 Hx)); by subst a.
  - intros Hx. destruct (H5 Hx) as [H7 H8]. split; [done|]. rewrite <- (list_insert_insert_eq ks i b a).
    apply Forall_insert; [done|by right].
Qed.

Lemma ctx_ok_excl ctx a b : excl a = true -> excl b = true -> ctx_ok ctx a -> ctx_ok ctx b.
Proof.
  intros Ha Hb. destruct ctx as [|[[[lt sl] kids] i] ctx]; [done|]. intros (H1 & H2 & H3 & H4). split_and!; try done.
  destruct sl as [x|s e]; simpl in *.
  - rewrite Forall_lookup in H2. specialize (H2 i a). rewrite list_lookup_insert_eq in H2 by (by rewrite length_fmap).
    by rewrite (H2 eq_refl) in Ha.
  - eapply entry_swap; [by rewrite length_fmap|exact Ha|done|done].
Qed.

Lemma bcc_spec up ctx t type cycle :
  has_line t -> ctx_ok ctx (state_of t) ->
  (forall ty c, (ty = GETS /\ state_of t = I) \/ (ty = GETX /\ (state_of t = I \/ state_of t = S)) ->
     exists t' ctx' c', up t ty (state_of t) c = Ret (t', ctx', c') /\ answered ctx t ty c t' ctx' c') ->
  (match type with PUTS => state_of t <> I | PUTX => excl (state_of t) = true | _ => True end) ->
  exists t' ctx' c', bcc_processAccess up ctx t type cycle = Ret (t', ctx', c') /\
    t' = set_state t (state_of t') /\ ctx_ok ctx' (state_of t') /\ state_of t' <> I /\
    (excl (state_of t) = true -> excl (state_of t') = true) /\
    (type = GETX \/ type = PUTX -> state_of t' = M) /\ cycle <= c' /\
    (ctx_dirty ctx -> ctx_dirty ctx') /\ (state_of t = M -> state_of t' = M).
Proof.
  intros Hl Hc Hup Hty.
  assert (Hparent : forall ty, (ty = GETS /\ state_of t = I) \/ (ty = GETX /\ (state_of t = I \/ state_of t = S)) ->
    exists t' ctx' c', from_parent up t ty cycle = Ret (t', ctx', c') /\ answered ctx t ty cycle t' ctx' c').
  { intros ty Hy. destruct (Hup ty cycle Hy) as (t' & ctx' & c' & E1 & A). unfold from_parent. rewrite E1. simpl.
    exists t', ctx'. eexists. split; [done|]. destruct A. split; try done.
    match goal with |- context [cycle + u32 ?x] => pose proof (u32_range x) end. lia. }
  assert (Hend : forall (t1 : tree) (ctx1 : list frame) c1, cycle <= c1 -> (_ ← assert_ (cycle <=? c1); Ret (t1, ctx1, c1)) = Ret (t1, ctx1, c1)).
  { intros t1 ctx1 c1 Hle. by rewrite (proj2 (Z.leb_le _ _) Hle). }
  unfold bcc_processAccess. destruct type.
  - case_bool_decide as Hi.
    + destruct (Hparent GETS) as (t' & ctx' & c' & -> & [A1 A2 A3 A4 A5 A6]); [auto|]. simpl.
      replace (bool_decide (state_of t' = S) || bool_decide (state_of t' = E)) with true by (destruct A3 as [-> | ->]; done). simpl.
      rewrite Hend by done. exists t', ctx', c'. rewrite Hi. split_and!; try done; [|naive_solver]. destruct A3 as [-> | ->]; done.
    + simpl. rewrite Hend by lia. exists t, ctx, cycle. rewrite set_same. split_and!; try done; naive_solver.
  - destruct (bool_decide (state_of t = I) || bool_decide (state_of t = S)) eqn:Hi.
    + apply orb_true_iff in Hi. rewrite !bool_decide_eq_true in Hi.
      destruct (Hparent GETX) as (t' & ctx' & c' & -> & [A1 A2 A3 A4 A5 A6]); [auto|]. simpl. simpl in A3.
      rewrite bool_decide_true by done. simpl. rewrite Hend by done. exists t', ctx', c'. rewrite A3. split_and!; done || (by rewrite <- A3).
    + apply orb_false_iff in Hi. rewrite !bool_decide_eq_false in Hi. simpl. rewrite state_set by done.
      rewrite bool_decide_true by done. simpl. rewrite Hend by lia. exists (set_state t M), ctx, cycle. rewrite state_set by done.
      split_and!; try done; try lia. eapply ctx_ok_excl; [|done|exact Hc]. by destruct Hi, (state_of t).
  - rewrite bool_decide_false by done. simpl. rewrite Hend by lia. exists t, ctx, cycle. rewrite set_same.
    split_and!; try done; naive_solver.
  - rewrite Hty. simpl. rewrite Hend by lia. exists (set_state t M), ctx, cycle. rewrite state_set by done.
    split_and!; try done; try lia. eapply ctx_ok_excl; [exact Hty|done|exact Hc].
Qed.

Lemma race_check type s initial :
  legal type s initial ->
  (CheckForMESIRace type s initial = Ret (true, type) /\ s = I /\ (type = PUTS \/ type = PUTX)) \/
  (exists ty, CheckForMESIRace type s initial = Ret (false, ty) /\
     match ty with GETS => type = GETS /\ s = I | GETX => type = GETX /\ (s = I \/ s = S)
     | PUTS => (type = PUTS \/ type = PUTX) /\ (s = S \/ s = E) | PUTX => type = PUTX /\ s = M end).
Proof.
  unfold CheckForMESIRace. intros Hl. destruct type, s, initial; simpl in Hl; cbn;
    first [left; split_and!; by auto | right; eexists; split; [reflexivity|]; naive_solver | naive_solver].
Qed.

(** The line after allocation satisfies what the slot promised. *)
Lemma allocate_ok sl ks n type :
  slot_ok sl ks -> length ks = n ->
  (type = PUTS \/ type = PUTX -> exists i k, ks !! i = Some k /\ k <> I) ->
  exists s e, allocate sl n type = Ret (Line s e) /\ s = slot_state sl /\ entry_ok s e ks.
Proof.
  intros Hs Hn Hp. destruct sl as [b|s e]; simpl in *; [|by exists s, e].
  assert (Hno : type <> PUTS /\ type <> PUTX).
  { split; intros ->; (destruct Hp as (i & k & Hk & Hne); [auto|]; rewrite Forall_lookup in Hs; by apply Hne, (Hs i k)). }
  exists I, (mkEntry 0 (replicate n false) b). split; [by destruct type, Hno|]. split; [done|].
  replace (replicate n false) with ((fun _ => false) <$> ks); [by apply empty_entry_ok|].
  subst n. clear. induction ks; [done|]. cbn. f_equal. done.
Qed.

Lemma ctx_frame_kids lt sl kids i ctx t s :
  ctx_ok ((lt, sl, kids, i) :: ctx) s -> state_of t = s ->
  (i < length kids)%nat /\ slot_ok sl (state_of <$> <[i := t]> kids) /\
  (forall j k, j <> i -> (<[i := t]> kids) !! j = Some k -> tree_ok k) /\ ctx_ok ctx (slot_state sl) /\
  (<[i := t]> kids) !! i = Some t /\ (others i kids -> others i (<[i := t]> kids)).
Proof.
  intros (H1 & H2 & H3 & H4) Hs. split_and!; try done.
  - by rewrite list_fmap_insert, Hs.
  - intros j k Hj Hk. rewrite list_lookup_insert_ne in Hk by done. by eapply H3.
  - by apply list_lookup_insert_eq.
  - intros (j & k & Hj & Hk & Hd). exists j, k. by rewrite list_lookup_insert_ne.
Qed.

(** Case analysis on what is known of types and states. *)
Ltac states :=
  repeat match goal with H : _ /\ _ |- _ => destruct H | H : _ \/ _ |- _ => destruct H end;
  simplify_eq; simpl in *; try congruence; auto.

Section Requests.
Context (mem_lat : N) (noexcl : bool) (Hmem : (0 < mem_lat)%N).

(** Writing the answer of a directory step back into the frame. *)
Lemma directory_close lt s kids i ctx t type cycle e' kids' cs wb c' cycle0 :
  directory_step type i t s kids cycle e' kids' cs wb c' -> cycle0 <= cycle ->
  (forall s1, s1 = (if wb then M else s) -> ctx_ok ctx s1) ->
  (s1 ← (if wb then processWritebackOnAccess s else Ret s);
   match kids' !! i with
   | Some t => _ ← assert_ (cycle0 <=? c'); Ret (set_state t cs, (lt, Line s1 e', kids', i) :: ctx, c')
   | None => Stop OutOfRange
   end) = Ret (set_state t cs, (lt, Line (if wb then M else s) e', kids', i) :: ctx, c') /\
  ctx_ok ((lt, Line (if wb then M else s) e', kids', i) :: ctx) cs.
Proof.
  intros D Hcy Hc1. destruct D as [D1 D2 D3 D4 D5 D6 D7 D8]. split.
  - rewrite D1. rewrite (proj2 (Z.leb_le cycle0 c')) by lia. destruct wb; [|done].
    unfold processWritebackOnAccess. by rewrite D5.
  - simpl. split_and!; [by eapply lookup_lt_Some|by apply D3|done|by apply Hc1].
Qed.

Lemma request_spec ctx t type initial cycle :
  has_line t -> ctx_ok ctx (state_of t) -> legal type (state_of t) initial ->
  exists t' ctx' c', request mem_lat noexcl ctx t type initial cycle = Ret (t', ctx', c') /\
    answered ctx t type cycle t' ctx' c'.
Proof.
  revert t type initial cycle. induction ctx as [|[[[lt sl] kids] i] ctx IH]; intros t type initial cycle Hl Hc Hleg.
  { cbn [request]. rewrite (proj2 (Z.ltb_lt _ _)) by lia. simpl. eexists _, _, _. split; [done|].
    split; rewrite ?state_set by done; try done; try lia. destruct type, noexcl; simpl; auto. }
  cbn [request]. destruct (race_check _ _ _ Hleg) as [(-> & Hi & Hty)|(ty & -> & Hty)]; simpl.
  { eexists _, _, _. split; [done|]. split; try done; rewrite ?set_same, ?Hi; try done. by destruct Hty as [-> | ->]. }
  destruct (ctx_frame_kids _ _ _ _ _ t _ Hc eq_refl) as (Hil & Hsl & Hk & Hcp & Hti & Hoth).
  destruct (allocate_ok sl _ (length kids) ty Hsl) as (s & e & -> & Hs & He).
  { by rewrite length_fmap, length_insert. }
  { intros Hput. exists i, (state_of t). split; [by rewrite list_lookup_fmap, Hti|]. destruct Hput; subst ty; states. }
  simpl. set (P := Node lt (Line s e) (<[i := t]> kids)). set (start := cycle + Z.of_N (accLat lt)).
  destruct (bcc_spec (fun t type st c => request mem_lat noexcl ctx t type st c) ctx P ty start)
    as (P' & ctx' & c1 & -> & HP & Hc1 & Hn1 & Hx1 & HM1 & Hcy & Hd1 & HMM); [done|by simpl; rewrite Hs| | |].
  { intros ty' c' Hy. apply IH; [done|by simpl; rewrite Hs|]. simpl in *. destruct Hy as [[-> Hy]|[-> Hy]]; simpl; auto. }
  { simpl. pose proof (eo_inclusive _ _ _ He) as Hinc. pose proof (eo_shared _ _ _ He) as Hshd. pose proof (eo_excl _ _ _ He) as Hexc.
    assert (Hst : (state_of <$> <[i:=t]> kids) !! i = Some (state_of t)) by (by rewrite list_lookup_fmap, Hti).
    destruct ty; try done.
    - intros ->. specialize (Hinc eq_refl). rewrite Forall_lookup in Hinc. specialize (Hinc _ _ Hst). simpl in Hinc. states.
    - destruct (isExclusive e); [by apply Hexc|]. specialize (Hshd eq_refl). rewrite Forall_lookup in Hshd.
      destruct (Hshd _ _ Hst); states. }
  simpl. simpl in HP. set (s1 := state_of P') in *. rewrite HP. clear HP. simpl.
  assert (He1 : entry_ok s1 e (state_of <$> <[i := t]> kids)) by (by eapply entry_up).
  assert (Hdir : exists e' kids' cs wb c2, tcc_processAccess ty i (excl s1) noexcl e (<[i := t]> kids) c1 = Ret (e', kids', cs, wb, c2) /\
    directory_step ty i t s1 (<[i := t]> kids) c1 e' kids' cs wb c2).
  { destruct ty.
    - apply directory_gets; states.
    - destruct (directory_getx i t s1 e (<[i:=t]> kids) c1 noexcl) as (e' & kids' & wb & c2 & HH); [done|done|done|states|states|].
      by exists e', kids', M, wb, c2.
    - destruct (directory_put i t s1 e (<[i:=t]> kids) c1 noexcl Hti He1 Hk PUTS) as (e' & HH); [auto|states|]. by eexists _, _, _, _, _.
    - destruct (directory_put i t s1 e (<[i:=t]> kids) c1 noexcl Hti He1 Hk PUTX) as (e' & HH); [right; states|states|]. by eexists _, _, _, _, _. }
  destruct Hdir as (e' & kids' & cs & wb & c2 & -> & D). simpl.
  assert (Hc2 : forall s2, s2 = (if wb then M else s1) -> ctx_ok ctx' s2).
  { intros s2 ->. destruct wb eqn:Ew; [|done]. eapply ctx_ok_excl; [|done|exact Hc1]. by apply (ds_wb _ _ _ _ _ _ _ _ _ _ _ D). }
  destruct (directory_close lt s1 _ i ctx' t ty _ _ _ _ _ _ cycle D ltac:(subst start; lia) Hc2) as [E2 Hctx].
  rewrite E2. eexists _, _, c2. split; [done|]. rewrite <- (state_set t cs Hl) in Hctx.
  split; [by rewrite state_set|done| | | |].
  - rewrite state_set by done. pose proof (ds_answer _ _ _ _ _ _ _ _ _ _ _ D). destruct ty; states.
  - pose proof (ds_cycle _ _ _ _ _ _ _ _ _ _ _ D). subst start. lia.
  - simpl. intros [Hd|[Hd|Hd]].
    + left. rewrite <- Hs in Hd. rewrite (HMM Hd). by destruct wb.
    + destruct (ds_dirty _ _ _ _ _ _ _ _ _ _ _ D (Hoth Hd)) as [-> | Ho]; auto.
    + auto.
  - intros Hm _ _. left. simpl. replace s1 with M; [by destruct wb|]. symmetry.
    apply HM1. destruct ty; states.
Qed.
End Requests.

(** ** Operations on the tree *)

Fixpoint in_range (ctx : list frame) : Prop :=
  match ctx with [] => True | (_, _, kids, i) :: ctx => (i < length kids)%nat /\ in_range ctx end.

Lemma ctx_in_range ctx s : ctx_ok ctx s -> in_range ctx.
Proof.
  revert s. induction ctx as [|[[[lt sl] kids] i] ctx IH]; intros s; [done|]. intros (H1 & _ & _ & H2). split; [done|by eapply IH].
Qed.

Lemma plug_all_ok ctx t : in_range ctx -> tree_ok (plug_all ctx t) <-> tree_ok t /\ ctx_ok ctx (state_of t).
Proof.
  revert t. induction ctx as [|[[[lt sl] kids] i] ctx IH]; intros t; cbn [plug_all ctx_ok in_range]; [tauto|]. intros [Hi Hr].
  rewrite (IH _ Hr). cbn [plug]. rewrite tree_ok_node, list_fmap_insert. simpl.
  assert (Hf : Forall tree_ok (<[i:=t]> kids) <-> tree_ok t /\ (forall j k, j <> i -> kids !! j = Some k -> tree_ok k)).
  { rewrite Forall_lookup. split.
    - intros H. split; [by apply (H i), list_lookup_insert_eq|]. intros j k Hj Hk. apply (H j). by rewrite list_lookup_insert_ne.
    - intros [H1 H2] j k. destruct (decide (j = i)) as [->|Hj].
      + rewrite list_lookup_insert_eq by done. by intros [= <-].
      + rewrite list_lookup_insert_ne by done. by apply H2. }
  rewrite Hf. tauto.
Qed.

Lemma plug_all_dirty ctx t : in_range ctx -> dirty (plug_all ctx t) = true <-> dirty t = true \/ ctx_dirty ctx.
Proof.
  revert t. induction ctx as [|[[[lt sl] kids] i] ctx IH]; intros t; cbn [plug_all ctx_dirty in_range]; [tauto|]. intros [Hi Hr].
  rewrite (IH _ Hr). cbn [plug dirty]. rewrite orb_true_iff, bool_decide_eq_true.
  assert (Hf : existsb dirty (<[i:=t]> kids) = true <-> dirty t = true \/ others i kids).
  { rewrite existsb_exists. split.
    - intros (k & Hk & Hd). apply list_elem_of_In, list_elem_of_lookup in Hk as [j Hj].
      destruct (decide (j = i)) as [->|Hne]; [rewrite list_lookup_insert_eq in Hj by done; simplify_eq; auto|].
      rewrite list_lookup_insert_ne in Hj by done. right. by exists j, k.
    - intros [Hd|(j & k & Hne & Hj & Hd)].
      + exists t. split; [|done]. apply list_elem_of_In, list_elem_of_lookup. exists i. by apply list_lookup_insert_eq.
      + exists k. split; [|done]. apply list_elem_of_In, list_elem_of_lookup. exists j. by rewrite list_lookup_insert_ne. }
  rewrite Hf. tauto.
Qed.

Lemma focus_plug ctx0 t path ctx t' :
  focus ctx0 t path = Some (ctx, t') -> in_range ctx0 -> plug_all ctx t' = plug_all ctx0 t /\ in_range ctx.
Proof.
  revert ctx0 t. induction path as [|i path IH]; intros ctx0 t H Hr; cbn [focus] in H; [by simplify_eq|].
  destruct t as [lt sl kids]. destruct (kids !! i) as [k|] eqn:Ek; simpl in H; [|done].
  destruct (IH _ _ H) as [E1 R1]; [split; [by eapply lookup_lt_Some|done]|]. split; [|done]. rewrite E1. cbn [plug_all plug].
  by rewrite list_insert_id.
Qed.

(** What an operation on the node [t] below [ctx] leaves. *)
Definition good (ctx : list frame) (t : tree) (cycle : Z) (r : outcome (tree * list frame * Z)) (P : tree -> Prop) (root_write : bool) : Prop :=
  exists t' ctx' c', r = Ret (t', ctx', c') /\ tree_ok t' /\ ctx_ok ctx' (state_of t') /\ cycle <= c' /\ P t' /\
    (dirty t = true \/ ctx_dirty ctx -> (root_write = true /\ ctx = []) \/ dirty t' = true \/ ctx_dirty ctx').

Section Operations.
Context (mem_lat : N) (Hmem : (0 < mem_lat)%N).

Lemma dirty_set lt s s' e kids :
  (s = M -> s' = M) -> dirty (Node lt (Line s e) kids) = true -> dirty (Node lt (Line s' e) kids) = true.
Proof. intros Hs. simpl. rewrite !orb_true_iff, !bool_decide_eq_true. intros [H|H]; auto. Qed.

Lemma core_access_good noexcl ctx t type cycle :
  tree_ok t -> ctx_ok ctx (state_of t) -> type = GETS \/ type = GETX ->
  good ctx t cycle (core_access mem_lat noexcl ctx t type cycle)
    (fun t' => state_of t' <> I /\ (type = GETX -> state_of t' = M)) false.
Proof.
  intros Ht Hc Hty. destruct t as [lt sl kids]. apply tree_ok_node in Ht as [Hsl Hk]. unfold core_access.
  replace (bool_decide (type = GETS) || bool_decide (type = GETX)) with true by (by destruct Hty; subst type). simpl.
  destruct (allocate_ok sl _ (length kids) type Hsl) as (s & e & -> & Hs & He).
  { by rewrite length_fmap. }
  { intros Hp. destruct Hty, Hp; congruence. }
  simpl. set (P := Node lt (Line s e) kids).
  destruct (bcc_spec (request mem_lat noexcl ctx) ctx P type (cycle + Z.of_N (accLat lt)))
    as (P' & ctx' & c1 & -> & HP & Hc1 & Hn1 & Hx1 & HM1 & Hcy & Hd1 & HMM); [done|by simpl; rewrite Hs| |by destruct Hty; subst type|].
  { intros ty' c' Hy. apply request_spec; [done|done|by simpl; rewrite Hs|]. simpl in *. destruct Hy as [[-> Hy]|[-> Hy]]; simpl; auto. }
  exists P', ctx', c1. split; [done|]. rewrite HP at 1. split.
  { apply tree_ok_node. split; [|done]. simpl in *. by eapply entry_up. }
  split_and!; [done|lia|done|auto|]. intros [Hd|Hd]; [|auto]. right. left. rewrite HP. apply (dirty_set lt s); [exact HMM|].
  simpl in Hd |- *. by rewrite Hs.
Qed.

Lemma all_invalid_entry s s' e ks : Forall (fun k => k = I) ks -> entry_ok s e ks -> entry_ok s' e ks.
Proof.
  intros Hk [H1 H2 H3 H4 H5 H6]. split; try done. intros Hx. exfalso. unfold isExclusive in Hx. zb.
  assert (Hz : count_b (fun b => b) (sharers e) = 0); [|lia]. rewrite H1. apply count_none, Forall_fmap.
  eapply Forall_impl; [exact Hk|]. intros k ->. done.
Qed.

(** A request that was issued in state [initial] and is served now. *)
Lemma resume_good noexcl ctx lt s e kids type initial cycle :
  tree_ok (Node lt (Line s e) kids) -> ctx_ok ctx s -> legal type s initial ->
  (type = PUTS \/ type = PUTX -> Forall (fun k => state_of k = I) kids) ->
  good ctx (Node lt (Line s e) kids) cycle (request mem_lat noexcl ctx (Node lt (Line s e) kids) type initial cycle)
    (fun t' => answer type (state_of t') /\ exists s', t' = Node lt (Line s' e) kids) true.
Proof.
  intros Ht Hc Hl Hp. pose proof Ht as Ht0. apply tree_ok_node in Ht as [He Hk].
  destruct (request_spec mem_lat noexcl Hmem ctx (Node lt (Line s e) kids) type initial cycle) as (t' & ctx' & c' & E1 & [A1 A2 A3 A4 A5 A6]); [done..|].
  rewrite E1. exists t', ctx', c'. set (s' := state_of t') in *. simpl in A1. split; [done|].
  assert (He' : entry_ok s' e (state_of <$> kids)).
  { destruct type; simpl in A3, Hl.
    - eapply entry_up; [exact He|destruct A3; congruence|]. destruct Hl. by subst s.
    - eapply entry_up; [exact He|congruence|]. destruct Hl as [[->| ->] _]; done.
    - eapply all_invalid_entry; [|exact He]. apply Forall_fmap. auto.
    - eapply all_invalid_entry; [|exact He]. apply Forall_fmap. auto. }
  split_and!; [rewrite A1; by apply tree_ok_node|done|done|done|by exists s'|].
  intros [Hd|Hd]; [|auto]. rewrite A1. destruct (decide (s = M)) as [->|Hs].
  - destruct (decide (s' = M)) as [->|Hs']; [auto|]. destruct ctx; [auto|]. right. right. apply A6; done.
  - right. left. by apply (dirty_set lt s).
Qed.

Lemma evict_good stale ctx t cycle :
  tree_ok t -> ctx_ok ctx (state_of t) ->
  good ctx t cycle (evict mem_lat stale ctx t cycle) (fun t' => state_of t' = I) true.
Proof.
  intros Ht Hc. destruct t as [lt [b|s e] kids].
  { exists (Node lt (Absent b) kids), ctx, cycle. split_and!; try done; auto. }
  apply tree_ok_node in Ht as [He Hk]. simpl in He, Hc. cbn [evict].
  destruct (sendInvalidates_INV (invalidate INV) kids s e He Hk false cycle) as (e' & kids' & c' & -> & Hk' & Hi & Hd' & Hn & Hsh & _ & Hcy).
  { rewrite Forall_forall in *. intros k Hkk Hx wb0 c0. by apply (invalidate_spec INV k); [apply Hk|]. }
  simpl. assert (Hwb : existsb dirty kids = true -> excl s = true).
  { intros Hd. destruct (isExclusive e) eqn:Ex; [by apply (eo_excl _ _ _ He)|]. pose proof (eo_shared _ _ _ He Ex) as Hshd. exfalso.
    rewrite existsb_clean in Hd; [done|]. rewrite Forall_fmap in Hshd. rewrite Forall_forall in *. intros k Hkk.
    apply not_excl_clean; [by apply Hk|]. destruct (Hshd k Hkk) as [E0|E0]; simpl in E0; by rewrite E0. }
  set (s1 := if existsb dirty kids then M else s). unfold bcc_processEviction.
  assert (E1 : (if existsb dirty kids then _ ← assert_ (excl (state_of (Node lt (Line s e') kids')));
      Ret (set_state (Node lt (Line s e') kids') M) else Ret (Node lt (Line s e') kids')) = Ret (Node lt (Line s1 e') kids')).
  { subst s1. destruct (existsb dirty kids); [|done]. simpl. by rewrite Hwb. }
  rewrite E1. cbn [mbind outcome_bind state_of slot_state]. clear E1.
  assert (Hc1 : ctx_ok ctx s1).
  { subst s1. destruct (existsb dirty kids); [|done]. eapply ctx_ok_excl; [by apply Hwb|done|done]. }
  assert (Ht1 : forall s2, tree_ok (Node lt (Line s2 e') kids')).
  { intros s2. apply tree_ok_node. split; [|done]. destruct e' as [n sh x]. simpl in *. subst. apply empty_entry_ok. by apply Forall_fmap. }
  assert (Hdd : dirty (Node lt (Line s e) kids) = true -> dirty (Node lt (Line s1 e') kids') = true).
  { simpl. subst s1. destruct (existsb dirty kids) eqn:Ed; simpl; [done|]. rewrite !orb_true_iff. intros [H|H]; [by left|done]. }
  assert (Hdone : forall type, legal type s1 s1 -> type = PUTS \/ type = PUTX ->
    good ctx (Node lt (Line s e) kids) cycle
      ('(t, ctx, resp) ← ('(t, ctx, resp) ← request mem_lat false ctx (Node lt (Line s1 e') kids') type s1 c';
         _ ← assert_ (bool_decide (state_of t = I)); Ret (t, ctx, resp));
       match t with Node lt _ kids => Ret (Node lt (Absent stale) kids, ctx, resp) end) (fun t' => state_of t' = I) true).
  { intros type Hl Hty. destruct (resume_good false ctx lt s1 e' kids' type s1 c' (Ht1 s1) Hc1 Hl ltac:(auto))
      as (t' & ctx' & c2 & -> & H1 & H2 & H3 & [H4 [s3 ->]] & H5). simpl.
    assert (s3 = I) as -> by (by destruct Hty; subst type). simpl. eexists _, ctx', c2. split; [done|].
    split_and!; [apply tree_ok_node; split; [by apply Forall_fmap|done]|done|lia|done|].
    intros Hd. destruct H5 as [H5|[H5|H5]]; [destruct Hd; auto|auto| |auto]. exfalso. simpl in H5. by rewrite Hd' in H5. }
  destruct s1 eqn:Es1.
  - simpl. eexists _, ctx, c'. split; [done|]. split_and!; [apply tree_ok_node; split; [by apply Forall_fmap|done]|done|lia|done|].
    intros [Hd|Hd]; [|auto]. specialize (Hdd Hd). simpl in Hdd. by rewrite Hd' in Hdd.
  - apply (Hdone PUTS); simpl; auto.
  - apply (Hdone PUTS); simpl; auto.
  - apply (Hdone PUTX); simpl; auto.
Qed.
End Operations.

(** ** Reachable hierarchies *)

Inductive event : Type :=
  | CoreAccess (path : list nat) (type : AccessType)
  | Walk (type : AccessType)
  | Evict (path : list nat)
  | Resume (path : list nat) (type : AccessType).

(** One operation on the tree.  [Resume] is the part of an eviction or an upgrade
    that runs after the cache released its lock: the request, issued in state
    [initial], is served now; a put has no valid children left below it. *)
Inductive step (mem_lat : N) : event -> tree -> tree -> Prop :=
  | step_core root path type noexcl cycle ctx t t' ctx' c' :
      focus [] root path = Some (ctx, t) -> is_terminal t = true ->
      core_access mem_lat noexcl ctx t type cycle = Ret (t', ctx', c') ->
      step mem_lat (CoreAccess path type) root (plug_all ctx' t')
  | step_walk root type cycle t' ctx' c' :
      ptw_access mem_lat root type cycle = Ret (t', ctx', c') ->
      step mem_lat (Walk type) root (plug_all ctx' t')
  | step_evict root path stale cycle ctx t t' ctx' c' :
      focus [] root path = Some (ctx, t) ->
      evict mem_lat stale ctx t cycle = Ret (t', ctx', c') ->
      step mem_lat (Evict path) root (plug_all ctx' t')
  | step_resume root path type noexcl initial cycle ctx lt s e kids t' ctx' c' :
      focus [] root path = Some (ctx, Node lt (Line s e) kids) -> legal type s initial ->
      (type = PUTS \/ type = PUTX -> Forall (fun k => state_of k = I) kids) ->
      request mem_lat noexcl ctx (Node lt (Line s e) kids) type initial cycle = Ret (t', ctx', c') ->
      step mem_lat (Resume path type) root (plug_all ctx' t').

Fixpoint cold (t : tree) : bool :=
  match t with Node _ (Absent _) kids => forallb cold kids | _ => false end.

Lemma cold_ok t : cold t = true -> tree_ok t.
Proof.
  induction t as [lt [b|s e] kids IH] using tree_induction; [|done]. intros H. cbn [cold] in H. rewrite forallb_forall in H.
  rewrite tree_ok_node. cbn [slot_ok]. rewrite Forall_fmap, !Forall_forall in *. split; intros k Hk.
  - assert (Hc : cold k = true) by (apply H; by apply list_elem_of_In). by destruct k as [lt' [b'|s e] kids'].
  - apply IH; [done|]. apply H. by apply list_elem_of_In.
Qed.

Lemma focus_ok root path ctx t : tree_ok root -> focus [] root path = Some (ctx, t) ->
  in_range ctx /\ tree_ok t /\ ctx_ok ctx (state_of t) /\ plug_all ctx t = root.
Proof.
  intros Hr Hf. destruct (focus_plug [] root path ctx t Hf ltac:(done)) as [E1 R1]. simpl in E1. subst root.
  apply plug_all_ok in Hr as [? ?]; [|done]. done.
Qed.

Lemma focus_nil root path t : focus [] root path = Some ([], t) -> path = [].
Proof.
  assert (Hgen : forall path ctx0 t0 ctx t, focus ctx0 t0 path = Some (ctx, t) -> length ctx = (length ctx0 + length path)%nat).
  { clear. intros path. induction path as [|i path IH]; intros ctx0 t0 ctx t H; simpl in *; [simplify_eq; lia|].
    destruct t0 as [lt sl kids]. destruct (kids !! i); simpl in H; [|done]. apply IH in H. simpl in H. lia. }
  intros H. apply Hgen in H. destruct path; [done|simpl in H; lia].
Qed.

(** Whether an event can write dirty data back to memory: a put of the root. *)
Definition writes_memory (ev : event) : bool :=
  match ev with Evict [] | Resume [] _ => true | _ => false end.

Lemma step_good mem_lat ev t t' :
  (0 < mem_lat)%N -> step mem_lat ev t t' -> tree_ok t ->
  tree_ok t' /\ (dirty t = true -> writes_memory ev = true \/ dirty t' = true).
Proof.
  intros Hm Hs Ht.
  assert (Hfin : forall path ctx k cycle r P rw t1 ctx1 c1, focus [] t path = Some (ctx, k) ->
    good ctx k cycle r P rw -> r = Ret (t1, ctx1, c1) ->
    tree_ok (plug_all ctx1 t1) /\ (dirty t = true -> (rw = true /\ path = []) \/ dirty (plug_all ctx1 t1) = true)).
  { intros path ctx k cycle r P rw t1 ctx1 c1 Hf (t2 & ctx2 & c2 & E1 & H1 & H2 & _ & _ & H3) E2.
    rewrite E2 in E1. injection E1 as -> -> ->. destruct (focus_ok _ _ _ _ Ht Hf) as (Hr & Hk & Hc & <-).
    pose proof (ctx_in_range _ _ H2) as Hr2. rewrite plug_all_ok, !plug_all_dirty by done. split; [done|].
    intros Hd. destruct (H3 Hd) as [[-> ->]|H4]; [|auto]. left. split; [done|]. by apply focus_nil in Hf. }
  destruct Hs as [root path type noexcl cycle ctx k t1 ctx1 c1 Hf _ E|root type cycle t1 ctx1 c1 E|root path stale cycle ctx k t1 ctx1 c1 Hf E
    |root path type noexcl initial cycle ctx lt s e kids t1 ctx1 c1 Hf Hl Hp E].
  - destruct (focus_ok _ _ _ _ Ht Hf) as (_ & Hk & Hc & _).
    assert (Hty : type = GETS \/ type = GETX).
    { destruct k as [lt sl kids]. unfold core_access in E. destruct type; auto; done. }
    destruct (Hfin _ _ _ _ _ _ _ _ _ _ Hf (core_access_good mem_lat Hm noexcl ctx k type cycle Hk Hc Hty) E) as [H1 H2].
    split; [done|]. intros Hd. destruct (H2 Hd) as [[? _]|?]; [done|auto].
  - assert (Hty : type = GETS \/ type = GETX).
    { destruct root as [lt sl kids]. unfold ptw_access, core_access in E. destruct type; auto; done. }
    destruct (Hfin [] [] root cycle _ _ _ _ _ _ eq_refl (core_access_good mem_lat Hm false [] root type cycle Ht ltac:(done) Hty) E) as [H1 H2].
    split; [done|]. intros Hd. destruct (H2 Hd) as [[? _]|?]; [done|auto].
  - destruct (focus_ok _ _ _ _ Ht Hf) as (_ & Hk & Hc & _).
    destruct (Hfin _ _ _ _ _ _ _ _ _ _ Hf (evict_good mem_lat Hm stale ctx k cycle Hk Hc) E) as [H1 H2].
    split; [done|]. intros Hd. destruct (H2 Hd) as [[_ ->]|?]; auto.
  - destruct (focus_ok _ _ _ _ Ht Hf) as (_ & Hk & Hc & _).
    destruct (Hfin _ _ _ _ _ _ _ _ _ _ Hf (resume_good mem_lat Hm noexcl ctx lt s e kids type initial cycle Hk Hc Hl Hp) E) as [H1 H2].
    split; [done|]. intros Hd. destruct (H2 Hd) as [[_ ->]|?]; auto.
Qed.

Definition reachable (mem_lat : N) (t0 t : tree) : Prop := rtc (fun a b => exists ev, step mem_lat ev a b) t0 t.

Lemma reachable_ok mem_lat t0 t : (0 < mem_lat)%N -> cold t0 = true -> reachable mem_lat t0 t -> tree_ok t.
Proof.
  intros Hm Hc Hr. eapply rtc_invariant; [|exact Hr|by apply cold_ok]. intros a b Ha [ev Hs]. by eapply step_good.
Qed.

(** ** Single writer *)

Lemma node_at_nil t : node_at t [] = Some t.
Proof. done. Qed.

Lemma focus_tail ctx ctx0 t path : snd <$> focus ctx t path = snd <$> focus ctx0 t path.
Proof.
  revert ctx ctx0 t. induction path as [|i path IH]; intros ctx ctx0 t; simpl; [done|].
  destruct t as [lt sl kids]. destruct (kids !! i); simpl; [|done]. apply IH.
Qed.

Lemma node_at_cons lt sl kids i path : node_at (Node lt sl kids) (i :: path) = (k ← kids !! i; node_at k path).
Proof. unfold node_at. simpl. destruct (kids !! i); simpl; [|done]. apply focus_tail. Qed.

Lemma invalid_below t path u : tree_ok t -> node_at t path = Some u -> state_of t = I -> state_of u = I.
Proof.
  revert t. induction path as [|i path IH]; intros t Ht Hn Hi; [rewrite node_at_nil in Hn; by simplify_eq|].
  destruct t as [lt sl kids]. rewrite node_at_cons in Hn. destruct (kids !! i) as [k|] eqn:Ek; [|done]. simpl in Hn, Hi.
  apply tree_ok_node in Ht as [Hs Hk]. rewrite Forall_lookup in Hk. apply (IH k); [by eapply Hk|done|].
  assert (Hall : Forall (fun s => s = I) (state_of <$> kids)).
  { destruct sl as [b|s e]; simpl in *; [done|]. by apply (eo_inclusive _ _ _ Hs). }
  rewrite Forall_lookup in Hall. apply (Hall i). by rewrite list_lookup_fmap, Ek.
Qed.

Lemma exclusive_above t path u : tree_ok t -> node_at t path = Some u -> excl (state_of u) = true -> excl (state_of t) = true.
Proof.
  revert t. induction path as [|i path IH]; intros t Ht Hn Hx; [rewrite node_at_nil in Hn; by simplify_eq|].
  destruct t as [lt sl kids]. rewrite node_at_cons in Hn. destruct (kids !! i) as [k|] eqn:Ek; [|done]. simpl in Hn.
  apply tree_ok_node in Ht as [Hs Hk]. rewrite Forall_lookup in Hk. specialize (IH k ltac:(by eapply Hk) Hn Hx).
  assert (Hst : (state_of <$> kids) !! i = Some (state_of k)) by (by rewrite list_lookup_fmap, Ek).
  destruct sl as [b|s e]; simpl in *.
  - rewrite Forall_lookup in Hs. by rewrite (Hs _ _ Hst) in IH.
  - destruct (isExclusive e) eqn:Ex; [by apply (eo_excl _ _ _ Hs)|]. pose proof (eo_shared _ _ _ Hs Ex) as Hsh.
    rewrite Forall_lookup in Hsh. destruct (Hsh _ _ Hst) as [E0|E0]; by rewrite E0 in IH.
Qed.

(** The only valid child of a cache with an exclusive child. *)
Lemma exclusive_sibling s e ks i j a b :
  entry_ok s e ks -> i <> j -> ks !! i = Some a -> ks !! j = Some b -> excl a = true -> b = I.
Proof.
  intros He Hij Ha Hb Hx. destruct (isExclusive e) eqn:Ex.
  2:{ pose proof (eo_shared _ _ _ He Ex) as Hsh. rewrite Forall_lookup in Hsh. destruct (Hsh _ _ Ha); by subst a. }
  unfold isExclusive in Ex. zb. pose proof (sharer_bit _ _ _ _ _ He Ha) as Hsa. pose proof (sharer_bit _ _ _ _ _ He Hb) as Hsb.
  rewrite (eo_count _ _ _ He) in *. rewrite bool_decide_false in Hsa by (by destruct a).
  destruct (decide (b = I)) as [|Hne]; [done|]. rewrite bool_decide_false in Hsb by done. exfalso. simpl in *.
  pose proof (count_b_insert (fun b => b) (sharers e) i true false Hsa) as C1.
  pose proof (count_b_insert (fun b => b) (<[i := false]> (sharers e)) j true false) as C2.
  rewrite list_lookup_insert_ne in C2 by done. specialize (C2 Hsb).
  pose proof (count_b_nonneg (fun b => b) (<[j := false]> (<[i := false]> (sharers e)))). simpl in *. lia.
Qed.

Lemma swmr t p q u v :
  tree_ok t -> node_at t p = Some u -> node_at t q = Some v -> ~ p `prefix_of` q -> ~ q `prefix_of` p ->
  excl (state_of u) = true -> state_of v = I.
Proof.
  revert t q. induction p as [|i p IH]; intros t q Ht Hu Hv Hpq Hqp Hx; [exfalso; apply Hpq, prefix_nil|].
  destruct q as [|j q]; [exfalso; apply Hqp, prefix_nil|]. destruct t as [lt sl kids]. rewrite node_at_cons in Hu, Hv.
  destruct (kids !! i) as [k|] eqn:Ek; [|done]. destruct (kids !! j) as [k'|] eqn:Ek'; [|done]. simpl in Hu, Hv.
  pose proof Ht as Ht0. apply tree_ok_node in Ht as [Hs Hk]. rewrite Forall_lookup in Hk.
  destruct (decide (i = j)) as [->|Hij].
  - simplify_eq. apply (IH k q); try done; [by eapply Hk|intros H; by apply Hpq, prefix_cons|intros H; by apply Hqp, prefix_cons].
  - apply (invalid_below k' q); [by eapply Hk|done|]. assert (Hxk : excl (state_of k) = true) by (eapply exclusive_above; [by eapply Hk|done|done]).
    assert (Hi : (state_of <$> kids) !! i = Some (state_of k)) by (by rewrite list_lookup_fmap, Ek).
    assert (Hj : (state_of <$> kids) !! j = Some (state_of k')) by (by rewrite list_lookup_fmap, Ek').
    destruct sl as [b|s e]; simpl in Hs; [rewrite Forall_lookup in Hs; by apply (Hs j)|]. by eapply exclusive_sibling.
Qed.

(** The directory entry of a cache is exact. *)
Lemma entry_exact s e ks : entry_ok s e ks ->
  sharers e = (fun k => negb (bool_decide (k = I))) <$> ks /\
  numSharers e = count_b (fun k => negb (bool_decide (k = I))) ks /\
  (isExclusive e = true <-> exists k, k ∈ ks /\ excl k = true).
Proof.
  intros He. split_and!; [apply He|rewrite (eo_count _ _ _ He), (eo_sharers _ _ _ He); by rewrite count_b_fmap|]. split.
  - intros Hx. pose proof (eo_excl _ _ _ He Hx) as [_ Hall]. unfold isExclusive in Hx. zb.
    rewrite (eo_count _ _ _ He), (eo_sharers _ _ _ He), count_b_fmap in *. destruct (count_b_exists (fun k => negb (bool_decide (k = I))) ks) as (i & k & Hk & Hn); [lia|].
    rewrite Forall_lookup in Hall. exists k. split; [by eapply list_elem_of_lookup_2|]. destruct (Hall _ _ Hk) as [->|]; done.
  - intros (k & Hk & Hx). destruct (isExclusive e) eqn:Ex; [done|]. pose proof (eo_shared _ _ _ He Ex) as Hall. rewrite Forall_forall in Hall.
    destruct (Hall k Hk); by subst k.
Qed.

Lemma tree_ok_at t p u : tree_ok t -> node_at t p = Some u -> tree_ok u.
Proof.
  intros Ht Hu. unfold node_at in Hu. destruct (focus [] t p) as [[ctx u']|] eqn:Ef; [|done]. simpl in Hu. injection Hu as <-.
  by destruct (focus_ok _ _ _ _ Ht Ef) as (_ & ? & _).
Qed.

(** C2: Single writer, multiple readers, inclusion, and exact directories.  In every hierarchy that is
    reachable from an empty one by core accesses, page table walks, evictions and
    delayed requests: if a cache holds the line exclusively ([E] or [M]), every
    cache that is neither above nor below it is invalid; the caches above a
    cache with a valid (an exclusive) line hold it too (hold it exclusively); and the
    directory entry of a cache with the line has the sharer bit of a child set exactly
    when the child has a valid copy, counts the children that do, and is exclusive exactly
    when a child holds the line exclusively. *)
Theorem mesi_single_writer mem_lat t0 t :
  (0 < mem_lat)%N -> cold t0 = true -> reachable mem_lat t0 t ->
  (forall p q u v, node_at t p = Some u -> node_at t q = Some v -> ~ p `prefix_of` q -> ~ q `prefix_of` p ->
     excl (state_of u) = true -> state_of v = I) /\
  (forall p q u v, node_at t p = Some u -> node_at u q = Some v ->
     (state_of v <> I -> state_of u <> I) /\ (excl (state_of v) = true -> excl (state_of u) = true)) /\
  (forall p lt s e kids, node_at t p = Some (Node lt (Line s e) kids) ->
     sharers e = (fun k => negb (bool_decide (state_of k = I))) <$> kids /\
     numSharers e = count_b (fun k => negb (bool_decide (state_of k = I))) kids /\
     (isExclusive e = true <-> exists k, k ∈ kids /\ excl (state_of k) = true)).
Proof.
  intros Hm Hc Hr. pose proof (reachable_ok _ _ _ Hm Hc Hr) as Ht. split_and!.
  - intros p q u v. by apply swmr.
  - intros p q u v Hu Hv. pose proof (tree_ok_at _ _ _ Ht Hu) as Hok.
    split; [|by eapply exclusive_above]. intros Hn Hi. by apply Hn, (invalid_below u q).
  - intros p lt s e kids Hu. pose proof (tree_ok_at _ _ _ Ht Hu) as [He _]%tree_ok_node.
    destruct (entry_exact _ _ _ He) as (H1 & H2 & H3). rewrite <- list_fmap_compose in H1. rewrite count_b_fmap in H2. split_and!; [done|done|].
    rewrite H3. split.
    + intros (k & (x & -> & Hx)%list_elem_of_fmap & Hk). by exists x.
    + intros (k & Hk & Hx). exists (state_of k). split; [by apply list_elem_of_fmap_2|done].
Qed.

Definition demo_lats : lats := mkLats 4 2 1 1.
Definition demo_cache (kids : list tree) : tree := Node demo_lats (Absent false) kids.
Definition demo_root : tree := demo_cache [demo_cache [demo_cache []]; demo_cache [demo_cache []]].

Definition run_core (t : tree) (path : list nat) (type : AccessType) : tree :=
  match focus [] t path with
  | Some (ctx, k) => match core_access 100 false ctx k type 0 with Ret (k', ctx', _) => plug_all ctx' k' | Stop _ => t end
  | None => t
  end.

(** A store by the first core, then a load by the second. *)
Definition demo_stored : tree := run_core demo_root [0; 0]%nat GETX.
Definition demo_loaded : tree := run_core demo_stored [1; 0]%nat GETS.

Lemma mesi_single_writer_witness :
  (state_of <$> node_at demo_stored [0; 0]%nat) = Some M /\ (state_of <$> node_at demo_loaded [0; 0]%nat) = Some S /\
  (forall v, node_at demo_stored [1; 0]%nat = Some v -> state_of v = I).
Proof.
  split; [vm_compute; reflexivity|]. split; [vm_compute; reflexivity|]. intros v Hv.
  refine (proj1 (mesi_single_writer 100 demo_root demo_stored _ _ _) [0; 0]%nat [1; 0]%nat _ v _ Hv _ _ _).
  - lia.
  - reflexivity.
  - eapply rtc_l; [|apply rtc_refl]. exists (CoreAccess [0; 0]%nat GETX).
    apply (step_core 100 demo_root [0; 0]%nat GETX false 0 _ _ _ _ _ eq_refl eq_refl eq_refl).
  - reflexivity.
  - intros H. by apply prefix_cons_inv_1 in H.
  - intros H. by apply prefix_cons_inv_1 in H.
  - reflexivity.
Defined.

(** C34: No operation of a reachable hierarchy fails an assert or a panic, races
    included: a core's load ends with the line valid and its store with the line
    in [M]; an eviction ends with the line invalid; a request that was issued
    before an invalidation arrived is answered in the state its type asks for;
    and no response is earlier than the request. *)
Theorem mesi_operations_succeed mem_lat t0 t path ctx k cycle :
  (0 < mem_lat)%N -> cold t0 = true -> reachable mem_lat t0 t -> focus [] t path = Some (ctx, k) ->
  (forall noexcl type, type = GETS \/ type = GETX -> exists k' ctx' c', core_access mem_lat noexcl ctx k type cycle = Ret (k', ctx', c') /\
     state_of k' <> I /\ (type = GETX -> state_of k' = M) /\ cycle <= c') /\
  (forall stale, exists k' ctx' c', evict mem_lat stale ctx k cycle = Ret (k', ctx', c') /\ state_of k' = I /\ cycle <= c') /\
  (forall noexcl type initial, has_line k -> legal type (state_of k) initial ->
     exists k' ctx' c', request mem_lat noexcl ctx k type initial cycle = Ret (k', ctx', c') /\ answer type (state_of k') /\ cycle <= c').
Proof.
  intros Hm Hc Hr Hf. pose proof (reachable_ok _ _ _ Hm Hc Hr) as Ht. destruct (focus_ok _ _ _ _ Ht Hf) as (_ & Hk & Hx & _).
  split_and!.
  - intros noexcl type Hty. destruct (core_access_good mem_lat Hm noexcl ctx k type cycle Hk Hx Hty)
      as (k' & ctx' & c' & H1 & _ & _ & H2 & [H3 H4] & _). by exists k', ctx', c'.
  - intros stale. destruct (evict_good mem_lat Hm stale ctx k cycle Hk Hx) as (k' & ctx' & c' & H1 & _ & _ & H2 & H3 & _).
    by exists k', ctx', c'.
  - intros noexcl type initial Hl Hleg. destruct (request_spec mem_lat noexcl Hm ctx k type initial cycle Hl Hx Hleg)
      as (k' & ctx' & c' & H1 & [A1 A2 A3 A4 A5 A6]). by exists k', ctx', c'.
Qed.

Definition demo_focus : list frame * tree :=
  match focus [] demo_stored [0; 0]%nat with Some x => x | None => ([], demo_root) end.

Lemma mesi_operations_succeed_witness :
  exists k' ctx' c', evict 100 false (fst demo_focus) (snd demo_focus) 500 = Ret (k', ctx', c') /\ state_of k' = I /\ 500 <= c'.
Proof.
  refine (proj1 (proj2 (mesi_operations_succeed 100 demo_root demo_stored [0; 0]%nat _ _ 500 _ _ _ _)) false).
  - lia.
  - reflexivity.
  - eapply rtc_l; [|apply rtc_refl]. exists (CoreAccess [0; 0]%nat GETX).
    apply (step_core 100 demo_root [0; 0]%nat GETX false 0 _ _ _ _ _ eq_refl eq_refl eq_refl).
  - reflexivity.
Defined.

(** Modified data is never dropped: as long as some cache of a reachable
    hierarchy holds the line in [M], every operation but a write-back of the
    last-level cache itself leaves some cache with the line in [M]. *)
Theorem mesi_dirty_kept mem_lat t0 t ev t' :
  (0 < mem_lat)%N -> cold t0 = true -> reachable mem_lat t0 t -> step mem_lat ev t t' ->
  dirty t = true -> writes_memory ev = false -> dirty t' = true.
Proof.
  intros Hm Hc Hr Hs Hd Hw. pose proof (reachable_ok _ _ _ Hm Hc Hr) as Ht.
  destruct (proj2 (step_good mem_lat ev t t' Hm Hs Ht) Hd); [congruence|done].
Qed.

Lemma mesi_dirty_kept_witness :
  dirty demo_stored = true /\ (state_of <$> node_at demo_loaded []) = Some M /\ dirty demo_loaded = true.
Proof.
  split; [reflexivity|]. split; [vm_compute; reflexivity|].
  refine (mesi_dirty_kept 100 demo_root demo_stored (CoreAccess [1; 0]%nat GETS) demo_loaded _ _ _ _ _ _).
  - lia.
  - reflexivity.
  - eapply rtc_l; [|apply rtc_refl]. exists (CoreAccess [0; 0]%nat GETX).
    apply (step_core 100 demo_root [0; 0]%nat GETX false 0 _ _ _ _ _ eq_refl eq_refl eq_refl).
  - apply (step_core 100 demo_stored [1; 0]%nat GETS false 0 _ _ _ _ _ eq_refl eq_refl eq_refl).
  - reflexivity.
  - reflexivity.
Defined.
