(* ===== verification/PageTable.v ===== *)
(** * Long-mode page tables

    [BasePDTEntry] and [PageTable] (src/src/page-table/page_table_entry.h), the
    helpers of comm_page_table_op.h and [LongModePaging] (page_table.cpp) for
    4 KB, 2 MB and 1 GB pages.  Tables are objects of a store, entries point to
    tables or pages.  The physical pages come from an allocator that is known by
    the interface [PageSource]; [Buddy.BuddyAllocator] is an instance.  The
    memory requests of a walk are the list of addresses [access] computes; their
    timing ([loadPageTables]) is not modelled. *)

From S2P Require Import Prelude Bits Buddy.

(** ** Entries *)

Definition P : Z := 0x1.
Definition RW : Z := 0x2.
Definition PERMISSION : Z := 0x4.
Definition A_ : Z := 0x20.
Definition D : Z := 0x40.
Definition SHAR : Z := 0x200.

Definition no_requester : Z := 2 ^ 32 - 1.

(** What an entry points to: a page, by number, or a table of the store. *)
Inductive ptr : Type := PPage (pageNo : Z) | PTable (id : Z).

Record BasePDTEntry : Type := mkPDTEntry {
  entry_bits : Z;
  next_level_ptr : option ptr;
  last_requester : Z;
  page_assigned : bool
}.

Definition newEntry : BasePDTEntry := mkPDTEntry (Z.lor (Z.lor 0 RW) PERMISSION) None no_requester false.

Definition is_present (e : BasePDTEntry) : bool := negb (Z.land (entry_bits e) P =? 0).
Definition read_only (e : BasePDTEntry) : bool := Z.land (entry_bits e) RW =? 0.
Definition can_write (e : BasePDTEntry) : bool := Z.land (entry_bits e) RW =? 0.
Definition is_dirty (e : BasePDTEntry) : bool := negb (Z.land (entry_bits e) D =? 0).
Definition is_shared (e : BasePDTEntry) : bool := negb (Z.land (entry_bits e) SHAR =? 0).

Definition set_bits (e : BasePDTEntry) (b : Z) : BasePDTEntry :=
  mkPDTEntry b (next_level_ptr e) (last_requester e) (page_assigned e).
Definition set_accessed (e : BasePDTEntry) : BasePDTEntry := set_bits e (Z.lor (entry_bits e) A_).
Definition set_dirty (e : BasePDTEntry) : BasePDTEntry := set_bits e (Z.lor (entry_bits e) D).

Definition validate_page (e : BasePDTEntry) (page : Z) : BasePDTEntry :=
  mkPDTEntry (Z.ldiff (Z.lor (entry_bits e) P) SHAR) (Some (PPage page)) (last_requester e) true.

Definition validate_page_table (e : BasePDTEntry) (table : Z) : BasePDTEntry :=
  mkPDTEntry (Z.lor (entry_bits e) P) (Some (PTable table)) (last_requester e) true.

(** [invalidate_page] without the release of the page. *)
Definition invalidated_entry : BasePDTEntry :=
  mkPDTEntry (Z.ldiff (Z.lor (Z.lor 0 PERMISSION) RW) SHAR) None no_requester false.

(** [set_lrequester(req_id, changed_to_shared)]: the entry and whether it became
    shared. *)
Definition set_lrequester (e : BasePDTEntry) (req_id : Z) (changed : bool) : BasePDTEntry * bool :=
  if negb (last_requester e =? no_requester) && negb (last_requester e =? req_id) then
    (mkPDTEntry (Z.lor (entry_bits e) SHAR) (next_level_ptr e) req_id (page_assigned e), changed || negb (is_shared e))
  else (mkPDTEntry (entry_bits e) (next_level_ptr e) req_id (page_assigned e), changed).

(** ** Offsets *)

Definition unset : Z := 2 ^ 32 - 1.

Definition get_pagetable_off (addr : Z) (mode : PagingStyle) : outcome Z :=
  match mode with
  | Legacy_Normal => get_bit_value 32 addr 12 21
  | PAE_Normal => get_bit_value 32 addr 21 20
  | LongMode_Normal => get_bit_value 32 addr 12 20
  | _ => Ret unset
  end.

Definition get_page_directory_off (addr : Z) (mode : PagingStyle) : outcome Z :=
  match mode with
  | Legacy_Normal | Legacy_Huge => get_bit_value 32 addr 22 31
  | PAE_Normal | PAE_Huge | LongMode_Normal | LongMode_Middle => get_bit_value 32 addr 21 29
  | _ => Ret unset
  end.

Definition get_page_directory_pointer_off (addr : Z) (mode : PagingStyle) : outcome Z :=
  match mode with
  | PAE_Normal | PAE_Huge => get_bit_value 32 addr 30 31
  | LongMode_Normal | LongMode_Middle | LongMode_Huge => get_bit_value 32 addr 30 38
  | _ => Ret unset
  end.

Definition get_pml4_off (addr : Z) (mode : PagingStyle) : outcome Z :=
  match mode with
  | LongMode_Normal | LongMode_Middle | LongMode_Huge => get_bit_value 32 addr 39 47
  | _ => Ret unset
  end.

(** [get_domains]: the indices [(pml4, pdp, pd, pt)]. *)
Definition get_domains (addr : Z) (mode : PagingStyle) : outcome (Z * Z * Z * Z) :=
  match mode with
  | Legacy_Normal =>
      pd ← get_bit_value 32 addr 22 31; pt ← get_bit_value 32 addr 12 21; Ret (unset, unset, pd, pt)
  | Legacy_Huge => pd ← get_bit_value 32 addr 22 31; Ret (unset, unset, pd, unset)
  | PAE_Normal =>
      pt ← get_bit_value 32 addr 12 20; pd ← get_bit_value 32 addr 21 29; pdp ← get_bit_value 32 addr 30 31;
      Ret (unset, pdp, pd, pt)
  | PAE_Huge =>
      pd ← get_bit_value 32 addr 21 29; pdp ← get_bit_value 32 addr 30 31; Ret (unset, pdp, pd, unset)
  | LongMode_Normal =>
      pt ← get_bit_value 32 addr 12 20; pd ← get_bit_value 32 addr 21 29; pdp ← get_bit_value 32 addr 30 38;
      pml4 ← get_bit_value 32 addr 39 47; Ret (pml4, pdp, pd, pt)
  | LongMode_Middle =>
      pd ← get_bit_value 32 addr 21 29; pdp ← get_bit_value 32 addr 30 38; pml4 ← get_bit_value 32 addr 39 47;
      Ret (pml4, pdp, pd, unset)
  | LongMode_Huge =>
      pdp ← get_bit_value 32 addr 30 38; pml4 ← get_bit_value 32 addr 39 47; Ret (pml4, pdp, unset, unset)
  end.

(** ** The allocator the page tables rely on

    [taken a L]: the pages of [L] are out.  A page that is handed out is not out
    already; a page given back leaves the others out.  All pages are below a
    limit that does not change. *)
Class PageSource (A : Type) : Type := {
  take_page : A -> outcome (option Z * A);
  give_page : A -> Z -> outcome A;
  taken : A -> list Z -> Prop;
  page_limit : A -> Z;
  taken_below a L p : taken a L -> p ∈ L -> 0 <= p < page_limit a;
  take_limit a L r a' : taken a L -> take_page a = Ret (r, a') -> page_limit a' = page_limit a;
  take_fresh a L p a' : taken a L -> take_page a = Ret (Some p, a') -> (p ∉ L) /\ taken a' (p :: L);
  take_refused a L a' : taken a L -> take_page a = Ret (None, a') -> taken a' L;
  give_keeps a L p a' : taken a L -> give_page a p = Ret a' -> taken a' (filter (fun q => q <> p) L)
}.

(** ** LongModePaging *)

Definition ENTRY_512 : Z := 512.

(** A table: the entries that are no longer as constructed, and its page. *)
Record PageTable : Type := mkPageTable { entry_array : gmap Z BasePDTEntry; table_page : Z }.

Record paging (A : Type) : Type := mkPaging {
  mode : PagingStyle;
  pml4 : Z;
  tables : gmap Z PageTable;
  fresh : Z;
  source : A;
  cur_pdp_num : Z;
  cur_pd_num : Z;
  cur_pt_num : Z
}.
Arguments mkPaging {A}.
Arguments mode {A}.
Arguments pml4 {A}.
Arguments tables {A}.
Arguments fresh {A}.
Arguments source {A}.
Arguments cur_pdp_num {A}.
Arguments cur_pd_num {A}.
Arguments cur_pt_num {A}.

Section LongMode.
Context {A : Type} `{PageSource A}.

Definition set_tables (p : paging A) (ts : gmap Z PageTable) : paging A :=
  mkPaging (mode p) (pml4 p) ts (fresh p) (source p) (cur_pdp_num p) (cur_pd_num p) (cur_pt_num p).
Definition set_source (p : paging A) (a : A) : paging A :=
  mkPaging (mode p) (pml4 p) (tables p) (fresh p) a (cur_pdp_num p) (cur_pd_num p) (cur_pt_num p).
Definition add_counts (p : paging A) (pdp pd pt : Z) : paging A :=
  mkPaging (mode p) (pml4 p) (tables p) (fresh p) (source p) (cur_pdp_num p + pdp) (cur_pd_num p + pd) (cur_pt_num p + pt).

Definition get_table (p : paging A) (t : Z) : outcome PageTable :=
  match tables p !! t with Some tb => Ret tb | None => Stop NullDeref end.

(** [PageTable::operator[]]. *)
Definition entry (p : paging A) (t i : Z) : outcome BasePDTEntry :=
  tb ← get_table p t;
  _ ← assert_ (i <? ENTRY_512);
  Ret (default newEntry (entry_array tb !! i)).

Definition put_entry (p : paging A) (t i : Z) (e : BasePDTEntry) : outcome (paging A) :=
  tb ← get_table p t;
  Ret (set_tables p (<[t := mkPageTable (<[i := e]> (entry_array tb)) (table_page tb)]> (tables p))).

(** [get_next_level_address<PageTable>]: the pointer used as a table. *)
Definition next_table (p : paging A) (t i : Z) : outcome (option Z) :=
  e ← entry p t i;
  match next_level_ptr e with
  | None => Ret None
  | Some (PTable j) => Ret (Some j)
  | Some (PPage _) => Stop Undefined
  end.

(** [get_next_level_address<void>] of an entry of the last level. *)
Definition next_page (p : paging A) (t i : Z) : outcome (option Z) :=
  e ← entry p t i;
  match next_level_ptr e with
  | None => Ret None
  | Some (PPage g) => Ret (Some g)
  | Some (PTable _) => Stop Undefined
  end.

(** [allocate_pages(0)] and the constructor of a table on the page. *)
Definition new_table (p : paging A) : outcome (Z * paging A) :=
  '(page, a) ← take_page (source p);
  match page with
  | None => Stop Panicked
  | Some page =>
      Ret (fresh p, mkPaging (mode p) (pml4 p) (<[fresh p := mkPageTable ∅ page]> (tables p)) (fresh p + 1) a
                      (cur_pdp_num p) (cur_pd_num p) (cur_pt_num p))
  end.

Definition validate_entry (p : paging A) (t i table : Z) : outcome (paging A) :=
  e ← entry p t i; put_entry p t i (validate_page_table e table).

(** A new table linked at entry [i] of [t]. *)
Definition grow (p : paging A) (t i : Z) : outcome (Z * paging A) :=
  '(j, p) ← new_table p; p ← validate_entry p t i j; Ret (j, p).

Definition newPaging (m : PagingStyle) (a : A) : outcome (paging A) :=
  '(page, a) ← take_page a;
  match page with
  | None => Stop Panicked
  | Some page => Ret (mkPaging m 0 {[0 := mkPageTable ∅ page]} 1 a 0 0 0)
  end.

(** The allocation functions return the table, the number of tables allocated so
    far and the new state; a null result is [None]. *)
Definition allocate_page_directory_pointer (p : paging A) (pml4_id : Z) (time : Z) : outcome (option Z * Z * paging A) :=
  _ ← assert_ ((pml4_id <? 512) && (cur_pdp_num p <? ENTRY_512));
  e ← entry p (pml4 p) pml4_id;
  if negb (is_present e) then
    '(t, p) ← grow p (pml4 p) pml4_id;
    Ret (Some t, time + 1, add_counts p 1 0 0)
  else
    t ← next_table p (pml4 p) pml4_id; Ret (t, time, p).

Definition allocate_page_directory (p : paging A) (pml4_id pdpt_id : Z) (time : Z) : outcome (option Z * Z * paging A) :=
  pdp ← next_table p (pml4 p) pml4_id;
  match pdp with
  | Some pdp =>
      e ← entry p pdp pdpt_id;
      if negb (is_present e) then
        '(t, p) ← grow p pdp pdpt_id;
        Ret (Some t, time + 1, add_counts p 0 1 0)
      else
        t ← next_table p pdp pdpt_id; Ret (t, time, p)
  | None =>
      '(t, time, p) ← allocate_page_directory_pointer p pml4_id time;
      match t with
      | None => Ret (None, time, p)
      | Some _ =>
          pdpt ← next_table p (pml4 p) pml4_id;
          match pdpt with
          | None => Stop NullDeref
          | Some pdpt =>
              '(t, p) ← grow p pdpt pdpt_id;
              Ret (Some t, time + 1, add_counts p 0 1 0)
          end
      end
  end.

Definition allocate_page_table (p : paging A) (pml4_id pdpt_id pdt_id : Z) : outcome (option Z * Z * paging A) :=
  _ ← assert_ (bool_decide (mode p = LongMode_Normal));
  pdp ← next_table p (pml4 p) pml4_id;
  match pdp with
  | Some pdp =>
      pd ← next_table p pdp pdpt_id;
      match pd with
      | Some pd =>
          e ← entry p pd pdt_id;
          if is_present e then
            t ← next_table p pd pdt_id; Ret (t, 0, p)
          else
            '(t, p) ← grow p pd pdt_id;
            Ret (Some t, 1, add_counts p 0 0 1)
      | None =>
          '(t, time, p) ← allocate_page_directory p pml4_id pdpt_id 0;
          match t with
          | None => Ret (None, time, p)
          | Some _ =>
              dir ← next_table p pdp pdpt_id;
              match dir with
              | None => Stop NullDeref
              | Some dir =>
                  '(t, p) ← grow p dir pdt_id;
                  Ret (Some t, time + 1, add_counts p 0 0 1)
              end
          end
      end
  | None =>
      '(t1, p) ← new_table p;
      '(t2, p) ← new_table p;
      '(t3, p) ← new_table p;
      p ← validate_entry p (pml4 p) pml4_id t1;
      p ← validate_entry p t1 pdpt_id t2;
      p ← validate_entry p t2 pdt_id t3;
      Ret (Some t3, 3, add_counts p 1 1 1)
  end.

(** The end of [map_page_table]: the page is entered, the entry is returned. *)
Definition enter_page (mem_access_time : Z) (r : option Z * Z * paging A) (i page : Z) : outcome (Z * Z * Z * paging A) :=
  let '(table, alloc_time, p) := r in
  match table with
  | None => Stop Panicked
  | Some t =>
      e ← entry p t i;
      p ← put_entry p t i (validate_page e page);
      e ← entry p t i;
      _ ← assert_ (is_present e);
      Ret (mem_access_time * (1 + alloc_time), t, i, p)
  end.

(** [map_page_table(addr, pg_ptr, mapped_entry)]: the latency, the entry (table and
    index) and the new state. *)
Definition map_page_table (mem_access_time : Z) (p : paging A) (addr page : Z) : outcome (Z * Z * Z * paging A) :=
  '(pml4, pdp, pd, pt) ← get_domains addr (mode p);
  _ ← assert_ (negb (pml4 =? unset) && negb (pdp =? unset));
  match mode p with
  | LongMode_Normal =>
      _ ← assert_ (negb (pd =? unset) && negb (pt =? unset));
      r ← allocate_page_table p pml4 pdp pd; enter_page mem_access_time r pt page
  | LongMode_Middle => r ← allocate_page_directory p pml4 pdp 0; enter_page mem_access_time r pd page
  | LongMode_Huge => r ← allocate_page_directory_pointer p pml4 0; enter_page mem_access_time r pdp page
  | _ => Stop NullDeref
  end.

(** What the request leaves in the entry it has mapped. *)
Definition note_request (p : paging A) (t i req_id : Z) (is_write : bool) : outcome (paging A) :=
  e ← entry p t i;
  let e := set_accessed (fst (set_lrequester e req_id false)) in
  put_entry p t i (if is_write then set_dirty e else e).

(** [map_page_table(req_id, addr, pg_ptr, is_write)]. *)
Definition map_page_for (mem_access_time : Z) (p : paging A) (req_id addr page : Z) (is_write : bool)
  : outcome (Z * paging A) :=
  '(latency, t, i, p) ← map_page_table mem_access_time p addr page;
  p ← note_request p t i req_id is_write;
  Ret (latency, p).

(** [get_tables]: after the first level, a null table is dereferenced. *)
Fixpoint get_tables_loop (p : paging A) (table : option Z) (ids : list Z) : outcome (option Z) :=
  match ids with
  | [] => Ret table
  | i :: ids =>
      match table with
      | None => Stop NullDeref
      | Some t =>
          n ← next_table p t i;
          match n with None => Ret None | Some n => get_tables_loop p (Some n) ids end
      end
  end.

Definition get_tables (p : paging A) (ids : list Z) : outcome (option Z) :=
  match ids with
  | [] => Stop AssertFailed
  | i :: ids => t ← next_table p (pml4 p) i; get_tables_loop p t ids
  end.

(** [invalidate_page] of an entry: nothing for an entry that is not present. *)
Definition invalidate_page (p : paging A) (t i : Z) : outcome (paging A) :=
  e ← entry p t i;
  if negb (is_present e) then Ret p else
  match next_level_ptr e with
  | Some (PPage g) =>
      a ← give_page (source p) g;
      put_entry (set_source p a) t i invalidated_entry
  | Some (PTable _) => Stop Undefined
  | None => Stop AssertFailed
  end.

(** [unmap_page_table] returns false on every path. *)
Definition unmap_page_table (p : paging A) (addr : Z) : outcome (bool * paging A) :=
  '(pml4, pdp, pd, pt) ← get_domains addr (mode p);
  let finish (ids : list Z) (i : Z) :=
    t ← get_tables p ids;
    match t with
    | None => Ret (false, p)
    | Some t => p ← invalidate_page p t i; Ret (false, p)
    end in
  match mode p with
  | LongMode_Normal => finish [pml4; pdp; pd] pt
  | LongMode_Middle => finish [pml4; pdp] pd
  | LongMode_Huge => finish [pml4] pdp
  | _ => Ret (false, p)
  end.

(** ** Walks *)

Record walk_result : Type := mkWalk {
  w_page : option Z;
  pgt_addrs : list Z;
  triggerPageShared : bool;
  triggerPageDirty : bool;
  pageDirty : bool;
  pageShared : bool
}.

Definition getPGTAddr (shift pageNo entry_id : Z) : Z := Z.lor (u64 (Z.shiftl pageNo shift)) (8 * entry_id).

Definition page_of (p : paging A) (t : Z) : outcome Z := tb ← get_table p t; Ret (table_page tb).

Definition fault (addrs : list Z) (shared dirty : bool) : walk_result := mkWalk None addrs shared dirty false false.

(** The flags of the last entry, after the page was found. *)
Definition touch_entry (p : paging A) (t i : Z) (srcId : Z) (is_puts shared dirty : bool) (addrs : list Z) (page : Z)
  : outcome (walk_result * paging A) :=
  e ← entry p t i;
  let '(e, shared) := set_lrequester e srcId shared in
  let e := set_accessed e in
  let '(e, dirty) := if is_puts then (set_dirty e, dirty || negb (is_dirty e)) else (e, dirty) in
  p ← put_entry p t i e;
  Ret (mkWalk (Some page) addrs shared dirty (is_dirty e) (is_shared e), p).

(** [access(req, ...)] for byte address [addr]; [is_puts] is [req.type == PUTS],
    [shared] and [dirty] the trigger flags the request comes with. *)
Definition access (shift : Z) (p : paging A) (addr srcId : Z) (is_puts shared dirty : bool) : outcome (walk_result * paging A) :=
  '(pml4_id, pdp_id, pd_id, pt_id) ← get_domains addr (mode p);
  g0 ← page_of p (pml4 p);
  let addrs := [getPGTAddr shift g0 pml4_id] in
  pdp ← next_table p (pml4 p) pml4_id;
  match pdp with
  | None => Ret (fault addrs shared dirty, p)
  | Some pdp =>
      g1 ← page_of p pdp;
      let addrs := addrs ++ [getPGTAddr shift g1 pdp_id] in
      match mode p with
      | LongMode_Huge =>
          page ← next_page p pdp pdp_id;
          match page with
          | None => Ret (fault addrs shared dirty, p)
          | Some page => touch_entry p pdp pdp_id srcId is_puts shared dirty addrs page
          end
      | LongMode_Middle =>
          pd ← next_table p pdp pdp_id;
          match pd with
          | None => Ret (fault addrs shared dirty, p)
          | Some pd =>
              _ ← assert_ (negb (pd_id =? unset));
              let addrs := addrs ++ [getPGTAddr shift g1 pd_id] in
              page ← next_page p pd pd_id;
              match page with
              | None => Ret (fault addrs shared dirty, p)
              | Some page => touch_entry p pd pd_id srcId is_puts shared dirty addrs page
              end
          end
      | LongMode_Normal =>
          pd ← next_table p pdp pdp_id;
          match pd with
          | None => Ret (fault addrs shared dirty, p)
          | Some pd =>
              _ ← assert_ (negb (pd_id =? unset));
              _ ← assert_ (negb (pt_id =? unset));
              g2 ← page_of p pd;
              let addrs := addrs ++ [getPGTAddr shift g2 pd_id] in
              pt ← next_table p pd pd_id;
              match pt with
              | None => Ret (fault addrs shared dirty, p)
              | Some pt =>
                  g3 ← page_of p pt;
                  let addrs := addrs ++ [getPGTAddr shift g3 pt_id] in
                  page ← next_page p pt pt_id;
                  match page with
                  | None => Ret (fault addrs shared dirty, p)
                  | Some page => touch_entry p pt pt_id srcId is_puts shared dirty addrs page
                  end
              end
          end
      | _ => Stop Undefined
      end
  end.
End LongMode.

(** ** Indices of an address *)

Definition long_mode (m : PagingStyle) : bool :=
  match m with LongMode_Normal | LongMode_Middle | LongMode_Huge => true | _ => false end.
Definition depth (m : PagingStyle) : nat :=
  match m with LongMode_Normal => 4 | LongMode_Middle => 3 | LongMode_Huge => 2 | _ => 0 end.
Definition page_bits (m : PagingStyle) : Z :=
  match m with LongMode_Normal => 12 | LongMode_Middle => 21 | _ => 30 end.

(** The page number of a virtual address, and the indices from the root down. *)
Definition vpn (m : PagingStyle) (addr : Z) : Z := addr / 2 ^ page_bits m mod 2 ^ (9 * Z.of_nat (depth m)).
Definition ids (m : PagingStyle) (addr : Z) : list Z := rev (slices (replicate (depth m) 9) (addr / 2 ^ page_bits m)).

Lemma width_replicate n : width (replicate n 9) = 9 * Z.of_nat n.
Proof. induction n; [done|]. cbn [replicate width foldr]. unfold width in IHn. lia. Qed.

Lemma nines n : Forall (Z.le 0) (replicate n 9).
Proof. apply Forall_replicate. lia. Qed.

Lemma ids_vpn m a b : ids m a = ids m b <-> vpn m a = vpn m b.
Proof.
  unfold ids, vpn. rewrite <- !width_replicate, <- !unslices_slices by apply nines. split.
  - intros H. apply (f_equal (@rev Z)) in H. rewrite !rev_involutive in H. by rewrite H.
  - intros H. rewrite !unslices_slices in H by apply nines. f_equal.
    rewrite <- (slices_mod _ (a / _) (width (replicate (depth m) 9))), <- (slices_mod _ (b / _) (width (replicate (depth m) 9)))
      by (apply nines || lia). by rewrite H.
Qed.

Lemma length_ids m a : length (ids m a) = depth m.
Proof.
  unfold ids. rewrite length_rev. generalize (a / 2 ^ page_bits m). generalize (depth m).
  intros n. induction n; intros x; simpl; auto.
Qed.

Lemma ids_range m a : Forall (fun i => 0 <= i < 512) (ids m a).
Proof.
  unfold ids. apply Forall_rev. generalize (a / 2 ^ page_bits m). generalize (depth m).
  intros n. induction n; intros x; simpl; constructor; [apply Z.mod_pos_bound; lia|done].
Qed.

Lemma get_domains_long m addr :
  long_mode m = true ->
  exists a b c d, get_domains addr m = Ret (a, b, c, d) /\ 0 <= a < 512 /\ 0 <= b < 512 /\
    match m with
    | LongMode_Normal => ids m addr = [a; b; c; d] /\ 0 <= c < 512 /\ 0 <= d < 512
    | LongMode_Middle => ids m addr = [a; b; c] /\ 0 <= c < 512
    | _ => ids m addr = [a; b]
    end.
Proof.
  intros Hm. unfold get_domains, ids.
  assert (Hf : forall x w, 0 <= (x / 2 ^ w) mod 2 ^ 9 < 512) by (intros; apply Z.mod_pos_bound; lia).
  destruct m; try done; rewrite !get_bit_value_spec by lia; cbn [mbind outcome_bind depth page_bits replicate slices rev app];
    eexists _, _, _, _; (split; [reflexivity|]); rewrite ?Z.div_div by lia; rewrite <- ?Z.pow_add_r by lia;
    split_and!; try apply Hf; done.
Qed.

(** ** Well-formed page tables

    [pa] gives every table the indices that lead to it from the root. *)

Section Theory.
Context {A : Type} `{PageSource A}.
Implicit Types p : paging A.

Definition ent p (t i : Z) : BasePDTEntry :=
  match tables p !! t with Some tb => default newEntry (entry_array tb !! i) | None => newEntry end.
Definition nxt p (t i : Z) : option ptr := next_level_ptr (ent p t i).

Record wf p (pa : gmap Z (list Z)) : Prop := {
  wf_root : pa !! pml4 p = Some [];
  wf_dom : forall t, is_Some (tables p !! t) <-> is_Some (pa !! t);
  wf_fresh : forall t, is_Some (pa !! t) -> t < fresh p;
  wf_inj : forall a b l, pa !! a = Some l -> pa !! b = Some l -> a = b;
  wf_depth : forall t l, pa !! t = Some l -> (length l < depth (mode p))%nat;
  wf_entry : forall t l i, pa !! t = Some l ->
    match nxt p t i with
    | None => is_present (ent p t i) = false
    | Some (PTable j) => is_present (ent p t i) = true /\ pa !! j = Some (l ++ [i])
    | Some (PPage _) => is_present (ent p t i) = true /\ S (length l) = depth (mode p)
    end;
  wf_linked : forall j l i, pa !! j = Some (l ++ [i]) -> exists t, pa !! t = Some l /\ nxt p t i = Some (PTable j)
}.

Fixpoint walk p (t : Z) (l : list Z) : option ptr :=
  match l with
  | [] => Some (PTable t)
  | i :: l =>
      match nxt p t i with
      | Some (PTable j) => walk p j l
      | Some (PPage g) => match l with [] => Some (PPage g) | _ => None end
      | None => None
      end
  end.

(** The page the indices lead to: the finite map the tables represent. *)
Definition translate p (l : list Z) : option Z :=
  match walk p (pml4 p) l with Some (PPage g) => Some g | _ => None end.

Lemma entry_ret p pa t i : wf p pa -> is_Some (pa !! t) -> i < 512 -> entry p t i = Ret (ent p t i).
Proof.
  intros W Ht Hi. apply (wf_dom _ _ W) in Ht as [tb Htb]. unfold entry, get_table, ent. rewrite Htb. simpl.
  rewrite (proj2 (Z.ltb_lt i ENTRY_512) Hi). done.
Qed.

Lemma next_table_ret p pa t l i :
  wf p pa -> pa !! t = Some l -> i < 512 -> (S (length l) < depth (mode p))%nat ->
  next_table p t i = Ret (match nxt p t i with Some (PTable j) => Some j | _ => None end) /\
  (nxt p t i = None \/ exists j, nxt p t i = Some (PTable j) /\ pa !! j = Some (l ++ [i])).
Proof.
  intros W Ht Hi Hd. unfold next_table. rewrite (entry_ret p pa) by (done || by eexists). simpl. pose proof (wf_entry _ _ W t l i Ht) as He.
  unfold nxt in *. destruct (next_level_ptr (ent p t i)) as [[g|j]|]; [lia|naive_solver|naive_solver].
Qed.

Lemma next_page_ret p pa t l i :
  wf p pa -> pa !! t = Some l -> i < 512 -> S (length l) = depth (mode p) ->
  next_page p t i = Ret (match nxt p t i with Some (PPage g) => Some g | _ => None end) /\
  (nxt p t i = None \/ exists g, nxt p t i = Some (PPage g)).
Proof.
  intros W Ht Hi Hd. unfold next_page. rewrite (entry_ret p pa) by (done || by eexists). simpl. pose proof (wf_entry _ _ W t l i Ht) as He.
  unfold nxt in *. destruct (next_level_ptr (ent p t i)) as [[g|j]|]; [naive_solver| |naive_solver].
  destruct He as [_ Hj]. apply (wf_depth _ _ W) in Hj. rewrite length_app in Hj. simpl in Hj. lia.
Qed.

(** Replacing one entry. *)
Lemma put_entry_spec p pa t i e :
  wf p pa -> is_Some (pa !! t) ->
  exists p', put_entry p t i e = Ret p' /\ mode p' = mode p /\ pml4 p' = pml4 p /\ source p' = source p /\ fresh p' = fresh p /\
    cur_pdp_num p' = cur_pdp_num p /\
    (forall t', is_Some (tables p' !! t') <-> is_Some (tables p !! t')) /\
    (forall t', table_page <$> tables p' !! t' = table_page <$> tables p !! t') /\
    (forall t' i', ent p' t' i' = if bool_decide (t' = t /\ i' = i) then e else ent p t' i').
Proof.
  intros W Ht. apply (wf_dom _ _ W) in Ht as [tb Htb]. unfold put_entry, get_table. rewrite Htb. simpl.
  eexists. split; [done|]. simpl. split_and!; try done.
  - intros t'. destruct (decide (t = t')) as [<-|Hne]; [rewrite lookup_insert_eq, Htb; split; eauto|by rewrite lookup_insert_ne].
  - intros t'. destruct (decide (t = t')) as [<-|Hne]; [by rewrite lookup_insert_eq, Htb|by rewrite lookup_insert_ne].
  - intros t' i'. unfold ent. simpl. case_bool_decide as Hd.
    + destruct Hd as [-> ->]. by rewrite lookup_insert_eq; simpl; rewrite lookup_insert_eq.
    + destruct (decide (t = t')) as [<-|Hne]; [|by rewrite lookup_insert_ne]. rewrite lookup_insert_eq, Htb. simpl.
      rewrite lookup_insert_ne; [done|]. intros <-. by apply Hd.
Qed.

(** Only walks that pass through a changed entry change. *)
Lemma walk_same p p' pa t i lt s ls l :
  wf p pa -> (forall t' i', (t', i') <> (t, i) -> nxt p' t' i' = nxt p t' i') ->
  pa !! t = Some lt -> pa !! s = Some ls -> ~ (lt ++ [i]) `prefix_of` (ls ++ l) -> walk p' s l = walk p s l.
Proof.
  intros W Hn Ht. revert s ls. induction l as [|j l IH]; intros s ls Hs Hp; [done|]. cbn [walk].
  assert (Hne : (s, j) <> (t, i)).
  { intros [= -> ->]. rewrite Hs in Ht. injection Ht as ->. apply Hp. exists l. by rewrite <- app_assoc. }
  rewrite (Hn s j Hne). destruct (nxt p s j) as [[g|k]|] eqn:E; [done| |done].
  apply (IH k (ls ++ [j])); [|by rewrite <- app_assoc]. pose proof (wf_entry _ _ W s ls j Hs) as He. rewrite E in He. by destruct He.
Qed.

Lemma walk_ext p p' s l : (forall t i, nxt p' t i = nxt p t i) -> walk p' s l = walk p s l.
Proof. intros E. revert s. induction l as [|i l IH]; intros s; [done|]. cbn [walk]. rewrite E. destruct (nxt p s i) as [[g|j]|]; auto. Qed.

Lemma walk_app p s l1 t l2 : walk p s l1 = Some (PTable t) -> walk p s (l1 ++ l2) = walk p t l2.
Proof.
  revert s. induction l1 as [|i l1 IH]; intros s Hw; cbn [walk app] in *; [by injection Hw as ->|].
  destruct (nxt p s i) as [[g|j]|]; [by destruct l1| |done]. by apply IH.
Qed.

(** A table is where its indices lead. *)
Lemma walk_to_table p pa t l : wf p pa -> pa !! t = Some l -> walk p (pml4 p) l = Some (PTable t).
Proof.
  intros W. revert t. induction l as [|i l IH] using rev_ind; intros t Ht.
  - simpl. f_equal. f_equal. by eapply (wf_inj _ _ W); [apply (wf_root _ _ W)|].
  - destruct (wf_linked _ _ W t l i Ht) as (s & Hs & Hn). rewrite (walk_app _ _ _ s) by (by apply IH). cbn [walk]. by rewrite Hn.
Qed.

(** Walks through the entry [i] of the table [t] and beyond. *)
Lemma walk_through p pa t lt i l :
  wf p pa -> pa !! t = Some lt -> walk p (pml4 p) (lt ++ i :: l) = walk p t (i :: l).
Proof. intros W Ht. apply walk_app. by eapply walk_to_table. Qed.

Lemma prefix_split (l1 l2 : list Z) i : (l1 ++ [i]) `prefix_of` l2 -> exists k, l2 = l1 ++ i :: k.
Proof. intros [k ->]. exists k. by rewrite <- app_assoc. Qed.
(** ** Changing the last level *)

Definition leaf_ok (e : BasePDTEntry) : Prop :=
  match next_level_ptr e with
  | None => is_present e = false
  | Some (PPage _) => is_present e = true
  | Some (PTable _) => False
  end.

Definition leaf_page (e : BasePDTEntry) : option Z :=
  match next_level_ptr e with Some (PPage g) => Some g | _ => None end.

Lemma set_leaf p pa t lt i e :
  wf p pa -> pa !! t = Some lt -> S (length lt) = depth (mode p) -> leaf_ok e ->
  exists p', put_entry p t i e = Ret p' /\ wf p' pa /\ mode p' = mode p /\ pml4 p' = pml4 p /\ source p' = source p /\
    cur_pdp_num p' = cur_pdp_num p /\
    (forall t', table_page <$> tables p' !! t' = table_page <$> tables p !! t') /\
    (forall t' i', ent p' t' i' = if bool_decide (t' = t /\ i' = i) then e else ent p t' i') /\
    (forall l, length l = depth (mode p) -> translate p' l = if bool_decide (l = lt ++ [i]) then leaf_page e else translate p l).
Proof.
  intros W Ht Hd He. destruct (put_entry_spec p pa t i e W ltac:(by eexists)) as (p' & E & M1 & M2 & M3 & M4 & M5 & Hdom & Hpg & Hent).
  exists p'. assert (Hnx : forall t' i', (t', i') <> (t, i) -> nxt p' t' i' = nxt p t' i').
  { intros t' i' Hne. unfold nxt. rewrite Hent, bool_decide_false; [done|]. intros [-> ->]. done. }
  assert (Hnt : nxt p' t i = next_level_ptr e) by (unfold nxt; by rewrite Hent, bool_decide_true).
  assert (W' : wf p' pa).
  { destruct W as [W1 W2 W3 W4 W5 W6 W7]. split.
    - by rewrite M2.
    - intros t'. by rewrite Hdom.
    - by rewrite M4.
    - done.
    - by rewrite M1.
    - intros s ls j Hs. rewrite M1. destruct (decide ((s, j) = (t, i))) as [[= -> ->]|Hne].
      + rewrite Hnt, Hent, bool_decide_true by done. unfold leaf_ok in He. destruct (next_level_ptr e) as [[g|k]|]; try done. simplify_eq. done.
      + rewrite (Hnx _ _ Hne), Hent, bool_decide_false by (intros [-> ->]; done). by apply W6.
    - intros j l k Hj. destruct (W7 j l k Hj) as (s & Hs & Hk). exists s. split; [done|]. rewrite Hnx; [done|].
      intros [= -> ->]. simplify_eq. pose proof (W5 _ _ Hj) as Hlen. rewrite length_app in Hlen. simpl in Hlen. lia. }
  split_and!; try done. intros l Hl. unfold translate. rewrite M2. case_bool_decide as Hlt.
  - subst l. rewrite <- M2, (walk_through p' pa t lt i []) by done. cbn [walk]. rewrite Hnt. unfold leaf_page.
    by destruct (next_level_ptr e) as [[g|k]|].
  - rewrite (walk_same p p' pa t i lt (pml4 p) []); [done..|apply (wf_root _ _ W)|]. simpl. intros Hp. apply prefix_split in Hp as [k ->].
    rewrite length_app in Hl. simpl in Hl. destruct k; [done|simpl in Hl; lia].
Qed.

(** ** Adding a table *)

Lemma new_table_spec p pa g a :
  wf p pa -> take_page (source p) = Ret (Some g, a) ->
  exists p1, new_table p = Ret (fresh p, p1) /\ mode p1 = mode p /\ pml4 p1 = pml4 p /\ source p1 = a /\ fresh p1 = fresh p + 1 /\
    tables p1 = <[fresh p := mkPageTable ∅ g]> (tables p) /\ cur_pdp_num p1 = cur_pdp_num p /\ (forall t i, ent p1 t i = ent p t i).
Proof.
  intros W E. unfold new_table. rewrite E. simpl. eexists. split; [done|]. split_and!; try done. intros t i. unfold ent. simpl.
  destruct (decide (fresh p = t)) as [<-|Hne]; [|by rewrite lookup_insert_ne]. rewrite lookup_insert_eq. simpl.
  assert (Hnone : tables p !! fresh p = None).
  { destruct (tables p !! fresh p) eqn:Ef; [|done]. assert (Hs : is_Some (pa !! fresh p)) by (apply (wf_dom _ _ W); by eexists).
    apply (wf_fresh _ _ W) in Hs. lia. }
  by rewrite Hnone.
Qed.

Record grown p (pa : gmap Z (list Z)) (t i : Z) (lt : list Z) (g : Z) (a : A) (p' : paging A) : Prop := {
  gr_wf : wf p' (<[fresh p := lt ++ [i]]> pa);
  gr_mode : mode p' = mode p;
  gr_root : pml4 p' = pml4 p;
  gr_source : source p' = a;
  gr_fresh : fresh p' = fresh p + 1;
  gr_pdp : cur_pdp_num p' = cur_pdp_num p;
  gr_pages : forall t', table_page <$> tables p' !! t' = if bool_decide (t' = fresh p) then Some g else table_page <$> tables p !! t';
  gr_ent : forall t' i', ent p' t' i' = if bool_decide (t' = t /\ i' = i) then validate_page_table (ent p t i) (fresh p) else ent p t' i';
  gr_map : forall l, length l = depth (mode p) -> translate p' l = translate p l
}.

Lemma present_or_P b : negb (Z.land (Z.lor b P) P =? 0) = true.
Proof.
  apply negb_true_iff, Z.eqb_neq. intros Hz. apply (f_equal (fun x => Z.testbit x 0)) in Hz.
  rewrite Z.land_spec, Z.lor_spec in Hz. simpl in Hz. rewrite orb_true_r in Hz. done.
Qed.

Lemma grow_spec p pa t lt i g a :
  wf p pa -> pa !! t = Some lt -> i < 512 -> nxt p t i = None -> (S (length lt) < depth (mode p))%nat ->
  take_page (source p) = Ret (Some g, a) ->
  exists p', grow p t i = Ret (fresh p, p') /\ grown p pa t i lt g a p'.
Proof.
  intros W Ht Hi Hn Hd E. destruct (new_table_spec p pa g a W E) as (p1 & E1 & M1 & M2 & M3 & M4 & M5 & M6 & Hent1).
  assert (Hft : fresh p <> t). { assert (t < fresh p) by (apply (wf_fresh _ _ W); by eexists). lia. }
  destruct (proj2 (wf_dom _ _ W t) ltac:(by eexists)) as [tb Htb].
  unfold grow. rewrite E1. simpl. unfold validate_entry, entry, put_entry, get_table. rewrite M5, lookup_insert_ne, Htb by done. simpl.
  rewrite (proj2 (Z.ltb_lt i ENTRY_512) Hi). simpl.
  set (e := default newEntry (entry_array tb !! i)). assert (He : e = ent p t i) by (unfold ent; by rewrite Htb).
  eexists. split; [done|]. set (p' := set_tables p1 _).
  assert (Hent : forall t' i', ent p' t' i' = if bool_decide (t' = t /\ i' = i) then validate_page_table (ent p t i) (fresh p) else ent p t' i').
  { intros t' i'. case_bool_decide as Hb.
    - destruct Hb as [-> ->]. rewrite <- He. unfold ent, p'. simpl. rewrite lookup_insert_eq. simpl. by rewrite lookup_insert_eq.
    - rewrite <- (Hent1 t' i'). unfold ent, p'. simpl. destruct (decide (t = t')) as [<-|Hne]; [|by rewrite lookup_insert_ne, M5]. rewrite lookup_insert_eq. simpl.
      rewrite M5, (lookup_insert_ne (tables p)), Htb by done. simpl. rewrite lookup_insert_ne; [done|]. intros <-. by apply Hb. }
  assert (Hnx : forall t' i', (t', i') <> (t, i) -> nxt p' t' i' = nxt p t' i').
  { intros t' i' Hne. unfold nxt. rewrite Hent, bool_decide_false; [done|]. intros [-> ->]. done. }
  assert (Hnt : nxt p' t i = Some (PTable (fresh p))) by (unfold nxt; rewrite Hent, bool_decide_true; done).
  assert (Hnew : forall j, nxt p' (fresh p) j = None).
  { intros j. rewrite Hnx by congruence. unfold nxt, ent. destruct (tables p !! fresh p) eqn:Ef; [|done].
    assert (Hs : is_Some (pa !! fresh p)) by (apply (wf_dom _ _ W); by eexists). apply (wf_fresh _ _ W) in Hs. lia. }
  assert (Hpaf : pa !! fresh p = None).
  { destruct (pa !! fresh p) eqn:Ef; [|done]. assert (Hs : is_Some (pa !! fresh p)) by (by eexists). apply (wf_fresh _ _ W) in Hs. lia. }
  assert (Hnopath : forall j, pa !! j <> Some (lt ++ [i])).
  { intros j Hj. destruct (wf_linked _ _ W j lt i Hj) as (s & Hs & Hns). assert (s = t) as -> by (by eapply (wf_inj _ _ W)). congruence. }
  assert (W' : wf p' (<[fresh p := lt ++ [i]]> pa)).
  { pose proof W as [W1 W2 W3 W4 W5 W6 W7]. split.
    - subst p'. simpl. rewrite M2. rewrite lookup_insert_ne; [done|]. intros Ef. rewrite Ef in Hpaf. congruence.
    - intros t'. subst p'. simpl. rewrite ?M5. destruct (decide (t' = fresh p)) as [->|Hne].
      + rewrite lookup_insert_ne, !lookup_insert_eq by done. split; eauto.
      + rewrite (lookup_insert_ne pa) by done. rewrite <- W2. destruct (decide (t' = t)) as [->|Hne'].
        * rewrite lookup_insert_eq, Htb. split; eauto.
        * by rewrite !lookup_insert_ne.
    - intros t'. subst p'. simpl. rewrite M4. destruct (decide (t' = fresh p)) as [->|Hne]; [lia|].
      rewrite lookup_insert_ne by done. intros Hs. apply W3 in Hs. lia.
    - intros x y l Hx Hy. destruct (decide (x = fresh p)) as [->|Hnx'], (decide (y = fresh p)) as [->|Hny]; try done.
      + rewrite lookup_insert_eq in Hx. rewrite lookup_insert_ne in Hy by done. simplify_eq. by apply Hnopath in Hy.
      + rewrite lookup_insert_eq in Hy. rewrite lookup_insert_ne in Hx by done. simplify_eq. by apply Hnopath in Hx.
      + rewrite lookup_insert_ne in Hx by done. rewrite lookup_insert_ne in Hy by done. by eapply W4.
    - intros t' l Hl. subst p'. simpl. rewrite M1. destruct (decide (t' = fresh p)) as [->|Hne].
      + rewrite lookup_insert_eq in Hl. simplify_eq. rewrite length_app. simpl. lia.
      + rewrite lookup_insert_ne in Hl by done. by eapply W5.
    - intros s ls j Hs. change (mode p') with (mode p1). rewrite M1. destruct (decide (s = fresh p)) as [->|Hne].
      + rewrite Hnew, Hent, bool_decide_false by (intros [? _]; done). specialize (Hnew j). rewrite Hnx in Hnew by congruence.
        unfold nxt, ent in *. destruct (tables p !! fresh p) eqn:Ef; [|done].
        assert (Hs' : is_Some (pa !! fresh p)) by (apply (wf_dom _ _ W); by eexists). apply W3 in Hs'. lia.
      + rewrite lookup_insert_ne in Hs by done. destruct (decide ((s, j) = (t, i))) as [[= -> ->]|Hne'].
        * rewrite Hnt, Hent, bool_decide_true by done. split; [apply present_or_P|]. rewrite lookup_insert_eq. congruence.
        * rewrite (Hnx _ _ Hne'), Hent, bool_decide_false by (intros [-> ->]; done). pose proof (W6 s ls j Hs) as Hw.
          destruct (nxt p s j) as [[g'|k]|]; try done. destruct Hw as [Hw1 Hw2]. split; [done|]. rewrite lookup_insert_ne; [done|]. congruence.
    - intros j l k Hj. destruct (decide (j = fresh p)) as [->|Hne].
      + rewrite lookup_insert_eq in Hj. injection Hj as Hj. apply app_inj_2 in Hj as [<- [= ->]]; [|done]. exists t.
        rewrite lookup_insert_ne by done. done.
      + rewrite lookup_insert_ne in Hj by done. destruct (W7 j l k Hj) as (s & Hs & Hk). exists s.
        rewrite lookup_insert_ne by congruence. split; [done|]. rewrite Hnx; [done|]. intros [= -> ->]. congruence. }
  split; try done.
  - intros t'. subst p'. simpl. rewrite ?M5. case_bool_decide as Hb.
    + subst t'. by rewrite lookup_insert_ne, lookup_insert_eq.
    + destruct (decide (t' = t)) as [->|Hne]; [by rewrite lookup_insert_eq, Htb|by rewrite !lookup_insert_ne].
  - intros l Hl. unfold translate. change (pml4 p') with (pml4 p1). rewrite M2.
    destruct (decide ((lt ++ [i]) `prefix_of` l)) as [Hp|Hp].
    + apply prefix_split in Hp as [k ->]. rewrite (walk_through p pa t lt i k W Ht). rewrite <- M2.
      change (pml4 p1) with (pml4 p'). rewrite (walk_app p' (pml4 p') lt t (i :: k)).
      * cbn [walk]. rewrite Hn, Hnt. destruct k as [|j k]; [|cbn [walk]; by rewrite Hnew].
        rewrite length_app in Hl. simpl in Hl. lia.
      * eapply walk_to_table; [exact W'|]. by rewrite lookup_insert_ne.
    + rewrite (walk_same p p' pa t i lt (pml4 p) []); [done..|apply (wf_root _ _ W)|done].
Qed.
(** ** Allocation of the tables on the way *)

(** The source can hand out [n] more pages. *)
Fixpoint supply (n : nat) (a : A) : Prop :=
  match n with O => True | S n => exists g a', take_page a = Ret (Some g, a') /\ supply n a' end.

Lemma supply_less n a : supply (S n) a -> supply n a.
Proof. revert a. induction n as [|n IH]; intros a; [done|]. intros (g & a' & E & Hs). exists g, a'. split; [done|]. by apply IH. Qed.

(** Every table has a page of its own, and these pages are out; [K] are pages that
    are out for other uses, [N] is the limit of the source. *)
Definition pages_in (N : Z) (K : Z -> Prop) p : Prop :=
  exists L, taken (source p) L /\ page_limit (source p) = N /\
    (forall t tb, tables p !! t = Some tb -> table_page tb ∈ L /\ ~ K (table_page tb)) /\
    (forall t t' tb tb', tables p !! t = Some tb -> tables p !! t' = Some tb' -> table_page tb = table_page tb' -> t = t') /\
    (forall g, K g -> g ∈ L).

Definition pages_ok p : Prop := pages_in (page_limit (source p)) (fun _ => False) p.

(** What every operation keeps: the pages of tables are apart from each other and
    from [K], and a table stays where it is. *)
Record tables_kept p p' : Prop := {
  kept_pages : forall N K, pages_in N K p -> pages_in N K p';
  kept_tables : forall l t, walk p (pml4 p) l = Some (PTable t) -> walk p' (pml4 p') l = Some (PTable t)
}.

Lemma walk_path p pa s ls l t : wf p pa -> pa !! s = Some ls -> walk p s l = Some (PTable t) -> pa !! t = Some (ls ++ l).
Proof.
  intros W. revert s ls. induction l as [|i l IH]; intros s ls Hs Hw; cbn [walk] in Hw; [injection Hw as <-; by rewrite app_nil_r|].
  pose proof (wf_entry _ _ W s ls i Hs) as He. destruct (nxt p s i) as [[g|j]|]; [by destruct l| |done].
  destruct He as [_ Hj]. rewrite (IH j (ls ++ [i]) Hj Hw). by rewrite <- app_assoc.
Qed.

Lemma paths_kept p p' pa pa' l t :
  wf p pa -> wf p' pa' -> pa ⊆ pa' -> walk p (pml4 p) l = Some (PTable t) -> walk p' (pml4 p') l = Some (PTable t).
Proof.
  intros W W' Hs Hw. apply (walk_to_table p' pa'); [done|]. eapply lookup_weaken; [|done].
  by apply (walk_path p pa (pml4 p) [] l t W (wf_root _ _ W)).
Qed.

Lemma tables_kept_refl p : tables_kept p p.
Proof. by split. Qed.
#[local] Hint Resolve tables_kept_refl : core.

Lemma tables_kept_trans p1 p2 p3 : tables_kept p1 p2 -> tables_kept p2 p3 -> tables_kept p1 p3.
Proof. intros [H1 H2] [H3 H4]. split; auto. Qed.

Lemma tables_kept_ok p p' : tables_kept p p' -> pages_ok p -> pages_ok p'.
Proof. intros [Hk _] Hp. apply Hk in Hp. unfold pages_ok. pose proof Hp as (L & _ & -> & _). exact Hp. Qed.

(** From [p] to [p'], tables were added on the way to [t], which has indices [l]. *)
Record extends p (l : list Z) (t : Z) p' : Prop := {
  ex_wf : exists pa, wf p' pa /\ pa !! t = Some l;
  ex_mode : mode p' = mode p;
  ex_root : pml4 p' = pml4 p;
  ex_map : forall k, length k = depth (mode p) -> translate p' k = translate p k;
  ex_pages : tables_kept p p'
}.

Lemma extends_counts p l t p' a b c : extends p l t p' -> extends p l t (add_counts p' a b c).
Proof.
  intros [(pa & [W1 W2 W3 W4 W5 W6 W7] & H1) H2 H3 H4 [H5 H6]]. split; [|exact H2|exact H3| |].
  2:{ intros k Hk. rewrite <- (H4 k Hk). unfold translate. by rewrite (walk_ext p'). }
  2:{ split; [exact H5|]. intros k x Hk. rewrite <- (H6 k x Hk). by apply (walk_ext p'). }
  exists pa. split; [|done].
  exact (Build_wf (add_counts p' a b c) pa W1 W2 W3 W4 W5 W6 W7).
Qed.

Lemma grown_pages p pa t i lt g a p' :
  take_page (source p) = Ret (Some g, a) -> grown p pa t i lt g a p' -> forall N K, pages_in N K p -> pages_in N K p'.
Proof.
  intros E G N K (L & HL & HN & Hin & Hinj & HK). destruct (take_fresh _ _ _ _ HL E) as [Hg HL'].
  assert (Hpg : forall t' tb', tables p' !! t' = Some tb' ->
    (t' = fresh p /\ table_page tb' = g) \/ (t' <> fresh p /\ exists tb, tables p !! t' = Some tb /\ table_page tb = table_page tb')).
  { intros t' tb' Ht'. pose proof (gr_pages _ _ _ _ _ _ _ _ G t') as Hp. rewrite Ht' in Hp. simpl in Hp.
    case_bool_decide; [left; split; [done|congruence]|right]. split; [done|].
    destruct (tables p !! t') as [tb|]; [|done]. exists tb. split; [done|]. simpl in Hp. congruence. }
  exists (g :: L). rewrite (gr_source _ _ _ _ _ _ _ _ G). split_and!; [done|rewrite <- HN; by eapply take_limit| | |].
  - intros t' tb' Ht'. destruct (Hpg _ _ Ht') as [[_ ->]|(_ & tb & Htb & <-)].
    + split; [constructor|]. intros Hk. by apply Hg, HK.
    + destruct (Hin _ _ Htb). split; [by right|done].
  - intros x y tx ty Hx Hy Hxy. destruct (Hpg _ _ Hx) as [[-> Ex]|(Hnx & tb & Htb & Ex)], (Hpg _ _ Hy) as [[-> Ey]|(Hny & tb' & Htb' & Ey)]; try done.
    + exfalso. apply Hg. rewrite <- Ex, Hxy, <- Ey. by eapply Hin.
    + exfalso. apply Hg. rewrite <- Ey, <- Hxy, <- Ex. by eapply Hin.
    + eapply Hinj; [done|done|congruence].
  - intros x Hx. right. by apply HK.
Qed.

Lemma grown_extends p pa t i lt g a p' :
  wf p pa -> take_page (source p) = Ret (Some g, a) -> pa !! t = Some lt -> grown p pa t i lt g a p' ->
  extends p (lt ++ [i]) (fresh p) p'.
Proof.
  intros W E Ht G. pose proof (grown_pages _ _ _ _ _ _ _ _ E G) as Hp. destruct G as [G1 G2 G3 G4 G5 G6 G7 G8 G9]. split; try done.
  2:{ split; [done|]. intros l x. apply (paths_kept p p' pa _ l x W G1). apply insert_subseteq.
      apply eq_None_not_Some. intros Hs. apply (wf_fresh _ _ W) in Hs. lia. }
  eexists. split; [exact G1|]. by rewrite lookup_insert_eq.
Qed.

Lemma extends_trans p1 l1 t1 p2 l2 t2 p3 : extends p1 l1 t1 p2 -> extends p2 l2 t2 p3 -> extends p1 l2 t2 p3.
Proof.
  intros [_ M1 R1 T1 G1] [W2 M2 R2 T2 G2]. split; [done|congruence|congruence| |by eapply tables_kept_trans].
  intros k Hk. rewrite T2 by congruence. by apply T1.
Qed.

Lemma extends_refl p pa t l : wf p pa -> pa !! t = Some l -> extends p l t p.
Proof. intros W Ht. split; try done. by exists pa. Qed.

(** After [grow] at [t], the new table is below [t] and empty. *)
Lemma grown_next p pa t i lt g a p' :
  wf p pa -> pa !! t = Some lt -> grown p pa t i lt g a p' ->
  nxt p' t i = Some (PTable (fresh p)) /\ (forall j, nxt p' (fresh p) j = None).
Proof.
  intros W Ht G. assert (Hft : fresh p <> t). { assert (t < fresh p) by (apply (wf_fresh _ _ W); by eexists). lia. }
  split; [unfold nxt; by rewrite (gr_ent _ _ _ _ _ _ _ _ G), bool_decide_true|].
  intros j. unfold nxt. rewrite (gr_ent _ _ _ _ _ _ _ _ G), bool_decide_false by (intros [? _]; done). unfold ent.
  destruct (tables p !! fresh p) eqn:Ef; [|done]. assert (Hs : is_Some (pa !! fresh p)) by (apply (wf_dom _ _ W); by eexists).
  apply (wf_fresh _ _ W) in Hs. lia.
Qed.

Lemma present_next p pa t lt i : wf p pa -> pa !! t = Some lt -> is_present (ent p t i) = bool_decide (nxt p t i <> None).
Proof.
  intros W Ht. pose proof (wf_entry _ _ W t lt i Ht) as He. destruct (nxt p t i) as [[g|j]|]; case_bool_decide; naive_solver.
Qed.

(** Entry [i] of the table [t], or a new table there. *)
Lemma ensure p pa t lt i n :
  wf p pa -> pa !! t = Some lt -> i < 512 -> (S (length lt) < depth (mode p))%nat -> supply (S n) (source p) ->
  (exists j, nxt p t i = Some (PTable j) /\ next_table p t i = Ret (Some j) /\ is_present (ent p t i) = true /\ pa !! j = Some (lt ++ [i])) \/
  (nxt p t i = None /\ next_table p t i = Ret None /\ is_present (ent p t i) = false /\
   exists g a p', take_page (source p) = Ret (Some g, a) /\ grow p t i = Ret (fresh p, p') /\ grown p pa t i lt g a p' /\ supply n (source p')).
Proof.
  intros W Ht Hi Hd Hs. destruct (next_table_ret p pa t lt i W Ht Hi Hd) as [E [Hn|(j & Hn & Hj)]]; rewrite E, (present_next p pa t lt i W Ht), Hn.
  - right. split_and!; try done. destruct Hs as (g & a & Et & Hs). exists g, a.
    destruct (grow_spec p pa t lt i g a W Ht Hi Hn Hd Et) as (p' & Eg & G). exists p'. split_and!; try done.
    by rewrite (gr_source _ _ _ _ _ _ _ _ G).
  - left. exists j. done.
Qed.

Lemma allocate_pdp_spec p pa i n time :
  wf p pa -> i < 512 -> cur_pdp_num p < 512 -> (1 < depth (mode p))%nat -> supply (S n) (source p) ->
  exists t time' p', allocate_page_directory_pointer p i time = Ret (Some t, time', p') /\ time <= time' <= time + 1 /\
    extends p [i] t p' /\ supply n (source p') /\
    (nxt p (pml4 p) i = None -> nxt p' (pml4 p') i = Some (PTable t) /\ forall j, nxt p' t j = None).
Proof.
  intros W Hi Hc Hd Hs. unfold allocate_page_directory_pointer. rewrite (proj2 (Z.ltb_lt i 512)), (proj2 (Z.ltb_lt _ ENTRY_512)) by (unfold ENTRY_512; lia).
  simpl. pose proof (wf_root _ _ W) as Hr. rewrite (entry_ret p pa) by (done || by eexists). simpl.
  destruct (ensure p pa (pml4 p) [] i n W Hr Hi Hd Hs) as [(j & Hn & En & -> & Hj)|(Hn & En & -> & g & a & p' & Et & Eg & G & Hs')]; simpl.
  - rewrite En. simpl. exists j, time, p. split_and!; [done|lia|lia|by eapply extends_refl|by apply supply_less|congruence].
  - rewrite Eg. simpl. exists (fresh p), (time + 1), (add_counts p' 1 0 0).
    destruct (grown_next _ _ _ _ _ _ _ _ W Hr G) as [G1 G2].
    split_and!; [done|lia|lia|apply extends_counts; by apply (grown_extends p pa (pml4 p) i [] g a)|done|].
    intros _. simpl. rewrite (gr_root _ _ _ _ _ _ _ _ G). done.
Qed.

Lemma allocate_pd_spec p pa i1 i2 n time :
  wf p pa -> i1 < 512 -> i2 < 512 -> cur_pdp_num p < 512 -> (2 < depth (mode p))%nat -> supply (S (S n)) (source p) ->
  exists t time' p', allocate_page_directory p i1 i2 time = Ret (Some t, time', p') /\ time <= time' <= time + 2 /\
    extends p [i1; i2] t p' /\ supply n (source p') /\
    (forall pdp, nxt p (pml4 p) i1 = Some (PTable pdp) -> nxt p pdp i2 = None ->
       nxt p' pdp i2 = Some (PTable t) /\ forall j, nxt p' t j = None).
Proof.
  intros W Hi1 Hi2 Hc Hd Hs. unfold allocate_page_directory. pose proof (wf_root _ _ W) as Hr.
  destruct (next_table_ret p pa (pml4 p) [] i1 W Hr Hi1 ltac:(simpl; lia)) as [E [Hn|(j & Hn & Hj)]]; rewrite E, Hn; simpl.
  - destruct (allocate_pdp_spec p pa i1 (S n) time W Hi1 Hc ltac:(lia) Hs) as (t1 & time1 & p1 & -> & Htm & X1 & Hs1 & Hnew). simpl.
    destruct (Hnew Hn) as [N1 N2]. destruct (ex_wf _ _ _ _ X1) as (pa1 & W1 & Ht1). pose proof (ex_mode _ _ _ _ X1) as M1.
    destruct (next_table_ret p1 pa1 (pml4 p1) [] i1 W1 (wf_root _ _ W1) Hi1 ltac:(rewrite M1; simpl; lia)) as [E1 _]. rewrite E1, N1. simpl.
    destruct (ensure p1 pa1 t1 [i1] i2 n W1 Ht1 Hi2 ltac:(rewrite M1; simpl; lia) Hs1) as [(j & Hj & _)|(_ & _ & _ & g & a & p' & Et & Eg & G & Hs')].
    { rewrite N2 in Hj. done. }
    rewrite Eg. simpl. exists (fresh p1), (time1 + 1), (add_counts p' 0 1 0). split_and!; [done|lia|lia| |done|congruence].
    apply extends_counts. eapply extends_trans; [exact X1|]. by apply (grown_extends p1 pa1 t1 i2 [i1] g a).
  - rewrite (entry_ret p pa) by (done || by eexists). simpl.
    destruct (ensure p pa j [i1] i2 (S n) W Hj Hi2 ltac:(simpl; lia) Hs) as [(k & Hk & Ek & -> & Hpk)|(Hk & Ek & -> & g & a & p' & Et & Eg & G & Hs')]; simpl.
    + rewrite Ek. simpl. exists k, time, p. split_and!; [done|lia|lia|by eapply extends_refl|by apply supply_less, supply_less|]. intros pdp [= <-]. congruence.
    + rewrite Eg. simpl. exists (fresh p), (time + 1), (add_counts p' 0 1 0). destruct (grown_next _ _ _ _ _ _ _ _ W Hj G) as [G1 G2].
      split_and!; [done|lia|lia|apply extends_counts; by apply (grown_extends p pa j i2 [i1] g a)|by apply supply_less|]. intros pdp [= <-] _. done.
Qed.

Ltac table_ops :=
  repeat first
    [ progress simpl
    | match goal with E : take_page _ = Ret _ |- _ => rewrite E end
    | rewrite lookup_insert_eq
    | rewrite lookup_insert_ne by lia
    | match goal with E : _ !! _ = Some _ |- _ => rewrite E end
    | match goal with E : ?i < 512 |- context [?i <? ENTRY_512] => rewrite (proj2 (Z.ltb_lt i ENTRY_512) E) end ].

(** Three new tables linked afterwards are three tables grown one below the other. *)
Lemma new_tables_grow p pa i1 i2 i3 :
  wf p pa -> i1 < 512 -> i2 < 512 -> i3 < 512 -> supply 3 (source p) ->
  exists p1 p2 p3, grow p (pml4 p) i1 = Ret (fresh p, p1) /\ grow p1 (fresh p) i2 = Ret (fresh p1, p2) /\
    grow p2 (fresh p1) i3 = Ret (fresh p2, p3) /\
    ('(t1, p) ← new_table p;
     '(t2, p) ← new_table p;
     '(t3, p) ← new_table p;
     p ← validate_entry p (pml4 p) i1 t1;
     p ← validate_entry p t1 i2 t2;
     p ← validate_entry p t2 i3 t3;
     Ret (Some t3, 3, add_counts p 1 1 1)) = Ret (Some (fresh p2), 3, add_counts p3 1 1 1).
Proof.
  intros W H1 H2 H3 (g1 & a1 & E1 & g2 & a2 & E2 & g3 & a3 & E3 & _).
  pose proof (wf_root _ _ W) as Hr. assert (Hf : pml4 p < fresh p) by (apply (wf_fresh _ _ W); by eexists).
  destruct (proj2 (wf_dom _ _ W (pml4 p)) ltac:(by eexists)) as [tb Htb].
  destruct p as [m root ts f a c1 c2 c3]. simpl in *. clear W Hr.
  unfold grow, new_table, validate_entry, entry, put_entry, get_table. table_ops.
  do 3 eexists. split; [reflexivity|]. table_ops. split; [reflexivity|]. table_ops. split; [reflexivity|].
  unfold add_counts. simpl. do 3 f_equal. apply map_eq. intros x.
  destruct (decide (x = root)) as [->|N1]; [by rewrite !(lookup_insert_ne _ _ root), !lookup_insert_eq, !(lookup_insert_ne _ _ root), !lookup_insert_eq by lia|].
  destruct (decide (x = f)) as [->|N2]; [by repeat first [rewrite lookup_insert_eq | rewrite lookup_insert_ne by lia]|].
  destruct (decide (x = f + 1)) as [->|N3]; [by repeat first [rewrite lookup_insert_eq | rewrite lookup_insert_ne by lia]|].
  destruct (decide (x = f + 1 + 1)) as [->|N4]; [by repeat first [rewrite lookup_insert_eq | rewrite lookup_insert_ne by lia]|].
  by rewrite !lookup_insert_ne by lia.
Qed.

(** A table whose entry leads to the indices [l ++ [i]] is at [l]. *)
Lemma nxt_path p pa t i j l : wf p pa -> nxt p t i = Some (PTable j) -> pa !! j = Some (l ++ [i]) -> pa !! t = Some l.
Proof.
  intros W Hn Hj. assert (Hs : is_Some (pa !! t)).
  { apply (wf_dom _ _ W). unfold nxt, ent in Hn. destruct (tables p !! t); [by eexists|done]. }
  destruct Hs as [l' Hl]. pose proof (wf_entry _ _ W t l' i Hl) as He. rewrite Hn in He. destruct He as [_ He].
  rewrite Hj in He. injection He as He. apply app_inj_2 in He as [<- _]; done.
Qed.

(** A table grown below [t], as a step of the allocation. *)
Lemma grow_extends p pa t lt i n :
  wf p pa -> pa !! t = Some lt -> i < 512 -> nxt p t i = None -> (S (length lt) < depth (mode p))%nat -> supply (S n) (source p) ->
  exists p', grow p t i = Ret (fresh p, p') /\ extends p (lt ++ [i]) (fresh p) p' /\ supply n (source p') /\
    nxt p' t i = Some (PTable (fresh p)) /\ (forall j, nxt p' (fresh p) j = None) /\
    exists pa', wf p' pa' /\ pa' !! fresh p = Some (lt ++ [i]).
Proof.
  intros W Ht Hi Hn Hd (g & a & Et & Hs). destruct (grow_spec p pa t lt i g a W Ht Hi Hn Hd Et) as (p' & Eg & G).
  destruct (grown_next _ _ _ _ _ _ _ _ W Ht G) as [G1 G2]. pose proof (grown_extends _ _ _ _ _ _ _ _ W Et Ht G) as X.
  exists p'. split_and!; try done; [by rewrite (gr_source _ _ _ _ _ _ _ _ G)|apply X].
Qed.

Lemma allocate_pt_spec p pa i1 i2 i3 :
  wf p pa -> mode p = LongMode_Normal -> i1 < 512 -> i2 < 512 -> i3 < 512 -> cur_pdp_num p < 512 -> supply 3 (source p) ->
  exists t time p', allocate_page_table p i1 i2 i3 = Ret (Some t, time, p') /\ 0 <= time <= 3 /\ extends p [i1; i2; i3] t p'.
Proof.
  intros W M Hi1 Hi2 Hi3 Hc Hs. unfold allocate_page_table. rewrite bool_decide_true by done. simpl.
  assert (Hd : depth (mode p) = 4%nat) by (by rewrite M). pose proof (wf_root _ _ W) as Hr.
  destruct (next_table_ret p pa (pml4 p) [] i1 W Hr Hi1 ltac:(simpl; lia)) as [E1 [Hn|(j & Hn & Hj)]]; rewrite E1, Hn; simpl.
  - destruct (new_tables_grow p pa i1 i2 i3 W Hi1 Hi2 Hi3 Hs) as (p1 & p2 & p3 & G1 & G2 & G3 & ->).
    destruct (grow_extends p pa (pml4 p) [] i1 2 W Hr Hi1 Hn ltac:(simpl; lia) Hs) as (q1 & F1 & X1 & S1 & _ & N1 & pa1 & W1 & P1).
    rewrite G1 in F1. injection F1 as <-.
    destruct (grow_extends p1 pa1 (fresh p) [i1] i2 1 W1 P1 Hi2 (N1 _) ltac:(rewrite (ex_mode _ _ _ _ X1); simpl; lia) S1)
      as (q2 & F2 & X2 & S2 & _ & N2 & pa2 & W2 & P2).
    rewrite G2 in F2. injection F2 as <-. assert (M2 : mode p2 = mode p) by (by rewrite (ex_mode _ _ _ _ X2), (ex_mode _ _ _ _ X1)).
    destruct (grow_extends p2 pa2 (fresh p1) [i1; i2] i3 0 W2 P2 Hi3 (N2 _) ltac:(rewrite M2; simpl; lia) S2) as (q3 & F3 & X3 & _).
    rewrite G3 in F3. injection F3 as <-. do 3 eexists. split; [done|]. split; [lia|]. apply extends_counts.
    eapply extends_trans; [exact X1|]. eapply extends_trans; [exact X2|exact X3].
  - destruct (next_table_ret p pa j [i1] i2 W Hj Hi2 ltac:(simpl; lia)) as [E2 [Hn2|(k & Hn2 & Hk)]]; rewrite E2, Hn2; simpl.
    + destruct (allocate_pd_spec p pa i1 i2 1 0 W Hi1 Hi2 Hc ltac:(lia) Hs) as (t1 & time1 & p1 & -> & Htm & X1 & S1 & Hnew). simpl.
      destruct (Hnew j Hn Hn2) as [N1 N2]. destruct (ex_wf _ _ _ _ X1) as (pa1 & W1 & P1). pose proof (ex_mode _ _ _ _ X1) as M1.
      pose proof (nxt_path _ _ _ _ _ [i1] W1 N1 P1) as Hj1.
      destruct (next_table_ret p1 pa1 j [i1] i2 W1 Hj1 Hi2 ltac:(rewrite M1; simpl; lia)) as [E3 _]. rewrite E3, N1. simpl.
      destruct (grow_extends p1 pa1 t1 [i1; i2] i3 0 W1 P1 Hi3 (N2 _) ltac:(rewrite M1; simpl; lia) S1) as (p3 & -> & X3 & _). simpl.
      do 3 eexists. split; [done|]. split; [lia|]. apply extends_counts. by eapply extends_trans.
    + rewrite (entry_ret p pa) by (done || by eexists). simpl.
      destruct (next_table_ret p pa k [i1; i2] i3 W Hk Hi3 ltac:(simpl; lia)) as [E3 [Hn3|(t & Hn3 & Ht)]];
        rewrite (present_next p pa k [i1; i2] i3 W Hk), Hn3; simpl.
      * destruct (grow_extends p pa k [i1; i2] i3 2 W Hk Hi3 Hn3 ltac:(simpl; lia) Hs) as (p3 & -> & X3 & _). simpl.
        do 3 eexists. split; [done|]. split; [lia|]. by apply extends_counts.
      * rewrite E3, Hn3. simpl. exists t, 0, p. split; [done|]. split; [lia|]. by eapply extends_refl.
Qed.

(** ** Mapping, walking and unmapping as operations on a finite map *)

Lemma pages_same p p' pa :
  wf p pa -> wf p' pa -> source p' = source p -> (forall t, table_page <$> tables p' !! t = table_page <$> tables p !! t) -> tables_kept p p'.
Proof.
  intros W W' Hs Ht. split; [|intros l t; by apply (paths_kept p p' pa pa)].
  intros N K (L & HL & HN & Hin & Hinj & HK).
  assert (Hb : forall t tb, tables p' !! t = Some tb -> exists tb', tables p !! t = Some tb' /\ table_page tb = table_page tb').
  { intros t tb E. specialize (Ht t). rewrite E in Ht. destruct (tables p !! t) as [tb'|]; [|done]. exists tb'. split; [done|]. by injection Ht. }
  exists L. rewrite Hs. split_and!; [done|done| | |done].
  - intros t tb E. destruct (Hb _ _ E) as (tb' & E' & ->). by eapply Hin.
  - intros t t' tb tb' E E' Heq. destruct (Hb _ _ E) as (x & Ex & Hx), (Hb _ _ E') as (y & Ey & Hy). eapply Hinj; [done|done|congruence].
Qed.

(** The tables represent the finite map [M] from virtual to physical page numbers. *)
Record represents p (M : gmap Z Z) : Prop := {
  rp_wf : exists pa, wf p pa;
  rp_long : long_mode (mode p) = true;
  rp_map : forall addr, translate p (ids (mode p) addr) = M !! vpn (mode p) addr
}.

Lemma present_not_shared b : negb (Z.land (Z.ldiff (Z.lor b P) SHAR) P =? 0) = true.
Proof.
  apply negb_true_iff, Z.eqb_neq. intros Hz. apply (f_equal (fun x => Z.testbit x 0)) in Hz.
  rewrite Z.land_spec, Z.ldiff_spec, Z.lor_spec in Hz. simpl in Hz. rewrite orb_true_r in Hz. done.
Qed.

Lemma represents_set p p' pa M addr v :
  represents p M -> wf p' pa -> mode p' = mode p ->
  (forall l, length l = depth (mode p) -> translate p' l = if bool_decide (l = ids (mode p) addr) then v else translate p l) ->
  represents p' (partial_alter (fun _ => v) (vpn (mode p) addr) M).
Proof.
  intros [_ Hl HM] W Hm Ht. split; [by exists pa|by rewrite Hm|]. intros b. rewrite Hm, Ht by apply length_ids.
  case_bool_decide as Hb.
  - apply ids_vpn in Hb. rewrite Hb. by rewrite lookup_partial_alter_eq.
  - rewrite HM, lookup_partial_alter_ne; [done|]. intros Hv. apply Hb, ids_vpn. done.
Qed.

Lemma enter_page_spec mt p1 pa t lt time i page :
  wf p1 pa -> pa !! t = Some lt -> S (length lt) = depth (mode p1) -> i < 512 ->
  exists p', enter_page mt (Some t, time, p1) i page = Ret (mt * (1 + time), t, i, p') /\ wf p' pa /\ mode p' = mode p1 /\
    tables_kept p1 p' /\
    (forall l, length l = depth (mode p1) -> translate p' l = if bool_decide (l = lt ++ [i]) then Some page else translate p1 l).
Proof.
  intros W Ht Hd Hi. unfold enter_page. rewrite (entry_ret p1 pa) by (done || by eexists). simpl.
  destruct (set_leaf p1 pa t lt i (validate_page (ent p1 t i) page) W Ht Hd) as (p' & -> & W' & M1 & M2 & M3 & M4 & Hpg & Hent & Hmap);
    [apply present_not_shared|]. simpl.
  rewrite (entry_ret p' pa) by (done || by eexists). simpl. rewrite Hent, bool_decide_true by done.
  assert (Hp : is_present (validate_page (ent p1 t i) page) = true) by apply present_not_shared. rewrite Hp. simpl. exists p'. split_and!; try done. by apply (pages_same _ _ pa).
Qed.

Lemma map_page_table_ok mt p M addr page :
  represents p M -> cur_pdp_num p < 512 -> supply 3 (source p) ->
  exists latency t i p', map_page_table mt p addr page = Ret (latency, t, i, p') /\ (0 <= mt -> 0 <= latency <= 4 * mt) /\
    represents p' (<[vpn (mode p) addr := page]> M) /\ mode p' = mode p /\ tables_kept p p' /\
    exists pa lt, wf p' pa /\ pa !! t = Some lt /\ lt ++ [i] = ids (mode p) addr.
Proof.
  intros R Hc Hs. destruct (rp_wf _ _ R) as [pa W]. destruct (get_domains_long _ addr (rp_long _ _ R)) as (a & b & c & d & Eg & Ha & Hb & Hrest).
  unfold map_page_table. rewrite Eg. simpl.
  assert (Hu : forall x, 0 <= x < 512 -> (x =? unset) = false) by (intros x ?; apply Z.eqb_neq; unfold unset; lia).
  rewrite (Hu a), (Hu b) by done. simpl.
  assert (Hfin : forall t time p1 lt i, 0 <= time <= 3 -> extends p lt t p1 -> i < 512 -> lt ++ [i] = ids (mode p) addr ->
    exists latency t' i' p', enter_page mt (Some t, time, p1) i page = Ret (latency, t', i', p') /\ (0 <= mt -> 0 <= latency <= 4 * mt) /\
    represents p' (<[vpn (mode p) addr := page]> M) /\ mode p' = mode p /\ tables_kept p p' /\
    exists pa lt, wf p' pa /\ pa !! t' = Some lt /\ lt ++ [i'] = ids (mode p) addr).
  { intros t time p1 lt i Htm X Hi Hl. destruct (ex_wf _ _ _ _ X) as (pa1 & W1 & Ht). pose proof (ex_mode _ _ _ _ X) as M1.
    assert (Hd : S (length lt) = depth (mode p1)). { rewrite M1, <- (length_ids _ addr), <- Hl, length_app. simpl. lia. }
    destruct (enter_page_spec mt p1 pa1 t lt time i page W1 Ht Hd Hi) as (p' & -> & W' & M' & Hpg & Hmap).
    do 4 eexists. split; [done|]. split; [intros; nia|]. split_and!; [|congruence|eapply tables_kept_trans; [by apply X|done]|by exists pa1, lt].
    eapply represents_set; [done|exact W'|congruence|]. intros l Hlen. rewrite Hmap by (by rewrite M1). rewrite Hl.
    case_bool_decide; [done|]. by apply X. }
  pose proof (rp_long _ _ R) as Hlong. destruct (mode p) eqn:M0; try (by discriminate Hlong).
  - destruct Hrest as [Hids [Hcr Hdr]]. rewrite (Hu c), (Hu d) by done. simpl.
    destruct (allocate_pt_spec p pa a b c) as (t & time & p1 & -> & Htm & X); try done; try lia. simpl. eapply Hfin; [exact Htm|exact X|lia|done].
  - destruct Hrest as [Hids Hcr].
    destruct (allocate_pd_spec p pa a b 1 0) as (t & time & p1 & -> & Htm & X & _); try done; try lia; [rewrite M0; simpl; lia|]. simpl.
    eapply Hfin; [|exact X|lia|done]; lia.
  - destruct (allocate_pdp_spec p pa a 2 0) as (t & time & p1 & -> & Htm & X & _); try done; try lia; [rewrite M0; simpl; lia|]. simpl.
    eapply Hfin; [|exact X|lia|done]; lia.
Qed.

(** *** Walks *)

Definition tpage p (t : Z) : Z := match tables p !! t with Some tb => table_page tb | None => 0 end.

(** The addresses of the entries on the way down [l] from the table [t]. *)
Fixpoint entry_addrs (shift : Z) p (t : Z) (l : list Z) : list Z :=
  match l with
  | [] => []
  | i :: l => getPGTAddr shift (tpage p t) i :: match nxt p t i with Some (PTable j) => entry_addrs shift p j l | _ => [] end
  end.

Lemma page_of_ret p pa t : wf p pa -> is_Some (pa !! t) -> page_of p t = Ret (tpage p t).
Proof. intros W Ht. apply (wf_dom _ _ W) in Ht as [tb Htb]. unfold page_of, get_table, tpage. by rewrite Htb. Qed.

Lemma present_lor b x : negb (Z.land b P =? 0) = true -> negb (Z.land (Z.lor b x) P =? 0) = true.
Proof.
  rewrite !negb_true_iff, !Z.eqb_neq. intros Hb Hz. rewrite Z.land_lor_distr_l in Hz. apply Z.lor_eq_0_iff in Hz as [Hz _]. done.
Qed.

(** An entry whose flags change still leads to its page. *)
Lemma refresh_leaf p pa t lt i e g M :
  represents p M -> wf p pa -> pa !! t = Some lt -> S (length lt) = depth (mode p) -> nxt p t i = Some (PPage g) ->
  next_level_ptr e = Some (PPage g) -> is_present e = true ->
  exists p', put_entry p t i e = Ret p' /\ represents p' M /\ mode p' = mode p /\ tables_kept p p'.
Proof.
  intros R W Ht Hd Hn He Hp.
  destruct (set_leaf p pa t lt i e W Ht Hd) as (p' & -> & W' & M1 & M2 & M3 & M4 & Hpg & Hent & Hmap); [unfold leaf_ok; by rewrite He|].
  exists p'. split_and!; [done| |done|by apply (pages_same _ _ pa)]. destruct R as [_ R2 R3]. split; [by exists pa|by rewrite M1|].
  intros addr. rewrite M1, Hmap by apply length_ids. rewrite <- R3. case_bool_decide as Hb; [|done].
  rewrite Hb. unfold leaf_page, translate. rewrite He, (walk_through p pa t lt i []) by done. cbn [walk]. by rewrite Hn.
Qed.

Lemma present_of_leaf p pa t lt i g : wf p pa -> pa !! t = Some lt -> nxt p t i = Some (PPage g) -> is_present (ent p t i) = true.
Proof. intros W Ht Hn. pose proof (wf_entry _ _ W t lt i Ht) as He. rewrite Hn in He. by destruct He. Qed.

Lemma set_lrequester_keeps e r ch :
  is_present e = true -> next_level_ptr (fst (set_lrequester e r ch)) = next_level_ptr e /\ is_present (fst (set_lrequester e r ch)) = true.
Proof. intros Hp. unfold set_lrequester. case_match; [|done]. split; [done|]. by apply present_lor. Qed.

Lemma touch_entry_ok p pa t lt i g M srcId puts sh di addrs :
  represents p M -> wf p pa -> pa !! t = Some lt -> S (length lt) = depth (mode p) -> i < 512 -> nxt p t i = Some (PPage g) ->
  exists w p', touch_entry p t i srcId puts sh di addrs g = Ret (w, p') /\ w_page w = Some g /\ pgt_addrs w = addrs /\
    represents p' M /\ mode p' = mode p /\ tables_kept p p'.
Proof.
  intros R W Ht Hd Hi Hn. unfold touch_entry. rewrite (entry_ret p pa) by (done || by eexists). simpl.
  destruct (set_lrequester_keeps (ent p t i) srcId sh (present_of_leaf _ _ _ _ _ _ W Ht Hn)) as [K1 K2].
  destruct (set_lrequester (ent p t i) srcId sh) as [e sh'] eqn:Es. cbn [fst] in K1, K2.
  assert (Ka : is_present (set_accessed e) = true) by (by apply present_lor).
  assert (Kd : is_present (set_dirty (set_accessed e)) = true) by (by apply present_lor).
  destruct puts; edestruct (refresh_leaf p pa t lt i) as (p' & -> & R' & M' & G'); try done; try (simpl; rewrite K1; exact Hn);
    eexists _, p'; split; [reflexivity|done|reflexivity|done].
Qed.

Lemma not_unset x : 0 <= x < 512 -> (x =? unset) = false.
Proof. intros ?. apply Z.eqb_neq. unfold unset. lia. Qed.

(** What a walk promises, with [path] the indices of the address. *)
Definition walk_ok (shift : Z) p (M : gmap Z Z) (path : list Z) (r : outcome (walk_result * paging A)) : Prop :=
  exists w p', r = Ret (w, p') /\ w_page w = translate p path /\ represents p' M /\ mode p' = mode p /\ tables_kept p p' /\
    (mode p <> LongMode_Middle -> pgt_addrs w = entry_addrs shift p (pml4 p) path).

(** One level of a walk: the case of a fault, and the table below. *)
Ltac walk_level p pa t lt i W Ht E N Hn :=
  let C := fresh "C" in
  destruct (next_table_ret p pa t lt i W Ht ltac:(lia) ltac:(simpl; lia)) as [E C]; rewrite ?E;
  destruct C as [N|(? & N & Hn)]; rewrite N; cbn [mbind outcome_bind];
  [eexists _, p; split_and!; [reflexivity|unfold translate; cbn [walk]; repeat match goal with X : nxt p _ _ = _ |- _ => rewrite X end; reflexivity|done..|
     intros _; cbn [entry_addrs]; repeat match goal with X : nxt p _ _ = _ |- _ => rewrite X end; reflexivity]|].

(** The last level. *)
Ltac walk_leaf p pa t lt i R W Ht :=
  let E := fresh "E" in let N := fresh "N" in let g := fresh "g" in
  destruct (next_page_ret p pa t lt i W Ht ltac:(lia) ltac:(simpl; lia)) as [E [N|(g & N)]]; rewrite E, N; cbn [mbind outcome_bind];
  [eexists _, p; split_and!; [reflexivity|unfold translate; cbn [walk]; repeat match goal with X : nxt p _ _ = _ |- _ => rewrite X end; reflexivity|done..|
     intros ?; cbn [entry_addrs]; repeat match goal with X : nxt p _ _ = _ |- _ => rewrite X end; congruence || reflexivity]
  |edestruct (touch_entry_ok p pa t lt i g) as (w & p' & -> & H1 & H2 & H3 & H4 & H5); [exact R|exact W|exact Ht|simpl; lia|lia|exact N|];
   exists w, p'; split_and!; [reflexivity|rewrite H1; unfold translate; cbn [walk]; repeat match goal with X : nxt p _ _ = _ |- _ => rewrite X end; reflexivity|done..|
     intros ?; rewrite H2; cbn [entry_addrs]; repeat match goal with X : nxt p _ _ = _ |- _ => rewrite X end; congruence || reflexivity]].

Lemma access_ok shift p M addr srcId puts sh di :
  represents p M -> walk_ok shift p M (ids (mode p) addr) (access shift p addr srcId puts sh di).
Proof.
  intros R. destruct (rp_wf _ _ R) as [pa W]. pose proof (rp_long _ _ R) as Hlong.
  destruct (get_domains_long _ addr Hlong) as (a & b & c & d & Eg & Ha & Hb & Hrest).
  unfold access. rewrite Eg. cbn [mbind outcome_bind]. pose proof (wf_root _ _ W) as Hr.
  rewrite (page_of_ret p pa (pml4 p)) by (done || by eexists). cbn [mbind outcome_bind].
  destruct (mode p) eqn:Hm; try (by discriminate Hlong); [destruct Hrest as (-> & Hc & Hdd)|destruct Hrest as [-> Hc]|rewrite Hrest].
  - assert (Hd : depth (mode p) = 4%nat) by (by rewrite Hm).
    walk_level p pa (pml4 p) (@nil Z) a W Hr E1 N1 Hj. rewrite (page_of_ret p pa) by (done || by eexists). cbn [mbind outcome_bind].
    walk_level p pa x [a] b W Hj E2 N2 Hk. rewrite (not_unset c), (not_unset d), (page_of_ret p pa) by (done || by eexists). simpl.
    walk_level p pa x0 [a; b] c W Hk E3 N3 Ht. rewrite (page_of_ret p pa) by (done || by eexists). cbn [mbind outcome_bind].
    walk_leaf p pa x1 [a; b; c] d R W Ht.
  - assert (Hd : depth (mode p) = 3%nat) by (by rewrite Hm).
    walk_level p pa (pml4 p) (@nil Z) a W Hr E1 N1 Hj. rewrite (page_of_ret p pa) by (done || by eexists). cbn [mbind outcome_bind].
    walk_level p pa x [a] b W Hj E2 N2 Hk. rewrite (not_unset c) by done. simpl.
    walk_leaf p pa x0 [a; b] c R W Hk.
  - assert (Hd : depth (mode p) = 2%nat) by (by rewrite Hm).
    walk_level p pa (pml4 p) (@nil Z) a W Hr E1 N1 Hj. rewrite (page_of_ret p pa) by (done || by eexists). cbn [mbind outcome_bind].
    walk_leaf p pa x [a] b R W Hj.
Qed.

(** *** Mapping with the flags of the request *)

Lemma note_request_ok p pa t lt i M addr page req_id is_write :
  represents p M -> wf p pa -> pa !! t = Some lt -> lt ++ [i] = ids (mode p) addr -> M !! vpn (mode p) addr = Some page ->
  exists p', note_request p t i req_id is_write = Ret p' /\ represents p' M /\ mode p' = mode p /\ tables_kept p p'.
Proof.
  intros R W Ht Hl HM. assert (Hi : i < 512).
  { pose proof (ids_range (mode p) addr) as Hr. rewrite <- Hl in Hr. apply Forall_app in Hr as [_ Hr]. inversion Hr. lia. }
  assert (Hd : S (length lt) = depth (mode p)). { rewrite <- (length_ids _ addr), <- Hl, length_app. simpl. lia. }
  assert (Hn : nxt p t i = Some (PPage page)).
  { pose proof (rp_map _ _ R addr) as Hm. rewrite HM, <- Hl in Hm. unfold translate in Hm.
    rewrite (walk_through p pa t lt i []) in Hm by done. cbn [walk] in Hm. destruct (nxt p t i) as [[g|j]|]; try done. congruence. }
  unfold note_request. rewrite (entry_ret p pa) by (done || by eexists). simpl.
  destruct (set_lrequester_keeps (ent p t i) req_id false (present_of_leaf _ _ _ _ _ _ W Ht Hn)) as [K1 K2].
  set (e := set_accessed _). assert (Ka : is_present e = true) by (by apply present_lor).
  assert (Kd : is_present (set_dirty e) = true) by (by apply present_lor).
  assert (Kn : next_level_ptr e = Some (PPage page)) by (subst e; simpl; rewrite K1; exact Hn).
  destruct (refresh_leaf p pa t lt i (if is_write then set_dirty e else e) page _ R W Ht Hd Hn) as (p' & -> & R' & M' & G');
    [by destruct is_write|by destruct is_write|by exists p'].
Qed.

Lemma map_page_for_ok mt p M req_id addr page is_write :
  represents p M -> cur_pdp_num p < 512 -> supply 3 (source p) ->
  exists latency p', map_page_for mt p req_id addr page is_write = Ret (latency, p') /\
    represents p' (<[vpn (mode p) addr := page]> M) /\ mode p' = mode p /\ tables_kept p p'.
Proof.
  intros R Hc Hs. destruct (map_page_table_ok mt p M addr page R Hc Hs) as (latency & t & i & p1 & E & _ & R1 & M1 & G1 & pa & lt & W & Ht & Hl).
  unfold map_page_for. rewrite E. simpl. rewrite <- M1 in Hl.
  destruct (note_request_ok p1 pa t lt i _ addr page req_id is_write R1 W Ht Hl) as (p' & -> & R' & M' & G'); [rewrite M1; by rewrite lookup_insert_eq|].
  exists latency, p'. split_and!; [done|done|congruence|by eapply tables_kept_trans].
Qed.

(** *** Unmapping *)

Lemma tables_loop p pa l s ls :
  wf p pa -> pa !! s = Some ls -> Forall (fun i => 0 <= i < 512) l -> (length ls + length l < depth (mode p))%nat ->
  get_tables_loop p (Some s) l = Ret (match walk p s l with Some (PTable t) => Some t | _ => None end) /\
  (forall t, walk p s l = Some (PTable t) -> pa !! t = Some (ls ++ l)).
Proof.
  intros W. revert s ls. induction l as [|i l IH]; intros s ls Hs Hf Hd.
  - split; [done|]. intros t [= ->]. by rewrite app_nil_r.
  - inversion Hf as [|? ? Hi Hf']; subst. simpl in Hd. cbn [get_tables_loop walk].
    destruct (next_table_ret p pa s ls i W Hs ltac:(lia) ltac:(lia)) as [-> [N|(j & N & Hj)]]; rewrite N; [done|]. cbn [mbind outcome_bind].
    destruct (IH j (ls ++ [i]) Hj Hf' ltac:(rewrite length_app; simpl; lia)) as [-> Hw]. split; [done|].
    intros t Ht. rewrite (Hw t Ht), <- app_assoc. done.
Qed.

Lemma unmap_eq p M addr :
  represents p M ->
  exists a lt i, ids (mode p) addr = (a :: lt) ++ [i] /\
    unmap_page_table p addr =
      (t ← get_tables p (a :: lt);
       match t with
       | None => Ret (false, p)
       | Some t => p ← invalidate_page p t i; Ret (false, p)
       end).
Proof.
  intros R. pose proof (rp_long _ _ R) as Hlong. destruct (get_domains_long _ addr Hlong) as (a & b & c & d & Eg & _ & _ & Hrest).
  unfold unmap_page_table. rewrite Eg. cbn [mbind outcome_bind].
  destruct (mode p); try (by discriminate Hlong); destruct_and?.
  - by exists a, [b; c], d.
  - by exists a, [b], c.
  - by exists a, [], b.
Qed.

(** The table of the last level, after the root's entry. *)
Lemma get_tables_ret p pa M addr a lt i j :
  represents p M -> wf p pa -> ids (mode p) addr = (a :: lt) ++ [i] -> nxt p (pml4 p) a = Some (PTable j) ->
  get_tables p (a :: lt) = Ret (match walk p j lt with Some (PTable t) => Some t | _ => None end) /\
  (forall t, walk p j lt = Some (PTable t) -> pa !! t = Some (a :: lt)) /\ i < 512 /\ S (length (a :: lt)) = depth (mode p).
Proof.
  intros R W Hids N. pose proof (length_ids (mode p) addr) as Hlen. rewrite Hids, length_app in Hlen. simpl in Hlen.
  pose proof (ids_range (mode p) addr) as Hr. rewrite Hids in Hr. apply Forall_app in Hr as [Hr Hi]. inversion Hr as [|? ? Ha Hlt]; subst.
  inversion Hi; subst. pose proof (wf_entry _ _ W _ _ a (wf_root _ _ W)) as Hj. rewrite N in Hj. destruct Hj as [_ Hj]. simpl in Hj.
  destruct (tables_loop p pa lt j [a] W Hj Hlt ltac:(simpl; lia)) as [Hl Hw]. unfold get_tables.
  unfold next_table. rewrite (entry_ret p pa) by (lia || done || (rewrite (wf_root _ _ W); by eexists)). simpl.
  unfold nxt in N. rewrite N. simpl. rewrite Hl. split_and!; [done|done|lia|simpl; lia].
Qed.

Lemma walk_last p s l i g : walk p s (l ++ [i]) = Some (PPage g) -> exists t, walk p s l = Some (PTable t) /\ nxt p t i = Some (PPage g).
Proof.
  revert s. induction l as [|k l IH]; intros s Hw; cbn [walk app] in *.
  - exists s. split; [done|]. by destruct (nxt p s i) as [[?|?]|].
  - destruct (nxt p s k) as [[?|j]|]; [by destruct l|by apply IH|done].
Qed.

Lemma wf_source p pa a : wf p pa -> wf (set_source p a) pa.
Proof. intros [W1 W2 W3 W4 W5 W6 W7]. exact (Build_wf (set_source p a) pa W1 W2 W3 W4 W5 W6 W7). Qed.

(** An address that is mapped: its page is given back and nothing else changes. *)
Lemma unmap_mapped p M addr g a' :
  represents p M -> M !! vpn (mode p) addr = Some g -> give_page (source p) g = Ret a' ->
  exists p', unmap_page_table p addr = Ret (false, p') /\ represents p' (delete (vpn (mode p) addr) M) /\ mode p' = mode p /\
    source p' = a' /\ (forall t, table_page <$> tables p' !! t = table_page <$> tables p !! t).
Proof.
  intros R Hg Eg. destruct (rp_wf _ _ R) as [pa W]. destruct (unmap_eq p M addr R) as (a & lt & i & Hids & ->).
  pose proof (rp_map _ _ R addr) as Hm. rewrite Hg, Hids in Hm. unfold translate in Hm. cbn [walk app] in Hm.
  destruct (nxt p (pml4 p) a) as [[?|j]|] eqn:N; [by destruct lt| |done].
  destruct (get_tables_ret p pa M addr a lt i j R W Hids N) as (-> & Hpath & Hi & Hd).
  destruct (walk p j (lt ++ [i])) as [[g'|?]|] eqn:Hw; try done. injection Hm as ->.
  destruct (walk_last p j lt i g Hw) as (t & Hwt & Hn). rewrite Hwt. cbn [mbind outcome_bind]. pose proof (Hpath t Hwt) as Ht.
  unfold invalidate_page. rewrite (entry_ret p pa) by (done || by eexists). cbn [mbind outcome_bind].
  rewrite (present_of_leaf _ _ _ _ _ _ W Ht Hn). unfold nxt in Hn. rewrite Hn. simpl. rewrite Eg. simpl.
  destruct (set_leaf (set_source p a') pa t (a :: lt) i invalidated_entry (wf_source _ _ _ W) Ht Hd)
    as (p' & -> & W' & M1 & M2 & M3 & M4 & Hpg & Hent & Hmap); [done|]. simpl.
  exists p'. split_and!; try done. apply (represents_set p p' pa M addr None R W' M1). intros l Hl. rewrite (Hmap l Hl), Hids.
  case_bool_decide; [done|]. unfold translate. by rewrite (walk_ext p).
Qed.

(** An address that is not mapped: nothing changes, unless the entry of the root
    is absent and there is a second level to look at. *)
Lemma unmap_unmapped p M addr :
  represents p M -> M !! vpn (mode p) addr = None ->
  unmap_page_table p addr =
    if bool_decide (nxt p (pml4 p) (hd 0 (ids (mode p) addr)) = None /\ mode p <> LongMode_Huge) then Stop NullDeref else Ret (false, p).
Proof.
  intros R Hg. destruct (rp_wf _ _ R) as [pa W]. destruct (unmap_eq p M addr R) as (a & lt & i & Hids & ->).
  pose proof (rp_map _ _ R addr) as Hm. rewrite Hg, Hids in Hm. rewrite Hids. cbn [hd app]. unfold translate in Hm. cbn [walk app] in Hm.
  assert (Hd : S (S (length lt)) = depth (mode p)) by (rewrite <- (length_ids _ addr), Hids, length_app; simpl; lia).
  destruct (nxt p (pml4 p) a) as [[?|j]|] eqn:N.
  - pose proof (wf_entry _ _ W _ _ a (wf_root _ _ W)) as He. rewrite N in He. simpl in He. lia.
  - rewrite bool_decide_false by naive_solver.
    destruct (get_tables_ret p pa M addr a lt i j R W Hids N) as (-> & Hpath & Hi & _). cbn [mbind outcome_bind].
    destruct (walk p j lt) as [[?|t]|] eqn:Hw; [done| |done]. pose proof (Hpath t eq_refl) as Ht.
    rewrite (walk_app _ _ _ _ [i] Hw) in Hm. cbn [walk] in Hm. unfold invalidate_page.
    rewrite (entry_ret p pa) by (done || by eexists). cbn [mbind outcome_bind]. rewrite (present_next p pa t (a :: lt) i W Ht).
    pose proof (wf_entry _ _ W t (a :: lt) i Ht) as He. destruct (nxt p t i) as [[?|k]|]; [done| |done].
    destruct He as [_ He]. apply (wf_depth _ _ W) in He. rewrite length_app in He. simpl in He. lia.
  - unfold get_tables, next_table. pose proof (ids_range (mode p) addr) as Hr. rewrite Hids in Hr. inversion Hr; subst.
    rewrite (entry_ret p pa) by (lia || done || (rewrite (wf_root _ _ W); by eexists)). simpl. unfold nxt in N. rewrite N. simpl.
    destruct lt as [|k lt]; simpl.
    + rewrite bool_decide_false; [done|]. intros [_ Hh]. destruct (mode p); done || (simpl in Hd; lia).
    + rewrite bool_decide_true; [done|]. split; [done|]. intros Hh. rewrite Hh in Hd. simpl in Hd. lia.
Qed.

(** *** Construction *)

Lemma newPaging_ok m a g a' L :
  long_mode m = true -> take_page a = Ret (Some g, a') -> taken a L ->
  exists p, newPaging m a = Ret p /\ represents p ∅ /\ mode p = m /\ source p = a' /\ cur_pdp_num p = 0 /\ pages_ok p.
Proof.
  intros Hm E HL. unfold newPaging. rewrite E. simpl. eexists. split; [done|]. set (p := mkPaging _ _ _ _ _ _ _ _).
  assert (Hent : forall t i, ent p t i = newEntry).
  { intros t i. unfold ent, p. simpl. destruct (decide (t = 0)) as [->|Hne]; [by rewrite lookup_singleton_eq|]. rewrite lookup_singleton_ne by done. done. }
  split_and!; try done.
  - split; [|done|].
    + exists {[0 := []]}. split.
      * done.
      * intros t. unfold p. simpl. destruct (decide (t = 0)) as [->|Hne]; [rewrite !lookup_singleton_eq; split; eauto|]. by rewrite !lookup_singleton_ne by done.
      * intros t [l Hl]. apply lookup_singleton_Some in Hl as [<- _]. simpl. lia.
      * intros x y l Hx Hy. apply lookup_singleton_Some in Hx as [<- _], Hy as [<- _]. done.
      * intros t l Hl. apply lookup_singleton_Some in Hl as [<- <-]. simpl. destruct m; simpl; done || lia.
      * intros t l i _. unfold nxt. rewrite Hent. done.
      * intros j l i Hj. apply lookup_singleton_Some in Hj as [_ Hj]. by destruct l.
    + intros addr. rewrite lookup_empty. unfold translate. destruct (ids _ _); [done|]. cbn [walk]. unfold nxt. by rewrite Hent.
  - destruct (take_fresh _ _ _ _ HL E) as [Hg HL']. exists (g :: L). split_and!; [done|done| | |done].
    + intros t tb Ht. unfold p in Ht. simpl in Ht. apply lookup_singleton_Some in Ht as [_ <-]. split; [constructor|auto].
    + intros t t' tb tb' Ht Ht' _. unfold p in Ht, Ht'. simpl in Ht, Ht'. apply lookup_singleton_Some in Ht as [<- _], Ht' as [<- _]. done.
Qed.
End Theory.

(** ** The buddy allocator as a source of pages *)

Definition buddy_taken (b : BuddyAllocator) (L : list Z) : Prop :=
  exists bs npn Rs rest, bounds_ok bs npn /\ buddy_ok bs npn b Rs /\ L ++ rest ≡ₚ concat Rs.

Lemma block_pages_0 p : block_pages 0 p = [p].
Proof. unfold block_pages, seqZ. simpl. f_equal. Qed.

#[global] Instance buddy_source : PageSource BuddyAllocator.
Proof.
  refine {| take_page b := allocate_pages b 0 0; give_page := free_page; taken := buddy_taken;
            page_limit b := node_page_num (node_pages (mem_node b)) |}.
  - intros b L p (bs & npn & Rs & rest & B & [Hb _] & HP) Hp. destruct (node_pages_distinct _ _ _ _ _ B Hb) as [_ Hx].
    rewrite (ni_num _ _ _ _ _ Hb). apply Hx. rewrite <- HP. apply elem_of_app. by left.
  - intros b L r b' (bs & npn & Rs & rest & B & Hb & HP) E. pose proof (ni_num _ _ _ _ _ (proj1 Hb)) as Hn.
    destruct (allocate_pages_ok bs npn B b Rs 0 0 Hb) as [(b1 & E1 & Hb1)|(p1 & b1 & Rs1 & E1 & Hb1 & _)];
      assert (b1 = b') as -> by congruence; rewrite Hn; apply (ni_num _ _ _ _ _ (proj1 Hb1)).
  - intros b L p b' (bs & npn & Rs & rest & B & Hb & HP) E.
    destruct (allocate_pages_ok bs npn B b Rs 0 0 Hb) as [(b1 & E1 & _)|(p1 & b1 & Rs1 & E1 & Hb1 & HP1)]; [congruence|].
    assert (p1 = p /\ b1 = b') as [-> ->] by (split; congruence). rewrite block_pages_0 in HP1.
    destruct (node_pages_distinct _ _ _ _ _ B (proj1 Hb1)) as [Hn _]. rewrite HP1, <- HP in Hn. simpl in Hn.
    apply NoDup_cons in Hn as [Hn _]. split; [intros Hin; apply Hn; apply elem_of_app; by left|].
    exists bs, npn, Rs1, rest. split_and!; [done|done|]. rewrite HP1, <- HP. done.
  - intros b L b' (bs & npn & Rs & rest & B & Hb & HP) E.
    destruct (allocate_pages_ok bs npn B b Rs 0 0 Hb) as [(b1 & E1 & Hb1)|(p1 & b1 & Rs1 & E1 & _)]; [|congruence].
    assert (b1 = b') as -> by congruence. by exists bs, npn, Rs, rest.
  - intros b L p b' (bs & npn & Rs & rest & B & Hb & HP) E.
    exists bs, npn, Rs, (filter (fun q => ~ q <> p) L ++ rest). split_and!; [done|by eapply free_page_ok|].
    by rewrite app_assoc, filter_app_complement.
Defined.

(** ** Properties *)

(** One operation of a process on its page table, with the finite map it has
    built so far.  Mapping is tried only while three pages are left and the
    counter of first-level tables is below its bound. *)
Inductive paging_step (mt shift : Z) : paging BuddyAllocator * gmap Z Z -> paging BuddyAllocator * gmap Z Z -> Prop :=
  | step_map p M req_id addr page is_write latency p' :
      cur_pdp_num p < 512 -> supply 3 (source p) ->
      map_page_for mt p req_id addr page is_write = Ret (latency, p') ->
      paging_step mt shift (p, M) (p', <[vpn (mode p) addr := page]> M)
  | step_walk p M addr srcId is_puts shared dirty w p' :
      access shift p addr srcId is_puts shared dirty = Ret (w, p') -> paging_step mt shift (p, M) (p', M).

Definition paging_inv (s : paging BuddyAllocator * gmap Z Z) : Prop := represents (fst s) (snd s) /\ pages_ok (fst s).

Lemma paging_step_inv mt shift s s' : paging_inv s -> paging_step mt shift s s' -> paging_inv s'.
Proof.
  intros [R G] Hs. destruct Hs as [p M r addr page w latency p' Hc Hsp E|p M addr srcId puts sh di w p' E]; cbn [fst snd] in *.
  - destruct (map_page_for_ok mt p M r addr page w R Hc Hsp) as (l & q & E' & R' & _ & G'). rewrite E in E'. injection E' as <- <-.
    split; [done|]. by eapply tables_kept_ok.
  - destruct (access_ok shift p M addr srcId puts sh di R) as (w' & q & E' & _ & R' & _ & G' & _). rewrite E in E'. injection E' as <- <-.
    split; [done|]. by eapply tables_kept_ok.
Qed.

Lemma buddy_taken_start mc m size b :
  config_ok mc -> newMemoryNode mc 0 = Ret m -> newBuddy size (page_shift mc) m = Ret b -> taken b [].
Proof.
  intros Hc Hm Hb. destruct (history_start mc m size b Hc Hm Hb) as (bs & B & Rs & rest & H1 & H2).
  by exists bs, (node_page_num (node_pages m)), Rs, rest.
Qed.

(** C4: The page tables of a process, built on the node's buddy allocator and
    then changed by any sequence of mappings and walks, are the finite map of
    those mappings: the walk of any address succeeds and finds the page last
    mapped at its page number, or none, and walking changes no translation.
    Every table has a physical page of its own. *)
Theorem page_tables_history mt shift mc m size b md p p' M addr srcId is_puts shared dirty :
  config_ok mc -> newMemoryNode mc 0 = Ret m -> newBuddy size (page_shift mc) m = Ret b ->
  long_mode md = true -> newPaging md b = Ret p -> rtc (paging_step mt shift) (p, ∅) (p', M) ->
  (exists w p'', access shift p' addr srcId is_puts shared dirty = Ret (w, p'') /\ w_page w = M !! vpn (mode p') addr) /\
  (forall t t' tb tb', tables p' !! t = Some tb -> tables p' !! t' = Some tb' -> table_page tb = table_page tb' -> t = t').
Proof.
  intros Hc Hm Hb Hl Hp Hr. pose proof (buddy_taken_start _ _ _ _ Hc Hm Hb) as HL.
  assert (I0 : paging_inv (p, ∅)).
  { unfold newPaging in Hp. apply bind_ret_inv in Hp as ([[g|] a'] & E & Hp); [|done].
    destruct (newPaging_ok md b g a' [] Hl E HL) as (q & Eq & R & _ & _ & _ & G). unfold newPaging in Eq. rewrite E in Eq.
    cbn [mbind outcome_bind] in Eq. injection Hp as <-. injection Eq as <-. by split. }
  assert (I : paging_inv (p', M)) by (eapply (rtc_invariant _ paging_inv); [intros s s'; apply paging_step_inv|exact Hr|exact I0]).
  destruct I as [R (L & _ & _ & _ & Hinj & _)]. simpl in R. split; [|exact Hinj].
  destruct (access_ok shift p' M addr srcId is_puts shared dirty R) as (w & p'' & E & Hw & _). exists w, p''. split; [done|].
  rewrite Hw. by apply R.
Qed.

Definition demo_paging (md : PagingStyle) : paging BuddyAllocator :=
  match newPaging md demo_buddy with Ret p => p | Stop _ => mkPaging md 0 ∅ 0 demo_buddy 0 0 0 end.
Definition demo_mapped (md : PagingStyle) (addr page : Z) : paging BuddyAllocator :=
  match map_page_for 10 (demo_paging md) 3 addr page true with Ret (_, p) => p | Stop _ => demo_paging md end.

Lemma page_tables_history_witness :
  supply 3 (source (demo_paging LongMode_Normal)) /\
  exists w p'', access 12 (demo_mapped LongMode_Normal 0x7f1234567890 17) 0x7f1234567abc 4 false false false = Ret (w, p'') /\
    w_page w = Some 17.
Proof.
  assert (Hs : supply 3 (source (demo_paging LongMode_Normal))) by (repeat (eexists _, _; split; [vm_compute; reflexivity|]); exact I).
  split; [exact Hs|].
  destruct (page_tables_history 10 12 demo_mem_config demo_node (37 * 4096) demo_buddy LongMode_Normal (demo_paging LongMode_Normal)
    (demo_mapped LongMode_Normal 0x7f1234567890 17) {[vpn LongMode_Normal 0x7f1234567890 := 17]} 0x7f1234567abc 4 false false false)
    as [(w & p'' & E & Hw) _].
  - split; [done|]. repeat constructor; vm_compute; done.
  - vm_compute; reflexivity.
  - reflexivity.
  - reflexivity.
  - vm_compute; reflexivity.
  - apply rtc_once, (step_map 10 12 (demo_paging LongMode_Normal) ∅ 3 0x7f1234567890 17 true 40); [vm_compute; done|exact Hs|vm_compute; reflexivity].
  - exists w, p''. split; [exact E|]. rewrite Hw. vm_compute. reflexivity.
Defined.

Section Operations.
Context {A : Type} `{PageSource A}.
Implicit Types p : paging A.

(** Mapping a page succeeds while three pages can be had and the counter of
    first-level tables is below its bound, whatever levels are missing, and
    changes the translation of that one virtual page and of no other.  A walk
    after that finds the page and sends the addresses of the entries on its
    way, 4 KB and 1 GB pages. *)
Theorem map_page_refines mt shift p M req_id addr page is_write srcId :
  represents p M -> cur_pdp_num p < 512 -> supply 3 (source p) ->
  exists latency p', map_page_for mt p req_id addr page is_write = Ret (latency, p') /\
    represents p' (<[vpn (mode p) addr := page]> M) /\ (pages_ok p -> pages_ok p') /\
    exists w p'', access shift p' addr srcId false false false = Ret (w, p'') /\ w_page w = Some page /\
      (mode p <> LongMode_Middle -> pgt_addrs w = entry_addrs shift p' (pml4 p') (ids (mode p) addr)).
Proof.
  intros R Hc Hs. destruct (map_page_for_ok mt p M req_id addr page is_write R Hc Hs) as (latency & p' & E & R' & M' & G).
  exists latency, p'. split_and!; [done|done|by apply tables_kept_ok|].
  destruct (access_ok shift p' _ addr srcId false false false R') as (w & p'' & E' & Hw & _ & _ & _ & Ha). exists w, p''.
  split_and!; [done| |by rewrite <- M'].
  rewrite Hw, (rp_map _ _ R'), M'. by rewrite lookup_insert_eq.
Qed.

(** Unmapping returns false on every path.  A mapped address loses its
    translation, which goes back to the allocator, and no other address does; for an
    address that is not mapped nothing changes, except that a missing
    first-level entry is dereferenced when pages are not 1 GB. *)
Theorem unmap_page_refines p M addr :
  represents p M ->
  match M !! vpn (mode p) addr with
  | Some g => forall a, give_page (source p) g = Ret a ->
      exists p', unmap_page_table p addr = Ret (false, p') /\ represents p' (delete (vpn (mode p) addr) M) /\ source p' = a
  | None => unmap_page_table p addr =
      if bool_decide (nxt p (pml4 p) (hd 0 (ids (mode p) addr)) = None /\ mode p <> LongMode_Huge) then Stop NullDeref else Ret (false, p)
  end.
Proof.
  intros R. destruct (M !! vpn (mode p) addr) as [g|] eqn:E; [|by apply unmap_unmapped with M].
  intros a Ha. destruct (unmap_mapped p M addr g a R E Ha) as (p' & E' & R' & _ & S' & _). by exists p'.
Qed.

(** A walk that finds a 2 MB page sends as its third address the entry number
    of the page directory in the page of the table above it, and these two
    tables are never on one page. *)
Theorem middle_walk_address shift p M addr srcId g :
  represents p M -> pages_ok p -> mode p = LongMode_Middle -> M !! vpn (mode p) addr = Some g ->
  exists w p' a b c pdp pd, access shift p addr srcId false false false = Ret (w, p') /\ ids (mode p) addr = [a; b; c] /\
    nxt p (pml4 p) a = Some (PTable pdp) /\ nxt p pdp b = Some (PTable pd) /\
    pgt_addrs w = [getPGTAddr shift (tpage p (pml4 p)) a; getPGTAddr shift (tpage p pdp) b; getPGTAddr shift (tpage p pdp) c] /\
    tpage p pd <> tpage p pdp.
Proof.
  intros R (L & _ & _ & _ & Hinj & _) Hm Hg. destruct (rp_wf _ _ R) as [pa W]. pose proof (rp_long _ _ R) as Hlong.
  destruct (get_domains_long _ addr Hlong) as (a & b & c & d & Eg & Ha & Hb & Hrest).
  pose proof (rp_map _ _ R addr) as Ht. rewrite Hg in Ht. unfold access. rewrite Eg. cbn [mbind outcome_bind].
  rewrite Hm in Ht, Hrest |- *. destruct Hrest as [Hids Hc]. rewrite Hids in Ht |- *. unfold translate in Ht. cbn [walk] in Ht.
  assert (Hd : depth (mode p) = 3%nat) by (by rewrite Hm). pose proof (wf_root _ _ W) as Hr.
  rewrite (page_of_ret p pa (pml4 p)) by (done || by eexists). cbn [mbind outcome_bind].
  destruct (next_table_ret p pa (pml4 p) [] a W Hr ltac:(lia) ltac:(simpl; lia)) as [E1 [N1|(pdp & N1 & Hpdp)]]; rewrite N1 in Ht; [done|].
  rewrite E1, N1. cbn [mbind outcome_bind]. rewrite (page_of_ret p pa pdp) by (done || by eexists). cbn [mbind outcome_bind].
  destruct (next_table_ret p pa pdp [a] b W Hpdp ltac:(lia) ltac:(simpl; lia)) as [E2 [N2|(pd & N2 & Hpd)]]; rewrite N2 in Ht; [done|].
  rewrite E2, N2, (not_unset c) by done. simpl.
  destruct (next_page_ret p pa pd [a; b] c W Hpd ltac:(lia) ltac:(simpl; lia)) as [E3 [N3|(g' & N3)]]; rewrite N3 in Ht; [done|].
  rewrite E3, N3. simpl.
  edestruct (touch_entry_ok p pa pd [a; b] c g') as (w & p' & -> & _ & H2 & _); [exact R|exact W|exact Hpd|simpl; lia|lia|exact N3|].
  exists w, p', a, b, c, pdp, pd. split_and!; try done. unfold tpage.
  destruct (proj2 (wf_dom _ _ W pd) ltac:(by eexists)) as [x Hx], (proj2 (wf_dom _ _ W pdp) ltac:(by eexists)) as [y Hy].
  rewrite Hx, Hy. intros Heq. assert (pd = pdp) as -> by (by eapply Hinj). rewrite Hpdp in Hpd. discriminate.
Qed.
End Operations.

Lemma demo_represents md : long_mode md = true -> represents (demo_paging md) ∅ /\ pages_ok (demo_paging md).
Proof.
  intros Hl. assert (HL : taken demo_buddy []).
  { eapply (buddy_taken_start demo_mem_config demo_node (37 * 4096)); [split; [done|repeat constructor; vm_compute; done]|vm_compute; reflexivity|reflexivity]. }
  assert (E0 : take_page demo_buddy = Ret (Some 32, demo_after demo_buddy 0)) by (vm_compute; reflexivity).
  destruct (newPaging_ok md demo_buddy 32 (demo_after demo_buddy 0) [] Hl E0 HL) as (p & E & R & _ & _ & _ & G).
  unfold demo_paging. rewrite E. exact (conj R G).
Qed.

Lemma demo_supply md : long_mode md = true -> supply 3 (source (demo_paging md)).
Proof. intros Hl. destruct md; try done; repeat (eexists _, _; split; [vm_compute; reflexivity|]); exact I. Qed.

Lemma demo_mapped_represents md addr page :
  long_mode md = true -> is_ret (map_page_for 10 (demo_paging md) 3 addr page true) = true /\
  represents (demo_mapped md addr page) {[vpn md addr := page]} /\ pages_ok (demo_mapped md addr page).
Proof.
  intros Hl. destruct (demo_represents md Hl) as [R G].
  assert (Hm : mode (demo_paging md) = md /\ cur_pdp_num (demo_paging md) = 0) by (destruct md; try done; split; vm_compute; reflexivity).
  destruct (map_page_for_ok 10 (demo_paging md) ∅ 3 addr page true R) as (l & p' & E & R' & M' & G'); [lia|by apply demo_supply|].
  unfold demo_mapped. rewrite E. destruct Hm as [Hm _]. rewrite Hm in R'. split_and!; [done|done|by eapply tables_kept_ok].
Qed.

Lemma map_page_refines_witness :
  exists latency p', map_page_for 10 (demo_paging LongMode_Huge) 3 0x1234567890 5 true = Ret (latency, p') /\
    exists w p'', access 12 p' 0x1234567890 7 false false false = Ret (w, p'') /\ w_page w = Some 5.
Proof.
  destruct (map_page_refines 10 12 (demo_paging LongMode_Huge) ∅ 3 0x1234567890 5 true 7) as (l & p' & E & _ & _ & w & p'' & E' & Hw & _).
  - by apply demo_represents.
  - vm_compute; reflexivity.
  - by apply demo_supply.
  - exists l, p'. split; [exact E|]. exists w, p''. exact (conj E' Hw).
Defined.

Lemma unmap_page_refines_witness :
  unmap_page_table (demo_paging LongMode_Normal) 0x1000 = Stop NullDeref.
Proof.
  pose proof (unmap_page_refines (demo_paging LongMode_Normal) ∅ 0x1000) as Hu. rewrite lookup_empty in Hu.
  rewrite Hu by (by apply demo_represents). vm_compute. reflexivity.
Defined.

Lemma middle_walk_address_witness :
  exists w p', access 12 (demo_mapped LongMode_Middle 0x40a01000 17) 0x40a01000 3 false false false = Ret (w, p') /\
    pgt_addrs w <> entry_addrs 12 (demo_mapped LongMode_Middle 0x40a01000 17) 0 (ids LongMode_Middle 0x40a01000).
Proof.
  destruct (demo_mapped_represents LongMode_Middle 0x40a01000 17 eq_refl) as (_ & R & G).
  destruct (middle_walk_address 12 (demo_mapped LongMode_Middle 0x40a01000 17) _ 0x40a01000 3 17 R G) as (w & p' & a & b & c & pdp & pd & E & Hi & N1 & N2 & Hw & _).
  - vm_compute; reflexivity.
  - vm_compute; reflexivity.
  - exists w, p'. split; [exact E|]. rewrite Hw. vm_compute in Hi. injection Hi as <- <- <-. vm_compute in N1. injection N1 as <-.
    vm_compute. congruence.
Defined.

(** The four offset functions agree with [get_domains] in every mode but one:
    in PAE mode with 4 KB pages, [get_pagetable_off] is 0 for every address. *)
Theorem offsets_agree addr m :
  (m <> PAE_Normal -> exists a b c d, get_domains addr m = Ret (a, b, c, d) /\ get_pml4_off addr m = Ret a /\
     get_page_directory_pointer_off addr m = Ret b /\ get_page_directory_off addr m = Ret c /\ get_pagetable_off addr m = Ret d) /\
  get_pagetable_off addr PAE_Normal = Ret 0.
Proof.
  split.
  - intros Hm. destruct m; try done; unfold get_domains, get_pml4_off, get_page_directory_pointer_off, get_page_directory_off, get_pagetable_off;
      rewrite ?get_bit_value_spec by lia; cbn [mbind outcome_bind]; eexists _, _, _, _; done.
  - unfold get_pagetable_off, get_bit_value. simpl. by rewrite Z.land_0_r.
Qed.

Lemma offsets_agree_witness : (exists d, get_pagetable_off 0x3fe000 LongMode_Normal = Ret d /\ d = 510) /\ get_pagetable_off 0x3fe000 PAE_Normal = Ret 0.
Proof.
  destruct (offsets_agree 0x3fe000 LongMode_Normal) as [H1 H2]. split; [|exact H2].
  destruct H1 as (a & b & c & d & _ & _ & _ & _ & E); [done|]. exists d. split; [exact E|]. vm_compute in E. by injection E.
Defined.
