(* ===== verification/Tlb.v ===== *)
(** * Translation lookaside buffers

    [TlbEntry] (src/src/tlb/tlb_entry.h) and [CommonTlb] (common_tlb.h).  The
    entries are objects of an array; the free list and the two hash maps, by
    virtual and by physical page, hold positions of that array.  [access] calls a
    page-table walker that can reach back into this and other buffers: it is
    written against a [tlb_slot], the place of the buffer in a larger state, and
    a walker on that state; Walker.v supplies both.  The theory shows that a
    buffer is a list of translations in order of use with the least recently
    used one dropped when it is full. *)

From stdpp Require Import sorting.
From S2P Require Import Prelude Bits.

(** ** Entries *)

Definition GLOBAL : Z := 0x01.
Definition UNCACHEABLE : Z := 0x02.
Definition PAT : Z := 0x04.
Definition VALID : Z := 0x10.
Definition SHARED : Z := 0x20.
Definition DIRTY : Z := 0x40.

(** [flag] is a [uint16_t], so that [flag &= ~x] clears a bit within 16 bits. *)
Record TlbEntry : Type := mkTlbEntry { v_page_no : Z; p_page_no : Z; flag : Z; lru_seq : Z }.

Definition newTlbEntry (vpn ppn : Z) : TlbEntry := mkTlbEntry vpn ppn 0 0.

Definition set_flag (e : TlbEntry) (f : Z) : TlbEntry := mkTlbEntry (v_page_no e) (p_page_no e) f (lru_seq e).
Definition set_lru (e : TlbEntry) (s : Z) : TlbEntry := mkTlbEntry (v_page_no e) (p_page_no e) (flag e) s.

(** [operator=] keeps the sequence number of the target. *)
Definition assign_entry (e target_tlb : TlbEntry) : TlbEntry :=
  mkTlbEntry (v_page_no target_tlb) (p_page_no target_tlb) (flag target_tlb) (lru_seq e).

Definition is_page_global (e : TlbEntry) : bool := negb (Z.land (flag e) GLOBAL =? 0).
Definition is_page_cacheable (e : TlbEntry) : bool := Z.land (flag e) UNCACHEABLE =? 0.
Definition set_page_shared (e : TlbEntry) : TlbEntry := set_flag e (Z.lor (flag e) SHARED).
Definition is_page_shared (e : TlbEntry) : bool := negb (Z.land (flag e) SHARED =? 0).
Definition set_page_dirty (e : TlbEntry) : TlbEntry := set_flag e (Z.lor (flag e) DIRTY).
Definition is_page_dirty (e : TlbEntry) : bool := negb (Z.land (flag e) DIRTY =? 0).
Definition PAT_enabled (e : TlbEntry) : bool := negb (Z.land (flag e) PAT =? 0).
Definition set_page_global (e : TlbEntry) (select : bool) : TlbEntry :=
  set_flag e (if select then Z.lor (flag e) GLOBAL else Z.ldiff (flag e) GLOBAL).
Definition set_page_cacheable (e : TlbEntry) (select : bool) : TlbEntry :=
  set_flag e (if select then Z.ldiff (flag e) UNCACHEABLE else Z.lor (flag e) UNCACHEABLE).
Definition enable_PAT (e : TlbEntry) (select : bool) : TlbEntry :=
  set_flag e (if select then Z.lor (flag e) PAT else Z.ldiff (flag e) PAT).
Definition is_valid (e : TlbEntry) : bool := negb (Z.land (flag e) VALID =? 0).
Definition set_valid (e : TlbEntry) : TlbEntry := set_flag e (Z.lor (flag e) VALID).
Definition set_invalid (e : TlbEntry) : TlbEntry := set_flag e 0.
Definition entry_map (e : TlbEntry) (vpn ppn : Z) : TlbEntry := mkTlbEntry vpn ppn (flag e) (lru_seq e).
Definition update_vpn (e : TlbEntry) (new_vpn : Z) : TlbEntry := mkTlbEntry new_vpn (p_page_no e) (flag e) (lru_seq e).
Definition entry_update_ppn (e : TlbEntry) (new_ppn : Z) : TlbEntry := mkTlbEntry (v_page_no e) new_ppn (flag e) (lru_seq e).

(** ** The buffer *)

Record tlb_config : Type := mkTlbConfig {
  enable_timing_mode : bool;
  hit_latency : Z;
  response_latency : Z;
  line_shift : Z;
  page_shift : Z;
  evict_policy : EVICTSTYLE;
  srcId : Z;
  reqFlags : Z
}.

(** [T*] is a position in [tlb]. *)
Record CommonTlb : Type := mkTlb {
  tlb_cfg : tlb_config;
  tlb : list TlbEntry;
  free_entry_list : list nat;
  tlb_lru_seq : Z;
  tlb_trie : gmap Z nat;
  tlb_trie_pa : gmap Z nat;
  insert_num : Z;
  tlb_access_time : Z;
  tlb_hit_time : Z;
  tlb_evict_time : Z
}.

Definition set_tlb (t : CommonTlb) (es : list TlbEntry) : CommonTlb :=
  mkTlb (tlb_cfg t) es (free_entry_list t) (tlb_lru_seq t) (tlb_trie t) (tlb_trie_pa t)
    (insert_num t) (tlb_access_time t) (tlb_hit_time t) (tlb_evict_time t).
Definition set_free (t : CommonTlb) (l : list nat) : CommonTlb :=
  mkTlb (tlb_cfg t) (tlb t) l (tlb_lru_seq t) (tlb_trie t) (tlb_trie_pa t)
    (insert_num t) (tlb_access_time t) (tlb_hit_time t) (tlb_evict_time t).
Definition set_seq (t : CommonTlb) (s : Z) : CommonTlb :=
  mkTlb (tlb_cfg t) (tlb t) (free_entry_list t) s (tlb_trie t) (tlb_trie_pa t)
    (insert_num t) (tlb_access_time t) (tlb_hit_time t) (tlb_evict_time t).
Definition set_tries (t : CommonTlb) (v p : gmap Z nat) : CommonTlb :=
  mkTlb (tlb_cfg t) (tlb t) (free_entry_list t) (tlb_lru_seq t) v p
    (insert_num t) (tlb_access_time t) (tlb_hit_time t) (tlb_evict_time t).
Definition add_counters (t : CommonTlb) (inserts accesses hits evicts : Z) : CommonTlb :=
  mkTlb (tlb_cfg t) (tlb t) (free_entry_list t) (tlb_lru_seq t) (tlb_trie t) (tlb_trie_pa t)
    (u32 (insert_num t + inserts)) (u64 (tlb_access_time t + accesses)) (u64 (tlb_hit_time t + hits)) (u64 (tlb_evict_time t + evicts)).

(** The constructor: [memory] holds what [new T] leaves in the fields of the
    entries and [seq0] what is in [lru_seq]; neither is initialised. *)
Definition newTlb (cfg : tlb_config) (memory : list TlbEntry) (seq0 : Z) : outcome CommonTlb :=
  _ ← assert_ (negb (Z.of_nat (length memory) =? 0));
  Ret (mkTlb cfg memory (seq 0 (length memory)) seq0 ∅ ∅ 0 0 0 0).

Definition get_entry (t : CommonTlb) (i : nat) : outcome TlbEntry :=
  match tlb t !! i with Some e => Ret e | None => Stop NullDeref end.
Definition upd_entry (t : CommonTlb) (i : nat) (f : TlbEntry -> TlbEntry) : outcome CommonTlb :=
  match tlb t !! i with Some e => Ret (set_tlb t (<[i := f e]> (tlb t))) | None => Stop NullDeref end.

(** [++lru_seq] on an [int]. *)
Definition next_seq (t : CommonTlb) : outcome CommonTlb :=
  if tlb_lru_seq t =? 2 ^ 31 - 1 then Stop Undefined else Ret (set_seq t (tlb_lru_seq t + 1)).

Definition stamp (t : CommonTlb) (i : nat) : outcome CommonTlb :=
  t ← next_seq t; upd_entry t i (fun e => set_lru e (u64 (tlb_lru_seq t))).

Definition look_up (t : CommonTlb) (vpage_no : Z) (update_lru : bool) : outcome (option nat * CommonTlb) :=
  match tlb_trie t !! vpage_no with
  | None => Ret (None, t)
  | Some i =>
      e ← get_entry t i;
      if is_valid e && update_lru then t ← stamp t i; Ret (Some i, t) else Ret (Some i, t)
  end.

Definition look_up_pa (t : CommonTlb) (ppn : Z) : option nat := tlb_trie_pa t !! ppn.

(** What [shootdown], [delete_entry] and [evict] do to an entry. *)
Definition release (t : CommonTlb) (i : nat) (vpn ppn : Z) : outcome CommonTlb :=
  t ← upd_entry (set_tries t (delete vpn (tlb_trie t)) (delete ppn (tlb_trie_pa t))) i set_invalid;
  Ret (set_free t (free_entry_list t ++ [i])).

Definition timed_latency (t : CommonTlb) (lat : Z) : Z := if enable_timing_mode (tlb_cfg t) then lat else 0.

Definition shootdown (t : CommonTlb) (vpn : Z) : outcome (Z * CommonTlb) :=
  '(entry, t) ← look_up t vpn true;
  match entry with
  | None => Ret (timed_latency t (hit_latency (tlb_cfg t)), t)
  | Some i => e ← get_entry t i; t ← release t i vpn (p_page_no e); Ret (timed_latency t (hit_latency (tlb_cfg t)), t)
  end.

Definition update_tlb_flags (t : CommonTlb) (ppn : Z) (shared dirty : bool) : outcome (Z * CommonTlb) :=
  let lat := timed_latency t (hit_latency (tlb_cfg t)) in
  match look_up_pa t ppn with
  | None => Ret (lat, t)
  | Some i =>
      t ← upd_entry t i (fun e => let e := if shared then set_page_shared e else e in if dirty then set_page_dirty e else e);
      Ret (lat, t)
  end.

Definition update_ppn (t : CommonTlb) (ppn new_ppn : Z) : outcome (Z * CommonTlb) :=
  match look_up_pa t ppn with
  | None => Ret (timed_latency t (hit_latency (tlb_cfg t)), t)
  | Some i => t ← upd_entry t i (fun e => entry_update_ppn e new_ppn); Ret (timed_latency t (u32 (2 * hit_latency (tlb_cfg t))), t)
  end.

Definition update_entry (t : CommonTlb) (vpn ppn : Z) : outcome (Z * CommonTlb) :=
  '(entry, t) ← look_up t vpn true;
  match entry with
  | None => Ret (timed_latency t (hit_latency (tlb_cfg t)), t)
  | Some i => t ← upd_entry t i (fun e => entry_update_ppn e ppn); Ret (timed_latency t (u32 (2 * hit_latency (tlb_cfg t))), t)
  end.

Definition lru_step (t : CommonTlb) (min_lru_entry i : nat) : outcome nat :=
  e ← get_entry t i;
  m ← get_entry t min_lru_entry;
  Ret (if is_valid e && (lru_seq e <? lru_seq m) then i else min_lru_entry).

Definition lru_evict (t : CommonTlb) : outcome nat :=
  _ ← assert_ (bool_decide (free_entry_list t = []));
  fold_ (lru_step t) (seq 1 (length (tlb t) - 1)) 0%nat.

(** Any policy but LRU leaves the pointer null. *)
Definition tlb_evict (t : CommonTlb) : outcome (nat * CommonTlb) :=
  match evict_policy (tlb_cfg t) with
  | LRU =>
      i ← lru_evict t;
      e ← get_entry t i;
      _ ← assert_ (bool_decide (is_Some (tlb_trie t !! v_page_no e)));
      t ← release t i (v_page_no e) (p_page_no e);
      Ret (i, t)
  | _ => Stop NullDeref
  end.

Definition tlb_insert (t : CommonTlb) (vpage_no : Z) (entry : TlbEntry) : outcome (option nat * CommonTlb) :=
  _ ← assert_ (bool_decide (tlb_trie t !! vpage_no = None));
  t ← match free_entry_list t with [] => '(_, t) ← tlb_evict (add_counters t 0 0 0 1); Ret t | _ => Ret t end;
  match free_entry_list t with
  | [] => Ret (None, t)
  | i :: free =>
      t ← upd_entry (set_free t free) i (fun e => set_valid (assign_entry e entry));
      t ← stamp t i;
      e ← get_entry t i;
      Ret (Some i, set_tries t (<[vpage_no := i]> (tlb_trie t)) (<[p_page_no e := i]> (tlb_trie_pa t)))
  end.

Definition flush_all (t : CommonTlb) : CommonTlb :=
  set_free (set_tlb (set_tries t ∅ ∅) (set_invalid <$> tlb t)) (seq 0 (length (tlb t))).

Definition delete_entry (t : CommonTlb) (vpage_no : Z) : outcome (bool * CommonTlb) :=
  '(entry, t) ← look_up t vpage_no true;
  match entry with
  | None => Ret (false, t)
  | Some i => e ← get_entry t i; t ← release t i (v_page_no e) (p_page_no e); Ret (true, t)
  end.

(** ** Access *)

Record MemReq : Type := mkMemReq {
  lineAddr : Z;
  is_puts : bool;
  cycle : Z;
  req_srcId : Z;
  req_flags : Z;
  req_pageShared : bool;
  req_pageDirty : bool;
  req_triggerPageShared : bool;
  req_triggerPageDirty : bool
}.

Definition set_cycle (r : MemReq) (c : Z) : MemReq :=
  mkMemReq (lineAddr r) (is_puts r) c (req_srcId r) (req_flags r) (req_pageShared r) (req_pageDirty r)
    (req_triggerPageShared r) (req_triggerPageDirty r).
Definition set_origin (r : MemReq) (src flags : Z) : MemReq :=
  mkMemReq (lineAddr r) (is_puts r) (cycle r) src flags (req_pageShared r) (req_pageDirty r)
    (req_triggerPageShared r) (req_triggerPageDirty r).
Definition set_page_flags (r : MemReq) (shared dirty : bool) : MemReq :=
  mkMemReq (lineAddr r) (is_puts r) (cycle r) (req_srcId r) (req_flags r) shared dirty
    (req_triggerPageShared r) (req_triggerPageDirty r).

(** The place of one buffer in a state [W]. *)
Record tlb_slot (W : Type) : Type := mkSlot {
  get_tlb : W -> outcome CommonTlb;
  put_tlb : W -> CommonTlb -> outcome W
}.
Arguments get_tlb {W}.
Arguments put_tlb {W}.

Definition virt_addr (cfg : tlb_config) (line : Z) : Z := u64 (Z.shiftl line (line_shift cfg)).
Definition req_vpn (cfg : tlb_config) (line : Z) : Z := Z.shiftr (virt_addr cfg line) (page_shift cfg).
Definition phys_line (cfg : tlb_config) (ppn line : Z) : Z :=
  let offset := Z.land (virt_addr cfg line) (Z.shiftl 1 (page_shift cfg) - 1) in
  Z.shiftr (Z.lor (u64 (Z.shiftl ppn (page_shift cfg))) offset) (line_shift cfg).

Section Access.
Context {W : Type} (sl : tlb_slot W) (walker : W -> MemReq -> outcome (Z * MemReq * W)).

(** The entry a miss brings in, from the flags of the request. *)
Definition miss_entry (vpn ppn : Z) (req : MemReq) : TlbEntry :=
  let e := set_valid (newTlbEntry vpn ppn) in
  let e := if req_pageShared req then set_page_shared e else e in
  if req_pageDirty req then set_page_dirty e else e.

Definition tlb_miss (w : W) (cfg : tlb_config) (vpn : Z) (req : MemReq) : outcome (Z * MemReq * W) :=
  '(ppn, req, w) ← walker w (set_origin req (srcId cfg) (reqFlags cfg));
  t ← get_tlb sl w;
  '(_, t) ← tlb_insert (add_counters t 1 0 0 0) vpn (miss_entry vpn ppn req);
  w ← put_tlb sl w t;
  Ret (ppn, req, w).

Definition tlb_hit (w : W) (t : CommonTlb) (i : nat) (req : MemReq) : outcome (Z * MemReq * W) :=
  let req := if enable_timing_mode (tlb_cfg t) then set_cycle req (u64 (cycle req + hit_latency (tlb_cfg t))) else req in
  e ← get_entry t i;
  w ← put_tlb sl w (add_counters t 0 0 1 0);
  Ret (p_page_no e, set_page_flags req (is_page_shared e) (is_page_dirty e), w).

(** [access(req)]: the physical line and the request as it is left. *)
Definition tlb_access (w : W) (req : MemReq) : outcome (Z * MemReq * W) :=
  t ← get_tlb sl w;
  let cfg := tlb_cfg t in
  let vpn := req_vpn cfg (lineAddr req) in
  let line := lineAddr req in
  '(entry, t) ← look_up (add_counters t 0 1 0 0) vpn true;
  w ← put_tlb sl w t;
  '(ppn, req, w) ←
    match entry with
    | None => tlb_miss w cfg vpn req
    | Some i => tlb_hit w t i req
    end;
  let req := if enable_timing_mode cfg then set_cycle req (u64 (cycle req + response_latency cfg)) else req in
  Ret (phys_line cfg ppn line, req, w).
End Access.

(** ** The buffer as a list in order of use *)

Definition lru_at (t : CommonTlb) (i : nat) : Z := default 0 (lru_seq <$> tlb t !! i).

(** [L] lists the used entries, the last used first. *)
Record tlb_rep (t : CommonTlb) (L : list nat) : Prop := {
  tr_slots : L ++ free_entry_list t ≡ₚ seq 0 (length (tlb t));
  tr_trie v i : tlb_trie t !! v = Some i <-> i ∈ L /\ exists e, tlb t !! i = Some e /\ v_page_no e = v;
  tr_used i e : i ∈ L -> tlb t !! i = Some e -> is_valid e = true /\ lru_seq e <= tlb_lru_seq t;
  tr_order : StronglySorted (fun i j => lru_at t j < lru_at t i) L;
  tr_seq : 0 <= tlb_lru_seq t < 2 ^ 31;
  tr_pa p i : tlb_trie_pa t !! p = Some i -> (i < length (tlb t))%nat
}.

(** The physical index is exact: it has every used entry, under its page. *)
Definition pa_exact (t : CommonTlb) (L : list nat) : Prop :=
  forall p i, tlb_trie_pa t !! p = Some i <-> i ∈ L /\ exists e, tlb t !! i = Some e /\ p_page_no e = p.

(** What a used entry says. *)
Record translation : Type := mkTrans { tr_vpn : Z; tr_ppn : Z; tr_shared : bool; tr_dirty : bool }.

Definition entry_trans (e : TlbEntry) : translation := mkTrans (v_page_no e) (p_page_no e) (is_page_shared e) (is_page_dirty e).
Definition contents (t : CommonTlb) (L : list nat) : list translation :=
  omap (fun i => entry_trans <$> tlb t !! i) L.

(** *** The specification: a bounded list with moves to the front *)

Definition has_vpn (v : Z) (x : translation) : bool := tr_vpn x =? v.
Definition spec_find (v : Z) (l : list translation) : option translation := head (List.filter (has_vpn v) l).
Definition spec_remove (v : Z) (l : list translation) : list translation := List.filter (fun x => negb (has_vpn v x)) l.
Definition spec_touch (v : Z) (l : list translation) : list translation :=
  match spec_find v l with Some x => x :: spec_remove v l | None => l end.
Definition spec_insert (n : nat) (x : translation) (l : list translation) : list translation :=
  x :: (if bool_decide (length l = n) then removelast l else l).
Definition spec_flags (p : Z) (shared dirty : bool) (l : list translation) : list translation :=
  map (fun x => if tr_ppn x =? p then mkTrans (tr_vpn x) (tr_ppn x) (shared || tr_shared x) (dirty || tr_dirty x) else x) l.

(** *** Lookups *)

Lemma u64_seq s : 0 <= s < 2 ^ 31 -> u64 s = s.
Proof. intros. apply u64_small. lia. Qed.

Lemma lru_at_insert t i e j :
  (i < length (tlb t))%nat -> lru_at (set_tlb t (<[i := e]> (tlb t))) j = if bool_decide (i = j) then lru_seq e else lru_at t j.
Proof.
  intros Hi. unfold lru_at. simpl. case_bool_decide as Hj; [subst j; by rewrite list_lookup_insert_eq|by rewrite list_lookup_insert_ne].
Qed.

Lemma contents_app t L1 L2 : contents t (L1 ++ L2) = contents t L1 ++ contents t L2.
Proof. apply omap_app. Qed.

Lemma contents_cons t i e L : tlb t !! i = Some e -> contents t (i :: L) = entry_trans e :: contents t L.
Proof. intros E. unfold contents. simpl. by rewrite E. Qed.

Lemma contents_same t t' L : (forall i, i ∈ L -> entry_trans <$> tlb t' !! i = entry_trans <$> tlb t !! i) -> contents t' L = contents t L.
Proof.
  intros Hs. unfold contents. induction L as [|i L IH]; [done|]. simpl. rewrite (Hs i) by set_solver.
  destruct (entry_trans <$> tlb t !! i); [f_equal|]; apply IH; intros; apply Hs; set_solver.
Qed.

Section Rep.
Context (t : CommonTlb) (L : list nat) (R : tlb_rep t L).

Lemma rep_nodup : NoDup (L ++ free_entry_list t).
Proof. rewrite (tr_slots _ _ R). apply NoDup_seq. Qed.

Lemma rep_lt i : i ∈ L ++ free_entry_list t <-> (i < length (tlb t))%nat.
Proof. rewrite (tr_slots _ _ R), elem_of_seq. lia. Qed.

Lemma rep_at i : i ∈ L -> exists e, tlb t !! i = Some e.
Proof. intros Hi. apply lookup_lt_is_Some_2, rep_lt, elem_of_app. by left. Qed.

Lemma rep_inj i j e f : i ∈ L -> j ∈ L -> tlb t !! i = Some e -> tlb t !! j = Some f -> v_page_no e = v_page_no f -> i = j.
Proof.
  intros Hi Hj He Hf Hv. assert (A : tlb_trie t !! v_page_no e = Some i) by (apply (tr_trie _ _ R); eauto).
  assert (B : tlb_trie t !! v_page_no e = Some j) by (apply (tr_trie _ _ R); eauto). congruence.
Qed.

(** Removing a page number from the list removes the one entry that has it. *)
Lemma remove_other v l :
  (forall i, i ∈ l -> i ∈ L) -> (forall i e, i ∈ l -> tlb t !! i = Some e -> v_page_no e <> v) -> spec_remove v (contents t l) = contents t l.
Proof.
  induction l as [|i l IH]; intros Hl Hv; [done|]. destruct (rep_at i) as [e E]; [apply Hl; set_solver|].
  rewrite (contents_cons t i e) by done. unfold spec_remove. simpl. unfold has_vpn at 1. simpl.
  rewrite (proj2 (Z.eqb_neq _ _)) by (eapply Hv; [|exact E]; set_solver). simpl. f_equal. apply IH; [set_solver|].
  intros j f Hj. apply Hv. set_solver.
Qed.

Lemma find_none v : tlb_trie t !! v = None -> spec_find v (contents t L) = None /\ spec_remove v (contents t L) = contents t L.
Proof.
  intros Hn. assert (Hr : spec_remove v (contents t L) = contents t L).
  { apply remove_other; [done|]. intros i e Hi He Hv.
    assert (A : tlb_trie t !! v = Some i) by (apply (tr_trie _ _ R); eauto). congruence. }
  split; [|done]. unfold spec_find, spec_remove in *. revert Hr. generalize (contents t L). intros l. clear.
  induction l as [|x l IH]; [done|]. simpl. destruct (has_vpn v x) eqn:E; simpl; [|intros Hr; injection Hr as Hr; auto].
  intros Hr. apply (f_equal length) in Hr. pose proof (List.filter_length_le (fun x => negb (has_vpn v x)) l). simpl in Hr. lia.
Qed.

Lemma find_some v i :
  tlb_trie t !! v = Some i ->
  exists L1 L2 e, L = L1 ++ i :: L2 /\ tlb t !! i = Some e /\ v_page_no e = v /\ is_valid e = true /\
    spec_find v (contents t L) = Some (entry_trans e) /\ spec_remove v (contents t L) = contents t (L1 ++ L2).
Proof.
  intros Hs. apply (tr_trie _ _ R) in Hs as (Hi & e & E & Hv). apply list_elem_of_split in Hi as (L1 & L2 & HL).
  assert (HiL : i ∈ L) by (rewrite HL; set_solver).
  assert (Hne : forall j f, j ∈ L1 ++ L2 -> tlb t !! j = Some f -> v_page_no f <> v).
  { intros j f Hj Hf Hfv. assert (j = i).
    { apply (rep_inj j i f e); try done; [rewrite HL; set_solver|congruence]. }
    subst j. pose proof (rep_nodup) as Hn. rewrite HL, <- app_assoc in Hn. simpl in Hn. apply NoDup_app in Hn as (H1 & H2 & H3).
    apply NoDup_cons in H3 as [H3 _]. apply elem_of_app in Hj as [Hj|Hj]; [apply (H2 i Hj); set_solver|set_solver]. }
  assert (Hin : forall j, j ∈ L1 ++ L2 -> j ∈ L) by (intros j; rewrite HL; set_solver).
  assert (R1 : spec_remove v (contents t L1) = contents t L1) by (apply remove_other; intros; [apply Hin|eapply Hne]; set_solver).
  assert (R2 : spec_remove v (contents t L2) = contents t L2) by (apply remove_other; intros; [apply Hin|eapply Hne]; set_solver).
  assert (Hh : has_vpn v (entry_trans e) = true) by (unfold has_vpn; simpl; apply Z.eqb_eq; exact Hv).
  exists L1, L2, e. split_and!; try done; [by eapply (tr_used _ _ R)| |].
  - unfold spec_find. rewrite HL, contents_app, (contents_cons t i e L2 E), List.filter_app. simpl. rewrite Hh.
    destruct (List.filter (has_vpn v) (contents t L1)) as [|x k] eqn:Ek; [done|]. exfalso.
    assert (Hx : List.In x (List.filter (has_vpn v) (contents t L1))) by (rewrite Ek; by left).
    apply List.filter_In in Hx as [Hx1 Hx2]. rewrite <- R1 in Hx1. apply List.filter_In in Hx1 as [_ Hx1]. by rewrite Hx2 in Hx1.
  - rewrite HL, contents_app, (contents_cons t i e L2 E), contents_app. unfold spec_remove in *. rewrite List.filter_app. simpl.
    rewrite Hh. simpl. by rewrite R1, R2.
Qed.
End Rep.

(** *** Moves to the front and removal *)

Lemma sorted_remove {A} (Q : A -> A -> Prop) l1 x l2 : StronglySorted Q (l1 ++ x :: l2) -> StronglySorted Q (l1 ++ l2).
Proof.
  induction l1 as [|y l1 IH]; simpl; intros Hs; inv Hs; [done|]. constructor; [by apply IH|].
  match goal with H : Forall _ (_ ++ _ :: _) |- _ => apply Forall_app in H as [? H]; inv H end. by apply Forall_app.
Qed.

Lemma sorted_mono {A} (Q Q' : A -> A -> Prop) l : (forall x y, x ∈ l -> y ∈ l -> Q x y -> Q' x y) -> StronglySorted Q l -> StronglySorted Q' l.
Proof.
  induction l as [|x l IH]; intros Hq Hs; [constructor|]. inv Hs. constructor; [apply IH; [|done]; intros; apply Hq; set_solver|].
  rewrite Forall_forall in *. intros y Hy. apply Hq; [set_solver..|]. auto.
Qed.

Lemma stamp_ret t i e :
  tlb t !! i = Some e -> 0 <= tlb_lru_seq t < 2 ^ 31 - 1 ->
  stamp t i = Ret (set_tlb (set_seq t (tlb_lru_seq t + 1)) (<[i := set_lru e (tlb_lru_seq t + 1)]> (tlb t))).
Proof.
  intros E Hs. unfold stamp, next_seq. rewrite (proj2 (Z.eqb_neq _ _)) by lia. simpl. unfold upd_entry. simpl. rewrite E.
  rewrite u64_seq by lia. done.
Qed.

Lemma rep_stamp t L1 i L2 e :
  tlb_rep t (L1 ++ i :: L2) -> tlb t !! i = Some e -> tlb_lru_seq t < 2 ^ 31 - 1 ->
  exists t', stamp t i = Ret t' /\ tlb_rep t' (i :: L1 ++ L2) /\ contents t' (i :: L1 ++ L2) = entry_trans e :: contents t (L1 ++ L2) /\
    tlb_cfg t' = tlb_cfg t /\ tlb_lru_seq t' = tlb_lru_seq t + 1 /\ tlb_trie_pa t' = tlb_trie_pa t /\ tlb_trie t' = tlb_trie t /\
    (exists e', tlb t' !! i = Some e' /\ entry_trans e' = entry_trans e) /\
    (pa_exact t (L1 ++ i :: L2) -> pa_exact t' (i :: L1 ++ L2)).
Proof.
  intros R E Hs. pose proof (tr_seq _ _ R) as Hseq. rewrite (stamp_ret t i e) by (done || lia). eexists. split; [done|].
  set (t' := set_tlb _ _). assert (Hlt : (i < length (tlb t))%nat) by (by eapply lookup_lt_Some).
  assert (HP : i :: L1 ++ L2 ≡ₚ L1 ++ i :: L2) by apply Permutation_middle.
  assert (Hni : i ∉ L1 ++ L2).
  { pose proof (rep_nodup _ _ R) as Hn. apply NoDup_app in Hn as [Hn _]. rewrite <- HP in Hn. by apply NoDup_cons in Hn as [Hn _]. }
  assert (Hl : forall j, tlb t' !! j = if bool_decide (i = j) then Some (set_lru e (tlb_lru_seq t + 1)) else tlb t !! j).
  { intros j. simpl. case_bool_decide; [subst j; by rewrite list_lookup_insert_eq|by rewrite list_lookup_insert_ne]. }
  assert (Hv : forall j f (g : TlbEntry -> Z), (forall x s, g (set_lru x s) = g x) ->
    (exists x, tlb t' !! j = Some x /\ g x = f) <-> exists x, tlb t !! j = Some x /\ g x = f).
  { intros j f g Hg. rewrite Hl. case_bool_decide as Hj; [subst j|done]. rewrite E. split; intros (x & Hx & Hf); injection Hx as <-; eexists; split; try done.
    - by rewrite <- Hf, Hg.
    - by rewrite Hg. }
  split_and!; try done.
  - split.
    + simpl. rewrite length_insert, <- (tr_slots _ _ R), <- HP. done.
    + intros v j. rewrite HP, (Hv j v v_page_no) by done. apply (tr_trie _ _ R).
    + intros j f Hj Hf. rewrite HP in Hj. rewrite Hl in Hf. simpl. case_bool_decide as Hij.
      * injection Hf as <-. subst j. destruct (tr_used _ _ R i e Hj E). split; [done|]. simpl. lia.
      * destruct (tr_used _ _ R j f Hj Hf). split; [done|lia].
    + constructor.
      * apply (sorted_mono (fun a b => lru_at t b < lru_at t a)); [|by eapply sorted_remove, (tr_order _ _ R)].
        intros a b Ha Hb. unfold lru_at. rewrite !Hl, !bool_decide_false by (intros <-; done). done.
      * apply Forall_forall. intros b Hb. unfold lru_at. rewrite !Hl, (bool_decide_false (i = b)), (bool_decide_true (i = i)) by (done || (intros <-; done)). simpl.
        destruct (rep_at _ _ R b) as [f Hf]; [rewrite <- HP; set_solver|]. rewrite Hf. simpl.
        destruct (tr_used _ _ R b f) as [_ ?]; [rewrite <- HP; set_solver|done|]. lia.
    + simpl. lia.
    + intros p j Hj. simpl. rewrite length_insert. by eapply (tr_pa _ _ R).
  - rewrite (contents_cons t' i (set_lru e (tlb_lru_seq t + 1))) by (rewrite Hl, bool_decide_true; done). f_equal.
    apply contents_same. intros j Hj. rewrite Hl, bool_decide_false by (intros <-; done). done.
  - exists (set_lru e (tlb_lru_seq t + 1)). split; [by rewrite Hl, bool_decide_true|done].
  - intros Hp p j. rewrite HP, (Hv j p p_page_no) by done. apply Hp.
Qed.

Lemma rep_release t L1 i L2 e :
  tlb_rep t (L1 ++ i :: L2) -> tlb t !! i = Some e ->
  exists t', release t i (v_page_no e) (p_page_no e) = Ret t' /\ tlb_rep t' (L1 ++ L2) /\ contents t' (L1 ++ L2) = contents t (L1 ++ L2) /\
    tlb_cfg t' = tlb_cfg t /\ tlb_lru_seq t' = tlb_lru_seq t /\ length (tlb t') = length (tlb t) /\
    free_entry_list t' = free_entry_list t ++ [i] /\ tlb_trie t' = delete (v_page_no e) (tlb_trie t) /\
    (pa_exact t (L1 ++ i :: L2) -> pa_exact t' (L1 ++ L2)).
Proof.
  intros R E. unfold release, upd_entry. simpl. rewrite E. eexists. split; [done|]. set (t' := set_free _ _).
  assert (HP : i :: L1 ++ L2 ≡ₚ L1 ++ i :: L2) by apply Permutation_middle.
  assert (Hni : i ∉ L1 ++ L2).
  { pose proof (rep_nodup _ _ R) as Hn. apply NoDup_app in Hn as [Hn _]. rewrite <- HP in Hn. by apply NoDup_cons in Hn as [Hn _]. }
  assert (Hl : forall j, j ∈ L1 ++ L2 -> tlb t' !! j = tlb t !! j).
  { intros j Hj. simpl. rewrite list_lookup_insert_ne; [done|]. by intros <-. }
  assert (HiL : i ∈ L1 ++ i :: L2) by (rewrite <- HP; set_solver).
  split_and!; try done; [|apply contents_same; intros j Hj; by rewrite Hl|by simpl; rewrite length_insert|].
  - split.
    + simpl. rewrite length_insert, <- (tr_slots _ _ R), <- HP. rewrite app_assoc. by rewrite (Permutation_app_comm _ [i]).
    + intros v j. change (tlb_trie t') with (delete (v_page_no e) (tlb_trie t)). rewrite lookup_delete_Some, (tr_trie _ _ R), <- HP, elem_of_cons. split.
      * intros (Hv & [->|Hj] & f & Hf & Hfv); [congruence|]. split; [done|]. exists f. split; [|done]. by rewrite (Hl j Hj).
      * intros (Hj & f & Hf & Hfv). rewrite (Hl j Hj) in Hf. split_and!; [|by right|by exists f].
        intros Hv. apply Hni. assert (i = j) as ->; [|done]. apply (rep_inj _ _ R i j e f); try done; [|congruence]. rewrite <- HP. set_solver.
    + intros j f Hj Hf. rewrite (Hl j Hj) in Hf. apply (tr_used _ _ R j f); [|done]. rewrite <- HP. set_solver.
    + apply (sorted_mono (fun a b => lru_at t b < lru_at t a)); [|by eapply sorted_remove, (tr_order _ _ R)].
      intros a b Ha Hb. unfold lru_at. by rewrite !Hl.
    + apply R.
    + intros p j. simpl. rewrite length_insert. intros Hj. apply lookup_delete_Some in Hj as [_ Hj]. by eapply (tr_pa _ _ R).
  - intros Hp p j. change (tlb_trie_pa t') with (delete (p_page_no e) (tlb_trie_pa t)). rewrite lookup_delete_Some, (Hp p j), <- HP, elem_of_cons. split.
    + intros (Hv & [->|Hj] & f & Hf & Hfv); [congruence|]. split; [done|]. exists f. split; [|done]. by rewrite (Hl j Hj).
    + intros (Hj & f & Hf & Hfv). rewrite (Hl j Hj) in Hf. split_and!; [|by right|by exists f].
      intros Hv. apply Hni. assert (i = j) as ->; [|done].
      assert (A1 : tlb_trie_pa t !! p = Some i) by (apply Hp; split; [done|]; exists e; split; [done|congruence]).
      assert (A2 : tlb_trie_pa t !! p = Some j) by (apply Hp; split; [rewrite <- HP; set_solver|]; by exists f). congruence.
Qed.

(** *** Operations *)

(** The buffer holds the translations [l], the last used first, and both hash
    maps index exactly these. *)
Definition tlb_is (t : CommonTlb) (l : list translation) : Prop :=
  exists L, tlb_rep t L /\ pa_exact t L /\ contents t L = l.

(** An operation keeps the configuration and the size and uses at most one
    sequence number. *)
Definition tlb_frame (t t' : CommonTlb) : Prop :=
  tlb_cfg t' = tlb_cfg t /\ length (tlb t') = length (tlb t) /\ tlb_lru_seq t <= tlb_lru_seq t' <= tlb_lru_seq t + 1.

Definition spare_seq (t : CommonTlb) : Prop := tlb_lru_seq t < 2 ^ 31 - 1.

Lemma tlb_frame_refl t : tlb_frame t t.
Proof. split_and!; (done || lia). Qed.

Lemma stamp_length t i t' : stamp t i = Ret t' -> length (tlb t') = length (tlb t).
Proof.
  unfold stamp, next_seq, upd_entry. destruct (_ =? _); [done|]. simpl. destruct (tlb t !! i); [|done]. intros E. injection E as <-. simpl. by rewrite length_insert.
Qed.

Lemma look_up_ok t l v :
  tlb_is t l -> spare_seq t ->
  exists r t', look_up t v true = Ret (r, t') /\ tlb_is t' (spec_touch v l) /\ tlb_frame t t' /\ tlb_trie t' = tlb_trie t /\
    match spec_find v l with
    | None => r = None /\ t' = t
    | Some x => exists i e, r = Some i /\ tlb t' !! i = Some e /\ entry_trans e = x /\ v_page_no e = v
    end.
Proof.
  intros (L & R & Hp & <-) Hs. unfold look_up, spec_touch. destruct (tlb_trie t !! v) as [i|] eqn:E.
  - destruct (find_some t L R v i E) as (L1 & L2 & e & HL & He & Hv & Hval & -> & ->). unfold get_entry. rewrite He. simpl. rewrite Hval.
    rewrite HL in R, Hp. destruct (rep_stamp t L1 i L2 e R He Hs) as (t' & E' & R' & Hc & H1 & H2 & H3 & H4 & (e' & He' & Ht) & Hp'). simpl. rewrite E'. simpl.
    exists (Some i), t'. split_and!; try done.
    + exists (i :: L1 ++ L2). split_and!; [done|by apply Hp'|done].
    + split_and!; [done|by eapply stamp_length|lia..].
    + exists i, e'. split_and!; try done. by injection Ht; congruence.
  - destruct (find_none t L R v E) as [-> _]. exists None, t. split_and!; try done; [by exists L|apply tlb_frame_refl].
Qed.

Lemma release_is t l v i e :
  tlb_is t l -> tlb_trie t !! v = Some i -> tlb t !! i = Some e -> v_page_no e = v ->
  exists t', release t i v (p_page_no e) = Ret t' /\ tlb_is t' (spec_remove v l) /\ tlb_frame t t' /\
    tlb_trie t' = delete v (tlb_trie t) /\ free_entry_list t' = free_entry_list t ++ [i].
Proof.
  intros (L & R & Hp & <-) Hi He Hv. destruct (find_some t L R v i Hi) as (L1 & L2 & e' & HL & He' & _ & _ & _ & ->).
  rewrite HL in R, Hp. destruct (rep_release t L1 i L2 e R He) as (t' & E & R' & Hc & H1 & H2 & H3 & H4 & H5 & Hp').
  rewrite Hv in E, H5. exists t'. split_and!; try done; [|split_and!; (done || lia)].
  exists (L1 ++ L2). split_and!; [done|by apply Hp'|done].
Qed.

Lemma spec_remove_touch v l : spec_remove v (spec_touch v l) = spec_remove v l.
Proof.
  unfold spec_touch, spec_find. destruct (List.filter (has_vpn v) l) as [|x k] eqn:E; [done|]. simpl.
  assert (Hx : List.In x (List.filter (has_vpn v) l)) by (rewrite E; by left). apply List.filter_In in Hx as [_ Hx].
  unfold spec_remove. simpl. rewrite Hx. simpl. clear. induction l as [|y l IH]; [done|]. simpl. destruct (negb (has_vpn v y)) eqn:E; simpl; rewrite ?E, IH; done.
Qed.

Lemma touch_vpn t l v i e : tlb_is t l -> tlb_trie t !! v = Some i -> tlb t !! i = Some e -> v_page_no e = v.
Proof. intros (L & R & _) Hi He. apply (tr_trie _ _ R) in Hi as (_ & e' & He' & Hv). congruence. Qed.

(** The common part of [shootdown] and [delete_entry]. *)
Lemma drop_ok t l v :
  tlb_is t l -> spare_seq t ->
  exists r t1, look_up t v true = Ret (r, t1) /\ tlb_frame t t1 /\
    match r with
    | None => spec_find v l = None /\ tlb_is t1 (spec_remove v l)
    | Some i => spec_find v l <> None /\ exists e t', tlb t1 !! i = Some e /\ v_page_no e = v /\ release t1 i v (p_page_no e) = Ret t' /\
        tlb_is t' (spec_remove v l) /\ tlb_frame t t'
    end.
Proof.
  intros I Hs. destruct (look_up_ok t l v I Hs) as (r & t1 & E & I1 & F & Ht & Hm). exists r, t1. split_and!; [done..|].
  destruct (spec_find v l) as [x|] eqn:Ef.
  - destruct Hm as (i & e & -> & He & Hx & Hv). split; [done|].
    assert (Hi : tlb_trie t1 !! v = Some i).
    { revert E. unfold look_up. rewrite Ht. destruct (tlb_trie t !! v) as [j|]; [|done]. destruct (get_entry t j); simpl; [|done].
      destruct (is_valid _ && true); [destruct (stamp t j); simpl; [|done]|]; congruence. }
    destruct (release_is t1 _ v i e I1 Hi He Hv) as (t' & E' & I' & F' & _). exists e, t'. split_and!; try done.
    + by rewrite <- spec_remove_touch.
    + destruct F as (F1 & F2 & F3), F' as (G1 & G2 & G3). split_and!; [congruence|congruence|lia|].
      assert (tlb_lru_seq t' = tlb_lru_seq t1); [|lia]. unfold release in E'. apply bind_ret_inv in E' as (t2 & E2 & E').
      injection E' as <-. unfold upd_entry in E2. simpl in E2. rewrite He in E2. by injection E2 as <-.
  - destruct Hm as [-> ->]. split; [done|]. rewrite <- spec_remove_touch. unfold spec_touch. rewrite Ef.
    destruct I as (L & R & Hp & <-). destruct (tlb_trie t !! v) as [i|] eqn:Ei.
    + destruct (find_some t L R v i Ei) as (? & ? & ? & _ & _ & _ & _ & Hf & _). congruence.
    + destruct (find_none t L R v Ei) as [_ ->]. by exists L.
Qed.

Lemma shootdown_ok t l v :
  tlb_is t l -> spare_seq t ->
  exists t', shootdown t v = Ret (timed_latency t (hit_latency (tlb_cfg t)), t') /\ tlb_is t' (spec_remove v l) /\ tlb_frame t t'.
Proof.
  intros I Hs. destruct (drop_ok t l v I Hs) as (r & t1 & E & F & Hm). unfold shootdown. rewrite E. simpl. destruct r as [i|].
  - destruct Hm as (_ & e & t' & He & Hv & Er & I' & F'). unfold get_entry. rewrite He. simpl. rewrite Er. simpl. exists t'.
    unfold timed_latency. destruct F' as (F1 & F2). rewrite F1. by split_and!.
  - exists t1. unfold timed_latency. pose proof F as (F1 & F2). rewrite F1. destruct Hm. by split_and!.
Qed.

Lemma delete_entry_ok t l v :
  tlb_is t l -> spare_seq t ->
  exists t', delete_entry t v = Ret (bool_decide (spec_find v l <> None), t') /\ tlb_is t' (spec_remove v l) /\ tlb_frame t t'.
Proof.
  intros I Hs. destruct (drop_ok t l v I Hs) as (r & t1 & E & F & Hm). unfold delete_entry. rewrite E. simpl. destruct r as [i|].
  - destruct Hm as (Hf & e & t' & He & Hv & Er & I' & F'). unfold get_entry. rewrite He. simpl. rewrite Hv, Er. simpl. exists t'.
    rewrite bool_decide_true by done. by split_and!.
  - destruct Hm as [Hf I']. exists t1. rewrite bool_decide_false by congruence. by split_and!.
Qed.

(** *** Eviction *)

(** The scan keeps the position with the smallest sequence number so far. *)
Lemma lru_scan t n k m :
  (forall i e, (i < k + n)%nat -> tlb t !! i = Some e -> is_valid e = true) -> (k + n <= length (tlb t))%nat -> (m < k)%nat ->
  (forall j, (j < k)%nat -> lru_at t m <= lru_at t j) ->
  exists m', fold_ (lru_step t) (seq k n) m = Ret m' /\ (m' < k + n)%nat /\ forall j, (j < k + n)%nat -> lru_at t m' <= lru_at t j.
Proof.
  revert k m. induction n as [|n IH]; intros k m Hv Hk Hm Hmin; cbn [seq fold_].
  - exists m. split_and!; [done|lia|]. intros j Hj. apply Hmin. lia.
  - destruct (lookup_lt_is_Some_2 (tlb t) k) as [e E]; [lia|]. destruct (lookup_lt_is_Some_2 (tlb t) m) as [f F]; [lia|].
    assert (St : lru_step t m k = Ret (if lru_seq e <? lru_seq f then k else m)).
    { unfold lru_step, get_entry. rewrite E, F. simpl. by rewrite (Hv k e) by (done || lia). }
    rewrite St. cbn [mbind outcome_bind].
    assert (Ek : lru_at t k = lru_seq e) by (unfold lru_at; by rewrite E). assert (Em : lru_at t m = lru_seq f) by (unfold lru_at; by rewrite F).
    destruct (IH (S k) (if lru_seq e <? lru_seq f then k else m)) as (m' & E' & Hm' & Hmin').
    + intros i x Hi. apply Hv. lia.
    + lia.
    + destruct (_ <? _); lia.
    + intros j Hj. destruct (decide (j = k)) as [->|]; [destruct (_ <? _) eqn:Hlt; zb; lia|].
      specialize (Hmin j ltac:(lia)). destruct (_ <? _) eqn:Hlt; zb; lia.
    + exists m'. split_and!; [done|lia|]. intros j Hj. apply Hmin'. lia.
Qed.

Lemma lru_evict_last t L i :
  tlb_rep t (L ++ [i]) -> free_entry_list t = [] -> lru_evict t = Ret i.
Proof.
  intros R Hf. pose proof (tr_slots _ _ R) as HP. rewrite Hf, app_nil_r in HP.
  assert (Hin : forall j, (j < length (tlb t))%nat -> j ∈ L ++ [i]) by (intros j Hj; rewrite HP; apply elem_of_seq; lia).
  assert (Hi : (i < length (tlb t))%nat) by (apply (rep_lt _ _ R); set_solver).
  unfold lru_evict. rewrite Hf. simpl. edestruct (lru_scan t (length (tlb t) - 1) 1 0) as (m & -> & Hm & Hmin).
  - intros j e Hj He. eapply (tr_used _ _ R); [|done]. apply Hin. lia.
  - lia.
  - lia.
  - intros j Hj. by replace j with 0%nat by lia.
  - f_equal. specialize (Hmin i ltac:(lia)). specialize (Hin m ltac:(lia)). apply elem_of_app in Hin as [Hin|Hin]; [|set_solver].
    exfalso. pose proof (tr_order _ _ R) as Ho. clear -Ho Hin Hmin. induction L as [|x L IH]; [set_solver|]. simpl in Ho. inv Ho.
    apply elem_of_cons in Hin as [->|Hin]; [|auto]. match goal with H : Forall _ _ |- _ => apply Forall_app in H as [_ H]; inv H end. lia.
Qed.

Lemma removelast_contents t L i e : tlb t !! i = Some e -> removelast (contents t (L ++ [i])) = contents t L.
Proof. intros E. rewrite contents_app, (contents_cons t i e [] E). apply removelast_last. Qed.

Lemma contents_length t L : tlb_rep t L -> length (contents t L) = length L.
Proof.
  intros R. assert (Hs : forall i, i ∈ L -> exists e, tlb t !! i = Some e) by (by apply rep_at). clear R.
  induction L as [|i L IH]; [done|]. destruct (Hs i) as [e E]; [set_solver|]. rewrite (contents_cons t i e L E). simpl. f_equal. apply IH.
  intros. apply Hs. set_solver.
Qed.

Lemma is_length t l : tlb_is t l -> (length l + length (free_entry_list t) = length (tlb t))%nat.
Proof.
  intros (L & R & _ & <-). rewrite (contents_length t L R). pose proof (tr_slots _ _ R) as HP. apply Permutation_length in HP.
  rewrite length_app, length_seq in HP. done.
Qed.

Lemma evict_ok t l :
  tlb_is t l -> free_entry_list t = [] -> (0 < length (tlb t))%nat -> evict_policy (tlb_cfg t) = LRU ->
  exists i t', tlb_evict t = Ret (i, t') /\ tlb_is t' (removelast l) /\ tlb_frame t t' /\ free_entry_list t' = [i] /\ tlb_lru_seq t' = tlb_lru_seq t /\
    (forall v, tlb_trie t !! v = None -> tlb_trie t' !! v = None).
Proof.
  intros (L & R & Hp & <-) Hf Hn Hpol. pose proof (tr_slots _ _ R) as HP. rewrite Hf, app_nil_r in HP.
  destruct (exists_last (l := L)) as (L1 & i & ->); [intros ->; apply Permutation_length in HP; rewrite length_seq in HP; simpl in HP; lia|].
  destruct (rep_at _ _ R i) as [e E]; [set_solver|]. unfold tlb_evict. rewrite Hpol, (lru_evict_last t L1 i R Hf). simpl.
  unfold get_entry. rewrite E. simpl.
  assert (Ht : tlb_trie t !! v_page_no e = Some i) by (apply (tr_trie _ _ R); split; [set_solver|eauto]).
  rewrite Ht, bool_decide_true by done. simpl.
  destruct (rep_release t L1 i [] e R E) as (t' & Er & R' & Hc & H1 & H2 & H3 & H4 & H5 & Hp'). rewrite Er. simpl.
  exists i, t'. rewrite app_nil_r in *. rewrite (removelast_contents t L1 i e E), H4, Hf. split_and!; try done.
  - exists L1. split_and!; [done|by apply Hp'|done].
  - split_and!; (done || lia).
  - intros v Hv. rewrite H5. by apply lookup_delete_None; right.
Qed.

(** *** Insertion *)

Lemma is_valid_set e : is_valid (set_valid e) = true.
Proof.
  unfold is_valid, set_valid. simpl. apply negb_true_iff, Z.eqb_neq. intros Hz. apply (f_equal (fun x => Z.testbit x 4)) in Hz.
  rewrite Z.land_spec, Z.lor_spec in Hz. simpl in Hz. rewrite orb_true_r in Hz. done.
Qed.

Lemma flag_set_valid e : is_page_shared (set_valid e) = is_page_shared e /\ is_page_dirty (set_valid e) = is_page_dirty e.
Proof.
  unfold is_page_shared, is_page_dirty, set_valid. simpl. split; do 2 f_equal; apply Z.bits_inj'; intros n Hn;
    rewrite !Z.land_spec, Z.lor_spec; unfold SHARED, DIRTY, VALID; destruct (Z.testbit (flag e) n); simpl; try done;
    match goal with |- (Z.testbit ?a n && Z.testbit ?b n)%bool = false => rewrite <- (Z.land_spec a b); apply Z.bits_0 end.
Qed.

(** Taking the first free entry. *)
Lemma place_ok t L i free v x :
  tlb_rep t L -> free_entry_list t = i :: free -> spare_seq t -> tlb_trie t !! v = None -> v_page_no x = v ->
  exists t1 t2 e, upd_entry (set_free t free) i (fun e => set_valid (assign_entry e x)) = Ret t1 /\ stamp t1 i = Ret t2 /\
    tlb t2 !! i = Some e /\ p_page_no e = p_page_no x /\
    let t' := set_tries t2 (<[v := i]> (tlb_trie t2)) (<[p_page_no e := i]> (tlb_trie_pa t2)) in
    tlb_rep t' (i :: L) /\ contents t' (i :: L) = entry_trans x :: contents t L /\ tlb_frame t t' /\
    tlb_trie_pa t' = <[p_page_no x := i]> (tlb_trie_pa t) /\ free_entry_list t' = free /\
    (pa_exact t L -> p_page_no x ∉ map tr_ppn (contents t L) -> pa_exact t' (i :: L)).
Proof.
  intros R Hf Hs Hn Hv. pose proof (tr_seq _ _ R) as Hseq.
  assert (Hi : i ∈ L ++ free_entry_list t) by (rewrite Hf; set_solver). pose proof (proj1 (rep_lt _ _ R i) Hi) as Hlt.
  destruct (lookup_lt_is_Some_2 _ _ Hlt) as [e0 E0]. unfold upd_entry. simpl. rewrite E0.
  set (y := set_valid (assign_entry e0 x)). eexists. pose proof (fun H => stamp_ret (set_tlb (set_free t free) (<[i := y]> (tlb t))) i y H) as St.
  rewrite St by (first [simpl; by rewrite list_lookup_insert_eq|simpl; unfold spare_seq in Hs; lia]). clear St. eexists _, (set_lru y (tlb_lru_seq t + 1)).
  split; [done|]. split; [done|]. simpl. rewrite list_insert_insert_eq, list_lookup_insert_eq by done. split; [done|]. split; [done|].
  set (t' := set_tries _ _ _).
  assert (Hni : i ∉ L). { pose proof (rep_nodup _ _ R) as Hd. rewrite Hf in Hd. apply NoDup_app in Hd as (_ & Hd & _). intros Hx. apply (Hd i Hx). set_solver. }
  assert (Hl : forall j, j ∈ L -> tlb t' !! j = tlb t !! j). { intros j Hj. simpl. rewrite list_lookup_insert_ne; [done|]. by intros <-. }
  assert (Hli : tlb t' !! i = Some (set_lru y (tlb_lru_seq t + 1))) by (simpl; by rewrite list_lookup_insert_eq).
  assert (Htr : entry_trans (set_lru y (tlb_lru_seq t + 1)) = entry_trans x).
  { unfold entry_trans. destruct (flag_set_valid (assign_entry e0 x)) as [Hsh Hdi]. f_equal; [exact Hsh|exact Hdi]. }
  split_and!.
  - split.
    + simpl. rewrite length_insert, <- (tr_slots _ _ R), Hf. by rewrite Permutation_middle.
    + intros w j. change (tlb_trie t') with (<[v := i]> (tlb_trie t)). rewrite elem_of_cons, lookup_insert_Some, (tr_trie _ _ R). split.
      * intros [[<- <-]|(Hw & Hj & f & Hf' & Hfw)]; [split; [by left|]; rewrite Hli; eexists; split; [done|]; exact Hv|].
        split; [by right|]. exists f. by rewrite (Hl j Hj).
      * intros ([->|Hj] & f & Hf' & Hfw); [left; rewrite Hli in Hf'; injection Hf' as <-; split; [|done]; rewrite <- Hv; exact Hfw|].
        rewrite (Hl j Hj) in Hf'. right. split_and!; [|done|by exists f]. intros Hw.
        assert (A : tlb_trie t !! w = Some j) by (apply (tr_trie _ _ R); split; [done|]; by exists f). congruence.
    + intros j f Hj Hf'. change (tlb_lru_seq t') with (tlb_lru_seq t + 1). apply elem_of_cons in Hj as [->|Hj].
      * rewrite Hli in Hf'. injection Hf' as <-. split; [apply is_valid_set|simpl; lia].
      * rewrite (Hl j Hj) in Hf'. destruct (tr_used _ _ R j f Hj Hf'). split; [done|lia].
    + constructor.
      * apply (sorted_mono (fun a b => lru_at t b < lru_at t a)); [|apply (tr_order _ _ R)]. intros a b Ha Hb. unfold lru_at. by rewrite !Hl.
      * apply Forall_forall. intros b Hb. unfold lru_at. rewrite Hli, (Hl b Hb). simpl. destruct (rep_at _ _ R b Hb) as [f Hf']. rewrite Hf'.
        destruct (tr_used _ _ R b f Hb Hf'). simpl. lia.
    + unfold spare_seq in Hs. simpl. lia.
    + intros p j. simpl. rewrite length_insert. intros Hj. apply lookup_insert_Some in Hj as [[_ <-]|[_ Hj]]; [done|by eapply (tr_pa _ _ R)].
  - cbn [fmap option_fmap option_map]. rewrite Htr. f_equal. apply contents_same. intros j Hj. by rewrite (Hl j Hj).
  - split_and!; simpl; [done|by rewrite length_insert|lia|lia].
  - done.
  - done.
  - intros Hp Hpp p j.
    assert (Hpa : tlb_trie_pa t !! p_page_no x = None).
    { destruct (tlb_trie_pa t !! p_page_no x) as [j0|] eqn:Ej; [|done]. exfalso. apply Hpp. apply Hp in Ej as (Hj0 & f0 & Hf0 & <-).
      apply list_elem_of_fmap. exists (entry_trans f0). split; [done|]. apply list_elem_of_omap. exists j0. by rewrite Hf0. }
    change (tlb_trie_pa t') with (<[p_page_no x := i]> (tlb_trie_pa t)). rewrite elem_of_cons, lookup_insert_Some, (Hp p j). split.
    + intros [[<- <-]|(Hw & Hj & f & Hf' & Hfw)]; [split; [by left|]; rewrite Hli; by eexists|]. split; [by right|]. exists f. by rewrite (Hl j Hj).
    + intros ([->|Hj] & f & Hf' & Hfw); [left; rewrite Hli in Hf'; injection Hf' as <-; done|].
      rewrite (Hl j Hj) in Hf'. right. split_and!; [|done|by exists f]. intros Hw.
      assert (A : tlb_trie_pa t !! p = Some j) by (apply Hp; split; [done|]; by exists f). congruence.
Qed.

Lemma tlb_is_counters t l a b c d : tlb_is (add_counters t a b c d) l <-> tlb_is t l.
Proof. split; intros (L & [R1 R2 R3 R4 R5 R6] & Hp & Hc); exists L; (split; [split|]); done. Qed.

Lemma find_trie t l v : tlb_is t l -> spec_find v l = None -> tlb_trie t !! v = None.
Proof.
  intros (L & R & _ & <-) Hf. destruct (tlb_trie t !! v) as [i|] eqn:E; [|done].
  destruct (find_some t L R v i E) as (? & ? & ? & _ & _ & _ & _ & Hs & _). congruence.
Qed.

Lemma in_removelast {A} (x : A) l : x ∈ removelast l -> x ∈ l.
Proof.
  destruct (decide (l = [])) as [->|Hl]; [done|]. destruct (exists_last Hl) as (k & y & ->). rewrite removelast_last. set_solver.
Qed.

Lemma insert_ok t l v x :
  tlb_is t l -> spare_seq t -> (0 < length (tlb t))%nat -> evict_policy (tlb_cfg t) = LRU -> spec_find v l = None ->
  v_page_no x = v -> p_page_no x ∉ map tr_ppn l ->
  exists i t', tlb_insert t v x = Ret (Some i, t') /\ tlb_is t' (spec_insert (length (tlb t)) (entry_trans x) l) /\ tlb_frame t t'.
Proof.
  intros I Hs Hn Hpol Hf Hv Hpp. pose proof (find_trie t l v I Hf) as Ht. unfold tlb_insert. rewrite Ht, bool_decide_true by done. cbn [mbind outcome_bind assert_].
  pose proof (is_length t l I) as Hlen. unfold spec_insert.
  assert (Hroom : exists t0 l0 i free, match free_entry_list t with [] => '(_, t) ← tlb_evict (add_counters t 0 0 0 1); Ret t | _ => Ret t end = Ret t0 /\
    tlb_is t0 l0 /\ l0 = (if bool_decide (length l = length (tlb t)) then removelast l else l) /\ free_entry_list t0 = i :: free /\
    tlb_cfg t0 = tlb_cfg t /\ length (tlb t0) = length (tlb t) /\ tlb_lru_seq t0 = tlb_lru_seq t /\ tlb_trie t0 !! v = None).
  { destruct (free_entry_list t) as [|i free] eqn:Ef; simpl in Hlen.
    - destruct (evict_ok (add_counters t 0 0 0 1) l) as (i & t0 & E & I0 & (F1 & F2 & _) & Hf0 & F3 & Ht0); [by apply tlb_is_counters|done|done|done|].
      rewrite E. exists t0, (removelast l), i, []. rewrite bool_decide_true by lia. split_and!; try done. by apply Ht0.
    - exists t, l, i, free. rewrite bool_decide_false by lia. done. }
  destruct Hroom as (t0 & l0 & i & free & -> & (L & R & Hp & Hc) & Hl0 & Hfr & C1 & C2 & C3 & C4). cbn [mbind outcome_bind]. rewrite Hfr, <- Hl0.
  destruct (place_ok t0 L i free v x R Hfr) as (t1 & t2 & e & -> & E2 & He & Hpe & R' & Hc' & F' & _ & _ & Hp'); [unfold spare_seq in *; lia|done|done|].
  specialize (Hp' Hp). assert (Hfresh : p_page_no x ∉ map tr_ppn (contents t0 L)).
  { rewrite Hc, Hl0. case_bool_decide; [|done]. intros Hx. apply Hpp. apply list_elem_of_fmap in Hx as (y & -> & Hy). apply list_elem_of_fmap. exists y. split; [done|]. by apply in_removelast. }
  cbn [mbind outcome_bind]. rewrite E2. cbn [mbind outcome_bind]. unfold get_entry. rewrite He. eexists i, _. split; [done|]. split.
  - exists (i :: L). split_and!; [done|by apply Hp'|]. by rewrite <- Hc.
  - destruct F' as (F1 & F2 & F3). split_and!; [congruence|congruence|lia..].
Qed.

Lemma flush_ok t l : tlb_is t l -> tlb_is (flush_all t) [] /\ tlb_frame t (flush_all t).
Proof.
  intros (L & R & _ & _). split; [|split_and!; simpl; [done|apply length_fmap|lia..]].
  exists []. split_and!; [|intros p i; simpl; rewrite lookup_empty; set_solver|done]. split; simpl.
  - by rewrite length_fmap.
  - intros v i. rewrite lookup_empty. set_solver.
  - set_solver.
  - constructor.
  - apply R.
  - intros p i. by rewrite lookup_empty.
Qed.

(** *** Flags *)

Definition flag_update (shared dirty : bool) (e : TlbEntry) : TlbEntry :=
  let e := if shared then set_page_shared e else e in if dirty then set_page_dirty e else e.

Lemma flag_bit f b k : 0 <= k -> negb (Z.land (Z.lor f b) (2 ^ k) =? 0) = (negb (Z.land f (2 ^ k) =? 0) || negb (Z.land b (2 ^ k) =? 0))%bool.
Proof.
  intros Hk. assert (Hb : forall a, negb (Z.land a (2 ^ k) =? 0) = Z.testbit a k).
  { intros a. destruct (Z.testbit a k) eqn:Ha.
    - apply negb_true_iff, Z.eqb_neq. intros Hz. apply (f_equal (fun x => Z.testbit x k)) in Hz.
      rewrite Z.land_spec, Z.pow2_bits_true, Ha, Z.bits_0 in Hz by lia. done.
    - apply negb_false_iff, Z.eqb_eq, Z.bits_inj'. intros n Hn. rewrite Z.land_spec, Z.bits_0, Z.pow2_bits_eqb by lia.
      destruct (k =? n) eqn:En; [zb; subst; by rewrite Ha|apply andb_false_r]. }
  by rewrite !Hb, Z.lor_spec.
Qed.

Lemma flag_update_spec s d e :
  is_page_shared (flag_update s d e) = (s || is_page_shared e)%bool /\ is_page_dirty (flag_update s d e) = (d || is_page_dirty e)%bool /\
  is_valid (flag_update s d e) = is_valid e.
Proof.
  unfold flag_update, is_page_shared, is_page_dirty, is_valid, set_page_shared, set_page_dirty, SHARED, DIRTY, VALID.
  change 0x20 with (2 ^ 5). change 0x40 with (2 ^ 6). change 0x10 with (2 ^ 4).
  destruct s, d; simpl flag; rewrite ?flag_bit by lia; simpl; rewrite ?orb_false_r, ?orb_true_r; done.
Qed.

Lemma flag_update_same s d e :
  v_page_no (flag_update s d e) = v_page_no e /\ p_page_no (flag_update s d e) = p_page_no e /\ lru_seq (flag_update s d e) = lru_seq e.
Proof. by destruct s, d. Qed.

(** Changing the flags of one used entry. *)
Lemma rep_flags t L i e s d :
  tlb_rep t L -> pa_exact t L -> i ∈ L -> tlb t !! i = Some e ->
  let t' := set_tlb t (<[i := flag_update s d e]> (tlb t)) in
  tlb_rep t' L /\ pa_exact t' L /\ contents t' L = spec_flags (p_page_no e) s d (contents t L).
Proof.
  intros R Hp Hi E t'. assert (Hlt : (i < length (tlb t))%nat) by (by eapply lookup_lt_Some).
  destruct (flag_update_same s d e) as (V1 & V2 & V3), (flag_update_spec s d e) as (W1 & W2 & W3).
  assert (Hl : forall j, tlb t' !! j = if bool_decide (i = j) then Some (flag_update s d e) else tlb t !! j).
  { intros j. simpl. case_bool_decide; [subst j; by rewrite list_lookup_insert_eq|by rewrite list_lookup_insert_ne]. }
  assert (Hv : forall j f (g : TlbEntry -> Z), g (flag_update s d e) = g e ->
    (exists x, tlb t' !! j = Some x /\ g x = f) <-> exists x, tlb t !! j = Some x /\ g x = f).
  { intros j f g Hg. rewrite Hl. case_bool_decide as Hj; [subst j|done]. rewrite E. split; intros (x & Hx & Hf); injection Hx as <-; eexists; (split; [done|]); congruence. }
  assert (Hlru : forall j, lru_at t' j = lru_at t j).
  { intros j. unfold lru_at. rewrite Hl. case_bool_decide; [subst j; rewrite E; simpl; congruence|done]. }
  split_and!.
  - split.
    + simpl. rewrite length_insert. apply R.
    + intros v j. rewrite (Hv j v v_page_no V1). apply (tr_trie _ _ R).
    + intros j f Hj. rewrite Hl. case_bool_decide; [|apply (tr_used _ _ R j f Hj)]. subst j. intros Hf. injection Hf as <-.
      rewrite W3, V3. by apply (tr_used _ _ R i e).
    + apply (sorted_mono (fun a b => lru_at t b < lru_at t a)); [|apply R]. intros a b _ _. by rewrite !Hlru.
    + apply R.
    + intros p j. simpl. rewrite length_insert. apply (tr_pa _ _ R).
  - intros p j. rewrite (Hv j p p_page_no V2). apply Hp.
  - assert (Hk : forall j, j ∈ L -> j ∈ L) by done. revert Hk. generalize L at 1 3 4 as K. intros K.
    induction K as [|j K IH]; intros Hk; [done|]. destruct (rep_at _ _ R j) as [f Hf]; [apply Hk; set_solver|].
    rewrite (contents_cons t j f K Hf), (contents_cons t' j (if bool_decide (i = j) then flag_update s d e else f) K)
      by (rewrite Hl; by case_bool_decide).
    unfold spec_flags. cbn [map]. fold (spec_flags (p_page_no e) s d (contents t K)). rewrite IH by set_solver. f_equal. simpl. case_bool_decide as Hj.
    + subst j. assert (f = e) as -> by congruence. rewrite Z.eqb_refl. unfold entry_trans. by rewrite V1, V2, W1, W2.
    + destruct (p_page_no f =? p_page_no e) eqn:Ep; [|done]. exfalso. zb. apply Hj.
      assert (A1 : tlb_trie_pa t !! p_page_no e = Some i) by (apply Hp; split; [done|]; by exists e).
      assert (A2 : tlb_trie_pa t !! p_page_no e = Some j) by (apply Hp; split; [apply Hk; set_solver|]; by exists f). congruence.
Qed.

Lemma flags_ok t l p s d :
  tlb_is t l ->
  exists t', update_tlb_flags t p s d = Ret (timed_latency t (hit_latency (tlb_cfg t)), t') /\ tlb_is t' (spec_flags p s d l) /\ tlb_frame t t' /\
    tlb_lru_seq t' = tlb_lru_seq t.
Proof.
  intros (L & R & Hp & <-). unfold update_tlb_flags, look_up_pa. destruct (tlb_trie_pa t !! p) as [i|] eqn:Ei.
  - apply Hp in Ei as (Hi & e & He & <-). unfold upd_entry. rewrite He. simpl. eexists. split; [done|].
    destruct (rep_flags t L i e s d R Hp Hi He) as (R' & Hp' & Hc). split; [by exists L|]. split; [|done].
    split_and!; simpl; [done|by rewrite length_insert|lia..].
  - exists t. split; [done|]. split; [|split; [apply tlb_frame_refl|done]]. exists L. split_and!; [done..|]. unfold spec_flags.
    rewrite <- (List.map_id (contents t L)) at 1. apply List.map_ext_in. intros x Hx. apply list_elem_of_In, list_elem_of_omap in Hx as (j & Hj & Hf).
    destruct (tlb t !! j) as [f|] eqn:Ef; [|done]. injection Hf as <-. simpl. destruct (p_page_no f =? p) eqn:Ep; [|done]. zb.
    assert (A : tlb_trie_pa t !! p = Some j) by (apply Hp; split; [done|]; by exists f). congruence.
Qed.

(** ** All operations

    [update_entry] and [update_ppn] change the page of an entry and not the index by physical page, so
    the index can name an entry under a page that it no longer has, and even one that has been given to
    another virtual page.  The specification of all operations therefore shows the slots: the used ones
    in order of use with what they say, the free ones in the order in which they will be taken, and the
    index.  Sequence numbers, valid bits and the scan for the smallest number are gone. *)

Record tlb_spec : Type := mkSpec {
  sp_used : list (nat * translation);
  sp_free : list nat;
  sp_pa : gmap Z nat
}.

Definition slot_has (v : Z) (x : nat * translation) : bool := has_vpn v x.2.
Definition without (v : Z) (l : list (nat * translation)) : list (nat * translation) := List.filter (fun x => negb (slot_has v x)) l.
Definition sp_find (v : Z) (s : tlb_spec) : option (nat * translation) := head (List.filter (slot_has v) (sp_used s)).

Definition sp_touch (v : Z) (s : tlb_spec) : tlb_spec :=
  match sp_find v s with Some x => mkSpec (x :: without v (sp_used s)) (sp_free s) (sp_pa s) | None => s end.
Definition sp_drop (v : Z) (s : tlb_spec) : tlb_spec :=
  match sp_find v s with
  | Some (i, x) => mkSpec (without v (sp_used s)) (sp_free s ++ [i]) (delete (tr_ppn x) (sp_pa s))
  | None => s
  end.
Definition sp_evict (s : tlb_spec) : tlb_spec :=
  match sp_free s, last (sp_used s) with
  | [], Some (i, x) => mkSpec (removelast (sp_used s)) [i] (delete (tr_ppn x) (sp_pa s))
  | _, _ => s
  end.
Definition sp_insert (x : translation) (s : tlb_spec) : tlb_spec :=
  let s := sp_evict s in
  match sp_free s with
  | i :: free => mkSpec ((i, x) :: sp_used s) free (<[tr_ppn x := i]> (sp_pa s))
  | [] => s
  end.
Definition sp_alter (f : translation -> translation) (i : nat) (s : tlb_spec) : tlb_spec :=
  mkSpec (map (fun x => if bool_decide (x.1 = i) then (x.1, f x.2) else x) (sp_used s)) (sp_free s) (sp_pa s).
Definition sp_indexed (f : translation -> translation) (p : Z) (s : tlb_spec) : tlb_spec :=
  match sp_pa s !! p with Some i => sp_alter f i s | None => s end.
Definition sp_update (f : translation -> translation) (v : Z) (s : tlb_spec) : tlb_spec :=
  match sp_find v s with Some (i, _) => sp_alter f i (sp_touch v s) | None => s end.

Definition add_flags (shared dirty : bool) (x : translation) : translation :=
  mkTrans (tr_vpn x) (tr_ppn x) (shared || tr_shared x) (dirty || tr_dirty x).
Definition set_ppn (q : Z) (x : translation) : translation := mkTrans (tr_vpn x) q (tr_shared x) (tr_dirty x).

(** The index names exactly the used slots, under their pages. *)
Definition index_exact (s : tlb_spec) : Prop :=
  forall p i, sp_pa s !! p = Some i <-> exists x, (i, x) ∈ sp_used s /\ tr_ppn x = p.

(** The operations the simulator performs on a buffer. *)
Inductive tlb_op : Type :=
  | OLookup (vpn : Z)
  | OInsert (vpn ppn : Z) (req : MemReq)
  | OShootdown (vpn : Z)
  | OFlags (ppn : Z) (shared dirty : bool)
  | OUpdate (vpn ppn : Z)
  | OMove (ppn new_ppn : Z)
  | ODelete (vpn : Z)
  | OFlush.

Definition tlb_do (t : CommonTlb) (o : tlb_op) : outcome CommonTlb :=
  match o with
  | OLookup v => snd <$> look_up t v true
  | OInsert v p req => snd <$> tlb_insert t v (miss_entry v p req)
  | OShootdown v => snd <$> shootdown t v
  | OFlags p s d => snd <$> update_tlb_flags t p s d
  | OUpdate v p => snd <$> update_entry t v p
  | OMove p q => snd <$> update_ppn t p q
  | ODelete v => snd <$> delete_entry t v
  | OFlush => Ret (flush_all t)
  end.

Definition sp_do (n : nat) (s : tlb_spec) (o : tlb_op) : tlb_spec :=
  match o with
  | OLookup v => sp_touch v s
  | OInsert v p req => sp_insert (mkTrans v p (req_pageShared req) (req_pageDirty req)) s
  | OShootdown v | ODelete v => sp_drop v s
  | OFlags p sh d => sp_indexed (add_flags sh d) p s
  | OUpdate v p => sp_update (set_ppn p) v s
  | OMove p q => sp_indexed (set_ppn q) p s
  | OFlush => mkSpec [] (seq 0 n) ∅
  end.

Definition sp_new (n : nat) : tlb_spec := mkSpec [] (seq 0 n) ∅.

#[global] Instance translation_eq_dec : EqDecision translation.
Proof. solve_decision. Defined.

(** An insertion follows a miss. *)
Definition op_legal (s : tlb_spec) (o : tlb_op) : bool :=
  match o with OInsert v _ _ => bool_decide (sp_find v s = None) | _ => true end.

(** Operations that keep the index exact: no page changes, and a page that comes in is new. *)
Definition op_plain (s : tlb_spec) (o : tlb_op) : bool :=
  match o with
  | OInsert _ p _ => bool_decide (p ∉ map (fun x => tr_ppn x.2) (sp_used s))
  | OUpdate _ _ | OMove _ _ => false
  | _ => true
  end.

Fixpoint ops_all (ok : tlb_spec -> tlb_op -> bool) (n : nat) (s : tlb_spec) (os : list tlb_op) : bool :=
  match os with [] => true | o :: os => ok s o && ops_all ok n (sp_do n s o) os end.

(** *** The abstraction *)

Definition slots (t : CommonTlb) (L : list nat) : list (nat * translation) := zip L (contents t L).

Definition sees_at (t : CommonTlb) (L : list nat) (s : tlb_spec) : Prop :=
  tlb_rep t L /\ sp_used s = slots t L /\ sp_free s = free_entry_list t /\ sp_pa s = tlb_trie_pa t.

Definition tlb_sees (t : CommonTlb) (s : tlb_spec) : Prop := exists L, sees_at t L s.

Lemma slots_cons t i e L : tlb t !! i = Some e -> slots t (i :: L) = (i, entry_trans e) :: slots t L.
Proof. intros E. unfold slots. by rewrite (contents_cons t i e L E). Qed.

Lemma slots_app t L1 L2 : (forall i, i ∈ L1 -> is_Some (tlb t !! i)) -> slots t (L1 ++ L2) = slots t L1 ++ slots t L2.
Proof.
  induction L1 as [|i L1 IH]; intros Hs; [done|]. destruct (Hs i) as [e E]; [set_solver|]. cbn [app].
  rewrite !(slots_cons t i e) by done. rewrite IH by set_solver. done.
Qed.

Lemma slots_in t L i x : (forall j, j ∈ L -> is_Some (tlb t !! j)) -> (i, x) ∈ slots t L <-> i ∈ L /\ exists e, tlb t !! i = Some e /\ entry_trans e = x.
Proof.
  induction L as [|j L IH]; intros Hs; [split; [by intros ?%not_elem_of_nil|set_solver]|]. destruct (Hs j) as [e E]; [set_solver|].
  rewrite (slots_cons t j e L E), !elem_of_cons, IH by set_solver. split.
  - intros [[= -> ->]|[Hi Hx]]; [split; [by left|by exists e]|split; [by right|done]].
  - intros [[->|Hi] (f & Hf & Hx)]; [left; by simplify_eq|right; split; [done|by exists f]].
Qed.

Section Slots.
Context (t : CommonTlb) (L : list nat) (R : tlb_rep t L).

Lemma rep_some i : i ∈ L -> is_Some (tlb t !! i).
Proof. intros Hi. destruct (rep_at t L R i Hi) as [e ->]. done. Qed.

Lemma exact_iff : pa_exact t L <-> index_exact (mkSpec (slots t L) (free_entry_list t) (tlb_trie_pa t)).
Proof.
  unfold pa_exact, index_exact. cbn [sp_pa sp_used]. split; intros H p i; rewrite (H p i).
  - split; [intros (Hi & e & He & Hp); exists (entry_trans e); split; [|done]; apply slots_in; [apply rep_some|split; [done|by exists e]]|].
    intros (x & Hx & Hp). apply slots_in in Hx as (Hi & e & He & <-); [|apply rep_some]. split; [done|]. by exists e.
  - split; [intros (x & Hx & Hp); apply slots_in in Hx as (Hi & e & He & <-); [|apply rep_some]; split; [done|]; by exists e|].
    intros (Hi & e & He & Hp). exists (entry_trans e). split; [|done]. apply slots_in; [apply rep_some|split; [done|by exists e]].
Qed.

Lemma without_other v l : (forall i, i ∈ l -> i ∈ L) -> (forall i e, i ∈ l -> tlb t !! i = Some e -> v_page_no e <> v) ->
  without v (slots t l) = slots t l /\ List.filter (slot_has v) (slots t l) = [].
Proof.
  induction l as [|i l IH]; intros Hl Hv; [done|]. destruct (rep_some i) as [e E]; [apply Hl; set_solver|].
  destruct IH as [IH1 IH2]; [intros; apply Hl; set_solver|intros; eapply Hv; [|done]; set_solver|].
  rewrite (slots_cons t i e) by done. unfold without. cbn [List.filter]. unfold slot_has, has_vpn. cbn [snd entry_trans tr_vpn].
  rewrite (proj2 (Z.eqb_neq _ _)) by (eapply Hv; [|exact E]; set_solver). cbn [negb]. split; [by f_equal|done].
Qed.

Lemma slot_none v : tlb_trie t !! v = None -> List.filter (slot_has v) (slots t L) = [].
Proof.
  intros Hn. apply without_other; [done|]. intros i e Hi He Hv. assert (A : tlb_trie t !! v = Some i) by (apply (tr_trie _ _ R); eauto). congruence.
Qed.

Lemma slot_some v i : tlb_trie t !! v = Some i ->
  exists L1 L2 e, L = L1 ++ i :: L2 /\ tlb t !! i = Some e /\ v_page_no e = v /\ is_valid e = true /\
    head (List.filter (slot_has v) (slots t L)) = Some (i, entry_trans e) /\ without v (slots t L) = slots t (L1 ++ L2).
Proof.
  intros Hs. destruct (find_some t L R v i Hs) as (L1 & L2 & e & HL & He & Hv & Hval & _ & _). exists L1, L2, e.
  assert (Hin : forall j, j ∈ L1 ++ L2 -> j ∈ L) by (intros j; rewrite HL; set_solver).
  assert (Hni : i ∉ L1 ++ L2).
  { pose proof (rep_nodup t L R) as Hn. apply NoDup_app in Hn as [Hn _]. rewrite HL, <- Permutation_middle in Hn. by apply NoDup_cons in Hn as [Hn _]. }
  assert (Hne : forall j f, j ∈ L1 ++ L2 -> tlb t !! j = Some f -> v_page_no f <> v).
  { intros j f Hj Hf Hfv. apply Hni. rewrite (rep_inj t L R i j e f); try done; [rewrite HL; set_solver|by apply Hin|congruence]. }
  destruct (without_other v L1) as [W1 F1]; [set_solver|intros; eapply Hne; set_solver|]. destruct (without_other v L2) as [W2 F2]; [set_solver|intros; eapply Hne; set_solver|].
  assert (Hh : slot_has v (i, entry_trans e) = true) by (unfold slot_has, has_vpn; cbn; by apply Z.eqb_eq).
  assert (Hs1 : forall j, j ∈ L1 -> is_Some (tlb t !! j)) by (intros j Hj; apply rep_some; set_solver).
  split_and!; try done; rewrite HL, slots_app, (slots_cons t i e L2 He) by done.
  - rewrite List.filter_app, F1. cbn [app List.filter]. by rewrite Hh.
  - rewrite slots_app by done. unfold without in *. rewrite List.filter_app, W1. cbn [List.filter]. by rewrite Hh, W2.
Qed.
End Slots.

(** *** Each operation *)

Definition exact_kept (o : tlb_op) (n : nat) (s : tlb_spec) : Prop := index_exact s -> op_plain s o = true -> index_exact (sp_do n s o).

Lemma sees_eta t L s : sees_at t L s -> s = mkSpec (slots t L) (free_entry_list t) (tlb_trie_pa t).
Proof. destruct s. intros (_ & E1 & E2 & E3). simpl in *. by subst. Qed.

Lemma sees_make t L u f pa : tlb_rep t L -> u = slots t L -> f = free_entry_list t -> pa = tlb_trie_pa t -> sees_at t L (mkSpec u f pa).
Proof. by intros R -> -> ->. Qed.

Lemma stamp_fields t i t' : stamp t i = Ret t' -> free_entry_list t' = free_entry_list t /\ tlb_trie_pa t' = tlb_trie_pa t /\ tlb_trie t' = tlb_trie t.
Proof. unfold stamp, next_seq, upd_entry. destruct (_ =? _); [done|]. simpl. destruct (tlb t !! i); [|done]. by intros [= <-]. Qed.

Lemma release_fields t i v p t' : release t i v p = Ret t' -> free_entry_list t' = free_entry_list t ++ [i] /\ tlb_trie_pa t' = delete p (tlb_trie_pa t).
Proof. unfold release, upd_entry. simpl. destruct (tlb t !! i); [|done]. by intros [= <-]. Qed.

(** The lookup that the operations by virtual page begin with. *)
Lemma look_up_sees t L s v : sees_at t L s -> spare_seq t ->
  exists t' L', look_up t v true = Ret (fst <$> sp_find v s, t') /\ sees_at t' L' (sp_touch v s) /\ tlb_frame t t' /\ (pa_exact t L -> pa_exact t' L') /\
    forall i x, sp_find v s = Some (i, x) -> exists e L2, L' = i :: L2 /\ tlb t' !! i = Some e /\ entry_trans e = x /\ v_page_no e = v /\
      without v (sp_used s) = slots t' L2.
Proof.
  intros Hv Hs. pose proof (sees_eta _ _ _ Hv) as ->. destruct Hv as (R & _). unfold look_up, sp_touch, sp_find. cbn [sp_used sp_free sp_pa].
  destruct (tlb_trie t !! v) as [i|] eqn:E.
  - destruct (slot_some t L R v i E) as (L1 & L2 & e & HL & He & Hve & Hval & -> & ->). unfold get_entry. rewrite He. cbn [mbind outcome_bind]. rewrite Hval.
    rewrite HL in R. destruct (rep_stamp t L1 i L2 e R He Hs) as (t' & E' & R' & Hc & H1 & H2 & H3 & H4 & (e' & He' & Ht) & Hp').
    cbn [andb]. rewrite E'. cbn [mbind outcome_bind]. destruct (stamp_fields _ _ _ E') as (F1 & F2 & F3). exists t', (i :: L1 ++ L2).
    assert (Hsl : slots t' (i :: L1 ++ L2) = (i, entry_trans e) :: slots t (L1 ++ L2)) by (unfold slots; by rewrite Hc).
    split_and!; [done|by apply sees_make|split_and!; [done|by eapply stamp_length|lia..]|by rewrite HL|].
    intros j x [= <- <-]. exists e', (L1 ++ L2). split_and!; [done|done|done|by injection Ht; congruence|].
    rewrite (slots_cons t' i e' _ He') in Hsl. by injection Hsl.
  - rewrite (slot_none t L R v E). exists t, L. split_and!; [done|by apply sees_make|apply tlb_frame_refl|done|done].
Qed.

Lemma drop_sees t s v : tlb_sees t s -> spare_seq t ->
  exists r t1, look_up t v true = Ret (r, t1) /\ tlb_frame t t1 /\ (index_exact s -> index_exact (sp_drop v s)) /\
    match r with
    | None => tlb_sees t1 (sp_drop v s)
    | Some i => exists e t', tlb t1 !! i = Some e /\ v_page_no e = v /\ release t1 i v (p_page_no e) = Ret t' /\ tlb_sees t' (sp_drop v s) /\ tlb_frame t t'
    end.
Proof.
  intros [L V] Hs. destruct (look_up_sees t L s v V Hs) as (t1 & L1 & E & V1 & F & Hp & Hm). exists (fst <$> sp_find v s), t1.
  assert (Hx : index_exact s -> pa_exact t1 L1) by (rewrite (sees_eta _ _ _ V); intros H; apply Hp, exact_iff; [apply V|done]).
  unfold sp_drop. unfold sp_touch in V1. destruct (sp_find v s) as [[i x]|] eqn:Ef; cbn [fmap option_fmap option_map fst].
  - destruct (Hm i x eq_refl) as (e & L2 & -> & He & <- & Hve & Hw). destruct V1 as (R1 & _ & Hfr & Hpa). cbn [sp_free sp_pa] in Hfr, Hpa.
    destruct (rep_release t1 [] i L2 e R1 He) as (t' & Er & R' & Hc & H1 & H2 & H3 & H4 & H5 & Hp'). cbn [app] in *. rewrite Hve in Er.
    destruct (release_fields _ _ _ _ _ Er) as (G1 & G2).
    assert (V' : sees_at t' L2 (mkSpec (without v (sp_used s)) (sp_free s ++ [i]) (delete (tr_ppn (entry_trans e)) (sp_pa s)))).
    { apply sees_make; [done|rewrite Hw; unfold slots; by rewrite Hc|by rewrite G1, Hfr|by rewrite G2, Hpa]. }
    split_and!; [done|done|intros Hex; rewrite (sees_eta _ _ _ V'); apply exact_iff; [done|by apply Hp', Hx]|].
    exists e, t'. split_and!; [done|done|done|by exists L2|]. destruct F as (F1 & F2 & F3). split_and!; [congruence|congruence|lia..].
  - split_and!; [done|done|done|by exists L1].
Qed.

Lemma shootdown_sees t s v : tlb_sees t s -> spare_seq t -> exists t', snd <$> shootdown t v = Ret t' /\ tlb_sees t' (sp_drop v s) /\ tlb_frame t t' /\ (index_exact s -> index_exact (sp_drop v s)).
Proof.
  intros V Hs. destruct (drop_sees t s v V Hs) as (r & t1 & E & F & Hx & Hm). unfold shootdown. rewrite E. cbn [mbind outcome_bind]. destruct r as [i|]; [|by exists t1].
  destruct Hm as (e & t' & He & Hv & Er & V' & F'). unfold get_entry. rewrite He. cbn [mbind outcome_bind]. rewrite Er. by exists t'.
Qed.

Lemma delete_sees t s v : tlb_sees t s -> spare_seq t -> exists t', snd <$> delete_entry t v = Ret t' /\ tlb_sees t' (sp_drop v s) /\ tlb_frame t t' /\ (index_exact s -> index_exact (sp_drop v s)).
Proof.
  intros V Hs. destruct (drop_sees t s v V Hs) as (r & t1 & E & F & Hx & Hm). unfold delete_entry. rewrite E. cbn [mbind outcome_bind]. destruct r as [i|]; [|by exists t1].
  destruct Hm as (e & t' & He & Hv & Er & V' & F'). unfold get_entry. rewrite He. cbn [mbind outcome_bind]. rewrite Hv, Er. by exists t'.
Qed.

Lemma miss_entry_trans v p req : entry_trans (miss_entry v p req) = mkTrans v p (req_pageShared req) (req_pageDirty req).
Proof. unfold miss_entry, entry_trans. destruct (req_pageShared req), (req_pageDirty req); reflexivity. Qed.

Lemma miss_entry_pages v p req : v_page_no (miss_entry v p req) = v /\ p_page_no (miss_entry v p req) = p.
Proof. unfold miss_entry. by destruct (req_pageShared req), (req_pageDirty req). Qed.

(** Changing one entry but for its virtual page, its valid bit and its number. *)
Lemma rep_alter t L i e f g :
  tlb_rep t L -> tlb t !! i = Some e -> v_page_no (f e) = v_page_no e -> is_valid (f e) = is_valid e -> lru_seq (f e) = lru_seq e ->
  entry_trans (f e) = g (entry_trans e) ->
  let t' := set_tlb t (<[i := f e]> (tlb t)) in
  tlb_rep t' L /\ slots t' L = map (fun x => if bool_decide (x.1 = i) then (x.1, g x.2) else x) (slots t L).
Proof.
  intros R E V1 V2 V3 V4 t'. assert (Hlt : (i < length (tlb t))%nat) by (by eapply lookup_lt_Some).
  assert (Hl : forall j, tlb t' !! j = if bool_decide (i = j) then Some (f e) else tlb t !! j).
  { intros j. simpl. case_bool_decide; [subst j; by rewrite list_lookup_insert_eq|by rewrite list_lookup_insert_ne]. }
  assert (Hlru : forall j, lru_at t' j = lru_at t j).
  { intros j. unfold lru_at. rewrite Hl. case_bool_decide; [subst j; rewrite E; simpl; congruence|done]. }
  split; [split|].
  - simpl. rewrite length_insert. apply R.
  - intros v j. change (tlb_trie t') with (tlb_trie t). rewrite (tr_trie _ _ R), Hl. case_bool_decide; [subst j; rewrite E|done].
    split; intros (Hj & x & [= <-] & Hx); (split; [done|]); eexists; (split; [done|]); congruence.
  - intros j x Hj. rewrite Hl. case_bool_decide; [|apply (tr_used _ _ R j x Hj)]. subst j. intros [= <-]. rewrite V2, V3. by apply (tr_used _ _ R i e).
  - apply (sorted_mono (fun a b => lru_at t b < lru_at t a)); [|apply R]. intros a b _ _. by rewrite !Hlru.
  - apply R.
  - intros p j. simpl. rewrite length_insert. apply (tr_pa _ _ R).
  - assert (Hk : forall j, j ∈ L -> is_Some (tlb t !! j)) by (by apply rep_some). clear R. induction L as [|j L' IH]; [done|].
    destruct (Hk j) as [x Hx]; [set_solver|]. rewrite (slots_cons t j x) by done. rewrite (slots_cons t' j (if bool_decide (i = j) then f e else x)) by (rewrite Hl; by case_bool_decide).
    cbn [map fst snd]. rewrite IH by set_solver. f_equal. destruct (decide (i = j)) as [->|]; [rewrite !bool_decide_true by done; rewrite E in Hx; injection Hx as <-; by rewrite V4|].
    by rewrite !bool_decide_false by done.
Qed.

Lemma alter_sees t L s i f g :
  sees_at t L s -> (i < length (tlb t))%nat -> (forall e, v_page_no (f e) = v_page_no e /\ is_valid (f e) = is_valid e /\ lru_seq (f e) = lru_seq e /\ entry_trans (f e) = g (entry_trans e)) ->
  exists t', upd_entry t i f = Ret t' /\ sees_at t' L (sp_alter g i s) /\ tlb_frame t t' /\ tlb_lru_seq t' = tlb_lru_seq t.
Proof.
  intros V Hi Hf. destruct (lookup_lt_is_Some_2 _ _ Hi) as [e E]. unfold upd_entry. rewrite E. eexists. split; [done|].
  destruct (Hf e) as (V1 & V2 & V3 & V4). pose proof (sees_eta _ _ _ V) as ->. destruct V as (R & _).
  destruct (rep_alter t L i e f g R E V1 V2 V3 V4) as [R' Hs]. split; [by apply sees_make|]. split; [|done].
  split_and!; simpl; [done|by rewrite length_insert|lia..].
Qed.

Lemma flags_alter sh d e :
  v_page_no (flag_update sh d e) = v_page_no e /\ is_valid (flag_update sh d e) = is_valid e /\ lru_seq (flag_update sh d e) = lru_seq e /\
  entry_trans (flag_update sh d e) = add_flags sh d (entry_trans e).
Proof.
  destruct (flag_update_same sh d e) as (V1 & V2 & V3), (flag_update_spec sh d e) as (W1 & W2 & W3). split_and!; [done..|].
  unfold entry_trans, add_flags. by rewrite V1, V2, W1, W2.
Qed.

Lemma flags_sees t s p sh d : tlb_sees t s ->
  exists t', snd <$> update_tlb_flags t p sh d = Ret t' /\ tlb_sees t' (sp_indexed (add_flags sh d) p s) /\ tlb_frame t t'.
Proof.
  intros [L V]. unfold update_tlb_flags, look_up_pa, sp_indexed. pose proof V as (R & _ & _ & ->). destruct (tlb_trie_pa t !! p) as [i|] eqn:Ei; [|exists t; split_and!; [done|by exists L|apply tlb_frame_refl]].
  destruct (alter_sees t L s i (flag_update sh d) (add_flags sh d) V) as (t' & E & V' & F & _); [by eapply (tr_pa _ _ R)|apply flags_alter|].
  unfold flag_update in E. rewrite E. exists t'. split_and!; [done|by exists L|done].
Qed.

Lemma move_sees t s p q : tlb_sees t s ->
  exists t', snd <$> update_ppn t p q = Ret t' /\ tlb_sees t' (sp_indexed (set_ppn q) p s) /\ tlb_frame t t'.
Proof.
  intros [L V]. unfold update_ppn, look_up_pa, sp_indexed. pose proof V as (R & _ & _ & ->). destruct (tlb_trie_pa t !! p) as [i|] eqn:Ei; [|exists t; split_and!; [done|by exists L|apply tlb_frame_refl]].
  destruct (alter_sees t L s i (fun e => entry_update_ppn e q) (set_ppn q) V) as (t' & -> & V' & F & _); [by eapply (tr_pa _ _ R)|done|].
  exists t'. split_and!; [done|by exists L|done].
Qed.

Lemma update_sees t s v q : tlb_sees t s -> spare_seq t ->
  exists t', snd <$> update_entry t v q = Ret t' /\ tlb_sees t' (sp_update (set_ppn q) v s) /\ tlb_frame t t'.
Proof.
  intros [L V] Hs. destruct (look_up_sees t L s v V Hs) as (t1 & L1 & E & V1 & F & _ & Hm). unfold update_entry, sp_update. rewrite E. cbn [mbind outcome_bind].
  destruct (sp_find v s) as [[i x]|] eqn:Ef; cbn [fmap option_fmap option_map fst].
  - destruct (Hm i x eq_refl) as (e & L2 & _ & He & _). destruct (alter_sees t1 L1 _ i (fun e => entry_update_ppn e q) (set_ppn q) V1) as (t' & -> & V' & F' & Fs); [by eapply lookup_lt_Some|done|].
    exists t'. split_and!; [done|by exists L1|]. destruct F as (F1 & F2 & F3), F' as (G1 & G2 & G3). split_and!; [congruence|congruence|lia..].
  - exists t1. unfold sp_touch in V1. rewrite Ef in V1. split_and!; [done|by exists L1|done].
Qed.

Lemma evict_sees t L s : sees_at t L s -> (0 < length (tlb t))%nat -> evict_policy (tlb_cfg t) = LRU ->
  exists t0 L0, match free_entry_list t with [] => '(_, t) ← tlb_evict (add_counters t 0 0 0 1); Ret t | _ => Ret t end = Ret t0 /\
    sees_at t0 L0 (sp_evict s) /\ tlb_cfg t0 = tlb_cfg t /\ length (tlb t0) = length (tlb t) /\ tlb_lru_seq t0 = tlb_lru_seq t /\
    (exists i free, free_entry_list t0 = i :: free) /\ (forall v, tlb_trie t !! v = None -> tlb_trie t0 !! v = None) /\ (pa_exact t L -> pa_exact t0 L0) /\
    (forall x, x ∈ contents t0 L0 -> x ∈ contents t L).
Proof.
  intros V Hn Hpol. pose proof (sees_eta _ _ _ V) as ->. destruct V as (R & _). unfold sp_evict. cbn [sp_free sp_used sp_pa].
  destruct (free_entry_list t) as [|i free] eqn:Hf; [|exists t, L; split_and!; try done; by first [apply sees_make|exists i, free]].
  pose proof (tr_slots _ _ R) as HP. rewrite Hf, app_nil_r in HP.
  destruct (exists_last (l := L)) as (L1 & i & ->); [intros ->; apply Permutation_length in HP; rewrite length_seq in HP; simpl in HP; lia|].
  destruct (rep_at _ _ R i) as [e E]; [set_solver|].
  set (tc := add_counters t 0 0 0 1). assert (Rc : tlb_rep tc (L1 ++ [i])) by (destruct R; by split).
  unfold tlb_evict. change (evict_policy (tlb_cfg tc)) with (evict_policy (tlb_cfg t)). rewrite Hpol, (lru_evict_last tc L1 i Rc Hf). cbn [mbind outcome_bind].
  unfold get_entry. change (tlb tc) with (tlb t). rewrite E. cbn [mbind outcome_bind].
  assert (Ht : tlb_trie t !! v_page_no e = Some i) by (apply (tr_trie _ _ R); split; [set_solver|eauto]).
  change (tlb_trie tc) with (tlb_trie t). rewrite Ht, bool_decide_true by done. cbn [assert_ mbind outcome_bind].
  destruct (rep_release tc L1 i [] e Rc E) as (t' & Er & R' & Hc & H1 & H2 & H3 & H4 & H5 & Hp'). rewrite Er. cbn [mbind outcome_bind].
  destruct (release_fields _ _ _ _ _ Er) as (G1 & G2). change (free_entry_list tc) with (free_entry_list t) in G1. rewrite Hf in G1. rewrite app_nil_r in *.
  assert (Hsl : slots t (L1 ++ [i]) = slots t L1 ++ [(i, entry_trans e)]).
  { rewrite slots_app by (intros j Hj; apply (rep_some t _ R); set_solver). by rewrite (slots_cons t i e [] E). }
  rewrite Hsl, last_snoc, removelast_last. exists t', L1. split_and!; try done.
  - apply sees_make; [done|unfold slots; by rewrite Hc|by rewrite G1|by rewrite G2].
  - by exists i, [].
  - intros v Hv. rewrite H5. by apply lookup_delete_None; right.
  - rewrite Hc. intros x Hx. change (contents tc L1) with (contents t L1) in Hx. rewrite contents_app. set_solver.
Qed.

Lemma insert_sees t s v p req :
  tlb_sees t s -> spare_seq t -> (0 < length (tlb t))%nat -> evict_policy (tlb_cfg t) = LRU -> sp_find v s = None ->
  let x := mkTrans v p (req_pageShared req) (req_pageDirty req) in
  exists t', snd <$> tlb_insert t v (miss_entry v p req) = Ret t' /\ tlb_sees t' (sp_insert x s) /\ tlb_frame t t' /\
    (index_exact s -> p ∉ map (fun x => tr_ppn x.2) (sp_used s) -> index_exact (sp_insert x s)).
Proof.
  intros [L V] Hs Hn Hpol Hf x. destruct (miss_entry_pages v p req) as [V1 V2]. pose proof (miss_entry_trans v p req) as V3. fold x in V3.
  assert (Ht : tlb_trie t !! v = None).
  { destruct (tlb_trie t !! v) as [i|] eqn:Ei; [|done]. pose proof (sees_eta _ _ _ V) as ->. destruct V as (R & _).
    destruct (slot_some t L R v i Ei) as (? & ? & ? & _ & _ & _ & _ & Hs' & _). unfold sp_find in Hf. cbn [sp_used] in Hf. congruence. }
  destruct (evict_sees t L s V Hn Hpol) as (t0 & L0 & E0 & V0 & C1 & C2 & C3 & (i & free & Hfr) & C4 & C5 & C6). unfold tlb_insert.
  rewrite Ht, bool_decide_true by done. cbn [assert_ mbind outcome_bind]. rewrite E0. cbn [mbind outcome_bind]. rewrite Hfr. unfold sp_insert.
  pose proof (sees_eta _ _ _ V0) as Es. destruct V0 as (R0 & _). rewrite Es. cbn [sp_free sp_used sp_pa]. rewrite Hfr.
  destruct (place_ok t0 L0 i free v (miss_entry v p req) R0 Hfr) as (t1 & t2 & e & -> & E2 & He & Hpe & R' & Hc' & F' & P1 & P2 & Hp'); [unfold spare_seq in *; lia|by apply C4|done|].
  cbn [mbind outcome_bind]. rewrite E2. cbn [mbind outcome_bind]. unfold get_entry. rewrite He. cbn [mbind outcome_bind].
  set (t' := set_tries t2 _ _) in *. exists t'. split; [done|]. assert (V' : sees_at t' (i :: L0) (mkSpec ((i, x) :: slots t0 L0) free (<[tr_ppn x := i]> (tlb_trie_pa t0)))).
  { apply sees_make; [done|unfold slots; by rewrite Hc', V3|done|rewrite P1, V2; done]. }
  split; [by exists (i :: L0)|]. split; [destruct F' as (F1 & F2 & F3); split_and!; [congruence|congruence|lia..]|].
  intros Hex Hnew. rewrite (sees_eta _ _ _ V'). apply exact_iff; [done|]. pose proof (sees_eta _ _ _ V) as Es'. rewrite Es' in Hex, Hnew.
  apply Hp'; [apply C5, exact_iff; [apply V|done]|]. rewrite V2. intros Hx. apply Hnew. cbn [sp_used]. apply list_elem_of_fmap in Hx as (y & -> & Hy).
  apply C6 in Hy. apply list_elem_of_omap in Hy as (j & Hj & Ey). destruct (tlb t !! j) as [f|] eqn:Ef; [|done]. injection Ey as <-.
  apply list_elem_of_fmap. exists (j, entry_trans f). split; [done|]. apply slots_in; [apply rep_some, V|]. split; [done|]. by exists f.
Qed.

Lemma flush_sees t s : tlb_sees t s -> tlb_sees (flush_all t) (mkSpec [] (seq 0 (length (tlb t))) ∅) /\ tlb_frame t (flush_all t).
Proof.
  intros (L & R & _). split; [|split_and!; simpl; [done|apply length_fmap|lia..]]. exists []. apply sees_make; try done. split; simpl.
  - by rewrite length_fmap.
  - intros v i. rewrite lookup_empty. set_solver.
  - set_solver.
  - constructor.
  - apply R.
  - intros p i. by rewrite lookup_empty.
Qed.

Lemma add_flags_exact sh d p s : index_exact s -> index_exact (sp_indexed (add_flags sh d) p s).
Proof.
  intros H. unfold sp_indexed. destruct (sp_pa s !! p) as [i|]; [|done]. intros q j. cbn [sp_pa sp_alter sp_used]. rewrite (H q j). split.
  - intros (x & Hx & Hq). destruct (decide (j = i)) as [->|Hn].
    + exists (add_flags sh d x). split; [|done]. apply list_elem_of_fmap. exists (i, x). by rewrite bool_decide_true.
    + exists x. split; [|done]. apply list_elem_of_fmap. exists (j, x). by rewrite bool_decide_false.
  - intros (x & Hx & Hq). apply list_elem_of_fmap in Hx as ([k y] & E & Hy). cbn [fst snd] in E. case_bool_decide; simplify_eq; by eexists.
Qed.

Lemma touch_exact v t L s : sees_at t L s -> spare_seq t -> index_exact s -> index_exact (sp_touch v s).
Proof.
  intros V Hs Hx. destruct (look_up_sees t L s v V Hs) as (t1 & L1 & _ & V1 & _ & Hp & _). rewrite (sees_eta _ _ _ V1). apply exact_iff; [apply V1|].
  apply Hp, exact_iff; [apply V|]. by rewrite <- (sees_eta _ _ _ V).
Qed.

Lemma tlb_do_sees t s o :
  tlb_sees t s -> spare_seq t -> (0 < length (tlb t))%nat -> evict_policy (tlb_cfg t) = LRU -> op_legal s o = true ->
  exists t', tlb_do t o = Ret t' /\ tlb_sees t' (sp_do (length (tlb t)) s o) /\ tlb_frame t t' /\ exact_kept o (length (tlb t)) s.
Proof.
  intros V Hs Hn Hp Ho. unfold exact_kept. destruct o as [v|v p req|v|p sh d|v p|p q|v|]; simpl in *.
  - destruct V as [L V]. destruct (look_up_sees t L s v V Hs) as (t' & L' & -> & V' & F & _). exists t'. split_and!; [done|by exists L'|done|]. intros Hx _. by eapply touch_exact.
  - zb. destruct (insert_sees t s v p req V Hs Hn Hp Ho) as (t' & E & V' & F & Hx). exists t'. split_and!; try done. intros Hex Hpl. apply bool_decide_eq_true in Hpl. by apply Hx.
  - destruct (shootdown_sees t s v V Hs) as (t' & E & V' & F & Hx). exists t'. split_and!; try done. auto.
  - destruct (flags_sees t s p sh d V) as (t' & E & V' & F). exists t'. split_and!; try done. intros Hx _. by apply add_flags_exact.
  - destruct (update_sees t s v p V Hs) as (t' & E & V' & F). by exists t'.
  - destruct (move_sees t s p q V) as (t' & E & V' & F). by exists t'.
  - destruct (delete_sees t s v V Hs) as (t' & E & V' & F & Hx). exists t'. split_and!; try done. auto.
  - destruct (flush_sees t s V) as [V' F]. eexists. split_and!; try done. intros _ _ p i. cbn [sp_pa sp_used]. rewrite lookup_empty. split; [done|]. by intros (x & ?%not_elem_of_nil & _).
Qed.

Lemma newTlb_sees cfg memory seq0 t : 0 <= seq0 < 2 ^ 31 -> newTlb cfg memory seq0 = Ret t ->
  tlb_sees t (sp_new (length memory)) /\ tlb_cfg t = cfg /\ length (tlb t) = length memory /\ (0 < length (tlb t))%nat /\ tlb_lru_seq t = seq0.
Proof.
  intros Hs E. unfold newTlb in E. outcome_steps. zb. simpl. split_and!; [|done|done|lia|done]. exists []. apply sees_make; try done. split; simpl; try done.
  - intros v i. rewrite lookup_empty. set_solver.
  - set_solver.
  - constructor.
Qed.

Lemma tlb_run_sees os t s :
  tlb_sees t s -> (0 < length (tlb t))%nat -> evict_policy (tlb_cfg t) = LRU -> tlb_lru_seq t + Z.of_nat (length os) < 2 ^ 31 ->
  ops_all op_legal (length (tlb t)) s os = true ->
  exists t', fold_ tlb_do os t = Ret t' /\ tlb_sees t' (foldl (sp_do (length (tlb t))) s os) /\ length (tlb t') = length (tlb t) /\
    tlb_lru_seq t' <= tlb_lru_seq t + Z.of_nat (length os) /\
    (index_exact s -> ops_all op_plain (length (tlb t)) s os = true -> index_exact (foldl (sp_do (length (tlb t))) s os)).
Proof.
  revert t s. induction os as [|o os IH]; intros t s V Hn Hp Hs Ho; simpl in *; [exists t; split_and!; (done || lia)|]. zb.
  destruct (tlb_do_sees t s o) as (t1 & -> & V1 & (F1 & F2 & F3) & Hx); try done; [unfold spare_seq; lia|]. cbn [mbind outcome_bind].
  destruct (IH t1 (sp_do (length (tlb t)) s o)) as (t' & E & V' & H1 & H2 & H3); rewrite ?F1, ?F2; try done; [lia|].
  exists t'. rewrite F2 in V', H3. split_and!; [done|done|congruence|lia|]. intros Hex Hpl. zb. apply H3; [by apply Hx|done].
Qed.

(** A buffer whose index is exact holds the translations of the specification. *)
Lemma sees_is t s : tlb_sees t s -> index_exact s -> tlb_is t (map snd (sp_used s)).
Proof.
  intros (L & V) Hx. pose proof V as (R & Hu & _). rewrite (sees_eta t L s V) in Hx. exists L. split_and!; [done|by apply exact_iff|].
  rewrite Hu. unfold slots. symmetry. apply snd_zip. by rewrite contents_length.
Qed.

Lemma sp_new_exact n : index_exact (sp_new n).
Proof. intros p i. simpl. rewrite lookup_empty. split; [done|]. by intros (x & Hx%not_elem_of_nil & _). Qed.

Lemma newTlb_is cfg memory seq0 t : 0 <= seq0 < 2 ^ 31 -> newTlb cfg memory seq0 = Ret t ->
  tlb_is t [] /\ tlb_cfg t = cfg /\ length (tlb t) = length memory /\ (0 < length (tlb t))%nat /\ tlb_lru_seq t = seq0.
Proof. intros Hs E. destruct (newTlb_sees cfg memory seq0 t Hs E) as (V & Hrest). split; [|done]. exact (sees_is t _ V (sp_new_exact _)). Qed.

(** ** Properties *)

(** C13: A buffer with LRU replacement whose sequence counter, which no constructor sets, starts at no negative number
    is, over any sequence of lookups, insertions after a miss, shootdowns, deletions, flushes, and
    updates of flags and of physical pages, short enough that the counter does not overflow, the list of its translations in order of use: a
    lookup moves its entry to the front, an insertion into a full buffer drops the entry used longest
    ago and takes its slot, and otherwise takes the slot that has been free the longest.  No operation
    stops; a lookup answers the slot the list has and finds its translation there; slots are neither lost
    nor duplicated.  Flags and new pages go to the entry that the index by physical page names; as long as no page
    was changed and pages came in under one virtual page only, these are exactly the entries with that page. *)
Theorem tlb_refines_lru cfg memory seq0 t os v :
  newTlb cfg memory seq0 = Ret t -> evict_policy cfg = LRU -> 0 <= seq0 -> seq0 + Z.of_nat (length os) < 2 ^ 31 - 1 ->
  let n := length memory in
  ops_all op_legal n (sp_new n) os = true ->
  let s := foldl (sp_do n) (sp_new n) os in
  (sp_used s).*1 ++ sp_free s ≡ₚ seq 0 n /\
  (exists t' t'', fold_ tlb_do os t = Ret t' /\ tlb_sees t' s /\ look_up t' v true = Ret (fst <$> sp_find v s, t'') /\ tlb_sees t'' (sp_touch v s) /\
    (forall p, look_up_pa t' p = sp_pa s !! p) /\
    (forall i x, sp_find v s = Some (i, x) -> exists e, tlb t'' !! i = Some e /\ entry_trans e = x)) /\
  (ops_all op_plain n (sp_new n) os = true -> index_exact s).
Proof.
  intros E Hp Hs0 Hs n Ho s. destruct (newTlb_sees cfg memory seq0 t ltac:(lia) E) as (V & Hc & Hl & Hn & Hq).
  destruct (tlb_run_sees os t (sp_new n) V Hn) as (t' & E' & [L V'] & L' & S' & Hx); [congruence|rewrite Hq; lia|by rewrite Hl|]. rewrite Hl in V', Hx. fold n s in V', Hx.
  split_and!.
  - rewrite (sees_eta _ _ _ V'). cbn [sp_used sp_free]. destruct V' as (R & _). unfold slots. rewrite fst_zip by (rewrite contents_length; done). rewrite (tr_slots _ _ R). by rewrite L', Hl.
  - destruct (look_up_sees t' L s v V') as (t'' & L'' & El & V'' & _ & _ & Hm); [unfold spare_seq; lia|]. exists t', t''. split_and!; [done|by exists L|done|by exists L''| |].
    + intros p. unfold look_up_pa. by rewrite (sees_eta _ _ _ V').
    + intros i x Hi. destruct (Hm i x Hi) as (e & _ & _ & He & Hx' & _). by exists e.
  - intros Hpl. apply Hx; [|done]. intros p i. cbn [sp_new sp_pa sp_used]. rewrite lookup_empty. split; [done|]. by intros (x & ?%not_elem_of_nil & _).
Qed.

Definition demo_tlb_config : tlb_config := mkTlbConfig true 1 1 6 12 LRU 0 64.
Definition demo_entry : TlbEntry := mkTlbEntry 99 98 16 7.
Definition demo_req (line : Z) : MemReq := mkMemReq line false 100 0 0 false true false false.
Definition demo_ops : list tlb_op :=
  [OInsert 5 50 (demo_req 0); OInsert 6 60 (demo_req 0); OLookup 5; OFlags 60 true false; OInsert 7 70 (demo_req 0); OShootdown 8;
   OUpdate 5 51; OMove 50 52; OFlags 51 true false].

(** With two entries, the third insertion drops page 6, not page 5; the index knows page 5 by
    its first physical page only. *)
Lemma tlb_refines_lru_witness :
  foldl (sp_do 2) (sp_new 2) demo_ops = mkSpec [(0%nat, mkTrans 5 52 false true); (1%nat, mkTrans 7 70 false true)] [] {[50 := 0%nat; 70 := 1%nat]} /\
  exists t t' t'', newTlb demo_tlb_config [demo_entry; demo_entry] 3 = Ret t /\ fold_ tlb_do demo_ops t = Ret t' /\ look_up t' 6 true = Ret (None, t'') /\ look_up_pa t' 52 = None.
Proof.
  split; [vm_compute; reflexivity|]. eexists.
  destruct (tlb_refines_lru demo_tlb_config [demo_entry; demo_entry] 3 _ demo_ops 6 eq_refl eq_refl) as (_ & (t' & t'' & E & _ & El & _ & Hpa & _) & _).
  - lia.
  - vm_compute. reflexivity.
  - vm_compute. reflexivity.
  - exists t', t''. split; [reflexivity|]. split; [exact E|]. split; [exact El|]. exact (Hpa 52).
Defined.

(** The counter [lru_seq] is not initialised.  From a negative value the numbers
    stored in the entries wrap: of the pages 5 and 6, used in that order, the newer
    is the one that is dropped. *)
Lemma negative_seq_evicts_newer :
  exists t t', newTlb demo_tlb_config [demo_entry; demo_entry] (-2) = Ret t /\
    fold_ tlb_do [OInsert 5 50 (demo_req 0); OInsert 6 60 (demo_req 0); OInsert 7 70 (demo_req 0)] t = Ret t' /\
    tlb_trie t' !! 5 = Some 0%nat /\ tlb_trie t' !! 6 = None.
Proof. eexists _, _. split; [reflexivity|]. split; [vm_compute; reflexivity|]. split; vm_compute; reflexivity. Qed.

(** [update_ppn] changes the page of an entry and not the index by physical page:
    the entry is still found under the old page, and not under the new one. *)
Lemma update_ppn_keeps_index t p q i lat t' :
  look_up_pa t p = Some i -> update_ppn t p q = Ret (lat, t') ->
  look_up_pa t' p = Some i /\ look_up_pa t' q = look_up_pa t q /\ exists e, tlb t' !! i = Some e /\ p_page_no e = q.
Proof.
  intros Hp E. unfold update_ppn in E. rewrite Hp in E. apply bind_ret_inv in E as (t1 & E1 & E). injection E as _ <-.
  unfold upd_entry in E1. destruct (tlb t !! i) as [e|] eqn:He; [|done]. injection E1 as <-. split_and!; [done..|].
  eexists. simpl. rewrite list_lookup_insert_eq by (by eapply lookup_lt_Some). done.
Qed.
