(* ===== verification/Reversed.v ===== *)
(** * Page tables with a reversed index

    The object a page-table walker holds is a [BasePaging]: a [LongModePaging]
    (PageTable.v), or a [ReversedPaging] around one
    (src/src/page-table/reversed_page_table.h, reversed_page_table.cpp), which
    also keeps a map from physical pages to the entries that lead to them and
    can move a page with [remap_page_table].  The counter [remapped_times] of an
    entry, a statistic, is not modelled. *)

From S2P Require Import Prelude Bits Buddy PageTable.

(** [pgt_entry] is a pointer to an entry: a table and an index. *)
Record Content : Type := mkContent { pgt_entry : Z * Z; content_vpn : Z }.

(** [reversed_pgt] is [None] for a plain [LongModePaging]. *)
Record BasePaging (A : Type) : Type := mkBase {
  lm : paging A;
  reversed_pgt : option (gmap Z Content);
  remapped_page_num : Z
}.
Arguments mkBase {A}.
Arguments lm {A}.
Arguments reversed_pgt {A}.
Arguments remapped_page_num {A}.

Section Reversed.
Context {A : Type} `{PageSource A}.

Definition set_lm (b : BasePaging A) (p : paging A) : BasePaging A := mkBase p (reversed_pgt b) (remapped_page_num b).

Definition newBase (m : PagingStyle) (reversed : bool) (a : A) : outcome (BasePaging A) :=
  p ← newPaging m a; Ret (mkBase p (if reversed then Some ∅ else None) 0).

(** The new page enters the index, in which it must not be. *)
Definition index_page (b : BasePaging A) (ppn vpn : Z) (e : Z * Z) : outcome (BasePaging A) :=
  match reversed_pgt b with
  | None => Ret b
  | Some r =>
      _ ← assert_ (bool_decide (r !! ppn = None));
      Ret (mkBase (lm b) (Some (<[ppn := mkContent e vpn]> r)) (remapped_page_num b))
  end.

(** [map_page_table(addr, pg_ptr)]. *)
Definition base_map (mt shift : Z) (b : BasePaging A) (addr page : Z) : outcome (Z * BasePaging A) :=
  '(latency, t, i, p) ← map_page_table mt (lm b) addr page;
  b ← index_page (set_lm b p) page (Z.shiftr addr shift) (t, i);
  Ret (latency, b).

(** [map_page_table(req_id, addr, pg_ptr, is_write)]. *)
Definition base_map_for (mt shift : Z) (b : BasePaging A) (req_id addr page : Z) (is_write : bool) : outcome (Z * BasePaging A) :=
  '(latency, t, i, p) ← map_page_table mt (lm b) addr page;
  b ← index_page (set_lm b p) page (Z.shiftr addr shift) (t, i);
  p ← note_request (lm b) t i req_id is_write;
  Ret (latency, set_lm b p).

Definition base_access (shift : Z) (b : BasePaging A) (addr srcId : Z) (is_puts shared dirty : bool)
  : outcome (walk_result * BasePaging A) :=
  '(w, p) ← access shift (lm b) addr srcId is_puts shared dirty; Ret (w, set_lm b p).

(** [is_page_shared(ppn)] of [ReversedPaging]. *)
Definition base_page_shared (b : BasePaging A) (ppn : Z) : outcome bool :=
  match reversed_pgt b with
  | None => Ret false
  | Some r =>
      match r !! ppn with
      | None => Stop AssertFailed
      | Some c => e ← entry (lm b) (fst (pgt_entry c)) (snd (pgt_entry c)); Ret (is_shared e)
      end
  end.

Definition set_next_level_address (e : BasePDTEntry) (page : Z) : BasePDTEntry :=
  mkPDTEntry (entry_bits e) (Some (PPage page)) (last_requester e) (page_assigned e).

(** The part of [remap_page_table] after the descriptors of both pages were found:
    the entry is stored under its new page, then the old page is erased. *)
Definition remap_entry (mt : Z) (b : BasePaging A) (ppn dst_ppn : Z) : outcome (Z * BasePaging A) :=
  match reversed_pgt b with
  | None => Ret (0, b)
  | Some r =>
      match r !! ppn with
      | None => Ret (0, b)
      | Some c =>
          let '(t, i) := pgt_entry c in
          e ← entry (lm b) t i;
          p ← put_entry (lm b) t i (set_next_level_address e dst_ppn);
          Ret (mt, mkBase p (Some (delete ppn (<[dst_ppn := c]> r))) (remapped_page_num b + 1))
      end
  end.
End Reversed.

(** [MemoryNode::get_page_ptr] on the node of the allocator. *)
Definition node_page_ptr (b : BuddyAllocator) (ppn : Z) : outcome BuddyAllocator :=
  '(_, n) ← get_page_ptr (node_pages (mem_node b)) ppn;
  Ret (mkBuddy (mkMemoryNode n (node_zones (mem_node b))) (free_page_num b)).

Definition remap_page_table (mt : Z) (b : BasePaging BuddyAllocator) (ppn dst_ppn : Z) : outcome (Z * BasePaging BuddyAllocator) :=
  a ← node_page_ptr (source (lm b)) ppn;
  a ← node_page_ptr a dst_ppn;
  remap_entry mt (set_lm b (set_source (lm b) a)) ppn dst_ppn.

(** ** The index and the map of the tables *)

Section Theory.
Context {A : Type} `{PageSource A}.
Implicit Types b : BasePaging A.

Definition page_of_content (m : PagingStyle) (c : Content) : Z := content_vpn c mod 2 ^ (9 * Z.of_nat (depth m)).

(** The entry of the content is the one its virtual page is translated by. *)
Definition located (p : paging A) (c : Content) : Prop :=
  exists lt addr, walk p (pml4 p) lt = Some (PTable (fst (pgt_entry c))) /\ lt ++ [snd (pgt_entry c)] = ids (mode p) addr /\
    vpn (mode p) addr = page_of_content (mode p) c.

Definition index_ok b (M : gmap Z Z) : Prop :=
  match reversed_pgt b with
  | None => True
  | Some r =>
      (forall g c, r !! g = Some c -> located (lm b) c /\ M !! page_of_content (mode (lm b)) c = Some g) /\
      (forall v g, M !! v = Some g -> exists c, r !! g = Some c /\ page_of_content (mode (lm b)) c = v)
  end.

Lemma located_kept p p' c : tables_kept p p' -> mode p' = mode p -> located p c -> located p' c.
Proof. intros [_ K] Hm (lt & addr & Hw & Hl & Hv). exists lt, addr. rewrite Hm. split_and!; auto. Qed.

(** The representation of a state as a finite map. *)
Definition base_is b (M : gmap Z Z) : Prop := represents (lm b) M /\ index_ok b M.

Lemma index_kept b M p : index_ok b M -> tables_kept (lm b) p -> mode p = mode (lm b) -> index_ok (set_lm b p) M.
Proof.
  unfold index_ok. simpl. destruct (reversed_pgt b) as [r|]; [|done]. intros [I1 I2] K Hm. rewrite Hm. split; [|exact I2].
  intros g c Hc. destruct (I1 g c Hc). split; [by eapply located_kept|done].
Qed.

(** A walk leaves the allocator and the counters alone. *)
Lemma access_static shift (p p' : paging A) addr srcId puts sh di w :
  access shift p addr srcId puts sh di = Ret (w, p') -> source p' = source p /\ cur_pdp_num p' = cur_pdp_num p.
Proof.
  intros E. unfold access, touch_entry, put_entry in E.
  repeat match goal with
  | X : (_ ≫= _) = Ret _ |- _ => apply bind_ret_inv in X as (? & ? & X)
  | X : Ret _ = Ret _ |- _ => injection X as <- <-
  | X : Ret _ = Ret _ |- _ => injection X as <-
  | X : Stop _ = Ret _ |- _ => discriminate X
  | X : match ?x with _ => _ end = Ret _ |- _ => destruct x
  end; done.
Qed.

Lemma base_access_ok shift b M addr srcId puts sh di :
  base_is b M ->
  exists w b', base_access shift b addr srcId puts sh di = Ret (w, b') /\ w_page w = M !! vpn (mode (lm b)) addr /\ base_is b' M /\
    mode (lm b') = mode (lm b) /\ tables_kept (lm b) (lm b') /\ source (lm b') = source (lm b) /\ cur_pdp_num (lm b') = cur_pdp_num (lm b).
Proof.
  intros [R I]. destruct (access_ok shift (lm b) M addr srcId puts sh di R) as (w & p & E & Hw & R' & M' & K & _).
  unfold base_access. rewrite E. simpl. apply access_static in E as [E1 E2]. exists w, (set_lm b p).
  split_and!; try done; [by rewrite Hw; apply R|]. split; [done|by apply index_kept].
Qed.

Lemma vpn_shift m addr : vpn m addr = Z.shiftr addr (page_bits m) mod 2 ^ (9 * Z.of_nat (depth m)).
Proof. unfold vpn. rewrite Z.shiftr_div_pow2; [done|]. destruct m; simpl; lia. Qed.

(** Mapping a page that is in no table yet. *)
Lemma index_page_ok b M p addr page t i :
  base_is b M -> represents p (<[vpn (mode p) addr := page]> M) -> mode p = mode (lm b) -> tables_kept (lm b) p -> M !! vpn (mode p) addr = None ->
  (forall v, M !! v <> Some page) -> (exists lt, walk p (pml4 p) lt = Some (PTable t) /\ lt ++ [i] = ids (mode p) addr) ->
  exists b', index_page (set_lm b p) page (Z.shiftr addr (page_bits (mode p))) (t, i) = Ret b' /\ base_is b' (<[vpn (mode p) addr := page]> M) /\ lm b' = p.
Proof.
  intros [_ I] R Hm K Hnew Hfresh (lt & Hw & Hl). unfold index_page, index_ok in *. simpl. destruct (reversed_pgt b) as [r|] eqn:Er.
  2:{ eexists. split; [done|]. split; [|done]. split; [done|]. unfold index_ok. simpl. by rewrite Er. }
  destruct I as [I1 I2]. assert (Hr : r !! page = None).
  { destruct (r !! page) as [c|] eqn:Ec; [|done]. destruct (I1 _ _ Ec) as [_ Hc]. by destruct (Hfresh _ Hc). }
  rewrite bool_decide_true by done. simpl. eexists. split; [done|]. split; [|done]. split; [done|]. unfold index_ok. simpl. split.
  - intros g c Hc. apply lookup_insert_Some in Hc as [[<- <-]|[Hne Hc]].
    + split; [exists lt, addr; simpl; split_and!; try done; apply vpn_shift|]. unfold page_of_content. simpl. rewrite <- vpn_shift. by rewrite lookup_insert_eq.
    + destruct (I1 g c Hc) as [L1 L2]. split; [by eapply located_kept|]. rewrite lookup_insert_ne; [by rewrite Hm|]. intros Hv. rewrite <- Hm in L2. congruence.
  - intros v g Hv. apply lookup_insert_Some in Hv as [[<- <-]|[Hne Hv]].
    + eexists. rewrite lookup_insert_eq. split; [done|]. unfold page_of_content. simpl. symmetry. apply vpn_shift.
    + destruct (I2 v g Hv) as (c & Hc & Hcv). exists c. rewrite lookup_insert_ne; [|intros <-; by eapply Hfresh]. by rewrite Hm.
Qed.

Lemma base_map_for_ok mt b M req_id addr page is_write :
  base_is b M -> cur_pdp_num (lm b) < 512 -> supply 3 (source (lm b)) -> M !! vpn (mode (lm b)) addr = None -> (forall v, M !! v <> Some page) ->
  exists latency b', base_map_for mt (page_bits (mode (lm b))) b req_id addr page is_write = Ret (latency, b') /\ (0 <= mt -> 0 <= latency <= 4 * mt) /\
    base_is b' (<[vpn (mode (lm b)) addr := page]> M) /\ mode (lm b') = mode (lm b) /\ tables_kept (lm b) (lm b').
Proof.
  intros B Hc Hs Hnew Hfresh. pose proof B as [R _].
  destruct (map_page_table_ok mt (lm b) M addr page R Hc Hs) as (latency & t & i & p1 & E & Hlat & R1 & M1 & K1 & pa & lt & W & Ht & Hl).
  unfold base_map_for. rewrite E. simpl. rewrite <- M1 in *.
  destruct (index_page_ok b M p1 addr page t i B R1 M1 K1 Hnew Hfresh) as (b1 & -> & [_ I1] & Hb1).
  { exists lt. split; [by apply (walk_to_table p1 pa)|done]. }
  simpl. rewrite Hb1.
  destruct (note_request_ok p1 pa t lt i _ addr page req_id is_write R1 W Ht Hl) as (p' & -> & R' & M' & G'); [by rewrite lookup_insert_eq|].
  exists latency, (set_lm b1 p'). split_and!; [done|done| |done|by eapply tables_kept_trans]. split; [done|]. rewrite <- Hb1 in *. by apply index_kept.
Qed.

(** *** Moving a page *)

Lemma located_leaf p pa M c g :
  represents p M -> wf p pa -> located p c -> M !! page_of_content (mode p) c = Some g ->
  exists lt addr, pa !! fst (pgt_entry c) = Some lt /\ lt ++ [snd (pgt_entry c)] = ids (mode p) addr /\ vpn (mode p) addr = page_of_content (mode p) c /\
    S (length lt) = depth (mode p) /\ snd (pgt_entry c) < 512 /\ nxt p (fst (pgt_entry c)) (snd (pgt_entry c)) = Some (PPage g).
Proof.
  intros R W (lt & addr & Hw & Hl & Hv) HM. pose proof (walk_path p pa (pml4 p) [] lt _ W (wf_root _ _ W) Hw) as Ht. simpl in Ht.
  exists lt, addr. split_and!; try done.
  - rewrite <- (length_ids _ addr), <- Hl, length_app. simpl. lia.
  - pose proof (ids_range (mode p) addr) as Hr. rewrite <- Hl in Hr. apply Forall_app in Hr as [_ Hr]. inversion Hr. lia.
  - pose proof (rp_map _ _ R addr) as Hm. rewrite Hv, HM, <- Hl in Hm. unfold translate in Hm.
    rewrite (walk_through p pa _ lt _ []) in Hm by done. cbn [walk] in Hm. destruct (nxt p _ _) as [[x|j]|]; try done. congruence.
Qed.

Lemma remap_entry_ok mt b r M v ppn dst :
  base_is b M -> reversed_pgt b = Some r -> M !! v = Some ppn -> dst <> ppn ->
  exists b', remap_entry mt b ppn dst = Ret (mt, b') /\ represents (lm b') (<[v := dst]> M) /\ mode (lm b') = mode (lm b) /\
    (r !! dst = None -> index_ok b' (<[v := dst]> M)) /\ (exists c, reversed_pgt b' = Some (delete ppn (<[dst := c]> r)) /\ page_of_content (mode (lm b)) c = v).
Proof.
  intros [R I] Er HM Hne. unfold index_ok in I. rewrite Er in I. destruct I as [I1 I2]. destruct (I2 v ppn HM) as (c & Hc & Hcv).
  destruct (I1 ppn c Hc) as [Hloc _]. destruct (rp_wf _ _ R) as [pa W]. rewrite <- Hcv in HM.
  destruct (located_leaf (lm b) pa M c ppn R W Hloc HM) as (lt & addr & Ht & Hl & Hv & Hd & Hi & Hn).
  unfold remap_entry. rewrite Er, Hc. destruct c as [[t i] cv] eqn:Ecc. rewrite <- Ecc in *. cbn [pgt_entry] in *.
  replace (pgt_entry c) with (t, i) in * by (by rewrite Ecc). cbn [fst snd] in *.
  rewrite (entry_ret (lm b) pa) by (done || by eexists). cbn [mbind outcome_bind].
  destruct (set_leaf (lm b) pa t lt i (set_next_level_address (ent (lm b) t i) dst) W Ht Hd) as (p' & -> & W' & M1 & M2 & M3 & M4 & Hpg & Hent & Hmap).
  { apply (present_of_leaf _ _ _ _ _ _ W Ht Hn). }
  cbn [mbind outcome_bind]. eexists. split; [done|]. cbn [lm reversed_pgt].
  assert (R' : represents p' (<[v := dst]> M)).
  { rewrite <- Hcv, <- Hv. apply (represents_set (lm b) p' pa M addr (Some dst) R W' M1). intros l Hlen. rewrite (Hmap l Hlen), Hl. done. }
  split_and!; [done|done| |by exists c]. intros Hdst. unfold index_ok. cbn [reversed_pgt lm]. rewrite M1.
  assert (K : tables_kept (lm b) p') by (by apply (pages_same _ _ pa)). split.
  - intros g d Hg. apply lookup_delete_Some in Hg as [Hg1 Hg]. apply lookup_insert_Some in Hg as [[<- <-]|[Hg2 Hg]].
    + split; [by eapply located_kept|]. rewrite Hcv. by rewrite lookup_insert_eq.
    + destruct (I1 g d Hg) as [L1 L2]. split; [by eapply located_kept|]. rewrite lookup_insert_ne; [done|]. intros Hx. rewrite Hcv in HM. congruence.
  - intros w g Hw. apply lookup_insert_Some in Hw as [[<- <-]|[Hw1 Hw]].
    + exists c. split; [|done]. rewrite lookup_delete_ne by done. by rewrite lookup_insert_eq.
    + destruct (I2 w g Hw) as (d & Hd1 & Hd2). exists d. split; [|done]. rewrite lookup_delete_ne.
      * rewrite lookup_insert_ne; [done|]. intros <-. congruence.
      * intros <-. rewrite Hc in Hd1. injection Hd1 as ->. congruence.
Qed.

Lemma base_source b M a : base_is b M -> base_is (set_lm b (set_source (lm b) a)) M.
Proof.
  intros [[(pa & W) R2 R3] I]. split.
  - split; [exists pa; by apply wf_source|done|]. intros addr. rewrite <- R3. unfold translate. by rewrite (walk_ext (lm b)).
  - unfold index_ok in *. simpl in *. destruct (reversed_pgt b) as [r|]; [|done]. destruct I as [I1 I2]. split; [|done]. intros g c Hc.
    destruct (I1 g c Hc) as [(lt & addr & Hw & Hrest) L2]. split; [|done]. exists lt, addr. split; [|done]. simpl. by rewrite (walk_ext (lm b)).
Qed.
End Theory.

Lemma node_page_ptr_ret a ppn : ppn < page_limit a -> exists a', node_page_ptr a ppn = Ret a' /\ page_limit a' = page_limit a.
Proof.
  intros Hp. unfold node_page_ptr, get_page_ptr. simpl in Hp. rewrite (proj2 (Z.ltb_lt _ _)) by done. simpl.
  destruct (node_mem_map _ !! ppn); eexists; done.
Qed.

(** Moving a mapped page with [remap_page_table] redirects the one virtual page
    that was mapped to it and no other, and the index follows if the
    destination was free.  The destination is not checked: when another virtual
    page is mapped to it, both are afterwards, and the index has lost that other
    one. *)
Theorem remap_moves_page mt b r M v ppn dst :
  base_is b M -> reversed_pgt b = Some r -> M !! v = Some ppn -> dst <> ppn -> ppn < page_limit (source (lm b)) -> dst < page_limit (source (lm b)) ->
  exists b', remap_page_table mt b ppn dst = Ret (mt, b') /\ represents (lm b') (<[v := dst]> M) /\
    (r !! dst = None -> base_is b' (<[v := dst]> M)) /\
    (forall w, w <> v -> M !! w = Some dst -> ~ index_ok b' (<[v := dst]> M)).
Proof.
  intros B Er HM Hne Hp Hd. unfold remap_page_table. destruct (node_page_ptr_ret (source (lm b)) ppn Hp) as (a1 & -> & L1). cbn [mbind outcome_bind].
  destruct (node_page_ptr_ret a1 dst ltac:(lia)) as (a2 & -> & L2). cbn [mbind outcome_bind].
  destruct (remap_entry_ok mt _ r M v ppn dst (base_source b M a2 B) Er HM Hne) as (b' & E & R' & M' & I' & (c & Hr' & Hcv)).
  exists b'. split_and!; [done|done|intros Hf; split; [done|by apply I']|]. intros w Hw Hwd Hix. unfold index_ok in Hix. rewrite Hr' in Hix.
  destruct Hix as [_ I2]. destruct (I2 w dst) as (d & Hd1 & Hd2); [by rewrite lookup_insert_ne|].
  rewrite lookup_delete_ne, lookup_insert_eq in Hd1 by done. injection Hd1 as <-. rewrite M' in Hd2. congruence.
Qed.

Definition demo_reversed : BasePaging BuddyAllocator := mkBase (demo_paging LongMode_Normal) (Some ∅) 0.
Definition demo_indexed : BasePaging BuddyAllocator :=
  snd (ret_or (0, demo_reversed) (base_map_for 10 12 demo_reversed 3 0x7f1234567890 17 true)).

Lemma demo_indexed_is : base_is demo_indexed {[0x7f1234567 := 17]}.
Proof.
  assert (B : base_is demo_reversed ∅).
  { split; [apply (demo_represents LongMode_Normal eq_refl)|]. unfold index_ok, demo_reversed. cbn [reversed_pgt].
    split; intros ? ? Hx; by rewrite lookup_empty in Hx. }
  assert (Hm : mode (lm demo_reversed) = LongMode_Normal) by (vm_compute; reflexivity).
  destruct (base_map_for_ok 10 demo_reversed ∅ 3 0x7f1234567890 17 true B) as (l & b' & E & _ & B' & _).
  - vm_compute. reflexivity.
  - apply (demo_supply LongMode_Normal eq_refl).
  - by rewrite lookup_empty.
  - intros v. by rewrite lookup_empty.
  - rewrite Hm in E, B'. unfold demo_indexed. cbn [page_bits] in E. rewrite E. exact B'.
Qed.

Lemma remap_moves_page_witness :
  exists b', remap_page_table 10 demo_indexed 17 18 = Ret (10, b') /\ base_is b' (<[0x7f1234567 := 18]> {[0x7f1234567 := 17]}).
Proof.
  destruct (remap_moves_page 10 demo_indexed (default ∅ (reversed_pgt demo_indexed)) {[0x7f1234567 := 17]} 0x7f1234567 17 18) as (b' & E & _ & I' & _).
  - exact demo_indexed_is.
  - vm_compute. reflexivity.
  - reflexivity.
  - discriminate.
  - vm_compute. reflexivity.
  - vm_compute. reflexivity.
  - exists b'. split; [exact E|]. apply I'. vm_compute. reflexivity.
Defined.
