(* ===== verification/Walker.v ===== *)
(** * Page-table walkers and the translation of addresses

    [PageTableWalker] (src/src/tlb/page_table_walker.h), [loadPageTables]
    (page-table/page_table.cpp), [FilterCache::TlbTranslate] (filter_cache.h)
    and the part of [setCid] (zsim.cpp) that gives a core to a process.  The
    state has every core with its two buffers (Tlb.v) and its walker, the page
    tables of every process (Reversed.v, PageTable.v) and the allocator they
    share.  The memory hierarchy that answers the requests of a walk is a
    parameter.  The theorems compose the components: along any history, with
    all buffers, walks, page faults, evictions, shootdowns and changes of
    process, the translation of addresses is one injective function. *)

From S2P Require Import Prelude Bits Buddy PageTable Reversed Tlb.

(** ** State *)

Inductive core_type : Type := SimpleCore | TimingCore | PIMCore | OOOCore.

#[global] Instance core_type_eq_dec : EqDecision core_type.
Proof. solve_decision. Defined.

(** [walker_paging] is an index into [paging_array]; null before the first
    [SetPaging]. *)
Record PageTableWalker : Type := mkWalker {
  walker_line_shift : Z;
  walker_timing : bool;
  walker_procIdx : Z;
  walker_paging : option nat;
  mmap_cached : Z;
  period : Z;
  tlb_shootdown_overhead : Z;
  dram_map_overhead : Z;
  tlb_miss_exclude_shootdown : Z;
  tlb_miss_overhead : Z;
  allocated_page : Z
}.

Definition newWalker (line_shift : Z) (timing : bool) : PageTableWalker :=
  mkWalker line_shift timing (2 ^ 32 - 1) None 0 0 0 0 0 0 0.

Definition SetPaging (w : PageTableWalker) (proc : nat) : PageTableWalker :=
  mkWalker (walker_line_shift w) (walker_timing w) (Z.of_nat proc) (Some proc) (mmap_cached w) (period w) (tlb_shootdown_overhead w)
    (dram_map_overhead w) (tlb_miss_exclude_shootdown w) (tlb_miss_overhead w) (allocated_page w).
Definition set_mmap_cached (w : PageTableWalker) (m : Z) : PageTableWalker :=
  mkWalker (walker_line_shift w) (walker_timing w) (walker_procIdx w) (walker_paging w) m (period w) (tlb_shootdown_overhead w)
    (dram_map_overhead w) (tlb_miss_exclude_shootdown w) (tlb_miss_overhead w) (allocated_page w).
Definition add_overheads (w : PageTableWalker) (walks shootdown map exclude miss pages : Z) : PageTableWalker :=
  mkWalker (walker_line_shift w) (walker_timing w) (walker_procIdx w) (walker_paging w) (mmap_cached w)
    (u64 (period w + walks)) (u64 (tlb_shootdown_overhead w + shootdown)) (u64 (dram_map_overhead w + map))
    (u64 (tlb_miss_exclude_shootdown w + exclude)) (u64 (tlb_miss_overhead w + miss)) (u64 (allocated_page w + pages)).

(** A core: [core_proc] is the process it was given last, [itlb] and [dtlb] are the
    buffers of its first-level caches. *)
Record core_unit : Type := mkCoreUnit {
  ctype : core_type;
  core_proc : Z;
  itlb : CommonTlb;
  dtlb : CommonTlb;
  pg_walker : PageTableWalker
}.

Definition set_walker (co : core_unit) (w : PageTableWalker) : core_unit := mkCoreUnit (ctype co) (core_proc co) (itlb co) (dtlb co) w.
Definition set_tlbs (co : core_unit) (i d : CommonTlb) : core_unit := mkCoreUnit (ctype co) (core_proc co) i d (pg_walker co).
Definition core_tlb (co : core_unit) (data : bool) : CommonTlb := if data then dtlb co else itlb co.
Definition set_core_tlb (co : core_unit) (data : bool) (t : CommonTlb) : core_unit :=
  if data then set_tlbs co (itlb co) t else set_tlbs co t (dtlb co).

(** [getInsTlb] and [getDataTlb] are null on a [SimpleCore], whose class does not
    override them, and [flushTlb] does nothing there. *)
Definition has_tlb_methods (ty : core_type) : bool := match ty with SimpleCore => false | _ => true end.

Definition flushTlb (co : core_unit) : core_unit :=
  if has_tlb_methods (ctype co) then set_tlbs co (flush_all (itlb co)) (flush_all (dtlb co)) else co.

Record VmSection : Type := mkVmSection { vm_start : Z; vm_end : Z }.

Record vm (A Mem : Type) : Type := mkVm {
  cores : list core_unit;
  paging_array : list (BasePaging A);
  buddy_allocator : A;
  mem : Mem;
  zpage_shift : Z;
  mem_access_time : Z;
  enable_shared_memory : bool;
  shared_region : list (list VmSection)
}.
Arguments mkVm {A Mem}.
Arguments cores {A Mem}.
Arguments paging_array {A Mem}.
Arguments buddy_allocator {A Mem}.
Arguments mem {A Mem}.
Arguments zpage_shift {A Mem}.
Arguments mem_access_time {A Mem}.
Arguments enable_shared_memory {A Mem}.
Arguments shared_region {A Mem}.

Definition set_cores {A Mem} (v : vm A Mem) (cs : list core_unit) : vm A Mem :=
  mkVm cs (paging_array v) (buddy_allocator v) (mem v) (zpage_shift v) (mem_access_time v) (enable_shared_memory v) (shared_region v).
Definition set_pagings {A Mem} (v : vm A Mem) (ps : list (BasePaging A)) (a : A) : vm A Mem :=
  mkVm (cores v) ps a (mem v) (zpage_shift v) (mem_access_time v) (enable_shared_memory v) (shared_region v).
Definition set_mem {A Mem} (v : vm A Mem) (m : Mem) : vm A Mem :=
  mkVm (cores v) (paging_array v) (buddy_allocator v) m (zpage_shift v) (mem_access_time v) (enable_shared_memory v) (shared_region v).

Definition core_at {A Mem} (v : vm A Mem) (c : nat) : outcome core_unit :=
  match cores v !! c with Some co => Ret co | None => Stop OutOfRange end.
Definition put_core {A Mem} (v : vm A Mem) (c : nat) (co : core_unit) : vm A Mem := set_cores v (<[c := co]> (cores v)).
Definition upd_walker {A Mem} (v : vm A Mem) (c : nat) (f : PageTableWalker -> PageTableWalker) : outcome (vm A Mem) :=
  co ← core_at v c; Ret (put_core v c (set_walker co (f (pg_walker co)))).

Definition slot {A Mem} (c : nat) (data : bool) : tlb_slot (vm A Mem) :=
  mkSlot (vm A Mem) (fun v => co ← core_at v c; Ret (core_tlb co data))
    (fun v t => co ← core_at v c; Ret (put_core v c (set_core_tlb co data t))).

(** ** All buffers of all cores *)

(** The loops over [zinfo->cores]: [f] on the instruction and the data buffer of
    every core that shows them, with the largest latency. *)
Fixpoint each_tlb (f : CommonTlb -> outcome (Z * CommonTlb)) (overhead : Z) (cs : list core_unit) : outcome (Z * list core_unit) :=
  match cs with
  | [] => Ret (overhead, [])
  | co :: cs =>
      '(overhead, co) ←
        (if has_tlb_methods (ctype co) then
           '(o1, i) ← f (itlb co);
           '(o2, d) ← f (dtlb co);
           Ret (Z.max (Z.max overhead o1) o2, set_tlbs co i d)
         else Ret (overhead, co));
      '(overhead, cs) ← each_tlb f overhead cs;
      Ret (overhead, co :: cs)
  end.

Section Walker.
Context {A Mem : Type} `{PageSource A}.
(** [parents[parentId]->access(pgt_req)] for a line at a cycle: the cycle of the
    answer and the hierarchy after it. *)
Context (parent_access : Mem -> Z -> Z -> Z -> Z * Mem) (parentRTTs : list Z).
Implicit Types v : vm A Mem.

(** The page tables of process [k], with the shared allocator put in. *)
Definition with_paging {R} v (k : nat) (f : BasePaging A -> outcome (R * BasePaging A)) : outcome (R * vm A Mem) :=
  match paging_array v !! k with
  | None => Stop OutOfRange
  | Some b =>
      '(r, b) ← f (set_lm b (set_source (lm b) (buddy_allocator v)));
      Ret (r, set_pagings v (<[k := b]> (paging_array v)) (source (lm b)))
  end.

(** ** Requests of a walk *)

Fixpoint load_loop (lineBits : Z) (addrs : list Z) (startCycle respCycle : Z) (m : Mem) : outcome (Z * Mem) :=
  match addrs with
  | [] => Ret (respCycle, m)
  | addr :: addrs =>
      let line := Z.shiftr addr lineBits in
      parentId ← getParentId (Z.of_nat (length parentRTTs)) line;
      let '(resp, m) := parent_access m parentId line startCycle in
      let nextLevelLat := u64 (resp - startCycle) in
      netLat ← at_ parentRTTs parentId;
      let respCycle := u64 (respCycle + nextLevelLat + netLat) in
      load_loop lineBits addrs respCycle respCycle m
  end.

(** [loadPageTables]; linking the events of the requests is left out. *)
Definition loadPageTables (sendPTW : bool) (lineBits : Z) (addrs : list Z) (cyc : Z) (m : Mem) : outcome (Z * Mem) :=
  if sendPTW then load_loop lineBits addrs cyc cyc m else Ret (cyc, m).

(** ** Shootdown and flags *)

Definition tlb_shootdown v (c : nat) (req : MemReq) (vpn : Z) : outcome (MemReq * vm A Mem) :=
  '(overhead, cs) ← each_tlb (fun t => shootdown t vpn) 0 (cores v);
  let v := set_cores v cs in
  co ← core_at v c;
  if walker_timing (pg_walker co) then
    v ← upd_walker v c (fun w => add_overheads w 0 overhead 0 0 0 0);
    Ret (set_cycle req (u64 (cycle req + overhead)), v)
  else Ret (req, v).

(** The public [tlb_shootdown(vpn)], which returns the latency. *)
Definition tlb_shootdown_page v (c : nat) (vpn : Z) : outcome (Z * vm A Mem) :=
  '(overhead, cs) ← each_tlb (fun t => shootdown t vpn) 0 (cores v);
  let v := set_cores v cs in
  co ← core_at v c;
  if walker_timing (pg_walker co) then
    v ← upd_walker v c (fun w => add_overheads w 0 overhead 0 0 0 0); Ret (overhead, v)
  else Ret (0, v).

(** The walker's [update_tlb_flags]; its result is not used. *)
Definition walker_update_flags v (ppn : Z) (shared dirty : bool) : outcome (vm A Mem) :=
  '(_, cs) ← each_tlb (fun t => update_tlb_flags t ppn shared dirty) 0 (cores v);
  Ret (set_cores v cs).

(** [tlb_update(vpn, ppn)]. *)
Definition tlb_update v (c : nat) (vpn ppn : Z) : outcome (Z * vm A Mem) :=
  '(overhead, cs) ← each_tlb (fun t => update_entry t vpn ppn) 0 (cores v);
  let v := set_cores v cs in
  co ← core_at v c;
  if walker_timing (pg_walker co) then
    v ← upd_walker v c (fun w => add_overheads w 0 overhead 0 0 0 0); Ret (overhead, v)
  else Ret (0, v).

(** ** Page faults *)

Definition charge_map v (c : nat) (req : MemReq) (overhead : Z) : outcome (MemReq * vm A Mem) :=
  co ← core_at v c;
  if walker_timing (pg_walker co) then
    v ← upd_walker v c (fun w => add_overheads w 0 0 overhead 0 0 0);
    Ret (set_cycle req (u64 (cycle req + overhead)), v)
  else Ret (req, v).

Definition find_shared_vm (shift vaddr : Z) (s : VmSection) : bool :=
  let vpn := Z.shiftr vaddr shift in (vm_start s <=? vpn) && (vpn <? vm_end s).

Definition map_all_shared_memory v (va page : Z) : outcome (Z * vm A Mem) :=
  fold_ (fun '(latency, v) k =>
    '(l, v) ← with_paging v k (fun b => base_map (mem_access_time v) (zpage_shift v) b va page); Ret (latency + l, v))
    (seq 0 (length (paging_array v))) (0, v).

(** The first section of a list of positions that has the address. *)
Definition find_section (shift vaddr : Z) (secs : list VmSection) (positions : list Z) : option Z :=
  head (List.filter (fun i => match secs !! Z.to_nat i with Some s => find_shared_vm shift vaddr s | None => false end) positions).

(** [map_shared_region]: looks from the section found last time; [vaddr] is the
    line address of the request. *)
Definition map_shared_region v (c : nat) (req : MemReq) (page : Z) : outcome (bool * MemReq * vm A Mem) :=
  let vaddr := lineAddr req in
  co ← core_at v c;
  secs ← at_ (shared_region v) (walker_procIdx (pg_walker co));
  match secs with
  | [] => Ret (false, req, v)
  | _ =>
      let vm_size := Z.of_nat (length secs) in
      let cached := mmap_cached (pg_walker co) in
      s ← at_ secs cached;
      let vpn := Z.shiftr vaddr (zpage_shift v) in
      let found i :=
        v ← upd_walker v c (fun w => set_mmap_cached w i);
        '(overhead, v) ← map_all_shared_memory v vaddr page;
        '(req, v) ← charge_map v c req (u64 overhead);
        Ret (true, req, v) in
      let missed i := v ← upd_walker v c (fun w => set_mmap_cached w i); Ret (false, req, v) in
      if find_shared_vm (zpage_shift v) vaddr s then found cached
      else if (vm_end s <? vpn) && (cached <? vm_size - 1) then
        match find_section (zpage_shift v) vaddr secs (seqZ (cached + 1) (vm_size - 1 - cached)) with
        | Some i => found i
        | None => missed (vm_size - 1)
        end
      else if (vpn <? vm_start s) && (0 <? cached) then
        match find_section (zpage_shift v) vaddr secs (rev (seqZ 0 cached)) with
        | Some i => found i
        | None => missed 0
        end
      else Ret (false, req, v)
  end.

Definition map_private v (c k : nat) (req : MemReq) (vAddr page : Z) : outcome (MemReq * vm A Mem) :=
  '(overhead, v) ← with_paging v k (fun b =>
     base_map_for (mem_access_time v) (zpage_shift v) b (req_srcId req) vAddr page (is_puts req));
  if u64 overhead =? u64 (-1) then Stop Panicked else charge_map v c req (u64 overhead).

(** [do_page_fault], with an allocator. *)
Definition do_page_fault v (c k : nat) (req : MemReq) : outcome (Z * MemReq * vm A Mem) :=
  co ← core_at v c;
  let vAddr := u64 (Z.shiftl (lineAddr req) (walker_line_shift (pg_walker co))) in
  '(page, a) ← take_page (buddy_allocator v);
  let v := set_pagings v (paging_array v) a in
  match page with
  | None => Stop Panicked
  | Some page =>
      '(req, v) ← tlb_shootdown v c req (Z.shiftr vAddr (zpage_shift v));
      '(req, v) ←
        (if enable_shared_memory v then
           '(mapped, req, v) ← map_shared_region v c req page;
           if (mapped : bool) then Ret (req, v) else map_private v c k req vAddr page
         else map_private v c k req vAddr page);
      v ← upd_walker v c (fun w => add_overheads w 0 0 0 0 0 1);
      Ret (page, set_page_flags req (req_pageShared req) (is_puts req), v)
  end.

(** What a walk leaves in the request; the page flags only when a page was found. *)
Definition set_walk (req : MemReq) (wr : walk_result) (cyc : Z) : MemReq :=
  let found := match w_page wr with Some _ => true | None => false end in
  mkMemReq (lineAddr req) (is_puts req) cyc (req_srcId req) (req_flags req)
    (if found then pageShared wr else req_pageShared req) (if found then pageDirty wr else req_pageDirty req)
    (triggerPageShared wr) (triggerPageDirty wr).

(** [access(req)] of the walker of core [c]: the page number. *)
Definition walker_access v (c : nat) (req : MemReq) : outcome (Z * MemReq * vm A Mem) :=
  co ← core_at v c;
  let w := pg_walker co in
  match walker_paging w with
  | None => Stop AssertFailed
  | Some k =>
      let init_cycle := cycle req in
      '(wr, v) ← with_paging v k (fun b =>
         base_access (zpage_shift v) b (u64 (Z.shiftl (lineAddr req) (walker_line_shift w))) (req_srcId req) (is_puts req)
           (req_triggerPageShared req) (req_triggerPageDirty req));
      '(cyc, m) ← loadPageTables (walker_timing w) (walker_line_shift w) (pgt_addrs wr) (cycle req) (mem v);
      let v := set_mem v m in
      let req := set_walk req wr cyc in
      v ← upd_walker v c (fun w => add_overheads w 1 0 0 (cyc - init_cycle) 0 0);
      '(addr, req, v) ←
        match w_page wr with
        | Some page => Ret (page, req, v)
        | None => do_page_fault v c k req
        end;
      v ← (if req_triggerPageShared req || req_triggerPageDirty req
           then walker_update_flags v addr (req_triggerPageShared req) (req_triggerPageDirty req) else Ret v);
      v ← upd_walker v c (fun w => add_overheads w 0 0 0 0 (cycle req - init_cycle) 0);
      Ret (addr, req, v)
  end.

(** ** Translation by a core *)

(** The fields of the request that [TlbTranslate] leaves as they are in memory. *)
Record raw_req : Type := mkRaw { raw_flags : Z; raw_shared : bool; raw_dirty : bool; raw_trigger_shared : bool; raw_trigger_dirty : bool }.

(** [TlbTranslate]: the physical line and the cycle. *)
Definition TlbTranslate v (c : nat) (data : bool) (vLineAddr : Z) (isLoad : bool) (startCycle : Z) (raw : raw_req)
  : outcome (Z * Z * vm A Mem) :=
  let req := mkMemReq vLineAddr (negb isLoad) startCycle (Z.of_nat c) (raw_flags raw) (raw_shared raw) (raw_dirty raw)
    (raw_trigger_shared raw) (raw_trigger_dirty raw) in
  '(pLineAddr, req, v) ← tlb_access (slot c data) (fun v req => walker_access v c req) v req;
  Ret (pLineAddr, cycle req, v).

(** The part of [setCid] that concerns translation: core [cid] is given to process
    [proc]. *)
Definition setCid v (cid proc : nat) : outcome (vm A Mem) :=
  co ← core_at v cid;
  let co := if core_proc co =? Z.of_nat proc then co else flushTlb co in
  let co := mkCoreUnit (ctype co) (Z.of_nat proc) (itlb co) (dtlb co) (pg_walker co) in
  match paging_array v !! proc with
  | None => Stop OutOfRange
  | Some _ => Ret (put_core v cid (set_walker co (SetPaging (pg_walker co) proc)))
  end.
End Walker.

(** ** Buffers that agree with page tables *)

(** A buffer of a given geometry whose entries all satisfy [P], with at most [n]
    sequence numbers used. *)
Record tlb_good (sh ls n : Z) (P : Z -> Z -> Prop) (t : CommonTlb) : Prop := {
  tg_page : Tlb.page_shift (tlb_cfg t) = sh;
  tg_line : line_shift (tlb_cfg t) = ls;
  tg_lru : evict_policy (tlb_cfg t) = LRU;
  tg_size : (0 < length (tlb t))%nat;
  tg_seq : tlb_lru_seq t <= n;
  tg_is : exists l, tlb_is t l /\ forall x, x ∈ l -> P (tr_vpn x) (tr_ppn x)
}.

Section Buffers.
Context (sh ls : Z).

Lemma good_frame n d P P' t t' l :
  tlb_good sh ls n P t -> tlb_frame t t' -> tlb_lru_seq t' <= tlb_lru_seq t + d -> tlb_is t' l -> (forall x, x ∈ l -> P' (tr_vpn x) (tr_ppn x)) ->
  tlb_good sh ls (n + d) P' t'.
Proof.
  intros [G1 G2 G3 G4 G5 _] (F1 & F2 & F3) Hd I HP. split; rewrite ?F1, ?F2; try done; [lia|]. by exists l.
Qed.

Lemma good_mono n n' (P P' : Z -> Z -> Prop) t : (forall a b, P a b -> P' a b) -> n <= n' -> tlb_good sh ls n P t -> tlb_good sh ls n' P' t.
Proof.
  intros HP Hn [G1 G2 G3 G4 G5 (l & I & Hl)]. split; try done; [lia|]. exists l. split; [done|]. auto.
Qed.

Lemma good_counters n P t a b c d : tlb_good sh ls n P t -> tlb_good sh ls n P (add_counters t a b c d).
Proof. intros [G1 G2 G3 G4 G5 (l & I & Hl)]. split; try done. exists l. split; [by apply tlb_is_counters|done]. Qed.

Lemma in_spec_remove v l x : x ∈ spec_remove v l -> x ∈ l /\ tr_vpn x <> v.
Proof.
  unfold spec_remove. rewrite !list_elem_of_In. intros Hx. apply List.filter_In in Hx as [H1 H2]. split; [done|].
  unfold has_vpn in H2. intros <-. by rewrite Z.eqb_refl in H2.
Qed.

Lemma in_spec_find v l x : spec_find v l = Some x -> x ∈ l /\ tr_vpn x = v.
Proof.
  unfold spec_find. intros Hx. assert (Hin : x ∈ List.filter (has_vpn v) l) by (destruct (List.filter _ l); [done|]; injection Hx as ->; constructor).
  rewrite list_elem_of_In in *. apply List.filter_In in Hin as [H1 H2]. split; [done|]. unfold has_vpn in H2. by zb.
Qed.

Lemma in_spec_touch v l x : x ∈ spec_touch v l -> x ∈ l.
Proof.
  unfold spec_touch. destruct (spec_find v l) as [y|] eqn:E; [|done]. intros Hx. apply elem_of_cons in Hx as [->|Hx]; [by eapply in_spec_find|].
  by eapply in_spec_remove.
Qed.

Lemma in_spec_flags p s d l x : x ∈ spec_flags p s d l -> exists y, y ∈ l /\ tr_vpn x = tr_vpn y /\ tr_ppn x = tr_ppn y.
Proof.
  unfold spec_flags. intros Hx. apply list_elem_of_fmap in Hx as (y & -> & Hy). exists y. split; [done|]. by destruct (_ =? _).
Qed.

Lemma good_shootdown n P t v :
  tlb_good sh ls n P t -> n < 2 ^ 31 - 1 -> exists o t', shootdown t v = Ret (o, t') /\ tlb_good sh ls (n + 1) P t'.
Proof.
  intros G Hn. pose proof G as [_ _ _ _ G5 (l & I & Hl)]. destruct (shootdown_ok t l v I) as (t' & E & I' & F); [unfold spare_seq; lia|].
  eexists _, t'. split; [exact E|]. eapply good_frame; [done|done|destruct F as (_ & _ & F); lia|done|]. intros x Hx. apply Hl. by eapply in_spec_remove.
Qed.

Lemma good_flags n P t p s d :
  tlb_good sh ls n P t -> exists o t', update_tlb_flags t p s d = Ret (o, t') /\ tlb_good sh ls n P t'.
Proof.
  intros G. pose proof G as [_ _ _ _ G5 (l & I & Hl)]. destruct (flags_ok t l p s d I) as (t' & E & I' & F & Fs).
  eexists _, t'. split; [exact E|]. replace n with (n + 0) by lia. eapply good_frame; [done|done|lia|done|].
  intros x Hx. apply in_spec_flags in Hx as (y & Hy & -> & ->). by apply Hl.
Qed.

Lemma good_flush n P t : tlb_good sh ls n P t -> tlb_good sh ls n (fun _ _ => False) (flush_all t).
Proof.
  intros G. pose proof G as [_ _ _ _ G5 (l & I & Hl)]. destruct (flush_ok t l I) as [I' F]. replace n with (n + 0) by lia.
  eapply good_frame; [done|done|simpl; lia|done|]. by intros x Hx%not_elem_of_nil.
Qed.

Lemma good_look_up n P t v :
  tlb_good sh ls n P t -> n < 2 ^ 31 - 1 ->
  exists r t', look_up t v true = Ret (r, t') /\ tlb_cfg t' = tlb_cfg t /\
    match r with
    | Some i => tlb_good sh ls (n + 1) P t' /\ exists e, tlb t' !! i = Some e /\ P v (p_page_no e)
    | None => tlb_good sh ls (n + 1) (fun a b => P a b /\ a <> v) t'
    end.
Proof.
  intros G Hn. pose proof G as [_ _ _ _ G5 (l & I & Hl)]. destruct (look_up_ok t l v I) as (r & t' & E & I' & F & _ & Hm); [unfold spare_seq; lia|].
  exists r, t'. split; [done|]. split; [apply F|].
  assert (Hg : forall P' : Z -> Z -> Prop, (forall x, x ∈ spec_touch v l -> P' (tr_vpn x) (tr_ppn x)) -> tlb_good sh ls (n + 1) P' t').
  { intros P' HP. eapply good_frame; [done|done|destruct F as (_ & _ & F); lia|done|done]. }
  destruct (spec_find v l) as [x|] eqn:Ef.
  - destruct Hm as (i & e & -> & He & Hx & Hv). split; [apply Hg; intros y Hy; apply Hl; by eapply in_spec_touch|]. exists e. split; [done|].
    destruct (in_spec_find v l x Ef) as [Hin Hxv]. specialize (Hl x Hin). rewrite <- Hx in Hl. simpl in Hl. by rewrite Hv in Hl.
  - destruct Hm as [-> ->]. apply Hg. unfold spec_touch. rewrite Ef. intros y Hy. split; [by apply Hl|]. intros Hyv.
    unfold spec_find in Ef. assert (Hin : y ∈ List.filter (has_vpn v) l).
    { rewrite list_elem_of_In in *. apply List.filter_In. split; [done|]. unfold has_vpn. by apply Z.eqb_eq. }
    destruct (List.filter (has_vpn v) l); [by apply not_elem_of_nil in Hin|done].
Qed.

Lemma good_insert n (P : Z -> Z -> Prop) t v x :
  tlb_good sh ls n P t -> n < 2 ^ 31 - 1 -> (forall a b, P a b -> a <> v /\ b <> p_page_no x) -> v_page_no x = v ->
  exists i t', tlb_insert t v x = Ret (Some i, t') /\ tlb_cfg t' = tlb_cfg t /\ tlb_good sh ls (n + 1) (fun a b => P a b \/ (a = v /\ b = p_page_no x)) t'.
Proof.
  intros G Hn HP Hv. pose proof G as [_ _ G3 G4 G5 (l & I & Hl)].
  destruct (insert_ok t l v x I) as (i & t' & E & I' & F); try done.
  - unfold spare_seq. lia.
  - destruct (spec_find v l) as [y|] eqn:Ef; [|done]. destruct (in_spec_find v l y Ef) as [Hin Hy]. destruct (HP _ _ (Hl y Hin)). done.
  - intros Hin. apply list_elem_of_fmap in Hin as (y & Hy & Hin). destruct (HP _ _ (Hl y Hin)). congruence.
  - exists i, t'. split; [done|]. split; [apply F|]. eapply good_frame; [done|done|destruct F as (_ & _ & F); lia|done|].
    intros y Hy. apply elem_of_cons in Hy as [->|Hy]; [by right|]. left. apply Hl. case_bool_decide; [by apply in_removelast|done].
Qed.
End Buffers.

(** *** Loops over all buffers *)

(** What a loop over the buffers, or the walker's bookkeeping, does to a core: its
    entries only get fewer, at the cost of [d] sequence numbers. *)
Record core_step (sh ls d : Z) (co co' : core_unit) : Prop := {
  cs_type : ctype co' = ctype co;
  cs_proc : core_proc co' = core_proc co;
  cs_paging : walker_paging (pg_walker co') = walker_paging (pg_walker co);
  cs_shift : walker_line_shift (pg_walker co') = walker_line_shift (pg_walker co);
  cs_tlb data n P : n + d <= 2 ^ 31 - 1 -> tlb_good sh ls n P (core_tlb co data) -> tlb_good sh ls (n + d) P (core_tlb co' data)
}.

(** A core whose buffers are well-formed, whatever they hold. *)
Definition core_fit (sh ls n : Z) (co : core_unit) : Prop := forall data, tlb_good sh ls n (fun _ _ => True) (core_tlb co data).

Section Loops.
Context (sh ls : Z).

Lemma core_step_same co w :
  walker_paging w = walker_paging (pg_walker co) -> walker_line_shift w = walker_line_shift (pg_walker co) -> core_step sh ls 0 co (set_walker co w).
Proof. intros H1 H2. split; try done. intros data n P _ G. rewrite Z.add_0_r. exact G. Qed.

Lemma core_step_refl co : core_step sh ls 0 co co.
Proof. split; try done. intros data n P _ G. by rewrite Z.add_0_r. Qed.

Lemma core_step_fit d n co co' : core_step sh ls d co co' -> n + d <= 2 ^ 31 - 1 -> core_fit sh ls n co -> core_fit sh ls (n + d) co'.
Proof. intros [_ _ _ _ S5] Hn F data. by apply S5. Qed.

Lemma core_step_trans d1 d2 co1 co2 co3 :
  0 <= d1 -> 0 <= d2 -> core_step sh ls d1 co1 co2 -> core_step sh ls d2 co2 co3 -> core_step sh ls (d1 + d2) co1 co3.
Proof.
  intros H1 H2 [S1 S2 S3 S4 S5] [T1 T2 T3 T4 T5]. split; try congruence. intros data n P Hn G.
  rewrite Z.add_assoc. apply T5; [lia|]. apply S5; [lia|done].
Qed.

Lemma cores_step_trans d1 d2 cs1 cs2 cs3 :
  0 <= d1 -> 0 <= d2 -> Forall2 (core_step sh ls d1) cs1 cs2 -> Forall2 (core_step sh ls d2) cs2 cs3 -> Forall2 (core_step sh ls (d1 + d2)) cs1 cs3.
Proof.
  intros Hd1 Hd2 H1. revert cs3. induction H1 as [|x y l k Hxy _ IH]; intros cs3 H2; inv H2; constructor; [by eapply core_step_trans|auto].
Qed.

Lemma cores_step_refl cs : Forall2 (core_step sh ls 0) cs cs.
Proof. induction cs; constructor; [apply core_step_refl|done]. Qed.

Lemma cores_step_put cs c co co' : cs !! c = Some co -> core_step sh ls 0 co co' -> Forall2 (core_step sh ls 0) cs (<[c := co']> cs).
Proof.
  revert c. induction cs as [|x cs IH]; intros [|c] Hc Hs; try done; simpl in *.
  - injection Hc as ->. constructor; [done|apply cores_step_refl].
  - constructor; [apply core_step_refl|auto].
Qed.

Lemma each_tlb_ok f d n o cs :
  (forall t m P, m + d <= 2 ^ 31 - 1 -> tlb_good sh ls m P t -> exists o' t', f t = Ret (o', t') /\ tlb_good sh ls (m + d) P t') ->
  0 <= d -> n + d <= 2 ^ 31 - 1 -> Forall (core_fit sh ls n) cs ->
  exists o' cs', each_tlb f o cs = Ret (o', cs') /\ Forall2 (core_step sh ls d) cs cs'.
Proof.
  intros Hf Hd Hn Hcs. revert o. induction Hcs as [|co cs F2 _ IH]; intros o; cbn [each_tlb]; [by exists o, []|].
  destruct (has_tlb_methods (ctype co)); cycle 1.
  { cbn [mbind outcome_bind]. destruct (IH o) as (o' & cs' & -> & H2). eexists _, _. split; [done|]. constructor; [|done].
    split; try done. intros data m P _. eapply good_mono; [done|lia]. }
  destruct (Hf _ _ _ Hn (F2 false)) as (o1 & i & E1 & _), (Hf _ _ _ Hn (F2 true)) as (o2 & dt & E2 & _). cbn [core_tlb] in E1, E2.
  rewrite E1. cbn [mbind outcome_bind]. rewrite E2. cbn [mbind outcome_bind]. destruct (IH (Z.max (Z.max o o1) o2)) as (o' & cs' & -> & H2).
  eexists _, _. split; [done|]. constructor; [|done]. split; try done. intros [|] m P Hm G.
  - destruct (Hf _ _ _ Hm G) as (o3 & t3 & E3 & G3). cbn [core_tlb] in *. rewrite E2 in E3. by injection E3 as <- <-.
  - destruct (Hf _ _ _ Hm G) as (o3 & t3 & E3 & G3). cbn [core_tlb] in *. rewrite E1 in E3. by injection E3 as <- <-.
Qed.
End Loops.

(** ** The invariant of the whole system *)

(** The pages that are in use outside the tables of process [k]. *)
Definition foreign {A} (ps : list (BasePaging A)) (Ms : list (gmap Z Z)) (k : nat) (g : Z) : Prop :=
  (exists j M n, Ms !! j = Some M /\ M !! n = Some g) \/
  (exists j b t tb, j <> k /\ ps !! j = Some b /\ tables (lm b) !! t = Some tb /\ table_page tb = g).

(** [Ms] are the translations of the processes. *)
Record pagings_ok {A} `{PageSource A} (m : PagingStyle) (N : Z) (ps : list (BasePaging A)) (a : A) (Ms : list (gmap Z Z)) : Prop := {
  po_length : length ps = length Ms;
  po_proc k b M : ps !! k = Some b -> Ms !! k = Some M -> base_is b M /\ mode (lm b) = m;
  po_pages k b : ps !! k = Some b -> pages_in N (foreign ps Ms k) (set_source (lm b) a);
  po_inj j j' M M' n n' g : Ms !! j = Some M -> Ms !! j' = Some M' -> M !! n = Some g -> M' !! n' = Some g -> j = j' /\ n = n'
}.

(** What the buffers of a core may hold. *)
Definition core_entry (w : Z) (Ms : list (gmap Z Z)) (co : core_unit) (n p : Z) : Prop :=
  exists k M, walker_paging (pg_walker co) = Some k /\ Ms !! k = Some M /\ M !! n = Some p /\ 0 <= n < 2 ^ w.

Record core_good (m : PagingStyle) (ls n : Z) (Ms : list (gmap Z Z)) (co : core_unit) : Prop := {
  cg_shift : walker_line_shift (pg_walker co) = ls;
  cg_paging : match walker_paging (pg_walker co) with Some k => core_proc co = Z.of_nat k /\ (k < length Ms)%nat | None => True end;
  cg_tlb data : tlb_good (page_bits m) ls n (core_entry (9 * Z.of_nat (depth m)) Ms co) (core_tlb co data)
}.

Record vm_inv {A Mem} `{PageSource A} (m : PagingStyle) (ls N n : Z) (Ms : list (gmap Z Z)) (v : vm A Mem) : Prop := {
  vi_long : long_mode m = true;
  vi_shift : zpage_shift v = page_bits m;
  vi_shared : enable_shared_memory v = false;
  vi_pagings : pagings_ok m N (paging_array v) (buddy_allocator v) Ms;
  vi_cores : Forall (core_good m ls n Ms) (cores v);
  vi_time : 0 <= mem_access_time v < 2 ^ 32
}.

(** Translations only get more. *)
Definition maps_grow (Ms Ms' : list (gmap Z Z)) : Prop := Forall2 (fun M M' => M ⊆ M') Ms Ms'.

Lemma maps_grow_refl Ms : maps_grow Ms Ms.
Proof. unfold maps_grow. induction Ms; by constructor. Qed.

Lemma maps_grow_trans M1 M2 M3 : maps_grow M1 M2 -> maps_grow M2 M3 -> maps_grow M1 M3.
Proof. unfold maps_grow. intros H1 H2. revert M3 H2. induction H1; intros M3 H2; inv H2; constructor; [by etransitivity|auto]. Qed.

Lemma maps_grow_lookup Ms Ms' k M n g : maps_grow Ms Ms' -> Ms !! k = Some M -> M !! n = Some g -> exists M', Ms' !! k = Some M' /\ M' !! n = Some g.
Proof. intros Hg Hk Hn. destruct (Forall2_lookup_l _ _ _ _ _ Hg Hk) as (M' & Hk' & Hs). exists M'. split; [done|]. by eapply lookup_weaken. Qed.

Lemma core_entry_grow w Ms Ms' co co' n p :
  maps_grow Ms Ms' -> walker_paging (pg_walker co') = walker_paging (pg_walker co) -> core_entry w Ms co n p -> core_entry w Ms' co' n p.
Proof.
  intros Hg Hp (k & M & Hk & HM & Hn & Hr). destruct (maps_grow_lookup _ _ _ _ _ _ Hg HM Hn) as (M' & HM' & Hn').
  exists k, M'. split_and!; try done; [congruence|lia|lia].
Qed.

Lemma core_good_step m ls d n Ms Ms' co co' :
  core_step (page_bits m) ls d co co' -> maps_grow Ms Ms' -> n + d <= 2 ^ 31 - 1 -> core_good m ls n Ms co -> core_good m ls (n + d) Ms' co'.
Proof.
  intros [S1 S2 S3 S4 S5] Hg Hn [G2 G3 G4]. pose proof (Forall2_length _ _ _ Hg) as Hlen. split; [congruence| |].
  - rewrite S3, S2, <- Hlen. done.
  - intros data. eapply good_mono; [|done|apply S5, G4; done]. intros a b. by apply core_entry_grow.
Qed.

Lemma core_good_fit m ls n Ms co : core_good m ls n Ms co -> core_fit (page_bits m) ls n co.
Proof. intros [_ _ G4] data. eapply good_mono; [|done|apply G4]. done. Qed.

Lemma cores_good_step m ls d n Ms Ms' cs cs' :
  Forall2 (core_step (page_bits m) ls d) cs cs' -> maps_grow Ms Ms' -> n + d <= 2 ^ 31 - 1 -> Forall (core_good m ls n Ms) cs -> Forall (core_good m ls (n + d) Ms') cs'.
Proof.
  intros H2 Hg Hn Hcs. induction H2 as [|co co' cs cs' Hs _ IH]; [constructor|]. apply Forall_cons in Hcs as [H1 Hcs]. constructor; [by eapply core_good_step|auto].
Qed.

(** *** The page tables of all processes *)

Definition mapped (Ms : list (gmap Z Z)) (g : Z) : Prop := exists j M n, Ms !! j = Some M /\ M !! n = Some g.

Section Pagings.
Context {A : Type} `{PageSource A} (m : PagingStyle) (N : Z).
Implicit Types (ps : list (BasePaging A)) (Ms : list (gmap Z Z)).

Lemma pages_in_sub (K K' : Z -> Prop) (p p' : paging A) :
  (forall g, K' g -> K g) -> source p' = source p -> tables p' = tables p -> pages_in N K p -> pages_in N K' p'.
Proof.
  intros Hk Hs Ht (L & H1 & H2 & H3 & H4 & H5). exists L. rewrite Hs, Ht. split_and!; try done; [|auto].
  intros t tb E. destruct (H3 t tb E). split; [done|]. auto.
Qed.

(** Process [k] changes its tables and perhaps gains a page. *)
Lemma pagings_update ps a Ms k b b' M M' :
  pagings_ok m N ps a Ms -> ps !! k = Some b -> Ms !! k = Some M -> base_is b' M' -> mode (lm b') = m ->
  pages_in N (fun g => foreign ps Ms k g \/ mapped (<[k := M']> Ms) g) (lm b') ->
  (forall j b t tb, ps !! j = Some b -> tables (lm b) !! t = Some tb -> ~ mapped (<[k := M']> Ms) (table_page tb)) ->
  (forall j j' M1 M2 n n' g, <[k := M']> Ms !! j = Some M1 -> <[k := M']> Ms !! j' = Some M2 -> M1 !! n = Some g -> M2 !! n' = Some g -> j = j' /\ n = n') ->
  pagings_ok m N (<[k := b']> ps) (source (lm b')) (<[k := M']> Ms).
Proof.
  intros [P1 P2 P3 P4] Hb HM B' Hm Hpg Hnew Hinj. assert (Hk : (k < length ps)%nat) by (by eapply lookup_lt_Some).
  split; [by rewrite !length_insert| | |done].
  - intros j bj Mj Hbj HMj. apply list_lookup_insert_Some in Hbj as [(<- & <- & _)|[Hne Hbj]].
    + rewrite list_lookup_insert_eq in HMj by lia. injection HMj as <-. done.
    + rewrite list_lookup_insert_ne in HMj by done. by eapply P2.
  - destruct Hpg as (L & L1 & L2 & L3 & L4 & L5). intros j bj Hbj. apply list_lookup_insert_Some in Hbj as [(<- & <- & _)|[Hne Hbj]].
    + exists L. split_and!; try done.
      * intros t tb Ht. destruct (L3 t tb Ht) as [Hin Hnk]. split; [done|]. intros [Hf|(i & bi & t' & tb' & Hi & Hbi & Ht' & He)]; apply Hnk; [by right|left].
        right. rewrite list_lookup_insert_ne in Hbi by done. by exists i, bi, t', tb'.
      * intros g [Hf|(i & bi & t' & tb' & Hi & Hbi & Ht' & He)]; apply L5; [by right|left]. right.
        rewrite list_lookup_insert_ne in Hbi by done. by exists i, bi, t', tb'.
    + destruct (P3 j bj Hbj) as (L0 & _ & _ & J3 & J4 & _). exists L. split_and!; try done.
      * intros t tb Ht. assert (Hfk : foreign ps Ms k (table_page tb)) by (right; by exists j, bj, t, tb). split; [apply L5; by left|].
        intros [Hf|(i & bi & t' & tb' & Hi & Hbi & Ht' & He)]; [by eapply Hnew|]. apply list_lookup_insert_Some in Hbi as [(<- & <- & _)|[Hik Hbi]].
        -- destruct (L3 t' tb' Ht') as [_ Hn]. apply Hn. left. by rewrite He.
        -- destruct (J3 t tb Ht) as [_ Hn]. apply Hn. right. by exists i, bi, t', tb'.
      * intros g [Hf|(i & bi & t' & tb' & Hi & Hbi & Ht' & He)]; [apply L5; by right|]. apply list_lookup_insert_Some in Hbi as [(<- & <- & _)|[Hik Hbi]].
        -- rewrite <- He. by eapply L3.
        -- apply L5. left. right. by exists i, bi, t', tb'.
Qed.

Lemma tables_not_mapped ps a Ms j b t tb :
  pagings_ok m N ps a Ms -> ps !! j = Some b -> tables (lm b) !! t = Some tb -> ~ mapped Ms (table_page tb).
Proof. intros Ok Hb Ht Hm. destruct (po_pages _ _ _ _ _ Ok j b Hb) as (L & _ & _ & L3 & _). destruct (L3 t tb Ht) as [_ Hn]. apply Hn. by left. Qed.

(** A walk by process [k]. *)
Lemma pagings_access ps a Ms k b M shift addr src puts sh di :
  pagings_ok m N ps a Ms -> ps !! k = Some b -> Ms !! k = Some M ->
  exists w b', base_access shift (set_lm b (set_source (lm b) a)) addr src puts sh di = Ret (w, b') /\ w_page w = M !! vpn m addr /\
    pagings_ok m N (<[k := b']> ps) (source (lm b')) Ms /\ source (lm b') = a /\ cur_pdp_num (lm b') = cur_pdp_num (lm b).
Proof.
  intros Ok Hb HM. destruct (po_proc _ _ _ _ _ Ok k b M Hb HM) as [B Hm].
  destruct (base_access_ok shift _ M addr src puts sh di (base_source b M a B)) as (w & b' & E & Hw & B' & Hm' & K & Hs & Hc). simpl in Hm', K, Hw, Hs, Hc.
  exists w, b'. split; [done|]. split; [by rewrite Hw, Hm|]. split; [|done].
  pose proof (pagings_update ps a Ms k b b' M M Ok Hb HM B') as Hup. rewrite (list_insert_id Ms k M HM) in Hup. apply Hup; clear Hup.
  - congruence.
  - eapply (pages_in_sub (foreign ps Ms k)); [intros g [Hg|Hg]; [done|by left]|done|done|]. apply (kept_pages _ _ K). by apply (po_pages _ _ _ _ _ Ok).
  - intros j bj t tb. by apply (tables_not_mapped ps a Ms).
  - apply (po_inj _ _ _ _ _ Ok).
Qed.

(** A page fault of process [k]: a page that was free enters its tables. *)
Lemma pagings_fault ps a Ms k b M g a' mt src addr puts :
  pagings_ok m N ps a Ms -> ps !! k = Some b -> Ms !! k = Some M -> M !! vpn m addr = None -> take_page a = Ret (Some g, a') ->
  supply 3 a' -> cur_pdp_num (lm b) < 512 ->
  exists l b', base_map_for mt (page_bits m) (set_lm b (set_source (lm b) a')) src addr g puts = Ret (l, b') /\ (0 <= mt -> 0 <= l <= 4 * mt) /\
    pagings_ok m N (<[k := b']> ps) (source (lm b')) (<[k := <[vpn m addr := g]> M]> Ms) /\ maps_grow Ms (<[k := <[vpn m addr := g]> M]> Ms).
Proof.
  intros Ok Hb HM Hnone Htake Hsup Hcur. destruct (po_proc _ _ _ _ _ Ok k b M Hb HM) as [B Hm].
  destruct (po_pages _ _ _ _ _ Ok k b Hb) as (L & L1 & L2 & L3 & L4 & L5). simpl in L1, L2, L3, L4.
  destruct (take_fresh _ _ _ _ L1 Htake) as [Hg L1']. pose proof (take_limit _ _ _ _ L1 Htake) as Hlim.
  assert (Hunm : ~ mapped Ms g) by (intros Hm'; apply Hg, L5; by left).
  destruct (base_map_for_ok mt _ M src addr g puts (base_source b M a' B)) as (l & b' & E & Hlat & B' & Hm' & K); simpl; [done|done|by rewrite Hm| |].
  { intros n Hn. apply Hunm. by exists k, M, n. }
  simpl in E, B', Hm', K. rewrite Hm in *. exists l, b'. split; [done|]. split; [done|].
  set (M' := <[vpn m addr := g]> M) in *. assert (Hk : (k < length Ms)%nat) by (by eapply lookup_lt_Some).
  assert (Hmap : forall x, mapped (<[k := M']> Ms) x -> mapped Ms x \/ x = g).
  { intros x (j & Mj & n & Hj & Hn). apply list_lookup_insert_Some in Hj as [(<- & <- & _)|[_ Hj]]; [|left; by exists j, Mj, n].
    apply lookup_insert_Some in Hn as [[_ <-]|[_ Hn]]; [by right|left; by exists k, M, n]. }
  assert (Hone : forall j Mj n, <[k := M']> Ms !! j = Some Mj -> Mj !! n = Some g -> j = k /\ n = vpn m addr).
  { intros j Mj n Hj Hn. apply list_lookup_insert_Some in Hj as [(<- & <- & _)|[_ Hj]]; [|destruct Hunm; by exists j, Mj, n].
    apply lookup_insert_Some in Hn as [[<- _]|[_ Hn]]; [done|destruct Hunm; by exists k, M, n]. }
  split.
  - apply (pagings_update ps a Ms k b b' M M' Ok Hb HM B' Hm').
    + eapply (pages_in_sub (fun x => foreign ps Ms k x \/ x = g)); [|done|done|].
      { intros x [Hx|Hx]; [by left|]. destruct (Hmap x Hx) as [Hx'|Hx']; [left; by left|by right]. }
      apply (kept_pages _ _ K). exists (g :: L). simpl. split_and!; try done; [congruence| |].
      * intros t tb Ht. destruct (L3 t tb Ht) as [Hin Hn]. split; [by right|]. intros [Hf|Hx]; [done|]. apply Hg. by rewrite <- Hx.
      * intros x [Hx| ->]; [right; by apply L5|by left].
    + intros j bj t tb Hbj Ht Hmt. destruct (Hmap _ Hmt) as [Hx|Hx]; [by eapply (tables_not_mapped ps a Ms)|]. apply Hg. rewrite <- Hx.
      destruct (decide (j = k)) as [->|Hne]; [|apply L5; right; by exists j, bj, t, tb]. rewrite Hb in Hbj. injection Hbj as <-. by apply (L3 t tb).
    + intros j j' M1 M2 n n' x Hj Hj' Hn Hn'. destruct (decide (x = g)) as [->|Hx].
      * destruct (Hone _ _ _ Hj Hn) as [-> ->], (Hone _ _ _ Hj' Hn') as [-> ->]. done.
      * assert (Hold : forall i Mi y, <[k := M']> Ms !! i = Some Mi -> Mi !! y = Some x -> exists M0, Ms !! i = Some M0 /\ M0 !! y = Some x).
        { intros i Mi y Hi Hy. apply list_lookup_insert_Some in Hi as [(<- & <- & _)|[_ Hi]]; [|by exists Mi]. exists M. split; [done|].
          apply lookup_insert_Some in Hy as [[_ Hy]|[_ Hy]]; [by rewrite Hy in Hx|done]. }
        destruct (Hold _ _ _ Hj Hn) as (X1 & E1 & F1), (Hold _ _ _ Hj' Hn') as (X2 & E2 & F2). by eapply (po_inj _ _ _ _ _ Ok).
  - unfold maps_grow. clear -HM Hnone. subst M'. revert k HM. induction Ms as [|X Ms IH]; intros [|k] HM; try done; simpl in *.
    + injection HM as ->. constructor; [by apply insert_subseteq|apply maps_grow_refl].
    + constructor; [done|]. by apply IH.
Qed.
End Pagings.

(** *** The steps of a walk *)

Section Steps.
Context {A Mem : Type} `{PageSource A} (parent_access : Mem -> Z -> Z -> Z -> Z * Mem) (parentRTTs : list Z) (parents : parentRTTs <> []).
Context (m : PagingStyle) (ls N : Z).
Implicit Types v : vm A Mem.
Abbreviation step d := (Forall2 (core_step (page_bits m) ls d)).
Abbreviation fit n := (Forall (core_fit (page_bits m) ls n)).

Lemma parent_ret line : exists i x, getParentId (Z.of_nat (length parentRTTs)) line = Ret i /\ at_ parentRTTs i = Ret x.
Proof using parents.
  assert (Hn : 0 < Z.of_nat (length parentRTTs)) by (destruct parentRTTs; [done|simpl; lia]).
  unfold getParentId. rewrite (proj2 (Z.eqb_neq _ _)) by lia.
  pose proof (Z.mod_pos_bound (xor_fold16 4 0 line) _ Hn) as Hb. set (r := xor_fold16 4 0 line mod _) in *.
  assert (Hu : 0 <= u32 r <= r) by (unfold u32, wrap; split; [apply Z.mod_pos_bound; lia|apply Z.mod_le; lia]).
  destruct (at_in_range parentRTTs (u32 r)) as [x Hx]; [lia|]. by exists (u32 r), x.
Qed.

Lemma load_ok send bits addrs cyc mm : exists cyc' mm', loadPageTables parent_access parentRTTs send bits addrs cyc mm = Ret (cyc', mm').
Proof using parents.
  unfold loadPageTables. destruct send; [|by eexists _, _]. generalize cyc at 2 as resp. revert cyc mm.
  induction addrs as [|a addrs IH]; intros cyc mm resp; cbn [load_loop]; [by eexists _, _|].
  destruct (parent_ret (Z.shiftr a bits)) as (i & x & -> & Hx). cbn [mbind outcome_bind]. destruct (parent_access _ _ _ _) as [r mm']. rewrite Hx. apply IH.
Qed.

Lemma upd_walker_ok v c f co :
  cores v !! c = Some co -> (forall w, walker_paging (f w) = walker_paging w /\ walker_line_shift (f w) = walker_line_shift w) ->
  exists cs', upd_walker v c f = Ret (set_cores v cs') /\ step 0 (cores v) cs'.
Proof.
  intros Hc Hf. unfold upd_walker, core_at. rewrite Hc. cbn [mbind outcome_bind]. eexists. split; [done|].
  eapply cores_step_put; [done|]. destruct (Hf (pg_walker co)). by apply core_step_same.
Qed.

Lemma step_core d cs cs' c co : step d cs cs' -> cs !! c = Some co -> exists co', cs' !! c = Some co' /\ core_step (page_bits m) ls d co co'.
Proof. intros H2 Hc. by destruct (Forall2_lookup_l _ _ _ _ _ H2 Hc) as (co' & ? & ?); exists co'. Qed.

Lemma step_fit d n cs cs' : step d cs cs' -> n + d <= 2 ^ 31 - 1 -> fit n cs -> fit (n + d) cs'.
Proof. intros H2 Hn. induction H2; intros Hf; inv Hf; constructor; [by eapply core_step_fit|auto]. Qed.

Lemma charge_map_ok v c req o co :
  cores v !! c = Some co -> exists req' cs', charge_map v c req o = Ret (req', set_cores v cs') /\ step 0 (cores v) cs'.
Proof.
  intros Hc. unfold charge_map, core_at. rewrite Hc. cbn [mbind outcome_bind]. destruct (walker_timing _).
  - destruct (upd_walker_ok v c (fun w => add_overheads w 0 0 o 0 0 0) co Hc) as (cs' & -> & Hs); [done|]. by eexists _, _.
  - exists req, (cores v). split; [by destruct v|apply cores_step_refl].
Qed.

Lemma tlb_shootdown_ok v c req vpn n co :
  cores v !! c = Some co -> fit n (cores v) -> n + 1 <= 2 ^ 31 - 1 ->
  exists req' cs', tlb_shootdown v c req vpn = Ret (req', set_cores v cs') /\ step 1 (cores v) cs' /\
    req_srcId req' = req_srcId req /\ is_puts req' = is_puts req.
Proof.
  intros Hc Hf Hn. unfold tlb_shootdown.
  destruct (each_tlb_ok (page_bits m) ls (fun t => shootdown t vpn) 1 n 0 (cores v)) as (o & cs & -> & H2); try done.
  { intros t k P Hk G. apply good_shootdown; [done|lia]. }
  cbn [mbind outcome_bind]. destruct (step_core _ _ _ _ _ H2 Hc) as (co1 & Hc1 & _). unfold core_at. cbn [cores set_cores]. rewrite Hc1. cbn [mbind outcome_bind].
  destruct (walker_timing _).
  - destruct (upd_walker_ok (set_cores v cs) c (fun w => add_overheads w 0 o 0 0 0 0) co1 Hc1) as (cs' & -> & Hs); [done|].
    eexists _, cs'. split; [done|]. split; [|done]. eapply (cores_step_trans _ _ 1 0); [lia|lia|done|done].
  - eexists _, cs. split; [done|done].
Qed.

Lemma update_flags_ok v ppn s d n : fit n (cores v) -> n <= 2 ^ 31 - 1 -> exists cs', walker_update_flags v ppn s d = Ret (set_cores v cs') /\ step 0 (cores v) cs'.
Proof.
  intros Hf Hn. unfold walker_update_flags.
  destruct (each_tlb_ok (page_bits m) ls (fun t => update_tlb_flags t ppn s d) 0 n 0 (cores v)) as (o & cs & -> & H2); [|done|lia|done|by exists cs].
  intros t k P Hk G. rewrite Z.add_0_r. by apply good_flags.
Qed.

(** What every step keeps besides the cores and the page tables. *)
Definition same_setup v v' : Prop :=
  zpage_shift v' = zpage_shift v /\ enable_shared_memory v' = enable_shared_memory v /\ mem_access_time v' = mem_access_time v.

Lemma page_fault_ok v c k req n co b M Ms :
  let vAddr := u64 (Z.shiftl (lineAddr req) ls) in
  cores v !! c = Some co -> walker_line_shift (pg_walker co) = ls -> fit n (cores v) -> n + 1 <= 2 ^ 31 - 1 ->
  zpage_shift v = page_bits m -> enable_shared_memory v = false -> 0 <= mem_access_time v < 2 ^ 32 ->
  pagings_ok m N (paging_array v) (buddy_allocator v) Ms -> paging_array v !! k = Some b -> Ms !! k = Some M -> M !! vpn m vAddr = None ->
  supply 4 (buddy_allocator v) -> cur_pdp_num (lm b) < 512 ->
  exists g req' v' Ms', do_page_fault v c k req = Ret (g, req', v') /\ step 1 (cores v) (cores v') /\ same_setup v v' /\
    pagings_ok m N (paging_array v') (buddy_allocator v') Ms' /\ maps_grow Ms Ms' /\
    exists M', Ms' !! k = Some M' /\ M' !! vpn m vAddr = Some g.
Proof.
  intros vAddr Hc Hls Hf Hn Hps Hsh Hmt Ok Hb HM Hnone (g & a' & Htake & Hsup) Hcur.
  unfold do_page_fault, core_at. rewrite Hc. cbn [mbind outcome_bind]. rewrite Hls, Htake. fold vAddr. cbn [mbind outcome_bind].
  set (v1 := set_pagings v (paging_array v) a'). destruct (tlb_shootdown_ok v1 c req (Z.shiftr vAddr (zpage_shift v1)) n co Hc Hf Hn) as (req1 & cs1 & -> & H1 & Hsrc & Hput).
  cbn [mbind outcome_bind]. change (enable_shared_memory (set_cores v1 cs1)) with (enable_shared_memory v). rewrite Hsh. unfold map_private, with_paging. change (paging_array (set_cores v1 cs1)) with (paging_array v). rewrite Hb.
  change (mem_access_time (set_cores v1 cs1)) with (mem_access_time v). change (zpage_shift (set_cores v1 cs1)) with (zpage_shift v). rewrite Hps.
  destruct (pagings_fault m N (paging_array v) (buddy_allocator v) Ms k b M g a' (mem_access_time v) (req_srcId req1) vAddr (is_puts req1) Ok Hb HM Hnone Htake Hsup Hcur)
    as (l & b' & E & Hlat & Ok' & Hgrow).
  change (buddy_allocator (set_cores v1 cs1)) with a'. rewrite E. cbn [mbind outcome_bind].
  rewrite (proj2 (Z.eqb_neq _ _)) by (rewrite u64_small by lia; unfold u64, wrap; vm_compute (-1 mod 2 ^ 64); lia).
  destruct (step_core _ _ _ _ _ H1 Hc) as (co1 & Hc1 & _). set (v2 := set_pagings (set_cores v1 cs1) _ _).
  destruct (charge_map_ok v2 c req1 (u64 l) co1 Hc1) as (req2 & cs2 & -> & H2). cbn [mbind outcome_bind].
  destruct (step_core _ _ _ _ _ H2 Hc1) as (co2 & Hc2 & _).
  destruct (upd_walker_ok (set_cores v2 cs2) c (fun w => add_overheads w 0 0 0 0 0 1) co2 Hc2) as (cs3 & -> & H3); [done|]. cbn [mbind outcome_bind].
  eexists g, _, _, _. split; [done|]. split_and!; try done.
  - cbn [cores set_cores v2 set_pagings v1] in *. replace 1 with (1 + 0 + 0) by done. eapply cores_step_trans; [lia|lia| |exact H3]. eapply cores_step_trans; [lia|lia|exact H1|exact H2].
  - eexists. rewrite list_lookup_insert_eq by (by eapply lookup_lt_Some). split; [done|]. by rewrite lookup_insert_eq.
Qed.
End Steps.

(** *** Walks and translations of a core *)

Section Translation.
Context {A Mem : Type} `{PageSource A} (parent_access : Mem -> Z -> Z -> Z -> Z * Mem) (parentRTTs : list Z) (parents : parentRTTs <> []).
Context (m : PagingStyle) (ls N : Z).
Implicit Types v : vm A Mem.

(** Enough memory for a page fault. *)
Definition ready v : Prop :=
  supply 4 (buddy_allocator v) /\ forall b, b ∈ paging_array v -> cur_pdp_num (lm b) < 512.

Lemma walker_access_ok v c req n co k Ms :
  let vAddr := u64 (Z.shiftl (lineAddr req) ls) in
  vm_inv m ls N n Ms v -> cores v !! c = Some co -> walker_paging (pg_walker co) = Some k -> n + 1 <= 2 ^ 31 - 1 -> ready v ->
  exists g req' v' Ms', walker_access parent_access parentRTTs v c req = Ret (g, req', v') /\ vm_inv m ls N (n + 1) Ms' v' /\
    Forall2 (core_step (page_bits m) ls 1) (cores v) (cores v') /\ maps_grow Ms Ms' /\ exists M', Ms' !! k = Some M' /\ M' !! vpn m vAddr = Some g.
Proof using parents.
  intros vAddr [V1 V2 V3 V4 V5 V6] Hc Hk Hn [Hsup Hcur]. pose proof (proj1 (Forall_lookup _ _) V5 c co Hc) as [G2 G3 G4].
  rewrite Hk in G3. destruct G3 as [Hproc Hlt]. destruct (lookup_lt_is_Some_2 Ms k Hlt) as [M HM].
  destruct (lookup_lt_is_Some_2 (paging_array v) k) as [b Hb]; [by rewrite (po_length _ _ _ _ _ V4)|].
  assert (Hfit : Forall (core_fit (page_bits m) ls n) (cores v)) by (eapply Forall_impl; [exact V5|]; intros x; apply core_good_fit).
  unfold walker_access, core_at. rewrite Hc. cbn [mbind outcome_bind]. rewrite Hk. unfold with_paging. rewrite Hb, G2. fold vAddr.
  destruct (pagings_access m N _ _ Ms k b M (zpage_shift v) vAddr (req_srcId req) (is_puts req) (req_triggerPageShared req) (req_triggerPageDirty req) V4 Hb HM)
    as (wr & b' & E & Hw & Ok' & Hs & Hcp). rewrite E. cbn [mbind outcome_bind].
  set (v1 := set_pagings v _ _). destruct (load_ok parent_access parentRTTs parents (walker_timing (pg_walker co)) ls (pgt_addrs wr) (cycle req) (mem v1)) as (cyc & mm & ->).
  cbn [mbind outcome_bind]. set (v2 := set_mem v1 mm). set (req1 := set_walk req wr cyc).
  destruct (upd_walker_ok m ls v2 c (fun w => add_overheads w 1 0 0 (cyc - cycle req) 0 0) co Hc) as (cs3 & -> & H3); [done|]. cbn [mbind outcome_bind].
  set (v3 := set_cores v2 cs3). destruct (step_core m ls _ _ _ _ _ H3 Hc) as (co3 & Hc3 & S3).
  assert (Hkk : (k < length (paging_array v))%nat) by (by eapply lookup_lt_Some).
  assert (Hmid : exists g req' v4 Ms', match w_page wr with Some page => Ret (page, req1, v3) | None => do_page_fault v3 c k req1 end = Ret (g, req', v4) /\
    Forall2 (core_step (page_bits m) ls 1) (cores v3) (cores v4) /\ same_setup v3 v4 /\ pagings_ok m N (paging_array v4) (buddy_allocator v4) Ms' /\ maps_grow Ms Ms' /\
    exists M', Ms' !! k = Some M' /\ M' !! vpn m vAddr = Some g).
  { destruct (w_page wr) as [g|].
    - exists g, req1, v3, Ms. split; [done|]. split_and!; try done; [|apply maps_grow_refl|by exists M].
      eapply Forall2_impl; [apply cores_step_refl|]. intros x y [X1 X2 X3 X4 X5]. split; try done. intros data q P Hq G.
      eapply good_mono; [done| |apply X5; [|exact G]; lia]. lia.
    - eapply (page_fault_ok m ls N v3 c k req1 n co3 b' M Ms); try done.
      + rewrite (cs_shift _ _ _ _ _ S3). exact G2.
      + replace n with (n + 0) by lia. eapply step_fit; [exact H3|lia|exact Hfit].
      + simpl. by rewrite list_lookup_insert_eq.
      + simpl. by rewrite Hs.
      + rewrite Hcp. apply Hcur. by eapply list_elem_of_lookup_2. }
  destruct Hmid as (g & req' & v4 & Ms' & -> & H4 & (Q1 & Q2 & Q3) & Ok4 & Hgrow & HM'). cbn [mbind outcome_bind].
  destruct (step_core m ls _ _ _ _ _ H4 Hc3) as (co4 & Hc4 & S4).
  assert (Hst : Forall2 (core_step (page_bits m) ls 1) (cores v) (cores v4)).
  { replace 1 with (0 + 1) by done. eapply cores_step_trans; [lia|lia|exact H3|exact H4]. }
  assert (Hflags : exists v5, (if req_triggerPageShared req' || req_triggerPageDirty req'
      then walker_update_flags v4 g (req_triggerPageShared req') (req_triggerPageDirty req') else Ret v4) = Ret v5 /\
    exists cs5, v5 = set_cores v4 cs5 /\ Forall2 (core_step (page_bits m) ls 0) (cores v4) cs5).
  { destruct (_ || _).
    - destruct (update_flags_ok m ls v4 g (req_triggerPageShared req') (req_triggerPageDirty req') (n + 1)) as (cs5 & -> & H5); [by eapply step_fit|lia|].
      eexists. split; [done|]. by exists cs5.
    - exists v4. split; [done|]. exists (cores v4). split; [by destruct v4|apply cores_step_refl]. }
  destruct Hflags as (v5 & -> & cs5 & -> & H5). cbn [mbind outcome_bind].
  destruct (step_core m ls _ _ _ _ _ H5 Hc4) as (co5 & Hc5 & _).
  destruct (upd_walker_ok m ls (set_cores v4 cs5) c (fun w => add_overheads w 0 0 0 0 (cycle req' - cycle req) 0) co5 Hc5) as (cs6 & -> & H6); [done|].
  cbn [mbind outcome_bind]. eexists g, req', _, Ms'. split; [done|].
  assert (Hall : Forall2 (core_step (page_bits m) ls 1) (cores v) cs6).
  { replace 1 with (1 + 0 + 0) by done. eapply cores_step_trans; [lia|lia| |exact H6]. eapply cores_step_trans; [lia|lia|exact Hst|exact H5]. }
  split_and!; try done. split; try done; simpl; rewrite ?Q1, ?Q2, ?Q3; try done. eapply cores_good_step; [exact Hall|done|lia|done].
Qed.
End Translation.

(** *** Addresses *)

Lemma page_bits_range m : long_mode m = true -> 12 <= page_bits m <= 30 /\ page_bits m + 9 * Z.of_nat (depth m) = 48.
Proof. by destruct m. Qed.

Section Addresses.
Context (m : PagingStyle) (cfg : tlb_config) (line : Z).
Context (Hm : long_mode m = true) (Hp : Tlb.page_shift cfg = page_bits m) (Hl : 0 <= line_shift cfg <= page_bits m)
  (Hr : 0 <= line < 2 ^ (48 - line_shift cfg)).
Local Set Default Proof Using "All".

Lemma virt_addr_eq : virt_addr cfg line = line * 2 ^ line_shift cfg /\ 0 <= virt_addr cfg line < 2 ^ 48.
Proof.
  assert (Hb : 0 <= line * 2 ^ line_shift cfg < 2 ^ 48).
  { replace 48 with ((48 - line_shift cfg) + line_shift cfg) by lia. rewrite Z.pow_add_r by (pose proof (page_bits_range m Hm); lia).
    assert (0 < 2 ^ line_shift cfg) by (apply Z.pow_pos_nonneg; lia). nia. }
  unfold virt_addr. rewrite Z.shiftl_mul_pow2 by lia. rewrite u64_small by lia. split; [done|lia].
Qed.

Lemma pow_split : 2 ^ page_bits m = 2 ^ (page_bits m - line_shift cfg) * 2 ^ line_shift cfg.
Proof. rewrite <- Z.pow_add_r by lia. f_equal. lia. Qed.

Lemma req_vpn_eq : req_vpn cfg line = line / 2 ^ (page_bits m - line_shift cfg) /\ req_vpn cfg line = vpn m (virt_addr cfg line) /\
  0 <= req_vpn cfg line < 2 ^ (9 * Z.of_nat (depth m)).
Proof.
  destruct (page_bits_range m Hm) as [B1 B2]. destruct virt_addr_eq as [E R]. unfold req_vpn. rewrite Hp, Z.shiftr_div_pow2 by lia.
  assert (Hq : 0 <= virt_addr cfg line / 2 ^ page_bits m < 2 ^ (9 * Z.of_nat (depth m))) by (apply div_pow2_bound; [lia|lia|by rewrite B2]).
  split_and!; try lia.
  - rewrite E, pow_split, Z.div_mul_cancel_r; [done|apply Z.pow_nonzero; lia|apply Z.pow_nonzero; lia].
  - unfold vpn. by rewrite Z.mod_small.
Qed.

Lemma phys_line_eq g : 0 <= g -> g * 2 ^ page_bits m < 2 ^ 64 ->
  phys_line cfg g line = g * 2 ^ (page_bits m - line_shift cfg) + line mod 2 ^ (page_bits m - line_shift cfg).
Proof.
  intros Hg Hg2. destruct virt_addr_eq as [E R]. unfold phys_line. rewrite Hp, Z.shiftl_mul_pow2, land_shiftl_1_ones by lia.
  rewrite u64_small by (split; [|lia]; apply Z.mul_nonneg_nonneg; [lia|apply Z.pow_nonneg; lia]).
  rewrite Z.shiftr_div_pow2, <- (Z.shiftl_mul_pow2 g), Z.lor_comm by lia.
  rewrite lor_shiftl_add by (first [lia|apply mod_pow2_range; lia]). rewrite E, pow_split, Z.mul_mod_distr_r by (apply Z.pow_nonzero; lia).
  rewrite Z.mul_assoc, <- Z.mul_add_distr_r, Z.div_mul by (apply Z.pow_nonzero; lia). lia.
Qed.
End Addresses.

(** *** The buffer of a core in front of its walker *)

Section Core.
Context {A Mem : Type} `{PageSource A} (parent_access : Mem -> Z -> Z -> Z -> Z * Mem) (parentRTTs : list Z) (parents : parentRTTs <> []).
Context (m : PagingStyle) (ls N : Z) (Hls : 0 <= ls <= page_bits m) (HN : N * 2 ^ page_bits m <= 2 ^ 64).
Implicit Types v : vm A Mem.

Lemma core_at_ret v c co : cores v !! c = Some co -> core_at v c = Ret co.
Proof. intros Hc. unfold core_at. by rewrite Hc. Qed.

Lemma core_tlb_set co data t d : core_tlb (set_core_tlb co data t) d = if bool_decide (d = data) then t else core_tlb co d.
Proof. by destruct data, d. Qed.

Lemma core_set_same co data t : ctype (set_core_tlb co data t) = ctype co /\ core_proc (set_core_tlb co data t) = core_proc co /\ pg_walker (set_core_tlb co data t) = pg_walker co.
Proof. by destruct data. Qed.

(** One buffer of core [c] is replaced by one that holds translations of its process. *)
Lemma inv_put_tlb v c co data t n n' Ms :
  vm_inv m ls N n Ms v -> cores v !! c = Some co -> n <= n' -> tlb_good (page_bits m) ls n' (core_entry (9 * Z.of_nat (depth m)) Ms co) t ->
  vm_inv m ls N n' Ms (put_core v c (set_core_tlb co data t)).
Proof.
  intros [V1 V2 V3 V4 V5 V6] Hc Hn G. split; try done. simpl. apply Forall_insert.
  - eapply Forall_impl; [exact V5|]. intros x [G2 G3 G4]. split; try done. intros d. eapply good_mono; [|done|apply G4]. done.
  - pose proof (proj1 (Forall_lookup _ _) V5 c co Hc) as [G2 G3 G4]. destruct (core_set_same co data t) as (S1 & S2 & S3). split; rewrite ?S1, ?S2, ?S3; try done.
    intros d. rewrite core_tlb_set. unfold core_entry. rewrite S3. case_bool_decide; [done|]. eapply good_mono; [|exact Hn|apply G4]. done.
Qed.

(** A page that is mapped is below the limit of the memory. *)
Lemma mapped_below v n Ms k M x g : vm_inv m ls N n Ms v -> Ms !! k = Some M -> M !! x = Some g -> 0 <= g /\ g * 2 ^ page_bits m < 2 ^ 64.
Proof using HN Hls.
  intros V HM Hx. destruct (lookup_lt_is_Some_2 (paging_array v) k) as [b Hb]; [rewrite (po_length _ _ _ _ _ (vi_pagings _ _ _ _ _ _ V)); by eapply lookup_lt_Some|].
  destruct (po_pages _ _ _ _ _ (vi_pagings _ _ _ _ _ _ V) k b Hb) as (L & L1 & L2 & _ & _ & L5).
  destruct (taken_below _ _ g L1) as [B1 B2]; [apply L5; left; by exists k, M, x|]. rewrite L2 in B2. split; [done|].
  assert (0 < 2 ^ page_bits m) by (apply Z.pow_pos_nonneg; lia). nia.
Qed.

Lemma translate_ok v c data line isLoad cyc raw n co k Ms :
  vm_inv m ls N n Ms v -> cores v !! c = Some co -> walker_paging (pg_walker co) = Some k -> 0 <= line < 2 ^ (48 - ls) -> n + 3 <= 2 ^ 31 - 1 -> ready v ->
  exists pl cyc' v' Ms' M g, TlbTranslate parent_access parentRTTs v c data line isLoad cyc raw = Ret (pl, cyc', v') /\ vm_inv m ls N (n + 3) Ms' v' /\
    maps_grow Ms Ms' /\ Ms' !! k = Some M /\ M !! (line / 2 ^ (page_bits m - ls)) = Some g /\
    pl = g * 2 ^ (page_bits m - ls) + line mod 2 ^ (page_bits m - ls).
Proof using parents Hls HN.
  intros V Hc Hk Hr Hn Hready. pose proof (proj1 (Forall_lookup _ _) (vi_cores _ _ _ _ _ _ V) c co Hc) as CG. pose proof (cg_tlb _ _ _ _ _ CG data) as G.
  unfold TlbTranslate, tlb_access. cbn [get_tlb put_tlb slot]. rewrite (core_at_ret v c co Hc). cbn [mbind outcome_bind lineAddr].
  set (t := core_tlb co data) in *. set (cfg := tlb_cfg t). pose proof (tg_page _ _ _ _ _ G) as Hps. pose proof (tg_line _ _ _ _ _ G) as Hli. fold cfg in Hps, Hli.
  destruct (req_vpn_eq m cfg line (vi_long _ _ _ _ _ _ V) Hps ltac:(lia) ltac:(by rewrite Hli)) as (Q1 & Q2 & Q3). set (q := req_vpn cfg line) in *.
  assert (Hphys : forall Ms' M g n' v', vm_inv m ls N n' Ms' v' -> Ms' !! k = Some M -> M !! q = Some g ->
    phys_line cfg g line = g * 2 ^ (page_bits m - ls) + line mod 2 ^ (page_bits m - ls)).
  { intros Ms' M g n' v' V' HM Hg. destruct (mapped_below v' n' Ms' k M q g V' HM Hg). rewrite <- Hli. apply (phys_line_eq m); try done; [by apply V|lia|by rewrite Hli]. }
  destruct (good_look_up _ _ n _ _ q (good_counters _ _ n _ _ 0 1 0 0 G) ltac:(lia)) as (r & t1 & -> & Hcfg & Hm). cbn [mbind outcome_bind].
  change (tlb_cfg (add_counters t 0 1 0 0)) with cfg in Hcfg. destruct r as [i|].
  - destruct Hm as [G1 (e & He & k' & M & Hk' & HM & Hg & _)]. rewrite Hk in Hk'. injection Hk' as <-.
    unfold tlb_hit, get_entry. rewrite He. cbn [mbind outcome_bind put_tlb slot]. 
    erewrite core_at_ret by (simpl; by rewrite list_lookup_insert_eq by (by eapply lookup_lt_Some)). cbn [mbind outcome_bind]. destruct (core_set_same co data t1) as (S1 & S2 & S3).
    assert (V' : vm_inv m ls N (n + 3) Ms (put_core (put_core v c (set_core_tlb co data t1)) c (set_core_tlb (set_core_tlb co data t1) data (add_counters t1 0 0 1 0)))).
    { eapply inv_put_tlb; [eapply inv_put_tlb; [exact V|done| |exact G1]; lia|simpl; by rewrite list_lookup_insert_eq by (by eapply lookup_lt_Some)|lia|].
      apply good_counters. eapply good_mono; [| |exact G1]; [|lia]. intros a b. unfold core_entry. by rewrite S3. }
    eexists _, _, _, Ms, M, (p_page_no e). split; [done|]. split; [exact V'|]. split_and!; try done; [apply maps_grow_refl|rewrite <- Hli; congruence|]. by eapply Hphys.
  - set (v1 := put_core v c (set_core_tlb co data t1)). set (co1 := set_core_tlb co data t1). destruct (core_set_same co data t1) as (S1 & S2 & S3). fold co1 in S1, S2, S3.
    assert (V1 : vm_inv m ls N (n + 1) Ms v1) by (eapply inv_put_tlb; [exact V|done|lia|]; eapply good_mono; [|done|exact Hm]; by intros a b []).
    assert (Hc1 : cores v1 !! c = Some co1) by (simpl; by rewrite list_lookup_insert_eq by (by eapply lookup_lt_Some)).
    unfold tlb_miss. set (req1 := set_origin _ _ _).
    destruct (walker_access_ok parent_access parentRTTs parents m ls N v1 c req1 (n + 1) co1 k Ms V1 Hc1) as (g & req' & v2 & Ms' & -> & V2 & H2 & Hgrow & M' & HM' & Hg);
      [by rewrite S3|lia|exact Hready|]. cbn [mbind outcome_bind get_tlb put_tlb slot].
    destruct (step_core m ls _ _ _ _ _ H2 Hc1) as (co2 & Hc2 & St). rewrite (core_at_ret v2 c co2 Hc2). cbn [mbind outcome_bind].
    change (lineAddr req1) with line in Hg. assert (Hq : u64 (Z.shiftl line ls) = virt_addr cfg line) by (unfold virt_addr; by rewrite Hli). rewrite Hq, <- Q2 in Hg.
    assert (Hent : forall a b, core_entry (9 * Z.of_nat (depth m)) Ms co a b -> core_entry (9 * Z.of_nat (depth m)) Ms' co2 a b).
    { intros a b. apply core_entry_grow; [done|]. by rewrite (cs_paging _ _ _ _ _ St), S3. }
    pose proof (cs_tlb _ _ _ _ _ St data (n + 1) (fun a b => core_entry (9 * Z.of_nat (depth m)) Ms co a b /\ a <> q) ltac:(lia)) as G2.
    unfold co1 in G2. rewrite core_tlb_set, bool_decide_true in G2 by done. specialize (G2 Hm).
    destruct (miss_entry_pages q g req') as [W1 W2].
    destruct (good_insert _ _ _ _ _ q (miss_entry q g req') (good_counters _ _ _ _ _ 1 0 0 0 G2)) as (i & t3 & -> & _ & G3); [lia| |done|].
    { intros a b [Hab Ha]. split; [done|]. rewrite W2. intros ->. apply Ha. destruct (Hent a g Hab) as (k2 & M2 & _ & HM2 & Hb2 & _).
      by destruct (po_inj _ _ _ _ _ (vi_pagings _ _ _ _ _ _ V2) k2 k M2 M' a q g HM2 HM' Hb2 Hg) as [_ ->]. }
    cbn [mbind outcome_bind]. assert (V3 : vm_inv m ls N (n + 3) Ms' (put_core v2 c (set_core_tlb co2 data t3))).
    { eapply inv_put_tlb; [exact V2|done|lia|]. eapply good_mono; [| |exact G3]; [|lia]. intros a b [[Hab _]|[-> ->]]; [by apply Hent|].
      rewrite W2. exists k, M'. split_and!; try done; [|lia|lia]. by rewrite (cs_paging _ _ _ _ _ St), S3. }
    eexists _, _, _, Ms', M', g. split; [done|]. split; [exact V3|]. split_and!; try done; [rewrite <- Hli; congruence|]. by eapply Hphys.
Qed.

(** A core that does not flush its buffers serves one process only. *)
Definition may_take (co : core_unit) (k : nat) : Prop :=
  has_tlb_methods (ctype co) = true \/ walker_paging (pg_walker co) = None \/ core_proc co = Z.of_nat k.

Lemma setCid_ok v c k n co Ms :
  vm_inv m ls N n Ms v -> cores v !! c = Some co -> (k < length (paging_array v))%nat -> may_take co k ->
  exists v', setCid v c k = Ret v' /\ vm_inv m ls N n Ms v'.
Proof using Hls.
  intros V Hc Hk Hmay. unfold setCid, core_at. rewrite Hc. cbn [mbind outcome_bind]. destruct (lookup_lt_is_Some_2 _ _ Hk) as [b ->].
  eexists. split; [done|]. pose proof V as [V1 V2 V3 V4 V5 V6]. split; try done. simpl. apply Forall_insert; [done|].
  pose proof (proj1 (Forall_lookup _ _) V5 c co Hc) as [G2 G3 G4]. assert (Hlen : (k < length Ms)%nat) by (by rewrite <- (po_length _ _ _ _ _ V4)).
  destruct (core_proc co =? Z.of_nat k) eqn:Ek; zb.
  - split; try done. intros d. simpl. eapply good_mono; [|done|exact (G4 d)]. intros a x (k' & M & Hk' & HM & Hx & Hrg). rewrite Hk' in G3.
    assert (k' = k) as -> by lia. exists k, M. done.
  - unfold flushTlb. destruct (has_tlb_methods (ctype co)) eqn:Hty.
    + split; try done. intros d. simpl. destruct d; simpl; [eapply good_mono; [|done|exact (good_flush _ _ _ _ _ (G4 true))]|eapply good_mono; [|done|exact (good_flush _ _ _ _ _ (G4 false))]]; done.
    + destruct Hmay as [Hm|[Hm|Hm]]; [congruence| |lia]. split; try done. intros d. simpl. eapply good_mono; [|done|exact (G4 d)]. intros a x (k' & M & Hk' & _). congruence.
Qed.
End Core.

(** ** Construction *)

(** The configuration of one core; the fields without initialisers come with what
    is in memory. *)
Record core_conf : Type := mkCoreConf {
  cc_type : core_type;
  cc_proc : Z;
  cc_itlb : tlb_config;
  cc_dtlb : tlb_config;
  cc_ientries : list TlbEntry;
  cc_dentries : list TlbEntry;
  cc_iseq : Z;
  cc_dseq : Z;
  cc_timing : bool
}.

Definition newCore (lineBits : Z) (cc : core_conf) : outcome core_unit :=
  i ← newTlb (cc_itlb cc) (cc_ientries cc) (cc_iseq cc);
  d ← newTlb (cc_dtlb cc) (cc_dentries cc) (cc_dseq cc);
  Ret (mkCoreUnit (cc_type cc) (cc_proc cc) i d (newWalker lineBits (cc_timing cc))).

Section Construction.
Context {A Mem : Type} `{PageSource A}.

(** The page tables of every process, one after the other. *)
Definition new_pagings (md : PagingStyle) (reversed : bool) (numProcs : nat) (a : A) : outcome (list (BasePaging A) * A) :=
  fold_ (fun '(ps, a) (_ : nat) => (b ← newBase md reversed a; Ret (ps ++ [b], source (lm b)))) (seq 0 numProcs) ([], a).

Definition newVm (md : PagingStyle) (reversed : bool) (numProcs : nat) (a : A) (mm : Mem) (lineBits mat : Z) (shared : bool)
    (regions : list (list VmSection)) (ccs : list core_conf) : outcome (vm A Mem) :=
  cs ← fold_ (fun cs cc => co ← newCore lineBits cc; Ret (cs ++ [co])) ccs [];
  '(ps, a) ← new_pagings md reversed numProcs a;
  Ret (mkVm cs ps a mm (page_bits md) mat shared regions).

(** Buffers with LRU replacement, the one policy that [evict] has code for, whose
    sequence counters, which no constructor sets, start between 0 and [s]. *)
Definition conf_ok (md : PagingStyle) (ls s : Z) (cc : core_conf) : Prop :=
  0 <= cc_iseq cc <= s /\ 0 <= cc_dseq cc <= s /\
  forall cfg, cfg = cc_itlb cc \/ cfg = cc_dtlb cc -> Tlb.page_shift cfg = page_bits md /\ line_shift cfg = ls /\ evict_policy cfg = LRU.

Lemma newTlb_good sh ls s P cfg es seq0 t :
  Tlb.page_shift cfg = sh -> line_shift cfg = ls -> evict_policy cfg = LRU -> 0 <= seq0 <= s -> s < 2 ^ 31 -> newTlb cfg es seq0 = Ret t -> tlb_good sh ls s P t.
Proof.
  intros H1 H2 H3 Hs Hb E. destruct (newTlb_is cfg es seq0 t ltac:(lia) E) as (I & Hc & Hl & Hn & Hq). split; rewrite ?Hc; try done; try lia.
  exists []. split; [done|]. by intros x Hx%not_elem_of_nil.
Qed.

Lemma newCore_good md ls s Ms cc co : s < 2 ^ 31 -> conf_ok md ls s cc -> newCore ls cc = Ret co -> core_good md ls s Ms co.
Proof.
  intros Hs (C2 & C3 & C4) E. unfold newCore in E. apply bind_ret_inv in E as (i & Ei & E). apply bind_ret_inv in E as (d & Ed & E). injection E as <-.
  split; try done. intros [|]; simpl; [destruct (C4 (cc_dtlb cc)) as (? & ? & ?); [by right|]|destruct (C4 (cc_itlb cc)) as (? & ? & ?); [by left|]].
  - exact (newTlb_good _ _ s _ _ _ (cc_dseq cc) d ltac:(done) ltac:(done) ltac:(done) C3 Hs Ed).
  - exact (newTlb_good _ _ s _ _ _ (cc_iseq cc) i ltac:(done) ltac:(done) ltac:(done) C2 Hs Ei).
Qed.

Lemma newCores_good md ls s Ms ccs cs : s < 2 ^ 31 -> Forall (conf_ok md ls s) ccs ->
  fold_ (fun cs cc => co ← newCore ls cc; Ret (cs ++ [co])) ccs [] = Ret cs -> Forall (core_good md ls s Ms) cs.
Proof.
  intros Hs Hc E. rewrite Forall_forall in Hc. refine (fold_invariant _ (Forall (core_good md ls s Ms)) ccs [] cs _ _ E); [|constructor].
  intros cc l l' Hin Hl El. apply bind_ret_inv in El as (co & Eco & El). injection El as <-. apply Forall_app. split; [done|]. constructor; [|constructor].
  eapply newCore_good; [done| |done]. by apply Hc.
Qed.

(** All pages in use are out. *)
Definition used_out (N : Z) (ps : list (BasePaging A)) (a : A) (Ms : list (gmap Z Z)) : Prop :=
  exists L, taken a L /\ page_limit a = N /\ forall g, foreign ps Ms (length ps) g -> g ∈ L.

Lemma newBase_new md rev (a : A) b L : long_mode md = true -> taken a L -> newBase md rev a = Ret b ->
  base_is b ∅ /\ mode (lm b) = md /\
  exists g a', take_page a = Ret (Some g, a') /\ source (lm b) = a' /\ tables (lm b) = {[0 := mkPageTable ∅ g]}.
Proof.
  intros Hm HL E. unfold newBase in E. apply bind_ret_inv in E as (p & E & Eb). injection Eb as <-.
  unfold newPaging in E. apply bind_ret_inv in E as ([[g|] a'] & Et & E); [|done]. injection E as <-.
  destruct (newPaging_ok md a g a' L Hm Et HL) as (p & Ep & R & _). unfold newPaging in Ep. rewrite Et in Ep. injection Ep as <-.
  split; [|split; [done|by exists g, a']]. split; [done|]. unfold index_ok. simpl. destruct rev; [|done]. split; intros ? ? Hx; by rewrite lookup_empty in Hx.
Qed.

Lemma foreign_snoc (ps : list (BasePaging A)) Ms b k g :
  foreign (ps ++ [b]) (Ms ++ [∅]) k g -> foreign ps Ms k g \/ (k <> length ps /\ exists t tb, tables (lm b) !! t = Some tb /\ table_page tb = g).
Proof.
  intros [(j & M & n & Hj & Hn)|(j & b' & t & tb & Hjk & Hb & Ht & Hg)].
  - left. left. apply lookup_snoc_Some in Hj as [[_ Hj]|[_ <-]]; [by exists j, M, n|by rewrite lookup_empty in Hn].
  - apply lookup_snoc_Some in Hb as [[_ Hb]|[-> <-]]; [left; right; by exists j, b', t, tb|]. right. split; [done|]. by exists t, tb.
Qed.

(** The tables of one more process. *)
Lemma pagings_snoc md N rev ps (a : A) Ms b :
  long_mode md = true -> pagings_ok md N ps a Ms -> used_out N ps a Ms -> newBase md rev a = Ret b ->
  pagings_ok md N (ps ++ [b]) (source (lm b)) (Ms ++ [∅]) /\ used_out N (ps ++ [b]) (source (lm b)) (Ms ++ [∅]).
Proof.
  intros Hm [P1 P2 P3 P4] (L & HL & HN & HU) E. destruct (newBase_new md rev a b L Hm HL E) as (B & Hmd & g & a' & Et & Hs & Htb).
  destruct (take_fresh _ _ _ _ HL Et) as [Hg HL']. pose proof (take_limit _ _ _ _ HL Et) as Hlim. rewrite HN in Hlim.
  assert (Hone : forall t tb, tables (lm b) !! t = Some tb -> t = 0 /\ table_page tb = g).
  { intros t tb Ht. rewrite Htb in Ht. apply lookup_singleton_Some in Ht as [<- <-]. done. }
  assert (Hall : forall k x, foreign ps Ms k x -> x ∈ L).
  { intros k x Hx. apply HU. destruct Hx as [Hx|(j & b' & t & tb & _ & Hb & Hrest)]; [by left|right]. exists j, b', t, tb. split; [|done].
    apply lookup_lt_Some in Hb. lia. }
  assert (Hall' : forall k x, foreign (ps ++ [b]) (Ms ++ [∅]) k x -> x ∈ g :: L).
  { intros k x Hx. apply foreign_snoc in Hx as [Hx|(_ & t & tb & Ht & <-)]; [right; by eapply Hall|]. destruct (Hone t tb Ht) as [_ ->]. by left. }
  rewrite Hs. split; [|exists (g :: L); split_and!; [done|done|]; intros x; apply Hall'].
  split.
  - rewrite !length_app. simpl. lia.
  - intros k bk Mk Hb HM. apply lookup_snoc_Some in Hb as [[Hlt Hb]|[-> <-]].
    + rewrite lookup_app_l in HM by lia. by eapply P2.
    + rewrite P1 in HM. rewrite lookup_app_r, Nat.sub_diag in HM by lia. injection HM as <-. done.
  - intros k bk Hb. apply lookup_snoc_Some in Hb as [[Hlt Hb]|[-> <-]].
    + destruct (P3 k bk Hb) as (L0 & _ & _ & J3 & J4 & _). exists (g :: L). simpl. split_and!; try done; [|intros x; apply Hall'].
      intros t tb Ht. assert (Hin : table_page tb ∈ L) by (apply HU; right; exists k, bk, t, tb; split; [lia|done]). split; [by right|].
      intros Hf. apply foreign_snoc in Hf as [Hf|(_ & t' & tb' & Ht' & He)]; [by destruct (J3 t tb Ht)|]. destruct (Hone t' tb' Ht') as [_ Hg']. congruence.
    + exists (g :: L). simpl. split_and!; try done; [| |intros x; apply Hall'].
      * intros t tb Ht. destruct (Hone t tb Ht) as [_ ->]. split; [by left|]. intros Hf. apply foreign_snoc in Hf as [Hf|(Hne & _)]; [|done]. by apply Hg, (Hall (length ps)).
      * intros t t' tb tb' Ht Ht' _. destruct (Hone t tb Ht) as [-> _], (Hone t' tb' Ht') as [-> _]. done.
  - intros j j' M M' n n' x Hj Hj' Hn Hn'. apply lookup_snoc_Some in Hj as [[_ Hj]|[_ <-]], Hj' as [[_ Hj']|[_ <-]];
      rewrite ?lookup_empty in *; try done. by eapply P4.
Qed.

Lemma new_pagings_ok md rev np (a : A) ps a' :
  long_mode md = true -> taken a [] -> new_pagings md rev np a = Ret (ps, a') -> exists Ms, pagings_ok md (page_limit a) ps a' Ms /\ length ps = np.
Proof.
  intros Hm HL E. set (N := page_limit a). unfold new_pagings in E.
  assert (I0 : exists Ms, pagings_ok md N [] a Ms /\ used_out N [] a Ms).
  { exists []. split; [split; done|]. exists []. split_and!; try done. intros g [(j & M & n & Hj & _)|(j & b & t & tb & _ & Hb & _)]; done. }
  enough (Hx : forall l ps0 a0, (exists Ms, pagings_ok md N ps0 a0 Ms /\ used_out N ps0 a0 Ms) ->
     fold_ (fun '(ps, a) (_ : nat) => (b ← newBase md rev a; Ret (ps ++ [b], source (lm b)))) l (ps0, a0) = Ret (ps, a') ->
     exists Ms, pagings_ok md N ps a' Ms /\ length ps = (length ps0 + length l)%nat).
  { destruct (Hx _ _ _ I0 E) as (Ms & Ok & Hl). exists Ms. split; [done|]. by rewrite Hl, length_seq. }
  induction l as [|i l IH]; intros ps0 a0 (Ms & Ok & U) El; cbn [fold_] in El.
  - injection El as <- <-. exists Ms. split; [done|simpl; lia].
  - apply bind_ret_inv in El as ([ps1 a1] & Eb & El). apply bind_ret_inv in Eb as (b & Eb & Ep). injection Ep as <- <-.
    destruct (pagings_snoc md N rev ps0 a0 Ms b Hm Ok U Eb) as [Ok1 U1]. destruct (IH _ _ (ex_intro _ _ (conj Ok1 U1)) El) as (Ms' & Ok' & Hl).
    exists Ms'. split; [done|]. rewrite Hl, length_app. simpl. lia.
Qed.
End Construction.

(** ** Properties *)

Inductive vm_op : Type :=
  | Translate (c : nat) (data : bool) (line : Z) (isLoad : bool) (cyc : Z) (raw : raw_req)
  | Switch (c proc : nat).

(** The process, the virtual line and the physical line of a translation. *)
Record answer : Type := mkAnswer { an_proc : Z; an_line : Z; an_phys : Z }.

Section History.
Context {A Mem : Type} `{PageSource A} (parent_access : Mem -> Z -> Z -> Z -> Z * Mem) (parentRTTs : list Z).
Implicit Types v : vm A Mem.

Definition vm_do v (o : vm_op) : outcome (list answer * vm A Mem) :=
  match o with
  | Translate c data line isLoad cyc raw =>
      co ← core_at v c;
      '(pl, _, v) ← TlbTranslate parent_access parentRTTs v c data line isLoad cyc raw;
      Ret ([mkAnswer (core_proc co) line pl], v)
  | Switch c proc => v ← setCid v c proc; Ret ([], v)
  end.

(** A translation is asked of a core that was given to a process, for an address of
    48 bits; a process that is given a core exists; and a core that does not flush
    its buffers is not moved from one process to another. *)
Definition op_ok (ls : Z) v (o : vm_op) : Prop :=
  match o with
  | Translate c _ line _ _ _ => exists co, cores v !! c = Some co /\ walker_paging (pg_walker co) <> None /\ 0 <= line < 2 ^ (48 - ls)
  | Switch c proc => exists co, cores v !! c = Some co /\ (proc < length (paging_array v))%nat /\ may_take co proc
  end.

(** Histories of [n] operations, with their answers, while memory is left. *)
Inductive vm_run (ls : Z) : nat -> vm A Mem -> list answer -> vm A Mem -> Prop :=
  | run_nil v : vm_run ls 0 v [] v
  | run_step n v o ans v1 tr v2 :
      vm_run ls n v tr v1 -> op_ok ls v1 o -> ready v1 -> vm_do v1 o = Ret (ans, v2) -> vm_run ls (S n) v (ans ++ tr) v2.

Context (parents : parentRTTs <> []) (m : PagingStyle) (ls N : Z) (Hls : 0 <= ls <= page_bits m) (HN : N * 2 ^ page_bits m <= 2 ^ 64).

(** An answer that the translations [Ms] explain. *)
Definition explained (Ms : list (gmap Z Z)) (a : answer) : Prop :=
  exists k M g, an_proc a = Z.of_nat k /\ Ms !! k = Some M /\ M !! (an_line a / 2 ^ (page_bits m - ls)) = Some g /\
    an_phys a = g * 2 ^ (page_bits m - ls) + an_line a mod 2 ^ (page_bits m - ls).

Lemma explained_grow Ms Ms' a : maps_grow Ms Ms' -> explained Ms a -> explained Ms' a.
Proof.
  intros Hg (k & M & g & H1 & H2 & H3 & H4). destruct (maps_grow_lookup _ _ _ _ _ _ Hg H2 H3) as (M' & H2' & H3'). by exists k, M', g.
Qed.

Lemma vm_do_ok v o n Ms :
  vm_inv m ls N n Ms v -> op_ok ls v o -> ready v -> n + 3 <= 2 ^ 31 - 1 ->
  exists ans v' Ms', vm_do v o = Ret (ans, v') /\ vm_inv m ls N (n + 3) Ms' v' /\ maps_grow Ms Ms' /\ Forall (explained Ms') ans.
Proof using parents Hls HN.
  intros V Hok Hr Hn. destruct o as [c data line isLoad cyc raw|c proc]; simpl in Hok |- *.
  - destruct Hok as (co & Hc & Hp & Hline). destruct (walker_paging (pg_walker co)) as [k|] eqn:Hk; [|done].
    rewrite (core_at_ret v c co Hc). cbn [mbind outcome_bind].
    destruct (translate_ok parent_access parentRTTs parents m ls N Hls HN v c data line isLoad cyc raw n co k Ms V Hc Hk Hline Hn Hr)
      as (pl & cyc' & v' & Ms' & M & g & -> & V' & Hg & HM & Hx & ->). cbn [mbind outcome_bind]. eexists _, v', Ms'. split; [done|]. split_and!; try done.
    constructor; [|constructor]. pose proof (proj1 (Forall_lookup _ _) (vi_cores _ _ _ _ _ _ V) c co Hc) as [_ G3 _]. rewrite Hk in G3. exists k, M, g. by destruct G3.
  - destruct Hok as (co & Hco & Hp & Hmay). destruct (setCid_ok m ls N Hls v c proc n co Ms V Hco Hp Hmay) as (v' & -> & V').
    exists [], v', Ms. split; [done|]. split_and!; [|apply maps_grow_refl|constructor]. destruct V' as [W1 W2 W3 W4 W5 W6]. split; try done.
    eapply Forall_impl; [exact W5|]. intros x [G2 G3 G4]. split; try done. intros d. eapply (good_mono _ _ n); [|lia|apply G4]. done.
Qed.

Lemma vm_run_ok s n v tr v' Ms :
  vm_run ls n v tr v' -> vm_inv m ls N s Ms v -> s + 3 * Z.of_nat n <= 2 ^ 31 - 1 -> exists Ms', vm_inv m ls N (s + 3 * Z.of_nat n) Ms' v' /\ Forall (explained Ms') tr.
Proof using parents Hls HN.
  induction 1 as [v|n v o ans v1 tr v2 Hrun IH Hok Hr Hdo]; intros V Hn; [exists Ms; by rewrite Z.add_0_r|].
  destruct (IH V ltac:(lia)) as (M1 & V1 & T1). destruct (vm_do_ok v1 o (s + 3 * Z.of_nat n) M1 V1 Hok Hr ltac:(lia)) as (ans' & v' & M2 & Hdo' & V2 & Hg & T2).
  rewrite Hdo in Hdo'. injection Hdo' as <- <-. exists M2. split; [by replace (s + 3 * Z.of_nat (S n)) with (s + 3 * Z.of_nat n + 3) by lia|].
  apply Forall_app. split; [done|]. eapply Forall_impl; [exact T1|]. intros a. by apply explained_grow.
Qed.

Lemma newVm_inv rev np a mm mat regions s ccs v :
  long_mode m = true -> taken a [] -> page_limit a = N -> 0 <= mat < 2 ^ 32 -> s < 2 ^ 31 -> Forall (conf_ok m ls s) ccs ->
  newVm m rev np a mm ls mat false regions ccs = Ret v -> exists Ms, vm_inv m ls N s Ms v.
Proof.
  intros Hm HL HNa Hmat Hs Hcc E. unfold newVm in E. apply bind_ret_inv in E as (cs & Ecs & E). apply bind_ret_inv in E as ([ps a'] & Eps & E). injection E as <-.
  destruct (new_pagings_ok m rev np a ps a' Hm HL Eps) as (Ms & Ok & Hlen). rewrite HNa in Ok. exists Ms. split; try done. by eapply newCores_good.
Qed.
End History.

Section Isolation.
Context {Mem : Type} (parent_access : Mem -> Z -> Z -> Z -> Z * Mem) (parentRTTs : list Z).

(** C1: Translation is one injective function of process and virtual page, for the
    whole system and along any history.  Cores with instruction and data
    buffers and walkers share the node's buddy allocator; they translate
    addresses of 48 bits and are moved between processes, in any order and
    with any latencies of the memory.  The conditions: no shared memory
    regions; a core whose class does not flush its buffers ([SimpleCore])
    stays with its first process; the buffers have LRU replacement and their
    sequence counters, which start at no more than [s], stay below 2^31; and
    at every operation the allocator can give four pages and each process has
    fewer than 512 directories.  Then any two answers have the same physical
    page exactly when they are for the same process and the same virtual page;
    the offset in the page is kept; and every further operation of this kind
    returns. *)
Theorem translation_isolated mc nd size b md rev np mm ls mat regions s ccs v0 n tr v :
  config_ok mc -> newMemoryNode mc 0 = Ret nd -> newBuddy size (Buddy.page_shift mc) nd = Ret b -> node_page_num (node_pages nd) * 2 ^ page_bits md <= 2 ^ 64 ->
  parentRTTs <> [] -> long_mode md = true -> 0 <= ls <= page_bits md -> 0 <= mat < 2 ^ 32 -> Forall (conf_ok md ls s) ccs ->
  newVm md rev np b mm ls mat false regions ccs = Ret v0 -> vm_run parent_access parentRTTs ls n v0 tr v -> s + 3 * Z.of_nat n < 2 ^ 31 - 3 ->
  let page x := x / 2 ^ (page_bits md - ls) in
  let offset x := x mod 2 ^ (page_bits md - ls) in
  (forall x y, x ∈ tr -> y ∈ tr -> page (an_phys x) = page (an_phys y) <-> an_proc x = an_proc y /\ page (an_line x) = page (an_line y)) /\
  (forall x, x ∈ tr -> offset (an_phys x) = offset (an_line x)) /\
  (forall o, op_ok ls v o -> ready v -> exists ans v', vm_do parent_access parentRTTs v o = Ret (ans, v')).
Proof.
  intros Hc Hnd Hb Hfit Hpar Hm Hls Hmat Hcc Hv0 Hrun Hn page offset.
  assert (Hlim : page_limit b = node_page_num (node_pages nd)) by (unfold newBuddy in Hb; apply bind_ret_inv in Hb as (? & _ & Hb); by injection Hb as <-).
  destruct (newVm_inv md ls _ rev np b mm mat regions s ccs v0 Hm (buddy_taken_start _ _ _ _ Hc Hnd Hb) Hlim Hmat ltac:(lia) Hcc Hv0) as (Ms0 & V0).
  destruct (vm_run_ok parent_access parentRTTs Hpar md ls _ Hls Hfit s n v0 tr v Ms0 Hrun V0 ltac:(lia)) as (Ms & V & T). rewrite Forall_forall in T.
  assert (Hpos : 0 < 2 ^ (page_bits md - ls)) by (apply Z.pow_pos_nonneg; lia).
  assert (Hparts : forall x, x ∈ tr -> exists k M g, an_proc x = Z.of_nat k /\ Ms !! k = Some M /\ M !! page (an_line x) = Some g /\ page (an_phys x) = g /\ offset (an_phys x) = offset (an_line x)).
  { intros x Hx. destruct (T x Hx) as (k & M & g & X1 & X2 & X3 & X4). exists k, M, g. unfold page, offset. rewrite X4, Z.add_comm.
    rewrite high_part, low_part by (first [lia|apply mod_pow2_range; lia]). done. }
  split_and!.
  - intros x y Hx Hy. destruct (Hparts x Hx) as (k & M & g & X1 & X2 & X3 & X4 & _), (Hparts y Hy) as (k' & M' & g' & Y1 & Y2 & Y3 & Y4 & _). rewrite X4, Y4. split.
    + intros ->. destruct (po_inj _ _ _ _ _ (vi_pagings _ _ _ _ _ _ V) k k' M M' _ _ g' X2 Y2 X3 Y3) as [-> Heq]. split; [congruence|done].
    + intros [Hp Hl]. assert (k = k') as -> by lia. rewrite X2 in Y2. injection Y2 as ->. rewrite Hl in X3. congruence.
  - intros x Hx. by destruct (Hparts x Hx) as (_ & _ & _ & _ & _ & _ & _ & X5).
  - intros o Ho Hr. destruct (vm_do_ok parent_access parentRTTs Hpar md ls _ Hls Hfit v o (s + 3 * Z.of_nat n) Ms V Ho Hr ltac:(lia)) as (ans & v' & _ & E & _). by exists ans, v'.
Qed.
End Isolation.

(** *** Executable histories *)

Section Executable.
Context {A Mem : Type} `{PageSource A} (parent_access : Mem -> Z -> Z -> Z -> Z * Mem) (parentRTTs : list Z) (ls : Z).
Implicit Types v : vm A Mem.

Fixpoint supply_b (n : nat) (a : A) : bool :=
  match n with O => true | S n => match take_page a with Ret (Some _, a) => supply_b n a | _ => false end end.
Definition ready_b v : bool := supply_b 4 (buddy_allocator v) && forallb (fun b => cur_pdp_num (lm b) <? 512) (paging_array v).
Definition op_ok_b v (o : vm_op) : bool :=
  match o with
  | Translate c _ line _ _ _ =>
      match cores v !! c with
      | Some co => bool_decide (walker_paging (pg_walker co) <> None) && (0 <=? line) && (line <? 2 ^ (48 - ls))
      | None => false
      end
  | Switch c proc =>
      match cores v !! c with
      | Some co => bool_decide (proc < length (paging_array v))%nat &&
          (has_tlb_methods (ctype co) || bool_decide (walker_paging (pg_walker co) = None) || (core_proc co =? Z.of_nat proc))
      | None => false
      end
  end.

Fixpoint run_ops (os : list vm_op) (tr : list answer) v : option (list answer * vm A Mem) :=
  match os with
  | [] => Some (tr, v)
  | o :: os =>
      if ready_b v && op_ok_b v o then
        match vm_do parent_access parentRTTs v o with Ret (ans, v) => run_ops os (ans ++ tr) v | Stop _ => None end
      else None
  end.

Lemma supply_b_ok n a : supply_b n a = true -> supply n a.
Proof.
  revert a. induction n as [|n IH]; intros a Hs; [done|]. simpl in Hs. destruct (take_page a) as [[[g|] a']|] eqn:E; try done.
  exists g, a'. split; [done|]. by apply IH.
Qed.

Lemma ready_b_ok v : ready_b v = true -> ready v.
Proof.
  intros Hr. apply andb_prop in Hr as [H1 H2]. split; [by apply supply_b_ok|]. intros b Hb. rewrite forallb_forall in H2.
  apply Z.ltb_lt, H2. by apply list_elem_of_In.
Qed.

Lemma op_ok_b_ok v o : op_ok_b v o = true -> op_ok ls v o.
Proof.
  destruct o as [c data line isLoad cyc raw|c proc]; simpl; (destruct (cores v !! c) as [co|]; [|done]); intros Ho.
  - zb. exists co. split_and!; (done || lia).
  - apply andb_prop in Ho as [Hp Ho]. zb. exists co. split_and!; [done|done|]. unfold may_take. destruct (has_tlb_methods _); [by left|right]. apply orb_prop in Ho as [Ho|Ho]; [left; by apply bool_decide_eq_true in Ho|right; by apply Z.eqb_eq in Ho].
Qed.

Lemma run_ops_ok os : forall n v0 tr v tr' v', vm_run parent_access parentRTTs ls n v0 tr v -> run_ops os tr v = Some (tr', v') ->
  vm_run parent_access parentRTTs ls (n + length os) v0 tr' v'.
Proof.
  induction os as [|o os IH]; intros n v0 tr v tr' v' Hrun E; cbn [run_ops] in E; [injection E as <- <-; by rewrite Nat.add_0_r|].
  destruct (ready_b v && op_ok_b v o)%bool eqn:Eb; [|done]. apply andb_prop in Eb as [H1 H2].
  destruct (vm_do parent_access parentRTTs v o) as [[ans v1]|] eqn:Ed; [|done]. cbn [length]. rewrite Nat.add_succ_r. apply (IH (S n) v0 (ans ++ tr) v1); [|done].
  econstructor; [done|by apply op_ok_b_ok|by apply ready_b_ok|done].
Qed.
End Executable.

Definition demo_parent (u : unit) (parent line cyc : Z) : Z * unit := (cyc + 30, u).
Definition demo_core (ty : core_type) : core_conf :=
  mkCoreConf ty 7 demo_tlb_config demo_tlb_config [demo_entry; demo_entry] [demo_entry] 3 5 true.
Definition demo_raw : raw_req := mkRaw 0 true false false false.
Definition demo_vm (ty : core_type) : vm BuddyAllocator unit :=
  ret_or (mkVm [] [] demo_buddy tt 0 0 false []) (newVm LongMode_Normal false 2 demo_buddy tt 6 100 false [] [demo_core ty; demo_core SimpleCore]).

(** Two processes on two cores, the second a simple one, use the same virtual line;
    then core 0 changes hands. *)
Definition demo_vm_ops : list vm_op :=
  [Switch 0 0; Switch 1 1; Translate 0 true 0x1234567 true 10 demo_raw; Translate 1 true 0x1234567 false 20 demo_raw;
   Switch 0 1; Translate 0 true 0x1234567 true 30 demo_raw].
Definition demo_vm_run : list answer * vm BuddyAllocator unit := default ([], demo_vm OOOCore) (run_ops demo_parent [5] 6 demo_vm_ops [] (demo_vm OOOCore)).

Lemma translation_isolated_witness :
  fst demo_vm_run = [mkAnswer 1 0x1234567 167; mkAnswer 1 0x1234567 167; mkAnswer 0 0x1234567 2215] /\
  forall x y, x ∈ fst demo_vm_run -> y ∈ fst demo_vm_run ->
    an_phys x / 2 ^ (12 - 6) = an_phys y / 2 ^ (12 - 6) <-> an_proc x = an_proc y /\ an_line x / 2 ^ (12 - 6) = an_line y / 2 ^ (12 - 6).
Proof.
  split; [vm_compute; reflexivity|].
  refine (proj1 (translation_isolated demo_parent [5] demo_mem_config demo_node (37 * 4096) demo_buddy LongMode_Normal false 2 tt 6 100 [] 5
    [demo_core OOOCore; demo_core SimpleCore] (demo_vm OOOCore) 6 (fst demo_vm_run) (snd demo_vm_run) _ _ _ _ _ _ _ _ _ _ _ _)).
  - split; [done|]. repeat constructor; vm_compute; done.
  - vm_compute; reflexivity.
  - reflexivity.
  - vm_compute; discriminate.
  - discriminate.
  - reflexivity.
  - vm_compute. split; discriminate.
  - lia.
  - assert (Hcc : forall ty, conf_ok LongMode_Normal 6 5 (demo_core ty)) by (intros ty; split_and!; [done..|]; intros cfg [-> | ->]; done). exact (Forall_cons_2 _ _ _ (Hcc OOOCore) (Forall_cons_2 _ _ _ (Hcc SimpleCore) (Forall_nil_2 _))).
  - apply ret_or_spec. vm_compute. reflexivity.
  - assert (Hs : is_Some (run_ops demo_parent [5] 6 demo_vm_ops [] (demo_vm OOOCore))).
    { destruct (run_ops demo_parent [5] 6 demo_vm_ops [] (demo_vm OOOCore)) eqn:E; [by eexists|]. apply (f_equal (fun o => match o with None => true | _ => false end)) in E. vm_compute in E. discriminate. }
    destruct Hs as [[tr v] E]. unfold demo_vm_run. rewrite E. exact (run_ops_ok demo_parent [5] 6 demo_vm_ops 0 _ [] _ tr v (run_nil _ _ _ _) E).
  - vm_compute. reflexivity.
Defined.

(** ** Defects *)

Section Defects.
Context {A Mem : Type} `{PageSource A} (parent_access : Mem -> Z -> Z -> Z -> Z * Mem) (parentRTTs : list Z).
Implicit Types v : vm A Mem.

(** C38: The class [SimpleCore] does not override [flushTlb]: when such a core is
    given to another process, its buffers keep the translations of the process
    before, and the new process gets the physical pages of the old one. *)
Theorem simple_core_keeps_translations v c co data l x proc line isLoad cyc raw :
  cores v !! c = Some co -> ctype co = SimpleCore -> (proc < length (paging_array v))%nat ->
  tlb_is (core_tlb co data) l -> spare_seq (core_tlb co data) -> spec_find (req_vpn (tlb_cfg (core_tlb co data)) line) l = Some x ->
  exists v' cyc' v'', setCid v c proc = Ret v' /\
    TlbTranslate parent_access parentRTTs v' c data line isLoad cyc raw = Ret (phys_line (tlb_cfg (core_tlb co data)) (tr_ppn x) line, cyc', v'').
Proof.
  intros Hc Hty Hp I Hs Hf. unfold setCid. rewrite (core_at_ret v c co Hc). cbn [mbind outcome_bind]. destruct (lookup_lt_is_Some_2 _ _ Hp) as [b ->].
  assert (Hfl : flushTlb co = co) by (unfold flushTlb; by rewrite Hty).
  set (co1 := if _ : bool then co else flushTlb co). assert (Hco1 : co1 = co) by (unfold co1; rewrite Hfl; by destruct (_ =? _)). rewrite Hco1.
  set (co2 := set_walker _ _). set (v' := put_core v c co2). assert (Hc' : cores v' !! c = Some co2) by (simpl; by rewrite list_lookup_insert_eq by (by eapply lookup_lt_Some)).
  assert (Ht : core_tlb co2 data = core_tlb co data) by (by destruct data). exists v'. unfold TlbTranslate, tlb_access. cbn [get_tlb put_tlb slot].
  rewrite (core_at_ret v' c co2 Hc'). cbn [mbind outcome_bind lineAddr]. rewrite Ht.
  destruct (look_up_ok (add_counters (core_tlb co data) 0 1 0 0) l (req_vpn (tlb_cfg (core_tlb co data)) line)) as (r & t' & -> & _ & _ & _ & Hm); [by apply tlb_is_counters|done|].
  rewrite Hf in Hm. destruct Hm as (i & e & -> & He & Hx & _). cbn [mbind outcome_bind]. unfold tlb_hit, get_entry. rewrite He. cbn [mbind outcome_bind put_tlb slot].
  erewrite core_at_ret by (simpl; by rewrite list_lookup_insert_eq by (rewrite ?length_insert; by eapply lookup_lt_Some)). cbn [mbind outcome_bind].
  eexists _, _. split; [done|]. rewrite <- Hx. reflexivity.
Qed.

Lemma charge_map_shared v c req o req' v' : charge_map v c req o = Ret (req', v') -> req_pageShared req' = req_pageShared req.
Proof.
  unfold charge_map. intros E. apply bind_ret_inv in E as (co & _ & E). destruct (walker_timing _); [|by injection E as <- _].
  apply bind_ret_inv in E as (v1 & _ & E). by injection E as <- _.
Qed.

Lemma shootdown_shared v c req p req' v' :
  tlb_shootdown v c req p = Ret (req', v') -> req_pageShared req' = req_pageShared req /\ enable_shared_memory v' = enable_shared_memory v.
Proof.
  unfold tlb_shootdown. intros E. apply bind_ret_inv in E as ([o cs] & _ & E). apply bind_ret_inv in E as (co & _ & E).
  destruct (walker_timing _); [|injection E as <- <-; done]. apply bind_ret_inv in E as (v1 & E1 & E). unfold upd_walker in E1.
  apply bind_ret_inv in E1 as (co' & _ & E1). injection E1 as <-. by injection E as <- <-.
Qed.

(** The flag [pageShared] of a request that faults is the one it came with, which
    [TlbTranslate] has not set; the new entry of the buffer takes it over. *)
Lemma fault_keeps_page_shared v c k req g req' v' :
  enable_shared_memory v = false -> do_page_fault v c k req = Ret (g, req', v') -> req_pageShared req' = req_pageShared req.
Proof.
  intros Hsh E. unfold do_page_fault in E. apply bind_ret_inv in E as (co & _ & E). apply bind_ret_inv in E as ([[page|] a] & _ & E); [|done].
  apply bind_ret_inv in E as ([req1 v1] & E1 & E). destruct (shootdown_shared _ _ _ _ _ _ E1) as [H1 H2]. simpl in H2. rewrite H2, Hsh in E.
  apply bind_ret_inv in E as ([req2 v2] & E2 & E). unfold map_private in E2. apply bind_ret_inv in E2 as ([o v3] & _ & E2). destruct (_ =? _); [done|].
  apply charge_map_shared in E2. apply bind_ret_inv in E as (v4 & _ & E). injection E as <- <- <-. simpl. congruence.
Qed.
End Defects.

(** A buffer with one translation, on a simple core between two processes. *)
Definition demo_tlb_new : CommonTlb := ret_or (mkTlb demo_tlb_config [] [] 0 ∅ ∅ 0 0 0 0) (newTlb demo_tlb_config [demo_entry] 0).
Definition demo_tlb_one : CommonTlb := ret_or demo_tlb_new (fold_ tlb_do [OInsert 298261 34 (demo_req 0)] demo_tlb_new).
Definition demo_simple : core_unit := mkCoreUnit SimpleCore 0 demo_tlb_one demo_tlb_one (SetPaging (newWalker 6 true) 0).
Definition demo_simple_vm : vm BuddyAllocator unit := mkVm [demo_simple] [demo_reversed; demo_reversed] demo_buddy tt 12 100 false [].

Lemma demo_tlb_one_is : tlb_is demo_tlb_one [mkTrans 298261 34 false true].
Proof.
  assert (E : newTlb demo_tlb_config [demo_entry] 0 = Ret demo_tlb_new) by (vm_compute; reflexivity).
  destruct (newTlb_sees demo_tlb_config [demo_entry] 0 demo_tlb_new ltac:(lia) E) as (V & _).
  destruct (tlb_run_sees [OInsert 298261 34 (demo_req 0)] demo_tlb_new _ V) as (t' & Et & Vt & _ & _ & Hx); [vm_compute; lia|reflexivity|vm_compute; reflexivity|vm_compute; reflexivity|].
  specialize (Hx (sp_new_exact _) ltac:(vm_compute; reflexivity)). pose proof (sees_is _ _ Vt Hx) as It. vm_compute (map _ _) in It.
  unfold demo_tlb_one. rewrite Et. exact It.
Qed.

Lemma simple_core_keeps_translations_witness :
  exists v' cyc' v'', setCid demo_simple_vm 0 1 = Ret v' /\ TlbTranslate demo_parent [5] v' 0 true 0x1234567 true 10 demo_raw = Ret (2215, cyc', v'').
Proof.
  destruct (simple_core_keeps_translations demo_parent [5] demo_simple_vm 0 demo_simple true [mkTrans 298261 34 false true] (mkTrans 298261 34 false true) 1 0x1234567 true 10 demo_raw)
    as (v' & cyc' & v'' & E1 & E2).
  - reflexivity.
  - reflexivity.
  - simpl. lia.
  - exact demo_tlb_one_is.
  - vm_compute. reflexivity.
  - vm_compute. reflexivity.
  - exists v', cyc', v''. split; [exact E1|exact E2].
Defined.
