(* ===== verification/PrioQueue.v ===== *)
(** * The priority queue of the contention simulation

    [PrioQueue] of src/src/prio_queue.h holds events by cycle: a ring of blocks of
    64 cycles for the near future, in which the events of a cycle are linked
    through their own [next] fields, and a multimap for the far future, from which
    events move to the ring as time passes.  The theorems show that this is a
    priority queue: over any history the event removed is an earliest one. *)

From stdpp Require Import sorting.
From S2P Require Import Prelude FlexiList.

(** ** State *)

(** [__builtin_ctzl] of a word that is not zero. *)
Fixpoint ctz_pos (p : positive) : Z :=
  match p with
  | xO p => 1 + ctz_pos p
  | _ => 0
  end.

Definition ctz (x : Z) : Z := match x with Zpos p => ctz_pos p | _ => 0 end.

(** [pq_array] has 64 pointers to events; bit i of [occ] is set if the i-th is not
    null. *)
Record PQBlock : Type := mkPQBlock { pq_array : list (option Z); occ : Z }.

Definition newPQBlock : PQBlock := mkPQBlock (replicate 64 None) 0.

(** [feMap] is a multimap: ascending keys, equal keys in the order of insertion. *)
Record PrioQueue : Type := mkPQ {
  blocks : list PQBlock;
  feMap : list (Z * Z);
  curBlock : Z;
  elems : Z
}.

(** ** Operations *)

Definition block_dequeue (nx : nexts) (b : PQBlock) : outcome (Z * Z * nexts * PQBlock) :=
  _ ← assert_ (negb (occ b =? 0));
  let pos := ctz (occ b) in
  res ← at_ (pq_array b) pos;
  match res with
  | None => Stop NullDeref
  | Some res =>
      let next := nx !! res in
      a ← set_at (pq_array b) pos next;
      let o := match next with None => Z.lxor (occ b) (Z.shiftl 1 pos) | Some _ => occ b end in
      Ret (res, pos, delete res nx, mkPQBlock a o)
  end.

Definition block_enqueue (nx : nexts) (b : PQBlock) (obj pos : Z) : outcome (nexts * PQBlock) :=
  let o := Z.lor (occ b) (Z.shiftl 1 pos) in
  _ ← assert_ (bool_decide (nx !! obj = None));
  h ← at_ (pq_array b) pos;
  a ← set_at (pq_array b) pos (Some obj);
  Ret (match h with Some h => <[obj := h]> nx | None => delete obj nx end, mkPQBlock a o).

(** [multimap::insert]: after the last element whose key is not larger. *)
Fixpoint fe_insert (cycle obj : Z) (l : list (Z * Z)) : list (Z * Z) :=
  match l with
  | [] => [(cycle, obj)]
  | (c, x) :: l' => if cycle <? c then (cycle, obj) :: l else (c, x) :: fe_insert cycle obj l'
  end.

Section PrioQueue.
(** The number of blocks, the template parameter [B]. *)
Context (B : Z).

Definition newPrioQueue : PrioQueue := mkPQ (replicate (Z.to_nat B) newPQBlock) [] 0 0.

(** The block of an absolute block number. *)
Definition put_near (nx : nexts) (bs : list PQBlock) (obj cycle : Z) : outcome (nexts * list PQBlock) :=
  let i := (cycle / 64) mod B in
  let offset := cycle mod 64 in
  b ← at_ bs i;
  '(nx, b) ← block_enqueue nx b obj offset;
  bs ← set_at bs i b;
  Ret (nx, bs).

Definition pq_enqueue (nx : nexts) (q : PrioQueue) (obj cycle : Z) : outcome (nexts * PrioQueue) :=
  let absBlock := cycle / 64 in
  _ ← assert_ (curBlock q <=? absBlock);
  if absBlock <? u64 (curBlock q + B) then
    '(nx, bs) ← put_near nx (blocks q) obj cycle;
    Ret (nx, mkPQ bs (feMap q) (curBlock q) (u64 (elems q + 1)))
  else Ret (nx, mkPQ (blocks q) (fe_insert cycle obj (feMap q)) (curBlock q) (u64 (elems q + 1))).

(** The inner loop of [dequeue]: the far elements below [topCycle] move to the ring;
    the result has those that stay. *)
Fixpoint pull_far (cur topCycle : Z) (nx : nexts) (bs : list PQBlock) (l : list (Z * Z))
  : outcome (nexts * list PQBlock * list (Z * Z)) :=
  match l with
  | [] => Ret (nx, bs, [])
  | (cycle, obj) :: l' =>
      if cycle <? topCycle then
        _ ← assert_ (cur <=? cycle / 64);
        _ ← assert_ (cycle / 64 <? u64 (cur + B));
        '(nx, bs) ← put_near nx bs obj cycle;
        pull_far cur topCycle nx bs l'
      else Ret (nx, bs, l)
  end.

Definition is_nil {T} (l : list T) : bool := match l with [] => true | _ => false end.

(** One turn of the outer loop of [dequeue], for an empty block. *)
Definition advance (nx : nexts) (q : PrioQueue) : outcome (nexts * PrioQueue) :=
  let cur := u64 (curBlock q + 1) in
  if (cur mod (B / 2) =? 0) && negb (is_nil (feMap q)) then
    '(nx, bs, fe) ← pull_far cur (u64 (u64 (cur + B) * 64)) nx (blocks q) (feMap q);
    Ret (nx, mkPQ bs fe cur (elems q))
  else Ret (nx, mkPQ (blocks q) (feMap q) cur (elems q)).

Fixpoint find_block (fuel : nat) (nx : nexts) (q : PrioQueue) : outcome (nexts * PrioQueue) :=
  match fuel with
  | O => Stop OutOfFuel
  | S fuel =>
      b ← at_ (blocks q) (curBlock q mod B);
      if occ b =? 0 then
        '(nx, q) ← advance nx q;
        find_block fuel nx q
      else Ret (nx, q)
  end.

(** [dequeue]: the event and its cycle. *)
Definition pq_dequeue (fuel : nat) (nx : nexts) (q : PrioQueue) : outcome (Z * Z * nexts * PrioQueue) :=
  _ ← assert_ (negb (elems q =? 0));
  '(nx, q) ← find_block fuel nx q;
  let i := curBlock q mod B in
  b ← at_ (blocks q) i;
  '(obj, offset, nx, b) ← block_dequeue nx b;
  bs ← set_at (blocks q) i b;
  Ret (obj, u64 (curBlock q * 64 + offset), nx, mkPQ bs (feMap q) (curBlock q) (u64 (elems q - 1))).

Definition pq_size (q : PrioQueue) : Z := elems q.

(** The first cycle in the blocks at the given distances from the current one. *)
Fixpoint scan_blocks (q : PrioQueue) (ds : list Z) : outcome (option Z) :=
  match ds with
  | [] => Ret None
  | i :: ds =>
      b ← at_ (blocks q) (u64 (curBlock q + i) mod B);
      if occ b =? 0 then scan_blocks q ds else Ret (Some (u64 (u64 (curBlock q + i) * 64 + ctz (occ b))))
  end.

Definition firstCycle (q : PrioQueue) : outcome Z :=
  _ ← assert_ (negb (elems q =? 0));
  near ← scan_blocks q (seqZ 0 (B / 2));
  match near with
  | Some cycle => Ret cycle
  | None =>
      late ← scan_blocks q (seqZ (B / 2) (B - B / 2));
      match late, feMap q with
      | Some cycle, [] => Ret cycle
      | Some cycle, (c, _) :: _ => Ret (Z.min cycle c)
      | None, (c, _) :: _ => Ret c
      | None, [] => Stop Undefined
      end
  end.
End PrioQueue.

(** ** What the structure represents *)

Lemma ctz_pos_spec p :
  0 <= ctz_pos p /\ Z.testbit (Zpos p) (ctz_pos p) = true /\ forall j, 0 <= j < ctz_pos p -> Z.testbit (Zpos p) j = false.
Proof.
  induction p as [p IH|p IH|]; cbn [ctz_pos]; try (split_and!; [lia|done|lia]).
  destruct IH as (H1 & H2 & H3). replace (1 + ctz_pos p) with (Z.succ (ctz_pos p)) by lia. split_and!; [lia| |].
  - change (Zpos (xO p)) with (2 * Zpos p). rewrite Z.testbit_even_succ by done. done.
  - intros j Hj. destruct (decide (j = 0)) as [->|Hn]; [done|]. replace j with (Z.succ (j - 1)) by lia.
    change (Zpos (xO p)) with (2 * Zpos p). rewrite Z.testbit_even_succ by lia. apply H3. lia.
Qed.

Lemma ctz_spec x :
  0 < x < 2 ^ 64 -> 0 <= ctz x < 64 /\ Z.testbit x (ctz x) = true /\ forall j, 0 <= j < ctz x -> Z.testbit x j = false.
Proof.
  intros Hx. destruct x as [|p|p]; try lia. destruct (ctz_pos_spec p) as (H1 & H2 & H3). cbn [ctz]. split; [|done]. split; [done|].
  destruct (decide (ctz_pos p < 64)); [done|]. rewrite (testbit_high (Zpos p) 64) in H2 by lia. done.
Qed.

Definition is_some_b {T} (o : option T) : bool := match o with Some _ => true | None => false end.

Record block_ok (b : PQBlock) : Prop := {
  bo_length : length (pq_array b) = 64%nat;
  bo_occ : 0 <= occ b < 2 ^ 64;
  bo_bits : forall p, 0 <= p < 64 -> Z.testbit (occ b) p = is_some_b (default None (pq_array b !! Z.to_nat p))
}.

Section Theory.
Context (B : Z) (HB : 2 <= B < 2 ^ 32).

(** The cycles that the ring holds when the current block is [lo]. *)
Definition in_window (lo c : Z) : Prop := lo <= c / 64 < lo + B.

(** The head of the list of a cycle. *)
Definition cell (bs : list PQBlock) (c : Z) : option Z :=
  match bs !! Z.to_nat ((c / 64) mod B) with
  | Some b => default None (pq_array b !! Z.to_nat (c mod 64))
  | None => None
  end.

(** The ring holds exactly the events of [n], each with its cycle. *)
Record ring_is (nx : nexts) (bs : list PQBlock) (lo : Z) (n : gmap Z Z) : Prop := {
  ri_length : length bs = Z.to_nat B;
  ri_blocks : Forall block_ok bs;
  ri_lists : forall c, exists l, NoDup l /\ (forall x, x ∈ l <-> n !! x = Some c) /\ (in_window lo c -> cell bs c = head l /\ chain nx l);
  ri_window : forall x c, n !! x = Some c -> in_window lo c
}.

(** The multimap holds exactly the events of [f]. *)
Record far_is (nx : nexts) (fe : list (Z * Z)) (f : gmap Z Z) : Prop := {
  fi_sorted : StronglySorted Z.le fe.*1;
  fi_nodup : NoDup fe.*2;
  fi_elems : forall c x, (c, x) ∈ fe <-> f !! x = Some c;
  fi_next : forall x c, f !! x = Some c -> nx !! x = None
}.

(** The last block at which far events were moved. *)
Definition base (cur : Z) : Z := cur / (B / 2) * (B / 2).

(** The queue [q] holds the events of [m]. *)
Record pq_is (nx : nexts) (q : PrioQueue) (m : gmap Z Z) : Prop := {
  pi_parts : exists n f, m = n ∪ f /\ n ##ₘ f /\ ring_is nx (blocks q) (curBlock q) n /\ far_is nx (feMap q) f /\
    (forall x c, f !! x = Some c -> base (curBlock q) + B <= c / 64);
  pi_cur : 0 <= curBlock q < 2 ^ 57;
  pi_bound : forall x c, m !! x = Some c -> c < 2 ^ 63;
  pi_size : elems q = Z.of_nat (size m);
  pi_small : Z.of_nat (size m) < 2 ^ 63
}.

Lemma half_pos : 1 <= B / 2.
Proof using HB. apply Z.div_le_lower_bound; lia. Qed.

Lemma base_bounds cur : 0 <= cur -> base cur <= cur < base cur + B / 2.
Proof using HB. intros. pose proof half_pos. unfold base. pose proof (Z.div_mod cur (B / 2)). pose proof (Z.mod_pos_bound cur (B / 2)). nia. Qed.

Lemma slot_inj lo c d :
  in_window lo c -> in_window lo d -> (c / 64) mod B = (d / 64) mod B -> c mod 64 = d mod 64 -> c = d.
Proof using HB.
  intros [? ?] [? ?] Hm Ho. pose proof (Z.div_mod (c / 64) B). pose proof (Z.div_mod (d / 64) B).
  assert (c / 64 / B = d / 64 / B) as Hq by nia. rewrite (Z.div_mod c 64), (Z.div_mod d 64) by lia. assert (c / 64 = d / 64) by lia. lia.
Qed.

Lemma slot_lt (bs : list PQBlock) k : length bs = Z.to_nat B -> exists b, at_ bs (k mod B) = Ret b /\ bs !! Z.to_nat (k mod B) = Some b.
Proof using HB.
  intros Hl. pose proof (Z.mod_pos_bound k B ltac:(lia)). destruct (at_in_range bs (k mod B) ltac:(lia)) as [b Hb]. exists b. split; [done|].
  by apply at_ret_iff in Hb as [_ Hb].
Qed.

Lemma cell_block bs c b : bs !! Z.to_nat ((c / 64) mod B) = Some b -> cell bs c = default None (pq_array b !! Z.to_nat (c mod 64)).
Proof. unfold cell. by intros ->. Qed.

Lemma cell_put bs lo c b v d :
  length bs = Z.to_nat B -> bs !! Z.to_nat ((c / 64) mod B) = Some b -> length (pq_array b) = 64%nat -> in_window lo c -> in_window lo d ->
  forall o, cell (<[Z.to_nat ((c / 64) mod B) := mkPQBlock (<[Z.to_nat (c mod 64) := v]> (pq_array b)) o]> bs) d =
  if decide (d = c) then v else cell bs d.
Proof using HB.
  intros Hl Hb Ha Hc Hd o. pose proof (Z.mod_pos_bound (c / 64) B ltac:(lia)). pose proof (Z.mod_pos_bound (d / 64) B ltac:(lia)).
  pose proof (Z.mod_pos_bound c 64 ltac:(lia)). pose proof (Z.mod_pos_bound d 64 ltac:(lia)). unfold cell.
  destruct (decide ((c / 64) mod B = (d / 64) mod B)) as [Heq|Hne].
  - rewrite <- Heq, list_lookup_insert_eq by lia. cbn [pq_array]. rewrite Hb. destruct (decide (c mod 64 = d mod 64)) as [Ho|Ho].
    + rewrite <- Ho, list_lookup_insert_eq by lia. rewrite decide_True; [done|]. symmetry. by eapply slot_inj.
    + rewrite list_lookup_insert_ne by lia. rewrite decide_False; [done|]. congruence.
  - rewrite list_lookup_insert_ne by lia. rewrite decide_False; [done|]. congruence.
Qed.

Lemma block_ok_put b p v o :
  block_ok b -> 0 <= p < 64 -> 0 <= o < 2 ^ 64 -> (forall j, 0 <= j < 64 -> Z.testbit o j = if decide (j = p) then is_some_b v else Z.testbit (occ b) j) ->
  block_ok (mkPQBlock (<[Z.to_nat p := v]> (pq_array b)) o).
Proof.
  intros [B1 B2 B3] Hp Ho Hbits. split; cbn [pq_array occ]; [by rewrite length_insert|done|].
  intros j Hj. rewrite Hbits by done. case_decide as Hd.
  - subst. rewrite list_lookup_insert_eq by lia. done.
  - rewrite list_lookup_insert_ne by lia. by apply B3.
Qed.

(** *** Putting an event in the ring *)

Lemma set_bit_spec o p :
  0 <= p < 64 -> 0 <= o < 2 ^ 64 ->
  0 <= Z.lor o (Z.shiftl 1 p) < 2 ^ 64 /\ forall j, 0 <= j < 64 -> Z.testbit (Z.lor o (Z.shiftl 1 p)) j = if decide (j = p) then true else Z.testbit o j.
Proof.
  intros Hp Ho. rewrite Z.shiftl_1_l.
  assert (Hb : forall j, 0 <= j -> Z.testbit (Z.lor o (2 ^ p)) j = if decide (j = p) then true else Z.testbit o j).
  { intros j Hj. rewrite Z.lor_spec, Z.pow2_bits_eqb by lia. case_decide as Hd.
    - subst. by rewrite Z.eqb_refl, orb_true_r.
    - rewrite (proj2 (Z.eqb_neq p j)) by lia. by rewrite orb_false_r. }
  split; [|intros j Hj; apply Hb; lia]. assert (0 <= Z.lor o (2 ^ p)) by (apply Z.lor_nonneg; lia). split; [done|].
  apply testbit_bound; [lia|done|]. intros i Hi. rewrite Hb by lia. rewrite decide_False by lia. by eapply testbit_high.
Qed.

Lemma clear_bit_spec o p :
  0 <= p < 64 -> 0 <= o < 2 ^ 64 -> Z.testbit o p = true ->
  0 <= Z.lxor o (Z.shiftl 1 p) < 2 ^ 64 /\ forall j, 0 <= j < 64 -> Z.testbit (Z.lxor o (Z.shiftl 1 p)) j = if decide (j = p) then false else Z.testbit o j.
Proof.
  intros Hp Ho Hset. rewrite Z.shiftl_1_l.
  assert (Hb : forall j, 0 <= j -> Z.testbit (Z.lxor o (2 ^ p)) j = if decide (j = p) then false else Z.testbit o j).
  { intros j Hj. rewrite Z.lxor_spec, Z.pow2_bits_eqb by lia. case_decide as Hd.
    - subst. by rewrite Z.eqb_refl, Hset.
    - rewrite (proj2 (Z.eqb_neq p j)) by lia. by rewrite xorb_false_r. }
  split; [|intros j Hj; apply Hb; lia]. assert (0 <= Z.lxor o (2 ^ p)) by (apply Z.lxor_nonneg; lia). split; [done|].
  apply testbit_bound; [lia|done|]. intros i Hi. rewrite Hb by lia. rewrite decide_False by lia. by eapply testbit_high.
Qed.

Lemma put_near_ok nx bs lo n obj c :
  ring_is nx bs lo n -> in_window lo c -> n !! obj = None -> nx !! obj = None ->
  exists nx' bs', put_near B nx bs obj c = Ret (nx', bs') /\ ring_is nx' bs' lo (<[obj := c]> n) /\ forall y, y <> obj -> nx' !! y = nx !! y.
Proof using HB.
  intros [R1 R2 R3 R4] Hw Hn Hnx. destruct (slot_lt bs (c / 64) R1) as (b & Hb1 & Hb). pose proof (proj1 (Forall_lookup _ _) R2 _ _ Hb) as Bok.
  pose proof (Z.mod_pos_bound c 64 ltac:(lia)) as Hp. destruct (R3 c) as (l & Hl1 & Hl2 & Hl3). destruct (Hl3 Hw) as [Hh Hch].
  rewrite (cell_block _ _ _ Hb) in Hh. unfold put_near. rewrite Hb1. cbn [mbind outcome_bind]. unfold block_enqueue.
  rewrite bool_decide_true by done. cbn [assert_ mbind outcome_bind].
  destruct (lookup_lt_is_Some_2 (pq_array b) (Z.to_nat (c mod 64))) as [h Hat]; [rewrite (bo_length _ Bok); lia|].
  rewrite (proj2 (at_ret_iff (pq_array b) (c mod 64) h)) by (split; [lia|done]). cbn [mbind outcome_bind]. rewrite Hat in Hh. simpl in Hh. subst h.
  rewrite (proj2 (set_at_ret_iff (pq_array b) _ (c mod 64) (Some obj))) by (split; [rewrite (bo_length _ Bok); lia|reflexivity]). cbn [mbind outcome_bind].
  rewrite (proj2 (set_at_ret_iff bs _ ((c / 64) mod B) _)) by (split; [rewrite R1; pose proof (Z.mod_pos_bound (c / 64) B); lia|reflexivity]). cbn [mbind outcome_bind].
  set (nx' := match head l with Some h => <[obj := h]> nx | None => delete obj nx end).
  assert (Hx1 : nx' !! obj = head l) by (subst nx'; destruct (head l); [by rewrite lookup_insert_eq|by rewrite lookup_delete_eq]).
  assert (Hx2 : forall y, y <> obj -> nx' !! y = nx !! y) by (intros y Hy; subst nx'; destruct (head l); [by rewrite lookup_insert_ne|by rewrite lookup_delete_ne]).
  eexists nx', _. split; [reflexivity|]. split; [|exact Hx2].
  assert (Hno : forall d (k : list Z), (forall x, x ∈ k <-> n !! x = Some d) -> obj ∉ k) by (intros d k Hk Hin; apply Hk in Hin; congruence).
  destruct (set_bit_spec (occ b) (c mod 64) Hp (bo_occ _ Bok)) as [Ho1 Ho2]. split.
  - by rewrite length_insert.
  - apply Forall_insert; [done|]. by apply block_ok_put.
  - intros d. destruct (decide (d = c)) as [->|Hd].
    + exists (obj :: l). split_and!; [constructor; [by apply (Hno c)|done]| |].
      * intros x. rewrite elem_of_cons, Hl2. destruct (decide (x = obj)) as [->|Hx]; [rewrite lookup_insert_eq; naive_solver|].
        rewrite lookup_insert_ne by done. naive_solver.
      * intros _. rewrite (cell_put bs lo) by (done || apply Bok). rewrite decide_True by done. split; [done|]. split; [done|].
        eapply chain_ext; [|exact Hch]. intros x Hx. apply Hx2. intros ->. by apply (Hno c l) in Hx.
    + destruct (R3 d) as (k & Hk1 & Hk2 & Hk3). exists k. split_and!; [done| |].
      * intros x. rewrite Hk2. destruct (decide (x = obj)) as [->|Hx]; [rewrite lookup_insert_eq; naive_solver|by rewrite lookup_insert_ne].
      * intros Hwd. destruct (Hk3 Hwd) as [Hc1 Hc2]. rewrite (cell_put bs lo) by (done || apply Bok). rewrite decide_False by done. split; [done|].
        eapply chain_ext; [|exact Hc2]. intros x Hx. apply Hx2. intros ->. by apply (Hno d k) in Hx.
  - intros x d Hx. apply lookup_insert_Some in Hx as [[_ <-]|[_ Hx]]; [done|by eapply R4].
Qed.

(** *** Taking an event from the ring *)

Lemma cell_bit bs c b :
  bs !! Z.to_nat ((c / 64) mod B) = Some b -> block_ok b -> is_some_b (cell bs c) = Z.testbit (occ b) (c mod 64).
Proof. intros Hb Bok. rewrite (cell_block _ _ _ Hb). symmetry. apply (bo_bits _ Bok). apply Z.mod_pos_bound. lia. Qed.

Lemma cycle_parts lo p : 0 <= p < 64 -> (lo * 64 + p) / 64 = lo /\ (lo * 64 + p) mod 64 = p.
Proof.
  intros Hp. rewrite Z.add_comm. pose proof (high_part p lo 6 ltac:(lia) ltac:(simpl; lia)) as H1. pose proof (low_part p lo 6 ltac:(lia) ltac:(simpl; lia)) as H2.
  done.
Qed.

(** An event of the ring is found at the cell of its cycle. *)
Lemma ring_cell nx bs lo n x c : ring_is nx bs lo n -> n !! x = Some c -> is_some_b (cell bs c) = true.
Proof.
  intros [R1 R2 R3 R4] Hx. destruct (R3 c) as (l & _ & Hl & Hc). destruct (Hc (R4 _ _ Hx)) as [Hh _]. rewrite Hh. apply Hl in Hx. destruct l; [set_solver|done].
Qed.

(** The first event of a block. *)
Lemma block_first nx bs lo n k b :
  ring_is nx bs lo n -> lo <= k < lo + B -> bs !! Z.to_nat (k mod B) = Some b ->
  if occ b =? 0 then forall x c, n !! x = Some c -> c / 64 <> k
  else 0 <= ctz (occ b) < 64 /\ is_some_b (cell bs (k * 64 + ctz (occ b))) = true /\ (exists x, n !! x = Some (k * 64 + ctz (occ b))) /\
    forall x c, n !! x = Some c -> k <= c / 64 -> k * 64 + ctz (occ b) <= c.
Proof using HB.
  intros R Hk Hb. pose proof R as [R1 R2 R3 R4]. pose proof (proj1 (Forall_lookup _ _) R2 _ _ Hb) as Bok. pose proof (bo_occ _ Bok) as Hocc.
  assert (Hbit : forall x c, n !! x = Some c -> c / 64 = k -> Z.testbit (occ b) (c mod 64) = true).
  { intros x c Hx Hc. rewrite <- (cell_bit bs c b) by (done || by rewrite Hc). by eapply ring_cell. }
  destruct (occ b =? 0) eqn:Ho; zb.
  - intros x c Hx Hc. specialize (Hbit x c Hx Hc). by rewrite Ho, Z.bits_0 in Hbit.
  - destruct (ctz_spec (occ b) ltac:(lia)) as (Hp & Hset & Hlow). set (p := ctz (occ b)) in *. destruct (cycle_parts k p Hp) as [Hc1 Hc2].
    assert (Hs : is_some_b (cell bs (k * 64 + p)) = true) by (rewrite (cell_bit bs _ b), Hc2; by rewrite ?Hc1). split_and!; [lia|lia|done| |].
    + destruct (R3 (k * 64 + p)) as (l & _ & Hl & Hc). destruct Hc as [Hh _]; [split; lia|]. rewrite Hh in Hs. destruct l as [|x l]; [done|].
      exists x. apply Hl. constructor.
    + intros x c Hx Hc. destruct (decide (k * 64 + p <= c)); [done|]. exfalso. pose proof (Z.div_mod c 64 ltac:(lia)). pose proof (Z.mod_pos_bound c 64 ltac:(lia)).
      assert (c / 64 = k) as Hck by lia. specialize (Hbit x c Hx Hck). rewrite Hlow in Hbit by lia. done.
Qed.

Lemma skip_block nx bs lo n b : ring_is nx bs lo n -> bs !! Z.to_nat (lo mod B) = Some b -> occ b = 0 -> ring_is nx bs (lo + 1) n.
Proof using HB.
  intros R Hb Ho. destruct R as [R1 R2 R3 R4] eqn:ER. pose proof (proj1 (Forall_lookup _ _) R2 _ _ Hb) as Bok.
  assert (Hempty : forall c, (c / 64) mod B = lo mod B -> cell bs c = None).
  { intros c Hc. rewrite <- Hc in Hb. pose proof (cell_bit bs c b Hb Bok) as Hbit. rewrite Ho, Z.bits_0 in Hbit. by destruct (cell bs c). }
  pose proof (block_first _ _ _ _ lo b R ltac:(lia) Hb) as Hnot. rewrite Ho in Hnot. cbn [Z.eqb] in Hnot.
  split; [done..| |].
  - intros c. destruct (R3 c) as (l & Hl1 & Hl2 & Hl3). exists l. split_and!; [done..|]. intros [W1 W2].
    destruct (decide (c / 64 = lo + B)) as [Hend|Hend]; [|apply Hl3; split; lia].
    assert (l = []) as ->.
    { destruct l as [|x l]; [done|]. assert (n !! x = Some c) as Hx by (apply Hl2; constructor). destruct (R4 _ _ Hx). lia. }
    split; [|done]. apply Hempty. rewrite Hend. replace (lo + B) with (lo + 1 * B) by lia. by rewrite Z_mod_plus_full.
  - intros x c Hx. destruct (R4 _ _ Hx). pose proof (Hnot _ _ Hx). split; lia.
Qed.

Lemma take_near_ok nx bs lo n b :
  ring_is nx bs lo n -> bs !! Z.to_nat (lo mod B) = Some b -> occ b <> 0 ->
  exists obj p nx' b', block_dequeue nx b = Ret (obj, p, nx', b') /\ 0 <= p < 64 /\ n !! obj = Some (lo * 64 + p) /\
    (forall x c, n !! x = Some c -> lo * 64 + p <= c) /\ ring_is nx' (<[Z.to_nat (lo mod B) := b']> bs) lo (delete obj n) /\
    nx' !! obj = None /\ forall y, y <> obj -> nx' !! y = nx !! y.
Proof using HB.
  intros R Hb Ho. pose proof R as [R1 R2 R3 R4]. pose proof (proj1 (Forall_lookup _ _) R2 _ _ Hb) as Bok. pose proof (bo_occ _ Bok) as Hocc.
  pose proof (block_first _ _ _ _ lo b R ltac:(lia) Hb) as Hfirst. rewrite (proj2 (Z.eqb_neq _ _) Ho) in Hfirst. destruct Hfirst as (Hp & Hbit & _ & Hmin).
  set (p := ctz (occ b)) in *. set (c := lo * 64 + p) in *. destruct (cycle_parts lo p Hp) as [Hc1 Hc2]. fold c in Hc1, Hc2.
  assert (Hw : in_window lo c) by (split; lia). pose proof Hb as Hbc. rewrite <- Hc1 in Hbc.
  destruct (R3 c) as (l & Hl1 & Hl2 & Hl3). destruct (Hl3 Hw) as [Hh Hch]. rewrite Hh in Hbit. destruct l as [|obj l]; [done|]. cbn [head] in Hh.
  destruct Hch as [Hnext Hch]. apply NoDup_cons in Hl1 as [Hfresh Hl1].
  assert (Hat : pq_array b !! Z.to_nat p = Some (Some obj)).
  { rewrite (cell_block _ _ _ Hbc), Hc2 in Hh. by destruct (pq_array b !! Z.to_nat p) as [[]|]; simplify_eq/=. }
  unfold block_dequeue. rewrite (proj2 (Z.eqb_neq _ _) Ho). cbn [negb assert_ mbind outcome_bind]. fold p.
  rewrite (proj2 (at_ret_iff (pq_array b) p (Some obj))) by (split; [lia|done]). cbn [mbind outcome_bind]. rewrite Hnext.
  rewrite (proj2 (set_at_ret_iff (pq_array b) _ p (head l))) by (split; [rewrite (bo_length _ Bok); lia|reflexivity]). cbn [mbind outcome_bind].
  eexists obj, p, (delete obj nx), _. split; [reflexivity|]. split; [done|].
  assert (Hobj : n !! obj = Some c) by (apply Hl2; constructor). split; [done|]. split.
  { intros x d Hx. apply (Hmin x d Hx). apply (R4 _ _ Hx). }
  assert (Hx2 : forall y, y <> obj -> delete obj nx !! y = nx !! y) by (intros y Hy; by rewrite lookup_delete_ne).
  split; [|by rewrite lookup_delete_eq].
  set (o := match head l with Some _ => occ b | None => _ end).
  assert (Hob : 0 <= o < 2 ^ 64 /\ forall j, 0 <= j < 64 -> Z.testbit o j = if decide (j = p) then is_some_b (head l) else Z.testbit (occ b) j).
  { assert (Hset : Z.testbit (occ b) p = true) by (rewrite <- Hc2, <- (cell_bit bs c b Hbc Bok), Hh; done).
    subst o. destruct (head l); [split; [done|]; intros j Hj; case_decide as Hj2; [by rewrite Hj2|done]|]. by apply clear_bit_spec. }
  assert (Hput : forall d, in_window lo d -> cell (<[Z.to_nat (lo mod B) := mkPQBlock (<[Z.to_nat p := head l]> (pq_array b)) o]> bs) d =
    if decide (d = c) then head l else cell bs d).
  { intros d Hd. pose proof (cell_put bs lo c b (head l) d R1 Hbc (bo_length _ Bok) Hw Hd o) as Hput. by rewrite Hc1, Hc2 in Hput. }
  split.
  - by rewrite length_insert.
  - apply Forall_insert; [done|]. apply block_ok_put; [done|done|apply Hob|apply Hob].
  - intros d. destruct (R3 d) as (k & Hk1 & Hk2 & Hk3). exists (if decide (d = c) then l else k). destruct (decide (d = c)) as [Hd|Hd]; [subst d|].
    + split_and!; [done| |].
      * intros x. destruct (decide (x = obj)) as [->|Hx]; [rewrite lookup_delete_eq; naive_solver|]. rewrite lookup_delete_ne by done. rewrite <- Hl2, elem_of_cons. naive_solver.
      * intros _. rewrite Hput by done. rewrite decide_True by done. split; [done|].
        eapply chain_ext; [|exact Hch]. intros x Hx. apply Hx2. by intros ->.
    + split_and!; [done| |].
      * intros x. rewrite Hk2. destruct (decide (x = obj)) as [->|Hx]; [rewrite lookup_delete_eq; naive_solver|by rewrite lookup_delete_ne].
      * intros Hwd. destruct (Hk3 Hwd) as [E1 E2]. rewrite Hput by done. rewrite decide_False by done. split; [done|].
        eapply chain_ext; [|exact E2]. intros x Hx. apply Hx2. intros ->. apply Hk2 in Hx. congruence.
  - intros x d Hx. apply lookup_delete_Some in Hx as [_ Hx]. by eapply R4.
Qed.

(** *** The far events *)

Lemma far_frame nx nx' fe f : far_is nx fe f -> (forall x c, f !! x = Some c -> nx' !! x = nx !! x) -> far_is nx' fe f.
Proof. intros [F1 F2 F3 F4] Hf. split; try done. intros x c Hx. rewrite (Hf x c Hx). by eapply F4. Qed.

Lemma fe_insert_elems c x l : fe_insert c x l ≡ₚ (c, x) :: l.
Proof.
  induction l as [|[d y] l IH]; simpl; [done|]. destruct (c <? d); [done|]. rewrite IH. apply Permutation_swap.
Qed.

Lemma fe_insert_sorted c x l : StronglySorted Z.le l.*1 -> StronglySorted Z.le (fe_insert c x l).*1.
Proof.
  induction l as [|[d y] l IH]; simpl; intros Hs; [repeat constructor|]. inversion Hs as [|? ? Hs' Hall]; subst.
  destruct (c <? d) eqn:Hc; zb; simpl; constructor; try done.
  - constructor; [lia|]. eapply Forall_impl; [exact Hall|]. simpl. lia.
  - by apply IH.
  - rewrite (fmap_Permutation fst _ _ (fe_insert_elems c x l)). simpl. by constructor.
Qed.

Lemma fe_insert_ok nx fe f c x : far_is nx fe f -> f !! x = None -> nx !! x = None -> far_is nx (fe_insert c x fe) (<[x := c]> f).
Proof.
  intros [F1 F2 F3 F4] Hx Hnx. split.
  - by apply fe_insert_sorted.
  - rewrite (fmap_Permutation snd _ _ (fe_insert_elems c x fe)). simpl. constructor; [|done].
    intros ([d y] & Hy1 & Hy2)%list_elem_of_fmap. simpl in Hy1. subst. apply F3 in Hy2. congruence.
  - intros d y. rewrite (fe_insert_elems c x fe), elem_of_cons, F3. destruct (decide (y = x)) as [->|Hy]; [rewrite lookup_insert_eq; naive_solver|].
    rewrite lookup_insert_ne by done. naive_solver.
  - intros y d Hy. apply lookup_insert_Some in Hy as [[<- _]|[_ Hy]]; [done|by eapply F4].
Qed.

Lemma far_cons nx c x fe f :
  far_is nx ((c, x) :: fe) f -> f !! x = Some c /\ far_is nx fe (delete x f) /\ forall y d, f !! y = Some d -> c <= d.
Proof.
  intros [F1 F2 F3 F4]. simpl in F1, F2. inversion F1 as [|? ? F1' Hall]; subst. apply NoDup_cons in F2 as [Hx F2].
  assert (f !! x = Some c) as Hfx by (apply F3; constructor). split; [done|]. split.
  - split; [done|done| |].
    + intros d y. destruct (decide (y = x)) as [->|Hy].
      * rewrite lookup_delete_eq. split; [|done]. intros Hin. destruct Hx. apply list_elem_of_fmap. by exists (d, x).
      * rewrite lookup_delete_ne by done. rewrite <- F3, elem_of_cons. naive_solver.
    + intros y d Hy. apply lookup_delete_Some in Hy as [_ Hy]. by eapply F4.
  - intros y d Hy. apply F3 in Hy. apply elem_of_cons in Hy as [Hy|Hy]; [simplify_eq; done|].
    rewrite Forall_forall in Hall. apply Hall. apply list_elem_of_fmap. by exists (d, y).
Qed.

Lemma far_nil nx f : far_is nx [] f -> f = ∅.
Proof. intros [_ _ F3 _]. apply map_eq. intros x. rewrite lookup_empty. destruct (f !! x) eqn:Hx; [|done]. apply F3 in Hx. set_solver. Qed.

Lemma move_union (n f : gmap Z Z) x c : n !! x = None -> f !! x = Some c -> <[x := c]> n ∪ delete x f = n ∪ f.
Proof. intros Hn Hf. rewrite <- insert_union_l, insert_union_r by done. by rewrite insert_delete_id. Qed.

Lemma pull_far_ok cur fe nx bs n f :
  0 <= cur < 2 ^ 57 -> ring_is nx bs cur n -> far_is nx fe f -> n ##ₘ f -> (forall x c, f !! x = Some c -> cur <= c / 64) ->
  exists nx' bs' fe' n' f', pull_far B cur ((cur + B) * 64) nx bs fe = Ret (nx', bs', fe') /\ n' ∪ f' = n ∪ f /\ n' ##ₘ f' /\
    ring_is nx' bs' cur n' /\ far_is nx' fe' f' /\ (forall x c, f' !! x = Some c -> cur + B <= c / 64) /\
    forall y, f !! y = None -> nx' !! y = nx !! y.
Proof using HB.
  intros Hcur. revert nx bs n f. induction fe as [|[c x] fe IH]; intros nx bs n f R F D Hge; cbn [pull_far].
  - exists nx, bs, [], n, f. apply far_nil in F as Hf. split_and!; try done. intros x c Hx. by rewrite Hf, lookup_empty in Hx.
  - destruct (far_cons _ _ _ _ _ F) as (Hx & F' & Hmin). pose proof (Z.div_mod c 64 ltac:(lia)). pose proof (Z.mod_pos_bound c 64 ltac:(lia)).
    destruct (c <? (cur + B) * 64) eqn:Hc; zb.
    + pose proof (Hge x c Hx). rewrite (proj2 (Z.leb_le cur (c / 64))) by lia. rewrite u64_small by lia.
      rewrite (proj2 (Z.ltb_lt (c / 64) (cur + B))) by lia. cbn [assert_ mbind outcome_bind].
      assert (Hn : n !! x = None) by (destruct (n !! x) eqn:E; [|done]; by destruct (map_disjoint_spec n f) as [D' _]; exfalso; eapply D').
      destruct (put_near_ok nx bs cur n x c R ltac:(split; lia) Hn (fi_next _ _ _ F x c Hx)) as (nx1 & bs1 & -> & R1 & Hfr). cbn [mbind outcome_bind].
      destruct (IH nx1 bs1 (<[x := c]> n) (delete x f) R1) as (nx' & bs' & fe' & n' & f' & E & U & D' & R' & Fa & Hge' & Hfr').
      * eapply far_frame; [exact F'|]. intros y d Hy. apply lookup_delete_Some in Hy as [Hy _]. by apply Hfr.
      * apply map_disjoint_insert_l_2; [by rewrite lookup_delete_eq|]. by apply map_disjoint_delete_r.
      * intros y d Hy. apply lookup_delete_Some in Hy as [_ Hy]. by eapply Hge.
      * exists nx', bs', fe', n', f'. split; [done|]. rewrite U, move_union by done. split_and!; try done.
        intros y Hy. rewrite Hfr'; [apply Hfr; congruence|]. apply lookup_delete_None. by right.
    + exists nx, bs, ((c, x) :: fe), n, f. split_and!; try done. intros y d Hy. pose proof (Hmin y d Hy). apply Z.div_le_lower_bound; lia.
Qed.

(** *** The queue *)

Lemma union_cases (n f : gmap Z Z) x c : n ##ₘ f -> (n ∪ f) !! x = Some c <-> n !! x = Some c \/ f !! x = Some c.
Proof. intros D. by apply lookup_union_Some. Qed.

Lemma pq_ge nx q m x c : pq_is nx q m -> m !! x = Some c -> curBlock q <= c / 64.
Proof using HB.
  intros [(n & f & -> & D & R & F & Hf) Hcur _ _ _] Hx. apply (union_cases n f _ _ D) in Hx as [Hx|Hx].
  - by destruct (ri_window _ _ _ _ R _ _ Hx).
  - pose proof (Hf _ _ Hx). pose proof (base_bounds (curBlock q) ltac:(lia)). pose proof (Z.div_lt_upper_bound B 2 B ltac:(lia) ltac:(lia)). lia.
Qed.

Lemma newPrioQueue_ok nx : pq_is nx (newPrioQueue B) ∅.
Proof using HB.
  split; simpl; try done.
  - exists ∅, ∅. split_and!; [by rewrite map_empty_union|apply map_disjoint_empty_l| | |done].
    + split; [apply length_replicate| | |done].
      * apply Forall_replicate. split; [done|done|]. intros p Hp. unfold newPQBlock. cbn [occ pq_array]. rewrite Z.bits_0.
        rewrite lookup_replicate_2 by lia. done.
      * intros c. exists []. split_and!; [constructor|set_solver|]. intros _. split; [|done]. unfold cell.
        destruct (replicate _ newPQBlock !! _) as [b|] eqn:Hb; [|done]. apply lookup_replicate in Hb as [-> _]. unfold newPQBlock. cbn [pq_array].
        destruct (replicate 64 None !! Z.to_nat (c mod 64)) as [o|] eqn:Ho; [|done]. by apply lookup_replicate in Ho as [-> _].
    + split; [constructor|constructor| |done]. intros c x. rewrite lookup_empty. set_solver.
Qed.

Lemma enqueue_ok nx q m obj c :
  pq_is nx q m -> m !! obj = None -> nx !! obj = None -> curBlock q <= c / 64 -> c < 2 ^ 63 -> Z.of_nat (size m) + 1 < 2 ^ 63 ->
  exists nx' q', pq_enqueue B nx q obj c = Ret (nx', q') /\ pq_is nx' q' (<[obj := c]> m) /\ curBlock q' = curBlock q /\ forall y, y <> obj -> nx' !! y = nx !! y.
Proof using HB.
  intros [(n & f & -> & D & R & F & Hf) Hcur Hb Hs Hsm] Hm Hnx Hge Hlt Hsize. apply lookup_union_None in Hm as [Hn1 Hf1].
  unfold pq_enqueue. rewrite (proj2 (Z.leb_le _ _)) by done. cbn [assert_ mbind outcome_bind]. rewrite u64_small by lia.
  rewrite (u64_small (elems q + 1)) by lia.
  assert (Hsz : Z.of_nat (size (<[obj := c]> (n ∪ f))) = elems q + 1) by (rewrite map_size_insert_None by (by apply lookup_union_None); lia).
  assert (Hbd : forall x d, <[obj := c]> (n ∪ f) !! x = Some d -> d < 2 ^ 63) by (intros x d Hx; apply lookup_insert_Some in Hx as [[_ <-]|[_ Hx]]; [done|by eapply Hb]).
  destruct (c / 64 <? curBlock q + B) eqn:Hc; zb.
  - destruct (put_near_ok nx (blocks q) (curBlock q) n obj c R ltac:(split; lia) Hn1 Hnx) as (nx' & bs' & -> & R' & Hfr). cbn [mbind outcome_bind].
    eexists _, _. split; [done|]. split_and!; [|done|done]. split; cbn [blocks feMap curBlock elems]; try done; [|lia].
    exists (<[obj := c]> n), f. split_and!; [by rewrite insert_union_l|by apply map_disjoint_insert_l_2|done| |done].
    eapply far_frame; [exact F|]. intros x d Hx. apply Hfr. congruence.
  - eexists _, _. split; [done|]. split_and!; [|done|done]. split; cbn [blocks feMap curBlock elems]; try done; [|lia].
    exists n, (<[obj := c]> f). split_and!; [by rewrite insert_union_r|by apply map_disjoint_insert_r_2|done|by apply fe_insert_ok|].
    intros x d Hx. apply lookup_insert_Some in Hx as [[_ <-]|[_ Hx]]; [|by eapply Hf]. pose proof (base_bounds (curBlock q) ltac:(lia)). lia.
Qed.

Lemma base_step cur : 0 <= cur -> if (cur + 1) mod (B / 2) =? 0 then base (cur + 1) = cur + 1 else base (cur + 1) = base cur.
Proof using HB.
  intros Hcur. pose proof half_pos. pose proof (base_bounds cur Hcur). pose proof (base_bounds (cur + 1) ltac:(lia)).
  pose proof (Z.div_mod (cur + 1) (B / 2) ltac:(lia)). destruct (_ =? 0) eqn:E; zb; unfold base in *; [lia|].
  pose proof (Z.mod_pos_bound (cur + 1) (B / 2) ltac:(lia)). assert (cur / (B / 2) = (cur + 1) / (B / 2)) as ->; [|done].
  symmetry. apply Z.div_unique with ((cur + 1) mod (B / 2) - 1); lia.
Qed.

Lemma advance_ok nx q m b x c :
  pq_is nx q m -> m !! x = Some c -> blocks q !! Z.to_nat (curBlock q mod B) = Some b -> occ b = 0 ->
  exists nx' q', advance B nx q = Ret (nx', q') /\ pq_is nx' q' m /\ curBlock q' = curBlock q + 1 /\ forall y, m !! y = None -> nx' !! y = nx !! y.
Proof using HB.
  intros P Hx Hb Ho. pose proof (pq_ge _ _ _ _ _ P Hx) as Hge. destruct P as [(n & f & -> & D & R & F & Hf) Hcur Hbd Hs Hsm].
  pose proof (skip_block _ _ _ _ _ R Hb Ho) as R'. pose proof (base_bounds (curBlock q) ltac:(lia)) as Hbase. pose proof half_pos.
  pose proof (Z.div_lt_upper_bound B 2 B ltac:(lia) ltac:(lia)). pose proof (base_step (curBlock q) ltac:(lia)) as Hstep.
  assert (Hcur' : curBlock q + 1 < 2 ^ 57).
  { assert (c / 64 < 2 ^ 57) by (apply Z.div_lt_upper_bound; [lia|]; pose proof (Hbd x c Hx); lia).
    apply (union_cases n f _ _ D) in Hx as [Hx|Hx].
    - destruct (ri_window _ _ _ _ R' _ _ Hx). lia.
    - pose proof (Hf _ _ Hx). lia. }
  unfold advance. rewrite u64_small by lia. destruct ((_ =? 0) && _) eqn:Hc.
  - apply andb_prop in Hc as [Hc _]. rewrite Hc in Hstep. rewrite (u64_small (curBlock q + 1 + B)) by lia. rewrite (u64_small ((curBlock q + 1 + B) * 64)) by lia.
    destruct (pull_far_ok (curBlock q + 1) (feMap q) nx (blocks q) n f ltac:(lia) R' F D) as (nx' & bs' & fe' & n' & f' & -> & U & D' & R1 & F1 & Hge' & Hfr).
    { intros y d Hy. pose proof (Hf _ _ Hy). lia. }
    cbn [mbind outcome_bind]. eexists _, _. split; [done|]. split_and!; [|done|].
    + split; cbn [blocks feMap curBlock elems]; try done; [|lia]. exists n', f'. split_and!; try done. intros y d Hy. rewrite Hstep. by eapply Hge'.
    + intros y Hy. apply Hfr. by apply lookup_union_None in Hy as [_ Hy].
  - eexists _, _. split; [done|]. split_and!; [|done|done]. split; cbn [blocks feMap curBlock elems]; try done; [|lia]. exists n, f. split_and!; try done.
    intros y d Hy. destruct (_ =? 0) eqn:E in Hstep; [|rewrite Hstep; by eapply Hf]. rewrite E in Hc. cbn [andb] in Hc. destruct (feMap q); [|done].
    apply far_nil in F. by rewrite F, lookup_empty in Hy.
Qed.

Lemma find_block_ok fuel nx q m x c :
  pq_is nx q m -> m !! x = Some c -> c / 64 - curBlock q < Z.of_nat fuel ->
  exists nx' q' b, find_block B fuel nx q = Ret (nx', q') /\ pq_is nx' q' m /\ curBlock q <= curBlock q' /\
    blocks q' !! Z.to_nat (curBlock q' mod B) = Some b /\ occ b <> 0 /\ forall y, m !! y = None -> nx' !! y = nx !! y.
Proof using HB.
  revert nx q. induction fuel as [|fuel IH]; intros nx q P Hx Hfuel.
  - pose proof (pq_ge _ _ _ _ _ P Hx). lia.
  - cbn [find_block]. destruct (pi_parts _ _ _ P) as (n & f & _ & _ & R & _). destruct (slot_lt (blocks q) (curBlock q) (ri_length _ _ _ _ R)) as (b & -> & Hb).
    cbn [mbind outcome_bind]. destruct (occ b =? 0) eqn:Ho; zb; [|exists nx, q, b; split_and!; done].
    destruct (advance_ok _ _ _ _ _ _ P Hx Hb Ho) as (nx1 & q1 & -> & P1 & Hq1 & Hfr). cbn [mbind outcome_bind].
    destruct (IH nx1 q1 P1 Hx ltac:(lia)) as (nx' & q' & b' & E & P' & Hq' & Hb' & Ho' & Hfr'). exists nx', q', b'. split_and!; try done; [lia|].
    intros y Hy. rewrite Hfr' by done. by apply Hfr.
Qed.

(** [c] is the cycle of an event of [m] and none of them is earlier. *)
Definition earliest (m : gmap Z Z) (c : Z) : Prop := (exists x, m !! x = Some c) /\ forall y d, m !! y = Some d -> c <= d.

Lemma elems_nonzero nx q m x c : pq_is nx q m -> m !! x = Some c -> (elems q =? 0) = false.
Proof.
  intros P Hx. apply Z.eqb_neq. rewrite (pi_size _ _ _ P). intros Hs.
  assert (m = ∅) as -> by (apply map_size_empty_iff; lia). by rewrite lookup_empty in Hx.
Qed.

Lemma far_later nx q m (f : gmap Z Z) x c : pq_is nx q m -> (forall x c, f !! x = Some c -> base (curBlock q) + B <= c / 64) -> f !! x = Some c -> curBlock q + B / 2 < c / 64.
Proof using HB.
  intros P Hf Hx. pose proof (Hf x c Hx). pose proof (base_bounds (curBlock q) ltac:(apply P)). pose proof (Z.mul_div_le B 2 ltac:(lia)). lia.
Qed.

Lemma dequeue_ok fuel nx q m x c :
  pq_is nx q m -> m !! x = Some c -> c / 64 - curBlock q < Z.of_nat fuel ->
  exists obj d nx' q', pq_dequeue B fuel nx q = Ret (obj, d, nx', q') /\ m !! obj = Some d /\ earliest m d /\ pq_is nx' q' (delete obj m) /\
    curBlock q' = d / 64 /\ nx' !! obj = None /\ forall y, m !! y = None -> nx' !! y = nx !! y.
Proof using HB.
  intros P Hx Hfuel. unfold pq_dequeue. rewrite (elems_nonzero _ _ _ _ _ P Hx). cbn [negb assert_ mbind outcome_bind].
  destruct (find_block_ok fuel nx q m x c P Hx Hfuel) as (nx1 & q1 & b & -> & P1 & _ & Hb & Ho & Hfr). cbn [mbind outcome_bind].
  pose proof P1 as [(n & f & Em & D & R & F & Hf) Hcur Hbd Hs Hsm]. subst m. pose proof (ri_length _ _ _ _ R) as Hlen.
  pose proof (Z.mod_pos_bound (curBlock q1) B ltac:(lia)).
  rewrite (proj2 (at_ret_iff (blocks q1) (curBlock q1 mod B) b)) by (split; [lia|done]). cbn [mbind outcome_bind].
  destruct (take_near_ok _ _ _ _ _ R Hb Ho) as (obj & p & nx' & b' & -> & Hp & Hobj & Hmin & R' & Hnx' & Hfr'). cbn [mbind outcome_bind].
  rewrite (proj2 (set_at_ret_iff (blocks q1) _ (curBlock q1 mod B) b')) by (split; [rewrite Hlen; lia|reflexivity]). cbn [mbind outcome_bind].
  rewrite u64_small by lia. destruct (cycle_parts (curBlock q1) p Hp) as [Hd1 Hd2].
  assert (Hm : (n ∪ f) !! obj = Some (curBlock q1 * 64 + p)) by (by apply lookup_union_Some_l).
  assert (Hfo : f !! obj = None) by (by eapply map_disjoint_Some_l).
  assert (Hpos : (0 < size (n ∪ f))%nat) by (destruct (size (n ∪ f)) eqn:E; [|lia]; apply map_size_empty_iff in E; by rewrite E, lookup_empty in Hm).
  exists obj, (curBlock q1 * 64 + p), nx'. eexists. split; [reflexivity|]. split; [done|]. split_and!; try done.
  - split; [by exists obj|]. intros y d Hy. apply (union_cases n f _ _ D) in Hy as [Hy|Hy]; [by eapply Hmin|]. pose proof (far_later _ _ _ f y d P1 Hf Hy).
    pose proof half_pos. pose proof (Z.mul_div_le d 64 ltac:(lia)). lia.
  - split; cbn [blocks feMap curBlock elems].
    + exists (delete obj n), f. rewrite delete_union, (delete_id f) by done. split_and!; try done; [by apply map_disjoint_delete_l|].
      eapply far_frame; [exact F|]. intros y d Hy. apply Hfr'. congruence.
    + done.
    + intros y d Hy. apply lookup_delete_Some in Hy as [_ Hy]. by eapply Hbd.
    + rewrite map_size_delete_Some by (by eexists). rewrite Hs, u64_small by lia. lia.
    + rewrite map_size_delete_Some by (by eexists). lia.
  - intros y Hy. rewrite Hfr' by congruence. by apply Hfr.
Qed.

(** *** The first cycle *)

(** The first event in [k] blocks from distance [a]. *)
Lemma scan_ok nx q m n (k : nat) a :
  pq_is nx q m -> ring_is nx (blocks q) (curBlock q) n -> 0 <= a -> a + Z.of_nat k <= B ->
  exists r, scan_blocks B q (seqZ a (Z.of_nat k)) = Ret r /\
    match r with
    | None => forall x c, n !! x = Some c -> ~ (curBlock q + a <= c / 64 < curBlock q + a + Z.of_nat k)
    | Some d => (exists x, n !! x = Some d) /\ d / 64 < curBlock q + a + Z.of_nat k /\ forall x c, n !! x = Some c -> curBlock q + a <= c / 64 -> d <= c
    end.
Proof using HB.
  intros P R. revert a. induction k as [|k IH]; intros a Ha Hk.
  - exists None. split; [done|]. intros x c Hx. lia.
  - rewrite seqZ_cons by lia. cbn [scan_blocks]. replace (Z.pred (Z.of_nat (S k))) with (Z.of_nat k) by lia. pose proof (pi_cur _ _ _ P).
    rewrite (u64_small (curBlock q + a)) by lia. destruct (slot_lt (blocks q) (curBlock q + a) (ri_length _ _ _ _ R)) as (b & -> & Hb). cbn [mbind outcome_bind].
    pose proof (block_first _ _ _ _ (curBlock q + a) b R ltac:(lia) Hb) as Hfirst. destruct (occ b =? 0) eqn:Ho.
    + destruct (IH (Z.succ a) ltac:(lia) ltac:(lia)) as (r & -> & Hr). exists r. split; [done|]. destruct r as [d|].
      * destruct Hr as (H1 & H2 & H3). split_and!; [done|lia|]. intros x c Hx Hc. apply (H3 x c Hx). pose proof (Hfirst x c Hx). lia.
      * intros x c Hx Hc. pose proof (Hfirst x c Hx). apply (Hr x c Hx). lia.
    + destruct Hfirst as (Hp & _ & Hex & Hmin). destruct (cycle_parts (curBlock q + a) (ctz (occ b)) Hp) as [Hd1 _].
      exists (Some ((curBlock q + a) * 64 + ctz (occ b))). rewrite u64_small by lia. split; [done|]. split_and!; [done|lia|done].
Qed.

Lemma firstCycle_ok nx q m x c : pq_is nx q m -> m !! x = Some c -> exists d, firstCycle B q = Ret d /\ earliest m d.
Proof using HB.
  intros P Hx. unfold firstCycle. rewrite (elems_nonzero _ _ _ _ _ P Hx). cbn [negb assert_ mbind outcome_bind].
  destruct (pi_parts _ _ _ P) as (n & f & -> & D & R & F & Hf). pose proof half_pos as Hh. pose proof (Z.mul_div_le B 2 ltac:(lia)) as Hh2.
  assert (Hn : forall y d, n !! y = Some d -> curBlock q <= d / 64 < curBlock q + B) by (intros y d Hy; apply (ri_window _ _ _ _ R _ _ Hy)).
  assert (Hlater : forall y d, f !! y = Some d -> curBlock q + B / 2 < d / 64) by (intros y d Hy; by eapply (far_later _ _ _ f)).
  destruct (scan_ok nx q _ n (Z.to_nat (B / 2)) 0 P R ltac:(lia) ltac:(lia)) as (r & E & Hr). rewrite Z2Nat.id in E, Hr by lia. rewrite E. cbn [mbind outcome_bind].
  destruct r as [d|].
  { destruct Hr as ((y & Hy) & Hd & Hmin). exists d. split; [done|]. split; [exists y; by apply lookup_union_Some_l|].
    intros z e Hz. apply (union_cases n f _ _ D) in Hz as [Hz|Hz]; [apply (Hmin z e Hz); pose proof (Hn z e Hz); lia|].
    pose proof (Hlater z e Hz). pose proof (Z.div_mod d 64 ltac:(lia)). pose proof (Z.mod_pos_bound d 64 ltac:(lia)). pose proof (Z.mul_div_le e 64 ltac:(lia)). lia. }
  destruct (scan_ok nx q _ n (Z.to_nat (B - B / 2)) (B / 2) P R ltac:(lia) ltac:(lia)) as (r & E2 & Hr2). rewrite Z2Nat.id in E2, Hr2 by lia. rewrite E2. cbn [mbind outcome_bind].
  assert (Hrange : forall y d, n !! y = Some d -> curBlock q + B / 2 <= d / 64) by (intros y d Hy; pose proof (Hn y d Hy); pose proof (Hr y d Hy); lia).
  assert (Hnone : r = None -> n = ∅).
  { intros ->. apply map_eq. intros y. rewrite lookup_empty. destruct (n !! y) as [d|] eqn:Hy; [|done]. destruct (Hr2 y d Hy). pose proof (Hn y d Hy). pose proof (Hrange y d Hy). lia. }
  assert (Hmin : forall d, r = Some d -> (exists y, n !! y = Some d) /\ forall z e, n !! z = Some e -> d <= e).
  { intros d ->. destruct Hr2 as (H1 & _ & H3). split; [done|]. intros z e Hz. apply (H3 z e Hz), (Hrange z e Hz). }
  destruct (feMap q) as [|[g y] fe] eqn:Efe.
  - apply far_nil in F. subst f. rewrite map_union_empty in *. destruct r as [d|]; [|by rewrite (Hnone eq_refl), lookup_empty in Hx]. exists d. split; [done|]. split; apply (Hmin d eq_refl).
  - destruct (far_cons _ _ _ _ _ F) as (Hy & _ & Hg). destruct r as [d|].
    + destruct (Hmin d eq_refl) as [(z & Hz) Hd]. exists (Z.min d g). split; [done|]. split.
      * destruct (Z.min_spec d g) as [[_ ->]|[_ ->]]; [exists z; by apply lookup_union_Some_l|exists y; by apply lookup_union_Some_r].
      * intros w e Hw. apply (union_cases n f _ _ D) in Hw as [Hw|Hw]; [pose proof (Hd w e Hw)|pose proof (Hg w e Hw)]; lia.
    + exists g. split; [done|]. rewrite (Hnone eq_refl), map_empty_union. split; [by exists y|done].
Qed.

(** *** Histories *)

(** The cycle of the event removed last; the latest is first in the list. *)
Definition now (outs : list (Z * Z)) : Z := match outs with [] => 0 | (c, _) :: _ => c end.

(** [ins] and [outs] are the events inserted and removed so far, [m] those inserted
    and not removed.  An event is inserted when it is not in the queue, and not
    before the cycle of the event removed last. *)
Inductive pq_hist : list (Z * Z) -> list (Z * Z) -> gmap Z Z -> nexts -> PrioQueue -> Prop :=
  | hist_new : pq_hist [] [] ∅ ∅ (newPrioQueue B)
  | hist_enqueue ins outs m nx q x c nx' q' :
      pq_hist ins outs m nx q -> m !! x = None -> now outs <= c < 2 ^ 63 -> pq_enqueue B nx q x c = Ret (nx', q') ->
      pq_hist ((c, x) :: ins) outs (<[x := c]> m) nx' q'
  | hist_dequeue ins outs m nx q fuel x c nx' q' :
      pq_hist ins outs m nx q -> pq_dequeue B fuel nx q = Ret (x, c, nx', q') ->
      pq_hist ins ((c, x) :: outs) (delete x m) nx' q'.

(** The events of [m], with the cycle first. *)
Definition pending_events (m : gmap Z Z) : list (Z * Z) := (fun p => (p.2, p.1)) <$> map_to_list m.

Record hist_inv (ins outs : list (Z * Z)) (m : gmap Z Z) (nx : nexts) (q : PrioQueue) : Prop := {
  hi_is : pq_is nx q m;
  hi_free : forall y, m !! y = None -> nx !! y = None;
  hi_cur : curBlock q <= now outs / 64;
  hi_later : forall y d, m !! y = Some d -> now outs <= d;
  hi_sorted : StronglySorted Z.ge outs.*1;
  hi_events : ins ≡ₚ outs ++ pending_events m;
  hi_now : 0 <= now outs
}.

Lemma find_block_more fuel k nx q r : find_block B fuel nx q = Ret r -> find_block B (fuel + k) nx q = Ret r.
Proof.
  revert nx q. induction fuel as [|fuel IH]; intros nx q; [done|]. cbn [find_block Nat.add]. destruct (at_ _ _) as [b|]; [|done]. cbn [mbind outcome_bind].
  destruct (occ b =? 0); [|done]. destruct (advance B nx q) as [[nx1 q1]|]; [|done]. cbn [mbind outcome_bind]. apply IH.
Qed.

Lemma dequeue_more fuel k nx q r : pq_dequeue B fuel nx q = Ret r -> pq_dequeue B (fuel + k) nx q = Ret r.
Proof.
  unfold pq_dequeue. destruct (assert_ _); [|done]. cbn [mbind outcome_bind]. destruct (find_block B fuel nx q) eqn:E; [|done].
  by rewrite (find_block_more _ k _ _ _ E).
Qed.

Lemma earliest_unique m c d : earliest m c -> earliest m d -> c = d.
Proof. intros [(x & Hx) Hc] [(y & Hy) Hd]. pose proof (Hc _ _ Hy). pose proof (Hd _ _ Hx). lia. Qed.

Lemma pending_size ins outs m nx q : hist_inv ins outs m nx q -> (size m <= length ins)%nat.
Proof.
  intros I. rewrite (Permutation_length (hi_events _ _ _ _ _ I)), length_app. unfold pending_events. rewrite length_fmap, length_map_to_list. lia.
Qed.

Lemma hist_enqueue_inv ins outs m nx q x c nx' q' :
  hist_inv ins outs m nx q -> m !! x = None -> now outs <= c < 2 ^ 63 -> Z.of_nat (length ins) < 2 ^ 62 -> pq_enqueue B nx q x c = Ret (nx', q') ->
  hist_inv ((c, x) :: ins) outs (<[x := c]> m) nx' q'.
Proof using HB.
  intros I Hx Hc Hlen E. pose proof (pending_size _ _ _ _ _ I). destruct I as [I1 I2 I3 I4 I5 I6 I7].
  destruct (enqueue_ok nx q m x c I1 Hx (I2 _ Hx)) as (nx1 & q1 & E1 & P & Hcur & Hfr); [|lia|lia|].
  { pose proof (Z.div_le_mono (now outs) c 64). lia. }
  rewrite E in E1. injection E1 as <- <-. split; try done.
  - intros y Hy. apply lookup_insert_None in Hy as [Hy Hne]. rewrite Hfr by done. by apply I2.
  - by rewrite Hcur.
  - intros y d Hy. apply lookup_insert_Some in Hy as [[_ <-]|[_ Hy]]; [lia|by eapply I4].
  - unfold pending_events. rewrite map_to_list_insert by done. simpl. rewrite I6. apply Permutation_middle.
Qed.

Lemma hist_dequeue_inv ins outs m nx q fuel x c nx' q' :
  hist_inv ins outs m nx q -> pq_dequeue B fuel nx q = Ret (x, c, nx', q') ->
  hist_inv ins ((c, x) :: outs) (delete x m) nx' q'.
Proof using HB.
  intros [I1 I2 I3 I4 I5 I6 I7] E. destruct (decide (m = ∅)) as [->|Hm].
  { unfold pq_dequeue in E. pose proof (pi_size _ _ _ I1) as Hs. rewrite map_size_empty in Hs. rewrite Hs in E. done. }
  apply map_choose in Hm as (y & d & Hy). pose proof (dequeue_more _ (Z.to_nat (d / 64 - curBlock q + 1)) _ _ _ E) as E'.
  destruct (dequeue_ok (fuel + Z.to_nat (d / 64 - curBlock q + 1)) nx q m y d I1 Hy) as (obj & e & nx1 & q1 & E1 & Hobj & [He1 He2] & P & Hcur & Hnx & Hfr); [|rewrite E' in E1; injection E1 as <- <- <- <-].
  { pose proof (pq_ge _ _ _ _ _ I1 Hy). lia. }
  pose proof (I4 _ _ Hobj). split; cbn [now].
  - done.
  - intros z Hz. apply lookup_delete_None in Hz as [<-|Hz]; [done|]. rewrite Hfr by done. by apply I2.
  - lia.
  - intros z f Hz. apply lookup_delete_Some in Hz as [_ Hz]. by eapply He2.
  - simpl. constructor; [done|]. destruct outs as [|[f z] outs]; [constructor|]. simpl in *. inversion I5; subst. constructor; [lia|].
    eapply Forall_impl; [done|]. simpl. lia.
  - rewrite I6. unfold pending_events. rewrite <- (insert_delete_id m x c Hobj) at 1. rewrite map_to_list_insert by (by rewrite lookup_delete_eq). simpl.
    symmetry. apply Permutation_middle.
  - lia.
Qed.

Lemma hist_ok ins outs m nx q : pq_hist ins outs m nx q -> Z.of_nat (length ins) < 2 ^ 62 -> hist_inv ins outs m nx q.
Proof using HB.
  induction 1 as [|ins outs m nx q x c nx' q' _ IH Hx Hc E|ins outs m nx q fuel x c nx' q' _ IH E]; intros Hlen.
  - split; try done; [apply newPrioQueue_ok|constructor].
  - simpl in Hlen. apply (hist_enqueue_inv ins outs m nx q); try done; [apply IH|]; lia.
  - eapply hist_dequeue_inv; [by apply IH|done].
Qed.
End Theory.

(** C24: Over any history of insertions and removals the structure is a priority
    queue.  What was inserted was removed once, with its own cycle, or is still
    there; the cycles of the removed events never decrease; an insertion that
    does not go back in time succeeds, whether the event is near or far; and
    while events are left, [firstCycle] is the earliest cycle and [dequeue]
    terminates and returns an event of that cycle.  The number of blocks is any
    from 2. *)
Theorem prio_queue_refines B ins outs m nx q :
  2 <= B < 2 ^ 32 -> pq_hist B ins outs m nx q -> Z.of_nat (length ins) < 2 ^ 62 ->
  ins ≡ₚ outs ++ pending_events m /\ StronglySorted Z.ge outs.*1 /\ pq_size q = Z.of_nat (size m) /\
  (forall x c, m !! x = None -> now outs <= c < 2 ^ 63 -> is_ret (pq_enqueue B nx q x c) = true) /\
  (m <> ∅ -> exists c, firstCycle B q = Ret c /\ earliest m c /\
     forall fuel, c / 64 - curBlock q < Z.of_nat fuel -> exists x nx' q', pq_dequeue B fuel nx q = Ret (x, c, nx', q') /\ m !! x = Some c).
Proof.
  intros HB Hh Hlen. pose proof (hist_ok B HB _ _ _ _ _ Hh Hlen) as I. pose proof (pending_size B _ _ _ _ _ I). destruct I as [I1 I2 I3 I4 I5 I6 I7].
  split_and!; [done|done|apply I1| |].
  - intros x c Hx Hc. destruct (enqueue_ok B HB nx q m x c I1 Hx (I2 _ Hx)) as (nx1 & q1 & -> & _); [|lia|lia|done].
    pose proof (Z.div_le_mono (now outs) c 64). lia.
  - intros Hm. apply map_choose in Hm as (y & d & Hy). destruct (firstCycle_ok B HB nx q m y d I1 Hy) as (c & E & Hc). exists c. split; [done|]. split; [done|].
    destruct Hc as [(z & Hz) Hmin]. intros fuel Hf. destruct (dequeue_ok B HB fuel nx q m z c I1 Hz Hf) as (x & e & nx' & q' & E' & Hx & He & _).
    assert (e = c) as -> by (eapply earliest_unique; [exact He|split; [by exists z|done]]). by exists x, nx', q'.
Qed.

(** Four blocks; the cycles 700 and 5000 are far when inserted. *)
Definition demo_queue : nexts * PrioQueue :=
  ret_or (∅, newPrioQueue 4) (fold_ (fun '(nx, q) '(x, c) => pq_enqueue 4 nx q x c) [(11, 70); (12, 5000); (13, 5); (14, 700); (15, 70)] (∅, newPrioQueue 4)).

Lemma prio_queue_refines_witness :
  exists nx q, pq_enqueue 4 demo_queue.1 demo_queue.2 16 600 = Ret (nx, q) /\ firstCycle 4 q = Ret 5 /\
    exists x nx' q', pq_dequeue 4 1 nx q = Ret (x, 5, nx', q').
Proof.
  eexists _, _. split; [vm_compute; reflexivity|]. split; [vm_compute; reflexivity|].
  edestruct (prio_queue_refines 4) as (_ & _ & _ & _ & Hdeq); [lia| | |].
  - eapply (hist_enqueue 4 _ [] _ _ _ 16 600); [eapply (hist_enqueue 4 _ [] _ _ _ 15 70); [eapply (hist_enqueue 4 _ [] _ _ _ 14 700);
      [eapply (hist_enqueue 4 _ [] _ _ _ 13 5); [eapply (hist_enqueue 4 _ [] _ _ _ 12 5000); [eapply (hist_enqueue 4 _ [] _ _ _ 11 70);
      [apply hist_new|reflexivity|simpl; lia|vm_compute; reflexivity]|reflexivity|simpl; lia|vm_compute; reflexivity]
      |reflexivity|simpl; lia|vm_compute; reflexivity]|reflexivity|simpl; lia|vm_compute; reflexivity]|reflexivity|simpl; lia|vm_compute; reflexivity]
      |reflexivity|simpl; lia|vm_compute; reflexivity].
  - simpl. lia.
  - destruct Hdeq as (c & E & _ & Hf); [done|]. vm_compute in E. injection E as <-. destruct (Hf 1%nat) as (x & nx' & q' & E' & _); [vm_compute; done|].
    exists x, nx', q'. exact E'.
Defined.
