(* ===== verification/Hash.v ===== *)
(** * Hash families of the cache arrays

    src/src/hash.h, hash.cpp: [H3HashFamily], whose functions are products with a
    random bit matrix, computed eight rows at a time, and [IdHashFamily].  The
    class [HashFamily] is what the cache arrays rely on.  The theorem gives the
    unrolled loop a closed form and shows that the functions are linear. *)

From S2P Require Import Prelude Bits.

(** What a cache array needs: function [id] of a family returns a word. *)
Class HashFamily (F : Type) : Type := {
  hash : F -> Z -> Z -> outcome Z;
  hash_funcs : F -> Z;
  hash_returns : forall f id v, 0 <= id < hash_funcs f -> in_u 64 v -> exists h, hash f id v = Ret h /\ in_u 64 h
}.

(** ** [H3HashFamily] *)

Record H3HashFamily : Type := mkH3 { numFuncs : Z; resShift : Z; hMatrix : list Z }.

Definition h3_words (shift : Z) : Z := Z.shiftr 64 shift.

(** One word of the matrix: 64 draws, the first is the highest bit. *)
Definition h3_word (draws : list Z) : Z :=
  foldl (fun val r => let val := u64 (Z.shiftl val 1) in if r mod 2 =? 0 then val + 1 else val) 0 draws.

(** The constructor; [rnd n] is the n-th number the generator draws. *)
Definition newH3 (numFunctions outputBits : Z) (rnd : nat -> Z) : outcome H3HashFamily :=
  shift ← (if outputBits <=? 8 then Ret 3 else if outputBits <=? 16 then Ret 2 else if outputBits <=? 32 then Ret 1
           else if outputBits <=? 64 then Ret 0 else Stop Panicked);
  let words := Z.to_nat (h3_words shift * numFunctions) in
  Ret (mkH3 numFunctions shift ((fun k => h3_word ((fun j => rnd (64 * k + j)%nat) <$> seq 0 64)) <$> seq 0 words)).

(** [(r << k) | (r >> (64 - k))]. *)
Definition rotl (r k : Z) : Z := Z.lor (u64 (Z.shiftl r k)) (Z.shiftr r (64 - k)).

(** The body of the unrolled loop. *)
Definition h3_step (m : list Z) (val base0 : Z) (res x : Z) : outcome Z :=
  let base := u32 (base0 + x) in
  r0 ← at_ m base; r1 ← at_ m (base + 1); r2 ← at_ m (base + 2); r3 ← at_ m (base + 3);
  r4 ← at_ m (base + 4); r5 ← at_ m (base + 5); r6 ← at_ m (base + 6); r7 ← at_ m (base + 7);
  let res0 := Z.land val r0 in let res1 := Z.land val r1 in let res2 := Z.land val r2 in let res3 := Z.land val r3 in
  let res4 := Z.land val r4 in let res5 := Z.land val r5 in let res6 := Z.land val r6 in let res7 := Z.land val r7 in
  let res := Z.lxor res (Z.lxor (Z.lxor (Z.lxor res0 (rotl res1 1)) (rotl res2 2)) (rotl res3 3)) in
  let res := Z.lxor res (Z.lxor (Z.lxor (Z.lxor (rotl res4 4) (rotl res5 5)) (rotl res6 6)) (rotl res7 7)) in
  Ret (rotl res 8).

(** [(res >> k) ^ res]. *)
Definition xor_shift (k res : Z) : Z := Z.lxor (Z.shiftr res k) res.

(** The fold of the 64 bits to the width of the output. *)
Definition h3_fold (shift res : Z) : Z :=
  match shift with
  | 1 => xor_shift 32 res
  | 2 => xor_shift 16 (xor_shift 32 res)
  | 3 => xor_shift 8 (xor_shift 16 (xor_shift 32 res))
  | _ => res
  end.

Definition h3_hash (f : H3HashFamily) (id val : Z) : outcome Z :=
  _ ← assert_ ((0 <=? id) && (id <? numFuncs f));
  let maxBits := h3_words (resShift f) in
  res ← fold_ (h3_step (hMatrix f) val (u32 (Z.shiftl id (6 - resShift f)))) ((fun g => 8 * Z.of_nat g) <$> seq 0 (Z.to_nat (maxBits / 8))) 0;
  Ret (h3_fold (resShift f) res).

(** ** [IdHashFamily] *)

Inductive IdHashFamily : Type := mkId.

Definition id_hash (f : IdHashFamily) (id val : Z) : outcome Z := Ret val.

(** ** Rotations *)

Lemma rotl_bit r k i : 0 <= k < 64 -> in_u 64 r -> 0 <= i < 64 -> Z.testbit (rotl r k) i = Z.testbit r ((i - k) mod 64).
Proof.
  intros Hk Hr Hi. unfold rotl, u64, wrap. rewrite Z.lor_spec, testbit_mod_pow2, Z.shiftl_spec, Z.shiftr_spec by lia. rewrite bool_decide_true by lia. cbn [andb].
  destruct (decide (k <= i)).
  - rewrite (testbit_high r 64 (i + (64 - k))) by (done || lia). rewrite Z.mod_small by lia. apply orb_false_r.
  - rewrite (Z.testbit_neg_r r (i - k)) by lia. replace ((i - k) mod 64) with (i + (64 - k)); [done|]. apply Z.mod_unique with (-1); lia.
Qed.

Lemma rotl_range r k : 0 <= k < 64 -> in_u 64 r -> in_u 64 (rotl r k).
Proof.
  intros Hk [Hr1 Hr2]. pose proof (u64_range (Z.shiftl r k)). unfold rotl, in_u. split; [apply Z.lor_nonneg; split; [lia|apply Z.shiftr_nonneg; lia]|].
  apply testbit_bound; [lia|apply Z.lor_nonneg; split; [lia|apply Z.shiftr_nonneg; lia]|]. intros i Hi.
  rewrite Z.lor_spec, (testbit_high (u64 _) 64 i), Z.shiftr_spec by lia. by rewrite (testbit_high r 64) by lia.
Qed.

Lemma word_ext a b : in_u 64 a -> in_u 64 b -> (forall i, 0 <= i < 64 -> Z.testbit a i = Z.testbit b i) -> a = b.
Proof.
  intros Ha Hb He. apply Z.bits_inj'. intros i Hi. destruct (decide (i < 64)); [apply He; lia|].
  by rewrite (testbit_high a 64 i), (testbit_high b 64 i) by (done || lia).
Qed.

Lemma land_range a b : in_u 64 a -> in_u 64 b -> in_u 64 (Z.land a b).
Proof.
  intros [Ha1 Ha2] [Hb1 Hb2]. split; [apply Z.land_nonneg; lia|]. apply testbit_bound; [lia|apply Z.land_nonneg; lia|]. intros i Hi.
  by rewrite Z.land_spec, (testbit_high a 64 i) by lia.
Qed.

#[export] Hint Resolve rotl_range land_range : wraps.

Lemma rotl_lxor a b k : 0 <= k < 64 -> in_u 64 a -> in_u 64 b -> rotl (Z.lxor a b) k = Z.lxor (rotl a k) (rotl b k).
Proof.
  intros Hk Ha Hb. assert (in_u 64 (Z.lxor a b)) by (by apply lxor_bound). apply word_ext; [auto with wraps|apply lxor_bound; auto with wraps; lia|].
  intros i Hi. rewrite Z.lxor_spec, !rotl_bit, Z.lxor_spec by (done || lia). done.
Qed.

Lemma rotl_rotl a j k : 0 <= j < 64 -> 0 <= k < 64 -> in_u 64 a -> rotl (rotl a j) k = rotl a ((j + k) mod 64).
Proof.
  intros Hj Hk Ha. pose proof (Z.mod_pos_bound (j + k) 64 ltac:(lia)). apply word_ext; auto with wraps. intros i Hi.
  rewrite rotl_bit by (auto with wraps). rewrite rotl_bit by (done || (apply Z.mod_pos_bound; lia)). rewrite rotl_bit by done.
  f_equal. rewrite Zminus_mod_idemp_l, Zminus_mod_idemp_r. f_equal. lia.
Qed.

Lemma rotl_0_r a : in_u 64 a -> rotl a 0 = a.
Proof. intros Ha. apply word_ext; [auto with wraps; by apply rotl_range|done|]. intros i Hi. rewrite rotl_bit by (done || lia). by rewrite Z.sub_0_r, Z.mod_small. Qed.

Lemma rotl_0_l k : 0 <= k < 64 -> rotl 0 k = 0.
Proof. intros Hk. unfold rotl. by rewrite Z.shiftl_0_l, Z.shiftr_0_l. Qed.

(** ** Closed form *)

(** The exclusive or of [f 0], ..., [f (n - 1)]. *)
Fixpoint xsum (f : nat -> Z) (n : nat) : Z := match n with O => 0 | S n => Z.lxor (xsum f n) (f n) end.

Lemma xsum_range f n : (forall j, (j < n)%nat -> in_u 64 (f j)) -> in_u 64 (xsum f n).
Proof. induction n as [|n IH]; intros Hf; [done|]. cbn [xsum]. apply lxor_bound; [lia| |apply Hf; lia]. apply IH. intros j Hj. apply Hf. lia. Qed.

Lemma xsum_ext f g n : (forall j, (j < n)%nat -> f j = g j) -> xsum f n = xsum g n.
Proof. induction n as [|n IH]; intros Hf; [done|]. cbn [xsum]. rewrite IH, (Hf n) by (intros; auto with lia). done. Qed.

Lemma xsum_lxor f g n : xsum (fun j => Z.lxor (f j) (g j)) n = Z.lxor (xsum f n) (xsum g n).
Proof. induction n as [|n IH]; [done|]. cbn [xsum]. rewrite IH, !Z.lxor_assoc. f_equal. rewrite <- !Z.lxor_assoc. f_equal. apply Z.lxor_comm. Qed.

Lemma rotl_xsum f n k : 0 <= k < 64 -> (forall j, (j < n)%nat -> in_u 64 (f j)) -> rotl (xsum f n) k = xsum (fun j => rotl (f j) k) n.
Proof.
  intros Hk. induction n as [|n IH]; intros Hf; cbn [xsum]; [by apply rotl_0_l|]. rewrite rotl_lxor, IH; try done; auto with lia.
  apply xsum_range. auto with lia.
Qed.

(** Eight terms at once, in the order of the source. *)
Lemma xsum_eight f k :
  xsum f (k + 8) = Z.lxor (Z.lxor (xsum f k) (Z.lxor (Z.lxor (Z.lxor (f (k + Z.to_nat 0)%nat) (f (k + Z.to_nat 1)%nat)) (f (k + Z.to_nat 2)%nat)) (f (k + Z.to_nat 3)%nat)))
    (Z.lxor (Z.lxor (Z.lxor (f (k + Z.to_nat 4)%nat) (f (k + Z.to_nat 5)%nat)) (f (k + Z.to_nat 6)%nat)) (f (k + Z.to_nat 7)%nat)).
Proof.
  assert (Hs : forall n i, xsum f (n + S i) = Z.lxor (xsum f (n + i)) (f (n + i)%nat)) by (intros; by rewrite Nat.add_succ_r).
  rewrite !Hs, Nat.add_0_r, <- !Z.lxor_assoc. simpl. by rewrite Nat.add_0_r.
Qed.

(** How far row [j] is rotated when [g] groups of eight have been processed. *)
Definition h3_turn (g : nat) (j : nat) : Z := (8 * (Z.of_nat g - Z.of_nat (j / 8)) + Z.of_nat (j mod 8)) mod 64.

(** The value of the function with matrix [row]: the exclusive or of the rows masked
    with the argument and rotated, folded to the output. *)
Definition h3_ref (shift : Z) (row : nat -> Z) (val : Z) : Z :=
  let words := Z.to_nat (h3_words shift) in h3_fold shift (xsum (fun j => rotl (Z.land val (row j)) (h3_turn (words / 8) j)) words).

Definition h3_row (f : H3HashFamily) (id : Z) (j : nat) : Z := default 0 (hMatrix f !! (Z.to_nat (id * h3_words (resShift f)) + j)%nat).

Record h3_ok (f : H3HashFamily) : Prop := {
  ho_shift : 0 <= resShift f <= 3;
  ho_size : 0 <= numFuncs f < 2 ^ 20;
  ho_length : Z.of_nat (length (hMatrix f)) = h3_words (resShift f) * numFuncs f;
  ho_words : Forall (in_u 64) (hMatrix f)
}.

Lemma h3_turn_range g j : 0 <= h3_turn g j < 64.
Proof. apply Z.mod_pos_bound. lia. Qed.

Lemma h3_row_range f id j : h3_ok f -> in_u 64 (h3_row f id j).
Proof.
  intros Hf. unfold h3_row. destruct (hMatrix f !! _) as [w|] eqn:Hw; [|done]. simpl. by eapply Forall_lookup_1 in Hw; [|apply (ho_words _ Hf)].
Qed.

Lemma h3_words_range shift : 0 <= shift <= 3 -> h3_words shift = 2 ^ (6 - shift) /\ 8 <= h3_words shift <= 64 /\ h3_words shift = 8 * (h3_words shift / 8).
Proof. intros. assert (shift = 0 \/ shift = 1 \/ shift = 2 \/ shift = 3) as [Hs|[Hs|[Hs|Hs]]] by lia; rewrite Hs; done. Qed.

Section Loop.
Context (f : H3HashFamily) (Hf : h3_ok f) (id val : Z) (Hid : 0 <= id < numFuncs f) (Hval : in_u 64 val).

Definition term (g j : nat) : Z := rotl (Z.land val (h3_row f id j)) (h3_turn g j).

Lemma term_range g j : in_u 64 (term g j).
Proof using Hf Hval. apply rotl_range; [apply h3_turn_range|]. apply land_range; [done|]. by apply h3_row_range. Qed.

Lemma row_at g i :
  (8 * S g <= Z.to_nat (h3_words (resShift f)))%nat -> 0 <= i < 8 ->
  at_ (hMatrix f) (id * h3_words (resShift f) + 8 * Z.of_nat g + i) = Ret (h3_row f id (8 * g + Z.to_nat i)).
Proof using Hf Hid.
  intros Hg Hi. pose proof (h3_words_range _ (ho_shift _ Hf)) as (_ & Hw & _). pose proof (ho_length _ Hf) as Hl.
  destruct (at_in_range (hMatrix f) (id * h3_words (resShift f) + 8 * Z.of_nat g + i)) as [w Hw2]; [nia|]. rewrite Hw2. f_equal. apply at_ret_iff in Hw2 as [_ Hw2].
  unfold h3_row. replace (Z.to_nat (id * h3_words (resShift f)) + (8 * g + Z.to_nat i))%nat with (Z.to_nat (id * h3_words (resShift f) + 8 * Z.of_nat g + i)) by nia.
  by rewrite Hw2.
Qed.

(** A group that is not yet turned: row [i] of it by [i]. *)
Lemma term_now g i : 0 <= i < 8 -> term g (8 * g + Z.to_nat i) = rotl (Z.land val (h3_row f id (8 * g + Z.to_nat i))) i.
Proof.
  intros Hi. unfold term, h3_turn. f_equal. replace ((8 * g + Z.to_nat i) / 8)%nat with g by (apply Nat.div_unique with (Z.to_nat i); lia).
  replace ((8 * g + Z.to_nat i) mod 8)%nat with (Z.to_nat i) by (apply Nat.mod_unique with g; lia). rewrite Z2Nat.id by lia. rewrite Z.sub_diag. apply Z.mod_small. lia.
Qed.

(** Turning by eight is one group more. *)
Lemma term_next g j : rotl (term g j) 8 = term (S g) j.
Proof using Hf Hval.
  unfold term. rewrite rotl_rotl; [|apply h3_turn_range|lia|apply land_range; [done|by apply h3_row_range]]. f_equal. unfold h3_turn.
  rewrite Zplus_mod_idemp_l. f_equal. lia.
Qed.

Lemma h3_step_ok g :
  (8 * S g <= Z.to_nat (h3_words (resShift f)))%nat ->
  h3_step (hMatrix f) val (u32 (Z.shiftl id (6 - resShift f))) (xsum (term g) (8 * g)) (8 * Z.of_nat g) = Ret (xsum (term (S g)) (8 * S g)).
Proof using Hf Hval Hid.
  intros Hg. pose proof (h3_words_range _ (ho_shift _ Hf)) as (Hw1 & Hw2 & _). pose proof (ho_size _ Hf). pose proof (ho_shift _ Hf).
  rewrite Z.shiftl_mul_pow2, <- Hw1 by lia. rewrite (u32_small (id * _)) by nia. unfold h3_step. rewrite u32_small by nia.
  pose proof (row_at g 0 Hg ltac:(lia)) as R0. rewrite Z.add_0_r in R0. rewrite R0, !row_at by lia. cbn [mbind outcome_bind]. f_equal.
  rewrite (xsum_ext (term (S g)) (fun j => rotl (term g j) 8)) by (intros; by rewrite term_next). rewrite <- rotl_xsum by (lia || (intros; apply term_range)). f_equal.
  replace (8 * S g)%nat with (8 * g + 8)%nat by lia. rewrite xsum_eight, !term_now by lia.
  rewrite rotl_0_r by (apply land_range; [done|by apply h3_row_range]). done.
Qed.

Lemma h3_hash_ok : h3_hash f id val = Ret (h3_ref (resShift f) (h3_row f id) val).
Proof using Hf Hval Hid.
  unfold h3_hash. rewrite (proj2 (Z.leb_le 0 id)), (proj2 (Z.ltb_lt id (numFuncs f))) by lia. cbn [andb assert_ mbind outcome_bind].
  pose proof (h3_words_range _ (ho_shift _ Hf)) as (_ & Hw & Hw8). set (n := Z.to_nat (h3_words (resShift f) / 8)).
  assert (Hn : Z.to_nat (h3_words (resShift f)) = (8 * n)%nat) by lia.
  assert (Hloop : forall k g, (g + k <= n)%nat ->
    fold_ (h3_step (hMatrix f) val (u32 (Z.shiftl id (6 - resShift f)))) ((fun g => 8 * Z.of_nat g) <$> seq g k) (xsum (term g) (8 * g)) = Ret (xsum (term (g + k)) (8 * (g + k)))).
  { induction k as [|k IH]; intros g Hk; [by rewrite Nat.add_0_r|]. cbn [seq fmap list_fmap fold_]. rewrite h3_step_ok by lia. cbn [mbind outcome_bind].
    rewrite IH by lia. by rewrite Nat.add_succ_comm. }
  pose proof (Hloop n 0%nat ltac:(lia)) as Hend. cbn [Nat.add] in Hend. rewrite Nat.mul_0_r in Hend. cbn [xsum] in Hend. rewrite Hend. cbn [mbind outcome_bind].
  unfold h3_ref. rewrite Hn. replace (8 * n / 8)%nat with n by (symmetry; rewrite Nat.mul_comm; by apply Nat.div_mul). done.
Qed.
End Loop.

(** ** Properties *)

Lemma shiftr_range x k : 0 <= k -> in_u 64 x -> in_u 64 (Z.shiftr x k).
Proof.
  intros Hk [H1 H2]. rewrite Z.shiftr_div_pow2 by done. assert (0 < 2 ^ k) by (by apply Z.pow_pos_nonneg). split; [by apply Z.div_pos|].
  apply Z.div_lt_upper_bound; nia.
Qed.

Lemma xor_shift_range k x : 0 <= k -> in_u 64 x -> in_u 64 (xor_shift k x).
Proof. intros Hk Hx. apply lxor_bound; [lia|by apply shiftr_range|done]. Qed.

Lemma xor_shift_lxor k x y : xor_shift k (Z.lxor x y) = Z.lxor (xor_shift k x) (xor_shift k y).
Proof. unfold xor_shift. rewrite Z.shiftr_lxor, !Z.lxor_assoc. f_equal. rewrite <- !Z.lxor_assoc. f_equal. apply Z.lxor_comm. Qed.

Lemma h3_fold_range shift x : in_u 64 x -> in_u 64 (h3_fold shift x).
Proof. intros Hx. unfold h3_fold. repeat case_match; try done; repeat (apply xor_shift_range; [lia|]); done. Qed.

Lemma h3_fold_lxor shift x y : h3_fold shift (Z.lxor x y) = Z.lxor (h3_fold shift x) (h3_fold shift y).
Proof. unfold h3_fold. repeat case_match; by rewrite ?xor_shift_lxor. Qed.

Lemma h3_ref_range shift row val : in_u 64 val -> (forall j, in_u 64 (row j)) -> in_u 64 (h3_ref shift row val).
Proof. intros Hv Hr. apply h3_fold_range, xsum_range. intros j _. apply rotl_range; [apply h3_turn_range|]. by apply land_range. Qed.

Lemma land_lxor_l a b r : Z.land (Z.lxor a b) r = Z.lxor (Z.land a r) (Z.land b r).
Proof. apply Z.bits_inj'. intros i Hi. rewrite Z.land_spec, !Z.lxor_spec, !Z.land_spec. by destruct (Z.testbit a i), (Z.testbit b i), (Z.testbit r i). Qed.

Lemma h3_ref_lxor shift row a b :
  in_u 64 a -> in_u 64 b -> (forall j, in_u 64 (row j)) -> h3_ref shift row (Z.lxor a b) = Z.lxor (h3_ref shift row a) (h3_ref shift row b).
Proof.
  intros Ha Hb Hr. unfold h3_ref. rewrite <- h3_fold_lxor, <- xsum_lxor. f_equal. apply xsum_ext. intros j _. rewrite land_lxor_l.
  apply rotl_lxor; [apply h3_turn_range|by apply land_range..].
Qed.

Lemma h3_word_range draws : in_u 64 (h3_word draws).
Proof.
  unfold h3_word. assert (Hacc : forall v, in_u 64 v -> in_u 64 (foldl (fun val r => let val := u64 (Z.shiftl val 1) in if r mod 2 =? 0 then val + 1 else val) v draws)); [|by apply Hacc].
  induction draws as [|r draws IH]; intros v Hv; [done|]. simpl. apply IH. rewrite Z.shiftl_mul_pow2 by lia. unfold u64, wrap. change (2 ^ 64) with (2 * 2 ^ 63).
  replace (v * 2 ^ 1) with (2 * v) by lia. rewrite Z.mul_mod_distr_l by lia. pose proof (Z.mod_pos_bound v (2 ^ 63) ltac:(lia)). unfold in_u. case_match; lia.
Qed.

Lemma newH3_ok n bits rnd f : newH3 n bits rnd = Ret f -> 0 <= n < 2 ^ 20 -> h3_ok f /\ numFuncs f = n.
Proof.
  intros E Hn. unfold newH3 in E. apply bind_ret_inv in E as (s & Es & E). injection E as <-. assert (0 <= s <= 3).
  { repeat case_match; simplify_eq; lia. }
  split; [|done]. pose proof (h3_words_range s ltac:(done)) as (_ & Hw & _). split; simpl; [done|done| |].
  - rewrite length_fmap, length_seq. nia.
  - apply Forall_fmap, Forall_true. intros k. apply h3_word_range.
Qed.

#[export] Instance h3_family : HashFamily {f : H3HashFamily | h3_ok f}.
Proof.
  refine {| hash := fun f => h3_hash (proj1_sig f); hash_funcs := fun f => numFuncs (proj1_sig f) |}.
  intros [f Hf] id v Hid Hv. simpl in *. rewrite (h3_hash_ok f Hf id v Hid Hv). eexists. split; [done|]. apply h3_ref_range; [done|]. intros j. by apply h3_row_range.
Defined.

#[export] Instance id_family : HashFamily IdHashFamily.
Proof.
  refine {| hash := id_hash; hash_funcs := fun _ => 2 ^ 32 |}. intros f id v _ Hv. by exists v.
Defined.

(** Every function of a family built by the constructor, whatever numbers the
    generator draws and for every width of the output, is the closed form: the
    unrolled loop reads the rows of its own function only, within the matrix,
    and its result is the exclusive or of the masked rows, row [j] rotated by
    [h3_turn j], folded to the output.  It is linear: the hash of an exclusive
    or is the exclusive or of the hashes. *)
Theorem h3_hash_linear n bits rnd f id a b :
  newH3 n bits rnd = Ret f -> 0 <= n < 2 ^ 20 -> 0 <= id < n -> in_u 64 a -> in_u 64 b ->
  exists ha hb, h3_hash f id a = Ret ha /\ h3_hash f id b = Ret hb /\ ha = h3_ref (resShift f) (h3_row f id) a /\ in_u 64 ha /\
    h3_hash f id (Z.lxor a b) = Ret (Z.lxor ha hb).
Proof.
  intros E Hn Hid Ha Hb. destruct (newH3_ok _ _ _ _ E Hn) as [Hf Hfn]. rewrite <- Hfn in Hid.
  assert (Hr : forall j, in_u 64 (h3_row f id j)) by (intros j; by apply h3_row_range). rewrite !(h3_hash_ok f Hf id) by (done || by apply lxor_bound).
  eexists _, _. split_and!; [done|done|done|by apply h3_ref_range|]. by rewrite h3_ref_lxor.
Qed.

(** The generator of the witness: every third draw is even. *)
Definition demo_rnd (k : nat) : Z := if (k mod 3 =? 0)%nat then 2 else 7.

Definition demo_h3 : H3HashFamily := ret_or (mkH3 0 0 []) (newH3 2 10 demo_rnd).

Lemma h3_hash_linear_witness :
  exists ha hb, h3_hash demo_h3 1 0x1234 = Ret ha /\ h3_hash demo_h3 1 0xff00 = Ret hb /\ h3_hash demo_h3 1 (Z.lxor 0x1234 0xff00) = Ret (Z.lxor ha hb).
Proof.
  destruct (h3_hash_linear 2 10 demo_rnd demo_h3 1 0x1234 0xff00) as (ha & hb & Ea & Eb & _ & _ & Ex).
  - vm_compute. reflexivity.
  - lia.
  - lia.
  - unfold in_u. lia.
  - unfold in_u. lia.
  - exists ha, hb. split; [exact Ea|]. split; [exact Eb|exact Ex].
Defined.

(** The loop that the comment of the source gives as the original of the unrolled
    one. *)
Definition h3_simple (rows : list Z) (val : Z) : Z := foldl (fun res r => rotl (Z.lxor res (Z.land val r)) 1) 0 rows.

(** The two are different functions: the unrolled loop turns the later rows of a
    group further, the simple loop less. *)
Lemma h3_unrolled_differs :
  exists f, resShift f = 0 /\ length (hMatrix f) = 64%nat /\ h3_hash f 0 1 = Ret 2 /\ h3_simple (hMatrix f) 1 = 2 ^ 63.
Proof. exists (mkH3 1 0 (<[1%nat := 1]> (replicate 64 0))). split_and!; vm_compute; reflexivity. Qed.
