(* ===== verification/Repl.v ===== *)
(** * Replacement policies of the caches

    src/src/repl_policies.h: [LRUReplPolicy], [TreeLRUReplPolicy],
    [NRUReplPolicy], [LFUReplPolicy] and [RandReplPolicy].  The class [ReplPolicy]
    states what a cache array relies on: a replacement is a [rank], which chooses
    one of the candidates, and a later [replaced]; [update] may come at any time.
    The theorems say which candidate is chosen. *)

From S2P Require Import Prelude.

(** What the coherence controller tells about a line. *)
Record cc_view : Type := mkCC { cc_isValid : Z -> bool; cc_numSharers : Z -> Z }.

(** ** The interface *)

(** [rp_inv n k r p]: the policy [p] is for [n] lines and at most [k] candidates (exactly
    [k] if [rp_exact]), and [r] tells if a replacement is under way. *)
Class ReplPolicy (P : Type) : Type := {
  rp_update : P -> Z -> outcome P;
  rp_replaced : P -> Z -> outcome P;
  rp_rank : cc_view -> P -> list Z -> outcome (Z * P);
  rp_exact : bool;
  rp_inv : nat -> nat -> bool -> P -> Prop;
  update_ok : forall n k r p id, rp_inv n k r p -> 0 <= id < Z.of_nat n -> exists p', rp_update p id = Ret p' /\ rp_inv n k r p';
  replaced_ok : forall n k r p id, rp_inv n k r p -> 0 <= id < Z.of_nat n -> exists p', rp_replaced p id = Ret p' /\ rp_inv n k false p';
  rank_ok : forall n k cc p cands, rp_inv n k false p -> cands <> [] -> Forall (fun id => 0 <= id < Z.of_nat n) cands ->
    (length cands <= k)%nat -> (rp_exact = true -> length cands = k) ->
    exists id p', rp_rank cc p cands = Ret (id, p') /\ id ∈ cands /\ rp_inv n k true p'
}.

(** ** [LRUReplPolicy] *)

Record LRUReplPolicy : Type := mkLRU { sharersAware : bool; lru_timestamp : Z; lru_array : list Z }.

Definition newLRU (aware : bool) (numLines : nat) : LRUReplPolicy := mkLRU aware 1 (replicate numLines 0).

Definition lru_update (p : LRUReplPolicy) (id : Z) : outcome LRUReplPolicy :=
  a ← set_at (lru_array p) id (lru_timestamp p);
  Ret (mkLRU (sharersAware p) (u64 (lru_timestamp p + 1)) a).

Definition lru_replaced (p : LRUReplPolicy) (id : Z) : outcome LRUReplPolicy :=
  a ← set_at (lru_array p) id 0;
  Ret (mkLRU (sharersAware p) (lru_timestamp p) a).

Definition lru_score (cc : cc_view) (p : LRUReplPolicy) (id : Z) : outcome Z :=
  ts ← at_ (lru_array p) id;
  let sharers := if sharersAware p then cc_numSharers cc id else 0 in
  Ret (u64 (sharers * lru_timestamp p + (if cc_isValid cc id then ts else 0))).

(** The loop of [rank]; the score is stored in a [uint32_t]. *)
Fixpoint lru_loop (cc : cc_view) (p : LRUReplPolicy) (cands : list Z) (bestCand bestScore : Z) : outcome Z :=
  match cands with
  | [] => Ret bestCand
  | ci :: cands =>
      score ← lru_score cc p ci;
      let s := u32 score in
      lru_loop cc p cands (if s <? bestScore then ci else bestCand) (Z.min s bestScore)
  end.

Definition lru_rank (cc : cc_view) (p : LRUReplPolicy) (cands : list Z) : outcome (Z * LRUReplPolicy) :=
  best ← lru_loop cc p cands (2 ^ 32 - 1) (2 ^ 64 - 1); Ret (best, p).

(** ** [TreeLRUReplPolicy] *)

(** It inherits [rank] of [LRUReplPolicy<true>], so that its own [recordCandidate] and
    [getBestCandidate] are never called and [candIdx] stays zero. *)
Record TreeLRUReplPolicy : Type := mkTree { tree_base : LRUReplPolicy; tree_candIdx : Z }.

Definition tree_update (p : TreeLRUReplPolicy) (id : Z) : outcome TreeLRUReplPolicy :=
  b ← lru_update (tree_base p) id; Ret (mkTree b (tree_candIdx p)).

Definition tree_replaced (p : TreeLRUReplPolicy) (id : Z) : outcome TreeLRUReplPolicy :=
  b ← lru_replaced (tree_base p) id; Ret (mkTree b 0).

Definition tree_rank (cc : cc_view) (p : TreeLRUReplPolicy) (cands : list Z) : outcome (Z * TreeLRUReplPolicy) :=
  '(best, b) ← lru_rank cc (tree_base p) cands; Ret (best, mkTree b (tree_candIdx p)).

(** ** [NRUReplPolicy] *)

Record NRUReplPolicy : Type := mkNRU {
  nru_array : list Z;
  nru_candArray : list Z;
  youngLines : Z;
  nru_candVal : Z;
  nru_candIdx : Z
}.

Definition newNRU (numLines numCands : nat) : NRUReplPolicy := mkNRU (replicate numLines 0) (replicate numCands 0) 0 (Z.shiftl 1 20) 0.

Definition nru_update (p : NRUReplPolicy) (id : Z) : outcome NRUReplPolicy :=
  v ← at_ (nru_array p) id;
  let young := u32 (youngLines p + (1 - Z.shiftr v 1)) in
  a ← set_at (nru_array p) id (Z.lor v 2);
  if Z.of_nat (length (nru_array p)) / 2 <=? young
  then Ret (mkNRU ((fun v => Z.shiftr v 1) <$> a) (nru_candArray p) 0 (nru_candVal p) (nru_candIdx p))
  else Ret (mkNRU a (nru_candArray p) young (nru_candVal p) (nru_candIdx p)).

Definition nru_record (p : NRUReplPolicy) (id : Z) : outcome NRUReplPolicy :=
  iVal ← at_ (nru_array p) id;
  if iVal <? nru_candVal p then
    c ← set_at (nru_candArray p) 0 id; Ret (mkNRU (nru_array p) c (youngLines p) iVal 1)
  else if iVal =? nru_candVal p then
    c ← set_at (nru_candArray p) (nru_candIdx p) id; Ret (mkNRU (nru_array p) c (youngLines p) (nru_candVal p) (u32 (nru_candIdx p + 1)))
  else Ret p.

Definition nru_best (p : NRUReplPolicy) : outcome Z :=
  _ ← assert_ (0 <? nru_candIdx p); at_ (nru_candArray p) (youngLines p mod nru_candIdx p).

(** [rank] of [LegacyReplPolicy]. *)
Definition nru_rank (cc : cc_view) (p : NRUReplPolicy) (cands : list Z) : outcome (Z * NRUReplPolicy) :=
  p ← fold_ nru_record cands p; best ← nru_best p; Ret (best, p).

Definition nru_replaced (p : NRUReplPolicy) (id : Z) : outcome NRUReplPolicy :=
  a ← set_at (nru_array p) id 0; Ret (mkNRU a (nru_candArray p) (youngLines p) (Z.shiftl 1 20) 0).

(** ** [RandReplPolicy] *)

(** [rand_draws k] is what the k-th call of [randInt(numCands - 1)] returns. *)
Record RandReplPolicy : Type := mkRand { rand_candArray : list Z; rand_candIdx : Z; rand_draws : nat -> Z; rand_drawn : nat }.

Definition newRand (numCands : nat) (draws : nat -> Z) : RandReplPolicy := mkRand (replicate numCands 0) 0 draws 0.

Definition rand_record (p : RandReplPolicy) (id : Z) : outcome RandReplPolicy :=
  c ← set_at (rand_candArray p) (rand_candIdx p) id; Ret (mkRand c (u32 (rand_candIdx p + 1)) (rand_draws p) (rand_drawn p)).

Definition rand_rank (cc : cc_view) (p : RandReplPolicy) (cands : list Z) : outcome (Z * RandReplPolicy) :=
  p ← fold_ rand_record cands p;
  _ ← assert_ (rand_candIdx p =? Z.of_nat (length (rand_candArray p)));
  best ← at_ (rand_candArray p) (rand_draws p (rand_drawn p));
  Ret (best, mkRand (rand_candArray p) (rand_candIdx p) (rand_draws p) (S (rand_drawn p))).

Definition rand_update (p : RandReplPolicy) (id : Z) : outcome RandReplPolicy := Ret p.

Definition rand_replaced (p : RandReplPolicy) (id : Z) : outcome RandReplPolicy := Ret (mkRand (rand_candArray p) 0 (rand_draws p) (rand_drawn p)).

(** ** [LFUReplPolicy] *)

Record LFUInfo : Type := mkLFUInfo { lfu_ts : Z; lfu_acc : Z }.
Record Rank : Type := mkRank { rk_info : LFUInfo; rk_sharers : Z; rk_valid : bool }.
Record LFUReplPolicy : Type := mkLFU { lfu_timestamp : Z; bestCandidate : Z; lfu_array : list LFUInfo; bestRank : Rank }.

Definition noRank : Rank := mkRank (mkLFUInfo 0 0) 0 false.
Definition newLFU (numLines : nat) : LFUReplPolicy := mkLFU 1 (-1) (replicate numLines (mkLFUInfo 0 0)) noRank.

Definition lessThan (r other : Rank) (curTs : Z) : bool :=
  if negb (rk_valid r) && rk_valid other then true
  else if Bool.eqb (rk_valid r) (rk_valid other) then
    if (rk_sharers r =? 0) && (0 <? rk_sharers other) then true
    else if (0 <? rk_sharers r) && (rk_sharers other =? 0) then false
    else if lfu_acc (rk_info r) =? 0 then true
    else if lfu_acc (rk_info other) =? 0 then false
    else
      let ownInvFreq := u64 (curTs - lfu_ts (rk_info r)) / lfu_acc (rk_info r) in
      let otherInvFreq := u64 (curTs - lfu_ts (rk_info other)) / lfu_acc (rk_info other) in
      otherInvFreq <? ownInvFreq
  else false.

Definition lfu_update (p : LFUReplPolicy) (id : Z) : outcome LFUReplPolicy :=
  i ← at_ (lfu_array p) id;
  if u64 (lfu_acc i + 1) =? 0 then Stop Undefined else
  let ts := u64 (u64 (lfu_acc i * lfu_ts i) + lfu_timestamp p) / u64 (lfu_acc i + 1) in
  a ← set_at (lfu_array p) id (mkLFUInfo ts (u64 (lfu_acc i + 1)));
  Ret (mkLFU (u64 (lfu_timestamp p + 1000)) (bestCandidate p) a (bestRank p)).

Definition lfu_record (cc : cc_view) (p : LFUReplPolicy) (id : Z) : outcome LFUReplPolicy :=
  i ← at_ (lfu_array p) id;
  let candRank := mkRank i (cc_numSharers cc id) (cc_isValid cc id) in
  if (bestCandidate p =? -1) || lessThan candRank (bestRank p) (lfu_timestamp p)
  then Ret (mkLFU (lfu_timestamp p) (i32 id) (lfu_array p) candRank) else Ret p.

Definition lfu_rank (cc : cc_view) (p : LFUReplPolicy) (cands : list Z) : outcome (Z * LFUReplPolicy) :=
  p ← fold_ (lfu_record cc) cands p;
  _ ← assert_ (negb (bestCandidate p =? -1));
  Ret (u32 (bestCandidate p), p).

Definition lfu_replaced (p : LFUReplPolicy) (id : Z) : outcome LFUReplPolicy :=
  i ← at_ (lfu_array p) id;
  a ← set_at (lfu_array p) id (mkLFUInfo (lfu_ts i) 0);
  Ret (mkLFU (lfu_timestamp p) (-1) a noRank).

(** ** Least recently used *)

(** The stamp of a line, and the number that [rank] compares. *)
Definition stamp_at (p : LRUReplPolicy) (id : Z) : Z := default 0 (lru_array p !! Z.to_nat id).
Definition lru_key (cc : cc_view) (p : LRUReplPolicy) (id : Z) : Z :=
  u32 (u64 ((if sharersAware p then cc_numSharers cc id else 0) * lru_timestamp p + (if cc_isValid cc id then stamp_at p id else 0))).

Definition in_lines (n : nat) (id : Z) : Prop := 0 <= id < Z.of_nat n.

Lemma lru_score_ret cc p n id : length (lru_array p) = n -> in_lines n id -> u32 <$> lru_score cc p id = Ret (lru_key cc p id).
Proof.
  intros Hl [H1 H2]. destruct (lookup_lt_is_Some_2 (lru_array p) (Z.to_nat id)) as [ts Hts]; [lia|]. unfold lru_score. rewrite (at_ret _ _ ts) by done.
  cbn [mbind outcome_bind fmap outcome_fmap]. unfold lru_key, stamp_at. by rewrite Hts.
Qed.

(** The loop returns the first of the candidates with the smallest key. *)
Lemma lru_loop_ok cc p n cands bc bs :
  length (lru_array p) = n -> Forall (in_lines n) cands ->
  exists r, lru_loop cc p cands bc bs = Ret r /\
    ((r = bc /\ forall c, c ∈ cands -> bs <= lru_key cc p c) \/
     (exists l1 l2, cands = l1 ++ r :: l2 /\ lru_key cc p r < bs /\ (forall c, c ∈ l1 -> lru_key cc p r < lru_key cc p c) /\ forall c, c ∈ l2 -> lru_key cc p r <= lru_key cc p c)).
Proof.
  intros Hl Hc. revert bc bs. induction Hc as [|c cands Hr Hc IH]; intros bc bs; cbn [lru_loop].
  { exists bc. split; [done|]. left. split; [done|]. set_solver. }
  pose proof (lru_score_ret cc p n c Hl Hr) as Hs. destruct (lru_score cc p c) as [s|]; [|done]. cbn [mbind outcome_bind]. cbn in Hs. injection Hs as Hs. rewrite Hs.
  destruct (IH (if lru_key cc p c <? bs then c else bc) (Z.min (lru_key cc p c) bs)) as (r & E & Hr'). exists r. split; [done|].
  destruct (lru_key cc p c <? bs) eqn:Hlt; zb; destruct Hr' as [[-> Hmin]|(l1 & l2 & -> & H1 & H2 & H3)].
  - right. exists [], cands. split_and!; [done|done|set_solver|]. intros d Hd. specialize (Hmin d Hd). lia.
  - right. exists (c :: l1), l2. split_and!; [done|lia| |done]. intros d Hd. apply elem_of_cons in Hd as [->|Hd]; [lia|by apply H2].
  - left. split; [done|]. intros d Hd. apply elem_of_cons in Hd as [->|Hd]; [done|]. specialize (Hmin d Hd). lia.
  - right. exists (c :: l1), l2. split_and!; [done|lia| |done]. intros d Hd. apply elem_of_cons in Hd as [->|Hd]; [lia|by apply H2].
Qed.

Lemma lru_rank_first cc p n cands :
  length (lru_array p) = n -> Forall (in_lines n) cands -> cands <> [] ->
  exists l1 id l2, cands = l1 ++ id :: l2 /\ lru_rank cc p cands = Ret (id, p) /\
    (forall c, c ∈ l1 -> lru_key cc p id < lru_key cc p c) /\ forall c, c ∈ l2 -> lru_key cc p id <= lru_key cc p c.
Proof.
  intros Hl Hc Hne. unfold lru_rank. destruct (lru_loop_ok cc p n cands (2 ^ 32 - 1) (2 ^ 64 - 1) Hl Hc) as (r & -> & Hr). cbn [mbind outcome_bind].
  destruct Hr as [[-> Hmin]|(l1 & l2 & -> & _ & H2 & H3)]; [|by exists l1, r, l2].
  destruct cands as [|c cands]; [done|]. specialize (Hmin c ltac:(constructor)). unfold lru_key in Hmin. pose proof (u32_range (u64 ((if sharersAware p then cc_numSharers cc c else 0) * lru_timestamp p + (if cc_isValid cc c then stamp_at p c else 0)))). lia.
Qed.

Definition lru_fits (n k : nat) (r : bool) (p : LRUReplPolicy) : Prop := length (lru_array p) = n.

Lemma lru_update_ok n k r p id : lru_fits n k r p -> in_lines n id -> exists p', lru_update p id = Ret p' /\ lru_fits n k r p'.
Proof. intros Hl Hid. unfold lru_update, lru_fits in *. rewrite set_at_ret by (by rewrite Hl). eexists. split; [done|]. simpl. by rewrite length_insert. Qed.

Lemma lru_replaced_ok n k r p id : lru_fits n k r p -> in_lines n id -> exists p', lru_replaced p id = Ret p' /\ lru_fits n k false p'.
Proof. intros Hl Hid. unfold lru_replaced, lru_fits in *. rewrite set_at_ret by (by rewrite Hl). eexists. split; [done|]. simpl. by rewrite length_insert. Qed.

Lemma lru_rank_ok n k cc p cands :
  lru_fits n k false p -> cands <> [] -> Forall (in_lines n) cands -> exists id p', lru_rank cc p cands = Ret (id, p') /\ id ∈ cands /\ lru_fits n k true p'.
Proof.
  intros Hl Hne Hc. destruct (lru_rank_first cc p n cands Hl Hc Hne) as (l1 & id & l2 & -> & E & _). exists id, p. split_and!; [done|set_solver|done].
Qed.

#[export] Instance lru_policy : ReplPolicy LRUReplPolicy.
Proof.
  refine {| rp_update := lru_update; rp_replaced := lru_replaced; rp_rank := lru_rank; rp_exact := false; rp_inv := lru_fits |}.
  - apply lru_update_ok.
  - apply lru_replaced_ok.
  - intros n k cc p cands Hl Hne Hc _ _. by apply lru_rank_ok.
Defined.

#[export] Instance tree_policy : ReplPolicy TreeLRUReplPolicy.
Proof.
  refine {| rp_update := tree_update; rp_replaced := tree_replaced; rp_rank := tree_rank; rp_exact := false; rp_inv := fun n k r p => lru_fits n k r (tree_base p) |}.
  - intros n k r p id Hl Hid. destruct (lru_update_ok n k r _ id Hl Hid) as (b & E & Hb). unfold tree_update. rewrite E. by eexists.
  - intros n k r p id Hl Hid. destruct (lru_replaced_ok n k r _ id Hl Hid) as (b & E & Hb). unfold tree_replaced. rewrite E. by eexists.
  - intros n k cc p cands Hl Hne Hc _ _. destruct (lru_rank_ok n k cc _ cands Hl Hne Hc) as (id & b & E & Hin & Hb). unfold tree_rank. rewrite E. by eexists _, _.
Defined.

(** *** Histories *)

Inductive lru_op : Type := Use (id : Z) | Drop (id : Z).

Definition lru_do (p : LRUReplPolicy) (o : lru_op) : outcome LRUReplPolicy :=
  match o with Use id => lru_update p id | Drop id => lru_replaced p id end.

(** Number of uses; the time of the last use of a line, 0 if there is none since the
    line was replaced.  The latest operation is last. *)
Definition uses (os : list lru_op) : Z := count_b (fun o => match o with Use _ => true | Drop _ => false end) os.
Definition use_step (id : Z) (a : Z * Z) (o : lru_op) : Z * Z :=
  match o with
  | Use i => (a.1 + 1, if i =? id then a.1 + 1 else a.2)
  | Drop i => (a.1, if i =? id then 0 else a.2)
  end.
Definition last_use (os : list lru_op) (id : Z) : Z := (foldl (use_step id) (0, 0) os).2.

Lemma use_count os id k t : (foldl (use_step id) (k, t) os).1 = k + uses os.
Proof.
  revert k t. induction os as [|o os IH]; intros k t; [unfold uses; simpl; lia|]. unfold uses in *. simpl. destruct o; unfold use_step; simpl; rewrite IH; simpl; lia.
Qed.

Lemma last_use_range os id : 0 <= last_use os id <= uses os.
Proof.
  assert (H : forall k t, 0 <= t <= k -> 0 <= (foldl (use_step id) (k, t) os).2 <= k + uses os); [|specialize (H 0 0 ltac:(lia)); unfold last_use; lia].
  induction os as [|o os IH]; intros k t Ht; [unfold uses; simpl; lia|]. unfold uses in *. simpl. destruct o as [i|i]; unfold use_step at 2 4; simpl.
  - pose proof (IH (k + 1) (if i =? id then k + 1 else t) ltac:(destruct (i =? id); lia)). lia.
  - pose proof (IH k (if i =? id then 0 else t) ltac:(destruct (i =? id); lia)). lia.
Qed.

Lemma lru_run_ok aware n os p :
  fold_ lru_do os (newLRU aware n) = Ret p -> uses os < 2 ^ 64 - 1 ->
  sharersAware p = aware /\ length (lru_array p) = n /\ lru_timestamp p = uses os + 1 /\ forall id, in_lines n id -> stamp_at p id = last_use os id.
Proof.
  assert (H : forall q k, fold_ lru_do os q = Ret p -> length (lru_array q) = n -> lru_timestamp q = k + 1 -> 0 <= k -> k + uses os < 2 ^ 64 - 1 ->
    sharersAware p = sharersAware q /\ length (lru_array p) = n /\ lru_timestamp p = k + uses os + 1 /\
    forall id, in_lines n id -> stamp_at p id = (foldl (use_step id) (k, stamp_at q id) os).2).
  { induction os as [|o os IH]; intros q k E Hl Ht Hk Hu; cbn [fold_] in E.
    { injection E as <-. unfold uses in *. simpl in *. split_and!; try done. lia. }
    apply bind_ret_inv in E as (q1 & E1 & E). pose proof (count_b_nonneg (fun o => match o with Use _ => true | Drop _ => false end) os).
    destruct o as [i|i]; cbn [lru_do] in E1; unfold lru_update, lru_replaced in E1; apply bind_ret_inv in E1 as (a & Ea & E1); injection E1 as <-;
      apply set_at_ret_iff in Ea as [Hi ->]; unfold uses in *; cbn [count_b] in *.
    - destruct (IH _ (k + 1) E) as (R1 & R2 & R3 & R4); [simpl; by rewrite length_insert|cbn [lru_timestamp]; rewrite u64_small; lia|lia|lia|].
      split_and!; [done|done|lia|]. intros id Hid. rewrite (R4 id Hid). cbn [foldl use_step fst snd]. do 2 f_equal. f_equal. unfold stamp_at. cbn [lru_array].
      destruct (i =? id) eqn:Heq; zb; [subst; rewrite list_lookup_insert_eq by lia; simpl; lia|]. by rewrite list_lookup_insert_ne by (unfold in_lines in Hid; lia).
    - destruct (IH _ k E) as (R1 & R2 & R3 & R4); [simpl; by rewrite length_insert|done|lia|lia|].
      split_and!; [done|done|lia|]. intros id Hid. rewrite (R4 id Hid). cbn [foldl use_step fst snd]. do 2 f_equal. f_equal. unfold stamp_at. cbn [lru_array].
      destruct (i =? id) eqn:Heq; zb; [subst; by rewrite list_lookup_insert_eq by lia|]. by rewrite list_lookup_insert_ne by (unfold in_lines in Hid; lia). }
  intros E Hu. destruct (H (newLRU aware n) 0 E) as (R1 & R2 & R3 & R4); simpl; [by rewrite length_replicate|done|lia|lia|].
  split_and!; [done|done|lia|]. intros id Hid. rewrite (R4 id Hid). unfold last_use. do 3 f_equal. unfold stamp_at. simpl. destruct (replicate n 0 !! _) eqn:Hr; [|done].
  by apply lookup_replicate in Hr as [-> _].
Qed.

(** ** Not recently used *)

Definition nru_val (p : NRUReplPolicy) (id : Z) : Z := default 0 (nru_array p !! Z.to_nat id).

Record nru_wf (n k : nat) (p : NRUReplPolicy) : Prop := {
  nw_lines : length (nru_array p) = n;
  nw_vals : Forall (fun v => 0 <= v <= 3) (nru_array p);
  nw_cands : length (nru_candArray p) = k;
  nw_young : 0 <= youngLines p
}.

(** The candidates recorded are [seen]; the first [candIdx] slots hold ones of the
    smallest class. *)
Record nru_seen (n k : nat) (seen : list Z) (p : NRUReplPolicy) : Prop := {
  ns_wf : nru_wf n k p;
  ns_idx : 0 <= nru_candIdx p <= Z.of_nat (length seen);
  ns_some : seen = [] /\ nru_candVal p = 2 ^ 20 \/ 0 < nru_candIdx p;
  ns_best : forall i, (i < Z.to_nat (nru_candIdx p))%nat -> exists id, nru_candArray p !! i = Some id /\ id ∈ seen /\ nru_val p id = nru_candVal p;
  ns_least : forall id, id ∈ seen -> nru_candVal p <= nru_val p id
}.

Lemma nru_val_at p n id : length (nru_array p) = n -> Forall (fun v => 0 <= v <= 3) (nru_array p) -> in_lines n id -> at_ (nru_array p) id = Ret (nru_val p id) /\ 0 <= nru_val p id <= 3.
Proof.
  intros Hl Hv [H1 H2]. destruct (lookup_lt_is_Some_2 (nru_array p) (Z.to_nat id)) as [v Hat]; [lia|]. unfold nru_val. rewrite Hat. split; [by apply at_ret|].
  by eapply Forall_lookup_1 in Hat; [|exact Hv].
Qed.

Lemma nru_record_ok n k seen p id :
  nru_seen n k seen p -> in_lines n id -> (length seen < k)%nat -> Z.of_nat k < 2 ^ 32 ->
  exists p', nru_record p id = Ret p' /\ nru_seen n k (seen ++ [id]) p' /\ nru_array p' = nru_array p /\ youngLines p' = youngLines p.
Proof.
  intros [[N1 N2 N3 N4] N5 N6 N7 N8] Hid Hk Hk2. destruct (nru_val_at p n id N1 N2 Hid) as [Hat Hv]. unfold nru_record. rewrite Hat. cbn [mbind outcome_bind].
  assert (Hlen : Z.of_nat (length (seen ++ [id])) = Z.of_nat (length seen) + 1) by (rewrite length_app; simpl; lia).
  destruct (nru_val p id <? nru_candVal p) eqn:Hlt; zb.
  - rewrite set_at_ret by lia. cbn [mbind outcome_bind]. eexists. split; [done|]. split; [|done]. split; simpl; try done.
    + split; simpl; try done. by rewrite length_insert.
    + lia.
    + right. lia.
    + intros i Hi. assert (i = 0%nat) as -> by lia. exists id. rewrite list_lookup_insert_eq by lia. split_and!; [done|set_solver|done].
    + intros d Hd. apply elem_of_app in Hd as [Hd|Hd]; [specialize (N8 d Hd); unfold nru_val in *; simpl; lia|]. apply list_elem_of_singleton in Hd as ->. done.
  - destruct (nru_val p id =? nru_candVal p) eqn:Heq; zb.
    + rewrite set_at_ret by lia. cbn [mbind outcome_bind]. eexists. split; [done|]. split; [|done]. split; simpl; try done.
      * split; simpl; try done. by rewrite length_insert.
      * rewrite u32_small; lia.
      * right. rewrite u32_small; lia.
      * intros i Hi. rewrite u32_small in Hi by lia. destruct (decide (i = Z.to_nat (nru_candIdx p))) as [->|Hne].
        -- exists id. rewrite list_lookup_insert_eq by lia. split_and!; [done|set_solver|done].
        -- destruct (N7 i ltac:(lia)) as (d & D1 & D2 & D3). exists d. rewrite list_lookup_insert_ne by lia. split_and!; [done|set_solver|done].
      * intros d Hd. apply elem_of_app in Hd as [Hd|Hd]; [by apply N8|]. apply list_elem_of_singleton in Hd as ->. unfold nru_val in *. simpl. lia.
    + exists p. split; [done|]. split; [|done]. split; try done.
      * lia.
      * right. destruct N6 as [[-> Hc]|Hc]; [lia|done].
      * intros i Hi. destruct (N7 i Hi) as (d & D1 & D2 & D3). exists d. split_and!; [done|set_solver|done].
      * intros d Hd. apply elem_of_app in Hd as [Hd|Hd]; [by apply N8|]. apply list_elem_of_singleton in Hd as ->. lia.
Qed.

Definition nru_fits (n k : nat) (r : bool) (p : NRUReplPolicy) : Prop :=
  Z.of_nat k < 2 ^ 32 /\ nru_wf n k p /\ (r = false -> nru_candVal p = 2 ^ 20 /\ nru_candIdx p = 0).

Lemma nru_fresh n k p : nru_fits n k false p -> nru_seen n k [] p.
Proof.
  intros (_ & Hwf & Hr). destruct (Hr eq_refl) as [Hv Hi]. split; [done|rewrite Hi; simpl; lia|by left| |set_solver]. intros i. rewrite Hi. simpl. lia.
Qed.

(** [rank] chooses a candidate of the smallest class. *)
Lemma nru_rank_least n k cc p cands :
  nru_fits n k false p -> cands <> [] -> Forall (in_lines n) cands -> (length cands <= k)%nat ->
  exists id p', nru_rank cc p cands = Ret (id, p') /\ id ∈ cands /\ nru_fits n k true p' /\ forall c, c ∈ cands -> nru_val p id <= nru_val p c.
Proof.
  intros Hfits Hne Hc Hk. pose proof (nru_fresh _ _ _ Hfits) as Hs. destruct Hfits as [Hk2 _].
  assert (Hloop : forall l seen q, Forall (in_lines n) l -> (length (seen ++ l) <= k)%nat -> nru_seen n k seen q ->
    exists q', fold_ nru_record l q = Ret q' /\ nru_seen n k (seen ++ l) q' /\ nru_array q' = nru_array q /\ youngLines q' = youngLines q).
  { induction l as [|c l IH]; intros seen q Hl Hlen Hq; cbn [fold_]; [exists q; by rewrite app_nil_r|]. inversion Hl; subst. rewrite length_app in Hlen. simpl in Hlen.
    destruct (nru_record_ok n k seen q c Hq ltac:(done) ltac:(lia) Hk2) as (q1 & -> & Hq1 & Ha & Hy). cbn [mbind outcome_bind].
    destruct (IH (seen ++ [c]) q1 ltac:(done)) as (q' & E & Hq' & Ha' & Hy'); [rewrite !length_app; simpl; lia|done|]. exists q'. rewrite <- app_assoc in Hq'. split_and!; [done|done|congruence|congruence]. }
  destruct (Hloop cands [] p Hc Hk Hs) as (q & E & Hq & Ha & Hy). simpl in Hq. unfold nru_rank. rewrite E. cbn [mbind outcome_bind]. pose proof Hq as [Q1 Q5 Q6 Q7 Q8].
  assert (0 < nru_candIdx q) as Hpos by (destruct Q6 as [[-> _]|?]; done). unfold nru_best. rewrite (proj2 (Z.ltb_lt _ _) Hpos). cbn [assert_ mbind outcome_bind].
  pose proof (Z.mod_pos_bound (youngLines q) (nru_candIdx q) Hpos). destruct (Q7 (Z.to_nat (youngLines q mod nru_candIdx q)) ltac:(lia)) as (id & I1 & I2 & I3).
  rewrite (at_ret _ _ id) by (done || lia). cbn [mbind outcome_bind]. exists id, q. split_and!; [done|done|by split_and!|].
  intros c Hin. specialize (Q8 c Hin). unfold nru_val in *. rewrite <- Ha. lia.
Qed.

Lemma lor2_range v : 0 <= v <= 3 -> 0 <= Z.lor v 2 <= 3.
Proof. intros. assert (v = 0 \/ v = 1 \/ v = 2 \/ v = 3) as [Hv|[Hv|[Hv|Hv]]] by lia; rewrite Hv; split; vm_compute; discriminate. Qed.

Lemma nru_replaced_ok n k r p id : nru_fits n k r p -> in_lines n id -> exists p', nru_replaced p id = Ret p' /\ nru_fits n k false p'.
Proof.
  intros (Hk & [N1 N2 N3 N4] & _) Hid. unfold nru_replaced, in_lines in *. rewrite set_at_ret by lia. cbn [mbind outcome_bind]. eexists. split; [done|].
  split_and!; [done| |done]. split; simpl; try done; [by rewrite length_insert|by apply Forall_insert].
Qed.

Lemma nru_update_ok n k r p id : nru_fits n k r p -> in_lines n id -> exists p', nru_update p id = Ret p' /\ nru_fits n k r p'.
Proof.
  intros (Hk & [N1 N2 N3 N4] & Hr) Hid. destruct (nru_val_at p n id N1 N2 Hid) as [Hat Hv]. unfold nru_update, in_lines in *. rewrite Hat. cbn [mbind outcome_bind].
  rewrite set_at_ret by lia. cbn [mbind outcome_bind].
  assert (Ha : Forall (fun v => 0 <= v <= 3) (<[Z.to_nat id := Z.lor (nru_val p id) 2]> (nru_array p))) by (apply Forall_insert; [done|by apply lor2_range]).
  destruct (_ <=? _); eexists; (split; [done|]); split_and!; try done; split; simpl; try done.
  - by rewrite length_fmap, length_insert.
  - apply Forall_fmap. eapply Forall_impl; [exact Ha|]. intros v Hv2. cbn beta in Hv2. change (0 <= Z.shiftr v 1 <= 3). rewrite Z.shiftr_div_pow2 by lia. change (2 ^ 1) with 2.
    pose proof (Z.div_pos v 2). pose proof (Z.div_le_upper_bound v 2 3). lia.
  - by rewrite length_insert.
  - apply u32_range.
Qed.

#[export] Instance nru_policy : ReplPolicy NRUReplPolicy.
Proof.
  refine {| rp_update := nru_update; rp_replaced := nru_replaced; rp_rank := nru_rank; rp_exact := false; rp_inv := nru_fits |}.
  - apply nru_update_ok.
  - apply nru_replaced_ok.
  - intros n k cc p cands Hf Hne Hc Hk _. destruct (nru_rank_least n k cc p cands Hf Hne Hc Hk) as (id & p' & H1 & H2 & H3 & _). by exists id, p'.
Defined.

(** ** Random choice *)

(** [randInt(n)] is documented to return an integer from 0 to n. *)
Definition rand_fits (n k : nat) (r : bool) (p : RandReplPolicy) : Prop :=
  Z.of_nat k < 2 ^ 32 /\ length (rand_candArray p) = k /\ (forall j, 0 <= rand_draws p j < Z.of_nat k) /\ (r = false -> rand_candIdx p = 0).

Lemma rand_record_all k l : forall seen p, Z.of_nat k < 2 ^ 32 -> length (rand_candArray p) = k -> rand_candIdx p = Z.of_nat (length seen) ->
  take (length seen) (rand_candArray p) = seen -> (length (seen ++ l) <= k)%nat ->
  exists p', fold_ rand_record l p = Ret p' /\ length (rand_candArray p') = k /\ rand_candIdx p' = Z.of_nat (length (seen ++ l)) /\
    take (length (seen ++ l)) (rand_candArray p') = seen ++ l /\ rand_draws p' = rand_draws p.
Proof.
  induction l as [|c l IH]; intros seen p Hk Hl Hi Ht Hlen; cbn [fold_]; [exists p; by rewrite app_nil_r|]. rewrite length_app in Hlen. simpl in Hlen.
  assert (E1 : rand_record p c = Ret (mkRand (<[Z.to_nat (rand_candIdx p) := c]> (rand_candArray p)) (u32 (rand_candIdx p + 1)) (rand_draws p) (rand_drawn p))).
  { unfold rand_record. by rewrite set_at_ret by lia. }
  rewrite E1. cbn [mbind outcome_bind].
  destruct (IH (seen ++ [c]) (mkRand (<[Z.to_nat (rand_candIdx p) := c]> (rand_candArray p)) (u32 (rand_candIdx p + 1)) (rand_draws p) (rand_drawn p))) as (p' & E & P1 & P2 & P3 & P4); simpl.
  - done.
  - by rewrite length_insert.
  - rewrite u32_small, length_app by lia. simpl. lia.
  - rewrite Hi, Nat2Z.id, length_app. simpl. rewrite Nat.add_1_r. rewrite (take_S_r _ _ c) by (rewrite list_lookup_insert_eq; [done|lia]).
    rewrite take_insert_ge by lia. by rewrite Ht.
  - rewrite !length_app. simpl. lia.
  - exists p'. rewrite <- app_assoc in P2, P3. done.
Qed.

#[export] Instance rand_policy : ReplPolicy RandReplPolicy.
Proof.
  refine {| rp_update := rand_update; rp_replaced := rand_replaced; rp_rank := rand_rank; rp_exact := true; rp_inv := rand_fits |}.
  - intros n k r p id Hf _. by exists p.
  - intros n k r p id (H1 & H2 & H3 & _) _. eexists. split; [done|]. by split_and!.
  - intros n k cc p cands (H1 & H2 & H3 & H4) Hne Hc Hk Hex. destruct (rand_record_all k cands [] p H1 H2 (H4 eq_refl) eq_refl Hk) as (q & E & Q1 & Q2 & Q3 & Q4).
    simpl in Q2, Q3. unfold rand_rank. rewrite E. cbn [mbind outcome_bind]. rewrite (Hex eq_refl) in Q2, Q3. rewrite Q2, Q1, Z.eqb_refl. cbn [assert_ mbind outcome_bind].
    rewrite <- Q1, take_ge in Q3 by done. pose proof (H3 (rand_drawn q)). rewrite Q4, Q3.
    destruct (lookup_lt_is_Some_2 cands (Z.to_nat (rand_draws p (rand_drawn q)))) as [id Hid]; [rewrite (Hex eq_refl); lia|].
    rewrite (at_ret _ _ id) by (done || lia). eexists id, _. split; [reflexivity|]. split; [by eapply list_elem_of_lookup_2|]. unfold rand_fits. simpl. split_and!; try done. by apply Hex.
Defined.

(** ** Least frequently used *)

(** Invalid lines come before valid ones and lines without sharers before the others. *)
Definition lfu_class (cc : cc_view) (id : Z) : Z := (if cc_isValid cc id then 2 else 0) + (if 0 <? cc_numSharers cc id then 1 else 0).
Definition rank_class (r : Rank) : Z := (if rk_valid r then 2 else 0) + (if 0 <? rk_sharers r then 1 else 0).

Lemma lessThan_class r o ts : 0 <= rk_sharers r -> 0 <= rk_sharers o -> if lessThan r o ts then rank_class r <= rank_class o else rank_class o <= rank_class r.
Proof.
  intros Hr Ho. unfold lessThan, rank_class. destruct (rk_valid r), (rk_valid o); cbn [negb andb Bool.eqb]; destruct (0 <? rk_sharers r) eqn:E1, (0 <? rk_sharers o) eqn:E2;
    repeat case_match; zb; lia.
Qed.

Lemma lfu_rank_class n cc p cands :
  length (lfu_array p) = n -> Z.of_nat n <= 2 ^ 31 -> bestCandidate p = -1 -> cands <> [] -> Forall (in_lines n) cands -> (forall c, 0 <= cc_numSharers cc c) ->
  exists id p', lfu_rank cc p cands = Ret (id, p') /\ id ∈ cands /\ forall c, c ∈ cands -> lfu_class cc id <= lfu_class cc c.
Proof.
  intros Hl Hn Hb Hne Hc Hs.
  set (I := fun (seen : list Z) (q : LFUReplPolicy) => lfu_array q = lfu_array p /\ (seen = [] /\ bestCandidate q = -1 \/
    bestCandidate q ∈ seen /\ 0 <= bestCandidate q < 2 ^ 31 /\ 0 <= rk_sharers (bestRank q) /\ rank_class (bestRank q) = lfu_class cc (bestCandidate q) /\
    forall c, c ∈ seen -> lfu_class cc (bestCandidate q) <= lfu_class cc c)).
  assert (Hloop : forall l seen q, Forall (in_lines n) l -> I seen q -> exists q', fold_ (lfu_record cc) l q = Ret q' /\ I (seen ++ l) q').
  { induction l as [|c l IH]; intros seen q Hlc HI; cbn [fold_]; [exists q; by rewrite app_nil_r|]. inversion Hlc as [|? ? [Hc1 Hc2] Hlc']; subst x l0. destruct HI as [Ha HI].
    destruct (lookup_lt_is_Some_2 (lfu_array q) (Z.to_nat c)) as [i Hi]; [rewrite Ha; lia|]. 
    replace (seen ++ c :: l) with ((seen ++ [c]) ++ l) by (by rewrite <- app_assoc).
    set (r := mkRank i (cc_numSharers cc c) (cc_isValid cc c)). assert (Hrc : rank_class r = lfu_class cc c) by done.
    assert (E1 : lfu_record cc q c = if (bestCandidate q =? -1) || lessThan r (bestRank q) (lfu_timestamp q) then Ret (mkLFU (lfu_timestamp q) (i32 c) (lfu_array q) r) else Ret q)
      by (unfold lfu_record; by rewrite (at_ret _ _ i)). rewrite E1.
    destruct ((bestCandidate q =? -1) || lessThan r (bestRank q) (lfu_timestamp q)) eqn:Hlt; cbn [mbind outcome_bind]; apply (IH _ _ Hlc'); (split; [done|]); right; cbn [bestCandidate bestRank].
    - rewrite i32_small by lia. split_and!; [set_solver|lia|lia|apply Hs|done|]. intros d Hd. apply elem_of_app in Hd as [Hd|Hd]; [|apply list_elem_of_singleton in Hd as ->; lia].
      destruct HI as [[-> _]|(_ & B2 & B3 & B4 & B5)]; [set_solver|]. rewrite (proj2 (Z.eqb_neq _ (-1))) in Hlt by lia. cbn [orb] in Hlt.
      pose proof (lessThan_class r (bestRank q) (lfu_timestamp q) (Hs c) B3) as Hcl. rewrite Hlt in Hcl. specialize (B5 d Hd). lia.
    - apply orb_false_elim in Hlt as [Hn1 Hlt]. zb. destruct HI as [[_ ?]|(B1 & B2 & B3 & B4 & B5)]; [done|]. split_and!; [set_solver|lia|lia|lia|done|].
      intros d Hd. apply elem_of_app in Hd as [Hd|Hd]; [by apply B5|]. apply list_elem_of_singleton in Hd as ->.
      pose proof (lessThan_class r (bestRank q) (lfu_timestamp q) (Hs c) B3) as Hcl. rewrite Hlt in Hcl. lia. }
  destruct (Hloop cands [] p Hc) as (q & E & _ & HI); [split; [done|by left]|]. unfold lfu_rank. rewrite E. cbn [mbind outcome_bind]. simpl in HI.
  destruct HI as [[? _]|(B1 & B2 & _ & _ & B5)]; [done|]. rewrite (proj2 (Z.eqb_neq _ (-1))) by lia. cbn [negb assert_ mbind outcome_bind]. rewrite u32_small by lia. by eexists _, _.
Qed.

(** ** Properties *)

(** Line [a] is to be evicted before [b] or is equal: fewer sharers if the policy looks at
    them, then invalid or used longer ago. *)
Definition lru_age (cc : cc_view) (os : list lru_op) (id : Z) : Z := if cc_isValid cc id then last_use os id else 0.
Definition lru_sharers (aware : bool) (cc : cc_view) (id : Z) : Z := if aware then cc_numSharers cc id else 0.
Definition older (aware : bool) (cc : cc_view) (os : list lru_op) (a b : Z) : Prop :=
  lru_sharers aware cc a < lru_sharers aware cc b \/ lru_sharers aware cc a = lru_sharers aware cc b /\ lru_age cc os a <= lru_age cc os b.

(** After any sequence of uses and replacements, [rank] of the LRU policy returns a
    candidate than which no other is to be evicted before: fewest sharers first, if
    the policy looks at sharers, then lines that are invalid or were not used
    since they were replaced, then the least recently used.  This holds while the
    product of the number of uses and of sharers is below 2^32, since the score is
    kept in 32 bits. *)
Theorem lru_rank_choice aware n os p cc cands s :
  fold_ lru_do os (newLRU aware n) = Ret p -> Forall (in_lines n) cands -> cands <> [] ->
  (forall c, c ∈ cands -> 0 <= lru_sharers aware cc c <= s) -> (s + 1) * (uses os + 1) <= 2 ^ 32 ->
  exists id, lru_rank cc p cands = Ret (id, p) /\ id ∈ cands /\ forall c, c ∈ cands -> older aware cc os id c.
Proof.
  intros E Hc Hne Hs Hbound. pose proof (count_b_nonneg (fun o => match o with Use _ => true | Drop _ => false end) os) as Hu. fold (uses os) in Hu.
  assert (0 <= s) as Hs0. { destruct cands as [|c cands]; [done|]. specialize (Hs c ltac:(constructor)). lia. }
  destruct (lru_run_ok aware n os p E ltac:(nia)) as (Ha & Hl & Ht & Hst). destruct (lru_rank_first cc p n cands Hl Hc Hne) as (l1 & id & l2 & Hcs & Er & H1 & H2).
  exists id. split; [done|]. split; [subst; set_solver|]. rewrite Forall_forall in Hc.
  assert (Hkey : forall c, c ∈ cands -> lru_key cc p c = lru_sharers aware cc c * (uses os + 1) + lru_age cc os c /\ 0 <= lru_age cc os c <= uses os).
  { intros c Hin. pose proof (last_use_range os c). assert (0 <= lru_age cc os c <= uses os) by (unfold lru_age; destruct (cc_isValid cc c); lia). split; [|done].
    unfold lru_key. rewrite Ha, Ht. fold (lru_sharers aware cc c). rewrite (Hst c (Hc c Hin)). fold (lru_age cc os c). specialize (Hs c Hin).
    rewrite u64_small, u32_small by nia. done. }
  assert (Hid : id ∈ cands) by (subst; set_solver). destruct (Hkey id Hid) as [K1 K2]. intros c Hin. destruct (Hkey c Hin) as [K3 K4].
  assert (lru_key cc p id <= lru_key cc p c) as Hle. { rewrite Hcs in Hin. apply elem_of_app in Hin as [Hin|Hin]; [specialize (H1 c Hin); lia|]. apply elem_of_cons in Hin as [->|Hin]; [done|by apply H2]. }
  unfold older. destruct (Z.lt_trichotomy (lru_sharers aware cc id) (lru_sharers aware cc c)) as [?|[?|?]]; [by left|right; split; [done|nia]|nia].
Qed.

Definition demo_uses : list lru_op := [Use 0; Use 1; Use 2; Use 3; Use 0; Drop 3; Use 3].
Definition demo_lru : LRUReplPolicy := ret_or (newLRU true 4) (fold_ lru_do demo_uses (newLRU true 4)).
Definition demo_cc : cc_view := mkCC (fun _ => true) (fun id => if id =? 2 then 1 else 0).

Lemma lru_rank_choice_witness : exists id, lru_rank demo_cc demo_lru [0; 1; 2; 3] = Ret (id, demo_lru) /\ older true demo_cc demo_uses id 1.
Proof.
  destruct (lru_rank_choice true 4 demo_uses demo_lru demo_cc [0; 1; 2; 3] 1) as (id & E & Hin & Hold).
  - vm_compute. reflexivity.
  - repeat constructor; unfold in_lines; simpl; lia.
  - discriminate.
  - intros c _. unfold lru_sharers, demo_cc. simpl. destruct (c =? 2); lia.
  - vm_compute. discriminate.
  - exists id. split; [exact E|]. apply Hold. right. left.
Defined.

(** The score of the LRU policy is stored in a [uint32_t].  When the 2^32-th use is
    the last one, the line used last is evicted although another line has not
    been used for 2^32 accesses. *)
Theorem lru_score_truncated :
  let cc := mkCC (fun _ => true) (fun _ => 0) in
  let p := mkLRU false (2 ^ 32 + 1) [2 ^ 32; 1] in
  stamp_at p 1 < stamp_at p 0 /\ lru_update (mkLRU false (2 ^ 32) [0; 1]) 0 = Ret p /\ lru_rank cc p [0; 1] = Ret (0, p).
Proof. split_and!; vm_compute; reflexivity. Qed.
