(* ===== verification/CacheArray.v ===== *)
(** * Cache arrays

    src/src/cache_arrays.h, cache_arrays.cpp: [SetAssocArray], and cd_arrays.cpp:
    [CDSetAssocArray], the array of a coherence directory.  The class
    [CacheArray] is the contract of the base class: the array is a partial injective
    map from line addresses to line numbers, and an insertion in two steps
    replaces one line.  The part of [Cache::access] (cache.cpp) that uses an array
    is proved against the contract; ZArray.v has the other implementation. *)

From S2P Require Import Prelude Bits Hash Repl.

(** 0 marks a line never filled, the largest word a cleared one. *)
Definition is_line (a : Z) : Prop := 0 < a < 2 ^ 64 - 1.

(** The map after the line with number [c] has gone. *)
Definition without (c : Z) (M : gmap Z Z) : gmap Z Z := filter (fun kv => kv.2 <> c) M.

(** ** The contract *)

(** [ca_is s M]: the array [s] holds the lines of [M].  [ca_pending s M a c]: it was decided
    that line [a] replaces number [c]. *)
Class CacheArray (S : Type) : Type := {
  ca_lookup : S -> Z -> bool -> outcome (Z * S);
  ca_preinsert : cc_view -> S -> Z -> outcome (Z * Z * S);
  ca_postinsert : S -> Z -> Z -> outcome S;
  ca_is : S -> gmap Z Z -> Prop;
  ca_pending : S -> gmap Z Z -> Z -> Z -> Prop;
  ca_lines : S -> Z;
  lookup_ok : forall s M a upd, ca_is s M -> is_line a -> exists s', ca_lookup s a upd = Ret (default (-1) (M !! a), s') /\ ca_is s' M /\ ca_lines s' = ca_lines s;
  preinsert_ok : forall cc s M a, ca_is s M -> is_line a -> M !! a = None ->
    exists c wb s', ca_preinsert cc s a = Ret (c, wb, s') /\ ca_pending s' M a c /\ 0 <= c < ca_lines s /\ ca_lines s' = ca_lines s /\
      forall b, M !! b = Some c <-> b = wb /\ is_line b;
  pending_lookup : forall s M a c b upd, ca_pending s M a c -> is_line b ->
    exists s', ca_lookup s b upd = Ret (default (-1) (M !! b), s') /\ ca_pending s' M a c /\ ca_lines s' = ca_lines s;
  postinsert_ok : forall s M a c, ca_pending s M a c -> exists s', ca_postinsert s a c = Ret s' /\ ca_is s' (<[a := c]> (without c M)) /\ ca_lines s' = ca_lines s;
  ca_range : forall s M a c, ca_is s M -> M !! a = Some c -> is_line a /\ 0 <= c < ca_lines s
}.

(** ** [SetAssocArray] *)

Record SetAssocArray (P F : Type) : Type := mkSetAssoc {
  sa_array : list Z;
  sa_rp : P;
  sa_hf : F;
  sa_numLines : Z;
  sa_numSets : Z;
  sa_assoc : Z;
  sa_setMask : Z
}.
Arguments mkSetAssoc {P F}.
Arguments sa_array {P F}.
Arguments sa_rp {P F}.
Arguments sa_hf {P F}.
Arguments sa_numLines {P F}.
Arguments sa_numSets {P F}.
Arguments sa_assoc {P F}.
Arguments sa_setMask {P F}.

(** The number of the first of the lines [ids] that holds [lineAddr]. *)
Fixpoint find_line (array : list Z) (lineAddr : Z) (ids : list Z) : outcome (option Z) :=
  match ids with
  | [] => Ret None
  | id :: ids => x ← at_ array id; if x =? lineAddr then Ret (Some id) else find_line array lineAddr ids
  end.

(** The lines of the set of an address. *)
Definition set_lines {F} `{HashFamily F} (hf : F) (setMask assoc lineAddr : Z) : outcome (list Z) :=
  h ← hash hf 0 lineAddr;
  let set := u32 (Z.land h setMask) in
  let first := u32 (set * assoc) in
  Ret (seqZ first assoc).

Section SetAssoc.
Context {P F : Type} `{ReplPolicy P} `{HashFamily F}.
Implicit Types s : SetAssocArray P F.

Definition newSetAssoc (numLines assoc : Z) (rp : P) (hf : F) : outcome (SetAssocArray P F) :=
  if assoc =? 0 then Stop Undefined else
  let numSets := numLines / assoc in
  _ ← assert_ (isPow2 32 numSets);
  Ret (mkSetAssoc (replicate (Z.to_nat numLines) 0) rp hf numLines numSets assoc (u32 (numSets - 1))).

Definition sa_put s (array : list Z) (rp : P) : SetAssocArray P F :=
  mkSetAssoc array rp (sa_hf s) (sa_numLines s) (sa_numSets s) (sa_assoc s) (sa_setMask s).

Definition sa_set s (lineAddr : Z) : outcome (list Z) := set_lines (sa_hf s) (sa_setMask s) (sa_assoc s) lineAddr.

Definition sa_lookup s (lineAddr : Z) (updateReplacement : bool) : outcome (Z * SetAssocArray P F) :=
  ids ← sa_set s lineAddr;
  r ← find_line (sa_array s) lineAddr ids;
  match r with
  | None => Ret (-1, s)
  | Some id => if updateReplacement then rp ← rp_update (sa_rp s) id; Ret (id, sa_put s (sa_array s) rp) else Ret (id, s)
  end.

Definition sa_preinsert (cc : cc_view) s (lineAddr : Z) : outcome (Z * Z * SetAssocArray P F) :=
  ids ← sa_set s lineAddr;
  '(candidate, rp) ← rp_rank cc (sa_rp s) ids;
  wbLineAddr ← at_ (sa_array s) candidate;
  Ret (candidate, wbLineAddr, sa_put s (sa_array s) rp).

Definition sa_postinsert s (lineAddr candidate : Z) : outcome (SetAssocArray P F) :=
  rp ← rp_replaced (sa_rp s) candidate;
  a ← set_at (sa_array s) candidate lineAddr;
  rp ← rp_update rp candidate;
  Ret (sa_put s a rp).

Definition sa_clear s (candidate : Z) : outcome (SetAssocArray P F) :=
  rp ← rp_replaced (sa_rp s) candidate;
  a ← set_at (sa_array s) candidate (2 ^ 64 - 1);
  Ret (sa_put s a rp).
End SetAssoc.

(** ** [CDSetAssocArray] *)

Record CDSetAssocArray (F : Type) : Type := mkCD { cd_array : list Z; cd_hf : F; cd_numLines : Z; cd_numSets : Z; cd_assoc : Z; cd_setMask : Z }.
Arguments mkCD {F}.
Arguments cd_array {F}.
Arguments cd_hf {F}.
Arguments cd_numLines {F}.
Arguments cd_numSets {F}.
Arguments cd_assoc {F}.
Arguments cd_setMask {F}.

Section Directory.
Context {F : Type} `{HashFamily F}.
Implicit Types s : CDSetAssocArray F.

Definition newCDSetAssoc (numLines assoc : Z) (hf : F) : outcome (CDSetAssocArray F) :=
  if assoc =? 0 then Stop Undefined else
  let numSets := numLines / assoc in
  _ ← assert_ (isPow2 32 numSets);
  Ret (mkCD (replicate (Z.to_nat numLines) (2 ^ 64 - 1)) hf numLines numSets assoc (u32 (numSets - 1))).

Definition cd_set s (lineAddr : Z) : outcome (list Z) := set_lines (cd_hf s) (cd_setMask s) (cd_assoc s) lineAddr.

Definition cd_put s (array : list Z) : CDSetAssocArray F := mkCD array (cd_hf s) (cd_numLines s) (cd_numSets s) (cd_assoc s) (cd_setMask s).

Definition cd_lookup s (lineAddr : Z) : outcome Z :=
  ids ← cd_set s lineAddr; r ← find_line (cd_array s) lineAddr ids; Ret (default (-1) r).

(** A free line of the set is required. *)
Definition cd_preinsert s (lineAddr : Z) : outcome (Z * Z) :=
  ids ← cd_set s lineAddr;
  candidate ← find_line (cd_array s) (2 ^ 64 - 1) ids;
  match candidate with
  | None => Stop AssertFailed
  | Some candidate => wbLineAddr ← at_ (cd_array s) candidate; Ret (candidate, wbLineAddr)
  end.

Definition cd_postinsert s (lineAddr candidate : Z) : outcome (CDSetAssocArray F) := a ← set_at (cd_array s) candidate lineAddr; Ret (cd_put s a).

Definition cd_clear s (lineId : Z) : outcome (CDSetAssocArray F) := a ← set_at (cd_array s) lineId (2 ^ 64 - 1); Ret (cd_put s a).
End Directory.

(** ** The use of an array by a cache *)

(** The part of [Cache::access] that concerns the array: the line number of a request
    that allocates.  [processEviction] runs between the two steps of the insertion; in
    between, [invs] are the invalidations that look up lines. *)
Definition cache_access {S} `{CacheArray S} (cc : cc_view) (s : S) (lineAddr : Z) (updateReplacement : bool) (invs : list Z) : outcome (Z * S) :=
  '(lineId, s) ← ca_lookup s lineAddr updateReplacement;
  if lineId =? -1 then
    '(lineId, _, s) ← ca_preinsert cc s lineAddr;
    s ← fold_ (fun s b => '(_, s) ← ca_lookup s b false; Ret s) invs s;
    s ← ca_postinsert s lineAddr lineId;
    Ret (lineId, s)
  else Ret (lineId, s).

(** ** Tables of sets *)

Lemma without_lookup c M a i : without c M !! a = Some i <-> M !! a = Some i /\ i <> c.
Proof. unfold without. by rewrite map_lookup_filter_Some. Qed.

Lemma without_none c M a : M !! a = None -> without c M !! a = None.
Proof. intros Ha. unfold without. apply map_lookup_filter_None. by left. Qed.

(** The table [arr] of sets of [assoc] lines holds the lines of [M], each in its set. *)
Record table_is (arr : list Z) (numSets assoc : Z) (setf : Z -> Z) (M : gmap Z Z) : Prop := {
  ti_length : Z.of_nat (length arr) = numSets * assoc;
  ti_map : forall a i, M !! a = Some i <-> is_line a /\ 0 <= i /\ arr !! Z.to_nat i = Some a;
  ti_home : forall a i, M !! a = Some i -> i / assoc = setf a
}.

(** An array that holds the lines of [M] by number, after [a] has replaced line [c]. *)
Lemma held_put arr M c a :
  (forall b i, M !! b = Some i <-> is_line b /\ 0 <= i /\ arr !! Z.to_nat i = Some b) -> 0 <= c < Z.of_nat (length arr) -> is_line a -> M !! a = None ->
  forall b i, <[a := c]> (without c M) !! b = Some i <-> is_line b /\ 0 <= i /\ <[Z.to_nat c := a]> arr !! Z.to_nat i = Some b.
Proof.
  intros T2 Hc Ha Hnew b i. destruct (decide (b = a)) as [->|Hb].
  - rewrite lookup_insert_eq. split.
    + intros [= <-]. rewrite list_lookup_insert_eq by lia. split_and!; [done|lia|done].
    + intros (_ & Hi & Hl). destruct (decide (i = c)) as [->|Hne]; [done|]. rewrite list_lookup_insert_ne in Hl by lia.
      assert (M !! a = Some i) by (by apply T2). congruence.
  - rewrite lookup_insert_ne, without_lookup, T2 by done. destruct (decide (i = c)) as [->|Hi].
    + rewrite list_lookup_insert_eq by lia. naive_solver.
    + split; [intros ((? & ? & ?) & _)|intros (? & ? & Hl)].
      * rewrite list_lookup_insert_ne by lia. done.
      * rewrite list_lookup_insert_ne in Hl by lia. done.
Qed.

Lemma find_line_ret arr a ids :
  Forall (fun i => 0 <= i < Z.of_nat (length arr)) ids ->
  exists r, find_line arr a ids = Ret r /\ match r with Some i => i ∈ ids /\ arr !! Z.to_nat i = Some a | None => forall i, i ∈ ids -> arr !! Z.to_nat i <> Some a end.
Proof.
  induction 1 as [|i ids Hi Hids IH]; cbn [find_line]; [exists None; split; [done|set_solver]|].
  destruct (at_in_range arr i Hi) as [x Hx]. rewrite Hx. apply at_ret_iff in Hx as [_ Hx]. cbn [mbind outcome_bind]. destruct (x =? a) eqn:Hxa; zb.
  - exists (Some i). subst. split; [done|]. split; [constructor|done].
  - destruct IH as (r & -> & Hr). exists r. split; [done|]. destruct r as [j|]; [destruct Hr; split; [by constructor|done]|].
    intros j Hj. apply elem_of_cons in Hj as [->|Hj]; [congruence|by apply Hr].
Qed.

Section Table.
Context (numSets assoc : Z) (setf : Z -> Z) (Hassoc : 1 <= assoc) (Hsets : 1 <= numSets) (Hsetf : forall a, is_line a -> 0 <= setf a < numSets).

Definition set_ids (a : Z) : list Z := seqZ (setf a * assoc) assoc.

Lemma set_ids_spec a i : i ∈ set_ids a <-> i / assoc = setf a.
Proof using Hassoc.
  clear Hsets Hsetf. unfold set_ids. rewrite elem_of_seqZ. pose proof (Z.div_mod i assoc ltac:(lia)). pose proof (Z.mod_pos_bound i assoc ltac:(lia)).
  split; [|nia]. intros Hi. symmetry. apply Z.div_unique with (i - setf a * assoc); lia.
Qed.

Lemma set_ids_range arr M a : table_is arr numSets assoc setf M -> is_line a -> Forall (fun i => 0 <= i < Z.of_nat (length arr)) (set_ids a).
Proof using Hassoc Hsetf.
  clear Hsets. intros T Ha. apply Forall_forall. intros i Hi. unfold set_ids in Hi. apply elem_of_seqZ in Hi. rewrite (ti_length _ _ _ _ _ T). pose proof (Hsetf a Ha). nia.
Qed.

Lemma find_line_table arr M a : table_is arr numSets assoc setf M -> is_line a -> find_line arr a (set_ids a) = Ret (M !! a).
Proof using Hassoc Hsetf.
  clear Hsets. intros T Ha. destruct (find_line_ret arr a (set_ids a) (set_ids_range arr M a T Ha)) as (r & -> & Hr). f_equal. destruct r as [i|].
  - destruct Hr as [Hi Hx]. symmetry. apply (ti_map _ _ _ _ _ T). split_and!; [done| |done]. pose proof (set_ids_range arr M a T Ha) as Hrg. rewrite Forall_forall in Hrg. by apply Hrg in Hi as [? _].
  - destruct (M !! a) as [i|] eqn:Hm; [|done]. destruct (Hr i); [apply set_ids_spec; by eapply ti_home|]. apply (ti_map _ _ _ _ _ T) in Hm as (_ & _ & Hm). done.
Qed.

Lemma table_wb arr M c wb : table_is arr numSets assoc setf M -> 0 <= c -> arr !! Z.to_nat c = Some wb -> forall b, M !! b = Some c <-> b = wb /\ is_line b.
Proof using Type. clear Hassoc Hsets Hsetf. intros T Hc Hwb b. rewrite (ti_map _ _ _ _ _ T). naive_solver. Qed.

Lemma table_clear arr M c x : table_is arr numSets assoc setf M -> 0 <= c < Z.of_nat (length arr) -> ~ is_line x -> table_is (<[Z.to_nat c := x]> arr) numSets assoc setf (without c M).
Proof using Type. clear Hassoc Hsets Hsetf.
  intros [T1 T2 T3] Hc Hx. split.
  - by rewrite length_insert.
  - intros a i. rewrite without_lookup, T2. destruct (decide (i = c)) as [->|Hi].
    + rewrite list_lookup_insert_eq by lia. naive_solver.
    + split; [intros ((? & ? & ?) & _)|intros (? & ? & Hl)].
      * rewrite list_lookup_insert_ne by lia. done.
      * rewrite list_lookup_insert_ne in Hl by lia. done.
  - intros a i Ha. apply without_lookup in Ha as [Ha _]. by eapply T3.
Qed.

Lemma table_put arr M c a :
  table_is arr numSets assoc setf M -> 0 <= c < Z.of_nat (length arr) -> c / assoc = setf a -> is_line a -> M !! a = None ->
  table_is (<[Z.to_nat c := a]> arr) numSets assoc setf (<[a := c]> (without c M)).
Proof using Type. clear Hassoc Hsets Hsetf.
  intros [T1 T2 T3] Hc Hset Ha Hnew. split.
  - by rewrite length_insert.
  - by apply held_put.
  - intros b i Hb. apply lookup_insert_Some in Hb as [[<- <-]|[_ Hb]]; [done|]. apply without_lookup in Hb as [Hb _]. by eapply T3.
Qed.

Lemma table_empty x : ~ is_line x -> table_is (replicate (Z.to_nat (numSets * assoc)) x) numSets assoc setf ∅.
Proof using Hassoc Hsets.
  clear Hsetf. intros Hx. split; [rewrite length_replicate; nia| |].
  - intros a i. rewrite lookup_empty. split; [done|]. intros (Ha & _ & Hl). apply lookup_replicate in Hl as [-> _]. done.
  - intros a i. by rewrite lookup_empty.
Qed.
End Table.

Lemma line_word a : is_line a -> in_u 64 a.
Proof. unfold is_line, in_u. lia. Qed.

(** The set of an address in an array with the given number of sets. *)
Definition set_index {F} `{HashFamily F} (hf : F) (numSets a : Z) : Z := ret_or 0 (hash hf 0 a) mod numSets.

Lemma set_lines_ret {F} `{HashFamily F} (hf : F) numSets assoc a :
  (exists b, 0 <= b /\ numSets = 2 ^ b) -> 1 <= assoc -> numSets * assoc < 2 ^ 31 -> 0 < hash_funcs hf -> is_line a ->
  set_lines hf (numSets - 1) assoc a = Ret (set_ids assoc (set_index hf numSets) a).
Proof.
  intros (b & Hb & ->) Has Hsmall Hf Ha. unfold set_lines. destruct (hash_returns hf 0 a) as (h & Hh & Hr); [done|by apply line_word|].
  rewrite Hh. cbn [mbind outcome_bind]. unfold set_ids, set_index. rewrite Hh. cbn [ret_or]. rewrite Z.sub_1_r, <- Z.ones_equiv, Z.land_ones by done.
  pose proof (Z.mod_pos_bound h (2 ^ b) ltac:(lia)). rewrite (u32_small (h mod 2 ^ b)) by nia. by rewrite u32_small by nia.
Qed.

(** ** [SetAssocArray] keeps the contract *)

Section SetAssocTheory.
Context {P F : Type} `{ReplPolicy P} `{HashFamily F}.
Implicit Types s : SetAssocArray P F.

Abbreviation sa_index s := (set_index (sa_hf s) (sa_numSets s)).

Record sa_wf (r : bool) s : Prop := {
  sw_assoc : 1 <= sa_assoc s;
  sw_sets : exists b, 0 <= b /\ sa_numSets s = 2 ^ b;
  sw_mask : sa_setMask s = sa_numSets s - 1;
  sw_lines : sa_numLines s = sa_numSets s * sa_assoc s;
  sw_small : sa_numLines s < 2 ^ 31;
  sw_hash : 0 < hash_funcs (sa_hf s);
  sw_policy : rp_inv (Z.to_nat (sa_numLines s)) (Z.to_nat (sa_assoc s)) r (sa_rp s)
}.

Definition sa_table s (M : gmap Z Z) : Prop := table_is (sa_array s) (sa_numSets s) (sa_assoc s) (sa_index s) M.

Lemma sa_sets_pos r s : sa_wf r s -> 1 <= sa_numSets s.
Proof. intros W. destruct (sw_sets _ _ W) as (b & Hb & ->). pose proof (Z.pow_pos_nonneg 2 b). lia. Qed.

Lemma sa_index_range r s a : sa_wf r s -> 0 <= sa_index s a < sa_numSets s.
Proof. intros W. pose proof (sa_sets_pos _ _ W). apply Z.mod_pos_bound. lia. Qed.

Lemma sa_set_ret r s a : sa_wf r s -> is_line a -> sa_set s a = Ret (set_ids (sa_assoc s) (sa_index s) a).
Proof.
  intros [W1 W2 W3 W4 W5 W6 W7] Ha. unfold sa_set. rewrite W3. apply set_lines_ret; try done. lia.
Qed.

Lemma sa_ids_lines r s M a : sa_wf r s -> sa_table s M -> is_line a -> Forall (in_lines (Z.to_nat (sa_numLines s))) (set_ids (sa_assoc s) (sa_index s) a).
Proof.
  intros W T Ha. pose proof (sa_sets_pos _ _ W). pose proof (sw_assoc _ _ W). eapply Forall_impl.
  - apply (set_ids_range (sa_numSets s) (sa_assoc s) (sa_index s) ltac:(done)) with (M := M); [intros; by eapply sa_index_range|exact T|done].
  - intros i Hi. unfold in_lines. rewrite (ti_length _ _ _ _ _ T), <- (sw_lines _ _ W) in Hi. lia.
Qed.

Lemma sa_wf_put r r' s arr rp : sa_wf r s -> rp_inv (Z.to_nat (sa_numLines s)) (Z.to_nat (sa_assoc s)) r' rp -> sa_wf r' (sa_put s arr rp).
Proof. intros [W1 W2 W3 W4 W5 W6 W7] Hrp. split; simpl; done. Qed.

Lemma sa_lookup_ok r s M a upd :
  sa_wf r s -> sa_table s M -> is_line a -> exists s', sa_lookup s a upd = Ret (default (-1) (M !! a), s') /\ sa_wf r s' /\ sa_table s' M /\ sa_numLines s' = sa_numLines s /\
    sa_array s' = sa_array s /\ sa_assoc s' = sa_assoc s /\ forall b, sa_index s' b = sa_index s b.
Proof.
  intros W T Ha. unfold sa_lookup. rewrite (sa_set_ret r) by done. cbn [mbind outcome_bind].
  rewrite (find_line_table (sa_numSets s) (sa_assoc s) (sa_index s) (sw_assoc _ _ W) ltac:(intros; by eapply sa_index_range) _ M a T Ha). cbn [mbind outcome_bind].
  destruct (M !! a) as [i|] eqn:Hm; simpl; [|exists s; done]. destruct upd; [|exists s; done].
  destruct (update_ok _ _ r (sa_rp s) i (sw_policy _ _ W)) as (rp & -> & Hrp).
  - apply (ti_map _ _ _ _ _ T) in Hm as (_ & Hi & Hl). apply lookup_lt_Some in Hl. pose proof (ti_length _ _ _ _ _ T). rewrite <- (sw_lines _ _ W) in *. lia.
  - cbn [mbind outcome_bind]. eexists. split; [done|]. split; [by apply (sa_wf_put r)|]. done.
Qed.

Definition sa_pending s M (a c : Z) : Prop :=
  sa_wf true s /\ sa_table s M /\ is_line a /\ M !! a = None /\ 0 <= c < sa_numLines s /\ c / sa_assoc s = sa_index s a.

Lemma sa_preinsert_ok cc s M a :
  sa_wf false s -> sa_table s M -> is_line a -> M !! a = None ->
  exists c wb s', sa_preinsert cc s a = Ret (c, wb, s') /\ sa_pending s' M a c /\ 0 <= c < sa_numLines s /\ sa_numLines s' = sa_numLines s /\ forall b, M !! b = Some c <-> b = wb /\ is_line b.
Proof.
  intros W T Ha Hm. unfold sa_preinsert. rewrite (sa_set_ret false) by done. cbn [mbind outcome_bind]. pose proof (sw_assoc _ _ W) as Has. pose proof (sa_ids_lines _ _ _ _ W T Ha) as Hids.
  assert (Hlen : length (set_ids (sa_assoc s) (sa_index s) a) = Z.to_nat (sa_assoc s)) by (unfold set_ids; by rewrite length_seqZ).
  destruct (rank_ok _ _ cc _ (set_ids (sa_assoc s) (sa_index s) a) (sw_policy _ _ W)) as (c & rp & -> & Hc & Hrp); [|done|lia|done|].
  { intros E. rewrite E in Hlen. simpl in Hlen. lia. }
  cbn [mbind outcome_bind]. rewrite Forall_forall in Hids. pose proof (Hids c Hc) as Hcr. unfold in_lines in Hcr. pose proof (ti_length _ _ _ _ _ T) as Hl. rewrite <- (sw_lines _ _ W) in Hl.
  destruct (at_in_range (sa_array s) c ltac:(lia)) as [wb Hwb]. rewrite Hwb. apply at_ret_iff in Hwb as [_ Hwb]. cbn [mbind outcome_bind].
  apply (set_ids_spec (sa_assoc s) (sa_index s) Has) in Hc. eexists c, wb, _. split; [done|]. split; [|split; [lia|split; [done|by eapply table_wb; [exact T|lia|]]]].
  split; [by apply (sa_wf_put false)|]. split; [exact T|]. split_and!; try done; simpl; lia.
Qed.

Lemma sa_postinsert_ok s M a c : sa_pending s M a c -> exists s', sa_postinsert s a c = Ret s' /\ sa_wf false s' /\ sa_table s' (<[a := c]> (without c M)) /\ sa_numLines s' = sa_numLines s.
Proof.
  intros (W & T & Ha & Hm & Hc & Hset). unfold sa_postinsert. pose proof (ti_length _ _ _ _ _ T) as Hl. rewrite <- (sw_lines _ _ W) in Hl.
  destruct (replaced_ok _ _ _ _ c (sw_policy _ _ W) ltac:(lia)) as (rp & -> & Hrp). cbn [mbind outcome_bind]. rewrite set_at_ret by lia. cbn [mbind outcome_bind].
  destruct (update_ok _ _ _ _ c Hrp ltac:(lia)) as (rp' & -> & Hrp'). cbn [mbind outcome_bind]. eexists. split; [done|]. split; [by apply (sa_wf_put true)|]. split; [|done].
  apply (table_put _ _ _ (sa_array s)); try done. lia.
Qed.

(** [clear] removes a line. *)
Lemma sa_clear_ok s M c : sa_wf false s -> sa_table s M -> 0 <= c < sa_numLines s -> exists s', sa_clear s c = Ret s' /\ sa_wf false s' /\ sa_table s' (without c M).
Proof.
  intros W T Hc. unfold sa_clear. pose proof (ti_length _ _ _ _ _ T) as Hl. rewrite <- (sw_lines _ _ W) in Hl.
  destruct (replaced_ok _ _ _ _ c (sw_policy _ _ W) ltac:(lia)) as (rp & -> & Hrp). cbn [mbind outcome_bind]. rewrite set_at_ret by lia. cbn [mbind outcome_bind]. eexists. split; [done|].
  split; [by apply (sa_wf_put false)|]. apply (table_clear _ _ _ (sa_array s)); [done|lia|unfold is_line; lia].
Qed.

#[export] Instance set_assoc_array : CacheArray (SetAssocArray P F).
Proof.
  refine {| ca_lookup := sa_lookup; ca_preinsert := sa_preinsert; ca_postinsert := sa_postinsert; ca_is := fun s M => sa_wf false s /\ sa_table s M;
            ca_pending := sa_pending; ca_lines := sa_numLines |}.
  - intros s M a upd [W T] Ha. destruct (sa_lookup_ok false s M a upd W T Ha) as (s' & E & W' & T' & Hn & _). by exists s'.
  - intros cc s M a [W T] Ha Hm. by apply sa_preinsert_ok.
  - intros s M a c b upd (W & T & Ha & Hm & Hc & Hset) Hb. destruct (sa_lookup_ok true s M b upd W T Hb) as (s' & E & W' & T' & Hn & _ & Has & Hi). exists s'. split; [done|].
    split; [|done]. unfold sa_pending. rewrite Hn, Has, Hi. done.
  - intros s M a c Hp. destruct (sa_postinsert_ok s M a c Hp) as (s' & E & W' & T' & Hn). by exists s'.
  - intros s M a c [W T] Hm. apply (ti_map _ _ _ _ _ T) in Hm as (Ha & Hc & Hl). split; [done|]. split; [done|]. apply lookup_lt_Some in Hl. pose proof (ti_length _ _ _ _ _ T). rewrite (sw_lines _ _ W). lia.
Defined.

Lemma newSetAssoc_ok numLines assoc rp (hf : F) s :
  newSetAssoc numLines assoc rp hf = Ret s -> 1 <= assoc -> 0 <= numLines < 2 ^ 31 -> numLines mod assoc = 0 -> 0 < hash_funcs hf ->
  rp_inv (Z.to_nat numLines) (Z.to_nat assoc) false rp -> ca_is s ∅.
Proof.
  intros E Has Hn Hm Hh Hrp. unfold newSetAssoc in E. rewrite (proj2 (Z.eqb_neq assoc 0)) in E by lia. apply bind_ret_inv in E as (u & Hp & E). injection E as <-.
  apply assert_ret_inv in Hp. pose proof (Z.div_mod numLines assoc ltac:(lia)) as Hd. rewrite Hm in Hd. pose proof (Z.div_pos numLines assoc ltac:(lia) ltac:(lia)).
  assert (numLines / assoc < 2 ^ 32) by nia. apply isPow2_spec in Hp as (b & Hb & Hs); [|lia|split; lia]. pose proof (Z.pow_pos_nonneg 2 b). split.
  - split; simpl; first [done|by exists b|rewrite u32_small; lia|lia].
  - unfold sa_table. simpl. replace numLines with (numLines / assoc * assoc) at 1 by lia. apply table_empty; [lia|lia|unfold is_line; lia].
Qed.
End SetAssocTheory.

(** ** Histories of accesses, for any array *)

(** A request: an address, whether it updates the replacement policy, what the coherence
    controller says at the time and the lines invalidated by the eviction. *)
Record array_req : Type := mkArrayReq { ar_line : Z; ar_update : bool; ar_cc : cc_view; ar_invs : list Z }.

(** The lines held after a history of answers, the latest first: a line number holds the
    line it was last given to. *)
Fixpoint holds (tr : list (Z * Z)) : gmap Z Z :=
  match tr with
  | [] => ∅
  | (a, c) :: tr => <[a := c]> (without c (holds tr))
  end.

Definition injective (M : gmap Z Z) : Prop := forall a b c, M !! a = Some c -> M !! b = Some c -> a = b.

Lemma without_injective M a c : injective M -> injective (<[a := c]> (without c M)).
Proof.
  intros Hi x y d Hx Hy. apply lookup_insert_Some in Hx as [[? ?]|[? Hx]]; apply lookup_insert_Some in Hy as [[? ?]|[? Hy]]; subst; [done| | |].
  - by apply without_lookup in Hy as [_ Hy].
  - by apply without_lookup in Hx as [_ Hx].
  - apply without_lookup in Hx as [Hx _]. apply without_lookup in Hy as [Hy _]. by eapply Hi.
Qed.

Lemma holds_injective tr : injective (holds tr).
Proof. induction tr as [|[a c] tr IH]; [intros a b c; simpl; by rewrite lookup_empty|]. simpl. by apply without_injective. Qed.

Lemma hit_same M a c : injective M -> M !! a = Some c -> <[a := c]> (without c M) = M.
Proof.
  intros Hi Ha. apply map_eq. intros b. destruct (decide (b = a)) as [->|Hb]; [by rewrite lookup_insert_eq|]. rewrite lookup_insert_ne by done.
  destruct (M !! b) as [d|] eqn:Hm; [|by apply without_none]. apply without_lookup. split; [done|]. intros ->. by destruct Hb; eapply Hi.
Qed.

Section Client.
Context {S : Type} `{CacheArray S}.
Implicit Types s : S.

Definition cache_run (rs : list array_req) s : outcome (list (Z * Z) * S) :=
  fold_ (fun '(tr, s) r => ('(c, s) ← cache_access (ar_cc r) s (ar_line r) (ar_update r) (ar_invs r); Ret ((ar_line r, c) :: tr, s))) rs ([], s).

Lemma cache_access_ok cc s M a upd invs :
  ca_is s M -> injective M -> is_line a -> Forall is_line invs ->
  exists c s', cache_access cc s a upd invs = Ret (c, s') /\ ca_is s' (<[a := c]> (without c M)) /\ ca_lines s' = ca_lines s /\ 0 <= c < ca_lines s /\ (forall i, M !! a = Some i -> c = i).
Proof.
  intros Hs Hi Ha Hinv. unfold cache_access. destruct (lookup_ok s M a upd Hs Ha) as (s1 & -> & Hs1 & Hl1). cbn [mbind outcome_bind]. destruct (M !! a) as [i|] eqn:Hm.
  - destruct (ca_range s M a i Hs Hm) as [_ Hr]. simpl. rewrite (proj2 (Z.eqb_neq i (-1))) by lia. exists i, s1. rewrite hit_same by done. split_and!; try done; [lia|lia|congruence].
  - simpl. destruct (preinsert_ok cc s1 M a Hs1 Ha Hm) as (c & wb & s2 & -> & Hp & Hc & Hl2 & _). cbn [mbind outcome_bind].
    destruct (fold_total (fun s b => ('(_, s) ← ca_lookup s b false; Ret s)) (fun s => ca_pending s M a c /\ ca_lines s = ca_lines s2) invs s2) as (s3 & -> & Hp3 & Hl3).
    { intros b s' Hb [Hp' Hl']. rewrite Forall_forall in Hinv. destruct (pending_lookup s' M a c b false Hp' (Hinv b Hb)) as (s'' & -> & Hp'' & Hl''). exists s''. split; [done|].
      split; [done|]. congruence. }
    { done. }
    cbn [mbind outcome_bind]. destruct (postinsert_ok s3 M a c Hp3) as (s4 & -> & Hs4 & Hl4). cbn [mbind outcome_bind]. exists c, s4. split_and!; try done; try congruence; lia.
Qed.

(** Every access of a history returns; the array holds for each number the line it was
    last given to; a line that is held is found under its number. *)
Lemma cache_run_ok rs s :
  ca_is s ∅ -> Forall (fun r => is_line (ar_line r) /\ Forall is_line (ar_invs r)) rs ->
  exists tr s', cache_run rs s = Ret (tr, s') /\ tr.*1 = rev (ar_line <$> rs) /\ ca_is s' (holds tr) /\ ca_lines s' = ca_lines s /\
    (forall l1 a c l2, tr = l1 ++ (a, c) :: l2 -> 0 <= c < ca_lines s /\ forall i, holds l2 !! a = Some i -> c = i).
Proof.
  intros Hs Hrs. unfold cache_run.
  assert (Hgen : forall tr s0, ca_is s0 (holds tr) -> ca_lines s0 = ca_lines s -> (forall l1 a c l2, tr = l1 ++ (a, c) :: l2 -> 0 <= c < ca_lines s /\ forall i, holds l2 !! a = Some i -> c = i) ->
    exists tr' s', fold_ (fun '(tr, s) r => ('(c, s) ← cache_access (ar_cc r) s (ar_line r) (ar_update r) (ar_invs r); Ret ((ar_line r, c) :: tr, s))) rs (tr, s0) = Ret (tr', s') /\
      tr'.*1 = rev (ar_line <$> rs) ++ tr.*1 /\ ca_is s' (holds tr') /\ ca_lines s' = ca_lines s /\
      (forall l1 a c l2, tr' = l1 ++ (a, c) :: l2 -> 0 <= c < ca_lines s /\ forall i, holds l2 !! a = Some i -> c = i)).
  { induction Hrs as [|r rs [Hr1 Hr2] Hrs IH]; intros tr s0 Hs0 Hl0 Htr; cbn [fold_]; [by exists tr, s0|].
    destruct (cache_access_ok (ar_cc r) s0 (holds tr) (ar_line r) (ar_update r) (ar_invs r) Hs0 (holds_injective tr) Hr1 Hr2) as (c & s1 & -> & Hs1 & Hl1 & Hc & Hhit).
    cbn [mbind outcome_bind]. destruct (IH ((ar_line r, c) :: tr) s1 Hs1) as (tr' & s' & E & H1 & H2 & H3 & H4); [congruence| |].
    - intros l1 b d l2 Hl. destruct l1 as [|x l1]; simpl in Hl; [|injection Hl as _ Hl; by eapply Htr]. injection Hl as <- <- <-. split; [lia|done].
    - exists tr', s'. split; [done|]. split; [|done]. rewrite H1. simpl. by rewrite <- app_assoc. }
  destruct (Hgen [] s Hs eq_refl) as (tr & s' & E & H1 & H2); [by intros [|??]|]. exists tr, s'. split; [done|]. split; [|done]. by rewrite H1, app_nil_r.
Qed.
End Client.

(** C25: A set-associative array from the constructor, with any replacement policy and any
    hash family, implements the contract of cache arrays over every history of
    accesses: every access returns a number within the array; a line that is held
    is found under its number, others are not found; a line is held as long as
    its number was not given to another line; and no two lines have the same
    number. *)
Theorem set_assoc_history {P F} `{ReplPolicy P} `{HashFamily F} numLines assoc (rp : P) (hf : F) s rs :
  newSetAssoc numLines assoc rp hf = Ret s -> 1 <= assoc -> 0 <= numLines < 2 ^ 31 -> numLines mod assoc = 0 -> 0 < hash_funcs hf ->
  rp_inv (Z.to_nat numLines) (Z.to_nat assoc) false rp -> Forall (fun r => is_line (ar_line r) /\ Forall is_line (ar_invs r)) rs ->
  exists tr s', cache_run rs s = Ret (tr, s') /\ tr.*1 = rev (ar_line <$> rs) /\
    (forall l1 a c l2, tr = l1 ++ (a, c) :: l2 -> 0 <= c < numLines /\ forall i, holds l2 !! a = Some i -> c = i) /\
    (forall a, is_line a -> fst <$> sa_lookup s' a false = Ret (default (-1) (holds tr !! a))) /\ injective (holds tr).
Proof.
  intros E Has Hn Hm Hh Hrp Hrs. pose proof (newSetAssoc_ok numLines assoc rp hf s E Has Hn Hm Hh Hrp) as Hs.
  destruct (cache_run_ok rs s Hs Hrs) as (tr & s' & Er & H1 & Hs' & Hl & H2). exists tr, s'.
  assert (ca_lines s = numLines) as Hlines by (unfold newSetAssoc in E; rewrite (proj2 (Z.eqb_neq assoc 0)) in E by lia; apply bind_ret_inv in E as (u & _ & E); by injection E as <-).
  rewrite Hlines in H2. split_and!; try done; [|apply holds_injective]. intros a Ha. destruct (lookup_ok s' (holds tr) a false Hs' Ha) as (s'' & E' & _). simpl in E'. by rewrite E'.
Qed.

(** Eight lines in two sets; the requests use one set more than it has lines. *)
Definition demo_array : SetAssocArray LRUReplPolicy IdHashFamily :=
  ret_or (mkSetAssoc [] (newLRU false 0) mkId 0 0 0 0) (newSetAssoc 8 4 (newLRU false 8) mkId).
Definition demo_array_req (a : Z) : array_req := mkArrayReq a true (mkCC (fun _ => true) (fun _ => 0)) [2; 3].

Lemma set_assoc_history_witness :
  exists tr s', cache_run (demo_array_req <$> [2; 4; 6; 8; 2; 10; 4; 3]) demo_array = Ret (tr, s') /\ fst <$> sa_lookup s' 2 false = Ret (default (-1) (holds tr !! 2)).
Proof.
  destruct (set_assoc_history 8 4 (newLRU false 8) mkId demo_array (demo_array_req <$> [2; 4; 6; 8; 2; 10; 4; 3])) as (tr & s' & E & _ & _ & Hl & _).
  - vm_compute. reflexivity.
  - lia.
  - lia.
  - reflexivity.
  - simpl. lia.
  - reflexivity.
  - repeat constructor; unfold is_line; simpl; lia.
  - exists tr, s'. split; [exact E|]. apply Hl. unfold is_line. lia.
Defined.

(** The address 0 marks lines that were never filled, so a lookup of it in a new array
    hits. *)
Lemma zero_line_hits : fst <$> sa_lookup demo_array 0 false = Ret 0.
Proof. vm_compute. reflexivity. Qed.

(** ** [CDSetAssocArray] *)

(** An insertion takes a free line of the set; when the set has none, the assert fails: the
    directory must be large enough for the lines of the caches above it. *)
Lemma cd_preinsert_cases {F} `{HashFamily F} (s : CDSetAssocArray F) a :
  (exists b, 0 <= b /\ cd_numSets s = 2 ^ b) -> cd_setMask s = cd_numSets s - 1 -> 1 <= cd_assoc s -> cd_numSets s * cd_assoc s < 2 ^ 31 ->
  Z.of_nat (length (cd_array s)) = cd_numSets s * cd_assoc s -> 0 < hash_funcs (cd_hf s) -> is_line a ->
  let ids := set_ids (cd_assoc s) (set_index (cd_hf s) (cd_numSets s)) a in
  (exists c, cd_preinsert s a = Ret (c, 2 ^ 64 - 1) /\ c ∈ ids /\ cd_array s !! Z.to_nat c = Some (2 ^ 64 - 1)) \/
  (cd_preinsert s a = Stop AssertFailed /\ forall c, c ∈ ids -> cd_array s !! Z.to_nat c <> Some (2 ^ 64 - 1)).
Proof.
  intros Hsets Hmask Has Hsmall Hlen Hf Ha ids. unfold cd_preinsert, cd_set. rewrite Hmask, set_lines_ret by done. cbn [mbind outcome_bind]. fold ids.
  assert (Hids : Forall (fun i => 0 <= i < Z.of_nat (length (cd_array s))) ids).
  { destruct Hsets as (b & Hb & Hs). pose proof (Z.pow_pos_nonneg 2 b). apply Forall_forall. intros i Hi. apply elem_of_seqZ in Hi. unfold set_index in Hi.
    pose proof (Z.mod_pos_bound (ret_or 0 (hash (cd_hf s) 0 a)) (cd_numSets s) ltac:(lia)). nia. }
  destruct (find_line_ret (cd_array s) (2 ^ 64 - 1) ids Hids) as (r & -> & Hr). cbn [mbind outcome_bind]. destruct r as [c|]; [left|by right].
  destruct Hr as [Hc Hl]. rewrite Forall_forall in Hids. exists c. by rewrite (at_ret _ _ (2 ^ 64 - 1)) by (done || by apply Hids).
Qed.
