(* ===== verification/ZArray.v ===== *)
(** * The Z array

    [ZArray] of src/src/cache_arrays.h, cache_arrays.cpp: a cache array in which a line
    can be in one position of every way.  A replacement walks breadth first over
    the lines that could move, lets the policy choose one of them and moves the
    lines on the path to it, through a table from positions to line numbers.  The
    theorems show that this is a cache array, that the walk ends, that its path
    fits the array of swaps and that it has no loop. *)

From S2P Require Import Prelude Bits Hash Repl CacheArray.

Record ZWalkInfo : Type := mkWalk { zw_pos : Z; zw_lineId : Z; parentIdx : Z }.

Record ZArray (P F : Type) : Type := mkZ {
  z_array : list Z;
  lookupArray : list Z;
  z_rp : P;
  z_hf : F;
  z_numLines : Z;
  z_numSets : Z;
  z_ways : Z;
  z_cands : Z;
  z_setMask : Z;
  swapArray : list Z;
  swapArrayLen : Z;
  lastCandIdx : Z
}.
Arguments mkZ {P F}.
Arguments z_array {P F}.
Arguments lookupArray {P F}.
Arguments z_rp {P F}.
Arguments z_hf {P F}.
Arguments z_numLines {P F}.
Arguments z_numSets {P F}.
Arguments z_ways {P F}.
Arguments z_cands {P F}.
Arguments z_setMask {P F}.
Arguments swapArray {P F}.
Arguments swapArrayLen {P F}.
Arguments lastCandIdx {P F}.

Section ZArray.
Context {P F : Type} `{ReplPolicy P} `{HashFamily F}.
Implicit Types s : ZArray P F.

Definition newZArray (numLines ways cands : Z) (rp : P) (hf : F) : outcome (ZArray P F) :=
  _ ← assert_ (1 <? ways);
  _ ← assert_ (ways <=? cands);
  _ ← assert_ (numLines mod ways =? 0);
  let numSets := numLines / ways in
  _ ← assert_ (isPow2 32 numSets);
  Ret (mkZ (replicate (Z.to_nat numLines) 0) (seqZ 0 numLines) rp hf numLines numSets ways cands (u32 (numSets - 1))
    (replicate (Z.to_nat (cands / ways + 2)) 0) 0 0).

Definition z_put s (array table : list Z) (rp : P) : ZArray P F :=
  mkZ array table rp (z_hf s) (z_numLines s) (z_numSets s) (z_ways s) (z_cands s) (z_setMask s) (swapArray s) (swapArrayLen s) (lastCandIdx s).
Definition z_swap s (rp : P) (swaps : list Z) (len last : Z) : ZArray P F :=
  mkZ (z_array s) (lookupArray s) rp (z_hf s) (z_numLines s) (z_numSets s) (z_ways s) (z_cands s) (z_setMask s) swaps len last.

(** The position of an address in way [w] and the line number there. *)
Definition z_pos s (w lineAddr : Z) : outcome Z := h ← hash (z_hf s) w lineAddr; Ret (u32 (w * z_numSets s + Z.land h (z_setMask s))).
Definition z_at s (w lineAddr : Z) : outcome (Z * Z) := pos ← z_pos s w lineAddr; lineId ← at_ (lookupArray s) pos; Ret (pos, lineId).

(** ** [lookup] *)

Fixpoint z_find s (lineAddr : Z) (ws : list Z) : outcome (option Z) :=
  match ws with
  | [] => Ret None
  | w :: ws =>
      '(_, lineId) ← z_at s w lineAddr;
      x ← at_ (z_array s) lineId;
      if x =? lineAddr then Ret (Some lineId) else z_find s lineAddr ws
  end.

Definition z_lookup s (lineAddr : Z) (updateReplacement : bool) : outcome (Z * ZArray P F) :=
  if lineAddr =? 0 then Stop Panicked else
  r ← z_find s lineAddr (seqZ 0 (z_ways s));
  match r with
  | None => Ret (-1, s)
  | Some lineId =>
      if updateReplacement then rp ← rp_update (z_rp s) lineId; Ret (lineId, z_put s (z_array s) (lookupArray s) rp) else Ret (lineId, s)
  end.

(** ** [preinsert] *)

Definition z_seed s (lineAddr : Z) (st : list ZWalkInfo * bool) (w : Z) : outcome (list ZWalkInfo * bool) :=
  '(pos, lineId) ← z_at s w lineAddr;
  x ← at_ (z_array s) lineId;
  Ret (st.1 ++ [mkWalk pos lineId (-1)], st.2 && negb (x =? 0)).

(** One turn of the inner loop.  A candidate that is the fringe line itself is
    written and then overwritten; the list has the candidates that stay. *)
Definition z_child s (fringeStart fringeId fringeAddr : Z) (st : list ZWalkInfo * bool) (w : Z) : outcome (list ZWalkInfo * bool) :=
  '(pos, lineId) ← z_at s w fringeAddr;
  if z_cands s + z_ways s <=? Z.of_nat (length st.1) then Stop OutOfRange else
  x ← at_ (z_array s) lineId;
  Ret (if lineId =? fringeId then st.1 else st.1 ++ [mkWalk pos lineId fringeStart], st.2 && negb (x =? 0)).

Fixpoint z_walk s (fuel : nat) (cs : list ZWalkInfo) (all_valid : bool) (fringeStart : Z) : outcome (list ZWalkInfo * bool) :=
  match fuel with
  | O => Stop OutOfFuel
  | S fuel =>
      if (Z.of_nat (length cs) <? z_cands s) && all_valid then
        f ← at_ cs fringeStart;
        let fringeId := zw_lineId f in
        fringeAddr ← at_ (z_array s) fringeId;
        _ ← assert_ (negb (fringeAddr =? 0));
        '(cs, all_valid) ← fold_ (z_child s fringeStart fringeId fringeAddr) (seqZ 0 (z_ways s)) (cs, all_valid);
        z_walk s fuel cs all_valid (fringeStart + 1)
      else Ret (cs, all_valid)
  end.

(** The index of the first candidate that is the line. *)
Fixpoint z_index (best : Z) (cs : list ZWalkInfo) (ii : Z) : Z :=
  match cs with
  | [] => -1
  | c :: cs => if zw_lineId c =? best then ii else z_index best cs (ii + 1)
  end.

(** The positions on the path from candidate [idx] to a seed are stored. *)
Fixpoint z_swaps (fuel : nat) (cs : list ZWalkInfo) (idx : Z) (swaps : list Z) (swapIdx : Z) : outcome (list Z * Z) :=
  if idx <? 0 then Ret (swaps, swapIdx) else
  match fuel with
  | O => Stop OutOfFuel
  | S fuel =>
      c ← at_ cs idx;
      swaps ← set_at swaps swapIdx (zw_pos c);
      z_swaps fuel cs (parentIdx c) swaps (swapIdx + 1)
  end.

Definition z_preinsert (cc : cc_view) s (lineAddr : Z) : outcome (Z * Z * ZArray P F) :=
  '(cs, all_valid) ← fold_ (z_seed s lineAddr) (seqZ 0 (z_ways s)) ([], true);
  '(cs, all_valid) ← z_walk s (Z.to_nat (z_cands s)) cs all_valid 0;
  _ ← assert_ (negb all_valid || (z_cands s <=? Z.of_nat (length cs)));
  let cs := take (Z.to_nat (z_cands s)) cs in
  '(bestCandidate, rp) ← rp_rank cc (z_rp s) (zw_lineId <$> cs);
  _ ← assert_ (bestCandidate <? z_numLines s);
  let minIdx := z_index bestCandidate cs 0 in
  '(swaps, len) ← z_swaps (length cs) cs minIdx (swapArray s) 0;
  _ ← assert_ (0 <? len);
  wbLineAddr ← at_ (z_array s) bestCandidate;
  Ret (bestCandidate, wbLineAddr, z_swap s rp swaps len minIdx).

(** ** [postinsert] *)

Definition z_move (swaps : list Z) (table : list Z) (i : Z) : outcome (list Z) :=
  p ← at_ swaps i; q ← at_ swaps (i + 1); v ← at_ table q; set_at table p v.

Definition z_postinsert s (lineAddr candidate : Z) : outcome (ZArray P F) :=
  p0 ← at_ (swapArray s) 0;
  c0 ← at_ (lookupArray s) p0;
  _ ← assert_ (c0 =? candidate);
  table ← fold_ (z_move (swapArray s)) (seqZ 0 (swapArrayLen s - 1)) (lookupArray s);
  pk ← at_ (swapArray s) (swapArrayLen s - 1);
  table ← set_at table pk candidate;
  rp ← rp_replaced (z_rp s) candidate;
  array ← set_at (z_array s) candidate lineAddr;
  rp ← rp_update rp candidate;
  Ret (z_put s array table rp).
End ZArray.

(** ** Well-formed arrays *)

Section Theory.
Context {P F : Type} `{ReplPolicy P} `{HashFamily F}.
Implicit Types s : ZArray P F.

(** The position of [a] in way [w]. *)
Definition home s (w a : Z) : Z := w * z_numSets s + ret_or 0 (hash (z_hf s) w a) mod z_numSets s.

Record z_wf (r : bool) s : Prop := {
  zg_ways : 2 <= z_ways s;
  zg_cands : z_ways s <= z_cands s < 2 ^ 30;
  zg_sets : exists b, 0 <= b /\ z_numSets s = 2 ^ b;
  zg_mask : z_setMask s = z_numSets s - 1;
  zg_lines : z_numLines s = z_ways s * z_numSets s;
  zg_small : z_numLines s < 2 ^ 31;
  zg_hash : z_ways s <= hash_funcs (z_hf s);
  zg_array : Z.of_nat (length (z_array s)) = z_numLines s;
  zg_table : Z.of_nat (length (lookupArray s)) = z_numLines s;
  zg_swaps : Z.of_nat (length (swapArray s)) = z_cands s / z_ways s + 2;
  zg_nodup : NoDup (lookupArray s);
  zg_range : Forall (in_lines (Z.to_nat (z_numLines s))) (lookupArray s);
  zg_exact : rp_exact = false;
  zg_policy : rp_inv (Z.to_nat (z_numLines s)) (Z.to_nat (z_cands s)) r (z_rp s)
}.

(** The lines of [M] are in the array, each at one of its positions in the table. *)
Record z_holds s (array table : list Z) (M : gmap Z Z) : Prop := {
  zh_map : forall a i, M !! a = Some i <-> is_line a /\ 0 <= i /\ array !! Z.to_nat i = Some a;
  zh_lines : forall (i : nat) a, array !! i = Some a -> a <> 0 -> is_line a;
  zh_home : forall a i, M !! a = Some i -> exists w, 0 <= w < z_ways s /\ table !! Z.to_nat (home s w a) = Some i
}.

Lemma z_sets_pos r s : z_wf r s -> 1 <= z_numSets s.
Proof. intros W. destruct (zg_sets _ _ W) as (b & Hb & ->). pose proof (Z.pow_pos_nonneg 2 b). lia. Qed.

Lemma home_way r s w a : z_wf r s -> home s w a / z_numSets s = w.
Proof.
  intros W. pose proof (z_sets_pos _ _ W). unfold home. rewrite Z.add_comm, Z_div_plus_full, Z.div_small by (try lia; apply Z.mod_pos_bound; lia). lia.
Qed.

Lemma home_range r s w a : z_wf r s -> 0 <= w < z_ways s -> 0 <= home s w a < z_numLines s.
Proof.
  intros W Hw. pose proof (z_sets_pos _ _ W). rewrite (zg_lines _ _ W). unfold home. pose proof (Z.mod_pos_bound (ret_or 0 (hash (z_hf s) w a)) (z_numSets s) ltac:(lia)). nia.
Qed.

Lemma z_at_ret r s w a :
  z_wf r s -> 0 <= w < z_ways s -> is_line a -> exists i, z_at s w a = Ret (home s w a, i) /\ lookupArray s !! Z.to_nat (home s w a) = Some i /\ in_lines (Z.to_nat (z_numLines s)) i.
Proof.
  intros W Hw Ha. pose proof (home_range r s w a W Hw) as Hh. unfold z_at, z_pos. pose proof (zg_hash _ _ W).
  destruct (hash_returns (z_hf s) w a) as (h & Eh & Hr); [lia|by apply line_word|]. rewrite Eh. cbn [mbind outcome_bind]. rewrite (zg_mask _ _ W).
  assert (Z.land h (z_numSets s - 1) = h mod z_numSets s) as ->.
  { destruct (zg_sets _ _ W) as (b & Hb & ->). by rewrite Z.sub_1_r, <- Z.ones_equiv, Z.land_ones. }
  assert (w * z_numSets s + h mod z_numSets s = home s w a) as -> by (unfold home; by rewrite Eh). pose proof (zg_small _ _ W). rewrite u32_small by lia.
  destruct (lookup_lt_is_Some_2 (lookupArray s) (Z.to_nat (home s w a))) as [i Hi]; [pose proof (zg_table _ _ W); lia|].
  rewrite (at_ret _ _ i) by (done || lia). exists i. split_and!; [done|done|]. by eapply Forall_lookup_1 in Hi; [|apply (zg_range _ _ W)].
Qed.

Lemma z_line_at r s i : z_wf r s -> in_lines (Z.to_nat (z_numLines s)) i -> exists x, at_ (z_array s) i = Ret x /\ z_array s !! Z.to_nat i = Some x.
Proof.
  intros W Hi. unfold in_lines in Hi. pose proof (zg_array _ _ W). destruct (at_in_range (z_array s) i ltac:(lia)) as [x Hx]. exists x. split; [done|]. by apply at_ret_iff in Hx as [_ Hx].
Qed.

(** *** Lookup *)

Lemma z_find_ok r s M a ws :
  z_wf r s -> z_holds s (z_array s) (lookupArray s) M -> is_line a -> Forall (fun w => 0 <= w < z_ways s) ws ->
  exists x, z_find s a ws = Ret x /\ match x with Some i => M !! a = Some i | None => forall w, w ∈ ws -> forall i, lookupArray s !! Z.to_nat (home s w a) = Some i -> M !! a <> Some i end.
Proof.
  intros W T Ha. induction 1 as [|w ws Hw Hws IH]; cbn [z_find]; [exists None; split; [done|]; set_solver|].
  destruct (z_at_ret r s w a W Hw Ha) as (i & -> & Hi & Hr). cbn [mbind outcome_bind]. destruct (z_line_at r s i W Hr) as (x & -> & Hx). cbn [mbind outcome_bind].
  destruct (x =? a) eqn:Hxa; zb.
  - exists (Some i). split; [done|]. apply (zh_map _ _ _ _ T). subst. split_and!; [done|apply Hr|done].
  - destruct IH as (y & -> & Hy). exists y. split; [done|]. destruct y; [done|]. intros w' Hw' j Hj. apply elem_of_cons in Hw' as [->|Hw']; [|by eapply Hy].
    rewrite Hi in Hj. injection Hj as <-. intros Hm. apply (zh_map _ _ _ _ T) in Hm as (_ & _ & Hm). congruence.
Qed.

Lemma ways_list s : Forall (fun w => 0 <= w < z_ways s) (seqZ 0 (z_ways s)).
Proof. apply Forall_forall. intros w Hw. apply elem_of_seqZ in Hw. lia. Qed.

Lemma z_lookup_ok r s M a upd :
  z_wf r s -> z_holds s (z_array s) (lookupArray s) M -> is_line a ->
  exists rp, z_lookup s a upd = Ret (default (-1) (M !! a), z_put s (z_array s) (lookupArray s) rp) /\ rp_inv (Z.to_nat (z_numLines s)) (Z.to_nat (z_cands s)) r rp.
Proof.
  intros W T Ha. unfold z_lookup. rewrite (proj2 (Z.eqb_neq a 0)) by (unfold is_line in Ha; lia). assert (Hsame : z_put s (z_array s) (lookupArray s) (z_rp s) = s) by (by destruct s).
  destruct (z_find_ok r s M a _ W T Ha (ways_list s)) as (x & -> & Hx). cbn [mbind outcome_bind]. destruct x as [i|].
  - rewrite Hx. simpl. destruct upd; [|exists (z_rp s); rewrite Hsame; split; [done|apply (zg_policy _ _ W)]].
    destruct (update_ok _ _ _ _ i (zg_policy _ _ W)) as (rp & -> & Hrp); [|by exists rp]. apply (zh_map _ _ _ _ T) in Hx as (_ & Hi & Hl). apply lookup_lt_Some in Hl. pose proof (zg_array _ _ W). lia.
  - destruct (M !! a) as [i|] eqn:Hm; [|exists (z_rp s); rewrite Hsame; split; [done|apply (zg_policy _ _ W)]].
    destruct (zh_home _ _ _ _ T a i Hm) as (w & Hw & Hl). destruct (Hx w ltac:(apply elem_of_seqZ; lia) i Hl eq_refl).
Qed.

Lemma z_wf_put r r' s rp array table :
  z_wf r s -> rp_inv (Z.to_nat (z_numLines s)) (Z.to_nat (z_cands s)) r' rp -> length array = length (z_array s) -> length table = length (lookupArray s) -> NoDup table ->
  Forall (in_lines (Z.to_nat (z_numLines s))) table -> z_wf r' (z_put s array table rp).
Proof. intros [] Hrp Ha Ht Hn Hr. split; simpl; try done; congruence. Qed.

(** *** The walk *)

(** The candidates [cs] of a walk for line [a]: seeds, then children of expanded
    candidates in the order of their parents; [top] bounds the parents and [done q w]
    tells that way [w] of candidate [q] has been expanded. *)
Record walked s (a : Z) (cs : list ZWalkInfo) (top : Z) (done : Z -> Z -> Prop) : Prop := {
  wk_at : forall (j : nat) c, cs !! j = Some c -> 0 <= zw_pos c /\ lookupArray s !! Z.to_nat (zw_pos c) = Some (zw_lineId c);
  wk_seed : forall (j : nat) c, cs !! j = Some c -> parentIdx c < 0 -> exists w, 0 <= w < z_ways s /\ zw_pos c = home s w a;
  wk_child : forall (j : nat) c, cs !! j = Some c -> 0 <= parentIdx c -> parentIdx c + z_ways s <= Z.of_nat j /\
    exists p x w, cs !! Z.to_nat (parentIdx c) = Some p /\ z_array s !! Z.to_nat (zw_lineId p) = Some x /\ x <> 0 /\ 0 <= w < z_ways s /\
      zw_pos c = home s w x /\ zw_lineId c <> zw_lineId p;
  wk_top : forall (j : nat) c, cs !! j = Some c -> parentIdx c <= top;
  wk_mono : forall (i j : nat) c d, (i <= j)%nat -> cs !! i = Some c -> cs !! j = Some d -> parentIdx c <= parentIdx d;
  wk_full : forall q w p x i, done q w -> 0 <= q -> cs !! Z.to_nat q = Some p -> z_array s !! Z.to_nat (zw_lineId p) = Some x -> 0 <= w < z_ways s ->
    lookupArray s !! Z.to_nat (home s w x) = Some i -> i <> zw_lineId p -> exists (j : nat) c, cs !! j = Some c /\ zw_pos c = home s w x /\ parentIdx c = q
}.

(** Every candidate holds a line. *)
Definition all_lines s (cs : list ZWalkInfo) : Prop := forall c x, c ∈ cs -> z_array s !! Z.to_nat (zw_lineId c) = Some x -> x <> 0.

Lemma walked_weaken s a cs top done top' done' :
  walked s a cs top done -> top <= top' -> (forall q w, done' q w -> 0 <= q -> 0 <= w < z_ways s -> done q w) -> walked s a cs top' done'.
Proof.
  intros [K1 K2 K3 K4 K5 K6] Ht Hd. split; try done; [intros j c Hj; pose proof (K4 j c Hj); lia|]. intros q w p x i Hq Hq0 Hp Hx Hw. apply (K6 q w p x i); try done. by apply Hd.
Qed.

Lemma walked_snoc s a cs top done c :
  walked s a cs top done -> parentIdx c = top -> 0 <= zw_pos c -> lookupArray s !! Z.to_nat (zw_pos c) = Some (zw_lineId c) ->
  (top < 0 -> exists w, 0 <= w < z_ways s /\ zw_pos c = home s w a) ->
  (0 <= top -> top + z_ways s <= Z.of_nat (length cs) /\ exists p x w, cs !! Z.to_nat top = Some p /\ z_array s !! Z.to_nat (zw_lineId p) = Some x /\ x <> 0 /\ 0 <= w < z_ways s /\
      zw_pos c = home s w x /\ zw_lineId c <> zw_lineId p) ->
  (forall q w, done q w -> q < Z.of_nat (length cs)) -> walked s a (cs ++ [c]) top done.
Proof.
  intros [K1 K2 K3 K4 K5 K6] Htop Hpos Hat Hseed Hchild Hdone.
  assert (Hold : forall (j : nat) d, (cs ++ [c]) !! j = Some d -> cs !! j = Some d \/ j = length cs /\ d = c).
  { intros j d Hj. apply lookup_app_Some in Hj as [Hj|[Hl Hj]]; [by left|right]. apply list_lookup_singleton_Some in Hj as [Hj <-]. split; [lia|done]. }
  split.
  - intros j d Hj. destruct (Hold j d Hj) as [Hj'|[_ ->]]; [by eapply K1|done].
  - intros j d Hj Hd. destruct (Hold j d Hj) as [Hj'|[_ ->]]; [by eapply K2|]. apply Hseed. lia.
  - intros j d Hj Hd. destruct (Hold j d Hj) as [Hj'|[-> ->]].
    + destruct (K3 j d Hj' Hd) as (Hw & p & x & w & Hp & Hrest). split; [done|]. exists p, x, w. split; [by apply lookup_app_l_Some|done].
    + destruct Hchild as (Hw & p & x & w & Hp & Hrest); [lia|]. rewrite Htop. split; [done|]. exists p, x, w. split; [by apply lookup_app_l_Some|done].
  - intros j d Hj. destruct (Hold j d Hj) as [Hj'|[_ ->]]; [by eapply K4|lia].
  - intros i j d e Hij Hi Hj. destruct (Hold i d Hi) as [Hi'|[Hi1 ->]], (Hold j e Hj) as [Hj'|[Hj1 ->]].
    + by eapply (K5 i j).
    + rewrite Htop. by eapply K4.
    + apply lookup_lt_Some in Hj'. lia.
    + done.
  - intros q w p x i Hq Hq0 Hp Hx Hw Hi Hne. pose proof (Hdone q w Hq). rewrite lookup_app_l in Hp by lia. destruct (K6 q w p x i Hq Hq0 Hp Hx Hw Hi Hne) as (j & d & Hj & Hd).
    exists j, d. split; [by apply lookup_app_l_Some|done].
Qed.

(** The seeds. *)
Lemma z_seeds_ok r s a :
  z_wf r s -> (forall i x, z_array s !! i = Some x -> x <> 0 -> is_line x) -> is_line a ->
  exists cs av, fold_ (z_seed s a) (seqZ 0 (z_ways s)) ([], true) = Ret (cs, av) /\ walked s a cs (-1) (fun _ _ => False) /\ Z.of_nat (length cs) = z_ways s /\
    (av = true -> all_lines s cs) /\ Forall (fun c => parentIdx c = -1) cs.
Proof.
  intros W Hl Ha. pose proof (zg_ways _ _ W).
  assert (Hgen : forall n k cs av, k + Z.of_nat n <= z_ways s -> 0 <= k -> walked s a cs (-1) (fun _ _ => False) -> (av = true -> all_lines s cs) -> Forall (fun c => parentIdx c = -1) cs ->
    exists cs' av', fold_ (z_seed s a) (seqZ k (Z.of_nat n)) (cs, av) = Ret (cs', av') /\ walked s a cs' (-1) (fun _ _ => False) /\ length cs' = (length cs + n)%nat /\
    (av' = true -> all_lines s cs') /\ Forall (fun c => parentIdx c = -1) cs').
  { induction n as [|n IH]; intros k cs av Hk Hk0 Hw Hv Hp; [exists cs, av; rewrite Nat.add_0_r; done|]. rewrite seqZ_cons by lia. cbn [fold_].
    destruct (z_at_ret r s k a W ltac:(lia) Ha) as (i & E & Hi & Hr). destruct (z_line_at r s i W Hr) as (x & Ex & Hx). pose proof (home_range r s k a W ltac:(lia)) as Hh.
    assert (E1 : z_seed s a (cs, av) k = Ret (cs ++ [mkWalk (home s k a) i (-1)], av && negb (x =? 0))) by (unfold z_seed; rewrite E; cbn [mbind outcome_bind]; by rewrite Ex).
    rewrite E1. cbn [mbind outcome_bind]. replace (Z.pred (Z.of_nat (S n))) with (Z.of_nat n) by lia.
    destruct (IH (Z.succ k) (cs ++ [mkWalk (home s k a) i (-1)]) (av && negb (x =? 0))) as (cs' & av' & E2 & G2 & G3 & G4 & G5); [lia|lia| | | |].
    - apply walked_snoc; simpl; try done; try lia. intros _. exists k. split; [lia|done].
    - intros Hav. apply andb_prop in Hav as [Hav Hx0]. zb. intros c y Hc Hy. apply elem_of_app in Hc as [Hc|Hc]; [by eapply Hv|]. apply list_elem_of_singleton in Hc as ->. simpl in Hy. congruence.
    - apply Forall_app. split; [done|]. by constructor.
    - exists cs', av'. split; [done|]. split; [done|]. rewrite G3, length_app. simpl. split; [lia|done]. }
  destruct (Hgen (Z.to_nat (z_ways s)) 0 [] true) as (cs & av & E & G1 & G2 & G3 & G4); [lia|lia| |intros _ c x Hc; set_solver|done|].
  { split; try done; intros; try done. }
  rewrite Z2Nat.id in E by lia. exists cs, av. split_and!; try done. rewrite G2. simpl. lia.
Qed.

(** One expansion. *)
Lemma z_expand_ok r s a cs fs p x av :
  z_wf r s -> (forall i x, z_array s !! i = Some x -> x <> 0 -> is_line x) -> walked s a cs (fs - 1) (fun q _ => q < fs) -> 0 <= fs -> cs !! Z.to_nat fs = Some p ->
  z_array s !! Z.to_nat (zw_lineId p) = Some x -> x <> 0 -> fs + z_ways s <= Z.of_nat (length cs) < z_cands s -> (av = true -> all_lines s cs) ->
  exists new av', fold_ (z_child s fs (zw_lineId p) x) (seqZ 0 (z_ways s)) (cs, av) = Ret (cs ++ new, av') /\ walked s a (cs ++ new) fs (fun q _ => q < fs + 1) /\ new <> [] /\
    (av' = true -> all_lines s (cs ++ new)).
Proof.
  intros W Hl Hw0 Hfs Hp Hx Hx0 Hlen Hv0. pose proof (zg_ways _ _ W). pose proof (Hl _ _ Hx Hx0) as Hline.
  assert (Hgen : forall n k new av, k + Z.of_nat n = z_ways s -> 0 <= k -> (length new <= Z.to_nat k)%nat -> walked s a (cs ++ new) fs (fun q w => q < fs \/ q = fs /\ w < k) ->
    (av = true -> all_lines s (cs ++ new)) ->
    exists new' av', fold_ (z_child s fs (zw_lineId p) x) (seqZ k (Z.of_nat n)) (cs ++ new, av) = Ret (cs ++ new', av') /\ walked s a (cs ++ new') fs (fun q w => q < fs \/ q = fs /\ w < z_ways s) /\
    (av' = true -> all_lines s (cs ++ new'))).
  { induction n as [|n IH]; intros k new av1 Hk Hk0 Hnew Hw Hv.
    { exists new, av1. split; [done|]. split; [|done]. replace (z_ways s) with k by lia. done. }
    rewrite seqZ_cons by lia. cbn [fold_]. replace (Z.pred (Z.of_nat (S n))) with (Z.of_nat n) by lia.
    destruct (z_at_ret r s k x W ltac:(lia) Hline) as (i & E & Hi & Hr). destruct (z_line_at r s i W Hr) as (y & Ey & Hy). pose proof (home_range r s k x W ltac:(lia)) as Hh.
    assert (Hp' : (cs ++ new) !! Z.to_nat fs = Some p) by (by apply lookup_app_l_Some).
    set (new1 := if i =? zw_lineId p then new else new ++ [mkWalk (home s k x) i fs]).
    assert (E1 : z_child s fs (zw_lineId p) x (cs ++ new, av1) k = Ret (cs ++ new1, av1 && negb (y =? 0))).
    { unfold z_child. rewrite E. cbn [mbind outcome_bind fst snd]. rewrite (proj2 (Z.leb_gt _ _)) by (rewrite length_app; lia). rewrite Ey. cbn [mbind outcome_bind].
      unfold new1. destruct (i =? zw_lineId p); [done|]. by rewrite app_assoc. }
    rewrite E1. cbn [mbind outcome_bind]. apply IH; [lia|lia| | |].
    - unfold new1. destruct (_ =? _); [lia|]. rewrite length_app. simpl. lia.
    - assert (Hsnoc : i <> zw_lineId p -> walked s a ((cs ++ new) ++ [mkWalk (home s k x) i fs]) fs (fun q w => q < fs \/ q = fs /\ w < k)).
      { intros Hne. apply walked_snoc; simpl; try done; try lia.
        - intros _. split; [rewrite length_app; lia|]. exists p, x, k. split_and!; try done; lia.
        - intros q w Hq. cbv beta in *. rewrite length_app. lia. }
      unfold new1. destruct (i =? zw_lineId p) eqn:Heq; zb.
      + destruct Hw as [K1 K2 K3 K4 K5 K6]. split; try done. intros q w p' x' i' Hq Hq0 Hp2 Hx2 Hw2 Hi2 Hne2. destruct (decide (q = fs /\ w = k)) as [[-> ->]|Hqw].
        * rewrite Hp' in Hp2. injection Hp2 as <-. rewrite Hx in Hx2. injection Hx2 as <-. congruence.
        * apply (K6 q w p' x' i'); try done. cbv beta in *. lia.
      + specialize (Hsnoc Heq). rewrite app_assoc. destruct Hsnoc as [K1 K2 K3 K4 K5 K6]. split; try done. intros q w p' x' i' Hq Hq0 Hp2 Hx2 Hw2 Hi2 Hne2.
        destruct (decide (q = fs /\ w = k)) as [[-> ->]|Hqw]; [|apply (K6 q w p' x' i'); try done; cbv beta in *; lia].
        rewrite (lookup_app_l_Some _ _ _ _ Hp') in Hp2. injection Hp2 as <-. rewrite Hx in Hx2. injection Hx2 as <-.
        exists (length (cs ++ new)), (mkWalk (home s k x) i fs). split; [by apply list_lookup_middle|done].
    - intros Hav. apply andb_prop in Hav as [Hav Hy0]. zb. intros c z Hc Hz. unfold new1 in Hc. destruct (i =? zw_lineId p); [by eapply Hv|].
      rewrite app_assoc in Hc. apply elem_of_app in Hc as [Hc|Hc]; [by eapply Hv|]. apply list_elem_of_singleton in Hc as ->. simpl in Hz. congruence. }
  destruct (Hgen (Z.to_nat (z_ways s)) 0 [] av) as (new & av' & E & G1 & G2); [lia|lia|simpl; lia| |by rewrite app_nil_r|].
  { rewrite app_nil_r. eapply walked_weaken; [exact Hw0|lia|]. cbv beta. lia. }
  rewrite Z2Nat.id, app_nil_r in E by lia. exists new, av'. split; [done|]. split; [|split; [|done]].
  - eapply walked_weaken; [exact G1|lia|]. cbv beta. lia.
  - intros ->. rewrite app_nil_r in G1.
    assert (Hmiss : exists w i, 0 <= w < z_ways s /\ lookupArray s !! Z.to_nat (home s w x) = Some i /\ i <> zw_lineId p).
    { destruct (z_at_ret r s 0 x W ltac:(lia) Hline) as (i0 & _ & Hi0 & _), (z_at_ret r s 1 x W ltac:(lia) Hline) as (i1 & _ & Hi1 & _).
      destruct (decide (i0 = zw_lineId p)) as [->|Hn0]; [|by exists 0, i0; split; [lia|]]. destruct (decide (i1 = zw_lineId p)) as [->|Hn1]; [|by exists 1, i1; split; [lia|]].
      pose proof (NoDup_lookup _ _ _ _ (zg_nodup _ _ W) Hi0 Hi1) as Heq. pose proof (home_range r s 0 x W ltac:(lia)). pose proof (home_range r s 1 x W ltac:(lia)).
      pose proof (home_way r s 0 x W). pose proof (home_way r s 1 x W). assert (home s 0 x = home s 1 x) by lia. congruence. }
    destruct Hmiss as (w & i & Hw1 & Hi & Hne). destruct (wk_full _ _ _ _ _ G1 fs w p x i) as (j & c & Hj & _ & Hc); try done; [lia|].
    pose proof (wk_top _ _ _ _ _ Hw0 j c Hj). lia.
Qed.

(** The walk ends; then the candidates are enough or one of them is empty. *)
Lemma z_walk_ok r s a fuel cs av fs :
  z_wf r s -> (forall i x, z_array s !! i = Some x -> x <> 0 -> is_line x) -> walked s a cs (fs - 1) (fun q _ => q < fs) -> 0 <= fs -> fs + z_ways s <= Z.of_nat (length cs) ->
  (av = true -> all_lines s cs) -> Z.max 0 (z_cands s - Z.of_nat (length cs)) < Z.of_nat fuel ->
  exists cs' av' fs', z_walk s fuel cs av fs = Ret (cs', av') /\ walked s a cs' (fs' - 1) (fun q _ => q < fs') /\ z_ways s <= Z.of_nat (length cs') /\
    (av' = true -> z_cands s <= Z.of_nat (length cs')).
Proof.
  intros W Hl. pose proof (zg_ways _ _ W) as Hways. revert cs av fs. induction fuel as [|fuel IH]; intros cs av fs Hw Hfs Hlen Hv Hfuel; cbn [z_walk].
  { lia. }
  destruct (Z.of_nat (length cs) <? z_cands s) eqn:Hc; zb; simpl.
  2: { exists cs, av, fs. split; [done|]. split; [done|]. split; [lia|done]. }
  destruct av; [|by exists cs, false, fs; split; [done|split; [done|split; [lia|]]]].
  destruct (lookup_lt_is_Some_2 cs (Z.to_nat fs)) as [p Hp]; [lia|]. rewrite (at_ret cs fs p) by (done || lia). cbn [mbind outcome_bind].
  destruct (wk_at _ _ _ _ _ Hw _ _ Hp) as [Hp0 Hpl]. pose proof (proj1 (Forall_lookup _ _) (zg_range _ _ W) _ _ Hpl) as Hr. destruct (z_line_at r s _ W Hr) as (x & -> & Hx). cbn [mbind outcome_bind].
  assert (Hx0 : x <> 0) by (by eapply (Hv eq_refl p x); [eapply list_elem_of_lookup_2|]). rewrite (proj2 (Z.eqb_neq x 0)) by done. cbn [negb assert_ mbind outcome_bind].
  destruct (z_expand_ok r s a cs fs p x true) as (new & av' & E & Hw' & Hne & Hv'); try done. rewrite E. cbn [mbind outcome_bind].
  destruct new as [|n new]; [done|]. apply IH; try done.
  - by replace (fs + 1 - 1) with fs by lia.
  - lia.
  - rewrite length_app. simpl. lia.
  - rewrite length_app. simpl. lia.
Qed.

(** *** The path *)

(** Candidate [j] is the first one with its line. *)
Definition first_at (cs : list ZWalkInfo) (j : nat) (c : ZWalkInfo) : Prop :=
  cs !! j = Some c /\ forall (i : nat) d, (i < j)%nat -> cs !! i = Some d -> zw_lineId d <> zw_lineId c.

(** The parent of a first candidate is a first candidate: an earlier one with the same line
    would have been expanded earlier, to the same children. *)
Lemma first_parent s a cs fs j c :
  walked s a cs (fs - 1) (fun q _ => q < fs) -> first_at cs j c -> 0 <= parentIdx c -> exists p, first_at cs (Z.to_nat (parentIdx c)) p.
Proof.
  intros Hw [Hj Hfirst] Hpar. destruct (wk_child _ _ _ _ _ Hw j c Hj Hpar) as (Hlt & p & x & w & Hp & Hx & Hx0 & Hww & Hpos & Hne). exists p. split; [done|].
  intros i d Hi Hd Heq. pose proof (wk_top _ _ _ _ _ Hw j c Hj). destruct (wk_at _ _ _ _ _ Hw j c Hj) as [_ Hat]. rewrite Hpos in Hat.
  destruct (wk_full _ _ _ _ _ Hw (Z.of_nat i) w d x (zw_lineId c)) as (j' & c' & Hj' & Hpos' & Hpar'); try done; [lia|lia|by rewrite Nat2Z.id|by rewrite Heq|congruence|].
  destruct (decide (j' < j)%nat) as [Hjj|Hjj].
  - apply (Hfirst j' c' Hjj Hj'). destruct (wk_at _ _ _ _ _ Hw j' c' Hj') as [_ Hat']. rewrite Hpos' in Hat'. congruence.
  - pose proof (wk_mono _ _ _ _ _ Hw j j' c c' ltac:(lia) Hj Hj'). lia.
Qed.

(** The candidates from [idx] up to a seed. *)
Inductive zpath (cs : list ZWalkInfo) : Z -> list ZWalkInfo -> Prop :=
  | zpath_end idx : idx < 0 -> zpath cs idx []
  | zpath_step idx c l : 0 <= idx -> cs !! Z.to_nat idx = Some c -> zpath cs (parentIdx c) l -> zpath cs idx (c :: l).

(** The path from a first candidate exists, its lines are distinct and its length is within
    the array of swaps. *)
Lemma zpath_ok s a cs fs (Hways : 2 <= z_ways s) :
  walked s a cs (fs - 1) (fun q _ => q < fs) -> forall j c, first_at cs j c ->
  exists l, zpath cs (Z.of_nat j) (c :: l) /\ NoDup (zw_lineId <$> c :: l) /\ Z.of_nat (length l) * z_ways s <= Z.of_nat j /\
    forall d, d ∈ c :: l -> exists i, (i <= j)%nat /\ cs !! i = Some d.
Proof.
  intros Hw j. induction j as [j IH] using lt_wf_ind. intros c Hf. pose proof Hf as [Hj Hfirst]. destruct (Z.lt_ge_cases (parentIdx c) 0) as [Hp|Hp].
  - exists []. split; [constructor; [lia|by rewrite Nat2Z.id|by constructor]|]. split; [apply NoDup_singleton|]. split; [simpl; lia|].
    intros d Hd. apply list_elem_of_singleton in Hd as ->. exists j. split; [lia|done].
  - destruct (first_parent s a cs fs j c Hw Hf Hp) as (p & Hfp). destruct (wk_child _ _ _ _ _ Hw j c Hj Hp) as (Hlt & _).
    destruct (IH (Z.to_nat (parentIdx c)) ltac:(lia) p Hfp) as (l & Hl & Hn & Hlen & Hel). rewrite Z2Nat.id in Hl by lia. exists (p :: l). split; [|split; [|split]].
    + constructor; [lia|by rewrite Nat2Z.id|done].
    + rewrite fmap_cons. apply NoDup_cons. split; [|done]. rewrite list_elem_of_fmap. intros (d & Heq & Hd). destruct (Hel d Hd) as (i & Hi & Hdi).
      apply (Hfirst i d); [lia|done|done].
    + cbn [length]. lia.
    + intros d Hd. apply elem_of_cons in Hd as [->|Hd]; [exists j; split; [lia|done]|]. destruct (Hel d Hd) as (i & Hi & Hdi). exists i. split; [lia|done].
Qed.

Lemma z_index_ok best cs k : best ∈ zw_lineId <$> cs -> exists j c, z_index best cs k = k + Z.of_nat j /\ first_at cs j c /\ zw_lineId c = best.
Proof.
  revert k. induction cs as [|c cs IH]; intros k Hb; [simpl in Hb; set_solver|]. cbn [z_index]. destruct (zw_lineId c =? best) eqn:Hc; zb.
  - exists 0%nat, c. split; [lia|]. split; [|done]. split; [done|]. intros i d Hi. lia.
  - rewrite fmap_cons in Hb. apply elem_of_cons in Hb as [Hb|Hb]; [congruence|]. destruct (IH (k + 1) Hb) as (j & d & E & [Hd Hf] & Hdb). exists (S j), d. split; [lia|]. split; [|done].
    split; [done|]. intros [|i] e Hi He; simpl in He; [injection He as <-; congruence|]. apply (Hf i e); [lia|done].
Qed.

(** The positions of the path are stored in order. *)
Lemma z_swaps_ok cs idx l :
  zpath cs idx l -> forall fuel swaps k, (length l <= fuel)%nat -> (k + length l <= length swaps)%nat ->
  z_swaps fuel cs idx swaps (Z.of_nat k) = Ret (take k swaps ++ (zw_pos <$> l) ++ drop (k + length l) swaps, Z.of_nat (k + length l)).
Proof.
  induction 1 as [idx Hi|idx c l Hi Hc Hl IH]; intros fuel swaps k Hf Hk.
  - assert (E : z_swaps fuel cs idx swaps (Z.of_nat k) = Ret (swaps, Z.of_nat k)) by (destruct fuel; cbn [z_swaps]; by rewrite (proj2 (Z.ltb_lt _ _))).
    rewrite E. simpl. by rewrite Nat.add_0_r, take_drop.
  - simpl in Hf, Hk. destruct fuel as [|fuel]; [lia|]. cbn [z_swaps]. rewrite (proj2 (Z.ltb_ge _ _)) by lia. rewrite (at_ret cs idx c) by (done || lia). cbn [mbind outcome_bind].
    rewrite set_at_ret by lia. cbn [mbind outcome_bind]. replace (Z.of_nat k + 1) with (Z.of_nat (S k)) by lia. rewrite Nat2Z.id, IH by (rewrite ?length_insert; lia). f_equal. f_equal; [|simpl; lia].
    rewrite (take_S_r _ _ (zw_pos c)) by (apply list_lookup_insert_eq; lia). rewrite take_insert_ge, drop_insert_lt by lia. rewrite <- app_assoc. simpl. repeat f_equal. lia.
Qed.

(** *** The moves *)

(** A table in which every line but number [c] is at one of its positions. *)
Record placed s (array table : list Z) (c : Z) : Prop := {
  pl_length : Z.of_nat (length table) = z_numLines s;
  pl_nodup : NoDup table;
  pl_range : Forall (in_lines (Z.to_nat (z_numLines s))) table;
  pl_home : forall i b, 0 <= i -> i <> c -> array !! Z.to_nat i = Some b -> b <> 0 -> exists w, 0 <= w < z_ways s /\ table !! Z.to_nat (home s w b) = Some i
}.

(** Every position of [ps] is one where the line at the next position may be. *)
Definition chained s (array table : list Z) (c : Z) (ps : list Z) : Prop :=
  forall i p q, ps !! i = Some p -> ps !! S i = Some q -> exists v b w, table !! Z.to_nat q = Some v /\ v <> c /\ array !! Z.to_nat v = Some b /\ 0 <= w < z_ways s /\ p = home s w b.

(** Exchanging number [c] with a line that may be where [c] is. *)
Lemma placed_swap s array table c (p q : nat) v b w :
  placed s array table c -> table !! p = Some c -> table !! q = Some v -> p <> q -> array !! Z.to_nat v = Some b -> 0 <= w < z_ways s -> p = Z.to_nat (home s w b) ->
  placed s array (<[q := c]> (<[p := v]> table)) c.
Proof.
  intros [K1 K2 K3 K4] Hp Hq Hpq Hv Hw Hh. pose proof (lookup_lt_Some _ _ _ Hp). pose proof (lookup_lt_Some _ _ _ Hq).
  assert (Hlook : forall k, <[q := c]> (<[p := v]> table) !! k = if decide (k = q) then Some c else if decide (k = p) then Some v else table !! k).
  { intros k. destruct (decide (k = q)) as [->|Hkq]; [apply list_lookup_insert_eq; rewrite length_insert; lia|]. rewrite list_lookup_insert_ne by done.
    destruct (decide (k = p)) as [->|Hkp]; [apply list_lookup_insert_eq; lia|by rewrite list_lookup_insert_ne]. }
  split.
  - by rewrite !length_insert.
  - apply NoDup_alt. intros i j x Hi Hj. rewrite Hlook in Hi, Hj. pose proof (fun i j x => NoDup_lookup table i j x K2) as Hinj. repeat case_decide; simplify_eq; try done; try (by destruct Hpq; eapply Hinj); try (by eapply Hinj);
      exfalso; naive_solver.
  - apply Forall_insert; [apply Forall_insert; [done|]|]; eapply Forall_lookup_1; done.
  - intros i x Hi Hic Hx Hx0. destruct (decide (i = v)) as [->|Hiv].
    + exists w. split; [done|]. assert (x = b) as -> by congruence. rewrite Hlook, decide_False, decide_True by congruence. done.
    + destruct (K4 i x Hi Hic Hx Hx0) as (w' & Hw' & Hl). exists w'. split; [done|]. rewrite Hlook, !decide_False by congruence. done.
Qed.

Lemma z_moves_ok s array c ps : forall p k swaps table,
  (forall i x, (p :: ps) !! i = Some x -> swaps !! (k + i)%nat = Some x) -> NoDup (p :: ps) -> Forall (fun x => 0 <= x < Z.of_nat (length table)) (p :: ps) ->
  chained s array table c (p :: ps) -> placed s array (<[Z.to_nat p := c]> table) c ->
  exists table', fold_ (z_move swaps) (seqZ (Z.of_nat k) (Z.of_nat (length ps))) table = Ret table' /\ length table' = length table /\
    forall pk, last (p :: ps) = Some pk -> placed s array (<[Z.to_nat pk := c]> table') c.
Proof.
  induction ps as [|q ps IH]; intros p k swaps table Hsw Hn Hr Hch Hpl; [exists table; split_and!; try done; by intros pk [= <-]|].
  apply Forall_cons in Hr as [Hp Hr]. pose proof Hr as [Hq _]%Forall_cons. apply NoDup_cons in Hn as [Hpq Hn]. pose proof Hpq as [Hpq1 _]%not_elem_of_cons.
  destruct (Hch 0%nat p q eq_refl eq_refl) as (v & b & w & Hv & Hvc & Hb & Hw & Hhome).
  assert (E1 : z_move swaps table (Z.of_nat k) = Ret (<[Z.to_nat p := v]> table)).
  { unfold z_move. rewrite (at_ret swaps (Z.of_nat k) p) by (lia || (replace (Z.to_nat (Z.of_nat k)) with (k + 0)%nat by lia; by apply Hsw)). cbn [mbind outcome_bind].
    rewrite (at_ret swaps (Z.of_nat k + 1) q) by (lia || (replace (Z.to_nat (Z.of_nat k + 1)) with (k + 1)%nat by lia; by apply Hsw)). cbn [mbind outcome_bind].
    rewrite (at_ret table q v) by (done || lia). cbn [mbind outcome_bind]. by rewrite set_at_ret by lia. }
  rewrite seqZ_cons by (simpl; lia). cbn [fold_]. rewrite E1. cbn [mbind outcome_bind].
  replace (Z.succ (Z.of_nat k)) with (Z.of_nat (S k)) by lia. replace (Z.pred (Z.of_nat (length (q :: ps)))) with (Z.of_nat (length ps)) by (simpl; lia).
  destruct (IH q (S k) swaps (<[Z.to_nat p := v]> table)) as (table' & E & Hl & Hpl'); [| |by rewrite length_insert| | |].
  - intros i x Hi. replace (S k + i)%nat with (k + S i)%nat by lia. by apply Hsw.
  - done.
  - intros i p' q' Hp' Hq'. destruct (Hch (S i) p' q' Hp' Hq') as (v' & b' & w' & Hv' & Hrest). exists v', b', w'. split; [|done].
    rewrite list_lookup_insert_ne; [done|]. intros Heq. assert (q' ∈ q :: ps) by (by eapply list_elem_of_lookup_2). rewrite Forall_forall in Hr. pose proof (Hr q' ltac:(done)). assert (p = q') by lia. by subst.
  - assert (E : <[Z.to_nat q := c]> (<[Z.to_nat p := v]> table) = <[Z.to_nat q := c]> (<[Z.to_nat p := v]> (<[Z.to_nat p := c]> table))) by (by rewrite list_insert_insert_eq).
    rewrite E. apply (placed_swap s array _ c _ _ v b w); try done; [by rewrite list_lookup_insert_eq by lia|rewrite list_lookup_insert_ne by lia; done|lia|by subst].
  - exists table'. split; [done|]. split; [by rewrite Hl, length_insert|done].
Qed.

(** It was decided that line [a] replaces number [c]: the array of swaps has a path of
    distinct positions from [c] to a position of [a]. *)
Record z_pending s (M : gmap Z Z) (a c : Z) : Prop := {
  zp_wf : z_wf true s;
  zp_holds : z_holds s (z_array s) (lookupArray s) M;
  zp_line : is_line a;
  zp_new : M !! a = None;
  zp_path : exists p ps rest w, swapArray s = (p :: ps) ++ rest /\ swapArrayLen s = Z.of_nat (S (length ps)) /\ NoDup (p :: ps) /\
    Forall (fun x => 0 <= x < z_numLines s) (p :: ps) /\ lookupArray s !! Z.to_nat p = Some c /\ chained s (z_array s) (lookupArray s) c (p :: ps) /\
    0 <= w < z_ways s /\ last (p :: ps) = Some (home s w a) /\ Z.of_nat (length ps) <= z_cands s / z_ways s
}.

(** The state after the moves holds the new line in place of number [c]. *)
Lemma held_after s M a c w table array table' rp :
  z_holds s array table M -> 0 <= c < Z.of_nat (length array) -> is_line a -> M !! a = None -> placed s array table' c -> 0 <= w < z_ways s -> table' !! Z.to_nat (home s w a) = Some c ->
  forall array' t', z_holds (z_put s array' t' rp) (<[Z.to_nat c := a]> array) table' (<[a := c]> (without c M)).
Proof.
  intros T Hc Ha Hm [L1 L2 L3 L4] Hw Hat array' t'. split.
  - apply held_put; try done. apply (zh_map _ _ _ _ T).
  - intros i b Hb Hb0. apply list_lookup_insert_Some in Hb as [(_ & -> & _)|[_ Hb]]; [done|]. by eapply zh_lines.
  - intros b i Hb. apply lookup_insert_Some in Hb as [[<- <-]|[_ Hb]]; [by exists w|]. apply without_lookup in Hb as [Hb Hic]. apply (zh_map _ _ _ _ T) in Hb as (Hb & Hi & Hl).
    destruct (L4 i b) as (w' & Hw' & Hl'); try done; [unfold is_line in Hb; lia|]. by exists w'.
Qed.

Lemma z_postinsert_ok s M a c :
  z_pending s M a c -> exists s', z_postinsert s a c = Ret s' /\ z_wf false s' /\ z_holds s' (z_array s') (lookupArray s') (<[a := c]> (without c M)) /\ z_numLines s' = z_numLines s.
Proof.
  intros [W T Ha Hm (p & ps & rest & w & Hsw & Hlen & Hn & Hr & Hp & Hch & Hw & Hlast & _)].
  pose proof (zg_table _ _ W) as Ht. pose proof (zg_array _ _ W) as Harr. pose proof (proj1 (Forall_lookup _ _) (zg_range _ _ W) _ _ Hp) as Hc. unfold in_lines in Hc.
  assert (Hpl : placed s (z_array s) (<[Z.to_nat p := c]> (lookupArray s)) c).
  { rewrite list_insert_id by done. split; [done|apply (zg_nodup _ _ W)|apply (zg_range _ _ W)|]. intros i b Hi _ Hb Hb0. apply (zh_home _ _ _ _ T), (zh_map _ _ _ _ T). split_and!; try done. by eapply zh_lines. }
  destruct (z_moves_ok s (z_array s) c ps p 0 (swapArray s) (lookupArray s)) as (table & E & Hl & Hpl'); try done.
  { intros i x Hi. rewrite Hsw. by apply lookup_app_l_Some. }
  { eapply Forall_impl; [exact Hr|]. simpl. lia. }
  unfold z_postinsert. pose proof Hr as [Hp0 _]%Forall_cons. rewrite (at_ret (swapArray s) 0 p) by (lia || by rewrite Hsw). cbn [mbind outcome_bind]. rewrite (at_ret (lookupArray s) p c) by (done || lia).
  cbn [mbind outcome_bind]. rewrite Z.eqb_refl. cbn [assert_ mbind outcome_bind]. replace (swapArrayLen s - 1) with (Z.of_nat (length ps)) by lia. change (Z.of_nat 0) with 0 in E. rewrite E. cbn [mbind outcome_bind].
  assert (Hk : swapArray s !! length ps = Some (home s w a)).
  { rewrite Hsw, lookup_app_l by (simpl; lia). rewrite <- Hlast. by rewrite last_lookup. }
  pose proof (Hpl' _ Hlast) as [L1 L2 L3 L4]. pose proof (home_range true s w a W Hw) as Hh. rewrite (at_ret (swapArray s) (Z.of_nat (length ps)) (home s w a)) by (lia || by rewrite Nat2Z.id).
  cbn [mbind outcome_bind]. rewrite set_at_ret by lia. cbn [mbind outcome_bind]. destruct (replaced_ok _ _ _ _ c (zg_policy _ _ W) ltac:(lia)) as (rp & -> & Hrp). cbn [mbind outcome_bind].
  rewrite set_at_ret by lia. cbn [mbind outcome_bind]. destruct (update_ok _ _ _ _ c Hrp ltac:(lia)) as (rp' & -> & Hrp'). cbn [mbind outcome_bind].
  eexists. split; [done|]. split; [|split; [|done]].
  - eapply z_wf_put; try done; [apply length_insert|]. rewrite length_insert. lia.
  - eapply held_after; try done; [lia|]. apply list_lookup_insert_eq. lia.
Qed.

(** *** [preinsert] *)

Lemma zpath_take s a cs fs idx l n :
  walked s a cs (fs - 1) (fun q _ => q < fs) -> 2 <= z_ways s -> zpath cs idx l -> idx < Z.of_nat n -> zpath (take n cs) idx l.
Proof.
  intros Hw Hways Hl. induction Hl as [idx Hi|idx c l Hi Hc Hl IH]; intros Hn; [by constructor|]. constructor; [done|rewrite lookup_take_lt by lia; done|]. apply IH.
  destruct (Z.lt_ge_cases (parentIdx c) 0); [lia|]. destruct (wk_child _ _ _ _ _ Hw _ _ Hc) as [Hlt _]; lia.
Qed.

Lemma zpath_next cs idx l : zpath cs idx l -> forall i c d, l !! i = Some c -> l !! S i = Some d -> (exists j : nat, cs !! j = Some c) /\ 0 <= parentIdx c /\ cs !! Z.to_nat (parentIdx c) = Some d.
Proof.
  induction 1 as [|idx c l Hi Hc Hl IH]; intros i x y Hx Hy; [done|]. destruct i as [|i]; [|by eapply IH]. simpl in Hx, Hy. injection Hx as <-. inversion Hl as [|idx' c' l' Hi' Hc' Hl']; subst; [done|].
  injection Hy as <-. split; [by eexists|done].
Qed.

Lemma zpath_last cs idx l c : zpath cs idx l -> last l = Some c -> parentIdx c < 0 /\ exists j : nat, cs !! j = Some c.
Proof.
  induction 1 as [|idx d l Hi Hd Hl IH]; [done|]. destruct l as [|e l]; [|intros Hlast; by apply IH]. intros [= <-]. inversion Hl; subst. split; [done|by eexists].
Qed.

(** The positions of a path from a first candidate are what [postinsert] relies on. *)
Lemma zpath_chained s a cs fs idx c l :
  walked s a cs (fs - 1) (fun q _ => q < fs) -> zpath cs idx (c :: l) -> NoDup (zw_lineId <$> c :: l) -> (forall d, d ∈ c :: l -> exists i : nat, cs !! i = Some d) ->
  NoDup (zw_pos <$> c :: l) /\ chained s (z_array s) (lookupArray s) (zw_lineId c) (zw_pos <$> c :: l) /\ exists w, 0 <= w < z_ways s /\ last (zw_pos <$> c :: l) = Some (home s w a).
Proof.
  intros Hw Hl Hn Hel. split; [|split].
  - apply (NoDup_fmap_1 (fun p => lookupArray s !!! Z.to_nat p)). rewrite <- list_fmap_compose. erewrite (list_fmap_ext _ zw_lineId); [done|].
    intros i d Hd. simpl. destruct (Hel d ltac:(by eapply list_elem_of_lookup_2)) as (k & Hk). destruct (wk_at _ _ _ _ _ Hw _ _ Hk) as [_ Hat]. by apply list_lookup_total_correct.
  - intros i p q Hp Hq. rewrite list_lookup_fmap in Hp, Hq. destruct ((c :: l) !! i) as [x|] eqn:Hx; [|done]. destruct ((c :: l) !! S i) as [y|] eqn:Hy; [|done]. injection Hp as <-. injection Hq as <-.
    destruct (zpath_next cs idx (c :: l) Hl i x y Hx Hy) as ((j & Hj) & Hpar & Hpy). destruct (wk_child _ _ _ _ _ Hw j x Hj Hpar) as (_ & y' & b & w & Hy' & Hb & _ & Hww & Hpos & _).
    assert (y' = y) as -> by congruence. exists (zw_lineId y), b, w. destruct (wk_at _ _ _ _ _ Hw _ _ Hpy) as [_ Hat]. split_and!; try done; try lia.
    rewrite fmap_cons in Hn. apply NoDup_cons in Hn as [Hn _]. intros Heq. apply Hn. rewrite <- Heq. apply list_elem_of_fmap_2. by eapply (list_elem_of_lookup_2 l i).
  - rewrite fmap_last. destruct (last (c :: l)) as [d|] eqn:Hd; [|by apply last_None in Hd]. destruct (zpath_last cs idx _ d Hl Hd) as (Hneg & j & Hj).
    destruct (wk_seed _ _ _ _ _ Hw j d Hj Hneg) as (w & Hww & Hpos). exists w. split; [done|]. simpl. by rewrite Hpos.
Qed.

Lemma z_wf_swap r s r' rp swaps len last :
  z_wf r s -> rp_inv (Z.to_nat (z_numLines s)) (Z.to_nat (z_cands s)) r' rp -> length swaps = length (swapArray s) -> z_wf r' (z_swap s rp swaps len last).
Proof. intros [] Hrp Hl. split; simpl; try done; congruence. Qed.

Lemma z_candidates_ok r s a :
  z_wf r s -> (forall i x, z_array s !! i = Some x -> x <> 0 -> is_line x) -> is_line a ->
  exists cs0 av0 cs av fs, fold_ (z_seed s a) (seqZ 0 (z_ways s)) ([], true) = Ret (cs0, av0) /\ z_walk s (Z.to_nat (z_cands s)) cs0 av0 0 = Ret (cs, av) /\
    walked s a cs (fs - 1) (fun q _ => q < fs) /\ z_ways s <= Z.of_nat (length cs) /\ (av = true -> z_cands s <= Z.of_nat (length cs)).
Proof.
  intros W Hl Ha. pose proof (zg_ways _ _ W). pose proof (zg_cands _ _ W). destruct (z_seeds_ok r s a W Hl Ha) as (cs0 & av0 & E0 & Hw0 & Hlen0 & Hv0 & _).
  destruct (z_walk_ok r s a (Z.to_nat (z_cands s)) cs0 av0 0) as (cs & av & fs & E & Hw & Hlen & Hv); try done; [|lia|lia|].
  { eapply walked_weaken; [exact Hw0|lia|]. cbv beta. lia. }
  by exists cs0, av0, cs, av, fs.
Qed.

(** The state in which the path has been stored. *)
Lemma z_pending_path s M a cs fs j c d l rp :
  z_wf false s -> z_holds s (z_array s) (lookupArray s) M -> is_line a -> M !! a = None -> walked s a cs (fs - 1) (fun q _ => q < fs) -> zw_lineId d = c ->
  zpath cs (Z.of_nat j) (d :: l) -> NoDup (zw_lineId <$> d :: l) -> (forall e, e ∈ d :: l -> exists i, (i <= j)%nat /\ cs !! i = Some e) ->
  Z.of_nat (length l) <= z_cands s / z_ways s -> rp_inv (Z.to_nat (z_numLines s)) (Z.to_nat (z_cands s)) true rp ->
  z_pending (z_swap s rp (take 0 (swapArray s) ++ (zw_pos <$> d :: l) ++ drop (0 + length (d :: l)) (swapArray s)) (Z.of_nat (0 + length (d :: l))) (Z.of_nat j)) M a c.
Proof.
  intros W T Ha Hm Hw Hdc Hl Hn Hel Hlq Hrp. pose proof (zg_swaps _ _ W) as Hsw. destruct (zpath_chained s a cs fs _ d l Hw Hl Hn) as (Hnp & Hch & w & Hww & Hlast).
  { intros e He. destruct (Hel e He) as (i & _ & Hi). by exists i. }
  assert (Hpos : forall e, e ∈ d :: l -> 0 <= zw_pos e < z_numLines s /\ lookupArray s !! Z.to_nat (zw_pos e) = Some (zw_lineId e)).
  { intros e He. destruct (Hel e He) as (i & _ & Hi). destruct (wk_at _ _ _ _ _ Hw i e Hi) as [He0 Hea]. split; [|done]. apply lookup_lt_Some in Hea. pose proof (zg_table _ _ W). lia. }
  rewrite Hdc in Hch. split; [|by destruct T|done|done|].
  - apply (z_wf_swap false); try done. rewrite !length_app, length_take, length_drop, length_fmap. simpl. lia.
  - exists (zw_pos d), (zw_pos <$> l), (drop (0 + length (d :: l)) (swapArray s)), w. split_and!; try done; try lia.
    + simpl. by rewrite length_fmap.
    + change (zw_pos d :: (zw_pos <$> l)) with (zw_pos <$> d :: l). apply Forall_fmap, Forall_forall. intros e He. by apply Hpos.
    + rewrite <- Hdc. apply Hpos. left.
    + apply Hww.
    + by rewrite length_fmap.
Qed.

Lemma z_preinsert_ok cc s M a :
  z_wf false s -> z_holds s (z_array s) (lookupArray s) M -> is_line a -> M !! a = None ->
  exists c wb s', z_preinsert cc s a = Ret (c, wb, s') /\ z_pending s' M a c /\ 0 <= c < z_numLines s /\ z_numLines s' = z_numLines s /\ forall b, M !! b = Some c <-> b = wb /\ is_line b.
Proof.
  intros W T Ha Hm. pose proof (zg_ways _ _ W) as Hways. pose proof (zg_cands _ _ W) as Hcands.
  destruct (z_candidates_ok false s a W (fun i x => zh_lines _ _ _ _ T i x) Ha) as (cs0 & av0 & cs & av & fs & E0 & E1 & Hw & Hlen & Hv).
  unfold z_preinsert. rewrite E0. cbn [mbind outcome_bind]. rewrite E1. cbn [mbind outcome_bind].
  assert (assert_ (negb av || (z_cands s <=? Z.of_nat (length cs))) = Ret ()) as ->.
  { destruct av; [|done]. rewrite (proj2 (Z.leb_le _ _)) by auto. done. }
  cbn [mbind outcome_bind]. cbv zeta. set (cut := take (Z.to_nat (z_cands s)) cs).
  assert (Hline : forall (j : nat) d, cs !! j = Some d -> in_lines (Z.to_nat (z_numLines s)) (zw_lineId d)).
  { intros j d Hd. destruct (wk_at _ _ _ _ _ Hw j d Hd) as [_ Hat]. by eapply Forall_lookup_1; [apply (zg_range _ _ W)|]. }
  assert (Hcut : Z.of_nat (length cut) <= z_cands s /\ 2 <= Z.of_nat (length cut)) by (unfold cut; rewrite length_take; lia).
  destruct (rank_ok _ _ cc _ (zw_lineId <$> cut) (zg_policy _ _ W)) as (c & rp & -> & Hc & Hrp).
  { intros Hnil. apply fmap_nil_inv in Hnil. rewrite Hnil in Hcut. simpl in Hcut. lia. }
  { apply Forall_fmap, Forall_lookup. intros j d Hd. unfold cut in Hd. apply lookup_take_Some in Hd as [Hd _]. by apply (Hline j). }
  { rewrite length_fmap. lia. }
  { rewrite (zg_exact _ _ W). done. }
  destruct (z_index_ok c cut 0 Hc) as (j & d & Ei & [Hd Hfirst] & Hdc). cbn [mbind outcome_bind]. rewrite Ei, Z.add_0_l.
  pose proof (lookup_lt_Some _ _ _ Hd) as Hj. pose proof Hd as [Hd' Hjc]%lookup_take_Some.
  assert (Hf : first_at cs j d) by (split; [done|]; intros i e Hi He; apply (Hfirst i e Hi); unfold cut; rewrite lookup_take_lt by lia; done).
  destruct (zpath_ok s a cs fs Hways Hw j d Hf) as (l & Hl & Hn & Hll & Hel). pose proof (Hline j d Hd') as Hr. unfold in_lines in Hr. rewrite Hdc in Hr.
  rewrite (proj2 (Z.ltb_lt c (z_numLines s))) by lia. cbn [assert_ mbind outcome_bind].
  assert (Hlq : Z.of_nat (length l) <= z_cands s / z_ways s) by (apply Z.div_le_lower_bound; lia). pose proof (zg_swaps _ _ W) as Hsw. assert (Z.of_nat (length l) <= Z.of_nat j) by nia.
  pose proof (zpath_take s a cs fs _ _ (Z.to_nat (z_cands s)) Hw Hways Hl ltac:(lia)) as Hl'.
  pose proof (z_swaps_ok cut (Z.of_nat j) (d :: l) Hl' (length cut) (swapArray s) 0 ltac:(simpl; lia) ltac:(simpl; lia)) as Es. change (Z.of_nat 0) with 0 in Es. rewrite Es. cbn [mbind outcome_bind].
  destruct (z_line_at false s c W) as (wb & -> & Hwb); [unfold in_lines; lia|]. cbn [assert_ mbind outcome_bind].
  assert ((0 <? Z.of_nat (0 + length (d :: l))) = true) as -> by (apply Z.ltb_lt; simpl; lia). cbn [assert_ mbind outcome_bind].
  eexists c, wb, _. split; [done|]. split; [|split; [lia|split; [done|]]].
  2: { intros b. rewrite (zh_map _ _ _ _ T). naive_solver lia. }
  by apply (z_pending_path s M a cs fs j c d l rp).
Qed.

(** *** The contract of cache arrays *)

Lemma z_holds_put s array table M array' table' rp : z_holds s array table M -> z_holds (z_put s array' table' rp) array table M.
Proof. by intros []. Qed.

Lemma z_pending_put s M a c rp :
  z_pending s M a c -> rp_inv (Z.to_nat (z_numLines s)) (Z.to_nat (z_cands s)) true rp -> z_pending (z_put s (z_array s) (lookupArray s) rp) M a c.
Proof.
  intros [W T Ha Hm Hp] Hrp. split; try done; [|by apply z_holds_put]. by apply (z_wf_put true); try done; apply W.
Qed.

#[export] Instance z_cache_array : CacheArray (ZArray P F).
Proof.
  refine {| ca_lookup := z_lookup; ca_preinsert := z_preinsert; ca_postinsert := z_postinsert; ca_is := fun s M => z_wf false s /\ z_holds s (z_array s) (lookupArray s) M;
            ca_pending := z_pending; ca_lines := z_numLines |}.
  - intros s M a upd [W T] Ha. destruct (z_lookup_ok false s M a upd W T Ha) as (rp & E & Hrp). eexists. split; [exact E|]. split; [|done].
    split; [by apply (z_wf_put false); try done; apply W|by apply z_holds_put].
  - intros cc s M a [W T] Ha Hm. by apply z_preinsert_ok.
  - intros s M a c b upd Hp Hb. destruct (z_lookup_ok true s M b upd (zp_wf _ _ _ _ Hp) (zp_holds _ _ _ _ Hp) Hb) as (rp & E & Hrp). eexists. split; [exact E|]. split; [|done].
    by apply z_pending_put.
  - intros s M a c Hp. destruct (z_postinsert_ok s M a c Hp) as (s' & E & W & T & Hn). by exists s'.
  - intros s M a c [W T] Hm. apply (zh_map _ _ _ _ T) in Hm as (Ha & Hc & Hl). split; [done|]. split; [done|]. apply lookup_lt_Some in Hl. pose proof (zg_array _ _ W). lia.
Defined.

Lemma newZArray_ok numLines ways cands rp (hf : F) s :
  newZArray numLines ways cands rp hf = Ret s -> 0 <= numLines < 2 ^ 31 -> cands < 2 ^ 30 -> ways <= hash_funcs hf -> rp_exact = false ->
  rp_inv (Z.to_nat numLines) (Z.to_nat cands) false rp -> ca_is s ∅ /\ z_numLines s = numLines /\ z_ways s = ways /\ z_cands s = cands.
Proof.
  intros E Hn Hc Hh Hex Hrp. unfold newZArray in E. apply bind_ret_inv in E as (u1 & H1 & E). apply bind_ret_inv in E as (u2 & H2 & E). apply bind_ret_inv in E as (u3 & H3 & E).
  apply bind_ret_inv in E as (u4 & H4 & E). injection E as <-. apply assert_ret_inv in H1, H2, H3, H4. zb.
  pose proof (Z.div_mod numLines ways ltac:(lia)) as Hd. rewrite H3 in Hd. pose proof (Z.div_pos numLines ways ltac:(lia) ltac:(lia)). pose proof (Z.div_pos cands ways ltac:(lia) ltac:(lia)).
  assert (numLines / ways < 2 ^ 32) by nia. apply isPow2_spec in H4 as (b & Hb & Hs); [|lia|split; lia]. pose proof (Z.pow_pos_nonneg 2 b). split; [split|done].
  - split; simpl; first [done|lia|by exists b|rewrite u32_small; lia|rewrite ?length_replicate, ?length_seqZ; lia|apply NoDup_seqZ|idtac].
    apply Forall_forall. intros x Hx. apply elem_of_seqZ in Hx. unfold in_lines. lia.
  - split; simpl.
    + intros a i. rewrite lookup_empty. split; [done|]. intros (Ha & _ & Hl). apply lookup_replicate in Hl as [-> _]. unfold is_line in Ha. lia.
    + intros i a Hl. apply lookup_replicate in Hl as [-> _]. done.
    + intros a i. by rewrite lookup_empty.
Qed.

End Theory.

(** ** Histories *)


(** In every state a Z array can reach, the walk for a line that is not held ends; the
    number it chooses is reported with the line it holds, if it holds one; and
    the path of moves has between one and [cands / ways + 1] positions, one less
    than the array of swaps has room for, all of them different: although the walk
    may meet a line twice, the moves never form a loop. *)
Theorem zarray_path {P F} `{ReplPolicy P} `{HashFamily F} numLines ways cands (rp : P) (hf : F) s rs tr s' cc a :
  newZArray numLines ways cands rp hf = Ret s -> 0 <= numLines < 2 ^ 31 -> cands < 2 ^ 30 -> ways <= hash_funcs hf -> rp_exact = false ->
  rp_inv (Z.to_nat numLines) (Z.to_nat cands) false rp -> Forall (fun r => is_line (ar_line r) /\ Forall is_line (ar_invs r)) rs ->
  cache_run rs s = Ret (tr, s') -> is_line a -> holds tr !! a = None ->
  exists c wb s'', z_preinsert cc s' a = Ret (c, wb, s'') /\ (forall b, holds tr !! b = Some c <-> b = wb /\ is_line b) /\
    1 <= swapArrayLen s'' <= z_cands s'' / z_ways s'' + 1 /\ NoDup (take (Z.to_nat (swapArrayLen s'')) (swapArray s'')).
Proof.
  intros E Hn Hc Hh Hex Hrp Hrs Er Ha Hm. destruct (newZArray_ok numLines ways cands rp hf s E Hn Hc Hh Hex Hrp) as (Hs & _).
  destruct (cache_run_ok rs s Hs Hrs) as (tr' & s1 & Er' & _ & [W T] & _). rewrite Er in Er'. injection Er' as <- <-.
  destruct (z_preinsert_ok cc s' (holds tr) a W T Ha Hm) as (c & wb & s'' & Ep & Hp & _ & _ & Hwb). exists c, wb, s''. split; [done|]. split; [done|].
  destruct (zp_path _ _ _ _ Hp) as (p & ps & rest & w & Hsw & Hlen & Hnd & _ & _ & _ & _ & _ & Hps). split; [lia|].
  rewrite Hlen, Nat2Z.id, Hsw. by rewrite (take_app_length' (p :: ps)).
Qed.

(** Eight lines in two ways, six candidates. *)
Definition demo_functions : H3HashFamily := ret_or (mkH3 0 0 []) (newH3 2 8 demo_rnd).
Lemma demo_functions_ok : h3_ok demo_functions /\ numFuncs demo_functions = 2.
Proof. apply (newH3_ok 2 8 demo_rnd); [vm_compute; reflexivity|lia]. Qed.
Definition demo_family : {f : H3HashFamily | h3_ok f} := exist h3_ok demo_functions (proj1 demo_functions_ok).
Definition demo_z : ZArray LRUReplPolicy {f : H3HashFamily | h3_ok f} :=
  ret_or (mkZ [] [] (newLRU false 0) demo_family 0 0 0 0 0 [] 0 0) (newZArray 8 2 6 (newLRU false 8) demo_family).
Definition demo_z_reqs : list array_req := demo_array_req <$> [2; 4; 6; 8; 10; 12; 14; 16; 18; 2; 20; 22; 24; 4].
Definition demo_z_run : list (Z * Z) * ZArray LRUReplPolicy {f : H3HashFamily | h3_ok f} := ret_or ([], demo_z) (cache_run demo_z_reqs demo_z).


Lemma zarray_path_witness :
  exists c wb s'', z_preinsert (mkCC (fun _ => true) (fun _ => 0)) demo_z_run.2 26 = Ret (c, wb, s'') /\ 1 <= swapArrayLen s'' <= z_cands s'' / z_ways s'' + 1.
Proof.
  destruct (zarray_path 8 2 6 (newLRU false 8) demo_family demo_z demo_z_reqs demo_z_run.1 demo_z_run.2 (mkCC (fun _ => true) (fun _ => 0)) 26) as (c & wb & s'' & E & _ & Hl & _).
  - vm_compute. reflexivity.
  - lia.
  - lia.
  - change (2 <= numFuncs demo_functions). rewrite (proj2 demo_functions_ok). lia.
  - reflexivity.
  - reflexivity.
  - repeat constructor; unfold is_line; simpl; lia.
  - vm_compute. reflexivity.
  - unfold is_line. lia.
  - vm_compute. reflexivity.
  - exists c, wb, s''. split; [exact E|exact Hl].
Defined.

(** The walk into an array that is not full has fewer candidates than the random policy
    asserts: its first insertion stops. *)
Lemma zarray_random_stops :
  (s ← newZArray 8 2 6 (newRand 6 (fun _ => 0)) mkId; z_preinsert (mkCC (fun _ => true) (fun _ => 0)) s 2) = Stop AssertFailed.
Proof. vm_compute. reflexivity. Qed.
