(* ===== verification/Locks.v ===== *)
(** * Locks

    src/src/locks.h: the lock on a futex with its variants (without spinning, with a
    timeout), the spin lock and the ticket lock; src/src/mutex.h: [rwmutex].  Any
    number of threads interleave at the granularity of single reads, writes and
    atomic instructions of the shared word; a thread is its position in the code
    with the local variables that are live there.  The memory is sequentially consistent.
    The theorems show mutual exclusion, that a thread asleep in the kernel is never
    forgotten, that tickets are served in order, and that readers and writers
    exclude each other. *)

From S2P Require Import Prelude.

(** ** [futex_lock], [futex_lock_nospin], [futex_trylock_nospin_timeout], [futex_unlock] *)

(** Which of the three functions a thread is in. *)
Inductive futex_call : Type := Lock | LockNospin | TrylockTimeout.

(** How often the function tests the word before it blocks. *)
Definition tries (k : futex_call) : nat := match k with Lock => 5 | _ => 1 end.

(** Positions: outside, at the test number [i] of the word, at the compare-and-swap
    after it, at the first exchange, at the call of FUTEX_WAIT, asleep in it, at the
    second exchange, after the lock was taken; in [futex_unlock] at the write of 0
    and at the call of FUTEX_WAKE. *)
Inductive futex_pc : Type :=
  | Outside
  | Test (k : futex_call) (i : nat)
  | Cas (k : futex_call) (i : nat)
  | Swap1 (k : futex_call)
  | WaitCall (k : futex_call)
  | Asleep (k : futex_call)
  | Swap2 (k : futex_call)
  | Holding
  | Store0
  | WakeCall.

#[export] Instance futex_call_eq_dec : EqDecision futex_call.
Proof. solve_decision. Defined.
#[export] Instance futex_pc_eq_dec : EqDecision futex_pc.
Proof. solve_decision. Defined.

Definition next_test (k : futex_call) (i : nat) : futex_pc := if (S i <? tries k)%nat then Test k (S i) else Swap1 k.

(** One access of a thread to the word [lock] inside a locking function or between the
    instructions of [futex_unlock]; [None] where the thread is not about to make
    one. *)
Definition futex_run (lock : Z) (p : futex_pc) : option (Z * futex_pc) :=
  match p with
  | Test k i => Some (lock, if lock =? 0 then Cas k i else next_test k i)
  | Cas k i => if lock =? 0 then Some (1, Holding) else Some (lock, next_test k i)
  | Swap1 k => Some (2, if lock =? 0 then Holding else WaitCall k)
  | WaitCall k => Some (lock, if lock =? 2 then Asleep k else Swap2 k)
  | Swap2 k => Some (2, if lock =? 0 then Holding else match k with TrylockTimeout => Outside | _ => Test k 0 end)
  | Store0 => Some (0, WakeCall)
  | Outside | Asleep _ | Holding | WakeCall => None
  end.

(** The first instruction of [futex_unlock]. *)
Definition futex_unlock (lock : Z) : Z * futex_pc := (u32 (lock - 1), if lock =? 1 then Outside else Store0).

Definition futex_haswaiters (lock : Z) : bool := lock =? 2.

Record futex_state : Type := mkFutex { word : Z; threads : list futex_pc }.

Inductive futex_step : futex_state -> futex_state -> Prop :=
  | futex_begin lock ts t k : ts !! t = Some Outside -> futex_step (mkFutex lock ts) (mkFutex lock (<[t := Test k 0]> ts))
  | futex_access lock ts t p lock' p' :
      ts !! t = Some p -> futex_run lock p = Some (lock', p') -> futex_step (mkFutex lock ts) (mkFutex lock' (<[t := p']> ts))
  | futex_release lock ts t :
      ts !! t = Some Holding -> futex_step (mkFutex lock ts) (mkFutex (futex_unlock lock).1 (<[t := (futex_unlock lock).2]> ts))
  | futex_wake lock ts t u k :
      ts !! t = Some WakeCall -> ts !! u = Some (Asleep k) -> futex_step (mkFutex lock ts) (mkFutex lock (<[u := Swap2 k]> (<[t := Outside]> ts)))
  | futex_wake_none lock ts t :
      ts !! t = Some WakeCall -> (forall u k, ts !! u <> Some (Asleep k)) -> futex_step (mkFutex lock ts) (mkFutex lock (<[t := Outside]> ts))
  | futex_return lock ts u k : (* a signal, or the timeout *)
      ts !! u = Some (Asleep k) -> futex_step (mkFutex lock ts) (mkFutex lock (<[u := Swap2 k]> ts)).

(** [n] threads and a lock that was initialised. *)
Definition futex_init (n : nat) : futex_state := mkFutex 0 (replicate n Outside).

(** *** Mutual exclusion and wakeups *)

(** The thread owns the lock, or is about to write 0 to give it up. *)
Definition owning (p : futex_pc) : bool := match p with Holding | Store0 => true | _ => false end.
Definition asleep (p : futex_pc) : bool := match p with Asleep _ => true | _ => false end.
(** The thread is about to wake another, or to take or mark the lock after sleeping. *)
Definition waking (p : futex_pc) : bool := match p with Store0 | WakeCall | Swap2 _ => true | _ => false end.

Record futex_inv (s : futex_state) : Prop := {
  fi_word : 0 <= word s <= 2;
  fi_owner : count_b owning (threads s) = if word s =? 0 then 0 else 1;
  fi_asleep : count_b asleep (threads s) = 0 \/ word s = 2 \/ 0 < count_b waking (threads s)
}.

Lemma futex_inv_init n : futex_inv (futex_init n).
Proof. split; simpl; rewrite ?count_b_replicate by done; [lia|done|by left]. Qed.

Lemma futex_run_inv lock ts t p lock' p' :
  futex_inv (mkFutex lock ts) -> ts !! t = Some p -> futex_run lock p = Some (lock', p') -> futex_inv (mkFutex lock' (<[t := p']> ts)).
Proof.
  intros [W O S] Ht Hr. simpl in W, O, S. pose proof (count_b_nonneg asleep ts). pose proof (count_b_nonneg waking ts). pose proof (count_b_nonneg owning ts).
  pose proof (count_b_pos owning ts t p Ht). pose proof (count_b_pos waking ts t p Ht).
  destruct p as [|k i|k i|k|k|k|k| | |]; simpl in Hr; try done; unfold next_test in Hr; repeat case_match; zb; simplify_eq; split; simpl; count_inserts; simpl in *; repeat case_match; zb; try lia.
Qed.

Lemma futex_step_inv s s' : futex_step s s' -> futex_inv s -> futex_inv s'.
Proof.
  intros Hs I. destruct Hs as [lock ts t k Ht|lock ts t p lock' p' Ht Hr|lock ts t Ht|lock ts t u k Ht Hu|lock ts t Ht Hn|lock ts u k Hu].
  - destruct I as [W O S]. simpl in *. split; simpl; count_inserts; simpl; try done; lia.
  - by eapply futex_run_inv.
  - destruct I as [W O S]. simpl in *. pose proof (count_b_pos owning ts t Holding Ht eq_refl). pose proof (count_b_nonneg waking ts).
    destruct (lock =? 0) eqn:E0; zb; [lia|]. assert (lock = 1 \/ lock = 2) as [-> | ->] by lia; split; simpl; count_inserts; simpl; try done; lia.
  - destruct I as [W O S]. simpl in *. assert (Hu' : <[t := Outside]> ts !! u = Some (Asleep k)) by (rewrite list_lookup_insert_ne; [done|congruence]).
    pose proof (count_b_nonneg waking ts). pose proof (count_b_pos waking ts t WakeCall Ht eq_refl).
    split; simpl; count_inserts; simpl; try done; try lia.
  - destruct I as [W O S]. simpl in *. split; simpl; count_inserts; simpl; try done; try lia. left.
    destruct (decide (count_b asleep ts = 0)); [lia|]. pose proof (count_b_nonneg asleep ts). destruct (count_b_exists asleep ts ltac:(lia)) as (u & [] & Hu & Ha); try done. by destruct (Hn u k).
  - destruct I as [W O S]. simpl in *. pose proof (count_b_nonneg waking ts). split; simpl; count_inserts; simpl; try done; lia.
Qed.

Lemma futex_reachable n s : rtc futex_step (futex_init n) s -> futex_inv s.
Proof. intros H. eapply rtc_invariant; [|exact H|apply futex_inv_init]. intros s1 s2 I Hs. by eapply futex_step_inv. Qed.

(** C21: At every moment of every interleaving of any number of threads that use a lock
    through the three locking functions, at most one thread has it, and as long
    as one has it or is giving it up the word is not 0, so that no other can
    take it. *)
Theorem futex_mutual_exclusion n s t u :
  rtc futex_step (futex_init n) s -> threads s !! t = Some Holding ->
  word s <> 0 /\ (threads s !! u = Some Holding \/ threads s !! u = Some Store0 -> u = t).
Proof.
  intros Hr Ht. pose proof (futex_reachable n s Hr) as [_ O _]. pose proof (count_b_pos owning _ _ _ Ht eq_refl). destruct (word s =? 0) eqn:Hw; zb; [lia|]. split; [done|].
  intros [Hu|Hu]; symmetry; by apply (count_b_one owning (threads s) t u Holding _ ltac:(lia) Ht eq_refl Hu).
Qed.

(** C22: No wakeup is lost: as long as a thread is asleep in the kernel, some other thread
    is awake that holds the lock, is releasing it, or has just woken and is about
    to take the lock or mark it as contended.  So the threads of a lock are never all
    asleep. *)
Theorem futex_no_lost_wakeup n s t k :
  rtc futex_step (futex_init n) s -> threads s !! t = Some (Asleep k) ->
  exists u p, threads s !! u = Some p /\ (owning p = true \/ waking p = true).
Proof.
  intros Hr Ht. pose proof (futex_reachable n s Hr) as [_ O S]. pose proof (count_b_pos asleep _ _ _ Ht eq_refl). destruct S as [S|[S|S]]; [lia| |].
  - rewrite S in O. destruct (count_b_exists owning (threads s)) as (u & p & Hu & Hp); [rewrite O; done|]. exists u, p. auto.
  - destruct (count_b_exists waking (threads s) S) as (u & p & Hu & Hp). exists u, p. auto.
Qed.

(** *** Runs for the witnesses *)

(** Lets thread [t] make [n] accesses. *)
Fixpoint futex_go (n : nat) (t : nat) (s : futex_state) : futex_state :=
  match n with
  | O => s
  | S n =>
      match threads s !! t ≫= futex_run (word s) with
      | Some (w, p) => futex_go n t (mkFutex w (<[t := p]> (threads s)))
      | None => s
      end
  end.

Lemma futex_go_steps n t s : rtc futex_step s (futex_go n t s).
Proof.
  revert s. induction n as [|n IH]; intros [w ts]; [done|]. simpl. destruct (ts !! t) as [p|] eqn:Ht; simpl; [|done]. destruct (futex_run w p) as [[w' p']|] eqn:Hr; [|done].
  eapply rtc_l; [by eapply futex_access|apply IH].
Qed.

Lemma futex_begins k t s : threads s !! t = Some Outside -> rtc futex_step s (mkFutex (word s) (<[t := Test k 0]> (threads s))).
Proof. intros Ht. destruct s as [w ts]. apply rtc_once. by apply futex_begin. Qed.

Lemma futex_releases t s : threads s !! t = Some Holding -> rtc futex_step s (mkFutex (futex_unlock (word s)).1 (<[t := (futex_unlock (word s)).2]> (threads s))).
Proof. intros Ht. destruct s as [w ts]. apply rtc_once. by apply futex_release. Qed.

Lemma futex_wakes t u k s : threads s !! t = Some WakeCall -> threads s !! u = Some (Asleep k) -> rtc futex_step s (mkFutex (word s) (<[u := Swap2 k]> (<[t := Outside]> (threads s)))).
Proof. intros Ht Hu. destruct s as [w ts]. apply rtc_once. by apply futex_wake. Qed.

(** Two threads: the first takes the lock, the second goes to sleep on it. *)
Lemma futex_contended : rtc futex_step (futex_init 2) (mkFutex 2 [Holding; Asleep Lock]).
Proof.
  etransitivity; [apply (futex_begins Lock 0); done|]. etransitivity; [apply (futex_go_steps 2 0)|]. etransitivity; [apply (futex_begins Lock 1); vm_compute; done|].
  etransitivity; [apply (futex_go_steps 7 1)|]. reflexivity.
Qed.

Lemma futex_mutual_exclusion_witness : 2 <> 0 /\ (Some (Asleep Lock) = Some Holding \/ Some (Asleep Lock) = Some Store0 -> 1%nat = 0%nat).
Proof. apply (futex_mutual_exclusion 2 (mkFutex 2 [Holding; Asleep Lock]) 0 1); [exact futex_contended|reflexivity]. Defined.

Lemma futex_no_lost_wakeup_witness : exists u p, [Holding; Asleep Lock] !! u = Some p /\ (owning p = true \/ waking p = true).
Proof. apply (futex_no_lost_wakeup 2 (mkFutex 2 [Holding; Asleep Lock]) 1 Lock); [exact futex_contended|reflexivity]. Defined.

(** The comment of [futex_haswaiters] promises that there is a waiter if it returns true;
    the last waiter that takes the lock leaves it marked. *)
Lemma futex_haswaiters_alone : exists s, rtc futex_step (futex_init 2) s /\ futex_haswaiters (word s) = true /\ threads s = [Outside; Holding].
Proof.
  exists (mkFutex 2 [Outside; Holding]). split; [|done]. etransitivity; [exact futex_contended|]. etransitivity; [apply (futex_releases 0); done|].
  etransitivity; [apply (futex_go_steps 1 0)|]. etransitivity; [apply (futex_wakes 0 1 Lock); done|]. etransitivity; [apply (futex_go_steps 1 1)|]. reflexivity.
Qed.

(** ** [spin_lock], [spin_trylock], [spin_unlock] *)

(** Positions: outside, at the test, at the compare-and-swap, holding the lock; [try]
    tells if the function gives up instead of trying again. *)
Inductive spin_pc : Type := SOutside | STest (try : bool) | SCas (try : bool) | SHolding.

Definition spin_again (try : bool) : spin_pc := if try then SOutside else STest false.

Definition spin_run (lock : Z) (p : spin_pc) : option (Z * spin_pc) :=
  match p with
  | STest try => Some (lock, if lock =? 0 then SCas try else spin_again try)
  | SCas try => if lock =? 0 then Some (1, SHolding) else Some (lock, spin_again try)
  | SOutside | SHolding => None
  end.

Definition spin_unlock (lock : Z) : outcome Z := _ ← assert_ (lock =? 1); Ret 0.

Inductive spin_step : Z * list spin_pc -> Z * list spin_pc -> Prop :=
  | spin_begin lock ts t try : ts !! t = Some SOutside -> spin_step (lock, ts) (lock, <[t := STest try]> ts)
  | spin_access lock ts t p lock' p' : ts !! t = Some p -> spin_run lock p = Some (lock', p') -> spin_step (lock, ts) (lock', <[t := p']> ts)
  | spin_release lock ts t lock' : ts !! t = Some SHolding -> spin_unlock lock = Ret lock' -> spin_step (lock, ts) (lock', <[t := SOutside]> ts).

Definition spinning (p : spin_pc) : bool := match p with SHolding => true | _ => false end.

Definition spin_inv (s : Z * list spin_pc) : Prop := 0 <= s.1 <= 1 /\ count_b spinning s.2 = s.1.

Lemma spin_step_inv s s' : spin_inv s -> spin_step s s' -> spin_inv s'.
Proof.
  intros [W O] Hs. destruct Hs as [lock ts t try Ht|lock ts t p lock' p' Ht Hr|lock ts t lock' Ht Hu]; simpl in *; unfold spin_inv; simpl; count_inserts; simpl.
  - lia.
  - destruct p as [|try|try|]; simpl in *; try done; destruct (lock =? 0) eqn:E; zb; simplify_eq; simpl; try lia; destruct try; simpl; lia.
  - unfold spin_unlock in Hu. apply bind_ret_inv in Hu as (u & Ha & Hu). apply assert_ret_inv in Ha. zb. simplify_eq. lia.
Qed.

(** A thread that has the spin lock is the only one and its unlock does not fail the
    assert. *)
Lemma spin_mutual_exclusion n s t u :
  rtc spin_step (0, replicate n SOutside) s -> s.2 !! t = Some SHolding -> is_ret (spin_unlock s.1) = true /\ (s.2 !! u = Some SHolding -> u = t).
Proof.
  intros Hr Ht. assert (I : spin_inv s).
  { eapply rtc_invariant; [exact spin_step_inv|exact Hr|]. split; simpl; rewrite ?count_b_replicate; done. }
  destruct I as [W O]. pose proof (count_b_pos spinning _ _ _ Ht eq_refl). split; [by replace s.1 with 1 by lia|]. intros Hu. by apply (count_b_one spinning s.2 u t SHolding SHolding ltac:(lia)).
Qed.

(** ** [ticket_lock], [ticket_trylock], [ticket_unlock] *)

Definition TICKET_MASK : Z := 2 ^ 16 - 1.

(** Positions: outside, at the read of the word, at the compare-and-swap with the value
    read, waiting with a ticket, holding the lock; in [ticket_trylock] at the read and
    at the compare-and-swap. *)
Inductive ticket_pc : Type :=
  | TOutside
  | TRead
  | TCas (val : Z)
  | TWait (ticket : Z)
  | THolding
  | TTryRead
  | TTryCas (val : Z).

(** The lock word after a ticket was drawn from [val]. *)
Definition ticket_drawn (val : Z) : Z := Z.lor (Z.land val (Z.shiftl TICKET_MASK 16)) (Z.land (u32 (val + 1)) TICKET_MASK).

Definition ticket_run (lock : Z) (p : ticket_pc) : option (Z * ticket_pc) :=
  match p with
  | TRead => Some (lock, TCas lock)
  | TCas val => if lock =? val then Some (ticket_drawn val, TWait (Z.land val TICKET_MASK)) else Some (lock, TRead)
  | TWait ticket => Some (lock, if Z.land (Z.shiftr lock 16) TICKET_MASK =? ticket then THolding else TWait ticket)
  | TTryRead =>
      let hi := Z.land (Z.shiftr lock 16) TICKET_MASK in
      let lo := Z.land lock TICKET_MASK in
      Some (lock, if hi =? lo then TTryCas lock else TOutside)
  | TTryCas val =>
      let hi := Z.land (Z.shiftr val 16) TICKET_MASK in
      let newLo := Z.land (u32 (Z.land val TICKET_MASK + 1)) TICKET_MASK in
      if lock =? val then Some (Z.lor (Z.shiftl hi 16) newLo, THolding) else Some (lock, TOutside)
  | TOutside | THolding => None
  end.

Definition ticket_unlock (lock : Z) : Z := u32 (lock + 2 ^ 16).

Record ticket_state : Type := mkTicket { t_word : Z; t_threads : list ticket_pc }.

(** What a step does to the queue of the lock: a thread draws a ticket, or the thread at
    the front gives the lock up. *)
Inductive ticket_event : Type := Entered (t : nat) | Left (t : nat).

Definition ticket_takes (p p' : ticket_pc) : bool :=
  match p, p' with TCas _, TWait _ => true | TTryCas _, THolding => true | _, _ => false end.

Inductive ticket_step : ticket_state -> list ticket_event -> ticket_state -> Prop :=
  | ticket_begin lock ts t (try : bool) : ts !! t = Some TOutside -> ticket_step (mkTicket lock ts) [] (mkTicket lock (<[t := if try then TTryRead else TRead]> ts))
  | ticket_access lock ts t p lock' p' :
      ts !! t = Some p -> ticket_run lock p = Some (lock', p') -> ticket_step (mkTicket lock ts) (if ticket_takes p p' then [Entered t] else []) (mkTicket lock' (<[t := p']> ts))
  | ticket_release lock ts t : ts !! t = Some THolding -> ticket_step (mkTicket lock ts) [Left t] (mkTicket (ticket_unlock lock) (<[t := TOutside]> ts)).

Inductive ticket_history (n : nat) : list ticket_event -> ticket_state -> Prop :=
  | ticket_start : ticket_history n [] (mkTicket 0 (replicate n TOutside))
  | ticket_more evs s ev s' : ticket_history n evs s -> ticket_step s ev s' -> ticket_history n (evs ++ ev) s'.

(** The specification: a queue that only its front leaves. *)
Fixpoint queue_run (evs : list ticket_event) (q : list nat) : option (list nat) :=
  match evs with
  | [] => Some q
  | Entered t :: evs => queue_run evs (q ++ [t])
  | Left t :: evs => match q with u :: q => if decide (u = t) then queue_run evs q else None | [] => None end
  end.

Lemma queue_run_app evs evs' q : queue_run (evs ++ evs') q = queue_run evs q ≫= queue_run evs'.
Proof. revert q. induction evs as [|[t|t] evs IH]; intros q; simpl; [done|apply IH|]. destruct q as [|u q]; [done|]. by case_decide. Qed.

(** The word for [served] tickets that were given back and [served + k] that were drawn. *)
Definition ticket_word (served k : Z) : Z := served mod 2 ^ 16 * 2 ^ 16 + (served + k) mod 2 ^ 16.

(** A thread that is not in the queue is at no position behind the draw. *)
Definition before_draw (p : ticket_pc) : bool := match p with TWait _ | THolding => false | _ => true end.

Record ticket_inv (s : ticket_state) (served : Z) (q : list nat) : Prop := {
  tv_served : 0 <= served;
  tv_word : t_word s = ticket_word served (Z.of_nat (length q));
  tv_nodup : NoDup q;
  tv_queue : forall i t, q !! i = Some t -> exists p, t_threads s !! t = Some p /\ (p = TWait ((served + Z.of_nat i) mod 2 ^ 16) \/ i = 0%nat /\ p = THolding);
  tv_rest : forall t p, t_threads s !! t = Some p -> t ∉ q -> before_draw p = true;
  tv_try : forall t val, t_threads s !! t = Some (TTryCas val) -> Z.land (Z.shiftr val 16) TICKET_MASK = Z.land val TICKET_MASK
}.

Lemma ticket_word_range served k : 0 <= ticket_word served k < 2 ^ 32.
Proof. unfold ticket_word. pose proof (Z.mod_pos_bound served (2 ^ 16) ltac:(lia)). pose proof (Z.mod_pos_bound (served + k) (2 ^ 16) ltac:(lia)). lia. Qed.

Lemma ticket_low served k : Z.land (ticket_word served k) TICKET_MASK = (served + k) mod 2 ^ 16.
Proof.
  change TICKET_MASK with (Z.ones 16). rewrite Z.land_ones by lia. unfold ticket_word. rewrite Z.add_comm, Z.mod_add by lia. by rewrite Z.mod_mod.
Qed.

Lemma ticket_high served k : Z.land (Z.shiftr (ticket_word served k) 16) TICKET_MASK = served mod 2 ^ 16.
Proof.
  change TICKET_MASK with (Z.ones 16). rewrite Z.land_ones, Z.shiftr_div_pow2 by lia. unfold ticket_word. rewrite Z.add_comm, Z.div_add by lia.
  rewrite (Z.div_small ((served + k) mod 2 ^ 16)) by (apply Z.mod_pos_bound; lia). by rewrite Z.add_0_l, Z.mod_mod.
Qed.

Lemma ticket_join hi lo : 0 <= lo < 2 ^ 16 -> Z.lor (hi * 2 ^ 16) lo = hi * 2 ^ 16 + lo.
Proof. intros Hlo. pose proof (lor_shiftl_add lo hi 16) as H. rewrite Z.shiftl_mul_pow2 in H by lia. rewrite Z.lor_comm, H; lia. Qed.

Lemma ticket_next served k : Z.land (u32 (ticket_word served k + 1)) TICKET_MASK = (served + (k + 1)) mod 2 ^ 16.
Proof.
  change TICKET_MASK with (Z.ones 16). rewrite Z.land_ones by lia. unfold u32, wrap. change (2 ^ 32) with (2 ^ 16 * 2 ^ 16). rewrite Z.rem_mul_r by lia.
  rewrite Z.mul_comm, Z.mod_add by lia. rewrite Z.mod_mod by lia. unfold ticket_word. replace (served mod 2 ^ 16 * 2 ^ 16 + (served + k) mod 2 ^ 16 + 1) with ((served + k) mod 2 ^ 16 + 1 + served mod 2 ^ 16 * 2 ^ 16) by lia.
  rewrite Z.mod_add by lia. rewrite Zplus_mod_idemp_l. f_equal. lia.
Qed.

Lemma ticket_drawn_word served k : ticket_drawn (ticket_word served k) = ticket_word served (k + 1).
Proof.
  unfold ticket_drawn. rewrite ticket_next. assert (Z.land (ticket_word served k) (Z.shiftl TICKET_MASK 16) = served mod 2 ^ 16 * 2 ^ 16) as ->.
  { rewrite <- (ticket_high served k) at 1. change TICKET_MASK with (Z.ones 16). rewrite <- Z.shiftl_mul_pow2 by lia. apply Z.bits_inj'. intros i Hi. rewrite Z.land_spec, !Z.shiftl_spec by lia.
    destruct (Z.ltb_spec i 16) as [Hl|Hl]; [rewrite !(Z.testbit_neg_r _ (i - 16)) by lia; by rewrite andb_false_r|]. rewrite Z.land_spec, Z.shiftr_spec by lia. by replace (i - 16 + 16) with i by lia. }
  rewrite ticket_join; [done|]. apply Z.mod_pos_bound. lia.
Qed.

Lemma ticket_unlock_word served k : 1 <= k -> ticket_unlock (ticket_word served k) = ticket_word (served + 1) (k - 1).
Proof.
  intros Hk. unfold ticket_unlock, ticket_word. replace (served + 1 + (k - 1)) with (served + k) by lia. unfold u32, wrap. change (2 ^ 32) with (2 ^ 16 * 2 ^ 16).
  pose proof (Z.mod_pos_bound (served + k) (2 ^ 16) ltac:(lia)). rewrite Z.rem_mul_r by lia.
  replace (served mod 2 ^ 16 * 2 ^ 16 + (served + k) mod 2 ^ 16 + 2 ^ 16) with ((served + k) mod 2 ^ 16 + (served mod 2 ^ 16 + 1) * 2 ^ 16) by lia.
  rewrite Z.mod_add, Z.div_add by lia. rewrite Z.mod_mod, Z.div_small by lia. rewrite Z.add_0_l, Zplus_mod_idemp_l. lia.
Qed.

Lemma ticket_queue_bound n s served q : ticket_inv s served q -> length (t_threads s) = n -> (length q <= n)%nat.
Proof.
  intros I Hl. rewrite <- (length_seq n 0). apply submseteq_length, NoDup_submseteq; [apply (tv_nodup _ _ _ I)|]. intros t Ht. apply list_elem_of_lookup in Ht as [i Hi].
  destruct (tv_queue _ _ _ I i t Hi) as (p & Hp & _). apply lookup_lt_Some in Hp. apply elem_of_seq. lia.
Qed.

(** A thread outside the queue moves without touching the word. *)
Lemma ticket_move s served q t p p' :
  ticket_inv s served q -> t_threads s !! t = Some p -> before_draw p = true -> before_draw p' = true ->
  (forall val, p' = TTryCas val -> Z.land (Z.shiftr val 16) TICKET_MASK = Z.land val TICKET_MASK) ->
  ticket_inv (mkTicket (t_word s) (<[t := p']> (t_threads s))) served q.
Proof.
  intros [V1 V2 V3 V4 V5 V6] Ht Hp Hp' Hval. pose proof (lookup_lt_Some _ _ _ Ht). split; simpl; try done.
  - intros i u Hu. destruct (V4 i u Hu) as (pu & Hpu & Hcase). exists pu. split; [|done]. rewrite list_lookup_insert_ne; [done|]. intros <-. rewrite Ht in Hpu. injection Hpu as <-. destruct Hcase as [->|[_ ->]]; done.
  - intros u pu Hu Huq. apply list_lookup_insert_Some in Hu as [(_ & -> & _)|[_ Hu]]; [done|by eapply V5].
  - intros u val Hu. apply list_lookup_insert_Some in Hu as [(_ & Hv & _)|[_ Hu]]; [by apply Hval|by eapply V6].
Qed.

(** A thread enters the queue at its end. *)
Lemma ticket_enter s served q t p p' lock' :
  ticket_inv s served q -> t_threads s !! t = Some p -> before_draw p = true -> lock' = ticket_word served (Z.of_nat (length q) + 1) ->
  p' = TWait ((served + Z.of_nat (length q)) mod 2 ^ 16) \/ q = [] /\ p' = THolding -> ticket_inv (mkTicket lock' (<[t := p']> (t_threads s))) served (q ++ [t]).
Proof.
  intros [V1 V2 V3 V4 V5 V6] Ht Hp -> Hp'. pose proof (lookup_lt_Some _ _ _ Ht).
  assert (Htq : t ∉ q) by (intros Hq; apply list_elem_of_lookup in Hq as [i Hi]; destruct (V4 i t Hi) as (pu & Hpu & [->|[_ ->]]); rewrite Ht in Hpu; injection Hpu as ->; done).
  split; simpl; try done.
  - rewrite length_app. simpl. f_equal. lia.
  - apply NoDup_app. split_and!; [done| |apply NoDup_singleton]. intros u Hu. rewrite list_elem_of_singleton. by intros ->.
  - intros i u Hu. apply lookup_app_Some in Hu as [Hu|[Hl Hu]].
    + destruct (V4 i u Hu) as (pu & Hpu & Hcase). exists pu. split; [|done]. rewrite list_lookup_insert_ne; [done|]. intros <-. apply Htq. by eapply list_elem_of_lookup_2.
    + apply list_lookup_singleton_Some in Hu as [Hi <-]. exists p'. split; [by apply list_lookup_insert_eq|]. replace i with (length q) by lia. destruct Hp' as [->|[-> ->]]; [by left|right; done].
  - intros u pu Hu Huq. apply list_lookup_insert_Some in Hu as [(<- & _ & _)|[_ Hu]]; [set_solver|]. eapply V5; [done|]. set_solver.
  - intros u val Hu. apply list_lookup_insert_Some in Hu as [(_ & Hv & _)|[_ Hu]]; [destruct Hp' as [->|[_ ->]]; done|by eapply V6].
Qed.

Lemma same_residue a k : 0 <= k < 2 ^ 16 -> (a + k) mod 2 ^ 16 = a mod 2 ^ 16 -> k = 0.
Proof.
  intros Hk He. assert (Hd : (a + k - a) mod 2 ^ 16 = 0) by (rewrite Zminus_mod, He, Z.sub_diag; done). replace (a + k - a) with k in Hd by lia. rewrite Z.mod_small in Hd by lia. done.
Qed.

Lemma ticket_release_inv s served q t :
  ticket_inv s served q -> t_threads s !! t = Some THolding -> exists q', q = t :: q' /\ ticket_inv (mkTicket (ticket_unlock (t_word s)) (<[t := TOutside]> (t_threads s))) (served + 1) q'.
Proof.
  intros [V1 V2 V3 V4 V5 V6] Ht. pose proof (lookup_lt_Some _ _ _ Ht). destruct (decide (t ∈ q)) as [Htq|Htq]; [|by pose proof (V5 t _ Ht Htq)]. apply list_elem_of_lookup in Htq as [i Hi].
  destruct (V4 i t Hi) as (p & Hp & [->|[-> _]]); [by rewrite Ht in Hp|]. destruct q as [|u q']; [done|]. injection Hi as ->. exists q'. split; [done|]. apply NoDup_cons in V3 as [Htq V3].
  split; simpl; try done; [lia| | | |].
  - rewrite V2, ticket_unlock_word by (simpl; lia). f_equal. simpl. lia.
  - intros j u Hu. destruct (V4 (S j) u Hu) as (pu & Hpu & Hcase). exists pu. split; [rewrite list_lookup_insert_ne; [done|]; intros <-; apply Htq; by eapply list_elem_of_lookup_2|].
    left. destruct Hcase as [->|[? _]]; [|done]. f_equal. f_equal. lia.
  - intros u p' Hu Huq. apply list_lookup_insert_Some in Hu as [(_ & <- & _)|[Hut Hu]]; [done|]. eapply V5; [done|]. set_solver.
  - intros u val Hu. apply list_lookup_insert_Some in Hu as [(_ & Hv & _)|[_ Hu]]; [done|by eapply V6].
Qed.

Section Ticket.
Context (n : nat) (Hn : Z.of_nat n < 2 ^ 16).

Lemma ticket_wait_inv s served q t k :
  ticket_inv s served q -> length (t_threads s) = n -> t_threads s !! t = Some (TWait k) ->
  ticket_inv (mkTicket (t_word s) (<[t := if Z.land (Z.shiftr (t_word s) 16) TICKET_MASK =? k then THolding else TWait k]> (t_threads s))) served q.
Proof using Hn.
  intros I Hl Ht. pose proof (ticket_queue_bound n s served q I Hl) as Hq. destruct I as [V1 V2 V3 V4 V5 V6]. pose proof (lookup_lt_Some _ _ _ Ht). rewrite V2, ticket_high.
  destruct (decide (t ∈ q)) as [Htq|Htq]; [|by pose proof (V5 t _ Ht Htq)]. apply list_elem_of_lookup in Htq as [i Hi].
  destruct (V4 i t Hi) as (p & Hp & [->|[_ ->]]); rewrite Ht in Hp; [|done]. injection Hp as ->. pose proof (lookup_lt_Some _ _ _ Hi). split; simpl; try done.
  - intros j u Hu. destruct (decide (u = t)) as [->|Hut].
    + assert (j = i) as -> by (by eapply NoDup_lookup). eexists. split; [by apply list_lookup_insert_eq|]. case_match; zb; [right; split; [|done]|by left].
      assert (Z.of_nat i = 0); [|lia]. by apply (same_residue served); [lia|].
    + destruct (V4 j u Hu) as (p & Hp & Hcase). exists p. split; [|done]. by rewrite list_lookup_insert_ne.
  - intros u p Hu Huq. apply list_lookup_insert_Some in Hu as [(<- & _ & _)|[_ Hu]]; [|by eapply V5]. destruct Huq. by eapply list_elem_of_lookup_2.
  - intros u val Hu. apply list_lookup_insert_Some in Hu as [(_ & Hv & _)|[_ Hu]]; [by case_match|by eapply V6].
Qed.

Lemma ticket_step_inv s ev s' served q :
  ticket_step s ev s' -> ticket_inv s served q -> length (t_threads s) = n ->
  exists served' q', queue_run ev q = Some q' /\ ticket_inv s' served' q' /\ length (t_threads s') = n.
Proof using Hn.
  intros Hs I Hl. destruct Hs as [lock ts t try Ht|lock ts t p lock' p' Ht Hr|lock ts t Ht].
  - exists served, q. split; [done|]. split; [|simpl; by rewrite length_insert]. apply (ticket_move (mkTicket lock ts) served q t TOutside); try done; by destruct try.
  - assert (Hl' : length (<[t := p']> ts) = n) by (by rewrite length_insert). pose proof (tv_word _ _ _ I) as Hw. simpl in Hw.
    destruct p as [| |val|k| | |val]; simpl in Hr; try done.
    + injection Hr as <- <-. exists served, q. split; [done|]. split; [|done]. by apply (ticket_move (mkTicket _ ts) served q t TRead).
    + destruct (lock =? val) eqn:Hv; zb; injection Hr as <- <-; [subst val lock|].
      * exists served, (q ++ [t]). split; [done|]. split; [|done]. eapply (ticket_enter (mkTicket _ ts)); try done; [by rewrite ticket_drawn_word|]. left. by rewrite ticket_low.
      * exists served, q. split; [done|]. split; [|done]. by apply (ticket_move (mkTicket _ ts) served q t (TCas val)).
    + injection Hr as <- <-. exists served, q. split; [by case_match|]. split; [|done]. by apply (ticket_wait_inv (mkTicket _ ts)).
    + injection Hr as <- <-. exists served, q. split; [by case_match|]. split; [|done]. apply (ticket_move (mkTicket _ ts) served q t TTryRead); try done; case_match; zb; try done. by intros val [= <-].
    + destruct (lock =? val) eqn:Hv; zb; injection Hr as <- <-; [subst val lock|].
      * pose proof (tv_try _ _ _ I t _ Ht) as Heq. rewrite ticket_high, ticket_low in Heq. pose proof (ticket_queue_bound n _ _ _ I Hl) as Hq.
        assert (Z.of_nat (length q) = 0) as Hq0 by (apply (same_residue served); [lia|done]). destruct q as [|u q]; [|simpl in Hq0; lia]. exists served, [t]. split; [done|]. split; [|done].
        apply (ticket_enter (mkTicket (ticket_word served (Z.of_nat (length (@nil nat)))) ts) served [] t (TTryCas (ticket_word served (Z.of_nat (length (@nil nat)))))); try done; [|by right].
        rewrite ticket_low, ticket_high. change (Z.of_nat (length (@nil nat))) with 0. rewrite Z.shiftl_mul_pow2 by lia. pose proof (Z.mod_pos_bound (served + 0) (2 ^ 16) ltac:(lia)).
        rewrite u32_small by lia. change TICKET_MASK with (Z.ones 16). rewrite Z.land_ones, Zplus_mod_idemp_l by lia. rewrite ticket_join by (apply Z.mod_pos_bound; lia). unfold ticket_word. do 2 f_equal. lia.
      * exists served, q. split; [done|]. split; [|done]. by apply (ticket_move (mkTicket _ ts) served q t (TTryCas val)).
  - destruct (ticket_release_inv _ served q t I Ht) as (q' & -> & I'). exists (served + 1), q'. simpl. rewrite decide_True by done. split; [done|]. split; [done|]. simpl. by rewrite length_insert.
Qed.

Lemma ticket_history_inv evs s : ticket_history n evs s -> exists served q, queue_run evs [] = Some q /\ ticket_inv s served q /\ length (t_threads s) = n.
Proof using Hn.
  induction 1 as [|evs s ev s' Hh IH Hs].
  - exists 0, []. split; [done|]. split; [|apply length_replicate]. split; simpl; try done; [constructor| |].
    + intros t p Ht _. apply lookup_replicate in Ht as [-> _]. done.
    + intros t val Ht. apply lookup_replicate in Ht as [? _]. done.
  - destruct IH as (served & q & Hq & I & Hl). destruct (ticket_step_inv s ev s' served q Hs I Hl) as (served' & q' & Hq' & I' & Hl'). exists served', q'. split; [|done].
    rewrite queue_run_app, Hq. done.
Qed.
End Ticket.

(** C27: With fewer than 2^16 threads the ticket lock serves its callers in the order in
    which they drew their tickets: over every history the draws and releases are
    those of a queue that only its front leaves, and a thread that has the lock is
    the front of that queue, so there is at most one. *)
Theorem ticket_lock_fifo n evs s :
  Z.of_nat n < 2 ^ 16 -> ticket_history n evs s ->
  exists q, queue_run evs [] = Some q /\ forall t, t_threads s !! t = Some THolding -> head q = Some t.
Proof.
  intros Hn Hh. destruct (ticket_history_inv n Hn evs s Hh) as (served & q & Hq & I & Hl). exists q. split; [done|]. intros t Ht.
  destruct (ticket_release_inv s served q t I Ht) as (q' & -> & _). done.
Qed.

(** Two threads: the first has the lock, the second waits. *)
Lemma ticket_demo : ticket_history 2 [Entered 0; Entered 1] (mkTicket 2 [THolding; TWait 1]).
Proof.
  assert (H1 : ticket_history 2 [] (mkTicket 0 [TRead; TOutside])) by exact (ticket_more 2 [] _ [] _ (ticket_start 2) (ticket_begin 0 [TOutside; TOutside] 0 false eq_refl)).
  assert (H2 : ticket_history 2 [] (mkTicket 0 [TRead; TRead])) by exact (ticket_more 2 [] _ [] _ H1 (ticket_begin 0 [TRead; TOutside] 1 false eq_refl)).
  assert (H3 : ticket_history 2 [] (mkTicket 0 [TCas 0; TRead])) by exact (ticket_more 2 [] _ [] _ H2 (ticket_access 0 [TRead; TRead] 0 TRead 0 (TCas 0) eq_refl eq_refl)).
  assert (H4 : ticket_history 2 [Entered 0] (mkTicket 1 [TWait 0; TRead])) by exact (ticket_more 2 [] _ [Entered 0] _ H3 (ticket_access 0 [TCas 0; TRead] 0 (TCas 0) 1 (TWait 0) eq_refl eq_refl)).
  assert (H5 : ticket_history 2 [Entered 0] (mkTicket 1 [TWait 0; TCas 1])) by exact (ticket_more 2 [Entered 0] _ [] _ H4 (ticket_access 1 [TWait 0; TRead] 1 TRead 1 (TCas 1) eq_refl eq_refl)).
  assert (H6 : ticket_history 2 [Entered 0; Entered 1] (mkTicket 2 [TWait 0; TWait 1])) by exact (ticket_more 2 [Entered 0] _ [Entered 1] _ H5 (ticket_access 1 [TWait 0; TCas 1] 1 (TCas 1) 2 (TWait 1) eq_refl eq_refl)).
  exact (ticket_more 2 [Entered 0; Entered 1] _ [] _ H6 (ticket_access 2 [TWait 0; TWait 1] 0 (TWait 0) 2 THolding eq_refl eq_refl)).
Qed.

Lemma ticket_lock_fifo_witness : exists q, queue_run [Entered 0; Entered 1] [] = Some q /\ forall t, [THolding; TWait 1] !! t = Some THolding -> head q = Some t.
Proof. apply (ticket_lock_fifo 2 [Entered 0; Entered 1] (mkTicket 2 [THolding; TWait 1])); [lia|exact ticket_demo]. Defined.

(** ** [rwmutex] *)

(** The two mutexes are locks of the kind above, so taking and releasing one is a single
    step here; [readers] is the shared counter. *)
Record rwmutex : Type := mkRW { wq : bool; rb : bool; readers : Z }.

(** Positions: outside; in [rdLock] before [rb], at the counter, at [wq], at the end of
    the scope of [rb]; reading; in [rdUnlock] at [wq] ([up]: called by [upgrade]); in
    [wrLock] before [rb], at [wq], at the end of the scope; writing; in [downgrade] at
    [wq]. *)
Inductive rw_pc : Type :=
  | ROutside
  | RdRb
  | RdAdd
  | RdWq
  | RdEnd
  | Reading
  | RuWq (up : bool)
  | WrRb
  | WrWq
  | WrEnd
  | Writing
  | DgWq.

Definition rw_run (m : rwmutex) (p : rw_pc) : option (rwmutex * rw_pc) :=
  match p with
  | RdRb => if rb m then None else Some (mkRW (wq m) true (readers m), RdAdd)
  | RdAdd => Some (mkRW (wq m) (rb m) (u32 (readers m + 1)), if readers m =? 0 then RdWq else RdEnd)
  | RdWq => if wq m then None else Some (mkRW true (rb m) (readers m), RdEnd)
  | RdEnd => Some (mkRW (wq m) false (readers m), Reading)
  | RuWq up => Some (mkRW false (rb m) (readers m), if up then WrRb else ROutside)
  | WrRb => if rb m then None else Some (mkRW (wq m) true (readers m), WrWq)
  | WrWq => if wq m then None else Some (mkRW true (rb m) (readers m), WrEnd)
  | WrEnd => Some (mkRW (wq m) false (readers m), Writing)
  | DgWq => Some (mkRW false (rb m) (readers m), Reading)
  | ROutside | Reading | Writing => None
  end.

(** The first instruction of [rdUnlock], alone or in [upgrade]. *)
Definition rdUnlock (m : rwmutex) (up : bool) : rwmutex * rw_pc :=
  (mkRW (wq m) (rb m) (u32 (readers m - 1)), if readers m =? 1 then RuWq up else if up then WrRb else ROutside).

Definition wrUnlock (m : rwmutex) : rwmutex := mkRW false (rb m) (readers m).

(** The first instruction of [downgrade] and the assert after it. *)
Definition downgrade (m : rwmutex) : outcome (rwmutex * rw_pc) :=
  let oldReaders := readers m in
  let m := mkRW (wq m) (rb m) (u32 (readers m + 1)) in
  if oldReaders =? 0 then Ret (m, Reading) else _ ← assert_ (oldReaders =? 1); Ret (m, DgWq).

Record rw_state : Type := mkRWState { rw : rwmutex; rw_threads : list rw_pc }.

Inductive rw_step : rw_state -> rw_state -> Prop :=
  | rw_begin m ts t (wr : bool) : ts !! t = Some ROutside -> rw_step (mkRWState m ts) (mkRWState m (<[t := if wr then WrRb else RdRb]> ts))
  | rw_access m ts t p m' p' : ts !! t = Some p -> rw_run m p = Some (m', p') -> rw_step (mkRWState m ts) (mkRWState m' (<[t := p']> ts))
  | rw_rdUnlock m ts t up : ts !! t = Some Reading -> rw_step (mkRWState m ts) (mkRWState (rdUnlock m up).1 (<[t := (rdUnlock m up).2]> ts))
  | rw_wrUnlock m ts t : ts !! t = Some Writing -> rw_step (mkRWState m ts) (mkRWState (wrUnlock m) (<[t := ROutside]> ts))
  | rw_downgrade m ts t m' p' : ts !! t = Some Writing -> downgrade m = Ret (m', p') -> rw_step (mkRWState m ts) (mkRWState m' (<[t := p']> ts)).

Definition rw_init (n : nat) : rw_state := mkRWState (mkRW false false 0) (replicate n ROutside).

(** What a position holds: the mutex [rb]; a share of the counter; the lock for reading; the
    mutex [wq] for writing, until the end of [downgrade], until the end of
    [rdUnlock]. *)
Definition has_rb (p : rw_pc) : bool := match p with RdAdd | RdWq | RdEnd | WrWq | WrEnd => true | _ => false end.
Definition counted (p : rw_pc) : bool := match p with RdWq | RdEnd | Reading | DgWq => true | _ => false end.
Definition active (p : rw_pc) : bool := match p with RdEnd | Reading => true | _ => false end.
Definition queued (p : rw_pc) : bool := match p with RdWq => true | _ => false end.
Definition writer (p : rw_pc) : bool := match p with WrEnd | Writing => true | _ => false end.
Definition lowering (p : rw_pc) : bool := match p with DgWq => true | _ => false end.
Definition leaving (p : rw_pc) : bool := match p with RuWq _ => true | _ => false end.

(** The readers hold [wq] together, unless the first of a new group still waits for it. *)
Definition group (ts : list rw_pc) : Z := if (count_b queued ts =? 0) && (0 <? count_b active ts) then 1 else 0.

Record rw_inv (s : rw_state) : Prop := {
  ri_rb : count_b has_rb (rw_threads s) = if rb (rw s) then 1 else 0;
  ri_readers : readers (rw s) = count_b counted (rw_threads s);
  ri_wq : count_b writer (rw_threads s) + count_b lowering (rw_threads s) + count_b leaving (rw_threads s) + group (rw_threads s) = if wq (rw s) then 1 else 0;
  ri_writer : 0 < count_b writer (rw_threads s) -> count_b active (rw_threads s) = 0;
  ri_lowering : 0 < count_b lowering (rw_threads s) -> count_b active (rw_threads s) = 0 /\ count_b queued (rw_threads s) = 1
}.

Lemma counted_parts ts : count_b counted ts = count_b queued ts + count_b active ts + count_b lowering ts.
Proof. induction ts as [|p ts IH]; simpl; [done|]. rewrite IH. destruct p; simpl; lia. Qed.

(** The facts about the counts that the steps use. *)
Ltac rw_facts ts t p Ht :=
  pose proof (count_b_nonneg has_rb ts); pose proof (count_b_nonneg active ts); pose proof (count_b_nonneg queued ts); pose proof (count_b_nonneg writer ts);
  pose proof (count_b_nonneg lowering ts); pose proof (count_b_nonneg leaving ts); pose proof (counted_parts ts);
  pose proof (count_b_pos has_rb ts t p Ht); pose proof (count_b_pos active ts t p Ht); pose proof (count_b_pos queued ts t p Ht); pose proof (count_b_pos writer ts t p Ht);
  pose proof (count_b_pos lowering ts t p Ht); pose proof (count_b_pos leaving ts t p Ht); pose proof (count_b_length counted ts);
  let Q := fresh in pose proof (count_b_le queued has_rb (<[t := ROutside]> ts) ltac:(by intros [])) as Q;
  rewrite (count_b_insert queued ts t p ROutside Ht), (count_b_insert has_rb ts t p ROutside Ht) in Q.

Lemma rw_inv_init n : rw_inv (rw_init n).
Proof. split; simpl; unfold group; rewrite ?count_b_replicate by done; simpl; lia. Qed.

Ltac rw_solve := split; simpl; unfold group in *; count_inserts; simpl in *; repeat case_match; zb; try lia.

Lemma rw_run_inv m ts t p m' p' :
  Z.of_nat (length ts) < 2 ^ 32 - 1 -> rw_inv (mkRWState m ts) -> ts !! t = Some p -> rw_run m p = Some (m', p') -> rw_inv (mkRWState m' (<[t := p']> ts)).
Proof.
  intros Hn [R1 R2 R3 R4 R5] Ht Hr. simpl in R1, R2, R3, R4, R5. rw_facts ts t p Ht. destruct m as [q b r]. simpl in *.
  destruct p as [| | | | | |up| | | | |]; simpl in Hr; try done; repeat case_match; zb; simplify_eq; try (rewrite u32_small by lia); rw_solve.
Qed.

Lemma rw_step_inv s s' : Z.of_nat (length (rw_threads s)) < 2 ^ 32 - 1 -> rw_step s s' -> rw_inv s -> rw_inv s'.
Proof.
  intros Hn Hs I. destruct Hs as [m ts t wr Ht|m ts t p m' p' Ht Hr|m ts t up Ht|m ts t Ht|m ts t m' p' Ht Hd]; [|by eapply rw_run_inv| | |];
    destruct I as [R1 R2 R3 R4 R5]; simpl in *; destruct m as [q b r]; simpl in *.
  - rw_facts ts t ROutside Ht. destruct wr; rw_solve.
  - rw_facts ts t Reading Ht. unfold rdUnlock. simpl. specialize (H7 eq_refl). rewrite u32_small by lia. destruct (r =? 1) eqn:E; destruct up; zb; rw_solve.
  - rw_facts ts t Writing Ht. rw_solve.
  - rw_facts ts t Writing Ht. unfold downgrade in Hd. simpl in Hd. rewrite u32_small in Hd by lia. destruct (r =? 0) eqn:E0; zb; [simplify_eq; rw_solve|].
    apply bind_ret_inv in Hd as (u & Ha & Hd). apply assert_ret_inv in Ha. zb. simplify_eq. rw_solve.
Qed.

Lemma rw_step_length s s' : rw_step s s' -> length (rw_threads s') = length (rw_threads s).
Proof. by intros []; simpl; rewrite length_insert. Qed.

Lemma rw_reachable n s : Z.of_nat n < 2 ^ 32 - 1 -> rtc rw_step (rw_init n) s -> rw_inv s.
Proof.
  intros Hn Hr. assert (HI : rw_inv s /\ length (rw_threads s) = n); [|apply HI].
  eapply (rtc_invariant rw_step (fun s => rw_inv s /\ length (rw_threads s) = n)); [|exact Hr|split; [apply rw_inv_init|apply length_replicate]].
  intros s1 s2 [I Hl] Hs. split; [eapply rw_step_inv; [|exact Hs|done]; lia|]. by rewrite (rw_step_length _ _ Hs).
Qed.

(** C28: Readers and writers exclude each other: in every interleaving of any number of
    threads, a thread that writes is the only one that reads or writes, through
    every mixture of locking, unlocking, upgrades and downgrades; and a writer that
    lowers its lock never fails the assert on the number of readers. *)
Theorem rwmutex_exclusion n s t :
  Z.of_nat n < 2 ^ 32 - 1 -> rtc rw_step (rw_init n) s -> rw_threads s !! t = Some Writing ->
  (forall u, rw_threads s !! u <> Some Reading) /\ (forall u, rw_threads s !! u = Some Writing -> u = t) /\ is_ret (downgrade (rw s)) = true.
Proof.
  intros Hn Hr Ht. destruct (rw_reachable n s Hn Hr) as [R1 R2 R3 R4 R5]. destruct s as [m ts]. simpl in *. rw_facts ts t Writing Ht. simpl in *. specialize (H9 eq_refl). split_and!.
  - intros u Hu. pose proof (count_b_pos active ts u Reading Hu eq_refl). lia.
  - intros u Hu. apply (count_b_one writer ts u t Writing Writing); try done. unfold group in R3. repeat case_match; lia.
  - unfold downgrade. destruct (readers m =? 0) eqn:E0; [done|]. rewrite (proj2 (Z.eqb_eq (readers m) 1)); [done|]. zb. unfold group in R3. repeat case_match; zb; lia.
Qed.

(** A group of threads on an rwmutex is never stuck: in every reachable state in which
    some thread is inside the mutex and none has it, some thread can take a step. *)
Theorem rwmutex_progress n s t p :
  Z.of_nat n < 2 ^ 32 - 1 -> rtc rw_step (rw_init n) s -> rw_threads s !! t = Some p -> p <> ROutside ->
  (forall u, rw_threads s !! u <> Some Reading) -> (forall u, rw_threads s !! u <> Some Writing) ->
  exists u q, rw_threads s !! u = Some q /\ rw_run (rw s) q <> None.
Proof.
  intros Hn Hr Ht Hp Hnr Hnw. destruct (rw_reachable n s Hn Hr) as [R1 R2 R3 R4 R5]. destruct s as [m ts]. simpl in *.
  assert (Hwq : wq m = true -> exists u q, ts !! u = Some q /\ rw_run m q <> None).
  { intros Hw. rewrite Hw in R3. rw_facts ts t p Ht.
    assert (0 < count_b writer ts \/ 0 < count_b lowering ts \/ 0 < count_b leaving ts \/ 0 < count_b active ts) as [Hc|[Hc|[Hc|Hc]]] by (unfold group in R3; repeat case_match; zb; lia);
      destruct (count_b_exists _ _ Hc) as (u & [] & Hu & Hq); try done; first [by destruct (Hnr u)|by destruct (Hnw u)|exists u; eexists; split; [exact Hu|done]]. }
  assert (Hrb : rb m = true -> exists u q, ts !! u = Some q /\ rw_run m q <> None).
  { intros Hb. rewrite Hb in R1. destruct (count_b_exists has_rb ts) as (u & q & Hu & Hq); [rewrite R1; done|]. destruct (wq m) eqn:Hw; [by apply Hwq|].
    exists u, q. split; [done|]. destruct q; simpl; rewrite ?Hw; done. }
  destruct (rb m) eqn:Hb; [by apply Hrb|]. destruct (wq m) eqn:Hw; [by apply Hwq|]. exists t, p. split; [done|]. destruct p; simpl; rewrite ?Hb, ?Hw; try done; [by destruct (Hnr t)|by destruct (Hnw t)].
Qed.

(** A writer, while a reader holds [rb] and waits for [wq]. *)
Lemma rw_demo : rtc rw_step (rw_init 2) (mkRWState (mkRW true true 1) [Writing; RdWq]).
Proof.
  eapply rtc_l; [apply (rw_begin _ _ 0 true); done|]. eapply rtc_l; [by apply (rw_access _ _ 0 WrRb)|]. eapply rtc_l; [by apply (rw_access _ _ 0 WrWq)|]. eapply rtc_l; [by apply (rw_access _ _ 0 WrEnd)|].
  eapply rtc_l; [apply (rw_begin _ _ 1 false); done|]. eapply rtc_l; [by apply (rw_access _ _ 1 RdRb)|]. eapply rtc_l; [by apply (rw_access _ _ 1 RdAdd)|]. reflexivity.
Qed.

Lemma rwmutex_exclusion_witness : (forall u, [Writing; RdWq] !! u <> Some Reading) /\ is_ret (downgrade (mkRW true true 1)) = true.
Proof.
  destruct (rwmutex_exclusion 2 (mkRWState (mkRW true true 1) [Writing; RdWq]) 0) as (Ha & _ & Hb); [lia|exact rw_demo|reflexivity|]. split; [exact Ha|exact Hb].
Defined.

(** The same after the writer has left. *)
Lemma rwmutex_progress_witness : exists u q, [ROutside; RdWq] !! u = Some q /\ rw_run (mkRW false true 1) q <> None.
Proof.
  apply (rwmutex_progress 2 (mkRWState (mkRW false true 1) [ROutside; RdWq]) 1 RdWq).
  - lia.
  - eapply rtc_r; [exact rw_demo|]. apply (rw_wrUnlock (mkRW true true 1) [Writing; RdWq] 0). reflexivity.
  - reflexivity.
  - discriminate.
  - by intros [|[|u]].
  - by intros [|[|u]].
Defined.
