(* ===== verification/InList.v ===== *)
(** * Intrusive doubly linked lists

    [InList] and [InListNode] of src/src/intrusive_list.h, the queues of the thread
    scheduler.  The links of all elements are one store shared by all lists, so an
    element can be in at most one of them; the asserts of the code check that.  The
    theorem shows that any number of lists over one store behave as sequences, and
    that an operation that would put an element in two lists, or take it out of a list
    it is not in, stops. *)

From S2P Require Import Prelude.

(** Elements and lists are named by their addresses. *)
Record InListNode : Type := mkNode { n_next : option Z; n_prev : option Z; n_owner : option Z }.

Definition newListNode : InListNode := mkNode None None None.

Abbreviation nodes := (gmap Z InListNode).

Record InList : Type := mkInList { il_head : option Z; il_tail : option Z; il_elems : Z }.

Definition newInList : InList := mkInList None None 0.

#[export] Instance InListNode_eq_dec : EqDecision InListNode.
Proof. solve_decision. Defined.

Definition link_at (st : nodes) (e : Z) : outcome InListNode := match st !! e with Some n => Ret n | None => Stop NullDeref end.

Definition put_next (st : nodes) (e : Z) (v : option Z) : outcome nodes := n ← link_at st e; Ret (<[e := mkNode v (n_prev n) (n_owner n)]> st).
Definition put_prev (st : nodes) (e : Z) (v : option Z) : outcome nodes := n ← link_at st e; Ret (<[e := mkNode (n_next n) v (n_owner n)]> st).
Definition put_owner (st : nodes) (e : Z) (v : option Z) : outcome nodes := n ← link_at st e; Ret (<[e := mkNode (n_next n) (n_prev n) v]> st).

(** ** [InListNode] *)

Definition unlink (st : nodes) (this lst : Z) : outcome nodes :=
  n ← link_at st this;
  st ← match n_next n with Some x => put_prev st x (n_prev n) | None => Ret st end;
  st ← match n_prev n with Some x => put_next st x (n_next n) | None => Ret st end;
  st ← put_next st this None;
  st ← put_prev st this None;
  n ← link_at st this;
  _ ← assert_ (bool_decide (Some lst = n_owner n));
  put_owner st this None.

Definition linkPrev (st : nodes) (this p lst : Z) : outcome nodes :=
  n ← link_at st this;
  _ ← assert_ (bool_decide (n_owner n = None));
  _ ← assert_ (bool_decide (n_prev n = None /\ n_next n = None));
  pn ← link_at st p;
  st ← match n_next pn with
       | Some x =>
           xn ← link_at st x;
           _ ← assert_ (bool_decide (n_prev xn = Some p));
           st ← put_prev st x (Some this);
           put_next st this (Some x)
       | None => Ret st
       end;
  st ← put_next st p (Some this);
  st ← put_prev st this (Some p);
  put_owner st this (Some lst).

(** ** [InList]

    [this] is the address of the list. *)

Definition empty_ (l : InList) : bool := bool_decide (il_head l = None).
Definition front (l : InList) : option Z := il_head l.
Definition back (l : InList) : option Z := il_tail l.
Definition size_ (l : InList) : Z := il_elems l.

(** The assert at the head of [push_front] and [push_back]. *)
Definition assert_free (st : nodes) (e : Z) : outcome unit := n ← link_at st e; assert_ (bool_decide (n_next n = None /\ n_prev n = None /\ n_owner n = None)).

Definition push_front (st : nodes) (this : Z) (l : InList) (e : Z) : outcome (nodes * InList) :=
  _ ← assert_free st e;
  '(st, l) ←
    match il_head l with
    | None => Ret (st, mkInList (Some e) (Some e) (il_elems l))
    | Some h =>
        hn ← link_at st h;
        _ ← assert_ (bool_decide (n_prev hn = None /\ n_owner hn = Some this));
        st ← put_next st e (Some h);
        st ← put_prev st h (Some e);
        Ret (st, mkInList (Some e) (il_tail l) (il_elems l))
    end;
  st ← put_owner st e (Some this);
  Ret (st, mkInList (il_head l) (il_tail l) (u64 (il_elems l + 1))).

Definition push_back (st : nodes) (this : Z) (l : InList) (e : Z) : outcome (nodes * InList) :=
  _ ← assert_free st e;
  '(st, l) ←
    match il_head l with
    | None => st ← put_owner st e (Some this); Ret (st, mkInList (Some e) (Some e) (il_elems l))
    | Some h =>
        match il_tail l with
        | None => Stop AssertFailed
        | Some t => st ← linkPrev st e t this; Ret (st, mkInList (Some h) (Some e) (il_elems l))
        end
    end;
  Ret (st, mkInList (il_head l) (il_tail l) (u64 (il_elems l + 1))).

Definition pop_front (st : nodes) (this : Z) (l : InList) : outcome (nodes * InList) :=
  match il_head l with
  | None => Ret (st, l)
  | Some e =>
      n ← link_at st e;
      let head := n_next n in
      st ← unlink st e this;
      Ret (st, mkInList head (match head with None => None | Some _ => il_tail l end) (u64 (il_elems l - 1)))
  end.

Definition pop_back (st : nodes) (this : Z) (l : InList) : outcome (nodes * InList) :=
  match il_head l with
  | None => Ret (st, l)
  | Some _ =>
      match il_tail l with
      | None => Stop NullDeref
      | Some e =>
          n ← link_at st e;
          let tail := n_prev n in
          st ← unlink st e this;
          Ret (st, mkInList (match tail with None => None | Some _ => il_head l end) tail (u64 (il_elems l - 1)))
      end
  end.

Definition remove (st : nodes) (this : Z) (l : InList) (e : Z) : outcome (nodes * InList) :=
  n ← link_at st e;
  let head := if bool_decide (Some e = il_head l) then n_next n else il_head l in
  let tail := if bool_decide (Some e = il_tail l) then n_prev n else il_tail l in
  st ← unlink st e this;
  Ret (st, mkInList head tail (u64 (il_elems l - 1))).

Definition insertAfter (st : nodes) (this : Z) (l : InList) (prev e : Z) : outcome (nodes * InList) :=
  n ← link_at st e;
  _ ← assert_ (bool_decide (n_owner n = None));
  pn ← link_at st prev;
  _ ← assert_ (bool_decide (n_owner pn = Some this));
  st ← linkPrev st e prev this;
  Ret (st, mkInList (il_head l) (if bool_decide (Some prev = il_tail l) then Some e else il_tail l) (u64 (il_elems l + 1))).

(** ** Sequences of linked elements *)

Definition head_or (d : option Z) (l : list Z) : option Z := match l with [] => d | x :: _ => Some x end.
Fixpoint last_or (d : option Z) (l : list Z) : option Z := match l with [] => d | x :: l => last_or (Some x) l end.

(** The elements of [l] are linked in this order in list [lid], between [before] and
    [after]. *)
Fixpoint seg (st : nodes) (lid : Z) (before : option Z) (l : list Z) (after : option Z) : Prop :=
  match l with
  | [] => True
  | x :: l => st !! x = Some (mkNode (head_or after l) before (Some lid)) /\ seg st lid (Some x) l after
  end.

Lemma head_or_app d l k : head_or d (l ++ k) = head_or (head_or d k) l.
Proof. by destruct l. Qed.
Lemma last_or_app d l k : last_or d (l ++ k) = last_or (last_or d l) k.
Proof. revert d. induction l as [|x l IH]; intros d; simpl; [done|apply IH]. Qed.

Lemma seg_app st lid b l k a : seg st lid b (l ++ k) a <-> seg st lid b l (head_or a k) /\ seg st lid (last_or b l) k a.
Proof. revert b. induction l as [|x l IH]; intros b; simpl; [tauto|]. rewrite IH, head_or_app. tauto. Qed.

Lemma seg_frame st st' lid b l a : (forall x, x ∈ l -> st' !! x = st !! x) -> seg st lid b l a -> seg st' lid b l a.
Proof.
  revert b. induction l as [|x l IH]; intros b Hf; simpl; [done|]. intros [Hx Hl]. split; [rewrite Hf by left; done|]. apply IH; [|done]. intros y Hy. apply Hf. by right.
Qed.

Lemma seg_insert st lid b l a x n : x ∉ l -> seg st lid b l a -> seg (<[x := n]> st) lid b l a.
Proof. intros Hx. apply seg_frame. intros y Hy. apply lookup_insert_ne. by intros ->. Qed.

Lemma seg_owner st lid b l a x : seg st lid b l a -> x ∈ l -> exists n, st !! x = Some n /\ n_owner n = Some lid.
Proof. revert b. induction l as [|y l IH]; intros b; simpl; [set_solver|]. intros [Hy Hl] Hx. apply elem_of_cons in Hx as [->|Hx]; [by eexists|by eapply IH]. Qed.

(** The last element gets another successor, the first another predecessor. *)
Lemma seg_after st lid b l z a a' : z ∉ l -> seg st lid b (l ++ [z]) a -> seg (<[z := mkNode a' (last_or b l) (Some lid)]> st) lid b (l ++ [z]) a'.
Proof.
  intros Hz Hs. apply seg_app in Hs as [Hl [Hn _]]. apply seg_app. split; [by apply seg_insert|]. simpl. by rewrite lookup_insert_eq.
Qed.

Lemma seg_before st lid b z l a b' : z ∉ l -> seg st lid b (z :: l) a -> seg (<[z := mkNode (head_or a l) b' (Some lid)]> st) lid b' (z :: l) a.
Proof. intros Hz [Hn Hl]. simpl. rewrite lookup_insert_eq. split; [done|]. by apply seg_insert. Qed.

Lemma relink_head st lid b b' l a :
  NoDup l -> seg st lid b l a ->
  exists st', match head_or None l with Some x => put_prev st x b' | None => Ret st end = Ret st' /\ seg st' lid b' l a /\ forall x, x ∉ l -> st' !! x = st !! x.
Proof.
  intros Hn Hs. destruct l as [|z l]; simpl; [by exists st|]. apply NoDup_cons in Hn as [Hz _]. pose proof Hs as [Hn _]. unfold put_prev, link_at. rewrite Hn. cbn [mbind outcome_bind n_next n_owner].
  eexists. split; [done|]. split; [by apply (seg_before st lid b)|]. intros x Hx. apply lookup_insert_ne. set_solver.
Qed.

Lemma relink_last st lid b l a a' :
  NoDup l -> seg st lid b l a ->
  exists st', match last_or None l with Some x => put_next st x a' | None => Ret st end = Ret st' /\ seg st' lid b l a' /\ forall x, x ∉ l -> st' !! x = st !! x.
Proof.
  intros Hn Hs. destruct l as [|z l _] using rev_ind; simpl; [by exists st|]. rewrite last_or_app. simpl. apply NoDup_app in Hn as (_ & Hz & _).
  assert (Hzl : z ∉ l) by (intros Hzl; apply (Hz z Hzl); by left). pose proof Hs as [_ [Hn _]]%seg_app. unfold put_next, link_at. rewrite Hn. cbn [mbind outcome_bind n_prev n_owner].
  eexists. split; [done|]. split; [by apply (seg_after st lid b l z a)|]. intros x Hx. apply lookup_insert_ne. set_solver.
Qed.

Lemma unlink_ok st lid l1 e l2 :
  NoDup (l1 ++ e :: l2) -> seg st lid None (l1 ++ e :: l2) None ->
  exists st', unlink st e lid = Ret st' /\ seg st' lid None (l1 ++ l2) None /\ st' !! e = Some newListNode /\ forall x, x ∉ l1 ++ e :: l2 -> st' !! x = st !! x.
Proof.
  intros Hn Hs. apply NoDup_app in Hn as (Hn1 & Hd & Hn2). apply NoDup_cons in Hn2 as [He2 Hn2]. assert (He1 : e ∉ l1) by (intros He; apply (Hd e He); by left).
  apply seg_app in Hs as [Hs1 [Hne Hs2]]. simpl in Hs1. unfold unlink. assert (E0 : link_at st e = Ret (mkNode (head_or None l2) (last_or None l1) (Some lid))) by (unfold link_at; by rewrite Hne).
  rewrite E0. cbn [mbind outcome_bind n_next n_prev].
  destruct (relink_head st lid (Some e) (last_or None l1) l2 None Hn2 Hs2) as (st1 & -> & Hs2' & Hf1). cbn [mbind outcome_bind].
  destruct (relink_last st1 lid None l1 (Some e) (head_or None l2) Hn1) as (st2 & -> & Hs1' & Hf2).
  { apply (seg_frame st); [|done]. intros x Hx. apply Hf1. intros Hx2. apply (Hd x Hx). by right. }
  cbn [mbind outcome_bind]. assert (H2e : st2 !! e = Some (mkNode (head_or None l2) (last_or None l1) (Some lid))) by (rewrite Hf2, Hf1 by done; done).
  unfold put_next, put_prev, put_owner, link_at. rewrite H2e. cbn [mbind outcome_bind n_next n_prev n_owner]. rewrite !lookup_insert_eq. cbn [mbind outcome_bind n_next n_prev n_owner].
  rewrite !lookup_insert_eq. cbn [mbind outcome_bind n_next n_prev n_owner]. rewrite bool_decide_true by done. cbn [assert_ mbind outcome_bind]. eexists. split; [done|]. rewrite !insert_insert_eq. split; [|split].
  - apply seg_app. split; apply seg_insert; try done. apply (seg_frame st1); [|done]. intros x Hx. apply Hf2. intros Hx1. apply (Hd x Hx1). by right.
  - by rewrite lookup_insert_eq.
  - intros x Hx. rewrite lookup_insert_ne by set_solver. rewrite Hf2, Hf1 by set_solver. done.
Qed.

Lemma linkPrev_ok st lid l1 p l2 e :
  NoDup (l1 ++ p :: l2) -> seg st lid None (l1 ++ p :: l2) None -> e ∉ l1 ++ p :: l2 -> st !! e = Some newListNode ->
  exists st', linkPrev st e p lid = Ret st' /\ seg st' lid None (l1 ++ p :: e :: l2) None /\ forall x, x ∉ l1 ++ p :: e :: l2 -> st' !! x = st !! x.
Proof.
  intros Hn Hs He Hfree. apply NoDup_app in Hn as (Hn1 & Hd & Hn2). apply NoDup_cons in Hn2 as [Hp2 Hn2]. assert (Hp1 : p ∉ l1) by (intros Hp; apply (Hd p Hp); by left).
  apply seg_app in Hs as [Hs1 [Hnp Hs2]]. simpl in Hs1. assert (Hep : e <> p) by set_solver. unfold linkPrev.
  assert (E0 : link_at st e = Ret newListNode) by (unfold link_at; by rewrite Hfree). rewrite E0. cbn [mbind outcome_bind n_next n_prev n_owner newListNode]. rewrite !bool_decide_true by done. cbn [assert_ mbind outcome_bind].
  assert (E1 : link_at st p = Ret (mkNode (head_or None l2) (last_or None l1) (Some lid))) by (unfold link_at; by rewrite Hnp). rewrite E1. cbn [mbind outcome_bind n_next].
  assert (Hmid : exists st1, match head_or None l2 with
       | Some x => xn ← link_at st x; _ ← assert_ (bool_decide (n_prev xn = Some p)); st ← put_prev st x (Some e); put_next st e (Some x)
       | None => Ret st end = Ret st1 /\ seg st1 lid (Some e) l2 None /\ st1 !! e = Some (mkNode (head_or None l2) None None) /\ forall x, x ∉ e :: l2 -> st1 !! x = st !! x).
  { destruct l2 as [|z l2]; simpl; [by exists st|]. pose proof Hs2 as [Hz _]. apply NoDup_cons in Hn2 as [Hzl _]. unfold link_at at 1. rewrite Hz. cbn [mbind outcome_bind n_prev]. rewrite bool_decide_true by done.
    cbn [assert_ mbind outcome_bind]. unfold put_prev, link_at. rewrite Hz. cbn [mbind outcome_bind n_next n_owner]. unfold put_next, link_at. rewrite lookup_insert_ne by set_solver. rewrite Hfree.
    cbn [mbind outcome_bind n_prev n_owner newListNode]. eexists. split; [done|]. split_and!.
    - rewrite lookup_insert_ne by set_solver. by rewrite lookup_insert_eq.
    - apply seg_insert; [set_solver|]. apply seg_insert; [done|apply Hs2].
    - by rewrite lookup_insert_eq.
    - intros x Hx. rewrite !lookup_insert_ne by set_solver. done. }
  destruct Hmid as (st1 & -> & Hs2' & H1e & Hf1). cbn [mbind outcome_bind]. assert (H1p : st1 !! p = Some (mkNode (head_or None l2) (last_or None l1) (Some lid))) by (rewrite Hf1; [done|set_solver]).
  unfold put_next, put_prev, put_owner, link_at. rewrite H1p. cbn [mbind outcome_bind n_prev n_owner]. rewrite lookup_insert_ne by done. rewrite H1e. cbn [mbind outcome_bind n_next n_owner].
  rewrite lookup_insert_eq. cbn [mbind outcome_bind n_next n_prev]. eexists. split; [done|]. rewrite insert_insert_eq. split.
  - apply seg_app. split; [|split; [|split]].
    + apply seg_insert; [set_solver|]. apply seg_insert; [done|]. apply (seg_frame st); [|done]. intros x Hx. apply Hf1. set_solver.
    + rewrite lookup_insert_ne by done. by rewrite lookup_insert_eq.
    + by rewrite lookup_insert_eq.
    + apply seg_insert; [set_solver|]. by apply seg_insert.
  - intros x Hx. rewrite !lookup_insert_ne by set_solver. apply Hf1. set_solver.
Qed.

(** An element that is in another list, or in none, is not unlinked. *)
Lemma unlink_foreign st lid lid' l1 e l2 :
  NoDup (l1 ++ e :: l2) -> seg st lid' None (l1 ++ e :: l2) None -> lid <> lid' -> unlink st e lid = Stop AssertFailed.
Proof.
  intros Hn Hs Hlid. apply NoDup_app in Hn as (Hn1 & Hd & Hn2). apply NoDup_cons in Hn2 as [He2 Hn2]. assert (He1 : e ∉ l1) by (intros He; apply (Hd e He); by left).
  apply seg_app in Hs as [Hs1 [Hne Hs2]]. simpl in Hs1. unfold unlink. assert (E0 : link_at st e = Ret (mkNode (head_or None l2) (last_or None l1) (Some lid'))) by (unfold link_at; by rewrite Hne).
  rewrite E0. cbn [mbind outcome_bind n_next n_prev].
  destruct (relink_head st lid' (Some e) (last_or None l1) l2 None Hn2 Hs2) as (st1 & -> & Hs2' & Hf1). cbn [mbind outcome_bind].
  destruct (relink_last st1 lid' None l1 (Some e) (head_or None l2) Hn1) as (st2 & -> & Hs1' & Hf2).
  { apply (seg_frame st); [|done]. intros x Hx. apply Hf1. intros Hx2. apply (Hd x Hx). by right. }
  cbn [mbind outcome_bind]. assert (H2e : st2 !! e = Some (mkNode (head_or None l2) (last_or None l1) (Some lid'))) by (rewrite Hf2, Hf1 by done; done).
  unfold put_next, put_prev, link_at. rewrite H2e. cbn [mbind outcome_bind n_next n_prev n_owner]. rewrite !lookup_insert_eq. cbn [mbind outcome_bind n_next n_prev n_owner].
  rewrite !lookup_insert_eq. cbn [mbind outcome_bind n_next n_prev n_owner]. rewrite bool_decide_false by congruence. done.
Qed.

Lemma unlink_free st lid e : st !! e = Some newListNode -> unlink st e lid = Stop AssertFailed.
Proof.
  intros He. unfold unlink, put_next, put_prev, link_at. rewrite He. cbn [mbind outcome_bind n_next n_prev n_owner newListNode]. rewrite He. cbn [mbind outcome_bind n_next n_prev n_owner newListNode].
  rewrite !lookup_insert_eq. cbn [mbind outcome_bind n_next n_prev n_owner]. rewrite !lookup_insert_eq. done.
Qed.

(** ** Lists *)

Record in_list (st : nodes) (lid : Z) (il : InList) (l : list Z) : Prop := {
  in_head : il_head il = head_or None l;
  in_tail : il_tail il = last_or None l;
  in_elems : il_elems il = Z.of_nat (length l);
  in_nodup : NoDup l;
  in_seg : seg st lid None l None
}.

Lemma last_or_nil d l : last_or d l = None -> l = [].
Proof. revert d. induction l as [|x l IH]; intros d; simpl; [done|]. intros H. rewrite (IH _ H) in H. done. Qed.

Lemma last_or_in d l x : last_or d l = Some x -> l <> [] -> x ∈ l.
Proof.
  revert d. induction l as [|y l IH]; intros d; simpl; [done|]. intros H _. destruct l as [|z l]; [injection H as <-; by left|]. right. by eapply IH.
Qed.

Lemma last_is d l1 e l2 : NoDup (l1 ++ e :: l2) -> last_or d (l1 ++ e :: l2) = Some e -> l2 = [].
Proof.
  intros Hn Hl. rewrite last_or_app in Hl. simpl in Hl. destruct l2 as [|z l2]; [done|]. apply last_or_in in Hl; [|done]. apply NoDup_app in Hn as (_ & _ & Hn). by apply NoDup_cons in Hn as [Hn _].
Qed.

Lemma last_drop d l1 e l2 : l2 <> [] -> last_or d (l1 ++ e :: l2) = last_or d (l1 ++ l2).
Proof. intros Hl. rewrite !last_or_app. simpl. destruct l2 as [|z l2]; done. Qed.

Lemma assert_free_ok st e : st !! e = Some newListNode -> assert_free st e = Ret tt.
Proof. intros He. unfold assert_free, link_at. rewrite He. done. Qed.

Section Ops.
Context (st : nodes) (lid : Z) (il : InList) (l : list Z) (Hil : in_list st lid il l) (Hsize : Z.of_nat (length l) + 1 < 2 ^ 64).

Lemma push_front_ok e : st !! e = Some newListNode -> e ∉ l -> exists st' il', push_front st lid il e = Ret (st', il') /\ in_list st' lid il' (e :: l) /\ forall x, x ∉ e :: l -> st' !! x = st !! x.
Proof using Hil Hsize.
  intros He Hel. destruct Hil as [Hh Ht Hc Hn Hs]. unfold push_front. rewrite assert_free_ok by done. cbn [mbind outcome_bind]. rewrite Hh, Hc, Ht.
  destruct l as [|h k]; cbn [head_or].
  - cbn [mbind outcome_bind]. unfold put_owner, link_at. rewrite He. cbn [mbind outcome_bind n_next n_prev newListNode il_head il_tail il_elems]. eexists _, _. split; [done|]. rewrite u64_small by (simpl; lia).
    split; [split; simpl; try done; [apply NoDup_singleton|by rewrite lookup_insert_eq]|]. intros x Hx. apply lookup_insert_ne. set_solver.
  - pose proof Hs as [Hnh Hsk]. unfold link_at at 1. rewrite Hnh. cbn [mbind outcome_bind n_prev n_owner]. rewrite bool_decide_true by done. cbn [assert_ mbind outcome_bind].
    unfold put_next, put_prev, put_owner, link_at. rewrite He. cbn [mbind outcome_bind n_prev n_owner newListNode]. rewrite lookup_insert_ne by set_solver. rewrite Hnh. cbn [mbind outcome_bind n_next n_owner].
    rewrite lookup_insert_ne by set_solver. rewrite lookup_insert_eq. cbn [mbind outcome_bind n_next n_prev il_head il_tail il_elems]. eexists _, _. split; [done|]. rewrite u64_small by lia.
    apply NoDup_cons in Hn as [Hhk Hnk]. split; [split; simpl; try done; [lia|repeat (apply NoDup_cons; split); done|]|].
    + rewrite lookup_insert_eq. split; [done|]. rewrite lookup_insert_ne by set_solver. rewrite lookup_insert_eq. split; [done|]. apply seg_insert; [set_solver|]. apply seg_insert; [done|]. apply seg_insert; [set_solver|done].
    + intros x Hx. rewrite !lookup_insert_ne by set_solver. done.
Qed.

Lemma push_back_ok e : st !! e = Some newListNode -> e ∉ l -> exists st' il', push_back st lid il e = Ret (st', il') /\ in_list st' lid il' (l ++ [e]) /\ forall x, x ∉ l ++ [e] -> st' !! x = st !! x.
Proof using Hil Hsize.
  intros He Hel. destruct Hil as [Hh Ht Hc Hn Hs]. unfold push_back. rewrite assert_free_ok by done. cbn [mbind outcome_bind]. rewrite Hh, Hc, Ht.
  destruct l as [|z k _] using rev_ind; cbn [head_or].
  - unfold put_owner, link_at. rewrite He. cbn [mbind outcome_bind n_next n_prev newListNode il_head il_tail il_elems]. eexists _, _. split; [done|]. rewrite u64_small by (simpl; lia).
    split; [split; simpl; try done; [apply NoDup_singleton|by rewrite lookup_insert_eq]|]. intros x Hx. apply lookup_insert_ne. set_solver.
  - rewrite last_or_app. cbn [last_or]. destruct (linkPrev_ok st lid k z [] e Hn Hs Hel He) as (st' & E & Hs' & Hf).
    assert (exists h, head_or None (k ++ [z]) = Some h) as [h Hh'] by (destruct k; by eexists). rewrite Hh', E. cbn [mbind outcome_bind il_head il_tail il_elems]. eexists _, _. split; [done|].
    rewrite u64_small by lia. rewrite <- app_assoc. simpl. split; [|done]. split; simpl; try done.
    + rewrite <- Hh'. by destruct k.
    + by rewrite last_or_app.
    + rewrite !length_app. simpl. lia.
    + apply NoDup_app in Hn as (Hn1 & Hd & _). apply NoDup_app. split_and!; [done| |].
      * intros x Hx Hx'. apply elem_of_cons in Hx' as [->|Hx']; [apply (Hd z Hx); by left|]. apply list_elem_of_singleton in Hx' as ->. set_solver.
      * apply NoDup_cons. split; [set_solver|apply NoDup_singleton].
Qed.

(** Taking an element out, for all three operations that do. *)
Lemma unlinked_ok l1 e l2 : l = l1 ++ e :: l2 ->
  exists st', unlink st e lid = Ret st' /\ st' !! e = Some newListNode /\ (forall x, x ∉ l -> st' !! x = st !! x) /\
    in_list st' lid (mkInList (head_or None (l1 ++ l2)) (last_or None (l1 ++ l2)) (u64 (il_elems il - 1))) (l1 ++ l2).
Proof using Hil Hsize.
  intros ->. destruct Hil as [Hh Ht Hc Hn Hs]. destruct (unlink_ok st lid l1 e l2 Hn Hs) as (st' & E & Hs' & He & Hf). exists st'. split_and!; try done.
  rewrite Hc, u64_small; [|rewrite length_app; simpl; rewrite length_app in Hsize; simpl in Hsize; lia]. split; simpl; try done.
  - rewrite !length_app. simpl. lia.
  - apply NoDup_app in Hn as (Hn1 & Hd & Hn2). apply NoDup_cons in Hn2 as [_ Hn2]. apply NoDup_app. split_and!; try done. intros x Hx Hx'. apply (Hd x Hx). by right.
Qed.

Lemma pop_front_ok e k : l = e :: k -> exists st' il', pop_front st lid il = Ret (st', il') /\ in_list st' lid il' k /\ st' !! e = Some newListNode /\ forall x, x ∉ l -> st' !! x = st !! x.
Proof using Hil Hsize.
  intros Hl. destruct (unlinked_ok [] e k Hl) as (st' & E & He & Hf & Hin). destruct Hil as [Hh Ht Hc Hn Hs]. rewrite Hl in Hh, Ht, Hs. pose proof Hs as [Hne _]. unfold pop_front. rewrite Hh. simpl.
  assert (E0 : link_at st e = Ret (mkNode (head_or None k) None (Some lid))) by (unfold link_at; by rewrite Hne). rewrite E0. cbn [mbind outcome_bind n_next]. rewrite E. cbn [mbind outcome_bind].
  eexists _, _. split; [done|]. split; [|done]. rewrite Ht. by destruct k.
Qed.

Lemma pop_back_ok k e : l = k ++ [e] -> exists st' il', pop_back st lid il = Ret (st', il') /\ in_list st' lid il' k /\ st' !! e = Some newListNode /\ forall x, x ∉ l -> st' !! x = st !! x.
Proof using Hil Hsize.
  intros Hl. destruct (unlinked_ok k e [] Hl) as (st' & E & He & Hf & Hin). rewrite app_nil_r in Hin. destruct Hil as [Hh Ht Hc Hn Hs]. rewrite Hl in Hh, Ht, Hs. pose proof Hs as [_ [Hne _]]%seg_app.
  unfold pop_back. rewrite Hh, Ht, last_or_app. assert (exists h, head_or None (k ++ [e]) = Some h) as [h Hh'] by (destruct k; by eexists). rewrite Hh'. cbn [last_or].
  assert (E0 : link_at st e = Ret (mkNode None (last_or None k) (Some lid))) by (unfold link_at; by rewrite Hne). rewrite E0. cbn [mbind outcome_bind n_prev]. rewrite E. cbn [mbind outcome_bind].
  eexists _, _. split; [done|]. split; [|done]. destruct (last_or None k) eqn:Hk; [|by apply last_or_nil in Hk; subst k; simpl in Hin]. assert (head_or None k = Some h) as <- by (by destruct k). done.
Qed.

Lemma remove_ok l1 e l2 : l = l1 ++ e :: l2 -> exists st' il', remove st lid il e = Ret (st', il') /\ in_list st' lid il' (l1 ++ l2) /\ st' !! e = Some newListNode /\ forall x, x ∉ l -> st' !! x = st !! x.
Proof using Hil Hsize.
  intros Hl. destruct (unlinked_ok l1 e l2 Hl) as (st' & E & He & Hf & Hin). destruct Hil as [Hh Ht Hc Hn Hs]. rewrite Hl in Hh, Ht, Hs, Hn. pose proof Hs as [_ [Hne _]]%seg_app. unfold remove.
  assert (E0 : link_at st e = Ret (mkNode (head_or None l2) (last_or None l1) (Some lid))) by (unfold link_at; by rewrite Hne). rewrite E0. cbn [mbind outcome_bind n_next n_prev]. rewrite E. cbn [mbind outcome_bind].
  eexists _, _. split; [done|]. split; [|done]. destruct Hin as [_ _ Hc' Hn' Hs']. split; simpl; try done.
  - rewrite Hh. destruct l1 as [|y l1]; simpl; [by rewrite bool_decide_true|]. rewrite bool_decide_false; [done|]. intros [= <-]. simpl in Hn. apply NoDup_cons in Hn as [Hn _]. set_solver.
  - rewrite Ht. case_bool_decide as Hlast; [symmetry in Hlast; apply (last_is _ l1 e l2 Hn) in Hlast as ->; by rewrite app_nil_r|]. apply last_drop. intros ->. rewrite last_or_app in Hlast. done.
Qed.

Lemma insertAfter_ok l1 p l2 e : l = l1 ++ p :: l2 -> st !! e = Some newListNode -> e ∉ l ->
  exists st' il', insertAfter st lid il p e = Ret (st', il') /\ in_list st' lid il' (l1 ++ p :: e :: l2) /\ forall x, x ∉ l1 ++ p :: e :: l2 -> st' !! x = st !! x.
Proof using Hil Hsize.
  intros Hl He Hel. destruct Hil as [Hh Ht Hc Hn Hs]. rewrite Hl in Hh, Ht, Hs, Hn, Hel. pose proof Hs as [_ [Hnp _]]%seg_app. unfold insertAfter.
  assert (E0 : link_at st e = Ret newListNode) by (unfold link_at; by rewrite He). rewrite E0. cbn [mbind outcome_bind n_owner newListNode]. rewrite (bool_decide_true (@None Z = None)) by done. cbn [assert_ mbind outcome_bind].
  assert (E1 : link_at st p = Ret (mkNode (head_or None l2) (last_or None l1) (Some lid))) by (unfold link_at; by rewrite Hnp). rewrite E1. cbn [mbind outcome_bind n_owner]. rewrite (bool_decide_true (Some lid = Some lid)) by done.
  cbn [assert_ mbind outcome_bind]. destruct (linkPrev_ok st lid l1 p l2 e Hn Hs Hel He) as (st' & -> & Hs' & Hf). cbn [mbind outcome_bind]. eexists _, _. split; [done|]. split; [|done].
  rewrite Hc, u64_small by lia. split; simpl; try done.
  - rewrite Hh. by destruct l1.
  - rewrite Ht. case_bool_decide as Hlast; [symmetry in Hlast; apply (last_is _ l1 p l2 Hn) in Hlast as ->; by rewrite last_or_app|]. rewrite !last_or_app in *. destruct l2 as [|z l2]; simpl in *; done.
  - rewrite Hl, !length_app. simpl. lia.
  - apply NoDup_app in Hn as (Hn1 & Hd & Hn2). apply NoDup_cons in Hn2 as [Hp2 Hn2]. apply NoDup_app. split_and!; [done| |].
    + intros x Hx Hx'. apply elem_of_cons in Hx' as [->|Hx']; [apply (Hd p Hx); by left|]. apply elem_of_cons in Hx' as [->|Hx']; [set_solver|]. apply (Hd x Hx). by right.
    + apply NoDup_cons. split; [set_solver|]. apply NoDup_cons. split; [set_solver|done].
Qed.
End Ops.

(** ** Several lists over one store *)

Record il_state : Type := mkLists { il_nodes : nodes; il_lists : gmap Z InList }.

Inductive il_op : Type :=
  | PushFront (lid e : Z)
  | PushBack (lid e : Z)
  | PopFront (lid : Z)
  | PopBack (lid : Z)
  | Remove (lid e : Z)
  | InsertAfter (lid prev e : Z).

Definition op_list (o : il_op) : Z := match o with PushFront l _ | PushBack l _ | PopFront l | PopBack l | Remove l _ | InsertAfter l _ _ => l end.
Definition op_elems (o : il_op) : list Z := match o with PushFront _ e | PushBack _ e | Remove _ e => [e] | PopFront _ | PopBack _ => [] | InsertAfter _ p e => [p; e] end.

Definition op_run (o : il_op) (st : nodes) (il : InList) : outcome (nodes * InList) :=
  match o with
  | PushFront lid e => push_front st lid il e
  | PushBack lid e => push_back st lid il e
  | PopFront lid => pop_front st lid il
  | PopBack lid => pop_back st lid il
  | Remove lid e => remove st lid il e
  | InsertAfter lid prev e => insertAfter st lid il prev e
  end.

Definition il_run (s : il_state) (o : il_op) : outcome il_state :=
  match il_lists s !! op_list o with
  | None => Stop NullDeref
  | Some il => '(st, il) ← op_run o (il_nodes s) il; Ret (mkLists st (<[op_list o := il]> (il_lists s)))
  end.

(** The specification: sequences. *)
Fixpoint insert_behind (p e : Z) (l : list Z) : list Z :=
  match l with
  | [] => []
  | x :: l => if x =? p then x :: e :: l else x :: insert_behind p e l
  end.

(** The element is in no list. *)
Definition unused (A : gmap Z (list Z)) (e : Z) : Prop := map_Forall (fun _ l => e ∉ l) A.

#[export] Instance unused_decision A e : Decision (unused A e).
Proof. unfold unused. apply _. Defined.

Definition op_spec (o : il_op) (A : gmap Z (list Z)) (l : list Z) : option (list Z) :=
  match o with
  | PushFront _ e => if decide (unused A e) then Some (e :: l) else None
  | PushBack _ e => if decide (unused A e) then Some (l ++ [e]) else None
  | PopFront _ => Some (tail l)
  | PopBack _ => Some (removelast l)
  | Remove _ e => if decide (e ∈ l) then Some (filter (fun x => x <> e) l) else None
  | InsertAfter _ p e => if decide (unused A e /\ p ∈ l) then Some (insert_behind p e l) else None
  end.

Definition il_spec (A : gmap Z (list Z)) (o : il_op) : option (gmap Z (list Z)) :=
  l ← A !! op_list o; l' ← op_spec o A l; Some (<[op_list o := l']> A).

(** The lists of [s] are the sequences [A]; the elements in none of them are not linked. *)
Record lists_are (s : il_state) (A : gmap Z (list Z)) : Prop := {
  la_list : forall lid, match A !! lid with
                        | Some l => exists il, il_lists s !! lid = Some il /\ in_list (il_nodes s) lid il l
                        | None => il_lists s !! lid = None
                        end;
  la_free : forall x n, il_nodes s !! x = Some n -> unused A x -> n = newListNode
}.

Lemma la_get s A lid l : lists_are s A -> A !! lid = Some l -> exists il, il_lists s !! lid = Some il /\ in_list (il_nodes s) lid il l.
Proof. intros L Hl. pose proof (la_list _ _ L lid) as H. by rewrite Hl in H. Qed.

Lemma not_unused A e : ~ unused A e -> exists lid l, A !! lid = Some l /\ e ∈ l.
Proof.
  intros Hu. unfold unused in Hu. apply map_not_Forall in Hu as (lid & l & Hl & Hel); [|apply _]. exists lid, l. split; [done|]. by destruct (decide (e ∈ l)).
Qed.

Lemma used_owner s A lid l e : lists_are s A -> A !! lid = Some l -> e ∈ l -> exists n, il_nodes s !! e = Some n /\ n_owner n = Some lid.
Proof. intros L Hl He. destruct (la_get s A lid l L Hl) as (il & _ & Hin). by eapply seg_owner; [apply (in_seg _ _ _ _ Hin)|]. Qed.

Lemma list_disjoint s A lid lid' l l' x : lists_are s A -> A !! lid = Some l -> A !! lid' = Some l' -> x ∈ l -> x ∈ l' -> lid = lid'.
Proof. intros L Hl Hl' Hx Hx'. destruct (used_owner s A lid l x L Hl Hx) as (n & Hn & Ho), (used_owner s A lid' l' x L Hl' Hx') as (n' & Hn' & Ho'). congruence. Qed.

Lemma list_bound s A lid l : lists_are s A -> A !! lid = Some l -> (length l <= size (il_nodes s))%nat.
Proof.
  intros L Hl. destruct (la_get s A lid l L Hl) as (il & _ & Hin). rewrite <- size_dom, <- (size_list_to_set (C := gset Z) l (in_nodup _ _ _ _ Hin)). apply subseteq_size.
  intros x Hx. apply elem_of_list_to_set in Hx. destruct (used_owner s A lid l x L Hl Hx) as (n & Hn & _). apply elem_of_dom. by exists n.
Qed.

(** One list changes: it takes the elements of [l'], which were its own or unused; what it
    gives up is not linked any more. *)
Lemma lists_update s A lid l l' st' il' :
  lists_are s A -> A !! lid = Some l -> in_list st' lid il' l' -> (forall x, x ∈ l' -> x ∈ l \/ unused A x) -> (forall x, x ∉ l -> x ∉ l' -> st' !! x = il_nodes s !! x) ->
  (forall x, x ∈ l -> x ∉ l' -> st' !! x = Some newListNode) -> lists_are (mkLists st' (<[lid := il']> (il_lists s))) (<[lid := l']> A).
Proof.
  intros L Hl Hin Hsub Hf Hout. split; simpl.
  - intros lid2. destruct (decide (lid2 = lid)) as [->|Hne]; [rewrite lookup_insert_eq; exists il'; by rewrite lookup_insert_eq|]. rewrite !lookup_insert_ne by done. pose proof (la_list _ _ L lid2) as Hlist.
    destruct (A !! lid2) as [l2|] eqn:Hl2; [|done]. destruct Hlist as (il2 & Hil2 & Hin2). exists il2. split; [done|]. destruct Hin2 as [I1 I2 I3 I4 I5]. split; try done. apply (seg_frame (il_nodes s)); [|done].
    intros x Hx. apply Hf; [intros Hxl; destruct Hne; by apply (list_disjoint s A lid2 lid l2 l x)|]. intros Hxl. destruct (Hsub x Hxl) as [Hxl'|Hxu]; [destruct Hne; by apply (list_disjoint s A lid2 lid l2 l x)|by apply (Hxu lid2 l2)].
  - intros x n Hx Hu. assert (Hxl' : x ∉ l') by (apply (Hu lid); by rewrite lookup_insert_eq). destruct (decide (x ∈ l)) as [Hxl|Hxl]; [rewrite Hout in Hx by done; congruence|].
    rewrite Hf in Hx by done. apply (la_free _ _ L x n Hx). intros lid2 l2 Hl2. destruct (decide (lid2 = lid)) as [->|Hne]; [rewrite Hl in Hl2; by injection Hl2 as <-|]. apply (Hu lid2). by rewrite lookup_insert_ne.
Qed.

Lemma filter_out (l1 : list Z) (e : Z) (l2 : list Z) : NoDup (l1 ++ e :: l2) -> filter (fun x => x <> e) (l1 ++ e :: l2) = l1 ++ l2.
Proof.
  intros Hn. apply NoDup_app in Hn as (_ & Hd & Hn). apply NoDup_cons in Hn as [He2 _]. assert (He1 : e ∉ l1) by (intros He; apply (Hd e He); by left).
  assert (Hid : forall l : list Z, e ∉ l -> filter (fun x => x <> e) l = l).
  { intros l Hl. induction l as [|x l IH]; [done|]. rewrite filter_cons_True by set_solver. f_equal. apply IH. set_solver. }
  rewrite filter_app, filter_cons_False by (intros H; by apply H). by rewrite !Hid.
Qed.

Lemma insert_behind_split l1 p e l2 : p ∉ l1 -> insert_behind p e (l1 ++ p :: l2) = l1 ++ p :: e :: l2.
Proof. intros Hp. induction l1 as [|x l1 IH]; simpl; [by rewrite Z.eqb_refl|]. rewrite (proj2 (Z.eqb_neq x p)) by set_solver. f_equal. apply IH. set_solver. Qed.

Section Refine.
Context (s : il_state) (A : gmap Z (list Z)) (L : lists_are s A) (Hsize : Z.of_nat (size (il_nodes s)) + 1 < 2 ^ 64).

(** An operation on the list that was found, put back. *)
Lemma op_done o l l' il st' il' :
  A !! op_list o = Some l -> il_lists s !! op_list o = Some il -> op_run o (il_nodes s) il = Ret (st', il') -> in_list st' (op_list o) il' l' ->
  (forall x, x ∈ l' -> x ∈ l \/ unused A x /\ is_Some (il_nodes s !! x)) -> (forall x, x ∉ l -> x ∉ l' -> st' !! x = il_nodes s !! x) -> (forall x, x ∈ l -> x ∉ l' -> st' !! x = Some newListNode) ->
  exists s', il_run s o = Ret s' /\ lists_are s' (<[op_list o := l']> A) /\ dom (il_nodes s') = dom (il_nodes s).
Proof using L.
  clear Hsize. intros Hl Hil Hrun Hin Hsub Hf Hout. unfold il_run. rewrite Hil, Hrun. cbn [mbind outcome_bind]. eexists. split; [done|]. split; [eapply lists_update; try done; naive_solver|]. simpl.
  apply set_eq. intros x. rewrite !elem_of_dom. destruct (decide (x ∈ l')) as [Hx'|Hx'].
  - destruct (seg_owner _ _ _ _ _ x (in_seg _ _ _ _ Hin) Hx') as (n & Hn & _). split; intros _; [|by eexists]. destruct (Hsub x Hx') as [Hx|[_ Hx]]; [|done].
    destruct (used_owner s A _ l x L Hl Hx) as (n' & Hn' & _). by eexists.
  - destruct (decide (x ∈ l)) as [Hx|Hx]; [|by rewrite Hf]. rewrite (Hout x Hx Hx'). destruct (used_owner s A _ l x L Hl Hx) as (n' & Hn' & _). rewrite Hn'. split; by eexists.
Qed.

Lemma free_node e : unused A e -> is_Some (il_nodes s !! e) -> il_nodes s !! e = Some newListNode.
Proof using L. clear Hsize. intros Hu [n Hn]. by rewrite Hn, (la_free _ _ L e n Hn Hu). Qed.

Lemma il_op_ok o l l' : A !! op_list o = Some l -> Forall (fun e => is_Some (il_nodes s !! e)) (op_elems o) -> op_spec o A l = Some l' ->
  exists s', il_run s o = Ret s' /\ lists_are s' (<[op_list o := l']> A) /\ dom (il_nodes s') = dom (il_nodes s).
Proof using L Hsize.
  intros Hl Hv Hspec. destruct (la_get s A _ l L Hl) as (il & Hil & Hin). pose proof (list_bound s A _ l L Hl) as Hb. assert (Hb' : Z.of_nat (length l) + 1 < 2 ^ 64) by lia.
  destruct o as [lid e|lid e|lid|lid|lid e|lid p e]; simpl in Hl, Hil, Hin, Hv, Hspec.
  - case_decide as Hu; [|done]. injection Hspec as <-. apply Forall_cons in Hv as [Hv _]. pose proof (free_node e Hu Hv) as He. assert (Hel : e ∉ l) by (by apply (Hu lid)).
    destruct (push_front_ok _ lid il l Hin Hb' e He Hel) as (st' & il' & E & Hin' & Hf). apply (op_done (PushFront lid e) l (e :: l) il st' il'); try done.
    + intros x Hx. apply elem_of_cons in Hx as [->|Hx]; [by right|by left].
    + intros x _ Hx. by apply Hf.
    + set_solver.
  - case_decide as Hu; [|done]. injection Hspec as <-. apply Forall_cons in Hv as [Hv _]. pose proof (free_node e Hu Hv) as He. assert (Hel : e ∉ l) by (by apply (Hu lid)).
    destruct (push_back_ok _ lid il l Hin Hb' e He Hel) as (st' & il' & E & Hin' & Hf). apply (op_done (PushBack lid e) l (l ++ [e]) il st' il'); try done.
    + intros x Hx. apply elem_of_app in Hx as [Hx|Hx]; [by left|]. apply list_elem_of_singleton in Hx as ->. by right.
    + intros x _ Hx. by apply Hf.
    + set_solver.
  - injection Hspec as <-. destruct l as [|e k].
    + apply (op_done (PopFront lid) [] [] il (il_nodes s) il); try done; try set_solver. simpl. unfold pop_front. by rewrite (in_head _ _ _ _ Hin).
    + destruct (pop_front_ok _ lid il (e :: k) Hin Hb' e k eq_refl) as (st' & il' & E & Hin' & He & Hf). apply (op_done (PopFront lid) (e :: k) k il st' il'); try done.
      * intros x Hx. left. by right.
      * intros x Hx _. by apply Hf.
      * intros x Hx Hx'. apply elem_of_cons in Hx as [->|Hx]; done.
  - injection Hspec as <-. destruct l as [|e k _] using rev_ind.
    + apply (op_done (PopBack lid) [] [] il (il_nodes s) il); try done; try set_solver. simpl. unfold pop_back. by rewrite (in_head _ _ _ _ Hin).
    + rewrite removelast_last. destruct (pop_back_ok _ lid il (k ++ [e]) Hin Hb' k e eq_refl) as (st' & il' & E & Hin' & He & Hf). apply (op_done (PopBack lid) (k ++ [e]) k il st' il'); try done.
      * intros x Hx. left. apply elem_of_app. by left.
      * intros x Hx _. by apply Hf.
      * intros x Hx Hx'. apply elem_of_app in Hx as [Hx|Hx]; [done|]. apply list_elem_of_singleton in Hx as ->. done.
  - case_decide as Hel; [|done]. injection Hspec as <-. apply list_elem_of_split in Hel as (l1 & l2 & ->). rewrite filter_out by apply (in_nodup _ _ _ _ Hin).
    destruct (remove_ok _ lid il _ Hin Hb' l1 e l2 eq_refl) as (st' & il' & E & Hin' & He & Hf). apply (op_done (Remove lid e) (l1 ++ e :: l2) (l1 ++ l2) il st' il'); try done.
    + intros x Hx. left. set_solver.
    + intros x Hx _. by apply Hf.
    + intros x Hx Hx'. assert (x = e) as -> by set_solver. done.
  - case_decide as Hd; [|done]. destruct Hd as [Hu Hpl]. injection Hspec as <-. apply Forall_cons in Hv as [Hvp Hv]. apply Forall_cons in Hv as [Hv _]. pose proof (free_node e Hu Hv) as He.
    assert (Hel : e ∉ l) by (by apply (Hu lid)). apply list_elem_of_split in Hpl as (l1 & l2 & ->). pose proof (in_nodup _ _ _ _ Hin) as Hn. apply NoDup_app in Hn as (_ & Hd & _).
    rewrite insert_behind_split by (intros Hp; apply (Hd p Hp); by left).
    destruct (insertAfter_ok _ lid il _ Hin Hb' l1 p l2 e eq_refl He Hel) as (st' & il' & E & Hin' & Hf). apply (op_done (InsertAfter lid p e) (l1 ++ p :: l2) (l1 ++ p :: e :: l2) il st' il'); try done.
    + intros x Hx. destruct (decide (x = e)) as [->|Hxe]; [by right|left; set_solver].
    + intros x _ Hx. by apply Hf.
    + set_solver.
Qed.

(** A node whose element is in use has an owner; one outside list [lid] has another. *)
Lemma owner_used e n : il_nodes s !! e = Some n -> ~ unused A e -> n_owner n <> None.
Proof using L. clear Hsize. intros Hn Hu. apply not_unused in Hu as (lid & l & Hl & He). destruct (used_owner s A lid l e L Hl He) as (n' & Hn' & Ho). congruence. Qed.

Lemma owner_outside lid l e n : A !! lid = Some l -> il_nodes s !! e = Some n -> e ∉ l -> n_owner n <> Some lid.
Proof using L.
  clear Hsize. intros Hl Hn Hel Ho. destruct (decide (unused A e)) as [Hu|Hu]; [by rewrite (la_free _ _ L e n Hn Hu) in Ho|].
  apply not_unused in Hu as (lid' & l' & Hl' & He). destruct (used_owner s A lid' l' e L Hl' He) as (n' & Hn' & Ho'). congruence.
Qed.

Lemma op_stops o l : A !! op_list o = Some l -> Forall (fun e => is_Some (il_nodes s !! e)) (op_elems o) -> op_spec o A l = None -> il_run s o = Stop AssertFailed.
Proof using L.
  clear Hsize. intros Hl Hv Hspec. destruct (la_get s A _ l L Hl) as (il & Hil & Hin). unfold il_run. rewrite Hil.
  destruct o as [lid e|lid e|lid|lid|lid e|lid p e]; simpl in Hl, Hil, Hin, Hv, Hspec; try done; case_decide as Hd; try done; simpl.
  - apply Forall_cons in Hv as [[n Hn] _]. pose proof (owner_used e n Hn Hd). unfold push_front, assert_free, link_at. rewrite Hn. cbn [mbind outcome_bind]. rewrite bool_decide_false by naive_solver. done.
  - apply Forall_cons in Hv as [[n Hn] _]. pose proof (owner_used e n Hn Hd). unfold push_back, assert_free, link_at. rewrite Hn. cbn [mbind outcome_bind]. rewrite bool_decide_false by naive_solver. done.
  - apply Forall_cons in Hv as [[n Hn] _]. unfold remove. unfold link_at at 1. rewrite Hn. cbn [mbind outcome_bind].
    assert (unlink (il_nodes s) e lid = Stop AssertFailed) as ->; [|done]. destruct (decide (unused A e)) as [Hu|Hu]; [apply unlink_free; apply free_node; [done|by eexists]|].
    apply not_unused in Hu as (lid' & l' & Hl' & He). destruct (la_get s A lid' l' L Hl') as (il2 & _ & Hin2). apply list_elem_of_split in He as (l1 & l2 & ->).
    eapply unlink_foreign; [apply (in_nodup _ _ _ _ Hin2)|apply (in_seg _ _ _ _ Hin2)|]. intros ->. rewrite Hl in Hl'. injection Hl' as ->. set_solver.
  - apply Forall_cons in Hv as [[pn Hpn] Hv]. apply Forall_cons in Hv as [[n Hn] _]. unfold insertAfter, link_at. rewrite Hn. cbn [mbind outcome_bind]. destruct (decide (unused A e)) as [Hu|Hu].
    + rewrite (la_free _ _ L e n Hn Hu). cbn [n_owner newListNode]. rewrite (bool_decide_true (@None Z = None)) by done. cbn [assert_ mbind outcome_bind]. rewrite Hpn. cbn [mbind outcome_bind].
      rewrite (bool_decide_false (n_owner pn = Some lid)); [done|]. apply (owner_outside lid l p pn Hl Hpn). naive_solver.
    + rewrite (bool_decide_false (n_owner n = None)); [done|]. by apply (owner_used e).
Qed.
End Refine.

(** ** Histories *)

Definition il_start (E lids : gset Z) : il_state := mkLists (gset_to_gmap newListNode E) (gset_to_gmap newInList lids).

Fixpoint il_specs (ops : list il_op) (A : gmap Z (list Z)) : option (gmap Z (list Z)) :=
  match ops with
  | [] => Some A
  | o :: ops => A ← il_spec A o; il_specs ops A
  end.

Lemma il_start_are E lids : lists_are (il_start E lids) (gset_to_gmap [] lids).
Proof.
  split; simpl.
  - intros lid. destruct (decide (lid ∈ lids)) as [Hl|Hl].
    + rewrite (proj2 (lookup_gset_to_gmap_Some [] lids lid [])) by done. exists newInList. split; [by apply lookup_gset_to_gmap_Some|]. split; simpl; try done. constructor.
    + rewrite (proj2 (lookup_gset_to_gmap_None [] lids lid)) by done. by apply lookup_gset_to_gmap_None.
  - intros x n Hx _. by apply lookup_gset_to_gmap_Some in Hx as [_ <-].
Qed.

Lemma il_history_ok E lids ops s A :
  Z.of_nat (size E) + 1 < 2 ^ 64 -> lists_are s A -> dom (il_nodes s) = E -> dom A = lids -> Forall (fun o => op_list o ∈ lids /\ Forall (fun e => e ∈ E) (op_elems o)) ops ->
  match il_specs ops A with
  | Some A' => exists s', fold_ il_run ops s = Ret s' /\ lists_are s' A'
  | None => fold_ il_run ops s = Stop AssertFailed
  end.
Proof.
  intros HE L Hd HA Hops. revert s A L Hd HA. induction Hops as [|o ops [Ho He] Hops IH]; intros s A L Hd HA; cbn [fold_ il_specs]; [by exists s|].
  assert (Hs : Z.of_nat (size (il_nodes s)) + 1 < 2 ^ 64) by (rewrite <- size_dom, Hd; done). assert (is_Some (A !! op_list o)) as [l Hl] by (apply elem_of_dom; by rewrite HA).
  assert (Hv : Forall (fun e => is_Some (il_nodes s !! e)) (op_elems o)) by (eapply Forall_impl; [exact He|]; intros e Hx; apply elem_of_dom; by rewrite Hd).
  unfold il_spec. rewrite Hl. cbn [mbind option_bind]. destruct (op_spec o A l) as [l'|] eqn:Hspec; cbn [mbind option_bind].
  - destruct (il_op_ok s A L Hs o l l' Hl Hv Hspec) as (s' & -> & L' & Hd'). cbn [mbind outcome_bind]. apply IH; [done|by rewrite Hd'|]. rewrite dom_insert_L. apply elem_of_dom_2 in Hl. set_solver.
  - by rewrite (op_stops s A L o l Hl Hv Hspec).
Qed.

Lemma head_or_head l : head_or None l = head l.
Proof. by destruct l. Qed.
Lemma last_or_last l : last_or None l = last l.
Proof. destruct l as [|x l _] using rev_ind; [done|]. by rewrite last_or_app, last_snoc. Qed.

(** C26: Any number of intrusive lists over one set of elements behave as sequences: over
    every history of operations the lists answer [front], [back], [size] and [empty]
    as the sequences do, each element is in at most one list, and a history stops,
    at an assert, exactly when it inserts an element that is in some list, removes
    one that is not in the list, or inserts behind one that is not in it. *)
Theorem intrusive_lists_refine E lids ops :
  Z.of_nat (size E) + 1 < 2 ^ 64 -> Forall (fun o => op_list o ∈ lids /\ Forall (fun e => e ∈ E) (op_elems o)) ops ->
  match il_specs ops (gset_to_gmap [] lids) with
  | Some A => exists s, fold_ il_run ops (il_start E lids) = Ret s /\
      (forall lid l, A !! lid = Some l -> exists il, il_lists s !! lid = Some il /\ front il = head l /\ back il = last l /\ size_ il = Z.of_nat (length l) /\ (empty_ il = true <-> l = [])) /\
      (forall lid lid' l l' x, A !! lid = Some l -> A !! lid' = Some l' -> x ∈ l -> x ∈ l' -> lid = lid')
  | None => fold_ il_run ops (il_start E lids) = Stop AssertFailed
  end.
Proof.
  intros HE Hops. pose proof (il_history_ok E lids ops (il_start E lids) (gset_to_gmap [] lids) HE (il_start_are E lids)) as H. simpl in H. rewrite !dom_gset_to_gmap in H. specialize (H eq_refl eq_refl Hops).
  destruct (il_specs ops _) as [A|]; [|done]. destruct H as (s & E1 & L). exists s. split; [done|]. split; [|intros lid lid' l l' x; by apply list_disjoint with (s := s)].
  intros lid l Hl. destruct (la_get s A lid l L Hl) as (il & Hil & Hin). exists il. split; [done|]. destruct Hin as [I1 I2 I3 I4 I5]. unfold front, back, size_, empty_. rewrite I1, I2, head_or_head, last_or_last.
  split_and!; try done. rewrite bool_decide_eq_true. destruct l; naive_solver.
Qed.

(** Two lists and three elements; the last operation inserts an element twice. *)
Definition demo_il_ops : list il_op := [PushBack 100 1; PushFront 100 2; InsertAfter 100 2 3; Remove 100 1; PushBack 101 1; PopFront 100].

Definition demo_elems : gset Z := {[1; 2; 3]}.
Definition demo_lids : gset Z := {[100; 101]}.

Lemma demo_ops_valid : Forall (fun o => op_list o ∈ demo_lids /\ Forall (fun e => e ∈ demo_elems) (op_elems o)) (demo_il_ops ++ [PushBack 100 1]).
Proof. apply (bool_decide_unpack _). vm_compute. exact I. Qed.

Lemma intrusive_lists_refine_witness :
  (exists s, fold_ il_run demo_il_ops (il_start demo_elems demo_lids) = Ret s) /\ fold_ il_run (demo_il_ops ++ [PushBack 100 1]) (il_start demo_elems demo_lids) = Stop AssertFailed.
Proof.
  pose proof demo_ops_valid as Hv. split.
  - assert (H := intrusive_lists_refine demo_elems demo_lids demo_il_ops ltac:(vm_compute; reflexivity) (proj1 (proj1 (Forall_app _ _ _) Hv))).
    destruct (il_specs demo_il_ops (gset_to_gmap [] demo_lids)) eqn:Hs; [destruct H as (s & E & _); exists s; exact E|]. exfalso. revert Hs. vm_compute. discriminate.
  - assert (H := intrusive_lists_refine demo_elems demo_lids (demo_il_ops ++ [PushBack 100 1]) ltac:(vm_compute; reflexivity) Hv).
    destruct (il_specs (demo_il_ops ++ [PushBack 100 1]) (gset_to_gmap [] demo_lids)) eqn:Hs; [|exact H]. exfalso. revert Hs. vm_compute. discriminate.
Defined.
