(* ===== verification/Barrier.v ===== *)
(** * The phase barrier

    [Barrier] of src/src/barrier.h: the threads of the simulated cores run in phases; a
    thread that has run waits in [sync] until all have, threads join and leave at any
    time, and at most [parallelThreads] run at once.  Every operation holds the lock
    of the scheduler, so it is one step; what it does to other threads are events: a
    futex call that wakes a thread, and the callback at the end of a phase.  The
    theorems show that the barrier implements a simple automaton of phases, that no
    thread is left waiting while none runs, and a defect of [join]. *)

From S2P Require Import Prelude.

Definition MAX_THREADS : Z := 2048.

Inductive BarState : Type := OFFLINE | WAITING | RUNNING | LEFT.

#[export] Instance BarState_eq_dec : EqDecision BarState.
Proof. solve_decision. Defined.

Record ThreadSyncInfo : Type := mkTSI { ts_state : BarState; futexWord : Z; lastIdx : Z }.

(** [rnd_calls] counts the calls of the generator. *)
Record Barrier : Type := mkBar {
  parallelThreads : Z;
  threadList : list ThreadSyncInfo;
  runList : list Z;
  runListSize : Z;
  curThreadIdx : Z;
  runningThreads : Z;
  leftThreads : Z;
  phaseCount : Z;
  rnd_calls : nat
}.

Inductive bar_event : Type :=
  | Joins (t : Z)
  | Wakes (t : Z)
  | Syncs (t : Z)
  | Leaves (t : Z)
  | PhaseEnds.

#[export] Instance bar_event_eq_dec : EqDecision bar_event.
Proof. solve_decision. Defined.

(** The array [lastIdx] is not written by the constructor; the shared heap is zeroed. *)
Definition newBarrier (parallel : Z) : Barrier :=
  mkBar parallel (replicate (Z.to_nat MAX_THREADS) (mkTSI OFFLINE 0 0)) (replicate (Z.to_nat MAX_THREADS) 0) 0 0 0 0 0 0.

Definition with_threads (b : Barrier) (tl : list ThreadSyncInfo) : Barrier :=
  mkBar (parallelThreads b) tl (runList b) (runListSize b) (curThreadIdx b) (runningThreads b) (leftThreads b) (phaseCount b) (rnd_calls b).
Definition with_running (b : Barrier) (n : Z) : Barrier :=
  mkBar (parallelThreads b) (threadList b) (runList b) (runListSize b) (curThreadIdx b) n (leftThreads b) (phaseCount b) (rnd_calls b).
Definition with_left (b : Barrier) (n : Z) : Barrier :=
  mkBar (parallelThreads b) (threadList b) (runList b) (runListSize b) (curThreadIdx b) (runningThreads b) n (phaseCount b) (rnd_calls b).
Definition with_cur (b : Barrier) (n : Z) : Barrier :=
  mkBar (parallelThreads b) (threadList b) (runList b) (runListSize b) n (runningThreads b) (leftThreads b) (phaseCount b) (rnd_calls b).
Definition with_list (b : Barrier) (rl : list Z) (n : Z) : Barrier :=
  mkBar (parallelThreads b) (threadList b) rl n (curThreadIdx b) (runningThreads b) (leftThreads b) (phaseCount b) (rnd_calls b).

Definition set_ts_state (tl : list ThreadSyncInfo) (t : Z) (s : BarState) : outcome (list ThreadSyncInfo) := i ← at_ tl t; set_at tl t (mkTSI s (futexWord i) (lastIdx i)).
Definition set_futex (tl : list ThreadSyncInfo) (t w : Z) : outcome (list ThreadSyncInfo) := i ← at_ tl t; set_at tl t (mkTSI (ts_state i) w (lastIdx i)).
Definition set_last (tl : list ThreadSyncInfo) (t idx : Z) : outcome (list ThreadSyncInfo) := i ← at_ tl t; set_at tl t (mkTSI (ts_state i) (futexWord i) idx).

(** ** [checkRunList] *)

Fixpoint checkRunList_loop (fuel : nat) (b : Barrier) : outcome (Barrier * list bar_event) :=
  match fuel with
  | O => Stop OutOfFuel
  | S fuel =>
      if (runningThreads b <? parallelThreads b) && (curThreadIdx b <? runListSize b) then
        let idx := curThreadIdx b in
        let b := with_cur b (u32 (idx + 1)) in
        wtid ← at_ (runList b) idx;
        i ← at_ (threadList b) wtid;
        if bool_decide (ts_state i = WAITING) then
          tl ← set_ts_state (threadList b) wtid RUNNING;
          tl ← set_last tl wtid idx;
          if negb (futexWord i =? 1) then Stop Panicked else
          tl ← set_futex tl wtid 0;
          '(b, evs) ← checkRunList_loop fuel (with_running (with_threads b tl) (u32 (runningThreads b + 1)));
          Ret (b, Wakes wtid :: evs)
        else checkRunList_loop fuel b
      else Ret (b, [])
  end.

Definition checkRunList (b : Barrier) : outcome (Barrier * list bar_event) := checkRunList_loop (S (Z.to_nat (runListSize b))) b.

(** ** [checkEndPhase] *)

(** The pass that puts the threads that have left offline. *)
Fixpoint cleanup_loop (fuel : nat) (tl : list ThreadSyncInfo) (rl : list Z) (idx newSize : Z) : outcome (list ThreadSyncInfo * list Z * Z) :=
  match fuel with
  | O => Stop OutOfFuel
  | S fuel =>
      if idx <? newSize then
        wtid ← at_ rl idx;
        i ← at_ tl wtid;
        if bool_decide (ts_state i = LEFT) then
          tl ← set_ts_state tl wtid OFFLINE;
          stid ← at_ rl (newSize - 1);
          rl ← set_at rl idx stid;
          tl ← set_last tl stid idx;
          cleanup_loop fuel tl rl idx (newSize - 1)
        else cleanup_loop fuel tl rl (idx + 1) newSize
      else Ret (tl, rl, newSize)
  end.

Definition cleanup (b : Barrier) : outcome Barrier :=
  _ ← assert_ (0 <? runListSize b);
  '(tl, rl, newSize) ← cleanup_loop (S (Z.to_nat (runListSize b))) (threadList b) (runList b) 0 (runListSize b);
  _ ← assert_ (u32 (runListSize b - newSize) =? leftThreads b);
  Ret (with_list (with_left (with_threads b tl) 0) rl newSize).

Section Barrier.
(** [randInt k i] is what the [k]-th call of the generator with bound [i] returns. *)
Context (randInt : nat -> Z -> Z).

Definition shuffle_step (s : list ThreadSyncInfo * list Z * nat) (i : Z) : outcome (list ThreadSyncInfo * list Z * nat) :=
  let '(tl, rl, k) := s in
  let j := randInt k i in
  itid ← at_ rl i;
  jtid ← at_ rl j;
  rl ← set_at rl i jtid;
  rl ← set_at rl j itid;
  tl ← set_last tl itid j;
  tl ← set_last tl jtid i;
  Ret (tl, rl, S k).

Definition shuffle (b : Barrier) : outcome Barrier :=
  '(tl, rl, k) ← fold_ shuffle_step (rev (seqZ 1 (runListSize b - 1))) (threadList b, runList b, rnd_calls b);
  Ret (mkBar (parallelThreads b) tl rl (runListSize b) (curThreadIdx b) (runningThreads b) (leftThreads b) (phaseCount b) k).

Definition checkEndPhase (b : Barrier) : outcome (Barrier * list bar_event) :=
  if (curThreadIdx b =? runListSize b) && (runningThreads b =? 0) then
    if leftThreads b =? runListSize b then Ret (b, []) else
    let b := with_cur b 0 in
    let clean := Z.land (phaseCount b) 31 =? 0 in
    let b := mkBar (parallelThreads b) (threadList b) (runList b) (runListSize b) (curThreadIdx b) (runningThreads b) (leftThreads b) (u32 (phaseCount b + 1)) (rnd_calls b) in
    b ← if clean then cleanup b else Ret b;
    b ← if parallelThreads b <? runListSize b then shuffle b else Ret b;
    Ret (b, [PhaseEnds])
  else Ret (b, []).

Definition tryWakeNext (b : Barrier) : outcome (Barrier * list bar_event) :=
  '(b, e1) ← checkRunList b;
  '(b, e2) ← checkEndPhase b;
  '(b, e3) ← checkRunList b;
  Ret (b, e1 ++ e2 ++ e3).

(** ** [join], [leave], [sync]

    Up to the release of the lock; then the thread waits for its futex word to change. *)

Definition same_phase_join (b : Barrier) (tid : Z) : outcome Barrier :=
  i ← at_ (threadList b) tid;
  let last := lastIdx i in
  if last <? curThreadIdx b then
    let cur := u32 (curThreadIdx b - 1) in
    t ← at_ (runList b) last;
    _ ← assert_ (tid =? t);
    otherTid ← at_ (runList b) cur;
    rl ← set_at (runList b) last otherTid;
    rl ← set_at rl cur tid;
    tl ← set_last (threadList b) otherTid last;
    tl ← set_last tl tid cur;
    Ret (with_cur (with_list (with_threads b tl) rl (runListSize b)) cur)
  else Ret b.

Definition bar_join (b : Barrier) (tid : Z) : outcome (Barrier * list bar_event) :=
  i ← at_ (threadList b) tid;
  _ ← assert_ (bool_decide (ts_state i = LEFT \/ ts_state i = OFFLINE));
  b ← if bool_decide (ts_state i = OFFLINE) then rl ← set_at (runList b) (runListSize b) tid; Ret (with_list b rl (u32 (runListSize b + 1)))
      else same_phase_join (with_left b (u32 (leftThreads b - 1))) tid;
  tl ← set_ts_state (threadList b) tid WAITING;
  tl ← set_futex tl tid 1;
  '(b, evs) ← tryWakeNext (with_threads b tl);
  Ret (b, Joins tid :: evs).

Definition bar_leave (b : Barrier) (tid : Z) : outcome (Barrier * list bar_event) :=
  i ← at_ (threadList b) tid;
  if bool_decide (ts_state i = RUNNING) then
    tl ← set_ts_state (threadList b) tid LEFT;
    '(b, evs) ← tryWakeNext (with_running (with_left (with_threads b tl) (u32 (leftThreads b + 1))) (u32 (runningThreads b - 1)));
    Ret (b, Leaves tid :: evs)
  else
    _ ← assert_ (bool_decide (ts_state i = WAITING));
    tl ← set_ts_state (threadList b) tid LEFT;
    Ret (with_left (with_threads b tl) (u32 (leftThreads b + 1)), [Leaves tid]).

Definition bar_sync (b : Barrier) (tid : Z) : outcome (Barrier * list bar_event) :=
  i ← at_ (threadList b) tid;
  _ ← assert_ (bool_decide (ts_state i = RUNNING));
  tl ← set_futex (threadList b) tid 1;
  tl ← set_ts_state tl tid WAITING;
  '(b, evs) ← tryWakeNext (with_running (with_threads b tl) (u32 (runningThreads b - 1)));
  Ret (b, Syncs tid :: evs).

(** A thread that waits goes on when its word has changed, and asserts its state. *)
Definition after_wait (b : Barrier) (tid : Z) : outcome bool :=
  i ← at_ (threadList b) tid;
  if futexWord i =? 1 then Ret false else _ ← assert_ (bool_decide (ts_state i = RUNNING)); Ret true.
End Barrier.

(** ** The specification

    An automaton of phases: a thread in the barrier is due to run, runs, or has run; a
    phase ends when all have run. *)

Inductive phase_status : Type := Due | Active | Done.

#[export] Instance phase_status_eq_dec : EqDecision phase_status.
Proof. solve_decision. Defined.

Definition phase_step (m : gmap Z phase_status) (e : bar_event) : option (gmap Z phase_status) :=
  match e with
  | Joins t => if decide (m !! t = None) then Some (<[t := Due]> m) else None
  | Wakes t => if decide (m !! t = Some Due) then Some (<[t := Active]> m) else None
  | Syncs t => if decide (m !! t = Some Active) then Some (<[t := Done]> m) else None
  | Leaves t => if decide (m !! t = None) then None else Some (delete t m)
  | PhaseEnds => if decide (m <> ∅ /\ map_Forall (fun _ s => s = Done) m) then Some ((fun _ => Due) <$> m) else None
  end.

Fixpoint phase_run (evs : list bar_event) (m : gmap Z phase_status) : option (gmap Z phase_status) :=
  match evs with
  | [] => Some m
  | e :: evs => m ← phase_step m e; phase_run evs m
  end.

Lemma phase_run_app evs evs' m : phase_run (evs ++ evs') m = phase_run evs m ≫= phase_run evs'.
Proof. revert m. induction evs as [|e evs IH]; intros m; simpl; [done|]. destruct (phase_step m e); [apply IH|done]. Qed.

(** ** The invariant *)

Definition in_state (s : BarState) (i : ThreadSyncInfo) : bool := bool_decide (ts_state i = s).

Definition status (cur : Z) (k : nat) (i : ThreadSyncInfo) : option phase_status :=
  match ts_state i with
  | RUNNING => Some Active
  | WAITING => if Z.of_nat k <? cur then Some Done else Some Due
  | LEFT | OFFLINE => None
  end.

(** The first part of [runList] is [l], the rest [g]; the barrier is in state [m] of the
    automaton. *)
Record bar_was (early : gset Z) (b : Barrier) (l g : list Z) (m : gmap Z phase_status) : Prop := {
  bi_parallel : 1 <= parallelThreads b < 2 ^ 32;
  bi_threads : Z.of_nat (length (threadList b)) = MAX_THREADS;
  bi_list : runList b = l ++ g;
  bi_length : Z.of_nat (length (l ++ g)) = MAX_THREADS;
  bi_size : runListSize b = Z.of_nat (length l);
  bi_nodup : NoDup l;
  bi_cur : 0 <= curThreadIdx b <= Z.of_nat (length l);
  bi_in : forall t i, 0 <= t -> threadList b !! Z.to_nat t = Some i -> (ts_state i <> OFFLINE <-> t ∈ l);
  bi_range : forall t, t ∈ l -> 0 <= t < MAX_THREADS;
  bi_running : runningThreads b = count_b (in_state RUNNING) (threadList b);
  bi_bound : runningThreads b <= parallelThreads b;
  bi_left : leftThreads b = count_b (in_state LEFT) (threadList b);
  bi_futex : forall t i, threadList b !! t = Some i -> (ts_state i = WAITING -> futexWord i = 1) /\ (ts_state i = RUNNING -> futexWord i = 0);
  bi_last : forall k t i, l !! k = Some t -> threadList b !! Z.to_nat t = Some i -> (ts_state i = LEFT -> t ∉ early) -> ts_state i = LEFT \/ ts_state i = RUNNING \/ Z.of_nat k < curThreadIdx b -> lastIdx i = Z.of_nat k;
  bi_ran : forall k t i, l !! k = Some t -> threadList b !! Z.to_nat t = Some i -> ts_state i = RUNNING -> Z.of_nat k < curThreadIdx b;
  bi_status : forall k t i, l !! k = Some t -> threadList b !! Z.to_nat t = Some i -> m !! t = status (curThreadIdx b) k i;
  bi_outside : forall t, t ∉ l -> m !! t = None
}.
Arguments bi_parallel {_}.
Arguments bi_threads {_}.
Arguments bi_list {_}.
Arguments bi_length {_}.
Arguments bi_size {_}.
Arguments bi_nodup {_}.
Arguments bi_cur {_}.
Arguments bi_in {_}.
Arguments bi_range {_}.
Arguments bi_running {_}.
Arguments bi_bound {_}.
Arguments bi_left {_}.
Arguments bi_futex {_}.
Arguments bi_last {_}.
Arguments bi_ran {_}.
Arguments bi_status {_}.
Arguments bi_outside {_}.

Abbreviation bar_is := (bar_was ∅).

(** Fewer threads that stand for nothing, or more. *)
Lemma bar_change {early} early' b l g m :
  bar_was early b l g m -> (forall t i, threadList b !! Z.to_nat t = Some i -> t ∈ l -> ts_state i = LEFT -> t ∈ early -> t ∈ early') -> bar_was early' b l g m.
Proof.
  intros [V1 V2 V3 V4 V5 V6 V7 V8 V9 V10 V11 V12 V13 V14 V15 V16 V17] He. split; try done. intros k t i Hk Hi Hn. apply (V14 k t i Hk Hi).
  intros Hs Ht. apply (Hn Hs). refine (He t i Hi _ Hs Ht). by eapply list_elem_of_lookup_2.
Qed.

Lemma at_app_l {A} (l g : list A) i x : l !! Z.to_nat i = Some x -> 0 <= i -> at_ (l ++ g) i = Ret x.
Proof. intros Hi Hp. apply at_ret_iff. split; [done|]. by apply lookup_app_l_Some. Qed.

Lemma set_at_app_l {A} (l g : list A) i x : 0 <= i < Z.of_nat (length l) -> set_at (l ++ g) i x = Ret (<[Z.to_nat i := x]> l ++ g).
Proof. intros Hi. rewrite set_at_ret by (rewrite length_app; lia). f_equal. apply insert_app_l. lia. Qed.

Section Reads.
Context {early : gset Z} {b : Barrier} {l g : list Z} {m : gmap Z phase_status} (I : bar_was early b l g m).

Lemma bi_info t : t ∈ l -> exists i, at_ (threadList b) t = Ret i /\ threadList b !! Z.to_nat t = Some i /\ ts_state i <> OFFLINE.
Proof using I.
  intros Ht. pose proof (bi_range _ _ _ _ I t Ht). pose proof (bi_threads _ _ _ _ I). destruct (at_in_range (threadList b) t ltac:(lia)) as [i Hi]. exists i. split; [done|].
  apply at_ret_iff in Hi as [Hp Hi]. split; [done|]. by apply (bi_in _ _ _ _ I t i Hp Hi).
Qed.

Lemma bi_nth k t : l !! k = Some t -> exists i, at_ (threadList b) t = Ret i /\ threadList b !! Z.to_nat t = Some i /\ ts_state i <> OFFLINE.
Proof using I. intros Hk. apply bi_info. by eapply list_elem_of_lookup_2. Qed.

Lemma bi_index t i : 0 <= t -> threadList b !! Z.to_nat t = Some i -> ts_state i <> OFFLINE -> exists k, l !! k = Some t.
Proof using I. intros Hp Ht Hs. apply list_elem_of_lookup. by apply (bi_in _ _ _ _ I t i Hp Ht). Qed.

Lemma bi_same k k' t t' : l !! k = Some t -> l !! k' = Some t' -> Z.to_nat t = Z.to_nat t' -> k = k' /\ t = t'.
Proof using I.
  intros Hk Hk' He. pose proof (bi_range _ _ _ _ I t ltac:(by eapply list_elem_of_lookup_2)). pose proof (bi_range _ _ _ _ I t' ltac:(by eapply list_elem_of_lookup_2)). assert (t = t') as <- by lia.
  split; [|done]. eapply NoDup_lookup; [apply (bi_nodup _ _ _ _ I)|done|done].
Qed.
End Reads.

(** One thread of the list changes, and the index by at most its position. *)
Definition bar_put (b : Barrier) (t : Z) (i : ThreadSyncInfo) (cur running left : Z) : Barrier :=
  mkBar (parallelThreads b) (<[Z.to_nat t := i]> (threadList b)) (runList b) (runListSize b) cur running left (phaseCount b) (rnd_calls b).

Definition status_put (m : gmap Z phase_status) (t : Z) (s : option phase_status) : gmap Z phase_status := match s with Some s => <[t := s]> m | None => delete t m end.

Lemma status_put_eq m t s : status_put m t s !! t = s.
Proof. destruct s; simpl; [apply lookup_insert_eq|apply lookup_delete_eq]. Qed.
Lemma status_put_ne m t t' s : t <> t' -> status_put m t s !! t' = m !! t'.
Proof. intros. destruct s; simpl; [by apply lookup_insert_ne|by apply lookup_delete_ne]. Qed.

Definition flag (x : bool) : Z := if x then 1 else 0.

Lemma bar_update {early} b l g m k t i i' cur :
  bar_was early b l g m -> l !! k = Some t -> threadList b !! Z.to_nat t = Some i -> ts_state i' <> OFFLINE ->
  (ts_state i' = WAITING -> futexWord i' = 1) -> (ts_state i' = RUNNING -> futexWord i' = 0) ->
  ((ts_state i' = LEFT -> t ∉ early) -> ts_state i' = LEFT \/ ts_state i' = RUNNING \/ Z.of_nat k < cur -> lastIdx i' = Z.of_nat k) -> (ts_state i' = RUNNING -> Z.of_nat k < cur) ->
  (cur = curThreadIdx b \/ curThreadIdx b = Z.of_nat k /\ cur = curThreadIdx b + 1) ->
  runningThreads b - flag (in_state RUNNING i) + flag (in_state RUNNING i') <= parallelThreads b ->
  bar_was early (bar_put b t i' cur (runningThreads b - flag (in_state RUNNING i) + flag (in_state RUNNING i')) (leftThreads b - flag (in_state LEFT i) + flag (in_state LEFT i')))
    l g (status_put m t (status cur k i')).
Proof.
  intros I Hk Ht Hoff Hw Hr Hlast Hran Hcur Hpar. pose proof (lookup_lt_Some _ _ _ Hk) as Hkl. pose proof (lookup_lt_Some _ _ _ Ht) as Htl.
  assert (Hjs : forall j t' x, l !! j = Some t' -> <[Z.to_nat t := i']> (threadList b) !! Z.to_nat t' = Some x -> j = k /\ t' = t /\ x = i' \/ j <> k /\ t' <> t /\ threadList b !! Z.to_nat t' = Some x).
  { intros j t' x Hj Hx. apply list_lookup_insert_Some in Hx as [(He & -> & _)|[Hne Hx]].
    - destruct (bi_same I k j t t' Hk Hj He) as [-> ->]. by left.
    - right. split_and!; [|by intros ->|done]. intros ->. rewrite Hk in Hj. by injection Hj as ->. }
  assert (Hlt : forall j : nat, j <> k -> Z.of_nat j < cur <-> Z.of_nat j < curThreadIdx b) by (intros j Hj; destruct Hcur as [->|[Hc ->]]; lia).
  destruct I as [V1 V2 V3 V4 V5 V6 V7 V8 V9 V10 V11 V12 V13 V14 V15 V16 V17]. split; simpl; try done.
  - by rewrite length_insert.
  - lia.
  - intros t' x Hp Hx. apply list_lookup_insert_Some in Hx as [(He & -> & _)|[Hne Hx]]; [|by apply V8]. split; [|done]. intros _.
    assert (t' = t) as -> by (pose proof (V9 t ltac:(by eapply list_elem_of_lookup_2)); lia). by eapply list_elem_of_lookup_2.
  - rewrite V10. rewrite (count_b_insert _ _ _ i i' Ht). unfold flag. lia.
  - rewrite V12. rewrite (count_b_insert _ _ _ i i' Ht). unfold flag. lia.
  - intros t' x Hx. apply list_lookup_insert_Some in Hx as [(He & -> & _)|[Hne Hx]]; [done|by eapply V13].
  - intros j t' x Hj Hx He Hc. destruct (Hjs j t' x Hj Hx) as [(-> & -> & ->)|(Hjk & _ & Hx')]; [by apply Hlast|]. apply (V14 j t' x Hj Hx' He). specialize (Hlt j Hjk). tauto.
  - intros j t' x Hj Hx Hs. destruct (Hjs j t' x Hj Hx) as [(-> & -> & ->)|(Hjk & _ & Hx')]; [by apply Hran|]. apply Hlt; [done|]. by eapply V15.
  - intros j t' x Hj Hx. destruct (Hjs j t' x Hj Hx) as [(-> & -> & ->)|(Hjk & Htt & Hx')]; [by rewrite status_put_eq|]. rewrite status_put_ne by done. rewrite (V16 j t' x Hj Hx'). unfold status.
    destruct (ts_state x); try done. specialize (Hlt j Hjk). destruct (Z.of_nat j <? cur) eqn:E1, (Z.of_nat j <? curThreadIdx b) eqn:E2; zb; try done; lia.
  - intros t' Ht'. rewrite status_put_ne; [by apply V17|]. intros ->. apply Ht'. by eapply list_elem_of_lookup_2.
Qed.

Lemma set_ts_state_ret tl t s i : 0 <= t -> tl !! Z.to_nat t = Some i -> set_ts_state tl t s = Ret (<[Z.to_nat t := mkTSI s (futexWord i) (lastIdx i)]> tl).
Proof. intros Hp Ht. unfold set_ts_state. rewrite (at_ret _ _ i) by done. apply lookup_lt_Some in Ht. cbn [mbind outcome_bind]. by rewrite set_at_ret by lia. Qed.
Lemma set_futex_ret tl t w i : 0 <= t -> tl !! Z.to_nat t = Some i -> set_futex tl t w = Ret (<[Z.to_nat t := mkTSI (ts_state i) w (lastIdx i)]> tl).
Proof. intros Hp Ht. unfold set_futex. rewrite (at_ret _ _ i) by done. apply lookup_lt_Some in Ht. cbn [mbind outcome_bind]. by rewrite set_at_ret by lia. Qed.
Lemma set_last_ret tl t k i : 0 <= t -> tl !! Z.to_nat t = Some i -> set_last tl t k = Ret (<[Z.to_nat t := mkTSI (ts_state i) (futexWord i) k]> tl).
Proof. intros Hp Ht. unfold set_last. rewrite (at_ret _ _ i) by done. apply lookup_lt_Some in Ht. cbn [mbind outcome_bind]. by rewrite set_at_ret by lia. Qed.

Lemma bar_running_bounds {early} b l g m : bar_was early b l g m -> 0 <= runningThreads b < 2 ^ 31 /\ 0 <= leftThreads b < 2 ^ 31.
Proof.
  intros I. rewrite (bi_running _ _ _ _ I), (bi_left _ _ _ _ I). pose proof (bi_threads _ _ _ _ I) as Hl. unfold MAX_THREADS in Hl.
  pose proof (count_b_nonneg (in_state RUNNING) (threadList b)). pose proof (count_b_length (in_state RUNNING) (threadList b)).
  pose proof (count_b_nonneg (in_state LEFT) (threadList b)). pose proof (count_b_length (in_state LEFT) (threadList b)). lia.
Qed.

Lemma bar_list_bound {early} b l g m : bar_was early b l g m -> Z.of_nat (length l) <= MAX_THREADS.
Proof. intros I. pose proof (bi_length _ _ _ _ I) as H. rewrite length_app in H. lia. Qed.

(** *** [checkRunList] *)

Definition wakes_only (evs : list bar_event) : Prop := Forall (fun e => exists t, e = Wakes t) evs.

Lemma checkRunList_loop_ok {early} fuel b l g m :
  bar_was early b l g m -> Z.of_nat (length l) - curThreadIdx b < Z.of_nat fuel ->
  exists b' evs m', checkRunList_loop fuel b = Ret (b', evs) /\ bar_was early b' l g m' /\ phase_run evs m = Some m' /\ wakes_only evs /\
    (runningThreads b' = parallelThreads b' \/ curThreadIdx b' = Z.of_nat (length l)) /\ runningThreads b <= runningThreads b' /\ (evs <> [] -> 0 < runningThreads b') /\
    parallelThreads b' = parallelThreads b /\ phaseCount b' = phaseCount b.
Proof.
  revert b m. induction fuel as [|fuel IH]; intros b m I Hf; [pose proof (bi_cur _ _ _ _ I); lia|]. cbn [checkRunList_loop]. rewrite (bi_size _ _ _ _ I).
  pose proof (bi_cur _ _ _ _ I) as Hcur. pose proof (bi_bound _ _ _ _ I) as Hpar. destruct (bar_running_bounds _ _ _ _ I) as [Hrun _]. pose proof (bar_list_bound _ _ _ _ I) as Hmax. unfold MAX_THREADS in Hmax.
  destruct (runningThreads b <? parallelThreads b) eqn:Hp; zb; simpl.
  2: { exists b, [], m. split_and!; try done; [by constructor|left; lia]. }
  destruct (curThreadIdx b <? Z.of_nat (length l)) eqn:Hc; zb.
  2: { exists b, [], m. split_and!; try done; [by constructor|right; lia]. }
  destruct (lookup_lt_is_Some_2 l (Z.to_nat (curThreadIdx b))) as [t Ht]; [lia|]. rewrite (bi_list _ _ _ _ I), (at_app_l l g _ t) by (done || lia). cbn [mbind outcome_bind].
  destruct (bi_nth I _ _ Ht) as (i & Ei & Hi & Hoff). rewrite Ei. cbn [mbind outcome_bind]. rewrite (u32_small (curThreadIdx b + 1)) by lia. pose proof (bi_range _ _ _ _ I t ltac:(by eapply list_elem_of_lookup_2)) as Htr.
  pose proof (lookup_lt_Some _ _ _ Hi) as Htl. destruct (bi_futex _ _ _ _ I _ _ Hi) as [Hfw Hfr].
  assert (Hstat : m !! t = status (curThreadIdx b) (Z.to_nat (curThreadIdx b)) i) by (by eapply bi_status).
  case_bool_decide as Hw.
  - rewrite (set_ts_state_ret _ _ _ i) by (done || lia). cbn [mbind outcome_bind]. erewrite set_last_ret by (lia || by apply list_lookup_insert_eq). cbn [mbind outcome_bind ts_state futexWord].
    rewrite (Hfw Hw). cbn [negb Z.eqb Pos.eqb]. erewrite set_futex_ret by (lia || (apply list_lookup_insert_eq; by rewrite length_insert)). cbn [mbind outcome_bind ts_state lastIdx].
    rewrite !list_insert_insert_eq, (u32_small (runningThreads b + 1)) by lia.
    set (i' := mkTSI RUNNING 0 (curThreadIdx b)).
    assert (I' : bar_was early (bar_put b t i' (curThreadIdx b + 1) (runningThreads b + 1) (leftThreads b)) l g (<[t := Active]> m)).
    { pose proof (bar_update b l g m _ t i i' (curThreadIdx b + 1) I Ht Hi) as HU. unfold in_state in HU. rewrite Hw in HU. simpl in HU. replace (runningThreads b - 0 + 1) with (runningThreads b + 1) in HU by lia.
      replace (leftThreads b - 0 + 0) with (leftThreads b) in HU by lia. apply HU; try done; lia. }
    destruct (IH _ _ I') as (b' & evs & m' & E & I2 & Hrun2 & Hev & Hend & Hle & Hpos & Hp2 & Hph); [simpl; lia|]. simpl in Hle, Hp2, Hph.
    assert (E' : checkRunList_loop fuel (with_running (with_threads (with_cur b (curThreadIdx b + 1)) (<[Z.to_nat t := i']> (threadList b))) (runningThreads b + 1)) = Ret (b', evs)) by exact E.
    rewrite E'. cbn [mbind outcome_bind]. exists b', (Wakes t :: evs), m'. split; [done|]. split; [done|]. split; [|split_and!; try done; try lia; constructor; [by eexists|done]].
    cbn [phase_run phase_step]. rewrite decide_True; [done|]. rewrite Hstat. unfold status. rewrite Hw. rewrite (proj2 (Z.ltb_ge _ _)) by lia. done.
  - assert (Hleft : ts_state i = LEFT).
    { destruct (ts_state i) eqn:Hs; try done. pose proof (bi_ran _ _ _ _ I _ _ _ Ht Hi Hs). lia. }
    assert (I' : bar_was early (with_cur b (curThreadIdx b + 1)) l g m).
    { pose proof (bar_update b l g m _ t i i (curThreadIdx b + 1) I Ht Hi) as HU. unfold bar_put in HU. rewrite list_insert_id in HU by done.
      assert (status_put m t (status (curThreadIdx b + 1) (Z.to_nat (curThreadIdx b)) i) = m) as Hm.
      { unfold status. rewrite Hleft. simpl. apply delete_id. rewrite Hstat. unfold status. by rewrite Hleft. }
      rewrite Hm in HU. replace (runningThreads b - flag (in_state RUNNING i) + flag (in_state RUNNING i)) with (runningThreads b) in HU by lia.
      replace (leftThreads b - flag (in_state LEFT i) + flag (in_state LEFT i)) with (leftThreads b) in HU by lia. apply HU; try done; try lia; try congruence. intros He _. eapply (bi_last _ _ _ _ I); [done|done|exact He|by left]. }
    destruct (IH _ _ I') as (b' & evs & m' & E & I2 & Hrest); [simpl; lia|]. exists b', evs, m'. rewrite E. done.
Qed.

Lemma checkRunList_ok {early} b l g m :
  bar_was early b l g m ->
  exists b' evs m', checkRunList b = Ret (b', evs) /\ bar_was early b' l g m' /\ phase_run evs m = Some m' /\ wakes_only evs /\
    (runningThreads b' = parallelThreads b' \/ curThreadIdx b' = Z.of_nat (length l)) /\ runningThreads b <= runningThreads b' /\ (evs <> [] -> 0 < runningThreads b') /\ parallelThreads b' = parallelThreads b.
Proof.
  intros I. unfold checkRunList. rewrite (bi_size _ _ _ _ I). pose proof (bi_cur _ _ _ _ I).
  destruct (checkRunList_loop_ok (S (Z.to_nat (Z.of_nat (length l)))) b l g m I ltac:(lia)) as (b' & evs & m' & E & I' & Hr & Hev & Hend & Hle & Hpos & Hpar & _). by exists b', evs, m'.
Qed.

(** *** Between phases *)

(** No thread runs and the list has not been rewound through yet. *)
Record at_rest (early : gset Z) (tl : list ThreadSyncInfo) (l g : list Z) (m : gmap Z phase_status) : Prop := {
  ar_threads : Z.of_nat (length tl) = MAX_THREADS;
  ar_length : Z.of_nat (length (l ++ g)) = MAX_THREADS;
  ar_nodup : NoDup l;
  ar_in : forall t i, 0 <= t -> tl !! Z.to_nat t = Some i -> (ts_state i <> OFFLINE <-> t ∈ l);
  ar_range : forall t, t ∈ l -> 0 <= t < MAX_THREADS;
  ar_running : count_b (in_state RUNNING) tl = 0;
  ar_futex : forall t i, tl !! t = Some i -> ts_state i = WAITING -> futexWord i = 1;
  ar_last : forall k t i, l !! k = Some t -> tl !! Z.to_nat t = Some i -> ts_state i = LEFT -> t ∉ early -> lastIdx i = Z.of_nat k;
  ar_status : forall t i, t ∈ l -> tl !! Z.to_nat t = Some i -> m !! t = if decide (ts_state i = WAITING) then Some Due else None;
  ar_outside : forall t, t ∉ l -> m !! t = None
}.
Arguments ar_threads {_}.
Arguments ar_length {_}.
Arguments ar_nodup {_}.
Arguments ar_in {_}.
Arguments ar_range {_}.
Arguments ar_running {_}.
Arguments ar_futex {_}.
Arguments ar_last {_}.
Arguments ar_status {_}.
Arguments ar_outside {_}.

Lemma rest_bar {early} par tl l g m ph rc : at_rest early tl l g m -> 1 <= par < 2 ^ 32 -> bar_was early (mkBar par tl (l ++ g) (Z.of_nat (length l)) 0 0 (count_b (in_state LEFT) tl) ph rc) l g m.
Proof.
  intros [K1 K2 K3 K4 K5 K6 K7 K8 K9 K10] Hp.
  assert (Hnr : forall t i, tl !! t = Some i -> ts_state i <> RUNNING).
  { intros t i Ht Hs. pose proof (count_b_zero _ _ _ _ K6 Ht) as Hz. unfold in_state in Hz. rewrite bool_decide_true in Hz; done. }
  split; simpl; try done; try lia.
  - intros t i Ht. split; [by apply (K7 t)|]. intros Hs. by destruct (Hnr t i Ht).
  - intros k t i Hk Ht He [Hs|[Hs|Hs]]; [eapply K8; [done|done|done|by apply He]|by destruct (Hnr _ _ Ht)|lia].
  - intros k t i Hk Ht Hs. by destruct (Hnr _ _ Ht).
  - intros k t i Hk Ht. rewrite (K9 t i ltac:(by eapply list_elem_of_lookup_2) Ht). unfold status. specialize (Hnr _ _ Ht). destruct (ts_state i); try done. rewrite (proj2 (Z.ltb_ge _ _)) by lia. done.
Qed.

Lemma bar_rest {early} b l g m :
  bar_was early b l g m -> curThreadIdx b = Z.of_nat (length l) -> runningThreads b = 0 -> at_rest early (threadList b) l g ((fun _ => Due) <$> m) /\ map_Forall (fun _ s => s = Done) m.
Proof.
  intros I Hc Hr. destruct I as [V1 V2 V3 V4 V5 V6 V7 V8 V9 V10 V11 V12 V13 V14 V15 V16 V17].
  assert (Hm : forall t i, t ∈ l -> threadList b !! Z.to_nat t = Some i -> m !! t = if decide (ts_state i = WAITING) then Some Done else None).
  { intros t i Ht Hi. apply list_elem_of_lookup in Ht as [k Hk]. pose proof (lookup_lt_Some _ _ _ Hk). rewrite (V16 k t i Hk Hi). unfold status. rewrite Hc, (proj2 (Z.ltb_lt _ _)) by lia.
    destruct (ts_state i) eqn:Hs; try done. pose proof (count_b_zero (in_state RUNNING) (threadList b) _ _ ltac:(lia) Hi) as Hz. unfold in_state in Hz. by rewrite bool_decide_true in Hz. }
  split; [split; try done|].
  - lia.
  - intros t i Ht. by apply (V13 t).
  - intros k t i Hk Hi Hs He. eapply V14; [done|done|done|by left].
  - intros t i Ht Hi. rewrite lookup_fmap, (Hm t i Ht Hi). by case_decide.
  - intros t Ht. rewrite lookup_fmap, (V17 t Ht). done.
  - intros t s Hs. destruct (decide (t ∈ l)) as [Ht|Ht]; [|by rewrite (V17 t Ht) in Hs]. pose proof (V9 t Ht). destruct (lookup_lt_is_Some_2 (threadList b) (Z.to_nat t)) as [i Hi]; [unfold MAX_THREADS in *; lia|].
    rewrite (Hm t i Ht Hi) in Hs. case_decide; [by injection Hs as <-|done].
Qed.

Lemma count_last (p : ThreadSyncInfo -> bool) tl t i idx :
  (forall s f x y, p (mkTSI s f x) = p (mkTSI s f y)) -> tl !! t = Some i -> count_b p (<[t := mkTSI (ts_state i) (futexWord i) idx]> tl) = count_b p tl.
Proof. intros Hp Ht. rewrite (count_b_insert p tl t i _ Ht). destruct i as [s f k]. simpl. rewrite (Hp s f idx k). lia. Qed.

(** The positions of a list change together with what the threads know about them. *)
Lemma rest_replace {early} tl l g m tl' l' g' w :
  at_rest early tl l g m -> length tl' = length tl -> Z.of_nat (length (l' ++ g')) = MAX_THREADS -> NoDup l' -> (forall t, t ∈ l' <-> t ∈ l /\ Some t <> w) ->
  (forall t i', tl' !! t = Some i' -> exists i, tl !! t = Some i /\ futexWord i' = futexWord i /\
     ts_state i' = if decide (Some (Z.of_nat t) = w) then OFFLINE else ts_state i) ->
  (forall t i, w = Some t -> tl !! Z.to_nat t = Some i -> ts_state i = LEFT) -> count_b (in_state RUNNING) tl' = 0 ->
  (forall k t i', l' !! k = Some t -> tl' !! Z.to_nat t = Some i' -> ts_state i' = LEFT -> t ∉ early -> lastIdx i' = Z.of_nat k) -> at_rest early tl' l' g' m.
Proof.
  intros [K1 K2 K3 K4 K5 K6 K7 K8 K9 K10] Hlen Hg Hn Hin Hinfo Hw Hrun Hlast. split; try done.
  - lia.
  - intros t i' Hp Hi'. destruct (Hinfo _ _ Hi') as (i & Hi & _ & Hs). rewrite Z2Nat.id in Hs by done. rewrite Hs, Hin. specialize (K4 t i Hp Hi). case_decide; naive_solver.
  - intros t Ht. apply K5. by apply Hin in Ht as [Ht _].
  - intros t i' Hi' Hs. destruct (Hinfo _ _ Hi') as (i & Hi & Hf & Hs'). rewrite Hf. apply (K7 t i Hi). case_decide; congruence.
  - intros t i' Ht Hi'. apply Hin in Ht as [Ht Htw]. destruct (Hinfo _ _ Hi') as (i & Hi & _ & Hs). pose proof (K5 t Ht). rewrite Z2Nat.id, decide_False in Hs by (done || lia). rewrite Hs. by apply K9.
  - intros t Ht. destruct (decide (t ∈ l)) as [Htl|Htl]; [|by apply K10]. destruct (decide (Some t = w)) as [Htw|Htw]; [|by destruct Ht; apply Hin].
    pose proof (K5 t Htl). destruct (lookup_lt_is_Some_2 tl (Z.to_nat t)) as [i Hi]; [unfold MAX_THREADS in *; lia|]. rewrite (K9 t i Htl Hi), (Hw t i (eq_sym Htw) Hi). done.
Qed.

Lemma swap_permutation {A} (l : list A) i j x y : l !! i = Some x -> l !! j = Some y -> <[j := x]> (<[i := y]> l) ≡ₚ l.
Proof.
  intros Hi Hj. pose proof (lookup_lt_Some _ _ _ Hi). pose proof (lookup_lt_Some _ _ _ Hj). apply Permutation_inj. split; [by rewrite !length_insert|].
  exists (fun k => if decide (k = j) then i else if decide (k = i) then j else k). split.
  - intros a c. repeat case_decide; congruence.
  - intros k. destruct (decide (k = j)) as [->|Hkj]; [rewrite list_lookup_insert_eq by (rewrite length_insert; lia); by rewrite Hi|]. rewrite list_lookup_insert_ne by done.
    destruct (decide (k = i)) as [->|Hki]; [rewrite list_lookup_insert_eq by lia; by rewrite Hj|by rewrite list_lookup_insert_ne].
Qed.

Lemma replace_last_permutation {A} (l0 : list A) z idx w : (l0 ++ [z]) !! idx = Some w -> l0 ++ [z] ≡ₚ w :: <[idx := z]> l0.
Proof.
  intros Hw. destruct (decide (idx < length l0)%nat) as [Hlt|Hge].
  - rewrite lookup_app_l in Hw by done. rewrite <- (take_drop_middle l0 idx w Hw) at 1. rewrite (insert_take_drop l0 idx z Hlt). rewrite <- app_assoc. simpl. solve_Permutation.
  - rewrite list_insert_ge by lia. assert (idx = length l0) as -> by (apply lookup_lt_Some in Hw; rewrite length_app in Hw; simpl in Hw; lia). rewrite list_lookup_middle in Hw by done. injection Hw as ->. solve_Permutation.
Qed.

(** One thread that has left goes offline; the last of the list takes its place. *)
Lemma rest_remove {early} tl l0 z g m idx w i iz :
  at_rest early tl (l0 ++ [z]) g m -> (l0 ++ [z]) !! idx = Some w -> tl !! Z.to_nat w = Some i -> ts_state i = LEFT ->
  let tl1 := <[Z.to_nat w := mkTSI OFFLINE (futexWord i) (lastIdx i)]> tl in
  tl1 !! Z.to_nat z = Some iz ->
  let tl2 := <[Z.to_nat z := mkTSI (ts_state iz) (futexWord iz) (Z.of_nat idx)]> tl1 in
  at_rest early tl2 (<[idx := z]> l0) (z :: g) m /\ count_b (in_state LEFT) tl2 = count_b (in_state LEFT) tl - 1.
Proof.
  intros R Hw Hi Hs tl1 Hz tl2. pose proof (replace_last_permutation l0 z idx w Hw) as Hperm. pose proof (ar_nodup _ _ _ _ R) as Hn. rewrite Hperm in Hn. apply NoDup_cons in Hn as [Hwn Hn].
  pose proof (lookup_lt_Some _ _ _ Hi) as Hwl. assert (Hwr : 0 <= w < MAX_THREADS) by (apply (ar_range _ _ _ _ R); by eapply list_elem_of_lookup_2).
  assert (Hzr : 0 <= z < MAX_THREADS) by (apply (ar_range _ _ _ _ R); set_solver).
  assert (Hcl : forall p : ThreadSyncInfo -> bool, (forall s f x y, p (mkTSI s f x) = p (mkTSI s f y)) -> count_b p tl2 = count_b p tl - flag (p i) + flag (p (mkTSI OFFLINE (futexWord i) (lastIdx i)))).
  { intros p Hp. unfold tl2. rewrite count_last by done. unfold tl1. by rewrite (count_b_insert p tl _ i _ Hi). }
  split; [|rewrite Hcl by done; unfold in_state; rewrite Hs; simpl; lia].
  assert (Hinfo : forall t i', tl2 !! t = Some i' -> exists i0, tl !! t = Some i0 /\ futexWord i' = futexWord i0 /\ ts_state i' = if decide (Some (Z.of_nat t) = Some w) then OFFLINE else ts_state i0).
  { assert (H1 : forall t i', tl1 !! t = Some i' -> exists i0, tl !! t = Some i0 /\ futexWord i' = futexWord i0 /\ ts_state i' = if decide (Some (Z.of_nat t) = Some w) then OFFLINE else ts_state i0).
    { intros t i' Hi'. apply list_lookup_insert_Some in Hi' as [(<- & <- & _)|[Hne Hi']]; [exists i; split_and!; try done; rewrite decide_True; [done|f_equal; lia]|].
      exists i'. split_and!; try done. rewrite decide_False; [done|]. intros [= <-]. lia. }
    intros t i' Hi'. apply list_lookup_insert_Some in Hi' as [(<- & <- & _)|[Hne Hi']]; [|by apply H1]. destruct (H1 _ _ Hz) as (i0 & ? & ? & ?). by exists i0. }
  eapply (rest_replace tl (l0 ++ [z]) g m tl2 _ _ (Some w)); try done.
  - unfold tl2, tl1. by rewrite !length_insert.
  - rewrite <- (ar_length _ _ _ _ R), !length_app, length_insert. simpl. lia.
  - intros t. rewrite Hperm, elem_of_cons. split; [intros Ht; split; [by right|congruence]|]. intros [[->|Ht] Hne]; done.
  - intros t i0 [= <-] Hi0. congruence.
  - rewrite Hcl by done. rewrite (ar_running _ _ _ _ R). unfold in_state. rewrite Hs. done.
  - intros k t i' Hk Hi' Hs' He. assert (Htr : 0 <= t < MAX_THREADS) by (apply (ar_range _ _ _ _ R); rewrite Hperm; right; by eapply list_elem_of_lookup_2).
    apply list_lookup_insert_Some in Hk as [(<- & <- & _)|[Hki Hk]].
    + unfold tl2 in Hi'. rewrite list_lookup_insert_eq in Hi'; [by injection Hi' as <-|]. by apply lookup_lt_Some in Hz.
    + assert (Htz : t <> z). { intros ->. pose proof (ar_nodup _ _ _ _ R) as Hn2. apply NoDup_app in Hn2 as (_ & Hd & _). apply (Hd z); [by eapply list_elem_of_lookup_2|by left]. }
      assert (Htw : t <> w). { intros ->. pose proof (lookup_lt_Some _ _ _ Hk). apply Hki. eapply NoDup_lookup; [apply (ar_nodup _ _ _ _ R)|exact Hw|by apply lookup_app_l_Some]. }
      unfold tl2, tl1 in Hi'. rewrite !list_lookup_insert_ne in Hi' by lia. eapply (ar_last _ _ _ _ R); [by apply lookup_app_l_Some|done|done|done].
Qed.

Lemma cleanup_loop_ok {early} fuel tl l g m idx :
  at_rest early tl l g m -> 0 <= idx <= Z.of_nat (length l) -> Z.of_nat (length l) - idx < Z.of_nat fuel ->
  (forall k t i, l !! k = Some t -> Z.of_nat k < idx -> tl !! Z.to_nat t = Some i -> ts_state i <> LEFT) ->
  exists tl' l' g', cleanup_loop fuel tl (l ++ g) idx (Z.of_nat (length l)) = Ret (tl', l' ++ g', Z.of_nat (length l')) /\ at_rest early tl' l' g' m /\
    (forall t i, t ∈ l' -> tl' !! Z.to_nat t = Some i -> ts_state i <> LEFT) /\
    Z.of_nat (length l') - count_b (in_state LEFT) tl' = Z.of_nat (length l) - count_b (in_state LEFT) tl /\ (length l' <= length l)%nat.
Proof.
  revert tl l g idx. induction fuel as [|fuel IH]; intros tl l g idx R Hidx Hf Hdone; [lia|]. cbn [cleanup_loop]. destruct (idx <? Z.of_nat (length l)) eqn:Hlt; zb.
  2: { exists tl, l, g. split_and!; try done. intros t i Ht Hi. apply list_elem_of_lookup in Ht as [k Hk]. pose proof (lookup_lt_Some _ _ _ Hk). eapply Hdone; [done|lia|done]. }
  destruct (lookup_lt_is_Some_2 l (Z.to_nat idx)) as [w Hw]; [lia|]. rewrite (at_app_l l g idx w) by (done || lia). cbn [mbind outcome_bind].
  assert (Hget : forall t, t ∈ l -> 0 <= t /\ exists i, tl !! Z.to_nat t = Some i).
  { intros t Ht. pose proof (ar_range _ _ _ _ R t Ht). pose proof (ar_threads _ _ _ _ R). split; [lia|]. apply lookup_lt_is_Some_2. lia. }
  destruct (Hget w ltac:(by eapply list_elem_of_lookup_2)) as (Hw0 & i & Hi). rewrite (at_ret tl w i) by done. cbn [mbind outcome_bind]. pose proof (lookup_lt_Some _ _ _ Hi) as Hwl. case_bool_decide as Hs.
  - rewrite (set_ts_state_ret _ _ _ i) by done. cbn [mbind outcome_bind]. destruct l as [|z l0 _] using rev_ind; [simpl in Hlt; lia|]. rewrite length_app in *. simpl length in *.
    assert (Hz : (l0 ++ [z]) !! Z.to_nat (Z.of_nat (length l0 + 1) - 1) = Some z) by (replace (Z.to_nat (Z.of_nat (length l0 + 1) - 1)) with (length l0) by lia; by apply list_lookup_middle).
    rewrite (at_app_l _ g _ z Hz) by lia. cbn [mbind outcome_bind]. rewrite set_at_app_l by (rewrite length_app; simpl; lia). cbn [mbind outcome_bind].
    destruct (Hget z ltac:(set_solver)) as (Hz0 & iz0 & Hiz0).
    assert (exists iz, <[Z.to_nat w := mkTSI OFFLINE (futexWord i) (lastIdx i)]> tl !! Z.to_nat z = Some iz) as [iz Hiz] by (apply lookup_lt_is_Some_2; rewrite length_insert; by apply lookup_lt_Some in Hiz0).
    rewrite (set_last_ret _ _ _ iz) by done. cbn [mbind outcome_bind].
    destruct (rest_remove tl l0 z g m (Z.to_nat idx) w i iz R Hw Hi Hs Hiz) as [R' Hc]. rewrite Z2Nat.id in R', Hc by lia.
    assert (Hl' : <[Z.to_nat idx := z]> (l0 ++ [z]) ++ g = <[Z.to_nat idx := z]> l0 ++ z :: g).
    { destruct (decide (Z.to_nat idx < length l0)%nat) as [Hx|Hx]; [rewrite insert_app_l by done; by rewrite <- app_assoc|]. rewrite (list_insert_ge l0) by lia.
      replace (Z.to_nat idx) with (length l0 + 0)%nat by lia. rewrite insert_app_r. simpl. by rewrite <- app_assoc. }
    rewrite Hl'. replace (Z.of_nat (length l0 + 1) - 1) with (Z.of_nat (length (<[Z.to_nat idx := z]> l0))) by (rewrite length_insert; lia).
    destruct (IH _ _ _ idx R') as (tl' & l' & g' & E & R2 & Hno & Hcnt & Hle); [rewrite length_insert; lia|rewrite length_insert; lia| |].
    + intros k t i' Hk Hki Hi'. rewrite list_lookup_insert_ne in Hk by lia. assert (Htl : (l0 ++ [z]) !! k = Some t) by (by apply lookup_app_l_Some).
      assert (Htw : t <> w) by (intros ->; pose proof (NoDup_lookup _ _ _ _ (ar_nodup _ _ _ _ R) Htl Hw); lia).
      assert (Htz : t <> z). { intros ->. pose proof (ar_nodup _ _ _ _ R) as Hn2. apply NoDup_app in Hn2 as (_ & Hd & _). apply (Hd z); [by eapply list_elem_of_lookup_2|by left]. }
      destruct (Hget t ltac:(by eapply list_elem_of_lookup_2)) as (Ht0 & _). rewrite !list_lookup_insert_ne in Hi' by lia. by eapply Hdone.
    + exists tl', l', g'. rewrite length_insert in Hcnt, Hle. split; [exact E|]. split_and!; try done; [|lia]. rewrite Hcnt, Hc. lia.
  - apply IH; [done|lia|lia|]. intros k t i' Hk Hki Hi'. destruct (decide (Z.of_nat k = idx)) as [<-|Hne]; [|eapply Hdone; [done|lia|done]]. rewrite Nat2Z.id in Hw. congruence.
Qed.

Lemma no_left {early} tl l g m : at_rest early tl l g m -> (forall t i, t ∈ l -> tl !! Z.to_nat t = Some i -> ts_state i <> LEFT) -> count_b (in_state LEFT) tl = 0.
Proof.
  intros R Hno. pose proof (count_b_nonneg (in_state LEFT) tl). destruct (decide (count_b (in_state LEFT) tl = 0)) as [|Hc]; [done|]. destruct (count_b_exists (in_state LEFT) tl ltac:(lia)) as (t & i & Ht & Hs).
  apply bool_decide_eq_true in Hs. exfalso. apply (Hno (Z.of_nat t) i); [|by rewrite Nat2Z.id|done]. apply (ar_in _ _ _ _ R (Z.of_nat t) i); [lia|by rewrite Nat2Z.id|congruence].
Qed.

Section Generator.
Context (randInt : nat -> Z -> Z) (Hrnd : forall k i, 0 <= i -> 0 <= randInt k i <= i).

(** Two positions are exchanged. *)
Lemma rest_swap {early} tl l g m k i :
  at_rest early tl l g m -> 0 <= i < Z.of_nat (length l) ->
  exists tl' l', shuffle_step randInt (tl, l ++ g, k) i = Ret (tl', l' ++ g, S k) /\ at_rest early tl' l' g m /\ length l' = length l /\ count_b (in_state LEFT) tl' = count_b (in_state LEFT) tl.
Proof using Hrnd.
  intros R Hi. pose proof (Hrnd k i ltac:(lia)) as Hj. unfold shuffle_step. set (j := randInt k i) in *. destruct (lookup_lt_is_Some_2 l (Z.to_nat i)) as [x Hx]; [lia|]. destruct (lookup_lt_is_Some_2 l (Z.to_nat j)) as [y Hy]; [lia|].
  rewrite (at_app_l l g i x) by (done || lia). cbn [mbind outcome_bind]. rewrite (at_app_l l g j y) by (done || lia). cbn [mbind outcome_bind]. rewrite set_at_app_l by lia. cbn [mbind outcome_bind].
  rewrite set_at_app_l by (rewrite length_insert; lia). cbn [mbind outcome_bind].
  assert (Hget : forall t, t ∈ l -> 0 <= t /\ exists i, tl !! Z.to_nat t = Some i).
  { intros t Ht. pose proof (ar_range _ _ _ _ R t Ht). pose proof (ar_threads _ _ _ _ R). split; [lia|]. apply lookup_lt_is_Some_2. lia. }
  destruct (Hget x ltac:(by eapply list_elem_of_lookup_2)) as (Hx0 & ix & Hix). destruct (Hget y ltac:(by eapply list_elem_of_lookup_2)) as (Hy0 & iy0 & Hiy0).
  rewrite (set_last_ret _ _ _ ix) by done. cbn [mbind outcome_bind]. set (tl1 := <[Z.to_nat x := mkTSI (ts_state ix) (futexWord ix) j]> tl).
  assert (exists iy, tl1 !! Z.to_nat y = Some iy) as [iy Hiy] by (apply lookup_lt_is_Some_2; unfold tl1; rewrite length_insert; by apply lookup_lt_Some in Hiy0).
  rewrite (set_last_ret _ _ _ iy) by done. cbn [mbind outcome_bind]. set (tl2 := <[Z.to_nat y := mkTSI (ts_state iy) (futexWord iy) i]> tl1). set (l' := <[Z.to_nat j := x]> (<[Z.to_nat i := y]> l)).
  pose proof (swap_permutation l _ _ x y Hx Hy) as Hperm. fold l' in Hperm.
  assert (Hcl : forall p : ThreadSyncInfo -> bool, (forall s f x y, p (mkTSI s f x) = p (mkTSI s f y)) -> count_b p tl2 = count_b p tl).
  { intros p Hp. unfold tl2. rewrite count_last by done. unfold tl1. by rewrite count_last. }
  exists tl2, l'. split; [done|]. split; [|split; [unfold l'; by rewrite !length_insert|by rewrite Hcl]].
  apply (rest_replace tl l g m tl2 l' g None); try done.
  - unfold tl2, tl1. by rewrite !length_insert.
  - rewrite <- (ar_length _ _ _ _ R), !length_app. unfold l'. by rewrite !length_insert.
  - rewrite Hperm. apply (ar_nodup _ _ _ _ R).
  - intros t. rewrite Hperm. naive_solver.
  - assert (H1 : forall t i', tl1 !! t = Some i' -> exists i0, tl !! t = Some i0 /\ futexWord i' = futexWord i0 /\ ts_state i' = ts_state i0).
    { intros t i' Hi'. apply list_lookup_insert_Some in Hi' as [(<- & <- & _)|[Hne Hi']]; [by exists ix|by exists i']. }
    intros t i' Hi'. apply list_lookup_insert_Some in Hi' as [(<- & <- & _)|[Hne Hi']]; [|by apply H1]. destruct (H1 _ _ Hiy) as (i0 & ? & ? & ?). by exists i0.
  - rewrite Hcl by done. apply (ar_running _ _ _ _ R).
  - intros p t i' Hp Hi' Hs' He. pose proof (lookup_lt_Some _ _ _ Hiy). assert (Ht0 : 0 <= t) by (apply Hget; rewrite <- Hperm; by eapply list_elem_of_lookup_2). apply list_lookup_insert_Some in Hp as [(<- & <- & _)|[Hpj Hp]].
    + unfold tl2 in Hi'. destruct (decide (Z.to_nat x = Z.to_nat y)) as [Hxy|Hxy].
      * rewrite Hxy, list_lookup_insert_eq in Hi' by done. injection Hi' as <-. simpl. assert (x = y) as -> by lia. assert (Z.to_nat i = Z.to_nat j) by (eapply NoDup_lookup; [apply (ar_nodup _ _ _ _ R)|done|done]). lia.
      * rewrite list_lookup_insert_ne in Hi' by done. unfold tl1 in Hi'. rewrite list_lookup_insert_eq in Hi' by (by apply lookup_lt_Some in Hix). injection Hi' as <-. simpl. lia.
    + apply list_lookup_insert_Some in Hp as [(<- & <- & _)|[Hpi Hp]].
      * unfold tl2 in Hi'. rewrite list_lookup_insert_eq in Hi' by done. injection Hi' as <-. simpl. lia.
      * assert (Htx : t <> x) by (intros ->; apply Hpi; eapply NoDup_lookup; [apply (ar_nodup _ _ _ _ R)|done|done]).
        assert (Hty : t <> y) by (intros ->; apply Hpj; eapply NoDup_lookup; [apply (ar_nodup _ _ _ _ R)|done|done]).
        unfold tl2, tl1 in Hi'. rewrite !list_lookup_insert_ne in Hi' by lia. by eapply (ar_last _ _ _ _ R).
Qed.

Lemma shuffle_ok {early} tl l g m k is_ :
  at_rest early tl l g m -> Forall (fun i => 0 <= i < Z.of_nat (length l)) is_ ->
  exists tl' l' k', fold_ (shuffle_step randInt) is_ (tl, l ++ g, k) = Ret (tl', l' ++ g, k') /\ at_rest early tl' l' g m /\ length l' = length l /\ count_b (in_state LEFT) tl' = count_b (in_state LEFT) tl.
Proof using Hrnd.
  intros R Hs. revert tl l k R Hs. induction is_ as [|i is_ IH]; intros tl l k R Hs; cbn [fold_]; [by exists tl, l, k|]. apply Forall_cons in Hs as [Hi Hs].
  destruct (rest_swap tl l g m k i R Hi) as (tl1 & l1 & -> & R1 & Hl1 & Hc1). cbn [mbind outcome_bind]. destruct (IH tl1 l1 (S k) R1) as (tl2 & l2 & k2 & E & R2 & Hl2 & Hc2); [by rewrite Hl1|].
  exists tl2, l2, k2. split_and!; try done; congruence.
Qed.
End Generator.

(** ** Counting the threads of the list *)

Lemma count_members (p : ThreadSyncInfo -> bool) (off : ThreadSyncInfo) l tl :
  p off = false -> NoDup l -> (forall t, t ∈ l -> 0 <= t < Z.of_nat (length tl)) -> (forall t i, tl !! t = Some i -> (p i = true <-> Z.of_nat t ∈ l)) -> count_b p tl = Z.of_nat (length l).
Proof.
  intros Hoff Hn. revert tl. induction Hn as [|t l Ht Hn IH]; intros tl Hr Hp.
  - destruct (decide (count_b p tl = 0)) as [|Hc]; [done|]. pose proof (count_b_nonneg p tl). destruct (count_b_exists p tl ltac:(lia)) as (t & i & Hi & Hpi). apply (Hp t i Hi) in Hpi. set_solver.
  - pose proof (Hr t ltac:(by left)) as Htr. destruct (lookup_lt_is_Some_2 tl (Z.to_nat t)) as [i Hi]; [lia|]. assert (Hpi : p i = true) by (apply (Hp _ _ Hi); rewrite Z2Nat.id by lia; by left).
    pose proof (count_b_insert p tl _ i off Hi) as Hc. rewrite Hpi, Hoff in Hc. rewrite (IH (<[Z.to_nat t := off]> tl)) in Hc; [simpl; lia| |].
    + intros x Hx. rewrite length_insert. apply Hr. by right.
    + intros x ix Hx. apply list_lookup_insert_Some in Hx as [(<- & <- & _)|[Hne Hx]].
      * rewrite Hoff, Z2Nat.id by lia. split; [done|]. intros Hxl. by destruct Ht.
      * rewrite (Hp x ix Hx), elem_of_cons. split; [intros [Hx'|Hx']; [lia|done]|by right].
Qed.

Definition online (i : ThreadSyncInfo) : bool := bool_decide (ts_state i <> OFFLINE).

Lemma online_parts tl : count_b online tl = count_b (in_state LEFT) tl + count_b (in_state WAITING) tl + count_b (in_state RUNNING) tl.
Proof. induction tl as [|i tl IH]; simpl; [done|]. rewrite IH. unfold online, in_state. destruct (ts_state i); simpl; lia. Qed.

Lemma bar_count {early} b l g m : bar_was early b l g m -> Z.of_nat (length l) = leftThreads b + count_b (in_state WAITING) (threadList b) + runningThreads b.
Proof.
  intros I. rewrite (bi_left _ _ _ _ I), (bi_running _ _ _ _ I), <- online_parts. symmetry. apply (count_members online (mkTSI OFFLINE 0 0)); [done|apply (bi_nodup _ _ _ _ I)| |].
  - intros t Ht. rewrite (bi_threads _ _ _ _ I). by apply (bi_range _ _ _ _ I).
  - intros t i Hi. unfold online. rewrite bool_decide_eq_true. apply (bi_in _ _ _ _ I); [lia|by rewrite Nat2Z.id].
Qed.

(** The automaton is empty exactly when no thread waits or runs. *)
Lemma bar_empty {early} b l g m : bar_was early b l g m -> m = ∅ <-> count_b (in_state WAITING) (threadList b) = 0 /\ runningThreads b = 0.
Proof.
  intros I. split.
  - intros ->. assert (Hno : forall t i, threadList b !! t = Some i -> ts_state i <> WAITING /\ ts_state i <> RUNNING).
    { intros t i Ht. destruct (decide (ts_state i = OFFLINE)) as [->|Hoff]; [done|]. destruct (bi_index I (Z.of_nat t) i) as [k Hk]; [lia|by rewrite Nat2Z.id|done|].
      pose proof (bi_status _ _ _ _ I k (Z.of_nat t) i Hk ltac:(by rewrite Nat2Z.id)) as Hs. rewrite lookup_empty in Hs. unfold status in Hs. by destruct (ts_state i), (Z.of_nat k <? curThreadIdx b). }
    assert (Hz : forall s, s = WAITING \/ s = RUNNING -> count_b (in_state s) (threadList b) = 0).
    { intros s Hs. pose proof (count_b_nonneg (in_state s) (threadList b)). destruct (decide (count_b (in_state s) (threadList b) = 0)) as [|Hc]; [done|].
      destruct (count_b_exists (in_state s) (threadList b) ltac:(lia)) as (t & i & Ht & Hp). apply bool_decide_eq_true in Hp. destruct (Hno t i Ht), Hs; congruence. }
    rewrite (bi_running _ _ _ _ I). split; apply Hz; auto.
  - intros [Hw Hr]. apply map_empty. intros t. destruct (decide (t ∈ l)) as [Ht|Ht]; [|by apply (bi_outside _ _ _ _ I)]. apply list_elem_of_lookup in Ht as [k Hk].
    destruct (bi_nth I k t Hk) as (i & _ & Hi & Hoff). rewrite (bi_status _ _ _ _ I k t i Hk Hi). unfold status. rewrite (bi_running _ _ _ _ I) in Hr.
    pose proof (count_b_zero _ _ _ _ Hw Hi) as H1. pose proof (count_b_zero _ _ _ _ Hr Hi) as H2. unfold in_state in H1, H2. apply bool_decide_eq_false in H1, H2. by destruct (ts_state i).
Qed.

Section Steps.
Context (randInt : nat -> Z -> Z) (Hrnd : forall k i, 0 <= i -> 0 <= randInt k i <= i).

(** *** [checkEndPhase], [tryWakeNext] *)

Lemma checkEndPhase_ok {early} b l g m :
  bar_was early b l g m ->
  (checkEndPhase randInt b = Ret (b, []) /\ (curThreadIdx b <> Z.of_nat (length l) \/ runningThreads b <> 0 \/ m = ∅)) \/
  (exists b' l' g', checkEndPhase randInt b = Ret (b', [PhaseEnds]) /\ bar_was early b' l' g' ((fun _ => Due) <$> m) /\ phase_step m PhaseEnds = Some ((fun _ => Due) <$> m) /\
     runningThreads b = 0 /\ runningThreads b' = 0 /\ m <> ∅ /\ parallelThreads b' = parallelThreads b).
Proof using Hrnd.
  intros I. unfold checkEndPhase. rewrite (bi_size _ _ _ _ I). destruct (curThreadIdx b =? Z.of_nat (length l)) eqn:Hc; zb; simpl; [|by left; split; [|left]].
  destruct (runningThreads b =? 0) eqn:Hr; zb; simpl; [|by left; split; [|right; left]]. pose proof (bar_count b l g m I) as Hcount. destruct (leftThreads b =? Z.of_nat (length l)) eqn:Hl; zb.
  { left. split; [done|]. right. right. apply (bar_empty b l g m I). lia. }
  right. destruct (bar_rest b l g m I Hc Hr) as [R Hdone]. assert (Hm : m <> ∅) by (intros Hm; apply (bar_empty b l g m I) in Hm; lia).
  pose proof (bi_parallel _ _ _ _ I) as Hpar. destruct (bar_running_bounds _ _ _ _ I) as [_ Hlb]. pose proof (bar_list_bound _ _ _ _ I) as Hmax. unfold MAX_THREADS in Hmax.
  assert (Hshuffle : forall tl l' g' m' ph rc, at_rest early tl l' g' m' -> exists b', (let b1 := mkBar (parallelThreads b) tl (l' ++ g') (Z.of_nat (length l')) 0 0 (count_b (in_state LEFT) tl) ph rc in
     b2 ← (if parallelThreads b1 <? runListSize b1 then shuffle randInt b1 else Ret b1); Ret (b2, [PhaseEnds])) = Ret (b', [PhaseEnds]) /\ runningThreads b' = 0 /\ parallelThreads b' = parallelThreads b /\ exists l2, bar_was early b' l2 g' m').
  { intros tl l' g' m' ph rc R'. cbn [parallelThreads runListSize]. destruct (parallelThreads b <? Z.of_nat (length l')).
    - unfold shuffle. cbn [runListSize threadList runList rnd_calls].
      destruct (shuffle_ok randInt Hrnd tl l' g' m' rc (rev (seqZ 1 (Z.of_nat (length l') - 1))) R') as (tl2 & l2 & k2 & E & R2 & Hl2 & Hc2).
      { apply Forall_rev, Forall_forall. intros i Hi. apply elem_of_seqZ in Hi. lia. }
      rewrite E. cbn [mbind outcome_bind parallelThreads threadList runListSize curThreadIdx runningThreads leftThreads phaseCount]. eexists. split; [done|]. split; [done|]. split; [done|]. exists l2. rewrite <- Hl2, <- Hc2. by apply rest_bar.
    - cbn [mbind outcome_bind]. eexists. split; [done|]. split; [done|]. split; [done|]. exists l'. by apply rest_bar. }
  assert (Hend : phase_step m PhaseEnds = Some ((fun _ => Due) <$> m)) by (simpl; by rewrite decide_True).
  cbn [with_cur parallelThreads threadList runList runListSize curThreadIdx runningThreads leftThreads phaseCount rnd_calls]. rewrite Hr.
  destruct (Z.land (phaseCount b) 31 =? 0).
  - unfold cleanup. cbn [runListSize threadList runList leftThreads]. rewrite (bi_size _ _ _ _ I). rewrite (proj2 (Z.ltb_lt 0 (Z.of_nat (length l)))) by (pose proof (count_b_nonneg (in_state WAITING) (threadList b)); lia).
    cbn [assert_ mbind outcome_bind]. rewrite (bi_list _ _ _ _ I).
    destruct (cleanup_loop_ok (S (Z.to_nat (Z.of_nat (length l)))) (threadList b) l g _ 0 R) as (tl' & l' & g' & E & R' & Hno & Hcnt & Hle); [lia|lia|intros; lia|]. rewrite E. cbn [mbind outcome_bind].
    pose proof (no_left _ _ _ _ R' Hno) as H0. rewrite (proj2 (Z.eqb_eq (u32 (Z.of_nat (length l) - Z.of_nat (length l'))) (leftThreads b))); [|rewrite (bi_left _ _ _ _ I) in Hlb |- *; rewrite u32_small by lia; lia].
    cbn [assert_ mbind outcome_bind with_list with_left with_threads parallelThreads threadList runList runListSize curThreadIdx runningThreads leftThreads phaseCount rnd_calls].
    destruct (Hshuffle tl' l' g' _ (u32 (phaseCount b + 1)) (rnd_calls b) R') as (b' & E2 & Hb). rewrite H0 in E2. destruct Hb as (Hb1 & Hb3 & l2 & Hb2).
    exists b', l2, g'. by split_and!.
  - cbn [mbind outcome_bind]. rewrite (bi_list _ _ _ _ I), (bi_size _ _ _ _ I), (bi_left _ _ _ _ I).
    destruct (Hshuffle (threadList b) l g _ (u32 (phaseCount b + 1)) (rnd_calls b) R) as (b' & E2 & Hb). destruct Hb as (Hb1 & Hb3 & l2 & Hb2).
    exists b', l2, g. by split_and!.
Qed.

Lemma no_due {early} b l g m : bar_was early b l g m -> curThreadIdx b = Z.of_nat (length l) -> forall t, m !! t <> Some Due.
Proof using Type.
  intros I Hc t Hm. destruct (decide (t ∈ l)) as [Ht|Ht]; [|by rewrite (bi_outside _ _ _ _ I t Ht) in Hm]. apply list_elem_of_lookup in Ht as [k Hk]. destruct (bi_nth I k t Hk) as (i & _ & Hi & _).
  rewrite (bi_status _ _ _ _ I k t i Hk Hi) in Hm. unfold status in Hm. pose proof (lookup_lt_Some _ _ _ Hk). rewrite Hc, (proj2 (Z.ltb_lt _ _)) in Hm by lia. by destruct (ts_state i).
Qed.

(** At most one phase ends, and then a thread runs, if any is in the barrier. *)
Lemma tryWakeNext_ok {early} b l g m :
  bar_was early b l g m -> exists b' evs l' g' m', tryWakeNext randInt b = Ret (b', evs) /\ bar_was early b' l' g' m' /\ phase_run evs m = Some m' /\ (m' <> ∅ -> 0 < runningThreads b') /\ parallelThreads b' = parallelThreads b /\
    exists e1 e2, wakes_only e1 /\ wakes_only e2 /\ (evs = e1 ++ e2 \/ evs = e1 ++ PhaseEnds :: e2).
Proof using Hrnd.
  intros I. unfold tryWakeNext. destruct (checkRunList_ok b l g m I) as (b1 & e1 & m1 & -> & I1 & Hr1 & Hw1 & Hend1 & Hle1 & Hpos1 & Hpar1). cbn [mbind outcome_bind].
  pose proof (bi_parallel _ _ _ _ I1) as Hpar. destruct (bar_running_bounds _ _ _ _ I1) as [Hrb1 _].
  destruct (checkEndPhase_ok b1 l g m1 I1) as [[-> Hwhy]|(b2 & l2 & g2 & -> & I2 & Hstep & Hz1 & Hz2 & Hne & Hpar2)]; cbn [mbind outcome_bind].
  - destruct (checkRunList_ok b1 l g m1 I1) as (b3 & e3 & m3 & -> & I3 & Hr3 & Hw3 & Hend3 & Hle3 & Hpos3 & Hpar3). cbn [mbind outcome_bind]. exists b3, (e1 ++ [] ++ e3), l, g, m3. split; [done|]. split; [done|].
    split; [by rewrite phase_run_app, Hr1|]. split; [|split; [congruence|exists e1, e3; split_and!; try done; by left]]. intros Hm3. destruct (decide (0 < runningThreads b1)) as [Hp|Hp]; [lia|]. assert (m1 = ∅) as -> by (destruct Hwhy as [Hwhy|[Hwhy|Hwhy]]; [destruct Hend1; lia|lia|done]).
    destruct e3 as [|e e3]; [|by apply Hpos3]. simpl in Hr3. congruence.
  - destruct (checkRunList_ok b2 l2 g2 _ I2) as (b3 & e3 & m3 & -> & I3 & Hr3 & Hw3 & Hend3 & Hle3 & Hpos3 & Hpar3). cbn [mbind outcome_bind]. exists b3, (e1 ++ [PhaseEnds] ++ e3), l2, g2, m3. split; [done|]. split; [done|].
    split; [rewrite phase_run_app, Hr1; cbn [mbind option_bind]; rewrite phase_run_app; cbn [phase_run mbind option_bind]; by rewrite Hstep|]. split; [|split; [congruence|exists e1, e3; split_and!; try done; by right]]. intros _.
    destruct e3 as [|e e3]; [|by apply Hpos3]. simpl in Hr3. injection Hr3 as <-. destruct Hend3 as [Hp|Hc]; [pose proof (bi_parallel _ _ _ _ I3); lia|]. exfalso.
    apply map_choose in Hne as (t & s & Hs). apply (no_due b3 l2 g2 _ I3 Hc t). by rewrite lookup_fmap, Hs.
Qed.
End Steps.

(** ** The operations *)

(** A thread that was offline is appended. *)
Lemma bar_append {early} b l g m t i :
  bar_was early b l g m -> 0 <= t -> threadList b !! Z.to_nat t = Some i -> ts_state i = OFFLINE ->
  exists g', set_at (runList b) (runListSize b) t = Ret ((l ++ [t]) ++ g') /\ u32 (runListSize b + 1) = Z.of_nat (length (l ++ [t])) /\
    bar_was early (mkBar (parallelThreads b) (<[Z.to_nat t := mkTSI WAITING 1 (lastIdx i)]> (threadList b)) ((l ++ [t]) ++ g') (Z.of_nat (length (l ++ [t]))) (curThreadIdx b) (runningThreads b) (leftThreads b) (phaseCount b) (rnd_calls b))
      (l ++ [t]) g' (<[t := Due]> m) /\ m !! t = None.
Proof.
  intros I Ht Hi Hoff. pose proof (lookup_lt_Some _ _ _ Hi) as Htl. pose proof (bi_threads _ _ _ _ I) as HT. pose proof (bi_length _ _ _ _ I) as HL. rewrite length_app in HL.
  assert (Htn : t ∉ l) by (intros Hin; by apply (bi_in _ _ _ _ I t i Ht Hi) in Hin).
  assert (Hlen : Z.of_nat (length l) < MAX_THREADS).
  { assert (Hn : NoDup (t :: l)) by (constructor; [done|apply (bi_nodup _ _ _ _ I)]).
    assert (Hs : t :: l ⊆ seqZ 0 MAX_THREADS). { intros x Hx. apply elem_of_seqZ. apply elem_of_cons in Hx as [->|Hx]; [lia|]. pose proof (bi_range _ _ _ _ I x Hx). lia. }
    apply NoDup_submseteq in Hs; [|done]. apply submseteq_length in Hs. rewrite length_seqZ in Hs. simpl in Hs. unfold MAX_THREADS in *. lia. }
  destruct g as [|y g']; [simpl in HL; lia|]. exists g'. rewrite (bi_list _ _ _ _ I), (bi_size _ _ _ _ I).
  assert (Hjs : forall j u x, (l ++ [t]) !! j = Some u -> <[Z.to_nat t := mkTSI WAITING 1 (lastIdx i)]> (threadList b) !! Z.to_nat u = Some x ->
     j = length l /\ u = t /\ x = mkTSI WAITING 1 (lastIdx i) \/ (j < length l)%nat /\ u <> t /\ l !! j = Some u /\ threadList b !! Z.to_nat u = Some x).
  { intros j u x Hj Hx. apply lookup_snoc_Some in Hj as [ [Hjl Hj]|[-> <-] ].
    - pose proof (bi_range _ _ _ _ I u ltac:(by eapply list_elem_of_lookup_2)). assert (u <> t) by (intros ->; apply Htn; by eapply list_elem_of_lookup_2). rewrite list_lookup_insert_ne in Hx by lia. by right.
    - rewrite list_lookup_insert_eq in Hx by done. injection Hx as <-. by left. }
  pose proof (bi_cur _ _ _ _ I) as Hcur. simpl in HL.
  split; [rewrite set_at_ret by (rewrite length_app; simpl; lia); rewrite Nat2Z.id, <- app_assoc; f_equal; by rewrite insert_app_r_alt, Nat.sub_diag by lia|].
  split; [rewrite length_app; simpl; unfold MAX_THREADS in *; rewrite u32_small by lia; lia|]. split; [|by apply (bi_outside _ _ _ _ I)].
  constructor; cbn [parallelThreads threadList runList runListSize curThreadIdx runningThreads leftThreads].
  - apply (bi_parallel _ _ _ _ I).
  - by rewrite length_insert.
  - done.
  - rewrite !length_app. simpl. lia.
  - done.
  - apply NoDup_app. split; [apply (bi_nodup _ _ _ _ I)|]. split; [|apply NoDup_singleton]. intros x Hx Hx'. apply list_elem_of_singleton in Hx' as ->. done.
  - rewrite length_app. simpl. lia.
  - intros u x Hu Hx. rewrite elem_of_app, list_elem_of_singleton. apply list_lookup_insert_Some in Hx as [(He & <- & _)|[Hne Hx]].
    + assert (u = t) as -> by lia. simpl. split; [by right|done].
    + rewrite (bi_in _ _ _ _ I u x Hu Hx). split; [by left|intros [Hl|Hl]; [done|subst u; lia] ].
  - intros u Hu. apply elem_of_app in Hu as [Hu|Hu]; [by apply (bi_range _ _ _ _ I)|]. apply list_elem_of_singleton in Hu as ->. lia.
  - rewrite (count_b_insert _ _ _ _ _ Hi). unfold in_state. rewrite Hoff. simpl. rewrite (bi_running _ _ _ _ I). unfold in_state. lia.
  - apply (bi_bound _ _ _ _ I).
  - rewrite (count_b_insert _ _ _ _ _ Hi). unfold in_state. rewrite Hoff. simpl. rewrite (bi_left _ _ _ _ I). unfold in_state. lia.
  - intros u x Hx. apply list_lookup_insert_Some in Hx as [(_ & <- & _)|[_ Hx]]; [done|by apply (bi_futex _ _ _ _ I u)].
  - intros j u x Hj Hx He Hs. destruct (Hjs j u x Hj Hx) as [(-> & -> & ->)|(Hjl & Hu & Hj' & Hx')]; [simpl in Hs; destruct Hs as [Hs|[Hs|Hs] ]; (done || lia)|by apply (bi_last _ _ _ _ I j u x)].
  - intros j u x Hj Hx Hs. destruct (Hjs j u x Hj Hx) as [(-> & -> & ->)|(Hjl & Hu & Hj' & Hx')]; [done|by apply (bi_ran _ _ _ _ I j u x)].
  - intros j u x Hj Hx. destruct (Hjs j u x Hj Hx) as [(-> & -> & ->)|(Hjl & Hu & Hj' & Hx')].
    + rewrite lookup_insert_eq. unfold status. simpl. by rewrite (proj2 (Z.ltb_ge _ _)) by lia.
    + rewrite lookup_insert_ne by done. by apply (bi_status _ _ _ _ I j u x).
  - intros u Hu. rewrite not_elem_of_app, list_elem_of_singleton in Hu. destruct Hu as [Hu Hut]. rewrite lookup_insert_ne by done. by apply (bi_outside _ _ _ _ I).
Qed.

(** A thread that joins again in the phase in which it has run trades its place with the
    last one that was passed. *)
Lemma pull_back {early} b l g m k t i :
  bar_was early b l g m -> l !! k = Some t -> threadList b !! Z.to_nat t = Some i -> ts_state i = LEFT -> lastIdx i = Z.of_nat k -> Z.of_nat k < curThreadIdx b ->
  exists tl' l', same_phase_join b t = Ret (mkBar (parallelThreads b) tl' (l' ++ g) (runListSize b) (curThreadIdx b - 1) (runningThreads b) (leftThreads b) (phaseCount b) (rnd_calls b)) /\
    bar_was early (mkBar (parallelThreads b) tl' (l' ++ g) (runListSize b) (curThreadIdx b - 1) (runningThreads b) (leftThreads b) (phaseCount b) (rnd_calls b)) l' g m /\
    l' !! Z.to_nat (curThreadIdx b - 1) = Some t /\ tl' !! Z.to_nat t = Some (mkTSI LEFT (futexWord i) (curThreadIdx b - 1)).
Proof.
  intros I Hk Hi Hs Hlast Hkc. pose proof (bi_cur _ _ _ _ I) as Hcur. pose proof (bar_list_bound _ _ _ _ I) as Hmax. unfold MAX_THREADS in Hmax. set (c := curThreadIdx b - 1). assert (Hc : c = curThreadIdx b - 1) by done.
  pose proof (bi_range _ _ _ _ I t ltac:(by eapply list_elem_of_lookup_2)) as Ht. pose proof (lookup_lt_Some _ _ _ Hi) as Htl.
  destruct (lookup_lt_is_Some_2 l (Z.to_nat c)) as [y Hy]; [lia|]. destruct (bi_nth I _ _ Hy) as (iy & _ & Hiy & _). pose proof (bi_range _ _ _ _ I y ltac:(by eapply list_elem_of_lookup_2)) as Hyr.
  unfold same_phase_join. rewrite (at_ret _ _ i) by (done || lia). cbn [mbind outcome_bind]. rewrite Hlast, (proj2 (Z.ltb_lt _ _)) by lia. rewrite u32_small by lia. fold c.
  rewrite (bi_list _ _ _ _ I), (at_app_l l g (Z.of_nat k) t) by (rewrite ?Nat2Z.id; done || lia). cbn [mbind outcome_bind]. rewrite Z.eqb_refl. cbn [assert_ mbind outcome_bind]. rewrite (at_app_l l g c y) by (done || lia). cbn [mbind outcome_bind].
  pose proof (lookup_lt_Some _ _ _ Hk) as Hkl. rewrite set_at_app_l by lia. cbn [mbind outcome_bind]. rewrite set_at_app_l by (rewrite length_insert; lia). cbn [mbind outcome_bind]. rewrite (set_last_ret _ _ _ iy) by (done || lia). cbn [mbind outcome_bind].
  rewrite Nat2Z.id. set (tl1 := <[Z.to_nat y := mkTSI (ts_state iy) (futexWord iy) (Z.of_nat k)]> (threadList b)).
  assert (exists i1, tl1 !! Z.to_nat t = Some i1 /\ ts_state i1 = LEFT /\ futexWord i1 = futexWord i) as (i1 & Hi1 & Hs1 & Hf1).
  { destruct (decide (y = t)) as [->|Hne]; [|exists i; unfold tl1; by rewrite list_lookup_insert_ne by lia]. exists (mkTSI (ts_state iy) (futexWord iy) (Z.of_nat k)). unfold tl1. rewrite list_lookup_insert_eq by done. simpl. split; [done|]. rewrite Hi in Hiy. by injection Hiy as <-. }
  rewrite (set_last_ret _ _ _ i1) by (done || lia). cbn [mbind outcome_bind]. rewrite Hs1, Hf1. set (tl2 := <[Z.to_nat t := mkTSI LEFT (futexWord i) c]> tl1). set (l' := <[Z.to_nat c := t]> (<[k := y]> l)).
  pose proof (swap_permutation l _ _ t y Hk Hy) as Hperm. fold l' in Hperm.
  assert (Htl2 : forall u x, tl2 !! Z.to_nat u = Some x -> 0 <= u -> exists i0, threadList b !! Z.to_nat u = Some i0 /\ ts_state x = ts_state i0 /\ futexWord x = futexWord i0 /\ lastIdx x = if decide (u = t) then c else if decide (u = y) then Z.of_nat k else lastIdx i0).
  { intros u x Hx Hu. unfold tl2, tl1 in Hx. apply list_lookup_insert_Some in Hx as [(He & <- & _)|[Hne Hx]].
    - assert (u = t) as -> by lia. exists i. by rewrite decide_True.
    - assert (u <> t) by (by intros ->). apply list_lookup_insert_Some in Hx as [(He & <- & _)|[Hne' Hx]]; [assert (u = y) as -> by lia; exists iy; by rewrite decide_False, decide_True|].
      assert (u <> y) by (by intros ->). exists x. by rewrite !decide_False. }
  assert (Hl' : forall j u, l' !! j = Some u -> j = Z.to_nat c /\ u = t \/ j <> Z.to_nat c /\ j = k /\ u = y /\ u <> t \/ j <> Z.to_nat c /\ j <> k /\ l !! j = Some u /\ u <> t /\ u <> y).
  { intros j u Hj. unfold l' in Hj. apply list_lookup_insert_Some in Hj as [(<- & <- & _)|[Hjc Hj]]; [by left|]. right. apply list_lookup_insert_Some in Hj as [(<- & <- & _)|[Hjk Hj]].
    - left. split_and!; try done. intros ->. apply Hjc. eapply NoDup_lookup; [apply (bi_nodup _ _ _ _ I)|done|done].
    - right. split_and!; try done; intros ->; [apply Hjk|apply Hjc]; (eapply NoDup_lookup; [apply (bi_nodup _ _ _ _ I)|done|done]). }
  assert (Hcnt : forall s, count_b (in_state s) tl2 = count_b (in_state s) (threadList b)).
  { intros s. unfold tl2. rewrite (count_b_insert _ _ _ _ _ Hi1). unfold tl1. rewrite (count_b_insert _ _ _ _ _ Hiy). unfold in_state. rewrite Hs1. simpl. lia. }
  assert (Hold : forall j u x, l' !! j = Some u -> tl2 !! Z.to_nat u = Some x -> exists j0 i0, l !! j0 = Some u /\ threadList b !! Z.to_nat u = Some i0 /\ ts_state x = ts_state i0 /\ futexWord x = futexWord i0 /\
    (u = t /\ Z.of_nat j = c /\ lastIdx x = c /\ ts_state x = LEFT \/ Z.of_nat j < c /\ Z.of_nat j0 < c + 1 /\ lastIdx x = Z.of_nat j \/ j0 = j /\ (Z.of_nat j < c <-> Z.of_nat j < c + 1) /\ lastIdx x = lastIdx i0)).
  { intros j u x Hj Hx. assert (Hu : 0 <= u) by (apply (bi_range _ _ _ _ I); rewrite <- Hperm; by eapply list_elem_of_lookup_2). destruct (Htl2 u x Hx Hu) as (i0 & Hi0 & Hs0 & Hf0 & Hl0).
    destruct (Hl' j u Hj) as [(-> & ->)|[(Hjc & -> & -> & Hut)|(Hjc & Hjk & Hj0 & Hut & Huy)]].
    - rewrite decide_True in Hl0 by done. exists k, i0. split_and!; try done. left. split_and!; try done; [lia|]. rewrite Hs0. rewrite Hi in Hi0. by injection Hi0 as <-.
    - rewrite decide_False, decide_True in Hl0 by done. exists (Z.to_nat c), i0. split_and!; try done. right. left. lia.
    - rewrite !decide_False in Hl0 by done. exists j, i0. split_and!; try done. right. right. split_and!; try done. lia. }
  exists tl2, l'. split; [done|]. split; [|split; [unfold l'; apply list_lookup_insert_eq; rewrite length_insert; lia|unfold tl2; apply list_lookup_insert_eq; unfold tl1; by rewrite length_insert]].
  pose proof (bi_threads _ _ _ _ I) as HT. constructor; cbn [parallelThreads threadList runList runListSize curThreadIdx runningThreads leftThreads].
  - apply (bi_parallel _ _ _ _ I).
  - unfold tl2, tl1. by rewrite !length_insert.
  - done.
  - rewrite <- (bi_length _ _ _ _ I), !length_app. unfold l'. by rewrite !length_insert.
  - unfold l'. rewrite !length_insert. apply (bi_size _ _ _ _ I).
  - rewrite Hperm. apply (bi_nodup _ _ _ _ I).
  - unfold l'. rewrite !length_insert. lia.
  - intros u x Hu Hx. destruct (Htl2 u x Hx Hu) as (i0 & Hi0 & -> & _). rewrite Hperm. by apply (bi_in _ _ _ _ I).
  - intros u. rewrite Hperm. apply (bi_range _ _ _ _ I).
  - rewrite Hcnt. apply (bi_running _ _ _ _ I).
  - apply (bi_bound _ _ _ _ I).
  - rewrite Hcnt. apply (bi_left _ _ _ _ I).
  - intros u x Hx. destruct (Htl2 (Z.of_nat u) x) as (i0 & Hi0 & -> & -> & _); [by rewrite Nat2Z.id|lia|]. by apply (bi_futex _ _ _ _ I (Z.to_nat (Z.of_nat u))).
  - intros j u x Hj Hx He Hx'. destruct (Hold j u x Hj Hx) as (j0 & i0 & Hj0 & Hi0 & Hs0 & Hf0 & [(-> & Hjc & -> & _)|[(Hjc & Hj0c & ->)|(-> & Hjc & ->)]]); [done|done|]. eapply (bi_last _ _ _ _ I); [done|done|by rewrite <- Hs0|]. rewrite <- Hs0. naive_solver lia.
  - intros j u x Hj Hx Hx'. destruct (Hold j u x Hj Hx) as (j0 & i0 & Hj0 & Hi0 & Hs0 & Hf0 & [(-> & Hjc & _ & Hsl)|[(Hjc & Hj0c & _)|(-> & Hjc & _)]]); [congruence|done|]. rewrite Hs0 in Hx'. pose proof (bi_ran _ _ _ _ I _ _ _ Hj0 Hi0 Hx'). lia.
  - intros j u x Hj Hx. destruct (Hold j u x Hj Hx) as (j0 & i0 & Hj0 & Hi0 & Hs0 & Hf0 & Hcase). rewrite (bi_status _ _ _ _ I _ _ _ Hj0 Hi0). unfold status. rewrite <- Hs0. destruct (ts_state x) eqn:Hsx; try done.
    destruct Hcase as [(_ & _ & _ & Hsl)|[(Hjc & Hj0c & _)|(-> & Hjc & _)]]; [done| |]; destruct (Z.of_nat _ <? curThreadIdx b) eqn:E1, (Z.of_nat j <? c) eqn:E2; zb; done || lia.
  - intros u. rewrite Hperm. apply (bi_outside _ _ _ _ I).
Qed.

Lemma same_phase_join_left b t n : same_phase_join (with_left b n) t = (b' ← same_phase_join b t; Ret (with_left b' n)).
Proof.
  unfold same_phase_join. cbn [with_left threadList curThreadIdx runList runListSize]. destruct (at_ (threadList b) t) as [i|]; [|done]. cbn [mbind outcome_bind]. destruct (lastIdx i <? curThreadIdx b); [|done].
  destruct (at_ (runList b) (lastIdx i)); [|done]. cbn [mbind outcome_bind]. destruct (assert_ _); [|done]. cbn [mbind outcome_bind]. destruct (at_ (runList b) _); [|done]. cbn [mbind outcome_bind].
  destruct (set_at (runList b) _ _); [|done]. cbn [mbind outcome_bind]. destruct (set_at _ _ _); [|done]. cbn [mbind outcome_bind]. destruct (set_last (threadList b) _ _); [|done]. cbn [mbind outcome_bind]. by destruct (set_last _ _ _).
Qed.

(** *** Histories *)

Inductive bar_op : Type := Join (t : Z) | Leave (t : Z) | Sync (t : Z).

(** The place that a thread remembers is the one it has. *)
Definition recorded (b : Barrier) (t : Z) (i : ThreadSyncInfo) : bool :=
  (0 <=? lastIdx i) && (lastIdx i <? runListSize b) && bool_decide (at_ (runList b) (lastIdx i) = Ret t).

(** The states in which a thread calls the operations.  A thread that waits may leave as
    well; one that has left and is still on the list joins at the place it remembers. *)
Definition bar_allowed (b : Barrier) (op : bar_op) : bool :=
  match op with
  | Join t => match at_ (threadList b) t with Ret i => in_state OFFLINE i || in_state LEFT i && recorded b t i | Stop _ => false end
  | Sync t => match at_ (threadList b) t with Ret i => in_state RUNNING i | Stop _ => false end
  | Leave t => match at_ (threadList b) t with Ret i => in_state RUNNING i || in_state WAITING i | Stop _ => false end
  end.

(** The threads that have left at a place they do not remember. *)
Definition early_after (early : gset Z) (b : Barrier) (op : bar_op) : gset Z :=
  match op with
  | Join t => early ∖ {[t]}
  | Sync _ => early
  | Leave t => match at_ (threadList b) t with Ret i => if in_state RUNNING i || recorded b t i then early else {[t]} ∪ early | Stop _ => early end
  end.

Section Histories.
Context (randInt : nat -> Z -> Z).

Definition bar_do (b : Barrier) (op : bar_op) : outcome (Barrier * list bar_event) :=
  match op with Join t => bar_join randInt b t | Leave t => bar_leave randInt b t | Sync t => bar_sync randInt b t end.

Inductive bar_history (parallel : Z) : Barrier -> list bar_event -> gset Z -> Prop :=
  | bh_start : bar_history parallel (newBarrier parallel) [] ∅
  | bh_do b evs early op b' evs' : bar_history parallel b evs early -> bar_allowed b op = true -> bar_do b op = Ret (b', evs') ->
      bar_history parallel b' (evs ++ evs') (early_after early b op).
End Histories.

(** A thread that is due cannot see the end of the phase before it has run. *)
Lemma due_delays t e1 e2 m : wakes_only e1 -> m !! t = Some Due -> phase_run (e1 ++ PhaseEnds :: e2) m = None.
Proof.
  intros Hw Hm. assert (Hs : exists s, m !! t = Some s /\ s <> Done) by (by exists Due). clear Hm. revert m Hs. induction Hw as [|e e1 [u ->] Hw IH]; intros m (s & Hs & Hne).
  - cbn [app phase_run phase_step]. rewrite decide_False; [done|]. intros [_ Hall]. by apply (Hall t s) in Hs.
  - cbn [app phase_run phase_step]. case_decide as Hu; [|done]. cbn [mbind option_bind]. apply IH. destruct (decide (u = t)) as [->|Hut]; [rewrite lookup_insert_eq; by exists Active|]. rewrite lookup_insert_ne by done. by exists s.
Qed.

Lemma newBarrier_is {early} parallel : 1 <= parallel < 2 ^ 32 -> bar_was early (newBarrier parallel) [] (runList (newBarrier parallel)) ∅.
Proof.
  intros Hp. assert (Hi : forall t i, threadList (newBarrier parallel) !! t = Some i -> i = mkTSI OFFLINE 0 0) by (intros t i Ht; by apply lookup_replicate in Ht as [-> _]).
  constructor.
  - done.
  - cbn [newBarrier threadList]. rewrite length_replicate. done.
  - done.
  - cbn [newBarrier runList app]. rewrite length_replicate. done.
  - done.
  - apply NoDup_nil_2.
  - done.
  - intros t i _ Ht. apply Hi in Ht as ->. split; [done|]. by intros ?%not_elem_of_nil.
  - by intros t ?%not_elem_of_nil.
  - cbn [newBarrier threadList runningThreads]. by rewrite count_b_replicate.
  - cbn [newBarrier runningThreads parallelThreads]. lia.
  - cbn [newBarrier threadList leftThreads]. by rewrite count_b_replicate.
  - intros t i Ht. by apply Hi in Ht as ->.
  - done.
  - done.
  - done.
  - done.
Qed.

Lemma running_facts {early} b l g m t i : bar_was early b l g m -> 0 <= t -> threadList b !! Z.to_nat t = Some i -> ts_state i = RUNNING ->
  exists k, l !! k = Some t /\ Z.of_nat k < curThreadIdx b /\ lastIdx i = Z.of_nat k /\ m !! t = Some Active /\ 1 <= runningThreads b < 2 ^ 31.
Proof.
  intros I Ht Hi Ha. destruct (bi_index I t i Ht Hi ltac:(congruence)) as [k Hk]. exists k. pose proof (bi_status _ _ _ _ I k t i Hk Hi) as Hst. unfold status in Hst. rewrite Ha in Hst.
  destruct (bar_running_bounds _ _ _ _ I) as [Hrb _]. assert (0 < runningThreads b) by (rewrite (bi_running _ _ _ _ I); apply (count_b_pos _ _ _ i Hi); unfold in_state; by rewrite Ha).
  split_and!; try done; try lia; [by apply (bi_ran _ _ _ _ I k t i)|apply (bi_last _ _ _ _ I k t i); [done|done|congruence|auto]].
Qed.

Lemma recorded_place {early} b l g m k t i : bar_was early b l g m -> l !! k = Some t -> recorded b t i = true <-> lastIdx i = Z.of_nat k.
Proof.
  intros I Hk. pose proof (lookup_lt_Some _ _ _ Hk). unfold recorded. rewrite (bi_size _ _ _ _ I), (bi_list _ _ _ _ I), !andb_true_iff, bool_decide_eq_true, Z.leb_le, Z.ltb_lt, at_ret_iff. split.
  - intros [[H1 H2] [_ H3]]. rewrite lookup_app_l in H3 by lia. pose proof (NoDup_lookup _ _ _ _ (bi_nodup _ _ _ _ I) H3 Hk). lia.
  - intros ->. split_and!; [lia|lia|lia|]. rewrite Nat2Z.id. by apply lookup_app_l_Some.
Qed.

(** Only a thread that left early does not remember its place. *)
Lemma left_recorded {early} b l g m t i : bar_was early b l g m -> 0 <= t -> threadList b !! Z.to_nat t = Some i -> ts_state i = LEFT -> t ∉ early -> recorded b t i = true.
Proof.
  intros I Ht Hi Hs He. destruct (bi_index I t i Ht Hi ltac:(congruence)) as [k Hk]. apply (recorded_place b l g m k t i I Hk). apply (bi_last _ _ _ _ I k t i Hk Hi); [by intros _|by left].
Qed.

(** What a step of the calling thread at place [k] changes. *)
Lemma step_update {early} b l g m k t i i' (r n : Z) : bar_was early b l g m -> l !! k = Some t -> threadList b !! Z.to_nat t = Some i -> ts_state i' <> OFFLINE -> ts_state i' <> RUNNING ->
  (ts_state i' = WAITING -> futexWord i' = 1) -> ((ts_state i' = LEFT -> t ∉ early) -> ts_state i' = LEFT \/ Z.of_nat k < curThreadIdx b -> lastIdx i' = Z.of_nat k) ->
  r = runningThreads b - flag (in_state RUNNING i) -> n = leftThreads b - flag (in_state LEFT i) + flag (in_state LEFT i') ->
  bar_was early (bar_put b t i' (curThreadIdx b) r n) l g (status_put m t (status (curThreadIdx b) k i')).
Proof.
  intros I Hk Hi Hoff Hrun Hw Hl -> ->. pose proof (bi_bound _ _ _ _ I). assert (Hf : flag (in_state RUNNING i') = 0) by (unfold in_state; by rewrite bool_decide_false).
  pose proof (bar_update b l g m k t i i' (curThreadIdx b) I Hk Hi) as HU. rewrite Hf in HU. replace (runningThreads b - flag (in_state RUNNING i)) with (runningThreads b - flag (in_state RUNNING i) + 0) by lia.
  apply HU; try done; [intros He [?|[?|?]]; [by apply Hl; auto|done|by apply Hl; auto]|by left|]. unfold in_state. destruct (bool_decide _); simpl; lia.
Qed.

(** A thread that has left joins again. *)
Lemma rejoin_ready {early} b l g m t i : bar_was early b l g m -> 0 <= t -> threadList b !! Z.to_nat t = Some i -> ts_state i = LEFT -> recorded b t i = true ->
  exists b1 l1 g1, bar_was early b1 l1 g1 (<[t := Due]> m) /\ m !! t = None /\ parallelThreads b1 = parallelThreads b /\
    (b0 ← same_phase_join (with_left b (u32 (leftThreads b - 1))) t; tl ← set_ts_state (threadList b0) t WAITING; tl ← set_futex tl t 1; Ret (with_threads b0 tl)) = Ret b1.
Proof.
  intros I Ht Hi Hs Hrec. destruct (bi_index I t i Ht Hi ltac:(congruence)) as [k Hk]. pose proof (proj1 (recorded_place b l g m k t i I Hk) Hrec) as Hlast. pose proof (bi_status _ _ _ _ I k t i Hk Hi) as Hm. unfold status in Hm. rewrite Hs in Hm.
  assert (Hl1 : 0 < leftThreads b) by (rewrite (bi_left _ _ _ _ I); apply (count_b_pos _ _ _ i Hi); unfold in_state; by rewrite Hs). destruct (bar_running_bounds _ _ _ _ I) as [_ Hlb].
  assert (Hback : exists b0 l0 k0, same_phase_join b t = Ret b0 /\ bar_was early b0 l0 g m /\ leftThreads b0 = leftThreads b /\ parallelThreads b0 = parallelThreads b /\ l0 !! k0 = Some t /\ curThreadIdx b0 <= Z.of_nat k0 /\ exists i0, threadList b0 !! Z.to_nat t = Some i0 /\ ts_state i0 = LEFT).
  { destruct (decide (Z.of_nat k < curThreadIdx b)) as [Hc|Hc].
    - destruct (pull_back b l g m k t i I Hk Hi Hs Hlast Hc) as (tl' & l' & -> & I' & Hl' & Ht'). eexists _, l', _. split; [done|]. split; [exact I'|]. split; [done|]. split; [done|]. split; [exact Hl'|]. simpl. split; [lia|]. by eexists.
    - exists b, l, k. split_and!; try done; try lia; [|by exists i]. unfold same_phase_join. rewrite (at_ret _ _ i) by done. cbn [mbind outcome_bind]. rewrite Hlast. by rewrite (proj2 (Z.ltb_ge _ _)) by lia. }
  destruct Hback as (b0 & l0 & k0 & E0 & I0 & Hl0 & Hp0 & Hk0 & Hc0 & i0 & Hi0 & Hs0). rewrite same_phase_join_left, E0. cbn [mbind outcome_bind with_left threadList]. pose proof (lookup_lt_Some _ _ _ Hi0).
  erewrite set_ts_state_ret by done. cbn [mbind outcome_bind]. erewrite set_futex_ret by (done || by apply list_lookup_insert_eq). cbn [mbind outcome_bind ts_state lastIdx]. rewrite list_insert_insert_eq.
  pose proof (step_update b0 l0 g m k0 t i0 (mkTSI WAITING 1 (lastIdx i0)) (runningThreads b0) (u32 (leftThreads b - 1)) I0 Hk0 Hi0) as HU. unfold in_state in HU. rewrite Hs0, Hl0 in HU. unfold status in HU. simpl in HU.
  rewrite (proj2 (Z.ltb_ge _ _)) in HU by lia. specialize (HU ltac:(done) ltac:(done) ltac:(done) ltac:(intros _ [?|?]; [done|lia]) ltac:(lia) ltac:(rewrite u32_small; lia)).
  eexists _, l0, g. split; [exact HU|]. split; [done|]. split; [exact Hp0|]. done.
Qed.

(** The event that an operation starts with; the others wake threads or end a phase. *)
Definition bar_head (op : bar_op) : bar_event := match op with Join t => Joins t | Leave t => Leaves t | Sync t => Syncs t end.
Definition quiet (e : bar_event) : Prop := e = PhaseEnds \/ exists t, e = Wakes t.

Lemma quiet_shape e1 e2 evs : wakes_only e1 -> wakes_only e2 -> evs = e1 ++ e2 \/ evs = e1 ++ PhaseEnds :: e2 -> Forall quiet evs.
Proof.
  intros H1 H2 He. assert (Hw : forall e, wakes_only e -> Forall quiet e) by (intros e He'; eapply Forall_impl; [exact He'|]; intros x; by right).
  destruct He as [-> | ->]; apply Forall_app; (split; [by apply Hw|]); [by apply Hw|]. constructor; [by left|by apply Hw].
Qed.

Section Operations.
Context (randInt : nat -> Z -> Z) (Hrnd : forall k i, 0 <= i -> 0 <= randInt k i <= i).

(** The call returns, and the automaton accepts what it does. *)
Definition op_takes (early : gset Z) (b : Barrier) (m : gmap Z phase_status) (op : bar_op) : Prop :=
  exists b' evs l' g' m', bar_do randInt b op = Ret (b', evs) /\ bar_was early b' l' g' m' /\ phase_run evs m = Some m' /\ (m' <> ∅ -> 0 < runningThreads b') /\ parallelThreads b' = parallelThreads b /\
    match op with Join _ => PhaseEnds ∉ evs | _ => True end /\ exists evs', evs = bar_head op :: evs' /\ Forall quiet evs'.

Lemma wake_succeeds {early} b l g m e m0 : bar_was early b l g m -> phase_step m0 e = Some m ->
  exists b' evs l' g' m', (r ← tryWakeNext randInt b; Ret (r.1, e :: r.2)) = Ret (b', e :: evs) /\ bar_was early b' l' g' m' /\ phase_run (e :: evs) m0 = Some m' /\ (m' <> ∅ -> 0 < runningThreads b') /\ parallelThreads b' = parallelThreads b /\
    exists e1 e2, wakes_only e1 /\ wakes_only e2 /\ (evs = e1 ++ e2 \/ evs = e1 ++ PhaseEnds :: e2).
Proof using Hrnd.
  intros I He. destruct (tryWakeNext_ok randInt Hrnd b l g m I) as (b' & evs & l' & g' & m' & -> & I' & Hrun & Hpos & Hpar & Hsh). cbn [mbind outcome_bind fst snd]. exists b', evs, l', g', m'. split_and!; try done.
  cbn [phase_run]. by rewrite He.
Qed.

Lemma sync_succeeds {early} b l g m t : bar_was early b l g m -> bar_allowed b (Sync t) = true -> op_takes early b m (Sync t).
Proof using Hrnd.
  intros I Ha. unfold bar_allowed in Ha. destruct (at_ (threadList b) t) as [i|] eqn:E; [|done]. apply bool_decide_eq_true in Ha. pose proof E as Ei. apply at_ret_iff in Ei as [Ht Hi].
  destruct (running_facts b l g m t i I Ht Hi Ha) as (k & Hk & Hkc & Hl & Hm & Hr). pose proof (lookup_lt_Some _ _ _ Hi) as Htl.
  pose proof (step_update b l g m k t i (mkTSI WAITING 1 (lastIdx i)) (u32 (runningThreads b - 1)) (leftThreads b) I Hk Hi) as HU. unfold in_state in HU. rewrite Ha in HU. unfold status in HU. simpl in HU.
  rewrite (proj2 (Z.ltb_lt _ _)) in HU by lia. specialize (HU ltac:(done) ltac:(done) ltac:(done) ltac:(done) ltac:(by rewrite u32_small by lia) ltac:(lia)).
  destruct (wake_succeeds _ l g _ (Syncs t) m HU) as (b' & evs & l' & g' & m' & Er & I' & Hrun & Hpos & Hpar & e1 & e3 & W1 & W2 & Hev); [simpl; by rewrite decide_True|].
  exists b', (Syncs t :: evs), l', g', m'. split_and!; try done; [|exists evs; split; [done|by apply (quiet_shape e1 e3)]]. cbn [bar_do]. unfold bar_sync. rewrite E. cbn [mbind outcome_bind]. rewrite bool_decide_true by done. cbn [assert_ mbind outcome_bind].
  erewrite set_futex_ret by done. cbn [mbind outcome_bind]. erewrite set_ts_state_ret by (done || by apply list_lookup_insert_eq). cbn [mbind outcome_bind futexWord lastIdx]. rewrite list_insert_insert_eq.
  unfold bar_put in Er. unfold with_running, with_threads. cbn [parallelThreads threadList runList runListSize curThreadIdx leftThreads phaseCount rnd_calls].
  destruct (tryWakeNext randInt _) as [[b2 e2]|]; [|done]. cbn [mbind outcome_bind fst snd] in Er |- *. done.
Qed.

Lemma leave_running {early} b l g m t i :
  bar_was early b l g m -> at_ (threadList b) t = Ret i -> ts_state i = RUNNING -> op_takes early b m (Leave t).
Proof using Hrnd.
  intros I E Hs. pose proof E as Ei. apply at_ret_iff in Ei as [Ht Hi]. pose proof (lookup_lt_Some _ _ _ Hi) as Htl.
  destruct (bar_running_bounds _ _ _ _ I) as [_ Hlb]. unfold op_takes. cbn [bar_do]. unfold bar_leave. rewrite E. cbn [mbind outcome_bind]. rewrite (bool_decide_true (ts_state i = RUNNING)) by done.
  destruct (running_facts b l g m t i I Ht Hi Hs) as (k & Hk & Hkc & Hl & Hm & Hr).
  pose proof (step_update b l g m k t i (mkTSI LEFT (futexWord i) (lastIdx i)) (u32 (runningThreads b - 1)) (u32 (leftThreads b + 1)) I Hk Hi) as HU. unfold in_state in HU. rewrite Hs in HU. unfold status in HU. simpl in HU.
  specialize (HU ltac:(done) ltac:(done) ltac:(done) ltac:(done) ltac:(by rewrite u32_small by lia) ltac:(rewrite u32_small; lia)).
  destruct (wake_succeeds _ l g _ (Leaves t) m HU) as (b' & evs & l' & g' & m' & Er & I' & Hrun & Hpos & Hpar & e1 & e3 & W1 & W2 & Hev); [simpl; rewrite decide_False by congruence; done|].
  exists b', (Leaves t :: evs), l', g', m'. split_and!; try done; [|exists evs; split; [done|by apply (quiet_shape e1 e3)]]. erewrite set_ts_state_ret by done. cbn [mbind outcome_bind].
  unfold bar_put in Er. unfold with_running, with_left, with_threads. cbn [parallelThreads threadList runList runListSize curThreadIdx leftThreads phaseCount rnd_calls].
  destruct (tryWakeNext randInt _) as [[b2 e2]|]; [|done]. cbn [mbind outcome_bind fst snd] in Er |- *. done.
Qed.

Lemma leave_waiting {early} b l g m t i :
  bar_was early b l g m -> (m <> ∅ -> 0 < runningThreads b) -> at_ (threadList b) t = Ret i -> ts_state i = WAITING ->
  op_takes (if recorded b t i then early else {[t]} ∪ early) b m (Leave t).
Proof using Hrnd.
  intros I Hsome E Hw. pose proof E as Ei. apply at_ret_iff in Ei as [Ht Hi]. pose proof (lookup_lt_Some _ _ _ Hi) as Htl. destruct (bar_running_bounds _ _ _ _ I) as [_ Hlb].
  destruct (bi_index I t i Ht Hi ltac:(congruence)) as [k Hk]. set (early' := if recorded b t i then early else {[t]} ∪ early).
  assert (I1 : bar_was early' b l g m) by (apply (bar_change early' b l g m I); intros u x _ _ _ Hu; unfold early'; case_match; set_solver).
  pose proof (step_update b l g m k t i (mkTSI LEFT (futexWord i) (lastIdx i)) (runningThreads b) (u32 (leftThreads b + 1)) I1 Hk Hi) as HU. unfold in_state in HU. rewrite Hw in HU. unfold status in HU. simpl in HU.
  assert (Hlast : (LEFT = LEFT -> t ∉ early') -> LEFT = LEFT \/ Z.of_nat k < curThreadIdx b -> lastIdx i = Z.of_nat k).
  { intros He _. apply (recorded_place b l g m k t i I Hk). destruct (recorded b t i) eqn:Er; [done|]. destruct (He eq_refl). unfold early'. set_solver. }
  specialize (HU ltac:(done) ltac:(done) ltac:(done) Hlast ltac:(lia) ltac:(rewrite u32_small; lia)).
  pose proof (bi_status _ _ _ _ I _ t i Hk Hi) as Hst. unfold status in Hst. rewrite Hw in Hst. assert (Hm : m !! t <> None) by (rewrite Hst; by destruct (_ <? _)).
  unfold op_takes. cbn [bar_do]. unfold bar_leave. rewrite E. cbn [mbind outcome_bind]. rewrite (bool_decide_false (ts_state i = RUNNING)) by congruence. rewrite bool_decide_true by done. cbn [assert_ mbind outcome_bind].
  erewrite set_ts_state_ret by done. cbn [mbind outcome_bind]. eexists _, _, l, g, _. split; [done|]. split; [exact HU|]. split; [cbn [phase_run phase_step]; by rewrite decide_False|].
  split; [|split; [done|split; [done|exists []; split; [done|constructor]]]]. intros _. simpl. apply Hsome. by intros ->.
Qed.

Lemma join_succeeds {early} b l g m t : bar_was early b l g m -> bar_allowed b (Join t) = true -> op_takes (early ∖ {[t]}) b m (Join t).
Proof using Hrnd.
  intros I Ha. unfold bar_allowed in Ha. destruct (at_ (threadList b) t) as [i|] eqn:E; [|done]. pose proof E as Ei. apply at_ret_iff in Ei as [Ht Hi]. pose proof (lookup_lt_Some _ _ _ Hi) as Htl.
  assert (Hs : ts_state i = LEFT /\ recorded b t i = true \/ ts_state i = OFFLINE) by (apply orb_true_iff in Ha as [Ha|[Ha Hr]%andb_true_iff]; apply bool_decide_eq_true in Ha; auto).
  assert (Hready : exists b1 l1 g1, bar_was early b1 l1 g1 (<[t := Due]> m) /\ m !! t = None /\ parallelThreads b1 = parallelThreads b /\
    (b0 ← (if bool_decide (ts_state i = OFFLINE) then rl ← set_at (runList b) (runListSize b) t; Ret (with_list b rl (u32 (runListSize b + 1))) else same_phase_join (with_left b (u32 (leftThreads b - 1))) t);
     tl ← set_ts_state (threadList b0) t WAITING; tl ← set_futex tl t 1; Ret (with_threads b0 tl)) = Ret b1).
  { case_bool_decide as Hoff.
    - destruct (bar_append b l g m t i I Ht Hi Hoff) as (g1 & -> & -> & I1 & Hm). eexists _, _, _. split; [exact I1|]. split; [done|]. split; [done|]. cbn [mbind outcome_bind with_list threadList].
      erewrite set_ts_state_ret by done. cbn [mbind outcome_bind]. erewrite set_futex_ret by (done || by apply list_lookup_insert_eq). cbn [mbind outcome_bind ts_state lastIdx]. by rewrite list_insert_insert_eq.
    - destruct Hs as [[Hs Hrec]|Hs]; [|done]. by apply (rejoin_ready b l g m t i). }
  destruct Hready as (b1 & l1 & g1 & I0 & Hm & Hp1 & Hr).
  assert (I1 : bar_was (early ∖ {[t]}) b1 l1 g1 (<[t := Due]> m)).
  { apply (bar_change _ _ _ _ _ I0). intros u x Hx [k Hk]%list_elem_of_lookup Hl Hu. enough (u <> t) by set_solver. intros ->. pose proof (bi_status _ _ _ _ I0 k t x Hk Hx) as Hd.
    rewrite lookup_insert_eq in Hd. unfold status in Hd. by rewrite Hl in Hd. }
 destruct (wake_succeeds b1 l1 g1 _ (Joins t) m I1) as (b' & evs & l' & g' & m' & Er & I' & Hrun & Hpos & Hpar & e1 & e2 & W1 & W2 & Hev); [simpl; by rewrite decide_True|].
  exists b', (Joins t :: evs), l', g', m'. split; [|split_and!; try done; try congruence; [|exists evs; split; [done|by apply (quiet_shape e1 e2)]]].
  - cbn [bar_do]. unfold bar_join. rewrite E. cbn [mbind outcome_bind]. rewrite (bool_decide_true (ts_state i = LEFT \/ ts_state i = OFFLINE)) by naive_solver. cbn [assert_ mbind outcome_bind].
    apply bind_ret_inv in Hr as (b0 & -> & Hr). cbn [mbind outcome_bind]. apply bind_ret_inv in Hr as (tl1 & -> & Hr). cbn [mbind outcome_bind]. apply bind_ret_inv in Hr as (tl2 & -> & Hr). cbn [mbind outcome_bind]. injection Hr as ->.
    destruct (tryWakeNext randInt b1) as [[b2 e]|]; [|done]. cbn [mbind outcome_bind fst snd] in Er |- *. done.
  - intros [He|He]%elem_of_cons; [done|]. destruct Hev as [->| ->].
    + apply elem_of_app in He as [He|He]; [by apply (proj1 (Forall_forall _ _) W1) in He as [? ?]|by apply (proj1 (Forall_forall _ _) W2) in He as [? ?]].
    + cbn [phase_run phase_step] in Hrun. rewrite decide_True in Hrun by done. cbn [mbind option_bind] in Hrun. rewrite (due_delays t e1 e2) in Hrun; [done|done|apply lookup_insert_eq].
Qed.
End Operations.

(** Every call in its state. *)
Lemma op_does randInt early b l g m op :
  (forall k i, 0 <= i -> 0 <= randInt k i <= i) -> bar_was early b l g m -> (m <> ∅ -> 0 < runningThreads b) -> bar_allowed b op = true ->
  op_takes randInt (early_after early b op) b m op.
Proof.
  intros Hrnd I Hm Ha. destruct op as [t|t|t]; [by apply (join_succeeds randInt Hrnd b l g)| |by apply (sync_succeeds randInt Hrnd b l g)].
  cbn [bar_allowed early_after] in Ha |- *. destruct (at_ (threadList b) t) as [i|] eqn:E; [|done]. unfold in_state in *. destruct (decide (ts_state i = RUNNING)) as [Hr|Hr].
  - rewrite bool_decide_true by done. by apply (leave_running randInt Hrnd b l g m t i).
  - rewrite (bool_decide_false (ts_state i = RUNNING)) in * by done. simpl in Ha |- *. apply bool_decide_eq_true in Ha. by apply (leave_waiting randInt Hrnd b l g m t i).
Qed.

(** What holds after a history. *)
Lemma history_is randInt parallel b evs early :
  (forall k i, 0 <= i -> 0 <= randInt k i <= i) -> 1 <= parallel < 2 ^ 32 -> bar_history randInt parallel b evs early ->
  exists l g m, bar_was early b l g m /\ phase_run evs ∅ = Some m /\ (m <> ∅ -> 0 < runningThreads b) /\ parallelThreads b = parallel.
Proof.
  intros Hrnd Hp Hh. induction Hh as [|b evs early op b' evs' Hh (l & g & m & I & Hrun & Hm & Hpar) Ha Hdo].
  - eexists _, _, _. split; [by apply newBarrier_is|done].
  - destruct (op_does randInt early b l g m op Hrnd I Hm Ha) as (b2 & evs2 & l' & g' & m' & E & I' & Hrun' & Hm' & Hp' & _). rewrite E in Hdo. injection Hdo as -> ->. exists l', g', m'. split_and!; try done.
    + by rewrite phase_run_app, Hrun.
    + congruence.
Qed.

(** ** Theorems *)

(** C14: Over any history of joins, leaves and syncs the phase barrier implements the automaton
    of phases: its wake-ups and phase ends are accepted, so a phase ends only when all
    the threads that are in the barrier have run in it, and a thread runs a second
    time in a phase only if it has left and joined again; a thread runs exactly
    when the automaton says so, and then its wait is over; at most [parallelThreads] threads run at
    once; while a thread is in the barrier some thread runs.  A running thread may sync,
    a thread that runs or waits may leave, a thread that is not in the barrier may join: all
    these calls return, and a join never ends a phase.  The one exception
    is a join of a thread that left before it was woken and does not remember its place (the threads of
    [early]), which the histories leave out. *)
Theorem barrier_refines randInt parallel b evs early :
  (forall k i, 0 <= i -> 0 <= randInt k i <= i) -> 1 <= parallel < 2 ^ 32 -> bar_history randInt parallel b evs early ->
  exists m, phase_run evs ∅ = Some m /\
    (forall t i, 0 <= t -> threadList b !! Z.to_nat t = Some i -> (m !! t = Some Active <-> ts_state i = RUNNING) /\ (m !! t = None <-> ts_state i = LEFT \/ ts_state i = OFFLINE)) /\
    (forall t i, 0 <= t -> threadList b !! Z.to_nat t = Some i -> ts_state i = WAITING \/ ts_state i = RUNNING -> after_wait b t = Ret (bool_decide (m !! t = Some Active))) /\
    count_b (in_state RUNNING) (threadList b) <= parallel /\
    (m <> ∅ -> exists t, m !! t = Some Active) /\
    (forall t i, at_ (threadList b) t = Ret i ->
      (ts_state i = RUNNING -> exists b' evs', bar_sync randInt b t = Ret (b', evs')) /\
      (ts_state i = RUNNING \/ ts_state i = WAITING -> exists b' evs', bar_leave randInt b t = Ret (b', evs')) /\
      (ts_state i = OFFLINE \/ ts_state i = LEFT /\ (t ∉ early \/ recorded b t i = true) -> exists b' evs', bar_join randInt b t = Ret (b', evs') /\ PhaseEnds ∉ evs')).
Proof.
  intros Hrnd Hp Hh. destruct (history_is randInt parallel b evs early Hrnd Hp Hh) as (l & g & m & I & Hrun & Hm & Hpar). exists m.
  assert (Hst : forall t i, 0 <= t -> threadList b !! Z.to_nat t = Some i -> (m !! t = Some Active <-> ts_state i = RUNNING) /\ (m !! t = None <-> ts_state i = LEFT \/ ts_state i = OFFLINE)).
  { intros t i Ht Hi. destruct (decide (t ∈ l)) as [[k Hk]%list_elem_of_lookup|Hl].
    - rewrite (bi_status _ _ _ _ I k t i Hk Hi). unfold status. destruct (ts_state i), (Z.of_nat k <? curThreadIdx b); naive_solver.
    - rewrite (bi_outside _ _ _ _ I t Hl). destruct (decide (ts_state i = OFFLINE)) as [->|Hoff]; [naive_solver|]. by apply (bi_in _ _ _ _ I t i Ht Hi) in Hoff. }
  split; [done|]. split; [done|]. split; [|split; [rewrite <- (bi_running _ _ _ _ I), <- Hpar; apply (bi_bound _ _ _ _ I)|split]].
  - intros t i Ht Hi Hs. unfold after_wait. rewrite (at_ret _ _ i) by done. cbn [mbind outcome_bind]. destruct (bi_futex _ _ _ _ I _ _ Hi) as [Hw Hr]. destruct (Hst t i Ht Hi) as [Hact _]. destruct Hs as [Hs|Hs].
    + rewrite (Hw Hs). simpl. rewrite bool_decide_false; [done|]. rewrite Hact, Hs. done.
    + rewrite (Hr Hs). simpl. rewrite (bool_decide_true (ts_state i = RUNNING)) by done. simpl. rewrite bool_decide_true; [done|]. by apply Hact.
  - intros Hne. pose proof (Hm Hne) as Hpos. rewrite (bi_running _ _ _ _ I) in Hpos. destruct (count_b_exists _ _ Hpos) as (t & i & Hi & Hs). apply bool_decide_eq_true in Hs. exists (Z.of_nat t). apply (Hst (Z.of_nat t) i); [lia|by rewrite Nat2Z.id|done].
  - assert (Hops : forall op, bar_allowed b op = true -> exists b' evs', bar_do randInt b op = Ret (b', evs') /\ match op with Join _ => PhaseEnds ∉ evs' | _ => True end).
    { intros op Ha. destruct (op_does randInt early b l g m op Hrnd I Hm Ha) as (b' & evs' & _ & _ & _ & E & _ & _ & _ & _ & Hj & _). by exists b', evs'. }
    intros t i Hi. split_and!; intros Hs.
    + destruct (Hops (Sync t)) as (b' & evs' & E & _); [cbn [bar_allowed]; rewrite Hi; by apply bool_decide_eq_true|by exists b', evs'].
    + destruct (Hops (Leave t)) as (b' & evs' & E & _); [cbn [bar_allowed]; rewrite Hi; unfold in_state; destruct Hs as [-> | ->]; done|by exists b', evs'].
    + apply (Hops (Join t)). cbn [bar_allowed]. rewrite Hi. unfold in_state. destruct Hs as [-> |[Hs Hr]]; [done|]. rewrite Hs. simpl. destruct Hr as [He|Hr]; [|done].
      apply at_ret_iff in Hi as [Ht Hi]. by apply (left_recorded b l g m t i I).
Qed.

Fixpoint bar_run (randInt : nat -> Z -> Z) (ops : list bar_op) (b : Barrier) (evs : list bar_event) (early : gset Z) : outcome (Barrier * list bar_event * gset Z) :=
  match ops with
  | [] => Ret (b, evs, early)
  | op :: ops => _ ← assert_ (bar_allowed b op); '(b', evs') ← bar_do randInt b op; bar_run randInt ops b' (evs ++ evs') (early_after early b op)
  end.

Lemma bar_run_history randInt parallel ops b evs early b' evs' early' :
  bar_history randInt parallel b evs early -> bar_run randInt ops b evs early = Ret (b', evs', early') -> bar_history randInt parallel b' evs' early'.
Proof.
  revert b evs early. induction ops as [|op ops IH]; intros b evs early Hh; cbn [bar_run]; [intros [= <- <- <-]; done|]. intros Hr. apply bind_ret_inv in Hr as (u & Ha & Hr). apply assert_ret_inv in Ha.
  apply bind_ret_inv in Hr as ([b1 e1] & Hd & Hr). by apply (IH b1 (evs ++ e1) (early_after early b op)); [eapply bh_do|].
Qed.

(** Three threads of which two run at once, over two phases; thread 3 joins and leaves
    again before it is woken. *)
Definition demo_bar_ops : list bar_op := [Join 0; Join 1; Join 2; Join 3; Leave 3; Sync 0; Leave 1; Join 1; Sync 2; Sync 1].
Definition demo_bar : Barrier * list bar_event * gset Z := ret_or (newBarrier 2, [], ∅) (bar_run (fun _ i => i) demo_bar_ops (newBarrier 2) [] ∅).

Lemma barrier_refines_witness :
  exists m, phase_run demo_bar.1.2 ∅ = Some m /\
    demo_bar.1.2 = [Joins 0; Wakes 0; Joins 1; Wakes 1; Joins 2; Joins 3; Leaves 3; Syncs 0; Wakes 2; Leaves 1; Joins 1; Wakes 1; Syncs 2; Syncs 1; PhaseEnds; Wakes 0; Wakes 1].
Proof.
  destruct (barrier_refines (fun _ i => i) 2 demo_bar.1.1 demo_bar.1.2 demo_bar.2) as (m & Hm & _); [intros; lia|lia| |].
  - apply (bar_run_history _ _ demo_bar_ops (newBarrier 2) [] ∅); [constructor|]. vm_compute. reflexivity.
  - exists m. split; [exact Hm|]. vm_compute. reflexivity.
Defined.

(** A thread that leaves the barrier while it still waits for its first turn does not
    remember its place: if the list has been passed beyond the place it has recorded, its next join stops
    at the assertion on the place. *)
Lemma barrier_early_leave_breaks_join randInt parallel b evs early t i :
  (forall k i, 0 <= i -> 0 <= randInt k i <= i) -> 1 <= parallel < 2 ^ 32 -> bar_history randInt parallel b evs early ->
  at_ (threadList b) t = Ret i -> ts_state i = WAITING -> 0 <= lastIdx i < curThreadIdx b -> at_ (runList b) (lastIdx i) <> Ret t ->
  exists b', bar_leave randInt b t = Ret (b', [Leaves t]) /\ bar_join randInt b' t = Stop AssertFailed.
Proof.
  intros Hrnd Hp Hh Hi Hw Hl Hat. destruct (history_is randInt parallel b evs early Hrnd Hp Hh) as (l & g & m & I & _). pose proof Hi as Hi'. apply at_ret_iff in Hi' as [Ht Hi']. pose proof (lookup_lt_Some _ _ _ Hi') as Htl.
  unfold bar_leave. rewrite Hi. cbn [mbind outcome_bind]. rewrite (bool_decide_false (ts_state i = RUNNING)) by congruence. rewrite bool_decide_true by done. cbn [assert_ mbind outcome_bind]. erewrite set_ts_state_ret by done. cbn [mbind outcome_bind].
  eexists. split; [done|]. unfold bar_join. cbn [with_left with_threads threadList]. rewrite (at_ret _ t (mkTSI LEFT (futexWord i) (lastIdx i))) by (done || by apply list_lookup_insert_eq). cbn [mbind outcome_bind ts_state].
  rewrite (bool_decide_true (LEFT = LEFT \/ LEFT = OFFLINE)) by (by left). rewrite (bool_decide_false (LEFT = OFFLINE)) by done. cbn [assert_ mbind outcome_bind]. rewrite same_phase_join_left. unfold same_phase_join. cbn [with_threads with_left threadList runList curThreadIdx].
  rewrite (at_ret _ t (mkTSI LEFT (futexWord i) (lastIdx i))) by (done || by apply list_lookup_insert_eq). cbn [mbind outcome_bind lastIdx]. rewrite (proj2 (Z.ltb_lt _ _)) by lia. pose proof (bi_cur _ _ _ _ I). rewrite (bi_list _ _ _ _ I) in *.
  destruct (at_in_range (l ++ g) (lastIdx i)) as [u Hu]; [rewrite length_app; lia|]. rewrite Hu. cbn [mbind outcome_bind]. rewrite (proj2 (Z.eqb_neq t u)) by congruence. done.
Qed.

Definition demo_early : Barrier * list bar_event * gset Z := ret_or (newBarrier 1, [], ∅) (bar_run (fun _ i => i) [Join 0; Join 1] (newBarrier 1) [] ∅).

Lemma barrier_early_leave_breaks_join_witness : exists b', bar_leave (fun _ i => i) demo_early.1.1 1 = Ret (b', [Leaves 1]) /\ bar_join (fun _ i => i) b' 1 = Stop AssertFailed.
Proof.
  apply (barrier_early_leave_breaks_join (fun _ i => i) 1 demo_early.1.1 demo_early.1.2 demo_early.2 1 (mkTSI WAITING 1 0)); [intros; lia|lia| |vm_compute; reflexivity|reflexivity|vm_compute; split; [intros H; discriminate H|reflexivity]|].
  - apply (bar_run_history _ _ [Join 0; Join 1] (newBarrier 1) [] ∅); [constructor|]. vm_compute. reflexivity.
  - apply (bool_decide_unpack _). vm_compute. exact I.
Defined.
