(* ===== verification/MtRand.v ===== *)
(** * The random number generator

    [MTRand] of src/src/mtrand.h, the Mersenne twister that the barrier, the thread
    scheduler, the hash families and the random replacement policy draw from: seeding,
    the in-place generation of 624 words, tempering, numbers in a range, saving and
    loading.  The theorems relate the outputs to the recurrence of the
    generator, show that tempering can be undone, so that 624 outputs reveal the state,
    and what numbers in a range are.  The floating-point functions and the seeding from
    the operating system are left out. *)

From S2P Require Import Prelude Bits.

Definition N_ : Z := 624.
Definition M_ : Z := 397.

(** [pNext] is an index into [state]. *)
Record MTRand : Type := mkMT { mt_state : list Z; pNext : Z; mt_left : Z }.

#[export] Instance MTRand_eq_dec : EqDecision MTRand.
Proof. solve_decision. Defined.

Definition hiBit (u : Z) : Z := Z.land u 0x80000000.
Definition loBit (u : Z) : Z := Z.land u 0x00000001.
Definition loBits (u : Z) : Z := Z.land u 0x7fffffff.
Definition mixBits (u v : Z) : Z := Z.lor (hiBit u) (loBits v).
Definition magic (u : Z) : Z := if loBit u =? 0 then 0 else 0x9908b0df.
Definition twist (m s0 s1 : Z) : Z := Z.lxor (Z.lxor m (Z.shiftr (mixBits s0 s1) 1)) (magic s1).

(** ** Seeding *)

(** [r] is the word before the one that is written. *)
Fixpoint init_loop (n : nat) (i r : Z) : list Z :=
  match n with
  | O => []
  | S n => let v := Z.land (u64 (1812433253 * Z.lxor r (Z.shiftr r 30) + i)) 0xffffffff in v :: init_loop n (i + 1) v
  end.

Definition initialize (seed : Z) : list Z := let s := Z.land seed 0xffffffff in s :: init_loop (Z.to_nat (N_ - 1)) 1 s.

(** One assignment of [reload] to the word at [p]; [m] and [s] are the indices of the other
    words. *)
Definition reload_word (st : list Z) (p m s : Z) : outcome (list Z) :=
  xm ← at_ st m; x0 ← at_ st p; x1 ← at_ st s; set_at st p (twist xm x0 x1).

Definition reload (g : MTRand) : outcome MTRand :=
  st ← fold_ (fun st p => reload_word st p (p + M_) (p + 1)) (seqZ 0 (N_ - M_)) (mt_state g);
  st ← fold_ (fun st p => reload_word st p (p + (M_ - N_)) (p + 1)) (seqZ (N_ - M_) (M_ - 1)) st;
  st ← reload_word st (N_ - 1) (N_ - 1 + (M_ - N_)) 0;
  Ret (mkMT st 0 N_).

Definition seed_one (oneSeed : Z) : outcome MTRand := reload (mkMT (initialize oneSeed) 0 0).

(** The two loops of seeding with an array; the second has no array. *)
Fixpoint seed_loop (k : nat) (bigSeed : list Z) (st : list Z) (i j : Z) : outcome (list Z * Z) :=
  match k with
  | O => Ret (st, i)
  | S k =>
      x ← at_ st i;
      w ← at_ st (i - 1);
      b ← at_ bigSeed j;
      st ← set_at st i (Z.land (u64 (Z.lxor x (u64 (Z.lxor w (Z.shiftr w 30) * 1664525)) + (Z.land b 0xffffffff + j))) 0xffffffff);
      st ← if N_ <=? i + 1 then l ← at_ st (N_ - 1); set_at st 0 l else Ret st;
      seed_loop k bigSeed st (if N_ <=? i + 1 then 1 else i + 1) (if Z.of_nat (length bigSeed) <=? j + 1 then 0 else j + 1)
  end.

Fixpoint mix_loop (k : nat) (st : list Z) (i : Z) : outcome (list Z) :=
  match k with
  | O => Ret st
  | S k =>
      x ← at_ st i;
      w ← at_ st (i - 1);
      st ← set_at st i (Z.land (u64 (Z.lxor x (u64 (Z.lxor w (Z.shiftr w 30) * 1566083941)) - i)) 0xffffffff);
      st ← if N_ <=? i + 1 then l ← at_ st (N_ - 1); set_at st 0 l else Ret st;
      mix_loop k st (if N_ <=? i + 1 then 1 else i + 1)
  end.

(** The loop counter [k] is an [int] in the code, which has the length of an array of fewer
    than 2^31 words. *)
Definition seed_array (bigSeed : list Z) : outcome MTRand :=
  let k := if Z.of_nat (length bigSeed) <? N_ then N_ else Z.of_nat (length bigSeed) in
  '(st, i) ← seed_loop (Z.to_nat k) bigSeed (initialize 19650218) 1 0;
  st ← mix_loop (Z.to_nat (N_ - 1)) st i;
  st ← set_at st 0 0x80000000;
  reload (mkMT st 0 0).

(** The hash of time and clock, over their bytes; [differ] is the static counter. *)
Definition hash_bytes (x : Z) : Z := foldl (fun h i => u64 (u64 (h * 257) + Z.land (Z.shiftr x (8 * i)) 255)) 0 (seqZ 0 8).
Definition mt_hash (t c differ : Z) : Z * Z := (Z.lxor (u64 (hash_bytes t + differ)) (hash_bytes c), u64 (differ + 1)).

(** ** Drawing numbers *)

Definition temper (s1 : Z) : Z :=
  let s1 := Z.lxor s1 (Z.shiftr s1 11) in
  let s1 := Z.lxor s1 (Z.land (u64 (Z.shiftl s1 7)) 0x9d2c5680) in
  let s1 := Z.lxor s1 (Z.land (u64 (Z.shiftl s1 15)) 0xefc60000) in
  Z.lxor s1 (Z.shiftr s1 18).

Definition randInt (g : MTRand) : outcome (Z * MTRand) :=
  g ← if mt_left g =? 0 then reload g else Ret g;
  s1 ← at_ (mt_state g) (pNext g);
  Ret (temper s1, mkMT (mt_state g) (pNext g + 1) (mt_left g - 1)).

(** The mask of the bits that are used in [n]. *)
Definition used_bits (n : Z) : Z :=
  let used := Z.lor n (Z.shiftr n 1) in
  let used := Z.lor used (Z.shiftr used 2) in
  let used := Z.lor used (Z.shiftr used 4) in
  let used := Z.lor used (Z.shiftr used 8) in
  Z.lor used (Z.shiftr used 16).

Fixpoint draw_loop (fuel : nat) (used n : Z) (g : MTRand) : outcome (Z * MTRand) :=
  match fuel with
  | O => Stop OutOfFuel
  | S fuel => '(r, g) ← randInt g; let i := Z.land r used in if n <? i then draw_loop fuel used n g else Ret (i, g)
  end.

Definition randInt_upto (fuel : nat) (n : Z) (g : MTRand) : outcome (Z * MTRand) := draw_loop fuel (used_bits n) n g.

(** ** Saving and loading *)

Definition save (g : MTRand) : list Z := mt_state g ++ [mt_left g].

Definition load (a : list Z) : outcome MTRand :=
  let st := take (Z.to_nat N_) a in
  left ← at_ a N_;
  Ret (mkMT st (N_ - left) left).

(** The copy constructor and the assignment operator. *)
Definition copy (g : MTRand) : MTRand := mkMT (mt_state g) (N_ - mt_left g) (mt_left g).

(** ** The specification

    The sequence of words: the first 624 are given, a later one is the twist of three
    before it. *)

Fixpoint words_upto (s : list Z) (k : nat) : list Z :=
  match k with
  | O => s
  | S k => let l := words_upto s k in l ++ [twist (l !!! (k + 397)%nat) (l !!! k) (l !!! S k)]
  end.

Definition mt_word (s : list Z) (n : nat) : Z := words_upto s n !!! n.

Lemma length_words_upto s k : length (words_upto s k) = (length s + k)%nat.
Proof. induction k as [|k IH]; simpl; [lia|]. rewrite length_app, IH. simpl. lia. Qed.

Lemma words_upto_lookup s k n j : (j < length s + k)%nat -> (k <= n)%nat -> words_upto s n !!! j = words_upto s k !!! j.
Proof.
  intros Hj Hkn. induction Hkn as [|n Hkn IH]; [done|]. simpl. rewrite lookup_total_app_l by (rewrite length_words_upto; lia). exact IH.
Qed.

Lemma words_upto_word s k j : (0 < length s)%nat -> (j < length s + k)%nat -> words_upto s k !!! j = mt_word s j.
Proof. intros Hs Hj. unfold mt_word. destruct (Nat.le_gt_cases k j); [symmetry|]; apply words_upto_lookup; lia. Qed.

(** The recurrence of the Mersenne twister. *)
Lemma mt_word_rec s n : length s = 624%nat -> mt_word s (n + 624) = twist (mt_word s (n + 397)) (mt_word s n) (mt_word s (S n)).
Proof.
  intros Hs. rewrite <- (words_upto_word s (S n) (n + 624)) by lia. cbn [words_upto]. rewrite lookup_total_app_r by (rewrite length_words_upto; lia). rewrite length_words_upto, Hs.
  replace (n + 624 - (624 + n))%nat with 0%nat by lia. simpl. rewrite !words_upto_word by lia. done.
Qed.

Lemma mt_word_start s n : (n < length s)%nat -> mt_word s n = s !!! n.
Proof. intros Hn. rewrite <- (words_upto_word s 0) by lia. done. Qed.

(** The words from [n] on are those of the sequence that starts there. *)
Definition window (s : list Z) (n : nat) : list Z := (fun j => mt_word s (n + j)) <$> seq 0 624.

Lemma window_lookup s n j : (j < 624)%nat -> window s n !! j = Some (mt_word s (n + j)).
Proof. intros Hj. unfold window. rewrite list_lookup_fmap, lookup_seq_lt by done. done. Qed.

Lemma length_window s n : length (window s n) = 624%nat.
Proof. unfold window. by rewrite length_fmap, length_seq. Qed.

Lemma window_0 s : length s = 624%nat -> window s 0 = s.
Proof.
  intros Hs. apply list_eq_same_length with 624%nat; [done|apply length_window|]. intros i x y Hi Hx Hy. rewrite window_lookup in Hx by done. injection Hx as <-.
  simpl. rewrite mt_word_start by lia. by apply list_lookup_total_correct.
Qed.

(** ** Reloading *)

(** During [reload] the first [p] words are those of the next block. *)
Definition mixed (s : list Z) (n p : nat) : list Z := take p (window s (n + 624)) ++ drop p (window s n).

Lemma length_mixed s n p : (p <= 624)%nat -> length (mixed s n p) = 624%nat.
Proof. intros Hp. unfold mixed. rewrite length_app, length_take, length_drop, !length_window. lia. Qed.

Lemma mixed_lookup s n p j : (j < 624)%nat -> (p <= 624)%nat -> mixed s n p !! j = Some (mt_word s (if (j <? p)%nat then n + 624 + j else n + j)).
Proof.
  intros Hj Hp. unfold mixed. destruct (Nat.ltb_spec j p).
  - rewrite lookup_app_l by (rewrite length_take, length_window; lia). rewrite lookup_take_lt by done. by apply window_lookup.
  - rewrite lookup_app_r by (rewrite length_take, length_window; lia). rewrite length_take, length_window, Nat.min_l by lia. rewrite lookup_drop, window_lookup by lia. do 2 f_equal. lia.
Qed.

Lemma mixed_step s n p : (p < 624)%nat -> <[p := mt_word s (n + 624 + p)]> (mixed s n p) = mixed s n (S p).
Proof.
  intros Hp. apply list_eq_same_length with 624%nat; [by rewrite length_mixed by lia|by rewrite length_insert, length_mixed by lia|]. intros j y x Hj Hy Hx. rewrite mixed_lookup in Hx by lia. injection Hx as <-.
  destruct (decide (j = p)) as [->|Hne].
  - rewrite list_lookup_insert_eq in Hy by (rewrite length_mixed; lia). injection Hy as <-. by rewrite (proj2 (Nat.ltb_lt _ _)) by lia.
  - rewrite list_lookup_insert_ne, mixed_lookup in Hy by lia. injection Hy as <-. destruct (Nat.ltb_spec j (S p)), (Nat.ltb_spec j p); done || lia.
Qed.

Lemma mixed_full s n : mixed s n 624 = window s (n + 624).
Proof. unfold mixed. rewrite take_ge, drop_ge by (rewrite length_window; lia). apply app_nil_r. Qed.

(** Each assignment writes the next word of the sequence. *)
Lemma reload_word_ok s n p m x : length s = 624%nat -> 0 <= p < 624 -> 0 <= m < 624 -> 0 <= x < 624 ->
  (m = p + 397 \/ m = p - 227) -> x = (if p =? 623 then 0 else p + 1) ->
  reload_word (mixed s n (Z.to_nat p)) p m x = Ret (mixed s n (S (Z.to_nat p))).
Proof.
  intros Hs Hp Hm Hx Hmp Hxp. unfold reload_word.
  rewrite (at_ret _ m (mt_word s (n + Z.to_nat p + 397))).
  2: lia.
  2: { rewrite mixed_lookup by lia. do 2 f_equal. destruct (Nat.ltb_spec (Z.to_nat m) (Z.to_nat p)); lia. }
  rewrite (at_ret _ p (mt_word s (n + Z.to_nat p))).
  2: lia.
  2: { rewrite mixed_lookup by lia. do 2 f_equal. destruct (Nat.ltb_spec (Z.to_nat p) (Z.to_nat p)); lia. }
  rewrite (at_ret _ x (mt_word s (S (n + Z.to_nat p)))).
  2: lia.
  2: { rewrite mixed_lookup by lia. do 2 f_equal. destruct (p =? 623) eqn:E; zb; destruct (Nat.ltb_spec (Z.to_nat x) (Z.to_nat p)); lia. }
  cbn [mbind outcome_bind]. rewrite set_at_ret by (rewrite length_mixed; lia). rewrite <- mt_word_rec by done. f_equal. rewrite <- mixed_step by lia. do 2 f_equal. lia.
Qed.

Lemma reload_loop_ok s n (f : Z -> Z) lo len :
  length s = 624%nat -> 0 <= lo -> 0 <= len -> lo + len <= 623 -> (forall p, lo <= p < lo + len -> 0 <= f p < 624 /\ (f p = p + 397 \/ f p = p - 227)) ->
  fold_ (fun st p => reload_word st p (f p) (p + 1)) (seqZ lo len) (mixed s n (Z.to_nat lo)) = Ret (mixed s n (Z.to_nat (lo + len))).
Proof.
  intros Hs Hlo Hlen Hle Hf. remember (Z.to_nat len) as k eqn:Hk. revert lo len Hlo Hlen Hle Hf Hk. induction k as [|k IH]; intros lo len Hlo Hlen Hle Hf Hk.
  - rewrite seqZ_nil by lia. simpl. do 2 f_equal. lia.
  - rewrite seqZ_cons by lia. cbn [fold_]. destruct (Hf lo ltac:(lia)) as [Hr Hc]. rewrite reload_word_ok by (done || lia || (destruct (lo =? 623) eqn:E; zb; lia)). cbn [mbind outcome_bind].
    replace (S (Z.to_nat lo)) with (Z.to_nat (Z.succ lo)) by lia. rewrite IH by (lia || (intros p Hp; apply Hf; lia)). do 2 f_equal. lia.
Qed.

(** [reload] replaces a block of 624 words by the next one. *)
Lemma reload_ok s n pn lf : length s = 624%nat -> reload (mkMT (window s n) pn lf) = Ret (mkMT (window s (n + 624)) 0 624).
Proof.
  intros Hs. unfold reload. change (mt_state (mkMT (window s n) pn lf)) with (window s n). assert (E0 : window s n = mixed s n (Z.to_nat 0)) by (unfold mixed; by rewrite take_0, drop_0).
  rewrite E0, (reload_loop_ok s n (fun p => p + M_)) by (done || unfold N_, M_; lia || (intros; lia)). cbn [mbind outcome_bind].
  change (0 + (N_ - M_)) with (N_ - M_). rewrite (reload_loop_ok s n (fun p => p + (M_ - N_))) by (done || unfold N_, M_; lia || (intros; lia)). cbn [mbind outcome_bind].
  change (N_ - M_ + (M_ - 1)) with (N_ - 1). rewrite reload_word_ok by (done || unfold N_, M_; lia). cbn [mbind outcome_bind]. change (S (Z.to_nat (N_ - 1))) with 624%nat. by rewrite mixed_full.
Qed.

(** ** The outputs *)

Fixpoint draws (k : nat) (g : MTRand) : outcome (list Z * MTRand) :=
  match k with
  | O => Ret ([], g)
  | S k => '(r, g) ← randInt g; '(rs, g) ← draws k g; Ret (r :: rs, g)
  end.

(** The generator after [n] words of the sequence from [s] have been drawn: it holds a block
    of which [left] words remain. *)
Definition drawn (s : list Z) (n : nat) (g : MTRand) : Prop :=
  exists b : nat, mt_state g = window s b /\ 0 <= mt_left g <= 624 /\ pNext g = 624 - mt_left g /\ Z.of_nat n = Z.of_nat b + pNext g.

Lemma randInt_ok s n g : length s = 624%nat -> drawn s n g -> exists g', randInt g = Ret (temper (mt_word s n), g') /\ drawn s (S n) g'.
Proof.
  intros Hs (b & Hst & Hl & Hp & Hn). unfold randInt. destruct (mt_left g =? 0) eqn:E; zb.
  - destruct g as [st pn lf]. simpl in *. subst st. rewrite (reload_ok s b) by done. cbn [mbind outcome_bind mt_state pNext mt_left].
    rewrite (at_ret _ 0 (mt_word s n)); [|lia|rewrite window_lookup by lia; do 2 f_equal; lia]. cbn [mbind outcome_bind]. eexists. split; [done|]. exists (b + 624)%nat. simpl. split_and!; try done; lia.
  - cbn [mbind outcome_bind]. rewrite Hst. rewrite (at_ret _ (pNext g) (mt_word s n)); [|lia|rewrite window_lookup by lia; do 2 f_equal; lia]. cbn [mbind outcome_bind].
    eexists. split; [done|]. exists b. simpl. split_and!; try done; lia.
Qed.

Lemma draws_ok s n g k : length s = 624%nat -> drawn s n g -> exists g', draws k g = Ret ((fun j => temper (mt_word s j)) <$> seq n k, g') /\ drawn s (n + k) g'.
Proof.
  intros Hs. revert n g. induction k as [|k IH]; intros n g Hd; cbn [draws seq fmap list_fmap]; [exists g; rewrite Nat.add_0_r; done|].
  destruct (randInt_ok s n g Hs Hd) as (g1 & -> & Hd1). cbn [mbind outcome_bind]. destruct (IH (S n) g1 Hd1) as (g2 & -> & Hd2). cbn [mbind outcome_bind]. exists g2. split; [done|]. by replace (n + S k)%nat with (S n + k)%nat by lia.
Qed.

Lemma length_init_loop n i r : length (init_loop n i r) = n.
Proof. revert i r. induction n as [|n IH]; intros i r; simpl; [done|]. by rewrite IH. Qed.

Lemma length_initialize seed : length (initialize seed) = 624%nat.
Proof. unfold initialize. cbn [length]. by rewrite length_init_loop. Qed.

Lemma reload_drawn s pn lf : length s = 624%nat -> exists g, reload (mkMT s pn lf) = Ret g /\ drawn s 624 g.
Proof.
  intros Hs. pose proof (reload_ok s 0 pn lf Hs) as E. rewrite window_0 in E by done. rewrite E. eexists. split; [done|]. exists 624%nat. simpl. split_and!; try done; lia.
Qed.

(** ** Words of 32 bits *)

Definition word32 (x : Z) : Prop := 0 <= x < 2 ^ 32.

Lemma lor_bound n x y : 0 <= n -> 0 <= x < 2 ^ n -> 0 <= y < 2 ^ n -> 0 <= Z.lor x y < 2 ^ n.
Proof.
  intros Hn Hx Hy. assert (0 <= Z.lor x y) by (apply Z.lor_nonneg; lia). split; [done|]. apply testbit_bound; [done|done|].
  intros i Hi. by rewrite Z.lor_spec, (testbit_high x n), (testbit_high y n) by lia.
Qed.

Lemma land_bound n x y : 0 <= n -> 0 <= y < 2 ^ n -> 0 <= Z.land x y < 2 ^ n.
Proof.
  intros Hn Hy. assert (0 <= Z.land x y) by (apply Z.land_nonneg; lia). split; [done|]. apply testbit_bound; [done|done|].
  intros i Hi. by rewrite Z.land_spec, (testbit_high y n), andb_false_r by lia.
Qed.

Lemma shiftr_bound n x k : 0 <= n -> 0 <= k -> 0 <= x < 2 ^ n -> 0 <= Z.shiftr x k < 2 ^ n.
Proof. intros Hn Hk Hx. rewrite Z.shiftr_div_pow2 by done. assert (0 < 2 ^ k) by lia. split; [apply Z.div_pos; lia|]. apply Z.le_lt_trans with x; [|lia]. apply Z.div_le_upper_bound; nia. Qed.

Lemma twist_word m s0 s1 : word32 m -> word32 (twist m s0 s1).
Proof.
  intros Hm. unfold twist, mixBits, hiBit, loBits. apply lxor_bound; unfold in_u; [lia| |unfold magic; destruct (_ =? _); lia]. apply lxor_bound; unfold in_u; [lia|exact Hm|]. apply shiftr_bound; [lia|lia|]. apply lor_bound; [lia| |]; apply land_bound; lia.
Qed.

Lemma temper_word x : word32 x -> word32 (temper x).
Proof.
  intros Hx. unfold temper. cbv zeta. assert (H1 : 0 <= Z.lxor x (Z.shiftr x 11) < 2 ^ 32) by (apply lxor_bound; unfold in_u; [lia|exact Hx|apply shiftr_bound; [lia|lia|exact Hx]]). set (a := Z.lxor x _) in *.
  assert (H2 : 0 <= Z.lxor a (Z.land (u64 (Z.shiftl a 7)) 0x9d2c5680) < 2 ^ 32) by (apply lxor_bound; unfold in_u; [lia|done|apply land_bound; lia]). set (b := Z.lxor a _) in *.
  assert (H3 : 0 <= Z.lxor b (Z.land (u64 (Z.shiftl b 15)) 0xefc60000) < 2 ^ 32) by (apply lxor_bound; unfold in_u; [lia|done|apply land_bound; lia]). set (c := Z.lxor b _) in *.
  apply lxor_bound; unfold in_u; [lia|done|apply shiftr_bound; [lia|lia|done]].
Qed.

Lemma mt_word_32 s n : length s = 624%nat -> Forall word32 s -> word32 (mt_word s n).
Proof.
  intros Hs Hf. induction n as [n IH] using (well_founded_induction lt_wf). destruct (Nat.lt_ge_cases n 624) as [Hn|Hn].
  - rewrite mt_word_start by lia. destruct (lookup_lt_is_Some_2 s n) as [x Hx]; [lia|]. rewrite (list_lookup_total_correct _ _ _ Hx). by apply (proj1 (Forall_lookup _ _) Hf n).
  - replace n with (n - 624 + 624)%nat by lia. rewrite mt_word_rec by done. apply twist_word, IH. lia.
Qed.

Lemma init_loop_words n i r : Forall word32 (init_loop n i r).
Proof. revert i r. induction n as [|n IH]; intros i r; cbn [init_loop]; constructor; [|apply IH]. apply land_bound; lia. Qed.

Lemma initialize_words seed : Forall word32 (initialize seed).
Proof. unfold initialize. constructor; [apply land_bound; lia|apply init_loop_words]. Qed.

(** ** Tempering is a bijection

    Both directions are linear over exclusive or, so it is enough to look at the powers of
    two. *)

Definition linear (f : Z -> Z) : Prop := f 0 = 0 /\ forall x y, f (Z.lxor x y) = Z.lxor (f x) (f y).

Lemma linear_ext n f g : linear f -> linear g -> (forall i, 0 <= i < Z.of_nat n -> f (2 ^ i) = g (2 ^ i)) -> forall x, 0 <= x < 2 ^ Z.of_nat n -> f x = g x.
Proof.
  intros [Hf0 Hf] [Hg0 Hg] Hb. induction n as [|n IH]; intros x Hx; [change (2 ^ Z.of_nat 0) with 1 in Hx; assert (x = 0) as -> by lia; congruence|].
  assert (Hp : 2 ^ Z.of_nat (S n) = 2 * 2 ^ Z.of_nat n) by (rewrite Nat2Z.inj_succ, Z.pow_succ_r by lia; done).
  assert (0 < 2 ^ Z.of_nat n) by lia. destruct (Z.lt_ge_cases x (2 ^ Z.of_nat n)) as [Hlt|Hge]; [apply IH; [intros; apply Hb; lia|lia]|].
  assert (Hsum : x = Z.lxor (2 ^ Z.of_nat n) (x - 2 ^ Z.of_nat n)).
  { rewrite <- Z.add_nocarry_lxor; [lia|]. apply Z.bits_inj'. intros i Hi. rewrite Z.land_spec, Z.bits_0. destruct (decide (i = Z.of_nat n)) as [->|Hne]; [rewrite (testbit_high (x - _) (Z.of_nat n)) by lia; apply andb_false_r|].
    rewrite Z.pow2_bits_false by lia. done. }
  rewrite Hsum, Hf, Hg. rewrite Hb by lia. f_equal. apply IH; [intros; apply Hb; lia|lia].
Qed.

Lemma linear_id : linear (fun x => x).
Proof. done. Qed.

Lemma linear_lxor f g : linear f -> linear g -> linear (fun x => Z.lxor (f x) (g x)).
Proof.
  intros [Hf0 Hf] [Hg0 Hg]. split; [by rewrite Hf0, Hg0|]. intros x y. rewrite Hf, Hg, !Z.lxor_assoc. f_equal. rewrite <- !Z.lxor_assoc. f_equal. apply Z.lxor_comm.
Qed.

Lemma linear_shiftr f k : 0 <= k -> linear f -> linear (fun x => Z.shiftr (f x) k).
Proof. intros Hk [Hf0 Hf]. split; [by rewrite Hf0, Z.shiftr_0_l|]. intros x y. by rewrite Hf, Z.shiftr_lxor. Qed.

Lemma linear_shiftl f k : 0 <= k -> linear f -> linear (fun x => u64 (Z.shiftl (f x) k)).
Proof.
  intros Hk [Hf0 Hf]. unfold u64, wrap. split; [by rewrite Hf0, Z.shiftl_0_l|]. intros x y. rewrite Hf, Z.shiftl_lxor, <- !Z.land_ones by lia.
  apply Z.bits_inj'. intros i Hi. rewrite !Z.land_spec, !Z.lxor_spec, !Z.land_spec. by destruct (Z.testbit (Z.shiftl (f x) k) i), (Z.testbit (Z.shiftl (f y) k) i), (Z.testbit _ i).
Qed.

Lemma linear_land f c : linear f -> linear (fun x => Z.land (f x) c).
Proof.
  intros [Hf0 Hf]. split; [by rewrite Hf0, Z.land_0_l|]. intros x y. rewrite Hf. apply Z.bits_inj'. intros i Hi. rewrite !Z.land_spec, !Z.lxor_spec, !Z.land_spec.
  by destruct (Z.testbit (f x) i), (Z.testbit (f y) i), (Z.testbit c i).
Qed.

Ltac prove_linear := repeat first [apply linear_id | apply linear_lxor | apply linear_land | (apply linear_shiftr; [lia|]) | (apply linear_shiftl; [lia|])].

(** The inverse of each of the four steps of [temper], in reverse order. *)
Definition undo_right (k : Z) (y t : Z) : Z := Z.lxor y (Z.shiftr t k).
Definition undo_left (k mask : Z) (y t : Z) : Z := Z.lxor y (Z.land (u64 (Z.shiftl t k)) mask).

Definition untemper (y : Z) : Z :=
  let y := undo_right 18 y y in
  let y := undo_left 15 0xefc60000 y y in
  let back := undo_left 7 0x9d2c5680 y in
  let y := back (back (back (back y))) in
  undo_right 11 y (undo_right 11 y y).

Lemma linear_temper : linear temper.
Proof. unfold temper. cbv zeta. prove_linear. Qed.

Lemma linear_untemper : linear untemper.
Proof. unfold untemper, undo_left, undo_right. cbv zeta. prove_linear. Qed.

Lemma linear_compose f g : linear f -> linear g -> linear (fun x => g (f x)).
Proof. intros [Hf0 Hf] [Hg0 Hg]. split; [by rewrite Hf0|]. intros x y. by rewrite Hf, Hg. Qed.

Lemma powers_check (f : Z -> Z) n : forallb (fun i => f (2 ^ i) =? 2 ^ i) (zrange n) = true -> forall i, 0 <= i < Z.of_nat n -> f (2 ^ i) = 2 ^ i.
Proof. intros Hc i Hi. apply Z.eqb_eq. by apply (forallb_zrange (fun i => f (2 ^ i) =? 2 ^ i) n Hc). Qed.

Lemma untemper_temper x : word32 x -> untemper (temper x) = x.
Proof.
  intros Hx. apply (linear_ext 32 (fun x => untemper (temper x)) (fun x => x)); [apply (linear_compose temper untemper); [apply linear_temper|apply linear_untemper]|apply linear_id| |exact Hx].
  apply (powers_check (fun x => untemper (temper x)) 32). vm_compute. reflexivity.
Qed.

Lemma temper_untemper y : word32 y -> temper (untemper y) = y.
Proof.
  intros Hy. apply (linear_ext 32 (fun x => temper (untemper x)) (fun x => x)); [apply (linear_compose untemper temper); [apply linear_untemper|apply linear_temper]|apply linear_id| |exact Hy].
  apply (powers_check (fun x => temper (untemper x)) 32). vm_compute. reflexivity.
Qed.

(** ** Numbers in a range *)

(** [x] has the bits of [n] and those up to [w] - 1 below one of them. *)
Definition smeared (n x w : Z) : Prop := forall i, 0 <= i -> Z.testbit x i = true <-> exists j, i <= j < i + w /\ Z.testbit n j = true.

Lemma smear_step n x w : 0 < w -> smeared n x w -> smeared n (Z.lor x (Z.shiftr x w)) (2 * w).
Proof.
  intros Hw Hs i Hi. rewrite Z.lor_spec, orb_true_iff, Z.shiftr_spec by done. rewrite (Hs i Hi), (Hs (i + w)) by lia. split.
  - intros [(j & Hj & Hb)|(j & Hj & Hb)]; exists j; (split; [lia|done]).
  - intros (j & Hj & Hb). destruct (Z.lt_ge_cases j (i + w)); [left|right]; exists j; (split; [lia|done]).
Qed.

Lemma used_bits_smeared n : smeared n (used_bits n) 32.
Proof.
  unfold used_bits. cbv zeta. assert (H1 : smeared n n 1).
  { intros i Hi. split; [intros Hb; exists i; split; [lia|done]|]. intros (j & Hj & Hb). by assert (j = i) as -> by lia. }
  apply (smear_step n _ 1) in H1; [|lia]. apply (smear_step n _ 2) in H1; [|lia]. apply (smear_step n _ 4) in H1; [|lia]. apply (smear_step n _ 8) in H1; [|lia]. by apply (smear_step n _ 16) in H1; [|lia].
Qed.

Lemma used_bits_ones n : 0 < n < 2 ^ 32 -> used_bits n = Z.ones (Z.log2 n + 1).
Proof.
  intros Hn. assert (HL : 0 <= Z.log2 n < 32) by (split; [apply Z.log2_nonneg|apply Z.log2_lt_pow2; lia]). apply Z.bits_inj'. intros i Hi.
  destruct (Z.lt_ge_cases i (Z.log2 n + 1)) as [Hlt|Hge].
  - rewrite Z.ones_spec_low by lia. apply (used_bits_smeared n i Hi). exists (Z.log2 n). split; [lia|]. apply Z.bit_log2. lia.
  - rewrite Z.ones_spec_high by lia. apply not_true_iff_false. rewrite (used_bits_smeared n i Hi). intros (j & Hj & Hb). rewrite Z.bits_above_log2 in Hb by lia. done.
Qed.

Lemma used_bits_0 : used_bits 0 = 0.
Proof. done. Qed.

Lemma used_bits_cover n i : 0 <= n < 2 ^ 32 -> 0 <= i <= n -> Z.land i (used_bits n) = i.
Proof.
  intros Hn Hi. destruct (decide (n = 0)) as [->|Hn0]; [rewrite used_bits_0, Z.land_0_r; lia|]. pose proof (Z.log2_nonneg n). rewrite used_bits_ones, Z.land_ones by lia. apply Z.mod_small. destruct (Z.log2_spec n ltac:(lia)). rewrite Z.add_1_r. lia.
Qed.

(** The loop returns the first masked draw that is small enough. *)
Fixpoint first_upto (used n : Z) (rs : list Z) : option (Z * nat) :=
  match rs with
  | [] => None
  | r :: rs => if n <? Z.land r used then (fun x : Z * nat => (x.1, S x.2)) <$> first_upto used n rs else Some (Z.land r used, 1%nat)
  end.

Lemma draw_loop_ok s k g fuel used n : length s = 624%nat -> drawn s k g ->
  match first_upto used n ((fun j => temper (mt_word s j)) <$> seq k fuel) with
  | Some (i, c) => exists g', draw_loop fuel used n g = Ret (i, g') /\ drawn s (k + c) g'
  | None => draw_loop fuel used n g = Stop OutOfFuel
  end.
Proof.
  intros Hs. revert k g. induction fuel as [|fuel IH]; intros k g Hd; cbn [seq fmap list_fmap first_upto draw_loop]; [done|].
  destruct (randInt_ok s k g Hs Hd) as (g1 & -> & Hd1). cbn [mbind outcome_bind]. destruct (n <? Z.land (temper (mt_word s k)) used) eqn:E.
  - specialize (IH (S k) g1 Hd1). change (list_fmap Z Z) with (@fmap list _ Z Z) in *. destruct (first_upto used n _) as [[i c]|]; cbn [fmap option_fmap option_map fst snd].
    + destruct IH as (g' & E' & Hd'). exists g'. split; [done|]. by replace (k + S c)%nat with (S k + c)%nat by lia.
    + done.
  - exists g1. split; [done|]. by replace (k + 1)%nat with (S k) by lia.
Qed.

(** ** Well-formed generators *)

Record mt_ok (g : MTRand) : Prop := {
  mo_length : length (mt_state g) = 624%nat;
  mo_words : Forall word32 (mt_state g);
  mo_left : 0 <= mt_left g <= 624;
  mo_next : pNext g = 624 - mt_left g
}.

Lemma ok_drawn g : mt_ok g -> drawn (mt_state g) (Z.to_nat (pNext g)) g.
Proof. intros [Hl _ Hf Hn]. exists 0%nat. rewrite window_0 by done. split_and!; try done; lia. Qed.

Lemma window_words s n : length s = 624%nat -> Forall word32 s -> Forall word32 (window s n).
Proof. intros Hs Hw. unfold window. apply Forall_fmap, Forall_true. intros j. by apply mt_word_32. Qed.

Lemma drawn_ok s n g : length s = 624%nat -> Forall word32 s -> drawn s n g -> mt_ok g.
Proof. intros Hs Hw (b & Hst & Hl & Hp & _). constructor; [rewrite Hst; apply length_window|rewrite Hst; by apply window_words|done|done]. Qed.

Lemma seed_one_ok seed : exists g, seed_one seed = Ret g /\ drawn (initialize seed) 624 g.
Proof. apply reload_drawn, length_initialize. Qed.

(** One round of the seeding loops: the word at [i] is replaced, and the first one when the
    end is reached. *)
Lemma seed_round st i v (Q : list Z -> Prop) :
  length st = 624%nat -> Forall word32 st -> 1 <= i < 624 -> word32 v -> (forall st', length st' = 624%nat -> Forall word32 st' -> Q st') ->
  exists st', (st ← set_at st i v; if N_ <=? i + 1 then l ← at_ st (N_ - 1); set_at st 0 l else Ret st) = Ret st' /\ Q st'.
Proof.
  intros Hs Hw Hi Hv HQ. rewrite set_at_ret by lia. cbn [mbind outcome_bind]. assert (Hs1 : length (<[Z.to_nat i := v]> st) = 624%nat) by (by rewrite length_insert). assert (Hw1 : Forall word32 (<[Z.to_nat i := v]> st)) by (by apply Forall_insert).
  destruct (N_ <=? i + 1); [|eexists; split; [done|by apply HQ]]. destruct (at_in_range (<[Z.to_nat i := v]> st) (N_ - 1)) as [l Hl]; [rewrite Hs1; unfold N_; lia|]. rewrite Hl. cbn [mbind outcome_bind]. rewrite set_at_ret by lia.
  eexists. split; [done|]. apply HQ; [by rewrite length_insert|]. apply Forall_insert; [done|]. apply at_ret_iff in Hl as [_ Hl]. by apply (proj1 (Forall_lookup _ _) Hw1 _ _ Hl).
Qed.

Lemma next_index i : 1 <= i < 624 -> 1 <= (if N_ <=? i + 1 then 1 else i + 1) < 624.
Proof. intros Hi. unfold N_. destruct (624 <=? i + 1) eqn:E; zb; lia. Qed.

Lemma seed_loop_ok k big st i j : length st = 624%nat -> Forall word32 st -> 1 <= i < 624 -> 0 <= j < Z.of_nat (length big) ->
  exists st' i', seed_loop k big st i j = Ret (st', i') /\ length st' = 624%nat /\ Forall word32 st' /\ 1 <= i' < 624.
Proof.
  revert st i j. induction k as [|k IH]; intros st i j Hs Hw Hi Hj; cbn [seed_loop]; [by exists st, i|].
  destruct (at_in_range st i) as [x ->]; [lia|]. destruct (at_in_range st (i - 1)) as [w ->]; [lia|]. destruct (at_in_range big j) as [b ->]; [lia|]. cbn [mbind outcome_bind].
  set (v := Z.land _ 0xffffffff). assert (Hv : word32 v) by (apply land_bound; lia).
  destruct (seed_round st i v (fun st' => length st' = 624%nat /\ Forall word32 st') Hs Hw Hi Hv ltac:(done)) as (st1 & E & Hs1 & Hw1).
  apply bind_ret_inv in E as (st0 & -> & E). cbn [mbind outcome_bind]. rewrite E. cbn [mbind outcome_bind]. apply IH; [done|done|by apply next_index|]. destruct (Z.of_nat (length big) <=? j + 1) eqn:E2; zb; lia.
Qed.

Lemma mix_loop_ok k st i : length st = 624%nat -> Forall word32 st -> 1 <= i < 624 -> exists st', mix_loop k st i = Ret st' /\ length st' = 624%nat /\ Forall word32 st'.
Proof.
  revert st i. induction k as [|k IH]; intros st i Hs Hw Hi; cbn [mix_loop]; [by exists st|].
  destruct (at_in_range st i) as [x ->]; [lia|]. destruct (at_in_range st (i - 1)) as [w ->]; [lia|]. cbn [mbind outcome_bind].
  set (v := Z.land _ 0xffffffff). assert (Hv : word32 v) by (apply land_bound; lia).
  destruct (seed_round st i v (fun st' => length st' = 624%nat /\ Forall word32 st') Hs Hw Hi Hv ltac:(done)) as (st1 & E & Hs1 & Hw1).
  apply bind_ret_inv in E as (st0 & -> & E). cbn [mbind outcome_bind]. rewrite E. cbn [mbind outcome_bind]. apply IH; [done|done|by apply next_index].
Qed.

(** Seeding with an array never gives the state of zeros, from which the generator would not
    move. *)
Lemma seed_array_ok big : big <> [] -> exists s g, seed_array big = Ret g /\ reload (mkMT s 0 0) = Ret g /\ length s = 624%nat /\ Forall word32 s /\ s !! 0%nat = Some 0x80000000 /\ drawn s 624 g.
Proof.
  intros Hb. assert (0 < Z.of_nat (length big)) by (destruct big; [done|simpl; lia]). unfold seed_array. cbv zeta.
  set (k := Z.to_nat (if _ <? _ then _ else _)). destruct (seed_loop_ok k big (initialize 19650218) 1 0 (length_initialize _) (initialize_words _)) as (st & i & -> & Hs & Hw & Hi); [lia|lia|]. cbn [mbind outcome_bind].
  destruct (mix_loop_ok (Z.to_nat (N_ - 1)) st i Hs Hw Hi) as (st' & -> & Hs' & Hw'). cbn [mbind outcome_bind]. rewrite set_at_ret by lia. cbn [mbind outcome_bind].
  destruct (reload_drawn (<[Z.to_nat 0 := 0x80000000]> st') 0 0) as (g & Eg & Hd); [by rewrite length_insert|]. eexists _, g. split; [exact Eg|]. split; [exact Eg|]. split; [by rewrite length_insert|]. split; [apply Forall_insert; [done|unfold word32; lia]|].
  split; [|exact Hd]. apply list_lookup_insert_eq. simpl. lia.
Qed.

Lemma randInt_type g : mt_ok g -> exists r g', randInt g = Ret (r, g') /\ word32 r /\ mt_ok g'.
Proof.
  intros Hg. destruct (randInt_ok (mt_state g) _ g (mo_length _ Hg) (ok_drawn g Hg)) as (g' & E & Hd). eexists _, g'. split; [exact E|]. split; [apply temper_word, mt_word_32; apply Hg|]. eapply drawn_ok; [apply Hg|apply Hg|exact Hd].
Qed.

Lemma load_save g : mt_ok g -> load (save g) = Ret g.
Proof.
  intros [Hl _ Hf Hn]. unfold load, save. rewrite (at_ret _ N_ (mt_left g)); [|done|]. 2: { rewrite lookup_app_r by (rewrite Hl; unfold N_; lia). rewrite Hl. done. }
  cbn [mbind outcome_bind]. rewrite take_app_length' by (rewrite Hl; done). unfold N_. rewrite <- Hn. by destruct g.
Qed.

Lemma first_upto_range used n rs i c : first_upto used n rs = Some (i, c) -> i <= n /\ (c <= length rs)%nat.
Proof.
  revert i c. induction rs as [|r rs IH]; intros i c; cbn [first_upto]; [done|]. destruct (n <? Z.land r used) eqn:E; zb.
  - destruct (first_upto used n rs) as [[i' c']|]; [|done]. intros [= <- <-]. destruct (IH i' c' eq_refl). simpl. split; [done|lia].
  - intros [= <- <-]. simpl. lia.
Qed.

Lemma first_upto_nonneg used n rs i c : first_upto used n rs = Some (i, c) -> 0 <= used -> 0 <= i.
Proof.
  revert i c. induction rs as [|r rs IH]; intros i c; cbn [first_upto]; [done|]. destruct (n <? Z.land r used).
  - destruct (first_upto used n rs) as [[i' c']|]; [|done]. intros [= <- <-]. by apply (IH i' c').
  - intros [= <- <-] Hu. apply Z.land_nonneg. by right.
Qed.

Lemma used_bits_nonneg n : 0 <= n -> 0 <= used_bits n.
Proof. intros Hn. unfold used_bits. cbv zeta. repeat (apply Z.lor_nonneg; split); repeat (apply Z.shiftr_nonneg; repeat (apply Z.lor_nonneg; split)); done. Qed.

(** Masking with all ones never exceeds them. *)
Lemma mask_all k r : 0 <= k -> 0 <= 2 ^ k - 1 < 2 ^ 32 -> Z.land r (used_bits (2 ^ k - 1)) <= 2 ^ k - 1.
Proof.
  intros Hk Hn. destruct (decide (k = 0)) as [->|Hk0]; [change (2 ^ 0 - 1) with 0; rewrite used_bits_0, Z.land_0_r; lia|]. assert (1 < 2 ^ k) by (apply Z.pow_gt_1; lia).
  assert (HL : Z.log2 (2 ^ k - 1) = k - 1) by (apply Z.log2_unique; [lia|]; split; [|replace (Z.succ (k - 1)) with k by lia; lia]; replace k with (Z.succ (k - 1)) at 2 by lia; rewrite Z.pow_succ_r by lia; assert (0 < 2 ^ (k - 1)) by lia; lia).
  rewrite used_bits_ones, HL by lia. replace (k - 1 + 1) with k by lia. rewrite Z.land_ones by lia. pose proof (Z.mod_pos_bound r (2 ^ k)). lia.
Qed.

(** ** Theorems *)

(** C32: Every way of seeding gives a well-formed generator: 624 words of 32 bits and a
    position within them, and with an array of seeds not all words are zero.  Drawing a
    number keeps the generator well formed and returns a word of 32 bits; saving and
    loading, and copying, give the generator back. *)
Theorem generator_well_formed :
  (forall seed, exists g, seed_one seed = Ret g /\ mt_ok g) /\
  (forall big, big <> [] -> exists s g, seed_array big = Ret g /\ mt_ok g /\ reload (mkMT s 0 0) = Ret g /\ s !! 0%nat = Some 0x80000000) /\
  (forall g, mt_ok g -> (exists r g', randInt g = Ret (r, g') /\ word32 r /\ mt_ok g') /\ load (save g) = Ret g /\ copy g = g).
Proof.
  split; [|split].
  - intros seed. destruct (seed_one_ok seed) as (g & E & Hd). exists g. split; [exact E|]. eapply drawn_ok; [apply length_initialize|apply initialize_words|exact Hd].
  - intros big Hb. destruct (seed_array_ok big Hb) as (s & g & E & Er & Hl & Hw & H0 & Hd). exists s, g. split_and!; [done|by apply (drawn_ok s 624)|done|done].
  - intros g Hg. split; [by apply randInt_type|]. split; [by apply load_save|]. unfold copy. unfold N_. rewrite <- (mo_next _ Hg). by destruct g.
Qed.

(** C29: The numbers drawn after seeding are the tempered words of the recurrence of the
    Mersenne twister, x(n+624) = x(n+397) ^ twisted bits of x(n) and x(n+1), started with
    the words of the seed; generating them 624 at a time in place changes nothing. *)
Theorem outputs_follow_recurrence seed k :
  (exists g g', seed_one seed = Ret g /\ draws k g = Ret ((fun n => temper (mt_word (initialize seed) n)) <$> seq 624 k, g')) /\
  (forall n, (n < 624)%nat -> initialize seed !! n = Some (mt_word (initialize seed) n)) /\
  (forall n, mt_word (initialize seed) (n + 624) =
     Z.lxor (Z.lxor (mt_word (initialize seed) (n + 397)) (Z.shiftr (mixBits (mt_word (initialize seed) n) (mt_word (initialize seed) (S n))) 1)) (magic (mt_word (initialize seed) (S n)))).
Proof.
  split_and!.
  - destruct (seed_one_ok seed) as (g & E & Hd). destruct (draws_ok _ 624 g k (length_initialize seed) Hd) as (g' & E' & _). exists g, g'. split; [exact E|exact E'].
  - intros n Hn. rewrite mt_word_start by (by rewrite length_initialize). apply list_lookup_lookup_total_lt. by rewrite length_initialize.
  - intros n. apply mt_word_rec, length_initialize.
Qed.

(** The generator that an observer builds from 624 outputs. *)
Definition clone (ys : list Z) : MTRand := mkMT (untemper <$> ys) 624 0.

(** C30: Tempering can be undone, so whoever has seen 624 consecutive outputs of a generator in
    any state can predict all later ones. *)
Theorem outputs_reveal_state g ys g' k :
  mt_ok g -> draws 624 g = Ret (ys, g') -> exists zs g1 g2, draws k g' = Ret (zs, g1) /\ draws k (clone ys) = Ret (zs, g2).
Proof.
  intros Hg Hy. pose proof (mo_length _ Hg) as Hl. destruct (draws_ok _ _ g 624 Hl (ok_drawn g Hg)) as (g1 & E & Hd). rewrite E in Hy. injection Hy as <- <-. set (n := Z.to_nat (pNext g)) in *.
  assert (Hc : drawn (mt_state g) (n + 624) (clone ((fun j => temper (mt_word (mt_state g) j)) <$> seq n 624))).
  { exists n. unfold clone. cbn [mt_state mt_left pNext]. split; [|lia]. unfold window. apply list_eq. intros j. rewrite !list_lookup_fmap. destruct (Nat.lt_ge_cases j 624) as [Hj|Hj]; [|by rewrite !lookup_seq_ge].
    rewrite !lookup_seq_lt by done. simpl. f_equal. apply untemper_temper, mt_word_32; [done|apply (mo_words _ Hg)]. }
  destruct (draws_ok _ _ _ k Hl Hd) as (g2 & E2 & _). destruct (draws_ok _ _ _ k Hl Hc) as (g3 & E3 & _). eexists _, g2, g3. split; [exact E2|exact E3].
Qed.

Definition demo_gen : MTRand := ret_or (mkMT [] 0 0) (seed_one 5489).
Definition demo_outputs : list Z * MTRand := ret_or ([], demo_gen) (draws 624 demo_gen).

Lemma demo_gen_ok : mt_ok demo_gen.
Proof.
  destruct (seed_one_ok 5489) as (g & E & Hd). unfold demo_gen. rewrite E. eapply drawn_ok; [apply length_initialize|apply initialize_words|exact Hd].
Qed.

(** The published first outputs of MT19937 for its default seed. *)
Lemma known_outputs : (ret_or ([], demo_gen) (draws 5 demo_gen)).1 = [3499211612; 581869302; 3890346734; 3586334585; 545404204].
Proof. vm_compute. reflexivity. Qed.

Lemma outputs_reveal_state_witness : exists zs g1 g2, draws 3 demo_outputs.2 = Ret (zs, g1) /\ draws 3 (clone demo_outputs.1) = Ret (zs, g2).
Proof. apply (outputs_reveal_state demo_gen demo_outputs.1 demo_outputs.2 3); [exact demo_gen_ok|vm_compute; reflexivity]. Defined.

(** C31: A number in the range 0..n is the first draw that is small enough after masking it with
    the bits that [n] uses: it is in the range, every number of the range can come, and
    more than half of the masked values are accepted.  The call returns exactly when such
    a draw comes, at once if [n] is one less than a power of two. *)
Theorem range_draws g n fuel ys g0 :
  mt_ok g -> 0 <= n < 2 ^ 32 -> draws fuel g = Ret (ys, g0) ->
  match first_upto (used_bits n) n ys with
  | Some (i, c) => 0 <= i <= n /\ (c <= fuel)%nat /\ exists g', randInt_upto fuel n g = Ret (i, g') /\ mt_ok g'
  | None => randInt_upto fuel n g = Stop OutOfFuel
  end /\
  (forall i, 0 <= i <= n -> Z.land i (used_bits n) = i) /\ used_bits n <= 2 * n /\
  (forall k, 0 <= k -> n = 2 ^ k - 1 -> (0 < fuel)%nat -> is_ret (randInt_upto fuel n g) = true).
Proof.
  intros Hg Hn Hy. pose proof (mo_length _ Hg) as Hl. destruct (draws_ok _ _ g fuel Hl (ok_drawn g Hg)) as (g1 & E & Hd). rewrite E in Hy. injection Hy as <- <-.
  pose proof (draw_loop_ok _ _ g fuel (used_bits n) n Hl (ok_drawn g Hg)) as HD. split; [|split; [intros i Hi; by apply used_bits_cover|split]].
  - destruct (first_upto _ _ _) as [[i c]|] eqn:Ef; [|exact HD]. destruct HD as (g' & ED & Hd'). destruct (first_upto_range _ _ _ _ _ Ef) as (Hi & Hc). rewrite length_fmap, length_seq in Hc. split_and!; try done; try lia.
    + apply (first_upto_nonneg _ _ _ _ _ Ef). apply used_bits_nonneg. lia.
    + exists g'. split; [exact ED|]. eapply drawn_ok; [exact Hl|apply Hg|exact Hd'].
  - destruct (decide (n = 0)) as [->|Hn0]; [done|]. rewrite used_bits_ones by lia. rewrite Z.ones_equiv, Z.add_1_r. destruct (Z.log2_spec n ltac:(lia)). rewrite Z.pow_succ_r in * by apply Z.log2_nonneg. lia.
  - intros k Hk -> Hf. unfold randInt_upto. destruct fuel as [|fuel]; [lia|]. cbn [draw_loop]. destruct (randInt_type g Hg) as (r & g2 & -> & Hr & _). cbn [mbind outcome_bind].
    rewrite (proj2 (Z.ltb_ge _ _)); [done|]. apply mask_all; done.
Qed.

Lemma range_draws_witness : first_upto (used_bits 5) 5 (ret_or ([], demo_gen) (draws 4 demo_gen)).1 = Some (4, 1%nat) /\ exists g', randInt_upto 4 5 demo_gen = Ret (4, g').
Proof.
  destruct (range_draws demo_gen 5 4 (ret_or ([], demo_gen) (draws 4 demo_gen)).1 (ret_or ([], demo_gen) (draws 4 demo_gen)).2 demo_gen_ok) as [Hm _]; [lia|vm_compute; reflexivity|].
  assert (E : first_upto (used_bits 5) 5 (ret_or ([], demo_gen) (draws 4 demo_gen)).1 = Some (4, 1%nat)) by (vm_compute; reflexivity). rewrite E in Hm. split; [exact E|]. destruct Hm as (_ & _ & g' & Hr & _). by exists g'.
Defined.
