(* ===== verification/ThreadSched.v ===== *)
(** * The thread scheduler

    [Scheduler] of src/src/scheduler.h and scheduler.cpp: it gives the threads of the
    simulated programs to the cores (contexts), keeps the rest in queues, and lets the
    cores run in phases under the barrier.  A thread that has no core waits for one; at the
    end of a quantum cores are handed to waiting threads; a thread in a system call leaves
    the barrier, or pretends to (a fake leave).

    Every public operation holds the lock of the scheduler and is one step; [finish] and the
    watchdog, which release it around [leave], are one step too.  The intrusive
    lists are sequences, which InList justifies; the wait of a thread on its futex word and
    its return from the barrier are steps of their own.  What the scheduler tells a core
    (join, leave, context switch) is recorded in [cores].  A thread is in [s_threads] from [start]
    to the end of [finish]: the map of the source and the objects it points to are one.  Left out are the
    statistics, the actions at the end of a phase, the register scoreboards and decoder state that are
    kept per thread, and the wait for a woken thread to reach the lock; FutexMatch models the matching of
    futex wake-ups at the start of [join].  SchedParts, SchedInv, SchedOps and SchedHist hold
    the invariants, SchedProps what the scheduler promises. *)

From S2P Require Import Prelude Barrier.

(** ** State *)

Inductive ThreadState : Type := T_STARTED | T_RUNNING | T_OUT | T_BLOCKED | T_SLEEPING | T_QUEUED.
Inductive ContextState : Type := IDLE | USED.

#[export] Instance ThreadState_eq_dec : EqDecision ThreadState.
Proof. solve_decision. Defined.
#[export] Instance ContextState_eq_dec : EqDecision ContextState.
Proof. solve_decision. Defined.

(** Threads are named by their [gid]; [fakeLeave] says that a fake leave is open. *)
Record ThreadInfo : Type := mkThread {
  th_state : ThreadState;
  th_cid : Z;
  handoffThread : option Z;
  th_futex : Z;
  needsJoin : bool;
  markedForSleep : bool;
  wakeupPhase : Z;
  mask : list bool;
  fakeLeave : bool
}.

Record ContextInfo : Type := mkCtx { ctx_state : ContextState; curThread : option Z }.

(** What a core has been told last. *)
Record CoreNote : Type := mkCore { c_joined : bool; c_gid : option Z }.

Record FakeLeaveInfo : Type := mkFake { fl_pc : Z; fl_th : Z }.

(** The cores that threads of offloaded code are pinned to. *)
Record Pins : Type := mkPins { pinCoreStatus : list (gset Z); threadPinCoreMap : gmap Z Z }.

Record Sched : Type := mkSched {
  s_threads : gmap Z ThreadInfo;
  s_contexts : list ContextInfo;
  freeList : list Z;
  runQueue : list Z;
  outQueue : list Z;
  sleepQueue : list Z;
  fakeLeaves : list FakeLeaveInfo;
  blockingSyscalls : gset (Z * Z);
  curPhase : Z;
  numPhases : Z;
  schedQuantum : Z;
  scheduledThreads : Z;
  s_calls : nat;
  cores : list CoreNote;
  s_bar : Barrier;
  s_pins : Pins
}.

Definition numCores (s : Sched) : Z := Z.of_nat (length (s_contexts s)).

(** Updates of single members. *)
Definition w_threads (s : Sched) x := mkSched x (s_contexts s) (freeList s) (runQueue s) (outQueue s) (sleepQueue s) (fakeLeaves s) (blockingSyscalls s) (curPhase s) (numPhases s) (schedQuantum s) (scheduledThreads s) (s_calls s) (cores s) (s_bar s) (s_pins s).
Definition w_contexts (s : Sched) x := mkSched (s_threads s) x (freeList s) (runQueue s) (outQueue s) (sleepQueue s) (fakeLeaves s) (blockingSyscalls s) (curPhase s) (numPhases s) (schedQuantum s) (scheduledThreads s) (s_calls s) (cores s) (s_bar s) (s_pins s).
Definition w_free (s : Sched) x := mkSched (s_threads s) (s_contexts s) x (runQueue s) (outQueue s) (sleepQueue s) (fakeLeaves s) (blockingSyscalls s) (curPhase s) (numPhases s) (schedQuantum s) (scheduledThreads s) (s_calls s) (cores s) (s_bar s) (s_pins s).
Definition w_run (s : Sched) x := mkSched (s_threads s) (s_contexts s) (freeList s) x (outQueue s) (sleepQueue s) (fakeLeaves s) (blockingSyscalls s) (curPhase s) (numPhases s) (schedQuantum s) (scheduledThreads s) (s_calls s) (cores s) (s_bar s) (s_pins s).
Definition w_out (s : Sched) x := mkSched (s_threads s) (s_contexts s) (freeList s) (runQueue s) x (sleepQueue s) (fakeLeaves s) (blockingSyscalls s) (curPhase s) (numPhases s) (schedQuantum s) (scheduledThreads s) (s_calls s) (cores s) (s_bar s) (s_pins s).
Definition w_sleep (s : Sched) x := mkSched (s_threads s) (s_contexts s) (freeList s) (runQueue s) (outQueue s) x (fakeLeaves s) (blockingSyscalls s) (curPhase s) (numPhases s) (schedQuantum s) (scheduledThreads s) (s_calls s) (cores s) (s_bar s) (s_pins s).
Definition w_fake (s : Sched) x := mkSched (s_threads s) (s_contexts s) (freeList s) (runQueue s) (outQueue s) (sleepQueue s) x (blockingSyscalls s) (curPhase s) (numPhases s) (schedQuantum s) (scheduledThreads s) (s_calls s) (cores s) (s_bar s) (s_pins s).
Definition w_blocking (s : Sched) x := mkSched (s_threads s) (s_contexts s) (freeList s) (runQueue s) (outQueue s) (sleepQueue s) (fakeLeaves s) x (curPhase s) (numPhases s) (schedQuantum s) (scheduledThreads s) (s_calls s) (cores s) (s_bar s) (s_pins s).
Definition w_phase (s : Sched) x y := mkSched (s_threads s) (s_contexts s) (freeList s) (runQueue s) (outQueue s) (sleepQueue s) (fakeLeaves s) (blockingSyscalls s) x y (schedQuantum s) (scheduledThreads s) (s_calls s) (cores s) (s_bar s) (s_pins s).
Definition w_count (s : Sched) x := mkSched (s_threads s) (s_contexts s) (freeList s) (runQueue s) (outQueue s) (sleepQueue s) (fakeLeaves s) (blockingSyscalls s) (curPhase s) (numPhases s) (schedQuantum s) x (s_calls s) (cores s) (s_bar s) (s_pins s).
Definition w_calls (s : Sched) x := mkSched (s_threads s) (s_contexts s) (freeList s) (runQueue s) (outQueue s) (sleepQueue s) (fakeLeaves s) (blockingSyscalls s) (curPhase s) (numPhases s) (schedQuantum s) (scheduledThreads s) x (cores s) (s_bar s) (s_pins s).
Definition w_cores (s : Sched) x := mkSched (s_threads s) (s_contexts s) (freeList s) (runQueue s) (outQueue s) (sleepQueue s) (fakeLeaves s) (blockingSyscalls s) (curPhase s) (numPhases s) (schedQuantum s) (scheduledThreads s) (s_calls s) x (s_bar s) (s_pins s).
Definition w_bar (s : Sched) x := mkSched (s_threads s) (s_contexts s) (freeList s) (runQueue s) (outQueue s) (sleepQueue s) (fakeLeaves s) (blockingSyscalls s) (curPhase s) (numPhases s) (schedQuantum s) (scheduledThreads s) (s_calls s) (cores s) x (s_pins s).
Definition w_pins (s : Sched) x := mkSched (s_threads s) (s_contexts s) (freeList s) (runQueue s) (outQueue s) (sleepQueue s) (fakeLeaves s) (blockingSyscalls s) (curPhase s) (numPhases s) (schedQuantum s) (scheduledThreads s) (s_calls s) (cores s) (s_bar s) x.

Definition t_state (t : ThreadInfo) x := mkThread x (th_cid t) (handoffThread t) (th_futex t) (needsJoin t) (markedForSleep t) (wakeupPhase t) (mask t) (fakeLeave t).
Definition t_place (t : ThreadInfo) x c := mkThread x c (handoffThread t) (th_futex t) (needsJoin t) (markedForSleep t) (wakeupPhase t) (mask t) (fakeLeave t).
Definition t_handoff (t : ThreadInfo) x := mkThread (th_state t) (th_cid t) x (th_futex t) (needsJoin t) (markedForSleep t) (wakeupPhase t) (mask t) (fakeLeave t).
Definition t_futex (t : ThreadInfo) x := mkThread (th_state t) (th_cid t) (handoffThread t) x (needsJoin t) (markedForSleep t) (wakeupPhase t) (mask t) (fakeLeave t).
Definition t_join (t : ThreadInfo) x := mkThread (th_state t) (th_cid t) (handoffThread t) (th_futex t) x (markedForSleep t) (wakeupPhase t) (mask t) (fakeLeave t).
Definition t_mark (t : ThreadInfo) x := mkThread (th_state t) (th_cid t) (handoffThread t) (th_futex t) (needsJoin t) x (wakeupPhase t) (mask t) (fakeLeave t).
Definition t_wake (t : ThreadInfo) x := mkThread (th_state t) (th_cid t) (handoffThread t) (th_futex t) (needsJoin t) (markedForSleep t) x (mask t) (fakeLeave t).
Definition t_fake (t : ThreadInfo) x := mkThread (th_state t) (th_cid t) (handoffThread t) (th_futex t) (needsJoin t) (markedForSleep t) (wakeupPhase t) (mask t) x.

(** A pointer to a thread is dereferenced. *)
Definition thread (s : Sched) (g : Z) : outcome ThreadInfo := match s_threads s !! g with Some t => Ret t | None => Stop NullDeref end.
Definition put (s : Sched) (g : Z) (t : ThreadInfo) : Sched := w_threads s (<[g := t]> (s_threads s)).

(** [InList::remove] asserts that the element is in the list. *)
Definition q_remove (q : list Z) (x : Z) : outcome (list Z) := _ ← assert_ (bool_decide (x ∈ q)); Ret (filter (fun y => y <> x) q).

(** The loops that walk a list until an element fits. *)
Fixpoint find_ (p : Z -> outcome bool) (q : list Z) : outcome (option Z) :=
  match q with
  | [] => Ret None
  | x :: q => b ← p x; if b : bool then Ret (Some x) else find_ p q
  end.

Definition core_set (s : Sched) (c : Z) (f : CoreNote -> CoreNote) : outcome Sched := n ← at_ (cores s) c; cs ← set_at (cores s) c (f n); Ret (w_cores s cs).
Definition core_join (s : Sched) (c : Z) : outcome Sched := core_set s c (fun n => mkCore true (c_gid n)).
Definition core_leave (s : Sched) (c : Z) : outcome Sched := core_set s c (fun n => mkCore false (c_gid n)).
Definition contextSwitch (s : Sched) (c : Z) (g : option Z) : outcome Sched := core_set s c (fun n => mkCore (c_joined n) g).

(** The constructor of threads panics on an empty mask. *)
Definition newThread (s : Sched) (m : list bool) : outcome ThreadInfo :=
  _ ← assert_ (Z.of_nat (length m) =? numCores s);
  if existsb id m then Ret (mkThread T_STARTED 0 None 0 false false 0 m false) else Stop Panicked.

Definition newSched (parallel n quantum : Z) : Sched :=
  let k := Z.to_nat n in
  mkSched ∅ (replicate k (mkCtx IDLE None)) (zrange k) [] [] [] [] ∅ 0 0 quantum 0 0 (replicate k (mkCore false None)) (newBarrier parallel) (mkPins (replicate k ∅) ∅).

(** ** Internal operations *)

Definition schedule (s : Sched) (g c : Z) : outcome Sched :=
  t ← thread s g;
  x ← at_ (s_contexts s) c;
  _ ← assert_ (bool_decide (th_state t = T_STARTED \/ th_state t = T_BLOCKED \/ th_state t = T_QUEUED));
  _ ← assert_ (bool_decide (ctx_state x = IDLE));
  _ ← assert_ (bool_decide (curThread x = None));
  let s := put s g (t_place t T_RUNNING c) in
  xs ← set_at (s_contexts s) c (mkCtx USED (Some g));
  contextSwitch (w_count (w_contexts s xs) (u32 (scheduledThreads s + 1))) c (Some g).

Definition deschedule (s : Sched) (g c : Z) (target : ThreadState) : outcome Sched :=
  t ← thread s g;
  x ← at_ (s_contexts s) c;
  _ ← assert_ (bool_decide (th_state t = T_RUNNING \/ th_state t = T_OUT));
  _ ← assert_ (bool_decide (ctx_state x = USED));
  _ ← assert_ (c =? th_cid t);
  _ ← assert_ (bool_decide (curThread x = Some g));
  _ ← assert_ (bool_decide (target = T_BLOCKED \/ target = T_QUEUED \/ target = T_SLEEPING));
  let s := put s g (t_state t target) in
  xs ← set_at (s_contexts s) c (mkCtx IDLE None);
  contextSwitch (w_count (w_contexts s xs) (u32 (scheduledThreads s - 1))) c None.

(** The compare-and-swap of the futex word and the call that wakes the thread. *)
Definition wakeup (s : Sched) (g : Z) (join : bool) : outcome Sched :=
  t ← thread s g;
  if th_futex t =? 1 then Ret (put s g (t_futex (t_join t join) 0)) else Stop Panicked.

Definition masked (s : Sched) (g c : Z) : outcome bool := t ← thread s g; at_ (mask t) c.

Definition schedThread (s : Sched) (g : Z) : outcome (Sched * option Z) :=
  t ← thread s g;
  _ ← assert_ (th_cid t <? numCores s);
  x ← at_ (s_contexts s) (th_cid t);
  b ← at_ (mask t) (th_cid t);
  if bool_decide (ctx_state x = IDLE) && b then
    q ← q_remove (freeList s) (th_cid t);
    Ret (w_free s q, Some (th_cid t))
  else
    c ← find_ (fun c => at_ (mask t) c) (freeList s);
    match c with
    | Some c => q ← q_remove (freeList s) c; Ret (w_free s q, Some c)
    | None =>
        o ← find_ (fun o => to ← thread s o; at_ (mask t) (th_cid to)) (outQueue s);
        match o with
        | Some o =>
            to ← thread s o;
            q ← q_remove (outQueue s) o;
            s ← deschedule (w_out s q) o (th_cid to) T_BLOCKED;
            Ret (s, Some (th_cid to))
        | None => Ret (s, None)
        end
    end.

Definition schedContext (s : Sched) (c : Z) : outcome (Sched * option Z) :=
  o ← find_ (fun g => masked s g c) (runQueue s);
  match o with
  | Some g => q ← q_remove (runQueue s) g; Ret (w_run s q, Some g)
  | None => Ret (s, None)
  end.

(** The part of [waitForContext] under the lock. *)
Definition waitForContext (s : Sched) (g : Z) : outcome Sched := t ← thread s g; Ret (put s g (t_futex t 1)).

(** The ordered insertion into the sleep queue. *)
Fixpoint sleep_after (s : Sched) (g w : Z) (q : list Z) : outcome (list Z) :=
  match q with
  | [] => Ret [g]
  | x :: q => t ← thread s x; if wakeupPhase t <=? w then q ← sleep_after s g w q; Ret (x :: q) else Ret (g :: x :: q)
  end.

Definition finishFakeLeave (s : Sched) (g : Z) : outcome Sched :=
  t ← thread s g;
  _ ← assert_ (fakeLeave t);
  _ ← assert_ (bool_decide (th_state t = T_RUNNING));
  _ ← assert_ (existsb (fun f => fl_th f =? g) (fakeLeaves s));
  Ret (w_fake (put s g (t_fake t false)) (filter (fun f => fl_th f <> g) (fakeLeaves s))).

Section Scheduler.
(** [rndInt] and [barInt] give what the k-th call of the generator of the scheduler and of
    the barrier returns for a bound. *)
Context (rndInt barInt : nat -> Z -> Z).

(** ** The end of a quantum *)

(** The random order of cores, here and in [randomScheduler]. *)
Definition cores_step (s : list Z * nat) (i : Z) : outcome (list Z * nat) :=
  let '(l, k) := s in
  let j := rndInt k i in
  x ← at_ l i;
  y ← at_ l j;
  l ← set_at l i y;
  l ← set_at l j x;
  Ret (l, S k).

Definition shuffled_cores (s : Sched) : outcome (list Z * nat) := fold_ cores_step (rev (seqZ 1 (numCores s - 1))) (zrange (length (s_contexts s)), s_calls s).

(** Each waiting thread takes the first core that it may use and that no other one has taken:
    the thread on that core is told to hand it over. *)
Fixpoint tick_loop (s : Sched) (q avail : list Z) : outcome Sched :=
  match q with
  | [] => Ret s
  | g :: q =>
      if bool_decide (avail = []) then Ret s else
      o ← find_ (fun c => masked s g c) avail;
      match o with
      | Some c =>
          x ← at_ (s_contexts s) c;
          match curThread x with
          | None => Stop AssertFailed
          | Some v =>
              t ← thread s v;
              r ← q_remove (runQueue s) g;
              tick_loop (w_run (put s v (t_handoff t (Some g))) r) q (filter (fun y => y <> c) avail)
          end
      | None => tick_loop s q avail
      end
  end.

Definition schedTick (s : Sched) : outcome Sched :=
  '(avail, k) ← shuffled_cores s;
  tick_loop (w_calls s k) (runQueue s) avail.

(** ** The callback of the barrier *)

Fixpoint wake_sleepers (s : Sched) (q : list Z) : outcome Sched :=
  match q with
  | [] => Ret s
  | g :: q =>
      t ← thread s g;
      if wakeupPhase t <=? curPhase s then
        _ ← assert_ (wakeupPhase t =? curPhase s);
        s ← wakeup (put s g (t_state t T_BLOCKED)) g false;
        wake_sleepers (w_sleep s q) q
      else Ret s
  end.

Definition callback (s : Sched) : outcome Sched :=
  _ ← assert_ (scheduledThreads s <=? numCores s);
  let s := w_phase s (curPhase s + 1) (numPhases s + 1) in
  _ ← assert_ (curPhase s =? numPhases s);
  s ← wake_sleepers s (sleepQueue s);
  if bool_decide (runQueue s = []) then Ret s else
  if schedQuantum s =? 0 then Stop Undefined else
  if curPhase s mod schedQuantum s =? 0 then schedTick s else Ret s.

(** A call of the barrier; [callback] runs where a phase ends. *)
Definition phase_ends (s : Sched) (evs : list bar_event) : outcome Sched := fold_ (fun s e => match e with PhaseEnds => callback s | _ => Ret s end) evs s.
Definition call_bar (s : Sched) (r : outcome (Barrier * list bar_event)) : outcome Sched := '(b, evs) ← r; phase_ends (w_bar s b) evs.
Definition call_join (s : Sched) (c : Z) : outcome Sched := call_bar s (bar_join barInt (s_bar s) c).
Definition call_leave (s : Sched) (c : Z) : outcome Sched := call_bar s (bar_leave barInt (s_bar s) c).
Definition call_sync (s : Sched) (c : Z) : outcome Sched := call_bar s (bar_sync barInt (s_bar s) c).

(** ** Public operations *)

(** *** Pinning of offloaded threads *)

Definition pin (p : Pins) (g c : Z) : outcome Pins :=
  st ← at_ (pinCoreStatus p) c;
  l ← set_at (pinCoreStatus p) c ({[g]} ∪ st);
  Ret (mkPins l (<[g := c]> (threadPinCoreMap p))).

(** [new_mask] is all false before. *)
Definition no_cores (s : Sched) : list bool := replicate (length (s_contexts s)) false.

Definition randomScheduler (s : Sched) (g : Z) (m : list bool) : outcome (Sched * list bool) :=
  '(avail, k) ← shuffled_cores s;
  let s := w_calls s k in
  o ← find_ (fun c => b ← at_ m c; st ← at_ (pinCoreStatus (s_pins s)) c; Ret (b && bool_decide (size st = 0%nat))) avail;
  match o with
  | Some c => p ← pin (s_pins s) g c; nm ← set_at (no_cores s) c true; Ret (w_pins s p, nm)
  | None => Ret (s, m)
  end.

Definition getGid (pid tid : Z) : Z := Z.lor (u32 (Z.shiftl pid 16)) tid.
Definition getTid (g : Z) : Z := Z.land g 0xffff.
Definition getPid (g : Z) : Z := Z.shiftr g 16.

Definition groupScheduler (s : Sched) (g : Z) : outcome (Sched * list bool) :=
  let tid := getTid g in
  let tid := if 0 <? tid then u32 (tid - 3) else tid in
  let c := tid mod numCores s in
  nm ← set_at (no_cores s) c true;
  p ← pin (s_pins s) g c;
  Ret (w_pins s p, nm).

Inductive PIMThreadScheduler : Type := RANDOM | GROUP.

Definition schedulePIMThread (kind : PIMThreadScheduler) (s : Sched) (g : Z) (m : list bool) : outcome (Sched * list bool) :=
  match threadPinCoreMap (s_pins s) !! g with
  | Some c =>
      _ ← assert_ (c <? numCores s);
      st ← at_ (pinCoreStatus (s_pins s)) c;
      _ ← assert_ (bool_decide (g ∈ st));
      nm ← set_at (no_cores s) c true;
      Ret (s, nm)
  | None => match kind with RANDOM => randomScheduler s g m | GROUP => groupScheduler s g end
  end.

(** [pim]: the PIM mode is on and the thread starts inside an offloaded region. *)
Definition start (pim : option PIMThreadScheduler) (s : Sched) (g : Z) (m : list bool) : outcome Sched :=
  _ ← assert_ (bool_decide (s_threads s !! g = None));
  '(s, m) ← match pim with Some kind => schedulePIMThread kind s g m | None => Ret (s, m) end;
  t ← newThread s m;
  Ret (put s g t).

(** *** Leaving and joining *)

Definition sched_leave (s : Sched) (g c : Z) : outcome Sched :=
  x ← at_ (s_contexts s) c;
  match curThread x with
  | None => Stop NullDeref
  | Some th =>
      t ← thread s th;
      _ ← assert_ (th =? g);
      _ ← assert_ (bool_decide (th_state t = T_RUNNING));
      s ← core_leave s c;
      if markedForSleep t then
        s ← deschedule (put s g (t_mark t false)) g c T_SLEEPING;
        q ← sleep_after s g (wakeupPhase t) (sleepQueue s);
        '(s, o) ← schedContext (w_sleep s q) c;
        match o with
        | Some inTh => s ← schedule s inTh c; s ← core_join s c; wakeup s inTh false
        | None => call_leave (w_free s (freeList s ++ [c])) c
        end
      else
        '(s, o) ← schedContext s c;
        match o with
        | Some inTh => s ← deschedule s g c T_BLOCKED; s ← schedule s inTh c; s ← core_join s c; wakeup s inTh false
        | None => t ← thread s g; call_leave (w_out (put s g (t_state t T_OUT)) (outQueue s ++ [g])) c
        end
  end.

Definition sched_join (s : Sched) (g : Z) : outcome Sched :=
  match s_threads s !! g with
  | None => Stop AssertFailed
  | Some t =>
      if fakeLeave t then finishFakeLeave s g else
      _ ← assert_ (negb (markedForSleep t));
      s ← if bool_decide (th_state t = T_SLEEPING) then q ← q_remove (sleepQueue s) g; Ret (put (w_sleep s q) g (t_state t T_BLOCKED)) else Ret s;
      t ← thread s g;
      if bool_decide (th_state t = T_OUT) then
        q ← q_remove (outQueue s) g;
        s ← core_join (w_out (put s g (t_state t T_RUNNING)) q) (th_cid t);
        call_join s (th_cid t)
      else
        _ ← assert_ (bool_decide (th_state t = T_BLOCKED \/ th_state t = T_STARTED));
        '(s, o) ← schedThread s g;
        match o with
        | Some c => s ← schedule s g c; s ← core_join s c; call_join s c
        | None => t ← thread s g; waitForContext (w_run (put s g (t_state t T_QUEUED)) (runQueue s ++ [g])) g
        end
  end.

(** [sync] up to the call of the barrier, which returns when the core runs again. *)
Definition sched_sync (s : Sched) (c : Z) : outcome Sched :=
  x ← at_ (s_contexts s) c;
  match curThread x with
  | None => Stop NullDeref
  | Some g => t ← thread s g; _ ← assert_ (negb (markedForSleep t)); call_sync s c
  end.

(** The rest of [sync], where the thread hands its core over. *)
Definition sync_handoff (s : Sched) (g : Z) : outcome Sched :=
  t ← thread s g;
  match handoffThread t with
  | None => Ret s
  | Some dst =>
      let c := th_cid t in
      s ← deschedule (put s g (t_handoff t None)) g c T_QUEUED;
      s ← schedule s dst c;
      s ← wakeup s dst false;
      '(s, o) ← schedThread s g;
      match o with
      | Some c' => s ← schedule s g c'; s ← core_join s c'; call_join s c'
      | None => waitForContext (w_run s (runQueue s ++ [g])) g
      end
  end.

(** *** Finishing *)

Definition unpin (s : Sched) (g : Z) : outcome Sched :=
  match threadPinCoreMap (s_pins s) !! g with
  | Some c => st ← at_ (pinCoreStatus (s_pins s)) c; l ← set_at (pinCoreStatus (s_pins s)) c (st ∖ {[g]}); Ret (w_pins s (mkPins l (delete g (threadPinCoreMap (s_pins s)))))
  | None => Ret s
  end.

(** The end of [finish], when the thread runs on no core. *)
Definition finish_tail (s : Sched) (g : Z) : outcome Sched :=
  t ← thread s g;
  _ ← assert_ (bool_decide (th_state t = T_STARTED \/ th_state t = T_OUT \/ th_state t = T_BLOCKED \/ th_state t = T_QUEUED));
  s ← if bool_decide (th_state t = T_QUEUED) then q ← q_remove (runQueue s) g; Ret (w_run s q)
      else if bool_decide (g ∈ outQueue s) then
        q ← q_remove (outQueue s) g;
        s ← deschedule (w_out s q) g (th_cid t) T_BLOCKED;
        Ret (w_free s (freeList s ++ [th_cid t]))
      else Ret s;
  Ret (w_threads s (delete g (s_threads s))).

Definition finish (s : Sched) (g : Z) : outcome Sched :=
  _ ← assert_ (bool_decide (is_Some (s_threads s !! g)));
  s ← unpin s g;
  t ← thread s g;
  s ← if fakeLeave t then s ← finishFakeLeave s g; sched_leave s g (th_cid t) else Ret s;
  t ← thread s g;
  s ← if bool_decide (th_state t = T_SLEEPING) then q ← q_remove (sleepQueue s) g; Ret (put (w_sleep s q) g (t_state t T_BLOCKED)) else Ret s;
  t ← thread s g;
  s ← if bool_decide (th_state t = T_RUNNING) then sched_leave s g (th_cid t) else Ret s;
  finish_tail s g.

(** *** Sleeping *)

Definition markForSleep (s : Sched) (g phase : Z) : outcome Sched :=
  t ← thread s g;
  _ ← assert_ (negb (markedForSleep t));
  Ret (put s g (t_futex (t_wake (t_mark t true) phase) 1)).

Definition notifySleepEnd (s : Sched) (g : Z) : outcome Sched :=
  t ← thread s g;
  _ ← assert_ (negb (markedForSleep t));
  _ ← assert_ (bool_decide (th_state t = T_SLEEPING \/ th_state t = T_BLOCKED));
  if bool_decide (th_state t = T_BLOCKED) then Ret s else
  q ← q_remove (sleepQueue s) g;
  Ret (put (w_sleep s q) g (t_state t T_BLOCKED)).

(** Both steps for every thread of a process that has died. *)
Definition cleanup_thread (s : Sched) (g : Z) : outcome Sched :=
  t ← thread s g;
  s ← if bool_decide (th_state t = T_SLEEPING) then notifySleepEnd s g else Ret s;
  finish s g.
Definition processCleanup (s : Sched) (pid : Z) : outcome Sched := fold_ cleanup_thread (filter (fun g => getPid g = pid) (elements (dom (s_threads s)))) s.

(** *** System calls *)

Definition syscallLeave (s : Sched) (g c pc : Z) : outcome Sched :=
  x ← at_ (s_contexts s) c;
  match curThread x with
  | None => Stop NullDeref
  | Some th =>
      t ← thread s th;
      _ ← assert_ (th =? g);
      _ ← assert_ (th_cid t =? c);
      _ ← assert_ (bool_decide (th_state t = T_RUNNING));
      _ ← assert_ (getPid g <? MAX_THREADS);
      if bool_decide ((getPid g, pc) ∈ blockingSyscalls s) || markedForSleep t then sched_leave s g c
      else _ ← assert_ (negb (fakeLeave t)); Ret (w_fake (put s g (t_fake t true)) (fakeLeaves s ++ [mkFake pc g]))
  end.

(** *** The watchdog *)

(** The first fake leave becomes a real one, and those behind it at the same [pc] while more
    than eight are open.  As in the source the process that is compared is the one of the
    thread that has just left, and [leave] is called with the first process. *)
Fixpoint force_leaves (fuel : nat) (s : Sched) (pid pc g : Z) : outcome Sched :=
  match fuel with
  | O => Stop OutOfFuel
  | S fuel =>
      t ← thread s g;
      s ← finishFakeLeave s g;
      s ← sched_leave s (getGid pid (getTid g)) (th_cid t);
      match fakeLeaves s with
      | [] => Ret s
      | fl :: _ =>
          if negb (getPid g =? pid) || negb (fl_pc fl =? pc) then Ret s
          else if (8 <? length (fakeLeaves s))%nat then force_leaves fuel s pid pc (fl_th fl) else Ret s
      end
  end.

(** [matches]: the name of the system call matches the expression of the process. *)
Definition watchdog_stall (matches : bool) (s : Sched) : outcome Sched :=
  match fakeLeaves s with
  | [] => Ret s
  | fl :: _ =>
      if matches then
        let pid := getPid (fl_th fl) in
        let s := if (length (fakeLeaves s) =? 1)%nat then w_blocking s ({[(pid, fl_pc fl)]} ∪ blockingSyscalls s) else s in
        force_leaves (length (fakeLeaves s)) s pid (fl_pc fl) (fl_th fl)
      else Ret s
  end.

(** Time is driven forward until the first sleeper wakes, or a thread waits for the lock or the
    simulation is to end ([waiters k] after the k-th phase). *)
Fixpoint drive_loop (fuel : nat) (waiters : nat -> bool) (k : nat) (s : Sched) (g : Z) : outcome Sched :=
  match fuel with
  | O => Stop OutOfFuel
  | S fuel =>
      t ← thread s g;
      if bool_decide (th_state t = T_SLEEPING) then s ← callback s; if waiters k then Ret s else drive_loop fuel waiters (S k) s g else Ret s
  end.

Definition watchdog_drive (fuel : nat) (waiters : nat -> bool) (s : Sched) : outcome Sched :=
  match sleepQueue s with
  | [] => Ret s
  | g :: _ => if scheduledThreads s =? Z.of_nat (length (outQueue s)) then drive_loop fuel waiters 0 s g else Ret s
  end.
End Scheduler.
