(* ===== verification/SchedParts.v ===== *)
(** * The parts of the thread scheduler

    Invariants of contexts, queues, handoffs, sleepers and fake leaves of the scheduler of
    ThreadSched.v, each over the members that it concerns, and how they change when one
    thread, one context or one queue does. *)

From Stdlib Require Import Sorting.Sorted.
From S2P Require Import Prelude Barrier ThreadSched.

(** ** Invariants of the parts

    Threads, contexts and queues agree; in the middle of an operation a thread of the set [L]
    is in no queue although its state says so, and a context of the set [C] is idle but not in
    the list of free ones. *)

Abbreviation threads_map := (gmap Z ThreadInfo).

Definition on (t : ThreadInfo) : bool := bool_decide (th_state t = T_RUNNING \/ th_state t = T_OUT).
Definition running_at (th : threads_map) (c : Z) : Prop := exists g t, th !! g = Some t /\ th_state t = T_RUNNING /\ th_cid t = c.
Definition promised (th : threads_map) (g : Z) : Prop := exists v t, th !! v = Some t /\ handoffThread t = Some g.
Definition may_use (t : ThreadInfo) (c : Z) : Prop := 0 <= c /\ mask t !! Z.to_nat c = Some true.
Definition ctx_at (xs : list ContextInfo) (c : Z) (x : ContextInfo) : Prop := 0 <= c /\ xs !! Z.to_nat c = Some x.
Definition no_thread : ContextInfo := mkCtx IDLE None.
Definition used (g : Z) : ContextInfo := mkCtx USED (Some g).

(** Contexts: each is idle or used by one thread, whose mask allows it. *)
Record placement (th : threads_map) (xs : list ContextInfo) (free : list Z) (C : gset Z) : Prop := {
  pl_on : forall g t, th !! g = Some t -> on t = true -> ctx_at xs (th_cid t) (used g) /\ may_use t (th_cid t);
  pl_ctx : forall c x, ctx_at xs c x -> x = no_thread \/ exists g t, x = used g /\ th !! g = Some t /\ on t = true /\ th_cid t = c;
  pl_nodup : NoDup free;
  pl_free : forall c, c ∈ free <-> ctx_at xs c no_thread /\ c ∉ C;
  pl_limbo : forall c, c ∈ C -> ctx_at xs c no_thread
}.

(** Queues: a thread is in the queue that its state names. *)
Record queues (th : threads_map) (run out slp : list Z) (L : gset Z) : Prop := {
  qs_run_nodup : NoDup run;
  qs_out_nodup : NoDup out;
  qs_sleep_nodup : NoDup slp;
  qs_run : forall g, g ∈ run <-> (exists t, th !! g = Some t /\ th_state t = T_QUEUED) /\ (g ∉ L) /\ ~ promised th g;
  qs_out : forall g, g ∈ out <-> (exists t, th !! g = Some t /\ th_state t = T_OUT) /\ (g ∉ L);
  qs_sleep : forall g, g ∈ slp <-> (exists t, th !! g = Some t /\ th_state t = T_SLEEPING) /\ (g ∉ L);
  qs_limbo : forall g, g ∈ L -> ~ promised th g
}.

(** Handoffs: the receiver waits, may use the core, and is promised one core only. *)
Record handoffs (th : threads_map) : Prop := {
  ho_target : forall v t g, th !! v = Some t -> handoffThread t = Some g -> th_state t = T_RUNNING /\ exists tg, th !! g = Some tg /\ th_state tg = T_QUEUED /\ may_use tg (th_cid t);
  ho_once : forall v v' t t' g, th !! v = Some t -> th !! v' = Some t' -> handoffThread t = Some g -> handoffThread t' = Some g -> v = v'
}.

(** A core that a queued thread may use runs another thread. *)
Definition busy (th : threads_map) (run : list Z) (C : gset Z) : Prop := forall g t c, g ∈ run -> th !! g = Some t -> may_use t c -> c ∉ C -> running_at th c.

(** The sleep queue is ordered. *)
Definition wakes_before (th : threads_map) (a b : Z) : Prop := forall ta tb, th !! a = Some ta -> th !! b = Some tb -> wakeupPhase ta <= wakeupPhase tb.
Definition ordered (th : threads_map) (slp : list Z) : Prop := StronglySorted (wakes_before th) slp.

(** The list of fake leaves names the threads in one. *)
Record fakes (th : threads_map) (fl : list FakeLeaveInfo) : Prop := {
  fk_nodup : NoDup (fl_th <$> fl);
  fk_in : forall g, (g ∈ fl_th <$> fl) <-> exists t, th !! g = Some t /\ fakeLeave t = true
}.

(** What always holds of a single thread. *)
Record thread_ok (n : Z) (t : ThreadInfo) : Prop := {
  to_cid : 0 <= th_cid t < n;
  to_mask : Z.of_nat (length (mask t)) = n;
  to_some : existsb id (mask t) = true;
  to_join : needsJoin t = false
}.

Lemma on_running t : th_state t = T_RUNNING -> on t = true.
Proof. intros H. unfold on. by rewrite bool_decide_true by auto. Qed.
Lemma on_out t : th_state t = T_OUT -> on t = true.
Proof. intros H. unfold on. by rewrite bool_decide_true by auto. Qed.
Lemma on_true t : on t = true <-> th_state t = T_RUNNING \/ th_state t = T_OUT.
Proof. unfold on. apply bool_decide_eq_true. Qed.
Lemma on_false t : on t = false <-> th_state t <> T_RUNNING /\ th_state t <> T_OUT.
Proof. unfold on. rewrite bool_decide_eq_false. naive_solver. Qed.

Lemma ctx_at_insert_inv xs c x c' y : ctx_at (<[Z.to_nat c := x]> xs) c' y -> 0 <= c -> c' = c /\ y = x \/ c' <> c /\ ctx_at xs c' y.
Proof.
  unfold ctx_at. intros [Hc' Hx] Hc. apply list_lookup_insert_Some in Hx as [(He & <- & _)|[Hne Hx]]; [left; split; [lia|done]|]. right. split; [|done]. intros ->. done.
Qed.

Lemma ctx_at_eq xs c x : ctx_at xs c x -> forall y, ctx_at (<[Z.to_nat c := y]> xs) c y.
Proof. intros [Hc Hx] y. split; [done|]. apply list_lookup_insert_eq. by apply lookup_lt_Some in Hx. Qed.

Lemma ctx_at_ne xs c x y c' : c' <> c -> 0 <= c -> ctx_at xs c' y -> ctx_at (<[Z.to_nat c := x]> xs) c' y.
Proof. intros Hne Hc [Hc' Hx]. split; [done|]. rewrite list_lookup_insert_ne by lia. done. Qed.

Lemma ctx_at_fun xs c x y : ctx_at xs c x -> ctx_at xs c y -> x = y.
Proof. intros [_ H1] [_ H2]. congruence. Qed.

(** Case analysis on a lookup in an updated map of threads. *)
Ltac th_case H :=
  apply lookup_insert_Some in H as [[<- <-]|[? H] ].

(** *** Contexts *)

Section Placed.
Context (th : threads_map) (xs : list ContextInfo) (free : list Z) (C : gset Z) (P : placement th xs free C).

(** A thread changes without moving. *)
Lemma placed_keep g t t' : th !! g = Some t -> on t' = on t -> (on t = true -> th_cid t' = th_cid t) -> mask t' = mask t -> placement (<[g := t']> th) xs free C.
Proof using P.
  intros Hg Hon Hcid Hm. constructor; try apply P.
  - intros x tx Hx Hox. th_case Hx; [|by apply (pl_on _ _ _ _ P)]. rewrite Hon in Hox. rewrite (Hcid Hox). destruct (pl_on _ _ _ _ P g t Hg Hox) as [H1 H2]. split; [done|]. unfold may_use. by rewrite Hm.
  - intros c x Hx. destruct (pl_ctx _ _ _ _ P c x Hx) as [ -> |(y & ty & -> & Hy & Hoy & Hcy)]; [by left|]. right. destruct (decide (y = g)) as [ -> |Hne].
    + exists g, t'. rewrite lookup_insert_eq. rewrite Hg in Hy. injection Hy as <-. split_and!; try done; [congruence|]. by rewrite Hcid.
    + exists y, ty. by rewrite lookup_insert_ne.
Qed.

(** An idle context in limbo is given to a thread. *)
Lemma placed_take g t t' c : th !! g = Some t -> on t = false -> on t' = true -> th_cid t' = c -> c ∈ C -> may_use t' c ->
  placement (<[g := t']> th) (<[Z.to_nat c := used g]> xs) free (C ∖ {[c]}).
Proof using P.
  intros Hg Hon Hon' <- HC Hm. pose proof (pl_limbo _ _ _ _ P _ HC) as Hi. assert (Hc0 : 0 <= th_cid t') by apply Hi. constructor.
  - intros x tx Hx Hox. th_case Hx; [split; [by eapply ctx_at_eq|done]|]. destruct (pl_on _ _ _ _ P x tx Hx Hox) as [H1 H2]. split; [|done]. apply ctx_at_ne; [|done|done]. intros He. rewrite He in H1. by pose proof (ctx_at_fun _ _ _ _ H1 Hi).
  - intros k x Hx. apply ctx_at_insert_inv in Hx as [[-> ->]|[Hne Hx] ]; [|  |done].
    + right. exists g, t'. by rewrite lookup_insert_eq.
    + destruct (pl_ctx _ _ _ _ P k x Hx) as [ -> |(y & ty & -> & Hy & Hoy & Hcy)]; [by left|]. right. exists y, ty. rewrite lookup_insert_ne; [done|]. intros ->. congruence.
  - apply P.
  - intros k. rewrite (pl_free _ _ _ _ P). split.
    + intros [Hk HkC]. split; [|set_solver]. apply ctx_at_ne; [set_solver|done|done].
    + intros [Hk HkC]. apply ctx_at_insert_inv in Hk as [[_ Hk]|[Hne Hk] ]; [done|split; [done|set_solver]|done].
  - intros k Hk. apply elem_of_difference in Hk as [Hk Hne]. apply ctx_at_ne; [set_solver|done|by apply (pl_limbo _ _ _ _ P)].
Qed.

(** A thread gives its context up. *)
Lemma placed_give g t t' : th !! g = Some t -> on t = true -> on t' = false -> placement (<[g := t']> th) (<[Z.to_nat (th_cid t) := no_thread]> xs) free ({[th_cid t]} ∪ C).
Proof using P.
  intros Hg Hon Hon'. destruct (pl_on _ _ _ _ P g t Hg Hon) as [Hc Hm]. assert (Hc0 : 0 <= th_cid t) by apply Hc.
  assert (Huse : forall k, ctx_at xs k no_thread -> k <> th_cid t) by (intros k Hk ->; by pose proof (ctx_at_fun _ _ _ _ Hk Hc)). constructor.
  - intros x tx Hx Hox. th_case Hx; [congruence|]. destruct (pl_on _ _ _ _ P x tx Hx Hox) as [H1 H2]. split; [|done]. apply ctx_at_ne; [|done|done]. intros He. rewrite He in H1. pose proof (ctx_at_fun _ _ _ _ H1 Hc). unfold used in *. congruence.
  - intros k x Hx. apply ctx_at_insert_inv in Hx as [[-> ->]|[Hne Hx] ]; [by left| |done].
    destruct (pl_ctx _ _ _ _ P k x Hx) as [ -> |(y & ty & -> & Hy & Hoy & Hcy)]; [by left|]. right. exists y, ty. rewrite lookup_insert_ne; [done|]. intros ->. congruence.
  - apply P.
  - intros k. rewrite (pl_free _ _ _ _ P). split.
    + intros [Hk HkC]. pose proof (Huse k Hk). split; [|set_solver]. by apply ctx_at_ne.
    + intros [Hk HkC]. apply ctx_at_insert_inv in Hk as [[-> _]|[Hne Hk] ]; [set_solver|split; [done|set_solver]|done].
  - intros k Hk. apply elem_of_union in Hk as [ ->%elem_of_singleton|Hk]; [by eapply ctx_at_eq|]. pose proof (pl_limbo _ _ _ _ P k Hk) as Hi. apply ctx_at_ne; [by apply Huse|done|done].
Qed.

Lemma placed_new g t : th !! g = None -> on t = false -> placement (<[g := t]> th) xs free C.
Proof using P.
  intros Hg Hon. constructor; try apply P.
  - intros x tx Hx Hox. th_case Hx; [congruence|by apply (pl_on _ _ _ _ P)].
  - intros c x Hx. destruct (pl_ctx _ _ _ _ P c x Hx) as [ -> |(y & ty & -> & Hy & Hoy & Hcy)]; [by left|]. right. exists y, ty. rewrite lookup_insert_ne; [done|]. intros ->. congruence.
Qed.

Lemma placed_delete g t : th !! g = Some t -> on t = false -> placement (delete g th) xs free C.
Proof using P.
  intros Hg Hon. constructor; try apply P.
  - intros x tx Hx Hox. apply lookup_delete_Some in Hx as [_ Hx]. by apply (pl_on _ _ _ _ P).
  - intros c x Hx. destruct (pl_ctx _ _ _ _ P c x Hx) as [ -> |(y & ty & -> & Hy & Hoy & Hcy)]; [by left|]. right. exists y, ty. rewrite lookup_delete_ne; [done|]. intros ->. congruence.
Qed.

Lemma placed_unfree c : c ∈ free -> placement th xs (filter (fun y => y <> c) free) ({[c]} ∪ C).
Proof using P.
  intros Hc. constructor; try apply P.
  - apply NoDup_filter, P.
  - intros k. rewrite list_elem_of_filter, (pl_free _ _ _ _ P). set_solver.
  - intros k Hk. apply elem_of_union in Hk as [ ->%elem_of_singleton|Hk]; [by apply (pl_free _ _ _ _ P) in Hc as [? _]|by apply (pl_limbo _ _ _ _ P)].
Qed.

Lemma placed_free c : c ∈ C -> placement th xs (free ++ [c]) (C ∖ {[c]}).
Proof using P.
  intros Hc. pose proof (pl_limbo _ _ _ _ P c Hc) as Hi. constructor; try apply P.
  - apply NoDup_app. split; [apply P|]. split; [|apply NoDup_singleton]. intros x Hx ->%list_elem_of_singleton. by apply (pl_free _ _ _ _ P) in Hx as [_ ?].
  - intros k. rewrite elem_of_app, list_elem_of_singleton, (pl_free _ _ _ _ P). split.
    + intros [[Hk HkC]| -> ]; [split; [done|set_solver]|split; [done|set_solver] ].
    + intros [Hk HkC]. destruct (decide (k = c)) as [ -> |Hne]; [by right|left; split; [done|set_solver] ].
  - intros k Hk. apply (pl_limbo _ _ _ _ P). set_solver.
Qed.
End Placed.

(** *** Queues *)

Definition queueless (st : ThreadState) : bool := match st with T_STARTED | T_RUNNING | T_BLOCKED => true | _ => false end.

Lemma promised_put (th : threads_map) g t t' x : th !! g = Some t -> handoffThread t' = handoffThread t -> promised (<[g := t']> th) x <-> promised th x.
Proof.
  intros Hg Hh. unfold promised. split; intros (v & tv & Hv & Hhv).
  - th_case Hv; [exists g, t; split; [done|congruence]|by exists v, tv].
  - destruct (decide (v = g)) as [ -> |Hne]; [exists g, t'; rewrite lookup_insert_eq; split; [done|congruence]|]. exists v, tv. by rewrite lookup_insert_ne.
Qed.

(** A state that holds of a thread after another one has changed. *)
Lemma in_state_put (th : threads_map) g t' (p : ThreadInfo -> Prop) x : x <> g -> (exists t, <[g := t']> th !! x = Some t /\ p t) <-> exists t, th !! x = Some t /\ p t.
Proof. intros Hne. by rewrite lookup_insert_ne. Qed.

Lemma in_state_eq (th : threads_map) g t' (p : ThreadInfo -> Prop) : (exists t, <[g := t']> th !! g = Some t /\ p t) <-> p t'.
Proof. rewrite lookup_insert_eq. split; [by intros (t & [= <-] & Hp)|by exists t']. Qed.

Section Queues.
Context (th : threads_map) (run out slp : list Z) (L : gset Z) (Q : queues th run out slp L).

Lemma queues_same g t t' : th !! g = Some t -> handoffThread t' = handoffThread t -> th_state t' = th_state t -> queues (<[g := t']> th) run out slp L.
Proof using Q.
  intros Hg Hh Hs.
  assert (Heq : forall st x, (exists tx, <[g := t']> th !! x = Some tx /\ th_state tx = st) <-> exists tx, th !! x = Some tx /\ th_state tx = st).
  { intros st x. destruct (decide (x = g)) as [ -> |Hne]; [|by apply in_state_put]. rewrite in_state_eq, Hs. split; [by exists t|]. intros (tx & Hx & <-). congruence. }
  constructor; try apply Q.
  - intros x. rewrite Heq, (promised_put th g t t') by done. apply (qs_run _ _ _ _ _ Q).
  - intros x. rewrite Heq. apply (qs_out _ _ _ _ _ Q).
  - intros x. rewrite Heq. apply (qs_sleep _ _ _ _ _ Q).
  - intros x Hx. rewrite (promised_put th g t t') by done. by apply (qs_limbo _ _ _ _ _ Q).
Qed.

Lemma free_of_queues g t : th !! g = Some t -> g ∈ L \/ queueless (th_state t) = true -> (g ∉ run) /\ (g ∉ out) /\ (g ∉ slp).
Proof using Q.
  intros Hg Hq. split_and!; [intros ((tx & Hx & Hs) & HL & _)%(qs_run _ _ _ _ _ Q)|intros ((tx & Hx & Hs) & HL)%(qs_out _ _ _ _ _ Q)|intros ((tx & Hx & Hs) & HL)%(qs_sleep _ _ _ _ _ Q)];
    rewrite Hg in Hx; injection Hx as <-; rewrite Hs in Hq; destruct Hq; done.
Qed.

(** A thread that is in no queue changes its state; it is in limbo until it is in the queue
    that the new state names. *)
Lemma queues_state g t t' : th !! g = Some t -> handoffThread t' = handoffThread t -> g ∈ L \/ queueless (th_state t) = true -> ~ promised th g ->
  queues (<[g := t']> th) run out slp (if queueless (th_state t') then L ∖ {[g]} else {[g]} ∪ L).
Proof using Q.
  intros Hg Hh Hq Hp. destruct (free_of_queues g t Hg Hq) as (H1 & H2 & H3). set (L' := if queueless (th_state t') then _ else _).
  assert (HL : forall x, x <> g -> x ∈ L' <-> x ∈ L) by (intros x Hx; unfold L'; destruct (queueless (th_state t')); set_solver).
  assert (HLg : queueless (th_state t') = false -> g ∈ L') by (intros E; unfold L'; rewrite E; set_solver).
  constructor; try apply Q.
  - intros x. rewrite (promised_put th g t t') by done. destruct (decide (x = g)) as [ -> |Hne].
    + rewrite in_state_eq. split; [done|]. intros (Hs & HLx & _). rewrite Hs in HLg. by specialize (HLg eq_refl).
    + rewrite in_state_put, HL by done. apply (qs_run _ _ _ _ _ Q).
  - intros x. destruct (decide (x = g)) as [ -> |Hne].
    + rewrite in_state_eq. split; [done|]. intros (Hs & HLx). rewrite Hs in HLg. by specialize (HLg eq_refl).
    + rewrite in_state_put, HL by done. apply (qs_out _ _ _ _ _ Q).
  - intros x. destruct (decide (x = g)) as [ -> |Hne].
    + rewrite in_state_eq. split; [done|]. intros (Hs & HLx). rewrite Hs in HLg. by specialize (HLg eq_refl).
    + rewrite in_state_put, HL by done. apply (qs_sleep _ _ _ _ _ Q).
  - intros x Hx. rewrite (promised_put th g t t') by done. destruct (decide (x = g)) as [ -> |Hne]; [done|]. apply (qs_limbo _ _ _ _ _ Q). by apply HL.
Qed.

Lemma nodup_without (l : list Z) x : NoDup l -> NoDup (filter (fun y => y <> x) l).
Proof using Type. apply NoDup_filter. Qed.

Lemma queues_unrun g : g ∈ run -> queues th (filter (fun y => y <> g) run) out slp ({[g]} ∪ L).
Proof using Q.
  intros Hg. pose proof (proj1 (qs_run _ _ _ _ _ Q g) Hg) as ((t & Ht & Hs) & HL & Hp). constructor; try apply Q.
  - apply nodup_without, Q.
  - intros x. rewrite list_elem_of_filter, (qs_run _ _ _ _ _ Q). set_solver.
  - intros x. rewrite (qs_out _ _ _ _ _ Q). split; [|set_solver]. intros (He & HLx). split; [done|]. intros [ ->%elem_of_singleton|?]%elem_of_union; [|done]. destruct He as (tx & Hx & Hsx). congruence.
  - intros x. rewrite (qs_sleep _ _ _ _ _ Q). split; [|set_solver]. intros (He & HLx). split; [done|]. intros [ ->%elem_of_singleton|?]%elem_of_union; [|done]. destruct He as (tx & Hx & Hsx). congruence.
  - intros x [ ->%elem_of_singleton|Hx]%elem_of_union; [done|by apply (qs_limbo _ _ _ _ _ Q)].
Qed.

Lemma queues_unout g : g ∈ out -> ~ promised th g -> queues th run (filter (fun y => y <> g) out) slp ({[g]} ∪ L).
Proof using Q.
  intros Hg Hp. pose proof (proj1 (qs_out _ _ _ _ _ Q g) Hg) as ((t & Ht & Hs) & HL). constructor; try apply Q.
  - apply nodup_without, Q.
  - intros x. rewrite (qs_run _ _ _ _ _ Q). split; [|set_solver]. intros (He & HLx & Hpx). split_and!; try done. intros [ ->%elem_of_singleton|?]%elem_of_union; [|done]. destruct He as (tx & Hx & Hsx). congruence.
  - intros x. rewrite list_elem_of_filter, (qs_out _ _ _ _ _ Q). set_solver.
  - intros x. rewrite (qs_sleep _ _ _ _ _ Q). split; [|set_solver]. intros (He & HLx). split; [done|]. intros [ ->%elem_of_singleton|?]%elem_of_union; [|done]. destruct He as (tx & Hx & Hsx). congruence.
  - intros x [ ->%elem_of_singleton|Hx]%elem_of_union; [done|by apply (qs_limbo _ _ _ _ _ Q)].
Qed.

Lemma queues_unsleep g : g ∈ slp -> ~ promised th g -> queues th run out (filter (fun y => y <> g) slp) ({[g]} ∪ L).
Proof using Q.
  intros Hg Hp. pose proof (proj1 (qs_sleep _ _ _ _ _ Q g) Hg) as ((t & Ht & Hs) & HL). constructor; try apply Q.
  - apply nodup_without, Q.
  - intros x. rewrite (qs_run _ _ _ _ _ Q). split; [|set_solver]. intros (He & HLx & Hpx). split_and!; try done. intros [ ->%elem_of_singleton|?]%elem_of_union; [|done]. destruct He as (tx & Hx & Hsx). congruence.
  - intros x. rewrite (qs_out _ _ _ _ _ Q). split; [|set_solver]. intros (He & HLx). split; [done|]. intros [ ->%elem_of_singleton|?]%elem_of_union; [|done]. destruct He as (tx & Hx & Hsx). congruence.
  - intros x. rewrite list_elem_of_filter, (qs_sleep _ _ _ _ _ Q). set_solver.
  - intros x [ ->%elem_of_singleton|Hx]%elem_of_union; [done|by apply (qs_limbo _ _ _ _ _ Q)].
Qed.

(** A thread in limbo enters the queue of its state. *)
Lemma queues_enter g t run' out' slp' : th !! g = Some t -> g ∈ L ->
  (run', out', slp') = (match th_state t with T_QUEUED => run ++ [g] | _ => run end, match th_state t with T_OUT => out ++ [g] | _ => out end, slp') ->
  match th_state t with T_SLEEPING => slp' ≡ₚ g :: slp | _ => slp' = slp end ->
  queues th run' out' slp' (L ∖ {[g]}).
Proof using Q.
  intros Hg HL [= -> ->] Hslp. pose proof (qs_limbo _ _ _ _ _ Q g HL) as Hp. destruct (free_of_queues g t Hg (or_introl HL)) as (H1 & H2 & H3).
  assert (Hsnoc : forall l : list Z, NoDup l -> g ∉ l -> NoDup (l ++ [g])).
  { intros l Hl Hgl. apply NoDup_app. split; [done|]. split; [|apply NoDup_singleton]. by intros x Hx ->%list_elem_of_singleton. }
  assert (Hmem : forall st (l l' : list Z) (r : Z -> Prop), (forall x, x ∈ l <-> (exists tx, th !! x = Some tx /\ th_state tx = st) /\ (x ∉ L) /\ r x) -> r g -> (forall x, x ∈ l' <-> x ∈ l \/ x = g /\ th_state t = st) ->
     forall x, x ∈ l' <-> (exists tx, th !! x = Some tx /\ th_state tx = st) /\ (x ∉ L ∖ {[g]}) /\ r x).
  { intros st l l' r Hl Hr Hl' x. rewrite Hl', Hl. destruct (decide (x = g)) as [ -> |Hne]; [|set_solver]. split; [intros [?|[_ Hs]]; [set_solver|split; [by exists t|set_solver] ]|].
    intros ((tx & Hx & Hs) & _). right. split; [done|congruence]. }
  constructor.
  - destruct (th_state t); [apply Q..|apply Hsnoc; [apply Q|done] ].
  - destruct (th_state t); [apply Q..| | | | ]; try apply Q. apply Hsnoc; [apply Q|done].
  - destruct (th_state t); subst; try apply Q. rewrite Hslp. constructor; [done|apply Q].
  - apply (Hmem T_QUEUED run _ (fun x => ~ promised th x)); [apply (qs_run _ _ _ _ _ Q)|done|]. intros x. clear. destruct (th_state t); rewrite ?elem_of_app, ?list_elem_of_singleton; naive_solver.
  - intros x. rewrite (Hmem T_OUT out (match th_state t with T_OUT => out ++ [g] | _ => out end) (fun _ => True)); [clear; naive_solver|intros y; rewrite (qs_out _ _ _ _ _ Q); clear; naive_solver|done|].
    intros y. clear. destruct (th_state t); rewrite ?elem_of_app, ?list_elem_of_singleton; naive_solver.
  - assert (Hin : forall y, y ∈ slp' <-> y ∈ slp \/ y = g /\ th_state t = T_SLEEPING).
    { intros y. clear -Hslp. destruct (th_state t); subst; try naive_solver. rewrite Hslp, elem_of_cons. naive_solver. }
    intros x. rewrite (Hmem T_SLEEPING slp slp' (fun _ => True)); [clear; naive_solver|intros y; rewrite (qs_sleep _ _ _ _ _ Q); clear; naive_solver|done|exact Hin].
  - intros x Hx. apply (qs_limbo _ _ _ _ _ Q). set_solver.
Qed.
End Queues.

Lemma promised_new (th : threads_map) g t x : th !! g = None -> handoffThread t = None -> promised (<[g := t]> th) x <-> promised th x.
Proof.
  intros Hg Hh. unfold promised. split; intros (v & tv & Hv & Hhv).
  - th_case Hv; [congruence|by exists v, tv].
  - exists v, tv. rewrite lookup_insert_ne; [done|]. intros ->. congruence.
Qed.

Lemma promised_delete (th : threads_map) g t x : th !! g = Some t -> handoffThread t = None -> promised (delete g th) x <-> promised th x.
Proof.
  intros Hg Hh. unfold promised. split; intros (v & tv & Hv & Hhv).
  - apply lookup_delete_Some in Hv as [_ Hv]. by exists v, tv.
  - exists v, tv. rewrite lookup_delete_ne; [done|]. intros ->. congruence.
Qed.

Lemma queues_new th run out slp L g t : queues th run out slp L -> th !! g = None -> queueless (th_state t) = true -> handoffThread t = None -> queues (<[g := t]> th) run out slp L.
Proof.
  intros Q Hg Hs Hh.
  assert (Heq : forall st x, queueless st = false -> (exists tx, <[g := t]> th !! x = Some tx /\ th_state tx = st) <-> exists tx, th !! x = Some tx /\ th_state tx = st).
  { intros st x Hst. destruct (decide (x = g)) as [-> |Hne]; [|by apply in_state_put]. rewrite in_state_eq. split; [congruence|]. intros (tx & Hx & _). congruence. }
  constructor; try apply Q.
  - intros x. rewrite Heq, (promised_new th g t) by done. apply (qs_run _ _ _ _ _ Q).
  - intros x. rewrite Heq by done. apply (qs_out _ _ _ _ _ Q).
  - intros x. rewrite Heq by done. apply (qs_sleep _ _ _ _ _ Q).
  - intros x Hx. rewrite (promised_new th g t) by done. by apply (qs_limbo _ _ _ _ _ Q).
Qed.

Lemma queues_delete th run out slp L g t : queues th run out slp L -> th !! g = Some t -> g ∈ L \/ queueless (th_state t) = true -> handoffThread t = None -> queues (delete g th) run out slp (L ∖ {[g]}).
Proof.
  intros Q Hg Hs Hh. destruct (free_of_queues th run out slp L Q g t Hg Hs) as (H1 & H2 & H3).
  assert (Hne : forall st x, x <> g -> (exists tx, delete g th !! x = Some tx /\ th_state tx = st) <-> exists tx, th !! x = Some tx /\ th_state tx = st) by (intros st x Hx; by rewrite lookup_delete_ne).
  assert (Heq : forall st, ~ exists tx, delete g th !! g = Some tx /\ th_state tx = st) by (intros st (tx & Hx & _); by rewrite lookup_delete_eq in Hx).
  constructor; try apply Q.
  - intros x. rewrite (promised_delete th g t) by done. destruct (decide (x = g)) as [-> |Hx]; [naive_solver|]. rewrite Hne, (qs_run _ _ _ _ _ Q) by done. set_solver.
  - intros x. destruct (decide (x = g)) as [-> |Hx]; [naive_solver|]. rewrite Hne, (qs_out _ _ _ _ _ Q) by done. set_solver.
  - intros x. destruct (decide (x = g)) as [-> |Hx]; [naive_solver|]. rewrite Hne, (qs_sleep _ _ _ _ _ Q) by done. set_solver.
  - intros x Hx. rewrite (promised_delete th g t) by done. apply (qs_limbo _ _ _ _ _ Q). set_solver.
Qed.

(** *** Handoffs *)

Lemma handoffs_put th g t t' : handoffs th -> th !! g = Some t -> handoffThread t' = handoffThread t -> mask t' = mask t ->
  (handoffThread t <> None -> th_state t' = T_RUNNING /\ th_cid t' = th_cid t) -> (promised th g -> th_state t' = T_QUEUED) -> handoffs (<[g := t']> th).
Proof.
  intros H Hg Hh Hm Hrun Hq.
  assert (Hback : forall v tv x, <[g := t']> th !! v = Some tv -> handoffThread tv = Some x -> exists tv0, th !! v = Some tv0 /\ handoffThread tv0 = Some x /\ th_state tv = T_RUNNING /\ th_cid tv = th_cid tv0).
  { intros v tv x Hv Hx. th_case Hv; [|exists tv; split_and!; try done; by apply (ho_target _ H v tv x)]. exists t. rewrite Hh in Hx. destruct Hrun as [Hr1 Hr2]; [congruence|]. done. }
  constructor.
  - intros v tv x Hv Hx. destruct (Hback v tv x Hv Hx) as (tv0 & Hv0 & Hx0 & Hr & Hc). split; [done|]. destruct (ho_target _ H v tv0 x Hv0 Hx0) as (_ & tx & Htx & Hqx & Hmx). rewrite Hc. destruct (decide (x = g)) as [-> |Hne].
    + exists t'. rewrite lookup_insert_eq. rewrite Hg in Htx. injection Htx as <-. split_and!; [done|apply Hq; by exists v, tv0|]. unfold may_use. by rewrite Hm.
    + exists tx. by rewrite lookup_insert_ne.
  - intros v v' tv tv' x Hv Hv' Hx Hx'. destruct (Hback v tv x Hv Hx) as (t1 & E1 & E2 & _). destruct (Hback v' tv' x Hv' Hx') as (t2 & E3 & E4 & _). by apply (ho_once _ H v v' t1 t2 x).
Qed.

Lemma handoffs_new th g t : handoffs th -> th !! g = None -> handoffThread t = None -> handoffs (<[g := t]> th).
Proof.
  intros H Hg Hh. constructor.
  - intros v tv x Hv Hx. th_case Hv; [congruence|]. destruct (ho_target _ H v tv x Hv Hx) as (Hr & tx & Htx & Hq). split; [done|]. exists tx. rewrite lookup_insert_ne; [done|]. intros ->. congruence.
  - intros v v' tv tv' x Hv Hv' Hx Hx'. th_case Hv; [congruence|]. th_case Hv'; [congruence|]. by apply (ho_once _ H v v' tv tv' x).
Qed.

Lemma handoffs_delete th g : handoffs th -> ~ promised th g -> handoffs (delete g th).
Proof.
  intros H Hp. constructor.
  - intros v tv x Hv Hx. apply lookup_delete_Some in Hv as [_ Hv]. destruct (ho_target _ H v tv x Hv Hx) as (Hr & tx & Htx & Hq). split; [done|]. exists tx. rewrite lookup_delete_ne; [done|]. intros ->. apply Hp. by exists v, tv.
  - intros v v' tv tv' x Hv Hv' Hx Hx'. apply lookup_delete_Some in Hv as [_ Hv], Hv' as [_ Hv']. by apply (ho_once _ H v v' tv tv' x).
Qed.

Lemma not_promised th g t : handoffs th -> th !! g = Some t -> th_state t <> T_QUEUED -> ~ promised th g.
Proof. intros H Hg Hs (v & tv & Hv & Hx). destruct (ho_target _ H v tv g Hv Hx) as (_ & tg & Htg & Hq & _). congruence. Qed.

(** The handoff is over: the receiver is in limbo. *)
Lemma handoff_done th run out slp L g t x : queues th run out slp L -> handoffs th -> th !! g = Some t -> handoffThread t = Some x ->
  queues (<[g := t_handoff t None]> th) run out slp ({[x]} ∪ L) /\ handoffs (<[g := t_handoff t None]> th).
Proof.
  intros Q H Hg Hx. set (th' := <[g := t_handoff t None]> th).
  assert (Hpr : forall y, promised th' y <-> promised th y /\ y <> x).
  { intros y. split.
    - intros (v & tv & Hv & Hy). th_case Hv; [done|]. split; [by exists v, tv|]. intros ->. by pose proof (ho_once _ H v g tv t x Hv Hg Hy Hx).
    - intros [(v & tv & Hv & Hy) Hne]. exists v, tv. unfold th'. rewrite lookup_insert_ne; [done|]. intros ->. congruence. }
  assert (Heq : forall st y, (exists ty, th' !! y = Some ty /\ th_state ty = st) <-> exists ty, th !! y = Some ty /\ th_state ty = st).
  { intros st y. unfold th'. destruct (decide (y = g)) as [-> |Hne]; [|by apply in_state_put]. rewrite in_state_eq. simpl. split; [by exists t|]. intros (ty & Hy & <-). congruence. }
  pose proof (ho_target _ H g t x Hg Hx) as (Hrun & tx & Htx & Hqx & _).
  assert (Hpx : promised th x) by (by exists g, t). split.
  - constructor; try apply Q.
    + intros y. rewrite Heq, Hpr, (qs_run _ _ _ _ _ Q). destruct (decide (y = x)) as [-> |Hne]; [split; [naive_solver|intros (_ & HL & _); set_solver]|]. set_solver.
    + intros y. rewrite Heq, (qs_out _ _ _ _ _ Q). destruct (decide (y = x)) as [-> |Hne]; [|set_solver]. split; [intros ((ty & Hy & Hs) & _); congruence|intros (_ & HL); set_solver].
    + intros y. rewrite Heq, (qs_sleep _ _ _ _ _ Q). destruct (decide (y = x)) as [-> |Hne]; [|set_solver]. split; [intros ((ty & Hy & Hs) & _); congruence|intros (_ & HL); set_solver].
    + intros y [ ->%elem_of_singleton|Hy]%elem_of_union; rewrite Hpr; [naive_solver|]. intros [Hpy _]. by apply (qs_limbo _ _ _ _ _ Q y).
  - constructor.
    + intros v tv y Hv Hy. th_case Hv; [done|]. destruct (ho_target _ H v tv y Hv Hy) as (Hr & ty & Hty & Hqy & Hmy). split; [done|]. exists ty. unfold th'. rewrite lookup_insert_ne; [done|]. intros ->. congruence.
    + intros v v' tv tv' y Hv Hv' Hy Hy'. th_case Hv; [done|]. th_case Hv'; [done|]. by apply (ho_once _ H v v' tv tv' y).
Qed.

(** *** Busy cores *)

Section Running.
Context (th : threads_map) (g : Z) (t t' : ThreadInfo) (Hg : th !! g = Some t).

Lemma running_in : th_state t' = T_RUNNING -> running_at (<[g := t']> th) (th_cid t').
Proof using Type. intros Hr. exists g, t'. by rewrite lookup_insert_eq. Qed.

Lemma running_stays c : running_at th c -> (th_state t = T_RUNNING -> th_cid t = c -> th_state t' = T_RUNNING /\ th_cid t' = c) -> running_at (<[g := t']> th) c.
Proof using Hg.
  intros (x & tx & Hx & Hr & Hc) Hs. destruct (decide (x = g)) as [-> |Hne]; [|exists x, tx; by rewrite lookup_insert_ne]. rewrite Hg in Hx. injection Hx as <-. destruct (Hs Hr Hc). exists g, t'. by rewrite lookup_insert_eq.
Qed.

Lemma running_was xs free C c : placement th xs free C -> running_at (<[g := t']> th) c -> th_state t' = T_RUNNING /\ th_cid t' = c \/ running_at th c /\ (on t = true -> th_cid t <> c).
Proof using Hg.
  intros P (x & tx & Hx & Hr & Hc). th_case Hx; [by left|]. right. split; [by exists x, tx|]. intros Ho He. destruct (pl_on _ _ _ _ P g t Hg Ho) as [H1 _]. destruct (pl_on _ _ _ _ P x tx Hx) as [H2 _]; [by apply on_running|].
  rewrite Hc, <- He in H2. pose proof (ctx_at_fun _ _ _ _ H1 H2). unfold used in *. congruence.
Qed.

Lemma busy_put run C C' : busy th run C -> mask t' = mask t ->
  (forall c, running_at th c -> c ∉ C' -> running_at (<[g := t']> th) c) -> (forall c, c ∈ C -> c ∉ C' -> running_at (<[g := t']> th) c) -> busy (<[g := t']> th) run C'.
Proof using Hg.
  intros B Hm H1 H2 x tx c Hx Htx Hmc HC. destruct (decide (c ∈ C)) as [HcC|HcC]; [by apply H2|]. apply H1; [|done]. th_case Htx; [|by apply (B x tx c)]. apply (B g t c); [done|done| |done]. unfold may_use. by rewrite <- Hm.
Qed.
End Running.

Lemma busy_weaken th run run' C C' : busy th run C -> run' ⊆ run -> C ⊆ C' -> busy th run' C'.
Proof. intros B Hr HC g t c Hg Ht Hm Hc. apply (B g t c); set_solver. Qed.

Lemma busy_snoc th run C g t : busy th run C -> th !! g = Some t -> (forall c, may_use t c -> c ∉ C -> running_at th c) -> busy th (run ++ [g]) C.
Proof. intros B Hg Hc x tx c [Hx|Hx]%elem_of_app Htx; [by apply (B x)|]. apply list_elem_of_singleton in Hx as ->. rewrite Hg in Htx. injection Htx as <-. apply Hc. Qed.

Lemma busy_settle th run C c : busy th run C -> running_at th c \/ (forall g t, g ∈ run -> th !! g = Some t -> ~ may_use t c) -> busy th run (C ∖ {[c]}).
Proof.
  intros B H g t k Hg Ht Hm HC. destruct (decide (k = c)) as [-> |Hne]; [destruct H as [H|H]; [done|by destruct (H g t Hg Ht)]|]. apply (B g t k); set_solver.
Qed.

(** *** Sleepers and fake leaves *)

Lemma ordered_put th slp g t t' : ordered th slp -> th !! g = Some t -> (g ∈ slp -> wakeupPhase t' = wakeupPhase t) -> ordered (<[g := t']> th) slp.
Proof.
  intros Ho Hg Hw. assert (Hb : forall a b, a ∈ slp -> b ∈ slp -> wakes_before th a b -> wakes_before (<[g := t']> th) a b).
  { intros a b Ha Hb Hab ta tb Hta Htb. assert (E : forall y ty, y ∈ slp -> <[g := t']> th !! y = Some ty -> exists ty0, th !! y = Some ty0 /\ wakeupPhase ty = wakeupPhase ty0).
    { intros y ty Hy Hty. th_case Hty; [exists t; split; [done|by apply Hw]|by exists ty]. }
    destruct (E a ta Ha Hta) as (a0 & Ha0 & ->). destruct (E b tb Hb Htb) as (b0 & Hb0 & ->). by apply Hab. }
  clear Hw. unfold ordered in *. induction Ho as [|a slp Ho IH Hf]; [constructor|]. constructor.
  - apply IH. intros x y Hx Hy. apply Hb; by right.
  - rewrite Forall_forall in *. intros y Hy. apply Hb; [by left|by right|by apply Hf].
Qed.

Lemma ordered_filter th slp g : ordered th slp -> ordered th (filter (fun y => y <> g) slp).
Proof.
  unfold ordered. induction 1 as [|a slp Ho IH Hf]; [constructor|]. rewrite filter_cons. destruct (decide (a <> g)); [|done]. constructor; [done|]. rewrite Forall_forall in *. intros y Hy. apply Hf. by apply list_elem_of_filter in Hy as [_ Hy].
Qed.

Lemma ordered_other th th' slp : ordered th slp -> (forall g, g ∈ slp -> th' !! g = th !! g) -> ordered th' slp.
Proof.
  unfold ordered. induction 1 as [|a slp Ho IH Hf]; intros He; [constructor|]. constructor.
  - apply IH. intros x Hx. apply He. by right.
  - rewrite Forall_forall in *. intros y Hy ta tb Ha Hb. rewrite He in Ha by (by left). rewrite He in Hb by (by right). by apply (Hf y Hy).
Qed.

(** The ordered insertion. *)
Lemma sleep_after_ok s g tg slp : ordered (s_threads s) slp -> s_threads s !! g = Some tg -> (forall x, x ∈ slp -> is_Some (s_threads s !! x)) ->
  exists slp', sleep_after s g (wakeupPhase tg) slp = Ret slp' /\ slp' ≡ₚ g :: slp /\ ordered (s_threads s) slp'.
Proof.
  intros Ho Hg. unfold ordered in *. induction Ho as [|a slp Ho IH Hf]; intros Hin; cbn [sleep_after].
  - exists [g]. split; [done|]. split; [done|]. repeat constructor.
  - destruct (Hin a ltac:(by left)) as [ta Ha]. unfold thread. rewrite Ha. cbn [mbind outcome_bind]. rewrite Forall_forall in Hf. destruct (wakeupPhase ta <=? wakeupPhase tg) eqn:E; zb.
    + destruct IH as (slp' & -> & Hp & Hs); [intros x Hx; apply Hin; by right|]. cbn [mbind outcome_bind]. exists (a :: slp'). split; [done|]. split; [rewrite Hp; apply Permutation_swap|]. constructor; [done|].
      rewrite Forall_forall. intros y Hy. rewrite Hp in Hy. apply elem_of_cons in Hy as [-> |Hy]; [|by apply Hf]. intros ta' tg' Ha' Hg'. congruence.
    + exists (g :: a :: slp). split; [done|]. split; [done|]. constructor; [by constructor; [|rewrite Forall_forall]|]. rewrite Forall_forall. intros y Hy tg' ty Hg' Hy'. rewrite Hg in Hg'. injection Hg' as <-.
      apply elem_of_cons in Hy as [-> |Hy]; [rewrite Ha in Hy'; injection Hy' as <-; lia|]. pose proof (Hf y Hy ta ty Ha Hy'). lia.
Qed.

Lemma fakes_put th fl g t t' : fakes th fl -> th !! g = Some t -> fakeLeave t' = fakeLeave t -> fakes (<[g := t']> th) fl.
Proof.
  intros [Hn Hi] Hg Hf. constructor; [done|]. intros x. rewrite Hi. destruct (decide (x = g)) as [-> |Hne]; [|by rewrite in_state_put]. rewrite in_state_eq, Hf. split; [intros (tx & Hx & Hfx); congruence|by exists t].
Qed.

Lemma fakes_new th fl g t : fakes th fl -> th !! g = None -> fakeLeave t = false -> fakes (<[g := t]> th) fl.
Proof.
  intros [Hn Hi] Hg Hf. constructor; [done|]. intros x. rewrite Hi. destruct (decide (x = g)) as [-> |Hne]; [|by rewrite in_state_put]. rewrite in_state_eq, Hf. split; [intros (tx & Hx & Hfx); congruence|done].
Qed.

Lemma fakes_delete th fl g t : fakes th fl -> th !! g = Some t -> fakeLeave t = false -> fakes (delete g th) fl.
Proof.
  intros [Hn Hi] Hg Hf. constructor; [done|]. intros x. rewrite Hi. destruct (decide (x = g)) as [-> |Hne]; [|by rewrite lookup_delete_ne]. rewrite lookup_delete_eq. split; [intros (tx & Hx & Hfx); congruence|]. by intros (tx & ? & _).
Qed.

(** *** Searching a list *)

Lemma find_ok (p : Z -> outcome bool) (P : Z -> Prop) q : (forall x, x ∈ q -> exists b : bool, p x = Ret b /\ (b = true <-> P x)) ->
  exists o, find_ p q = Ret o /\ match o with Some x => x ∈ q /\ P x | None => forall x, x ∈ q -> ~ P x end.
Proof.
  induction q as [|x q IH]; intros Hp; cbn [find_]; [exists None; split; [done|]; by intros x ?%not_elem_of_nil|]. destruct (Hp x ltac:(by left)) as (b & -> & Hb). cbn [mbind outcome_bind]. destruct b.
  - exists (Some x). split; [done|]. split; [by left|by apply Hb].
  - destruct IH as (o & -> & Ho); [intros y Hy; apply Hp; by right|]. exists o. split; [done|]. destruct o as [y|]; [destruct Ho; split; [by right|done]|]. intros y [-> |Hy]%elem_of_cons; [|by apply Ho]. intros HP. by apply Hb in HP.
Qed.

Lemma q_remove_ok q x : x ∈ q -> q_remove q x = Ret (filter (fun y => y <> x) q).
Proof. intros Hx. unfold q_remove. by rewrite bool_decide_true. Qed.
