(* ===== verification/SchedInv.v ===== *)
(** * Invariants of the thread scheduler

    Threads, contexts, queues and the barrier below agree over all histories of the operations
    of ThreadSched.v, and every operation returns. *)

From Stdlib Require Import Sorting.Sorted.
From S2P Require Import Prelude Barrier ThreadSched SchedParts.

Definition is_used (x : ContextInfo) : bool := bool_decide (ctx_state x = USED).

Record pins_ok (s : Sched) : Prop := {
  pi_length : length (pinCoreStatus (s_pins s)) = length (s_contexts s);
  pi_map : forall g c, threadPinCoreMap (s_pins s) !! g = Some c -> is_Some (s_threads s !! g) /\ 0 <= c < numCores s /\ exists st, at_ (pinCoreStatus (s_pins s)) c = Ret st /\ g ∈ st
}.

Record shape (s : Sched) (L C : gset Z) : Prop := {
  sh_n : 1 <= numCores s <= MAX_THREADS;
  sh_thread : forall g t, s_threads s !! g = Some t -> thread_ok (numCores s) t;
  sh_futex : forall g t, s_threads s !! g = Some t -> g ∉ L -> th_state t = T_QUEUED \/ th_state t = T_SLEEPING -> th_futex t = 1;
  sh_placed : placement (s_threads s) (s_contexts s) (freeList s) C;
  sh_queues : queues (s_threads s) (runQueue s) (outQueue s) (sleepQueue s) L;
  sh_handoffs : handoffs (s_threads s);
  sh_busy : busy (s_threads s) (runQueue s) C;
  sh_ordered : ordered (s_threads s) (sleepQueue s);
  sh_fakes : fakes (s_threads s) (fakeLeaves s);
  sh_count : scheduledThreads s = count_b is_used (s_contexts s);
  sh_cores : c_gid <$> cores s = curThread <$> s_contexts s;
  sh_quantum : 1 <= schedQuantum s;
  sh_phase : curPhase s = numPhases s;
  sh_pins : pins_ok s
}.

Definition joined (s : Sched) (c : Z) : option bool := c_joined <$> cores s !! Z.to_nat c.

Lemma shape_cores_length s L C : shape s L C -> length (cores s) = length (s_contexts s).
Proof. intros S. pose proof (f_equal length (sh_cores _ _ _ S)) as H. by rewrite !length_fmap in H. Qed.

Lemma thread_get s g t : s_threads s !! g = Some t -> thread s g = Ret t.
Proof. intros H. unfold thread. by rewrite H. Qed.

(** The threads that an operation leaves alone keep their pins. *)
Lemma pins_keep s s' : pins_ok s -> s_pins s' = s_pins s -> length (s_contexts s') = length (s_contexts s) -> (forall g, is_Some (s_threads s !! g) -> is_Some (s_threads s' !! g)) -> pins_ok s'.
Proof.
  intros [H1 H2] Hp Hl Hd. constructor; rewrite Hp; [congruence|]. intros g c Hg. destruct (H2 g c Hg) as (Ht & Hc & Hst). split; [by apply Hd|]. unfold numCores. by rewrite Hl.
Qed.

Lemma is_some_insert (th : threads_map) g t x : is_Some (th !! x) -> is_Some (<[g := t]> th !! x).
Proof. intros [y Hy]. destruct (decide (x = g)) as [-> |Hne]; [rewrite lookup_insert_eq; by eexists|]. rewrite lookup_insert_ne by done. by eexists. Qed.

(** A thread changes what neither contexts nor queues depend on. *)
Lemma shape_put s L C g t t' : shape s L C -> s_threads s !! g = Some t -> thread_ok (numCores s) t' ->
  th_state t' = th_state t -> th_cid t' = th_cid t -> mask t' = mask t -> handoffThread t' = handoffThread t -> fakeLeave t' = fakeLeave t -> (th_state t = T_SLEEPING -> wakeupPhase t' = wakeupPhase t) ->
  (g ∉ L -> th_state t = T_QUEUED \/ th_state t = T_SLEEPING -> th_futex t' = 1) -> shape (put s g t') L C.
Proof.
  intros S Hg Hok Hs Hc Hm Hh Hf Hw Hx. assert (Hon : on t' = on t) by (unfold on; by rewrite Hs). constructor; cbn [put w_threads numCores s_threads s_contexts freeList runQueue outQueue sleepQueue fakeLeaves scheduledThreads cores schedQuantum curPhase numPhases]; try apply S.
  - intros x tx Hy. th_case Hy; [done|by apply (sh_thread _ _ _ S x)].
  - intros x tx Hy. th_case Hy; [rewrite Hs; apply Hx|by apply (sh_futex _ _ _ S x)].
  - eapply placed_keep; [apply S|exact Hg|done|done|done].
  - eapply queues_same; [apply S|exact Hg|done|done].
  - eapply handoffs_put; [apply S|exact Hg|done|done| |].
    + intros Hn. destruct (handoffThread t) as [x|] eqn:E; [|done]. destruct (ho_target _ (sh_handoffs _ _ _ S) g t x Hg E) as [Hr _]. rewrite Hs. done.
    + intros (v & tv & Hv & Hvg). destruct (ho_target _ (sh_handoffs _ _ _ S) v tv g Hv Hvg) as (_ & tg & Htg & Hq & _). congruence.
  - eapply busy_put; [exact Hg|apply S|done| |done]. intros c Hrun _. eapply running_stays; [exact Hg|exact Hrun|]. intros H1 H2. split; congruence.
  - eapply ordered_put; [apply S|exact Hg|]. intros Hin. apply Hw. apply (qs_sleep _ _ _ _ _ (sh_queues _ _ _ S)) in Hin as ((tx & Htx & Hsx) & _). congruence.
  - eapply fakes_put; [apply S|exact Hg|done].
  - eapply pins_keep; [apply S|done|done|]. intros x. apply is_some_insert.
Qed.

Lemma map_fmap_id_in (f : ThreadInfo -> ThreadInfo) (th : threads_map) : (forall g t, th !! g = Some t -> f t = t) -> f <$> th = th.
Proof. intros Hf. apply map_eq. intros g. rewrite lookup_fmap. destruct (th !! g) as [t|] eqn:E; [simpl; by rewrite (Hf g t E)|done]. Qed.

(** A core is told something. *)
Definition note (s : Sched) (c : Z) (f : CoreNote -> CoreNote) : Sched := w_cores s (alter f (Z.to_nat c) (cores s)).

(** What the parts do not see. *)
Tactic Notation "shape_fields" := cbn [put w_threads w_contexts w_free w_run w_out w_sleep w_fake w_blocking w_phase w_count w_calls w_cores w_bar w_pins note
  s_threads s_contexts freeList runQueue outQueue sleepQueue fakeLeaves blockingSyscalls curPhase numPhases schedQuantum scheduledThreads s_calls cores s_bar s_pins].
Tactic Notation "shape_fields" "in" hyp(H) := cbn [put w_threads w_contexts w_free w_run w_out w_sleep w_fake w_blocking w_phase w_count w_calls w_cores w_bar w_pins note
  s_threads s_contexts freeList runQueue outQueue sleepQueue fakeLeaves blockingSyscalls curPhase numPhases schedQuantum scheduledThreads s_calls cores s_bar s_pins] in H.

(** ** What the primitive operations do *)

Lemma alter_known {A} (f : A -> A) (l : list A) i x : l !! i = Some x -> alter f i l = <[i := f x]> l.
Proof.
  intros Hx. pose proof (lookup_lt_Some _ _ _ Hx). apply list_eq. intros j. destruct (decide (i = j)) as [<-|Hne]; [by rewrite list_lookup_alter_eq, list_lookup_insert_eq, Hx|]. by rewrite list_lookup_alter_ne, list_lookup_insert_ne.
Qed.

Lemma core_set_ok s c f : length (cores s) = length (s_contexts s) -> 0 <= c < numCores s -> core_set s c f = Ret (note s c f).
Proof.
  intros Hl Hc. unfold numCores in Hc. unfold core_set. destruct (lookup_lt_is_Some_2 (cores s) (Z.to_nat c)) as [n Hn]; [lia|].
  rewrite (at_ret _ _ n) by (done || lia). cbn [mbind outcome_bind]. rewrite set_at_ret by lia. cbn [mbind outcome_bind]. unfold note. by rewrite (alter_known f _ _ n).
Qed.

(** A core is told to join or to leave. *)
Lemma shape_note s L C c f : shape s L C -> (forall n, c_gid (f n) = c_gid n) -> shape (note s c f) L C.
Proof.
  intros S Hf. constructor; try apply S; [|eapply pins_keep; [apply S|done|done|done] ]. unfold note. shape_fields. rewrite <- (sh_cores _ _ _ S). apply list_eq. intros i. rewrite !list_lookup_fmap, list_lookup_alter. case_decide; [subst|done].
  destruct (cores s !! Z.to_nat c); simpl; [by rewrite Hf|done].
Qed.

Definition scheduled (s : Sched) (g : Z) (t : ThreadInfo) (c : Z) : Sched :=
  note (w_count (w_contexts (put s g (t_place t T_RUNNING c)) (<[Z.to_nat c := used g]> (s_contexts s))) (scheduledThreads s + 1)) c (fun n => mkCore (c_joined n) (Some g)).

Definition descheduled (s : Sched) (g : Z) (t : ThreadInfo) (target : ThreadState) : Sched :=
  note (w_count (w_contexts (put s g (t_state t target)) (<[Z.to_nat (th_cid t) := no_thread]> (s_contexts s))) (scheduledThreads s - 1)) (th_cid t) (fun n => mkCore (c_joined n) None).

Lemma fmap_alter_insert {A B} (h : CoreNote -> A) (k : B -> A) (f : CoreNote -> CoreNote) (l : list CoreNote) (xs : list B) i y :
  h <$> l = k <$> xs -> (i < length xs)%nat -> (forall n, h (f n) = k y) -> h <$> alter f i l = k <$> <[i := y]> xs.
Proof.
  intros He Hi Hf. pose proof (f_equal length He) as Hl. rewrite !length_fmap in Hl. apply list_eq. intros j. rewrite !list_lookup_fmap, list_lookup_alter. case_decide as Hij.
  - subst j. rewrite list_lookup_insert_eq by done. destruct (lookup_lt_is_Some_2 l i) as [n ->]; [lia|]. simpl. by rewrite Hf.
  - rewrite list_lookup_insert_ne by done. pose proof (f_equal (fun z => z !! j) He) as Hj. simpl in Hj. by rewrite !list_lookup_fmap in Hj.
Qed.

Lemma count_bounds s L C : shape s L C -> 0 <= scheduledThreads s <= numCores s.
Proof. intros S. rewrite (sh_count _ _ _ S). split; [apply count_b_nonneg|apply count_b_length]. Qed.

Lemma schedule_ok s L C g t c : shape s L C -> s_threads s !! g = Some t -> th_state t = T_STARTED \/ th_state t = T_BLOCKED \/ th_state t = T_QUEUED -> g ∈ L \/ queueless (th_state t) = true -> ~ promised (s_threads s) g ->
  c ∈ C -> may_use t c -> schedule s g c = Ret (scheduled s g t c) /\ shape (scheduled s g t c) (L ∖ {[g]}) (C ∖ {[c]}).
Proof.
  intros S Hg Hs Hq Hp HC Hm. pose proof (sh_thread _ _ _ S g t Hg) as Hok. pose proof (pl_limbo _ _ _ _ (sh_placed _ _ _ S) c HC) as [Hc0 Hc]. pose proof (lookup_lt_Some _ _ _ Hc) as Hcl.
  pose proof (count_bounds _ _ _ S) as Hcb. pose proof (sh_n _ _ _ S) as Hn. unfold numCores, MAX_THREADS in Hn, Hcb.
  assert (Hoff : on t = false) by (apply on_false; destruct Hs as [Hs|[Hs|Hs] ]; rewrite Hs; done).
  assert (Hh : handoffThread t = None) by (destruct (handoffThread t) as [x|] eqn:E; [|done]; destruct (ho_target _ (sh_handoffs _ _ _ S) g t x Hg E) as [Hr _]; rewrite Hr in Hs; naive_solver).
  split.
  - unfold schedule. rewrite (thread_get _ _ _ Hg). cbn [mbind outcome_bind]. rewrite (at_ret _ _ no_thread) by done. cbn [mbind outcome_bind]. rewrite bool_decide_true by done. cbn [assert_ mbind outcome_bind no_thread ctx_state curThread bool_decide decide].
    rewrite !bool_decide_true by done. cbn [assert_ mbind outcome_bind]. shape_fields. rewrite set_at_ret by lia. cbn [mbind outcome_bind]. unfold contextSwitch. rewrite core_set_ok; [|by shape_fields; rewrite length_insert; apply (shape_cores_length _ _ _ S)|unfold numCores; shape_fields; rewrite length_insert; lia].
    unfold scheduled. by rewrite u32_small by lia.
  - constructor; unfold scheduled, numCores; shape_fields; rewrite ?length_insert; try apply S.
    + intros x tx Hx. th_case Hx; [|by apply (sh_thread _ _ _ S x)]. constructor; simpl; try apply Hok. lia.
    + intros x tx Hx HL. th_case Hx; [intros [?|?]; done|]. apply (sh_futex _ _ _ S x); [done|set_solver].
    + eapply placed_take; [apply S|exact Hg|done|by apply on_running|done|done|done].
    + pose proof (queues_state _ _ _ _ _ (sh_queues _ _ _ S) g t (t_place t T_RUNNING c) Hg eq_refl Hq Hp) as H. exact H.
    + eapply handoffs_put; [apply S|exact Hg|done|done|by rewrite Hh|done].
    + eapply busy_put; [exact Hg|apply S|done| |].
      * intros k Hk _. eapply running_stays; [exact Hg|exact Hk|]. intros Hr. rewrite Hr in Hs. naive_solver.
      * intros k Hk HkC. destruct (decide (k = c)) as [-> |Hne]; [by apply (running_in _ _ (t_place t T_RUNNING c))|]. destruct HkC. apply elem_of_difference. by rewrite elem_of_singleton.
    + eapply ordered_put; [apply S|exact Hg|done].
    + eapply fakes_put; [apply S|exact Hg|done].
    + rewrite (count_b_insert _ _ _ _ _ Hc). rewrite (sh_count _ _ _ S). unfold is_used. simpl. lia.
    + apply fmap_alter_insert; [apply S|done|done].
    + eapply pins_keep; [apply S|done|shape_fields; by rewrite length_insert|]. intros x. apply is_some_insert.
Qed.

Lemma deschedule_ok s L C g t target : shape s L C -> s_threads s !! g = Some t -> th_state t = T_RUNNING \/ th_state t = T_OUT /\ g ∈ L -> handoffThread t = None ->
  target = T_BLOCKED \/ target = T_QUEUED \/ target = T_SLEEPING ->
  deschedule s g (th_cid t) target = Ret (descheduled s g t target) /\ shape (descheduled s g t target) (if queueless target then L ∖ {[g]} else {[g]} ∪ L) ({[th_cid t]} ∪ C).
Proof.
  intros S Hg Hs Hh Htg. pose proof (sh_thread _ _ _ S g t Hg) as Hok. assert (Hon : on t = true) by (apply on_true; naive_solver). destruct (pl_on _ _ _ _ (sh_placed _ _ _ S) g t Hg Hon) as [[Hc0 Hc] Hm]. pose proof (lookup_lt_Some _ _ _ Hc) as Hcl.
  pose proof (count_bounds _ _ _ S) as Hcb. pose proof (sh_n _ _ _ S) as Hn. unfold numCores, MAX_THREADS in Hn, Hcb.
  assert (Hpos : 0 < scheduledThreads s) by (rewrite (sh_count _ _ _ S); by apply (count_b_pos _ _ _ _ Hc)).
  assert (Hp : ~ promised (s_threads s) g) by (eapply not_promised; [apply S|exact Hg|destruct Hs as [Hs|[Hs _] ]; congruence]).
  split.
  - unfold deschedule. rewrite (thread_get _ _ _ Hg). cbn [mbind outcome_bind]. rewrite (at_ret _ _ (used g)) by done. cbn [mbind outcome_bind]. rewrite (bool_decide_true (th_state t = T_RUNNING \/ th_state t = T_OUT)) by (by apply on_true). cbn [assert_ mbind outcome_bind used ctx_state curThread].
    rewrite Z.eqb_refl, !bool_decide_true by done. cbn [assert_ mbind outcome_bind]. shape_fields. rewrite set_at_ret by lia. cbn [mbind outcome_bind]. unfold contextSwitch. rewrite core_set_ok; [|by shape_fields; rewrite length_insert; apply (shape_cores_length _ _ _ S)|unfold numCores; shape_fields; rewrite length_insert; lia].
    unfold descheduled. by rewrite u32_small by lia.
  - constructor; unfold descheduled, numCores; shape_fields; rewrite ?length_insert; try apply S.
    + intros x tx Hx. th_case Hx; [|by apply (sh_thread _ _ _ S x)]. constructor; simpl; apply Hok.
    + intros x tx Hx HL. th_case Hx; [|apply (sh_futex _ _ _ S x); [done|]; destruct (queueless target); set_solver]. intros [E|E]; simpl in E; subst target; set_solver.
    + eapply placed_give; [apply S|exact Hg|done|apply on_false; simpl; naive_solver].
    + refine (queues_state _ _ _ _ _ (sh_queues _ _ _ S) g t (t_state t target) Hg eq_refl _ Hp). destruct Hs as [Hs|[_ HL] ]; [right; by rewrite Hs|by left].
    + eapply handoffs_put; [apply S|exact Hg|done|done|by rewrite Hh|done].
    + eapply busy_put; [exact Hg|apply S|done| |intros k Hk HkC; set_solver]. intros k Hk HkC. eapply running_stays; [exact Hg|exact Hk|]. intros _ <-. set_solver.
    + eapply ordered_put; [apply S|exact Hg|done].
    + eapply fakes_put; [apply S|exact Hg|done].
    + rewrite (count_b_insert _ _ _ _ _ Hc). rewrite (sh_count _ _ _ S). unfold is_used. simpl. lia.
    + apply fmap_alter_insert; [apply S|done|done].
    + eapply pins_keep; [apply S|done|shape_fields; by rewrite length_insert|]. intros x. apply is_some_insert.
Qed.

(** A thread in no queue changes its state and keeps or lacks its context. *)
Lemma shape_state s L C g t t' : shape s L C -> s_threads s !! g = Some t -> on t' = on t -> th_cid t' = th_cid t -> mask t' = mask t -> handoffThread t' = None -> handoffThread t = None -> fakeLeave t' = fakeLeave t -> needsJoin t' = false ->
  g ∈ L \/ queueless (th_state t) = true -> th_state t <> T_QUEUED ->
  (th_state t = T_RUNNING -> th_state t' = T_RUNNING \/ forall x tx, x ∈ runQueue s -> s_threads s !! x = Some tx -> ~ may_use tx (th_cid t)) ->
  shape (put s g t') (if queueless (th_state t') then L ∖ {[g]} else {[g]} ∪ L) C.
Proof.
  intros S Hg Hon Hc Hm Hh' Hh Hf Hj Hq Hnq Hb. pose proof (sh_thread _ _ _ S g t Hg) as Hok. assert (Hp : ~ promised (s_threads s) g) by (eapply not_promised; [apply S|exact Hg|done]).
  constructor; unfold numCores; shape_fields; try apply S.
  - intros x tx Hx. th_case Hx; [|by apply (sh_thread _ _ _ S x)]. constructor; rewrite ?Hc, ?Hm; try apply Hok. done.
  - intros x tx Hx HL. th_case Hx; [|apply (sh_futex _ _ _ S x); [done|]; destruct (queueless (th_state t')); set_solver]. intros E. exfalso. apply HL. destruct E as [E|E]; rewrite E; set_solver.
  - eapply placed_keep; [apply S|exact Hg|done|done|done].
  - refine (queues_state _ _ _ _ _ (sh_queues _ _ _ S) g t t' Hg _ Hq Hp). congruence.
  - eapply handoffs_put; [apply S|exact Hg|congruence|done|by rewrite Hh|done].
  - intros x tx k Hx Htx Hmk HkC. assert (Htx' : exists tx0, s_threads s !! x = Some tx0 /\ may_use tx0 k).
    { th_case Htx; [exists t; split; [done|]; unfold may_use; by rewrite <- Hm|by exists tx]. }
    destruct Htx' as (tx0 & Hx0 & Hm0). pose proof (sh_busy _ _ _ S x tx0 k Hx Hx0 Hm0 HkC) as Hrun. eapply running_stays; [exact Hg|exact Hrun|]. intros Hr <-. destruct (Hb Hr) as [Hr'|Hno]; [done|]. by destruct (Hno x tx0 Hx Hx0).
  - eapply ordered_put; [apply S|exact Hg|]. intros Hin. destruct (free_of_queues _ _ _ _ _ (sh_queues _ _ _ S) g t Hg Hq) as (_ & _ & ?). done.
  - eapply fakes_put; [apply S|exact Hg|done].
  - eapply pins_keep; [apply S|done|done|]. intros x. apply is_some_insert.
Qed.

(** ** Queues of the whole state *)

Section Moves.
Context (s : Sched) (L C : gset Z) (S : shape s L C).

Lemma shape_unrun g : g ∈ runQueue s -> shape (w_run s (filter (fun y => y <> g) (runQueue s))) ({[g]} ∪ L) C.
Proof using S.
  intros Hg. constructor; unfold numCores; shape_fields; try apply S.
  - intros x tx Hx HL. apply (sh_futex _ _ _ S x); [done|set_solver].
  - by apply queues_unrun; [apply S|].
  - eapply busy_weaken; [apply S| |done]. intros x Hx. by apply list_elem_of_filter in Hx as [_ Hx].
  - eapply pins_keep; [apply S|done|done|done].
Qed.

Lemma shape_unout g : g ∈ outQueue s -> shape (w_out s (filter (fun y => y <> g) (outQueue s))) ({[g]} ∪ L) C.
Proof using S.
  intros Hg. pose proof (proj1 (qs_out _ _ _ _ _ (sh_queues _ _ _ S) g) Hg) as ((t & Ht & Hs) & _). constructor; unfold numCores; shape_fields; try apply S.
  - intros x tx Hx HL. apply (sh_futex _ _ _ S x); [done|set_solver].
  - apply queues_unout; [apply S|done|]. eapply not_promised; [apply S|exact Ht|congruence].
  - eapply pins_keep; [apply S|done|done|done].
Qed.

Lemma shape_unsleep g : g ∈ sleepQueue s -> shape (w_sleep s (filter (fun y => y <> g) (sleepQueue s))) ({[g]} ∪ L) C.
Proof using S.
  intros Hg. pose proof (proj1 (qs_sleep _ _ _ _ _ (sh_queues _ _ _ S) g) Hg) as ((t & Ht & Hs) & _). constructor; unfold numCores; shape_fields; try apply S.
  - intros x tx Hx HL. apply (sh_futex _ _ _ S x); [done|set_solver].
  - apply queues_unsleep; [apply S|done|]. eapply not_promised; [apply S|exact Ht|congruence].
  - apply ordered_filter, S.
  - eapply pins_keep; [apply S|done|done|done].
Qed.

Lemma shape_enter_run g t : s_threads s !! g = Some t -> th_state t = T_QUEUED -> th_futex t = 1 -> g ∈ L -> (forall c, may_use t c -> c ∉ C -> running_at (s_threads s) c) -> shape (w_run s (runQueue s ++ [g])) (L ∖ {[g]}) C.
Proof using S.
  intros Hg Hs Hf HL Hb. constructor; unfold numCores; shape_fields; try apply S.
  - intros x tx Hx HLx. destruct (decide (x = g)) as [-> |Hne]; [congruence|]. apply (sh_futex _ _ _ S x); [done|set_solver].
  - eapply (queues_enter _ _ _ _ _ (sh_queues _ _ _ S) g t); [done|done|by rewrite Hs|by rewrite Hs].
  - by eapply busy_snoc; [apply S|exact Hg|].
  - eapply pins_keep; [apply S|done|done|done].
Qed.

Lemma shape_enter_out g t : s_threads s !! g = Some t -> th_state t = T_OUT -> g ∈ L -> shape (w_out s (outQueue s ++ [g])) (L ∖ {[g]}) C.
Proof using S.
  intros Hg Hs HL. constructor; unfold numCores; shape_fields; try apply S.
  - intros x tx Hx HLx. destruct (decide (x = g)) as [-> |Hne]; [intros [E|E]; congruence|]. apply (sh_futex _ _ _ S x); [done|set_solver].
  - eapply (queues_enter _ _ _ _ _ (sh_queues _ _ _ S) g t); [done|done|by rewrite Hs|by rewrite Hs].
  - eapply pins_keep; [apply S|done|done|done].
Qed.

Lemma shape_enter_sleep g t slp : s_threads s !! g = Some t -> th_state t = T_SLEEPING -> th_futex t = 1 -> g ∈ L -> slp ≡ₚ g :: sleepQueue s -> ordered (s_threads s) slp -> shape (w_sleep s slp) (L ∖ {[g]}) C.
Proof using S.
  intros Hg Hs Hf HL Hp Ho. constructor; unfold numCores; shape_fields; try apply S; [| |done|].
  - intros x tx Hx HLx. destruct (decide (x = g)) as [-> |Hne]; [congruence|]. apply (sh_futex _ _ _ S x); [done|set_solver].
  - eapply (queues_enter _ _ _ _ _ (sh_queues _ _ _ S) g t); [done|done|by rewrite Hs|by rewrite Hs].
  - eapply pins_keep; [apply S|done|done|done].
Qed.

Lemma shape_unfree c : c ∈ freeList s -> shape (w_free s (filter (fun y => y <> c) (freeList s))) L ({[c]} ∪ C).
Proof using S.
  intros Hc. constructor; unfold numCores; shape_fields; try apply S.
  - by apply placed_unfree; [apply S|].
  - eapply busy_weaken; [apply S|done|set_solver].
  - eapply pins_keep; [apply S|done|done|done].
Qed.

Lemma shape_free c : c ∈ C -> (forall g t, g ∈ runQueue s -> s_threads s !! g = Some t -> ~ may_use t c) -> shape (w_free s (freeList s ++ [c])) L (C ∖ {[c]}).
Proof using S.
  intros Hc Hno. constructor; unfold numCores; shape_fields; try apply S.
  - by apply placed_free; [apply S|].
  - apply busy_settle; [apply S|by right].
  - eapply pins_keep; [apply S|done|done|done].
Qed.

Lemma mask_at t c : thread_ok (numCores s) t -> 0 <= c < numCores s -> exists b : bool, at_ (mask t) c = Ret b /\ (b = true <-> may_use t c).
Proof using Type.
  intros Hok Hc. destruct (at_in_range (mask t) c) as [b Hb]; [rewrite (to_mask _ _ Hok); lia|]. exists b. split; [done|]. apply at_ret_iff in Hb as [_ Hb]. unfold may_use. rewrite Hb. naive_solver lia.
Qed.

(** *** [schedContext] *)

Lemma schedContext_ok c : 0 <= c < numCores s ->
  (schedContext s c = Ret (s, None) /\ (forall g t, g ∈ runQueue s -> s_threads s !! g = Some t -> ~ may_use t c)) \/
  (exists g t, schedContext s c = Ret (w_run s (filter (fun y => y <> g) (runQueue s)), Some g) /\ g ∈ runQueue s /\ s_threads s !! g = Some t /\ th_state t = T_QUEUED /\ may_use t c).
Proof using S.
  intros Hc. unfold schedContext. destruct (find_ok (fun g => masked s g c) (fun g => exists t, s_threads s !! g = Some t /\ may_use t c) (runQueue s)) as (o & -> & Ho).
  { intros g Hg. apply (qs_run _ _ _ _ _ (sh_queues _ _ _ S)) in Hg as ((t & Ht & _) & _). unfold masked. rewrite (thread_get _ _ _ Ht). cbn [mbind outcome_bind]. destruct (mask_at t c (sh_thread _ _ _ S g t Ht) Hc) as (b & -> & Hb). exists b. split; [done|]. rewrite Hb. split; [by exists t|]. intros (t' & Ht' & Hm). congruence. }
  cbn [mbind outcome_bind]. destruct o as [g|].
  - right. destruct Ho as (Hg & t & Ht & Hm). exists g, t. rewrite q_remove_ok by done. cbn [mbind outcome_bind]. split_and!; try done. apply (qs_run _ _ _ _ _ (sh_queues _ _ _ S)) in Hg as ((t' & Ht' & Hs) & _). congruence.
  - left. split; [done|]. intros g t Hg Ht Hm. apply (Ho g Hg). by exists t.
Qed.
End Moves.

(** *** [schedThread] *)

(** At most a context was taken from a thread that is out. *)
Record mild (s s1 : Sched) : Prop := {
  mi_threads : forall x, s_threads s1 !! x = s_threads s !! x \/ exists t0, s_threads s !! x = Some t0 /\ th_state t0 = T_OUT /\ s_threads s1 !! x = Some (t_state t0 T_BLOCKED);
  mi_run : runQueue s1 = runQueue s;
  mi_sleep : sleepQueue s1 = sleepQueue s;
  mi_fakes : fakeLeaves s1 = fakeLeaves s;
  mi_phase : curPhase s1 = curPhase s;
  mi_bar : s_bar s1 = s_bar s;
  mi_pins : s_pins s1 = s_pins s;
  mi_n : numCores s1 = numCores s;
  mi_joined : forall c, joined s1 c = joined s c
}.

Lemma mild_refl s : mild s s.
Proof. constructor; try done. intros x. by left. Qed.

Lemma mild_get s s1 x t : mild s s1 -> s_threads s !! x = Some t -> th_state t <> T_OUT -> s_threads s1 !! x = Some t.
Proof. intros M Hx Hs. destruct (mi_threads _ _ M x) as [E|(t0 & E & Ho & _)]; congruence. Qed.

Lemma mild_running s s1 c : mild s s1 -> running_at (s_threads s1) c <-> running_at (s_threads s) c.
Proof.
  intros M. split; intros (x & t & Hx & Hr & Hc); exists x, t.
  - destruct (mi_threads _ _ M x) as [E|(t0 & E & Ho & E1)]; [by rewrite <- E|]. rewrite Hx in E1. injection E1 as ->. done.
  - split; [|done]. apply (mild_get s s1 x t M Hx). congruence.
Qed.

Lemma joined_note s c f k : (forall n, c_joined (f n) = c_joined n) -> joined (note s c f) k = joined s k.
Proof. intros Hf. unfold joined, note. shape_fields. rewrite list_lookup_alter. case_decide as E; [|done]. rewrite E. destruct (cores s !! Z.to_nat k); simpl; [by rewrite Hf|done]. Qed.

Lemma set_shed (L : gset Z) o : o ∉ L -> ({[o]} ∪ L) ∖ {[o]} = L.
Proof. intros Ho. apply leibniz_equiv. set_solver. Qed.

Lemma idle_not_running_in s L C c : shape s L C -> c ∈ C -> ~ running_at (s_threads s) c.
Proof.
  intros S HC (x & tx & Hx & Hr & Hcx). destruct (pl_on _ _ _ _ (sh_placed _ _ _ S) x tx Hx) as [H _]; [by apply on_running|]. rewrite Hcx in H. pose proof (ctx_at_fun _ _ _ _ H (pl_limbo _ _ _ _ (sh_placed _ _ _ S) c HC)). done.
Qed.

Section SchedThread.
Context (s : Sched) (L : gset Z) (t : ThreadInfo) (S : shape s L ∅).

Lemma take_free c : c ∈ freeList s -> may_use t c ->
  exists s1, (q ← q_remove (freeList s) c; Ret (w_free s q, Some c)) = Ret (s1, Some c) /\ shape s1 L {[c]} /\ mild s s1 /\ may_use t c /\ ~ running_at (s_threads s1) c.
Proof using S.
  intros Hc Hm. rewrite q_remove_ok by done. cbn [mbind outcome_bind]. eexists. split; [done|]. pose proof (shape_unfree _ _ _ S c Hc) as S1. rewrite union_empty_r_L in S1. split; [done|].
  split; [by constructor; try done; intros x; left|]. split; [done|]. eapply idle_not_running_in; [exact S1|set_solver].
Qed.

Lemma steal o to : o ∈ outQueue s -> s_threads s !! o = Some to -> may_use t (th_cid to) ->
  exists s1, (q ← q_remove (outQueue s) o; s1 ← deschedule (w_out s q) o (th_cid to) T_BLOCKED; Ret (s1, Some (th_cid to))) = Ret (s1, Some (th_cid to)) /\
    shape s1 L {[th_cid to]} /\ mild s s1 /\ may_use t (th_cid to) /\ ~ running_at (s_threads s1) (th_cid to).
Proof using S.
  intros Ho Hto Hm. pose proof (proj1 (qs_out _ _ _ _ _ (sh_queues _ _ _ S) o) Ho) as ((to' & Hto' & Hs) & HoL). rewrite Hto in Hto'. injection Hto' as <-.
  assert (Hh : handoffThread to = None) by (destruct (handoffThread to) as [x|] eqn:E; [|done]; destruct (ho_target _ (sh_handoffs _ _ _ S) o to x Hto E) as [Hr _]; congruence).
  rewrite q_remove_ok by done. cbn [mbind outcome_bind]. pose proof (shape_unout _ _ _ S o Ho) as S1.
  destruct (deschedule_ok _ _ _ o to T_BLOCKED S1 Hto) as [E S2]; [right; split; [done|set_solver]|done|by left|]. rewrite E. cbn [mbind outcome_bind queueless] in S2 |- *. rewrite set_shed, union_empty_r_L in S2 by done.
  eexists. split; [done|]. split; [done|]. split; [|split; [done|] ].
  - constructor; try done; [| |].
    + intros x. unfold descheduled, note. shape_fields. destruct (decide (x = o)) as [-> |Hne]; [|left; by rewrite lookup_insert_ne]. right. exists to. by rewrite lookup_insert_eq.
    + unfold numCores, descheduled, note. shape_fields. by rewrite length_insert.
    + intros c. unfold descheduled. by rewrite joined_note.
  - eapply idle_not_running_in; [exact S2|set_solver].
Qed.

Context (g : Z) (HL : L ⊆ {[g]}) (Hg : s_threads s !! g = Some t) (Hoff : on t = false).

Lemma schedThread_ok :
  (schedThread s g = Ret (s, None) /\ forall c, may_use t c -> running_at (s_threads s) c) \/
  (exists s1 c, schedThread s g = Ret (s1, Some c) /\ shape s1 L {[c]} /\ mild s s1 /\ may_use t c /\ ~ running_at (s_threads s1) c).
Proof using S HL Hg Hoff.
  pose proof (sh_thread _ _ _ S g t Hg) as Hok. pose proof (to_cid _ _ Hok) as Hcid. unfold schedThread. rewrite (thread_get _ _ _ Hg). cbn [mbind outcome_bind]. rewrite (proj2 (Z.ltb_lt _ _)) by lia. cbn [assert_ mbind outcome_bind].
  destruct (at_in_range (s_contexts s) (th_cid t)) as [x Hx]; [unfold numCores in Hcid; lia|]. rewrite Hx. cbn [mbind outcome_bind]. apply at_ret_iff in Hx as [Hx0 Hx]. destruct (mask_at s t (th_cid t) Hok Hcid) as (b & -> & Hb). cbn [mbind outcome_bind].
  assert (Hfree : forall c, c ∈ freeList s <-> ctx_at (s_contexts s) c no_thread) by (intros c; rewrite (pl_free _ _ _ _ (sh_placed _ _ _ S)); set_solver).
  destruct (bool_decide (ctx_state x = IDLE) && b) eqn:E.
  { right. apply andb_true_iff in E as [E1%bool_decide_eq_true E2]. apply Hb in E2. assert (Hc : ctx_at (s_contexts s) (th_cid t) no_thread).
    { destruct (pl_ctx _ _ _ _ (sh_placed _ _ _ S) (th_cid t) x) as [-> |(y & ty & -> & _)]; [done|done|done]. }
    destruct (take_free (th_cid t)) as (s1 & -> & H); [by apply Hfree|done|]. by exists s1, (th_cid t). }
  destruct (find_ok (fun c => at_ (mask t) c) (fun c => may_use t c) (freeList s)) as (o & -> & Ho).
  { intros c Hc. apply Hfree in Hc as [Hc0 Hc]. apply lookup_lt_Some in Hc. apply (mask_at s); [done|unfold numCores; lia]. }
  cbn [mbind outcome_bind]. destruct o as [c|]; [right; destruct Ho as [Hc Hm]; destruct (take_free c Hc Hm) as (s1 & -> & H); by exists s1, c|].
  destruct (find_ok (fun o => to ← thread s o; at_ (mask t) (th_cid to)) (fun o => exists to, s_threads s !! o = Some to /\ may_use t (th_cid to)) (outQueue s)) as (o & -> & Ho2).
  { intros o Hoq. apply (qs_out _ _ _ _ _ (sh_queues _ _ _ S)) in Hoq as ((to & Hto & _) & _). rewrite (thread_get _ _ _ Hto). cbn [mbind outcome_bind]. destruct (mask_at s t (th_cid to) Hok) as (b' & -> & Hb'); [apply (to_cid _ _ (sh_thread _ _ _ S o to Hto))|]. exists b'. split; [done|]. rewrite Hb'. split; [by exists to|]. intros (to' & Hto' & Hm). congruence. }
  cbn [mbind outcome_bind]. destruct o as [o|].
  { right. destruct Ho2 as (Hoq & to & Hto & Hm). rewrite (thread_get _ _ _ Hto). cbn [mbind outcome_bind]. destruct (steal o to Hoq Hto Hm) as (s1 & -> & H). by exists s1, (th_cid to). }
  left. split; [done|]. intros c Hm. assert (Hc : exists y, ctx_at (s_contexts s) c y).
  { destruct Hm as [Hc0 Hm]. apply lookup_lt_Some in Hm. pose proof (to_mask _ _ Hok) as Hl. unfold numCores in Hl. destruct (lookup_lt_is_Some_2 (s_contexts s) (Z.to_nat c)) as [y Hy]; [lia|]. by exists y. }
  destruct Hc as [y Hy]. destruct (pl_ctx _ _ _ _ (sh_placed _ _ _ S) c y Hy) as [-> |(v & tv & -> & Hv & Hov & <-)]; [by destruct (Ho c (proj2 (Hfree c) Hy))|].
  apply on_true in Hov as [Hr|Hout]; [by exists v, tv|]. destruct (Ho2 v); [|by exists tv]. apply (qs_out _ _ _ _ _ (sh_queues _ _ _ S)). split; [by exists tv|]. intros HvL. apply HL, elem_of_singleton in HvL as ->. rewrite Hg in Hv. injection Hv as <-. apply on_false in Hoff. naive_solver.
Qed.
End SchedThread.

(** ** The end of a phase *)

(** *** Waking sleepers *)

Definition woken (ph : Z) (t : ThreadInfo) : ThreadInfo := if bool_decide (th_state t = T_SLEEPING) && (wakeupPhase t <=? ph) then t_futex (t_join (t_state t T_BLOCKED) false) 0 else t.

Lemma woken_twice ph t : woken ph (woken ph t) = woken ph t.
Proof. unfold woken at 2 3. destruct (bool_decide (th_state t = T_SLEEPING) && (wakeupPhase t <=? ph)) eqn:E; [done|]. unfold woken. by rewrite E. Qed.

Lemma filter_not_in g (q : list Z) : g ∉ q -> filter (fun y => y <> g) q = q.
Proof. induction q as [|x q IH]; intros Hg; [done|]. apply not_elem_of_cons in Hg as [Hne Hg]. rewrite filter_cons_True by done. by rewrite IH. Qed.

Lemma filter_head g (q : list Z) : NoDup (g :: q) -> filter (fun y => y <> g) (g :: q) = q.
Proof. intros [Hg Hn]%NoDup_cons. rewrite filter_cons_False by naive_solver. by apply filter_not_in. Qed.

Lemma wake_one s g q t : shape s ∅ ∅ -> sleepQueue s = g :: q -> s_threads s !! g = Some t -> wakeupPhase t = curPhase s ->
  exists s1, (s1 ← wakeup (put s g (t_state t T_BLOCKED)) g false; Ret (w_sleep s1 q)) = Ret s1 /\ s1 = w_sleep (put s g (woken (curPhase s) t)) q /\ shape s1 ∅ ∅.
Proof.
  intros S Hq Hg Hw. assert (Hin : g ∈ sleepQueue s) by (rewrite Hq; by left). pose proof (proj1 (qs_sleep _ _ _ _ _ (sh_queues _ _ _ S) g) Hin) as ((t0 & Ht0 & Hs) & _). rewrite Hg in Ht0. injection Ht0 as <-.
  assert (Hwk : woken (curPhase s) t = t_futex (t_join (t_state t T_BLOCKED) false) 0) by (unfold woken; rewrite bool_decide_true, (proj2 (Z.leb_le _ _)) by (done || lia); done).
  eexists. split; [|split; [reflexivity|] ].
  - unfold wakeup, thread. shape_fields. rewrite lookup_insert_eq. cbn [mbind outcome_bind t_state th_futex]. rewrite (sh_futex _ _ _ S g t Hg) by (set_solver || auto). cbn [Z.eqb Pos.eqb mbind outcome_bind]. unfold put. shape_fields. rewrite insert_insert_eq, Hwk. done.
  - rewrite Hwk. pose proof (shape_unsleep _ _ _ S g Hin) as S1. rewrite Hq, filter_head in S1 by (rewrite <- Hq; apply (qs_sleep_nodup _ _ _ _ _ (sh_queues _ _ _ S))). rewrite union_empty_r_L in S1.
    assert (Hh : handoffThread t = None) by (destruct (handoffThread t) as [x|] eqn:E; [|done]; destruct (ho_target _ (sh_handoffs _ _ _ S) g t x Hg E) as [Hr _]; congruence).
    pose proof (shape_state _ _ _ g t (t_futex (t_join (t_state t T_BLOCKED) false) 0) S1 Hg) as S2. cbn [th_state t_futex t_join t_state queueless] in S2. rewrite difference_diag_L in S2.
    assert (E : put (w_sleep s q) g (t_futex (t_join (t_state t T_BLOCKED) false) 0) = w_sleep (put s g (t_futex (t_join (t_state t T_BLOCKED) false) 0)) q) by done. rewrite <- E.
    apply S2; try done; [unfold on; by rewrite Hs|left; set_solver|congruence|congruence].
Qed.

Lemma wake_sleepers_ok s : shape s ∅ ∅ -> (forall g t, g ∈ sleepQueue s -> s_threads s !! g = Some t -> curPhase s <= wakeupPhase t) ->
  exists slp, wake_sleepers s (sleepQueue s) = Ret (w_sleep (w_threads s (woken (curPhase s) <$> s_threads s)) slp) /\
    shape (w_sleep (w_threads s (woken (curPhase s) <$> s_threads s)) slp) ∅ ∅ /\ forall g t, g ∈ slp -> s_threads s !! g = Some t -> curPhase s < wakeupPhase t.
Proof.
  intros S Hle. remember (sleepQueue s) as q eqn:Hq. symmetry in Hq. revert s S Hle Hq. induction q as [|g q IH]; intros s S Hle Hq; cbn [wake_sleepers].
  - assert (E : woken (curPhase s) <$> s_threads s = s_threads s).
    { apply map_fmap_id_in. intros x t Hx. unfold woken. case_bool_decide as Hs; [|done]. exfalso. assert (Hin : x ∈ sleepQueue s) by (apply (qs_sleep _ _ _ _ _ (sh_queues _ _ _ S)); split; [by exists t|set_solver]). rewrite Hq in Hin. by apply not_elem_of_nil in Hin. }
    exists []. rewrite E. assert (Es : w_sleep (w_threads s (s_threads s)) [] = s) by (destruct s; simpl in *; by subst). rewrite Es. split; [done|]. split; [done|]. by intros x t ?%not_elem_of_nil.
  - assert (Hin : g ∈ sleepQueue s) by (rewrite Hq; by left). pose proof (proj1 (qs_sleep _ _ _ _ _ (sh_queues _ _ _ S) g) Hin) as ((t & Hg & Hs) & _). rewrite (thread_get _ _ _ Hg). cbn [mbind outcome_bind].
    pose proof (sh_ordered _ _ _ S) as Ho. rewrite Hq in Ho. apply StronglySorted_inv in Ho as [_ Ho]. rewrite Forall_forall in Ho. destruct (wakeupPhase t <=? curPhase s) eqn:E; zb.
    + pose proof (Hle g t ltac:(by left) Hg) as Hge. assert (Hw : wakeupPhase t = curPhase s) by lia. rewrite (proj2 (Z.eqb_eq _ _)) by done. cbn [assert_ mbind outcome_bind].
      destruct (wake_one s g q t S Hq Hg Hw) as (s1 & E1 & Es1 & S1). apply bind_ret_inv in E1 as (s0 & -> & E1). cbn [mbind outcome_bind]. injection E1 as E1. rewrite E1.
      assert (Hq1 : sleepQueue s1 = q) by (by rewrite Es1). assert (Hth : s_threads s1 = <[g := woken (curPhase s) t]> (s_threads s)) by (by rewrite Es1). assert (Hph : curPhase s1 = curPhase s) by (by rewrite Es1).
      assert (Hgq : g ∉ q) by (pose proof (qs_sleep_nodup _ _ _ _ _ (sh_queues _ _ _ S)) as Hn; rewrite Hq in Hn; by apply NoDup_cons in Hn as [? _]).
      destruct (IH s1 S1) as (slp & E2 & S2 & Hs2); [|done|].
      { intros x tx Hx. rewrite Hth, Hph. rewrite lookup_insert_ne by (intros ->; done). apply Hle. by right. }
      assert (Ef : woken (curPhase s1) <$> s_threads s1 = woken (curPhase s) <$> s_threads s).
      { rewrite Hth, Hph, fmap_insert, woken_twice. apply insert_id. by rewrite lookup_fmap, Hg. }
      rewrite Ef in E2, S2. assert (Es : w_sleep (w_threads s1 (woken (curPhase s) <$> s_threads s)) slp = w_sleep (w_threads s (woken (curPhase s) <$> s_threads s)) slp) by (by rewrite Es1). rewrite Es in E2, S2.
      exists slp. split; [done|]. split; [done|]. intros x tx Hx Htx. assert (Hxs : x ∈ sleepQueue (w_sleep (w_threads s (woken (curPhase s) <$> s_threads s)) slp)) by done.
      apply (qs_sleep _ _ _ _ _ (sh_queues _ _ _ S2)) in Hxs as ((ty & Hy & Hsy) & _). shape_fields in Hy. rewrite Hph in Hs2. apply (Hs2 x tx Hx). rewrite Hth. destruct (decide (x = g)) as [-> |Hne]; [|by rewrite lookup_insert_ne].
      rewrite lookup_fmap, Hg in Hy. simpl in Hy. injection Hy as <-. unfold woken in Hsy. rewrite bool_decide_true, (proj2 (Z.leb_le _ _)) in Hsy by (done || lia). done.
    + assert (Hlt : forall x tx, x ∈ sleepQueue s -> s_threads s !! x = Some tx -> curPhase s < wakeupPhase tx).
      { intros x tx Hx Htx. rewrite Hq in Hx. apply elem_of_cons in Hx as [-> |Hx]; [rewrite Hg in Htx; injection Htx as <-; lia|]. pose proof (Ho x Hx t tx Hg Htx). lia. }
      assert (Ef : woken (curPhase s) <$> s_threads s = s_threads s).
      { apply map_fmap_id_in. intros x tx Hx. unfold woken. case_bool_decide as Hsx; [|done]. rewrite (proj2 (Z.leb_gt _ _)); [done|]. apply (Hlt x tx); [|done]. apply (qs_sleep _ _ _ _ _ (sh_queues _ _ _ S)). split; [by exists tx|set_solver]. }
      exists (sleepQueue s). rewrite Ef. assert (Es : w_sleep (w_threads s (s_threads s)) (sleepQueue s) = s) by (by destruct s). rewrite Es. split; [done|]. split; [done|]. exact Hlt.
Qed.

(** *** Handing cores over *)

Lemma shape_promise s g tg v tv : shape s ∅ ∅ -> g ∈ runQueue s -> s_threads s !! g = Some tg -> s_threads s !! v = Some tv -> th_state tv = T_RUNNING -> handoffThread tv = None -> may_use tg (th_cid tv) ->
  shape (w_run (put s v (t_handoff tv (Some g))) (filter (fun y => y <> g) (runQueue s))) ∅ ∅.
Proof.
  intros S Hg Htg Hv Hr Hh Hm. pose proof (proj1 (qs_run _ _ _ _ _ (sh_queues _ _ _ S) g) Hg) as ((tg' & Htg' & Hq) & _ & Hnp). rewrite Htg in Htg'. injection Htg' as <-. set (th' := <[v := t_handoff tv (Some g)]> (s_threads s)).
  assert (Hvg : v <> g) by (intros ->; congruence).
  assert (Hpr : forall y, promised th' y <-> promised (s_threads s) y \/ y = g).
  { intros y. split.
    - intros (x & tx & Hx & Hy). th_case Hx; [simpl in Hy; injection Hy as <-; by right|left; by exists x, tx].
    - intros [(x & tx & Hx & Hy)| -> ]; [exists x, tx; unfold th'; rewrite lookup_insert_ne; [done|intros ->; congruence]|]. exists v, (t_handoff tv (Some g)). unfold th'. by rewrite lookup_insert_eq. }
  assert (Heq : forall st y, (exists ty, th' !! y = Some ty /\ th_state ty = st) <-> exists ty, s_threads s !! y = Some ty /\ th_state ty = st).
  { intros st y. unfold th'. destruct (decide (y = v)) as [-> |Hne]; [|by apply in_state_put]. rewrite in_state_eq. simpl. split; [by exists tv|]. intros (ty & Hy & <-). congruence. }
  constructor; unfold numCores; shape_fields; fold th'; try apply S.
  - intros x tx Hx. th_case Hx; [|by apply (sh_thread _ _ _ S x)]. constructor; simpl; apply (sh_thread _ _ _ S v tv Hv).
  - intros x tx Hx. th_case Hx; [apply (sh_futex _ _ _ S v tv Hv)|by apply (sh_futex _ _ _ S x)].
  - eapply placed_keep; [apply S|exact Hv|done|done|done].
  - pose proof (sh_queues _ _ _ S) as Q. constructor; try apply Q.
    + apply nodup_without, Q.
    + intros y. rewrite list_elem_of_filter, Heq, Hpr, (qs_run _ _ _ _ _ Q). clear. naive_solver.
    + intros y. rewrite Heq. apply (qs_out _ _ _ _ _ Q).
    + intros y. rewrite Heq. apply (qs_sleep _ _ _ _ _ Q).
    + set_solver.
  - pose proof (sh_handoffs _ _ _ S) as H. constructor.
    + intros x tx y Hx Hy. th_case Hx; [simpl in Hy; injection Hy as <-; split; [done|]; exists tg; unfold th'; by rewrite lookup_insert_ne|]. destruct (ho_target _ H x tx y Hx Hy) as (Hrx & ty & Hty & Hqy & Hmy). split; [done|]. exists ty. unfold th'. rewrite lookup_insert_ne; [done|]. intros ->. congruence.
    + intros x x' tx tx' y Hx Hx' Hy Hy'. th_case Hx; th_case Hx'; try done.
      * simpl in Hy. injection Hy as <-. destruct Hnp. by exists x', tx'.
      * simpl in Hy'. injection Hy' as <-. destruct Hnp. by exists x, tx.
      * by apply (ho_once _ H x x' tx tx' y).
  - eapply busy_weaken; [eapply busy_put; [exact Hv|apply S|done| |done]| |done].
    + intros c Hc _. eapply running_stays; [exact Hv|exact Hc|done].
    + intros x Hx. by apply list_elem_of_filter in Hx as [_ Hx].
  - eapply ordered_put; [apply S|exact Hv|done].
  - eapply fakes_put; [apply S|exact Hv|done].
  - eapply pins_keep; [apply S|done|done|]. intros x. apply is_some_insert.
Qed.

(** Threads that run get something to hand over, the others keep all. *)
Definition handed (th th' : threads_map) : Prop := forall x, th' !! x = th !! x \/ exists t o, th !! x = Some t /\ th_state t = T_RUNNING /\ th' !! x = Some (t_handoff t (Some o)).

Lemma handed_trans th1 th2 th3 : handed th1 th2 -> handed th2 th3 -> handed th1 th3.
Proof.
  intros H1 H2 x. destruct (H2 x) as [-> |(t & o & E & Hr & ->)]; [apply H1|]. right. destruct (H1 x) as [E1|(t1 & o1 & E1 & Hr1 & E2)]; [exists t, o; by rewrite <- E1|]. rewrite E in E2. injection E2 as ->. by exists t1, o.
Qed.

Definition ready_cores (s : Sched) (avail : list Z) : Prop := forall c, c ∈ avail -> 0 <= c < numCores s /\ forall v t, s_threads s !! v = Some t -> th_state t = T_RUNNING -> th_cid t = c -> handoffThread t = None.

Lemma tick_loop_ok s q avail : shape s ∅ ∅ -> q ⊆ runQueue s -> NoDup q -> ready_cores s avail ->
  exists th' run', tick_loop s q avail = Ret (w_run (w_threads s th') run') /\ shape (w_run (w_threads s th') run') ∅ ∅ /\ handed (s_threads s) th' /\
    run' ⊆ runQueue s /\ (forall g t c, head q = Some g -> s_threads s !! g = Some t -> may_use t c -> c ∈ avail -> g ∉ run').
Proof.
  revert s avail. induction q as [|g q IH]; intros s avail S Hsub Hn Hready; cbn [tick_loop].
  { exists (s_threads s), (runQueue s). assert (E : w_run (w_threads s (s_threads s)) (runQueue s) = s) by (by destruct s). rewrite E. split_and!; try done. intros x. by left. }
  case_bool_decide as Ha.
  { exists (s_threads s), (runQueue s). assert (E : w_run (w_threads s (s_threads s)) (runQueue s) = s) by (by destruct s). rewrite E. split_and!; try done; [intros x; by left|]. intros x t c _ _ _ Hc. rewrite Ha in Hc. by apply not_elem_of_nil in Hc. }
  assert (Hg : g ∈ runQueue s) by (apply Hsub; by left). pose proof (proj1 (qs_run _ _ _ _ _ (sh_queues _ _ _ S) g) Hg) as ((tg & Htg & Hq) & _ & Hnp). apply NoDup_cons in Hn as [Hgq Hn].
  destruct (find_ok (fun c => masked s g c) (fun c => may_use tg c) avail) as (o & -> & Ho).
  { intros c Hc. unfold masked. rewrite (thread_get _ _ _ Htg). cbn [mbind outcome_bind]. apply (mask_at s); [by apply (sh_thread _ _ _ S g)|by apply Hready]. }
  cbn [mbind outcome_bind]. destruct o as [c|].
  2:{ destruct (IH s avail S) as (th' & run' & E & S' & Hh & Hr & _); [intros x Hx; apply Hsub; by right|done|done|]. exists th', run'. split_and!; try done. intros x t c [= <-] Ht Hm Hc. rewrite Htg in Ht. injection Ht as <-. by destruct (Ho c Hc). }
  destruct Ho as [Hc Hm]. destruct (sh_busy _ _ _ S g tg c Hg Htg Hm) as (v & tv & Hv & Hr & Hcv); [set_solver|]. destruct (Hready c Hc) as [Hcr Hnone]. pose proof (Hnone v tv Hv Hr Hcv) as Hh.
  destruct (pl_on _ _ _ _ (sh_placed _ _ _ S) v tv Hv) as [Hctx _]; [by apply on_running|]. rewrite Hcv in Hctx. destruct Hctx as [Hc0 Hctx]. rewrite (at_ret _ _ (used v)) by done. cbn [mbind outcome_bind used curThread]. rewrite (thread_get _ _ _ Hv). cbn [mbind outcome_bind].
  rewrite q_remove_ok by done. cbn [mbind outcome_bind]. rewrite <- Hcv in Hm. pose proof (shape_promise s g tg v tv S Hg Htg Hv Hr Hh Hm) as S1.
  set (s1 := w_run (put s v (t_handoff tv (Some g))) (filter (fun y => y <> g) (runQueue s))) in *.
  destruct (IH s1 (filter (fun y => y <> c) avail) S1) as (th' & run' & E & S2 & H2 & Hr2 & _).
  - intros x Hx. unfold s1. shape_fields. apply list_elem_of_filter. split; [intros ->; done|apply Hsub; by right].
  - done.
  - intros k Hk. apply list_elem_of_filter in Hk as [Hkc Hk]. destruct (Hready k Hk) as [Hkr Hkn]. split; [done|]. intros x tx Hx Hrx Hcx. unfold s1 in Hx. shape_fields in Hx. th_case Hx; [simpl in Hcx; congruence|]. by apply (Hkn x tx).
  - assert (Hsub2 : forall x, x ∈ run' -> x ∈ runQueue s /\ x <> g) by (intros x Hx; apply Hr2 in Hx; unfold s1 in Hx; shape_fields in Hx; apply list_elem_of_filter in Hx; tauto).
    exists th', run'. split; [exact E|]. split; [exact S2|]. split; [|split; [intros x Hx; by apply Hsub2|intros x t k [= <-] _ _ _ Hx; by destruct (Hsub2 g Hx)] ]. eapply handed_trans; [|exact H2]. intros x. unfold s1. shape_fields. destruct (decide (x = v)) as [-> |Hne]; [|left; by rewrite lookup_insert_ne]. right. exists tv, g. by rewrite lookup_insert_eq.
Qed.

Section Callback.
Context (rndInt : nat -> Z -> Z) (Hrnd : forall k i, 0 <= i -> 0 <= rndInt k i <= i).

(** The shuffled cores are all cores. *)
Lemma shuffled_ok s : exists avail k, shuffled_cores rndInt s = Ret (avail, k) /\ avail ≡ₚ zrange (length (s_contexts s)).
Proof using Hrnd.
  unfold shuffled_cores. set (n := length (s_contexts s)). assert (Hgen : forall is_ l k, l ≡ₚ zrange n -> Forall (fun i => 0 <= i < Z.of_nat n) is_ -> exists l' k', fold_ (cores_step rndInt) is_ (l, k) = Ret (l', k') /\ l' ≡ₚ zrange n).
  { induction is_ as [|i is_ IH]; intros l k Hl Hf; cbn [fold_]; [by exists l, k|]. apply Forall_cons in Hf as [Hi Hf]. assert (Hlen : length l = n) by (rewrite Hl; apply length_zrange). pose proof (Hrnd k i ltac:(lia)) as Hj.
    cbn [cores_step]. destruct (at_in_range l i ltac:(lia)) as [x Hx]. destruct (at_in_range l (rndInt k i) ltac:(lia)) as [y Hy]. rewrite Hx, Hy. cbn [mbind outcome_bind]. rewrite set_at_ret by lia. cbn [mbind outcome_bind]. rewrite set_at_ret by (rewrite length_insert; lia). cbn [mbind outcome_bind].
    apply IH; [|done]. rewrite <- Hl. apply at_ret_iff in Hx as [_ Hx], Hy as [_ Hy]. by apply swap_permutation. }
  destruct (Hgen (rev (seqZ 1 (numCores s - 1))) (zrange n) (s_calls s)) as (l & k & E & Hl); [done| |by exists l, k]. apply Forall_rev, Forall_forall. intros i Hi. apply elem_of_seqZ in Hi. unfold numCores in Hi. lia.
Qed.

Lemma schedTick_ok s : shape s ∅ ∅ -> (forall v t, s_threads s !! v = Some t -> handoffThread t = None) ->
  exists th' run' k, schedTick rndInt s = Ret (w_run (w_threads (w_calls s k) th') run') /\ shape (w_run (w_threads (w_calls s k) th') run') ∅ ∅ /\ handed (s_threads s) th' /\ (forall g, head (runQueue s) = Some g -> g ∉ run').
Proof using Hrnd.
  intros S Hno. unfold schedTick. destruct (shuffled_ok s) as (avail & k & -> & Hp). cbn [mbind outcome_bind]. assert (S1 : shape (w_calls s k) ∅ ∅) by (constructor; try apply S; eapply pins_keep; [apply S|done|done|done]).
  destruct (tick_loop_ok (w_calls s k) (runQueue s) avail S1) as (th' & run' & E & S2 & H & _ & Hhd); [done|apply (qs_run_nodup _ _ _ _ _ (sh_queues _ _ _ S))| |].
  { intros c Hc. rewrite Hp in Hc. apply elem_of_zrange in Hc. split; [unfold numCores; shape_fields; lia|]. intros v t Hv _ _. by apply (Hno v t). }
  exists th', run', k. split_and!; try done. intros g Hg. assert (Hin : g ∈ runQueue s) by (destruct (runQueue s); [done|]; injection Hg as <-; by left). apply (qs_run _ _ _ _ _ (sh_queues _ _ _ S)) in Hin as ((t & Ht & _) & _). pose proof (sh_thread _ _ _ S g t Ht) as Hok.
  pose proof (to_some _ _ Hok) as Hex. apply existsb_exists in Hex as (b & Hb & Hbt). unfold id in Hbt. subst b. apply list_elem_of_In, list_elem_of_lookup in Hb as [i Hi]. pose proof (lookup_lt_Some _ _ _ Hi) as Hil. pose proof (to_mask _ _ Hok) as Hml. unfold numCores in Hml.
  apply (Hhd g t (Z.of_nat i) Hg Ht); [split; [lia|by rewrite Nat2Z.id]|]. rewrite Hp. apply elem_of_zrange. lia.
Qed.
End Callback.
