(* ===== verification/SchedOps.v ===== *)
(** * Operations of the thread scheduler

    Every operation of ThreadSched.v called in a proper state returns and keeps threads, contexts,
    queues, cores and barrier in agreement; phases end through the callback. *)

From Stdlib Require Import Sorting.Sorted.
From S2P Require Import Prelude Barrier ThreadSched SchedParts SchedInv.

(** ** Scheduler and barrier

    The automaton [m] of the barrier holds a core exactly if a thread runs on it, and the cores have
    been told so; marks, fake leaves and handoffs fit what the core does in the phase. *)

Abbreviation phases_map := (gmap Z phase_status).

Definition covers (th : threads_map) (m : phases_map) : Prop := forall c, is_Some (m !! c) <-> running_at th c.
Definition told (s : Sched) (m : phases_map) : Prop := forall c, 0 <= c < numCores s -> joined s c = Some (bool_decide (is_Some (m !! c))).

Record flag_ok (m : phases_map) (ph : Z) (t : ThreadInfo) : Prop := {
  fo_mark : markedForSleep t = true -> th_state t = T_RUNNING /\ m !! th_cid t = Some Active /\ ph < wakeupPhase t /\ th_futex t = 1 /\ fakeLeave t = false /\ handoffThread t = None;
  fo_fake : fakeLeave t = true -> th_state t = T_RUNNING /\ m !! th_cid t = Some Active /\ handoffThread t = None;
  fo_handoff : handoffThread t <> None -> th_state t = T_RUNNING /\ m !! th_cid t <> Some Done;
  fo_sleep : th_state t = T_SLEEPING -> ph < wakeupPhase t
}.
Definition flags (th : threads_map) (m : phases_map) (ph : Z) : Prop := forall g t, th !! g = Some t -> flag_ok m ph t.

Definition plain (t : ThreadInfo) : Prop := markedForSleep t = false /\ fakeLeave t = false /\ handoffThread t = None.

Record calm (s : Sched) (m : phases_map) : Prop := {
  ca_shape : shape s ∅ ∅;
  ca_covers : covers (s_threads s) m;
  ca_told : told s m;
  ca_flags : flags (s_threads s) m (curPhase s)
}.

(** Between operations the barrier is in state [m]. *)
Definition steady (s : Sched) (m : phases_map) : Prop := calm s m /\ exists l g, bar_is (s_bar s) l g m /\ (m <> ∅ -> 0 < runningThreads (s_bar s)).

(** *** How the agreement changes with one thread *)

Lemma flag_plain m ph t : plain t -> th_state t <> T_SLEEPING -> flag_ok m ph t.
Proof. intros (H1 & H2 & H3) Hs. constructor; intros; congruence. Qed.

Lemma plain_flag m ph t : flag_ok m ph t -> th_state t <> T_RUNNING -> plain t.
Proof.
  intros [H1 H2 H3 _] Hs. split_and!.
  - destruct (markedForSleep t); [by destruct Hs, H1|done].
  - destruct (fakeLeave t); [by destruct Hs, H2|done].
  - destruct (handoffThread t); [by destruct Hs, H3|done].
Qed.

(** A thread with nothing pending on a core that is [Done]. *)
Lemma plain_done m ph t : flag_ok m ph t -> m !! th_cid t = Some Done -> plain t.
Proof.
  intros [H1 H2 H3 _] Hs. split_and!.
  - destruct (markedForSleep t); [destruct H1 as (_ & H & _); [done|congruence]|done].
  - destruct (fakeLeave t); [destruct H2 as (_ & H & _); [done|congruence]|done].
  - destruct (handoffThread t); [by destruct H3 as [_ H]|done].
Qed.

Section OneThread.
Context (th : threads_map) (m : phases_map) (g : Z) (t t' : ThreadInfo) (Hcov : covers th m) (Hg : th !! g = Some t).

Lemma covers_same : (th_state t' = T_RUNNING <-> th_state t = T_RUNNING) -> (th_state t = T_RUNNING -> th_cid t' = th_cid t) -> covers (<[g := t']> th) m.
Proof using Hcov Hg.
  intros Hs Hc c. rewrite (Hcov c). split; intros (x & tx & Hx & Hr & Hcx).
  - destruct (decide (x = g)) as [-> |Hne]; [|exists x, tx; by rewrite lookup_insert_ne]. rewrite Hg in Hx. injection Hx as <-. exists g, t'. rewrite lookup_insert_eq, (Hc Hr). by rewrite Hs.
  - th_case Hx; [exists g, t; apply Hs in Hr as Hr0; by rewrite <- Hc|by exists x, tx].
Qed.

Lemma covers_off : (forall x tx, x <> g -> th !! x = Some tx -> th_state tx = T_RUNNING -> th_cid tx <> th_cid t) -> th_state t = T_RUNNING -> th_state t' <> T_RUNNING -> covers (<[g := t']> th) (delete (th_cid t) m).
Proof using Hcov Hg.
  intros Hone Hr Hr' c. destruct (decide (c = th_cid t)) as [-> |Hne].
  - rewrite lookup_delete_eq. split; [by intros [? ?]|]. intros (x & tx & Hx & Hrx & Hcx). th_case Hx; [done|]. by destruct (Hone x tx).
  - rewrite lookup_delete_ne, (Hcov c) by done. split; intros (x & tx & Hx & Hrx & Hcx).
    + exists x, tx. rewrite lookup_insert_ne; [done|]. intros ->. congruence.
    + th_case Hx; [done|by exists x, tx].
Qed.

Lemma covers_on st : th_state t <> T_RUNNING -> th_state t' = T_RUNNING -> covers (<[g := t']> th) (<[th_cid t' := st]> m).
Proof using Hcov Hg.
  intros Hr Hr' c. destruct (decide (c = th_cid t')) as [-> |Hne].
  - rewrite lookup_insert_eq. split; [|by eexists]. intros _. by apply running_in.
  - rewrite lookup_insert_ne, (Hcov c) by done. split; intros (x & tx & Hx & Hrx & Hcx).
    + exists x, tx. rewrite lookup_insert_ne; [done|]. intros ->. congruence.
    + th_case Hx; [done|by exists x, tx].
Qed.

Lemma covers_core c : 0 <= c -> forall xs free C, placement th xs free C -> ctx_at xs c no_thread -> m !! c = None.
Proof using Hcov.
  intros Hc xs free C P Hi. destruct (m !! c) eqn:E; [|done]. destruct (proj1 (Hcov c)) as (x & tx & Hx & Hr & Hcx); [by rewrite E|]. destruct (pl_on _ _ _ _ P x tx Hx) as [H _]; [by apply on_running|]. rewrite Hcx in H. by pose proof (ctx_at_fun _ _ _ _ H Hi).
Qed.
End OneThread.

Lemma covers_new th m g t : covers th m -> th !! g = None -> th_state t <> T_RUNNING -> covers (<[g := t]> th) m.
Proof.
  intros Hc Hg Hs c. rewrite (Hc c). split; intros (x & tx & Hx & H); exists x, tx; [rewrite lookup_insert_ne; [done|congruence]|]. th_case Hx; [by destruct Hs, H|done].
Qed.

Lemma covers_delete th m g t : covers th m -> th !! g = Some t -> th_state t <> T_RUNNING -> covers (delete g th) m.
Proof.
  intros Hc Hg Hs c. rewrite (Hc c). split; intros (x & tx & Hx & Hr & Hcx); exists x, tx; [rewrite lookup_delete_ne; [done|congruence]|]. by apply lookup_delete_Some in Hx as [_ Hx].
Qed.

(** Two threads do not run on one core. *)
Lemma run_once s L C g t : shape s L C -> s_threads s !! g = Some t -> on t = true -> forall x tx, x <> g -> s_threads s !! x = Some tx -> th_state tx = T_RUNNING -> th_cid tx <> th_cid t.
Proof.
  intros S Hg Ho x tx Hne Hx Hr Hc. destruct (pl_on _ _ _ _ (sh_placed _ _ _ S) g t Hg Ho) as [H1 _]. destruct (pl_on _ _ _ _ (sh_placed _ _ _ S) x tx Hx) as [H2 _]; [by apply on_running|]. rewrite Hc in H2. pose proof (ctx_at_fun _ _ _ _ H1 H2). unfold used in *. congruence.
Qed.

Lemma flags_put th m ph g t' : flags th m ph -> flag_ok m ph t' -> flags (<[g := t']> th) m ph.
Proof. intros F H x tx Hx. th_case Hx; [done|by apply (F x)]. Qed.

Lemma flag_away m m' ph t : flag_ok m ph t -> (th_state t = T_RUNNING -> m' !! th_cid t = m !! th_cid t) -> flag_ok m' ph t.
Proof.
  intros [H1 H2 H3 H4] E. constructor; [| | |done].
  - intros H. destruct (H1 H) as (Hr & ?). by rewrite (E Hr).
  - intros H. destruct (H2 H) as (Hr & ?). by rewrite (E Hr).
  - intros H. destruct (H3 H) as (Hr & ?). by rewrite (E Hr).
Qed.

Lemma flags_core th m m' ph g t' c : flags th m ph -> (forall k, k <> c -> m' !! k = m !! k) -> (forall x tx, x <> g -> th !! x = Some tx -> th_state tx = T_RUNNING -> th_cid tx <> c) -> flag_ok m' ph t' -> flags (<[g := t']> th) m' ph.
Proof. intros F Hm Hone H x tx Hx. th_case Hx; [done|]. eapply flag_away; [by apply (F x)|]. intros Hr. apply Hm. by apply (Hone x tx). Qed.

Lemma flags_new th m ph g t : flags th m ph -> plain t -> th_state t <> T_SLEEPING -> flags (<[g := t]> th) m ph.
Proof. intros F Hp Hs. apply flags_put; [done|by apply flag_plain]. Qed.

Lemma flags_delete th m ph g : flags th m ph -> flags (delete g th) m ph.
Proof. intros F x tx Hx. apply lookup_delete_Some in Hx as [_ Hx]. by apply (F x). Qed.

(** *** What cores have been told *)

Lemma told_keep s s' m : told s m -> numCores s' = numCores s -> (forall c, joined s' c = joined s c) -> told s' m.
Proof. intros T Hn Hj c Hc. rewrite Hj. apply T. by rewrite <- Hn. Qed.

Lemma told_set s m m' c b : told s m -> length (cores s) = length (s_contexts s) -> 0 <= c -> (forall k, k <> c -> is_Some (m' !! k) <-> is_Some (m !! k)) -> bool_decide (is_Some (m' !! c)) = b -> told (note s c (fun n => mkCore b (c_gid n))) m'.
Proof.
  intros T Hl Hc Hm Hb k Hk. unfold joined, note. shape_fields. unfold numCores, note in Hk. shape_fields in Hk. destruct (decide (k = c)) as [-> |Hne].
  - rewrite list_lookup_alter_eq. destruct (lookup_lt_is_Some_2 (cores s) (Z.to_nat c)) as [n ->]; [lia|]. simpl. by rewrite Hb.
  - rewrite list_lookup_alter_ne by lia. unfold told, joined in T. rewrite T by done. f_equal. apply bool_decide_ext. by rewrite Hm.
Qed.

(** ** The end of a phase *)

(** Time passes: sleepers wake up, running threads are told to hand their cores over. *)
Definition aged (t t' : ThreadInfo) : Prop := t' = t \/ th_state t = T_SLEEPING /\ t' = t_futex (t_join (t_state t T_BLOCKED) false) 0 \/ th_state t = T_RUNNING /\ exists o, t' = t_handoff t o.

Record later (s s' : Sched) : Prop := {
  la_threads : forall x, option_Forall2 aged (s_threads s !! x) (s_threads s' !! x);
  la_contexts : s_contexts s' = s_contexts s;
  la_fakes : fakeLeaves s' = fakeLeaves s;
  la_out : outQueue s' = outQueue s;
  la_pins : s_pins s' = s_pins s;
  la_blocking : blockingSyscalls s' = blockingSyscalls s;
  la_phase : curPhase s <= curPhase s'
}.

Lemma aged_refl t : aged t t.
Proof. by left. Qed.
Lemma aged_opt_refl (o : option ThreadInfo) : option_Forall2 aged o o.
Proof. destruct o; constructor. apply aged_refl. Qed.
Lemma aged_trans t1 t2 t3 : aged t1 t2 -> aged t2 t3 -> aged t1 t3.
Proof.
  unfold aged. intros [-> |H1] H2; [done|]. destruct H2 as [-> |H2]; [by right|]. right. destruct H1 as [[H1 ->]|[H1 [o ->] ] ], H2 as [[H2 ->]|[H2 [o' ->] ] ]; simpl in *; try congruence. right. split; [done|]. by exists o'.
Qed.

Lemma later_refl s : later s s.
Proof. constructor; try done. intros x. apply aged_opt_refl. Qed.

Lemma later_trans s1 s2 s3 : later s1 s2 -> later s2 s3 -> later s1 s3.
Proof.
  intros [A1 A2 A3 A4 A5 A6 A7] [B1 B2 B3 B4 B5 B6 B7]. constructor; try congruence; [|lia]. intros x. specialize (A1 x). specialize (B1 x). inversion A1 as [y1 y2 H12 E1 E2|E1 E2]; rewrite <- E2 in B1; inversion B1 as [z1 z2 H23 E3 E4|E3 E4]; constructor. by eapply aged_trans.
Qed.

Lemma later_get s s' g t : later s s' -> s_threads s !! g = Some t -> exists t', s_threads s' !! g = Some t' /\ aged t t'.
Proof. intros L Hg. pose proof (la_threads _ _ L g) as H. rewrite Hg in H. inversion H as [y1 y2 Ha E1 E2|]. by exists y2. Qed.

(** A thread that neither runs nor sleeps stays the same. *)
Lemma later_same s s' g t : later s s' -> s_threads s !! g = Some t -> th_state t <> T_RUNNING -> th_state t <> T_SLEEPING -> s_threads s' !! g = Some t.
Proof. intros L Hg H1 H2. destruct (later_get _ _ _ _ L Hg) as (t' & E & [-> |[[H _]|[H _] ] ]); done. Qed.

Lemma shape_phase s ph : shape s ∅ ∅ -> shape (w_phase s ph ph) ∅ ∅.
Proof. intros S. constructor; try apply S; [done|]. eapply pins_keep; [apply S|done|done|done]. Qed.

Section Phases.
Context (rndInt : nat -> Z -> Z) (Hrnd : forall k i, 0 <= i -> 0 <= rndInt k i <= i).

(** The callback of the scheduler, without its effect on the agreement with the barrier. *)
Lemma callback_runs s : shape s ∅ ∅ -> (forall g t, s_threads s !! g = Some t -> handoffThread t = None /\ (th_state t = T_SLEEPING -> curPhase s < wakeupPhase t)) ->
  exists s', callback rndInt s = Ret s' /\ shape s' ∅ ∅ /\ curPhase s' = curPhase s + 1 /\ s_bar s' = s_bar s /\ cores s' = cores s /\ later s s' /\
    (forall x, s_threads s' !! x = woken (curPhase s + 1) <$> s_threads s !! x \/ exists t o, s_threads s !! x = Some t /\ th_state t = T_RUNNING /\ s_threads s' !! x = Some (t_handoff t (Some o))) /\
    (forall g t, g ∈ sleepQueue s' -> s_threads s !! g = Some t -> curPhase s + 1 < wakeupPhase t) /\
    ((curPhase s + 1) mod schedQuantum s = 0 -> forall g, head (runQueue s) = Some g -> g ∉ runQueue s').
Proof using Hrnd.
  intros S Hth. set (ph := curPhase s + 1). unfold callback. rewrite (proj2 (Z.leb_le _ _)) by apply (count_bounds _ _ _ S). cbn [assert_ mbind outcome_bind]. cbv zeta. rewrite <- (sh_phase _ _ _ S). fold ph. change (curPhase (w_phase s ph ph)) with ph. change (numPhases (w_phase s ph ph)) with ph. rewrite Z.eqb_refl. cbn [assert_ mbind outcome_bind].
  destruct (wake_sleepers_ok (w_phase s ph ph)) as (slp & E & S1 & Hslp); [by apply shape_phase| |].
  { intros g t Hg Ht. apply (qs_sleep _ _ _ _ _ (sh_queues _ _ _ S)) in Hg as ((t' & Ht' & Hs) & _). shape_fields in Ht. shape_fields. destruct (Hth g t Ht) as [_ H]. rewrite Ht in Ht'. injection Ht' as <-. specialize (H Hs). lia. }
  set (s1 := w_sleep (w_threads (w_phase s ph ph) (woken ph <$> s_threads s)) slp). change (wake_sleepers (w_phase s ph ph) (sleepQueue (w_phase s ph ph)) = Ret s1) in E. change (shape s1 ∅ ∅) in S1. rewrite E. cbn [mbind outcome_bind]. shape_fields in Hslp. clear E.
  assert (Hw : forall x, s_threads s1 !! x = woken ph <$> s_threads s !! x) by (intros x; unfold s1; shape_fields; by rewrite lookup_fmap).
  assert (L1 : later s s1).
  { constructor; try done; [|unfold s1, ph; shape_fields; lia]. intros x. rewrite Hw. destruct (s_threads s !! x) as [t|] eqn:Ex; simpl; constructor. unfold woken, aged. case_bool_decide as Hs; [|by left]. destruct (_ <=? _); simpl; auto. }
  assert (Hdone : (ph mod schedQuantum s = 0 -> runQueue s = []) -> exists s', Ret s1 = Ret s' /\ shape s' ∅ ∅ /\ curPhase s' = ph /\ s_bar s' = s_bar s /\ cores s' = cores s /\ later s s' /\ (forall x, s_threads s' !! x = woken ph <$> s_threads s !! x \/ exists t o, s_threads s !! x = Some t /\ th_state t = T_RUNNING /\ s_threads s' !! x = Some (t_handoff t (Some o))) /\ (forall g t, g ∈ sleepQueue s' -> s_threads s !! g = Some t -> ph < wakeupPhase t) /\ (ph mod schedQuantum s = 0 -> forall g, head (runQueue s) = Some g -> g ∉ runQueue s')).
  { intros Hemp. exists s1. split_and!; try done; [intros x; by left|]. intros Hz g Hg. by rewrite (Hemp Hz) in Hg. }
  change (runQueue s1) with (runQueue s). case_bool_decide as Hrq; [by apply Hdone|]. pose proof (sh_quantum _ _ _ S1). rewrite (proj2 (Z.eqb_neq _ 0)) by lia. change (schedQuantum s1) with (schedQuantum s). change (curPhase s1) with ph. destruct (ph mod schedQuantum s =? 0) eqn:Ez; zb; [|apply Hdone; intros ?; done]. clear Hdone.
  destruct (schedTick_ok rndInt Hrnd s1 S1) as (th' & run' & k & -> & S2 & Hh & Hhd).
  { intros v t Hv. rewrite Hw in Hv. destruct (s_threads s !! v) as [t0|] eqn:Ev; [|done]. injection Hv as <-. destruct (Hth v t0 Ev) as [H0 _]. unfold woken. by destruct (_ && _). }
  eexists. split; [done|]. split; [exact S2|]. split_and!; try done.
  - eapply later_trans; [exact L1|]. constructor; try done. intros x. shape_fields. destruct (Hh x) as [-> |(t & o & -> & Hr & ->)]; [apply aged_opt_refl|]. constructor. right. right. split; [done|]. by exists (Some o).
  - intros x. shape_fields. destruct (Hh x) as [-> |(t & o & Ex & Hr & ->)]; [left; apply Hw|]. right. rewrite Hw in Ex. destruct (s_threads s !! x) as [t0|] eqn:E0; [|done]. injection Ex as <-. unfold woken in Hr |- *. destruct (_ && _); [done|]. by exists t0, o.
Qed.

Lemma callback_ok s m : calm s m -> map_Forall (fun _ st => st = Done) m ->
  exists s', callback rndInt s = Ret s' /\ calm s' ((fun _ => Due) <$> m) /\ curPhase s' = curPhase s + 1 /\ s_bar s' = s_bar s /\ later s s' /\
    (forall x, s_threads s' !! x = woken (curPhase s + 1) <$> s_threads s !! x \/ exists t o, s_threads s !! x = Some t /\ th_state t = T_RUNNING /\ s_threads s' !! x = Some (t_handoff t (Some o))) /\
    ((curPhase s + 1) mod schedQuantum s = 0 -> forall g, head (runQueue s) = Some g -> g ∉ runQueue s').
Proof using Hrnd.
  intros [S Hcov Htold Hfl] Hdone.
  assert (Hplain : forall g t, s_threads s !! g = Some t -> plain t).
  { intros g t Hg. destruct (decide (th_state t = T_RUNNING)) as [Hr|Hr]; [|by apply (plain_flag m (curPhase s)); [apply (Hfl g)|]]. apply (plain_done m (curPhase s)); [by apply (Hfl g)|]. destruct (proj2 (Hcov (th_cid t))) as [st Hst]; [by exists g, t|]. by rewrite Hst, (Hdone _ _ Hst). }
  destruct (callback_runs s S) as (s' & E & S' & Hph & Hb & Hc & HL & Hth & Hslp & Hhd).
  { intros g t Hg. split; [apply (Hplain g t Hg)|]. apply (fo_sleep _ _ _ (Hfl g t Hg)). }
  exists s'. split; [done|]. split; [|done]. constructor.
  - done.
  - intros c. rewrite lookup_fmap, fmap_is_Some, (Hcov c). split; intros (x & t & Hx & Hr & Hcx).
    + destruct (Hth x) as [E'|(t0 & o & E0 & _ & E')]; rewrite Hx in *; [exists x, t; split; [|done]; rewrite E'; unfold woken; simpl; by rewrite Hr|]. injection E0 as <-. by exists x, (t_handoff t (Some o)).
    + destruct (Hth x) as [E'|(t0 & o & E0 & Hr0 & E')]; rewrite Hx in E'; [|injection E' as ->; by exists x, t0]. destruct (s_threads s !! x) as [t0|] eqn:E0; [|done]. injection E' as ->. unfold woken in Hr, Hcx. exists x, t0. by destruct (_ && _).
  - apply (told_keep s); [|unfold numCores; by rewrite (la_contexts _ _ HL)|unfold joined; by rewrite Hc]. intros c Hcr. rewrite (Htold c Hcr). f_equal. apply bool_decide_ext. by rewrite lookup_fmap, fmap_is_Some.
  - rewrite Hph. intros x t Hx. destruct (Hth x) as [E'|(t0 & o & E0 & Hr0 & E')]; rewrite Hx in E'.
    + destruct (s_threads s !! x) as [t0|] eqn:E0; [|done]. injection E' as ->. pose proof (Hplain x t0 E0) as (P1 & P2 & P3). constructor; unfold woken; destruct (bool_decide _ && _) eqn:Ew; cbn [t_futex t_join t_state markedForSleep fakeLeave handoffThread th_state]; try congruence.
      intros Hs. apply (Hslp x t0); [|done]. apply (qs_sleep _ _ _ _ _ (sh_queues _ _ _ S')). split; [|set_solver]. exists t0. rewrite Hx. unfold woken. by rewrite Ew.
    + injection E' as ->. pose proof (Hplain x t0 E0) as (P1 & P2 & P3). constructor; simpl; try congruence. intros _. split; [done|]. rewrite lookup_fmap. by destruct (m !! th_cid t0).
Qed.

Lemma calm_bar s m b : calm s m -> calm (w_bar s b) m.
Proof using Type. intros [S C T F]. constructor; try done. constructor; try apply S. eapply pins_keep; [apply S|done|done|done]. Qed.

Lemma later_bar s b s' : later (w_bar s b) s' -> later s s'.
Proof using Type. by intros [A1 A2 A3 A4 A5 A6 A7]. Qed.

(** The events of the barrier after its own one. *)
Lemma phase_ends_ok evs s m m' : Forall quiet evs -> calm s m -> phase_run evs m = Some m' -> exists s', phase_ends rndInt s evs = Ret s' /\ calm s' m' /\ later s s' /\ s_bar s' = s_bar s.
Proof using Hrnd.
  revert s m. induction evs as [|e evs IH]; intros s m Hq Hc Hr.
  { injection Hr as <-. exists s. by split_and!; try apply later_refl. }
  apply Forall_cons in Hq as [He Hq]. cbn [phase_run] in Hr. destruct (phase_step m e) as [m1|] eqn:Es; [|done]. cbn [mbind option_bind] in Hr. unfold phase_ends. cbn [fold_]. destruct He as [-> |[t ->] ]; cbn [phase_step] in Es; case_decide as Hd; try done; injection Es as <-.
  - destruct (callback_ok s m Hc (proj2 Hd)) as (s1 & -> & Hc1 & _ & Hb1 & L1 & _). cbn [mbind outcome_bind]. destruct (IH s1 _ Hq Hc1 Hr) as (s' & E & Hc' & L' & Hb'). exists s'. split; [exact E|]. split; [done|]. split; [by eapply later_trans|congruence].
  - cbn [mbind outcome_bind]. apply (IH s (<[t := Active]> m)); [done| |done]. destruct Hc as [S C T F]. assert (Hdom : forall c, is_Some (<[t := Active]> m !! c) <-> is_Some (m !! c)) by (intros c; destruct (decide (c = t)) as [-> |Hne]; [rewrite lookup_insert_eq, Hd; by split; eexists|by rewrite lookup_insert_ne]).
    constructor; [done| | |].
    + intros c. by rewrite Hdom, (C c).
    + intros c Hcr. rewrite (T c Hcr). f_equal. by apply bool_decide_ext.
    + intros x tx Hx. destruct (F x tx Hx) as [F1 F2 F3 F4]. assert (Ha : forall c, m !! c = Some Active -> <[t := Active]> m !! c = Some Active) by (intros c Hm; rewrite lookup_insert_ne; [done|congruence]). constructor; [| | |done].
      * intros H. destruct (F1 H) as (? & ? & ?). by rewrite Ha.
      * intros H. destruct (F2 H) as (? & ? & ?). by rewrite Ha.
      * intros H. destruct (F3 H) as (? & ?). split; [done|]. destruct (decide (th_cid tx = t)) as [-> |Hne]; [by rewrite lookup_insert_eq|by rewrite lookup_insert_ne].
Qed.

(** A call of the barrier that succeeds, in a state that agrees with what the call itself does. *)
Lemma call_ok (barInt : nat -> Z -> Z) s m m1 op : op_takes barInt ∅ (s_bar s) m op -> phase_step m (bar_head op) = Some m1 -> calm s m1 ->
  exists s' m', call_bar rndInt s (bar_do barInt (s_bar s) op) = Ret s' /\ steady s' m' /\ later s s'.
Proof using Hrnd.
  intros (b' & evs & l' & g' & m' & -> & I & Hrun & Hpos & _ & _ & evs' & -> & Hq) Hst Hc. cbn [call_bar mbind outcome_bind]. cbn [phase_run] in Hrun. rewrite Hst in Hrun. cbn [mbind option_bind] in Hrun.
  destruct (phase_ends_ok evs' (w_bar s b') m1 m' Hq (calm_bar _ _ _ Hc) Hrun) as (s' & E & Hc' & L' & Hb'). exists s', m'. split; [by destruct op|]. split; [|by eapply later_bar]. split; [done|]. exists l', g'. by rewrite Hb'.
Qed.
End Phases.

(** ** Calls of the barrier *)

Definition bar_ready (s : Sched) (m : phases_map) : Prop := exists l g, bar_is (s_bar s) l g m /\ (m <> ∅ -> 0 < runningThreads (s_bar s)).

Lemma active_info b l g m c : bar_is b l g m -> m !! c = Some Active -> exists i, at_ (threadList b) c = Ret i /\ ts_state i = RUNNING.
Proof.
  intros I Hm. destruct (decide (c ∈ l)) as [Hl|Hl]; [|by rewrite (bi_outside _ _ _ _ I c Hl) in Hm]. destruct (bi_info I c Hl) as (i & E & Hi & _). exists i. split; [done|]. apply list_elem_of_lookup in Hl as [k Hk]. rewrite (bi_status _ _ _ _ I k c i Hk Hi) in Hm. unfold status in Hm. destruct (ts_state i); try done. by destruct (_ <? _).
Qed.

Lemma running_active b l g m c i : bar_is b l g m -> at_ (threadList b) c = Ret i -> ts_state i = RUNNING -> m !! c = Some Active.
Proof. intros I Hi Hr. apply at_ret_iff in Hi as [Hc Hi]. destruct (running_facts b l g m c i I Hc Hi Hr) as (k & _ & _ & _ & ? & _). done. Qed.

Lemma allowed_active s m c : bar_ready s m -> bar_allowed (s_bar s) (Sync c) = true <-> m !! c = Some Active.
Proof.
  intros (l & g & I & _). cbn [bar_allowed]. split.
  - destruct (at_ (threadList (s_bar s)) c) as [i|] eqn:E; [|done]. intros Ha. apply bool_decide_eq_true in Ha. by apply (running_active (s_bar s) l g m c i).
  - intros Hm. destruct (active_info _ _ _ _ c I Hm) as (i & -> & Hr). by apply bool_decide_eq_true.
Qed.

Lemma absent_allowed b l g m c : bar_is b l g m -> 0 <= c < MAX_THREADS -> m !! c = None -> bar_allowed b (Join c) = true.
Proof.
  intros I Hc Hm. cbn [bar_allowed]. destruct (at_in_range (threadList b) c) as [i Hi]; [rewrite (bi_threads _ _ _ _ I); lia|]. rewrite Hi. apply at_ret_iff in Hi as [_ Hi]. apply orb_true_iff. unfold in_state. rewrite andb_true_iff, !bool_decide_eq_true.
  destruct (decide (ts_state i = OFFLINE)) as [|Ho]; [by left|]. right. assert (Hs : ts_state i = LEFT).
  { pose proof Ho as Hl. apply (bi_in _ _ _ _ I c i) in Hl; [|lia|done]. apply list_elem_of_lookup in Hl as [k Hk]. rewrite (bi_status _ _ _ _ I k c i Hk Hi) in Hm. unfold status in Hm. destruct (ts_state i); try done. by destruct (_ <? _). }
  split; [done|]. apply (left_recorded b l g m c i I); [lia|done|done|set_solver].
Qed.

Section Calls.
Context (rndInt barInt : nat -> Z -> Z) (Hrnd : forall k i, 0 <= i -> 0 <= rndInt k i <= i) (Hbar : forall k i, 0 <= i -> 0 <= barInt k i <= i).

Lemma call_leave_ok s m c : bar_ready s m -> m !! c = Some Active -> calm s (delete c m) -> exists s' m', call_leave rndInt barInt s c = Ret s' /\ steady s' m' /\ later s s'.
Proof using Hrnd Hbar.
  intros (l & g & I & Hp) Hm Hc. apply (call_ok rndInt Hrnd barInt s m (delete c m) (Leave c)); [|cbn; by rewrite decide_False by congruence|done]. destruct (active_info _ _ _ _ c I Hm) as (i & Hi & Hr). by apply (leave_running barInt Hbar _ l g m c i).
Qed.

Lemma call_sync_ok s m c : bar_ready s m -> m !! c = Some Active -> calm s (<[c := Done]> m) -> exists s' m', call_sync rndInt barInt s c = Ret s' /\ steady s' m' /\ later s s'.
Proof using Hrnd Hbar.
  intros B Hm Hc. pose proof (proj2 (allowed_active s m c B) Hm) as Ha. destruct B as (l & g & I & Hp). apply (call_ok rndInt Hrnd barInt s m (<[c := Done]> m) (Sync c)); [|cbn; by rewrite decide_True|done]. by apply (sync_succeeds barInt Hbar _ l g).
Qed.

Lemma call_join_ok s m c : bar_ready s m -> 0 <= c < MAX_THREADS -> m !! c = None -> calm s (<[c := Due]> m) -> exists s' m', call_join rndInt barInt s c = Ret s' /\ steady s' m' /\ later s s'.
Proof using Hrnd Hbar.
  intros (l & g & I & Hp) Hcr Hm Hc. apply (call_ok rndInt Hrnd barInt s m (<[c := Due]> m) (Join c)); [|cbn; by rewrite decide_True|done]. replace (∅ : gset Z) with (∅ ∖ {[c]} : gset Z) by set_solver. apply (join_succeeds barInt Hbar _ l g); [done|]. by apply (absent_allowed _ l g m).
Qed.
End Calls.

(** ** Steps of an operation *)

Lemma calm_put s m g t t' : calm s m -> s_threads s !! g = Some t -> needsJoin t' = false -> th_state t' = th_state t -> th_cid t' = th_cid t -> mask t' = mask t -> handoffThread t' = handoffThread t -> fakeLeave t' = fakeLeave t ->
  (th_state t = T_SLEEPING -> wakeupPhase t' = wakeupPhase t) -> (th_state t = T_QUEUED \/ th_state t = T_SLEEPING -> th_futex t' = 1) -> flag_ok m (curPhase s) t' -> calm (put s g t') m.
Proof.
  intros [S C T F] Hg Hj Hs Hc Hm Hh Hf Hw Hx Hfl. pose proof (sh_thread _ _ _ S g t Hg) as Hok. constructor.
  - apply (shape_put _ _ _ g t); try done. constructor; rewrite ?Hc, ?Hm; try apply Hok. done.
  - apply (covers_same _ _ g t); [done|done|by rewrite Hs|done].
  - exact T.
  - by apply flags_put.
Qed.

(** The core of a thread is given to no one. *)
Lemma flags_off s L C m g t t' ph : shape s L C -> s_threads s !! g = Some t -> th_state t = T_RUNNING -> flags (s_threads s) m ph -> flag_ok (delete (th_cid t) m) ph t' -> flags (<[g := t']> (s_threads s)) (delete (th_cid t) m) ph.
Proof.
  intros S Hg Hr F Hfl. apply (flags_core _ m _ _ _ _ (th_cid t)); [done| |apply (run_once s L C g t S Hg); by apply on_running|done]. intros k Hk. by rewrite lookup_delete_ne.
Qed.

(** A context that is idle is given to a thread that had none. *)
Lemma scheduled_agree s L C m x tx c st : shape s L C -> s_threads s !! x = Some tx -> on tx = false -> plain tx -> c ∈ C -> covers (s_threads s) m -> flags (s_threads s) m (curPhase s) -> st <> Done ->
  covers (s_threads (scheduled s x tx c)) (<[c := st]> m) /\ flags (s_threads (scheduled s x tx c)) (<[c := st]> m) (curPhase s) /\ forall k, joined (scheduled s x tx c) k = joined s k.
Proof.
  intros S Hx Hoff Hp HC Hcov F Hst. pose proof (proj1 (on_false tx) Hoff) as [Hr _]. split; [|split].
  - apply (covers_on (s_threads s) m x tx (t_place tx T_RUNNING c)); [done|done|done|done].
  - unfold scheduled. shape_fields. apply (flags_core _ m _ _ _ _ c); [done|intros k Hk; by rewrite lookup_insert_ne| |apply flag_plain; [exact Hp|done] ]. intros y ty _ Hy Hry Hcy. apply (idle_not_running_in s L C c S HC). by exists y, ty.
  - intros k. unfold scheduled. by rewrite joined_note.
Qed.

(** A queued thread gets the context [c], whose core stays in the barrier, and is woken up. *)
Lemma wakeup_ok s g t j : s_threads s !! g = Some t -> th_futex t = 1 -> wakeup s g j = Ret (put s g (t_futex (t_join t j) 0)).
Proof. intros Hg Hx. unfold wakeup. rewrite (thread_get _ _ _ Hg). cbn [mbind outcome_bind]. by rewrite Hx. Qed.

Definition restarted (t : ThreadInfo) (c : Z) : ThreadInfo := t_futex (t_join (t_place t T_RUNNING c) false) 0.

(** What the rest of an operation may rely on. *)
Record beside (s s' : Sched) : Prop := {
  be_n : numCores s' = numCores s;
  be_fakes : fakeLeaves s' = fakeLeaves s;
  be_bar : s_bar s' = s_bar s;
  be_phase : curPhase s' = curPhase s;
  be_pins : s_pins s' = s_pins s
}.

Lemma beside_refl s : beside s s.
Proof. done. Qed.
Lemma beside_trans s1 s2 s3 : beside s1 s2 -> beside s2 s3 -> beside s1 s3.
Proof. intros [] []. constructor; congruence. Qed.
Lemma beside_ready s s' m : beside s s' -> bar_ready s m -> bar_ready s' m.
Proof. intros B (l & g & H). exists l, g. by rewrite (be_bar _ _ B). Qed.

Lemma take_core s m x tx c : shape s {[x]} {[c]} -> s_threads s !! x = Some tx -> th_state tx = T_QUEUED -> th_futex tx = 1 -> may_use tx c -> plain tx -> m !! c = Some Active ->
  covers (s_threads s) (delete c m) -> told s (delete c m) -> flags (s_threads s) (delete c m) (curPhase s) ->
  exists s', (s1 ← schedule s x c; s2 ← core_join s1 c; wakeup s2 x false) = Ret s' /\ calm s' m /\ s_threads s' = <[x := restarted tx c]> (s_threads s) /\ beside s s'.
Proof.
  intros S Hx Hq Hf Hm Hp Hmc Hcov Ht F. assert (Hnp : ~ promised (s_threads s) x) by (apply (qs_limbo _ _ _ _ _ (sh_queues _ _ _ S)); set_solver). assert (Hc : 0 <= c < numCores s) by (pose proof (pl_limbo _ _ _ _ (sh_placed _ _ _ S) c ltac:(set_solver)) as [Hc0 Hc]; apply lookup_lt_Some in Hc; unfold numCores; lia).
  destruct (schedule_ok s {[x]} {[c]} x tx c S Hx) as [-> S1]; [auto|left; set_solver|done|set_solver|done|]. cbn [mbind outcome_bind]. rewrite !difference_diag_L in S1.
  destruct (scheduled_agree s {[x]} {[c]} (delete c m) x tx c Active S Hx) as (C1 & F1 & J1); [by apply on_false; rewrite Hq|done|set_solver|done|done|done|]. rewrite insert_delete_eq, insert_id in C1, F1 by done.
  set (s1 := scheduled s x tx c) in *. assert (Hn1 : numCores s1 = numCores s) by (unfold numCores, s1, scheduled; shape_fields; by rewrite length_insert). pose proof (shape_cores_length _ _ _ S1) as Hl1.
  unfold core_join. rewrite core_set_ok by (done || by rewrite Hn1). cbn [mbind outcome_bind]. set (s2 := note s1 c (fun n => mkCore true (c_gid n))). assert (Hx2 : s_threads s2 !! x = Some (t_place tx T_RUNNING c)) by (unfold s2, s1, scheduled; shape_fields; apply lookup_insert_eq).
  rewrite (wakeup_ok s2 x _ false Hx2) by done. assert (K2 : calm s2 m).
  { constructor; [by apply shape_note|exact C1| |exact F1]. apply (told_set s1 (delete c m)); [|done|lia| |by rewrite Hmc]. - by apply (told_keep s). - intros k Hk. by rewrite lookup_delete_ne. }
  eexists. split; [done|]. split; [|split; [|done]].
  - eapply calm_put; [exact K2|exact Hx2|done|done|done|done|done|done|done|by intros [?|?]|by apply flag_plain].
  - unfold s2, s1, scheduled, restarted. shape_fields. by rewrite insert_insert_eq.
Qed.

(** ** Leaving *)

(** What an operation of thread [g] does to the others. *)
Record apart (g : Z) (s s' : Sched) : Prop := {
  ap_n : numCores s' = numCores s;
  ap_fakes : fakeLeaves s' = fakeLeaves s;
  ap_pins : s_pins s' = s_pins s;
  ap_running : forall x t, x <> g -> s_threads s !! x = Some t -> th_state t = T_RUNNING -> exists t', s_threads s' !! x = Some t' /\ th_state t' = T_RUNNING /\ th_cid t' = th_cid t
}.

Lemma apart_beside g s s' : beside s s' -> (forall x t, x <> g -> s_threads s !! x = Some t -> th_state t = T_RUNNING -> s_threads s' !! x = Some t) -> apart g s s'.
Proof. intros [B1 B2 B3 B4] H. constructor; try done. intros x t Hx Ht Hr. exists t. by rewrite (H x t). Qed.

Lemma apart_later g s s1 s' : apart g s s1 -> later s1 s' -> apart g s s'.
Proof.
  intros [A1 A2 A3 A4] L. constructor.
  - unfold numCores in *. by rewrite (la_contexts _ _ L).
  - by rewrite (la_fakes _ _ L).
  - by rewrite (la_pins _ _ L).
  - intros x t Hx Ht Hr. destruct (A4 x t Hx Ht Hr) as (t1 & Ht1 & Hr1 & Hc1). destruct (later_get _ _ _ _ L Ht1) as (t' & Ht' & Ha). exists t'. split; [done|]. destruct Ha as [-> |[[Hs _]|[_ [o ->] ] ] ]; [done|congruence|done].
Qed.

(** The states in which a thread can be that has left. *)
Definition gone (marked : bool) (t : ThreadInfo) : Prop := th_state t = T_OUT \/ th_state t = T_BLOCKED \/ th_state t = T_SLEEPING /\ marked = true.

Lemma gone_aged b t t' : gone b t -> aged t t' -> gone b t'.
Proof. unfold gone. intros H [-> |[[Hs ->]|[Hs [o ->] ] ] ]; [done|by right; left|naive_solver]. Qed.

Section Leave.
Context (s : Sched) (m : phases_map) (g : Z) (t : ThreadInfo) (Hst : steady s m) (Hg : s_threads s !! g = Some t) (Hr : th_state t = T_RUNNING) (Ha : m !! th_cid t = Some Active).

(** The core is told first. *)
Definition told_leave : Sched := note s (th_cid t) (fun n => mkCore false (c_gid n)).

Lemma leave_told : shape told_leave ∅ ∅ /\ told told_leave (delete (th_cid t) m) /\ core_leave s (th_cid t) = Ret told_leave /\ 0 <= th_cid t < numCores s.
Proof using Hst Hg.
  destruct Hst as [[S C T F] _]. pose proof (to_cid _ _ (sh_thread _ _ _ S g t Hg)) as Hc. pose proof (shape_cores_length _ _ _ S) as Hl. split_and!; try lia.
  - by apply shape_note.
  - apply (told_set s m); [done|done|lia| |]. { intros k Hk. by rewrite lookup_delete_ne. } rewrite lookup_delete_eq. apply bool_decide_false. by intros [? ?].
  - unfold core_leave. by rewrite core_set_ok.
Qed.

(** The thread that takes the core over is [x]. *)
Lemma leave_taken s2 x tx t2 b : shape s2 {[x]} {[th_cid t]} -> s_threads s2 = <[g := t2]> (s_threads s) -> (forall k, joined s2 k = joined told_leave k) -> beside s s2 -> x <> g -> s_threads s !! x = Some tx -> x ∈ runQueue s -> may_use tx (th_cid t) ->
  plain t2 -> gone b t2 -> (th_state t2 = T_SLEEPING -> curPhase s < wakeupPhase t2) ->
  exists s', (s1 ← schedule s2 x (th_cid t); s3 ← core_join s1 (th_cid t); wakeup s3 x false) = Ret s' /\ steady s' m /\ apart g s s' /\ exists t', s_threads s' !! g = Some t' /\ gone b t'.
Proof using Hst Hg Hr Ha.
  intros S2 Hth Hj B Hne Hx Hq Hm Hp Hgo Hw. destruct leave_told as (_ & Htold & _ & Hc). destruct Hst as [[S C T F] R]. apply (qs_run _ _ _ _ _ (sh_queues _ _ _ S)) in Hq as ((tx' & Hx' & Hqx) & _). rewrite Hx in Hx'. injection Hx' as <-.
  assert (Hnr : th_state t2 <> T_RUNNING) by (destruct Hgo as [E|[E|[E _] ] ]; rewrite E; done).
  destruct (take_core s2 m x tx (th_cid t) S2) as (s' & E & K & Hth' & B'); try done.
  - rewrite Hth. by rewrite lookup_insert_ne.
  - apply (sh_futex _ _ _ S x tx Hx); [set_solver|by left].
  - apply (plain_flag m (curPhase s)); [by apply (F x)|congruence].
  - rewrite Hth. apply covers_off; [done|done| |done|done]. apply (run_once s ∅ ∅ g t S Hg). by apply on_running.
  - apply (told_keep told_leave); [done|apply (be_n _ _ B)|done].
  - rewrite Hth, (be_phase _ _ B). apply (flags_off s ∅ ∅); [done|done|done|done|]. destruct Hp as (P1 & P2 & P3). constructor; [congruence|congruence|congruence|done].
  - exists s'. split; [done|]. split; [|split].
    + split; [done|]. apply (beside_ready s2); [done|]. by apply (beside_ready s).
    + apply apart_beside; [by apply (beside_trans s s2)|]. intros y ty Hy Hty Hry. rewrite Hth', Hth. by rewrite !lookup_insert_ne by congruence.
    + exists t2. rewrite Hth', Hth, lookup_insert_ne by done. by rewrite lookup_insert_eq.
Qed.

Context (rndInt barInt : nat -> Z -> Z) (Hrnd : forall k i, 0 <= i -> 0 <= rndInt k i <= i) (Hbar : forall k i, 0 <= i -> 0 <= barInt k i <= i).

(** No thread takes the core over. *)
Lemma leave_alone s2 t2 b : shape s2 ∅ ∅ -> s_threads s2 = <[g := t2]> (s_threads s) -> (forall k, joined s2 k = joined told_leave k) -> beside s s2 -> plain t2 -> gone b t2 -> (th_state t2 = T_SLEEPING -> curPhase s < wakeupPhase t2) ->
  exists s' m', call_leave rndInt barInt s2 (th_cid t) = Ret s' /\ steady s' m' /\ apart g s s' /\ exists t', s_threads s' !! g = Some t' /\ gone b t'.
Proof using Hst Hg Hr Ha Hrnd Hbar.
  intros S2 Hth Hj B Hp Hgo Hw. destruct leave_told as (_ & Htold & _ & Hc). destruct Hst as [[S C T F] R]. assert (Hnr : th_state t2 <> T_RUNNING) by (destruct Hgo as [E|[E|[E _] ] ]; rewrite E; done).
  destruct (call_leave_ok rndInt barInt Hrnd Hbar s2 m (th_cid t)) as (s' & m' & E & St' & L'); [by apply (beside_ready s)|done| |].
  - constructor; [done| | |].
    + rewrite Hth. apply covers_off; [done|done| |done|done]. apply (run_once s ∅ ∅ g t S Hg). by apply on_running.
    + apply (told_keep told_leave); [done|apply (be_n _ _ B)|done].
    + rewrite Hth, (be_phase _ _ B). apply (flags_off s ∅ ∅); [done|done|done|done|]. destruct Hp as (P1 & P2 & P3). constructor; [congruence|congruence|congruence|done].
  - exists s', m'. split; [done|]. split; [done|]. split.
    + eapply apart_later; [|exact L']. apply apart_beside; [done|]. intros y ty Hy Hty Hry. by rewrite Hth, lookup_insert_ne by done.
    + destruct (later_get s2 s' g t2 L') as (t' & Ht' & Hag); [by rewrite Hth, lookup_insert_eq|]. exists t'. split; [done|]. by eapply gone_aged.
Qed.

Context (Hf : fakeLeave t = false) (Hh : handoffThread t = None).

(** The thread goes to sleep. *)
Lemma leave_asleep : markedForSleep t = true ->
  exists s' m', sched_leave rndInt barInt s g (th_cid t) = Ret s' /\ steady s' m' /\ apart g s s' /\ exists t', s_threads s' !! g = Some t' /\ gone true t'.
Proof using Hst Hg Hr Ha Hf Hh Hrnd Hbar.
  intros Hmk. destruct leave_told as (S1 & _ & El & Hc). destruct (pl_on _ _ _ _ (sh_placed _ _ _ (ca_shape _ _ (proj1 Hst))) g t Hg (on_running t Hr)) as [[Hc0 Hctx] _]. unfold sched_leave. rewrite (at_ret _ _ (used g)) by done. cbn [mbind outcome_bind used curThread].
  rewrite (thread_get _ _ _ Hg). cbn [mbind outcome_bind]. rewrite Z.eqb_refl, bool_decide_true by done. cbn [assert_ mbind outcome_bind]. rewrite El. cbn [mbind outcome_bind]. rewrite Hmk.
  destruct (fo_mark _ _ _ (ca_flags _ _ (proj1 Hst) g t Hg) Hmk) as (_ & _ & Hw & Hfx & _ & _). set (t1 := t_mark t false). set (s1 := put told_leave g t1).
  assert (S1' : shape s1 ∅ ∅) by (apply (shape_put _ _ _ g t); try done; constructor; apply (sh_thread _ _ _ S1 g t Hg)). assert (Hg1 : s_threads s1 !! g = Some t1) by apply lookup_insert_eq.
  destruct (deschedule_ok s1 ∅ ∅ g t1 T_SLEEPING S1' Hg1) as [Ed S2]; [by left|done|auto|]. change (th_cid t1) with (th_cid t) in Ed, S2. rewrite Ed. cbn [mbind outcome_bind queueless] in S2 |- *. rewrite !union_empty_r_L in S2. set (t2 := t_state t1 T_SLEEPING). set (s2 := descheduled s1 g t1 T_SLEEPING) in *.
  assert (Hth2 : s_threads s2 = <[g := t2]> (s_threads s)) by (unfold s2, descheduled, s1; shape_fields; by rewrite insert_insert_eq). assert (Hg2 : s_threads s2 !! g = Some t2) by (by rewrite Hth2, lookup_insert_eq).
  destruct (sleep_after_ok s2 g t2 (sleepQueue s2)) as (slp & Es & Hpm & Hord); [apply S2|done|intros x Hx; apply (qs_sleep _ _ _ _ _ (sh_queues _ _ _ S2)) in Hx as ((tx & -> & _) & _); by eexists|]. change (wakeupPhase t2) with (wakeupPhase t) in Es. rewrite Es. cbn [mbind outcome_bind].
  pose proof (shape_enter_sleep s2 _ _ S2 g t2 slp Hg2 eq_refl Hfx ltac:(set_solver) Hpm Hord) as S3. rewrite difference_diag_L in S3. set (s3 := w_sleep s2 slp) in *.
  assert (Hn3 : numCores s3 = numCores s) by (unfold numCores, s3, s2, descheduled, s1, told_leave; shape_fields; by rewrite length_insert). assert (B3 : beside s s3) by (constructor; done). assert (J3 : forall k, joined s3 k = joined told_leave k) by (intros k; change (joined s3 k) with (joined s2 k); unfold s2, descheduled; by rewrite joined_note).
  assert (Hp2 : plain t2) by done. assert (Hgo : gone true t2) by (right; right; done).
  destruct (schedContext_ok s3 _ _ S3 (th_cid t)) as [[-> Hno]|(x & tx & -> & Hxq & Hx & Hqx & Hmx)]; [by rewrite Hn3| |]; cbn [mbind outcome_bind].
  - pose proof (shape_free s3 _ _ S3 (th_cid t) ltac:(set_solver) Hno) as S4. rewrite difference_diag_L in S4. by apply (leave_alone (w_free s3 (freeList s3 ++ [th_cid t])) t2 true).
  - pose proof (shape_unrun s3 _ _ S3 x Hxq) as S4. rewrite union_empty_r_L in S4. assert (Hne : x <> g) by (intros ->; change (s_threads s3) with (s_threads s2) in Hx; rewrite Hg2 in Hx; injection Hx as <-; done). change (s_threads s3) with (s_threads s2) in Hx. rewrite Hth2, lookup_insert_ne in Hx by done.
    destruct (leave_taken (w_run s3 (filter (fun y => y <> x) (runQueue s3))) x tx t2 true) as (s' & E & H); try done. by exists s', m.
Qed.

Lemma leave_awake : markedForSleep t = false ->
  exists s' m', sched_leave rndInt barInt s g (th_cid t) = Ret s' /\ steady s' m' /\ apart g s s' /\ exists t', s_threads s' !! g = Some t' /\ gone false t'.
Proof using Hst Hg Hr Ha Hf Hh Hrnd Hbar.
  intros Hmk. destruct leave_told as (S1 & _ & El & Hc). destruct (pl_on _ _ _ _ (sh_placed _ _ _ (ca_shape _ _ (proj1 Hst))) g t Hg (on_running t Hr)) as [[Hc0 Hctx] _]. unfold sched_leave. rewrite (at_ret _ _ (used g)) by done. cbn [mbind outcome_bind used curThread].
  rewrite (thread_get _ _ _ Hg). cbn [mbind outcome_bind]. rewrite Z.eqb_refl, bool_decide_true by done. cbn [assert_ mbind outcome_bind]. rewrite El. cbn [mbind outcome_bind]. rewrite Hmk. set (s1 := told_leave) in *. assert (Hg1 : s_threads s1 !! g = Some t) by done.
  destruct (schedContext_ok s1 _ _ S1 (th_cid t)) as [[-> Hno]|(x & tx & -> & Hxq & Hx & Hqx & Hmx)]; [done| |]; cbn [mbind outcome_bind].
  - rewrite (thread_get _ _ _ Hg1). cbn [mbind outcome_bind]. pose proof (shape_state s1 _ _ g t (t_state t T_OUT) S1 Hg1) as S2. cbn [th_state t_state queueless] in S2. rewrite union_empty_r_L in S2.
    assert (S2' : shape (put s1 g (t_state t T_OUT)) {[g]} ∅). { apply S2; try done; [unfold on; by rewrite Hr|apply (sh_thread _ _ _ S1 g t Hg1)|right; by rewrite Hr|congruence|by right]. } clear S2.
    pose proof (shape_enter_out _ _ _ S2' g (t_state t T_OUT) ltac:(apply lookup_insert_eq) eq_refl ltac:(set_solver)) as S3. rewrite difference_diag_L in S3.
    apply (leave_alone (w_out (put s1 g (t_state t T_OUT)) (outQueue s1 ++ [g])) (t_state t T_OUT) false); try done. by left.
  - pose proof (shape_unrun s1 _ _ S1 x Hxq) as S2. rewrite union_empty_r_L in S2. set (s2 := w_run s1 (filter (fun y => y <> x) (runQueue s1))) in *. assert (Hne : x <> g) by congruence.
    destruct (deschedule_ok s2 _ _ g t T_BLOCKED S2 Hg1) as [-> S3]; [by left|done|auto|]. cbn [mbind outcome_bind queueless] in S3 |- *. rewrite union_empty_r_L in S3. replace ({[x]} ∖ {[g]} : gset Z) with ({[x]} : gset Z) in S3 by (apply leibniz_equiv; set_solver).
    destruct (leave_taken (descheduled s2 g t T_BLOCKED) x tx (t_state t T_BLOCKED) false) as (s' & E & H); try done.
    + intros k. unfold descheduled. by rewrite joined_note.
    + constructor; try done. unfold numCores, descheduled, s2, s1, told_leave. shape_fields. by rewrite length_insert.
    + right. by left.
    + by exists s', m.
Qed.

Lemma sched_leave_ok : exists s' m', sched_leave rndInt barInt s g (th_cid t) = Ret s' /\ steady s' m' /\ apart g s s' /\ exists t', s_threads s' !! g = Some t' /\ gone (markedForSleep t) t'.
Proof using Hst Hg Hr Ha Hf Hh Hrnd Hbar. destruct (markedForSleep t) eqn:E; [by apply leave_asleep|by apply leave_awake]. Qed.
End Leave.

(** ** Joining *)

(** *** Fake leaves *)

Lemma shape_fake s g t b fl : shape s ∅ ∅ -> s_threads s !! g = Some t -> fakes (<[g := t_fake t b]> (s_threads s)) fl -> shape (w_fake (put s g (t_fake t b)) fl) ∅ ∅.
Proof.
  intros S Hg Hfk. pose proof (sh_thread _ _ _ S g t Hg) as Hok. constructor; unfold numCores; shape_fields; try apply S.
  - intros x tx Hx. th_case Hx; [|by apply (sh_thread _ _ _ S x)]. constructor; apply Hok.
  - intros x tx Hx HL. th_case Hx; [|by apply (sh_futex _ _ _ S x)]. exact (sh_futex _ _ _ S g t Hg HL).
  - eapply placed_keep; [apply S|exact Hg|done|done|done].
  - eapply queues_same; [apply S|exact Hg|done|done].
  - eapply handoffs_put; [apply S|exact Hg|done|done| |].
    + intros Hn. destruct (handoffThread t) as [x|] eqn:E; [|done]. by destruct (ho_target _ (sh_handoffs _ _ _ S) g t x Hg E) as [Hr _].
    + intros (v & tv & Hv & Hvg). destruct (ho_target _ (sh_handoffs _ _ _ S) v tv g Hv Hvg) as (_ & tg & Htg & Hq & _). by simplify_eq.
  - eapply busy_put; [exact Hg|apply S|done| |done]. intros c Hc _. eapply running_stays; [exact Hg|exact Hc|done].
  - eapply ordered_put; [apply S|exact Hg|done].
  - done.
  - eapply pins_keep; [apply S|done|done|]. intros x. apply is_some_insert.
Qed.

Lemma fakes_close th fl g t : fakes th fl -> th !! g = Some t -> fakes (<[g := t_fake t false]> th) (filter (fun f => fl_th f <> g) fl).
Proof.
  intros [Hn Hin] Hg. assert (E : fl_th <$> filter (fun f => fl_th f <> g) fl = filter (fun y => y <> g) (fl_th <$> fl)) by (clear; induction fl as [|f fl IH]; [done|]; rewrite fmap_cons; destruct (decide (fl_th f = g)) as [E|E]; [by rewrite !filter_cons_False by (intros ?; done)|by rewrite !filter_cons_True, fmap_cons, IH by done]). constructor; rewrite E.
  - by apply nodup_without.
  - intros x. rewrite list_elem_of_filter, Hin. destruct (decide (x = g)) as [-> |Hne].
    + rewrite in_state_eq. simpl. naive_solver.
    + rewrite in_state_put by done. naive_solver.
Qed.

Lemma fakes_open th fl g t pc : fakes th fl -> th !! g = Some t -> fakeLeave t = false -> fakes (<[g := t_fake t true]> th) (fl ++ [mkFake pc g]).
Proof.
  intros [Hn Hin] Hg Hf. assert (Hno : g ∉ fl_th <$> fl) by (intros H; apply Hin in H as (t' & H' & ?); congruence). constructor; rewrite fmap_app; cbn [fmap list_fmap fl_th].
  - apply NoDup_app. split; [done|]. split; [|apply NoDup_singleton]. intros x Hx ->%list_elem_of_singleton. done.
  - intros x. rewrite elem_of_app, list_elem_of_singleton, Hin. destruct (decide (x = g)) as [-> |Hne].
    + rewrite in_state_eq. simpl. naive_solver.
    + rewrite in_state_put by done. naive_solver.
Qed.

Lemma calm_fake s m g t b fl : calm s m -> s_threads s !! g = Some t -> fakes (<[g := t_fake t b]> (s_threads s)) fl -> flag_ok m (curPhase s) (t_fake t b) -> calm (w_fake (put s g (t_fake t b)) fl) m.
Proof.
  intros [S C T F] Hg Hfk Hfl. constructor; [by apply shape_fake| |exact T|by apply flags_put]. by apply (covers_same _ _ g t).
Qed.

Definition unfaked (s : Sched) (g : Z) (t : ThreadInfo) : Sched := w_fake (put s g (t_fake t false)) (filter (fun f => fl_th f <> g) (fakeLeaves s)).

Lemma finishFakeLeave_ok s m g t : steady s m -> s_threads s !! g = Some t -> fakeLeave t = true -> finishFakeLeave s g = Ret (unfaked s g t) /\ steady (unfaked s g t) m.
Proof.
  intros [K R] Hg Hf. pose proof (ca_flags _ _ K g t Hg) as [F1 F2 F3 F4]. destruct (F2 Hf) as (Hr & Ha & Hh). pose proof (sh_fakes _ _ _ (ca_shape _ _ K)) as Hfk. split.
  - unfold finishFakeLeave. rewrite (thread_get _ _ _ Hg). cbn [mbind outcome_bind]. rewrite Hf, bool_decide_true by done. cbn [assert_ mbind outcome_bind].
    assert (He : existsb (fun f => fl_th f =? g) (fakeLeaves s) = true).
    { assert (Hin : g ∈ fl_th <$> fakeLeaves s) by (apply (fk_in _ _ Hfk); by exists t). apply list_elem_of_fmap in Hin as (f & -> & Hin). apply existsb_exists. exists f. split; [by apply list_elem_of_In|apply Z.eqb_refl]. }
    by rewrite He.
  - split; [|exact R]. apply calm_fake; [done|done|by apply fakes_close|]. constructor; cbn [t_fake markedForSleep fakeLeave handoffThread th_state th_cid wakeupPhase th_futex]; [|done|done|done]. intros Hm. destruct (F1 Hm) as (_ & _ & _ & _ & H & _). congruence.
Qed.

(** *** Getting a context *)

Lemma mild_flags s s1 m ph : mild s s1 -> flags (s_threads s) m ph -> flags (s_threads s1) m ph.
Proof.
  intros M F x t Hx. destruct (mi_threads _ _ M x) as [E|(t0 & E & Ho & E1)]; [apply (F x); congruence|]. rewrite Hx in E1. injection E1 as ->. apply flag_plain; [|done]. pose proof (F x t0 E) as Ft. apply plain_flag in Ft; [done|congruence].
Qed.

Section Gain.
Context (s : Sched) (L : gset Z) (m : phases_map) (g : Z) (t : ThreadInfo) (S : shape s L ∅) (HL : L ⊆ {[g]}) (Hg : s_threads s !! g = Some t) (Hp : plain t)
  (Hcov : covers (s_threads s) m) (Ht : told s m) (F : flags (s_threads s) m (curPhase s)) (R : bar_ready s m).

(** No context: the thread waits in the run queue. *)
Lemma wait_core t' : (forall c, may_use t c -> running_at (s_threads s) c) -> on t = false -> t' = t_futex (t_state t T_QUEUED) 1 -> ~ promised (s_threads s) g -> g ∈ L \/ queueless (th_state t) = true -> steady (w_run (put s g t') (runQueue s ++ [g])) m.
Proof using S HL Hg Hp Hcov Ht F R.
  intros Hall Hoff -> Hnp Hq. apply on_false in Hoff as [Hr Ho]. pose proof (sh_thread _ _ _ S g t Hg) as Hok. set (t' := t_futex (t_state t T_QUEUED) 1).
  assert (S1 : shape (put s g t') {[g]} ∅).
  { destruct (decide (th_state t = T_QUEUED)) as [Hqd|Hqd].
    - assert (HLg : L = {[g]}) by (apply leibniz_equiv; destruct Hq as [Hq|Hq]; [set_solver|by rewrite Hqd in Hq]). rewrite HLg in S. apply (shape_put _ _ _ g t); try done; [constructor; apply Hok].
    - pose proof (shape_state s L ∅ g t t' S Hg) as H. cbn [t' t_futex t_state th_state queueless] in H. assert (HLg : {[g]} ∪ L = {[g]}) by (apply leibniz_equiv; set_solver). rewrite HLg in H. destruct Hp as (P1 & P2 & P3). apply H; try done; [|apply Hok]; rewrite (proj2 (on_false t)) by done; by apply on_false. }
  pose proof (shape_enter_run _ _ _ S1 g t' ltac:(apply lookup_insert_eq) eq_refl eq_refl ltac:(set_solver)) as S2. rewrite difference_diag_L in S2. split; [|exact R]. constructor.
  - apply S2. intros c Hm _. eapply running_stays; [exact Hg|by apply Hall|]. done.
  - apply (covers_same _ _ g t); [done|done|by split|done].
  - exact Ht.
  - apply flags_put; [done|]. by apply flag_plain.
Qed.

Context (rndInt barInt : nat -> Z -> Z) (Hrnd : forall k i, 0 <= i -> 0 <= rndInt k i <= i) (Hbar : forall k i, 0 <= i -> 0 <= barInt k i <= i).

Lemma gain_core : th_state t = T_STARTED \/ th_state t = T_BLOCKED \/ th_state t = T_QUEUED -> g ∈ L \/ queueless (th_state t) = true -> ~ promised (s_threads s) g ->
  (schedThread s g = Ret (s, None) /\ forall c, may_use t c -> running_at (s_threads s) c) \/
  (exists s1 c s' m', schedThread s g = Ret (s1, Some c) /\ (s2 ← schedule s1 g c; s3 ← core_join s2 c; call_join rndInt barInt s3 c) = Ret s' /\ steady s' m' /\ apart g s s' /\ exists t', s_threads s' !! g = Some t' /\ th_state t' = T_RUNNING).
Proof using Hrnd Hbar S HL Hg Hp Hcov Ht F R.
  intros Hs Hq Hnp. assert (Hoff : on t = false) by (apply on_false; destruct Hs as [E|[E|E] ]; by rewrite E).
  destruct (schedThread_ok s L t S g HL Hg Hoff) as [H|(s1 & c & -> & S1 & M & Hm & Hnr)]; [by left|]. right. exists s1, c. assert (Hg1 : s_threads s1 !! g = Some t) by (apply (mild_get s s1 g t M Hg); apply on_false in Hoff; naive_solver).
  assert (HC : c ∈ ({[c]} : gset Z)) by set_solver. assert (Hc : 0 <= c < numCores s1) by (pose proof (pl_limbo _ _ _ _ (sh_placed _ _ _ S1) c HC) as [Hc0 Hc]; apply lookup_lt_Some in Hc; unfold numCores; lia).
  assert (Hnp1 : ~ promised (s_threads s1) g) by (destruct Hq as [Hq|Hq]; [by apply (qs_limbo _ _ _ _ _ (sh_queues _ _ _ S1))|eapply not_promised; [apply S1|exact Hg1|]; by destruct (th_state t)]).
  destruct (schedule_ok s1 L {[c]} g t c S1 Hg1 Hs Hq Hnp1 HC Hm) as [-> S2]. cbn [mbind outcome_bind]. replace (L ∖ {[g]}) with (∅ : gset Z) in S2 by (apply leibniz_equiv; set_solver). rewrite difference_diag_L in S2.
  assert (C1 : covers (s_threads s1) m) by (intros k; by rewrite (mild_running s s1 k M)).
  destruct (scheduled_agree s1 L {[c]} m g t c Due S1 Hg1 Hoff Hp HC C1) as (C2 & F2 & J2); [rewrite (mi_phase _ _ M); by apply (mild_flags s)|done|].
  set (s2 := scheduled s1 g t c) in *. assert (Hn2 : numCores s2 = numCores s1) by (unfold numCores, s2, scheduled; shape_fields; by rewrite length_insert). pose proof (shape_cores_length _ _ _ S2) as Hl2.
  unfold core_join. rewrite core_set_ok by (done || by rewrite Hn2). cbn [mbind outcome_bind]. assert (Hmc : m !! c = None) by (destruct (m !! c) eqn:E; [|done]; destruct Hnr; rewrite (mild_running s s1 c M); apply Hcov; by rewrite E).
  destruct (call_join_ok rndInt barInt Hrnd Hbar (note s2 c (fun n => mkCore true (c_gid n))) m c) as (s' & m' & E & St & L').
  - destruct R as (l & gg & HR). exists l, gg. change (s_bar (note s2 c (fun n => mkCore true (c_gid n)))) with (s_bar s1). by rewrite (mi_bar _ _ M).
  - pose proof (sh_n _ _ _ S1). lia.
  - done.
  - constructor; [by apply shape_note|exact C2| |exact F2]. apply (told_set s2 m); [|done|lia| |by rewrite lookup_insert_eq].
    + apply (told_keep s); [done|by rewrite Hn2, (mi_n _ _ M)|]. intros k. by rewrite J2, (mi_joined _ _ M).
    + intros k Hk. by rewrite lookup_insert_ne.
  - exists s', m'. split_and!; try done.
    + eapply apart_later; [|exact L']. constructor.
      * change (numCores s2 = numCores s). by rewrite Hn2, (mi_n _ _ M).
      * apply (mi_fakes _ _ M).
      * apply (mi_pins _ _ M).
      * intros x tx Hne Hx Hrx. exists tx. split; [|done]. unfold s2, scheduled. shape_fields. rewrite lookup_insert_ne by done. apply (mild_get s s1 x tx M Hx). congruence.
    + destruct (later_get _ _ g (t_place t T_RUNNING c) L') as (t' & Ht' & Ha); [apply lookup_insert_eq|]. exists t'. split; [done|]. destruct Ha as [-> |[[? _]|[_ [o ->] ] ] ]; done.
Qed.
End Gain.

(** ** Operations of a thread *)

(** A sleeper is taken out of the sleep queue, in [join], [finish] and [notifySleepEnd]. *)
Definition unslept (s : Sched) (g : Z) (t : ThreadInfo) : Sched := put (w_sleep s (filter (fun y => y <> g) (sleepQueue s))) g (t_state t T_BLOCKED).

Lemma unsleep_ok s m g t : steady s m -> s_threads s !! g = Some t -> th_state t = T_SLEEPING -> q_remove (sleepQueue s) g = Ret (filter (fun y => y <> g) (sleepQueue s)) /\ steady (unslept s g t) m /\ plain t.
Proof.
  intros [[S C T F] R] Hg Hs. assert (Hin : g ∈ sleepQueue s) by (apply (qs_sleep _ _ _ _ _ (sh_queues _ _ _ S)); split; [by exists t|set_solver]). assert (Hp : plain t) by (apply (plain_flag m (curPhase s)); [by apply (F g)|congruence]). split; [by rewrite q_remove_ok|]. split; [|done]. split; [|exact R].
  destruct Hp as (P1 & P2 & P3). constructor; [| |exact T|].
  - pose proof (shape_unsleep s _ _ S g Hin) as S1. rewrite union_empty_r_L in S1. pose proof (shape_state _ _ _ g t (t_state t T_BLOCKED) S1 Hg) as S2. cbn [t_state th_state queueless] in S2. rewrite difference_diag_L in S2. apply S2; try done; [unfold on; by rewrite Hs|apply (sh_thread _ _ _ S g t Hg)|left; set_solver|congruence|congruence].
  - apply (covers_same _ _ g t); [done|done|rewrite Hs; by split|congruence].
  - apply flags_put; [done|]. by apply flag_plain.
Qed.

Section Ops.
Context (rndInt barInt : nat -> Z -> Z) (Hrnd : forall k i, 0 <= i -> 0 <= rndInt k i <= i) (Hbar : forall k i, 0 <= i -> 0 <= barInt k i <= i).

(** *** [join] *)

Lemma join_out s m g t : steady s m -> s_threads s !! g = Some t -> th_state t = T_OUT ->
  exists s' m', (q ← q_remove (outQueue s) g; s1 ← core_join (w_out (put s g (t_state t T_RUNNING)) q) (th_cid t); call_join rndInt barInt s1 (th_cid t)) = Ret s' /\ steady s' m'.
Proof using Hrnd Hbar.
  intros [[S C T F] R] Hg Hs. assert (Hin : g ∈ outQueue s) by (apply (qs_out _ _ _ _ _ (sh_queues _ _ _ S)); split; [by exists t|set_solver]). assert (Hp : plain t) by (apply (plain_flag m (curPhase s)); [by apply (F g)|congruence]). destruct Hp as (P1 & P2 & P3).
  pose proof (to_cid _ _ (sh_thread _ _ _ S g t Hg)) as Hc. pose proof (sh_n _ _ _ S) as Hn. assert (Hone : forall x tx, x <> g -> s_threads s !! x = Some tx -> th_state tx = T_RUNNING -> th_cid tx <> th_cid t) by (apply (run_once s ∅ ∅ g t S Hg); by apply on_out).
  assert (Hm : m !! th_cid t = None). { destruct (m !! th_cid t) eqn:E; [|done]. destruct (proj1 (C (th_cid t))) as (x & tx & Hx & Hr & Hcx); [by rewrite E|]. destruct (Hone x tx); [congruence|done|done|done]. }
  rewrite q_remove_ok by done. cbn [mbind outcome_bind]. pose proof (shape_unout s _ _ S g Hin) as S1. rewrite union_empty_r_L in S1. pose proof (shape_state _ _ _ g t (t_state t T_RUNNING) S1 Hg) as S2. cbn [t_state th_state queueless] in S2. rewrite difference_diag_L in S2.
  set (s2 := w_out (put s g (t_state t T_RUNNING)) (filter (fun y => y <> g) (outQueue s))). assert (S2' : shape s2 ∅ ∅) by (apply S2; try done; [unfold on; by rewrite Hs|apply (sh_thread _ _ _ S g t Hg)|left; set_solver|congruence|congruence]).
  unfold core_join. rewrite core_set_ok by (apply (shape_cores_length _ _ _ S2') || done). cbn [mbind outcome_bind].
  destruct (call_join_ok rndInt barInt Hrnd Hbar (note s2 (th_cid t) (fun n => mkCore true (c_gid n))) m (th_cid t)) as (s' & m' & E & St & _); [done|lia|done| |by exists s', m'].
  constructor; [by apply shape_note| | |].
  - apply (covers_on _ _ g t (t_state t T_RUNNING)); [done|done|by rewrite Hs|done].
  - apply (told_set s2 m); [done|apply (shape_cores_length _ _ _ S2')|lia| |by rewrite lookup_insert_eq]. intros k Hk. by rewrite lookup_insert_ne.
  - apply (flags_core _ m _ _ _ _ (th_cid t)); [done|intros k Hk; by rewrite lookup_insert_ne|done|by apply flag_plain].
Qed.

Lemma join_idle s m g t : steady s m -> s_threads s !! g = Some t -> th_state t = T_STARTED \/ th_state t = T_BLOCKED ->
  exists s' m', ('(s, o) ← schedThread s g;
    match o with
    | Some c => s ← schedule s g c; s ← core_join s c; call_join rndInt barInt s c
    | None => t ← thread s g; waitForContext (w_run (put s g (t_state t T_QUEUED)) (runQueue s ++ [g])) g
    end) = Ret s' /\ steady s' m'.
Proof using Hrnd Hbar.
  intros [[S C T F] R] Hg Hs. assert (Hp : plain t) by (apply (plain_flag m (curPhase s)); [by apply (F g)|destruct Hs; congruence]). assert (Hql : queueless (th_state t) = true) by (by destruct Hs as [-> | ->]). assert (Hnp : ~ promised (s_threads s) g) by (eapply not_promised; [apply S|exact Hg|destruct Hs; congruence]).
  destruct (gain_core s ∅ m g t S ltac:(set_solver) Hg Hp C T F R rndInt barInt Hrnd Hbar) as [[-> Hall]|(s1 & c & s' & m' & -> & E & St & _)]; [tauto|by right|done| |by exists s', m'].
  cbn [mbind outcome_bind]. rewrite (thread_get _ _ _ Hg). cbn [mbind outcome_bind]. unfold waitForContext, thread. shape_fields. rewrite lookup_insert_eq. cbn [mbind outcome_bind]. eexists _, m. split; [done|].
  pose proof (wait_core s ∅ m g t S ltac:(set_solver) Hg Hp C T F R _ Hall (proj2 (on_false t) ltac:(destruct Hs; split; congruence)) eq_refl Hnp (or_intror Hql)) as W. unfold put in W |- *. shape_fields in W. shape_fields. by rewrite insert_insert_eq.
Qed.

Lemma sched_join_ok s m g t : steady s m -> s_threads s !! g = Some t -> fakeLeave t = true \/ th_state t = T_OUT \/ th_state t = T_BLOCKED \/ th_state t = T_SLEEPING \/ th_state t = T_STARTED -> exists s' m', sched_join rndInt barInt s g = Ret s' /\ steady s' m'.
Proof using Hrnd Hbar.
  intros St Hg Hs. unfold sched_join. rewrite Hg. destruct (fakeLeave t) eqn:Hf.
  { destruct (finishFakeLeave_ok s m g t St Hg Hf) as [-> St']. by exists (unfaked s g t), m. }
  destruct Hs as [?|Hs]; [done|]. assert (Hp : plain t) by (destruct St as [K _]; apply (plain_flag m (curPhase s)); [by apply (ca_flags _ _ K g)|clear -Hs; intuition congruence]). destruct Hp as (P1 & P2 & P3). rewrite P1. cbn [negb assert_ mbind outcome_bind]. case_bool_decide as Hsl.
  - destruct (unsleep_ok s m g t St Hg Hsl) as (-> & St' & _). cbn [mbind outcome_bind]. assert (Hg' : s_threads (unslept s g t) !! g = Some (t_state t T_BLOCKED)) by apply lookup_insert_eq. change (put (w_sleep s (filter (fun y => y <> g) (sleepQueue s))) g (t_state t T_BLOCKED)) with (unslept s g t). rewrite (thread_get _ _ _ Hg'). cbn [mbind outcome_bind t_state th_state]. rewrite bool_decide_false by done. rewrite bool_decide_true by auto. cbn [assert_ mbind outcome_bind].
    apply (join_idle _ m g (t_state t T_BLOCKED)); [done|done|by right].
  - cbn [mbind outcome_bind]. rewrite (thread_get _ _ _ Hg). cbn [mbind outcome_bind]. case_bool_decide as Ho; [by apply (join_out s m)|]. rewrite bool_decide_true by tauto. cbn [assert_ mbind outcome_bind]. apply (join_idle _ m g t); [done|done|tauto].
Qed.

(** *** [sync] *)

Lemma calm_done s m g t : calm s m -> s_threads s !! g = Some t -> th_state t = T_RUNNING -> plain t -> is_Some (m !! th_cid t) -> calm s (<[th_cid t := Done]> m).
Proof using Type.
  intros [S C T F] Hg Hr Hp Hm. assert (Hdom : forall c, is_Some (<[th_cid t := Done]> m !! c) <-> is_Some (m !! c)) by (intros c; destruct (decide (c = th_cid t)) as [-> |Hne]; [rewrite lookup_insert_eq; by split; [|by eexists]|by rewrite lookup_insert_ne]). constructor; [done| | |].
  - intros c. by rewrite Hdom, (C c).
  - intros c Hc. rewrite (T c Hc). f_equal. by apply bool_decide_ext.
  - rewrite <- (insert_id (s_threads s) g t Hg). apply (flags_core _ m _ _ _ _ (th_cid t)); [done|intros k Hk; by rewrite lookup_insert_ne| |apply flag_plain; [done|congruence] ]. apply (run_once s ∅ ∅ g t S Hg). by apply on_running.
Qed.

Lemma sched_sync_ok s m g t : steady s m -> s_threads s !! g = Some t -> th_state t = T_RUNNING -> plain t -> m !! th_cid t = Some Active -> exists s' m', sched_sync rndInt barInt s (th_cid t) = Ret s' /\ steady s' m'.
Proof using Hrnd Hbar.
  intros [K R] Hg Hr Hp Hm. destruct (pl_on _ _ _ _ (sh_placed _ _ _ (ca_shape _ _ K)) g t Hg (on_running t Hr)) as [[Hc0 Hctx] _]. unfold sched_sync. rewrite (at_ret _ _ (used g)) by done. cbn [mbind outcome_bind used curThread]. rewrite (thread_get _ _ _ Hg). cbn [mbind outcome_bind]. rewrite (proj1 Hp). cbn [negb assert_ mbind outcome_bind].
  destruct (call_sync_ok rndInt barInt Hrnd Hbar s m (th_cid t) R Hm) as (s' & m' & E & St & _); [by apply (calm_done s m g t)|by exists s', m'].
Qed.
End Ops.

(** *** The handoff in [sync] *)

Lemma shape_handed s g t x : shape s ∅ ∅ -> s_threads s !! g = Some t -> handoffThread t = Some x -> shape (put s g (t_handoff t None)) {[x]} ∅.
Proof.
  intros S Hg Hx. pose proof (sh_thread _ _ _ S g t Hg) as Hok. destruct (handoff_done _ _ _ _ _ g t x (sh_queues _ _ _ S) (sh_handoffs _ _ _ S) Hg Hx) as [Q H]. rewrite union_empty_r_L in Q. constructor; unfold numCores; shape_fields; try apply S.
  - intros y ty Hy. th_case Hy; [|by apply (sh_thread _ _ _ S y)]. constructor; apply Hok.
  - intros y ty Hy HL. th_case Hy; [exact (sh_futex _ _ _ S g t Hg ltac:(set_solver))|]. apply (sh_futex _ _ _ S y); [done|set_solver].
  - eapply placed_keep; [apply S|exact Hg|done|done|done].
  - exact Q.
  - exact H.
  - eapply busy_put; [exact Hg|apply S|done| |done]. intros c Hc _. eapply running_stays; [exact Hg|exact Hc|done].
  - eapply ordered_put; [apply S|exact Hg|done].
  - eapply fakes_put; [apply S|exact Hg|done].
  - eapply pins_keep; [apply S|done|done|]. intros y. apply is_some_insert.
Qed.

(** The core goes to [dst]; the thread that had it is queued but in no queue yet. *)
Lemma hand_over s m g t dst : steady s m -> s_threads s !! g = Some t -> handoffThread t = Some dst -> m !! th_cid t = Some Active ->
  exists s', (s1 ← deschedule (put s g (t_handoff t None)) g (th_cid t) T_QUEUED; s2 ← schedule s1 dst (th_cid t); wakeup s2 dst false) = Ret s' /\ shape s' {[g]} ∅ /\ covers (s_threads s') m /\ told s' m /\ flags (s_threads s') m (curPhase s') /\ bar_ready s' m /\
    (exists t', s_threads s' !! g = Some t' /\ plain t' /\ th_state t' = T_QUEUED) /\ exists t', s_threads s' !! dst = Some t' /\ th_state t' = T_RUNNING /\ th_cid t' = th_cid t.
Proof.
  intros [[S C T F] R] Hg Hx Hm. destruct (ho_target _ (sh_handoffs _ _ _ S) g t dst Hg Hx) as (Hr & td & Hd & Hqd & Hmd). assert (Hne : dst <> g) by congruence. pose proof (shape_handed s g t dst S Hg Hx) as S1. set (t1 := t_handoff t None). set (s1 := put s g t1). assert (Hg1 : s_threads s1 !! g = Some t1) by apply lookup_insert_eq.
  assert (P1 : plain t1). { destruct (F g t Hg) as [F1 F2 F3 F4]. split_and!; [|simpl|done]. - simpl. destruct (markedForSleep t); [|done]. destruct F1 as (_ & _ & _ & _ & _ & ?); [done|congruence]. - destruct (fakeLeave t); [|done]. destruct F2 as (_ & _ & ?); [done|congruence]. }
  assert (Pd : plain td) by (apply (plain_flag m (curPhase s)); [by apply (F dst)|congruence]). pose proof (sh_futex _ _ _ S dst td Hd ltac:(set_solver) (or_introl Hqd)) as Hfd.
  destruct (deschedule_ok s1 {[dst]} ∅ g t1 T_QUEUED S1 Hg1) as [E2 S2]; [by left|done|auto|]. change (th_cid t1) with (th_cid t) in E2, S2. rewrite E2. cbn [mbind outcome_bind queueless] in S2 |- *. rewrite union_empty_r_L in S2. set (s2 := descheduled s1 g t1 T_QUEUED) in *. set (t2 := t_state t1 T_QUEUED).
  assert (Hth2 : s_threads s2 = <[g := t2]> (s_threads s)) by (unfold s2, descheduled, s1; shape_fields; by rewrite insert_insert_eq). assert (Hd2 : s_threads s2 !! dst = Some td) by (by rewrite Hth2, lookup_insert_ne). set (c := th_cid t) in *.
  assert (C2 : covers (s_threads s2) (delete c m)) by (rewrite Hth2; apply covers_off; [done|done| |done|done]; apply (run_once s ∅ ∅ g t S Hg); by apply on_running). assert (F2 : flags (s_threads s2) (delete c m) (curPhase s2)) by (rewrite Hth2; apply (flags_off s ∅ ∅ m g t); [done|done|done|done|by apply flag_plain]).
  assert (Hnp2 : ~ promised (s_threads s2) dst) by (apply (qs_limbo _ _ _ _ _ (sh_queues _ _ _ S2)); set_solver). assert (HC : c ∈ ({[c]} : gset Z)) by set_solver.
  destruct (schedule_ok s2 _ {[c]} dst td c S2 Hd2) as [-> S3]; [auto|left; set_solver|done|done|done|]. cbn [mbind outcome_bind]. rewrite difference_diag_L in S3. replace (({[g]} ∪ {[dst]}) ∖ {[dst]}) with ({[g]} : gset Z) in S3 by (apply leibniz_equiv; set_solver).
  destruct (scheduled_agree s2 _ {[c]} (delete c m) dst td c Active S2 Hd2) as (C3 & F3 & J3); [by apply on_false; rewrite Hqd|done|done|done|done|done|]. rewrite insert_delete_eq, insert_id in C3, F3 by done. set (s3 := scheduled s2 dst td c) in *.
  assert (Hd3 : s_threads s3 !! dst = Some (t_place td T_RUNNING c)) by apply lookup_insert_eq. rewrite (wakeup_ok s3 dst _ false Hd3) by done. eexists. split; [done|]. split_and!.
  - apply (shape_put _ _ _ dst _ _ S3 Hd3); try done; [|by intros _ [?|?] ]. destruct (sh_thread _ _ _ S3 dst _ Hd3) as [O1 O2 O3 O4]. by constructor.
  - apply (covers_same _ _ dst _ _ C3 Hd3); done.
  - apply (told_keep s); [done|unfold numCores, s3, scheduled, s2, descheduled, s1; shape_fields; by rewrite !length_insert|]. intros k. change (joined s3 k = joined s k). rewrite J3. unfold s2, descheduled. by rewrite joined_note.
  - apply flags_put; [exact F3|]. by apply flag_plain.
  - exact R.
  - exists t2. split; [|done]. unfold s3, scheduled. shape_fields. by rewrite !lookup_insert_ne, Hth2, lookup_insert_eq by done.
  - eexists. split; [apply lookup_insert_eq|done].
Qed.

Section Handoff.
Context (rndInt barInt : nat -> Z -> Z) (Hrnd : forall k i, 0 <= i -> 0 <= rndInt k i <= i) (Hbar : forall k i, 0 <= i -> 0 <= barInt k i <= i).

Lemma sync_handoff_ok s m g t : steady s m -> s_threads s !! g = Some t -> m !! th_cid t = Some Active -> 
  exists s' m', sync_handoff rndInt barInt s g = Ret s' /\ steady s' m' /\ forall dst, handoffThread t = Some dst ->
    (exists t', s_threads s' !! dst = Some t' /\ th_state t' = T_RUNNING /\ th_cid t' = th_cid t) /\ exists t', s_threads s' !! g = Some t' /\ (th_state t' = T_RUNNING \/ th_state t' = T_QUEUED /\ last (runQueue s') = Some g).
Proof using Hrnd Hbar.
  intros St Hg Hm. unfold sync_handoff. rewrite (thread_get _ _ _ Hg). cbn [mbind outcome_bind]. destruct (handoffThread t) as [dst|] eqn:Hx; [|by exists s, m]. cbv zeta. assert (Hne : dst <> g) by (destruct (ho_target _ (sh_handoffs _ _ _ (ca_shape _ _ (proj1 St))) g t dst Hg Hx) as (Hr & td & Hd & Hqd & _); congruence).
  destruct (hand_over s m g t dst St Hg Hx Hm) as (s1 & E & S1 & C1 & T1 & F1 & R1 & (t1 & Hg1 & P1 & Hq1) & td & Hd1 & Hrd & Hcd). apply bind_ret_inv in E as (sa & -> & E). cbn [mbind outcome_bind]. apply bind_ret_inv in E as (sb & -> & E). cbn [mbind outcome_bind]. rewrite E. cbn [mbind outcome_bind].
  assert (Hin : g ∈ ({[g]} : gset Z)) by set_solver. assert (Hnp : ~ promised (s_threads s1) g) by (by apply (qs_limbo _ _ _ _ _ (sh_queues _ _ _ S1))).
  destruct (gain_core s1 {[g]} m g t1 S1 ltac:(done) Hg1 P1 C1 T1 F1 R1 rndInt barInt Hrnd Hbar) as [[-> Hall]|(s2 & c & s' & m' & -> & E' & St' & A & t' & Hg' & Hr')]; [by auto|by left|done| |].
  2:{ exists s', m'. split; [done|]. split; [done|]. intros d [= <-]. split; [|exists t'; split; [done|by left] ]. destruct (ap_running _ _ _ A dst td Hne Hd1 Hrd) as (td' & H1 & H2 & H3). exists td'. by rewrite H3. }
  cbn [mbind outcome_bind]. unfold waitForContext, thread. shape_fields. rewrite Hg1. cbn [mbind outcome_bind]. eexists _, m. split; [done|]. split.
  2:{ intros d [= <-]. shape_fields. rewrite lookup_insert_ne by done. split; [by exists td|]. rewrite lookup_insert_eq. eexists. split; [done|]. right. split; [done|]. by rewrite last_snoc. }
  pose proof (wait_core s1 {[g]} m g t1 S1 ltac:(done) Hg1 P1 C1 T1 F1 R1 (t_futex t1 1) Hall (proj2 (on_false t1) ltac:(split; congruence)) ltac:(destruct t1; simpl in *; by subst) Hnp (or_introl Hin)) as W. exact W.
Qed.

(** *** Sleeping and system calls *)

Lemma markForSleep_ok s m g t phase : steady s m -> s_threads s !! g = Some t -> th_state t = T_RUNNING -> plain t -> m !! th_cid t = Some Active -> curPhase s < phase -> exists s', markForSleep s g phase = Ret s' /\ steady s' m.
Proof using Type.
  intros [K R] Hg Hr (P1 & P2 & P3) Hm Hph. unfold markForSleep. rewrite (thread_get _ _ _ Hg). cbn [mbind outcome_bind]. rewrite P1. cbn [negb assert_ mbind outcome_bind]. eexists. split; [done|]. split; [|exact R].
  pose proof (to_join _ _ (sh_thread _ _ _ (ca_shape _ _ K) g t Hg)) as Hj. apply (calm_put s m g t); try done; congruence.
Qed.

Lemma notifySleepEnd_ok s m g t : steady s m -> s_threads s !! g = Some t -> th_state t = T_SLEEPING \/ th_state t = T_BLOCKED -> exists s', notifySleepEnd s g = Ret s' /\ steady s' m.
Proof using Type.
  intros St Hg Hs. assert (Hp : plain t) by (destruct St as [K _]; apply (plain_flag m (curPhase s)); [by apply (ca_flags _ _ K g)|clear -Hs; intuition congruence]). unfold notifySleepEnd. rewrite (thread_get _ _ _ Hg). cbn [mbind outcome_bind]. rewrite (proj1 Hp), (bool_decide_true (th_state t = T_SLEEPING \/ th_state t = T_BLOCKED)) by done. cbn [negb assert_ mbind outcome_bind].
  case_bool_decide as Hb; [by exists s|]. destruct Hs as [Hs|Hs]; [|done]. destruct (unsleep_ok s m g t St Hg Hs) as (-> & St' & _). by exists (unslept s g t).
Qed.

Lemma syscallLeave_ok s m g t pc : steady s m -> s_threads s !! g = Some t -> th_state t = T_RUNNING -> fakeLeave t = false -> handoffThread t = None -> m !! th_cid t = Some Active -> getPid g < MAX_THREADS -> exists s' m', syscallLeave rndInt barInt s g (th_cid t) pc = Ret s' /\ steady s' m'.
Proof using Hrnd Hbar.
  intros St Hg Hr Hf Hh Hm Hpid. pose proof (proj1 St) as K. destruct (pl_on _ _ _ _ (sh_placed _ _ _ (ca_shape _ _ K)) g t Hg (on_running t Hr)) as [[Hc0 Hctx] _]. unfold syscallLeave. rewrite (at_ret _ _ (used g)) by done. cbn [mbind outcome_bind used curThread]. rewrite (thread_get _ _ _ Hg). cbn [mbind outcome_bind]. rewrite !Z.eqb_refl, (bool_decide_true (th_state t = T_RUNNING)), (proj2 (Z.ltb_lt _ _)) by done. cbn [assert_ mbind outcome_bind].
  destruct (bool_decide _ || markedForSleep t) eqn:E.
  - destruct (sched_leave_ok s m g t St Hg Hr Hm rndInt barInt Hrnd Hbar Hf Hh) as (s' & m' & -> & St' & _). by exists s', m'.
  - apply orb_false_iff in E as [_ Hmk]. rewrite Hf. cbn [negb assert_ mbind outcome_bind]. eexists _, m. split; [done|]. split; [|apply St]. apply calm_fake; [done|done|apply fakes_open; [apply (sh_fakes _ _ _ (ca_shape _ _ K))|done|done]|]. constructor; simpl; try done; congruence.
Qed.
End Handoff.
