(* ===== verification/SchedHist.v ===== *)
(** * Histories of the thread scheduler

    Threads start, run, sleep, make system calls and finish in any order: the invariants of
    SchedOps.v hold throughout.  The watchdog turns fake leaves into real ones and drives
    time forward. *)

From S2P Require Import Prelude Barrier ThreadSched SchedParts SchedInv SchedOps.

(** ** Threads start *)

Lemma shape_new s g t k p : shape s ∅ ∅ -> s_threads s !! g = None -> thread_ok (numCores s) t -> th_state t = T_STARTED -> plain t -> pins_ok (put (w_pins (w_calls s k) p) g t) -> shape (put (w_pins (w_calls s k) p) g t) ∅ ∅.
Proof.
  intros S Hg Hok Hs (P1 & P2 & P3) Hpins. pose proof (sh_queues _ _ _ S) as Q. assert (Hother : forall x, is_Some (s_threads s !! x) -> <[g := t]> (s_threads s) !! x = s_threads s !! x) by (intros x [tx Hx]; rewrite lookup_insert_ne; [done|congruence]).
  constructor; unfold numCores; shape_fields; try apply S.
  - intros x tx Hx. th_case Hx; [done|by apply (sh_thread _ _ _ S x)].
  - intros x tx Hx HL. th_case Hx; [rewrite Hs; intuition congruence|by apply (sh_futex _ _ _ S x)].
  - apply placed_new; [apply S|done|by apply on_false; rewrite Hs].
  - apply queues_new; [done|done|by rewrite Hs|done].
  - apply handoffs_new; [apply S|done|done].
  - intros x tx c Hx Htx Hm HC. assert (Hin : exists ty, s_threads s !! x = Some ty) by (apply (qs_run _ _ _ _ _ Q) in Hx as ((ty & H & _) & _); by exists ty). rewrite Hother in Htx by (by destruct Hin as [? ->]).
    destruct (sh_busy _ _ _ S x tx c Hx Htx Hm HC) as (v & tv & Hv & H). exists v, tv. by rewrite Hother by (by rewrite Hv).
  - apply (ordered_other (s_threads s)); [apply S|]. intros x Hx. apply (qs_sleep _ _ _ _ _ Q) in Hx as ((ty & H & _) & _). apply Hother. by rewrite H.
  - apply fakes_new; [apply S|done|done].
  - exact Hpins.
Qed.

(** A new thread is started with mask [mk] and the pins [p]. *)
Lemma steady_new s m g k p mk : steady s m -> s_threads s !! g = None -> Z.of_nat (length mk) = numCores s -> existsb id mk = true ->
  (forall t, pins_ok (put (w_pins (w_calls s k) p) g t)) -> exists s', (t ← newThread (w_pins (w_calls s k) p) mk; Ret (put (w_pins (w_calls s k) p) g t)) = Ret s' /\ steady s' m.
Proof.
  intros [[S C T F] R] Hg Hl Hex Hp. unfold newThread. change (numCores (w_pins (w_calls s k) p)) with (numCores s). rewrite (proj2 (Z.eqb_eq _ _)) by done. cbn [assert_ mbind outcome_bind]. rewrite Hex. cbn [mbind outcome_bind]. eexists. split; [done|]. split; [|exact R].
  pose proof (sh_n _ _ _ S). constructor; [|by apply covers_new|exact T|by apply flags_new]. apply shape_new; [done|done| |done|done|done]. constructor; simpl; try done. lia.
Qed.

Lemma pin_ok s g c k : shape s ∅ ∅ -> s_threads s !! g = None -> 0 <= c < numCores s -> exists p, pin (s_pins s) g c = Ret p /\ forall t, pins_ok (put (w_pins (w_calls s k) p) g t).
Proof.
  intros S Hg Hc. destruct (sh_pins _ _ _ S) as [Hl Hmap]. unfold numCores in Hc. unfold pin. destruct (at_in_range (pinCoreStatus (s_pins s)) c) as [st Hst]; [lia|]. rewrite Hst. cbn [mbind outcome_bind]. rewrite set_at_ret by lia. cbn [mbind outcome_bind]. eexists. split; [done|]. intros t. constructor; cbn [pinCoreStatus threadPinCoreMap put w_threads w_pins w_calls s_pins s_contexts s_threads]; [by rewrite length_insert|].
  apply at_ret_iff in Hst as [Hc0 Hst]. pose proof (lookup_lt_Some _ _ _ Hst). intros x cx Hx. apply lookup_insert_Some in Hx as [[<- <-]|[Hne Hx] ].
  - split; [rewrite lookup_insert_eq; by eexists|]. split; [unfold numCores; simpl; lia|]. eexists. rewrite at_ret_iff, list_lookup_insert_eq by lia. split; [split; [lia|done]|set_solver].
  - destruct (Hmap x cx Hx) as ([tx Htx] & Hcx & stx & Hat & Hin). split; [rewrite lookup_insert_ne by done; by eexists|]. split; [done|]. apply at_ret_iff in Hat as [Hcx0 Hat]. destruct (decide (cx = c)) as [-> |Hd].
    + exists ({[g]} ∪ st). rewrite at_ret_iff, list_lookup_insert_eq by lia. split; [done|]. rewrite Hst in Hat. injection Hat as <-. set_solver.
    + exists stx. rewrite at_ret_iff, list_lookup_insert_ne by lia. done.
Qed.

Lemma one_core s c : 0 <= c < numCores s -> exists nm, set_at (no_cores s) c true = Ret nm /\ Z.of_nat (length nm) = numCores s /\ existsb id nm = true.
Proof.
  intros Hc. unfold numCores in *. unfold no_cores. rewrite set_at_ret by (rewrite length_replicate; lia). eexists. split; [done|]. split; [by rewrite length_insert, length_replicate|]. apply existsb_exists. exists true. split; [|done]. apply list_elem_of_In, list_elem_of_lookup. exists (Z.to_nat c). apply list_lookup_insert_eq. rewrite length_replicate. lia.
Qed.

Lemma w_same s : w_pins (w_calls s (s_calls s)) (s_pins s) = s.
Proof. by destruct s. Qed.

Section Start.
Context (rndInt : nat -> Z -> Z) (Hrnd : forall k i, 0 <= i -> 0 <= rndInt k i <= i).

(** A thread whose code is offloaded gets a core of its own choice of policy. *)
Lemma schedulePIMThread_ok kind s g mk : shape s ∅ ∅ -> s_threads s !! g = None -> Z.of_nat (length mk) = numCores s -> existsb id mk = true ->
  exists k p nm, schedulePIMThread rndInt kind s g mk = Ret (w_pins (w_calls s k) p, nm) /\ Z.of_nat (length nm) = numCores s /\ existsb id nm = true /\ forall t, pins_ok (put (w_pins (w_calls s k) p) g t).
Proof using Hrnd.
  intros S Hg Hl Hex. pose proof (sh_pins _ _ _ S) as Hpins. pose proof (sh_n _ _ _ S) as Hn. unfold schedulePIMThread. destruct (threadPinCoreMap (s_pins s) !! g) as [c|] eqn:E; [destruct (pi_map _ Hpins g c E) as [[t Ht] _]; congruence|].
  assert (Hkeep : forall k t, pins_ok (put (w_pins (w_calls s k) (s_pins s)) g t)) by (intros k t; eapply pins_keep; [exact Hpins|done|done|]; intros x; apply is_some_insert).
  destruct kind.
  - unfold randomScheduler. destruct (shuffled_ok rndInt Hrnd s) as (avail & k & -> & Hperm). cbn [mbind outcome_bind]. assert (Hav : forall c, c ∈ avail -> 0 <= c < numCores s) by (intros c Hc; rewrite Hperm in Hc; apply elem_of_zrange in Hc; unfold numCores; lia).
    destruct (find_ok (fun c => b ← at_ mk c; st ← at_ (pinCoreStatus (s_pins (w_calls s k))) c; Ret (b && bool_decide (size st = 0%nat))) (fun c => exists st, at_ (pinCoreStatus (s_pins s)) c = Ret st /\ at_ mk c = Ret true /\ size st = 0%nat) avail) as (o & -> & Ho).
    { intros c Hc. apply Hav in Hc. destruct (at_in_range mk c) as [b Hb]; [lia|]. destruct (at_in_range (pinCoreStatus (s_pins s)) c) as [st Hst]; [rewrite (pi_length _ Hpins); unfold numCores in Hc; lia|]. rewrite Hb. cbn [mbind outcome_bind]. shape_fields. rewrite Hst. cbn [mbind outcome_bind]. eexists. split; [done|]. rewrite andb_true_iff, bool_decide_eq_true. split; [intros [-> ?]; by exists st|]. intros (st' & E1 & E2 & E3). split; congruence. }
    cbn [mbind outcome_bind]. destruct o as [c|]; [|exists k, (s_pins s), mk; done]. destruct Ho as [Hc _]. apply Hav in Hc. shape_fields. destruct (pin_ok s g c k S Hg Hc) as (p & -> & Hp). cbn [mbind outcome_bind]. destruct (one_core s c Hc) as (nm & E1 & E2 & E3). change (no_cores (w_calls s k)) with (no_cores s). rewrite E1. cbn [mbind outcome_bind]. by exists k, p, nm.
  - unfold groupScheduler. cbv zeta. set (tid := if 0 <? getTid g then _ else _). pose proof (Z.mod_pos_bound tid (numCores s) ltac:(lia)) as Hc. destruct (one_core s _ Hc) as (nm & -> & E2 & E3). cbn [mbind outcome_bind]. destruct (pin_ok s g _ (s_calls s) S Hg Hc) as (p & -> & Hp). cbn [mbind outcome_bind]. exists (s_calls s), p, nm. split; [|done]. by destruct s.
Qed.

Lemma start_ok pim s m g mk : steady s m -> s_threads s !! g = None -> Z.of_nat (length mk) = numCores s -> existsb id mk = true -> exists s', start rndInt pim s g mk = Ret s' /\ steady s' m.
Proof using Hrnd.
  intros St Hg Hl Hex. unfold start. rewrite bool_decide_true by done. cbn [assert_ mbind outcome_bind]. pose proof (ca_shape _ _ (proj1 St)) as S. destruct pim as [kind|].
  - destruct (schedulePIMThread_ok kind s g mk S Hg Hl Hex) as (k & p & nm & -> & E1 & E2 & Hp). cbn [mbind outcome_bind]. by apply steady_new.
  - cbn [mbind outcome_bind]. rewrite <- (w_same s). apply steady_new; [done|done|done|done|]. intros t. rewrite w_same. eapply pins_keep; [apply (sh_pins _ _ _ S)|done|done|]. intros x. apply is_some_insert.
Qed.
End Start.

(** ** Threads finish *)

Lemma shape_gone s L g t : shape s L ∅ -> L ⊆ {[g]} -> s_threads s !! g = Some t -> on t = false -> plain t -> g ∈ L \/ queueless (th_state t) = true -> ~ promised (s_threads s) g -> threadPinCoreMap (s_pins s) !! g = None ->
  shape (w_threads s (delete g (s_threads s))) ∅ ∅.
Proof.
  intros S HL Hg Hoff (P1 & P2 & P3) Hq Hnp Hpin. destruct (free_of_queues _ _ _ _ _ (sh_queues _ _ _ S) g t Hg Hq) as (Q1 & Q2 & Q3). constructor; unfold numCores; shape_fields; try apply S.
  - intros x tx Hx. apply lookup_delete_Some in Hx as [_ Hx]. by apply (sh_thread _ _ _ S x).
  - intros x tx Hx _. apply lookup_delete_Some in Hx as [Hne Hx]. apply (sh_futex _ _ _ S x); [done|set_solver].
  - eapply placed_delete; [apply S|exact Hg|done].
  - pose proof (queues_delete _ _ _ _ _ g t (sh_queues _ _ _ S) Hg Hq P3) as Q. replace (L ∖ {[g]}) with (∅ : gset Z) in Q by (apply leibniz_equiv; set_solver). done.
  - apply handoffs_delete; [apply S|done].
  - intros x tx c Hx Htx Hm HC. apply lookup_delete_Some in Htx as [Hne Htx]. destruct (sh_busy _ _ _ S x tx c Hx Htx Hm HC) as (v & tv & Hv & Hr & Hc). exists v, tv. rewrite lookup_delete_ne; [done|]. intros ->. apply on_false in Hoff. naive_solver.
  - apply (ordered_other (s_threads s)); [apply S|]. intros x Hx. rewrite lookup_delete_ne; [done|]. by intros ->.
  - eapply fakes_delete; [apply S|exact Hg|done].
  - destruct (sh_pins _ _ _ S) as [Hl Hmap]. constructor; shape_fields; [done|]. intros x c Hx. destruct (Hmap x c Hx) as (Ht & H). split; [|done]. rewrite lookup_delete_ne; [done|]. intros ->. congruence.
Qed.

(** A thread that is out gives its context back. *)
Lemma release_out s g t : shape s ∅ ∅ -> s_threads s !! g = Some t -> th_state t = T_OUT -> handoffThread t = None ->
  exists s', (q ← q_remove (outQueue s) g; s1 ← deschedule (w_out s q) g (th_cid t) T_BLOCKED; Ret (w_free s1 (freeList s1 ++ [th_cid t]))) = Ret s' /\ shape s' ∅ ∅ /\ s_threads s' = <[g := t_state t T_BLOCKED]> (s_threads s) /\ beside s s' /\ forall k, joined s' k = joined s k.
Proof.
  intros S Hg Hs Hh. assert (Hin : g ∈ outQueue s) by (apply (qs_out _ _ _ _ _ (sh_queues _ _ _ S)); split; [by exists t|set_solver]). rewrite q_remove_ok by done. cbn [mbind outcome_bind]. pose proof (shape_unout s _ _ S g Hin) as S1. rewrite union_empty_r_L in S1. set (s1 := w_out s (filter (fun y => y <> g) (outQueue s))) in *.
  destruct (deschedule_ok s1 {[g]} ∅ g t T_BLOCKED S1 Hg) as [-> S2]; [right; split; [done|set_solver]|done|auto|]. cbn [mbind outcome_bind queueless] in S2 |- *. rewrite difference_diag_L, union_empty_r_L in S2. set (s2 := descheduled s1 g t T_BLOCKED) in *.
  pose proof (shape_free s2 _ _ S2 (th_cid t) ltac:(set_solver)) as S3. rewrite difference_diag_L in S3. eexists. split; [done|]. split_and!.
  - apply S3. intros x tx Hx Htx Hm. assert (Hne : x <> g) by (intros ->; destruct (free_of_queues _ _ _ _ _ (sh_queues _ _ _ S2) g (t_state t T_BLOCKED) ltac:(apply lookup_insert_eq) ltac:(by right)) as (H & _); done). unfold s2, descheduled in Htx. shape_fields in Htx. rewrite lookup_insert_ne in Htx by done.
    destruct (sh_busy _ _ _ S x tx (th_cid t) Hx Htx Hm ltac:(set_solver)) as (v & tv & Hv & Hr & Hc). destruct (run_once s ∅ ∅ g t S Hg (on_out t Hs) v tv); [congruence|done|done|done].
  - done.
  - constructor; try done. unfold numCores, s2, descheduled, s1. shape_fields. by rewrite length_insert.
  - intros k. change (joined s2 k = joined s k). unfold s2, descheduled. by rewrite joined_note.
Qed.

Lemma finish_tail_ok s m g t : steady s m -> s_threads s !! g = Some t -> th_state t = T_STARTED \/ th_state t = T_OUT \/ th_state t = T_BLOCKED \/ th_state t = T_QUEUED -> ~ promised (s_threads s) g -> threadPinCoreMap (s_pins s) !! g = None ->
  exists s', finish_tail s g = Ret s' /\ steady s' m /\ s_threads s' !! g = None.
Proof.
  intros [[S C T F] R] Hg Hs Hnp Hpin. assert (Hnr : th_state t <> T_RUNNING) by (clear -Hs; intuition congruence). assert (Hp : plain t) by (apply (plain_flag m (curPhase s)); [by apply (F g)|done]). unfold finish_tail. rewrite (thread_get _ _ _ Hg). cbn [mbind outcome_bind]. rewrite (bool_decide_true (th_state t = T_STARTED \/ th_state t = T_OUT \/ th_state t = T_BLOCKED \/ th_state t = T_QUEUED)) by done. cbn [assert_ mbind outcome_bind].
  case_bool_decide as Hq; [|case_bool_decide as Ho].
  - assert (Hin : g ∈ runQueue s) by (apply (qs_run _ _ _ _ _ (sh_queues _ _ _ S)); split; [by exists t|split; [set_solver|done] ]). rewrite q_remove_ok by done. cbn [mbind outcome_bind]. eexists. split; [done|]. split; [|apply lookup_delete_eq]. split; [|exact R]. pose proof (shape_unrun s _ _ S g Hin) as S1. rewrite union_empty_r_L in S1.
    constructor; [|by apply (covers_delete _ _ g t)|exact T|by apply flags_delete]. apply (shape_gone (w_run s (filter (fun y => y <> g) (runQueue s))) {[g]} g t S1); try done; [by apply on_false; rewrite Hq|left; set_solver].
  - apply (qs_out _ _ _ _ _ (sh_queues _ _ _ S)) in Ho as ((t' & Hg' & Hout) & _). rewrite Hg in Hg'. injection Hg' as <-. destruct (release_out s g t S Hg Hout (proj2 (proj2 Hp))) as (s1 & E & S1 & Hth & B & J). apply bind_ret_inv in E as (q & -> & E). cbn [mbind outcome_bind]. rewrite E. cbn [mbind outcome_bind]. eexists. split; [done|]. split; [|apply lookup_delete_eq].
    split; [|apply (beside_ready s1); [done|by apply (beside_ready s)]]. set (t1 := t_state t T_BLOCKED) in *. assert (Hg1 : s_threads s1 !! g = Some t1) by (by rewrite Hth, lookup_insert_eq). constructor.
    + apply (shape_gone s1 ∅ g t1 S1); try done; [by right|eapply not_promised; [apply S1|exact Hg1|done]|by rewrite (be_pins _ _ B)].
    + shape_fields. apply (covers_delete _ _ g t1); [|done|done]. rewrite Hth. apply (covers_same _ _ g t); [done|done|by rewrite Hout|congruence].
    + apply (told_keep s); [done|apply (be_n _ _ B)|exact J].
    + shape_fields. apply flags_delete. rewrite Hth, (be_phase _ _ B). apply flags_put; [done|by apply flag_plain].
  - cbn [mbind outcome_bind]. eexists. split; [done|]. split; [|apply lookup_delete_eq]. split; [|exact R]. assert (Hno : th_state t <> T_OUT) by (intros H; apply Ho, (qs_out _ _ _ _ _ (sh_queues _ _ _ S)); split; [by exists t|set_solver]).
    constructor; [|by apply (covers_delete _ _ g t)|exact T|by apply flags_delete]. apply (shape_gone s ∅ g t S); try done; [by apply on_false|right; clear -Hs Hq Hno; destruct (th_state t); naive_solver].
Qed.

Lemma steady_pins s m p : steady s m -> pins_ok (w_pins s p) -> steady (w_pins s p) m.
Proof. intros [[S C T F] R] Hp. split; [|exact R]. constructor; try done. constructor; try apply S. exact Hp. Qed.

Lemma unpin_ok s m g : steady s m -> exists p, unpin s g = Ret (w_pins s p) /\ steady (w_pins s p) m /\ threadPinCoreMap p !! g = None.
Proof.
  intros St. destruct (sh_pins _ _ _ (ca_shape _ _ (proj1 St))) as [Hl Hmap]. unfold unpin. destruct (threadPinCoreMap (s_pins s) !! g) as [c|] eqn:E.
  - destruct (Hmap g c E) as (_ & Hc & st & Hst & _). unfold numCores in Hc. rewrite Hst. cbn [mbind outcome_bind]. rewrite set_at_ret by lia. cbn [mbind outcome_bind]. eexists. split; [done|]. split; [|apply lookup_delete_eq]. apply steady_pins; [done|]. constructor; shape_fields; cbn [pinCoreStatus threadPinCoreMap]; [by rewrite length_insert|].
    intros x cx Hx. apply lookup_delete_Some in Hx as [Hne Hx]. destruct (Hmap x cx Hx) as (Ht & Hcx & stx & Hat & Hin). split; [done|]. split; [done|]. apply at_ret_iff in Hst as [_ Hst], Hat as [Hcx0 Hat]. unfold numCores in Hcx. destruct (decide (cx = c)) as [-> |Hd].
    + exists (st ∖ {[g]}). rewrite at_ret_iff, list_lookup_insert_eq by lia. split; [done|]. rewrite Hst in Hat. injection Hat as <-. set_solver.
    + exists stx. by rewrite at_ret_iff, list_lookup_insert_ne by lia.
  - exists (s_pins s). assert (Es : w_pins s (s_pins s) = s) by (by destruct s). by rewrite Es.
Qed.

Section Finish.
Context (rndInt barInt : nat -> Z -> Z) (Hrnd : forall k i, 0 <= i -> 0 <= rndInt k i <= i) (Hbar : forall k i, 0 <= i -> 0 <= barInt k i <= i).

(** A thread that runs or has left becomes one that can be deleted. *)
Lemma finish_left s m g t : steady s m -> s_threads s !! g = Some t -> gone false t -> threadPinCoreMap (s_pins s) !! g = None ->
  exists s', (t ← thread s g; s ← if bool_decide (th_state t = T_SLEEPING) then q ← q_remove (sleepQueue s) g; Ret (put (w_sleep s q) g (t_state t T_BLOCKED)) else Ret s;
    t ← thread s g; s ← if bool_decide (th_state t = T_RUNNING) then sched_leave rndInt barInt s g (th_cid t) else Ret s; finish_tail s g) = Ret s' /\ steady s' m /\ s_threads s' !! g = None.
Proof using Type.
  intros St Hg Hgo Hp. assert (Hs : th_state t = T_OUT \/ th_state t = T_BLOCKED) by (destruct Hgo as [?|[?|[_ ?] ] ]; [auto|auto|done]). rewrite (thread_get _ _ _ Hg). cbn [mbind outcome_bind]. rewrite bool_decide_false by (clear -Hs; intuition congruence). cbn [mbind outcome_bind]. rewrite (thread_get _ _ _ Hg). cbn [mbind outcome_bind]. rewrite bool_decide_false by (clear -Hs; intuition congruence). cbn [mbind outcome_bind].
  apply (finish_tail_ok s m g t); [done|done|tauto| |done]. eapply not_promised; [apply (sh_handoffs _ _ _ (ca_shape _ _ (proj1 St)))|exact Hg|]. clear -Hs. intuition congruence.
Qed.

(** What [finish] needs of its thread: nothing of it is pending. *)
Definition may_finish (s : Sched) (m : phases_map) (g : Z) (t : ThreadInfo) : Prop :=
  markedForSleep t = false /\ handoffThread t = None /\ (th_state t = T_QUEUED -> ~ promised (s_threads s) g) /\ (th_state t = T_RUNNING -> m !! th_cid t = Some Active).

Lemma finish_idle s m g t : steady s m -> s_threads s !! g = Some t -> may_finish s m g t -> fakeLeave t = false -> threadPinCoreMap (s_pins s) !! g = None ->
  exists s' m', (t ← thread s g; s ← if bool_decide (th_state t = T_SLEEPING) then q ← q_remove (sleepQueue s) g; Ret (put (w_sleep s q) g (t_state t T_BLOCKED)) else Ret s;
    t ← thread s g; s ← if bool_decide (th_state t = T_RUNNING) then sched_leave rndInt barInt s g (th_cid t) else Ret s; finish_tail s g) = Ret s' /\ steady s' m' /\ s_threads s' !! g = None.
Proof using Hrnd Hbar.
  intros St Hg (M1 & M2 & M3 & M4) Hf Hp. pose proof (sh_handoffs _ _ _ (ca_shape _ _ (proj1 St))) as Hho. rewrite (thread_get _ _ _ Hg). cbn [mbind outcome_bind]. case_bool_decide as Hsl.
  - destruct (unsleep_ok s m g t St Hg Hsl) as (-> & St' & _). cbn [mbind outcome_bind]. assert (Hg' : s_threads (unslept s g t) !! g = Some (t_state t T_BLOCKED)) by apply lookup_insert_eq. change (put (w_sleep s (filter (fun y => y <> g) (sleepQueue s))) g (t_state t T_BLOCKED)) with (unslept s g t). rewrite (thread_get _ _ _ Hg'). cbn [mbind outcome_bind t_state th_state]. rewrite bool_decide_false by done. cbn [mbind outcome_bind].
    destruct (finish_tail_ok (unslept s g t) m g (t_state t T_BLOCKED) St' Hg') as (s' & E & H); [auto| |done|by exists s', m]. eapply not_promised; [apply (sh_handoffs _ _ _ (ca_shape _ _ (proj1 St')))|exact Hg'|done].
  - cbn [mbind outcome_bind]. rewrite (thread_get _ _ _ Hg). cbn [mbind outcome_bind]. case_bool_decide as Hr.
    + destruct (sched_leave_ok s m g t St Hg Hr (M4 Hr) rndInt barInt Hrnd Hbar Hf M2) as (s1 & m1 & -> & St1 & A1 & t1 & Hg1 & Hgo). cbn [mbind outcome_bind]. rewrite M1 in Hgo. assert (Hs1 : th_state t1 = T_OUT \/ th_state t1 = T_BLOCKED) by (destruct Hgo as [?|[?|[_ ?] ] ]; [auto|auto|done]).
      destruct (finish_tail_ok s1 m1 g t1 St1 Hg1) as (s' & E & H); [tauto| |by rewrite (ap_pins _ _ _ A1)|by exists s', m1]. eapply not_promised; [apply (sh_handoffs _ _ _ (ca_shape _ _ (proj1 St1)))|exact Hg1|clear -Hs1; intuition congruence].
    + cbn [mbind outcome_bind]. destruct (finish_tail_ok s m g t St Hg) as (s' & E & H); [destruct (th_state t); tauto| |done|by exists s', m]. destruct (decide (th_state t = T_QUEUED)) as [Hq|Hq]; [by apply M3|by eapply not_promised].
Qed.

Lemma finish_ok s m g t : steady s m -> s_threads s !! g = Some t -> may_finish s m g t -> exists s' m', finish rndInt barInt s g = Ret s' /\ steady s' m' /\ s_threads s' !! g = None.
Proof using Hrnd Hbar.
  intros St Hg Hmay. unfold finish. rewrite bool_decide_true by (by rewrite Hg). cbn [assert_ mbind outcome_bind]. destruct (unpin_ok s m g St) as (p & -> & St1 & Hp). cbn [mbind outcome_bind]. set (s1 := w_pins s p) in *. assert (Hg1 : s_threads s1 !! g = Some t) by done. rewrite (thread_get _ _ _ Hg1). cbn [mbind outcome_bind].
  destruct (fakeLeave t) eqn:Hf; [|cbn [mbind outcome_bind]; by apply (finish_idle s1 m g t)].
  destruct (fo_fake _ _ _ (ca_flags _ _ (proj1 St1) g t Hg1) Hf) as (Hr & Ha & Hh). destruct (finishFakeLeave_ok s1 m g t St1 Hg1 Hf) as [-> St2]. cbn [mbind outcome_bind]. set (t2 := t_fake t false). assert (Hg2 : s_threads (unfaked s1 g t) !! g = Some t2) by apply lookup_insert_eq.
  destruct (sched_leave_ok (unfaked s1 g t) m g t2 St2 Hg2 Hr Ha rndInt barInt Hrnd Hbar eq_refl Hh) as (s3 & m3 & E3 & St3 & A3 & t3 & Hg3 & Hgo). change (th_cid t2) with (th_cid t) in E3. rewrite E3. cbn [mbind outcome_bind]. change (markedForSleep t2) with (markedForSleep t) in Hgo. rewrite (proj1 Hmay) in Hgo.
  destruct (finish_left s3 m3 g t3 St3 Hg3 Hgo) as (s' & E & H); [by rewrite (ap_pins _ _ _ A3)|by exists s', m3].
Qed.
End Finish.

(** ** Histories *)

Inductive sched_op : Type :=
  | OpStart (pim : option PIMThreadScheduler) (g : Z) (mk : list bool)
  | OpLeave (g : Z)
  | OpJoin (g : Z)
  | OpSync (g : Z)
  | OpHandoff (g : Z)
  | OpMark (g phase : Z)
  | OpSleepEnd (g : Z)
  | OpSyscall (g pc : Z)
  | OpFinish (g : Z).

(** The thread runs and its core has its turn in the phase. *)
Definition own_turn (s : Sched) (t : ThreadInfo) : bool := bool_decide (th_state t = T_RUNNING) && bar_allowed (s_bar s) (Sync (th_cid t)).
Definition no_handoff (t : ThreadInfo) : bool := bool_decide (handoffThread t = None).

(** The state in which a thread itself, or the process it belongs to, makes the call: a thread that
    runs has come back from the barrier and has handed its core over if it was told to; a thread that
    joins is not in its own core; a thread that finishes has nothing pending. *)
Definition sched_allowed (s : Sched) (op : sched_op) : bool :=
  match op with
  | OpStart _ g mk => bool_decide (s_threads s !! g = None) && (Z.of_nat (length mk) =? numCores s) && existsb id mk
  | OpLeave g => match s_threads s !! g with Some t => own_turn s t && negb (fakeLeave t) && no_handoff t | None => false end
  | OpSyscall g _ => match s_threads s !! g with Some t => own_turn s t && negb (fakeLeave t) && no_handoff t && (getPid g <? MAX_THREADS) | None => false end
  | OpSync g => match s_threads s !! g with Some t => own_turn s t && negb (fakeLeave t) && no_handoff t && negb (markedForSleep t) | None => false end
  | OpMark g phase => match s_threads s !! g with Some t => own_turn s t && negb (fakeLeave t) && no_handoff t && negb (markedForSleep t) && (curPhase s <? phase) | None => false end
  | OpHandoff g => match s_threads s !! g with Some t => own_turn s t | None => false end
  | OpJoin g => match s_threads s !! g with Some t => fakeLeave t || bool_decide (th_state t = T_OUT \/ th_state t = T_BLOCKED \/ th_state t = T_SLEEPING \/ th_state t = T_STARTED) | None => false end
  | OpSleepEnd g => match s_threads s !! g with Some t => bool_decide (th_state t = T_SLEEPING \/ th_state t = T_BLOCKED) | None => false end
  | OpFinish g => match s_threads s !! g with Some t => negb (markedForSleep t) && no_handoff t && (bool_decide (th_state t <> T_QUEUED) || bool_decide (g ∈ runQueue s)) && (bool_decide (th_state t <> T_RUNNING) || own_turn s t) | None => false end
  end.

Lemma newSched_steady parallel n quantum : 1 <= parallel < 2 ^ 32 -> 1 <= n <= MAX_THREADS -> 1 <= quantum -> steady (newSched parallel n quantum) ∅.
Proof.
  intros Hpar Hn Hq. assert (Hnum : numCores (newSched parallel n quantum) = n) by (unfold numCores; simpl; rewrite length_replicate; lia).
  assert (Hctx : forall c x, ctx_at (s_contexts (newSched parallel n quantum)) c x <-> x = no_thread /\ 0 <= c < n) by (intros c x; unfold ctx_at; simpl; rewrite lookup_replicate; unfold no_thread; split; [intros (H1 & -> & H2); split; [done|lia]|intros (-> & H); split_and!; try done; lia]).
  split; [|exists [], (runList (newBarrier parallel)); split; [by apply newBarrier_is|done] ]. constructor.
  - constructor; rewrite ?Hnum; try done.
    + constructor; cbn [newSched s_threads freeList]; [done| |apply NoDup_seqZ| |set_solver].
      * intros c x Hx. left. by apply Hctx in Hx as [-> _].
      * intros c. rewrite Hctx, elem_of_zrange. split; [intros H; split; [split; [done|lia]|set_solver]|]. intros [[_ H] _]. lia.
    + by constructor; cbn [newSched s_threads runQueue outQueue sleepQueue]; try apply NoDup_nil_2; try (intros g; split; [intros ?%not_elem_of_nil; done|naive_solver]); set_solver.
    + constructor.
    + constructor; cbn [newSched s_threads fakeLeaves fmap list_fmap]; [apply NoDup_nil_2|]. intros g. split; [by intros ?%not_elem_of_nil|]. naive_solver.
    + cbn [newSched scheduledThreads s_contexts]. symmetry. clear. induction (Z.to_nat n) as [|k IH]; [done|]. cbn [replicate count_b]. simpl. done.
    + cbn [newSched cores s_contexts]. by rewrite !fmap_replicate.
    + constructor; cbn [newSched s_pins pinCoreStatus threadPinCoreMap s_contexts]; [by rewrite !length_replicate|done].
  - intros c. rewrite lookup_empty. split; [by intros [? ?]|]. intros (g & t & Hg & _). done.
  - intros c Hc. rewrite Hnum in Hc. unfold joined. cbn [newSched cores]. rewrite lookup_replicate_2 by lia. simpl. by rewrite lookup_empty.
  - intros g t Hg. done.
Qed.

Lemma turn_active s m t : bar_ready s m -> own_turn s t = true -> th_state t = T_RUNNING /\ m !! th_cid t = Some Active.
Proof. intros R. unfold own_turn. rewrite andb_true_iff, bool_decide_eq_true. intros [Hr Ha]. split; [done|]. by apply (allowed_active s m). Qed.

Ltac bools H := repeat first [rewrite andb_true_iff in H|rewrite orb_true_iff in H|rewrite negb_true_iff in H|rewrite bool_decide_eq_true in H|rewrite Z.eqb_eq in H|rewrite Z.ltb_lt in H].

Section Histories.
Context (rndInt barInt : nat -> Z -> Z).

Definition sched_do (s : Sched) (op : sched_op) : outcome Sched :=
  match op with
  | OpStart pim g mk => start rndInt pim s g mk
  | OpLeave g => t ← thread s g; sched_leave rndInt barInt s g (th_cid t)
  | OpJoin g => sched_join rndInt barInt s g
  | OpSync g => t ← thread s g; sched_sync rndInt barInt s (th_cid t)
  | OpHandoff g => sync_handoff rndInt barInt s g
  | OpMark g phase => markForSleep s g phase
  | OpSleepEnd g => notifySleepEnd s g
  | OpSyscall g pc => t ← thread s g; syscallLeave rndInt barInt s g (th_cid t) pc
  | OpFinish g => finish rndInt barInt s g
  end.

Inductive sched_history (parallel n quantum : Z) : Sched -> Prop :=
  | sched_starts : sched_history parallel n quantum (newSched parallel n quantum)
  | sched_step s op s' : sched_history parallel n quantum s -> sched_allowed s op = true -> sched_do s op = Ret s' -> sched_history parallel n quantum s'.

Fixpoint sched_run (ops : list sched_op) (s : Sched) : outcome Sched :=
  match ops with
  | [] => Ret s
  | op :: ops => _ ← assert_ (sched_allowed s op); s ← sched_do s op; sched_run ops s
  end.

Lemma sched_run_history parallel n quantum ops s s' : sched_history parallel n quantum s -> sched_run ops s = Ret s' -> sched_history parallel n quantum s'.
Proof using Type.
  revert s. induction ops as [|op ops IH]; intros s Hh; cbn [sched_run]; [by intros [= <-]|]. intros Hr. apply bind_ret_inv in Hr as (u & Ha & Hr). apply assert_ret_inv in Ha. apply bind_ret_inv in Hr as (s1 & E & Hr). eapply IH; [|exact Hr]. by eapply sched_step.
Qed.

Context (Hrnd : forall k i, 0 <= i -> 0 <= rndInt k i <= i) (Hbar : forall k i, 0 <= i -> 0 <= barInt k i <= i).

Lemma sched_do_ok s m op : steady s m -> sched_allowed s op = true -> exists s' m', sched_do s op = Ret s' /\ steady s' m'.
Proof using Hrnd Hbar.
  intros St Ha. pose proof (proj2 St) as R. destruct op as [pim g mk|g|g|g|g|g phase|g|g pc|g]; cbn [sched_allowed sched_do] in Ha |- *.
  - bools Ha. destruct Ha as [[Hg Hl] Hex]. destruct (start_ok rndInt Hrnd pim s m g mk St Hg Hl Hex) as (s' & E & H). by exists s', m.
  - destruct (s_threads s !! g) as [t|] eqn:Hg; [|done]. unfold no_handoff in Ha. bools Ha. destruct Ha as [[Ht Hf] Hh]. destruct (turn_active s m t R Ht) as [Hr Hm]. rewrite (thread_get _ _ _ Hg). cbn [mbind outcome_bind].
    destruct (sched_leave_ok s m g t St Hg Hr Hm rndInt barInt Hrnd Hbar Hf Hh) as (s' & m' & E & H & _). by exists s', m'.
  - destruct (s_threads s !! g) as [t|] eqn:Hg; [|done]. bools Ha. by apply (sched_join_ok rndInt barInt Hrnd Hbar s m g t).
  - destruct (s_threads s !! g) as [t|] eqn:Hg; [|done]. unfold no_handoff in Ha. bools Ha. destruct Ha as [[[Ht Hf] Hh] Hk]. destruct (turn_active s m t R Ht) as [Hr Hm]. rewrite (thread_get _ _ _ Hg). cbn [mbind outcome_bind]. by apply (sched_sync_ok rndInt barInt Hrnd Hbar s m g t).
  - destruct (s_threads s !! g) as [t|] eqn:Hg; [|done]. destruct (turn_active s m t R Ha) as [Hr Hm]. destruct (sync_handoff_ok rndInt barInt Hrnd Hbar s m g t St Hg Hm) as (s' & m' & E & H & _). by exists s', m'.
  - destruct (s_threads s !! g) as [t|] eqn:Hg; [|done]. unfold no_handoff in Ha. bools Ha. destruct Ha as [[[[Ht Hf] Hh] Hk] Hph]. destruct (turn_active s m t R Ht) as [Hr Hm]. destruct (markForSleep_ok s m g t phase St Hg Hr (conj Hk (conj Hf Hh)) Hm Hph) as (s' & E & H). by exists s', m.
  - destruct (s_threads s !! g) as [t|] eqn:Hg; [|done]. bools Ha. destruct (notifySleepEnd_ok s m g t St Hg Ha) as (s' & E & H). by exists s', m.
  - destruct (s_threads s !! g) as [t|] eqn:Hg; [|done]. unfold no_handoff in Ha. bools Ha. destruct Ha as [[[Ht Hf] Hh] Hpid]. destruct (turn_active s m t R Ht) as [Hr Hm]. rewrite (thread_get _ _ _ Hg). cbn [mbind outcome_bind]. by apply (syscallLeave_ok rndInt barInt Hrnd Hbar s m g t pc).
  - destruct (s_threads s !! g) as [t|] eqn:Hg; [|done]. unfold no_handoff in Ha. bools Ha. destruct Ha as [[[Hk Hh] Hq] Hr]. destruct (finish_ok rndInt barInt Hrnd Hbar s m g t St Hg) as (s' & m' & E & H & _); [|by exists s', m']. split_and!; [done|done| |].
    + intros Hqd. destruct Hq as [?|Hin]; [done|]. by apply (qs_run _ _ _ _ _ (sh_queues _ _ _ (ca_shape _ _ (proj1 St)))) in Hin as (_ & _ & ?).
    + intros Hrun. destruct Hr as [?|Ht]; [done|]. by apply (turn_active s m t R).
Qed.

Lemma history_steady parallel n quantum s : 1 <= parallel < 2 ^ 32 -> 1 <= n <= MAX_THREADS -> 1 <= quantum -> sched_history parallel n quantum s -> exists m, steady s m.
Proof using Hrnd Hbar.
  intros Hp Hn Hq Hh. induction Hh as [|s op s' Hh [m St] Ha E]; [exists ∅; by apply newSched_steady|]. destruct (sched_do_ok s m op St Ha) as (s1 & m1 & E1 & St1). exists m1. congruence.
Qed.
End Histories.

(** ** The watchdog *)

(** *** Driving time *)

Lemma count_b_indices {A} (p : A -> bool) (b : A) (is_ : list nat) l : p b = false -> NoDup is_ -> (forall i, i ∈ is_ -> exists a, l !! i = Some a /\ p a = true) -> Z.of_nat (length is_) <= count_b p l.
Proof.
  intros Hb. revert l. induction is_ as [|i is_ IH]; intros l Hn Hin; [apply count_b_nonneg|]. apply NoDup_cons in Hn as [Hi Hn]. destruct (Hin i ltac:(by left)) as (a & Ha & Hp). pose proof (count_b_insert p l i a b Ha) as Hc. rewrite Hp, Hb in Hc.
  pose proof (IH (<[i := b]> l) Hn) as H. cbn [length]. enough (Z.of_nat (length is_) <= count_b p (<[i := b]> l)) by lia. apply H. intros j Hj. rewrite list_lookup_insert_ne by (intros ->; done). apply Hin. by right.
Qed.

(** When every scheduled thread is out, no core runs. *)
Lemma no_running s : shape s ∅ ∅ -> scheduledThreads s = Z.of_nat (length (outQueue s)) -> forall c, ~ running_at (s_threads s) c.
Proof.
  intros S Hc c (v & tv & Hv & Hr & _). pose proof (sh_placed _ _ _ S) as P. pose proof (sh_queues _ _ _ S) as Q. set (f := fun o : Z => Z.to_nat (match s_threads s !! o with Some t => th_cid t | None => 0 end)). set (l := v :: outQueue s).
  assert (Hon : forall o, o ∈ l -> exists t, s_threads s !! o = Some t /\ on t = true /\ f o = Z.to_nat (th_cid t)).
  { intros o [-> |Ho]%elem_of_cons; [exists tv; unfold f; rewrite Hv; split_and!; try done; by apply on_running|]. apply (qs_out _ _ _ _ _ Q) in Ho as ((t & Ht & Hs) & _). exists t. unfold f. rewrite Ht. split_and!; try done. by apply on_out. }
  pose proof (count_b_indices is_used no_thread (f <$> l) (s_contexts s) eq_refl) as H. rewrite length_fmap in H. rewrite (sh_count _ _ _ S) in Hc. enough (Z.of_nat (length l) <= count_b is_used (s_contexts s)) by (unfold l in *; simpl in *; lia). apply H.
  - apply NoDup_fmap_2_strong; [|apply NoDup_cons; split; [|apply Q]; intros Ho; apply (qs_out _ _ _ _ _ Q) in Ho as ((t & Ht & Hs) & _); congruence].
    intros x y Hx Hy E. destruct (Hon x Hx) as (tx & Htx & Ox & Ex). destruct (Hon y Hy) as (ty & Hty & Oy & Ey). destruct (pl_on _ _ _ _ P x tx Htx Ox) as [[H1 H2] _]. destruct (pl_on _ _ _ _ P y ty Hty Oy) as [[H3 H4] _]. rewrite Ex, Ey in E. rewrite E, H4 in H2. unfold used in H2. congruence.
  - intros i Hi. apply list_elem_of_fmap in Hi as (o & -> & Ho). destruct (Hon o Ho) as (t & Ht & Ot & ->). destruct (pl_on _ _ _ _ P o t Ht Ot) as [[_ H2] _]. by eexists.
Qed.

Lemma steady_empty s m : steady s m -> (forall c, ~ running_at (s_threads s) c) -> m = ∅.
Proof. intros [K _] Hno. apply map_empty. intros c. destruct (m !! c) eqn:E; [|done]. destruct (Hno c). apply (ca_covers _ _ K). by rewrite E. Qed.

Section Watchdog.
Context (rndInt : nat -> Z -> Z) (Hrnd : forall k i, 0 <= i -> 0 <= rndInt k i <= i).

Lemma drive_ok fuel waiters k s g t : steady s ∅ -> s_threads s !! g = Some t -> th_state t = T_SLEEPING -> wakeupPhase t - curPhase s + 1 <= Z.of_nat fuel ->
  exists s', drive_loop rndInt fuel waiters k s g = Ret s' /\ steady s' ∅ /\ curPhase s < curPhase s' <= wakeupPhase t /\
    exists t', s_threads s' !! g = Some t' /\ (curPhase s' = wakeupPhase t /\ th_state t' = T_BLOCKED /\ th_futex t' = 0 \/ curPhase s' < wakeupPhase t /\ t' = t /\ exists k', waiters k' = true).
Proof using Hrnd.
  revert k s. induction fuel as [|fuel IH]; intros k s St Hg Hs Hfuel; pose proof (fo_sleep _ _ _ (ca_flags _ _ (proj1 St) g t Hg) Hs) as Hlt; [lia|]. cbn [drive_loop]. rewrite (thread_get _ _ _ Hg). cbn [mbind outcome_bind]. rewrite bool_decide_true by done.
  destruct (callback_ok rndInt Hrnd s ∅ (proj1 St)) as (s1 & -> & K1 & Hph & Hb & _ & Hth & _); [apply map_Forall_empty|]. rewrite fmap_empty in K1. cbn [mbind outcome_bind]. assert (St1 : steady s1 ∅) by (split; [done|]; destruct St as [_ R]; by rewrite Hb).
  assert (Hg1 : s_threads s1 !! g = Some (woken (curPhase s + 1) t)) by (destruct (Hth g) as [-> |(t0 & o & E & Hr & _)]; [by rewrite Hg|congruence]). unfold woken in Hg1. rewrite bool_decide_true in Hg1 by done. simpl in Hg1. destruct (wakeupPhase t <=? curPhase s + 1) eqn:Ew; zb.
  - set (t1 := t_futex (t_join (t_state t T_BLOCKED) false) 0) in *. assert (Hend : exists s', Ret s1 = Ret s' /\ steady s' ∅ /\ curPhase s < curPhase s' <= wakeupPhase t /\ exists t', s_threads s' !! g = Some t' /\ (curPhase s' = wakeupPhase t /\ th_state t' = T_BLOCKED /\ th_futex t' = 0 \/ curPhase s' < wakeupPhase t /\ t' = t /\ exists k', waiters k' = true)).
    { exists s1. split; [done|]. split; [done|]. split; [lia|]. exists t1. split; [done|]. left. split; [lia|done]. }
    destruct (waiters k); [done|]. destruct fuel as [|fuel]; [lia|]. cbn [drive_loop]. by rewrite (thread_get _ _ _ Hg1).
  - destruct (waiters k) eqn:Hw.
    + exists s1. split; [done|]. split; [done|]. split; [lia|]. exists t. split; [done|]. right. split; [lia|]. split; [done|by exists k].
    + destruct (IH (S k) s1 St1 Hg1 Hs) as (s' & E & St' & Hc & H); [lia|]. exists s'. split; [done|]. split; [done|]. split; [lia|done].
Qed.

(** *** Fake leaves become real *)

Context (barInt : nat -> Z -> Z) (Hbar : forall k i, 0 <= i -> 0 <= barInt k i <= i).

Lemma gid_parts g : 0 <= g < 2 ^ 32 -> getGid (getPid g) (getTid g) = g.
Proof using Type.
  intros Hg. unfold getGid, getPid, getTid. rewrite (u32_small (Z.shiftl _ _)); [|rewrite Z.shiftl_mul_pow2, Z.shiftr_div_pow2 by lia; pose proof (Z.div_mod g (2 ^ 16)); pose proof (Z.mod_pos_bound g (2 ^ 16)); pose proof (Z.div_pos g (2 ^ 16)); lia].
  change 0xffff with (Z.ones 16). apply Z.bits_inj'. intros i Hi. rewrite Z.lor_spec, Z.land_spec, Z.testbit_ones_nonneg by lia. destruct (Z.ltb_spec i 16).
  - rewrite Z.shiftl_spec_low by done. by rewrite andb_true_r.
  - rewrite Z.shiftl_spec, Z.shiftr_spec by lia. replace (i - 16 + 16) with i by lia. by rewrite andb_false_r, orb_false_r.
Qed.

Lemma gid_pid pid g : 0 <= pid < 2 ^ 16 -> getPid (getGid pid (getTid g)) = pid.
Proof using Type.
  intros Hp. unfold getGid, getPid, getTid. rewrite (u32_small (Z.shiftl _ _)) by (rewrite Z.shiftl_mul_pow2 by lia; lia). change 0xffff with (Z.ones 16). apply Z.bits_inj'. intros i Hi. rewrite Z.shiftr_spec, Z.lor_spec, Z.land_spec, Z.shiftl_spec by lia. rewrite Z.testbit_ones_nonneg by lia. rewrite (proj2 (Z.ltb_ge _ _)) by lia. replace (i + 16 - 16) with i by lia. by rewrite andb_false_r, orb_false_r.
Qed.

(** One step: the thread of the first fake leave leaves. *)
Lemma force_one s m g : steady s m -> 0 <= g < 2 ^ 32 -> g ∈ fl_th <$> fakeLeaves s ->
  exists t s1 m1, s_threads s !! g = Some t /\ finishFakeLeave s g = Ret (unfaked s g t) /\ sched_leave rndInt barInt (unfaked s g t) (getGid (getPid g) (getTid g)) (th_cid t) = Ret s1 /\ steady s1 m1 /\ fakeLeaves s1 = filter (fun f => fl_th f <> g) (fakeLeaves s).
Proof using Hrnd Hbar.
  intros St Hg Hin. pose proof (sh_fakes _ _ _ (ca_shape _ _ (proj1 St))) as Hfk. apply (fk_in _ _ Hfk) in Hin as (t & Ht & Hf). destruct (fo_fake _ _ _ (ca_flags _ _ (proj1 St) g t Ht) Hf) as (Hr & Ha & Hh). destruct (finishFakeLeave_ok s m g t St Ht Hf) as [E St2]. assert (Hg2 : s_threads (unfaked s g t) !! g = Some (t_fake t false)) by apply lookup_insert_eq.
  destruct (sched_leave_ok (unfaked s g t) m g (t_fake t false) St2 Hg2 Hr Ha rndInt barInt Hrnd Hbar eq_refl Hh) as (s3 & m3 & E3 & St3 & A3 & _). exists t, s3, m3. rewrite (gid_parts g Hg). split_and!; try done. by rewrite (ap_fakes _ _ _ A3).
Qed.

Lemma force_leaves_ok fuel s m pid pc g : steady s m -> (forall f, f ∈ fakeLeaves s -> 0 <= fl_th f < 2 ^ 32 /\ (fl_pc f = pc -> getPid (fl_th f) = pid)) -> g ∈ fl_th <$> fakeLeaves s -> getPid g = pid -> (length (fakeLeaves s) <= fuel)%nat ->
  exists s' m', force_leaves rndInt barInt fuel s pid pc g = Ret s' /\ steady s' m' /\ (length (fakeLeaves s') < length (fakeLeaves s))%nat.
Proof using Hrnd Hbar.
  revert s m g. induction fuel as [|fuel IH]; intros s m g St Hall Hin Hpid Hfuel; [destruct (fakeLeaves s); [by apply not_elem_of_nil in Hin|simpl in *; lia]|]. cbn [force_leaves].
  assert (Hgr : 0 <= g < 2 ^ 32) by (apply list_elem_of_fmap in Hin as (f & -> & Hf); by apply Hall). destruct (force_one s m g St Hgr Hin) as (t & s1 & m1 & Ht & E1 & E2 & St1 & Hfl). rewrite (thread_get _ _ _ Ht). cbn [mbind outcome_bind]. rewrite E1. cbn [mbind outcome_bind]. rewrite <- Hpid, E2. cbn [mbind outcome_bind].
  assert (Hlt : (length (fakeLeaves s1) < length (fakeLeaves s))%nat). { rewrite Hfl. apply list_elem_of_fmap in Hin as (f & Eg & Hf). eapply length_filter_lt; [exact Hf|]. by intros Hn. }
  destruct (fakeLeaves s1) as [|fl rest] eqn:Ef; [exists s1, m1; split_and!; try done; rewrite Ef; done|]. rewrite Z.eqb_refl. cbn [negb orb]. destruct (Z.eqb_spec (fl_pc fl) pc) as [Hpc|Hpc]; cbn [negb]; [|exists s1, m1; split_and!; try done; by rewrite Ef].
  destruct (8 <? length (fl :: rest))%nat; [|exists s1, m1; split_and!; try done; by rewrite Ef]. assert (Hsub : forall f, f ∈ fakeLeaves s1 -> f ∈ fakeLeaves s) by (intros f Hf; rewrite Ef, Hfl in Hf; by apply list_elem_of_filter in Hf as [_ Hf]).
  destruct (IH s1 m1 (fl_th fl) St1) as (s' & m' & E & St' & Hl); [intros f Hf; apply Hall; by apply Hsub|rewrite Ef; by left| |rewrite Ef; lia|].
  - apply Hall; [|done]. apply Hsub. rewrite Ef. by left.
  - rewrite Hpid. exists s', m'. split_and!; try done. rewrite Ef in Hl. lia.
Qed.

Lemma force_mixed fuel s m f1 f2 rest : steady s m -> fakeLeaves s = f1 :: f2 :: rest -> 0 <= fl_th f1 < 2 ^ 32 -> 0 <= fl_th f2 < 2 ^ 32 -> fl_pc f2 = fl_pc f1 -> getPid (fl_th f2) <> getPid (fl_th f1) -> (8 <= length rest)%nat ->
  force_leaves rndInt barInt (S (S fuel)) s (getPid (fl_th f1)) (fl_pc f1) (fl_th f1) = Stop AssertFailed.
Proof using Hrnd Hbar.
  intros St Hfl H1 H2 Hpc Hpid Hlen. destruct (force_one s m (fl_th f1) St H1) as (t & s1 & m1 & Ht & E1 & E2 & St1 & Hf1); [rewrite Hfl; by left|]. remember (S fuel) as n eqn:Hn. cbn [force_leaves]. rewrite (thread_get _ _ _ Ht). cbn [mbind outcome_bind]. rewrite E1. cbn [mbind outcome_bind]. rewrite E2. cbn [mbind outcome_bind].
  pose proof (fk_nodup _ _ (sh_fakes _ _ _ (ca_shape _ _ (proj1 St)))) as Hnd. rewrite Hfl in Hnd, Hf1. rewrite fmap_cons in Hnd. apply NoDup_cons in Hnd as [Hn1 _]. rewrite filter_cons_False in Hf1 by (intros ?; done).
  assert (Ek : filter (fun f => fl_th f <> fl_th f1) (f2 :: rest) = f2 :: rest). { clear -Hn1. induction (f2 :: rest) as [|f l IH]; [done|]. rewrite fmap_cons in Hn1. apply not_elem_of_cons in Hn1 as [Ha Hb]. rewrite filter_cons_True by done. by rewrite IH. }
  rewrite Ek in Hf1. rewrite Hf1, Hpc, !Z.eqb_refl. cbn [negb orb]. rewrite (proj2 (Nat.ltb_lt 8 (length (f2 :: rest)))) by (simpl; lia). subst n. cbn [force_leaves].
  pose proof (sh_fakes _ _ _ (ca_shape _ _ (proj1 St1))) as Hfk. assert (Hin2 : fl_th f2 ∈ fl_th <$> fakeLeaves s1) by (rewrite Hf1; by left). destruct (proj1 (fk_in _ _ Hfk _) Hin2) as (t2 & Ht2 & Hf2). rewrite (thread_get _ _ _ Ht2). cbn [mbind outcome_bind].
  destruct (fo_fake _ _ _ (ca_flags _ _ (proj1 St1) _ t2 Ht2) Hf2) as (Hr & _ & _). destruct (finishFakeLeave_ok s1 m1 _ t2 St1 Ht2 Hf2) as [-> St2]. cbn [mbind outcome_bind]. assert (Hg2 : s_threads (unfaked s1 (fl_th f2) t2) !! fl_th f2 = Some (t_fake t2 false)) by apply lookup_insert_eq.
  unfold sched_leave. destruct (pl_on _ _ _ _ (sh_placed _ _ _ (ca_shape _ _ (proj1 St2))) _ _ Hg2 (on_running _ Hr)) as [[Hc0 Hctx] _]. change (th_cid (t_fake t2 false)) with (th_cid t2) in Hc0, Hctx. rewrite (at_ret _ _ (used (fl_th f2))) by done. cbn [mbind outcome_bind used curThread]. rewrite (thread_get _ _ _ Hg2). cbn [mbind outcome_bind].
  rewrite (proj2 (Z.eqb_neq (fl_th f2) (getGid (getPid (fl_th f1)) (getTid (fl_th f2))))); [done|]. intros Heq. apply Hpid. rewrite Heq. apply gid_pid. unfold getPid. rewrite Z.shiftr_div_pow2 by lia. pose proof (Z.div_pos (fl_th f1) (2 ^ 16)). pose proof (Z.div_lt_upper_bound (fl_th f1) (2 ^ 16) (2 ^ 16)). lia.
Qed.
End Watchdog.

(** ** The end of a quantum *)

Section Quantum.
Context (rndInt : nat -> Z -> Z) (Hrnd : forall k i, 0 <= i -> 0 <= rndInt k i <= i).

Lemma calm_wakes s m t : calm s m -> m !! t = Some Due -> calm s (<[t := Active]> m).
Proof using Hrnd.
  intros K Hd. destruct (phase_ends_ok rndInt Hrnd [Wakes t] s m (<[t := Active]> m)) as (s1 & E1 & K1 & _); [apply Forall_singleton; right; by exists t|done|cbn [phase_run phase_step]; by rewrite decide_True|]. injection E1 as <-. done.
Qed.

Lemma phase_ends_none evs s m m' s' : Forall quiet evs -> calm s m -> phase_run evs m = Some m' -> phase_ends rndInt s evs = Ret s' -> curPhase s' = curPhase s -> s' = s.
Proof using Hrnd.
  revert s m. induction evs as [|e evs IH]; intros s m Hq K Hr He Hph; [by injection He as <-|]. apply Forall_cons in Hq as [He0 Hq]. unfold phase_ends in He. cbn [fold_] in He. destruct He0 as [-> |[t ->] ]; cbn [phase_run phase_step] in Hr; (case_decide as Hd; [|done]); cbn [mbind option_bind] in Hr.
  - destruct (callback_ok rndInt Hrnd s m K (proj2 Hd)) as (s2 & E2 & K2 & Hp2 & _). rewrite E2 in He. cbn [mbind outcome_bind] in He. destruct (phase_ends_ok rndInt Hrnd evs s2 _ m' Hq K2 Hr) as (s3 & E3 & _ & L3 & _). unfold phase_ends in E3. rewrite E3 in He. injection He as <-. pose proof (la_phase _ _ L3). lia.
  - cbn [mbind outcome_bind] in He. apply (IH s (<[t := Active]> m)); [done|by apply calm_wakes|done|done|done].
Qed.

(** A call of the barrier in which one phase ends runs the callback once. *)
Lemma phase_ends_once evs s m m' s' : Forall quiet evs -> calm s m -> phase_run evs m = Some m' -> phase_ends rndInt s evs = Ret s' -> curPhase s' = curPhase s + 1 -> exists m0, calm s m0 /\ map_Forall (fun _ st => st = Done) m0 /\ callback rndInt s = Ret s'.
Proof using Hrnd.
  revert s m. induction evs as [|e evs IH]; intros s m Hq K Hr He Hph; [injection He as <-; lia|]. apply Forall_cons in Hq as [He0 Hq]. unfold phase_ends in He. cbn [fold_] in He. destruct He0 as [-> |[t ->] ]; cbn [phase_run phase_step] in Hr; (case_decide as Hd; [|done]); cbn [mbind option_bind] in Hr.
  - destruct (callback_ok rndInt Hrnd s m K (proj2 Hd)) as (s2 & E2 & K2 & Hp2 & _). rewrite E2 in He. cbn [mbind outcome_bind] in He. exists m. split; [done|]. split; [apply Hd|]. rewrite E2. f_equal. symmetry. eapply phase_ends_none; [exact Hq|exact K2|exact Hr|exact He|lia].
  - cbn [mbind outcome_bind] in He. apply (IH s (<[t := Active]> m)); [done|by apply calm_wakes|done|done|done].
Qed.

Lemma callback_serves s m s' g : calm s m -> map_Forall (fun _ st => st = Done) m -> callback rndInt s = Ret s' -> (curPhase s + 1) mod schedQuantum s = 0 -> head (runQueue s) = Some g ->
  exists u tu tg, s_threads s' !! u = Some tu /\ th_state tu = T_RUNNING /\ handoffThread tu = Some g /\ s_threads s' !! g = Some tg /\ may_use tg (th_cid tu).
Proof using Hrnd.
  intros K Hd E Hz Hg. destruct (callback_ok rndInt Hrnd s m K Hd) as (s1 & E1 & K1 & _ & _ & L1 & _ & Hhd). rewrite E in E1. injection E1 as <-. assert (Hin : g ∈ runQueue s) by (destruct (runQueue s); [done|]; injection Hg as <-; by left). apply (qs_run _ _ _ _ _ (sh_queues _ _ _ (ca_shape _ _ K))) in Hin as ((tg & Htg & Hq) & _). pose proof (later_same _ _ g tg L1 Htg ltac:(congruence) ltac:(congruence)) as Htg'. specialize (Hhd Hz g Hg).
  destruct (decide (map_Exists (fun _ t => handoffThread t = Some g) (s_threads s'))) as [(u & tu & Hu & Hx)|Hno].
  - destruct (ho_target _ (sh_handoffs _ _ _ (ca_shape _ _ K1)) u tu g Hu Hx) as (Hr & tg2 & Htg2 & _ & Hm). by exists u, tu, tg2.
  - destruct Hhd. apply (qs_run _ _ _ _ _ (sh_queues _ _ _ (ca_shape _ _ K1))). split; [by exists tg|]. split; [set_solver|]. intros (u & tu & Hu & Hx). apply Hno. by exists u, tu.
Qed.
End Quantum.

Lemma bar_member b l g m t i : bar_is b l g m -> 0 <= t -> threadList b !! Z.to_nat t = Some i -> is_Some (m !! t) <-> ts_state i = WAITING \/ ts_state i = RUNNING.
Proof.
  intros I Ht Hi. destruct (decide (t ∈ l)) as [[k Hk]%list_elem_of_lookup|Hl].
  - rewrite (bi_status _ _ _ _ I k t i Hk Hi). unfold status. destruct (ts_state i); [|destruct (_ <? _)| |]; split; try (by intros [? ?]); try (intros [?|?]; congruence); intros _; (by eexists) || auto.
  - rewrite (bi_outside _ _ _ _ I t Hl). split; [by intros [? ?]|]. intros Hs. destruct Hl. apply (bi_in _ _ _ _ I t i Ht Hi). clear -Hs. intuition congruence.
Qed.

(** A thread that a core is to be handed to is in no queue: it cannot be removed from one. *)
Lemma finish_pending_fails rndInt barInt s m v tv g : steady s m -> s_threads s !! v = Some tv -> handoffThread tv = Some g -> finish rndInt barInt s g = Stop AssertFailed.
Proof.
  intros St Hv Hx. pose proof (ca_shape _ _ (proj1 St)) as S. destruct (ho_target _ (sh_handoffs _ _ _ S) v tv g Hv Hx) as (_ & t & Hg & Hq & _). unfold finish. rewrite bool_decide_true by (by rewrite Hg). cbn [assert_ mbind outcome_bind]. destruct (unpin_ok s m g St) as (p & -> & St1 & _). cbn [mbind outcome_bind].
  assert (Hp : plain t) by (apply (plain_flag m (curPhase s)); [apply (ca_flags _ _ (proj1 St) g t Hg)|congruence]). assert (Hg1 : s_threads (w_pins s p) !! g = Some t) by done. rewrite (thread_get _ _ _ Hg1). cbn [mbind outcome_bind]. rewrite (proj1 (proj2 Hp)). cbn [mbind outcome_bind]. rewrite (thread_get _ _ _ Hg1). cbn [mbind outcome_bind]. rewrite bool_decide_false by congruence. cbn [mbind outcome_bind].
  rewrite (thread_get _ _ _ Hg1). cbn [mbind outcome_bind]. rewrite bool_decide_false by congruence. cbn [mbind outcome_bind]. unfold finish_tail. rewrite (thread_get _ _ _ Hg1). cbn [mbind outcome_bind]. rewrite Hq. rewrite (bool_decide_true (T_QUEUED = T_STARTED \/ T_QUEUED = T_OUT \/ T_QUEUED = T_BLOCKED \/ T_QUEUED = T_QUEUED)) by auto. cbn [assert_ mbind outcome_bind]. rewrite (bool_decide_true (T_QUEUED = T_QUEUED)) by done.
  unfold q_remove. rewrite (bool_decide_false (g ∈ runQueue (w_pins s p))); [done|]. intros Hin. apply (qs_run _ _ _ _ _ (sh_queues _ _ _ S)) in Hin as (_ & _ & Hn). apply Hn. by exists v, tv.
Qed.
