(* ===== verification/SchedProps.v ===== *)
(** * What the thread scheduler promises

    The theorems on the scheduler of ThreadSched.v, over all histories of its operations. *)

From S2P Require Import Prelude Barrier ThreadSched SchedParts SchedInv SchedOps SchedHist.

(** C15: Over any history of starts, joins, leaves, syncs, handoffs, sleeps, system calls and finishes the parts
    of the scheduler agree: a thread that runs or is out has the context of its core to itself, and
    its mask allows that core; every other context is free; a thread is in the run, out or sleep queue
    exactly if its state says so, unless a core is to be handed to it; a core is in the barrier, and
    has been told so, exactly if a thread runs on it; and no core is wasted: a core that a
    waiting thread may use runs another one. *)
Theorem scheduler_consistent rndInt barInt parallel n quantum s :
  (forall k i, 0 <= i -> 0 <= rndInt k i <= i) -> (forall k i, 0 <= i -> 0 <= barInt k i <= i) -> 1 <= parallel < 2 ^ 32 -> 1 <= n <= MAX_THREADS -> 1 <= quantum -> sched_history rndInt barInt parallel n quantum s ->
  (forall g t, s_threads s !! g = Some t -> th_state t = T_RUNNING \/ th_state t = T_OUT -> s_contexts s !! Z.to_nat (th_cid t) = Some (mkCtx USED (Some g)) /\ mask t !! Z.to_nat (th_cid t) = Some true) /\
  (forall c x, s_contexts s !! c = Some x -> x = mkCtx IDLE None /\ Z.of_nat c ∈ freeList s \/ exists g t, x = mkCtx USED (Some g) /\ s_threads s !! g = Some t /\ (th_state t = T_RUNNING \/ th_state t = T_OUT) /\ th_cid t = Z.of_nat c) /\
  (forall g t, s_threads s !! g = Some t -> (g ∈ runQueue s <-> th_state t = T_QUEUED /\ ~ promised (s_threads s) g) /\ (g ∈ outQueue s <-> th_state t = T_OUT) /\ (g ∈ sleepQueue s <-> th_state t = T_SLEEPING)) /\
  (forall c i, 0 <= c < numCores s -> at_ (threadList (s_bar s)) c = Ret i -> (running_at (s_threads s) c <-> ts_state i = WAITING \/ ts_state i = RUNNING) /\ joined s c = Some (bool_decide (ts_state i = WAITING \/ ts_state i = RUNNING))) /\
  (forall g t c, g ∈ runQueue s -> s_threads s !! g = Some t -> may_use t c -> running_at (s_threads s) c).
Proof.
  intros Hrnd Hbar Hp Hn Hq Hh. destruct (history_steady rndInt barInt Hrnd Hbar parallel n quantum s Hp Hn Hq Hh) as [m [[S C T F] (l & gg & I & _)] ]. pose proof (sh_placed _ _ _ S) as P. pose proof (sh_queues _ _ _ S) as Q. split_and!.
  - intros g t Hg Hs. destruct (pl_on _ _ _ _ P g t Hg) as [[_ H1] [_ H2] ]; [by apply on_true|]. done.
  - intros c x Hx. assert (Hc : ctx_at (s_contexts s) (Z.of_nat c) x) by (split; [lia|by rewrite Nat2Z.id]). destruct (pl_ctx _ _ _ _ P _ x Hc) as [-> |(g & t & -> & Hg & Ho & Hcg)]; [left; split; [done|]; apply (pl_free _ _ _ _ P); split; [done|set_solver]|]. right. exists g, t. by apply on_true in Ho.
  - intros g t Hg. assert (Hst : forall st, (exists t', s_threads s !! g = Some t' /\ th_state t' = st) <-> th_state t = st) by (intros st; split; [intros (t' & H1 & H2); congruence|by exists t]). rewrite (qs_run _ _ _ _ _ Q), (qs_out _ _ _ _ _ Q), (qs_sleep _ _ _ _ _ Q), !Hst. set_solver.
  - intros c i Hc Hi. apply at_ret_iff in Hi as [Hc0 Hi]. pose proof (bar_member _ _ _ _ c i I Hc0 Hi) as Hb. split; [by rewrite <- (C c)|]. rewrite (T c Hc). f_equal. by apply bool_decide_ext.
  - intros g t c Hg Ht Hm. apply (sh_busy _ _ _ S g t c Hg Ht Hm). set_solver.
Qed.

(** The numbers that the generators of the examples give. *)
Definition last_int (k : nat) (i : Z) : Z := i.

Lemma last_int_range : forall k i, 0 <= i -> 0 <= last_int k i <= i.
Proof. intros k i Hi. unfold last_int. lia. Qed.

(** Three threads on two cores, and the state at the end of the first phase. *)
Definition three_threads : list sched_op := [OpStart None 1 [true; true]; OpStart None 2 [true; true]; OpStart None 3 [true; true]; OpJoin 1; OpJoin 2; OpJoin 3; OpSync 1].
Definition run_sched (ops : list sched_op) (parallel n quantum : Z) : Sched := ret_or (newSched parallel n quantum) (sched_run last_int last_int ops (newSched parallel n quantum)).

Lemma run_sched_history ops parallel n quantum : is_ret (sched_run last_int last_int ops (newSched parallel n quantum)) = true -> sched_history last_int last_int parallel n quantum (run_sched ops parallel n quantum).
Proof. unfold run_sched. destruct (sched_run last_int last_int ops (newSched parallel n quantum)) as [s|] eqn:E; [|done]. intros _. eapply sched_run_history; [apply sched_starts|exact E]. Qed.

Lemma scheduler_consistent_witness : (3 ∈ runQueue (run_sched three_threads 2 2 1)) /\ running_at (s_threads (run_sched three_threads 2 2 1)) 1.
Proof.
  assert (Hin : 3 ∈ runQueue (run_sched three_threads 2 2 1)) by (assert (E : runQueue (run_sched three_threads 2 2 1) = [3]) by (vm_compute; reflexivity); rewrite E; by left). split; [exact Hin|].
  assert (Ht : s_threads (run_sched three_threads 2 2 1) !! 3 = Some (mkThread T_QUEUED 0 None 1 false false 0 [true; true] false)) by (vm_compute; reflexivity).
  refine (proj2 (proj2 (proj2 (proj2 (scheduler_consistent last_int last_int 2 2 1 (run_sched three_threads 2 2 1) last_int_range last_int_range ltac:(lia) ltac:(unfold MAX_THREADS; lia) ltac:(lia) _)))) 3 _ 1 Hin Ht _).
  - apply run_sched_history. vm_compute. reflexivity.
  - split; [lia|reflexivity].
Defined.

(** C16: Over any history every operation that is called in a proper state returns: none of its assertions fails, no pointer is
    null, and no futex word has an unexpected value; the state it leaves is again one of a history. *)
Theorem scheduler_ops_return rndInt barInt parallel n quantum s op :
  (forall k i, 0 <= i -> 0 <= rndInt k i <= i) -> (forall k i, 0 <= i -> 0 <= barInt k i <= i) -> 1 <= parallel < 2 ^ 32 -> 1 <= n <= MAX_THREADS -> 1 <= quantum -> sched_history rndInt barInt parallel n quantum s -> sched_allowed s op = true ->
  exists s', sched_do rndInt barInt s op = Ret s' /\ sched_history rndInt barInt parallel n quantum s'.
Proof.
  intros Hrnd Hbar Hp Hn Hq Hh Ha. destruct (history_steady rndInt barInt Hrnd Hbar parallel n quantum s Hp Hn Hq Hh) as [m St]. destruct (sched_do_ok rndInt barInt Hrnd Hbar s m op St Ha) as (s' & m' & E & _). exists s'. split; [done|]. by eapply sched_step.
Qed.

Lemma scheduler_ops_return_witness : exists s', sched_do last_int last_int (run_sched three_threads 2 2 1) (OpSync 2) = Ret s' /\ sched_history last_int last_int 2 2 1 s'.
Proof.
  apply (scheduler_ops_return last_int last_int 2 2 1 (run_sched three_threads 2 2 1) (OpSync 2) last_int_range last_int_range); [lia|unfold MAX_THREADS; lia|lia| |vm_compute; reflexivity]. apply run_sched_history. vm_compute. reflexivity.
Defined.

(** C17: When a sync ends a phase that ends a quantum, the first waiting thread is promised a core that its mask allows: the
    thread that runs there is told to hand it over. *)
Theorem quantum_serves_queue rndInt barInt parallel n quantum s s' v g :
  (forall k i, 0 <= i -> 0 <= rndInt k i <= i) -> (forall k i, 0 <= i -> 0 <= barInt k i <= i) -> 1 <= parallel < 2 ^ 32 -> 1 <= n <= MAX_THREADS -> 1 <= quantum -> sched_history rndInt barInt parallel n quantum s ->
  sched_allowed s (OpSync v) = true -> sched_do rndInt barInt s (OpSync v) = Ret s' -> curPhase s' = curPhase s + 1 -> curPhase s' mod schedQuantum s = 0 -> head (runQueue s) = Some g ->
  exists u tu tg, s_threads s' !! u = Some tu /\ th_state tu = T_RUNNING /\ handoffThread tu = Some g /\ s_threads s' !! g = Some tg /\ may_use tg (th_cid tu).
Proof.
  intros Hrnd Hbar Hp Hn Hq Hh Ha Hdo Hph Hz Hg. destruct (history_steady rndInt barInt Hrnd Hbar parallel n quantum s Hp Hn Hq Hh) as [m St]. pose proof (proj2 St) as R. cbn [sched_allowed sched_do] in Ha, Hdo. destruct (s_threads s !! v) as [t|] eqn:Hv; [|done].
  unfold no_handoff in Ha. bools Ha. destruct Ha as [[[Ht Hf] Hho] Hk]. destruct (turn_active s m t R Ht) as [Hr Hm]. rewrite (thread_get _ _ _ Hv) in Hdo. cbn [mbind outcome_bind] in Hdo. destruct (pl_on _ _ _ _ (sh_placed _ _ _ (ca_shape _ _ (proj1 St))) v t Hv (on_running t Hr)) as [[Hc0 Hctx] _].
  unfold sched_sync in Hdo. rewrite (at_ret _ _ (used v)) in Hdo by done. cbn [mbind outcome_bind used curThread] in Hdo. rewrite (thread_get _ _ _ Hv) in Hdo. cbn [mbind outcome_bind] in Hdo. rewrite Hk in Hdo. cbn [negb assert_ mbind outcome_bind] in Hdo. pose proof (proj2 (allowed_active s m (th_cid t) R) Hm) as Hal. destruct R as (l & gg & I & Hpos).
  destruct (sync_succeeds barInt Hbar _ l gg m (th_cid t) I Hal) as (b' & evs & l' & g' & m' & Eb & _ & Hrun & _ & _ & _ & evs' & -> & Hqt). unfold call_sync in Hdo. cbn [bar_do] in Eb. rewrite Eb in Hdo. cbn [call_bar mbind outcome_bind phase_ends fold_] in Hdo. cbn [phase_run] in Hrun. cbn [phase_step bar_head] in Hrun. rewrite decide_True in Hrun by done. cbn [mbind option_bind] in Hrun.
  assert (K : calm (w_bar s b') (<[th_cid t := Done]> m)) by (apply calm_bar, (calm_done s m v t); [apply St|done|done|done|by rewrite Hm]). destruct (phase_ends_once rndInt Hrnd evs' (w_bar s b') _ m' s' Hqt K Hrun Hdo Hph) as (m0 & K0 & Hd0 & Ec).
  apply (callback_serves rndInt Hrnd (w_bar s b') m0 s' g K0 Hd0 Ec); [|done]. rewrite Hph in Hz. done.
Qed.

Lemma quantum_serves_queue_witness : exists s' u tu tg, sched_do last_int last_int (run_sched three_threads 2 2 1) (OpSync 2) = Ret s' /\ s_threads s' !! u = Some tu /\ th_state tu = T_RUNNING /\ handoffThread tu = Some 3 /\ s_threads s' !! 3 = Some tg /\ may_use tg (th_cid tu).
Proof.
  assert (Hdo : sched_do last_int last_int (run_sched three_threads 2 2 1) (OpSync 2) = Ret (run_sched (three_threads ++ [OpSync 2]) 2 2 1)) by (vm_compute; reflexivity). exists (run_sched (three_threads ++ [OpSync 2]) 2 2 1).
  destruct (quantum_serves_queue last_int last_int 2 2 1 (run_sched three_threads 2 2 1) (run_sched (three_threads ++ [OpSync 2]) 2 2 1) 2 3 last_int_range last_int_range) as (u & tu & tg & H);
    [lia|unfold MAX_THREADS; lia|lia|apply run_sched_history; vm_compute; reflexivity|vm_compute; reflexivity|exact Hdo|vm_compute; reflexivity|vm_compute; reflexivity|vm_compute; reflexivity|]. exists u, tu, tg. split; [exact Hdo|exact H].
Defined.

(** C18: A thread that was told to hand its core over does so when its turn comes: the receiver runs on that core, and the
    thread runs on another core or waits at the end of the run queue. *)
Theorem handoff_delivers rndInt barInt parallel n quantum s v t g :
  (forall k i, 0 <= i -> 0 <= rndInt k i <= i) -> (forall k i, 0 <= i -> 0 <= barInt k i <= i) -> 1 <= parallel < 2 ^ 32 -> 1 <= n <= MAX_THREADS -> 1 <= quantum -> sched_history rndInt barInt parallel n quantum s ->
  s_threads s !! v = Some t -> sched_allowed s (OpHandoff v) = true -> handoffThread t = Some g ->
  exists s', sched_do rndInt barInt s (OpHandoff v) = Ret s' /\ (exists tg, s_threads s' !! g = Some tg /\ th_state tg = T_RUNNING /\ th_cid tg = th_cid t) /\
    exists t', s_threads s' !! v = Some t' /\ (th_state t' = T_RUNNING \/ th_state t' = T_QUEUED /\ last (runQueue s') = Some v).
Proof.
  intros Hrnd Hbar Hp Hn Hq Hh Hv Ha Hx. destruct (history_steady rndInt barInt Hrnd Hbar parallel n quantum s Hp Hn Hq Hh) as [m St]. cbn [sched_allowed sched_do] in Ha |- *. rewrite Hv in Ha. destruct (turn_active s m t (proj2 St) Ha) as [_ Hm].
  destruct (sync_handoff_ok rndInt barInt Hrnd Hbar s m v t St Hv Hm) as (s' & m' & E & _ & H). exists s'. split; [done|]. by apply H.
Qed.

Lemma handoff_delivers_witness : exists s', sched_do last_int last_int (run_sched (three_threads ++ [OpSync 2]) 2 2 1) (OpHandoff 1) = Ret s' /\ (exists tg, s_threads s' !! 3 = Some tg /\ th_state tg = T_RUNNING /\ th_cid tg = 0) /\
    exists t', s_threads s' !! 1 = Some t' /\ (th_state t' = T_RUNNING \/ th_state t' = T_QUEUED /\ last (runQueue s') = Some 1).
Proof.
  apply (handoff_delivers last_int last_int 2 2 1 (run_sched (three_threads ++ [OpSync 2]) 2 2 1) 1 (mkThread T_RUNNING 0 (Some 3) 0 false false 0 [true; true] false) 3 last_int_range last_int_range);
    [lia|unfold MAX_THREADS; lia|lia|apply run_sched_history; vm_compute; reflexivity|vm_compute; reflexivity|vm_compute; reflexivity|reflexivity].
Defined.

(** C19: When all threads with a core are out and some sleep, the watchdog drives time forward and ends: with one round per
    phase up to the first wake-up, and one to see it, it returns; the first sleeper is then awake exactly at its phase, or a thread
    waits for the lock of the scheduler, or the simulation is to end, and the sleeper still sleeps. *)
Theorem watchdog_wakes_sleeper rndInt barInt parallel n quantum s waiters fuel g q t :
  (forall k i, 0 <= i -> 0 <= rndInt k i <= i) -> (forall k i, 0 <= i -> 0 <= barInt k i <= i) -> 1 <= parallel < 2 ^ 32 -> 1 <= n <= MAX_THREADS -> 1 <= quantum -> sched_history rndInt barInt parallel n quantum s ->
  sleepQueue s = g :: q -> s_threads s !! g = Some t -> scheduledThreads s = Z.of_nat (length (outQueue s)) -> wakeupPhase t - curPhase s + 1 <= Z.of_nat fuel ->
  exists s', watchdog_drive rndInt fuel waiters s = Ret s' /\ curPhase s < curPhase s' <= wakeupPhase t /\
    exists t', s_threads s' !! g = Some t' /\ (curPhase s' = wakeupPhase t /\ th_state t' = T_BLOCKED /\ th_futex t' = 0 \/ curPhase s' < wakeupPhase t /\ t' = t /\ exists k, waiters k = true).
Proof.
  intros Hrnd Hbar Hp Hn Hq Hh Hs Hg Hc Hf. destruct (history_steady rndInt barInt Hrnd Hbar parallel n quantum s Hp Hn Hq Hh) as [m St]. pose proof (ca_shape _ _ (proj1 St)) as S. rewrite (steady_empty s m St (no_running s S Hc)) in St. unfold watchdog_drive. rewrite Hs, (proj2 (Z.eqb_eq _ _)) by done.
  assert (Hin : g ∈ sleepQueue s) by (rewrite Hs; by left). apply (qs_sleep _ _ _ _ _ (sh_queues _ _ _ S)) in Hin as ((t0 & Ht0 & Hsl) & _). rewrite Hg in Ht0. injection Ht0 as <-. destruct (drive_ok rndInt Hrnd fuel waiters 0 s g t St Hg Hsl Hf) as (s' & E & _ & H). by exists s'.
Qed.

(** One thread sleeps until phase 5, the other is in a system call. *)
Definition one_sleeper : list sched_op := [OpStart None 1 [true; true]; OpStart None 2 [true; true]; OpJoin 1; OpJoin 2; OpMark 1 5; OpSyscall 1 7; OpLeave 2].

Lemma watchdog_wakes_sleeper_witness : exists s', watchdog_drive last_int 6 (fun _ => false) (run_sched one_sleeper 2 2 1) = Ret s' /\ 0 < curPhase s' <= 5 /\
    exists t', s_threads s' !! 1 = Some t' /\ (curPhase s' = 5 /\ th_state t' = T_BLOCKED /\ th_futex t' = 0 \/ curPhase s' < 5 /\ t' = mkThread T_SLEEPING 0 None 1 false false 5 [true; true] false /\ exists k : nat, false = true).
Proof.
  apply (watchdog_wakes_sleeper last_int last_int 2 2 1 (run_sched one_sleeper 2 2 1) (fun _ => false) 6 1 [] (mkThread T_SLEEPING 0 None 1 false false 5 [true; true] false) last_int_range last_int_range);
    [lia|unfold MAX_THREADS; lia|lia|apply run_sched_history; vm_compute; reflexivity|vm_compute; reflexivity|vm_compute; reflexivity|vm_compute; reflexivity|vm_compute; discriminate].
Defined.

(** When no two processes wait at the same [pc], a stall ends with fewer fake leaves. *)
Lemma watchdog_stall_ends rndInt barInt s m : (forall k i, 0 <= i -> 0 <= rndInt k i <= i) -> (forall k i, 0 <= i -> 0 <= barInt k i <= i) -> steady s m -> fakeLeaves s <> [] ->
  (forall f f', f ∈ fakeLeaves s -> f' ∈ fakeLeaves s -> 0 <= fl_th f < 2 ^ 32 /\ (fl_pc f = fl_pc f' -> getPid (fl_th f) = getPid (fl_th f'))) ->
  exists s' m', watchdog_stall rndInt barInt true s = Ret s' /\ steady s' m' /\ (length (fakeLeaves s') < length (fakeLeaves s))%nat.
Proof.
  intros Hrnd Hbar St Hne Hall. unfold watchdog_stall. destruct (fakeLeaves s) as [|fl rest] eqn:E; [done|]. cbv zeta.
  set (s0 := if (length (fl :: rest) =? 1)%nat then w_blocking s ({[(getPid (fl_th fl), fl_pc fl)]} ∪ blockingSyscalls s) else s). assert (Ef : fakeLeaves s0 = fl :: rest) by (unfold s0; destruct (_ =? _)%nat; done).
  assert (St0 : steady s0 m). { unfold s0. destruct (_ =? _)%nat; [|done]. destruct St as [[S C T F] R]. split; [|exact R]. constructor; try done. constructor; try apply S. eapply pins_keep; [apply S|done|done|done]. }
  rewrite <- Ef. apply (force_leaves_ok rndInt Hrnd barInt Hbar _ s0 m); [done| |rewrite Ef; by left|done|done]. intros f Hf. rewrite Ef in Hf. apply (Hall f fl Hf). by left.
Qed.

(** C39: The watchdog takes the process of the fake leave it has just ended for that of the next one: when the first two
    fake leaves are at one [pc] in two processes, and eight more are open, it calls [leave] for a thread
    that does not run on that core, and the assertion there stops the simulator. *)
Theorem watchdog_mixes_processes rndInt barInt parallel n quantum s f1 f2 rest :
  (forall k i, 0 <= i -> 0 <= rndInt k i <= i) -> (forall k i, 0 <= i -> 0 <= barInt k i <= i) -> 1 <= parallel < 2 ^ 32 -> 1 <= n <= MAX_THREADS -> 1 <= quantum -> sched_history rndInt barInt parallel n quantum s ->
  fakeLeaves s = f1 :: f2 :: rest -> 0 <= fl_th f1 < 2 ^ 32 -> 0 <= fl_th f2 < 2 ^ 32 -> fl_pc f2 = fl_pc f1 -> getPid (fl_th f2) <> getPid (fl_th f1) -> (8 <= length rest)%nat ->
  watchdog_stall rndInt barInt true s = Stop AssertFailed.
Proof.
  intros Hrnd Hbar Hp Hn Hq Hh Hfl H1 H2 Hpc Hpid Hlen. destruct (history_steady rndInt barInt Hrnd Hbar parallel n quantum s Hp Hn Hq Hh) as [m St]. unfold watchdog_stall. rewrite Hfl. cbn [length Nat.eqb]. rewrite Hfl. cbn [length]. by apply (force_mixed rndInt Hrnd barInt Hbar (length rest) s m f1 f2 rest).
Qed.

(** Ten threads, the second one of another process, in system calls at one [pc]. *)
Definition ten : list Z := [65536; 131072; 65538; 65539; 65540; 65541; 65542; 65543; 65544; 65545].
Definition ten_calls : list sched_op := map (fun g => OpStart None g (replicate 10 true)) ten ++ map OpJoin ten ++ map (fun g => OpSyscall g 7) ten.

Lemma watchdog_mixes_processes_witness : watchdog_stall last_int last_int true (run_sched ten_calls 10 10 50) = Stop AssertFailed.
Proof.
  apply (watchdog_mixes_processes last_int last_int 10 10 50 (run_sched ten_calls 10 10 50) (mkFake 7 65536) (mkFake 7 131072) (map (mkFake 7) (drop 2 ten)) last_int_range last_int_range);
    [lia|unfold MAX_THREADS; lia|lia|apply run_sched_history; vm_compute; reflexivity|vm_compute; reflexivity|simpl; lia|simpl; lia|reflexivity|vm_compute; discriminate|simpl; lia].
Defined.
