(* ===== verification/FutexMatch.v ===== *)
(** * Matching of futex wake-ups

    The scheduler delays a thread that has woken others with a futex until the woken threads
    have joined: src/src/scheduler.cpp (from [notifyFutexWakeStart] to [futexWaitJoin]), called around a
    system call by [PrePatchFutex] and [PostPatchFutex] of src/src/virt/timeout.cpp.  A
    waker announces how many threads it may wake, then how many it has woken, and in its join waits until
    that many woken threads have been counted, or gives up after two seconds.  The wait
    releases the lock of the scheduler: its end is a step of its own.  The theorems show that the
    allowance is exactly what the wakers in flight may still wake and what failed wakes have left, and that a negative count fails. *)

From S2P Require Import Prelude.

(** ** State *)

Inductive FutexJoinAction : Type := FJA_NONE | FJA_WAKE | FJA_WAIT.

#[export] Instance FutexJoinAction_eq_dec : EqDecision FutexJoinAction.
Proof. solve_decision. Defined.

Record FutexJoinInfo : Type := mkFJ { fj_action : FutexJoinAction; fj_maxWakes : Z; fj_wokenUp : Z }.

Record FutexInfo : Type := mkFI { fi_op : Z; fi_val : Z }.

(** [f_calls] holds what the second half of a patched system call remembers of the first;
    [f_matching] the threads that wait in [futexWakeJoin]. *)
Record Futexes : Type := mkFut {
  maxAllowedFutexWakeups : Z;
  unmatchedFutexWakeups : Z;
  futexJoin : gmap Z FutexJoinInfo;
  f_calls : gmap Z FutexInfo;
  f_matching : gset Z
}.

Definition new_fut (ids : list Z) : Futexes := mkFut 0 0 (list_to_map ((fun g => (g, mkFJ FJA_NONE 0 0)) <$> ids)) ∅ ∅.

Definition fut_info (s : Futexes) (g : Z) : outcome FutexJoinInfo := match futexJoin s !! g with Some i => Ret i | None => Stop NullDeref end.
Definition fut_put (s : Futexes) (allowed unmatched g : Z) (i : FutexJoinInfo) : Futexes := mkFut allowed unmatched (<[g := i]> (futexJoin s)) (f_calls s) (f_matching s).

(** ** Calls of the scheduler *)

Definition notifyFutexWakeStart (s : Futexes) (g maxWakes : Z) : outcome Futexes :=
  i ← fut_info s g;
  _ ← assert_ (bool_decide (fj_action i = FJA_NONE));
  let maxWakes := Z.min maxWakes (Z.shiftl 1 24) in
  Ret (fut_put s (u32 (maxAllowedFutexWakeups s + maxWakes)) (unmatchedFutexWakeups s) g (mkFJ (fj_action i) maxWakes (fj_wokenUp i))).

Definition notifyFutexWakeEnd (s : Futexes) (g wokenUp : Z) : outcome Futexes :=
  i ← fut_info s g;
  Ret (fut_put s (maxAllowedFutexWakeups s) (unmatchedFutexWakeups s) g (mkFJ FJA_WAKE (fj_maxWakes i) wokenUp)).

Definition notifyFutexWaitWoken (s : Futexes) (g : Z) : outcome Futexes :=
  i ← fut_info s g;
  Ret (fut_put s (maxAllowedFutexWakeups s) (unmatchedFutexWakeups s) g (mkFJ FJA_WAIT 0 0)).

Definition fut_none (i : FutexJoinInfo) : FutexJoinInfo := mkFJ FJA_NONE (fj_maxWakes i) (fj_wokenUp i).

(** Up to the wait. *)
Definition futexWakeJoin (s : Futexes) (g : Z) (i : FutexJoinInfo) : outcome Futexes :=
  _ ← assert_ (bool_decide (fj_action i = FJA_WAKE));
  _ ← assert_ (fj_maxWakes i <=? maxAllowedFutexWakeups s);
  _ ← assert_ (fj_wokenUp i <=? fj_maxWakes i);
  Ret (mkFut (u32 (maxAllowedFutexWakeups s - u32 (fj_maxWakes i - fj_wokenUp i))) (unmatchedFutexWakeups s) (futexJoin s) (f_calls s) ({[g]} ∪ f_matching s)).

Definition end_matching (s : Futexes) (g : Z) : Futexes := mkFut (maxAllowedFutexWakeups s) (unmatchedFutexWakeups s) (futexJoin s) (f_calls s) (f_matching s ∖ {[g]}).

(** The check after the wait: not enough threads, and the waker goes on waiting. *)
Definition wake_matches (s : Futexes) (g : Z) : outcome Futexes :=
  i ← fut_info s g;
  if fj_wokenUp i <=? unmatchedFutexWakeups s
  then Ret (fut_put (end_matching s g) (u32 (maxAllowedFutexWakeups s - fj_wokenUp i)) (u32 (unmatchedFutexWakeups s - fj_wokenUp i)) g (fut_none i))
  else Ret s.

Definition wake_times_out (s : Futexes) (g : Z) : outcome Futexes :=
  i ← fut_info s g;
  Ret (fut_put (end_matching s g) (u32 (maxAllowedFutexWakeups s - fj_wokenUp i)) 0 g (fut_none i)).

Definition futexWaitJoin (s : Futexes) (g : Z) (i : FutexJoinInfo) : outcome Futexes :=
  _ ← assert_ (bool_decide (fj_action i = FJA_WAIT));
  if maxAllowedFutexWakeups s <=? unmatchedFutexWakeups s then Ret s
  else Ret (mkFut (maxAllowedFutexWakeups s) (u32 (unmatchedFutexWakeups s + 1)) (futexJoin s) (f_calls s) (f_matching s)).

(** The start of [Scheduler::join]. *)
Definition join_futex (s : Futexes) (g : Z) : outcome Futexes :=
  i ← fut_info s g;
  match fj_action i with
  | FJA_NONE => Ret s
  | FJA_WAIT => s ← futexWaitJoin s g i; Ret (fut_put s (maxAllowedFutexWakeups s) (unmatchedFutexWakeups s) g (fut_none i))
  | FJA_WAKE => futexWakeJoin s g i
  end.

(** ** Around the system call

    The commands are those of the interface of Linux; the two flags are masked out. *)

Definition FUTEX_WAIT : Z := 0.
Definition FUTEX_WAKE : Z := 1.
Definition FUTEX_REQUEUE : Z := 3.
Definition FUTEX_CMP_REQUEUE : Z := 4.
Definition FUTEX_WAKE_OP : Z := 5.
Definition FUTEX_WAIT_BITSET : Z := 9.
Definition FUTEX_WAKE_BITSET : Z := 10.
Definition FUTEX_WAIT_REQUEUE_PI : Z := 11.
Definition FUTEX_CMP_REQUEUE_PI : Z := 12.
Definition FUTEX_CMD_MASK : Z := Z.lnot (Z.lor 128 256).

Definition isFutexWaitOp (op : Z) : bool := bool_decide (Z.land op FUTEX_CMD_MASK ∈ [FUTEX_WAIT; FUTEX_WAIT_BITSET; FUTEX_WAIT_REQUEUE_PI]).
Definition isFutexWakeOp (op : Z) : bool := bool_decide (Z.land op FUTEX_CMD_MASK ∈ [FUTEX_WAKE; FUTEX_REQUEUE; FUTEX_CMP_REQUEUE; FUTEX_WAKE_OP; FUTEX_WAKE_BITSET; FUTEX_CMP_REQUEUE_PI]).

(** [op], [val] and [res] are registers of the thread, cut to [int]. *)
Definition PrePatchFutex (s : Futexes) (g op val : Z) : outcome Futexes :=
  let fi := mkFI (i32 op) (i32 val) in
  s ← if isFutexWakeOp (fi_op fi) then notifyFutexWakeStart s g (u32 (fi_val fi)) else Ret s;
  Ret (mkFut (maxAllowedFutexWakeups s) (unmatchedFutexWakeups s) (futexJoin s) (<[g := fi]> (f_calls s)) (f_matching s)).

Definition PostPatchFutex (s : Futexes) (g reg : Z) : outcome Futexes :=
  match f_calls s !! g with
  | None => Stop Undefined
  | Some fi =>
      let s := mkFut (maxAllowedFutexWakeups s) (unmatchedFutexWakeups s) (futexJoin s) (delete g (f_calls s)) (f_matching s) in
      let res := i32 reg in
      if isFutexWaitOp (fi_op fi) && (res =? 0) then notifyFutexWaitWoken s g
      else if isFutexWakeOp (fi_op fi) && (0 <=? res) then notifyFutexWakeEnd s g (u32 (Z.min res (fi_val fi)))
      else Ret s
  end.

(** ** Histories *)

Inductive fut_op : Type :=
  | FutPre (g op val : Z)
  | FutPost (g reg : Z)
  | FutJoin (g : Z)
  | FutMatches (g : Z)
  | FutTimesOut (g : Z).

Definition fut_do (s : Futexes) (o : fut_op) : outcome Futexes :=
  match o with
  | FutPre g op val => PrePatchFutex s g op val
  | FutPost g reg => PostPatchFutex s g reg
  | FutJoin g => join_futex s g
  | FutMatches g => wake_matches s g
  | FutTimesOut g => wake_times_out s g
  end.

(** A thread makes one system call at a time and joins after it.  A call may fail; the
    count of a wake is not negative, and it wakes at most 2^24 threads. *)
Definition fut_allowed (s : Futexes) (o : fut_op) : bool :=
  match o with
  | FutPre g op val => match futexJoin s !! g with Some i => bool_decide (fj_action i = FJA_NONE) && bool_decide (f_calls s !! g = None) && bool_decide (g ∉ f_matching s) && (negb (isFutexWakeOp (i32 op)) || (0 <=? i32 val)) | None => false end
  | FutPost g reg => match f_calls s !! g with Some fi => negb (isFutexWakeOp (fi_op fi)) || (i32 reg <=? 2 ^ 24) | None => false end
  | FutJoin g => bool_decide (is_Some (futexJoin s !! g)) && bool_decide (f_calls s !! g = None) && bool_decide (g ∉ f_matching s)
  | FutMatches g | FutTimesOut g => bool_decide (g ∈ f_matching s)
  end.

(** What a wake that fails leaves in the allowance. *)
Definition leak (s : Futexes) (o : fut_op) : Z :=
  match o with
  | FutPost g reg =>
      match f_calls s !! g, futexJoin s !! g with
      | Some fi, Some i => if isFutexWakeOp (fi_op fi) && (i32 reg <? 0) then u32 (fj_maxWakes i) else 0
      | _, _ => 0
      end
  | _ => 0
  end.

(** The number of woken threads that no waker has matched, without wrap-around. *)
Definition counted (s : Futexes) (o : fut_op) : Z :=
  match o with
  | FutJoin g =>
      match fj_action <$> futexJoin s !! g with
      | Some FJA_WAIT => if unmatchedFutexWakeups s <? maxAllowedFutexWakeups s then unmatchedFutexWakeups s + 1 else unmatchedFutexWakeups s
      | _ => unmatchedFutexWakeups s
      end
  | FutMatches g =>
      match futexJoin s !! g with
      | Some i => if fj_wokenUp i <=? unmatchedFutexWakeups s then unmatchedFutexWakeups s - fj_wokenUp i else unmatchedFutexWakeups s
      | None => unmatchedFutexWakeups s
      end
  | FutTimesOut _ => 0
  | FutPre _ _ _ | FutPost _ _ => unmatchedFutexWakeups s
  end.

(** Histories, with what failed wakes have left behind. *)
Inductive fut_history (ids : list Z) : Futexes -> Z -> Prop :=
  | fut_starts : fut_history ids (new_fut ids) 0
  | fut_step s leaked o s' : fut_history ids s leaked -> fut_allowed s o = true -> fut_do s o = Ret s' -> fut_history ids s' (leaked + leak s o).

(** What a thread may still wake. *)
Definition owes (s : Futexes) (g : Z) : Z :=
  match futexJoin s !! g with
  | None => 0
  | Some i =>
      if bool_decide (g ∈ f_matching s) then fj_wokenUp i
      else if bool_decide (fj_action i = FJA_WAKE) then fj_maxWakes i
      else match f_calls s !! g with Some fi => if isFutexWakeOp (fi_op fi) then fj_maxWakes i else 0 | None => 0 end
  end.

Definition total (ids : list Z) (f : Z -> Z) : Z := foldr (fun g a => f g + a) 0 ids.

(** ** The allowance *)

Lemma total_change ids (f f' : Z -> Z) g : NoDup ids -> g ∈ ids -> (forall x, x <> g -> f' x = f x) -> total ids f' = total ids f - f g + f' g.
Proof.
  intros Hn Hg Hf. unfold total. induction ids as [|x ids IH]; [by apply not_elem_of_nil in Hg|]. apply NoDup_cons in Hn as [Hx Hn]. cbn [foldr]. destruct (decide (x = g)) as [-> |Hne].
  - assert (E : foldr (fun y a => f' y + a) 0 ids = foldr (fun y a => f y + a) 0 ids); [|lia]. clear IH Hg Hn. induction ids as [|y ids IH]; [done|]. apply not_elem_of_cons in Hx as [Hy Hx]. cbn [foldr]. rewrite IH by done. by rewrite Hf by done.
  - apply elem_of_cons in Hg as [?|Hg]; [done|]. rewrite (IH Hn Hg), (Hf x Hne). lia.
Qed.

Lemma total_bounds ids (f : Z -> Z) b : (forall g, 0 <= f g <= b) -> 0 <= total ids f <= b * Z.of_nat (length ids).
Proof. intros Hf. unfold total. induction ids as [|x ids IH]; cbn [foldr length]; [lia|]. pose proof (Hf x). nia. Qed.

Lemma total_single ids (f : Z -> Z) g : (forall x, 0 <= f x) -> g ∈ ids -> f g <= total ids f.
Proof.
  intros Hf Hg. unfold total. induction ids as [|x ids IH]; [by apply not_elem_of_nil in Hg|]. cbn [foldr]. pose proof (Hf x). assert (Hnn : 0 <= foldr (fun y a => f y + a) 0 ids) by (clear -Hf; induction ids as [|y ids IH]; cbn [foldr]; [lia|]; pose proof (Hf y); lia). apply elem_of_cons in Hg as [-> |Hg]; [lia|]. specialize (IH Hg). lia.
Qed.

Record fut_ok (ids : list Z) (leaked : Z) (s : Futexes) : Prop := {
  fu_dom : forall g, is_Some (futexJoin s !! g) <-> g ∈ ids;
  fu_total : maxAllowedFutexWakeups s = total ids (owes s) + leaked;
  fu_leaked : 0 <= leaked;
  fu_unmatched : 0 <= unmatchedFutexWakeups s < 2 ^ 32;
  fu_info : forall g i, futexJoin s !! g = Some i -> 0 <= fj_maxWakes i <= 2 ^ 24 /\ (fj_action i = FJA_WAKE -> 0 <= fj_wokenUp i <= fj_maxWakes i);
  fu_calls : forall g fi, f_calls s !! g = Some fi -> (g ∉ f_matching s) /\ exists i, futexJoin s !! g = Some i /\ fj_action i = FJA_NONE /\ (isFutexWakeOp (fi_op fi) = true -> 0 <= fi_val fi /\ fj_maxWakes i = Z.min (fi_val fi) (2 ^ 24));
  fu_matching : forall g, g ∈ f_matching s -> exists i, futexJoin s !! g = Some i /\ fj_action i = FJA_WAKE
}.

Lemma owes_bounds ids leaked s g : fut_ok ids leaked s -> 0 <= owes s g <= 2 ^ 24.
Proof.
  intros I. unfold owes. destruct (futexJoin s !! g) as [i|] eqn:E; [|lia]. destruct (fu_info _ _ _ I g i E) as [H1 H2]. case_bool_decide as Hm.
  - destruct (fu_matching _ _ _ I g Hm) as (i' & E' & Ha). rewrite E in E'. injection E' as <-. specialize (H2 Ha). lia.
  - case_bool_decide; [lia|]. destruct (f_calls s !! g) as [fi|]; [|lia]. destruct (isFutexWakeOp (fi_op fi)); lia.
Qed.

Section Few.
Context (ids : list Z) (Hn : NoDup ids) (leaked : Z) (Hroom : 2 ^ 24 * Z.of_nat (length ids) + leaked < 2 ^ 32).

Lemma allowed_bounds s : fut_ok ids leaked s -> 0 <= maxAllowedFutexWakeups s < 2 ^ 32.
Proof using Hroom. intros I. rewrite (fu_total _ _ _ I). pose proof (fu_leaked _ _ _ I). pose proof (total_bounds ids (owes s) (2 ^ 24) (fun g => owes_bounds ids leaked s g I)). lia. Qed.

Lemma owes_allowed s g : fut_ok ids leaked s -> g ∈ ids -> owes s g <= maxAllowedFutexWakeups s.
Proof using Type. intros I Hg. rewrite (fu_total _ _ _ I). pose proof (fu_leaked _ _ _ I). enough (owes s g <= total ids (owes s)) by lia. apply total_single; [|done]. intros x. apply (owes_bounds ids leaked s x I). Qed.

(** One thread changes: the rest of the allowance stays. *)
Lemma fut_change leaked0 leaked' s s' g i i' : fut_ok ids leaked0 s -> leaked0 <= leaked' -> futexJoin s !! g = Some i -> futexJoin s' = <[g := i']> (futexJoin s) -> (forall x, x <> g -> f_calls s' !! x = f_calls s !! x /\ (x ∈ f_matching s' <-> x ∈ f_matching s)) ->
  0 <= unmatchedFutexWakeups s' < 2 ^ 32 -> maxAllowedFutexWakeups s' = maxAllowedFutexWakeups s - owes s g + owes s' g + (leaked' - leaked0) ->
  0 <= fj_maxWakes i' <= 2 ^ 24 /\ (fj_action i' = FJA_WAKE -> 0 <= fj_wokenUp i' <= fj_maxWakes i') ->
  (forall fi, f_calls s' !! g = Some fi -> (g ∉ f_matching s') /\ fj_action i' = FJA_NONE /\ (isFutexWakeOp (fi_op fi) = true -> 0 <= fi_val fi /\ fj_maxWakes i' = Z.min (fi_val fi) (2 ^ 24))) ->
  (g ∈ f_matching s' -> fj_action i' = FJA_WAKE) -> fut_ok ids leaked' s'.
Proof using Hn.
  intros I Hle Hg Hj Hx Hu Ha Hi Hc Hm. assert (Hin : g ∈ ids) by (apply (fu_dom _ _ _ I); by rewrite Hg). constructor.
  - intros x. rewrite Hj. destruct (decide (x = g)) as [-> |Hne]; [rewrite lookup_insert_eq; split; [done|by eexists]|]. rewrite lookup_insert_ne by done. apply (fu_dom _ _ _ I).
  - rewrite Ha, (fu_total _ _ _ I). enough (total ids (owes s') = total ids (owes s) - owes s g + owes s' g) by lia. apply total_change; [done|done|]. intros x Hne. unfold owes. rewrite Hj, lookup_insert_ne by done. destruct (Hx x Hne) as [-> Hmx]. destruct (futexJoin s !! x); [|done]. rewrite (bool_decide_ext (x ∈ f_matching s') (x ∈ f_matching s)) by done. done.
  - pose proof (fu_leaked _ _ _ I). lia.
  - done.
  - intros x ix Ex. rewrite Hj in Ex. apply lookup_insert_Some in Ex as [[<- <-]|[Hne Ex] ]; [done|by apply (fu_info _ _ _ I x)].
  - intros x fi Ex. destruct (decide (x = g)) as [-> |Hne].
    + destruct (Hc fi Ex) as (H1 & H2 & H3). split; [done|]. exists i'. by rewrite Hj, lookup_insert_eq.
    + destruct (Hx x Hne) as [Ec Hmx]. rewrite Ec in Ex. rewrite Hmx. destruct (fu_calls _ _ _ I x fi Ex) as (H1 & ix & H2 & H3). split; [done|]. exists ix. by rewrite Hj, lookup_insert_ne.
  - intros x Hxm. destruct (decide (x = g)) as [-> |Hne]; [exists i'; rewrite Hj, lookup_insert_eq; split; [done|by apply Hm]|]. destruct (Hx x Hne) as [_ Hmx]. apply Hmx in Hxm. rewrite Hj, lookup_insert_ne by done. by apply (fu_matching _ _ _ I).
Qed.

Lemma fut_info_ret s g i : futexJoin s !! g = Some i -> fut_info s g = Ret i.
Proof using Type. intros E. unfold fut_info. by rewrite E. Qed.

(** What the thread owes in each of its states. *)
Lemma owes_matching s g i : futexJoin s !! g = Some i -> g ∈ f_matching s -> owes s g = fj_wokenUp i.
Proof using Type. intros E H. unfold owes. rewrite E. by rewrite bool_decide_true. Qed.
Lemma owes_wake s g i : futexJoin s !! g = Some i -> g ∉ f_matching s -> fj_action i = FJA_WAKE -> owes s g = fj_maxWakes i.
Proof using Type. intros E H Ha. unfold owes. rewrite E, bool_decide_false by done. by rewrite bool_decide_true. Qed.
Lemma owes_call s g i fi : futexJoin s !! g = Some i -> g ∉ f_matching s -> fj_action i <> FJA_WAKE -> f_calls s !! g = Some fi -> owes s g = if isFutexWakeOp (fi_op fi) then fj_maxWakes i else 0.
Proof using Type. intros E H Ha Hc. unfold owes. rewrite E, !bool_decide_false by done. by rewrite Hc. Qed.
Lemma owes_none s g i : futexJoin s !! g = Some i -> g ∉ f_matching s -> fj_action i <> FJA_WAKE -> f_calls s !! g = None -> owes s g = 0.
Proof using Type. intros E H Ha Hc. unfold owes. rewrite E, !bool_decide_false by done. by rewrite Hc. Qed.
End Few.

Lemma wake_not_wait op : isFutexWakeOp op = true -> isFutexWaitOp op = false.
Proof.
  unfold isFutexWaitOp, isFutexWakeOp. rewrite bool_decide_eq_true, bool_decide_eq_false. unfold FUTEX_WAIT, FUTEX_WAIT_BITSET, FUTEX_WAIT_REQUEUE_PI, FUTEX_WAKE, FUTEX_REQUEUE, FUTEX_CMP_REQUEUE, FUTEX_WAKE_OP, FUTEX_WAKE_BITSET, FUTEX_CMP_REQUEUE_PI. rewrite !elem_of_cons, !elem_of_nil. lia.
Qed.

Section Steps.
Context (ids : list Z) (Hn : NoDup ids) (leaked : Z) (Hroom : 2 ^ 24 * Z.of_nat (length ids) + leaked < 2 ^ 32).

Lemma pre_ok s g op val : fut_ok ids leaked s -> fut_allowed s (FutPre g op val) = true -> exists s', PrePatchFutex s g op val = Ret s' /\ fut_ok ids leaked s' /\ unmatchedFutexWakeups s' = unmatchedFutexWakeups s.
Proof using Hn Hroom.
  intros I Ha. cbn [fut_allowed] in Ha. destruct (futexJoin s !! g) as [i|] eqn:E; [|done]. rewrite !andb_true_iff, !bool_decide_eq_true, orb_true_iff, negb_true_iff, Z.leb_le in Ha. destruct Ha as [[[Hact Hcall] Hmat] Hv]. pose proof (fu_info _ _ _ I g i E) as [Hi1 Hi2]. pose proof (fu_unmatched _ _ _ I) as Hu. assert (Hnw : fj_action i <> FJA_WAKE) by congruence.
  pose proof (owes_none s g i E Hmat Hnw Hcall) as Ho. unfold PrePatchFutex. cbv zeta. cbn [fi_op fi_val]. destruct (isFutexWakeOp (i32 op)) eqn:Ew.
  - destruct Hv as [?|Hv]; [done|]. assert (Hvr : 0 <= i32 val < 2 ^ 31) by (split; [done|]; unfold i32; pose proof (u32_range val); case_bool_decide; lia). unfold notifyFutexWakeStart. rewrite (fut_info_ret _ _ _ E). cbn [mbind outcome_bind]. rewrite bool_decide_true by done. cbn [assert_ mbind outcome_bind]. change (Z.shiftl 1 24) with (2 ^ 24). rewrite (u32_small (i32 val)) by lia.
    set (mw := Z.min (i32 val) (2 ^ 24)). eexists. split; [done|]. split; [|done]. cbn [fut_put maxAllowedFutexWakeups unmatchedFutexWakeups futexJoin f_calls f_matching].
    set (s' := mkFut _ _ _ _ _). assert (Ho' : owes s' g = mw). { rewrite (owes_call s' g (mkFJ (fj_action i) mw (fj_wokenUp i)) (mkFI (i32 op) (i32 val))); [cbn [fi_op fj_maxWakes]; by rewrite Ew|apply lookup_insert_eq|done|done|apply lookup_insert_eq]. }
    assert (Hsame : forall x, x <> g -> owes s' x = owes s x) by (intros x Hne; unfold owes, s'; cbn [futexJoin f_calls f_matching]; by rewrite !lookup_insert_ne by done).
    pose proof (total_change ids (owes s) (owes s') g Hn ltac:(apply (fu_dom _ _ _ I); by rewrite E) Hsame) as Ht. rewrite Ho', Ho in Ht. pose proof (fu_total _ _ _ I) as Hma. pose proof (fu_leaked _ _ _ I) as Hlk. assert (Hb : 0 <= total ids (owes s') <= 2 ^ 24 * Z.of_nat (length ids)).
    { apply total_bounds. intros x. destruct (decide (x = g)) as [-> |Hne]; [rewrite Ho'; unfold mw; lia|rewrite Hsame by done; by apply (owes_bounds ids leaked)]. }
    apply (fut_change ids Hn leaked leaked s s' g i (mkFJ (fj_action i) mw (fj_wokenUp i)) I (Z.le_refl _) E); [reflexivity |  |  |  |  |  | ]; unfold s'; cbn [maxAllowedFutexWakeups unmatchedFutexWakeups futexJoin f_calls f_matching fj_action fj_maxWakes fj_wokenUp]; fold s'.
    + intros x Hne. by rewrite lookup_insert_ne.
    + done.
    + rewrite Ho', Ho, u32_small; lia.
    + split; [unfold mw; lia|]. congruence.
    + intros fi Hfi. rewrite lookup_insert_eq in Hfi. injection Hfi as <-. split; [done|]. split; [done|]. intros _. cbn [fi_val]. done.
    + done.
  - eexists. cbn [mbind outcome_bind]. split; [done|]. split; [|done]. apply (fut_change ids Hn leaked leaked s _ g i i I (Z.le_refl _) E); [ |  |  |  |  |  | ]; cbn [maxAllowedFutexWakeups unmatchedFutexWakeups futexJoin f_calls f_matching].
    + by rewrite insert_id.
    + intros x Hne. by rewrite lookup_insert_ne.
    + done.
    + set (s' := mkFut _ _ _ _ _). rewrite Ho, (owes_call s' g i (mkFI (i32 op) (i32 val))); [|done|done|done|apply lookup_insert_eq]. cbn [fi_op]. rewrite Ew. lia.
    + done.
    + intros fi Hfi. rewrite lookup_insert_eq in Hfi. injection Hfi as <-. split; [done|]. split; [done|]. cbn [fi_op]. congruence.
    + done.
Qed.

Lemma post_ok s g reg : fut_ok ids leaked s -> fut_allowed s (FutPost g reg) = true -> exists s', PostPatchFutex s g reg = Ret s' /\ fut_ok ids (leaked + leak s (FutPost g reg)) s' /\ unmatchedFutexWakeups s' = unmatchedFutexWakeups s.
Proof using Hn Hroom.
  intros I Ha. cbn [fut_allowed] in Ha. destruct (f_calls s !! g) as [fi|] eqn:Ec; [|done]. rewrite orb_true_iff, negb_true_iff, !Z.leb_le in Ha. destruct (fu_calls _ _ _ I g fi Ec) as (Hmat & i & E & Hact & Hw). pose proof (fu_info _ _ _ I g i E) as [Hi1 Hi2]. pose proof (fu_unmatched _ _ _ I) as Hu. assert (Hnw : fj_action i <> FJA_WAKE) by congruence.
  pose proof (owes_call s g i fi E Hmat Hnw Ec) as Ho. unfold PostPatchFutex, leak. rewrite Ec, E. cbv zeta. set (s0 := mkFut (maxAllowedFutexWakeups s) (unmatchedFutexWakeups s) (futexJoin s) (delete g (f_calls s)) (f_matching s)).
  assert (Hdel : forall x, x <> g -> delete g (f_calls s) !! x = f_calls s !! x /\ (x ∈ f_matching s <-> x ∈ f_matching s)) by (intros x Hne; by rewrite lookup_delete_ne).
  assert (E0 : futexJoin s0 !! g = Some i) by done. destruct (isFutexWakeOp (fi_op fi)) eqn:Ew.
  - pose proof (wake_not_wait _ Ew) as Hnwait.
    rewrite Hnwait. cbn [andb]. destruct Ha as [?|Hr2]; [done|]. destruct (decide (i32 reg < 0)) as [Hneg|Hr1].
    { rewrite (proj2 (Z.leb_gt _ _)), (proj2 (Z.ltb_lt _ _)) by done. rewrite u32_small by lia. exists s0. split; [done|]. split; [|done].
      apply (fut_change ids Hn leaked (leaked + fj_maxWakes i) s s0 g i i I ltac:(lia) E); [ | exact Hdel | exact Hu |  | exact (conj Hi1 Hi2) |  | ]; cbn [s0 futexJoin f_calls f_matching]; [by rewrite insert_id| | |done].
      - rewrite Ho, (owes_none s0 g i); [simpl; lia|done|done|done|apply lookup_delete_eq].
      - intros fi' Hfi. by rewrite lookup_delete_eq in Hfi. }
    rewrite (proj2 (Z.ltb_ge _ _)), Z.add_0_r by lia. rewrite (proj2 (Z.leb_le _ _)) by lia. destruct (Hw eq_refl) as [Hv Hmw]. unfold notifyFutexWakeEnd. rewrite (fut_info_ret _ _ _ E0). cbn [mbind outcome_bind]. rewrite u32_small by lia. eexists. split; [done|]. split; [|done].
    apply (fut_change ids Hn leaked leaked s _ g i (mkFJ FJA_WAKE (fj_maxWakes i) (Z.min (i32 reg) (fi_val fi))) I (Z.le_refl _) E); [reflexivity | exact Hdel | exact Hu |  |  |  | ]; cbn [fut_put s0 f_calls f_matching fj_action fj_maxWakes fj_wokenUp maxAllowedFutexWakeups].
    + set (s' := fut_put _ _ _ _ _). rewrite Ho, (owes_wake s' g (mkFJ FJA_WAKE (fj_maxWakes i) (Z.min (i32 reg) (fi_val fi)))); [simpl; lia|apply lookup_insert_eq|done|done].
    + split; [done|]. intros _. lia.
    + intros fi' Hfi. by rewrite lookup_delete_eq in Hfi.
    + done.
  - rewrite !andb_false_l, Z.add_0_r. assert (Hdone : fut_ok ids leaked s0). { apply (fut_change ids Hn leaked leaked s s0 g i i I (Z.le_refl _) E); [ | exact Hdel | exact Hu |  | exact (conj Hi1 Hi2) |  | ]; cbn [s0 futexJoin f_calls f_matching]; [by rewrite insert_id| | |done]. - rewrite Ho, (owes_none s0 g i); [simpl; lia|done|done|done|apply lookup_delete_eq]. - intros fi' Hfi. by rewrite lookup_delete_eq in Hfi. }
    destruct (isFutexWaitOp (fi_op fi) && (i32 reg =? 0)); [|by exists s0]. unfold notifyFutexWaitWoken. rewrite (fut_info_ret _ _ _ E0). cbn [mbind outcome_bind]. eexists. split; [done|]. split; [|done].
    apply (fut_change ids Hn leaked leaked s _ g i (mkFJ FJA_WAIT 0 0) I (Z.le_refl _) E); [reflexivity | exact Hdel | exact Hu |  |  |  | ]; cbn [fut_put s0 f_calls f_matching fj_action fj_maxWakes fj_wokenUp maxAllowedFutexWakeups].
    + set (s' := fut_put _ _ _ _ _). rewrite Ho, (owes_none s' g (mkFJ FJA_WAIT 0 0)); [lia|apply lookup_insert_eq|done|done|apply lookup_delete_eq].
    + split; [lia|done].
    + intros fi' Hfi. by rewrite lookup_delete_eq in Hfi.
    + done.
Qed.

Lemma join_ok s g : fut_ok ids leaked s -> fut_allowed s (FutJoin g) = true -> exists s', join_futex s g = Ret s' /\ fut_ok ids leaked s' /\ unmatchedFutexWakeups s' = counted s (FutJoin g).
Proof using Hn Hroom.
  intros I Ha. cbn [fut_allowed] in Ha. rewrite !andb_true_iff, !bool_decide_eq_true in Ha. destruct Ha as [[[i E] Hcall] Hmat]. pose proof (fu_info _ _ _ I g i E) as [Hi1 Hi2]. pose proof (fu_unmatched _ _ _ I) as Hu. pose proof (allowed_bounds ids leaked Hroom s I) as Hab. assert (Hin : g ∈ ids) by (apply (fu_dom _ _ _ I); by rewrite E). unfold join_futex, counted. rewrite (fut_info_ret _ _ _ E), E. cbn [mbind outcome_bind fmap option_fmap option_map].
  destruct (fj_action i) eqn:Hact; [by exists s| |].
  - pose proof (owes_wake s g i E Hmat Hact) as Ho. pose proof (owes_allowed ids leaked s g I Hin) as Hle. rewrite Ho in Hle. specialize (Hi2 eq_refl). unfold futexWakeJoin. rewrite bool_decide_true by done. cbn [assert_ mbind outcome_bind]. rewrite !(proj2 (Z.leb_le _ _)) by lia. cbn [assert_ mbind outcome_bind]. rewrite (u32_small (fj_maxWakes i - fj_wokenUp i)) by lia. rewrite u32_small by lia. eexists. split; [done|]. split; [|done].
    apply (fut_change ids Hn leaked leaked s _ g i i I (Z.le_refl _) E); [ |  | exact Hu |  |  |  | ]; cbn [futexJoin f_calls f_matching maxAllowedFutexWakeups].
    + by rewrite insert_id.
    + intros x Hne. split; [done|set_solver].
    + set (s' := mkFut _ _ _ _ _). rewrite Ho, (owes_matching s' g i); [lia|done|unfold s'; cbn [f_matching]; set_solver].
    + rewrite Hact. done.
    + intros fi Hfi. congruence.
    + done.
  - assert (Hnw : fj_action i <> FJA_WAKE) by congruence. pose proof (owes_none s g i E Hmat Hnw Hcall) as Ho. unfold futexWaitJoin. rewrite bool_decide_true by done. cbn [assert_ mbind outcome_bind].
    assert (Hfin : forall u, 0 <= u < 2 ^ 32 -> fut_ok ids leaked (fut_put s (maxAllowedFutexWakeups s) u g (fut_none i))).
    { intros u Hur. apply (fut_change ids Hn leaked leaked s _ g i (fut_none i) I (Z.le_refl _) E); [reflexivity |  | exact Hur |  |  |  | ]; cbn [fut_put f_calls f_matching fut_none fj_action fj_maxWakes maxAllowedFutexWakeups]; [done| |done|intros fi Hfi; congruence|done]. set (s' := fut_put _ _ _ _ _). rewrite Ho, (owes_none s' g (fut_none i)); [lia|apply lookup_insert_eq|done|done|done]. }
    destruct (_ <=? _) eqn:Ele; zb; cbn [mbind outcome_bind]; eexists; (split; [done|]).
    + split; [by apply Hfin|]. rewrite (proj2 (Z.ltb_ge _ _)) by lia. done.
    + rewrite (proj2 (Z.ltb_lt _ _)) by lia. cbn [maxAllowedFutexWakeups unmatchedFutexWakeups]. rewrite u32_small by lia. split; [|done]. apply (Hfin (unmatchedFutexWakeups s + 1)). lia.
Qed.

(** The waker is done, either way. *)
Lemma matched_ok s g i u : fut_ok ids leaked s -> futexJoin s !! g = Some i -> g ∈ f_matching s -> 0 <= u < 2 ^ 32 -> fut_ok ids leaked (fut_put (end_matching s g) (u32 (maxAllowedFutexWakeups s - fj_wokenUp i)) u g (fut_none i)).
Proof using Hn Hroom.
  intros I E Hmat Hu. pose proof (fu_info _ _ _ I g i E) as [Hi1 _]. pose proof (owes_matching s g i E Hmat) as Ho. pose proof (owes_bounds ids leaked s g I) as Hob. assert (Hin : g ∈ ids) by (apply (fu_dom _ _ _ I); by rewrite E). pose proof (owes_allowed ids leaked s g I Hin) as Hle. pose proof (allowed_bounds ids leaked Hroom s I) as Hab. rewrite u32_small by lia.
  assert (Hnc : f_calls s !! g = None) by (destruct (f_calls s !! g) as [fi|] eqn:Ec; [destruct (fu_calls _ _ _ I g fi Ec); done|done]).
  apply (fut_change ids Hn leaked leaked s _ g i (fut_none i) I (Z.le_refl _) E); [reflexivity |  | exact Hu |  |  |  | ]; cbn [fut_put end_matching f_calls f_matching fut_none fj_action fj_maxWakes maxAllowedFutexWakeups].
  - intros x Hne. split; [done|set_solver].
  - set (s' := fut_put _ _ _ _ _). rewrite Ho, (owes_none s' g (fut_none i)); [lia|apply lookup_insert_eq|unfold s'; cbn [fut_put end_matching f_matching]; set_solver|done|done].
  - done.
  - intros fi Hfi. congruence.
  - set_solver.
Qed.

Lemma fut_do_ok s o : fut_ok ids leaked s -> fut_allowed s o = true ->
  exists s', fut_do s o = Ret s' /\ fut_ok ids (leaked + leak s o) s' /\ unmatchedFutexWakeups s' = counted s o.
Proof using Hn Hroom.
  intros I Ha. destruct o as [g op val|g reg|g|g|g]; cbn [fut_do]; [rewrite Z.add_0_r; by apply pre_ok|by apply post_ok|rewrite Z.add_0_r; by apply join_ok| |]; cbn [leak counted]; rewrite Z.add_0_r;
    cbn [fut_allowed] in Ha; apply bool_decide_eq_true in Ha; destruct (fu_matching _ _ _ I g Ha) as (i & E & Hact); pose proof (fu_unmatched _ _ _ I) as Hu.
  - unfold wake_matches. rewrite (fut_info_ret _ _ _ E), E. cbn [mbind outcome_bind]. destruct (_ <=? _) eqn:El; [|by exists s]. zb. destruct (fu_info _ _ _ I g i E) as [_ Hw]. specialize (Hw Hact).
    eexists. split; [done|]. split; [apply matched_ok; [done|done|done|apply u32_range]|]. cbn. rewrite u32_small; lia.
  - unfold wake_times_out. rewrite (fut_info_ret _ _ _ E). cbn [mbind outcome_bind]. eexists. split; [done|]. split; [|done]. apply matched_ok; [done|done|done|lia].
Qed.
End Steps.

Section Start.
Context (ids : list Z) (Hn : NoDup ids).

Lemma new_fut_ok : fut_ok ids 0 (new_fut ids).
Proof using Hn.
  assert (Hl : forall g i, futexJoin (new_fut ids) !! g = Some i <-> g ∈ ids /\ i = mkFJ FJA_NONE 0 0).
  { intros g i. cbn [new_fut futexJoin]. rewrite <- elem_of_list_to_map by (rewrite <- list_fmap_compose; cbn; by rewrite list_fmap_id). rewrite list_elem_of_fmap. split; [intros (x & [= -> ->] & Hx); done|intros [Hg ->]; by exists g]. }
  assert (Ho : forall g, owes (new_fut ids) g = 0) by (intros g; unfold owes; destruct (futexJoin (new_fut ids) !! g) as [i|] eqn:E; [|done]; by apply Hl in E as [_ ->]).
  constructor; try done.
  - intros g. split; [intros [i Hi]; by apply Hl in Hi as [? _]|]. intros Hg. eexists. by apply Hl.
  - pose proof (total_bounds ids (owes (new_fut ids)) 0 ltac:(intros g; rewrite Ho; lia)). cbn [new_fut maxAllowedFutexWakeups] in *. lia.
  - intros g i Hi. apply Hl in Hi as [_ ->]. cbn. split; [lia|done].
Qed.

Lemma leak_nonneg s o : 0 <= leak s o.
Proof using Type. destruct o; cbn [leak]; try lia. destruct (f_calls s !! g), (futexJoin s !! g) as [i|]; try lia. destruct (_ && _); [|lia]. pose proof (u32_range (fj_maxWakes i)). lia. Qed.

Lemma fut_history_ok s leaked : fut_history ids s leaked -> 2 ^ 24 * Z.of_nat (length ids) + leaked < 2 ^ 32 -> fut_ok ids leaked s.
Proof using Hn.
  intros Hh. induction Hh as [|s leaked o s' Hh IH Ha E]; intros Hroom; [apply new_fut_ok|]. pose proof (leak_nonneg s o). assert (Hr : 2 ^ 24 * Z.of_nat (length ids) + leaked < 2 ^ 32) by lia.
  destruct (fut_do_ok ids Hn leaked Hr s o (IH Hr) Ha) as (s1 & E1 & I1 & _). congruence.
Qed.
End Start.

(** C20: Over any history of futex calls, joins, matches and timeouts, the allowance of wake-ups
    is exactly the sum of what the wakers in flight may still wake and of what wakes that failed in the kernel
    have left in it, for each the number it announced; a history without failed wakes leaks nothing.
    Every further call of the matching code returns, with its assertions true, and counts
    the woken threads that no waker has matched without wrap-around.  The conditions: no wake has
    a negative count, none wakes more than 2^24 threads, and 2^24 for every thread and the
    leaked part together stay below 2^32 (without failures, at most 255 threads). *)
Theorem futex_allowance_exact ids s leaked : NoDup ids -> fut_history ids s leaked -> 2 ^ 24 * Z.of_nat (length ids) + leaked < 2 ^ 32 ->
  maxAllowedFutexWakeups s = total ids (owes s) + leaked /\ (forall g, 0 <= owes s g <= 2 ^ 24) /\ 0 <= unmatchedFutexWakeups s < 2 ^ 32 /\
  (forall o, fut_allowed s o = true -> exists s', fut_do s o = Ret s' /\ unmatchedFutexWakeups s' = counted s o).
Proof.
  intros Hn Hh Hroom. pose proof (fut_history_ok ids Hn s leaked Hh Hroom) as I. split_and!; [apply (fu_total _ _ _ I)|intros g; by apply (owes_bounds ids leaked)|apply (fu_unmatched _ _ _ I)|apply (fu_unmatched _ _ _ I)|].
  intros o Ha. destruct (fut_do_ok ids Hn leaked Hroom s o I Ha) as (s' & E & _ & Hc). by exists s'.
Qed.

Fixpoint fut_run (ops : list fut_op) (s : Futexes) (leaked : Z) : outcome (Futexes * Z) :=
  match ops with
  | [] => Ret (s, leaked)
  | o :: ops => _ ← assert_ (fut_allowed s o); s' ← fut_do s o; fut_run ops s' (leaked + leak s o)
  end.

Lemma fut_run_history ids ops s leaked s' leaked' : fut_history ids s leaked -> fut_run ops s leaked = Ret (s', leaked') -> fut_history ids s' leaked'.
Proof.
  revert s leaked. induction ops as [|o ops IH]; intros s leaked Hh; cbn [fut_run]; [by intros [= <- <-]|]. intros Hr. apply bind_ret_inv in Hr as (u & Ha & Hr). apply assert_ret_inv in Ha. apply bind_ret_inv in Hr as (s1 & E & Hr). eapply IH; [|exact Hr]. by eapply fut_step.
Qed.

(** Thread 3 tries to wake five threads and fails, and waits then; thread 1 wakes all, two waiters return, the first one joins, and
    the waker starts to wait. *)
Definition broadcast : list fut_op :=
  [FutPre 3 FUTEX_WAKE 5; FutPost 3 (-14); FutPre 2 FUTEX_WAIT 0; FutPre 3 FUTEX_WAIT 0; FutPre 1 FUTEX_WAKE (2 ^ 31 - 1); FutPost 1 2; FutPost 2 0; FutPost 3 0; FutJoin 2; FutJoin 1].
Definition broadcast_state : Futexes * Z := ret_or (new_fut [1; 2; 3], 0) (fut_run broadcast (new_fut [1; 2; 3]) 0).

Lemma futex_allowance_exact_witness :
  maxAllowedFutexWakeups broadcast_state.1 = total [1; 2; 3] (owes broadcast_state.1) + 5 /\ maxAllowedFutexWakeups broadcast_state.1 = 7 /\
  exists s', fut_do broadcast_state.1 (FutJoin 3) = Ret s' /\ unmatchedFutexWakeups s' = 2.
Proof.
  destruct (futex_allowance_exact [1; 2; 3] broadcast_state.1 broadcast_state.2) as (H1 & _ & _ & H2);
    [repeat constructor; set_solver|eapply (fut_run_history _ broadcast (new_fut [1; 2; 3]) 0); [apply fut_starts|vm_compute; reflexivity]|vm_compute; reflexivity|].
  split; [exact H1|]. split; [vm_compute; reflexivity|]. destruct (H2 (FutJoin 3)) as (s' & E & Hc); [vm_compute; reflexivity|]. exists s'. split; [exact E|]. rewrite Hc. vm_compute. reflexivity.
Defined.

(** A wake that fails in the kernel never takes its allowance back. *)
Lemma failed_wake_leaks s g i fi reg : futexJoin s !! g = Some i -> f_calls s !! g = Some fi -> isFutexWakeOp (fi_op fi) = true -> i32 reg < 0 ->
  exists s', PostPatchFutex s g reg = Ret s' /\ maxAllowedFutexWakeups s' = maxAllowedFutexWakeups s /\ futexJoin s' = futexJoin s /\ f_calls s' = delete g (f_calls s).
Proof. intros E Ec Hw Hr. unfold PostPatchFutex. rewrite Ec, Hw, (wake_not_wait _ Hw). cbn [andb]. rewrite (proj2 (Z.leb_gt _ _)) by lia. by eexists. Qed.

(** C40: A wake whose count has its top bit set, such as UINT_MAX, wakes threads in the kernel, but the smaller of the
    result and the count taken as [int] is negative: as an unsigned number it is above the announced
    maximum, and the join of the waker fails its assertion. *)
Theorem futex_negative_count_fails s g op val reg i : futexJoin s !! g = Some i -> fj_action i = FJA_NONE -> isFutexWakeOp (i32 op) = true -> i32 val < 0 -> 0 <= i32 reg ->
  exists s1 s2, PrePatchFutex s g op val = Ret s1 /\ PostPatchFutex s1 g reg = Ret s2 /\ join_futex s2 g = Stop AssertFailed.
Proof.
  intros E Ha Hw Hv Hr. pose proof (wake_not_wait _ Hw) as Hn. unfold PrePatchFutex. cbv zeta. cbn [fi_op fi_val]. rewrite Hw. unfold notifyFutexWakeStart. rewrite (fut_info_ret _ _ _ E). cbn [mbind outcome_bind]. rewrite bool_decide_true by done. cbn [assert_ mbind outcome_bind]. change (Z.shiftl 1 24) with (2 ^ 24). eexists. eexists. split; [done|].
  unfold PostPatchFutex. cbn [f_calls]. rewrite lookup_insert_eq. cbn [fi_op fi_val maxAllowedFutexWakeups unmatchedFutexWakeups futexJoin f_matching]. rewrite Hw, Hn. cbn [andb]. rewrite (proj2 (Z.leb_le _ _)) by lia. unfold notifyFutexWakeEnd. rewrite (fut_info_ret _ g (mkFJ (fj_action i) (Z.min (u32 (i32 val)) (2 ^ 24)) (fj_wokenUp i))) by (cbn [futexJoin fut_put]; apply lookup_insert_eq). cbn [mbind outcome_bind fj_maxWakes]. split; [done|].
  unfold join_futex. erewrite fut_info_ret by (cbn [futexJoin fut_put]; apply lookup_insert_eq). cbn [mbind outcome_bind fj_action]. unfold futexWakeJoin. rewrite bool_decide_true by done. cbn [assert_ mbind outcome_bind fj_maxWakes fj_wokenUp].
  assert (Hbig : 2 ^ 31 <= u32 (Z.min (i32 reg) (i32 val))). { assert (Hval : i32 val = u32 val - 2 ^ 32 /\ 2 ^ 31 <= u32 val) by (clear -Hv; unfold i32 in *; pose proof (u32_range val); case_bool_decide; lia). destruct Hval as [Hval Hge]. pose proof (u32_range val). rewrite Z.min_r by lia. rewrite Hval. replace (u32 (u32 val - 2 ^ 32)) with (u32 val); [lia|]. unfold u32 at 2, wrap. replace (u32 val - 2 ^ 32) with (u32 val + -1 * 2 ^ 32) by lia. rewrite Z.mod_add, Z.mod_small by lia. done. }
  destruct (_ <=? maxAllowedFutexWakeups _); cbn [assert_ mbind outcome_bind]; [|done]. rewrite (proj2 (Z.leb_gt _ _)) by lia. done.
Qed.

Lemma futex_negative_count_fails_witness : exists s1 s2, PrePatchFutex (new_fut [1]) 1 FUTEX_WAKE (2 ^ 32 - 1) = Ret s1 /\ PostPatchFutex s1 1 1 = Ret s2 /\ join_futex s2 1 = Stop AssertFailed.
Proof. apply (futex_negative_count_fails (new_fut [1]) 1 FUTEX_WAKE (2 ^ 32 - 1) 1 (mkFJ FJA_NONE 0 0)); first [vm_compute; reflexivity|vm_compute; discriminate]. Defined.

(** With 256 wakers at the cap the allowance wraps to zero, and the first one to join fails its assertion. *)
Lemma futex_allowance_wraps :
  let wakes := map (fun g => FutPre g FUTEX_WAKE (2 ^ 31 - 1)) (zrange 256) in
  (maxAllowedFutexWakeups <$> fold_ fut_do wakes (new_fut (zrange 256))) = Ret 0 /\ fold_ fut_do (wakes ++ [FutPost 0 1; FutJoin 0]) (new_fut (zrange 256)) = Stop AssertFailed.
Proof. vm_compute. split; reflexivity. Qed.
